(* ===== verification/_CoqProject ===== *)
-Q . S2P
Prelude.v
Wait.v
Pipe.v
KHeap.v
Frames.v
Paging.v
Resources.v
SharedPages.v
FileTable.v
Task.v
Schedule.v
Reap.v
Signal.v
Process.v
Threads.v
Tty.v
Bytes.v
LineEdit.v
Disk.v
Vfs.v
Shell.v
ShellExec.v
Ext2.v
Ext2Layout.v
Ext2Files.v
Ext2Image.v
Screen.v
Locks.v
FileCalls.v
UserFs.v
UserSpace.v
UserMem.v
Arena.v
Elf.v
