(* ===== verification/Prelude.v ===== *)
(** * Felix: a verification development

    Felix is a Unix-like operating system in Rust for 32-bit x86: a kernel
    ([src/kernel]), a user library ([src/lib]) and applications ([src/apps],
    [src/std-apps]).  This development translates the parts of it that carry
    state and invariants into executable definitions and proves what they
    promise.  Paths below are relative to [src/].

    ** Conventions

    The kernel is built in the profile that checks arithmetic, so an overflow,
    an index out of range or an [unwrap] of [None] is a kernel panic.  Code
    that can panic returns an [outcome], [Ret v] or [Panic]; an operation is
    proved total by exhibiting its [Ret].  Machine integers are [Z] with the
    wrap-around or the overflow check of the source written out.  A struct is a
    record, updated with [r <| f := v |>]; a table of structs is the list of
    its entries.  [Result] is [result], with the error numbers of the source.
    Kernel operations run under the kernel lock or with interrupts disabled, so
    one call is one step; where the code gives the lock up in the middle of an
    operation, its critical sections are separate definitions and the theorems
    hold for every interleaving.  Log output and trace records are left out.

    ** The files

    - [Prelude]: this header, record update, the [outcome] monad, checked
      machine arithmetic, lists indexed by integers, shared lemmas and tactics.
    - [Wait] (kernel/src/multitasking/task.rs): task states, wait reasons, and
      the class [WaitQueue] through which other components wake tasks.
    - [Pipe] (kernel/src/pipe.rs): the table of pipes; proved against any
      [WaitQueue].
    - [KHeap] (kernel/src/memory/allocator.rs): the kernel heap with its free
      list threaded through memory.
    - [Frames], [Paging] (kernel/src/memory/paging.rs): the frame allocator;
      page directories and tables in a store of frames.
    - [Resources] (kernel/src/memory/resources.rs): owned physical ranges, DMA
      buffers, MMIO mappings, over [Frames] and [Paging].
    - [SharedPages] (kernel/src/memory/shared.rs): the cache of shared file
      pages.
    - [FileTable] (kernel/src/filesystem/file.rs): descriptor tables over one
      store of counted open file descriptions.
    - [Task], [Schedule], [Reap] (kernel/src/multitasking/task.rs, smp.rs):
      the scheduler, its choice of tasks on several CPUs, and reaping.  [Task]
      discharges the interface [WaitQueue].
    - [Signal] (kernel/src/signal.rs): the kernel state that joins scheduler,
      descriptors and pipes; queueing and delivery of signals.
    - [Process], [Threads] (kernel/src/syscalls/handler.rs): exit, wait, kill,
      sessions and groups; threads, futexes, sleeping, restarted calls.
    - [Tty] (kernel/src/tty.rs): terminals, pseudo terminals, line discipline.
    - [Vfs] (kernel/src/filesystem/vfs.rs, syscalls/handler.rs): paths, the
      mount table, and the class [Filesystem] with its operations.
    - [Disk] (kernel/src/disk): the class of block devices with its laws, and
      the memory disk as an instance.
    - [Bytes], [Ext2], [Ext2Layout], [Ext2Files], [Ext2Image]
      (kernel/src/filesystem/ext2.rs): the ext2 filesystem over any block
      device that satisfies the laws, as an instance of [Filesystem]; its
      layout, the contents of files, and a concrete image.
    - [FileCalls] (kernel/src/syscalls/handler.rs): the system calls on
      descriptors and paths, over [Tty], [FileTable], [Pipe] and [Vfs]; the
      descriptors a child gets and those an exit closes.
    - [UserFs] (lib/src/fs.rs): the file library of user space, against a class
      of system calls whose instance runs [FileCalls]; the class [FileLaws] of
      what a filesystem promises of regular files, and a filesystem in memory
      that keeps it.
    - [UserSpace], [UserMem], [Arena] (kernel/src/syscalls/handler.rs): the
      user half of the page tables as a map from pages to frames; the memory
      calls [malloc], [realloc], [brk], [mmap] and [munmap] over [Paging],
      [SharedPages] and [Task]; the address ranges they give out.
    - [Elf] (kernel/src/elf.rs): the program loader, over [UserSpace].
    - [Locks] (lib/src/mutex.rs, kernel/src/spin, interrupt-sync): the futex
      mutex of user space, the kernel spin lock, the interrupt guard and the
      lazy cell, as steps of interleaved threads and processors.
    - [LineEdit], [Shell], [ShellExec] (apps/shell/src): the line editor and
      key decoder; the grammar, words, variables and completion; execution of
      pipelines and jobs.
    - [Screen] (apps/terminal/src/terminal.rs): the screen of the terminal.

    ** What the theorems show

    - Scheduling: in every reachable state no task runs on two CPUs, and a tick
      returns ([sched_exclusive]); reaping frees exactly the slots of a
      quiescent zombie ([reap_exact]).
    - Memory: allocations are disjoint and fresh ([heap_alloc_disjoint],
      [frame_alloc_fresh], [dma_alloc_exact]), every heap operation ends and
      returns ([heap_ops_total]), all address spaces share the kernel half
      ([kernel_half_shared]), a cached page is counted by its mappings
      ([shared_pages_coherent]).
    - Memory of processes: after any private memory calls an anonymous mapping
      gets unused addresses and zeroed frames of its own and disturbs no other
      page ([mmap_fresh]), and [munmap] returns the frames and the addresses
      ([munmap_exact]).  The calls are [brk], [malloc], [realloc] below the arena,
      [free], private mappings without address hint or [MAP_FIXED], and [munmap]
      not beyond the top of the arena, where it breaks the property
      ([munmap_unmapped_overlaps]).  A loaded program has the bytes and the permissions its
      file says ([load_elf_exact]).  Shared mappings are defined, and never laid over a
      mapped page, but the runs of these theorems have none.
    - Communication: pipes refine byte queues and lose no wake-up
      ([pipe_fifo], [pipe_no_lost_wakeup]); a cooked terminal delivers the
      lines as edited ([cooked_roundtrip]) and stops background readers
      ([background_read_stops]).
    - Processes: exit and wait, thread exit and join, futex wait and wake,
      kill, and the delivery of signals against their specifications.
    - Files: descriptor counts ([fd_refcount_exact]), path resolution
      ([resolve_exact], [inode_routes_back]), and on ext2 that what is written
      is read back and block allocation touches nothing else
      ([write_at_roundtrip], [file_roundtrip], [alloc_block_exact]).  The
      theorems on ext2 are for one block group and blocks of 2048 or 4096 bytes;
      with blocks of 1024 bytes the code takes the superblock for the group
      descriptor ([descriptor_is_superblock]).
    - System calls and library: after any sequence of calls, spawns and exits
      a read of an empty pipe reports its end exactly when no process holds
      the write end, and a write the converse ([pipe_end_of_file],
      [pipe_write_exact]); a file written by the library is read back byte for
      byte ([write_read_roundtrip]), and a listing has every entry once
      ([read_dir_entries_exact]).
    - Locks: exclusion, interrupts off while held, and that no wake-up is lost
      and a waiting thread can still get the mutex ([kmutex_safe], [user_mutex_exclusive],
      [user_mutex_obtainable]).
    - Shell and terminal: a printed command line is parsed back
      ([command_roundtrip]), words expand as specified, pipelines leave no
      descriptor open and are wired in order, key handling never panics, the
      editor refines a pair of strings, and the terminal stays within bounds
      and keeps the text it was given ([terminal_in_bounds],
      [printed_text_kept], [resize_keeps_letters]).  The builtins of the shell that
      work on files are a parameter of its executor ([executor_safe] needs them
      to return).

    ** Bounds

    - Physical memory: the kernel reaches a frame at [phys_to_virt], and the
      alias of a frame at 0x3FC00000 or above is a page table
      ([direct_map_window_lost]).  In [Paging], [Resources], [UserMem] and [Elf]
      each access to a table, a fresh frame, a DMA buffer or a segment's frame
      panics there, and the invariants ask for at most 1020 MiB of memory.
      [SharedPages] and the frames that [Task] allocates for stacks and
      directories are accessed without that check: the theorems on them are
      about counts, owners and slots.
    - The terminal: fewer than 2^31 cells.  Applications are built without
      overflow checks, so the number of cells wraps, and a larger screen can
      be too short for its rows ([huge_screen_panics]).

    ** Fuel

    Loops that are not structural take fuel, and it never decides a result.
    Walks over the heap's free list get one more than the number of blocks
    ([walk_fuel]), which bounds an acyclic list; runs of frames get the number
    of frames; loops over directory entries get the block size, each entry
    moving the offset or ending the loop; spans of a file get their length;
    decimal digits of a 32-bit number are at most ten; cursor and word loops
    get the length of the text.  The theorems state results as [Ret], so a
    walk that stopped early would not satisfy them.  [ShellExec] waits for
    processes: its programs take a number of rounds and say when they are used
    up, since whether a process ends is not the shell's to decide.  The loops
    of [UserFs] that read to the end of a file or a directory take the number
    of calls, and their theorems say how many are enough.  Loops over user
    pages get the number of pages in the range.

    ** Not modelled

    - Device drivers (kernel/src/drivers, pci): their meaning is the effect of
      port and memory accesses on hardware, which the sources do not define.
    - The network stack (kernel/src/net, lib/src/net): an adapter around the
      library smoltcp.
    - Boot code, interrupt entry, descriptor tables, processor start-up and
      context switching: assembly and hardware state.
    - Windows, widgets and drawing (drivers/wm.rs, lib/src/ui, popui,
      popugos): output to a frame buffer.
    - The system calls on sockets, windows and the clock, terminal control by
      ioctl, and the applications other than shell and terminal.
    - Timing: timers are modelled by the tick count they compare with, and the
      hardware clock is a parameter. *)

From Stdlib Require Export ZArith Lia.
From stdpp Require Export base list list_numbers gmap strings sorting.

#[global] Open Scope Z_scope.

(** ** Record update

    [r <| f := v |>] is [r] with field [f] set to [v].  A record type declares
    its eta-expansion as an [Eta] instance; the setter of a field is that
    expansion with the field's projection replaced. *)

Class Eta (R : Type) := eta_expand : R -> R.
Class Setter {R E : Type} (field : R -> E) := setter : E -> R -> R.

Definition set_field {R E : Type} (field : R -> E) `{!Setter field} (v : E) (r : R) : R :=
  setter v r.

Ltac head_of t := lazymatch t with ?f _ => head_of f | ?g => g end.

Ltac build_setter :=
  match goal with
  | |- @Setter ?R ?E ?field =>
      let inst := constr:(_ : Eta R) in
      let h := head_of inst in
      let e := eval cbv beta delta [h] in inst in
      match eval pattern field in e with
      | ?body _ =>
          let t := eval cbv beta in (fun (v : E) => body (fun _ : R => v)) in exact t
      end
  end.
#[global] Hint Extern 1 (@Setter _ _ _) => build_setter : typeclass_instances.

Notation "r <| f := v |>" := (set_field f v r)
  (at level 12, left associativity, f at next level, v at level 99,
   format "r  <| f  :=  v |>").

(** ** Panics

    The kernel is built with the [dev] profile (Makefile, target of
    [felix-kernel]), so arithmetic overflow, an index out of range and
    [unwrap] of [None] all abort.  A Rust function that can do that is a
    function into [outcome]. *)

Inductive outcome (A : Type) : Type :=
| Ret (a : A)
| Panic.
Arguments Ret {A} _.
Arguments Panic {A}.

Definition outcome_bind {A B : Type} (f : A -> outcome B) (m : outcome A) : outcome B :=
  match m with
  | Ret a => f a
  | Panic => Panic
  end.

#[global] Instance outcome_mret : MRet outcome := @Ret.
#[global] Instance outcome_mbind : MBind outcome := @outcome_bind.

Lemma bind_Ret {A B} (m : outcome A) (f : A -> outcome B) (b : B) :
  m ≫= f = Ret b <-> exists a, m = Ret a /\ f a = Ret b.
Proof.
  destruct m as [a|]; simpl; split.
  - by exists a.
  - by intros (? & [= <-] & ?).
  - done.
  - by intros (? & ? & ?).
Qed.

Lemma bind_Ret_l {A B} (a : A) (f : A -> outcome B) : Ret a ≫= f = f a.
Proof. done. Qed.

(** [unwrap] of an option. *)
Definition unwrap {A} (o : option A) : outcome A :=
  match o with Some a => Ret a | None => Panic end.

Definition assert (b : bool) : outcome () := if b then Ret () else Panic.

(** ** Machine integers

    A [w]-bit unsigned integer is a [Z] in [0 .. 2^w - 1]. *)

Definition in_u (w z : Z) : Prop := 0 <= z < 2 ^ w.
Abbreviation in_u8 := (in_u 8).
Abbreviation in_u16 := (in_u 16).
Abbreviation in_u32 := (in_u 32).
Abbreviation in_u64 := (in_u 64).

Definition U32_MAX : Z := 4294967295.
Definition USIZE_MAX : Z := 4294967295.

(** [a + b], [a - b] with the overflow check of the [dev] profile. *)
Definition add_u (w a b : Z) : outcome Z :=
  if a + b <? 2 ^ w then Ret (a + b) else Panic.
Definition sub_u (a b : Z) : outcome Z :=
  if b <=? a then Ret (a - b) else Panic.

Definition checked_add (w a b : Z) : option Z :=
  if a + b <? 2 ^ w then Some (a + b) else None.
Definition saturating_add (w a b : Z) : Z := Z.min (a + b) (2 ^ w - 1).
Definition saturating_sub (a b : Z) : Z := Z.max (a - b) 0.
Definition wrapping_add (w a b : Z) : Z := (a + b) mod 2 ^ w.
Definition wrapping_sub (w a b : Z) : Z := (a - b) mod 2 ^ w.

(** [!a] of a [w]-bit word. *)
Definition not_u (w a : Z) : Z := Z.lxor a (Z.ones w).

(** ** Arrays and slices *)

(** [v.get(i)] *)
Definition get {A} (l : list A) (i : Z) : option A :=
  if i <? 0 then None else l !! Z.to_nat i.

(** [v[i]] *)
Definition idx {A} (l : list A) (i : Z) : outcome A := unwrap (get l i).

(** [v[i] = x] *)
Definition upd {A} (l : list A) (i : Z) (x : A) : outcome (list A) :=
  if (0 <=? i) && (i <? Z.of_nat (length l)) then Ret (<[Z.to_nat i := x]> l) else Panic.

(** [v.len()] *)
Definition zlen {A} (l : list A) : Z := Z.of_nat (length l).

(** [v.pop()]: the last element and the rest. *)
Definition vec_pop {A} (l : list A) : option (A * list A) :=
  match last l with
  | Some x => Some (x, removelast l)
  | None => None
  end.

(** [v.remove(i)] and [v.drain(i..j)], in range. *)
Definition vec_remove {A} (l : list A) (i : Z) : list A :=
  take (Z.to_nat i) l ++ drop (S (Z.to_nat i)) l.
Definition vec_drain {A} (l : list A) (i j : Z) : list A :=
  take (Z.to_nat i) l ++ drop (Z.to_nat j) l.

(** [v.swap_remove(i)] *)
Definition vec_swap_remove {A} (l : list A) (i : Z) : list A :=
  match last l with
  | Some y => take (pred (length l)) (<[Z.to_nat i := y]> l)
  | None => l
  end.

(** [v.iter().position(p)] *)
Definition vec_position {A} (p : A -> bool) (l : list A) : option Z :=
  (fun x => Z.of_nat x.1) <$> list_find (fun a => p a = true) l.

(** [v.sort_unstable_by_key(key)]; the order of equal keys is unspecified. *)
Definition key_le {A} (key : A -> Z) (a b : A) : Prop := key a <= key b.
#[global] Instance key_le_dec {A} (key : A -> Z) : RelDecision (key_le key) :=
  fun a b => Z.le_dec (key a) (key b).
Definition sort_by_key {A} (key : A -> Z) (l : list A) : list A := merge_sort (key_le key) l.

(** [v.dedup()]: of consecutive equal elements the first stays. *)
Fixpoint dedup (l : list Z) : list Z :=
  match l with
  | [] => []
  | x :: t =>
      match t with
      | y :: _ => if x =? y then dedup t else x :: dedup t
      | [] => [x]
      end
  end.

(** [Result<A, E>] *)
Inductive result (A E : Type) : Type :=
| Ok (a : A)
| Err (e : E).
Arguments Ok {A E} _.
Arguments Err {A E} _.

Create HintDb felix.
Create Rewrite HintDb felix.

(** ** Tactics *)

(** Case analysis on the integer comparisons of the goal and hypotheses. *)
Ltac zcase :=
  repeat match goal with
  | H : context [Z.ltb ?a ?b] |- _ => destruct (Z.ltb_spec a b)
  | H : context [Z.leb ?a ?b] |- _ => destruct (Z.leb_spec a b)
  | H : context [Z.eqb ?a ?b] |- _ => destruct (Z.eqb_spec a b)
  | |- context [Z.ltb ?a ?b] => destruct (Z.ltb_spec a b)
  | |- context [Z.leb ?a ?b] => destruct (Z.leb_spec a b)
  | |- context [Z.eqb ?a ?b] => destruct (Z.eqb_spec a b)
  end.

#[global] Instance Ret_inj {A} : Inj eq eq (@Ret A).
Proof. by intros x y [= ->]. Qed.

(** [lia] with division and modulo by constants. *)
Ltac mlia := Z.to_euclidean_division_equations; lia.

Lemma add_u_Ret w a b : a + b < 2 ^ w -> add_u w a b = Ret (a + b).
Proof. unfold add_u. intros. by rewrite (proj2 (Z.ltb_lt _ _)). Qed.

(** Opens a chain of binds that ended in [Ret]. *)
Ltac outcome_inv :=
  repeat match goal with
  | H : _ ≫= _ = Ret _ |- _ => apply bind_Ret in H; destruct H as (? & ? & H)
  | H : Ret _ = Ret _ |- _ => apply (inj Ret) in H
  | H : ((_, _) = (_, _)) |- _ => injection H as ?
  | H : Panic = Ret _ |- _ => discriminate H
  end.

(** ** Lemmas on arrays *)

Section arrays.
Context {A : Type}.
Implicit Types (l : list A) (i j : Z) (x : A).

Lemma zlen_nonneg l : 0 <= zlen l.
Proof. unfold zlen; lia. Qed.

Lemma get_Some_range l i x : get l i = Some x -> 0 <= i < zlen l.
Proof.
  unfold get, zlen. zcase; [done|]. intros Hl%lookup_lt_Some. lia.
Qed.

Lemma get_in_range l i : 0 <= i < zlen l -> exists x, get l i = Some x.
Proof.
  unfold get, zlen. intros ?. zcase; [lia|].
  apply lookup_lt_is_Some_2. lia.
Qed.

Lemma get_None l i : get l i = None <-> i < 0 \/ zlen l <= i.
Proof.
  unfold get, zlen. zcase.
  - split; [lia | done].
  - rewrite lookup_ge_None. lia.
Qed.

Lemma idx_Ret l i x : idx l i = Ret x <-> get l i = Some x.
Proof. unfold idx, unwrap. destruct (get l i); naive_solver. Qed.

Lemma upd_in_range l i x :
  0 <= i < zlen l -> upd l i x = Ret (<[Z.to_nat i := x]> l).
Proof. unfold upd, zlen. intros ?. zcase; simpl; try lia; done. Qed.

Lemma upd_Ret l i x l' :
  upd l i x = Ret l' <-> 0 <= i < zlen l /\ l' = <[Z.to_nat i := x]> l.
Proof.
  unfold upd, zlen. zcase; simpl; split; try naive_solver lia.
Qed.

Lemma zlen_insert l n x : zlen (<[n := x]> l) = zlen l.
Proof. unfold zlen. by rewrite length_insert. Qed.

Lemma get_insert_eq l i x :
  0 <= i < zlen l -> get (<[Z.to_nat i := x]> l) i = Some x.
Proof.
  unfold get, zlen. intros ?. zcase; [lia|].
  apply list_lookup_insert_eq. lia.
Qed.

Lemma get_insert_ne l i j x :
  0 <= i -> i <> j -> get (<[Z.to_nat i := x]> l) j = get l j.
Proof.
  unfold get. intros. zcase; [done|]. apply list_lookup_insert_ne. lia.
Qed.

Lemma get_insert l i j x :
  0 <= i < zlen l ->
  get (<[Z.to_nat i := x]> l) j = if i =? j then Some x else get l j.
Proof.
  intros. zcase; [subst; by apply get_insert_eq | apply get_insert_ne; lia].
Qed.

Lemma get_app_r l x : get (l ++ [x]) (zlen l) = Some x.
Proof.
  unfold get, zlen. zcase; [lia|]. rewrite lookup_app_r by lia.
  by replace (Z.to_nat _ - length l)%nat with 0%nat by lia.
Qed.

Lemma get_middle l1 x l2 : get (l1 ++ x :: l2) (zlen l1) = Some x.
Proof. unfold get, zlen. zcase; [lia|]. by rewrite Nat2Z.id, list_lookup_middle. Qed.

Lemma zlen_app l k : zlen (l ++ k) = zlen l + zlen k.
Proof. unfold zlen. rewrite length_app. lia. Qed.

Lemma zlen_cons x l : zlen (x :: l) = 1 + zlen l.
Proof. unfold zlen. simpl length. lia. Qed.

Lemma zlen_replicate n x : zlen (replicate n x) = Z.of_nat n.
Proof. unfold zlen. by rewrite length_replicate. Qed.

Lemma get_replicate n x y i : get (replicate n x) i = Some y -> y = x.
Proof. unfold get. destruct (i <? 0); [done|]. by intros [-> _]%lookup_replicate. Qed.

Lemma filter_all (P : A -> Prop) `{!forall x, Decision (P x)} l : Forall P l -> filter P l = l.
Proof. induction 1; [done|]. rewrite filter_cons_True by done. by f_equal. Qed.

Lemma vec_pop_Some l x l' : vec_pop l = Some (x, l') <-> l = l' ++ [x].
Proof.
  unfold vec_pop. destruct l as [|y l0 _] using rev_ind; [split; [done|by destruct l']|].
  rewrite last_snoc, removelast_last. split; [by intros [= -> ->]|].
  by intros [-> ->]%app_inj_tail.
Qed.

Lemma vec_pop_None l : vec_pop l = None <-> l = [].
Proof.
  unfold vec_pop. destruct (last l) eqn:E; [|by apply last_None in E].
  split; [done|]. by intros ->.
Qed.

Lemma vec_position_Some (p : A -> bool) l i :
  vec_position p l = Some i ->
  exists l1 x l2, l = l1 ++ x :: l2 /\ i = zlen l1 /\ p x = true /\ Forall (fun y => p y = false) l1.
Proof.
  unfold vec_position. intros ([n x] & Hf & ->)%fmap_Some.
  apply list_find_Some in Hf as (Hx & Hp & Hbefore).
  exists (take n l), x, (drop (S n) l). split_and!; [by rewrite take_drop_middle| |done|].
  - unfold zlen. rewrite length_take. apply lookup_lt_Some in Hx. simpl. lia.
  - apply Forall_lookup. intros j y [Hy Hj]%lookup_take_Some.
    specialize (Hbefore j y Hy Hj). by destruct (p y).
Qed.

Lemma vec_position_None (p : A -> bool) l :
  vec_position p l = None -> Forall (fun y => p y = false) l.
Proof.
  unfold vec_position. intros H. apply fmap_None, list_find_None in H.
  eapply Forall_impl; [exact H|]. intros y. simpl. by destruct (p y).
Qed.

Lemma vec_swap_remove_middle l1 x l2 : vec_swap_remove (l1 ++ x :: l2) (zlen l1) ≡ₚ l1 ++ l2.
Proof.
  unfold vec_swap_remove, zlen. rewrite Nat2Z.id.
  destruct l2 as [|y l2 _] using rev_ind.
  - rewrite last_snoc, length_app. simpl. rewrite Nat.add_1_r. simpl.
    rewrite take_insert_ge by done. by rewrite take_app_length, app_nil_r.
  - rewrite app_comm_cons, app_assoc, last_snoc, <- app_assoc. simpl.
    replace (<[length l1 := y]> (l1 ++ x :: l2 ++ [y])) with ((l1 ++ y :: l2) ++ [y])
      by (rewrite <- (Nat.add_0_r (length l1)) at 1; by rewrite insert_app_r, <- app_assoc).
    rewrite take_app_length' by (rewrite !length_app; simpl; rewrite length_app; simpl; lia).
    by rewrite Permutation_cons_append.
Qed.

Lemma vec_remove_middle l1 x l2 : vec_remove (l1 ++ x :: l2) (zlen l1) = l1 ++ l2.
Proof.
  unfold vec_remove, zlen. rewrite Nat2Z.id, take_app_length.
  by rewrite (cons_middle x l1 l2), app_assoc, drop_app_length'
    by (rewrite length_app; simpl; lia).
Qed.

Lemma sort_by_key_Permutation (key : A -> Z) l : sort_by_key key l ≡ₚ l.
Proof. apply merge_sort_Permutation. Qed.

Lemma sort_by_key_sorted (key : A -> Z) l :
  StronglySorted (key_le key) (sort_by_key key l).
Proof.
  assert (Transitive (key_le key)) by (intros a b c; unfold key_le; lia).
  assert (Total (key_le key)) by (intros a b; unfold key_le; lia).
  apply (StronglySorted_merge_sort (key_le key)).
Qed.

End arrays.

(** ** Tables of disjoint intervals *)

Lemma StronglySorted_Permutation {A} (R : relation A) l1 l2 :
  Symmetric R -> l1 ≡ₚ l2 -> StronglySorted R l1 -> StronglySorted R l2.
Proof.
  intros Hsym. induction 1 as [|x l l' Hp IH|x y l|l l' l'' _ IH1 _ IH2]; intros Hs; [done| | |auto].
  - apply StronglySorted_inv in Hs as [Hs Hx]. constructor; [auto|]. by rewrite <- Hp.
  - apply StronglySorted_inv in Hs as [Hs Hy]. apply StronglySorted_inv in Hs as [Hs Hx].
    apply Forall_cons in Hy as [Hyx Hy]. repeat constructor; try done; by apply Hsym.
Qed.

Lemma seqZ_snoc m n : 0 <= n -> seqZ m (n + 1) = seqZ m n ++ [m + n].
Proof. intros. rewrite seqZ_app by lia. by rewrite (seqZ_cons (m + n) 1) by lia. Qed.

Lemma NoDup_fmap_elem {A B} (g : A -> B) (l : list A) :
  NoDup (g <$> l) -> forall x y, x ∈ l -> y ∈ l -> g x = g y -> x = y.
Proof.
  induction l as [|a l IH]; simpl; intros Hnd x y; [by intros ?%not_elem_of_nil|].
  apply NoDup_cons in Hnd as [Ha Hnd]. rewrite !elem_of_cons. intros [-> |Hx] [-> |Hy] He; try done; [| |by apply IH];
    destruct Ha; [rewrite He|rewrite <- He]; by apply list_elem_of_fmap_2.
Qed.

Section intervals.
Context {A : Type} (start size : A -> Z).
Implicit Types (l : list A) (x : A).

Definition before a b : Prop := start a + size a <= start b.
Definition apart a b : Prop := before a b \/ before b a.

#[global] Instance apart_sym : Symmetric apart.
Proof. intros a b [?|?]; [by right|by left]. Qed.

Lemma sorted_before l :
  Forall (fun a => 0 < size a) l -> StronglySorted (key_le start) l -> StronglySorted apart l ->
  StronglySorted before l.
Proof.
  induction l as [|a l IH]; intros Hp Hk Ha; [constructor|].
  apply Forall_cons in Hp as [Hpa Hp]. apply StronglySorted_inv in Hk as [Hk Hka].
  apply StronglySorted_inv in Ha as [Ha Haa]. constructor; [auto|].
  apply Forall_forall. intros b Hb. pose proof (proj1 (Forall_forall _ _) Hka b Hb) as H1.
  pose proof (proj1 (Forall_forall _ _) Hp b Hb) as H2. simpl in H2.
  destruct (proj1 (Forall_forall _ _) Haa b Hb) as [H3|H3]; [done|]. unfold before, key_le in *. lia.
Qed.

(** Inserting an interval apart from all others and sorting again. *)
Lemma intervals_insert l x :
  Forall (fun a => 0 < size a) l -> 0 < size x -> StronglySorted before l -> Forall (apart x) l ->
  StronglySorted before (sort_by_key start (l ++ [x])).
Proof.
  intros Hp Hx Hs Ha. apply sorted_before.
  - rewrite sort_by_key_Permutation. apply Forall_app. by repeat constructor.
  - apply sort_by_key_sorted.
  - apply (StronglySorted_Permutation _ (x :: l)); [apply _| |].
    + rewrite sort_by_key_Permutation. apply Permutation_cons_append.
    + constructor; [|done]. clear -Hs. induction Hs as [|a l' Hl IH Ha]; constructor; [done|].
      eapply Forall_impl; [exact Ha|]. intros b ?. by left.
Qed.

(** Ordered disjoint intervals are told apart by their starts. *)
Lemma before_inj l x y :
  Forall (fun a => 0 < size a) l -> StronglySorted before l -> x ∈ l -> y ∈ l -> start x = start y -> x = y.
Proof.
  intros Hp Hs. induction Hs as [|a l Hl IH Ha]; [by intros ?%not_elem_of_nil|].
  apply Forall_cons in Hp as [Hpa Hp]. unfold before in Ha. rewrite !elem_of_cons. intros [-> |Hx] [-> |Hy] He; try done.
  - pose proof (proj1 (Forall_forall _ _) Ha y Hy) as H. simpl in H. lia.
  - pose proof (proj1 (Forall_forall _ _) Ha x Hx) as H. simpl in H. lia.
  - by apply IH.
Qed.

Lemma before_apart l x y : StronglySorted before l -> x ∈ l -> y ∈ l -> x <> y -> apart x y.
Proof.
  induction 1 as [|a l Hl IH Ha]; [by intros ?%not_elem_of_nil|].
  rewrite !elem_of_cons. intros [-> |Hx] [-> |Hy] Hne; try done; [left|right|by apply IH];
    by apply (proj1 (Forall_forall _ _) Ha).
Qed.

(** Two members that share a point are the same. *)
Lemma apart_point l x y p :
  StronglySorted apart l -> x ∈ l -> y ∈ l ->
  start x <= p < start x + size x -> start y <= p < start y + size y -> x = y.
Proof.
  induction 1 as [|a l Hl IH Ha]; [by intros ?%not_elem_of_nil|].
  rewrite !elem_of_cons. intros [-> |Hx] [-> |Hy] Hpx Hpy; try done; [| |by apply IH].
  - pose proof (proj1 (Forall_forall _ _) Ha y Hy) as [H|H]; unfold before in H; lia.
  - pose proof (proj1 (Forall_forall _ _) Ha x Hx) as [H|H]; unfold before in H; lia.
Qed.

Lemma intervals_remove (R : relation A) l1 x l2 : StronglySorted R (l1 ++ x :: l2) -> StronglySorted R (l1 ++ l2).
Proof.
  intros Hs. apply StronglySorted_app in Hs as (H12 & H1 & H2). apply StronglySorted_inv in H2 as [H2 _].
  apply StronglySorted_app. split_and!; try done. intros a b Ha Hb. apply H12; [done|]. by right.
Qed.
End intervals.

(** Sorting and removing duplicates of a list of integers. *)
Lemma dedup_cons a b l :
  dedup (a :: b :: l) = if a =? b then dedup (b :: l) else a :: dedup (b :: l).
Proof. done. Qed.

Lemma elem_of_dedup x l : x ∈ dedup l <-> x ∈ l.
Proof.
  induction l as [|a [|b l] IH]; [done..|]. rewrite dedup_cons.
  destruct (Z.eqb_spec a b) as [->|]; rewrite ?elem_of_cons in *; [|rewrite IH; done].
  rewrite IH. tauto.
Qed.

Lemma dedup_sorted l : StronglySorted Z.le l -> StronglySorted Z.lt (dedup l).
Proof.
  induction l as [|a [|b l] IH]; intros Hs; [constructor|by repeat constructor|].
  apply StronglySorted_inv in Hs as [Hs Hle]. rewrite dedup_cons.
  destruct (Z.eqb_spec a b) as [|Hne]; [by apply IH|]. constructor; [by apply IH|].
  apply Forall_forall. intros x Hx. rewrite elem_of_dedup in Hx.
  apply StronglySorted_inv in Hs as [_ Hb]. apply Forall_cons in Hle as [Hab _].
  apply elem_of_cons in Hx as [->|Hx]; [lia|].
  pose proof (proj1 (Forall_forall _ _) Hb x Hx). lia.
Qed.

#[global] Hint Rewrite @zlen_insert @zlen_app @zlen_cons @zlen_replicate : felix.
#[export] Hint Resolve zlen_nonneg : felix.

(** ** Alignment *)

(** [x & !(a - 1)] and [(x + a - 1) & !(a - 1)] on [w]-bit words. *)
Definition align_down (w x a : Z) : Z := Z.land x (not_u w (a - 1)).

Definition is_pow2 (a : Z) : Prop := exists k, 0 <= k /\ a = 2 ^ k.

(** [usize::is_power_of_two] *)
Definition is_power_of_two (a : Z) : bool := (0 <? a) && (Z.land a (a - 1) =? 0).

Lemma land_not_ones w x k :
  0 <= k <= w -> 0 <= x < 2 ^ w -> align_down w x (2 ^ k) = x - x mod 2 ^ k.
Proof.
  intros Hk Hx. unfold align_down, not_u.
  assert (x - x mod 2 ^ k = Z.shiftl (Z.shiftr x k) k) as ->.
  { rewrite Z.shiftl_mul_pow2, Z.shiftr_div_pow2 by lia.
    pose proof (Z.div_mod x (2 ^ k) ltac:(lia)). lia. }
  replace (2 ^ k - 1) with (Z.ones k) by (rewrite Z.ones_equiv; lia).
  apply Z.bits_inj'. intros i Hi.
  rewrite Z.land_spec, Z.lxor_spec, !Z.testbit_ones_nonneg by lia.
  rewrite Z.shiftl_spec by lia.
  destruct (Z.ltb_spec i k), (Z.ltb_spec i w); simpl; try lia.
  - by rewrite andb_false_r, Z.testbit_neg_r by lia.
  - rewrite andb_true_r, Z.shiftr_spec by lia. f_equal. lia.
  - rewrite andb_false_r, Z.shiftr_spec by lia.
    replace (i - k + k) with i by lia. symmetry.
    destruct (decide (x = 0)) as [->|]; [apply Z.bits_0|].
    apply Z.bits_above_log2; [lia|]. apply Z.log2_lt_pow2; [lia|].
    eapply Z.lt_le_trans; [apply Hx|]. apply Z.pow_le_mono_r; lia.
Qed.

Lemma align_down_pow2 w x a :
  is_pow2 a -> a <= 2 ^ w -> 0 <= w -> 0 <= x < 2 ^ w -> align_down w x a = x - x mod a.
Proof.
  intros (k & Hk & ->) Ha Hw Hx. apply land_not_ones; [|done].
  split; [done|]. destruct (Z.le_gt_cases k w); [done|].
  pose proof (Z.pow_lt_mono_r 2 w k ltac:(lia) ltac:(lia) ltac:(lia)). lia.
Qed.

Lemma is_pow2_pos a : is_pow2 a -> 0 < a.
Proof. intros (k & Hk & ->). lia. Qed.

Lemma is_pow2_divide a b : is_pow2 a -> is_pow2 b -> a <= b -> (a | b).
Proof.
  intros (j & Hj & ->) (k & Hk & ->) Hle. exists (2 ^ (k - j)).
  assert (j <= k) by (apply (Z.pow_le_mono_r_iff 2); lia).
  rewrite <- Z.pow_add_r by lia. f_equal. lia.
Qed.

Lemma is_pow2_max a b : is_pow2 a -> is_pow2 b -> is_pow2 (Z.max a b).
Proof. intros. by destruct (Z.max_spec a b) as [[_ ->]|[_ ->]]. Qed.

(** An address aligned to a power of two is aligned to every smaller one. *)
Lemma aligned_weaken x a b : is_pow2 a -> is_pow2 b -> a <= b -> x mod b = 0 -> x mod a = 0.
Proof.
  intros Ha Hb Hle Hx. pose proof (is_pow2_pos a Ha). pose proof (is_pow2_pos b Hb).
  apply Z.mod_divide; [lia|]. apply Z.mod_divide in Hx; [|lia].
  etransitivity; [by apply is_pow2_divide|done].
Qed.

Lemma lor_shiftl_add a b n : 0 <= n -> 0 <= b < 2 ^ n -> Z.lor (Z.shiftl a n) b = a * 2 ^ n + b.
Proof.
  intros Hn Hb. rewrite <- Z.shiftl_mul_pow2 by done. assert (Z.land (Z.shiftl a n) b = 0) as Hl.
  { apply Z.bits_inj'. intros j Hj. rewrite Z.land_spec, Z.bits_0. destruct (Z.lt_ge_cases j n).
    - by rewrite Z.shiftl_spec_low.
    - rewrite <- (Z.mod_small b (2 ^ n)) by done.
      by rewrite Z.mod_pow2_bits_high, andb_false_r by lia. }
  rewrite <- Z.lxor_lor, <- Z.add_nocarry_lxor by done. done.
Qed.
Lemma lor_range a b n : 0 <= n -> 0 <= a < 2 ^ n -> 0 <= b < 2 ^ n -> 0 <= Z.lor a b < 2 ^ n.
Proof.
  intros Hn Ha Hb. assert (0 <= Z.lor a b) by (apply Z.lor_nonneg; lia). split; [done|].
  destruct (Z.eq_dec (Z.lor a b) 0) as [->|]; [lia|]. apply Z.log2_lt_cancel.
  rewrite Z.log2_lor, Z.log2_pow2 by lia. apply Z.max_lub_lt.
  - destruct (Z.eq_dec a 0) as [->|]; [|apply Z.log2_lt_pow2; lia].
    destruct (Z.eq_dec n 0) as [->|]; [|simpl; lia]. change (2 ^ 0) with 1 in *. exfalso.
    assert (b = 0) as -> by lia. done.
  - destruct (Z.eq_dec b 0) as [->|]; [|apply Z.log2_lt_pow2; lia].
    destruct (Z.eq_dec n 0) as [->|]; [|simpl; lia]. change (2 ^ 0) with 1 in *. exfalso.
    assert (a = 0) as -> by lia. done.
Qed.

(** A number is bounded by its bits. *)
Lemma bits_lt_pow2 x w : 0 <= w -> 0 <= x -> (forall j, w <= j -> Z.testbit x j = false) -> x < 2 ^ w.
Proof.
  intros Hw Hx Hb. destruct (Z.eq_dec x 0) as [->|]; [lia|]. apply Z.log2_lt_pow2; [lia|].
  destruct (Z.lt_ge_cases (Z.log2 x) w) as [|Hge]; [done|]. pose proof (Z.bit_log2 x ltac:(lia)). by rewrite Hb in *.
Qed.
Lemma testbit_above x w j : 0 <= x < 2 ^ w -> 0 <= w <= j -> Z.testbit x j = false.
Proof.
  intros Hx Hj. destruct (Z.eq_dec x 0) as [->|]; [apply Z.bits_0|]. apply Z.bits_above_log2; [lia|].
  apply (Z.lt_le_trans _ w); [|lia]. apply Z.log2_lt_pow2; lia.
Qed.

(** Rounding up: the least multiple of [a] not below [x]. *)
Lemma align_up_pow2 w x a :
  is_pow2 a -> a <= 2 ^ w -> 0 <= w -> 0 <= x -> x + a - 1 < 2 ^ w ->
  let y := align_down w (x + a - 1) a in x <= y < x + a /\ y mod a = 0.
Proof.
  intros Hp Ha Hw Hx Hlt y. pose proof (is_pow2_pos a Hp) as Hpos. subst y.
  rewrite align_down_pow2 by (done || lia).
  pose proof (Z.mod_pos_bound (x + a - 1) a Hpos) as Hm. split; [lia|].
  rewrite Zminus_mod_idemp_r. by rewrite Z.sub_diag, Zmod_0_l.
Qed.

Lemma align_up_id w x a :
  is_pow2 a -> a <= 2 ^ w -> 0 <= w -> 0 <= x -> x + a - 1 < 2 ^ w -> x mod a = 0 ->
  align_down w (x + a - 1) a = x.
Proof.
  intros Hp Ha Hw Hx Hlt Hm. pose proof (is_pow2_pos a Hp) as Hpos.
  rewrite align_down_pow2 by (done || lia).
  replace (x + a - 1) with (a - 1 + x) by lia.
  rewrite <- Zplus_mod_idemp_r, Hm, Z.add_0_r, Z.mod_small; lia.
Qed.

Lemma is_power_of_two_spec a : is_power_of_two a = true <-> is_pow2 a.
Proof.
  unfold is_power_of_two, is_pow2. split.
  - intros [H1 H2]%andb_true_iff. apply Z.ltb_lt in H1. apply Z.eqb_eq in H2.
    exists (Z.log2 a). split; [apply Z.log2_nonneg|].
    pose proof (Z.log2_spec a H1) as [Hlo Hhi]. destruct (Z.eq_dec a (2 ^ Z.log2 a)) as [|Hne]; [done|].
    pose proof (Z.pow_pos_nonneg 2 (Z.log2 a) ltac:(lia) (Z.log2_nonneg a)) as Hpp.
    assert (Z.log2 (a - 1) = Z.log2 a) as Hlog.
    { apply Z.log2_unique; [apply Z.log2_nonneg|]. lia. }
    assert (Z.testbit (Z.land a (a - 1)) (Z.log2 a) = true) as Hbit.
    { rewrite Z.land_spec, Z.bit_log2 by lia. rewrite <- Hlog. rewrite Z.bit_log2 by lia. done. }
    by rewrite H2, Z.bits_0 in Hbit.
  - intros (k & Hk & ->). rewrite (proj2 (Z.ltb_lt _ _)) by lia. simpl.
    replace (2 ^ k - 1) with (Z.ones k) by (rewrite Z.ones_equiv; lia).
    rewrite Z.land_ones, Z_mod_same_full by lia. done.
Qed.
