(* ===== verification/Wait.v ===== *)
(** * Wait reasons and task states

    The scheduler-visible state of a task and the interface through which the
    other components (pipes, terminals, signals) wake the tasks that wait for
    them.  Source: [kernel/src/multitasking/task.rs]. *)

From S2P Require Import Prelude.

(** [enum WaitReason] *)
Inductive WaitReason : Type :=
| Generic
| Input
| Timer
| Child
| Thread
| Poll
| Socket
| Audio
| Futex.

(** [enum TaskState]; [Running] carries the CPU index. *)
Inductive TaskState : Type :=
| New
| Runnable
| Running (cpu : Z)
| Blocked (reason : WaitReason)
| Stopped
| Zombie.

#[global] Instance WaitReason_eq_dec : EqDecision WaitReason.
Proof. solve_decision. Defined.
#[global] Instance TaskState_eq_dec : EqDecision TaskState.
Proof. solve_decision. Defined.

(** What a wait queue promises its clients: [wake_waiters r] makes exactly the
    slots that are blocked for [r] stop being blocked. *)
Class WaitQueue (W : Type) := {
  wake_waiters : WaitReason -> W -> W;
  blocked_on : W -> nat -> option WaitReason;
  wake_waiters_spec : forall r w slot,
    blocked_on (wake_waiters r w) slot =
      match blocked_on w slot with
      | Some r' => if decide (r' = r) then None else Some r'
      | None => None
      end
}.

Section wait_queue.
Context {W : Type} `{!WaitQueue W}.

Lemma wake_waiters_wakes r w slot : blocked_on (wake_waiters r w) slot <> Some r.
Proof.
  rewrite wake_waiters_spec. destruct (blocked_on w slot); [|done].
  case_decide; naive_solver.
Qed.

Lemma wake_waiters_others r r' w slot :
  r' <> r -> blocked_on w slot = Some r' -> blocked_on (wake_waiters r w) slot = Some r'.
Proof. intros ? H. rewrite wake_waiters_spec, H. by rewrite decide_False. Qed.

Lemma wake_waiters_frame r w slot r' :
  blocked_on (wake_waiters r w) slot = Some r' -> blocked_on w slot = Some r'.
Proof.
  rewrite wake_waiters_spec. destruct (blocked_on w slot); [|done].
  by case_decide.
Qed.

End wait_queue.

(** The least wait queue: the function [blocked_on] itself. *)
Definition SlotWaits : Type := nat -> option WaitReason.

Definition slot_wake (r : WaitReason) (w : SlotWaits) : SlotWaits := fun slot =>
  match w slot with
  | Some r' => if decide (r' = r) then None else Some r'
  | None => None
  end.

#[global] Instance SlotWaits_WaitQueue : WaitQueue SlotWaits := {
  wake_waiters := slot_wake;
  blocked_on := fun w slot => w slot;
  wake_waiters_spec := fun r w slot => eq_refl
}.
