(* ===== verification/Pipe.v ===== *)
(** * Anonymous pipes

    Model of [kernel/src/pipe.rs]: a table of 16 pipes, each a 4096-byte ring
    buffer with reader and writer reference counts.  The table is shared by
    all tasks; the operations that change what a waiter can observe wake the
    tasks blocked for [Input] through the [WaitQueue] interface. *)

From S2P Require Import Prelude Wait.

Definition PIPE_BUF_SIZE : Z := 4096.
Definition MAX_PIPES : Z := 16.

(** ** Data *)

Record Pipe : Type := mkPipe {
  p_buf : list Z;
  p_head : Z;      (* next write index *)
  p_tail : Z;      (* next read index *)
  p_len : Z;
  p_readers : Z;
  p_writers : Z;
  p_in_use : bool
}.
#[global] Instance Pipe_eta : Eta Pipe := fun p =>
  mkPipe (p_buf p) (p_head p) (p_tail p) (p_len p) (p_readers p) (p_writers p) (p_in_use p).

(** [Pipe::empty] *)
Definition Pipe_empty : Pipe :=
  mkPipe (replicate (Z.to_nat PIPE_BUF_SIZE) 0) 0 0 0 0 0 false.

(** The initial value of [static mut PIPES]. *)
Definition PIPES_init : list Pipe := replicate (Z.to_nat MAX_PIPES) Pipe_empty.

Section operations.
Context {W : Type} `{!WaitQueue W}.

(** The two globals the operations touch: [PIPES] and [TASK_MANAGER]. *)
Record pstate : Type := mkP { PIPES : list Pipe; TASKS : W }.

Definition wake_input (s : pstate) : pstate :=
  mkP (PIPES s) (wake_waiters Input (TASKS s)).

(** The [for i in 0..MAX_PIPES] loop of [pipe_create]; [n] iterations are left. *)
Fixpoint pipe_create_loop (n : nat) (i : Z) (t : list Pipe) : outcome (option Z * list Pipe) :=
  match n with
  | O => Ret (None, t)
  | S n =>
      p ← idx t i;
      if negb (p_in_use p) then
        t' ← upd t i (Pipe_empty <| p_in_use := true |> <| p_readers := 1 |> <| p_writers := 1 |>);
        Ret (Some i, t')
      else pipe_create_loop n (i + 1) t
  end.

Definition pipe_create (s : pstate) : outcome (option Z * pstate) :=
  '(r, t) ← pipe_create_loop (Z.to_nat MAX_PIPES) 0 (PIPES s);
  Ret (r, mkP t (TASKS s)).

Definition pipe_add_reader (id : Z) (s : pstate) : outcome pstate :=
  if id <? MAX_PIPES then
    p ← idx (PIPES s) id;
    if p_in_use p then
      n ← add_u 32 (p_readers p) 1;
      t ← upd (PIPES s) id (p <| p_readers := n |>);
      Ret (mkP t (TASKS s))
    else Ret s
  else Ret s.

Definition pipe_add_writer (id : Z) (s : pstate) : outcome pstate :=
  if id <? MAX_PIPES then
    p ← idx (PIPES s) id;
    if p_in_use p then
      n ← add_u 32 (p_writers p) 1;
      t ← upd (PIPES s) id (p <| p_writers := n |>);
      Ret (mkP t (TASKS s))
    else Ret s
  else Ret s.

Definition maybe_free (id : Z) (s : pstate) : outcome pstate :=
  p ← idx (PIPES s) id;
  if (p_readers p =? 0) && (p_writers p =? 0) then
    t ← upd (PIPES s) id (p <| p_in_use := false |>);
    Ret (mkP t (TASKS s))
  else Ret s.

Definition pipe_close_reader (id : Z) (s : pstate) : outcome pstate :=
  if MAX_PIPES <=? id then Ret s else
  p ← idx (PIPES s) id;
  if negb (p_in_use p) then Ret s else
  t ← (if 0 <? p_readers p
       then upd (PIPES s) id (p <| p_readers := p_readers p - 1 |>)
       else Ret (PIPES s));
  maybe_free id (wake_input (mkP t (TASKS s))).

Definition pipe_close_writer (id : Z) (s : pstate) : outcome pstate :=
  if MAX_PIPES <=? id then Ret s else
  p ← idx (PIPES s) id;
  if negb (p_in_use p) then Ret s else
  t ← (if 0 <? p_writers p
       then upd (PIPES s) id (p <| p_writers := p_writers p - 1 |>)
       else Ret (PIPES s));
  maybe_free id (wake_input (mkP t (TASKS s))).

Definition pipe_readable (id : Z) (s : pstate) : outcome bool :=
  if MAX_PIPES <=? id then Ret true else
  p ← idx (PIPES s) id;
  if negb (p_in_use p) then Ret true else
  Ret ((0 <? p_len p) || (p_writers p =? 0)).

Definition pipe_writable (id : Z) (s : pstate) : outcome bool :=
  if MAX_PIPES <=? id then Ret true else
  p ← idx (PIPES s) id;
  if negb (p_in_use p) then Ret true else
  Ret ((p_readers p =? 0) || (p_len p <? PIPE_BUF_SIZE)).

(** One iteration of the read loop: the byte at [tail]. *)
Definition pipe_pop (p : Pipe) : outcome (Z * Pipe) :=
  byte ← idx (p_buf p) (p_tail p);
  t1 ← add_u 32 (p_tail p) 1;
  l1 ← sub_u (p_len p) 1;
  Ret (byte, p <| p_tail := t1 mod PIPE_BUF_SIZE |> <| p_len := l1 |>).

(** [while read < count && len > 0]; [n] is [count - read]. *)
Fixpoint pipe_read_loop (n : nat) (p : Pipe) : outcome (list Z * Pipe) :=
  match n with
  | O => Ret ([], p)
  | S n =>
      if 0 <? p_len p then
        '(byte, p1) ← pipe_pop p;
        '(bytes, p2) ← pipe_read_loop n p1;
        Ret (byte :: bytes, p2)
      else Ret ([], p)
  end.

(** The result is the return value, the bytes stored through the caller's
    pointer, and the new globals. *)
Definition pipe_try_read (id count : Z) (s : pstate) : outcome (Z * list Z * pstate) :=
  if (MAX_PIPES <=? id) || (count =? 0) then Ret (0, [], s) else
  p ← idx (PIPES s) id;
  if negb (p_in_use p) then Ret (0, [], s) else
  if p_len p =? 0 then
    Ret (if p_writers p =? 0 then 0 else USIZE_MAX, [], s)
  else
    '(bytes, p') ← pipe_read_loop (Z.to_nat count) p;
    t ← upd (PIPES s) id p';
    let s' := mkP t (TASKS s) in
    Ret (zlen bytes, bytes, if 0 <? zlen bytes then wake_input s' else s').

Definition pipe_push (byte : Z) (p : Pipe) : outcome Pipe :=
  b ← upd (p_buf p) (p_head p) byte;
  h1 ← add_u 32 (p_head p) 1;
  l1 ← add_u 32 (p_len p) 1;
  Ret (p <| p_buf := b |> <| p_head := h1 mod PIPE_BUF_SIZE |> <| p_len := l1 |>).

(** [while written < count && len < PIPE_BUF_SIZE] over the caller's bytes. *)
Fixpoint pipe_write_loop (data : list Z) (p : Pipe) : outcome (Z * Pipe) :=
  match data with
  | [] => Ret (0, p)
  | byte :: data =>
      if p_len p <? PIPE_BUF_SIZE then
        p1 ← pipe_push byte p;
        '(written, p2) ← pipe_write_loop data p1;
        Ret (1 + written, p2)
      else Ret (0, p)
  end.

(** [data] is the [count]-byte buffer the caller points to. *)
Definition pipe_try_write (id : Z) (data : list Z) (s : pstate) : outcome (Z * pstate) :=
  if (MAX_PIPES <=? id) || (zlen data =? 0) then Ret (0, s) else
  p ← idx (PIPES s) id;
  if negb (p_in_use p) then Ret (0, s) else
  if p_readers p =? 0 then Ret (0, s) else
  if p_len p =? PIPE_BUF_SIZE then Ret (USIZE_MAX, s) else
  '(written, p') ← pipe_write_loop data p;
  t ← upd (PIPES s) id p';
  let s' := mkP t (TASKS s) in
  Ret (written, if 0 <? written then wake_input s' else s').

End operations.
Arguments pstate : clear implicits.

(** ** The invariant of a pipe and of the table *)

Record pipe_ok (p : Pipe) : Prop := {
  ok_buf : zlen (p_buf p) = PIPE_BUF_SIZE;
  ok_tail : 0 <= p_tail p < PIPE_BUF_SIZE;
  ok_len : 0 <= p_len p <= PIPE_BUF_SIZE;
  ok_head : p_head p = (p_tail p + p_len p) mod PIPE_BUF_SIZE;
  ok_readers : in_u32 (p_readers p);
  ok_writers : in_u32 (p_writers p);
  ok_used : p_in_use p = true <-> 0 < p_readers p + p_writers p
}.

Definition table_ok (t : list Pipe) : Prop :=
  zlen t = MAX_PIPES /\ Forall pipe_ok t.

(** ** The abstract queue a pipe stands for *)

Definition ring_at (p : Pipe) (i : Z) : Z :=
  default 0 (get (p_buf p) ((p_tail p + i) mod PIPE_BUF_SIZE)).

Definition contents (p : Pipe) : list Z := ring_at p <$> seqZ 0 (p_len p).

Lemma zlen_contents p : pipe_ok p -> zlen (contents p) = p_len p.
Proof.
  intros Hok. unfold zlen, contents. rewrite length_fmap, length_seqZ.
  pose proof (ok_len _ Hok). lia.
Qed.

Lemma contents_ext p q :
  p_len p = p_len q -> (forall i, 0 <= i < p_len p -> ring_at p i = ring_at q i) ->
  contents p = contents q.
Proof.
  intros Hl Hi. unfold contents. rewrite <- Hl. apply list_fmap_ext.
  intros k x Hk. apply lookup_seqZ in Hk as [-> ?]. apply Hi. lia.
Qed.

(** The loops leave the reference counts alone. *)
Definition same_refs (p q : Pipe) : Prop :=
  p_readers q = p_readers p /\ p_writers q = p_writers p /\ p_in_use q = p_in_use p.

Lemma pipe_push_ok b p :
  pipe_ok p -> p_len p < PIPE_BUF_SIZE ->
  exists p', pipe_push b p = Ret p' /\ pipe_ok p' /\
             contents p' = contents p ++ [b] /\ same_refs p p' /\ p_len p' = p_len p + 1.
Proof.
  intros Hok Hlt. destruct Hok as [Hb Ht Hl Hh Hr Hw Hu].
  unfold PIPE_BUF_SIZE in *. unfold pipe_push.
  assert (Hhr : 0 <= p_head p < 4096) by mlia.
  rewrite upd_in_range by lia. unfold add_u. simpl.
  rewrite !(proj2 (Z.ltb_lt _ _)) by lia. simpl.
  eexists; split; [done|].
  match goal with |- pipe_ok ?q /\ _ => set (p' := q) end.
  assert (Hring : forall i, 0 <= i <= p_len p ->
    ring_at p' i = if p_len p =? i then b else ring_at p i).
  { intros i Hi. unfold ring_at, p', PIPE_BUF_SIZE; simpl. rewrite get_insert by lia.
    zcase; simpl; try done; mlia. }
  split_and!; [|..|done].
  - constructor; simpl; rewrite ?zlen_insert; unfold PIPE_BUF_SIZE; try done; mlia.
  - unfold contents at 1. unfold p' at 2; simpl. rewrite seqZ_snoc by lia.
    rewrite fmap_app. simpl. rewrite Hring by lia. rewrite Z.eqb_refl. f_equal.
    unfold contents. apply list_fmap_ext. intros k x Hk.
    apply lookup_seqZ in Hk as [-> ?]. rewrite Hring by lia.
    by rewrite (proj2 (Z.eqb_neq _ _)) by lia.
  - done.
Qed.

Lemma pipe_pop_ok p :
  pipe_ok p -> 0 < p_len p ->
  exists b p', pipe_pop p = Ret (b, p') /\ pipe_ok p' /\
               contents p = b :: contents p' /\ same_refs p p'.
Proof.
  intros Hok Hlt. destruct Hok as [Hb Ht Hl Hh Hr Hw Hu].
  unfold PIPE_BUF_SIZE in *. unfold pipe_pop.
  destruct (get_in_range (p_buf p) (p_tail p)) as [b Hg]; [lia|].
  unfold idx. rewrite Hg. simpl. unfold add_u, sub_u.
  rewrite (proj2 (Z.ltb_lt _ _)), (proj2 (Z.leb_le _ _)) by lia. simpl.
  do 2 eexists; split; [done|].
  match goal with |- pipe_ok ?q /\ _ => set (p' := q) end.
  split_and!; [|..|done].
  - constructor; simpl; unfold PIPE_BUF_SIZE; try done; mlia.
  - unfold contents. rewrite seqZ_cons by lia. simpl. f_equal.
    + unfold ring_at, PIPE_BUF_SIZE. rewrite Z.add_0_r, Z.mod_small by lia.
      by rewrite Hg.
    + change 1 with (1 + 0) at 1. rewrite <- (fmap_add_seqZ 1 0), Z.sub_1_r.
      rewrite <- list_fmap_compose.
      apply list_fmap_ext. intros k x Hk. apply lookup_seqZ in Hk as [-> ?].
      unfold ring_at, p', PIPE_BUF_SIZE; simpl. do 2 f_equal. mlia.
Qed.

Lemma same_refs_trans p q r : same_refs p q -> same_refs q r -> same_refs p r.
Proof. unfold same_refs. intuition congruence. Qed.

Lemma pipe_read_loop_ok n p :
  pipe_ok p ->
  exists p', pipe_read_loop n p = Ret (take n (contents p), p') /\ pipe_ok p' /\
             contents p' = drop n (contents p) /\ same_refs p p'.
Proof.
  revert p. induction n as [|n IH]; intros p Hok; simpl.
  { exists p. by split_and!. }
  destruct (Z.ltb_spec 0 (p_len p)).
  - destruct (pipe_pop_ok p) as (b & p1 & -> & Hok1 & -> & Hs1); [done..|]. simpl.
    destruct (IH p1 Hok1) as (p2 & -> & Hok2 & Hc2 & Hs2). simpl.
    exists p2. split_and!; try done. by eapply same_refs_trans.
  - assert (p_len p = 0) as H0 by (pose proof (ok_len _ Hok); lia).
    assert (contents p = []) as Hc by (unfold contents; by rewrite H0).
    exists p. rewrite Hc. by split_and!.
Qed.

Lemma pipe_write_loop_ok data p :
  pipe_ok p ->
  let n := Z.min (zlen data) (PIPE_BUF_SIZE - p_len p) in
  exists p', pipe_write_loop data p = Ret (n, p') /\ pipe_ok p' /\
             contents p' = contents p ++ take (Z.to_nat n) data /\ same_refs p p'.
Proof.
  revert p. induction data as [|b data IH]; intros p Hok; simpl.
  { pose proof (ok_len _ Hok) as Hl.
    assert (zlen (@nil Z) = 0) as -> by done. rewrite Z.min_l by lia.
    exists p. rewrite app_nil_r. by split_and!. }
  pose proof (ok_len _ Hok) as Hl. rewrite zlen_cons.
  pose proof (zlen_nonneg data) as Hd.
  destruct (Z.ltb_spec (p_len p) PIPE_BUF_SIZE).
  - destruct (pipe_push_ok b p) as (p1 & -> & Hok1 & Hc1 & Hs1 & Hl1); [done..|]. simpl.
    destruct (IH p1 Hok1) as (p2 & -> & Hok2 & Hc2 & Hs2). simpl.
    exists p2. split_and!; [| done | | by eapply same_refs_trans].
    + do 2 f_equal. rewrite Hl1. lia.
    + rewrite Hc2, Hc1, <- app_assoc, Hl1. f_equal.
      replace (Z.to_nat (Z.min (1 + zlen data) (PIPE_BUF_SIZE - p_len p)))
        with (S (Z.to_nat (Z.min (zlen data) (PIPE_BUF_SIZE - (p_len p + 1))))) by lia.
      done.
  - rewrite Z.min_r by lia. replace (PIPE_BUF_SIZE - p_len p) with 0 by lia.
    exists p. rewrite take_0, app_nil_r. by split_and!.
Qed.

(** ** Refinement: the table as a partial map of queues *)

Record AQueue : Type := mkAQ { q_bytes : list Z; q_readers : Z; q_writers : Z }.

Definition abs_pipe (p : Pipe) : option AQueue :=
  if p_in_use p then Some (mkAQ (contents p) (p_readers p) (p_writers p)) else None.

(** The pipe with a given id, as its clients see it. *)
Definition abs (t : list Pipe) (id : Z) : option AQueue := get t id ≫= abs_pipe.

(** What a write of [data] accepts from queue [q]. *)
Definition room (q : AQueue) : nat := Z.to_nat PIPE_BUF_SIZE - length (q_bytes q).

Definition spec_read (count : Z) (o : option AQueue) : Z * list Z * option AQueue :=
  match o with
  | Some q =>
      if count =? 0 then (0, [], o)
      else match q_bytes q with
      | [] => (if q_writers q =? 0 then 0 else USIZE_MAX, [], o)
      | bs => (zlen (take (Z.to_nat count) bs), take (Z.to_nat count) bs,
               Some (mkAQ (drop (Z.to_nat count) bs) (q_readers q) (q_writers q)))
      end
  | None => (0, [], None)
  end.

Definition spec_write (data : list Z) (o : option AQueue) : Z * list Z * option AQueue :=
  match o with
  | Some q =>
      if bool_decide (data = []) then (0, [], o)
      else if q_readers q =? 0 then (0, [], o)
      else if (room q =? 0)%nat then (USIZE_MAX, [], o)
      else (zlen (take (room q) data), take (room q) data,
            Some (mkAQ (q_bytes q ++ take (room q) data) (q_readers q) (q_writers q)))
  | None => (0, [], None)
  end.

Lemma table_get t id :
  table_ok t -> 0 <= id < MAX_PIPES -> exists p, get t id = Some p /\ pipe_ok p.
Proof.
  intros [Hlen Hall] Hid. destruct (get_in_range t id) as [p Hp]; [lia|].
  exists p. split; [done|]. unfold get in Hp. destruct (Z.ltb_spec id 0); [done|].
  by eapply Forall_lookup_1.
Qed.

Lemma table_upd t id p :
  table_ok t -> 0 <= id < MAX_PIPES -> pipe_ok p ->
  upd t id p = Ret (<[Z.to_nat id := p]> t) /\ table_ok (<[Z.to_nat id := p]> t) /\
  (forall j, abs (<[Z.to_nat id := p]> t) j = if id =? j then abs_pipe p else abs t j).
Proof.
  intros [Hlen Hall] Hid Hp. split_and!.
  - apply upd_in_range. lia.
  - split; [by rewrite zlen_insert | by apply Forall_insert].
  - intros j. unfold abs. rewrite get_insert by lia. by destruct (id =? j).
Qed.

Lemma abs_out_of_range t id : table_ok t -> MAX_PIPES <= id -> abs t id = None.
Proof.
  intros [Hlen _] ?. unfold abs. by rewrite (proj2 (get_None t id)) by lia.
Qed.

Lemma abs_get t id p : get t id = Some p -> abs t id = abs_pipe p.
Proof. unfold abs. by intros ->. Qed.

Lemma insert_get {A} (t : list A) id x : get t id = Some x -> <[Z.to_nat id := x]> t = t.
Proof. unfold get. destruct (id <? 0); [done|]. apply list_insert_id. Qed.

Lemma length_contents p : pipe_ok p -> length (contents p) = Z.to_nat (p_len p).
Proof. intros Hok%zlen_contents. unfold zlen in Hok. lia. Qed.

Lemma contents_nil p : pipe_ok p -> p_len p = 0 <-> contents p = [].
Proof.
  intros Hok. pose proof (zlen_contents p Hok) as Hz. split.
  - intros H0. rewrite H0 in Hz. unfold zlen in Hz. apply length_zero_iff_nil. lia.
  - intros H0. rewrite H0 in Hz. by rewrite <- Hz.
Qed.

Lemma take_length_take {A} k (l : list A) : take (length (take k l)) l = take k l.
Proof.
  rewrite length_take. destruct (decide (k <= length l)%nat).
  - by rewrite Nat.min_l.
  - by rewrite Nat.min_r, !take_ge by lia.
Qed.

Section refinement.
Context {W : Type} `{!WaitQueue W}.
Implicit Type s : pstate W.

(** What the scheduler sees: the waiters for [Input] are woken exactly when
    bytes moved. *)
Definition woken (moved : list Z) (w : W) : W :=
  if bool_decide (moved = []) then w else wake_waiters Input w.

Lemma bind_idx {A B} (t : list A) id x (f : A -> outcome B) :
  get t id = Some x -> idx t id ≫= f = f x.
Proof. unfold idx. by intros ->. Qed.

Lemma zlen_pos_woken (bs : list Z) t w :
  (if 0 <? zlen bs then wake_input (mkP t w) else mkP t w) = mkP t (woken bs w).
Proof. unfold woken. destruct bs; done. Qed.

Lemma pipe_try_read_abs id count s :
  table_ok (PIPES s) -> 0 <= id -> 0 <= count ->
  exists r bs o t,
    spec_read count (abs (PIPES s) id) = (r, bs, o) /\
    pipe_try_read id count s = Ret (r, bs, mkP t (woken bs (TASKS s))) /\
    table_ok t /\
    forall j, abs t j = if id =? j then o else abs (PIPES s) j.
Proof.
  intros Ht Hid Hc. destruct s as [t w]; simpl in *. unfold pipe_try_read. simpl.
  assert (Hself : forall j, abs t j = if id =? j then abs t id else abs t j).
  { intros j. by destruct (Z.eqb_spec id j) as [->|]. }
  destruct (Z.leb_spec MAX_PIPES id); simpl.
  { rewrite abs_out_of_range by done. exists 0, [], None, t.
    split_and!; try done. intros j. by rewrite <- (abs_out_of_range t id). }
  destruct (table_get t id) as (p & Hp & Hok); [done|lia|].
  pose proof (abs_get t id p Hp) as Habs. rewrite Habs in *. unfold abs_pipe in *.
  destruct (Z.eqb_spec count 0) as [->|].
  { exists 0, [], (abs t id), t. rewrite Habs. split_and!; try done.
    by destruct (p_in_use p). }
  rewrite (bind_idx t id p) by done.
  destruct (p_in_use p) eqn:Hu; simpl; [|by exists 0, [], None, t].
  rewrite (proj2 (Z.eqb_neq count 0)) by done.
  destruct (Z.eqb_spec (p_len p) 0) as [H0|H0].
  { apply contents_nil in H0; [|done]. rewrite H0 in *.
    by do 4 eexists; split_and!. }
  destruct (pipe_read_loop_ok (Z.to_nat count) p Hok) as (p' & -> & Hok' & Hc' & Hr & Hw & Hu').
  simpl. destruct (table_upd t id p' Ht ltac:(lia) Hok') as (-> & Ht' & Ha'). simpl.
  rewrite zlen_pos_woken.
  destruct (contents p) as [|b bs] eqn:Hcs.
  { by apply contents_nil in Hcs. }
  do 4 eexists. split_and!; [done..|].
  intros j. rewrite Ha'. unfold abs_pipe. by rewrite Hu', Hu, Hr, Hw, Hc'.
Qed.

Lemma pipe_try_write_abs id data s :
  table_ok (PIPES s) -> 0 <= id ->
  exists r bs o t,
    spec_write data (abs (PIPES s) id) = (r, bs, o) /\
    pipe_try_write id data s = Ret (r, mkP t (woken bs (TASKS s))) /\
    table_ok t /\
    forall j, abs t j = if id =? j then o else abs (PIPES s) j.
Proof.
  intros Ht Hid. destruct s as [t w]; simpl in *. unfold pipe_try_write. simpl.
  assert (Hself : forall j, abs t j = if id =? j then abs t id else abs t j).
  { intros j. by destruct (Z.eqb_spec id j) as [->|]. }
  destruct (Z.leb_spec MAX_PIPES id); simpl.
  { rewrite abs_out_of_range by done. exists 0, [], None, t.
    split_and!; try done. intros j. by rewrite <- (abs_out_of_range t id). }
  destruct (table_get t id) as (p & Hp & Hok); [done|lia|].
  pose proof (abs_get t id p Hp) as Habs. rewrite Habs in *. unfold abs_pipe in *.
  destruct (decide (data = [])) as [->|Hd].
  { simpl. exists 0, [], (abs t id), t. rewrite Habs. by destruct (p_in_use p). }
  assert (zlen data <> 0) as Hz by (destruct data; [done|rewrite zlen_cons; pose proof (zlen_nonneg data); lia]).
  rewrite (proj2 (Z.eqb_neq _ _) Hz), (bind_idx t id p) by done.
  destruct (p_in_use p) eqn:Hu; simpl; [|by exists 0, [], None, t].
  rewrite bool_decide_eq_false_2 by done.
  destruct (p_readers p =? 0); [by do 4 eexists; split_and!|].
  pose proof (ok_len _ Hok) as Hl. unfold room. simpl. rewrite length_contents by done.
  destruct (Z.eqb_spec (p_len p) PIPE_BUF_SIZE) as [Hf|Hf].
  { rewrite Hf, Nat.sub_diag. by do 4 eexists; split_and!. }
  rewrite (proj2 (Nat.eqb_neq _ _)) by lia.
  destruct (pipe_write_loop_ok data p Hok) as (p' & -> & Hok' & Hc' & Hr & Hw & Hu').
  simpl. destruct (table_upd t id p' Ht ltac:(lia) Hok') as (-> & Ht' & Ha'). simpl.
  set (k := (Z.to_nat PIPE_BUF_SIZE - Z.to_nat (p_len p))%nat) in *.
  assert (Z.min (zlen data) (PIPE_BUF_SIZE - p_len p) = zlen (take k data)) as Hn.
  { unfold zlen, k. rewrite length_take. lia. }
  rewrite Hn, zlen_pos_woken. do 4 eexists. split_and!; [done..|].
  intros j. rewrite Ha'. unfold abs_pipe. rewrite Hu', Hu, Hr, Hw, Hc', Hn.
  unfold zlen. by rewrite Nat2Z.id, take_length_take.
Qed.

(** The least free id at or after [i], among the [n] next ones. *)
Lemma pipe_create_loop_abs n i t :
  table_ok t -> 0 <= i -> i + Z.of_nat n = MAX_PIPES ->
  exists r t', pipe_create_loop n i t = Ret (r, t') /\ table_ok t' /\
    match r with
    | Some k => i <= k < MAX_PIPES /\ abs t k = None /\
                (forall j, i <= j < k -> abs t j <> None) /\
                (forall j, abs t' j = if k =? j then Some (mkAQ [] 1 1) else abs t j)
    | None => t' = t /\ forall j, i <= j < MAX_PIPES -> abs t j <> None
    end.
Proof.
  revert i. induction n as [|n IH]; intros i Ht Hi Hn; simpl.
  { exists None, t. split_and!; try done. intros j ?. lia. }
  destruct (table_get t i) as (p & Hp & Hok); [done|lia|].
  rewrite (bind_idx t i p) by done. pose proof (abs_get t i p Hp) as Ha. unfold abs_pipe in Ha.
  destruct (p_in_use p); simpl.
  - destruct (IH (i + 1)) as (r & t' & -> & Ht' & Hr); [done|lia|lia|].
    exists r, t'. split_and!; [done..|]. destruct r as [k|].
    + destruct Hr as (? & ? & Hb & ?). split_and!; try done; try lia.
      intros j ?. destruct (decide (j = i)) as [->|]; [by rewrite Ha|apply Hb; lia].
    + destruct Hr as (-> & Hb). split; [done|]. intros j ?.
      destruct (decide (j = i)) as [->|]; [by rewrite Ha|apply Hb; lia].
  - match goal with |- context [upd t i ?q] => set (q0 := q) end.
    assert (pipe_ok q0) as Hq.
    { constructor; simpl; try done. }
    destruct (table_upd t i q0 Ht ltac:(lia) Hq) as (-> & Ht' & Ha'). simpl.
    do 2 eexists. split_and!; [done..|]. split_and!; try done; lia.
Qed.

Lemma pipe_create_abs s :
  table_ok (PIPES s) ->
  exists r t, pipe_create s = Ret (r, mkP t (TASKS s)) /\ table_ok t /\
    match r with
    | Some k => 0 <= k < MAX_PIPES /\ abs (PIPES s) k = None /\
                (forall j, 0 <= j < k -> abs (PIPES s) j <> None) /\
                (forall j, abs t j = if k =? j then Some (mkAQ [] 1 1) else abs (PIPES s) j)
    | None => t = PIPES s /\ forall j, 0 <= j < MAX_PIPES -> abs (PIPES s) j <> None
    end.
Proof.
  intros Ht. unfold pipe_create.
  destruct (pipe_create_loop_abs (Z.to_nat MAX_PIPES) 0 (PIPES s)) as (r & t & -> & ? & ?);
    [done..|].
  by exists r, t.
Qed.

(** Adding a reference: the count grows by one, or the kernel panics when it
    is already [u32::MAX]; a dead id is ignored. *)
Definition spec_add (d : Z * Z) (o : option AQueue) : outcome (option AQueue) :=
  match o with
  | Some q =>
      if (q_readers q + d.1 <? 2 ^ 32) && (q_writers q + d.2 <? 2 ^ 32)
      then Ret (Some (mkAQ (q_bytes q) (q_readers q + d.1) (q_writers q + d.2)))
      else Panic
  | None => Ret None
  end.

(** Dropping a reference; the pipe dies with its last one. *)
Definition spec_close (d : Z * Z) (o : option AQueue) : option AQueue :=
  q ← o;
  let r := Z.max 0 (q_readers q - d.1) in
  let w := Z.max 0 (q_writers q - d.2) in
  if (r =? 0) && (w =? 0) then None else Some (mkAQ (q_bytes q) r w).

(** [upd] of the reference counts and the in-use flag of a live pipe. *)
Lemma table_set_refs t id p r w :
  table_ok t -> 0 <= id < MAX_PIPES -> get t id = Some p -> in_u32 r -> in_u32 w ->
  let u := negb ((r =? 0) && (w =? 0)) in
  let p' := mkPipe (p_buf p) (p_head p) (p_tail p) (p_len p) r w u in
  let t' := <[Z.to_nat id := p']> t in
  table_ok t' /\
  forall j, abs t' j = if id =? j then (if u then Some (mkAQ (contents p) r w) else None)
                       else abs t j.
Proof.
  intros Ht Hid Hp Hr Hw u p' t'.
  destruct (table_get t id) as (p0 & Hp0 & Hok); [done..|]. simplify_eq.
  assert (pipe_ok p') as Hok'.
  { destruct Hok. constructor; simpl; try done. unfold u, in_u in *. zcase; simpl; lia. }
  by destruct (table_upd t id p' Ht Hid Hok') as (_ & Ht' & Ha').
Qed.

Lemma pipe_eta p :
  mkPipe (p_buf p) (p_head p) (p_tail p) (p_len p) (p_readers p) (p_writers p) (p_in_use p) = p.
Proof. by destruct p. Qed.

Lemma live_refs t id p :
  table_ok t -> 0 <= id < MAX_PIPES -> get t id = Some p -> p_in_use p = true ->
  in_u32 (p_readers p) /\ in_u32 (p_writers p) /\ 0 < p_readers p + p_writers p.
Proof.
  intros Ht Hid Hp Hu. destruct (table_get t id) as (p0 & Hp0 & []); [done..|].
  simplify_eq. naive_solver.
Qed.

(** The guard shared by the operations: a dead id, or a live pipe. *)
Lemma pipe_cases t id :
  table_ok t -> 0 <= id ->
  (MAX_PIPES <= id /\ abs t id = None) \/
  exists p, id < MAX_PIPES /\ get t id = Some p /\ 0 <= id < zlen t /\
    ((p_in_use p = false /\ abs t id = None) \/
     (p_in_use p = true /\ abs t id = Some (mkAQ (contents p) (p_readers p) (p_writers p)) /\
      in_u32 (p_readers p) /\ in_u32 (p_writers p) /\ 0 < p_readers p + p_writers p)).
Proof.
  intros Ht Hid. destruct (Z.le_gt_cases MAX_PIPES id).
  { left. split; [done|]. by apply abs_out_of_range. }
  right. destruct (table_get t id) as (p & Hp & Hok); [done|lia|]. exists p.
  pose proof (abs_get t id p Hp) as Ha. unfold abs_pipe in Ha.
  assert (0 <= id < zlen t) by (destruct Ht; lia).
  split_and!; try done; try lia. destruct (p_in_use p) eqn:Hu; [right|by left].
  destruct (live_refs t id p) as (? & ? & ?); [done|lia|done..|]. done.
Qed.

Lemma abs_self t id j : abs t j = if id =? j then abs t id else abs t j.
Proof. by destruct (Z.eqb_spec id j) as [->|]. Qed.

Definition adds (op : Z -> pstate W -> outcome (pstate W)) (d : Z * Z) : Prop :=
  forall id s, table_ok (PIPES s) -> 0 <= id ->
  match spec_add d (abs (PIPES s) id) with
  | Ret o => exists t, op id s = Ret (mkP t (TASKS s)) /\ table_ok t /\
               forall j, abs t j = if id =? j then o else abs (PIPES s) j
  | Panic => op id s = Panic
  end.

Lemma pipe_add_reader_abs : adds pipe_add_reader (1, 0).
Proof.
  intros id [t w] Ht Hid; simpl in *. unfold pipe_add_reader; simpl.
  destruct (pipe_cases t id Ht Hid) as [[? Ha]|(p & ? & Hp & Hl & [[Hu Ha]|(Hu & Ha & Hr & Hw & _)])];
    rewrite Ha; simpl.
  - rewrite (proj2 (Z.ltb_ge _ _)) by done. exists t. rewrite <- Ha. by auto using abs_self.
  - rewrite (proj2 (Z.ltb_lt id _)), (bind_idx t id p), Hu by done. exists t.
    rewrite <- Ha. by auto using abs_self.
  - rewrite (proj2 (Z.ltb_lt id _)), (bind_idx t id p), Hu by done.
    unfold in_u in *. rewrite Z.add_0_r, (proj2 (Z.ltb_lt (p_writers p) _)), andb_true_r by lia.
    unfold add_u. destruct (Z.ltb_spec (p_readers p + 1) (2 ^ 32)); simpl; [|done].
    rewrite upd_in_range by done. simpl. eexists; split; [done|].
    destruct (table_set_refs t id p (p_readers p + 1) (p_writers p)) as [Ht' Ha'];
      [done|lia|done|unfold in_u; lia..|].
    rewrite (proj2 (Z.eqb_neq (p_readers p + 1) 0)) in * by lia. simpl in *.
    by rewrite <- Hu in Ht', Ha'.
Qed.

Lemma pipe_add_writer_abs : adds pipe_add_writer (0, 1).
Proof.
  intros id [t w] Ht Hid; simpl in *. unfold pipe_add_writer; simpl.
  destruct (pipe_cases t id Ht Hid) as [[? Ha]|(p & ? & Hp & Hl & [[Hu Ha]|(Hu & Ha & Hr & Hw & _)])];
    rewrite Ha; simpl.
  - rewrite (proj2 (Z.ltb_ge _ _)) by done. exists t. rewrite <- Ha. by auto using abs_self.
  - rewrite (proj2 (Z.ltb_lt id _)), (bind_idx t id p), Hu by done. exists t.
    rewrite <- Ha. by auto using abs_self.
  - rewrite (proj2 (Z.ltb_lt id _)), (bind_idx t id p), Hu by done.
    unfold in_u in *. rewrite Z.add_0_r, (proj2 (Z.ltb_lt (p_readers p) _)) by lia.
    unfold add_u. destruct (Z.ltb_spec (p_writers p + 1) (2 ^ 32)); simpl; [|done].
    rewrite upd_in_range by done. simpl. eexists; split; [done|].
    destruct (table_set_refs t id p (p_readers p) (p_writers p + 1)) as [Ht' Ha'];
      [done|lia|done|unfold in_u; lia..|].
    rewrite (proj2 (Z.eqb_neq (p_writers p + 1) 0)), andb_false_r in * by lia. simpl in *.
    by rewrite <- Hu in Ht', Ha'.
Qed.

(** [maybe_free] after a count of pipe [p] became [r] readers, [w] writers. *)
Lemma maybe_free_abs t id p r w (wq : W) :
  table_ok t -> 0 <= id < MAX_PIPES -> get t id = Some p -> p_in_use p = true ->
  in_u32 r -> in_u32 w ->
  let p' := mkPipe (p_buf p) (p_head p) (p_tail p) (p_len p) r w true in
  exists t', maybe_free id (mkP (<[Z.to_nat id := p']> t) wq) = Ret (mkP t' wq) /\
    table_ok t' /\
    forall j, abs t' j = if id =? j
      then (if (r =? 0) && (w =? 0) then None else Some (mkAQ (contents p) r w))
      else abs t j.
Proof.
  intros Ht Hid Hp Hu Hr Hw p'. unfold maybe_free. simpl.
  assert (Hlen : 0 <= id < zlen t) by (destruct Ht; lia).
  rewrite (bind_idx _ id p') by (by apply get_insert_eq). simpl.
  destruct (table_set_refs t id p r w) as [Ht' Ha']; [done..|].
  destruct ((r =? 0) && (w =? 0)); simpl in *.
  - rewrite upd_in_range by (by rewrite zlen_insert). simpl.
    rewrite list_insert_insert_eq. eexists; split_and!; done.
  - eexists; split_and!; done.
Qed.

Definition closes (op : Z -> pstate W -> outcome (pstate W)) (d : Z * Z) : Prop :=
  forall id s, table_ok (PIPES s) -> 0 <= id ->
  exists t,
    op id s = Ret (mkP t (if decide (is_Some (abs (PIPES s) id))
                          then wake_waiters Input (TASKS s) else TASKS s)) /\
    table_ok t /\
    forall j, abs t j = if id =? j then spec_close d (abs (PIPES s) id) else abs (PIPES s) j.

Lemma pipe_close_reader_abs : closes pipe_close_reader (1, 0).
Proof.
  intros id [t w] Ht Hid; simpl in *. unfold pipe_close_reader; simpl.
  destruct (pipe_cases t id Ht Hid) as [[? Ha]|(p & ? & Hp & Hl & [[Hu Ha]|(Hu & Ha & Hr & Hw & Hlive)])];
    rewrite Ha; simpl.
  - rewrite (proj2 (Z.leb_le _ _)) by done. exists t. rewrite <- Ha. by auto using abs_self.
  - rewrite (proj2 (Z.leb_gt _ _)), (bind_idx t id p), Hu by done. exists t.
    rewrite <- Ha. by auto using abs_self.
  - rewrite (proj2 (Z.leb_gt _ _)), (bind_idx t id p), Hu by done. simpl. unfold in_u in *.
    destruct (maybe_free_abs t id p (Z.max 0 (p_readers p - 1)) (p_writers p)
                (wake_waiters Input w)) as (t' & Hf & Ht' & Ha');
      [done|lia|done|done|unfold in_u; lia..|].
    exists t'. rewrite Z.sub_0_r, (Z.max_r 0 (p_writers p)) by lia.
    split_and!; [|done..]. rewrite <- Hf.
    destruct (Z.ltb_spec 0 (p_readers p)); [rewrite upd_in_range by done|]; simpl;
      unfold wake_input; simpl; do 2 f_equal.
    + rewrite Z.max_r by lia. by rewrite <- Hu.
    + rewrite Z.max_l by lia. replace 0 with (p_readers p) by lia.
      rewrite <- Hu, pipe_eta. by rewrite insert_get.
Qed.

Lemma pipe_close_writer_abs : closes pipe_close_writer (0, 1).
Proof.
  intros id [t w] Ht Hid; simpl in *. unfold pipe_close_writer; simpl.
  destruct (pipe_cases t id Ht Hid) as [[? Ha]|(p & ? & Hp & Hl & [[Hu Ha]|(Hu & Ha & Hr & Hw & Hlive)])];
    rewrite Ha; simpl.
  - rewrite (proj2 (Z.leb_le _ _)) by done. exists t. rewrite <- Ha. by auto using abs_self.
  - rewrite (proj2 (Z.leb_gt _ _)), (bind_idx t id p), Hu by done. exists t.
    rewrite <- Ha. by auto using abs_self.
  - rewrite (proj2 (Z.leb_gt _ _)), (bind_idx t id p), Hu by done. simpl. unfold in_u in *.
    destruct (maybe_free_abs t id p (p_readers p) (Z.max 0 (p_writers p - 1))
                (wake_waiters Input w)) as (t' & Hf & Ht' & Ha');
      [done|lia|done|done|unfold in_u; lia..|].
    exists t'. rewrite Z.sub_0_r, (Z.max_r 0 (p_readers p)) by lia.
    split_and!; [|done..]. rewrite <- Hf.
    destruct (Z.ltb_spec 0 (p_writers p)); [rewrite upd_in_range by done|]; simpl;
      unfold wake_input; simpl; do 2 f_equal.
    + rewrite Z.max_r by lia. by rewrite <- Hu.
    + rewrite Z.max_l by lia. replace 0 with (p_writers p) by lia.
      rewrite <- Hu, pipe_eta. by rewrite insert_get.
Qed.

End refinement.

(** ** Executions: any interleaving of operations by any tasks *)

Inductive pipe_op : Type :=
| OpCreate
| OpAddReader (id : Z)
| OpAddWriter (id : Z)
| OpCloseReader (id : Z)
| OpCloseWriter (id : Z)
| OpRead (id count : Z)
| OpWrite (id : Z) (data : list Z).

(** What the caller learns: the id of a new pipe, the bytes delivered by a
    read, the bytes accepted by a write. *)
Inductive pipe_event : Type :=
| EvCreated (id : Z)
| EvRead (id : Z) (bytes : list Z)
| EvWrote (id : Z) (bytes : list Z)
| EvOther.

Definition op_args_ok (o : pipe_op) : Prop :=
  match o with
  | OpCreate => True
  | OpAddReader id | OpAddWriter id | OpCloseReader id | OpCloseWriter id | OpWrite id _ => 0 <= id
  | OpRead id count => 0 <= id /\ 0 <= count
  end.

Section execution.
Context {W : Type} `{!WaitQueue W}.

Definition accepted (r : Z) (data : list Z) : list Z :=
  if r =? USIZE_MAX then [] else take (Z.to_nat r) data.

Definition run_op (o : pipe_op) (s : pstate W) : outcome (pipe_event * pstate W) :=
  match o with
  | OpCreate =>
      '(r, s') ← pipe_create s;
      Ret (match r with Some id => EvCreated id | None => EvOther end, s')
  | OpAddReader id => s' ← pipe_add_reader id s; Ret (EvOther, s')
  | OpAddWriter id => s' ← pipe_add_writer id s; Ret (EvOther, s')
  | OpCloseReader id => s' ← pipe_close_reader id s; Ret (EvOther, s')
  | OpCloseWriter id => s' ← pipe_close_writer id s; Ret (EvOther, s')
  | OpRead id count => '(r, bs, s') ← pipe_try_read id count s; Ret (EvRead id bs, s')
  | OpWrite id data =>
      '(r, s') ← pipe_try_write id data s; Ret (EvWrote id (accepted r data), s')
  end.

(** Between two operations the scheduler may do anything to its own state. *)
Inductive exec : pstate W -> list pipe_event -> pstate W -> Prop :=
| exec_nil s : exec s [] s
| exec_op o s e s1 tr s2 :
    op_args_ok o -> run_op o s = Ret (e, s1) -> exec s1 tr s2 -> exec s (e :: tr) s2
| exec_sched s w tr s2 : exec (mkP (PIPES s) w) tr s2 -> exec s tr s2.

End execution.

(** The bytes accepted for and delivered from pipe [id] since its creation. *)
Definition history_step (id : Z) (h : list Z * list Z) (e : pipe_event) : list Z * list Z :=
  match e with
  | EvCreated j => if id =? j then ([], []) else h
  | EvRead j bs => if id =? j then (h.1, h.2 ++ bs) else h
  | EvWrote j bs => if id =? j then (h.1 ++ bs, h.2) else h
  | EvOther => h
  end.

Definition history (id : Z) (tr : list pipe_event) : list Z * list Z :=
  foldl (history_step id) ([], []) tr.

(** Everything accepted is either delivered, in order, or still queued. *)
Definition fifo (t : list Pipe) (h : Z -> list Z * list Z) : Prop :=
  forall id q, abs t id = Some q -> (h id).1 = (h id).2 ++ q_bytes q.

Lemma table_ok_init : table_ok PIPES_init.
Proof.
  split; [by unfold PIPES_init; rewrite zlen_replicate|].
  apply Forall_replicate. by constructor.
Qed.

Lemma abs_init id : abs PIPES_init id = None.
Proof.
  unfold abs, get. destruct (id <? 0); [done|].
  destruct (PIPES_init !! _) as [p|] eqn:Hp; [|done].
  apply lookup_replicate in Hp as [-> _]. done.
Qed.

(** An operation's effect on one entry of the abstract table. *)
Lemma fifo_update t t' h h' id o :
  fifo t h -> (forall j, abs t' j = if id =? j then o else abs t j) ->
  (forall j, j <> id -> h' j = h j) ->
  (forall q, o = Some q -> (h' id).1 = (h' id).2 ++ q_bytes q) ->
  fifo t' h'.
Proof.
  intros Hf Ha Hother Hid j q. rewrite Ha. destruct (Z.eqb_spec id j) as [<-|].
  - apply Hid.
  - rewrite Hother by done. apply Hf.
Qed.

Section theorems.
Context {W : Type} `{!WaitQueue W}.
Implicit Type s : pstate W.

Lemma history_other id j h e bs :
  j <> id -> e = EvRead id bs \/ e = EvWrote id bs \/ e = EvCreated id ->
  history_step j h e = h.
Proof. intros ? [->|[->| ->]]; simpl; by rewrite (proj2 (Z.eqb_neq _ _)). Qed.

Lemma accepted_spec data o r bs o' :
  spec_write data o = (r, bs, o') -> accepted r data = bs.
Proof.
  unfold spec_write, accepted. destruct o as [q|]; [|by intros [= <- <- <-]].
  case_bool_decide; [by intros [= <- <- <-]|].
  destruct (q_readers q =? 0); [by intros [= <- <- <-]|].
  destruct (room q =? 0)%nat; intros [= <- <- <-]; [done|].
  rewrite (proj2 (Z.eqb_neq _ _)).
  - unfold zlen. by rewrite Nat2Z.id, take_length_take.
  - unfold zlen, room, PIPE_BUF_SIZE, USIZE_MAX. rewrite length_take. lia.
Qed.

Lemma spec_add_bytes d o o' q' :
  spec_add d o = Ret o' -> o' = Some q' -> exists q, o = Some q /\ q_bytes q = q_bytes q'.
Proof.
  intros H ->. destruct o as [q|]; simpl in H; [|done].
  destruct (_ && _); [|done]. injection H as <-. by exists q.
Qed.

Lemma spec_close_bytes d o q' :
  spec_close d o = Some q' -> exists q, o = Some q /\ q_bytes q = q_bytes q'.
Proof.
  destruct o as [q|]; simpl; [|done]. destruct (_ && _); [done|].
  intros [= <-]. by exists q.
Qed.

Lemma spec_read_bytes count o r bs o' q' :
  spec_read count o = (r, bs, o') -> o' = Some q' ->
  exists q, o = Some q /\ q_bytes q = bs ++ q_bytes q'.
Proof.
  unfold spec_read. destruct o as [q|]; [|by intros [= <- <- <-]].
  destruct (count =? 0); [intros [= <- <- <-] [= <-]; by exists q|].
  destruct q as [[|b q] rd wr]; simpl; intros [= <- <- <-] [= <-]; eexists; split; try done.
  simpl. by rewrite take_drop.
Qed.

Lemma spec_write_bytes data o r bs o' q' :
  spec_write data o = (r, bs, o') -> o' = Some q' ->
  exists q, o = Some q /\ q_bytes q' = q_bytes q ++ bs.
Proof.
  unfold spec_write. destruct o as [q|]; [|by intros [= <- <- <-]].
  case_bool_decide; [|destruct (q_readers q =? 0); [|destruct (room q =? 0)%nat]];
    intros [= <- <- <-] [= <-]; exists q; by rewrite ?app_nil_r.
Qed.

(** Operations on the counts of pipe [id] leave its bytes alone. *)
Lemma fifo_refs t t' h id o :
  fifo t h -> (forall j, abs t' j = if id =? j then o else abs t j) ->
  (forall q', o = Some q' -> exists q, abs t id = Some q /\ q_bytes q = q_bytes q') ->
  fifo t' h.
Proof.
  intros Hf Ha Hq. eapply fifo_update; [done..|]. intros q' Ho.
  destruct (Hq q' Ho) as (q & Hq0 & <-). by apply Hf.
Qed.

(** One operation keeps the table well-formed and the histories in order. *)
Lemma run_op_ok o s e s' :
  table_ok (PIPES s) -> op_args_ok o -> run_op o s = Ret (e, s') ->
  table_ok (PIPES s') /\
  forall h, fifo (PIPES s) h -> fifo (PIPES s') (fun id => history_step id (h id) e).
Proof.
  intros Ht Hargs Hrun.
  destruct o as [|id|id|id|id|id count|id data]; simpl in Hargs, Hrun.
  - destruct (pipe_create_abs s Ht) as (r & t & E & Ht' & Hr). rewrite E in Hrun.
    injection Hrun as <- <-. split; [done|]. intros h Hf. destruct r as [k|].
    + destruct Hr as (_ & _ & _ & Ha). eapply fifo_update; [done|done|..].
      * intros j ?. by apply (history_other k j _ _ []); auto.
      * intros q [= <-]. simpl. by rewrite Z.eqb_refl.
    + destruct Hr as [-> _]. done.
  - pose proof (pipe_add_reader_abs id s Ht Hargs) as H.
    destruct (spec_add _ _) as [o|] eqn:Ho; [|by rewrite H in Hrun].
    destruct H as (t & E & Ht' & Ha). rewrite E in Hrun. injection Hrun as <- <-.
    split; [done|]. intros h Hf. eauto using fifo_refs, spec_add_bytes.
  - pose proof (pipe_add_writer_abs id s Ht Hargs) as H.
    destruct (spec_add _ _) as [o|] eqn:Ho; [|by rewrite H in Hrun].
    destruct H as (t & E & Ht' & Ha). rewrite E in Hrun. injection Hrun as <- <-.
    split; [done|]. intros h Hf. eauto using fifo_refs, spec_add_bytes.
  - destruct (pipe_close_reader_abs id s Ht Hargs) as (t & E & Ht' & Ha).
    rewrite E in Hrun. injection Hrun as <- <-.
    split; [done|]. intros h Hf. eauto using fifo_refs, spec_close_bytes.
  - destruct (pipe_close_writer_abs id s Ht Hargs) as (t & E & Ht' & Ha).
    rewrite E in Hrun. injection Hrun as <- <-.
    split; [done|]. intros h Hf. eauto using fifo_refs, spec_close_bytes.
  - destruct (pipe_try_read_abs id count s) as (r & bs & o & t & Ho & E & Ht' & Ha);
      [naive_solver..|].
    rewrite E in Hrun. injection Hrun as <- <-. split; [done|]. intros h Hf.
    eapply fifo_update; [done|done|intros; by eapply history_other; eauto|].
    intros q Hq. destruct (spec_read_bytes _ _ _ _ _ _ Ho Hq) as (q0 & Hq0 & Hb).
    simpl. rewrite Z.eqb_refl. simpl. rewrite <- app_assoc, <- Hb. by apply Hf.
  - destruct (pipe_try_write_abs id data s) as (r & bs & o & t & Ho & E & Ht' & Ha); [done..|].
    rewrite E in Hrun. injection Hrun as <- <-. rewrite (accepted_spec _ _ _ _ _ Ho).
    split; [done|]. intros h Hf.
    eapply fifo_update; [done|done|intros; by eapply history_other; eauto|].
    intros q Hq. destruct (spec_write_bytes _ _ _ _ _ _ Ho Hq) as (q0 & Hq0 & ->).
    simpl. rewrite Z.eqb_refl. simpl. rewrite app_assoc. f_equal. by apply Hf.
Qed.

Lemma exec_fifo s tr s' :
  exec s tr s' -> forall h, table_ok (PIPES s) -> fifo (PIPES s) h ->
  table_ok (PIPES s') /\ fifo (PIPES s') (fun id => foldl (history_step id) (h id) tr).
Proof.
  induction 1 as [s|o s e s1 tr s2 Hargs Hrun _ IH|s w tr s2 _ IH]; intros h Ht Hf; simpl.
  - done.
  - destruct (run_op_ok _ _ _ _ Ht Hargs Hrun) as [Ht1 Hf1].
    by apply (IH (fun id => history_step id (h id) e)); auto.
  - by apply IH.
Qed.

End theorems.

(** ** The properties *)

Section properties.
Context {W : Type} `{!WaitQueue W}.
Implicit Type s : pstate W.

(** C3.  Pipes are lossless FIFO byte streams.  In every state reachable from
    boot by any interleaving of pipe operations and scheduler activity, the
    table is well-formed and, for every live pipe, the bytes accepted by
    writes since its creation are the bytes delivered to readers, in order,
    followed by the bytes still queued. *)
Theorem pipe_fifo (w : W) tr s :
  exec (mkP PIPES_init w) tr s ->
  table_ok (PIPES s) /\
  forall id q, abs (PIPES s) id = Some q ->
    (history id tr).1 = (history id tr).2 ++ q_bytes q.
Proof.
  intros He. destruct (exec_fifo _ _ _ He (fun _ => ([], []))) as [Ht Hf].
  - apply table_ok_init.
  - intros id q. simpl. by rewrite abs_init.
  - by split.
Qed.

(** No pipe operation panics on a well-formed table, except that adding a
    reference to an end that already has [u32::MAX] of them does; the
    operation leaves the table well-formed. *)
Theorem pipe_ops_total o s :
  table_ok (PIPES s) -> op_args_ok o ->
  (forall id q, abs (PIPES s) id = Some q ->
    (o = OpAddReader id -> q_readers q < U32_MAX) /\
    (o = OpAddWriter id -> q_writers q < U32_MAX)) ->
  exists e s', run_op o s = Ret (e, s') /\ table_ok (PIPES s').
Proof.
  intros Ht Hargs Hmax.
  assert (exists e s', run_op o s = Ret (e, s')) as (e & s' & E).
  { destruct o as [|id|id|id|id|id count|id data]; simpl in *.
    - destruct (pipe_create_abs s Ht) as (r & t & -> & _). by do 2 eexists.
    - pose proof (pipe_add_reader_abs id s Ht Hargs) as H. revert H.
      destruct (pipe_cases (PIPES s) id Ht Hargs)
        as [[_ Ha]|(p & _ & _ & _ & [[_ Ha]|(_ & Ha & Hr & Hw & _)])]; rewrite Ha; simpl;
        [by intros (t & -> & _); do 2 eexists..|].
      pose proof (Hmax _ _ Ha) as [Hm _]. specialize (Hm eq_refl). simpl in Hm.
      unfold U32_MAX, in_u in *. rewrite !(proj2 (Z.ltb_lt _ _)) by lia. simpl.
      by intros (t & -> & _); do 2 eexists.
    - pose proof (pipe_add_writer_abs id s Ht Hargs) as H. revert H.
      destruct (pipe_cases (PIPES s) id Ht Hargs)
        as [[_ Ha]|(p & _ & _ & _ & [[_ Ha]|(_ & Ha & Hr & Hw & _)])]; rewrite Ha; simpl;
        [by intros (t & -> & _); do 2 eexists..|].
      pose proof (Hmax _ _ Ha) as [_ Hm]. specialize (Hm eq_refl). simpl in Hm.
      unfold U32_MAX, in_u in *. rewrite !(proj2 (Z.ltb_lt _ _)) by lia. simpl.
      by intros (t & -> & _); do 2 eexists.
    - destruct (pipe_close_reader_abs id s Ht Hargs) as (t & -> & _). by do 2 eexists.
    - destruct (pipe_close_writer_abs id s Ht Hargs) as (t & -> & _). by do 2 eexists.
    - destruct (pipe_try_read_abs id count s) as (r & bs & o' & t & _ & -> & _);
        [naive_solver..|]. by do 2 eexists.
    - destruct (pipe_try_write_abs id data s) as (r & bs & o' & t & _ & -> & _); [done..|].
      by do 2 eexists. }
  exists e, s'. split; [done|]. by apply (run_op_ok o s e s').
Qed.

(**  Readiness reported to [poll] is exact: on a live or dead id,
    [pipe_readable] is false exactly when a non-empty non-blocking read would
    block, and [pipe_writable] is false exactly when a non-empty write would. *)
Theorem pipe_readiness_exact id count data s :
  table_ok (PIPES s) -> 0 <= id -> 0 < count -> data <> [] ->
  exists rd wr r bs s1 n s2,
    pipe_readable id s = Ret rd /\ pipe_try_read id count s = Ret (r, bs, s1) /\
    (rd = false <-> r = USIZE_MAX) /\
    pipe_writable id s = Ret wr /\ pipe_try_write id data s = Ret (n, s2) /\
    (wr = false <-> n = USIZE_MAX).
Proof.
  intros Ht Hid Hc Hd.
  destruct (pipe_try_read_abs id count s) as (r & bs & o & t & Ho & E & Hto & _); [done|lia..|].
  destruct (pipe_try_write_abs id data s) as (n & bs' & o' & t' & Ho' & E' & _); [done..|].
  rewrite E, E'. unfold pipe_readable, pipe_writable.
  destruct (pipe_cases (PIPES s) id Ht Hid)
    as [[? Ha]|(p & ? & Hp & _ & [[Hu Ha]|(Hu & Ha & _)])]; rewrite Ha in Ho, Ho'; simpl in *.
  1: rewrite (proj2 (Z.leb_le _ _)) by done.
  2-3: rewrite (proj2 (Z.leb_gt _ _)), !(bind_idx _ id p), Hu by done; simpl.
  1-2: simplify_eq; by do 7 eexists.
  destruct (table_get (PIPES s) id) as (p0 & Hp0 & Hok); [done|lia|]. simplify_eq.
  rewrite bool_decide_eq_false_2 in Ho' by done. unfold room in Ho'; simpl in Ho'.
  rewrite (proj2 (Z.eqb_neq count 0)) in Ho by lia. pose proof (ok_len _ Hok) as Hl.
  pose proof (zlen_contents p Hok) as Hz. rewrite length_contents in Ho' by done.
  do 7 eexists. split_and!; try done.
  - destruct (contents p) as [|b cs]; simplify_eq/=.
    + rewrite <- Hz. simpl. by destruct (p_writers p =? 0).
    + assert (0 < p_len p) by (rewrite <- Hz, zlen_cons; pose proof (zlen_nonneg cs); lia).
      rewrite (proj2 (Z.ltb_lt _ _)) by done. simpl. split; [done|].
      destruct (Z.to_nat count) eqn:?; [lia|]. simpl. rewrite zlen_cons.
      unfold USIZE_MAX, PIPE_BUF_SIZE, zlen in *. rewrite length_take in *. simpl in Hz. lia.
  - destruct (p_readers p =? 0); simplify_eq/=; [done|].
    destruct (Z.ltb_spec (p_len p) PIPE_BUF_SIZE).
    + rewrite (proj2 (Nat.eqb_neq _ _)) in Ho' by lia. simplify_eq. split; [done|].
      unfold USIZE_MAX, PIPE_BUF_SIZE, zlen in *. rewrite length_take. lia.
    + rewrite (proj2 (Nat.eqb_eq _ _)) in Ho' by lia. by simplify_eq.
Qed.

(** C27.  No lost wake-ups: after a write or read that moved at least one byte,
    and after closing an end of a live pipe, no task is left blocked for
    [Input]; tasks blocked for any other reason stay blocked. *)
Theorem pipe_no_lost_wakeup o s e s' :
  table_ok (PIPES s) -> op_args_ok o -> run_op o s = Ret (e, s') ->
  (match o, e with
   | OpRead _ _, EvRead _ bs | OpWrite _ _, EvWrote _ bs => bs <> []
   | OpCloseReader id, _ | OpCloseWriter id, _ => is_Some (abs (PIPES s) id)
   | _, _ => False
   end) ->
  forall slot,
    blocked_on (TASKS s') slot <> Some Input /\
    (forall r, r <> Input -> blocked_on (TASKS s) slot = Some r ->
      blocked_on (TASKS s') slot = Some r).
Proof.
  intros Ht Hargs Hrun Hmoved.
  assert (TASKS s' = wake_waiters Input (TASKS s)) as ->.
  { destruct o as [|id|id|id|id|id count|id data]; simpl in *; try done.
    - destruct (pipe_close_reader_abs id s Ht Hargs) as (t & E & _). rewrite E in Hrun.
      simplify_eq/=. by rewrite decide_True.
    - destruct (pipe_close_writer_abs id s Ht Hargs) as (t & E & _). rewrite E in Hrun.
      simplify_eq/=. by rewrite decide_True.
    - destruct (pipe_try_read_abs id count s) as (r & bs & o & t & _ & E & _);
        [naive_solver..|]. rewrite E in Hrun. simplify_eq/=. unfold woken.
      by rewrite bool_decide_eq_false_2.
    - destruct (pipe_try_write_abs id data s) as (r & bs & o & t & Ho & E & _); [done..|].
      rewrite E in Hrun. simplify_eq/=. rewrite (accepted_spec _ _ _ _ _ Ho) in Hmoved.
      unfold woken. by rewrite bool_decide_eq_false_2. }
  intros slot. split; [apply wake_waiters_wakes|]. intros r ? ?. by apply wake_waiters_others.
Qed.

End properties.

(** ** Witnesses on a concrete run *)

Section run.
Context {W : Type} `{!WaitQueue W}.

Fixpoint run_ops (os : list pipe_op) (s : pstate W) : outcome (list pipe_event * pstate W) :=
  match os with
  | [] => Ret ([], s)
  | o :: os =>
      '(e, s1) ← run_op o s;
      '(tr, s2) ← run_ops os s1;
      Ret (e :: tr, s2)
  end.

Lemma run_ops_exec os s tr s' :
  Forall op_args_ok os -> run_ops os s = Ret (tr, s') -> exec s tr s'.
Proof.
  intros Hos. revert s tr. induction Hos as [|o os Ho _ IH]; intros s tr Hr; simpl in Hr.
  - injection Hr as <- <-. constructor.
  - apply bind_Ret in Hr as ([e s1] & E & Hr). apply bind_Ret in Hr as ([tr1 s2] & E1 & Hr).
    injection Hr as <- <-. by econstructor; eauto.
Qed.

End run.

Definition one_waiter : SlotWaits := fun slot => if decide (slot = 3%nat) then Some Input else None.

Definition demo_ops : list pipe_op :=
  [OpCreate; OpWrite 0 [104; 105; 33]; OpRead 0 2; OpCloseWriter 0].

Definition demo_start : pstate SlotWaits := mkP PIPES_init one_waiter.

Lemma demo_args : Forall op_args_ok demo_ops.
Proof. by repeat constructor. Qed.

Lemma pipe_fifo_witness :
  match run_ops demo_ops demo_start with
  | Ret (tr, s) =>
      exec demo_start tr s /\ history 0 tr = ([104; 105; 33], [104; 105]) /\
      (history 0 tr).1 = (history 0 tr).2 ++ [33]
  | Panic => False
  end.
Proof.
  destruct (run_ops demo_ops demo_start) as [[tr s]|] eqn:E; [|vm_compute in E; discriminate].
  pose proof (run_ops_exec _ _ _ _ demo_args E) as He. split; [exact He|].
  assert (history 0 tr = ([104; 105; 33], [104; 105])) as Hh.
  { vm_compute in E. injection E as <- _. reflexivity. }
  split; [exact Hh|].
  apply (proj2 (pipe_fifo one_waiter tr s He) 0 (mkAQ [33] 1 0)).
  vm_compute in E. injection E as _ <-. vm_compute. reflexivity.
Defined.

(** A table whose pipe 0 holds one byte. *)
Definition demo_pipe : Pipe :=
  Pipe_empty <| p_buf := <[0%nat := 33]> (p_buf Pipe_empty) |> <| p_head := 1 |> <| p_len := 1 |>
    <| p_readers := 1 |> <| p_writers := 1 |> <| p_in_use := true |>.

Definition demo_live : pstate SlotWaits := mkP (<[0%nat := demo_pipe]> PIPES_init) one_waiter.

Lemma demo_live_ok : table_ok (PIPES demo_live).
Proof.
  destruct table_ok_init as [Hl Hf]. split.
  - unfold demo_live, PIPES. by rewrite zlen_insert.
  - apply Forall_insert; [done|]. by constructor.
Qed.

Lemma demo_live_abs : abs (PIPES demo_live) 0 = Some (mkAQ [33] 1 1).
Proof. vm_compute. reflexivity. Qed.

Lemma pipe_ops_total_witness :
  exists e s', run_op (OpAddReader 0) demo_live = Ret (e, s') /\ table_ok (PIPES s').
Proof.
  apply (pipe_ops_total (OpAddReader 0) demo_live).
  - exact demo_live_ok.
  - done.
  - intros id q Ha. split; [|done]. intros [= <-]. rewrite demo_live_abs in Ha.
    injection Ha as <-. done.
Defined.

Lemma pipe_readiness_exact_witness :
  exists rd wr r bs s1 n s2,
    pipe_readable 0 demo_live = Ret rd /\ pipe_try_read 0 2 demo_live = Ret (r, bs, s1) /\
    (rd = false <-> r = USIZE_MAX) /\
    pipe_writable 0 demo_live = Ret wr /\ pipe_try_write 0 [1; 2] demo_live = Ret (n, s2) /\
    (wr = false <-> n = USIZE_MAX).
Proof.
  apply (pipe_readiness_exact 0 2 [1; 2] demo_live); [exact demo_live_ok | done..].
Defined.

Lemma pipe_no_lost_wakeup_witness :
  match run_op (OpWrite 0 [1; 2]) demo_live with
  | Ret (e, s') => e = EvWrote 0 [1; 2] /\ blocked_on (TASKS demo_live) 3 = Some Input /\
                   blocked_on (TASKS s') 3 <> Some Input
  | Panic => False
  end.
Proof.
  destruct (run_op (OpWrite 0 [1; 2]) demo_live) as [[e s']|] eqn:E;
    [|vm_compute in E; discriminate].
  assert (e = EvWrote 0 [1; 2]) as He by (vm_compute in E; by injection E as <- _).
  split; [exact He|]. split; [reflexivity|].
  apply (pipe_no_lost_wakeup (OpWrite 0 [1; 2]) demo_live e s').
  - exact demo_live_ok.
  - done.
  - exact E.
  - rewrite He. done.
Defined.
