(* ===== verification/KHeap.v ===== *)
(** * The kernel heap

    Model of [kernel/src/memory/allocator.rs]: a bump allocator over the fixed
    16 MiB window with an address-ordered, coalescing free list.  The list is
    threaded through the free memory itself, so the model keeps the block
    headers in a store indexed by address and follows the [next] pointers.
    The spin lock and the interrupt guard around both entry points make every
    operation one atomic step. *)

From S2P Require Import Prelude.

(** [struct FreeBlock]; a null pointer is 0. *)
Record FreeBlock : Type := mkFB { fb_size : Z; fb_next : Z }.
#[global] Instance FreeBlock_eta : Eta FreeBlock := fun b => mkFB (fb_size b) (fb_next b).

Definition null : Z := 0.
Definition HEAP_START : Z := 0xC1800000.
Definition HEAP_END : Z := 0xC2800000.
(** [size_of] and [align_of] of two 32-bit words. *)
Definition HEADER_SIZE : Z := 8.
Definition HEADER_ALIGN : Z := 4.

(** [core::alloc::Layout] *)
Record Layout : Type := mkLayout { l_size : Z; l_align : Z }.

(** [struct Allocator] with the headers stored in heap memory. *)
Record Allocator : Type := mkA {
  bump_next : Z;
  free_list : Z;
  headers : gmap Z FreeBlock
}.
#[global] Instance Allocator_eta : Eta Allocator := fun a =>
  mkA (bump_next a) (free_list a) (headers a).

Definition Allocator_new : Allocator := mkA HEAP_START null ∅.

(** [(addr + align - 1) & !(align - 1)] *)
Definition align_up (addr align : Z) : outcome Z :=
  s ← add_u 32 addr align;
  s1 ← sub_u s 1;
  Ret (align_down 32 s1 align).

Definition adjust_layout (layout : Layout) : outcome Layout :=
  let align := Z.max (l_align layout) HEADER_ALIGN in
  let size := Z.max (l_size layout) HEADER_SIZE in
  size ← align_up size align;
  Ret (mkLayout size align).

(** Reading and writing a header through a raw pointer; following a null or
    wild pointer is the model's [Panic]. *)
Definition load (m : gmap Z FreeBlock) (p : Z) : outcome FreeBlock :=
  if p =? null then Panic else unwrap (m !! p).
Definition set_size (m : gmap Z FreeBlock) (p s : Z) : gmap Z FreeBlock :=
  <[p := mkFB s (default null (fb_next <$> m !! p))]> m.
Definition set_next (m : gmap Z FreeBlock) (p n : Z) : gmap Z FreeBlock :=
  <[p := mkFB (default 0 (fb_size <$> m !! p)) n]> m.

(** [while !current.is_null() && current < ptr]: the neighbours of [ptr]. *)
Fixpoint find_neighbours (fuel : nat) (m : gmap Z FreeBlock) (ptr previous current : Z)
    : outcome (Z * Z) :=
  match fuel with
  | O => Panic
  | S fuel =>
      if (negb (current =? null)) && (current <? ptr) then
        b ← load m current;
        find_neighbours fuel m ptr current (fb_next b)
      else Ret (previous, current)
  end.

(** Every node of the list has its header in the store, so its size bounds
    the number of iterations. *)
Definition walk_fuel (m : gmap Z FreeBlock) : nat := S (size m).

(** Absorb the block at [y] into the block at [x] when they touch; [add_free_block]
    does this to (inserted, successor) and then to (predecessor, inserted). *)
Definition merge_next (m : gmap Z FreeBlock) (x y : Z) : outcome (gmap Z FreeBlock) :=
  block ← load m x;
  e ← add_u 32 x (fb_size block);
  if e =? y then
    next ← load m y;
    s ← add_u 32 (fb_size block) (fb_size next);
    Ret (set_next (set_size m x s) x (fb_next next))
  else Ret m.

Definition add_free_block (a : Allocator) (ptr size : Z) : outcome Allocator :=
  let m := set_size (headers a) ptr size in
  '(previous, current) ← find_neighbours (walk_fuel m) m ptr null (free_list a);
  let m := set_next m ptr current in
  let '(head, m) :=
    if previous =? null then (ptr, m) else (free_list a, set_next m previous ptr) in
  m ← (if current =? null then Ret m else merge_next m ptr current);
  m ← (if previous =? null then Ret m else merge_next m previous ptr);
  Ret (mkA (bump_next a) head m).

(** The first-fit walk of [alloc_inner]; [None] is "fall through to bump". *)
Fixpoint alloc_walk (fuel : nat) (a : Allocator) (size align prev current : Z)
    : outcome (option (Z * Allocator)) :=
  match fuel with
  | O => Panic
  | S fuel =>
      if current =? null then Ret None else
      block ← load (headers a) current;
      if (size <=? fb_size block) && (current mod align =? 0) then
        let a1 :=
          if prev =? null then a <| free_list := fb_next block |>
          else a <| headers := set_next (headers a) prev (fb_next block) |> in
        remaining ← sub_u (fb_size block) size;
        if HEADER_SIZE * 2 <? remaining then
          a2 ← add_free_block a1 (current + size) remaining;
          Ret (Some (current, a2))
        else Ret (Some (current, a1))
      else alloc_walk fuel a size align current (fb_next block)
  end.

Definition alloc_inner (a : Allocator) (layout : Layout) : outcome (Z * Allocator) :=
  layout ← adjust_layout layout;
  let size := l_size layout in
  let align := l_align layout in
  found ← alloc_walk (walk_fuel (headers a)) a size align null (free_list a);
  match found with
  | Some (p, a') => Ret (p, a')
  | None =>
      aligned ← align_up (bump_next a) align;
      new_next ← add_u 32 aligned size;
      if HEAP_END <? new_next then Ret (null, a)
      else Ret (aligned, a <| bump_next := new_next |>)
  end.

(** [GlobalAlloc::alloc] and [GlobalAlloc::dealloc] *)
Definition alloc (a : Allocator) (layout : Layout) : outcome (Z * Allocator) :=
  alloc_inner a layout.

Definition dealloc (a : Allocator) (ptr : Z) (layout : Layout) : outcome Allocator :=
  if ptr =? null then Ret a else
  layout ← adjust_layout layout;
  add_free_block a ptr (l_size layout).

(** ** The free list as a list of blocks *)

Definition block : Type := Z * Z.
Implicit Types (l : list block) (m : gmap Z FreeBlock).

(** [lseg m p l q]: following [next] from [p] visits the blocks [l] and
    arrives at [q]. *)
Fixpoint lseg m (p : Z) l (q : Z) : Prop :=
  match l with
  | [] => p = q
  | (a, s) :: l => p = a /\ exists n, m !! a = Some (mkFB s n) /\ lseg m n l q
  end.

(** Blocks in address order between [lo] and [hi], never adjacent, each able
    to hold a header and aligned for one. *)
Fixpoint blocks_ok (lo : Z) l (hi : Z) : Prop :=
  match l with
  | [] => True
  | (a, s) :: l => lo < a /\ HEADER_SIZE <= s /\ a + s <= hi /\
                   a mod HEADER_ALIGN = 0 /\ s mod HEADER_ALIGN = 0 /\ blocks_ok (a + s) l hi
  end.

(** The end of the last block. *)
Fixpoint end_of (lo : Z) l : Z :=
  match l with [] => lo | (a, s) :: l => end_of (a + s) l end.

(** The bytes of a list of blocks. *)
Definition in_block (x : Z) (b : block) : Prop := b.1 <= x < b.1 + b.2.
Definition covers l (x : Z) : Prop := exists b, b ∈ l /\ in_block x b.

Lemma lseg_app m p l1 l2 q :
  lseg m p (l1 ++ l2) q <-> exists r, lseg m p l1 r /\ lseg m r l2 q.
Proof.
  revert p. induction l1 as [|[a s] l1 IH]; intros p; simpl.
  - naive_solver.
  - setoid_rewrite IH. naive_solver.
Qed.

Lemma lseg_insert m p l q a b : a ∉ l.*1 -> lseg m p l q -> lseg (<[a := b]> m) p l q.
Proof.
  revert p. induction l as [|[c s] l IH]; intros p; simpl; [done|].
  intros Hn (-> & n & Hm & Hl). apply not_elem_of_cons in Hn as [? ?].
  split; [done|]. exists n. rewrite lookup_insert_ne by done. auto.
Qed.

Lemma blocks_ok_app lo l1 l2 hi :
  blocks_ok lo (l1 ++ l2) hi <-> blocks_ok lo l1 hi /\ blocks_ok (end_of lo l1) l2 hi.
Proof.
  revert lo. induction l1 as [|[a s] l1 IH]; intros lo; simpl; [naive_solver|].
  rewrite IH. naive_solver.
Qed.

Lemma end_of_app lo l1 l2 : end_of lo (l1 ++ l2) = end_of (end_of lo l1) l2.
Proof. revert lo. induction l1 as [|[a s] l1 IH]; intros lo; simpl; auto. Qed.

Lemma blocks_ok_end lo l hi : blocks_ok lo l hi -> lo <= end_of lo l /\ (l <> [] -> end_of lo l <= hi).
Proof.
  revert lo. induction l as [|[a s] l IH]; intros lo; simpl; [naive_solver lia|].
  intros (? & ? & ? & _ & _ & Hl). apply IH in Hl as [? ?]. unfold HEADER_SIZE in *.
  split; [lia|]. intros _. destruct l; [simpl; lia|]. naive_solver.
Qed.

Lemma blocks_ok_elem lo l hi a s :
  blocks_ok lo l hi -> (a, s) ∈ l ->
  lo < a /\ HEADER_SIZE <= s /\ a + s <= hi /\ a mod HEADER_ALIGN = 0 /\ s mod HEADER_ALIGN = 0 /\
  a + s <= end_of lo l.
Proof.
  revert lo. induction l as [|[b t] l IH]; intros lo; simpl; [by intros _ ?%not_elem_of_nil|].
  intros (? & ? & ? & ? & ? & Hl) [[= -> ->]|Hin]%elem_of_cons.
  - pose proof (blocks_ok_end _ _ _ Hl). naive_solver lia.
  - destruct (IH _ Hl Hin) as (? & ? & ? & ? & ? & ?). unfold HEADER_SIZE in *. split_and!; try done; lia.
Qed.

Lemma blocks_ok_weaken lo lo' l hi hi' :
  blocks_ok lo l hi -> lo' <= lo -> hi <= hi' -> blocks_ok lo' l hi'.
Proof.
  revert lo lo'. induction l as [|[a s] l IH]; intros lo lo'; simpl; [done|].
  intros (? & ? & ? & ? & ? & ?) ? ?. split_and!; try lia; try done. eapply IH; [done|lia..].
Qed.

Lemma blocks_ok_NoDup lo l hi : blocks_ok lo l hi -> NoDup l.*1.
Proof.
  revert lo. induction l as [|[a s] l IH]; intros lo; simpl; [by constructor|].
  intros (? & Hs & ? & _ & _ & Hl). constructor; [|by eapply IH].
  intros ([b t] & -> & Hin)%list_elem_of_fmap.
  destruct (blocks_ok_elem _ _ _ _ _ Hl Hin) as [? _]. unfold HEADER_SIZE in Hs. simpl in *. lia.
Qed.

Lemma covers_app l1 l2 x : covers (l1 ++ l2) x <-> covers l1 x \/ covers l2 x.
Proof. unfold covers. setoid_rewrite elem_of_app. naive_solver. Qed.

Lemma covers_cons b l x : covers (b :: l) x <-> in_block x b \/ covers l x.
Proof. unfold covers. setoid_rewrite elem_of_cons. naive_solver. Qed.

Lemma covers_nil x : ~ covers [] x.
Proof. by intros (b & ?%not_elem_of_nil & _). Qed.

(** The walk stops at the first block not below [ptr]. *)
Lemma find_neighbours_ok fuel m ptr prev cur l1 q :
  lseg m cur l1 q -> Forall (fun b => b.1 <> null /\ b.1 < ptr) l1 ->
  q = null \/ ptr <= q -> (length l1 < fuel)%nat ->
  find_neighbours fuel m ptr prev cur = Ret (default prev (fst <$> last l1), q).
Proof.
  revert fuel prev cur. induction l1 as [|[a s] l1 IH]; intros fuel prev cur Hs Hf Hq Hfuel;
    (destruct fuel as [|fuel]; [simpl in *; lia|]); simpl in *.
  - subst cur. destruct Hq as [->|Hq]; [done|].
    rewrite (proj2 (Z.ltb_ge q ptr)) by done. by rewrite andb_false_r.
  - destruct Hs as (-> & n & Hm & Hs). apply Forall_cons in Hf as [[Hnz Hlt] Hf]. simpl in *.
    rewrite (proj2 (Z.eqb_neq a null)), (proj2 (Z.ltb_lt a ptr)) by done. simpl.
    unfold load. rewrite (proj2 (Z.eqb_neq a null)), Hm by done. simpl.
    rewrite (IH fuel a n Hs Hf Hq) by lia. rewrite last_cons. by destruct (last l1).
Qed.

(** Splitting the list at an address that none of its blocks covers. *)
Lemma split_at l lo hi ptr size :
  blocks_ok lo l hi -> 0 < size ->
  (forall x, ptr <= x < ptr + size -> ~ covers l x) ->
  exists l1 l2, l = l1 ++ l2 /\ (l1 <> [] -> end_of lo l1 <= ptr) /\
    Forall (fun b => b.1 < ptr) l1 /\ Forall (fun b => ptr + size <= b.1) l2.
Proof.
  revert lo. induction l as [|[a s] l IH]; intros lo Hok Hsz Hd; simpl in Hok.
  { exists [], []. by split_and!; auto. }
  destruct Hok as (Hlo & Hs & Hhi & _ & _ & Hl). unfold HEADER_SIZE in Hs.
  assert (Hdl : forall x, ptr <= x < ptr + size -> ~ covers l x /\ ~ in_block x (a, s)).
  { intros x Hx. specialize (Hd x Hx). rewrite covers_cons in Hd. naive_solver. }
  unfold in_block in Hdl; simpl in Hdl.
  destruct (Z.lt_ge_cases a ptr).
  - assert (a + s <= ptr) by (destruct (Z.le_gt_cases (a + s) ptr); [done|];
                              destruct (Hdl ptr ltac:(lia)); lia).
    destruct (IH (a + s) Hl Hsz) as (l1 & l2 & -> & He & H1 & H2); [naive_solver|].
    exists ((a, s) :: l1), l2. split_and!; [done| |by constructor|done].
    intros _. simpl. destruct l1; [done|]. by apply He.
  - assert (ptr + size <= a) by (destruct (Z.le_gt_cases (ptr + size) a); [done|];
                                 destruct (Hdl a ltac:(lia)); lia).
    exists [], ((a, s) :: l). split_and!; [done..|constructor|].
    constructor; [done|]. apply Forall_forall. intros [b t] Hin.
    destruct (blocks_ok_elem _ _ _ _ _ Hl Hin) as [? _]. simpl. lia.
Qed.

(** Absorbing the successor [y] of [x]. *)
Lemma lseg_merge m p l1 x xs y ys l2 q :
  lseg m p (l1 ++ (x, xs) :: (y, ys) :: l2) q -> NoDup (l1 ++ (x, xs) :: (y, ys) :: l2).*1 ->
  exists n, m !! y = Some (mkFB ys n) /\ m !! x = Some (mkFB xs y) /\
    lseg (set_next (set_size m x (xs + ys)) x n) p (l1 ++ (x, xs + ys) :: l2) q.
Proof.
  rewrite fmap_app, !fmap_cons. simpl. rewrite !lseg_app. simpl.
  intros (r & H1 & -> & nx & Hx & -> & n & Hy & H2) Hnd.
  exists n. split_and!; [done..|]. unfold set_next, set_size. rewrite lookup_insert_eq. simpl.
  rewrite insert_insert_eq.
  apply NoDup_app in Hnd as (_ & Hx1 & Hnd). apply NoDup_cons in Hnd as [Hx2 Hnd].
  apply not_elem_of_cons in Hx2 as [? Hx2].
  apply lseg_app. exists x. split.
  - apply lseg_insert; [|done]. intros Hin. apply (Hx1 x Hin). by left.
  - simpl. split; [done|]. exists n. rewrite lookup_insert_eq. split; [done|].
    by apply lseg_insert.
Qed.

(** Linking a fresh block between [l1] and [l2]. *)
Lemma lseg_link m p l1 l2 ptr size :
  lseg m p (l1 ++ l2) null -> NoDup (l1 ++ l2).*1 -> ptr ∉ (l1 ++ l2).*1 ->
  let cur := default null (fst <$> head l2) in
  let m1 := set_next (set_size m ptr size) ptr cur in
  match last l1 with
  | None => lseg m1 ptr (l1 ++ (ptr, size) :: l2) null
  | Some b => lseg (set_next m1 b.1 ptr) p (l1 ++ (ptr, size) :: l2) null
  end.
Proof.
  intros Hl Hnd Hp cur m1. apply lseg_app in Hl as (r & H1 & H2).
  assert (r = cur) as -> by (destruct l2 as [|[c cs] l2]; simpl in *; naive_solver).
  rewrite fmap_app in Hp, Hnd. apply not_elem_of_app in Hp as [Hp1 Hp2].
  assert (m1 = <[ptr := mkFB size cur]> m) as Hm1.
  { unfold m1, set_next, set_size. rewrite lookup_insert_eq. simpl. by rewrite insert_insert_eq. }
  rewrite Hm1. destruct (last l1) as [[b bs]|] eqn:Hlast.
  - apply last_Some in Hlast as [l0 ->]. rewrite <- app_assoc. simpl.
    rewrite fmap_app in *. simpl in *.
    apply lseg_app in H1 as (r & H0 & -> & n & Hb & ->).
    apply not_elem_of_app in Hp1 as [Hp0 Hpb]. apply not_elem_of_cons in Hpb as [Hpb _].
    rewrite <- app_assoc in Hnd. apply NoDup_app in Hnd as (_ & Hb1 & Hnd).
    simpl in Hnd. apply NoDup_cons in Hnd as [Hb2 _].
    apply lseg_app. exists b. split.
    + apply lseg_insert; [|by apply lseg_insert]. intros Hin. apply (Hb1 b Hin). by left.
    + simpl. split; [done|]. unfold set_next. rewrite (lookup_insert_ne m ptr b), Hb by done. simpl.
      exists ptr. rewrite lookup_insert_eq. split; [done|]. split; [done|].
      exists cur. rewrite lookup_insert_ne, lookup_insert_eq by done. split; [done|].
      apply lseg_insert; [|by apply lseg_insert]. done.
  - apply last_None in Hlast as ->. simpl in *. split; [done|]. exists cur.
    rewrite lookup_insert_eq. split; [done|]. by apply lseg_insert.
Qed.

(** Both merge phases at once: a block followed by blocks it may touch ends up
    followed by blocks it does not touch, and the same bytes stay covered. *)
Lemma merge_next_ok m h l1 x xs y ys l2 hi :
  lseg m h (l1 ++ (x, xs) :: (y, ys) :: l2) null ->
  NoDup (l1 ++ (x, xs) :: (y, ys) :: l2).*1 ->
  0 < x -> HEADER_SIZE <= xs -> xs mod HEADER_ALIGN = 0 ->
  blocks_ok (x + xs - 1) ((y, ys) :: l2) hi -> hi <= U32_MAX ->
  exists m' xs' l', merge_next m x y = Ret m' /\ lseg m' h (l1 ++ (x, xs') :: l') null /\
    NoDup (l1 ++ (x, xs') :: l').*1 /\
    HEADER_SIZE <= xs' /\ x + xs' <= hi /\ xs' mod HEADER_ALIGN = 0 /\
    blocks_ok (x + xs') l' hi /\
    (forall z, covers ((x, xs') :: l') z <-> covers ((x, xs) :: (y, ys) :: l2) z).
Proof.
  intros Hl Hnd Hx Hxs Hxa (Hy & Hys & Hyh & Hya & Hysa & Hl2) Hhi.
  destruct (lseg_merge _ _ _ _ _ _ _ _ _ Hl Hnd) as (n & Hmy & Hmx & Hm).
  unfold merge_next, load, null, U32_MAX, HEADER_SIZE, HEADER_ALIGN in *.
  rewrite (proj2 (Z.eqb_neq x 0)), Hmx by lia. simpl. unfold add_u.
  rewrite (proj2 (Z.ltb_lt _ _)) by lia. simpl.
  destruct (Z.eqb_spec (x + xs) y) as [Heq|Hne].
  - rewrite (proj2 (Z.eqb_neq y 0)), Hmy by lia. simpl.
    rewrite (proj2 (Z.ltb_lt _ _)) by lia. simpl.
    eexists _, (xs + ys), l2. split_and!; [done|exact Hm| |lia|lia|mlia| |].
    + eapply sublist_NoDup; [exact Hnd|]. rewrite !fmap_app. simpl.
      apply sublist_app; [done|]. do 2 constructor. done.
    + by replace (x + (xs + ys)) with (y + ys) by lia.
    + intros z. rewrite !covers_cons.
      assert (in_block z (x, xs + ys) <-> in_block z (x, xs) \/ in_block z (y, ys))
        by (unfold in_block; simpl; lia).
      naive_solver.
  - exists m, xs, ((y, ys) :: l2). simpl. split_and!; try done; lia.
Qed.

(** The blocks of a list have distinct headers in the store. *)
Lemma lseg_length m p l q : lseg m p l q -> NoDup l.*1 -> (length l <= size m)%nat.
Proof.
  intros Hl Hnd. transitivity (length l.*1); [by rewrite length_fmap|].
  rewrite <- (size_list_to_set (C := gset Z)), <- size_dom by done. apply subseteq_size. 
  intros a (b & -> & Hb)%elem_of_list_to_set%list_elem_of_fmap.
  clear Hnd. revert p Hl. induction l as [|[c s] l IH]; intros p; [by apply not_elem_of_nil in Hb|].
  intros (-> & n & Hm & Hl). apply elem_of_cons in Hb as [->|Hb]; [|by eapply IH].
  apply elem_of_dom. eauto.
Qed.

Lemma covers_own l a s : (a, s) ∈ l -> 0 < s -> covers l a.
Proof. intros Hin Hs. exists (a, s). split; [done|]. unfold in_block. simpl. lia. Qed.

(** The list after linking: the new block sits between [l1] and [l2], the
    walk has found its neighbours, and only touching blocks remain unmerged. *)
Lemma not_covered_not_key lo hi l ptr :
  blocks_ok lo l hi -> ~ covers l ptr -> ptr ∉ l.*1.
Proof.
  intros Hok Hc ([a s] & -> & Hin)%list_elem_of_fmap. apply Hc. simpl.
  destruct (blocks_ok_elem _ _ _ _ _ Hok Hin) as (_ & ? & _). unfold HEADER_SIZE in *.
  apply (covers_own _ _ s); [done|lia].
Qed.

Definition first_addr l : Z := default null (fst <$> head l).
Definition last_addr l : Z := default null (fst <$> last l).

(** The merge with an optional successor, as [add_free_block] performs it. *)
Lemma merge_succ_ok m h l1 x xs l2 hi :
  lseg m h (l1 ++ (x, xs) :: l2) null -> NoDup (l1 ++ (x, xs) :: l2).*1 ->
  0 < x -> HEADER_SIZE <= xs -> xs mod HEADER_ALIGN = 0 -> x + xs <= hi ->
  blocks_ok (x + xs - 1) l2 hi -> hi <= U32_MAX ->
  exists m' xs' l',
    (if first_addr l2 =? null then Ret m else merge_next m x (first_addr l2)) = Ret m' /\
    lseg m' h (l1 ++ (x, xs') :: l') null /\ NoDup (l1 ++ (x, xs') :: l').*1 /\
    HEADER_SIZE <= xs' /\ x + xs' <= hi /\ xs' mod HEADER_ALIGN = 0 /\
    blocks_ok (x + xs') l' hi /\
    (forall z, covers ((x, xs') :: l') z <-> covers ((x, xs) :: l2) z).
Proof.
  intros Hl Hnd Hx Hxs Hxa Hxh Hok Hhi. destruct l2 as [|[y ys] l2].
  - exists m, xs, []. by split_and!.
  - unfold first_addr. simpl head. simpl default.
    destruct (blocks_ok_elem _ _ _ y ys Hok ltac:(by left)) as (Hy & _).
    rewrite (proj2 (Z.eqb_neq y null)) by (unfold null, HEADER_SIZE in *; lia).
    by apply (merge_next_ok m h l1 x xs y ys l2 hi).
Qed.

Section AddFreeBlock.
  Variables (a : Allocator) (l : list block) (lo hi ptr sz : Z).
  Hypothesis (Hlo : 0 <= lo) (Hhi : hi <= U32_MAX).
  Hypothesis (Hseg : lseg (headers a) (free_list a) l null) (Hok : blocks_ok lo l hi).
  Hypothesis (Hptr : lo < ptr) (Hsz : HEADER_SIZE <= sz) (Hend : ptr + sz <= hi).
  Hypothesis (Hpa : ptr mod HEADER_ALIGN = 0) (Hsa : sz mod HEADER_ALIGN = 0).
  Hypothesis (Hfresh : forall x, ptr <= x < ptr + sz -> ~ covers l x).

(** The address of the inserted block is not on the list yet. *)
Lemma add_fresh_key : ptr ∉ l.*1.
Proof using Hok Hfresh Hsz.
  apply (not_covered_not_key lo hi); [done|]. apply Hfresh. unfold HEADER_SIZE in *. lia.
Qed.

(** The search finds the neighbours of the new block. *)
Lemma add_find l1 l2 :
  l = l1 ++ l2 -> Forall (fun b => b.1 < ptr) l1 -> Forall (fun b => ptr + sz <= b.1) l2 ->
  let m := set_size (headers a) ptr sz in
  find_neighbours (walk_fuel m) m ptr null (free_list a) = Ret (last_addr l1, first_addr l2).
Proof using Hok Hfresh Hsz Hseg Hlo.
  intros Hl12 H1 H2 m. pose proof add_fresh_key as Hk.
  assert (lseg m (free_list a) l null) as Hm by (by apply lseg_insert).
  pose proof (lseg_length _ _ _ _ Hm (blocks_ok_NoDup _ _ _ Hok)) as Hlen.
  assert (forall b, b ∈ l -> b.1 <> null) as Hnn.
  { intros [b s] Hb. destruct (blocks_ok_elem _ _ _ _ _ Hok Hb). unfold null. simpl. lia. }
  subst l. rewrite length_app in Hlen. apply lseg_app in Hm as (r & Hm1 & Hm2).
  assert (r = first_addr l2) as ->.
  { destruct l2 as [|[c cs] l2]; unfold first_addr; simpl in *; naive_solver. }
  apply find_neighbours_ok; [done| | |unfold walk_fuel; lia].
  - apply Forall_forall. intros b Hb. split.
    + apply Hnn, elem_of_app. by left.
    + by apply (proj1 (Forall_forall _ _) H1).
  - destruct l2 as [|[c cs] l2]; [by left|]. right. apply Forall_cons in H2 as [H2 _].
    unfold first_addr. simpl in *. unfold HEADER_SIZE in Hsz. lia.
Qed.

(** Linking the block in, whichever neighbour it has. *)
Lemma add_link l1 l2 :
  l = l1 ++ l2 ->
  exists h m2,
    (let m := set_next (set_size (headers a) ptr sz) ptr (first_addr l2) in
     if last_addr l1 =? null then (ptr, m)
     else (free_list a, set_next m (last_addr l1) ptr)) = (h, m2) /\
    lseg m2 h (l1 ++ (ptr, sz) :: l2) null.
Proof using Hok Hfresh Hsz Hseg Hlo.
  intros Hl. pose proof add_fresh_key as Hk. pose proof (blocks_ok_NoDup _ _ _ Hok) as Hnd.
  pose proof Hok as Hok1. pose proof Hseg as Hseg1. rewrite Hl in Hk, Hnd, Hok1, Hseg1.
  pose proof (lseg_link _ _ l1 l2 ptr sz Hseg1 Hnd Hk) as Hlink. cbv zeta in Hlink.
  unfold last_addr. destruct (last l1) as [[b bs]|] eqn:Hlast; simpl.
  - assert (b <> null) as Hb.
    { apply last_Some in Hlast as [l0 ->].
      destruct (blocks_ok_elem _ _ _ b bs Hok1) as [? _];
        [rewrite !elem_of_app, list_elem_of_singleton; auto|]. unfold null. lia. }
    rewrite (proj2 (Z.eqb_neq b null) Hb). eauto.
  - eauto.
Qed.

(** Freeing a range: the list stays ordered and fully coalesced, and it covers
    exactly the range more than before. *)
Lemma add_free_block_ok :
  exists m h l', add_free_block a ptr sz = Ret (mkA (bump_next a) h m) /\
    lseg m h l' null /\ blocks_ok lo l' hi /\
    (forall x, covers l' x <-> covers l x \/ ptr <= x < ptr + sz).
Proof using All.
  destruct (split_at l lo hi ptr sz Hok) as (l1 & l2 & Hl & He & H1 & H2);
    [unfold HEADER_SIZE in *; lia|done|].
  unfold add_free_block. rewrite (add_find l1 l2 Hl H1 H2). simpl.
  destruct (add_link l1 l2 Hl) as (h & m2 & Hlk & Hm2). cbv zeta in Hlk. rewrite Hlk. clear Hlk.
  pose proof Hok as Hok'. rewrite Hl in Hok'. apply blocks_ok_app in Hok' as [Hok1 Hok2].
  assert (NoDup (l1 ++ (ptr, sz) :: l2).*1) as Hnd2.
  { assert ((l1 ++ (ptr, sz) :: l2).*1 ≡ₚ ptr :: l.*1) as ->.
    { rewrite Hl, !fmap_app, fmap_cons. symmetry. apply Permutation_middle. }
    constructor; [apply add_fresh_key|by eapply blocks_ok_NoDup]. }
  assert (blocks_ok (ptr + sz - 1) l2 hi) as Hok2'.
  { destruct l2 as [|[c cs] l2]; [done|]. apply Forall_cons in H2 as [H2 _].
    simpl in *. split; [lia|]. naive_solver. }
  destruct (merge_succ_ok m2 h l1 ptr sz l2 hi Hm2 Hnd2) as
    (m3 & sz' & l2' & -> & Hm3 & Hnd3 & Hsz' & Hend' & Hsa' & Hok3 & Hcov3); try done; [lia|].
  simpl. destruct (last l1) as [[b bs]|] eqn:Hlast; unfold last_addr; rewrite Hlast; simpl.
  - apply last_Some in Hlast as [l0 ->]. rewrite <- app_assoc in Hm3, Hnd3. simpl in Hm3, Hnd3.
    apply blocks_ok_app in Hok1 as [Hok0 (Hb & Hbs & Hbh & Hba & Hbsa & _)].
    pose proof (blocks_ok_end _ _ _ Hok0) as [Hlo0 _].
    rewrite end_of_app in He. simpl in He. specialize (He ltac:(by destruct l0)).
    destruct (merge_succ_ok m3 h l0 b bs ((ptr, sz') :: l2') hi Hm3 Hnd3) as
      (m4 & bs' & l3 & Heq & Hm4 & _ & Hbs' & Hbend' & Hbsa' & Hok4 & Hcov4);
      try done; [lia|simpl; split_and!; try done; lia|].
    unfold first_addr in Heq. simpl in Heq.
    rewrite (proj2 (Z.eqb_neq ptr null)) in Heq by (unfold null; lia).
    rewrite (proj2 (Z.eqb_neq b null)), Heq by (unfold null; lia). simpl.
    exists m4, h, (l0 ++ (b, bs') :: l3). split_and!; [done..| |].
    + apply blocks_ok_app. split; [done|]. simpl. split_and!; done.
    + intros x. rewrite Hl, covers_app, Hcov4, covers_cons, Hcov3, <- app_assoc, !covers_app, !covers_cons.
      unfold in_block at 2. simpl. pose proof (covers_nil x). tauto.
  - apply last_None in Hlast as ->. exists m3, h, ((ptr, sz') :: l2').
    split; [done|]. split; [exact Hm3|]. split; [simpl; by split_and!|]. intros x. rewrite Hl, Hcov3, covers_cons. unfold in_block. simpl. tauto.
Qed.
End AddFreeBlock.

(** Unlinking a block from the list. *)
Lemma lseg_unlink m p l1 c s l2 :
  lseg m p (l1 ++ (c, s) :: l2) null -> NoDup (l1 ++ (c, s) :: l2).*1 ->
  exists n, m !! c = Some (mkFB s n) /\
  match last l1 with
  | None => lseg m n (l1 ++ l2) null
  | Some b => lseg (set_next m b.1 n) p (l1 ++ l2) null
  end.
Proof.
  intros Hl Hnd. apply lseg_app in Hl as (r & H1 & -> & n & Hc & H2). exists n. split; [done|].
  destruct (last l1) as [[b bs]|] eqn:Hlast.
  - apply last_Some in Hlast as [l0 ->]. rewrite <- app_assoc in *. simpl in *.
    apply lseg_app in H1 as (r & H0 & -> & k & Hb & ->).
    rewrite fmap_app in Hnd. simpl in Hnd. apply NoDup_app in Hnd as (_ & Hb0 & Hnd).
    apply NoDup_cons in Hnd as [Hb2 _]. apply not_elem_of_cons in Hb2 as [_ Hb2].
    apply lseg_app. exists b. unfold set_next. rewrite Hb. simpl. split.
    + apply lseg_insert; [|done]. intros Hin. apply (Hb0 b Hin). by left.
    + split; [done|]. exists n. rewrite lookup_insert_eq. split; [done|]. by apply lseg_insert.
  - apply last_None in Hlast as ->. done.
Qed.

(** The bytes of one block of an ordered list belong to no other block. *)
Lemma blocks_ok_removed lo l1 c s l2 hi :
  blocks_ok lo (l1 ++ (c, s) :: l2) hi ->
  blocks_ok lo (l1 ++ l2) hi /\
  (forall x, covers (l1 ++ l2) x <-> covers (l1 ++ (c, s) :: l2) x /\ ~ c <= x < c + s).
Proof.
  intros Hok. apply blocks_ok_app in Hok as [H1 (Hc & Hs & Hch & Hca & Hsa & H2)].
  unfold HEADER_SIZE in Hs. split.
  - apply blocks_ok_app. split; [done|]. eapply blocks_ok_weaken; [done|lia..].
  - intros x. rewrite !covers_app, covers_cons. unfold in_block. simpl.
    assert (covers l1 x -> ~ c <= x < c + s).
    { intros ([b t] & Hb & Hx) ?. destruct (blocks_ok_elem _ _ _ _ _ H1 Hb) as (_&_&_&_&_&?).
      unfold in_block in Hx. simpl in Hx. lia. }
    assert (covers l2 x -> ~ c <= x < c + s).
    { intros ([b t] & Hb & Hx) ?. destruct (blocks_ok_elem _ _ _ _ _ H2 Hb) as (?&_).
      unfold in_block in Hx. simpl in Hx. lia. }
    tauto.
Qed.

(** What the walk looks for, and how much of the block it takes: a remainder
    of at most two headers stays with the allocation. *)
Definition fits (sz align : Z) (b : block) : Prop := sz <= b.2 /\ b.1 mod align = 0.
Definition extent_taken (s sz : Z) : Z := if HEADER_SIZE * 2 <? s - sz then sz else s.

Section AllocWalk.
  Variables (a : Allocator) (lo hi sz align : Z).
  Hypothesis (Hlo : 0 <= lo) (Hhi : hi <= U32_MAX).
  Hypothesis (Hsz : HEADER_SIZE <= sz) (Hsa : sz mod HEADER_ALIGN = 0).

(** Taking the block [(c, s)] out of the list and returning its remainder. *)
Lemma take_block_ok l1 c s l2 n :
  lseg (headers a) (free_list a) (l1 ++ (c, s) :: l2) null ->
  blocks_ok lo (l1 ++ (c, s) :: l2) hi -> headers a !! c = Some (mkFB s n) ->
  fits sz align (c, s) ->
  exists a' l',
    (let a1 := if last_addr l1 =? null then a <| free_list := n |>
               else a <| headers := set_next (headers a) (last_addr l1) n |> in
     remaining ← sub_u s sz;
     if HEADER_SIZE * 2 <? remaining then
       a2 ← add_free_block a1 (c + sz) remaining; Ret (Some (c, a2))
     else Ret (Some (c, a1))) = Ret (Some (c, a')) /\
    bump_next a' = bump_next a /\ lseg (headers a') (free_list a') l' null /\
    blocks_ok lo l' hi /\
    (forall x, covers l' x <-> covers (l1 ++ (c, s) :: l2) x /\ ~ c <= x < c + extent_taken s sz).
Proof using All.
  intros Hseg Hok Hc [Hfit _]. simpl in Hfit.
  destruct (lseg_unlink _ _ _ _ _ _ Hseg (blocks_ok_NoDup _ _ _ Hok)) as (n' & Hc' & Hun).
  rewrite Hc in Hc'. injection Hc' as <-.
  destruct (blocks_ok_removed _ _ _ _ _ _ Hok) as [Hok1 Hcov1].
  set (a1 := if last_addr l1 =? null then _ else _).
  assert (bump_next a1 = bump_next a /\ lseg (headers a1) (free_list a1) (l1 ++ l2) null) as [Hb1 Hs1].
  { subst a1. unfold last_addr. destruct (last l1) as [[b bs]|] eqn:Hlast; simpl; [|done].
    apply last_Some in Hlast as [l0 ->].
    destruct (blocks_ok_elem _ _ _ b bs Hok) as [? _];
      [rewrite !elem_of_app, list_elem_of_singleton; auto|].
    by rewrite (proj2 (Z.eqb_neq b null)) by (unfold null; lia). }
  clearbody a1. cbv zeta. unfold sub_u. rewrite (proj2 (Z.leb_le sz s)) by done. simpl.
  unfold extent_taken. destruct (Z.ltb_spec (HEADER_SIZE * 2) (s - sz)) as [Hrem|Hrem].
  - destruct (blocks_ok_elem _ _ _ c s Hok) as (Hc1 & Hs8 & Hce & Hca & Hcs & _);
      [rewrite elem_of_app, elem_of_cons; auto|].
    unfold HEADER_SIZE, HEADER_ALIGN in *.
    destruct (add_free_block_ok a1 (l1 ++ l2) lo hi (c + sz) (s - sz)) as
      (m & h & l' & -> & Hl' & Hok' & Hcov'); unfold HEADER_SIZE, HEADER_ALIGN;
      try done; try lia; try mlia.
    { intros x Hx. rewrite Hcov1. lia. }
    simpl. eexists _, l'. split; [done|]. simpl. split_and!; [done..|].
    intros x. rewrite Hcov', Hcov1, covers_app, covers_cons. unfold in_block. simpl.
    destruct (decide (c <= x < c + s)); intuition lia.
  - exists a1, (l1 ++ l2). by split_and!.
Qed.

(** First fit: the walk takes the first fitting block, or none fits. *)
Lemma alloc_walk_ok fuel l1 l2 cur :
  lseg (headers a) (free_list a) (l1 ++ l2) null -> lseg (headers a) cur l2 null ->
  blocks_ok lo (l1 ++ l2) hi -> (length l2 < fuel)%nat ->
  (alloc_walk fuel a sz align (last_addr l1) cur = Ret None /\
   Forall (fun b => ~ fits sz align b) l2) \/
  (exists a' l' l2a c s l2b, alloc_walk fuel a sz align (last_addr l1) cur = Ret (Some (c, a')) /\
    l2 = l2a ++ (c, s) :: l2b /\ Forall (fun b => ~ fits sz align b) l2a /\ fits sz align (c, s) /\
    bump_next a' = bump_next a /\ lseg (headers a') (free_list a') l' null /\
    blocks_ok lo l' hi /\
    (forall x, covers l' x <-> covers (l1 ++ l2) x /\ ~ c <= x < c + extent_taken s sz)).
Proof using All.
  revert fuel l1 cur. induction l2 as [|[c s] l2 IH]; intros fuel l1 cur Hseg Hcur Hok Hfuel;
    (destruct fuel as [|fuel]; [simpl in *; lia|]); simpl in Hcur.
  { subst cur. left. by split. }
  destruct Hcur as (-> & n & Hc & Hn). simpl alloc_walk.
  destruct (blocks_ok_elem _ _ _ c s Hok) as [Hc0 _]; [rewrite elem_of_app, elem_of_cons; auto|].
  unfold load. rewrite (proj2 (Z.eqb_neq c null)), Hc by (unfold null; lia). simpl.
  destruct (Z.leb_spec sz s) as [Hle|Hgt]; [destruct (Z.eqb_spec (c mod align) 0) as [Hal|Hal]|];
    simpl.
  1: { right. destruct (take_block_ok l1 c s l2 n Hseg Hok Hc) as (a' & l' & Heq & H); [by split|].
       cbv zeta in Heq. exists a', l', [], c, s, l2. rewrite Heq. repeat (split; [done|]). exact H. }
  all: assert (~ fits sz align (c, s)) as Hno by (intros [? ?]; simpl in *; first [congruence|lia]);
    destruct (IH fuel (l1 ++ [(c, s)]) n) as [[Hw Hf]|(a' & l' & l2a & c' & s' & l2b & Hw & -> & Hf & H)];
    rewrite <- ?app_assoc; try done; [simpl in *; lia|left|right];
    unfold last_addr at 1 in Hw; rewrite last_snoc in Hw; simpl in Hw; rewrite Hw.
  1,3: split; [done|by constructor].
  all: rewrite <- app_assoc in H; exists a', l', ((c, s) :: l2a), c', s', l2b;
    split_and!; try done; [by constructor|apply H..].
Qed.
End AllocWalk.

(** ** Layouts *)

(** The contract of [core::alloc::Layout]: a power-of-two alignment, and a size
    that does not exceed [isize::MAX] when rounded up to it. *)
Definition layout_ok (lay : Layout) : Prop :=
  is_pow2 (l_align lay) /\ 0 <= l_size lay /\ l_size lay + l_align lay <= 2 ^ 31.
(** Requests far beyond the 16 MiB window, for which no addition overflows. *)
Definition layout_small (lay : Layout) : Prop :=
  layout_ok lay /\ l_size lay <= 2 ^ 29 /\ l_align lay <= 2 ^ 27.

Definition adj_align (lay : Layout) : Z := Z.max (l_align lay) HEADER_ALIGN.
Definition adj_size (lay : Layout) : Z :=
  align_down 32 (Z.max (l_size lay) HEADER_SIZE + adj_align lay - 1) (adj_align lay).

Lemma is_pow2_4 : is_pow2 HEADER_ALIGN.
Proof. by exists 2. Qed.

Lemma adj_align_ok lay : layout_ok lay ->
  is_pow2 (adj_align lay) /\ 4 <= adj_align lay <= 2 ^ 31 /\
  (forall x, x mod adj_align lay = 0 -> x mod l_align lay = 0 /\ x mod HEADER_ALIGN = 0).
Proof.
  intros (Hp & Hs & Hm). unfold adj_align. pose proof is_pow2_4 as H4.
  pose proof (is_pow2_pos _ Hp). assert (is_pow2 (Z.max (l_align lay) HEADER_ALIGN)) by by apply is_pow2_max.
  split_and!; [done|unfold HEADER_ALIGN; lia..|].
  intros x Hx. split; (eapply aligned_weaken; [..|exact Hx]); try done; lia.
Qed.

Lemma adj_size_ok lay : layout_ok lay ->
  HEADER_SIZE <= adj_size lay /\ l_size lay <= adj_size lay /\
  adj_size lay < Z.max (l_size lay) HEADER_SIZE + adj_align lay /\
  adj_size lay mod adj_align lay = 0.
Proof.
  intros Hl. destruct (adj_align_ok lay Hl) as (Hp & Ha & _).
  destruct Hl as (Hpos%is_pow2_pos & Hs & Hm).
  destruct (align_up_pow2 32 (Z.max (l_size lay) HEADER_SIZE) (adj_align lay)) as [? ?];
    unfold adj_size, HEADER_SIZE, adj_align, HEADER_ALIGN in *; try done; try lia.
Qed.

Lemma adjust_layout_ok lay : layout_ok lay ->
  adjust_layout lay = Ret (mkLayout (adj_size lay) (adj_align lay)).
Proof.
  intros Hl. destruct (adj_align_ok lay Hl) as (Hp & Ha & _).
  destruct Hl as (Hpos%is_pow2_pos & Hs & Hm).
  unfold adjust_layout, align_up, add_u, sub_u. fold (adj_align lay).
  rewrite (proj2 (Z.ltb_lt _ _)) by (unfold adj_align, HEADER_SIZE, HEADER_ALIGN in *; lia). simpl.
  rewrite (proj2 (Z.leb_le _ _)) by (unfold HEADER_SIZE; lia). done.
Qed.

(** ** The allocator's state *)

(** The free list denotes [l], below the bump pointer. *)
Record free_ok (a : Allocator) l : Prop := {
  fo_seg : lseg (headers a) (free_list a) l null;
  fo_blocks : blocks_ok (HEAP_START - 1) l (bump_next a);
  fo_bump : HEAP_START <= bump_next a <= HEAP_END;
  fo_bump_align : bump_next a mod HEADER_ALIGN = 0
}.

(** What an allocation hands out: [p] is aligned, and its bytes were free. *)
Record served (a a' : Allocator) l l' (lay : Layout) (p : Z) : Prop := {
  sv_free : free_ok a' l';
  sv_bump : bump_next a <= bump_next a';
  sv_lo : HEAP_START <= p;
  sv_hi : p + adj_size lay <= bump_next a';
  sv_align : p mod adj_align lay = 0;
  sv_sub : forall x, covers l' x -> covers l x;
  sv_was_free : forall x, p <= x < p + adj_size lay -> ~ covers l' x /\ (covers l x \/ bump_next a <= x)
}.

(** The bump path. *)
Lemma bump_served a l lay aligned :
  free_ok a l -> layout_ok lay -> align_up (bump_next a) (adj_align lay) = Ret aligned ->
  aligned + adj_size lay <= HEAP_END ->
  served a (a <| bump_next := aligned + adj_size lay |>) l l lay aligned.
Proof.
  intros [Hseg Hblk Hb Hba] Hl Hal Hend.
  destruct (adj_align_ok lay Hl) as (Hp & Ha & Hdiv). destruct (adj_size_ok lay Hl) as (Hs8 & _ & _ & Hsm).
  unfold align_up, add_u, sub_u in Hal. destruct (Z.ltb_spec (bump_next a + adj_align lay) (2 ^ 32)); [|done].
  simpl in Hal. destruct (Z.leb_spec 1 (bump_next a + adj_align lay)); [|done]. simpl in Hal.
  injection Hal as <-. unfold HEAP_START, HEAP_END, HEADER_SIZE in *.
  destruct (align_up_pow2 32 (bump_next a) (adj_align lay)) as [Hr Hm]; try done; try lia.
  set (al := align_down 32 _ _) in *.
  assert ((al + adj_size lay) mod adj_align lay = 0) by (by rewrite Zplus_mod, Hm, Hsm, Zmod_0_l).
  constructor; simpl; unfold HEAP_START; try done; try lia.
  - constructor; simpl; unfold HEAP_START, HEAP_END; try done; [|lia|by apply Hdiv].
    eapply blocks_ok_weaken; [done|lia..].
  - intros x Hx. split; [|lia]. intros ([b t] & Hin & Hxb). unfold in_block in Hxb. simpl in Hxb.
    destruct (blocks_ok_elem _ _ _ _ _ Hblk Hin) as (_ & _ & ? & _). lia.
Qed.

(** The free-list path. *)
Lemma walk_served a l lay a' l' l2a c s l2b :
  free_ok a l -> layout_ok lay -> l = l2a ++ (c, s) :: l2b -> fits (adj_size lay) (adj_align lay) (c, s) ->
  bump_next a' = bump_next a -> lseg (headers a') (free_list a') l' null ->
  blocks_ok (HEAP_START - 1) l' (bump_next a) ->
  (forall x, covers l' x <-> covers l x /\ ~ c <= x < c + extent_taken s (adj_size lay)) ->
  served a a' l l' lay c.
Proof.
  intros [Hseg Hblk Hb Hba] Hl Heq [Hfit Hal] Hbn Hseg' Hblk' Hcov. simpl in Hfit, Hal.
  assert ((c, s) ∈ l) as Hin by (rewrite Heq, elem_of_app, elem_of_cons; auto).
  destruct (blocks_ok_elem _ _ _ c s Hblk Hin) as (Hc & Hs & Hce & _).
  assert (adj_size lay <= extent_taken s (adj_size lay) <= s) as He.
  { unfold extent_taken. destruct (_ <? _); lia. }
  constructor; rewrite ?Hbn; try done; try lia.
  - constructor; rewrite ?Hbn; done.
  - intros x Hx. by apply Hcov.
  - intros x Hx. split; [rewrite Hcov; lia|]. left. exists (c, s). split; [done|].
    unfold in_block. simpl. lia.
Qed.

(** Every way [alloc] can end: the first fitting free block, or the bump
    region once no free block fits. *)
Lemma alloc_cases a l lay :
  free_ok a l -> layout_ok lay ->
  (exists p a' l' l1 s l2, alloc a lay = Ret (p, a') /\ served a a' l l' lay p /\
     l = l1 ++ (p, s) :: l2 /\ Forall (fun b => ~ fits (adj_size lay) (adj_align lay) b) l1 /\
     fits (adj_size lay) (adj_align lay) (p, s) /\
     (forall x, covers l' x <-> covers l x /\ ~ p <= x < p + extent_taken s (adj_size lay))) \/
  (Forall (fun b => ~ fits (adj_size lay) (adj_align lay) b) l /\
   alloc a lay =
     (aligned ← align_up (bump_next a) (adj_align lay);
      new_next ← add_u 32 aligned (adj_size lay);
      if HEAP_END <? new_next then Ret (null, a) else Ret (aligned, a <| bump_next := new_next |>))).
Proof.
  intros Hf Hl. unfold alloc, alloc_inner. rewrite (adjust_layout_ok lay Hl). simpl.
  pose proof Hf as [Hseg Hblk Hb _]. destruct (adj_size_ok lay Hl) as (Hs8 & _ & _ & Hsm).
  destruct (adj_align_ok lay Hl) as (_ & _ & Hdiv).
  pose proof (lseg_length _ _ _ _ Hseg (blocks_ok_NoDup _ _ _ Hblk)) as Hlen.
  unfold HEAP_START, HEAP_END in Hb.
  destruct (alloc_walk_ok a (HEAP_START - 1) (bump_next a) (adj_size lay) (adj_align lay)
              ltac:(by vm_compute) ltac:(unfold U32_MAX; lia) Hs8 (proj2 (Hdiv _ Hsm))
              (walk_fuel (headers a)) [] l (free_list a) Hseg Hseg Hblk
              ltac:(unfold walk_fuel; lia)) as
    [[Hw Hno]|(a' & l' & l2a & c & s & l2b & Hw & Heq & Hno & Hfit & Hbn & Hseg' & Hblk' & Hcov)];
    unfold last_addr in Hw; simpl in Hw; rewrite Hw; simpl.
  - right. by split.
  - left. exists c, a', l', l2a, s, l2b. split_and!; try done. by eapply walk_served.
Qed.

Lemma align_up_inv x al y :
  is_pow2 al -> al <= 2 ^ 31 -> 0 <= x -> align_up x al = Ret y -> x <= y < x + al.
Proof.
  intros Hp Ha Hx. unfold align_up, add_u, sub_u. destruct (Z.ltb_spec (x + al) (2 ^ 32)); [|done].
  pose proof (is_pow2_pos _ Hp). simpl. destruct (Z.leb_spec 1 (x + al)); [|lia]. simpl.
  intros [= <-]. apply align_up_pow2; try done; lia.
Qed.

(** A successful call, with the reason for a null result. *)
Lemma alloc_served a l lay p a' :
  free_ok a l -> layout_ok lay -> alloc a lay = Ret (p, a') ->
  (p = null /\ a' = a /\ Forall (fun b => ~ fits (adj_size lay) (adj_align lay) b) l /\
   exists aligned, align_up (bump_next a) (adj_align lay) = Ret aligned /\
     HEAP_END < aligned + adj_size lay) \/
  (exists l', served a a' l l' lay p).
Proof.
  intros Hf Hl Hr. destruct (alloc_cases a l lay Hf Hl) as
    [(p' & a'' & l' & l1 & s & l2 & Hal & Hsv & _)|[Hno Hal]]; rewrite Hal in Hr.
  - injection Hr as <- <-. eauto.
  - destruct (align_up (bump_next a) (adj_align lay)) as [al|] eqn:Hup; [|done]. simpl in Hr.
    unfold add_u in Hr. destruct (Z.ltb_spec (al + adj_size lay) (2 ^ 32)); [|done]. simpl in Hr.
    destruct (Z.ltb_spec HEAP_END (al + adj_size lay)); injection Hr as <- <-; [left; eauto 10|].
    right. exists l. by apply bump_served.
Qed.

(** A reasonable request never panics. *)
Lemma alloc_total a l lay :
  free_ok a l -> layout_small lay -> exists p a', alloc a lay = Ret (p, a').
Proof.
  intros Hf (Hl & Hsz & Hal). destruct (alloc_cases a l lay Hf Hl) as
    [(p' & a'' & l' & l1 & s & l2 & -> & _)|[Hno ->]]; [eauto|].
  pose proof (fo_bump _ _ Hf) as Hb. unfold HEAP_START, HEAP_END in Hb.
  destruct (adj_align_ok lay Hl) as (Hp & Ha & _). destruct (adj_size_ok lay Hl) as (_ & _ & Hs & _).
  assert (adj_align lay <= 2 ^ 27) by (unfold adj_align, HEADER_ALIGN; lia).
  destruct (align_up (bump_next a) (adj_align lay)) as [al|] eqn:Hup.
  - apply align_up_inv in Hup; [|done|lia..]. simpl. unfold add_u, HEADER_SIZE in *.
    rewrite (proj2 (Z.ltb_lt (al + adj_size lay) (2 ^ 32))) by lia. simpl.
    destruct (_ <? _); eauto.
  - unfold align_up, add_u, sub_u in Hup. rewrite (proj2 (Z.ltb_lt _ (2 ^ 32))) in Hup by lia.
    simpl in Hup. rewrite (proj2 (Z.leb_le 1 _)) in Hup by lia. done.
Qed.

(** Returning an allocated range. *)
Lemma dealloc_ok a l p lay :
  free_ok a l -> layout_ok lay -> HEAP_START <= p -> p + adj_size lay <= bump_next a ->
  p mod adj_align lay = 0 -> (forall x, p <= x < p + adj_size lay -> ~ covers l x) ->
  exists a' l', dealloc a p lay = Ret a' /\ free_ok a' l' /\ bump_next a' = bump_next a /\
    (forall x, covers l' x <-> covers l x \/ p <= x < p + adj_size lay).
Proof.
  intros [Hseg Hblk Hb Hba] Hl Hp Hend Hal Hfresh. unfold dealloc.
  destruct (adj_align_ok lay Hl) as (_ & _ & Hdiv). destruct (adj_size_ok lay Hl) as (Hs8 & _ & _ & Hsm).
  rewrite (proj2 (Z.eqb_neq p null)) by (unfold null, HEAP_START in *; lia).
  rewrite (adjust_layout_ok lay Hl). simpl.
  destruct (add_free_block_ok a l (HEAP_START - 1) (bump_next a) p (adj_size lay)) as
    (m & h & l' & -> & Hl' & Hok' & Hcov'); try done;
    [unfold HEAP_START, HEAP_END, U32_MAX in *; lia..|by apply Hdiv|by apply Hdiv|].
  exists (mkA (bump_next a) h m), l'. by split_and!.
Qed.

(** ** Runs of the allocator and its clients *)

(** The allocator with the blocks its clients hold. *)
Record Heap : Type := mkHeap { h_alloc : Allocator; h_live : gmap Z Layout }.

(** A client may also write to the memory it holds, which changes the word
    pair at any address whose eight bytes meet its block. *)
Inductive heap_step : Heap -> Heap -> Prop :=
| hs_alloc a live lay p a' :
    layout_ok lay -> alloc a lay = Ret (p, a') -> p <> null ->
    heap_step (mkHeap a live) (mkHeap a' (<[p := lay]> live))
| hs_null a live lay a' :
    layout_ok lay -> alloc a lay = Ret (null, a') -> heap_step (mkHeap a live) (mkHeap a' live)
| hs_dealloc a live p lay a' :
    live !! p = Some lay -> dealloc a p lay = Ret a' ->
    heap_step (mkHeap a live) (mkHeap a' (delete p live))
| hs_write a live p lay q v :
    live !! p = Some lay -> p < q + HEADER_SIZE -> q < p + l_size lay ->
    heap_step (mkHeap a live) (mkHeap (a <| headers := partial_alter (fun _ => v) q (headers a) |>) live).

Definition heap_init : Heap := mkHeap Allocator_new ∅.
Definition heap_reachable (h : Heap) : Prop := rtc heap_step heap_init h.

Definition disjoint_blocks (p n q k : Z) : Prop := p + n <= q \/ q + k <= p.

Record live_ok (a : Allocator) l (p : Z) (lay : Layout) : Prop := {
  lv_layout : layout_ok lay;
  lv_lo : HEAP_START <= p;
  lv_hi : p + adj_size lay <= bump_next a;
  lv_align : p mod adj_align lay = 0;
  lv_not_free : forall x, p <= x < p + adj_size lay -> ~ covers l x
}.

Definition heap_inv (h : Heap) : Prop := exists l,
  free_ok (h_alloc h) l /\
  (forall p lay, h_live h !! p = Some lay -> live_ok (h_alloc h) l p lay) /\
  (forall p q lay lay', h_live h !! p = Some lay -> h_live h !! q = Some lay' -> p <> q ->
     disjoint_blocks p (adj_size lay) q (adj_size lay')).

(** A block that was just served meets no live block. *)
Lemma served_disjoint a a' l l' lay p q lay' :
  served a a' l l' lay p -> layout_ok lay -> live_ok a l q lay' ->
  disjoint_blocks p (adj_size lay) q (adj_size lay').
Proof.
  intros Hs Hl Hv. destruct (adj_size_ok lay Hl) as (? & _).
  destruct (adj_size_ok lay' (lv_layout _ _ _ _ Hv)) as (? & _).
  destruct (Z.le_gt_cases (p + adj_size lay) q) as [|Hgt]; [by left|].
  destruct (Z.le_gt_cases (q + adj_size lay') p) as [|Hgt']; [by right|]. exfalso.
  pose proof (lv_hi _ _ _ _ Hv). unfold HEADER_SIZE in *.
  destruct (sv_was_free _ _ _ _ _ _ Hs (Z.max p q) ltac:(lia)) as [_ [Hc|Hc]]; [|lia].
  exact (lv_not_free _ _ _ _ Hv (Z.max p q) ltac:(lia) Hc).
Qed.

Lemma live_ok_served a a' l l' lay p q lay' :
  served a a' l l' lay p -> live_ok a l q lay' -> live_ok a' l' q lay'.
Proof.
  intros Hs [H1 H2 H3 H4 H5]. pose proof (sv_bump _ _ _ _ _ _ Hs).
  constructor; try done; [lia|]. intros x Hx Hc. apply (H5 x Hx), (sv_sub _ _ _ _ _ _ Hs x Hc).
Qed.

Lemma heap_inv_alloc a live lay p a' :
  heap_inv (mkHeap a live) -> layout_ok lay -> alloc a lay = Ret (p, a') -> p <> null ->
  heap_inv (mkHeap a' (<[p := lay]> live)).
Proof.
  intros (l & Hf & Hlive & Hd) Hl Ha Hp. simpl in *.
  destruct (alloc_served a l lay p a' Hf Hl Ha) as [[? _]|(l' & Hs)]; [done|].
  exists l'. simpl. split_and!; [apply Hs| |].
  - intros q lay' [[<- <-]|[Hne Hq]]%lookup_insert_Some.
    + constructor; [done|apply Hs..|]. intros x Hx. by apply (sv_was_free _ _ _ _ _ _ Hs).
    + eapply live_ok_served; [done|]. by apply Hlive.
  - intros q r lay1 lay2 [[<- <-]|[Hnq Hq]]%lookup_insert_Some [[<- <-]|[Hnr Hr]]%lookup_insert_Some Hqr.
    + done.
    + eapply served_disjoint; [done..|]. by apply Hlive.
    + destruct (served_disjoint a a' l l' lay p q lay1 Hs Hl (Hlive _ _ Hq)); [by right|by left].
    + eapply Hd; done.
Qed.

Lemma heap_inv_dealloc a live p lay a' :
  heap_inv (mkHeap a live) -> live !! p = Some lay -> dealloc a p lay = Ret a' ->
  heap_inv (mkHeap a' (delete p live)).
Proof.
  intros (l & Hf & Hlive & Hd) Hp Ha. simpl in *. destruct (Hlive p lay Hp) as [H1 H2 H3 H4 H5].
  destruct (dealloc_ok a l p lay Hf H1 H2 H3 H4 H5) as (a'' & l' & Heq & Hf' & Hb & Hcov).
  rewrite Ha in Heq. injection Heq as <-. exists l'. simpl. split_and!; [done| |].
  - intros q lay' [Hne Hq]%lookup_delete_Some. destruct (Hlive q lay' Hq) as [G1 G2 G3 G4 G5].
    constructor; try done; [lia|]. intros x Hx. rewrite Hcov. intros [Hc|Hc]; [by apply (G5 x)|].
    pose proof (Hd p q lay lay' Hp Hq Hne) as [?|?]; lia.
  - intros q r lay1 lay2 [_ Hq]%lookup_delete_Some [_ Hr]%lookup_delete_Some. by apply Hd.
Qed.

(** Client writes touch no header of the free list. *)
Lemma lseg_agree m m' p l q :
  (forall a s, (a, s) ∈ l -> m' !! a = m !! a) -> lseg m p l q -> lseg m' p l q.
Proof.
  revert p. induction l as [|[a s] l IH]; intros p Hag; simpl; [done|].
  intros (-> & n & Hm & Hl). split; [done|]. exists n. split.
  - rewrite (Hag a s) by (by left). done.
  - apply IH; [|done]. intros b t Hb. apply (Hag b t). by right.
Qed.

Lemma heap_inv_write a live p lay q v :
  heap_inv (mkHeap a live) -> live !! p = Some lay -> p < q + HEADER_SIZE -> q < p + l_size lay ->
  heap_inv (mkHeap (a <| headers := partial_alter (fun _ => v) q (headers a) |>) live).
Proof.
  intros (l & [Hseg Hblk Hb Hba] & Hlive & Hd) Hp Hq1 Hq2. simpl in *.
  exists l. simpl. split_and!; [|intros; by destruct (Hlive p0 lay0)|done].
  constructor; simpl; try done. eapply lseg_agree; [|done].
  intros b s Hin. apply lookup_partial_alter_ne. intros <-.
  destruct (Hlive p lay Hp) as [H1 _ _ _ H5]. destruct (adj_size_ok lay H1) as (Hs8 & Hsz & _).
  destruct (blocks_ok_elem _ _ _ _ _ Hblk Hin) as (_ & Hs & _). unfold HEADER_SIZE in *.
  apply (H5 (Z.max p q) ltac:(lia)). exists (q, s). split; [done|]. unfold in_block. simpl. lia.
Qed.

Lemma heap_inv_step h h' : heap_step h h' -> heap_inv h -> heap_inv h'.
Proof.
  intros Hstep Hinv. destruct Hstep as [a live lay p a' Hl Ha Hp|a live lay a' Hl Ha|a live p lay a' Hp Ha
                                       |a live p lay q v Hp Hq1 Hq2].
  - by eapply heap_inv_alloc.
  - pose proof Hinv as (l & Hf & _). destruct (alloc_served _ _ _ _ _ Hf Hl Ha) as [(_ & -> & _)|(l' & Hs)]; [done|].
    pose proof (sv_lo _ _ _ _ _ _ Hs). unfold null, HEAP_START in *. lia.
  - by eapply heap_inv_dealloc.
  - by eapply heap_inv_write.
Qed.

Lemma heap_inv_reachable h : heap_reachable h -> heap_inv h.
Proof.
  apply (rtc_ind_r heap_inv).
  - exists []. split_and!; [constructor; by vm_compute|done..].
  - intros h1 h2 _ Hs Hi. by eapply heap_inv_step.
Qed.

(** ** Properties *)

(** C10. In every reachable state a request either gets a null pointer and
    leaves the allocator unchanged, or gets a block that is aligned as asked,
    lies inside the heap window and shares no byte with any block a client
    still holds. *)
Theorem heap_alloc_disjoint h lay p a' :
  heap_reachable h -> layout_ok lay -> alloc (h_alloc h) lay = Ret (p, a') ->
  (p = null /\ a' = h_alloc h) \/
  (p mod l_align lay = 0 /\ HEAP_START <= p /\ p + l_size lay <= HEAP_END /\
   forall q lay', h_live h !! q = Some lay' -> disjoint_blocks p (l_size lay) q (l_size lay')).
Proof.
  intros (l & Hf & Hlive & _)%heap_inv_reachable Hl Ha.
  destruct (alloc_served _ l lay p a' Hf Hl Ha) as [(-> & -> & _)|(l' & Hs)]; [by left|right].
  destruct (adj_align_ok lay Hl) as (_ & _ & Hdiv). destruct (adj_size_ok lay Hl) as (_ & Hsz & _).
  pose proof Hs as [Hf' _ Hlo Hhi Hal _ _]. pose proof (fo_bump _ _ Hf').
  split_and!; [by apply Hdiv|lia..|]. intros q lay' Hq.
  destruct (adj_size_ok lay' (lv_layout _ _ _ _ (Hlive q lay' Hq))) as (_ & Hsz' & _).
  destruct (served_disjoint _ _ _ _ _ _ q lay' Hs Hl (Hlive q lay' Hq)); [left|right]; lia.
Qed.

(** C39. No reachable state makes the heap panic or loop: a request of up to
    512 MiB with an alignment up to 128 MiB returns, and so does freeing any
    block a client holds, whatever the clients wrote into their blocks. *)
Theorem heap_ops_total h :
  heap_reachable h ->
  (forall lay, layout_small lay -> exists p a', alloc (h_alloc h) lay = Ret (p, a')) /\
  (forall p lay, h_live h !! p = Some lay -> exists a', dealloc (h_alloc h) p lay = Ret a').
Proof.
  intros (l & Hf & Hlive & _)%heap_inv_reachable. split.
  - intros lay Hl. by eapply alloc_total.
  - intros p lay Hp. destruct (Hlive p lay Hp) as [H1 H2 H3 H4 H5].
    destruct (dealloc_ok _ l p lay Hf H1 H2 H3 H4 H5) as (a' & l' & -> & _). eauto.
Qed.

(** In every reachable state following [next] from [free_list] visits
    finitely many blocks in address order with a gap between any two (adjacent
    ranges have been merged), all below the bump pointer, and none of their
    bytes belongs to a live block. *)
Theorem heap_free_list_coalesced h :
  heap_reachable h ->
  exists l, lseg (headers (h_alloc h)) (free_list (h_alloc h)) l null /\
    blocks_ok (HEAP_START - 1) l (bump_next (h_alloc h)) /\ bump_next (h_alloc h) <= HEAP_END /\
    (forall p lay x, h_live h !! p = Some lay -> p <= x < p + l_size lay -> ~ covers l x).
Proof.
  intros (l & [Hseg Hblk Hb _] & Hlive & _)%heap_inv_reachable. exists l. split_and!; [done..|lia|].
  intros p lay x Hp Hx. destruct (Hlive p lay Hp) as [Hl _ _ _ H5].
  destruct (adj_size_ok lay Hl) as (_ & ? & _). apply H5. lia.
Qed.

(** A null result is exact: it is returned precisely when no free block is
    large and aligned enough as it stands and the rounded request does not fit
    between the aligned bump pointer and the end of the window. *)
Theorem heap_null_exact a l lay :
  free_ok a l -> layout_small lay ->
  (alloc a lay = Ret (null, a) <->
   Forall (fun b => ~ fits (adj_size lay) (adj_align lay) b) l /\
   exists aligned, align_up (bump_next a) (adj_align lay) = Ret aligned /\
     HEAP_END < aligned + adj_size lay).
Proof.
  intros Hf Hsm. pose proof Hsm as [Hl _]. split.
  - intros Ha. destruct (alloc_served a l lay null a Hf Hl Ha) as [(_ & _ & ?)|(l' & Hs)]; [done|].
    pose proof (sv_lo _ _ _ _ _ _ Hs). unfold null, HEAP_START in *. lia.
  - intros (Hno & al & Hup & Hend). destruct (alloc_total a l lay Hf Hsm) as (p & a' & Ha).
    destruct (alloc_cases a l lay Hf Hl) as [(p' & a'' & l' & l1 & s & l2 & _ & _ & -> & _ & Hfit & _)|[_ Hal]].
    + apply Forall_app in Hno as [_ Hno]. apply Forall_cons in Hno as [Hno _]. done.
    + rewrite Hal in Ha |- *. rewrite Hup in Ha |- *. simpl in *. unfold add_u in *.
      destruct (_ <? 2 ^ 32); [|done]. simpl in *. by rewrite (proj2 (Z.ltb_lt _ _)) by done.
Qed.

(** Freeing a block that came from the free list gives back the rounded
    request and no more: when the split left at most two headers of the chosen
    block, those bytes belong to no free block afterwards, so each such
    allocate/free pair shrinks the heap. *)
Theorem heap_dealloc_loses_tail a l lay p s a' :
  free_ok a l -> layout_ok lay -> (p, s) ∈ l -> alloc a lay = Ret (p, a') ->
  exists a'' l'', dealloc a' p lay = Ret a'' /\ free_ok a'' l'' /\
    (forall x, covers l'' x <->
       covers l x /\ ~ (p + adj_size lay <= x < p + extent_taken s (adj_size lay))).
Proof.
  intros Hf Hl Hin Ha. pose proof (fo_blocks _ _ Hf) as Hblk.
  destruct (alloc_cases a l lay Hf Hl) as
    [(p' & b & l' & l1 & s' & l2 & Heq & Hs & Hsplit & _ & [Hfit _] & Hcov)|[Hno Hal]].
  - rewrite Ha in Heq. injection Heq as <- <-. simpl in Hfit.
    assert (s' = s) as ->.
    { assert ((p, s') ∈ l) as Hin' by (rewrite Hsplit, elem_of_app, elem_of_cons; auto).
      pose proof (blocks_ok_NoDup _ _ _ Hblk) as Hnd.
      apply list_elem_of_lookup in Hin as [i Hi]. apply list_elem_of_lookup in Hin' as [j Hj].
      assert (i = j) as -> by (eapply (NoDup_lookup l.*1); rewrite ?list_lookup_fmap, ?Hi, ?Hj; done).
      congruence. }
    destruct (dealloc_ok a' l' p lay) as (a'' & l'' & -> & Hf'' & _ & Hcov''); try done; try apply Hs; [].
    exists a'', l''. split_and!; [done..|]. intros x. rewrite Hcov'', Hcov.
    destruct (adj_size_ok lay Hl) as (Hs8 & _). unfold HEADER_SIZE in Hs8.
    assert (p <= x < p + s -> covers l x) by (intros; exists (p, s); split; [|unfold in_block]; simpl; done).
    assert (adj_size lay <= extent_taken s (adj_size lay) <= s)
      by (unfold extent_taken; destruct (_ <? _); lia).
    destruct (decide (p <= x < p + adj_size lay)) as [Hx|Hx].
    2: { assert (p <= x < p + extent_taken s (adj_size lay) <->
                 p + adj_size lay <= x < p + extent_taken s (adj_size lay)) by lia. tauto. }
    split; [intros _|by right]. split; [|lia]. auto with lia.
  - exfalso. destruct (blocks_ok_elem _ _ _ _ _ Hblk Hin) as (Hp0 & Hs8 & Hpe & _).
    destruct (adj_align_ok lay Hl) as (Hp & Hal4 & _). pose proof (fo_bump _ _ Hf).
    rewrite Hal in Ha. destruct (align_up _ _) as [al|] eqn:Hup; [|done]. simpl in Ha.
    apply align_up_inv in Hup; [|done|unfold HEAP_START in *; lia..].
    unfold add_u, HEAP_START, HEADER_SIZE in *. destruct (_ <? 2 ^ 32); [|done]. simpl in Ha.
    destruct (_ <? _); injection Ha as <- _; unfold null in *; lia.
Qed.

(** ** Witnesses *)

(** One 24-byte block was allocated and freed; the first client block is
    still held. *)
Definition wit_lay (n : Z) : Layout := mkLayout n 4.
Definition wit_heap : Heap :=
  let m : gmap Z FreeBlock := {[ (HEAP_START + 16) := mkFB 24 null ]} in
  mkHeap (mkA (HEAP_START + 40) (HEAP_START + 16) m) {[ HEAP_START := wit_lay 16 ]}.

Lemma wit_layout_small n : 0 <= n <= 1024 -> layout_small (wit_lay n).
Proof. intros Hn. unfold layout_small, layout_ok. simpl. split_and!; try lia. by exists 2. Qed.

Lemma wit_heap_reachable : heap_reachable wit_heap.
Proof.
  eapply rtc_l; [eapply (hs_alloc _ _ (wit_lay 16)); [by apply wit_layout_small|by vm_compute|done]|].
  eapply rtc_l; [eapply (hs_alloc _ _ (wit_lay 24)); [by apply wit_layout_small|by vm_compute|done]|].
  eapply rtc_l; [eapply (hs_dealloc _ _ (HEAP_START + 16) (wit_lay 24)); by vm_compute|].
  match goal with |- rtc _ ?h _ => assert (h = wit_heap) as -> by (by vm_compute) end.
  apply rtc_refl.
Qed.

Lemma wit_free_ok : free_ok (h_alloc wit_heap) [(HEAP_START + 16, 24)].
Proof.
  constructor; [|repeat split; by vm_compute..]. simpl. split; [done|]. exists null. by vm_compute.
Qed.

Lemma heap_alloc_disjoint_witness :
  exists p a', alloc (h_alloc wit_heap) (wit_lay 8) = Ret (p, a') /\ p <> null /\
    disjoint_blocks p 8 HEAP_START 16.
Proof.
  destruct (alloc (h_alloc wit_heap) (wit_lay 8)) as [[p a']|] eqn:Ha; [|by vm_compute in Ha].
  exists p, a'. destruct (heap_alloc_disjoint wit_heap (wit_lay 8) p a' wit_heap_reachable
    (proj1 (wit_layout_small 8 ltac:(lia))) Ha) as [[Hp _]|(_ & _ & _ & Hd)].
  - exfalso. subst p. by vm_compute in Ha.
  - split; [done|]. split; [intros ->; by vm_compute in Ha|]. exact (Hd HEAP_START (wit_lay 16) eq_refl).
Defined.

Lemma heap_ops_total_witness : exists a', dealloc (h_alloc wit_heap) HEAP_START (wit_lay 16) = Ret a'.
Proof. apply (proj2 (heap_ops_total wit_heap wit_heap_reachable)). by vm_compute. Defined.

Lemma heap_free_list_coalesced_witness :
  exists l, lseg (headers (h_alloc wit_heap)) (free_list (h_alloc wit_heap)) l null /\ l <> [].
Proof.
  destruct (heap_free_list_coalesced wit_heap wit_heap_reachable) as (l & Hl & _).
  exists l. split; [done|]. intros ->. by vm_compute in Hl.
Defined.

Lemma heap_null_exact_witness :
  let a := mkA (HEAP_END - 8) null ∅ in alloc a (wit_lay 12) = Ret (null, a).
Proof.
  intros a. apply (heap_null_exact a [] (wit_lay 12)).
  - constructor; by vm_compute.
  - by apply wit_layout_small.
  - split; [done|]. exists (HEAP_END - 8). by vm_compute.
Defined.

(** Sixteen of the 24 free bytes are gone after allocating and freeing 8. *)
Lemma heap_dealloc_loses_tail_witness :
  exists a' a'' l'', alloc (h_alloc wit_heap) (wit_lay 8) = Ret (HEAP_START + 16, a') /\
    dealloc a' (HEAP_START + 16) (wit_lay 8) = Ret a'' /\ free_ok a'' l'' /\
    covers [(HEAP_START + 16, 24)] (HEAP_START + 24) /\ ~ covers l'' (HEAP_START + 24).
Proof.
  destruct (alloc (h_alloc wit_heap) (wit_lay 8)) as [[p a']|] eqn:Ha; [|by vm_compute in Ha].
  assert (p = HEAP_START + 16) as -> by (by vm_compute in Ha; injection Ha as <- _).
  destruct (heap_dealloc_loses_tail (h_alloc wit_heap) [(HEAP_START + 16, 24)] (wit_lay 8)
    (HEAP_START + 16) 24 a' wit_free_ok (proj1 (wit_layout_small 8 ltac:(lia))) ltac:(by left) Ha)
    as (a'' & l'' & Hd & Hf & Hcov).
  exists a', a'', l''. split_and!; try done.
  - exists (HEAP_START + 16, 24). split; [by left|]. by vm_compute.
  - rewrite Hcov. intros [_ Hn]. apply Hn. by vm_compute.
Defined.
