(* ===== verification/Frames.v ===== *)
(** * The physical frame allocator

    Model of the frame allocator inside [PageManager] of
    [kernel/src/memory/paging.rs]: sizing from detected RAM, single frames,
    aligned contiguous runs below a limit, freeing, and the statistics.  A
    frame is a physical page number.  [live_kernel_stack_owner] of
    [kernel/src/multitasking/task.rs], which the allocator consults, is
    modelled over the stack bases of the task table. *)

From S2P Require Import Prelude.

Definition PAGE_SIZE : Z := 4096.
Definition ENTRIES : Z := 1024.
Definition KERNEL_OFFSET : Z := 0xC0000000.
Definition LARGE_PAGE_COUNT_MAX : Z := 256.
Definition LARGE_PAGE_COUNT_DEFAULT : Z := 16.
Definition FRAME_ALLOC_START : Z := 0x02800000.
Definition STACK_SIZE : Z := 256 * 1024.
Definition MIB : Z := 1024 * 1024.

(** [x >> 12] *)
Definition page_of (x : Z) : Z := Z.shiftr x 12.
Definition first_dynamic : Z := page_of FRAME_ALLOC_START.

(** [configure_from_ram]: the usable RAM and the number of large pages. *)
Definition configure_from_ram (ram_bytes : Z) : Z * Z :=
  let ram := ram_bytes in
  let ram := if ram <? 64 * MIB then 64 * MIB else ram in
  let ram := if 1024 * MIB <? ram then 1024 * MIB else ram in
  let ram := Z.land ram (not_u 32 0x3FFFFF) in
  let ram := if ram <? 64 * MIB then 64 * MIB else ram in
  let pages := Z.max (Z.min (ram / 0x400000) LARGE_PAGE_COUNT_MAX) LARGE_PAGE_COUNT_DEFAULT in
  (ram, pages).

(** [live_kernel_stack_owner]: the first slot whose kernel stack has the frame. *)
Fixpoint stack_owner_from (slot : Z) (stacks : list (option Z)) (frame : Z) : option Z :=
  match stacks with
  | [] => None
  | None :: rest => stack_owner_from (slot + 1) rest frame
  | Some base :: rest =>
      if base <? KERNEL_OFFSET then stack_owner_from (slot + 1) rest frame else
      let first := page_of (base - KERNEL_OFFSET) in
      let pages := STACK_SIZE / 4096 in
      if (first <=? frame) && (frame <? saturating_add 32 first pages) then Some slot
      else stack_owner_from (slot + 1) rest frame
  end.
Definition live_kernel_stack_owner (stacks : list (option Z)) (frame : Z) : option Z :=
  stack_owner_from 0 stacks frame.

(** The allocator fields of [PageManager]. *)
Record FrameAllocator : Type := mkFA { next_free_page : Z; free_frames : list Z }.
#[global] Instance FrameAllocator_eta : Eta FrameAllocator := fun f =>
  mkFA (next_free_page f) (free_frames f).

(** [BootInfo], as the bootloader leaves it at physical 0x7000. *)
Record BootInfo : Type := mkBootInfo {
  bi_magic : Z; bi_disk_phys : Z; bi_disk_sectors : Z; bi_flags : Z; bi_mem_bytes : Z; bi_mem_total_mib : Z
}.
Definition BOOTINFO_MAGIC : Z := 0xFE11B007.

(** The error strings of [alloc_contiguous_frames_aligned_below]. *)
Inductive FrameError : Type :=
| ZeroSizedAllocation | BadAlignment | ExceedsLimit | AlignmentOverflow | RangeOverflow | OutOfContiguousFrames.

Section Allocator.
  (** [detected_ram_bytes()] and the kernel stacks of the task table. *)
  Variables (ram : Z) (stacks : list (option Z)).

Definition has_live_stack (frame : Z) : bool :=
  match live_kernel_stack_owner stacks frame with Some _ => true | None => false end.

(** The allocator part of [PageManager::init]: the boot RAM disk is skipped. *)
Definition frames_init (bi : BootInfo) : outcome FrameAllocator :=
  let next := first_dynamic in
  if (bi_magic bi =? BOOTINFO_MAGIC) && negb (Z.land (bi_flags bi) 1 =? 0)
     && negb (bi_disk_phys bi =? 0) && negb (bi_disk_sectors bi =? 0) then
    bytes ← (if bi_disk_sectors bi * 512 <? 2 ^ 64 then Ret (bi_disk_sectors bi * 512) else Panic);
    disk_end ← add_u 64 (bi_disk_phys bi) bytes;
    up ← add_u 64 disk_end (PAGE_SIZE - 1);
    let end_page := (up / PAGE_SIZE) mod 2 ^ 32 in
    let max_page := page_of ram in
    if max_page <? end_page then Ret (mkFA next [])
    else if next <? end_page then Ret (mkFA end_page [])
    else Ret (mkFA next [])
  else Ret (mkFA next []).

Definition alloc_frame (fa : FrameAllocator) : outcome (Z * FrameAllocator) :=
  match vec_pop (free_frames fa) with
  | Some (frame, rest) =>
      let rest := filter (fun candidate => candidate <> frame) rest in
      if has_live_stack frame then Panic else Ret (frame, fa <| free_frames := rest |>)
  | None =>
      let max_page := page_of ram in
      let frame := next_free_page fa in
      if max_page <=? frame then Panic else
      next ← add_u 32 (next_free_page fa) 1;
      if has_live_stack frame then Panic else Ret (frame, fa <| next_free_page := next |>)
  end.

Definition alloc_phys_frame (fa : FrameAllocator) : outcome (Z * FrameAllocator) :=
  match vec_pop (free_frames fa) with
  | Some (frame, rest) =>
      let rest := filter (fun candidate => candidate <> frame) rest in
      if has_live_stack frame then Panic else Ret (frame, fa <| free_frames := rest |>)
  | None =>
      _ ← assert (next_free_page fa <? page_of ram);
      let frame := next_free_page fa in
      next ← add_u 32 (next_free_page fa) 1;
      if has_live_stack frame then Panic else Ret (frame, fa <| next_free_page := next |>)
  end.

Definition free_phys_frame (fa : FrameAllocator) (frame : Z) : FrameAllocator :=
  if (frame <? first_dynamic) || (next_free_page fa <=? frame) then fa
  else if existsb (fun free => free =? frame) (free_frames fa) then fa
  else fa <| free_frames := free_frames fa ++ [frame] |>.

(** [while run_end < len && frames[run_end] == frames[run_end - 1] + 1] *)
Fixpoint extend_run (fuel : nat) (frames : list Z) (run_end : Z) : outcome Z :=
  match fuel with
  | O => Panic
  | S fuel =>
      if run_end <? zlen frames then
        cur ← idx frames run_end;
        prev ← idx frames (run_end - 1);
        succ ← add_u 32 prev 1;
        if cur =? succ then extend_run fuel frames (run_end + 1) else Ret run_end
      else Ret run_end
  end.

(** The search over the reusable frames: the start of an aligned sub-run and
    its index range, or nothing. *)
Fixpoint scan_runs (fuel : nat) (frames : list Z) (pages align_pages hard_limit run_start : Z)
    : outcome (result (option (Z * Z * Z)) FrameError) :=
  match fuel with
  | O => Panic
  | S fuel =>
      if run_start <? zlen frames then
        run_end ← extend_run (S (length frames)) frames (run_start + 1);
        first ← idx frames run_start;
        last ← idx frames (run_end - 1);
        let last_exclusive := saturating_add 32 last 1 in
        match checked_add 32 first (align_pages - 1) with
        | None => Ret (Err AlignmentOverflow)
        | Some v =>
            let aligned := align_down 32 v align_pages in
            match checked_add 32 aligned pages with
            | None => Ret (Err RangeOverflow)
            | Some alloc_end =>
                if (first <=? aligned) && (alloc_end <=? last_exclusive) && (alloc_end <=? hard_limit)
                then
                  let start_index := run_start + (aligned - first) in
                  Ret (Ok (Some (aligned, start_index, start_index + pages)))
                else scan_runs fuel frames pages align_pages hard_limit run_end
            end
        end
      else Ret (Ok None)
  end.

Definition alloc_contiguous_frames_aligned_below (fa : FrameAllocator)
    (pages align_pages max_page_exclusive : Z) : outcome (result Z FrameError * FrameAllocator) :=
  if pages =? 0 then Ret (Err ZeroSizedAllocation, fa) else
  if (align_pages =? 0) || negb (is_power_of_two align_pages) then Ret (Err BadAlignment, fa) else
  let hard_limit := Z.min (page_of ram) max_page_exclusive in
  if (hard_limit =? 0) || (hard_limit <? pages) then Ret (Err ExceedsLimit, fa) else
  let frames := dedup (sort_by_key id (free_frames fa)) in
  let fa := fa <| free_frames := frames |> in
  found ← scan_runs (S (length frames)) frames pages align_pages hard_limit 0;
  match found with
  | Err e => Ret (Err e, fa)
  | Ok (Some (aligned, start_index, end_index)) =>
      if existsb has_live_stack (seqZ aligned pages) then Panic
      else Ret (Ok aligned, fa <| free_frames := vec_drain frames start_index end_index |>)
  | Ok None =>
      match checked_add 32 (next_free_page fa) (align_pages - 1) with
      | None => Ret (Err AlignmentOverflow, fa)
      | Some v =>
          let aligned := align_down 32 v align_pages in
          match checked_add 32 aligned pages with
          | None => Ret (Err RangeOverflow, fa)
          | Some end_ =>
              if hard_limit <? end_ then Ret (Err OutOfContiguousFrames, fa) else
              let frames := frames ++ seqZ (next_free_page fa) (aligned - next_free_page fa) in
              if existsb has_live_stack (seqZ aligned pages) then Panic
              else Ret (Ok aligned, mkFA end_ frames)
          end
      end
  end.

Definition alloc_contiguous_frames (fa : FrameAllocator) (pages : Z)
    : outcome (Z * FrameAllocator) :=
  '(r, fa) ← alloc_contiguous_frames_aligned_below fa pages 1 (page_of ram);
  match r with Ok frame => Ret (frame, fa) | Err _ => Panic end.

(** [memory_stats], given the firmware-reported RAM in MiB. *)
Record MemoryStats : Type := mkStats { total_kib : Z; managed_kib : Z; free_kib : Z; used_kib : Z }.

Definition memory_stats (installed_mib : Z) (fa : FrameAllocator) : MemoryStats :=
  let managed_bytes := ram in
  let max_page := page_of ram in
  let bump_free := saturating_sub max_page (next_free_page fa) in
  let recycled := zlen (free_frames fa) in
  let free_bytes := (bump_free + recycled) * PAGE_SIZE in
  let free_bytes := Z.min free_bytes managed_bytes in
  mkStats (installed_mib * 1024) (managed_bytes / 1024) (free_bytes / 1024)
          (saturating_sub managed_bytes free_bytes / 1024).
End Allocator.

(** ** Runs of frames *)

Lemma zlen_seqZ m n : 0 <= n -> zlen (seqZ m n) = n.
Proof. intros. unfold zlen. rewrite length_seqZ. lia. Qed.

Lemma seqZ_app_eq m k n q : 0 <= n -> 0 <= q -> k = m + n -> seqZ m n ++ seqZ k q = seqZ m (n + q).
Proof. intros ? ? ->. by rewrite seqZ_app by lia. Qed.

Lemma seqZ_split3 m n a k :
  m <= a -> 0 <= k -> a + k <= m + n ->
  (seqZ m (a - m) ++ seqZ a k) ++ seqZ (a + k) (m + n - (a + k)) = seqZ m n.
Proof. intros. rewrite !seqZ_app_eq by lia. f_equal. lia. Qed.

(** Frame numbers of a 32-bit physical address space. *)
Definition all_frames (l : list Z) : Prop := Forall (fun f => 0 <= f < 2 ^ 20) l.

(** The run that starts after [pre] is extended as far as it goes. *)
Lemma extend_run_ok fuel l pre first n post :
  l = pre ++ seqZ first n ++ post -> 1 <= n -> all_frames l -> (length post < fuel)%nat ->
  exists n' post', extend_run fuel l (zlen pre + n) = Ret (zlen pre + n') /\
    l = pre ++ seqZ first n' ++ post' /\ n <= n' /\ head post' <> Some (first + n').
Proof.
  revert n post. induction fuel as [|fuel IH]; intros n post Hl Hn Hu Hf; [lia|]. simpl.
  assert (zlen l = zlen pre + n + zlen post) as Hlen
    by (rewrite Hl, !zlen_app, zlen_seqZ by lia; lia).
  destruct post as [|x post].
  - rewrite (proj2 (Z.ltb_ge _ _)) by (rewrite Hlen; unfold zlen at 2; simpl; lia).
    by exists n, [].
  - rewrite (proj2 (Z.ltb_lt _ _)) by (rewrite Hlen, zlen_cons; pose proof (zlen_nonneg post); lia).
    assert (seqZ first n = seqZ first (n - 1) ++ [first + (n - 1)]) as Hsn.
    { rewrite <- seqZ_snoc by lia. f_equal. lia. }
    assert (idx l (zlen pre + n) = Ret x) as ->.
    { apply idx_Ret. rewrite Hl, app_assoc. replace (zlen pre + n) with (zlen (pre ++ seqZ first n))
        by (rewrite zlen_app, zlen_seqZ; lia). apply get_middle. }
    assert (idx l (zlen pre + n - 1) = Ret (first + (n - 1))) as ->.
    { apply idx_Ret. rewrite Hl, Hsn, <- app_assoc. simpl. rewrite app_assoc.
      replace (zlen pre + n - 1) with (zlen (pre ++ seqZ first (n - 1)))
        by (rewrite zlen_app, zlen_seqZ; lia). apply get_middle. }
    simpl. unfold add_u.
    assert (0 <= first + (n - 1) < 2 ^ 20) as Hb.
    { apply (proj1 (Forall_forall _ _) Hu). rewrite Hl, Hsn. set_solver. }
    rewrite (proj2 (Z.ltb_lt _ _)) by lia. simpl.
    destruct (Z.eqb_spec x (first + (n - 1) + 1)) as [->|Hne].
    + replace (first + (n - 1) + 1) with (first + n) in * by lia.
      destruct (IH (n + 1) post) as (n' & post' & H1 & H2 & H3 & H4).
      * rewrite seqZ_snoc by lia. by rewrite Hl, <- !app_assoc.
      * lia.
      * done.
      * simpl in Hf. lia.
      * rewrite <- Z.add_assoc, H1. exists n', post'. split_and!; try done; lia.
    + exists n, (x :: post). split_and!; try done. simpl. intros [= ->]. lia.
Qed.

(** No aligned run of [pages] frames below [hard] inside [l]. *)
Definition no_aligned_run (l : list Z) (pages align hard : Z) : Prop :=
  forall a, a mod align = 0 -> a + pages <= hard -> ~ (forall k, 0 <= k < pages -> a + k ∈ l).

(** A run of consecutive frames cannot straddle a gap. *)
Lemma run_in_part (first n : Z) post pages a :
  StronglySorted Z.lt (seqZ first n ++ post) -> head post <> Some (first + n) -> 1 <= n -> 1 <= pages ->
  (forall k, 0 <= k < pages -> a + k ∈ seqZ first n ++ post) ->
  (first <= a /\ a + pages <= first + n) \/ (forall k, 0 <= k < pages -> a + k ∈ post).
Proof.
  intros Hs Hhd Hn Hp Hin.
  assert (forall x, x ∈ post -> first + n < x) as Hpost.
  { destruct post as [|y post]; [by intros x ?%not_elem_of_nil|].
    assert (first + (n - 1) < y) as Hy.
    { apply (StronglySorted_app_1_elem_of Z.lt _ _ _ _ Hs); [|by left]. apply elem_of_seqZ. lia. }
    simpl in Hhd. assert (y <> first + n) by congruence.
    apply StronglySorted_app_1_r, StronglySorted_inv in Hs as [_ Hfa].
    intros x [->|Hx]%elem_of_cons; [lia|]. pose proof (proj1 (Forall_forall _ _) Hfa x Hx). lia. }
  assert (forall k, 0 <= k < pages -> first <= a + k < first + n \/ first + n < a + k) as Hk.
  { intros k Hk. destruct (elem_of_app (seqZ first n) post (a + k)) as [[H|H] _]; [by apply Hin| |].
    - apply elem_of_seqZ in H. lia.
    - right. by apply Hpost. }
  destruct (Hk 0 ltac:(lia)) as [H0|H0].
  - left. split; [lia|]. destruct (Z.le_gt_cases (a + pages) (first + n)) as [|Hgt]; [done|].
    destruct (Hk (first + n - a) ltac:(lia)); lia.
  - right. intros k Hkk. destruct (elem_of_app (seqZ first n) post (a + k)) as [[H|H] _];
      [by apply Hin| |done]. apply elem_of_seqZ in H. lia.
Qed.

Section Scan.
  Variables (l : list Z) (pages align hard : Z).
  Hypothesis (Hu : all_frames l) (Hp : 1 <= pages) (Hph : pages <= hard) (Hh : hard <= 2 ^ 20).
  Hypothesis (Ha : is_pow2 align) (Ha31 : align <= 2 ^ 31).
  Hypothesis (Hsorted : StronglySorted Z.lt l).

(** The current run holds no suitable sub-run: the search goes on after it. *)
Lemma scan_skip first n post aligned :
  StronglySorted Z.lt (seqZ first n ++ post) -> head post <> Some (first + n) -> 1 <= n ->
  first <= aligned < first + align -> aligned mod align = 0 ->
  first + n < aligned + pages \/ hard < aligned + pages ->
  no_aligned_run post pages align hard -> no_aligned_run (seqZ first n ++ post) pages align hard.
Proof using Hp Ha.
  intros Hs Hhd Hn Hr Hm Hno Hpost a Hma Hah Hin.
  destruct (run_in_part first n post pages a) as [[H1 H2]|H]; try done; [|by apply (Hpost a)].
  pose proof (is_pow2_pos _ Ha). assert (aligned <= a); [|lia].
  destruct (Z.le_gt_cases aligned a) as [|Hlt]; [done|].
  apply Z.mod_divide in Hm as [x Hx]; [|lia]. apply Z.mod_divide in Hma as [y Hy]; [|lia].
  assert (y < x) by nia. assert (x < y + 1) by nia. lia.
Qed.

(** The search finds an aligned run of reusable frames whenever there is one. *)
Lemma scan_runs_ok fuel pre rest :
  l = pre ++ rest -> (length rest < fuel)%nat ->
  (exists aligned l1 l2, scan_runs fuel l pages align hard (zlen pre) =
     Ret (Ok (Some (aligned, zlen l1, zlen l1 + pages))) /\
     l = l1 ++ seqZ aligned pages ++ l2 /\ aligned mod align = 0 /\ aligned + pages <= hard) \/
  (scan_runs fuel l pages align hard (zlen pre) = Ret (Ok None) /\ no_aligned_run rest pages align hard).
Proof using All.
  revert pre rest. induction fuel as [|fuel IH]; intros pre rest Hl Hf; [lia|]. cbn [scan_runs].
  destruct rest as [|first t].
  { right. rewrite Hl, app_nil_r, Z.ltb_irrefl. split; [done|].
    intros a _ _ Hin. by apply (not_elem_of_nil (a + 0)), Hin; lia. }
  rewrite (proj2 (Z.ltb_lt _ _)) by (rewrite Hl, zlen_app, zlen_cons; pose proof (zlen_nonneg t); lia).
  destruct (extend_run_ok (S (length l)) l pre first 1 t) as (n & post & -> & Hl' & Hn & Hhd);
    [done|lia|done|rewrite Hl, length_app; simpl; lia|]. simpl.
  assert (idx l (zlen pre) = Ret first) as -> by (apply idx_Ret; rewrite Hl; apply get_middle).
  assert (idx l (zlen pre + n - 1) = Ret (first + (n - 1))) as ->.
  { replace n with (n - 1 + 1) in Hl' by lia. rewrite seqZ_snoc in Hl' by lia.
    rewrite <- app_assoc in Hl'. simpl in Hl'. apply idx_Ret. rewrite Hl', app_assoc.
    replace (zlen pre + n - 1) with (zlen (pre ++ seqZ first (n - 1)))
      by (rewrite zlen_app, zlen_seqZ; lia). apply get_middle. }
  simpl. pose proof (is_pow2_pos _ Ha) as Hapos.
  assert (0 <= first /\ first + (n - 1) < 2 ^ 20) as [Hf0 Hf1].
  { split; [apply (proj1 (Forall_forall _ _) Hu); rewrite Hl; set_solver by done|].
    apply (proj1 (Forall_forall _ _) Hu). rewrite Hl', !elem_of_app, elem_of_seqZ. lia. }
  unfold checked_add. rewrite (proj2 (Z.ltb_lt (first + (align - 1)) _)) by lia.
  destruct (align_up_pow2 32 first align) as [Hr Hm]; try done; try lia.
  replace (first + (align - 1)) with (first + align - 1) by lia.
  set (aligned := align_down 32 (first + align - 1) align) in *.
  destruct (Z.ltb_spec (aligned + pages) (2 ^ 32)) as [_|Hov]; [|lia].
  rewrite (proj2 (Z.leb_le first aligned)) by lia. simpl.
  assert (saturating_add 32 (first + (n - 1)) 1 = first + n) as -> by (unfold saturating_add; lia).
  destruct (Z.leb_spec (aligned + pages) (first + n)) as [Hfit|Hnofit]; simpl;
    [destruct (Z.leb_spec (aligned + pages) hard) as [Hhard|Hhard]|].
  1: left; exists aligned, (pre ++ seqZ first (aligned - first)),
      (seqZ (aligned + pages) (first + n - (aligned + pages)) ++ post);
    rewrite zlen_app, zlen_seqZ by lia; split_and!; [done| |done|lia];
    rewrite Hl', <- !app_assoc; f_equal; rewrite !app_assoc; f_equal; symmetry;
    apply seqZ_split3; lia.
  all: destruct (IH (pre ++ seqZ first n) post) as
    [(al & l1 & l2 & Hsc & H)|[Hsc Hno]]; [by rewrite <- app_assoc|
    apply (f_equal length) in Hl'; rewrite Hl, !length_app, length_seqZ in Hl'; simpl in *; lia| | ];
    rewrite zlen_app, zlen_seqZ in Hsc by lia; rewrite Hsc; [left; by exists al, l1, l2|right];
    (split; [done|]); assert (first :: t = seqZ first n ++ post) as ->
      by (apply (app_inv_head pre); congruence);
    (apply scan_skip with (aligned := aligned); try done; [|lia]);
    rewrite Hl' in Hsorted; by apply StronglySorted_app_1_r in Hsorted.
Qed.
End Scan.

(** ** Ownership of frames

    [live] is the set of frames handed out and not yet returned. *)
Record frames_inv (ram : Z) (fa : FrameAllocator) (live : gset Z) : Prop := {
  fi_next : first_dynamic <= next_free_page fa <= page_of ram;
  fi_nodup : NoDup (free_frames fa);
  fi_part : forall f, (f ∈ free_frames fa \/ f ∈ live) <-> first_dynamic <= f < next_free_page fa;
  fi_disj : forall f, f ∈ free_frames fa -> f ∉ live
}.

(** RAM as [configure_from_ram] leaves it. *)
Definition ram_ok (ram : Z) : Prop := 64 * MIB <= ram <= 1024 * MIB /\ ram mod 0x400000 = 0.

(** Every kernel stack of the task table lies in frames that are handed out. *)
Definition stacks_live (stacks : list (option Z)) (live : gset Z) : Prop :=
  forall f, has_live_stack stacks f = true -> f ∈ live.

Lemma ram_pages ram : ram_ok ram -> first_dynamic < page_of ram <= 2 ^ 18 /\ ram = page_of ram * PAGE_SIZE.
Proof.
  intros [Hr Hm]. unfold page_of, first_dynamic, page_of, FRAME_ALLOC_START, PAGE_SIZE, MIB in *.
  rewrite !Z.shiftr_div_pow2 by lia. change (2 ^ 12) with 4096. change (2 ^ 18) with 262144.
  split; mlia.
Qed.

Lemma seqZ_set_live (live : gset Z) a n f :
  f ∈ live ∪ list_to_set (seqZ a n) <-> f ∈ live \/ a <= f < a + n.
Proof. rewrite elem_of_union, elem_of_list_to_set, elem_of_seqZ. done. Qed.

Section Ownership.
  Variables (ram : Z) (stacks : list (option Z)) (fa : FrameAllocator) (live : gset Z).
  Hypothesis (Hram : ram_ok ram) (Hinv : frames_inv ram fa live) (Hst : stacks_live stacks live).

Lemma fresh_no_stack f : f ∉ live -> has_live_stack stacks f = false.
Proof using Hst. intros Hf. destruct (has_live_stack stacks f) eqn:E; [|done]. by apply Hst in E. Qed.

(** Removing some free frames and handing them out keeps the invariant. *)
Lemma inv_hand_out next' free' (out : gset Z) :
  next_free_page fa <= next' <= page_of ram -> NoDup free' ->
  (forall f, f ∈ free' -> f ∉ out) ->
  (forall f, f ∈ free' \/ f ∈ out <-> f ∈ free_frames fa \/ next_free_page fa <= f < next') ->
  frames_inv ram (mkFA next' free') (live ∪ out) /\ (forall f, f ∈ out -> f ∉ live /\ first_dynamic <= f < page_of ram).
Proof using Hinv.
  destruct Hinv as [Hn Hnd Hpart Hdisj]. intros Hn' Hnd' Hsep Hcov.
  assert (forall f, f ∈ free' \/ f ∈ out -> f ∉ live /\ first_dynamic <= f < next') as Hnew.
  { intros f [Hf|Hf]%Hcov.
    - split; [by apply Hdisj|]. pose proof (proj1 (Hpart f) (or_introl Hf)). lia.
    - split; [|lia]. intros Hl. pose proof (proj1 (Hpart f) (or_intror Hl)). lia. }
  split; [constructor; simpl; [lia|done| |]|].
  - intros f. rewrite elem_of_union. specialize (Hcov f). specialize (Hpart f). split.
    + intros [Hf|[Hf|Hf]]; [by apply Hnew; auto| |by apply Hnew; auto].
      pose proof (proj1 Hpart (or_intror Hf)). lia.
    + intros Hf. destruct (Z.lt_ge_cases f (next_free_page fa)) as [Hlt|Hge].
      * destruct (proj2 Hpart) as [H1|H1]; [lia| |auto]. destruct (proj2 Hcov (or_introl H1)); auto.
      * destruct (proj2 Hcov) as [H1|H1]; [right; lia|auto..].
  - intros f Hf. rewrite elem_of_union. intros [Hl|Ho]; [by destruct (Hnew f (or_introl Hf))|by apply (Hsep f)].
  - intros f Hf. destruct (Hnew f (or_intror Hf)). split; [done|lia].
Qed.
(** Either a fresh frame or, with every managed frame in use, a panic. *)
Lemma alloc_frame_cases :
  (exists f fa', alloc_frame ram stacks fa = Ret (f, fa') /\ f ∉ live /\
     first_dynamic <= f < page_of ram /\ frames_inv ram fa' (live ∪ {[f]})) \/
  (alloc_frame ram stacks fa = Panic /\ free_frames fa = [] /\ next_free_page fa = page_of ram).
Proof using Hram Hinv Hst.
  destruct (ram_pages ram Hram) as [Hpg _]. pose proof (fi_next _ _ _ Hinv) as Hn.
  pose proof (fi_nodup _ _ _ Hinv) as Hnd.
  unfold alloc_frame. destruct (vec_pop (free_frames fa)) as [[f rest]|] eqn:Hpop.
  - apply vec_pop_Some in Hpop. rewrite Hpop in Hnd. apply NoDup_app in Hnd as (Hnd & Hsep & _).
    assert (f ∉ rest) as Hfr by (intros Hin; apply (Hsep f Hin); by left).
    rewrite (filter_all _ rest) by (apply Forall_forall; intros x Hx ->; done).
    destruct (inv_hand_out (next_free_page fa) rest {[f]}) as [Hi Ho]; [lia|done|set_solver| |].
    { intros g. rewrite Hpop, elem_of_app, list_elem_of_singleton, elem_of_singleton. 
      assert (~ next_free_page fa <= g < next_free_page fa) by lia. tauto. }
    destruct (Ho f ltac:(set_solver)) as [Hfl Hfb]. rewrite (fresh_no_stack f Hfl).
    left. exists f, (mkFA (next_free_page fa) rest). split_and!; try done; lia.
  - apply vec_pop_None in Hpop. destruct (Z.leb_spec (page_of ram) (next_free_page fa)) as [Hge|Hlt].
    { right. split_and!; [done..|lia]. }
    destruct (inv_hand_out (next_free_page fa + 1) [] {[next_free_page fa]}) as [Hi Ho];
      [lia|constructor|set_solver| |].
    { intros g. rewrite Hpop, elem_of_singleton. split; [intros [?%not_elem_of_nil| ->]; [done|right; lia]|].
      intros [?%not_elem_of_nil|?]; [done|right; lia]. }
    destruct (Ho (next_free_page fa) ltac:(set_solver)) as [Hfl Hfb].
    unfold add_u. rewrite (proj2 (Z.ltb_lt _ (2 ^ 32))) by lia. simpl.
    rewrite (fresh_no_stack _ Hfl). left.
    exists (next_free_page fa), (mkFA (next_free_page fa + 1) (free_frames fa)).
    split_and!; try done; [lia|]. by rewrite Hpop.
Qed.

(** Freeing: a live frame becomes reusable; anything else is ignored. *)
Lemma free_phys_frame_live f :
  f ∈ live -> frames_inv ram (free_phys_frame fa f) (live ∖ {[f]}).
Proof using Hinv.
  clear Hram Hst. intros Hf. destruct Hinv as [Hn Hnd Hpart Hdisj].
  pose proof (proj1 (Hpart f) (or_intror Hf)).
  unfold free_phys_frame. rewrite (proj2 (Z.ltb_ge _ _)), (proj2 (Z.leb_gt _ _)) by lia. simpl.
  assert (f ∉ free_frames fa) as Hnf by (intros Hin; by apply (Hdisj f)).
  destruct (existsb _ _) eqn:E.
  { apply existsb_exists in E as (x & Hx%list_elem_of_In & ->%Z.eqb_eq). done. }
  constructor; simpl; [done| | |].
  - apply NoDup_app. split_and!; [done| |by apply NoDup_singleton]. set_solver.
  - intros g. rewrite elem_of_app, list_elem_of_singleton, elem_of_difference, elem_of_singleton, <- Hpart.
    destruct (decide (g = f)) as [->|]; tauto.
  - intros g. rewrite elem_of_app, list_elem_of_singleton. intros [Hg| ->]; [|set_solver].
    pose proof (Hdisj g Hg). set_solver.
Qed.

Lemma free_phys_frame_other f : f ∉ live -> free_phys_frame fa f = fa.
Proof using Hinv.
  intros Hf. unfold free_phys_frame. destruct Hinv as [_ _ Hpart _].
  destruct (Z.ltb_spec f first_dynamic); [done|]. destruct (Z.leb_spec (next_free_page fa) f); [done|]. simpl.
  destruct (proj2 (Hpart f)) as [Hin|]; [lia| |done].
  assert (existsb (fun free => free =? f) (free_frames fa) = true) as ->; [|done].
  apply existsb_exists. exists f. split; [by apply list_elem_of_In|by apply Z.eqb_eq].
Qed.

(** The reusable frames after sorting and removing duplicates. *)
Lemma tidy_frames :
  let l := dedup (sort_by_key id (free_frames fa)) in
  StronglySorted Z.lt l /\ (forall f, f ∈ l <-> f ∈ free_frames fa) /\ NoDup l /\ all_frames l.
Proof using Hram Hinv.
  intros l. destruct (ram_pages ram Hram) as [Hpg _]. pose proof (fi_next _ _ _ Hinv) as Hn.
  assert (StronglySorted Z.lt l) as Hs by (apply dedup_sorted, (sort_by_key_sorted id)).
  assert (forall f, f ∈ l <-> f ∈ free_frames fa) as Hin.
  { intros f. unfold l. by rewrite elem_of_dedup, sort_by_key_Permutation. }
  split_and!; [done..| |].
  - clear -Hs. induction Hs as [|x t Ht IH Hx]; constructor; [|done].
    intros Hxt. pose proof (proj1 (Forall_forall _ _) Hx x Hxt). lia.
  - apply Forall_forall. intros f Hf%Hin. pose proof (proj1 (fi_part _ _ _ Hinv f) (or_introl Hf)).
    assert (0 <= first_dynamic) by by vm_compute. lia.
Qed.

Lemma no_stacks a n : (forall f, a <= f < a + n -> f ∉ live) -> existsb (has_live_stack stacks) (seqZ a n) = false.
Proof using Hst.
  intros Hf. apply Bool.not_true_iff_false. intros (f & Hin%list_elem_of_In%elem_of_seqZ & Hs)%existsb_exists.
  rewrite (fresh_no_stack f) in Hs; [done|]. by apply Hf.
Qed.

(** Draining a run out of the list. *)
Lemma drain_run l1 a n l2 :
  0 <= n -> vec_drain (l1 ++ seqZ a n ++ l2) (zlen l1) (zlen l1 + n) = l1 ++ l2.
Proof.
  intros. unfold vec_drain, zlen. rewrite Nat2Z.id, take_app_length.
  rewrite app_assoc, drop_app_length'; [done|]. rewrite length_app, length_seqZ. lia.
Qed.

(** What a contiguous allocation hands out. *)
Definition run_served pages align hard (fa' : FrameAllocator) (a : Z) : Prop :=
  a mod align = 0 /\ a + pages <= hard /\ (forall f, a <= f < a + pages -> f ∉ live /\ first_dynamic <= f) /\
  frames_inv ram fa' (live ∪ list_to_set (seqZ a pages)).

Lemma run_from_free pages align hard l1 a l2 :
  dedup (sort_by_key id (free_frames fa)) = l1 ++ seqZ a pages ++ l2 -> 1 <= pages ->
  a mod align = 0 -> a + pages <= hard ->
  run_served pages align hard (mkFA (next_free_page fa) (l1 ++ l2)) a.
Proof using Hram Hinv.
  intros Hl Hp Hm Hh. destruct tidy_frames as (_ & Hin & Hnd & _). cbv zeta in *. rewrite Hl in Hin, Hnd.
  pose proof (fi_next _ _ _ Hinv). 
  assert (forall f, f ∈ l1 ++ l2 -> f ∉ seqZ a pages) as Hsep.
  { intros f [Hf|Hf]%elem_of_app Hs; apply NoDup_app in Hnd as (_ & H1 & Hnd).
    - apply (H1 f Hf), elem_of_app. by left.
    - apply NoDup_app in Hnd as (_ & H2 & _). by apply (H2 f). }
  destruct (inv_hand_out (next_free_page fa) (l1 ++ l2) (list_to_set (seqZ a pages))) as [Hi Ho].
  - lia.
  - eapply sublist_NoDup; [exact Hnd|]. apply sublist_app; [done|]. by apply sublist_inserts_l.
  - intros f Hf. rewrite elem_of_list_to_set. by apply Hsep.
  - intros f. rewrite elem_of_list_to_set, <- Hin, !elem_of_app.
    assert (~ next_free_page fa <= f < next_free_page fa) by lia. tauto.
  - split_and!; try done. intros f Hf.
    destruct (Ho f) as [? ?]; [rewrite elem_of_list_to_set, elem_of_seqZ; lia|]. split; [done|lia].
Qed.

Lemma run_from_bump pages align hard a :
  1 <= pages -> a mod align = 0 -> a + pages <= hard -> hard <= page_of ram -> next_free_page fa <= a ->
  run_served pages align hard
    (mkFA (a + pages) (dedup (sort_by_key id (free_frames fa)) ++
                       seqZ (next_free_page fa) (a - next_free_page fa))) a.
Proof using Hram Hinv.
  intros Hp Hm Hh Hhr Hge. destruct tidy_frames as (_ & Hin & Hnd & _). cbv zeta in *.
  set (l := dedup _) in *. pose proof (fi_next _ _ _ Hinv).
  assert (forall f, f ∈ l -> f < next_free_page fa) as Hlt.
  { intros f Hf%Hin. pose proof (proj1 (fi_part _ _ _ Hinv f) (or_introl Hf)). lia. }
  destruct (inv_hand_out (a + pages) (l ++ seqZ (next_free_page fa) (a - next_free_page fa))
              (list_to_set (seqZ a pages))) as [Hi Ho].
  - lia.
  - apply NoDup_app. split_and!; [done| |apply NoDup_seqZ]. intros f Hf%Hlt. rewrite elem_of_seqZ. lia.
  - intros f. rewrite elem_of_app, elem_of_list_to_set, !elem_of_seqZ. intros [Hf%Hlt|Hf]; lia.
  - intros f. rewrite elem_of_list_to_set, elem_of_app, !elem_of_seqZ, <- Hin.
    assert (next_free_page fa <= f < next_free_page fa + (a - next_free_page fa) \/ a <= f < a + pages <->
            next_free_page fa <= f < a + pages) by lia. tauto.
  - split_and!; try done. intros f Hf.
    destruct (Ho f) as [? ?]; [rewrite elem_of_list_to_set, elem_of_seqZ; lia|]. split; [done|lia].
Qed.
Lemma tidy_inv : frames_inv ram (fa <| free_frames := dedup (sort_by_key id (free_frames fa)) |>) live.
Proof using Hram Hinv.
  destruct tidy_frames as (_ & Hin & Hnd & _). cbv zeta in *. pose proof Hinv as [Hn _ Hpart Hdisj].
  constructor; simpl; [done..| |].
  - intros f. by rewrite Hin.
  - intros f Hf%Hin. by apply Hdisj.
Qed.

(** No room: neither among the reusable frames nor above the bump pointer. *)
Definition no_room pages align hard : Prop :=
  no_aligned_run (free_frames fa) pages align hard /\
  (forall a, next_free_page fa <= a -> a mod align = 0 -> hard < a + pages).

Lemma exceeds_no_room pages align hard : 1 <= pages -> hard < pages -> no_room pages align hard.
Proof using Hinv.
  intros Hp Hh. assert (0 <= first_dynamic) by by vm_compute. split.
  - intros a _ Ha Hin. pose proof (proj1 (fi_part _ _ _ Hinv (a + 0)) (or_introl (Hin 0 ltac:(lia)))). lia.
  - intros a Ha _. pose proof (fi_next _ _ _ Hinv). lia.
Qed.

(** The bump end of the search: the least aligned frame either fits or none does. *)
Lemma bump_aligned pages align :
  is_pow2 align -> align < 2 ^ 32 -> 1 <= pages <= 2 ^ 20 ->
  exists a, checked_add 32 (next_free_page fa) (align - 1) = Some (next_free_page fa + (align - 1)) /\
    align_down 32 (next_free_page fa + (align - 1)) align = a /\
    checked_add 32 a pages = Some (a + pages) /\ next_free_page fa <= a /\ a mod align = 0 /\
    (forall b, next_free_page fa <= b -> b mod align = 0 -> a <= b).
Proof using Hram Hinv.
  intros Ha Hau Hp. pose proof (is_pow2_pos _ Ha). pose proof (fi_next _ _ _ Hinv) as Hn.
  destruct (ram_pages ram Hram) as [Hpg _]. assert (0 <= first_dynamic) by by vm_compute.
  assert (align <= 2 ^ 31) as Ha31.
  { destruct Ha as (k & Hk & ->). apply Z.pow_le_mono_r; [lia|].
    assert (k < 32) by (apply (Z.pow_lt_mono_r_iff 2); lia). lia. }
  exists (align_down 32 (next_free_page fa + (align - 1)) align).
  replace (next_free_page fa + (align - 1)) with (next_free_page fa + align - 1) by lia.
  destruct (align_up_pow2 32 (next_free_page fa) align) as [Hr Hm]; try done; try lia.
  set (a := align_down _ _ _) in *. unfold checked_add.
  rewrite (proj2 (Z.ltb_lt (next_free_page fa + (align - 1)) _)), (proj2 (Z.ltb_lt (a + pages) _)) by lia.
  split_and!; [f_equal; lia|done..|lia|done|].
  intros b Hb Hbm. destruct (Z.le_gt_cases a b) as [|Hlt]; [done|].
  apply Z.mod_divide in Hm as [x Hx]; [|lia]. apply Z.mod_divide in Hbm as [y Hy]; [|lia].
  assert (y < x) by nia. assert (x < y + 1) by nia. lia.
Qed.

Lemma contiguous_cases pages align lim :
  in_u32 pages -> in_u32 align -> in_u32 lim ->
  let hard := Z.min (page_of ram) lim in
  exists r fa', alloc_contiguous_frames_aligned_below ram stacks fa pages align lim = Ret (r, fa') /\
  match r with
  | Ok a => is_pow2 align /\ 1 <= pages /\ run_served pages align hard fa' a
  | Err e => frames_inv ram fa' live /\ (pages = 0 \/ ~ is_pow2 align \/ no_room pages align hard)
  end.
Proof using Hram Hinv Hst.
  intros Hp Ha Hl hard. unfold in_u in Hp, Ha, Hl. destruct (ram_pages ram Hram) as [Hpg _].
  unfold alloc_contiguous_frames_aligned_below. fold hard.
  destruct (Z.eqb_spec pages 0) as [->|Hp0]; [eexists _, _; split; [done|]; simpl; auto|].
  destruct (is_power_of_two align) eqn:Hpw; cbn [negb];
    [rewrite orb_false_r|rewrite orb_true_r; eexists _, _; split; [done|]; simpl; split; [done|];
     right; left; intros Hal%is_power_of_two_spec; congruence].
  apply is_power_of_two_spec in Hpw. pose proof (is_pow2_pos _ Hpw).
  rewrite (proj2 (Z.eqb_neq align 0)) by lia.
  destruct (Z.eqb_spec hard 0); cbn [orb]; [|destruct (Z.ltb_spec hard pages)].
  1,2: eexists _, _; split; [done|]; simpl; split; [done|]; right; right; apply exceeds_no_room; lia.
  destruct tidy_frames as (Hs & Hin & _ & Hfr). cbv zeta in *. set (l := dedup _) in *.
  destruct (bump_aligned pages align Hpw ltac:(lia) ltac:(lia)) as
    (a & Hca0 & Hal & Hca & Hage & Ham & Hleast).
  assert (align <= 2 ^ 31) as Ha31 by (destruct Hpw as (k & Hk & ->); apply Z.pow_le_mono_r; [lia|];
    assert (k < 32) by (apply (Z.pow_lt_mono_r_iff 2); lia); lia).
  destruct (scan_runs_ok l pages align hard Hfr ltac:(lia) ltac:(lia) ltac:(lia) Hpw Ha31 Hs
              (S (length l)) [] l eq_refl ltac:(lia)) as
    [(al & l1 & l2 & Hsc & Hl12 & Hm & Hh)|[Hsc Hno]]; change (zlen []) with 0 in Hsc; rewrite Hsc; simpl.
  - pose proof (run_from_free pages align hard l1 al l2 Hl12 ltac:(lia) Hm Hh) as Hrun.
    rewrite no_stacks by (intros; by apply Hrun). rewrite Hl12, drain_run by lia.
    eexists _, _. split; [done|]. simpl. split_and!; [done|lia|exact Hrun].
  - rewrite Hca0, Hal, Hca. destruct (Z.ltb_spec hard (a + pages)) as [Hover|Hfits].
    + eexists _, _. split; [done|]. simpl. split; [apply tidy_inv|]. right; right. split.
      * intros b Hb1 Hb2 Hb3. apply (Hno b Hb1 Hb2). intros k Hk. by apply Hin, Hb3.
      * intros b Hb1 Hb2. pose proof (Hleast b Hb1 Hb2). lia.
    + pose proof (run_from_bump pages align hard a ltac:(lia) Ham Hfits ltac:(lia) Hage) as Hrun.
      rewrite no_stacks by (intros; by apply Hrun).
      eexists _, _. split; [done|]. simpl. split_and!; [done|lia|exact Hrun].
Qed.
End Ownership.

Lemma configure_ram_ok ram_bytes : in_u32 ram_bytes ->
  ram_ok (configure_from_ram ram_bytes).1 /\
  (configure_from_ram ram_bytes).2 * 0x400000 = (configure_from_ram ram_bytes).1.
Proof.
  unfold in_u. intros Hb. unfold configure_from_ram, ram_ok. simpl.
  set (r1 := if ram_bytes <? _ then _ else _). set (r2 := if _ <? r1 then _ else _).
  assert (64 * MIB <= r2 <= 1024 * MIB) as Hr2.
  { unfold r2, r1, MIB. zcase; lia. }
  assert (Z.land r2 (not_u 32 0x3FFFFF) = r2 - r2 mod 0x400000) as ->.
  { unfold MIB in Hr2. apply (align_down_pow2 32 r2 0x400000); [by exists 22|lia..]. }
  unfold MIB, LARGE_PAGE_COUNT_MAX, LARGE_PAGE_COUNT_DEFAULT in *.
  destruct (Z.ltb_spec (r2 - r2 mod 0x400000) (64 * (1024 * 1024))); split; mlia.
Qed.

(** ** Runs of the allocator *)

Definition frame_state : Type := FrameAllocator * gset Z.

(** Allocations happen while every kernel stack is in handed-out frames;
    anything may be passed to [free_phys_frame]. *)
Inductive frame_step (ram : Z) : frame_state -> frame_state -> Prop :=
| fs_alloc stacks fa live f fa' :
    stacks_live stacks live -> alloc_frame ram stacks fa = Ret (f, fa') ->
    frame_step ram (fa, live) (fa', live ∪ {[f]})
| fs_alloc_phys stacks fa live f fa' :
    stacks_live stacks live -> alloc_phys_frame ram stacks fa = Ret (f, fa') ->
    frame_step ram (fa, live) (fa', live ∪ {[f]})
| fs_run stacks fa live pages align lim a fa' :
    stacks_live stacks live -> in_u32 pages -> in_u32 align -> in_u32 lim ->
    alloc_contiguous_frames_aligned_below ram stacks fa pages align lim = Ret (Ok a, fa') ->
    frame_step ram (fa, live) (fa', live ∪ list_to_set (seqZ a pages))
| fs_run_err stacks fa live pages align lim e fa' :
    stacks_live stacks live -> in_u32 pages -> in_u32 align -> in_u32 lim ->
    alloc_contiguous_frames_aligned_below ram stacks fa pages align lim = Ret (Err e, fa') ->
    frame_step ram (fa, live) (fa', live)
| fs_free fa live f : frame_step ram (fa, live) (free_phys_frame fa f, live ∖ {[f]}).

(** At boot the frames of the RAM disk count as handed out. *)
Definition boot_state (fa : FrameAllocator) : frame_state :=
  (fa, list_to_set (seqZ first_dynamic (next_free_page fa - first_dynamic))).

Definition boot_info_ok (bi : BootInfo) : Prop := in_u32 (bi_disk_phys bi) /\ in_u32 (bi_disk_sectors bi).

Definition frames_reachable (ram_bytes : Z) (bi : BootInfo) (s : frame_state) : Prop :=
  in_u32 ram_bytes /\ boot_info_ok bi /\
  let ram := (configure_from_ram ram_bytes).1 in
  exists fa0, frames_init ram bi = Ret fa0 /\ rtc (frame_step ram) (boot_state fa0) s.

Lemma alloc_phys_frame_eq ram stacks fa : alloc_phys_frame ram stacks fa = alloc_frame ram stacks fa.
Proof.
  unfold alloc_phys_frame, alloc_frame, assert. destruct (vec_pop _) as [[f rest]|]; [done|].
  destruct (Z.ltb_spec (next_free_page fa) (page_of ram)), (Z.leb_spec (page_of ram) (next_free_page fa));
    simpl; try lia; done.
Qed.

Lemma frames_init_ok ram bi : ram_ok ram -> boot_info_ok bi ->
  exists fa, frames_init ram bi = Ret fa /\ frames_inv ram fa (boot_state fa).2.
Proof.
  intros Hr [Hp Hs]. destruct (ram_pages ram Hr) as [Hpg _]. unfold in_u in *.
  assert (forall next, first_dynamic <= next <= page_of ram ->
            frames_inv ram (mkFA next []) (boot_state (mkFA next [])).2) as Hi.
  { intros next Hn. constructor; simpl; [done|constructor| |by intros f ?%not_elem_of_nil].
    intros f. rewrite elem_of_list_to_set, elem_of_seqZ. split; [|right; lia].
    intros [?%not_elem_of_nil|?]; [done|lia]. }
  unfold frames_init. destruct (_ && _); [|eexists; split; [done|apply Hi; lia]].
  rewrite (proj2 (Z.ltb_lt _ _)) by lia. simpl. unfold add_u, PAGE_SIZE.
  rewrite !(proj2 (Z.ltb_lt _ (2 ^ 64))) by lia. simpl. 
  rewrite (proj2 (Z.ltb_lt _ (2 ^ 64))) by lia. simpl.
  set (e := _ mod 2 ^ 32). clearbody e.
  destruct (Z.ltb_spec (page_of ram) e); [eexists; split; [done|apply Hi; lia]|].
  destruct (Z.ltb_spec first_dynamic e); (eexists; split; [done|apply Hi; lia]).
Qed.

Lemma frame_step_inv ram s s' :
  ram_ok ram -> frame_step ram s s' -> frames_inv ram s.1 s.2 -> frames_inv ram s'.1 s'.2.
Proof.
  intros Hr Hstep Hi. destruct Hstep as [stacks fa live f fa' Hst Ha|stacks fa live f fa' Hst Ha
    |stacks fa live pages al lim a fa' Hst Hp Hal Hl Ha|stacks fa live pages al lim e fa' Hst Hp Hal Hl Ha
    |fa live f]; simpl in *.
  - destruct (alloc_frame_cases ram stacks fa live Hr Hi Hst) as [(g & fb & Hg & _ & _ & H)|[Hg _]];
      rewrite Ha in Hg; [by injection Hg as <- <-|done].
  - rewrite alloc_phys_frame_eq in Ha.
    destruct (alloc_frame_cases ram stacks fa live Hr Hi Hst) as [(g & fb & Hg & _ & _ & H)|[Hg _]];
      rewrite Ha in Hg; [by injection Hg as <- <-|done].
  - destruct (contiguous_cases ram stacks fa live Hr Hi Hst pages al lim Hp Hal Hl) as (r & fb & Hg & H).
    rewrite Ha in Hg. injection Hg as <- <-. by destruct H as (_ & _ & _ & _ & _ & ?).
  - destruct (contiguous_cases ram stacks fa live Hr Hi Hst pages al lim Hp Hal Hl) as (r & fb & Hg & H).
    rewrite Ha in Hg. injection Hg as <- <-. by destruct H.
  - destruct (decide (f ∈ live)); [by apply free_phys_frame_live|].
    rewrite (free_phys_frame_other ram fa live) by done. by rewrite difference_disjoint_L by set_solver.
Qed.

Lemma frames_reachable_inv ram_bytes bi fa live :
  frames_reachable ram_bytes bi (fa, live) ->
  ram_ok (configure_from_ram ram_bytes).1 /\ frames_inv (configure_from_ram ram_bytes).1 fa live.
Proof.
  intros (Hb & Hbi & fa0 & H0 & Hrun). destruct (configure_ram_ok _ Hb) as [Hr _]. split; [done|].
  set (ram := (configure_from_ram ram_bytes).1) in *.
  change (frames_inv ram (fa, live).1 (fa, live).2). revert Hrun.
  generalize (fa, live). apply (rtc_ind_r (fun s => frames_inv ram s.1 s.2)).
  - destruct (frames_init_ok ram bi Hr Hbi) as (fa1 & H1 & Hi). rewrite H0 in H1. by injection H1 as ->.
  - intros s1 s2 _ Hs Hi. by eapply frame_step_inv.
Qed.

Lemma frames_inv_count ram fa live :
  frames_inv ram fa live ->
  zlen (free_frames fa) + Z.of_nat (size live) = next_free_page fa - first_dynamic.
Proof.
  intros [Hn Hnd Hpart Hdisj]. unfold zlen.
  rewrite <- (size_list_to_set (C := gset Z)) by done. rewrite <- Nat2Z.inj_add, <- size_union.
  2: { intros f Hf%elem_of_list_to_set Hl. by apply (Hdisj f). }
  assert (list_to_set (free_frames fa) ∪ live =
          list_to_set (C := gset Z) (seqZ first_dynamic (next_free_page fa - first_dynamic))) as ->.
  { apply set_eq. intros f. rewrite elem_of_union, !elem_of_list_to_set, elem_of_seqZ, Hpart. lia. }
  rewrite size_list_to_set by apply NoDup_seqZ. rewrite length_seqZ. lia.
Qed.

(** C24. In every state the allocator can reach from boot, a frame it hands out
    is a managed frame below the end of RAM that nobody holds; a contiguous
    run is aligned, ends below both limits and consists of such frames. *)
Theorem frame_alloc_fresh ram_bytes bi fa live stacks :
  frames_reachable ram_bytes bi (fa, live) -> stacks_live stacks live ->
  let ram := (configure_from_ram ram_bytes).1 in
  (forall f fa', alloc_frame ram stacks fa = Ret (f, fa') \/ alloc_phys_frame ram stacks fa = Ret (f, fa') ->
     f ∉ live /\ first_dynamic <= f < page_of ram) /\
  (forall pages align lim a fa', in_u32 pages -> in_u32 align -> in_u32 lim ->
     alloc_contiguous_frames_aligned_below ram stacks fa pages align lim = Ret (Ok a, fa') ->
     a mod align = 0 /\ a + pages <= Z.min (page_of ram) lim /\
     forall f, a <= f < a + pages -> f ∉ live /\ first_dynamic <= f).
Proof.
  intros [Hr Hi]%frames_reachable_inv Hst ram. split.
  - intros f fa' Ha. rewrite alloc_phys_frame_eq in Ha.
    destruct (alloc_frame_cases _ stacks _ _ Hr Hi Hst) as [(g & fb & Hg & H1 & H2 & _)|[Hg _]];
      fold ram in Hg; destruct Ha as [Ha|Ha]; rewrite Ha in Hg; try done; by injection Hg as <- <-.
  - intros pages align lim a fa' Hp Hal Hl Ha.
    destruct (contiguous_cases _ stacks _ _ Hr Hi Hst pages align lim Hp Hal Hl) as (r & fb & Hg & H).
    fold ram in Hg. rewrite Ha in Hg. injection Hg as <- <-. by destruct H as (_ & _ & ? & ? & ? & _).
Qed.

(** Single-frame allocation is exact: it panics precisely when every
    managed frame is in use, never because of the live-stack checks, and
    otherwise returns. *)
Theorem frame_alloc_exact ram_bytes bi fa live stacks :
  frames_reachable ram_bytes bi (fa, live) -> stacks_live stacks live ->
  let ram := (configure_from_ram ram_bytes).1 in
  (alloc_frame ram stacks fa = Panic <-> forall f, first_dynamic <= f < page_of ram -> f ∈ live) /\
  alloc_phys_frame ram stacks fa = alloc_frame ram stacks fa.
Proof.
  intros [Hr Hi]%frames_reachable_inv Hst ram. split; [|apply alloc_phys_frame_eq].
  destruct (alloc_frame_cases _ stacks _ _ Hr Hi Hst) as [(g & fb & Hg & H1 & H2 & _)|(Hg & H1 & H2)];
    fold ram in Hg; rewrite Hg.
  - split; [done|]. intros H. by apply H in H2.
  - split; [|done]. intros _ f Hf. destruct (proj2 (fi_part _ _ _ Hi f)) as [Hin|]; [|rewrite H1 in Hin|done].
    + fold ram in H2. lia.
    + by apply not_elem_of_nil in Hin.
Qed.

(** A contiguous request never panics, and when it is refused although its
    size and alignment are valid, no aligned run of that size exists below the
    limit, neither among the reusable frames nor above the bump pointer. *)
Theorem contiguous_refusal_exact ram_bytes bi fa live stacks pages align lim :
  frames_reachable ram_bytes bi (fa, live) -> stacks_live stacks live ->
  in_u32 pages -> in_u32 align -> in_u32 lim ->
  let ram := (configure_from_ram ram_bytes).1 in
  exists r fa', alloc_contiguous_frames_aligned_below ram stacks fa pages align lim = Ret (r, fa') /\
    (forall e, r = Err e -> 1 <= pages -> is_pow2 align -> no_room fa pages align (Z.min (page_of ram) lim)).
Proof.
  intros [Hr Hi]%frames_reachable_inv Hst Hp Hal Hl ram.
  destruct (contiguous_cases _ stacks _ _ Hr Hi Hst pages align lim Hp Hal Hl) as (r & fb & Hg & H).
  exists r, fb. split; [done|]. intros e -> Hp1 Hpw. destruct H as [_ [?|[?|?]]]; [lia|done..].
Qed.

(** The statistics are exact in every reachable state: the reported free
    memory is 4 KiB for each managed frame that is not handed out, nothing is
    cut off by the clamping, and free plus used equals the managed RAM. *)
Theorem memory_stats_exact ram_bytes bi fa live installed :
  frames_reachable ram_bytes bi (fa, live) ->
  let ram := (configure_from_ram ram_bytes).1 in
  let st := memory_stats ram installed fa in
  free_kib st = 4 * (page_of ram - first_dynamic - Z.of_nat (size live)) /\
  managed_kib st * 1024 = ram /\ free_kib st + used_kib st = managed_kib st.
Proof.
  intros [Hr Hi]%frames_reachable_inv ram. fold ram in Hr, Hi.
  destruct (ram_pages ram Hr) as [Hpg Hram]. pose proof (frames_inv_count _ _ _ Hi) as Hc.
  pose proof (fi_next _ _ _ Hi) as Hn. pose proof (zlen_nonneg (free_frames fa)).
  assert (0 <= first_dynamic) by by vm_compute.
  unfold memory_stats, saturating_sub, PAGE_SIZE in *. cbn [free_kib managed_kib used_kib].
  set (z := zlen (free_frames fa)) in *. set (n := next_free_page fa) in *. set (p := page_of ram) in *.
  clearbody z n p. rewrite Hram. replace (Z.max (p - n) 0) with (p - n) by lia.
  rewrite Z.min_l by lia. split_and!; mlia.
Qed.

(** ** Witnesses *)

Definition wit_bi : BootInfo := mkBootInfo BOOTINFO_MAGIC 0x02800000 16 1 0 128.
Definition wit_ram : Z := 128 * MIB.
(** After boot with an 8 KiB RAM disk, two frames were handed out and the
    first one returned. *)
Definition wit_fa : FrameAllocator := mkFA (first_dynamic + 4) [first_dynamic + 2].
Definition wit_live : gset Z := {[ first_dynamic; first_dynamic + 1; first_dynamic + 3 ]}.

Lemma no_stacks_live live : stacks_live [] live.
Proof. by intros f. Qed.

Lemma wit_frames_reachable : frames_reachable wit_ram wit_bi (wit_fa, wit_live).
Proof.
  split; [by vm_compute|]. split; [by vm_compute|]. exists (mkFA (first_dynamic + 2) []).
  split; [by vm_compute|].
  eapply rtc_l; [eapply (fs_alloc _ []); [apply no_stacks_live|by vm_compute]|].
  eapply rtc_l; [eapply (fs_alloc_phys _ []); [apply no_stacks_live|by vm_compute]|].
  eapply rtc_l; [apply (fs_free _ _ _ (first_dynamic + 2))|].
  match goal with |- rtc _ ?s _ => assert (s = (wit_fa, wit_live)) as -> by (by vm_compute) end.
  apply rtc_refl.
Qed.

Lemma frame_alloc_fresh_witness :
  alloc_frame (configure_from_ram wit_ram).1 [] wit_fa = Ret (first_dynamic + 2, mkFA (first_dynamic + 4) []) /\
  first_dynamic + 2 ∉ wit_live.
Proof.
  split; [by vm_compute|].
  apply (proj1 (frame_alloc_fresh wit_ram wit_bi wit_fa wit_live [] wit_frames_reachable (no_stacks_live _))
    (first_dynamic + 2) (mkFA (first_dynamic + 4) [])). left. by vm_compute.
Defined.

Lemma frame_alloc_exact_witness :
  alloc_frame (configure_from_ram wit_ram).1 [] wit_fa <> Panic.
Proof.
  intros Hp. pose proof (proj1 (proj1 (frame_alloc_exact wit_ram wit_bi wit_fa wit_live []
    wit_frames_reachable (no_stacks_live _))) Hp) as Hall. specialize (Hall (first_dynamic + 2) ltac:(by vm_compute)). by vm_compute in Hall.
Defined.

Lemma contiguous_refusal_exact_witness :
  exists r fa', alloc_contiguous_frames_aligned_below (configure_from_ram wit_ram).1 [] wit_fa 16 16 (first_dynamic + 8)
    = Ret (r, fa').
Proof.
  destruct (contiguous_refusal_exact wit_ram wit_bi wit_fa wit_live [] 16 16 (first_dynamic + 8)
    wit_frames_reachable (no_stacks_live _)) as (r & fa' & H & _); [by vm_compute..|]. eauto.
Defined.

Lemma memory_stats_exact_witness :
  free_kib (memory_stats (configure_from_ram wit_ram).1 128 wit_fa) = 4 * (32768 - first_dynamic - 3).
Proof.
  destruct (memory_stats_exact wit_ram wit_bi wit_fa wit_live 128 wit_frames_reachable) as [H _].
  rewrite H. by vm_compute.
Defined.
