(* ===== verification/Paging.v ===== *)
(** * Page directories and page tables

    Model of [PageDirectory], of the mapping operations of [PageManager] and
    of [copy_kernel_mappings] in [kernel/src/memory/paging.rs].  A directory is
    its array of 1024 entries; the page tables live in physical frames, and the
    model keeps the frames' contents in a store indexed by physical address.
    The kernel reaches a frame through its alias in the higher half, which
    exists below 0x3FC00000 only: every access checks that.  TLB maintenance
    ([invlpg], CR3 loads) has no effect on this state and is left out. *)

From S2P Require Import Prelude Frames.

(** Bits of page-table and page-directory entries. *)
Definition PRESENT : Z := 1.
Definition WRITABLE : Z := 2.
Definition USER : Z := 4.
Definition WRITE_THROUGH : Z := 8.
Definition CACHE_DISABLE : Z := 16.
Definition ACCESSED : Z := 32.
Definition DIRTY : Z := 64.
Definition PAT : Z := 128.
Definition DIR_PAGE_SIZE : Z := 128.

Definition KERNEL_MMIO_BASE : Z := 0xBF000000.
Definition KERNEL_MMIO_END : Z := KERNEL_OFFSET.

Definition has (entry bit : Z) : bool := negb (Z.land entry bit =? 0).

(** [entry & 0xFFFF_F000] and the index and offset fields of an address. *)
Definition table_of (entry : Z) : Z := Z.land entry 0xFFFFF000.
Definition pd_index_of (v : Z) : Z := Z.shiftr v 22.
Definition pt_index_of (v : Z) : Z := Z.land (Z.shiftr v 12) 0x3FF.

(** A directory together with physical memory and the frame allocator. *)
Record Vm : Type := mkVm {
  dir : list Z;
  mem : gmap Z (list Z);
  frames : FrameAllocator
}.
#[global] Instance Vm_eta : Eta Vm := fun v => mkVm (dir v) (mem v) (frames v).

Definition zero_page : list Z := replicate 1024 0.

(** [phys_to_virt]: the address at which the kernel accesses physical memory.
    Below [DIRECT_MAP_END] it is mapped to that memory ([direct_map_exact]).  The
    last 4 MiB of the address space hold the recursive directory entry, so the
    alias of a frame at [DIRECT_MAP_END] or above is not that frame but a page
    table ([direct_map_window_lost]): the model ends where the kernel makes such
    an access. *)
Definition phys_to_virt (phys : Z) : Z := wrapping_add 32 phys KERNEL_OFFSET.
Definition DIRECT_MAP_END : Z := 0x3FC00000.
Definition through_alias (phys : Z) : outcome () := assert (phys <? DIRECT_MAP_END).

(** Reading and writing entry [i] of the table at physical address [t]. *)
Definition pt_read (vm : Vm) (t i : Z) : outcome Z :=
  _ ← through_alias t;
  page ← unwrap (mem vm !! t);
  idx page i.
Definition pt_write (vm : Vm) (t i x : Z) : outcome Vm :=
  _ ← through_alias t;
  page ← unwrap (mem vm !! t);
  page ← upd page i x;
  Ret (vm <| mem := <[t := page]> (mem vm) |>).
(** Filling a whole frame, and zeroing it with [write_bytes]. *)
Definition with_frame (vm : Vm) (phys : Z) (page : list Z) : Vm := vm <| mem := <[phys := page]> (mem vm) |>.
Definition put_frame (vm : Vm) (phys : Z) (page : list Z) : outcome Vm :=
  _ ← through_alias phys;
  Ret (with_frame vm phys page).
Definition zero_frame (vm : Vm) (phys : Z) : outcome Vm := put_frame vm phys zero_page.
Definition set_pde (vm : Vm) (i x : Z) : outcome Vm :=
  d ← upd (dir vm) i x;
  Ret (vm <| dir := d |>).

Definition PageDirectory_new : list Z := replicate 1024 0.

(** [PageDirectory::map_large] *)
Definition map_large (d : list Z) (virtual_addr physical_addr flags : Z) : outcome (list Z) :=
  let pd_index := Z.shiftr virtual_addr 22 in
  let pde_value := Z.lor (Z.lor (Z.land physical_addr 0xFFC00000) flags) DIR_PAGE_SIZE in
  upd d pd_index pde_value.

(** [PageDirectory::setup_recursive] *)
Definition setup_recursive (d : list Z) (pd_phys : Z) : outcome (list Z) :=
  upd d 1023 (Z.lor (Z.lor pd_phys PRESENT) WRITABLE).

(** [PageDirectory::translate] *)
Definition translate (vm : Vm) (virtual_addr : Z) : outcome (option Z) :=
  let pd_index := pd_index_of virtual_addr in
  let pt_index := pt_index_of virtual_addr in
  let offset := Z.land virtual_addr 0xFFF in
  pd_entry ← idx (dir vm) pd_index;
  if negb (has pd_entry PRESENT) then Ret None
  else if has pd_entry DIR_PAGE_SIZE then
    Ret (Some (Z.lor (Z.land pd_entry 0xFFC00000) (Z.land virtual_addr 0x3FFFFF)))
  else
    pt_entry ← pt_read vm (table_of pd_entry) pt_index;
    if negb (has pt_entry PRESENT) then Ret None
    else Ret (Some (Z.lor (Z.land pt_entry 0xFFFFF000) offset)).

(** [PageDirectory::unmap] *)
Definition unmap (vm : Vm) (virtual_addr : Z) : outcome Vm :=
  let pd_index := pd_index_of virtual_addr in
  if ENTRIES <=? pd_index then Ret vm else
  let pt_index := pt_index_of virtual_addr in
  entry ← idx (dir vm) pd_index;
  if negb (has entry PRESENT) then Ret vm
  else if has entry DIR_PAGE_SIZE then set_pde vm pd_index 0
  else pt_write vm (table_of entry) pt_index 0.

(** [PageDirectory::map_existing] *)
Definition map_existing (vm : Vm) (virtual_page physical_page flags : Z) : outcome Vm :=
  let pd_index := Z.shiftr virtual_page 10 in
  let pt_index := Z.land virtual_page 0x3FF in
  pde ← idx (dir vm) pd_index;
  _ ← assert (has pde PRESENT && negb (has pde DIR_PAGE_SIZE));
  pt_write vm (table_of pde) pt_index (Z.lor (Z.shiftl physical_page 12) flags).

(** [PageDirectory::set_user_page_writable] *)
Definition set_user_page_writable (vm : Vm) (virt_addr : Z) (writable : bool) : outcome Vm :=
  let page := Z.land virt_addr (not_u 32 0xFFF) in
  let vpage := Z.shiftr page 12 in
  let pd_idx := Z.shiftr vpage 10 in
  let pt_idx := Z.land vpage 0x3FF in
  pde ← idx (dir vm) pd_idx;
  if negb (has pde PRESENT) || has pde DIR_PAGE_SIZE then Ret vm else
  pte ← pt_read vm (table_of pde) pt_idx;
  if negb (has pte PRESENT) then Ret vm
  else if writable then pt_write vm (table_of pde) pt_idx (Z.lor pte WRITABLE)
  else pt_write vm (table_of pde) pt_idx (Z.land pte (not_u 32 WRITABLE)).

Section WithFrames.
  (** [detected_ram_bytes()] and the kernel stacks the allocator checks. *)
  Variables (ram : Z) (stacks : list (option Z)).

(** [PageDirectory::alloc_frame], through the global allocator. *)
Definition vm_alloc_frame (vm : Vm) : outcome (Z * Vm) :=
  '(f, fa) ← alloc_frame ram stacks (frames vm);
  Ret (f, vm <| frames := fa |>).

(** [PageDirectory::ensure_page_table] *)
Definition ensure_page_table (vm : Vm) (pd_index : Z) : outcome (Z * Vm) :=
  pde ← idx (dir vm) pd_index;
  vm ← (if negb (has pde PRESENT) || has pde DIR_PAGE_SIZE then
          '(pt_frame, vm) ← vm_alloc_frame vm;
          let pt_phys := Z.shiftl pt_frame 12 in
          vm ← zero_frame vm pt_phys;
          set_pde vm pd_index (Z.lor (Z.lor pt_phys PRESENT) WRITABLE)
        else Ret vm);
  pde ← idx (dir vm) pd_index;
  Ret (table_of pde, vm).

(** [PageDirectory::map] *)
Definition map (vm : Vm) (virtual_page physical_page flags : Z) : outcome Vm :=
  let pd_index := Z.shiftr virtual_page 10 in
  let pt_index := Z.land virtual_page 0x3FF in
  pde ← idx (dir vm) pd_index;
  vm ← (if negb (has pde PRESENT) || has pde DIR_PAGE_SIZE then
          '(pt_frame, vm) ← vm_alloc_frame vm;
          let pt_phys := Z.shiftl pt_frame 12 in
          vm ← zero_frame vm pt_phys;
          set_pde vm pd_index (Z.lor (Z.lor (Z.lor pt_phys PRESENT) WRITABLE) USER)
        else Ret vm);
  pde ← idx (dir vm) pd_index;
  pt_write vm (table_of pde) pt_index (Z.lor (Z.shiftl physical_page 12) flags).

(** The first half of [alloc_and_map_user_page]: the directory entry gets a
    page table (a large page is replaced) and the user bit. *)
Definition user_table (vm : Vm) (pd_idx : Z) : outcome Vm :=
  pde ← idx (dir vm) pd_idx;
  if (pde =? 0) || negb (has pde PRESENT) || has pde DIR_PAGE_SIZE then
    '(pt_frame, vm) ← vm_alloc_frame vm;
    let pt_phys := Z.shiftl pt_frame 12 in
    vm ← set_pde vm pd_idx (Z.lor (Z.lor (Z.lor pt_phys PRESENT) WRITABLE) USER);
    zero_frame vm pt_phys
  else set_pde vm pd_idx (Z.lor pde USER).

(** [PageDirectory::alloc_and_map_user_page] *)
Definition alloc_and_map_user_page (vm : Vm) (virt_addr : Z) : outcome Vm :=
  let vpage := Z.shiftr virt_addr 12 in
  let pd_idx := Z.shiftr vpage 10 in
  let pt_idx := Z.land vpage 0x3FF in
  vm ← user_table vm pd_idx;
  pde ← idx (dir vm) pd_idx;
  let pt_phys := table_of pde in
  existing ← pt_read vm pt_phys pt_idx;
  if has existing PRESENT then pt_write vm pt_phys pt_idx (Z.lor existing USER)
  else
    '(frame, vm) ← vm_alloc_frame vm;
    vm ← zero_frame vm (Z.shiftl frame 12);
    pt_write vm pt_phys pt_idx
      (Z.lor (Z.lor (Z.lor (Z.lor (Z.shiftl frame 12) PRESENT) WRITABLE) USER) DIRTY).

(** The 1024 entries that replace a large page: the same addresses, with the
    attributes of the large entry. *)
Definition split_entry (old_pde index : Z) : Z :=
  let base := Z.land old_pde 0xFFC00000 in
  let inherited := Z.lor (Z.land old_pde 0x17F) (Z.shiftr (Z.land old_pde (Z.shiftl 1 12)) 5) in
  Z.lor (base + index * PAGE_SIZE) inherited.

Definition split_table (old_pde : Z) : list Z := split_entry old_pde <$> seqZ 0 ENTRIES.

(** The first half of an iteration of [map_physical_range]: the directory
    entry gets a page table; a large page is split into one that maps the same. *)
Definition kernel_table (vm : Vm) (pd_idx : Z) : outcome Vm :=
  old_pde ← idx (dir vm) pd_idx;
  if negb (has old_pde PRESENT) || has old_pde DIR_PAGE_SIZE then
    '(pt_frame, vm) ← vm_alloc_frame vm;
    let pt_phys := Z.shiftl pt_frame 12 in
    let table := if has old_pde PRESENT then split_table old_pde else zero_page in
    vm ← put_frame vm pt_phys table;
    set_pde vm pd_idx (Z.lor (Z.lor pt_phys (Z.lor PRESENT WRITABLE)) (Z.land old_pde USER))
  else Ret vm.

(** One page of [PageManager::map_physical_range]. *)
Definition map_physical_page (vm : Vm) (virt phys flags : Z) : outcome Vm :=
  let vpage := Z.shiftr virt 12 in
  let ppage := Z.shiftr phys 12 in
  let pd_idx := Z.shiftr vpage 10 in
  let pt_idx := Z.land vpage 0x3FF in
  vm ← kernel_table vm pd_idx;
  pde ← idx (dir vm) pd_idx;
  pt_write vm (table_of pde) pt_idx (Z.lor (Z.shiftl ppage 12) flags).

Fixpoint map_physical_loop (n : nat) (vm : Vm) (virt phys flags : Z) : outcome Vm :=
  match n with
  | O => Ret vm
  | S n =>
      vm ← map_physical_page vm virt phys flags;
      map_physical_loop n vm (virt + PAGE_SIZE) (phys + PAGE_SIZE) flags
  end.

(** [PageManager::map_physical_range]; the additions of the loop are checked
    once, on its last page. *)
Definition map_physical_range (vm : Vm) (phys_start size virt_start flags : Z) : outcome Vm :=
  up ← add_u 32 size PAGE_SIZE;
  let pages := (up - 1) / PAGE_SIZE in
  _ ← add_u 32 virt_start (Z.max 0 ((pages - 1) * PAGE_SIZE));
  _ ← add_u 32 phys_start (Z.max 0 ((pages - 1) * PAGE_SIZE));
  map_physical_loop (Z.to_nat pages) vm virt_start phys_start flags.
End WithFrames.

(** The loop of [copy_kernel_mappings] over one index range. *)
Fixpoint share_range (n : nat) (kernel_pd task_dir : list Z) (i : Z) : outcome (list Z) :=
  match n with
  | O => Ret task_dir
  | S n =>
      pde ← idx kernel_pd i;
      task_dir ← (if has pde PRESENT then upd task_dir i pde else Ret task_dir);
      share_range n kernel_pd task_dir (i + 1)
  end.

(** [copy_kernel_mappings], given [large_page_count()] and the kernel's own
    directory ([None] while [KERNEL_PD_PHYS] is 0). *)
Definition copy_kernel_mappings (large_pages : Z) (kernel_pd : option (list Z))
    (task_dir : list Z) (task_pd_phys : Z) : outcome (list Z) :=
  match kernel_pd with
  | None => Ret task_dir
  | Some kernel_pd =>
      task_dir ← share_range (Z.to_nat large_pages) kernel_pd task_dir 0;
      let mmio_first := Z.shiftr KERNEL_MMIO_BASE 22 in
      let mmio_end := Z.shiftr KERNEL_MMIO_END 22 in
      task_dir ← share_range (Z.to_nat (mmio_end - mmio_first)) kernel_pd task_dir mmio_first;
      task_dir ← share_range (1023 - 768) kernel_pd task_dir 768;
      upd task_dir 1023 (Z.lor (Z.lor task_pd_phys PRESENT) WRITABLE)
  end.

(** The mapping loop of [PageManager::init]: identity and higher half. *)
Fixpoint init_large_pages (n : nat) (d : list Z) (i : Z) : outcome (list Z) :=
  match n with
  | O => Ret d
  | S n =>
      let phys := i * 0x400000 in
      let flags := Z.lor (Z.lor (Z.lor PRESENT WRITABLE) ACCESSED) DIR_PAGE_SIZE in
      d ← map_large d phys phys flags;
      high ← add_u 32 KERNEL_OFFSET phys;
      d ← map_large d high phys flags;
      init_large_pages n d (i + 1)
  end.

(** The directory [PageManager::init] builds. *)
Definition init_dir (large_pages pd_phys : Z) (d : list Z) : outcome (list Z) :=
  d ← init_large_pages (Z.to_nat large_pages) d 0;
  setup_recursive d pd_phys.

Arguments split_table : simpl never.
Arguments zero_page : simpl never.

(** ** Bit fields of entries and addresses *)

Lemma has_testbit e k : 0 <= k -> has e (2 ^ k) = Z.testbit e k.
Proof.
  intros Hk. unfold has. replace (2 ^ k) with (Z.shiftl 1 k) by (by rewrite Z.shiftl_1_l).
  destruct (Z.testbit e k) eqn:Hb.
  - destruct (Z.eqb_spec (Z.land e (Z.shiftl 1 k)) 0) as [E|]; [|done].
    apply (f_equal (fun z => Z.testbit z k)) in E.
    rewrite Z.land_spec, Z.shiftl_spec, Z.sub_diag, Hb, Z.bits_0 in E by lia. done.
  - rewrite (proj2 (Z.eqb_eq _ _)); [done|]. apply Z.bits_inj'. intros n Hn.
    rewrite Z.land_spec, Z.shiftl_spec, Z.bits_0 by lia.
    destruct (Z.eq_dec n k) as [->|]; [by rewrite Hb|].
    destruct (Z.lt_ge_cases n k); [rewrite (Z.testbit_neg_r 1), andb_false_r by lia; done|].
    rewrite (Z.bits_above_log2 1), andb_false_r by (simpl; lia). done.
Qed.

(** The attribute bits the kernel tests, as powers of two. *)
Definition attr (b : Z) : Prop := exists k, 0 <= k < 12 /\ b = 2 ^ k.
Lemma attr_PRESENT : attr PRESENT. Proof. by exists 0. Qed.
Lemma attr_WRITABLE : attr WRITABLE. Proof. by exists 1. Qed.
Lemma attr_USER : attr USER. Proof. by exists 2. Qed.
Lemma attr_PAGE_SIZE : attr DIR_PAGE_SIZE. Proof. by exists 7. Qed.
#[local] Hint Resolve attr_PRESENT attr_WRITABLE attr_USER attr_PAGE_SIZE : felix.

Lemma has_lor x y b : attr b -> has (Z.lor x y) b = has x b || has y b.
Proof. intros (k & Hk & ->). rewrite !has_testbit, Z.lor_spec by lia. done. Qed.

Lemma has_land x y b : attr b -> has (Z.land x y) b = has x b && has y b.
Proof. intros (k & Hk & ->). rewrite !has_testbit, Z.land_spec by lia. done. Qed.

Lemma has_aligned a b : a mod 4096 = 0 -> attr b -> has a b = false.
Proof.
  intros Ha (k & Hk & ->). rewrite has_testbit by lia.
  apply Z.mod_divide in Ha as [c ->]; [|lia].
  change 4096 with (2 ^ 12). apply Z.mul_pow2_bits_low. lia.
Qed.

Lemma lor_add a b n : 0 <= n -> a mod 2 ^ n = 0 -> 0 <= b < 2 ^ n -> Z.lor a b = a + b.
Proof.
  intros Hn Ha Hb. assert (Z.land a b = 0) as Hl.
  { apply Z.bits_inj'. intros k Hk. rewrite Z.land_spec, Z.bits_0.
    apply Z.mod_divide in Ha as [c ->]; [|lia]. destruct (Z.lt_ge_cases k n).
    - by rewrite Z.mul_pow2_bits_low by lia.
    - destruct (Z.eq_dec b 0) as [->|]; [by rewrite Z.bits_0, andb_false_r|].
      rewrite (Z.bits_above_log2 b), andb_false_r; [done|lia|].
      apply Z.log2_lt_pow2; [lia|]. eapply Z.lt_le_trans; [apply Hb|apply Z.pow_le_mono_r; lia]. }
  rewrite Z.add_nocarry_lxor by done. by rewrite Z.lxor_lor by done.
Qed.

Lemma table_of_sub e : in_u32 e -> table_of e = e - e mod 4096.
Proof. intros He. apply (align_down_pow2 32 e 4096); [by exists 12|lia..|exact He]. Qed.

Lemma large_base_sub e : in_u32 e -> Z.land e 0xFFC00000 = e - e mod 0x400000.
Proof. intros He. apply (align_down_pow2 32 e 0x400000); [by exists 22|lia..|exact He]. Qed.

Lemma table_of_range e : in_u32 e -> in_u32 (table_of e) /\ table_of e mod 4096 = 0.
Proof.
  intros He. rewrite table_of_sub by done. unfold in_u in *. split; [|mlia].
  pose proof (Z.mod_pos_bound e 4096 ltac:(lia)). split; [|lia]. mlia.
Qed.

(** An entry made of a page address and attribute bits. *)
Lemma entry_table a fl : a mod 4096 = 0 -> in_u32 a -> 0 <= fl < 4096 ->
  table_of (Z.lor a fl) = a /\ in_u32 (Z.lor a fl).
Proof.
  intros Ha Hu Hf. unfold in_u in *. rewrite (lor_add a fl 12) by (try done; lia).
  assert (in_u 32 (a + fl)) as Hin by (unfold in_u; mlia).
  split; [|done]. rewrite table_of_sub by done. mlia.
Qed.

Lemma entry_has a fl b : a mod 4096 = 0 -> attr b -> has (Z.lor a fl) b = has fl b.
Proof. intros Ha Hb. by rewrite has_lor, (has_aligned a) by done. Qed.

(** Setting or clearing attribute bits leaves the address alone. *)
Lemma table_of_lor_attr e fl : 0 <= fl < 4096 -> table_of (Z.lor e fl) = table_of e.
Proof.
  intros Hf. unfold table_of. rewrite Z.land_lor_distr_l.
  assert (Z.land fl 0xFFFFF000 = 0) as ->; [|by rewrite Z.lor_0_r].
  assert (table_of (Z.lor 0 fl) = 0) as Ht by (apply entry_table; [done|done|done]).
  unfold table_of in Ht. by rewrite Z.lor_0_l in Ht.
Qed.

Lemma shiftl_page f : 0 <= f < 2 ^ 20 ->
  Z.shiftl f 12 = f * 4096 /\ Z.shiftl f 12 mod 4096 = 0 /\ in_u32 (Z.shiftl f 12).
Proof.
  intros Hf. rewrite Z.shiftl_mul_pow2 by lia. change (2 ^ 12) with 4096. unfold in_u.
  split_and!; [done|apply Z.mod_mul; lia|lia..].
Qed.

Lemma addr_fields v : in_u32 v ->
  pd_index_of v = v / 0x400000 /\ pt_index_of v = v / 4096 mod 1024 /\ Z.land v 0xFFF = v mod 4096 /\
  Z.land v 0x3FFFFF = v mod 0x400000.
Proof.
  intros Hv. unfold pd_index_of, pt_index_of. rewrite !Z.shiftr_div_pow2 by lia.
  change 0x3FF with (Z.ones 10). change 0xFFF with (Z.ones 12). change 0x3FFFFF with (Z.ones 22).
  rewrite !Z.land_ones by lia. done.
Qed.

(** ** What the MMU sees

    The i386 two-level walk: the page address with the effective write and
    user rights, which both levels have to grant. *)
Definition decode (pde pte : Z) : option (Z * bool * bool) :=
  if has pte PRESENT then
    Some (table_of pte, has pde WRITABLE && has pte WRITABLE, has pde USER && has pte USER)
  else None.

Definition page_view (vm : Vm) (i j : Z) : option (Z * bool * bool) :=
  e ← get (dir vm) i;
  if negb (has e PRESENT) then None
  else if has e DIR_PAGE_SIZE then
    Some (Z.land e 0xFFC00000 + j * 4096, has e WRITABLE, has e USER)
  else t ← mem vm !! table_of e; x ← get t j; decode e x.

Definition hw_walk (vm : Vm) (v : Z) : option (Z * bool * bool) :=
  '(p, w, u) ← page_view vm (v / 0x400000) (v / 4096 mod 1024);
  Some (p + v mod 4096, w, u).

(** Addresses below the recursive window. *)
Definition mapped_space (v : Z) : Prop := 0 <= v < 0xFFC00000.
Definition slot_ok (i : Z) : Prop := 0 <= i < 1023.
Definition index_ok (j : Z) : Prop := 0 <= j < 1024.

(** A directory entry that points to a page table. *)
Definition is_small (e : Z) : Prop := has e PRESENT = true /\ has e DIR_PAGE_SIZE = false.

Definition table_ok (t : list Z) : Prop := zlen t = 1024 /\ Forall (in_u 32) t.

(** Well-formed: every table an entry points to is a page table in a
    handed-out frame, and no two entries share one. *)
Record vm_ok (ram : Z) (vm : Vm) (live : gset Z) : Prop := {
  vo_ram : ram_ok ram;
  vo_window : ram <= DIRECT_MAP_END;
  vo_dir : table_ok (dir vm);
  vo_frames : frames_inv ram (frames vm) live;
  vo_tables : forall i e, slot_ok i -> get (dir vm) i = Some e -> is_small e ->
    exists t, mem vm !! table_of e = Some t /\ table_ok t /\ table_of e / 4096 ∈ live;
  vo_inj : forall i i' e e', slot_ok i -> slot_ok i' -> get (dir vm) i = Some e -> get (dir vm) i' = Some e' ->
    is_small e -> is_small e' -> table_of e = table_of e' -> i = i'
}.

Lemma table_ok_get t j : table_ok t -> index_ok j -> exists x, get t j = Some x /\ in_u32 x.
Proof.
  intros [Hl Hf] Hj. destruct (get_in_range t j) as [x Hx]; [unfold index_ok in Hj; lia|].
  exists x. split; [done|]. unfold get in Hx. destruct (j <? 0); [done|].
  by apply (Forall_lookup_1 _ _ _ _ Hf Hx).
Qed.

Lemma table_ok_insert t j x : table_ok t -> in_u32 x -> table_ok (<[Z.to_nat j := x]> t).
Proof. intros [Hl Hf] Hx. split; [by rewrite zlen_insert|by apply Forall_insert]. Qed.

Lemma zero_page_ok : table_ok zero_page.
Proof. split; [done|]. apply Forall_replicate. by unfold in_u. Qed.

Lemma get_zero_page j : index_ok j -> get zero_page j = Some 0.
Proof.
  unfold index_ok, get. intros Hj. zcase; [lia|]. apply lookup_replicate_2. lia.
Qed.

Lemma slot_index i : slot_ok i -> index_ok i.
Proof. unfold slot_ok, index_ok. lia. Qed.
#[local] Hint Resolve slot_index : felix.

Lemma small_iff e : negb (has e PRESENT) || has e DIR_PAGE_SIZE = false <-> is_small e.
Proof. unfold is_small. destruct (has e PRESENT), (has e DIR_PAGE_SIZE); naive_solver. Qed.

(** Managed frames that are not handed out. *)
Definition room (ram : Z) (live : gset Z) : Z := page_of ram - first_dynamic - Z.of_nat (size live).

Section Views.
  Variables (ram : Z) (vm : Vm) (live : gset Z).
  Hypothesis (Hok : vm_ok ram vm live).

Lemma dir_get i : slot_ok i -> exists e, get (dir vm) i = Some e /\ in_u32 e.
Proof using Hok. intros Hi. apply table_ok_get; [apply Hok|auto with felix]. Qed.

(** Every frame in use has an alias. *)
Lemma live_window f : f ∈ live -> f * 4096 < DIRECT_MAP_END.
Proof using Hok.
  intros Hf. destruct (ram_pages ram (vo_ram _ _ _ Hok)) as [_ Hp]. pose proof (vo_window _ _ _ Hok). destruct (vo_frames _ _ _ Hok) as [Hn _ Hpart _].
  pose proof (proj1 (Hpart f) (or_intror Hf)). unfold PAGE_SIZE in Hp. lia.
Qed.
Lemma alias_live f : f ∈ live -> through_alias (f * 4096) = Ret ().
Proof using Hok. intros Hf%live_window. unfold through_alias. by rewrite (proj2 (Z.ltb_lt _ _) Hf). Qed.
Lemma alias_table i e : slot_ok i -> get (dir vm) i = Some e -> is_small e -> through_alias (table_of e) = Ret ().
Proof using Hok.
  intros Hi He Hsm. destruct (vo_tables _ _ _ Hok i e Hi He Hsm) as (_ & _ & _ & Hl). destruct (dir_get i Hi) as (e' & He' & Hu).
  rewrite He in He'. injection He' as <-. destruct (table_of_range e Hu) as [_ Hm]. apply alias_live in Hl. by replace (table_of e / 4096 * 4096) with (table_of e) in Hl by mlia.
Qed.

(** [translate] is the MMU's walk. *)
Lemma translate_walk v : mapped_space v ->
  translate vm v = Ret ((fun '(p, _, _) => p) <$> hw_walk vm v).
Proof using Hok.
  unfold mapped_space. intros Hv.
  destruct (addr_fields v) as (Hi & Hj & Ho & Hl); [unfold in_u; lia|].
  assert (slot_ok (v / 0x400000)) as Hsl by (unfold slot_ok; split; [mlia|]; apply Z.div_lt_upper_bound; lia).
  assert (index_ok (v / 4096 mod 1024)) as Hix by (unfold index_ok; mlia).
  destruct (dir_get _ Hsl) as (e & He & Heu).
  unfold translate, hw_walk, page_view. rewrite Hi, Hj, Ho, Hl. unfold idx at 1. rewrite He. simpl.
  destruct (has e PRESENT) eqn:Hpr; simpl; [|done]. destruct (has e DIR_PAGE_SIZE) eqn:Hla; simpl.
  - do 2 f_equal. rewrite large_base_sub by done. rewrite (lor_add _ _ 22); [mlia|lia|mlia|mlia].
  - destruct (vo_tables _ _ _ Hok _ _ Hsl He (conj Hpr Hla)) as (t & Ht & Htok & _).
    destruct (table_ok_get t _ Htok Hix) as (x & Hx & Hxu).
    unfold pt_read, idx. rewrite (alias_table _ _ Hsl He (conj Hpr Hla)), bind_Ret_l, Ht. simpl. rewrite Hx. simpl. unfold decode.
    destruct (has x PRESENT); simpl; [|done]. do 2 f_equal.
    destruct (table_of_range x Hxu) as [_ Hm]. apply (lor_add _ _ 12); [lia|exact Hm|mlia].
Qed.

(** Writing one entry of a page table changes one page. *)
Lemma pte_write_ok i e j x :
  slot_ok i -> get (dir vm) i = Some e -> is_small e -> index_ok j -> in_u32 x ->
  exists vm', pt_write vm (table_of e) j x = Ret vm' /\ vm_ok ram vm' live /\
    dir vm' = dir vm /\ frames vm' = frames vm /\
    (forall a, a <> table_of e -> mem vm' !! a = mem vm !! a) /\
    (forall i' j', slot_ok i' -> index_ok j' ->
       page_view vm' i' j' = if (i' =? i) && (j' =? j) then decode e x else page_view vm i' j').
Proof using Hok.
  intros Hi He Hsm Hj Hx. pose proof Hok as [Hr Hwin Hd Hf Htb Hinj].
  destruct (Htb i e Hi He Hsm) as (t & Ht & Htok & Htl).
  assert (0 <= j < zlen t) as Hjl by (destruct Htok as [-> _]; exact Hj).
  unfold pt_write. rewrite (alias_table i e Hi He Hsm), bind_Ret_l, Ht. simpl. rewrite upd_in_range by done. simpl.
  eexists. split; [done|]. simpl. split; [|split_and!; [done..| |]].
  - constructor; simpl; try done. intros i' e' Hi' He' Hsm'.
    destruct (decide (table_of e' = table_of e)) as [->|Hne].
    + rewrite lookup_insert_eq. eexists. split_and!; [done|by apply table_ok_insert|done].
    + rewrite lookup_insert_ne by done. by apply (Htb i').
  - intros a Ha. by rewrite lookup_insert_ne.
  - intros i' j' Hi' Hj'. unfold page_view. simpl. destruct (dir_get i' Hi') as (e' & He' & _).
    rewrite He'. simpl. destruct (Z.eqb_spec i' i) as [->|Hne]; simpl.
    + rewrite He in He'. injection He' as <-. destruct Hsm as [Hp Hl]. rewrite Hp, Hl. simpl.
      rewrite lookup_insert_eq, Ht. simpl. rewrite get_insert by done. rewrite Z.eqb_sym.
      by destruct (j' =? j).
    + destruct (has e' PRESENT) eqn:Hp'; simpl; [|done]. destruct (has e' DIR_PAGE_SIZE) eqn:Hl'; [done|].
      rewrite lookup_insert_ne; [done|]. intros Heq. apply Hne. symmetry. by eapply (Hinj i i' e e').
Qed.
(** The allocator refuses only when no managed frame is left. *)
Lemma vm_alloc_panic stacks :
  stacks_live stacks live -> vm_alloc_frame ram stacks vm = Panic -> room ram live = 0.
Proof using Hok.
  intros Hst Ha. unfold vm_alloc_frame in Ha.
  destruct (alloc_frame_cases ram stacks (frames vm) live (vo_ram _ _ _ Hok) (vo_frames _ _ _ Hok) Hst)
    as [(g & fa & Hg & _)|(_ & Hfree & Hnext)]; [by rewrite Hg in Ha|].
  pose proof (frames_inv_count _ _ _ (vo_frames _ _ _ Hok)) as Hc. rewrite Hfree, Hnext in Hc.
  unfold room, zlen in *. simpl in Hc. lia.
Qed.

(** A frame from the allocator; the rest of the state is untouched. *)
Lemma vm_alloc_ok stacks f vm1 :
  stacks_live stacks live -> vm_alloc_frame ram stacks vm = Ret (f, vm1) ->
  f ∉ live /\ 0 <= f < 2 ^ 18 /\ exists fa, vm1 = vm <| frames := fa |> /\ frames_inv ram fa (live ∪ {[f]}).
Proof using Hok.
  intros Hst Ha. unfold vm_alloc_frame in Ha.
  destruct (alloc_frame_cases ram stacks (frames vm) live (vo_ram _ _ _ Hok) (vo_frames _ _ _ Hok) Hst)
    as [(g & fa & Hg & Hfl & Hb & Hi)|[Hg _]]; rewrite Hg in Ha; [|done].
  simpl in Ha. injection Ha as <- <-. destruct (ram_pages ram (vo_ram _ _ _ Hok)) as [Hpg _].
  assert (0 <= first_dynamic) by by vm_compute. split; [done|]. split; [lia|]. by exists fa.
Qed.

(** A fresh frame is filled through its alias. *)
Lemma put_fresh stacks f vm1 vm2 page : stacks_live stacks live -> vm_alloc_frame ram stacks vm = Ret (f, vm1) ->
  put_frame vm2 (Z.shiftl f 12) page = Ret (with_frame vm2 (Z.shiftl f 12) page).
Proof using Hok.
  intros Hst Ha. destruct (vm_alloc_ok stacks f vm1 Hst Ha) as (_ & Hf & fa & _ & [Hn _ Hpart _]).
  assert (f ∈ live ∪ {[f]}) as Hin by set_solver. pose proof (proj1 (Hpart f) (or_intror Hin)) as Hb. destruct (ram_pages ram (vo_ram _ _ _ Hok)) as [_ Hp]. pose proof (vo_window _ _ _ Hok).
  unfold put_frame, through_alias. rewrite (proj2 (Z.ltb_lt _ _)); [done|]. rewrite Z.shiftl_mul_pow2 by lia. change (2 ^ 12) with 4096. unfold PAGE_SIZE in Hp. lia.
Qed.

(** Pointing a directory entry at a new table in a fresh frame. *)
Lemma table_install_ok stacks f vm1 i e fl t :
  stacks_live stacks live -> vm_alloc_frame ram stacks vm = Ret (f, vm1) ->
  slot_ok i -> get (dir vm) i = Some e -> table_ok t ->
  0 <= fl < 4096 -> has fl PRESENT = true -> has fl DIR_PAGE_SIZE = false ->
  let pde := Z.lor (Z.shiftl f 12) fl in
  exists vm2, set_pde (with_frame vm1 (Z.shiftl f 12) t) i pde = Ret vm2 /\
    vm_ok ram vm2 (live ∪ {[f]}) /\ get (dir vm2) i = Some pde /\ is_small pde /\
    table_of pde = Z.shiftl f 12 /\ dir vm2 = <[Z.to_nat i := pde]> (dir vm) /\
    (forall i' j', slot_ok i' -> index_ok j' ->
       page_view vm2 i' j' = if i' =? i then (x ← get t j'; decode pde x) else page_view vm i' j').
Proof using Hok.
  intros Hst Ha Hi He Ht Hfl Hp Hl pde. destruct (vm_alloc_ok stacks f vm1 Hst Ha) as (Hf & Hfb & fa & -> & Hfi).
  destruct (shiftl_page f ltac:(lia)) as (Hsh & Hal & Hu).
  destruct (entry_table (Z.shiftl f 12) fl Hal Hu Hfl) as [Htab Hpu]. fold pde in Htab, Hpu.
  assert (is_small pde) as Hsm by (split; unfold pde; rewrite entry_has by auto with felix; done).
  pose proof Hok as [Hr Hwin Hd _ Htb Hinj].
  assert (0 <= i < zlen (dir vm)) as Hil by (destruct Hd as [-> _]; unfold slot_ok in Hi; lia).
  assert (forall i' e', slot_ok i' -> get (dir vm) i' = Some e' -> is_small e' -> table_of e' <> Z.shiftl f 12) as Hsep.
  { intros i' e' Hi' He' Hsm' Heq. destruct (Htb i' e' Hi' He' Hsm') as (_ & _ & _ & Hl').
    apply Hf. rewrite Heq, Hsh, Z.div_mul in Hl' by lia. done. }
  unfold set_pde. simpl. rewrite upd_in_range by done. simpl.
  eexists. split; [done|]. simpl. split; [|split_and!; try done; [by apply get_insert_eq|]].
  - constructor; simpl; [done|done|by apply table_ok_insert|done| |].
    + intros i' e' Hi'. rewrite get_insert by done. destruct (Z.eqb_spec i i') as [<-|Hne].
      * intros [= <-] _. rewrite Htab, lookup_insert_eq. exists t. split_and!; try done.
        rewrite Hsh, Z.div_mul by lia. set_solver.
      * intros He' Hsm'. rewrite lookup_insert_ne by (intros Hx; by eapply Hsep).
        destruct (Htb i' e' Hi' He' Hsm') as (t' & ? & ? & ?). exists t'. split_and!; try done. set_solver.
    + intros i1 i2 e1 e2 H1 H2. rewrite !get_insert by done.
      destruct (Z.eqb_spec i i1) as [<-|], (Z.eqb_spec i i2) as [<-|]; try done.
      * intros [= <-] He2 _ Hs2. rewrite Htab. intros Hx. exfalso. by eapply (Hsep i2 e2).
      * intros He1 [= <-] Hs1 _. rewrite Htab. intros Hx. exfalso. by eapply (Hsep i1 e1).
      * by apply Hinj.
  - intros i' j' Hi' Hj'. unfold page_view. simpl. rewrite get_insert by done.
    rewrite (Z.eqb_sym i' i). destruct (Z.eqb_spec i i') as [<-|Hne]; simpl.
    + destruct Hsm as [-> ->]. simpl. by rewrite Htab, lookup_insert_eq.
    + destruct (dir_get i' Hi') as (e' & He' & _). rewrite He'. simpl.
      destruct (has e' PRESENT) eqn:Hp'; [|done]. destruct (has e' DIR_PAGE_SIZE) eqn:Hl'; [done|]. simpl.
      rewrite lookup_insert_ne; [done|]. intros Hx. by eapply (Hsep i' e').
Qed.
(** Changing only attribute bits of a directory entry. *)
Lemma pde_attr_ok i e e' :
  slot_ok i -> get (dir vm) i = Some e -> is_small e -> is_small e' -> table_of e' = table_of e -> in_u32 e' ->
  exists vm', set_pde vm i e' = Ret vm' /\ vm_ok ram vm' live /\ get (dir vm') i = Some e' /\
    mem vm' = mem vm /\ frames vm' = frames vm /\
    (forall i' j', slot_ok i' -> index_ok j' -> page_view vm' i' j' =
       if i' =? i then (t ← mem vm !! table_of e; x ← get t j'; decode e' x) else page_view vm i' j').
Proof using Hok.
  intros Hi He Hsm Hsm' Htab Hu. pose proof Hok as [Hr Hwin Hd Hf Htb Hinj].
  assert (0 <= i < zlen (dir vm)) as Hil by (destruct Hd as [-> _]; unfold slot_ok in Hi; lia).
  unfold set_pde. rewrite upd_in_range by done. simpl. eexists. split; [done|]. simpl.
  split; [|split_and!; try done; [by apply get_insert_eq|]].
  - constructor; simpl; [done|done|by apply table_ok_insert|done| |].
    + intros i' x Hi'. rewrite get_insert by done. destruct (Z.eqb_spec i i') as [<-|Hne]; [|by apply (Htb i')].
      intros [= <-] _. rewrite Htab. by apply (Htb i).
    + intros i1 i2 e1 e2 H1 H2. rewrite !get_insert by done.
      destruct (Z.eqb_spec i i1) as [<-|], (Z.eqb_spec i i2) as [<-|]; try done.
      * intros [= <-] He2 _ Hs2. rewrite Htab. by apply (Hinj i i2 e e2).
      * intros He1 [= <-] Hs1 _. rewrite Htab. by apply (Hinj i1 i e1 e).
      * by apply Hinj.
  - intros i' j' Hi' Hj'. unfold page_view. simpl. rewrite get_insert by done. rewrite (Z.eqb_sym i' i).
    destruct (Z.eqb_spec i i') as [<-|Hne]; [|done]. simpl. destruct Hsm' as [-> ->]. by rewrite Htab.
Qed.
End Views.

Lemma stacks_live_mono stacks (live live' : gset Z) :
  live ⊆ live' -> stacks_live stacks live -> stacks_live stacks live'.
Proof. intros Hs Hst f Hf. by apply Hs, Hst. Qed.

(** ** Splitting a large page *)

Lemma split_inherited old b : attr b -> b <> DIR_PAGE_SIZE -> has 0x17F b = true ->
  has (Z.lor (Z.land old 0x17F) (Z.shiftr (Z.land old (Z.shiftl 1 12)) 5)) b = has old b.
Proof.
  intros Hb Hne H17. rewrite has_lor, has_land, H17, andb_true_r by done.
  destruct Hb as (k & Hk & ->). rewrite (has_testbit _ k) by lia.
  rewrite (has_testbit (Z.shiftr _ _)), Z.shiftr_spec, Z.land_spec, Z.shiftl_spec by lia.
  destruct (Z.eq_dec k 7) as [->|]; [done|].
  assert (Z.testbit 1 (k + 5 - 12) = false) as ->; [|by rewrite andb_false_r, orb_false_r].
  destruct (Z.lt_ge_cases (k + 5 - 12) 0); [by rewrite Z.testbit_neg_r|].
  apply Z.bits_above_log2; simpl; lia.
Qed.

Lemma split_inherited_range old :
  in_u32 old -> 0 <= Z.lor (Z.land old 0x17F) (Z.shiftr (Z.land old (Z.shiftl 1 12)) 5) < 2 ^ 12.
Proof.
  intros Ho. unfold in_u in Ho. apply lor_range; [lia| |].
  - assert (Z.land (Z.land old 0x17F) (Z.ones 12) = Z.land old 0x17F) as <-.
    { by rewrite <- Z.land_assoc. }
    rewrite Z.land_ones by lia. mlia.
  - rewrite Z.shiftr_div_pow2 by lia.
    assert (Z.land (Z.land old (Z.shiftl 1 12)) (Z.ones 13) = Z.land old (Z.shiftl 1 12)) as <-.
    { by rewrite <- Z.land_assoc. }
    rewrite Z.land_ones by lia. change (2 ^ 13) with 8192. change (2 ^ 5) with 32. mlia.
Qed.

Lemma split_table_ok old : in_u32 old -> table_ok (split_table old).
Proof.
  intros Ho. unfold split_table. split; [by unfold zlen; rewrite length_fmap, length_seqZ|].
  apply Forall_fmap, Forall_forall. intros j Hj%elem_of_seqZ. unfold ENTRIES in Hj. simpl.
  unfold split_entry. rewrite large_base_sub by done. unfold PAGE_SIZE.
  apply entry_table; [unfold in_u in *; mlia..|by apply split_inherited_range].
Qed.

Lemma get_split old j : index_ok j -> get (split_table old) j = Some (split_entry old j).
Proof.
  unfold index_ok, get, split_table. intros Hj. zcase; [lia|]. rewrite list_lookup_fmap.
  rewrite (proj2 (lookup_seqZ 0 ENTRIES (Z.to_nat j) j)); [done|]. unfold ENTRIES. lia.
Qed.

(** The 4 KiB entries grant exactly what the large page granted. *)
Lemma split_decode old pde j :
  in_u32 old -> has old PRESENT = true -> index_ok j ->
  has pde WRITABLE = true -> has pde USER = has old USER ->
  decode pde (split_entry old j) = Some (Z.land old 0xFFC00000 + j * 4096, has old WRITABLE, has old USER).
Proof.
  intros Ho Hp Hj Hw Hu. unfold decode, split_entry, PAGE_SIZE. unfold index_ok in Hj.
  assert ((Z.land old 0xFFC00000 + j * 4096) mod 4096 = 0) as Hal
    by (rewrite large_base_sub by done; mlia).
  assert (in_u32 (Z.land old 0xFFC00000 + j * 4096)) as Hr
    by (rewrite large_base_sub by done; unfold in_u in *; mlia).
  rewrite (entry_has _ _ PRESENT), (entry_has _ _ WRITABLE), (entry_has _ _ USER) by auto with felix.
  rewrite (split_inherited _ PRESENT), (split_inherited _ WRITABLE), (split_inherited _ USER)
    by (auto with felix || done).
  rewrite Hp, Hw, Hu. rewrite (proj1 (entry_table _ _ Hal Hr (split_inherited_range old Ho))).
  by destruct (has old USER).
Qed.

(** ** Mapping operations *)

Lemma page_fields v : in_u32 v ->
  Z.shiftr (Z.shiftr v 12) 10 = v / 0x400000 /\ Z.land (Z.shiftr v 12) 0x3FF = v / 4096 mod 1024.
Proof.
  intros Hv. destruct (addr_fields v Hv) as (H1 & H2 & _). split; [|exact H2].
  rewrite Z.shiftr_shiftr by lia. exact H1.
Qed.

Lemma space_slot v : mapped_space v -> slot_ok (v / 0x400000) /\ index_ok (v / 4096 mod 1024) /\ in_u32 v.
Proof.
  unfold mapped_space, slot_ok, index_ok, in_u. intros Hv. split_and!; mlia.
Qed.

Definition same_page (v i j : Z) : bool := (i =? v / 0x400000) && (j =? v / 4096 mod 1024).

Lemma has_fl3 old : has (Z.lor 3 (Z.land old USER)) PRESENT = true /\
  has (Z.lor 3 (Z.land old USER)) WRITABLE = true /\
  has (Z.lor 3 (Z.land old USER)) DIR_PAGE_SIZE = false /\
  has (Z.lor 3 (Z.land old USER)) USER = has old USER.
Proof.
  rewrite (has_lor _ _ PRESENT), (has_lor _ _ WRITABLE), (has_lor _ _ DIR_PAGE_SIZE), (has_lor _ _ USER)
    by auto with felix.
  rewrite (has_land _ _ DIR_PAGE_SIZE), (has_land _ _ USER) by auto with felix.
  change (has 3 PRESENT) with true. change (has 3 WRITABLE) with true.
  change (has 3 DIR_PAGE_SIZE) with false. change (has 3 USER) with false.
  change (has USER DIR_PAGE_SIZE) with false. change (has USER USER) with true.
  by rewrite andb_false_r, andb_true_r.
Qed.

Lemma fl3_range old : 0 <= Z.lor 3 (Z.land old USER) < 4096.
Proof.
  apply (lor_range _ _ 12); [lia..|].
  assert (Z.land (Z.land old USER) (Z.ones 12) = Z.land old USER) as <- by (by rewrite <- Z.land_assoc).
  rewrite Z.land_ones by lia. mlia.
Qed.

(** A mapping attribute word with the present bit and without the bits the
    kernel does not use. *)
Definition flags_ok (flags : Z) : Prop := 0 <= flags < 4096 /\ has flags PRESENT = true.

Lemma decode_entry pde phys flags :
  phys mod 4096 = 0 -> in_u32 phys -> flags_ok flags ->
  decode pde (Z.lor phys flags) =
  Some (phys, has pde WRITABLE && has flags WRITABLE, has pde USER && has flags USER).
Proof.
  intros Ha Hu [Hf Hp]. unfold decode.
  rewrite (entry_has _ _ PRESENT), (entry_has _ _ WRITABLE), (entry_has _ _ USER), Hp by auto with felix.
  by rewrite (proj1 (entry_table phys flags Ha Hu Hf)).
Qed.

(** The slot holds a page table. *)
Definition had_table (vm : Vm) (i : Z) : Prop := exists e, get (dir vm) i = Some e /\ is_small e.

Section Mapping.
  Variables (ram : Z) (stacks : list (option Z)).

(** The effect of a mapping operation on one page. *)
Definition maps_page (vm vm' : Vm) (v phys flags : Z) : Prop :=
  forall i j, slot_ok i -> index_ok j ->
  if same_page v i j then
    exists w u, page_view vm' i j = Some (phys, w, u) /\ (w = true -> has flags WRITABLE = true) /\
      (u = true -> has flags USER = true)
  else page_view vm' i j = page_view vm i j.

Lemma aligned_page phys : in_u32 phys -> phys mod 4096 = 0 -> Z.shiftl (Z.shiftr phys 12) 12 = phys.
Proof.
  intros Hu Hm. rewrite Z.shiftl_mul_pow2, Z.shiftr_div_pow2 by lia. change (2 ^ 12) with 4096. mlia.
Qed.

(** A kernel page table appears without any change to what is mapped. *)
Definition same_views (vm vm' : Vm) : Prop :=
  (forall i j, slot_ok i -> index_ok j -> page_view vm' i j = page_view vm i j) /\
  (forall i, slot_ok i -> had_table vm i -> had_table vm' i).

Lemma room_union live f : room ram live - 1 <= room ram (live ∪ {[f]}).
Proof.
  unfold room. rewrite size_union_alt.
  pose proof (subseteq_size ({[f]} ∖ live) {[f]} ltac:(set_solver)) as Hs. rewrite size_singleton in Hs. lia.
Qed.

Lemma kernel_table_ok vm live i :
  vm_ok ram vm live -> stacks_live stacks live -> slot_ok i ->
  (kernel_table ram stacks vm i = Panic /\ room ram live = 0) \/
  exists vm' live', kernel_table ram stacks vm i = Ret vm' /\ live ⊆ live' /\
    room ram live - 1 <= room ram live' /\ vm_ok ram vm' live' /\ had_table vm' i /\ same_views vm vm'.
Proof.
  intros Hok Hst Hi. destruct (dir_get ram vm live Hok _ Hi) as (old & Hold & Holdu).
  unfold kernel_table. rewrite (proj2 (idx_Ret _ _ _) Hold). simpl.
  destruct (negb (has old PRESENT) || has old DIR_PAGE_SIZE) eqn:Hneed.
  2: { right. exists vm, live. apply small_iff in Hneed. split_and!; try done; [lia|by exists old]. }
  destruct (vm_alloc_frame ram stacks vm) as [[f vm1]|] eqn:Halloc;
    [|left; split; [done|by eapply vm_alloc_panic]]. simpl. right.
  set (t := if has old PRESENT then split_table old else zero_page).
  assert (table_ok t) as Ht by (unfold t; destruct (has old PRESENT); [by apply split_table_ok|apply zero_page_ok]).
  destruct (has_fl3 old) as (F1 & F2 & F3 & F4).
  assert (Z.shiftl f 12 mod 4096 = 0) as Hfal.
  { destruct (vm_alloc_ok ram vm live Hok _ _ _ Hst Halloc) as (_ & ? & _). apply shiftl_page. lia. }
  destruct (table_install_ok ram vm live Hok stacks f vm1 _ old _ t Hst Halloc Hi Hold Ht (fl3_range old) F1 F3)
    as (vm2 & Hset & Hok2 & Hget2 & Hsm2 & Htab2 & Hdir2 & Hview2).
  rewrite (put_fresh ram vm live Hok stacks f vm1 vm1 t Hst Halloc), bind_Ret_l. rewrite <- Z.lor_assoc. change (Z.lor PRESENT WRITABLE) with 3. rewrite Hset.
  exists vm2, (live ∪ {[f]}). split; [done|]. split; [set_solver|]. split; [apply room_union|].
  split; [done|]. split; [by eexists|]. split.
  - intros i' j Hi' Hj. rewrite Hview2 by done. destruct (Z.eqb_spec i' i) as [->|]; [|done].
    unfold t, page_view. rewrite Hold. simpl. destruct (has old PRESENT) eqn:Hop; simpl.
    + simpl in Hneed. rewrite Hneed, get_split by done. simpl.
      apply split_decode; try done; by rewrite entry_has by auto with felix.
    + by rewrite get_zero_page.
  - intros i' Hi' (e & He & Hs). destruct (Z.eq_dec i i') as [<-|Hne]; [by eexists|].
    exists e. split; [|done]. rewrite Hdir2, get_insert_ne; [done|unfold slot_ok in Hi; lia|done].
Qed.

Lemma map_physical_page_ok vm live virt phys flags :
  vm_ok ram vm live -> stacks_live stacks live -> mapped_space virt -> in_u32 phys -> phys mod 4096 = 0 ->
  flags_ok flags ->
  (map_physical_page ram stacks vm virt phys flags = Panic /\ room ram live = 0) \/
  exists vm' live', map_physical_page ram stacks vm virt phys flags = Ret vm' /\
    live ⊆ live' /\ room ram live - 1 <= room ram live' /\ vm_ok ram vm' live' /\
    maps_page vm vm' virt phys flags /\ had_table vm' (virt / 0x400000) /\
    (forall i, slot_ok i -> had_table vm i -> had_table vm' i).
Proof.
  intros Hok Hst Hv Hpu Hpa Hflags. pose proof Hflags as [Hfl Hfp]. destruct (space_slot virt Hv) as (Hsl & Hix & Hvu).
  destruct (page_fields virt Hvu) as [Hpd Hpt]. unfold map_physical_page. rewrite Hpd, Hpt.
  rewrite (aligned_page phys Hpu Hpa). destruct (entry_table phys flags Hpa Hpu Hfl) as [Htab Hxu].
  destruct (kernel_table_ok vm live _ Hok Hst Hsl) as
    [[-> Hroom]|(vm2 & live2 & -> & Hsub & Hroom & Hok2 & (e & He & Hsm) & Hviews & Hhad)]; [by left|]. simpl. right.
  rewrite (proj2 (idx_Ret _ _ _) He). simpl.
  destruct (pte_write_ok ram vm2 live2 Hok2 _ _ (virt / 4096 mod 1024) (Z.lor phys flags) Hsl He Hsm Hix Hxu)
    as (vm3 & -> & Hok3 & Hdir3 & _ & _ & Hview3).
  exists vm3, live2. split_and!; try done; [|by exists e; rewrite Hdir3|].
  - intros i j Hi Hj. unfold same_page. rewrite Hview3 by done. destruct (_ && _) eqn:Hsame; [|by apply Hviews].
    rewrite decode_entry by done. eexists _, _. split; [done|]. split; by intros [_ ?]%andb_true_iff.
  - intros i Hi Ht. unfold had_table. rewrite Hdir3. by apply Hhad.
Qed.

Lemma same_page_div virt v : mapped_space v -> virt mod 4096 = 0 -> 0 <= virt ->
  same_page virt (v / 0x400000) (v / 4096 mod 1024) = (virt <=? v) && (v <? virt + 4096).
Proof.
  intros Hv Hm H0. unfold same_page, mapped_space in *.
  destruct (Z.eqb_spec (v / 0x400000) (virt / 0x400000)), (Z.eqb_spec (v / 4096 mod 1024) (virt / 4096 mod 1024)),
    (Z.leb_spec virt v), (Z.ltb_spec v (virt + 4096)); simpl; try done; exfalso; mlia.
Qed.

(** The effect on addresses of mapping [n] pages from [virt] to [phys]. *)
Definition maps_range (vm vm' : Vm) (virt phys len flags : Z) : Prop :=
  forall v, mapped_space v ->
  if (virt <=? v) && (v <? virt + len) then
    exists w u, hw_walk vm' v = Some (phys + (v - virt), w, u) /\
      (w = true -> has flags WRITABLE = true) /\ (u = true -> has flags USER = true)
  else hw_walk vm' v = hw_walk vm v.

Lemma maps_page_range vm vm' virt phys flags :
  maps_page vm vm' virt phys flags -> virt mod 4096 = 0 -> 0 <= virt ->
  maps_range vm vm' virt phys 4096 flags.
Proof.
  intros Hp Hm H0 v Hv. destruct (space_slot v Hv) as (Hi & Hj & _). specialize (Hp _ _ Hi Hj).
  rewrite same_page_div in Hp by done. unfold hw_walk.
  destruct ((virt <=? v) && (v <? virt + 4096)) eqn:Hin.
  - destruct Hp as (w & u & -> & Hw & Hu). simpl. exists w, u. split; [|done]. do 3 f_equal.
    apply andb_true_iff in Hin as [?%Z.leb_le ?%Z.ltb_lt]. mlia.
  - by rewrite Hp.
Qed.

Lemma map_physical_loop_ok n vm live virt phys flags :
  vm_ok ram vm live -> stacks_live stacks live -> flags_ok flags ->
  0 <= virt -> virt mod 4096 = 0 -> virt + Z.of_nat n * 4096 <= 0xFFC00000 ->
  0 <= phys -> phys mod 4096 = 0 -> phys + Z.of_nat n * 4096 <= 2 ^ 32 ->
  (map_physical_loop ram stacks n vm virt phys flags = Panic /\ room ram live < Z.of_nat n) \/
  exists vm' live', map_physical_loop ram stacks n vm virt phys flags = Ret vm' /\
    live ⊆ live' /\ vm_ok ram vm' live' /\ maps_range vm vm' virt phys (Z.of_nat n * 4096) flags /\
    (forall i, slot_ok i -> had_table vm i -> had_table vm' i) /\
    (forall v, virt <= v < virt + Z.of_nat n * 4096 -> had_table vm' (v / 0x400000)).
Proof.
  revert vm live virt phys. induction n as [|n IH]; intros vm live virt phys Hok Hst Hfl Hv0 Hva Hve Hp0 Hpa Hpe.
  { right. exists vm, live. split_and!; [done..| |done|intros; lia]. intros v Hv.
    destruct (Z.leb_spec virt v), (Z.ltb_spec v (virt + Z.of_nat 0 * 4096)); cbn [andb]; try done; lia. }
  cbn [map_physical_loop].
  destruct (map_physical_page_ok vm live virt phys flags Hok Hst) as
    [[-> Hroom]|(vm1 & live1 & -> & Hsub & Hroom & Hok1 & Hmap & Ht1 & Hk1)];
    [unfold mapped_space; lia|unfold in_u; lia|done|done| |].
  { left. split; [done|lia]. }
  simpl. assert (stacks_live stacks live1) as Hst1 by (by eapply stacks_live_mono).
  unfold PAGE_SIZE. destruct (IH vm1 live1 (virt + 4096) (phys + 4096)) as
    [[-> Hr]|(vm2 & live2 & -> & Hsub2 & Hok2 & Hmap2 & Hk2 & Ht2)]; try done; try lia; [mlia|mlia|left; split; [done|lia]|].
  right. exists vm2, live2. split_and!; [done|set_solver|done| |by intros; apply Hk2, Hk1|].
  2: { intros v Hv. destruct (Z.lt_ge_cases v (virt + 4096)); [|apply Ht2; lia].
       replace (v / 0x400000) with (virt / 0x400000) by mlia. apply Hk2; [|done].
       unfold slot_ok. mlia. }
  apply maps_page_range in Hmap; [|done..]. intros v Hv. specialize (Hmap v Hv). specialize (Hmap2 v Hv).
  destruct (Z.leb_spec virt v), (Z.ltb_spec v (virt + 4096)), (Z.leb_spec (virt + 4096) v),
    (Z.ltb_spec v (virt + 4096 + Z.of_nat n * 4096)), (Z.ltb_spec v (virt + Z.of_nat (S n) * 4096));
    simpl in *; try lia; try (by rewrite Hmap2).
  destruct Hmap2 as (w & u & -> & ?). exists w, u. split; [|done]. do 3 f_equal. lia.
Qed.
Lemma zero_pde e :
  (e =? 0) || negb (has e PRESENT) || has e DIR_PAGE_SIZE = negb (has e PRESENT) || has e DIR_PAGE_SIZE.
Proof. by destruct (Z.eqb_spec e 0) as [->|]. Qed.

(** What the first half leaves behind, in both of its cases. *)
Definition user_table_post (vm : Vm) (live : gset Z) (i : Z) (vm1 : Vm) : Prop :=
  exists live1 e1, live ⊆ live1 /\ room ram live - 1 <= room ram live1 /\
    vm_ok ram vm1 live1 /\ get (dir vm1) i = Some e1 /\ is_small e1 /\ has e1 USER = true /\
    (forall i' j, i' <> i -> slot_ok i' -> index_ok j -> page_view vm1 i' j = page_view vm i' j) /\
    (had_table vm i -> forall j, index_ok j ->
       (fun x => x.1) <$> page_view vm1 i j = (fun x => x.1) <$> page_view vm i j) /\
    (~ had_table vm i -> has e1 WRITABLE = true /\ forall j, index_ok j -> page_view vm1 i j = None).

Lemma user_table_small vm live i e :
  vm_ok ram vm live -> slot_ok i -> get (dir vm) i = Some e -> is_small e -> in_u32 e ->
  exists vm1, set_pde vm i (Z.lor e USER) = Ret vm1 /\ user_table_post vm live i vm1.
Proof.
  intros Hok Hi He Hsm Heu. pose proof Hsm as [Hp Hl].
  assert (is_small (Z.lor e USER)) as Hsm'
    by (split; rewrite has_lor by auto with felix; rewrite ?Hp, ?Hl; done).
  assert (in_u32 (Z.lor e USER)) as Hu by (unfold in_u in *; apply lor_range; [lia|done|unfold USER; lia]).
  destruct (pde_attr_ok ram vm live Hok i e (Z.lor e USER) Hi He Hsm Hsm') as
    (vm1 & Hset & Hok1 & Hget1 & Hmem & _ & Hview); [by apply table_of_lor_attr|done|].
  exists vm1. split; [done|]. exists live, (Z.lor e USER). split_and!; try done; [lia|..].
  - rewrite has_lor by auto with felix. by rewrite orb_true_r.
  - intros i' j Hne Hi' Hj. rewrite Hview by done. by rewrite (proj2 (Z.eqb_neq i' i)).
  - intros _ j Hj. rewrite Hview, Z.eqb_refl by done. unfold page_view. rewrite He. simpl.
    rewrite Hp, Hl. simpl. destruct (mem vm !! table_of e) as [t|]; [|done]. simpl.
    destruct (get t j) as [x|]; [|done]. simpl. unfold decode. destruct (has x PRESENT); [|done]. simpl.
    rewrite has_lor by auto with felix. by rewrite orb_false_r.
  - intros Hno. destruct Hno. by exists e.
Qed.

Lemma user_table_fresh vm live i e f vm0 :
  vm_ok ram vm live -> stacks_live stacks live -> slot_ok i -> get (dir vm) i = Some e -> ~ is_small e ->
  vm_alloc_frame ram stacks vm = Ret (f, vm0) ->
  exists vm1, (vm' ← set_pde vm0 i (Z.lor (Z.lor (Z.lor (Z.shiftl f 12) PRESENT) WRITABLE) USER);
               zero_frame vm' (Z.shiftl f 12)) = Ret vm1 /\ user_table_post vm live i vm1.
Proof.
  intros Hok Hst Hi He Hsm Ha.
  destruct (table_install_ok ram vm live Hok stacks f vm0 i e 7 zero_page Hst Ha Hi He zero_page_ok)
    as (vm2 & Hset & Hok2 & Hget2 & Hsm2 & Htab2 & _ & Hview2); [lia|done..|].
  rewrite <- !Z.lor_assoc. change (Z.lor PRESENT (Z.lor WRITABLE USER)) with 7.
  unfold set_pde in *. simpl in Hset. destruct (upd (dir vm0) i _) as [d|] eqn:Hd; [|done]. simpl in Hset. rewrite !bind_Ret_l. unfold zero_frame.
  rewrite (put_fresh ram vm live Hok stacks f vm0 _ zero_page Hst Ha). exists vm2. split; [exact Hset|]. exists (live ∪ {[f]}), (Z.lor (Z.shiftl f 12) 7).
  destruct (vm_alloc_ok ram vm live Hok _ _ _ Hst Ha) as (_ & Hfb & _).
  destruct (shiftl_page f ltac:(lia)) as (_ & Hal & _).
  split_and!; [set_solver|apply room_union|done..| | | |].
  - by rewrite entry_has by auto with felix.
  - intros i' j Hne Hi' Hj. rewrite Hview2 by done. by rewrite (proj2 (Z.eqb_neq i' i)).
  - intros (e' & He' & Hs). rewrite He in He'. injection He' as <-. done.
  - intros _. split; [by rewrite entry_has by auto with felix|]. intros j Hj.
    rewrite Hview2, Z.eqb_refl, get_zero_page by done. done.
Qed.

Lemma user_table_ok vm live i :
  vm_ok ram vm live -> stacks_live stacks live -> slot_ok i ->
  (user_table ram stacks vm i = Panic /\ room ram live = 0) \/
  exists vm1, user_table ram stacks vm i = Ret vm1 /\ user_table_post vm live i vm1.
Proof.
  intros Hok Hst Hi. destruct (dir_get ram vm live Hok i Hi) as (e & He & Heu).
  unfold user_table. rewrite (proj2 (idx_Ret _ _ _) He). simpl. rewrite zero_pde.
  destruct (negb (has e PRESENT) || has e DIR_PAGE_SIZE) eqn:Hneed.
  - destruct (vm_alloc_frame ram stacks vm) as [[f vm0]|] eqn:Ha; simpl.
    + right. apply (user_table_fresh vm live i e); try done. by intros Hs%small_iff; congruence.
    + left. split; [done|]. by eapply vm_alloc_panic.
  - right. apply small_iff in Hneed. by apply (user_table_small vm live i e).
Qed.
(** A zeroed data frame leaves every table and view alone. *)
Lemma data_frame_ok vm live f vm1 :
  vm_ok ram vm live -> stacks_live stacks live -> vm_alloc_frame ram stacks vm = Ret (f, vm1) ->
  let vm2 := with_frame vm1 (Z.shiftl f 12) zero_page in
  vm_ok ram vm2 (live ∪ {[f]}) /\ dir vm2 = dir vm /\
  (forall i j, slot_ok i -> index_ok j -> page_view vm2 i j = page_view vm i j).
Proof.
  intros Hok Hst Ha vm2. destruct (vm_alloc_ok ram vm live Hok _ _ _ Hst Ha) as (Hf & Hfb & fa & -> & Hfi).
  destruct (shiftl_page f ltac:(lia)) as (Hsh & Hal & Hu). pose proof Hok as [Hr Hwin Hd _ Htb Hinj].
  assert (forall i e, slot_ok i -> get (dir vm) i = Some e -> is_small e -> Z.shiftl f 12 <> table_of e) as Hsep.
  { intros i e Hi He Hsm Heq. destruct (Htb i e Hi He Hsm) as (_ & _ & _ & Hl).
    apply Hf. rewrite <- Heq, Hsh, Z.div_mul in Hl by lia. done. }
  unfold vm2, with_frame. simpl. split; [|split; [done|]].
  - constructor; simpl; try done. intros i e Hi He Hsm. rewrite lookup_insert_ne by (by eapply Hsep).
    destruct (Htb i e Hi He Hsm) as (t & ? & ? & ?). exists t. split_and!; try done. set_solver.
  - intros i j Hi Hj. unfold page_view. simpl. destruct (dir_get ram vm live Hok i Hi) as (e & He & _).
    rewrite He. simpl. destruct (has e PRESENT) eqn:Hp; [|done]. destruct (has e DIR_PAGE_SIZE) eqn:Hl; [done|].
    simpl. rewrite lookup_insert_ne; [done|]. by eapply Hsep.
Qed.

(** Reading an entry through a well-formed directory. *)
Lemma pt_read_ok vm live i e j :
  vm_ok ram vm live -> slot_ok i -> get (dir vm) i = Some e -> is_small e -> index_ok j ->
  exists x, pt_read vm (table_of e) j = Ret x /\ in_u32 x /\ page_view vm i j = decode e x.
Proof.
  intros Hok Hi He Hsm Hj. destruct (vo_tables _ _ _ Hok i e Hi He Hsm) as (t & Ht & Htok & _).
  destruct (table_ok_get t j Htok Hj) as (x & Hx & Hxu). exists x. split_and!; [|done|].
  - unfold pt_read. rewrite (alias_table ram vm live Hok i e Hi He Hsm), bind_Ret_l, Ht. simpl. by apply idx_Ret.
  - unfold page_view. rewrite He. simpl. destruct Hsm as [-> ->]. simpl. rewrite Ht. simpl. by rewrite Hx.
Qed.

Definition user_flags : Z := Z.lor PRESENT (Z.lor WRITABLE (Z.lor USER DIRTY)).

(** The second half: an entry that is already there only gains the user bit,
    a missing one gets a fresh zeroed frame. *)
Definition user_page_post (vm : Vm) (live : gset Z) (i j : Z) (vm' : Vm) : Prop :=
  exists live' p w, live ⊆ live' /\ vm_ok ram vm' live' /\ page_view vm' i j = Some (p, w, true) /\
    (forall p0 w0 u0, had_table vm i -> page_view vm i j = Some (p0, w0, u0) -> p = p0 /\ w = w0) /\
    (page_view vm i j = None \/ ~ had_table vm i ->
       p / 4096 ∉ live /\ mem vm' !! p = Some zero_page) /\
    (forall i' j', i' <> i -> slot_ok i' -> index_ok j' -> page_view vm' i' j' = page_view vm i' j') /\
    (forall j', j' <> j -> index_ok j' ->
       (had_table vm i -> (fun x => x.1) <$> page_view vm' i j' = (fun x => x.1) <$> page_view vm i j') /\
       (~ had_table vm i -> page_view vm' i j' = None)).

Lemma user_page_existing vm live i j vm1 live1 e1 x :
  had_table vm i \/ ~ had_table vm i ->
  live ⊆ live1 -> vm_ok ram vm1 live1 -> slot_ok i -> index_ok j -> get (dir vm1) i = Some e1 -> is_small e1 ->
  has e1 USER = true -> in_u32 x -> has x PRESENT = true -> page_view vm1 i j = decode e1 x ->
  (forall i' j', i' <> i -> slot_ok i' -> index_ok j' -> page_view vm1 i' j' = page_view vm i' j') ->
  (had_table vm i -> forall j', index_ok j' ->
       (fun x => x.1) <$> page_view vm1 i j' = (fun x => x.1) <$> page_view vm i j') ->
  (~ had_table vm i -> forall j', index_ok j' -> page_view vm1 i j' = None) ->
  exists vm', pt_write vm1 (table_of e1) j (Z.lor x USER) = Ret vm' /\ user_page_post vm live i j vm'.
Proof.
  intros Hdec Hsub Hok1 Hi Hj He1 Hsm1 Hu1 Hxu Hxp Hv1 Hother Hhad Hnot.
  assert (in_u32 (Z.lor x USER)) as Hu by (unfold in_u in *; apply lor_range; [lia|done|unfold USER; lia]).
  destruct (pte_write_ok ram vm1 live1 Hok1 i e1 j (Z.lor x USER) Hi He1 Hsm1 Hj Hu)
    as (vm2 & Hw & Hok2 & _ & _ & _ & Hview2).
  unfold decode in Hv1. rewrite Hxp in Hv1.
  assert (had_table vm i) as Hh by (destruct Hdec as [|Hno]; [done|]; by rewrite (Hnot Hno j Hj) in Hv1).
  exists vm2. split; [done|]. exists live1, (table_of x), (has e1 WRITABLE && has x WRITABLE).
  pose proof (Hhad Hh j Hj) as Hfst. rewrite Hv1 in Hfst. simpl in Hfst.
  split_and!; try done.
  - rewrite Hview2, !Z.eqb_refl by done. simpl. unfold decode.
    rewrite (has_lor _ _ PRESENT), (has_lor _ _ WRITABLE), (has_lor _ _ USER), Hxp, Hu1 by auto with felix.
    rewrite table_of_lor_attr by (unfold USER; lia). simpl. by rewrite orb_false_r, orb_true_r.
  - intros p0 w0 u0 _ Hp0. rewrite Hp0 in Hfst. simpl in Hfst. by injection Hfst as <- <-.
  - intros [Hnone|Hno]; [|done]. by rewrite Hnone in Hfst.
  - intros i' j' Hne Hi' Hj'. rewrite Hview2 by done. rewrite (proj2 (Z.eqb_neq i' i)) by done. by apply Hother.
  - intros j' Hne Hj'. rewrite Hview2 by done. rewrite (proj2 (Z.eqb_neq j' j)), andb_false_r by done.
    split; [|done]. intros _. by apply Hhad.
Qed.
Lemma user_page_new vm live i j vm1 live1 e1 x f vm2 :
  live ⊆ live1 -> vm_ok ram vm1 live1 -> stacks_live stacks live1 -> slot_ok i -> index_ok j ->
  get (dir vm1) i = Some e1 -> is_small e1 -> has e1 USER = true ->
  has x PRESENT = false -> page_view vm1 i j = decode e1 x ->
  (forall i' j', i' <> i -> slot_ok i' -> index_ok j' -> page_view vm1 i' j' = page_view vm i' j') ->
  (had_table vm i -> forall j', index_ok j' ->
       (fun x => x.1) <$> page_view vm1 i j' = (fun x => x.1) <$> page_view vm i j') ->
  (~ had_table vm i -> forall j', index_ok j' -> page_view vm1 i j' = None) ->
  vm_alloc_frame ram stacks vm1 = Ret (f, vm2) ->
  exists vm', pt_write (with_frame vm2 (Z.shiftl f 12) zero_page) (table_of e1) j (Z.lor (Z.shiftl f 12) user_flags) = Ret vm' /\
    user_page_post vm live i j vm'.
Proof.
  intros Hsub Hok1 Hst1 Hi Hj He1 Hsm1 Hu1 Hxp Hv1 Hother Hhad Hnot Ha.
  destruct (data_frame_ok vm1 live1 f vm2 Hok1 Hst1 Ha) as (Hok2 & Hdir & Hview2). cbv zeta in *.
  destruct (vm_alloc_ok ram vm1 live1 Hok1 _ _ _ Hst1 Ha) as (Hf & Hfb & fa & -> & _).
  destruct (shiftl_page f ltac:(lia)) as (Hsh & Hal & Hfu).
  destruct (entry_table (Z.shiftl f 12) user_flags Hal Hfu ltac:(by unfold user_flags)) as [_ Hxu].
  set (vm2 := with_frame _ _ _) in *. rewrite <- Hdir in He1.
  destruct (pte_write_ok ram vm2 _ Hok2 i e1 j (Z.lor (Z.shiftl f 12) user_flags) Hi He1 Hsm1 Hj Hxu)
    as (vm3 & Hw & Hok3 & _ & _ & Hmem3 & Hview3).
  unfold decode in Hv1. rewrite Hxp in Hv1. rewrite Hdir in He1.
  destruct (vo_tables _ _ _ Hok1 i e1 Hi He1 Hsm1) as (_ & _ & _ & Hlive).
  exists vm3. split; [done|]. exists (live1 ∪ {[f]}), (Z.shiftl f 12), (has e1 WRITABLE).
  split_and!; [set_solver|done| | | | |].
  - rewrite Hview3, !Z.eqb_refl by done. simpl. rewrite decode_entry by done. rewrite Hu1.
    by rewrite andb_true_r.
  - intros p0 w0 u0 Hh Hp0. pose proof (Hhad Hh j Hj) as Hfst. by rewrite Hv1, Hp0 in Hfst.
  - intros _. split; [rewrite Hsh, Z.div_mul by lia; set_solver|].
    rewrite Hmem3; [by unfold vm2, with_frame; simpl; rewrite lookup_insert_eq|].
    intros Heq. apply Hf. by rewrite <- Heq, Hsh, Z.div_mul in Hlive by lia.
  - intros i' j' Hne Hi' Hj'. rewrite Hview3 by done. rewrite (proj2 (Z.eqb_neq i' i)) by done. simpl.
    rewrite Hview2 by done. by apply Hother.
  - intros j' Hne Hj'. rewrite Hview3 by done. rewrite (proj2 (Z.eqb_neq j' j)), andb_false_r by done.
    rewrite Hview2 by done. split; intros Hh; [by apply Hhad|by apply Hnot].
Qed.

Lemma had_table_dec vm i : had_table vm i \/ ~ had_table vm i.
Proof.
  unfold had_table, is_small. destruct (get (dir vm) i) as [e|]; [|right; naive_solver].
  destruct (has e PRESENT) eqn:Hp, (has e DIR_PAGE_SIZE) eqn:Hl; [right|left; eauto|right..];
    intros (e' & [= <-] & ? & ?); congruence.
Qed.

Lemma alloc_user_page_ok vm live v :
  vm_ok ram vm live -> stacks_live stacks live -> mapped_space v ->
  (alloc_and_map_user_page ram stacks vm v = Panic /\ room ram live < 2) \/
  exists vm', alloc_and_map_user_page ram stacks vm v = Ret vm' /\
    user_page_post vm live (v / 0x400000) (v / 4096 mod 1024) vm'.
Proof.
  intros Hok Hst Hv. destruct (space_slot v Hv) as (Hi & Hj & Hvu). destruct (page_fields v Hvu) as [Hpd Hpt].
  unfold alloc_and_map_user_page. rewrite Hpd, Hpt.
  destruct (user_table_ok vm live _ Hok Hst Hi) as
    [[-> Hroom]|(vm1 & -> & live1 & e1 & Hsub & Hroom & Hok1 & He1 & Hsm1 & Hu1 & Hother & Hhad & Hnot)];
    [left; split; [done|lia]|]. simpl.
  rewrite (proj2 (idx_Ret _ _ _) He1). simpl.
  destruct (pt_read_ok vm1 live1 _ e1 _ Hok1 Hi He1 Hsm1 Hj) as (x & -> & Hxu & Hv1). simpl.
  assert (stacks_live stacks live1) as Hst1 by (by eapply stacks_live_mono).
  assert (~ had_table vm (v / 0x400000) -> forall j', index_ok j' -> page_view vm1 (v / 0x400000) j' = None) as Hnot'
    by (intros Hn; by apply Hnot).
  destruct (has x PRESENT) eqn:Hxp.
  - right. eapply user_page_existing; try done. apply had_table_dec.
  - destruct (vm_alloc_frame ram stacks vm1) as [[f vm2]|] eqn:Ha; simpl.
    + right. unfold zero_frame. rewrite (put_fresh ram vm1 live1 Hok1 stacks f vm2 vm2 zero_page Hst1 Ha), bind_Ret_l. rewrite <- !Z.lor_assoc. by eapply user_page_new.
    + left. split; [done|]. pose proof (vm_alloc_panic ram vm1 live1 Hok1 stacks Hst1 Ha). lia.
Qed.
End Mapping.

(** ** Sharing the kernel half *)

Lemma share_range_ok n kd d i :
  zlen kd = 1024 -> zlen d = 1024 -> 0 <= i -> i + Z.of_nat n <= 1024 ->
  exists d', share_range n kd d i = Ret d' /\ zlen d' = 1024 /\
    (forall k e, get kd k = Some e -> get d' k =
       if (i <=? k) && (k <? i + Z.of_nat n) && has e PRESENT then Some e else get d k).
Proof.
  revert d i. induction n as [|n IH]; intros d i Hk Hd Hi Hn.
  { exists d. split_and!; [done..|]. intros k e Hke.
    destruct (Z.leb_spec i k), (Z.ltb_spec k (i + Z.of_nat 0)); cbn [andb]; try done; lia. }
  cbn [share_range]. destruct (get_in_range kd i) as [e He]; [lia|].
  rewrite (proj2 (idx_Ret _ _ _) He). simpl.
  assert (exists d1, (if has e PRESENT then upd d i e else Ret d) = Ret d1 /\ zlen d1 = 1024 /\
            forall k, get d1 k = if (i =? k) && has e PRESENT then Some e else get d k) as (d1 & -> & Hd1 & Hg1).
  { destruct (has e PRESENT).
    - rewrite upd_in_range by lia. eexists. split_and!; [done|by rewrite zlen_insert|].
      intros k. rewrite get_insert by lia. by rewrite andb_true_r.
    - exists d. split_and!; [done..|]. intros k. by rewrite andb_false_r. }
  simpl. destruct (IH d1 (i + 1)) as (d2 & -> & Hd2 & Hg2); try lia. exists d2. split_and!; [done..|].
  intros k e' Hke. rewrite (Hg2 k e' Hke), Hg1.
  destruct (Z.eqb_spec i k) as [<-|Hne].
  - rewrite He in Hke. injection Hke as <-. destruct (Z.leb_spec (i + 1) i), (Z.leb_spec i i),
      (Z.ltb_spec i (i + Z.of_nat (S n))); cbn [andb]; try lia; done.
  - destruct (Z.leb_spec (i + 1) k), (Z.ltb_spec k (i + 1 + Z.of_nat n)), (Z.leb_spec i k),
      (Z.ltb_spec k (i + Z.of_nat (S n))); cbn [andb]; try lia; try done.
Qed.

(** Kernel addresses: the MMIO window and the higher half below the recursive slot. *)
Definition kernel_slot (i : Z) : Prop := 764 <= i < 1023.

Lemma copy_kernel_ok large_pages kd pd_phys :
  zlen kd = 1024 -> 0 <= large_pages <= 256 ->
  exists d, copy_kernel_mappings large_pages (Some kd) PageDirectory_new pd_phys = Ret d /\ zlen d = 1024 /\
    get d 1023 = Some (Z.lor (Z.lor pd_phys PRESENT) WRITABLE) /\
    (forall i e, kernel_slot i -> get kd i = Some e -> get d i = Some (if has e PRESENT then e else 0)).
Proof.
  intros Hk Hl. unfold copy_kernel_mappings.
  destruct (share_range_ok (Z.to_nat large_pages) kd PageDirectory_new 0 Hk) as (d1 & -> & Hd1 & H1);
    [done|lia..|]. rewrite bind_Ret_l. cbv zeta.
  destruct (share_range_ok (Z.to_nat 4) kd d1 764 Hk Hd1) as (d2 & Heq2 & Hd2 & H2); [lia..|].
  change (share_range _ kd d1 _) with (share_range (Z.to_nat 4) kd d1 764). rewrite Heq2, bind_Ret_l.
  destruct (share_range_ok 255 kd d2 768 Hk Hd2) as (d3 & Heq3 & Hd3 & H3); [lia..|].
  change (share_range _ kd d2 _) with (share_range 255 kd d2 768). rewrite Heq3, bind_Ret_l.
  rewrite upd_in_range by lia. eexists. split; [done|]. split; [by rewrite zlen_insert|].
  split; [by apply (get_insert_eq d3 1023); lia|].
  intros i e Hi He. unfold kernel_slot in Hi. rewrite (get_insert_ne d3 1023 i) by lia.
  rewrite (H3 i e He), (H2 i e He), (H1 i e He).
  assert (get PageDirectory_new i = Some 0) as ->.
  { unfold get. zcase; [lia|]. apply lookup_replicate_2. lia. }
  destruct (Z.leb_spec 768 i), (Z.ltb_spec i (768 + Z.of_nat 255)), (Z.leb_spec 764 i),
    (Z.ltb_spec i (764 + Z.of_nat (Z.to_nat 4))), (Z.leb_spec 0 i), (Z.ltb_spec i (0 + Z.of_nat (Z.to_nat large_pages)));
    destruct (has e PRESENT); simpl; try done; lia.
Qed.

(** ** The direct map *)

Lemma large_entry_ok d virt phys :
  zlen d = 1024 -> in_u32 virt -> phys mod 0x400000 = 0 -> in_u32 phys ->
  let e := Z.lor (Z.lor (Z.land phys 0xFFC00000) 0xA3) DIR_PAGE_SIZE in
  map_large d virt phys 0xA3 = Ret (<[Z.to_nat (virt / 0x400000) := e]> d) /\ e = phys + 0xA3.
Proof.
  intros Hd Hv Hm Hp e. unfold map_large. destruct (addr_fields virt Hv) as (Hi & _).
  unfold pd_index_of in Hi. rewrite Hi. unfold in_u in *. rewrite upd_in_range by (rewrite Hd; mlia).
  split; [done|]. unfold e. rewrite <- Z.lor_assoc. change (Z.lor 0xA3 DIR_PAGE_SIZE) with 0xA3.
  rewrite large_base_sub by (unfold in_u; lia). rewrite Hm, Z.sub_0_r.
  apply (lor_add phys 0xA3 22); [lia|done|lia].
Qed.

Lemma init_large_ok n d i :
  zlen d = 1024 -> 0 <= i -> i + Z.of_nat n <= 256 ->
  exists d', init_large_pages n d i = Ret d' /\ zlen d' = 1024 /\
    (forall k, i <= k < i + Z.of_nat n ->
       get d' k = Some (k * 0x400000 + 0xA3) /\ get d' (768 + k) = Some (k * 0x400000 + 0xA3)) /\
    (forall k, ~ i <= k < i + Z.of_nat n -> ~ i <= k - 768 < i + Z.of_nat n -> get d' k = get d k).
Proof.
  revert d i. induction n as [|n IH]; intros d i Hd Hi Hn.
  { exists d. split_and!; [done..| |done]. intros; lia. }
  cbn [init_large_pages]. change (Z.lor (Z.lor (Z.lor PRESENT WRITABLE) ACCESSED) DIR_PAGE_SIZE) with 0xA3.
  destruct (large_entry_ok d (i * 0x400000) (i * 0x400000)) as [-> He];
    [done|unfold in_u; lia|apply Z.mod_mul; lia|unfold in_u; lia|]. rewrite He. clear He.
  unfold add_u, KERNEL_OFFSET. rewrite (proj2 (Z.ltb_lt _ _)) by lia. rewrite !bind_Ret_l.
  rewrite Z.div_mul by lia. set (d1 := <[Z.to_nat i := _]> d).
  assert (zlen d1 = 1024) as Hd1 by (unfold d1; by rewrite zlen_insert).
  destruct (large_entry_ok d1 (0xC0000000 + i * 0x400000) (i * 0x400000)) as [Hml He];
    [done|unfold in_u; lia|apply Z.mod_mul; lia|unfold in_u; lia|]. rewrite He in Hml.
  rewrite Hml, bind_Ret_l. clear He Hml.
  replace ((0xC0000000 + i * 0x400000) / 0x400000) with (768 + i) by mlia.
  destruct (IH (<[Z.to_nat (768 + i) := i * 0x400000 + 0xA3]> d1) (i + 1)) as (d2 & Hr & Hd2 & Hin & Hout);
    [by rewrite zlen_insert|lia..|].
  rewrite Hr. exists d2. split_and!; [done..| |].
  - intros k Hk. destruct (Z.eq_dec k i) as [->|]; [|apply Hin; lia].
    rewrite !Hout by lia. rewrite (get_insert_eq d1) by lia. rewrite get_insert_ne by lia.
    unfold d1. by rewrite get_insert_eq by lia.
  - intros k H1 H2. rewrite Hout by lia. rewrite get_insert_ne by lia. unfold d1. by rewrite get_insert_ne by lia.
Qed.

(** ** Unmapping and protection *)

Lemma pde_clear_ok ram vm live i e :
  vm_ok ram vm live -> slot_ok i -> get (dir vm) i = Some e ->
  exists vm', set_pde vm i 0 = Ret vm' /\ vm_ok ram vm' live /\
    (forall i' j', slot_ok i' -> index_ok j' -> page_view vm' i' j' = if i' =? i then None else page_view vm i' j').
Proof.
  intros Hok Hi He. pose proof Hok as [Hr Hwin Hd Hf Htb Hinj].
  assert (0 <= i < zlen (dir vm)) as Hil by (destruct Hd as [-> _]; unfold slot_ok in Hi; lia).
  assert (~ is_small 0) as H0 by (intros [H _]; by vm_compute in H).
  unfold set_pde. rewrite upd_in_range by done. simpl. eexists. split; [done|]. simpl. split.
  - constructor; simpl; [done|done|by apply table_ok_insert|done| |].
    + intros i' x Hi'. rewrite get_insert by done. destruct (Z.eqb_spec i i') as [<-|]; [by intros [= <-]|].
      by apply (Htb i').
    + intros i1 i2 e1 e2 H1 H2. rewrite !get_insert by done.
      destruct (Z.eqb_spec i i1), (Z.eqb_spec i i2); try (intros [= <-]); try (intros _ [= <-]); try done.
      by apply Hinj.
  - intros i' j' Hi' Hj'. unfold page_view. simpl. rewrite get_insert by done. rewrite (Z.eqb_sym i' i).
    by destruct (Z.eqb_spec i i') as [<-|Hne].
Qed.

Lemma same_page_frame v v' : mapped_space v' -> mapped_space v ->
  same_page v (v' / 0x400000) (v' / 4096 mod 1024) = (v' / 4096 =? v / 4096).
Proof.
  intros Hv' Hv. unfold same_page, mapped_space in *.
  destruct (Z.eqb_spec (v' / 0x400000) (v / 0x400000)), (Z.eqb_spec (v' / 4096 mod 1024) (v / 4096 mod 1024)),
    (Z.eqb_spec (v' / 4096) (v / 4096)); simpl; try done; exfalso; mlia.
Qed.

Lemma unmap_ok ram vm live v :
  vm_ok ram vm live -> mapped_space v ->
  exists vm', unmap vm v = Ret vm' /\ vm_ok ram vm' live /\
    (forall v', mapped_space v' -> v' / 4096 = v / 4096 -> hw_walk vm' v' = None) /\
    (forall v', mapped_space v' -> v' / 4096 <> v / 4096 ->
       had_table vm (v / 0x400000) \/ v' / 0x400000 <> v / 0x400000 -> hw_walk vm' v' = hw_walk vm v') /\
    (had_table vm (v / 0x400000) -> dir vm' = dir vm).
Proof.
  intros Hok Hv. destruct (space_slot v Hv) as (Hi & Hj & Hvu). destruct (addr_fields v Hvu) as (Hpd & Hpt & _).
  destruct (dir_get ram vm live Hok _ Hi) as (e & He & _). unfold unmap. rewrite Hpd, Hpt.
  rewrite (proj2 (Z.leb_gt _ _)) by (unfold slot_ok, ENTRIES in *; lia).
  rewrite (proj2 (idx_Ret _ _ _) He). simpl.
  assert (forall v', v' / 4096 = v / 4096 -> v' / 0x400000 = v / 0x400000) as Hsame by (intros; mlia).
  destruct (has e PRESENT) eqn:Hp; simpl; [destruct (has e DIR_PAGE_SIZE) eqn:Hl|].
  - destruct (pde_clear_ok ram vm live _ e Hok Hi He) as (vm' & -> & Hok' & Hview). exists vm'.
    split_and!; [done..| | |by intros (e' & He' & _ & Hs); congruence];
      intros v' Hv'; destruct (space_slot v' Hv') as (Hi' & Hj' & _); unfold hw_walk; rewrite Hview by done.
    + intros Heq. by rewrite (Hsame v' Heq), Z.eqb_refl.
    + intros _ [(e' & He' & _ & Hs)|Hne]; [congruence|]. by rewrite (proj2 (Z.eqb_neq _ _)).
  - destruct (pte_write_ok ram vm live Hok _ e _ 0 Hi He (conj Hp Hl) Hj) as
      (vm' & -> & Hok' & Hdir & _ & _ & Hview); [by unfold in_u|]. exists vm'.
    split_and!; [done..| | |done]; intros v' Hv'; destruct (space_slot v' Hv') as (Hi' & Hj' & _);
      unfold hw_walk; rewrite Hview by done; fold (same_page v (v' / 0x400000) (v' / 4096 mod 1024));
      rewrite same_page_frame by done.
    + intros Heq. by rewrite Heq, Z.eqb_refl.
    + intros Hne _. by rewrite (proj2 (Z.eqb_neq _ _)).
  - exists vm. split_and!; [done..| |done|done]. intros v' Hv' Heq. unfold hw_walk, page_view.
    rewrite (Hsame v' Heq), He. simpl. by rewrite Hp.
Qed.

(** The new value of a page-table entry whose write bit is set or cleared. *)
Definition with_writable (pte : Z) (w : bool) : Z :=
  if w then Z.lor pte WRITABLE else Z.land pte (not_u 32 WRITABLE).

Lemma with_writable_ok pte w : in_u32 pte ->
  in_u32 (with_writable pte w) /\ table_of (with_writable pte w) = table_of pte /\
  has (with_writable pte w) PRESENT = has pte PRESENT /\ has (with_writable pte w) USER = has pte USER /\
  has (with_writable pte w) WRITABLE = w.
Proof.
  intros Hu. unfold with_writable. destruct w.
  - rewrite (has_lor _ _ PRESENT), (has_lor _ _ USER), (has_lor _ _ WRITABLE) by auto with felix.
    change (has WRITABLE PRESENT) with false. change (has WRITABLE USER) with false.
    rewrite !orb_false_r. split_and!; [..|by apply table_of_lor_attr|done|done|apply orb_true_r];
      unfold in_u in *; apply (lor_range _ _ 32); unfold WRITABLE; lia.
  - rewrite (has_land _ _ PRESENT), (has_land _ _ USER), (has_land _ _ WRITABLE) by auto with felix.
    change (has (not_u 32 WRITABLE) PRESENT) with true. change (has (not_u 32 WRITABLE) USER) with true.
    rewrite !andb_true_r. split_and!; [|unfold table_of; by rewrite <- Z.land_assoc|done|done|apply andb_false_r];
      unfold in_u in *;
      assert (Z.land (Z.land pte (not_u 32 WRITABLE)) (Z.ones 32) = Z.land pte (not_u 32 WRITABLE)) as <-
        by (by rewrite <- Z.land_assoc);
      rewrite Z.land_ones by lia; mlia.
Qed.

Lemma set_writable_ok ram vm live v w :
  vm_ok ram vm live -> mapped_space v ->
  exists vm', set_user_page_writable vm v w = Ret vm' /\ vm_ok ram vm' live /\
    (forall v', mapped_space v' -> v' / 4096 <> v / 4096 -> hw_walk vm' v' = hw_walk vm v') /\
    (forall p w0 u0, had_table vm (v / 0x400000) -> hw_walk vm v = Some (p, w0, u0) ->
       exists wd, hw_walk vm' v = Some (p, wd && w, u0)).
Proof.
  intros Hok Hv. destruct (space_slot v Hv) as (Hi & Hj & Hvu). destruct (page_fields v Hvu) as [Hpd Hpt].
  assert (Z.shiftr (Z.land v (not_u 32 0xFFF)) 12 = Z.shiftr v 12) as Hpg.
  { rewrite Z.shiftr_land. change (Z.shiftr (not_u 32 0xFFF) 12) with (Z.ones 20).
    rewrite Z.land_ones, Z.shiftr_div_pow2 by lia. unfold in_u in Hvu. change (2 ^ 12) with 4096. mlia. }
  destruct (dir_get ram vm live Hok _ Hi) as (e & He & _). unfold set_user_page_writable.
  rewrite Hpg, Hpd, Hpt. rewrite (proj2 (idx_Ret _ _ _) He). simpl.
  destruct (negb (has e PRESENT) || has e DIR_PAGE_SIZE) eqn:Hsm.
  { exists vm. split_and!; [done..|]. intros p w0 u0 (e' & He' & Hs%small_iff). congruence. }
  apply small_iff in Hsm. destruct (pt_read_ok ram vm live _ e _ Hok Hi He Hsm Hj) as (x & -> & Hxu & Hview). simpl.
  destruct (has x PRESENT) eqn:Hp; simpl.
  2: { exists vm. split_and!; [done..|]. intros p w0 u0 _. unfold hw_walk. rewrite Hview. unfold decode.
       by rewrite Hp. }
  destruct (with_writable_ok x w Hxu) as (Hu' & Ht' & Hp' & Hus' & Hw').
  destruct (pte_write_ok ram vm live Hok _ e _ (with_writable x w) Hi He Hsm Hj Hu') as
    (vm' & Hwr & Hok' & _ & _ & _ & Hview').
  exists vm'. split_and!; [by destruct w|done| |].
  - intros v' Hv' Hne. destruct (space_slot v' Hv') as (Hi' & Hj' & _). unfold hw_walk.
    rewrite Hview' by done. fold (same_page v (v' / 0x400000) (v' / 4096 mod 1024)).
    rewrite same_page_frame by done. by rewrite (proj2 (Z.eqb_neq _ _)).
  - intros p w0 u0 _. unfold hw_walk. rewrite Hview, Hview', !Z.eqb_refl by done. simpl. unfold decode.
    rewrite Hp, Hp', Ht', Hus', Hw'. simpl. intros [= <- _ <-]. exists (has e WRITABLE). by rewrite Hp.
Qed.

(** ** Properties *)

(** [map_physical_range], from the loop. *)
Lemma map_physical_range_ok ram stacks vm live phys size virt flags :
  vm_ok ram vm live -> stacks_live stacks live -> flags_ok flags ->
  0 < size -> size mod 4096 = 0 -> virt mod 4096 = 0 -> phys mod 4096 = 0 ->
  0 <= virt -> virt + size <= 0xFFC00000 -> 0 <= phys -> phys + size <= 2 ^ 32 ->
  (map_physical_range ram stacks vm phys size virt flags = Panic /\ room ram live < size / 4096) \/
  exists vm' live', map_physical_range ram stacks vm phys size virt flags = Ret vm' /\
    live ⊆ live' /\ vm_ok ram vm' live' /\ maps_range vm vm' virt phys size flags /\
    (forall i, slot_ok i -> had_table vm i -> had_table vm' i) /\
    (forall v, virt <= v < virt + size -> had_table vm' (v / 0x400000)).
Proof.
  intros Hok Hst Hfl H0 Hsm Hvm Hpm Hv0 Hve Hp0 Hpe. unfold map_physical_range, add_u, PAGE_SIZE.
  rewrite (proj2 (Z.ltb_lt (size + _) _)) by lia. rewrite bind_Ret_l. cbv zeta.
  replace ((size + 4096 - 1) / 4096) with (size / 4096) by mlia.
  assert (Z.max 0 ((size / 4096 - 1) * 4096) = size - 4096) as -> by mlia.
  rewrite (proj2 (Z.ltb_lt (virt + _) _)), (proj2 (Z.ltb_lt (phys + _) _)) by lia. rewrite !bind_Ret_l.
  assert (Z.of_nat (Z.to_nat (size / 4096)) * 4096 = size) as Hn by mlia.
  destruct (map_physical_loop_ok ram stacks (Z.to_nat (size / 4096)) vm live virt phys flags) as
    [[Hl Hr]|(vm' & live' & Hl & H)]; try done; try lia.
  - left. split; [done|]. mlia.
  - right. exists vm', live'. rewrite Hn in H. by split.
Qed.

(** Mapping a page-aligned physical range gives exactly that range: every
    address in it translates to the corresponding physical address with no
    more rights than asked for, every other address below the recursive window
    translates as before with the same rights, large pages that had to be
    split included, and the call fails only when the frames run out. *)
Theorem map_physical_range_exact ram stacks vm live phys size virt flags :
  vm_ok ram vm live -> stacks_live stacks live -> flags_ok flags ->
  0 < size -> size mod 4096 = 0 -> virt mod 4096 = 0 -> phys mod 4096 = 0 ->
  0 <= virt -> virt + size <= 0xFFC00000 -> 0 <= phys -> phys + size <= 2 ^ 32 ->
  (map_physical_range ram stacks vm phys size virt flags = Panic /\ room ram live < size / 4096) \/
  exists vm' live', map_physical_range ram stacks vm phys size virt flags = Ret vm' /\
    live ⊆ live' /\ vm_ok ram vm' live' /\ maps_range vm vm' virt phys size flags.
Proof.
  intros. destruct (map_physical_range_ok ram stacks vm live phys size virt flags) as
    [?|(vm' & live' & ? & ? & ? & ? & _)]; try done; [by left|]. right. by exists vm', live'.
Qed.

(** [alloc_and_map_user_page] succeeds while two frames are left and makes
    the page reachable from user mode.  A page that had a 4 KiB mapping keeps
    its frame and write permission, whoever owned it; any other page gets a
    zeroed frame that nobody held.  Outside the 4 MiB slot nothing changes;
    inside it the other pages keep their frames, except that a large page
    there is dropped as a whole. *)
Theorem user_page_alloc_exact ram stacks vm live v :
  vm_ok ram vm live -> stacks_live stacks live -> mapped_space v -> 2 <= room ram live ->
  exists vm' live' p w, alloc_and_map_user_page ram stacks vm v = Ret vm' /\ vm_ok ram vm' live' /\
    hw_walk vm' v = Some (p + v mod 4096, w, true) /\
    (forall p0 w0 u0, had_table vm (v / 0x400000) -> hw_walk vm v = Some (p0 + v mod 4096, w0, u0) ->
       p = p0 /\ w = w0) /\
    (hw_walk vm v = None \/ ~ had_table vm (v / 0x400000) ->
       p / 4096 ∉ live /\ mem vm' !! p = Some zero_page) /\
    (forall v', mapped_space v' -> v' / 0x400000 <> v / 0x400000 -> hw_walk vm' v' = hw_walk vm v').
Proof.
  intros Hok Hst Hv Hroom. destruct (space_slot v Hv) as (Hi & Hj & Hvu).
  destruct (alloc_user_page_ok ram stacks vm live v Hok Hst Hv) as [[_ ?]|(vm' & Hr & Hpost)]; [lia|].
  destruct Hpost as (live' & p & w & _ & Hok' & Hview & Hold & Hnew & Hother & _).
  exists vm', live', p, w. split_and!; [done|done| | | |].
  - unfold hw_walk. by rewrite Hview.
  - intros p0 w0 u0 Hh. unfold hw_walk. destruct (page_view vm _ _) as [[[p1 w1] u1]|] eqn:E; [|done].
    simpl. intros [= Hp1 <- <-]. assert (p1 = p0) as -> by lia. by apply (Hold p0 w1 u1).
  - intros Hc. apply Hnew. destruct Hc as [Hc|Hc]; [left|by right]. unfold hw_walk in Hc.
    by destruct (page_view vm _ _) as [[[? ?] ?]|].
  - intros v' Hv' Hne. destruct (space_slot v' Hv') as (Hi' & Hj' & _). unfold hw_walk. by rewrite Hother.
Qed.

(** The boot directory maps RAM twice, for the kernel only: for every
    physical address below the end of managed RAM and below 0x3FC00000, the
    higher-half alias [phys_to_virt] and, as long as it stays below the kernel
    half, the identity address both translate to it. *)
Theorem direct_map_exact ram_bytes pd_phys d mem0 fa p :
  in_u32 ram_bytes ->
  init_dir (configure_from_ram ram_bytes).2 pd_phys PageDirectory_new = Ret d ->
  0 <= p < (configure_from_ram ram_bytes).1 -> p < 0x3FC00000 ->
  hw_walk (mkVm d mem0 fa) (phys_to_virt p) = Some (p, true, false) /\
  hw_walk (mkVm d mem0 fa) p = Some (p, true, false).
Proof.
  intros Hb Hinit Hp Hp2. destruct (configure_ram_ok ram_bytes Hb) as [[Hr Hr4] Hpg].
  set (n := (configure_from_ram ram_bytes).2) in *. unfold MIB in Hr. unfold init_dir in Hinit.
  destruct (init_large_ok (Z.to_nat n) PageDirectory_new 0) as (d1 & Hl & Hd1 & Hin & _); [done|lia..|].
  rewrite Hl, bind_Ret_l in Hinit. unfold setup_recursive in Hinit. rewrite upd_in_range in Hinit by lia.
  injection Hinit as <-. unfold phys_to_virt, wrapping_add, KERNEL_OFFSET.
  assert (0 <= p / 0x400000 < 0 + Z.of_nat (Z.to_nat n)) as Hk by mlia.
  destruct (Hin _ Hk) as [Hlow Hhigh].
  assert (forall v i, 0 <= i < 1023 -> v / 0x400000 = i -> get d1 i = Some (p / 0x400000 * 0x400000 + 0xA3) ->
            v mod 0x400000 = p mod 0x400000 ->
            hw_walk (mkVm (<[Z.to_nat 1023 := Z.lor (Z.lor pd_phys PRESENT) WRITABLE]> d1) mem0 fa) v
            = Some (p, true, false)) as Hwalk.
  { intros v i Hi Hvi Hg Hmod. unfold hw_walk, page_view. simpl dir. rewrite Hvi, get_insert_ne by lia.
    rewrite Hg. simpl.
    assert (Z.lor (p / 0x400000 * 0x400000) 0xA3 = p / 0x400000 * 0x400000 + 0xA3) as Hlor
      by (apply (lor_add _ _ 22); [lia|apply Z.mod_mul; lia|lia]).
    assert (Z.land (p / 0x400000 * 0x400000 + 0xA3) 0xFFC00000 = p / 0x400000 * 0x400000) as ->
      by (rewrite large_base_sub by (unfold in_u; mlia); mlia).
    rewrite <- Hlor. assert (p / 0x400000 * 0x400000 mod 4096 = 0) as Hal by mlia.
    rewrite !(entry_has _ _ PRESENT), !(entry_has _ _ DIR_PAGE_SIZE), !(entry_has _ _ WRITABLE),
      !(entry_has _ _ USER) by auto with felix. simpl. do 3 f_equal. mlia. }
  split.
  - rewrite (Z.mod_small (p + 0xC0000000)) by lia.
    apply (Hwalk _ (768 + p / 0x400000)); try done; mlia.
  - apply (Hwalk _ (p / 0x400000)); try done; mlia.
Qed.

(** With 1 GiB of RAM or more the last 4 MiB of managed RAM have no direct
    map: their frames belong to the allocator's range, but the alias that
    [phys_to_virt] computes falls into directory slot 1023, which holds the
    recursive entry, so writing through it changes page tables. *)
Theorem direct_map_window_lost ram_bytes pd_phys p :
  in_u32 ram_bytes -> 2 ^ 30 <= ram_bytes -> 0x3FC00000 <= p < 2 ^ 30 ->
  let cfg := configure_from_ram ram_bytes in
  exists d, init_dir cfg.2 pd_phys PageDirectory_new = Ret d /\
    first_dynamic <= page_of p < page_of cfg.1 /\
    pd_index_of (phys_to_virt p) = 1023 /\
    get d 1023 = Some (Z.lor (Z.lor pd_phys PRESENT) WRITABLE).
Proof.
  intros Hb Hge Hp cfg. assert (cfg = (1024 * MIB, 256)) as ->.
  { unfold cfg, configure_from_ram. unfold in_u, MIB in *.
    rewrite (proj2 (Z.ltb_ge ram_bytes _)) by lia.
    destruct (Z.ltb_spec (1024 * (1024 * 1024)) ram_bytes); [done|].
    by assert (ram_bytes = 1073741824) as -> by lia. }
  cbn [fst snd]. unfold init_dir.
  destruct (init_large_ok (Z.to_nat 256) PageDirectory_new 0) as (d1 & Hl & Hd1 & _); [done|lia..|].
  rewrite Hl, bind_Ret_l. unfold setup_recursive. rewrite upd_in_range by lia.
  eexists. split; [done|]. unfold page_of, first_dynamic, page_of, pd_index_of, phys_to_virt, wrapping_add, MIB, KERNEL_OFFSET.
  rewrite (Z.mod_small (p + 0xC0000000)) by lia. rewrite !Z.shiftr_div_pow2 by lia.
  change (2 ^ 12) with 4096. change (2 ^ 22) with 0x400000. unfold FRAME_ALLOC_START.
  change (0x2800000 / 4096) with 10240. change (1024 * (1024 * 1024) / 4096) with 262144.
  split_and!; [apply Z.div_le_lower_bound; lia|apply Z.div_lt_upper_bound; lia| |apply (get_insert_eq d1 1023); lia].
  symmetry. apply (Z.div_unique _ _ _ (p - 0x3FC00000)); lia.
Qed.


(** Unmapping and write-protecting are local: [unmap] removes the page (the
    whole 4 MiB slot when it was a large page) and [set_user_page_writable]
    gives a mapped 4 KiB page the requested write permission with frame and
    user right unchanged; no other page is affected by either. *)
Theorem unmap_and_protect_local ram vm live v w :
  vm_ok ram vm live -> mapped_space v ->
  (exists vm', unmap vm v = Ret vm' /\ vm_ok ram vm' live /\ hw_walk vm' v = None /\
     (forall v', mapped_space v' -> v' / 4096 <> v / 4096 ->
        had_table vm (v / 0x400000) \/ v' / 0x400000 <> v / 0x400000 -> hw_walk vm' v' = hw_walk vm v')) /\
  (exists vm', set_user_page_writable vm v w = Ret vm' /\ vm_ok ram vm' live /\
     (forall v', mapped_space v' -> v' / 4096 <> v / 4096 -> hw_walk vm' v' = hw_walk vm v') /\
     (forall p w0 u0, had_table vm (v / 0x400000) -> hw_walk vm v = Some (p, w0, u0) ->
        exists wd, hw_walk vm' v = Some (p, wd && w, u0))).
Proof.
  intros Hok Hv. split.
  - destruct (unmap_ok ram vm live v Hok Hv) as (vm' & ? & ? & Hn & ? & _). exists vm'. split_and!; try done. by apply Hn.
  - by apply set_writable_ok.
Qed.

(** ** Witnesses *)

(** A directory whose slot 1 is a large page at 4 MiB, as the boot identity
    map has it, over the allocator state right after boot. *)
Definition wit_vm : Vm :=
  mkVm (<[1%nat := 0x4000A3]> PageDirectory_new) ∅ (mkFA first_dynamic []).

Lemma wit_vm_ok : vm_ok (64 * MIB) wit_vm ∅.
Proof.
  assert (forall i e, slot_ok i -> get (dir wit_vm) i = Some e -> ~ is_small e) as Hno.
  { intros i e Hi He. change (get (<[Z.to_nat 1 := 0x4000A3]> zero_page) i = Some e) in He.
    rewrite get_insert in He by (by vm_compute). destruct (1 =? i).
    - injection He as <-. intros [_ H]. by vm_compute in H.
    - rewrite get_zero_page in He by (unfold slot_ok, index_ok in *; lia).
      injection He as <-. intros [H _]. by vm_compute in H. }
  constructor.
  - split; [by vm_compute|done].
  - by vm_compute.
  - split; [done|]. apply Forall_insert; [apply zero_page_ok|by unfold in_u].
  - constructor; simpl; [by vm_compute|constructor| |by intros f ?%not_elem_of_nil].
    intros f. split; [|lia]. intros [?%not_elem_of_nil|?%not_elem_of_empty]; done.
  - intros i e Hi He Hs. by destruct (Hno i e Hi He).
  - intros i i' e e' Hi _ He _ Hs. by destruct (Hno i e Hi He).
Qed.

(** Mapping a device page into the middle of the large page. *)
Lemma map_physical_range_exact_witness :
  exists vm', map_physical_range (64 * MIB) [] wit_vm 0xFEE00000 4096 0x401000 0x1B = Ret vm' /\
    maps_range wit_vm vm' 0x401000 0xFEE00000 4096 0x1B.
Proof.
  assert (flags_ok 0x1B) as Hfl by by vm_compute.
  destruct (map_physical_range_exact (64 * MIB) [] wit_vm ∅ 0xFEE00000 4096 0x401000 0x1B wit_vm_ok
    (no_stacks_live _) Hfl) as [[_ Hr]|(vm' & live' & H1 & _ & _ & H2)]; [done..|by vm_compute in Hr|eauto].
Defined.

Lemma user_page_alloc_exact_witness :
  exists vm' p w, alloc_and_map_user_page (64 * MIB) [] wit_vm 0x40000000 = Ret vm' /\
    hw_walk vm' 0x40000000 = Some (p, w, true) /\ mem vm' !! p = Some zero_page.
Proof.
  destruct (user_page_alloc_exact (64 * MIB) [] wit_vm ∅ 0x40000000 wit_vm_ok (no_stacks_live _)) as
    (vm' & live' & p & w & H1 & _ & H2 & _ & H3 & _); [done|by vm_compute|].
  exists vm', p, w. split; [done|]. split; [by rewrite Z.add_0_r in H2|]. apply H3. left. by vm_compute.
Defined.

Lemma direct_map_exact_witness :
  exists d, init_dir (configure_from_ram (64 * MIB)).2 0x1000000 PageDirectory_new = Ret d /\
    hw_walk (mkVm d ∅ (mkFA 0 [])) (phys_to_virt 0x2800004) = Some (0x2800004, true, false).
Proof.
  assert (0 <= 0x2800004 < (configure_from_ram (64 * MIB)).1) as Hp by by vm_compute.
  assert (in_u32 (64 * MIB)) as Hr by by vm_compute.
  destruct (init_dir (configure_from_ram (64 * MIB)).2 0x1000000 PageDirectory_new) as [d|] eqn:Hd.
  - destruct (direct_map_exact (64 * MIB) 0x1000000 d ∅ (mkFA 0 []) 0x2800004 Hr Hd Hp eq_refl) as [H _].
    exists d. split; [reflexivity|exact H].
  - exfalso. vm_compute in Hd. discriminate Hd.
Defined.

Lemma direct_map_window_lost_witness :
  exists d, init_dir 256 0x1000000 PageDirectory_new = Ret d /\ get d 1023 = Some 0x1000003.
Proof.
  destruct (direct_map_window_lost (2 ^ 30) 0x1000000 0x3FC00000) as (d & H1 & _ & _ & H2);
    [by vm_compute|done|by vm_compute|]. exists d. split; [exact H1|exact H2].
Defined.


Lemma unmap_and_protect_local_witness : exists vm', unmap wit_vm 0x400000 = Ret vm' /\ hw_walk vm' 0x400000 = None.
Proof.
  destruct (unmap_and_protect_local (64 * MIB) wit_vm ∅ 0x400000 true wit_vm_ok) as [(vm' & H1 & _ & H2 & _) _];
    [by vm_compute|eauto].
Defined.
