(* ===== verification/Resources.v ===== *)
(** * Physical resources, DMA memory and the kernel MMIO window

    Model of [kernel/src/memory/resources.rs]: the table of owned physical
    ranges, contiguous physical allocation on top of the frame allocator, the
    allocator of kernel virtual ranges, device mappings and DMA buffers.  The
    log output has no effect on this state and is left out. *)

From S2P Require Import Prelude Frames Paging.

Inductive ResourceKind : Type :=
| Free | Reserved | Kernel | Mmio | Framebuffer | Dma | Acpi | Firmware.
#[global] Instance ResourceKind_eq_dec : EqDecision ResourceKind.
Proof. solve_decision. Defined.

Record PhysRange : Type := mkPR { pr_start : Z; pr_size : Z; pr_kind : ResourceKind; pr_owner : string }.
#[global] Instance PhysRange_eq_dec : EqDecision PhysRange.
Proof. solve_decision. Defined.

Inductive ResourceError : Type :=
| ZeroSize
| InvalidAlignment
| Overflow
| AddressTooHigh
| OutOfMemory
| NotFound
| MappingFailed
| Overlap (requested existing : PhysRange).

(** [Result] as a monad: the [?] operator. *)
Definition res (A : Type) : Type := result A ResourceError.
Definition res_bind {A B} (m : res A) (f : A -> res B) : res B :=
  match m with Ok a => f a | Err e => Err e end.
Definition ok_or {A} (o : option A) (e : ResourceError) : res A :=
  match o with Some a => Ok a | None => Err e end.
Notation "'try' x := m 'in' k" := (res_bind m (fun x => k))
  (at level 200, x binder, m at level 100, k at level 200, right associativity).

(** [PhysRange::end] *)
Definition PhysRange_end (r : PhysRange) : res Z := ok_or (checked_add 64 (pr_start r) (pr_size r)) Overflow.

Definition align_up_w (w value align : Z) : res Z :=
  if (align =? 0) || negb (is_power_of_two align) then Err InvalidAlignment
  else ok_or ((fun v => align_down w v align) <$> checked_add w value (align - 1)) Overflow.
Definition align_up_u64 : Z -> Z -> res Z := align_up_w 64.
Definition align_up_u32 : Z -> Z -> res Z := align_up_w 32.

(** ** The resource table *)

Definition ranges_overlap (start end_ : Z) (r : PhysRange) (r_end : Z) : bool :=
  (start <? r_end) && (pr_start r <? end_).

(** [ResourceManager::is_free] *)
Definition is_free (ranges : list PhysRange) (start size : Z) : bool :=
  match checked_add 64 start size with
  | None => false
  | Some end_ =>
      if size =? 0 then false
      else negb (existsb (fun r => ranges_overlap start end_ r (saturating_add 64 (pr_start r) (pr_size r))) ranges)
  end.

(** The loop of [reserve_range]: the first overlapping entry decides. *)
Fixpoint reserve_scan (ranges : list PhysRange) (requested : PhysRange) (end_ : Z) : res bool :=
  match ranges with
  | [] => Ok false
  | existing :: rest =>
      try existing_end := PhysRange_end existing in
      if ranges_overlap (pr_start requested) end_ existing existing_end then
        if (pr_start existing =? pr_start requested) && (pr_size existing =? pr_size requested)
           && bool_decide (pr_kind existing = pr_kind requested)
           && bool_decide (pr_owner existing = pr_owner requested)
        then Ok true
        else Err (Overlap requested existing)
      else reserve_scan rest requested end_
  end.

(** [ResourceManager::reserve_range] *)
Definition reserve_range (ranges : list PhysRange) (start size : Z) (kind : ResourceKind) (owner : string)
    : res () * list PhysRange :=
  if size =? 0 then (Err ZeroSize, ranges) else
  match checked_add 64 start size with
  | None => (Err Overflow, ranges)
  | Some end_ =>
      let requested := mkPR start size kind owner in
      match reserve_scan ranges requested end_ with
      | Err e => (Err e, ranges)
      | Ok true => (Ok (), ranges)
      | Ok false => (Ok (), sort_by_key pr_start (ranges ++ [requested]))
      end
  end.

(** [ResourceManager::release_range] *)
Definition release_range (ranges : list PhysRange) (start size : Z) : res PhysRange * list PhysRange :=
  match vec_position (fun r => (pr_start r =? start) && (pr_size r =? size)) ranges with
  | Some index =>
      match get ranges index with
      | Some r => (Ok r, vec_remove ranges index)
      | None => (Err NotFound, ranges)
      end
  | None => (Err NotFound, ranges)
  end.

(** ** Kernel virtual ranges *)

Record VirtualRange : Type := mkVR { vr_start : Z; vr_size : Z; vr_owner : string }.
Record VirtualRangeAllocator : Type := mkVA { va_base : Z; va_end : Z; va_ranges : list VirtualRange }.
#[global] Instance VirtualRangeAllocator_eta : Eta VirtualRangeAllocator := fun a =>
  mkVA (va_base a) (va_end a) (va_ranges a).

(** The first-fit scan: [Ok (inl c)] is "place at [c] before this range",
    [Ok (inr c)] the cursor after the last range. *)
Fixpoint virtual_scan (ranges : list VirtualRange) (size align cursor : Z) : res (Z + Z) :=
  match ranges with
  | [] => Ok (inr cursor)
  | r :: rest =>
      try candidate_end := ok_or (checked_add 32 cursor size) Overflow in
      if candidate_end <=? vr_start r then Ok (inl cursor) else
      try r_end := ok_or (checked_add 32 (vr_start r) (vr_size r)) Overflow in
      if cursor <? r_end then
        try cursor := align_up_u32 r_end align in virtual_scan rest size align cursor
      else virtual_scan rest size align cursor
  end.

(** The search of [alloc_kernel_virtual] from the aligned [cursor], and the
    insertion of the range it finds. *)
Definition place_virtual (a : VirtualRangeAllocator) (size align cursor : Z) (owner : string)
    : res Z * VirtualRangeAllocator :=
  let ranges := sort_by_key vr_start (va_ranges a) in
  let a := a <| va_ranges := ranges |> in
  let place c := (Ok c, a <| va_ranges := sort_by_key vr_start (ranges ++ [mkVR c size owner]) |>) in
  match virtual_scan ranges size align cursor with
  | Err e => (Err e, a)
  | Ok (inl cursor) => place cursor
  | Ok (inr cursor) =>
      match checked_add 32 cursor size with
      | None => (Err Overflow, a)
      | Some candidate_end =>
          if va_end a <? candidate_end then (Err OutOfMemory, a) else place cursor
      end
  end.

(** [VirtualRangeAllocator::alloc_kernel_virtual] *)
Definition alloc_kernel_virtual (a : VirtualRangeAllocator) (size align : Z) (owner : string)
    : res Z * VirtualRangeAllocator :=
  if size =? 0 then (Err ZeroSize, a) else
  if (align =? 0) || negb (is_power_of_two align) then (Err InvalidAlignment, a) else
  match align_up_u64 size PAGE_SIZE with
  | Err e => (Err e, a)
  | Ok size =>
      if U32_MAX <? size then (Err Overflow, a) else
      let align := Z.max align PAGE_SIZE in
      match align_up_u32 (va_base a) align with
      | Err e => (Err e, a)
      | Ok cursor => place_virtual a size align cursor owner
      end
  end.

(** [VirtualRangeAllocator::free_kernel_virtual] *)
Definition free_kernel_virtual (a : VirtualRangeAllocator) (start size : Z) : res () * VirtualRangeAllocator :=
  match align_up_u64 size PAGE_SIZE with
  | Err e => (Err e, a)
  | Ok size =>
      let size := size mod 2 ^ 32 in
      match vec_position (fun r => (vr_start r =? start) && (vr_size r =? size)) (va_ranges a) with
      | Some index => (Ok (), a <| va_ranges := vec_remove (va_ranges a) index |>)
      | None => (Err NotFound, a)
      end
  end.

(** ** The module's state *)

Record IoMapRecord : Type := mkIo {
  io_returned : Z; io_map_base : Z; io_map_size : Z; io_phys_base : Z; io_owner : string
}.

(** [RESOURCE_MANAGER], [KERNEL_VA], [IO_MAPPINGS] and [PAGING]. *)
Record Rm : Type := mkRm {
  rm_ranges : list PhysRange;
  rm_va : VirtualRangeAllocator;
  rm_io : list IoMapRecord;
  rm_vm : Vm
}.
#[global] Instance Rm_eta : Eta Rm := fun s => mkRm (rm_ranges s) (rm_va s) (rm_io s) (rm_vm s).

(** [for frame in first..first + pages { free_phys_frame(frame) }] *)
Definition free_run (fa : FrameAllocator) (first pages : Z) : FrameAllocator :=
  foldl free_phys_frame fa (seqZ first pages).

Definition with_frames (s : Rm) (fa : FrameAllocator) : Rm :=
  s <| rm_vm := rm_vm s <| frames := fa |> |>.

(** [DmaBuffer] and [MmioMapping] *)
Record DmaBuffer : Type := mkDma {
  db_phys : Z; db_virt : Z; db_len : Z; db_alloc_len : Z; db_owner : string; db_released : bool
}.
Record MmioMapping : Type := mkMmio { mm_virt : Z; mm_phys : Z; mm_size : Z; mm_mapped : bool; mm_reserved : bool }.
#[global] Instance DmaBuffer_eta : Eta DmaBuffer := fun b =>
  mkDma (db_phys b) (db_virt b) (db_len b) (db_alloc_len b) (db_owner b) (db_released b).
#[global] Instance MmioMapping_eta : Eta MmioMapping := fun m =>
  mkMmio (mm_virt m) (mm_phys m) (mm_size m) (mm_mapped m) (mm_reserved m).

(** [DmaBuffer::phys_of] *)
Definition phys_of (b : DmaBuffer) (ptr len : Z) : res Z :=
  try offset := ok_or (if db_virt b <=? ptr then Some (ptr - db_virt b) else None) NotFound in
  try end_ := ok_or (checked_add 32 offset len) Overflow in
  if db_len b <? end_ then Err NotFound else
  try phys := ok_or (checked_add 64 (db_phys b) offset) Overflow in
  if U32_MAX <? phys then Err Overflow else Ok phys.

Section System.
  Variables (ram : Z) (stacks : list (option Z)).

(** [ResourceManager::alloc_phys_below] *)
Definition alloc_phys_below (s : Rm) (max_addr size align : Z) (kind : ResourceKind) (owner : string)
    : outcome (res Z * Rm) :=
  if size =? 0 then Ret (Err ZeroSize, s) else
  if (align =? 0) || negb (is_power_of_two align) then Ret (Err InvalidAlignment, s) else
  match align_up_u64 size PAGE_SIZE with
  | Err e => Ret (Err e, s)
  | Ok alloc_size =>
      let alloc_align := Z.max align PAGE_SIZE in
      if negb (is_power_of_two alloc_align) then Ret (Err InvalidAlignment, s) else
      let max_addr := Z.min max_addr U32_MAX in
      match checked_add 64 max_addr 1 with
      | None => Ret (Err Overflow, s)
      | Some limit_exclusive =>
          let max_page_exclusive := (limit_exclusive / PAGE_SIZE) mod 2 ^ 32 in
          let pages := (alloc_size / PAGE_SIZE) mod 2 ^ 32 in
          let align_pages := alloc_align / PAGE_SIZE in
          '(r, fa) ← alloc_contiguous_frames_aligned_below ram stacks (frames (rm_vm s))
                       pages align_pages max_page_exclusive;
          let s := with_frames s fa in
          match r with
          | Err _ => Ret (Err OutOfMemory, s)
          | Ok first_page =>
              let phys := Z.shiftl first_page 12 in
              match reserve_range (rm_ranges s) phys alloc_size kind owner with
              | (Err e, _) => Ret (Err e, with_frames s (free_run fa first_page pages))
              | (Ok _, ranges) => Ret (Ok (phys mod 2 ^ 32), s <| rm_ranges := ranges |>)
              end
          end
      end
  end.

(** [ioremap_with_flags] *)
Definition ioremap_with_flags (s : Rm) (phys size : Z) (owner : string) (flags : Z) : outcome (res Z * Rm) :=
  if size =? 0 then Ret (Err ZeroSize, s) else
  if U32_MAX <? phys then Ret (Err AddressTooHigh, s) else
  let phys_base := Z.land phys (not_u 64 (PAGE_SIZE - 1)) in
  let offset := phys - phys_base in
  match (try span := ok_or (checked_add 64 size offset) Overflow in
         try map_size := align_up_u64 span PAGE_SIZE in
         try map_end := ok_or (checked_add 64 phys_base map_size) Overflow in
         if U32_MAX + 1 <? map_end then Err AddressTooHigh else Ok map_size) with
  | Err e => Ret (Err e, s)
  | Ok map_size =>
      match alloc_kernel_virtual (rm_va s) (map_size mod 2 ^ 32) PAGE_SIZE owner with
      | (Err e, va) => Ret (Err e, s <| rm_va := va |>)
      | (Ok map_base, va) =>
          let s := s <| rm_va := va |> in
          vm ← map_physical_range ram stacks (rm_vm s) phys_base map_size map_base flags;
          let s := s <| rm_vm := vm |> in
          match checked_add 32 map_base offset with
          | None => Ret (Err Overflow, s)
          | Some returned =>
              Ret (Ok returned, s <| rm_io := rm_io s ++ [mkIo returned map_base map_size phys_base owner] |>)
          end
      end
  end.

Definition mmio_flags : Z := Z.lor (Z.lor (Z.lor PRESENT WRITABLE) WRITE_THROUGH) CACHE_DISABLE.
Definition wc_flags : Z := Z.lor (Z.lor PRESENT WRITABLE) PAT.

(** [ioremap], [ioremap_wc] *)
Definition ioremap (s : Rm) (phys size : Z) (owner : string) : outcome (res Z * Rm) :=
  ioremap_with_flags s phys size owner mmio_flags.
Definition ioremap_wc (pat_wc_enabled : bool) (s : Rm) (phys size : Z) (owner : string) : outcome (res Z * Rm) :=
  ioremap_with_flags s phys size owner (if pat_wc_enabled then wc_flags else mmio_flags).

(** The unmapping loop of [iounmap], [n] iterations from offset [off]. *)
Fixpoint unmap_pages (n : nat) (vm : Vm) (map_base off : Z) : outcome Vm :=
  match n with
  | O => Ret vm
  | S n =>
      v ← add_u 32 map_base off;
      vm ← unmap vm v;
      off ← add_u 32 off PAGE_SIZE;
      unmap_pages n vm map_base off
  end.

(** [iounmap] *)
Definition iounmap (s : Rm) (virt : Z) : outcome (res () * Rm) :=
  match vec_position (fun m => io_returned m =? virt) (rm_io s) with
  | None => Ret (Err NotFound, s)
  | Some index =>
      record ← idx (rm_io s) index;
      let s := s <| rm_io := vec_remove (rm_io s) index |> in
      vm ← unmap_pages (Z.to_nat ((io_map_size record + (PAGE_SIZE - 1)) / PAGE_SIZE)) (rm_vm s) (io_map_base record) 0;
      let s := s <| rm_vm := vm |> in
      let '(r, va) := free_kernel_virtual (rm_va s) (io_map_base record) (io_map_size record) in
      Ret (r, s <| rm_va := va |>)
  end.

(** [reserve_and_ioremap] *)
Definition reserve_and_ioremap (s : Rm) (phys size : Z) (kind : ResourceKind) (owner : string)
    : outcome (res Z * Rm) :=
  match reserve_range (rm_ranges s) phys size kind owner with
  | (Err e, ranges) => Ret (Err e, s <| rm_ranges := ranges |>)
  | (Ok _, ranges) =>
      '(r, s) ← ioremap (s <| rm_ranges := ranges |>) phys size owner;
      match r with
      | Ok v => Ret (Ok v, s)
      | Err e => Ret (Err e, s <| rm_ranges := (release_range (rm_ranges s) phys size).2 |>)
      end
  end.

(** [map_resource] *)
Definition map_resource (s : Rm) (phys size : Z) (kind : ResourceKind) (owner : string)
    : outcome (res MmioMapping * Rm) :=
  '(r, s) ← reserve_and_ioremap s phys size kind owner;
  match r with
  | Ok virt => Ret (Ok (mkMmio virt phys size true true), s)
  | Err e => Ret (Err e, s)
  end.

(** [MmioMapping::release_owned], which [Drop] runs *)
Definition mmio_release_owned (s : Rm) (m : MmioMapping) : outcome (res () * MmioMapping * Rm) :=
  '(r1, m1, s1) ← (if mm_mapped m then
                     '(r, s) ← iounmap s (mm_virt m);
                     match r with
                     | Ok _ => Ret (Ok (), m <| mm_mapped := false |>, s)
                     | Err e => Ret (Err e, m, s)
                     end
                   else Ret (Ok (), m, s));
  match r1 with
  | Err e => Ret (Err e, m1, s1)
  | Ok _ =>
      if mm_reserved m1 then
        let '(r, ranges) := release_range (rm_ranges s1) (mm_phys m1) (mm_size m1) in
        let s2 := s1 <| rm_ranges := ranges |> in
        match r with
        | Ok _ => Ret (Ok (), m1 <| mm_reserved := false |>, s2)
        | Err e => Ret (Err e, m1, s2)
        end
      else Ret (Ok (), m1, s1)
  end.

(** [dma_alloc_for]; the buffer is zeroed through the alias of its frames. *)
Fixpoint zero_frames (vm : Vm) (fs : list Z) : outcome Vm :=
  match fs with
  | [] => Ret vm
  | f :: fs => vm ← zero_frame vm (Z.shiftl f 12); zero_frames vm fs
  end.
Definition zero_run (vm : Vm) (first pages : Z) : outcome Vm := zero_frames vm (seqZ first pages).

Definition dma_alloc_for (s : Rm) (owner : string) (size align max_phys : Z) : outcome (res DmaBuffer * Rm) :=
  match align_up_u64 size PAGE_SIZE with
  | Err e => Ret (Err e, s)
  | Ok alloc_len =>
      let alloc_len := alloc_len mod 2 ^ 32 in
      if size =? 0 then Ret (Err ZeroSize, s) else
      top ← sub_u ram 1;
      let max_phys := Z.min max_phys top in
      '(r, s) ← alloc_phys_below s max_phys size align Dma owner;
      match r with
      | Err e => Ret (Err e, s)
      | Ok phys =>
          let virt := phys_to_virt phys in
          vm ← zero_run (rm_vm s) (page_of phys) (alloc_len / PAGE_SIZE);
          let s := s <| rm_vm := vm |> in
          Ret (Ok (mkDma phys virt size alloc_len owner false), s)
      end
  end.

(** [DmaBuffer::release_owned], which [dma_free] and [Drop] run *)
Definition dma_release_owned (s : Rm) (b : DmaBuffer) : res () * DmaBuffer * Rm :=
  if db_released b then (Ok (), b, s) else
  let pages := db_alloc_len b / PAGE_SIZE in
  let first := page_of (db_phys b) in
  match release_range (rm_ranges s) (db_phys b) (db_alloc_len b) with
  | (Err e, _) => (Err e, b, s)
  | (Ok released, ranges) =>
      let s := with_frames (s <| rm_ranges := ranges |>) (free_run (frames (rm_vm s)) first pages) in
      (if bool_decide (pr_kind released = Dma) then Ok () else Err NotFound, b <| db_released := true |>, s)
  end.
End System.

(** The fixed reservations of [init]. *)
Definition fixed_ranges : list PhysRange :=
  [mkPR 0x00000000 0x00005000 Firmware "bios-lowmem"; mkPR 0x00005000 0x00001000 Reserved "boot-fb-info";
   mkPR 0x00006000 0x00001000 Reserved "vesa-scratch"; mkPR 0x00007000 0x00001000 Reserved "boot-info";
   mkPR 0x00008000 0x000F8000 Firmware "bios-lowmem"; mkPR 0x00100000 0x00F00000 Reserved "boot-early";
   mkPR 0x01000000 0x00800000 Kernel "kernel+stack"; mkPR 0x01800000 0x01000000 Kernel "kernel-heap"].

Fixpoint reserve_all (todo ranges : list PhysRange) : res () * list PhysRange :=
  match todo with
  | [] => (Ok (), ranges)
  | r :: todo =>
      match reserve_range ranges (pr_start r) (pr_size r) (pr_kind r) (pr_owner r) with
      | (Ok _, ranges) => reserve_all todo ranges
      | (Err e, ranges) => (Err e, ranges)
      end
  end.

(** [init], given whether it ran before *)
Definition resources_init (bi : BootInfo) (initialized : bool) (ranges : list PhysRange) : res () * list PhysRange :=
  if initialized then (Ok (), ranges) else
  match reserve_all fixed_ranges ranges with
  | (Err e, ranges) => (Err e, ranges)
  | (Ok _, ranges) =>
      if (bi_magic bi =? BOOTINFO_MAGIC) && negb (Z.land (bi_flags bi) 1 =? 0)
         && negb (bi_disk_phys bi =? 0) && negb (bi_disk_sectors bi =? 0) then
        let bytes := bi_disk_sectors bi * 512 in
        if bytes <? 2 ^ 64 then reserve_range ranges (bi_disk_phys bi) bytes Reserved "boot-ramdisk"
        else (Err Overflow, ranges)
      else (Ok (), ranges)
  end.

(** ** The table of owned ranges *)

Definition range_ok (r : PhysRange) : Prop := 0 <= pr_start r /\ 0 < pr_size r /\ pr_start r + pr_size r < 2 ^ 64.

(** Non-empty ranges that do not wrap, in address order and pairwise disjoint. *)
Definition ranges_ok (rs : list PhysRange) : Prop :=
  Forall range_ok rs /\ StronglySorted (before pr_start pr_size) rs.

Definition papart := apart pr_start pr_size.

Lemma overlap_apart r x :
  range_ok r -> range_ok x ->
  ranges_overlap (pr_start x) (pr_start x + pr_size x) r (pr_start r + pr_size r) = false <-> papart x r.
Proof.
  intros (? & ? & ?) (? & ? & ?). unfold ranges_overlap, papart, apart, before.
  destruct (Z.ltb_spec (pr_start x) (pr_start r + pr_size r)), (Z.ltb_spec (pr_start r) (pr_start x + pr_size x));
    simpl; split; try done; lia.
Qed.

Lemma range_end_ok r : range_ok r -> PhysRange_end r = Ok (pr_start r + pr_size r).
Proof.
  intros (? & ? & ?). unfold PhysRange_end, checked_add. by rewrite (proj2 (Z.ltb_lt _ _)).
Qed.

(** The scan finds the overlapping entry, if there is one. *)
Lemma reserve_scan_ok rs x :
  Forall range_ok rs -> range_ok x ->
  match reserve_scan rs x (pr_start x + pr_size x) with
  | Ok false => Forall (papart x) rs
  | Ok true => x ∈ rs
  | Err e => exists r, e = Overlap x r /\ r ∈ rs /\ ~ papart x r /\ r <> x
  end.
Proof.
  intros Hrs Hx. induction Hrs as [|r rs Hr Hrs IH]; simpl; [constructor|].
  rewrite (range_end_ok r Hr). simpl. destruct (ranges_overlap _ _ r _) eqn:Hov.
  - assert (~ papart x r) as Hna by (intros H%overlap_apart; [congruence|done..]).
    destruct ((_ =? _) && _ && _ && _) eqn:Hsame.
    + rewrite !andb_true_iff, !Z.eqb_eq, !bool_decide_eq_true in Hsame.
      destruct Hsame as (((H1 & H2) & H3) & H4). apply elem_of_cons. left.
      destruct r, x; simpl in *; congruence.
    + exists r. split_and!; [done|by left|done|]. intros ->.
      rewrite !Z.eqb_refl, !bool_decide_eq_true_2 in Hsame by done. done.
  - apply overlap_apart in Hov; [|done..].
    destruct (reserve_scan rs x _) as [[|]|e]; [by right|by constructor|].
    destruct IH as (r' & ? & ? & ? & ?). exists r'. split_and!; try done. by right.
Qed.

Lemma is_free_ok rs start size :
  Forall range_ok rs -> 0 <= start -> 0 <= size ->
  is_free rs start size = true <->
  0 < size /\ start + size < 2 ^ 64 /\ forall k o, Forall (papart (mkPR start size k o)) rs.
Proof.
  intros Hrs Hs Hz. unfold is_free, checked_add. destruct (Z.ltb_spec (start + size) (2 ^ 64)); [|split; [done|lia]].
  destruct (Z.eqb_spec size 0); [split; [done|lia]|]. rewrite negb_true_iff, <- not_true_iff_false, existsb_exists.
  assert (forall k o, range_ok (mkPR start size k o)) as Hx by (intros; unfold range_ok; simpl; lia).
  assert (forall r, r ∈ rs -> saturating_add 64 (pr_start r) (pr_size r) = pr_start r + pr_size r) as Hsat.
  { intros r Hr. pose proof (proj1 (Forall_forall _ _) Hrs r Hr) as (? & ? & ?). unfold saturating_add. lia. }
  split.
  - intros Hno. split_and!; [lia|done|]. intros k o. apply Forall_forall. intros r Hr.
    apply overlap_apart; [by apply (proj1 (Forall_forall _ _) Hrs)|done|]. simpl.
    apply not_true_iff_false. intros Hov. apply Hno. exists r. rewrite Hsat by done. by rewrite <- list_elem_of_In.
  - intros (_ & _ & Ha) (r & Hr%list_elem_of_In & Hov). rewrite Hsat in Hov by done.
    pose proof (proj1 (Forall_forall _ _) (Ha Free "") r Hr) as Hap.
    apply overlap_apart in Hap; [simpl in Hap; congruence|by apply (proj1 (Forall_forall _ _) Hrs)|done].
Qed.

Lemma ranges_insert rs x :
  ranges_ok rs -> range_ok x -> Forall (papart x) rs ->
  ranges_ok (sort_by_key pr_start (rs ++ [x])) /\ (forall r, r ∈ sort_by_key pr_start (rs ++ [x]) <-> r = x \/ r ∈ rs).
Proof.
  intros [Hf Hs] Hx Ha. split; [split|].
  - rewrite sort_by_key_Permutation. apply Forall_app. split; [done|]. by constructor.
  - apply intervals_insert; [|by destruct Hx as (_ & ? & _)|done..].
    eapply Forall_impl; [exact Hf|]. by intros r (_ & ? & _).
  - intros r. rewrite sort_by_key_Permutation, elem_of_app, list_elem_of_singleton. tauto.
Qed.

(** Every case of a reservation. *)
Lemma reserve_range_cases rs start size kind owner :
  ranges_ok rs -> 0 <= start -> 0 <= size ->
  let x := mkPR start size kind owner in
  let out := reserve_range rs start size kind owner in
  match out.1 with
  | Ok _ => range_ok x /\ ranges_ok out.2 /\ (forall r, r ∈ out.2 <-> r = x \/ r ∈ rs) /\
            (x ∈ rs /\ out.2 = rs \/ Forall (papart x) rs)
  | Err e => out.2 = rs /\ (size = 0 \/ 2 ^ 64 <= start + size \/ exists r, r ∈ rs /\ ~ papart x r /\ r <> x)
  end.
Proof.
  intros [Hf Hs] H0 Hz x out. subst out. unfold reserve_range, checked_add.
  destruct (Z.eqb_spec size 0) as [->|]; [simpl; auto|].
  destruct (Z.ltb_spec (start + size) (2 ^ 64)); [|simpl; split; [done|right; left; lia]].
  assert (range_ok x) as Hx by (unfold range_ok; simpl; lia). fold x.
  pose proof (reserve_scan_ok rs x Hf Hx) as Hscan. simpl in Hscan.
  destruct (reserve_scan rs x (start + size)) as [[|]|e]; simpl.
  - split; [done|]. split; [by split|]. split; [|by left]. intros r. split; [auto|]. by intros [-> |].
  - destruct (ranges_insert rs x (conj Hf Hs) Hx Hscan) as [Ho Hin].
    split; [done|]. split; [done|]. split; [done|by right].
  - destruct Hscan as (r & -> & ? & ? & ?). split; [done|]. right; right. by exists r.
Qed.

(** A new reservation adds one entry. *)
Lemma reserve_perm rs start size kind owner rs' :
  ranges_ok rs -> 0 <= start -> 0 <= size -> let x := mkPR start size kind owner in
  (reserve_range rs start size kind owner).1 = Ok () -> x ∉ rs ->
  (reserve_range rs start size kind owner).2 ≡ₚ x :: rs' -> rs' ≡ₚ rs.
Proof.
  intros [Hf _] H0 Hz x. unfold reserve_range, checked_add. fold x.
  destruct (Z.eqb_spec size 0); [done|]. destruct (Z.ltb_spec (start + size) (2 ^ 64)); [|done].
  assert (range_ok x) as Hx by (unfold range_ok; simpl; lia). pose proof (reserve_scan_ok rs x Hf Hx) as Hs. simpl in Hs.
  destruct (reserve_scan rs x (start + size)) as [[|]|e]; simpl; [done| |done].
  intros _ _. rewrite sort_by_key_Permutation, <- Permutation_cons_append. by intros ?%(inj (cons x)).
Qed.

(** Releasing removes exactly one entry. *)
Lemma release_range_cases rs start size :
  ranges_ok rs ->
  match release_range rs start size with
  | (Ok r, rs') => pr_start r = start /\ pr_size r = size /\ ranges_ok rs' /\ rs ≡ₚ r :: rs'
  | (Err e, rs') => e = NotFound /\ rs' = rs /\ forall r, r ∈ rs -> ~ (pr_start r = start /\ pr_size r = size)
  end.
Proof.
  intros [Hf Hs]. unfold release_range. destruct (vec_position _ rs) as [i|] eqn:Hpos.
  - apply vec_position_Some in Hpos as (l1 & r & l2 & -> & -> & Hr & _). rewrite get_middle, vec_remove_middle.
    apply andb_true_iff in Hr as [?%Z.eqb_eq ?%Z.eqb_eq]. split_and!; try done.
    + split; [|by eapply intervals_remove].
      apply Forall_app in Hf as [? Hf]. apply Forall_cons in Hf as [_ ?]. by apply Forall_app.
    + symmetry. apply Permutation_middle.
  - apply vec_position_None in Hpos. split_and!; try done. intros r Hr [<- <-].
    pose proof (proj1 (Forall_forall _ _) Hpos r Hr) as H. simpl in H. by rewrite !Z.eqb_refl in H.
Qed.

(** Releasing an entry of the table. *)
Lemma release_new rs x : ranges_ok rs -> x ∈ rs ->
  exists rs', release_range rs (pr_start x) (pr_size x) = (Ok x, rs') /\ ranges_ok rs' /\ rs ≡ₚ x :: rs'.
Proof.
  intros Hok Hx. pose proof (release_range_cases rs (pr_start x) (pr_size x) Hok) as Hr.
  destruct (release_range _ _ _) as [[r|e] rs']; [|destruct Hr as (_ & _ & Hr); by destruct (Hr x Hx)].
  destruct Hr as (Hr1 & Hr2 & Hr3 & Hperm). exists rs'.
  assert (r = x) as ->; [|done]. apply (before_inj pr_start pr_size rs); [|apply Hok|rewrite Hperm; by left|done|done].
  eapply Forall_impl; [apply Hok|]. by intros y (_ & ? & _).
Qed.

Lemma release_apart rs rs' x r : ranges_ok rs -> rs ≡ₚ x :: rs' -> r ∈ rs' -> papart x r.
Proof.
  intros [_ Hs] Hp Hr.
  assert (StronglySorted papart (x :: rs')) as H.
  { apply (StronglySorted_Permutation _ rs); [apply apart_sym|done|]. clear -Hs.
    induction Hs as [|a l Hl IH Ha]; constructor; [done|]. eapply Forall_impl; [exact Ha|]. intros y ?. by left. }
  apply StronglySorted_inv in H as [_ H]. by apply (proj1 (Forall_forall _ _) H).
Qed.

(** ** Kernel virtual ranges *)

Definition vrange_ok (base end_ : Z) (r : VirtualRange) : Prop :=
  base <= vr_start r /\ 0 < vr_size r /\ vr_start r + vr_size r <= end_.

Definition vapart := apart vr_start vr_size.

(** A window below 4 GiB with ordered disjoint ranges inside. *)
Record va_ok (a : VirtualRangeAllocator) : Prop := {
  vk_window : 0 <= va_base a <= va_end a /\ va_end a < 2 ^ 32;
  vk_ranges : Forall (vrange_ok (va_base a) (va_end a)) (va_ranges a);
  vk_sorted : StronglySorted (before vr_start vr_size) (va_ranges a)
}.

Lemma align_up_w_ok w value align y :
  0 <= w -> is_pow2 align -> align <= 2 ^ w -> 0 <= value -> align_up_w w value align = Ok y ->
  value <= y < value + align /\ y mod align = 0 /\ y < 2 ^ w.
Proof.
  intros Hw Hp Ha Hv. unfold align_up_w, checked_add. pose proof (is_pow2_pos _ Hp).
  rewrite (proj2 (Z.eqb_neq align 0)) by lia. rewrite (proj2 (is_power_of_two_spec align) Hp). simpl.
  destruct (Z.ltb_spec (value + (align - 1)) (2 ^ w)); [|done]. simpl. intros [= <-].
  replace (value + (align - 1)) with (value + align - 1) in * by lia.
  destruct (align_up_pow2 w value align Hp Ha Hw Hv) as [? ?]; [lia|]. split_and!; lia.
Qed.

(** Rounding up succeeds when some aligned value above exists, and is least. *)
Lemma align_up_w_least w value align c :
  0 <= w -> is_pow2 align -> align <= 2 ^ w -> 0 <= value -> value <= c -> c mod align = 0 -> c < 2 ^ w ->
  exists y, align_up_w w value align = Ok y /\ y <= c.
Proof.
  intros Hw Hp Ha Hv Hc Hm Hcw. pose proof (is_pow2_pos _ Hp) as Hpos.
  assert (2 ^ w mod align = 0) as H2w.
  { apply Z.mod_divide; [lia|]. apply is_pow2_divide; [done|by exists w|done]. }
  apply Z.mod_divide in Hm as [k Hk]; [|lia].
  assert (c + align <= 2 ^ w) as Hcap.
  { apply Z.mod_divide in H2w as [q Hq]; [|lia]. assert (k < q) by nia. nia. }
  unfold align_up_w, checked_add. rewrite (proj2 (Z.eqb_neq align 0)) by lia.
  rewrite (proj2 (is_power_of_two_spec align) Hp). simpl.
  rewrite (proj2 (Z.ltb_lt _ _)) by lia. simpl. eexists. split; [done|].
  replace (value + (align - 1)) with (value + align - 1) by lia.
  destruct (align_up_pow2 w value align Hp Ha Hw Hv) as [Hr Hm2]; [lia|]. set (y := align_down _ _ _) in *.
  destruct (Z.le_gt_cases y c) as [|Hlt]; [done|]. apply Z.mod_divide in Hm2 as [j Hj]; [|lia].
  assert (k < j) by nia. assert (j < k + 1) by nia. lia.
Qed.

(** A place for [size] bytes at [c]: aligned, in the window, off every range. *)
Definition vfits (rs : list VirtualRange) (base end_ size align c : Z) : Prop :=
  base <= c /\ c + size <= end_ /\ c mod align = 0 /\
  Forall (fun r => c + size <= vr_start r \/ vr_start r + vr_size r <= c) rs.

Section VirtualScan.
  Variables (base end_ size align : Z).
  Hypothesis (Hwin : 0 <= base /\ end_ < 2 ^ 32) (Hsz : 0 < size) (Ha : is_pow2 align) (Ha32 : align <= 2 ^ 32).

(** First fit is sound. *)
Lemma virtual_scan_sound rs cursor o :
  Forall (vrange_ok base end_) rs -> StronglySorted (before vr_start vr_size) rs ->
  base <= cursor -> cursor mod align = 0 -> virtual_scan rs size align cursor = Ok o ->
  match o with
  | inl c => vfits rs base end_ size align c /\ cursor <= c
  | inr c => cursor <= c /\ c mod align = 0 /\ Forall (fun r => vr_start r + vr_size r <= c) rs
  end.
Proof using All.
  revert cursor. induction rs as [|r rs IH]; intros cursor Hf Hs Hb Hm; simpl.
  { intros [= <-]. split_and!; [lia|done|constructor]. }
  apply Forall_cons in Hf as [(Hr1 & Hr2 & Hr3) Hf]. apply StronglySorted_inv in Hs as [Hs Hlt].
  unfold checked_add. destruct (Z.ltb_spec (cursor + size) (2 ^ 32)); [|done]. simpl.
  destruct (Z.leb_spec (cursor + size) (vr_start r)) as [Hfit|Hno].
  - intros [= <-]. split; [|lia]. split_and!; try lia. constructor; [lia|].
    apply Forall_forall. intros r' Hr'. pose proof (proj1 (Forall_forall _ _) Hlt r' Hr') as Hb'.
    unfold before in Hb'. lia.
  - destruct (Z.ltb_spec (vr_start r + vr_size r) (2 ^ 32)); [|done]. simpl.
    assert (forall c1, virtual_scan rs size align c1 = Ok o -> cursor <= c1 -> vr_start r + vr_size r <= c1 ->
              c1 mod align = 0 ->
              match o with
              | inl c => vfits (r :: rs) base end_ size align c /\ cursor <= c
              | inr c => cursor <= c /\ c mod align = 0 /\ Forall (fun r => vr_start r + vr_size r <= c) (r :: rs)
              end) as Hgo.
    { intros c1 Hsc Hc1 Hrc1 Hm1. specialize (IH c1 Hf Hs ltac:(lia) Hm1 Hsc). destruct o as [c|c].
      - destruct IH as [(? & ? & ? & ?) ?]. split; [|lia]. split_and!; try done. constructor; [lia|done].
      - destruct IH as (? & ? & ?). split_and!; [lia|done|]. constructor; [lia|done]. }
    destruct (Z.ltb_spec cursor (vr_start r + vr_size r)); [|intros Hsc; by apply (Hgo cursor)].
    unfold align_up_u32. destruct (align_up_w 32 (vr_start r + vr_size r) align) as [c1|] eqn:Hal; [|done]. simpl.
    apply align_up_w_ok in Hal as (? & ? & ?); [|done || lia..]. intros Hsc. apply (Hgo c1); try done; lia.
Qed.

(** First fit is complete: it succeeds, at or below any place that fits. *)
Lemma virtual_scan_complete rs cursor c :
  Forall (vrange_ok base end_) rs -> base <= cursor -> cursor <= c -> vfits rs base end_ size align c ->
  exists o, virtual_scan rs size align cursor = Ok o /\ match o with inl c' | inr c' => c' <= c end.
Proof using All.
  revert cursor. induction rs as [|r rs IH]; intros cursor Hf Hb Hc (H1 & H2 & H3 & H4); simpl; [by eexists|].
  apply Forall_cons in Hf as [(Hr1 & Hr2 & Hr3) Hf]. apply Forall_cons in H4 as [H4 H4'].
  unfold checked_add. rewrite (proj2 (Z.ltb_lt (cursor + size) _)) by lia. simpl.
  destruct (Z.leb_spec (cursor + size) (vr_start r)) as [Hfit|Hno]; [by eexists|].
  rewrite (proj2 (Z.ltb_lt (vr_start r + vr_size r) _)) by lia. simpl.
  destruct (Z.ltb_spec cursor (vr_start r + vr_size r)).
  - destruct (align_up_w_least 32 (vr_start r + vr_size r) align c) as (y & Hy & Hyc); try done; try lia.
    unfold align_up_u32. rewrite Hy. simpl.
    apply align_up_w_ok in Hy as (? & ? & ?); [|done || lia..]. apply IH; try done; lia.
  - apply IH; done.
Qed.
End VirtualScan.

Definition page_up (x : Z) : Z := (x + 4095) / 4096 * 4096.

Lemma is_pow2_page : is_pow2 PAGE_SIZE.
Proof. by exists 12. Qed.

Lemma page_up_ok x : 0 <= x -> x <= page_up x < x + 4096 /\ page_up x mod 4096 = 0.
Proof. unfold page_up. intros. mlia. Qed.

Lemma align_up_page x : 0 <= x < 2 ^ 63 -> align_up_u64 x PAGE_SIZE = Ok (page_up x).
Proof.
  intros Hx. destruct (page_up_ok x) as [H1 H2]; [lia|].
  destruct (align_up_w_least 64 x PAGE_SIZE (page_up x)) as (y & Hy & Hle);
    [lia|apply is_pow2_page|by unfold PAGE_SIZE|lia|lia|done|lia|].
  unfold align_up_u64. rewrite Hy. f_equal.
  apply align_up_w_ok in Hy as (H3 & H4 & _); [|lia|apply is_pow2_page|by unfold PAGE_SIZE|lia].
  unfold PAGE_SIZE in *. mlia.
Qed.

Lemma sorted_again (base end_ : Z) rs :
  Forall (vrange_ok base end_) rs -> StronglySorted (before vr_start vr_size) rs ->
  let rs' := sort_by_key vr_start rs in
  rs' ≡ₚ rs /\ Forall (vrange_ok base end_) rs' /\ StronglySorted (before vr_start vr_size) rs'.
Proof.
  intros Hf Hs rs'. assert (rs' ≡ₚ rs) as Hp by apply sort_by_key_Permutation.
  assert (Forall (vrange_ok base end_) rs') as Hf' by (by rewrite Hp). split_and!; [done..|].
  apply sorted_before; [|apply sort_by_key_sorted|].
  - eapply Forall_impl; [exact Hf'|]. by intros r (_ & ? & _).
  - apply (StronglySorted_Permutation _ rs); [apply _|by rewrite Hp|]. clear -Hs.
    induction Hs as [|x l Hl IH Hx]; constructor; [done|]. eapply Forall_impl; [exact Hx|]. intros y ?. by left.
Qed.

Lemma vfits_Permutation rs rs' base end_ size align c :
  rs ≡ₚ rs' -> vfits rs base end_ size align c -> vfits rs' base end_ size align c.
Proof. intros Hp (? & ? & ? & H). split_and!; try done. by rewrite <- Hp. Qed.

(** Placing a range where it fits. *)
Lemma va_place a rs size align c owner :
  va_ok a -> rs ≡ₚ va_ranges a -> Forall (vrange_ok (va_base a) (va_end a)) rs ->
  StronglySorted (before vr_start vr_size) rs -> 0 < size ->
  vfits rs (va_base a) (va_end a) size align c ->
  let rs' := sort_by_key vr_start (rs ++ [mkVR c size owner]) in
  va_ok (mkVA (va_base a) (va_end a) rs') /\ rs' ≡ₚ mkVR c size owner :: va_ranges a.
Proof.
  intros Ha Hp Hf Hs Hsz (H1 & H2 & H3 & H4) rs'.
  assert (rs' ≡ₚ mkVR c size owner :: va_ranges a) as Hperm.
  { unfold rs'. rewrite sort_by_key_Permutation, <- Permutation_cons_append. by rewrite Hp. }
  split; [|done]. constructor; simpl; [apply Ha| |].
  - rewrite Hperm, <- Hp. constructor; [unfold vrange_ok; simpl; lia|done].
  - apply intervals_insert; try done. eapply Forall_impl; [exact Hf|]. by intros r (_ & ? & _).
Qed.

(** The outcome of a search for [size] bytes: the lowest place that fits, or
    none fits. *)
Definition placed (a : VirtualRangeAllocator) (size align : Z) (owner : string)
    (out : res Z * VirtualRangeAllocator) : Prop :=
  let fits := vfits (va_ranges a) (va_base a) (va_end a) size align in
  va_ok out.2 /\ va_base out.2 = va_base a /\ va_end out.2 = va_end a /\
  match out.1 with
  | Ok c => fits c /\ (forall c', fits c' -> c <= c') /\ va_ranges out.2 ≡ₚ mkVR c size owner :: va_ranges a
  | Err e => va_ranges out.2 ≡ₚ va_ranges a /\ forall c, ~ fits c
  end.

Lemma place_virtual_ok a size align cur owner :
  va_ok a -> 0 < size -> is_pow2 align -> align <= 2 ^ 32 -> va_base a <= cur -> cur mod align = 0 ->
  (forall c, vfits (va_ranges a) (va_base a) (va_end a) size align c -> cur <= c) ->
  placed a size align owner (place_virtual a size align cur owner).
Proof.
  intros Hok Hsz Hp2 Ham Hc1 Hc2 Hfirst. pose proof Hok as [[Hw1 Hw2] Hf Hs]. unfold placed, place_virtual. cbv zeta.
  destruct (sorted_again _ _ _ Hf Hs) as (Hp & Hf' & Hs'). cbv zeta in *.
  set (rs := sort_by_key vr_start (va_ranges a)) in *. set (fits := vfits (va_ranges a) _ _ _ _) in *.
  assert (va_ok (a <| va_ranges := rs |>)) as Hoks by (constructor; simpl; done).
  pose proof (fun o => virtual_scan_sound (va_base a) (va_end a) size align
    (conj (proj1 Hw1) Hw2) Hsz Hp2 Ham rs cur o Hf' Hs' Hc1 Hc2) as Hsound.
  assert (forall c', fits c' -> exists o,
            virtual_scan rs size align cur = Ok o /\ match o with inl c | inr c => c <= c' end) as Hleast.
  { intros c' Hc'. apply (virtual_scan_complete (va_base a) (va_end a)); try done; [lia|by apply Hfirst|].
    by eapply vfits_Permutation. }
  destruct (virtual_scan rs size align cur) as [[c|c]|e] eqn:Hscan; simpl.
  - destruct (Hsound _ eq_refl) as [Hfc _].
    destruct (va_place a rs size _ c owner Hok Hp Hf' Hs' Hsz Hfc) as [Hva Hperm].
    split_and!; try done; [by eapply vfits_Permutation|].
    intros c' Hc'. by destruct (Hleast c' Hc') as (o & [= <-] & ?).
  - destruct (Hsound _ eq_refl) as (Hle & Hm & Hall).
    assert (forall c', fits c' -> c + size <= va_end a) as Hin.
    { intros c' Hc'. destruct (Hleast c' Hc') as (o & [= <-] & ?). destruct Hc' as (_ & ? & _). lia. }
    unfold checked_add. destruct (Z.ltb_spec (c + size) (2 ^ 32)).
    2: { simpl. split_and!; try done. intros c' Hc'. pose proof (Hin c' Hc'). lia. }
    destruct (Z.ltb_spec (va_end a) (c + size)); simpl.
    { split_and!; try done. intros c' Hc'. pose proof (Hin c' Hc'). lia. }
    assert (vfits rs (va_base a) (va_end a) size align c) as Hfc.
    { split_and!; [lia|done|done|]. eapply Forall_impl; [exact Hall|]. intros r ?. by right. }
    destruct (va_place a rs size _ c owner Hok Hp Hf' Hs' Hsz Hfc) as [Hva Hperm].
    split_and!; try done; [by eapply vfits_Permutation|].
    intros c' Hc'. by destruct (Hleast c' Hc') as (o & [= <-] & ?).
  - split_and!; try done. intros c Hc. by destruct (Hleast c Hc) as (? & ? & _).
Qed.

(** Every case of [alloc_kernel_virtual]. *)
Lemma kernel_virtual_cases a size align owner :
  va_ok a -> 0 <= size < 2 ^ 32 -> 0 <= align < 2 ^ 32 ->
  let out := alloc_kernel_virtual a size align owner in
  if decide (0 < size /\ is_power_of_two align = true) then
    placed a (page_up size) (Z.max align PAGE_SIZE) owner out
  else out.2 = a /\ exists e, out.1 = Err e.
Proof.
  intros Hok Hsz Hal out. unfold out, alloc_kernel_virtual.
  destruct (Z.eqb_spec size 0) as [->|Hnz]; [rewrite decide_False by lia; simpl; eauto|].
  destruct (is_power_of_two align) eqn:Hpw; simpl.
  2: { rewrite orb_true_r, decide_False by naive_solver. simpl. eauto. }
  rewrite decide_True by (split; [lia|done]).
  apply is_power_of_two_spec in Hpw. pose proof (is_pow2_pos _ Hpw).
  rewrite (proj2 (Z.eqb_neq align 0)), align_up_page by lia. simpl.
  destruct (page_up_ok size) as [Hpu Hpm]; [lia|]. pose proof (vk_window _ Hok) as [Hw1 Hw2].
  destruct (Z.ltb_spec U32_MAX (page_up size)).
  { unfold placed. simpl. split_and!; try done. intros c (? & ? & _). unfold U32_MAX in *. lia. }
  assert (is_pow2 (Z.max align PAGE_SIZE)) as Hp2 by (apply is_pow2_max; [done|apply is_pow2_page]).
  assert (Z.max align PAGE_SIZE <= 2 ^ 32) as Ham by (unfold PAGE_SIZE; lia).
  unfold align_up_u32. destruct (align_up_w 32 (va_base a) (Z.max align PAGE_SIZE)) as [cur|e] eqn:Hcur.
  - pose proof Hcur as Hcur'. apply align_up_w_ok in Hcur' as (Hc1 & Hc2 & Hc3); [|done || lia..].
    apply place_virtual_ok; try done; try lia. intros c (H1 & H2 & H3 & _).
    destruct (align_up_w_least 32 (va_base a) (Z.max align PAGE_SIZE) c) as (y & Hy & Hle); try done; try lia.
    rewrite Hcur in Hy. by injection Hy as <-.
  - unfold placed. simpl. split_and!; try done. intros c (H1 & H2 & H3 & _).
    destruct (align_up_w_least 32 (va_base a) (Z.max align PAGE_SIZE) c) as (y & Hy & _); try done; try lia.
    congruence.
Qed.

(** ** Device mappings *)

(** An I/O record describes an allocated virtual range that holds its address
    and lies in slots with page tables. *)
Definition io_ok (s : Rm) (m : IoMapRecord) : Prop :=
  mkVR (io_map_base m) (io_map_size m) (io_owner m) ∈ va_ranges (rm_va s) /\
  io_map_base m <= io_returned m < io_map_base m + io_map_size m /\
  io_map_base m mod 4096 = 0 /\ io_map_size m mod 4096 = 0 /\
  forall v, io_map_base m <= v < io_map_base m + io_map_size m -> had_table (rm_vm s) (v / 0x400000).

(** The frames of a page-aligned range. *)
Definition frames_of (start size : Z) : gset Z := list_to_set (seqZ (start / 4096) (size / 4096)).

(** A DMA reservation covers whole frames that are handed out. *)
Definition dma_ok (live : gset Z) (r : PhysRange) : Prop :=
  pr_kind r = Dma ->
  pr_start r mod 4096 = 0 /\ pr_size r mod 4096 = 0 /\ frames_of (pr_start r) (pr_size r) ⊆ live.

Definition ioapart := apart io_map_base io_map_size.

Record rm_ok (ram : Z) (s : Rm) (live : gset Z) : Prop := {
  rk_vm : vm_ok ram (rm_vm s) live;
  rk_va : va_ok (rm_va s);
  rk_window : va_base (rm_va s) = KERNEL_MMIO_BASE /\ va_end (rm_va s) = KERNEL_MMIO_END;
  rk_ranges : ranges_ok (rm_ranges s);
  rk_dma : Forall (dma_ok live) (rm_ranges s);
  rk_io : Forall (io_ok s) (rm_io s);
  rk_io_apart : StronglySorted ioapart (rm_io s)
}.

(** The mapping a successful [ioremap] adds. *)
Record remapped (ram : Z) (s s' : Rm) (phys size : Z) (owner : string) (flags v base len : Z) : Prop := {
  rp_in : base <= v /\ v + size <= base + len /\ v - base = phys mod 4096;
  rp_page : base mod 4096 = 0 /\ len mod 4096 = 0 /\ 0 < len;
  rp_window : KERNEL_MMIO_BASE <= base /\ base + len <= KERNEL_MMIO_END;
  rp_fits : vfits (va_ranges (rm_va s)) KERNEL_MMIO_BASE KERNEL_MMIO_END len PAGE_SIZE base;
  rp_va : va_ok (rm_va s') /\ va_base (rm_va s') = KERNEL_MMIO_BASE /\ va_end (rm_va s') = KERNEL_MMIO_END /\
          va_ranges (rm_va s') ≡ₚ mkVR base len owner :: va_ranges (rm_va s);
  rp_tables : (forall i, slot_ok i -> had_table (rm_vm s) i -> had_table (rm_vm s') i) /\
              (forall v, base <= v < base + len -> had_table (rm_vm s') (v / 0x400000));
  rp_maps : maps_range (rm_vm s) (rm_vm s') base (phys - phys mod 4096) len flags;
  rp_io : rm_io s' = rm_io s ++ [mkIo v base len (phys - phys mod 4096) owner];
  rp_ranges : rm_ranges s' = rm_ranges s
}.

Lemma remap_size phys size :
  0 <= phys <= U32_MAX -> 0 < size < 2 ^ 32 ->
  let phys_base := Z.land phys (not_u 64 (PAGE_SIZE - 1)) in
  phys_base = phys - phys mod 4096 /\
  (try span := ok_or (checked_add 64 size (phys - phys_base)) Overflow in
   try map_size := align_up_u64 span PAGE_SIZE in
   try map_end := ok_or (checked_add 64 phys_base map_size) Overflow in
   if U32_MAX + 1 <? map_end then Err AddressTooHigh else Ok map_size) =
  (if U32_MAX + 1 <? phys - phys mod 4096 + page_up (size + phys mod 4096) then Err AddressTooHigh
   else Ok (page_up (size + phys mod 4096))).
Proof.
  intros Hp Hs pb. unfold U32_MAX in Hp.
  assert (pb = phys - phys mod 4096) as Hpb
    by (apply (align_down_pow2 64 phys 4096); [by exists 12|lia..]).
  split; [done|]. rewrite Hpb. replace (phys - (phys - phys mod 4096)) with (phys mod 4096) by lia.
  assert (0 <= phys mod 4096 < 4096) by mlia. unfold checked_add at 1.
  rewrite (proj2 (Z.ltb_lt (size + _) _)) by lia. cbn [ok_or res_bind].
  rewrite align_up_page by lia. cbn [res_bind]. destruct (page_up_ok (size + phys mod 4096)); [lia|].
  unfold checked_add. rewrite (proj2 (Z.ltb_lt (phys - _ + _) _)) by lia. done.
Qed.

(** The page-rounded length of a device mapping. *)
Definition remap_len (phys size : Z) : Z := page_up (size + phys mod 4096).

(** Why a mapping is refused: empty, above 4 GiB, or no room in the window. *)
Definition remap_refusal (s : Rm) (phys size : Z) : Prop :=
  size = 0 \/ 2 ^ 32 <= phys \/ 2 ^ 32 < phys - phys mod 4096 + remap_len phys size \/
  forall c, ~ vfits (va_ranges (rm_va s)) KERNEL_MMIO_BASE KERNEL_MMIO_END (remap_len phys size) PAGE_SIZE c.

Lemma remap_virtual s phys size owner :
  va_ok (rm_va s) -> va_base (rm_va s) = KERNEL_MMIO_BASE -> va_end (rm_va s) = KERNEL_MMIO_END ->
  0 < size < 2 ^ 32 -> phys - phys mod 4096 + remap_len phys size <= 2 ^ 32 -> 0 <= phys ->
  let out := alloc_kernel_virtual (rm_va s) (remap_len phys size mod 2 ^ 32) PAGE_SIZE owner in
  va_ok out.2 /\ va_base out.2 = KERNEL_MMIO_BASE /\ va_end out.2 = KERNEL_MMIO_END /\
  match out.1 with
  | Ok c => vfits (va_ranges (rm_va s)) KERNEL_MMIO_BASE KERNEL_MMIO_END (remap_len phys size) PAGE_SIZE c /\
            va_ranges out.2 ≡ₚ mkVR c (remap_len phys size) owner :: va_ranges (rm_va s)
  | Err _ => va_ranges out.2 ≡ₚ va_ranges (rm_va s) /\
     forall c, ~ vfits (va_ranges (rm_va s)) KERNEL_MMIO_BASE KERNEL_MMIO_END (remap_len phys size) PAGE_SIZE c
  end.
Proof.
  intros Hva Hb He Hsz Hle Hp0 out. unfold out. clear out. assert (0 <= phys mod 4096 < 4096) by mlia.
  destruct (page_up_ok (size + phys mod 4096)) as [Hl1 Hl2]; [lia|]. fold (remap_len phys size) in *.
  set (len := remap_len phys size) in *. assert (0 <= phys - phys mod 4096) by mlia.
  assert (0 <= len mod 2 ^ 32 < 2 ^ 32) as Hlm by (apply Z.mod_pos_bound; lia).
  pose proof (kernel_virtual_cases (rm_va s) (len mod 2 ^ 32) PAGE_SIZE owner Hva Hlm ltac:(unfold PAGE_SIZE; lia)) as Hkv.
  cbv zeta in Hkv. destruct (Z.eq_dec len (2 ^ 32)) as [Heq|Hne].
  - rewrite Heq in Hkv |- *. rewrite Z_mod_same_full in *. rewrite decide_False in Hkv by lia.
    destruct Hkv as [-> [e ->]]. split_and!; try done. intros c (? & ? & _).
    unfold KERNEL_MMIO_BASE, KERNEL_MMIO_END, KERNEL_OFFSET in *. lia.
  - rewrite Z.mod_small in Hkv |- * by lia. rewrite decide_True in Hkv by (split; [lia|done]).
    assert (page_up len = len) as Hlen by (unfold page_up; mlia). rewrite Hlen in Hkv.
    change (Z.max PAGE_SIZE PAGE_SIZE) with PAGE_SIZE in Hkv. destruct Hkv as (? & ? & ? & Hr).
    rewrite Hb, He in *. destruct (alloc_kernel_virtual _ _ _ _) as [[c|e] va]; simpl in *; split_and!; try done; apply Hr.
Qed.

(** Every case of [ioremap_with_flags]. *)
Lemma ioremap_cases ram stacks s live phys size owner flags :
  rm_ok ram s live -> stacks_live stacks live -> flags_ok flags -> 0 <= phys -> 0 <= size < 2 ^ 32 ->
  let out := ioremap_with_flags ram stacks s phys size owner flags in
  (out = Panic /\ room ram live < remap_len phys size / 4096) \/
  (exists v s' live' base, out = Ret (Ok v, s') /\ live ⊆ live' /\ vm_ok ram (rm_vm s') live' /\
    0 < size /\ remapped ram s s' phys size owner flags v base (remap_len phys size)) \/
  (exists e va, out = Ret (Err e, s <| rm_va := va |>) /\ va_ok va /\ va_base va = KERNEL_MMIO_BASE /\
    va_end va = KERNEL_MMIO_END /\ va_ranges va ≡ₚ va_ranges (rm_va s) /\ remap_refusal s phys size).
Proof.
  intros [Hvm Hva [Hwb Hwe] _ _ _ _] Hst Hfl Hp0 Hsz out. unfold out, ioremap_with_flags. clear out.
  assert (s = s <| rm_va := rm_va s |>) as Hsame by (by destruct s).
  destruct (Z.eqb_spec size 0).
  { right; right. eexists _, (rm_va s). rewrite <- Hsame. split_and!; try done. by left. }
  destruct (Z.ltb_spec U32_MAX phys).
  { right; right. eexists _, (rm_va s). rewrite <- Hsame. split_and!; try done. right; left. unfold U32_MAX in *. lia. }
  cbv zeta. destruct (remap_size phys size) as [Hpb ->]; [lia..|]. cbv zeta in Hpb. rewrite Hpb.
  fold (remap_len phys size). destruct (Z.ltb_spec (U32_MAX + 1) (phys - phys mod 4096 + remap_len phys size)).
  { right; right. eexists _, (rm_va s). rewrite <- Hsame. split_and!; try done.
    right; right; left. unfold U32_MAX in *. lia. }
  unfold U32_MAX in *. pose proof (remap_virtual s phys size owner Hva Hwb Hwe ltac:(lia) ltac:(lia) Hp0) as Hv.
  cbv zeta in Hv. destruct (alloc_kernel_virtual _ _ _ _) as [[base|e] va]; simpl in Hv.
  2: { right; right. eexists _, va. split; [done|]. destruct Hv as (? & ? & ? & ? & ?). split_and!; try done.
       by right; right; right. }
  destruct Hv as (Hva' & Hb' & He' & Hfit & Hperm). pose proof Hfit as (Hf1 & Hf2 & Hf3 & _). simpl rm_vm.
  assert (0 <= phys mod 4096 < 4096 /\ 0 <= phys - phys mod 4096) as [Hoff Hpb0] by mlia.
  destruct (page_up_ok (size + phys mod 4096)) as [Hl1 Hl2]; [lia|]. fold (remap_len phys size) in *.
  unfold PAGE_SIZE, KERNEL_MMIO_BASE, KERNEL_MMIO_END, KERNEL_OFFSET in *.
  destruct (map_physical_range_ok ram stacks (rm_vm s) live (phys - phys mod 4096) (remap_len phys size) base flags) as
    [[-> Hroom]|(vm' & live' & -> & Hsub & Hok' & Hmaps & Hkeep & Htabs)]; try done; try lia; [mlia|by left|].
  right; left. rewrite bind_Ret_l. replace (phys - (phys - phys mod 4096)) with (phys mod 4096) by lia.
  unfold checked_add. rewrite (proj2 (Z.ltb_lt _ _)) by lia. eexists _, _, live', base. split; [done|].
  split_and!; try done; try lia.
  constructor; simpl; unfold KERNEL_MMIO_BASE, KERNEL_MMIO_END, KERNEL_OFFSET; try done; lia.
Qed.

(** The state stays well-formed, with the new record in place. *)
Lemma remapped_ok ram s s' live live' phys size owner flags v base len :
  rm_ok ram s live -> vm_ok ram (rm_vm s') live' -> live ⊆ live' -> 0 < size ->
  remapped ram s s' phys size owner flags v base len -> rm_ok ram s' live'.
Proof.
  intros [_ Hva [Hwb Hwe] Hrs Hdma Hio Hap] Hvm' Hsub Hsz
    [[Hv1 [Hv2 Hv3]] [Hb [Hl _]] _ (_ & _ & _ & Hfit) (Hva' & Hb' & He' & Hperm) [Hk Ht] _ Hio' Hrs'].
  assert (forall m, m ∈ rm_io s -> vrange_ok KERNEL_MMIO_BASE KERNEL_MMIO_END
            (mkVR (io_map_base m) (io_map_size m) (io_owner m))) as Hin.
  { intros m Hm. pose proof (proj1 (Forall_forall _ _) Hio m Hm) as [Hm1 _]. rewrite <- Hwb, <- Hwe.
    by apply (proj1 (Forall_forall _ _) (vk_ranges _ Hva)). }
  constructor; try done; [by rewrite Hrs'| |rewrite Hio'..].
  - rewrite Hrs'. eapply Forall_impl; [exact Hdma|]. intros r Hr Hk'. destruct (Hr Hk') as (? & ? & ?).
    split_and!; try done. set_solver.
  - apply Forall_app. split.
    + apply Forall_forall. intros m Hm. pose proof (proj1 (Forall_forall _ _) Hio m Hm) as (Hm1 & [? ?] & ? & ? & Hm3).
      split; [rewrite Hperm; by right|]. split_and!; try done. intros w Hw. apply Hk; [|by apply Hm3].
      destruct (Hin m Hm) as (Hi1 & Hi2 & Hi3). simpl in *.
      unfold slot_ok, KERNEL_MMIO_BASE, KERNEL_MMIO_END, KERNEL_OFFSET in *. mlia.
    + constructor; [|constructor]. split; simpl; [rewrite Hperm; by left|]. split_and!; try done; lia.
  - apply StronglySorted_app. split_and!; [|done|by repeat constructor].
    intros m m' Hm Hm'%list_elem_of_singleton. subst m'. pose proof (proj1 (Forall_forall _ _) Hio m Hm) as [Hm1 _].
    pose proof (proj1 (Forall_forall _ _) Hfit _ Hm1) as H. unfold ioapart, apart, before. simpl in *. lia.
Qed.

(** Freeing a virtual range removes exactly that range. *)
Lemma free_kernel_virtual_ok a base size len owner :
  va_ok a -> mkVR base len owner ∈ va_ranges a -> 0 <= size -> len = page_up size ->
  exists a', free_kernel_virtual a base size = (Ok (), a') /\ va_ok a' /\
    va_base a' = va_base a /\ va_end a' = va_end a /\ va_ranges a ≡ₚ mkVR base len owner :: va_ranges a'.
Proof.
  intros Hok Hin H0 Hlen. pose proof Hok as [[Hw1 Hw2] Hf Hs].
  pose proof (proj1 (Forall_forall _ _) Hf _ Hin) as (H1 & H2 & H3). simpl in *.
  unfold free_kernel_virtual. destruct (page_up_ok size H0) as [Hu1 Hu2]. rewrite align_up_page, <- Hlen, Z.mod_small by lia.
  destruct (vec_position _ (va_ranges a)) as [i|] eqn:Hpos.
  2: { apply vec_position_None in Hpos. pose proof (proj1 (Forall_forall _ _) Hpos _ Hin) as H.
       simpl in H. by rewrite !Z.eqb_refl in H. }
  apply vec_position_Some in Hpos as (l1 & r & l2 & Hl & -> & Hr & _).
  apply andb_true_iff in Hr as [Hr1%Z.eqb_eq Hr2%Z.eqb_eq].
  assert (r = mkVR base len owner) as ->.
  { eapply (before_inj vr_start vr_size); [|exact Hs|rewrite Hl; set_solver|done|done].
    eapply Forall_impl; [exact Hf|]. by intros x (_ & ? & _). }
  rewrite Hl, vec_remove_middle in *. eexists. split; [done|]. simpl. split_and!; try done.
  - constructor; simpl; [done| |by eapply intervals_remove].
    apply Forall_app in Hf as [? Hf]. apply Forall_cons in Hf as [_ ?]. by apply Forall_app.
  - symmetry. apply Permutation_middle.
Qed.

(** The loop removes the pages of the range and no other. *)
Lemma unmap_pages_ok ram live n vm base off :
  vm_ok ram vm live -> 0 <= base -> 0 <= off -> base mod 4096 = 0 -> off mod 4096 = 0 ->
  base + off + Z.of_nat n * 4096 <= 0xFFC00000 ->
  (forall v, base + off <= v < base + off + Z.of_nat n * 4096 -> had_table vm (v / 0x400000)) ->
  exists vm', unmap_pages n vm base off = Ret vm' /\ vm_ok ram vm' live /\ dir vm' = dir vm /\
    forall v, mapped_space v ->
      hw_walk vm' v = if (base + off <=? v) && (v <? base + off + Z.of_nat n * 4096) then None else hw_walk vm v.
Proof.
  revert vm off. induction n as [|n IH]; intros vm off Hok Hb0 Ho0 Hbm Hom Hend Ht; cbn [unmap_pages].
  { exists vm. split_and!; try done. intros v _. zcase; simpl; try done; lia. }
  rewrite (add_u_Ret 32 base off), bind_Ret_l by lia.
  assert (mapped_space (base + off)) as Hsp by (unfold mapped_space; lia).
  assert (had_table vm ((base + off) / 0x400000)) as Ht0 by (apply Ht; lia).
  destruct (unmap_ok ram vm live _ Hok Hsp) as (vm1 & -> & Hok1 & Hgone & Hkeep & Hdir). rewrite bind_Ret_l.
  specialize (Hdir Ht0). unfold PAGE_SIZE. rewrite add_u_Ret, bind_Ret_l by lia.
  destruct (IH vm1 (off + 4096)) as (vm2 & -> & Hok2 & Hdir2 & Hw); try done; try lia; [mlia| |].
  { intros v Hv. unfold had_table. rewrite Hdir. apply Ht. lia. }
  exists vm2. split_and!; try done; [by rewrite Hdir2|]. intros v Hv. rewrite Hw by done.
  destruct (Z.eq_dec (v / 4096) ((base + off) / 4096)) as [Heq|Hne].
  - rewrite Hgone by done. zcase; simpl; try done; mlia.
  - rewrite Hkeep by auto.
    zcase; simpl; try done; exfalso; mlia.
Qed.

(** ** Unmapping *)

Lemma io_window ram s live m :
  rm_ok ram s live -> m ∈ rm_io s ->
  KERNEL_MMIO_BASE <= io_map_base m /\ 0 < io_map_size m /\ io_map_base m + io_map_size m <= KERNEL_MMIO_END.
Proof.
  intros [_ Hva [Hb He] _ _ Hio _] Hm. pose proof (proj1 (Forall_forall _ _) Hio m Hm) as [Hm1 _].
  rewrite <- Hb, <- He. apply (proj1 (Forall_forall _ _) (vk_ranges _ Hva) _ Hm1).
Qed.

(** What [iounmap] leaves behind for the record [m]. *)
Record unmapped (s s' : Rm) (m : IoMapRecord) : Prop := {
  um_io : rm_io s ≡ₚ m :: rm_io s';
  um_va : va_ranges (rm_va s) ≡ₚ mkVR (io_map_base m) (io_map_size m) (io_owner m) :: va_ranges (rm_va s');
  um_ranges : rm_ranges s' = rm_ranges s;
  um_dir : dir (rm_vm s') = dir (rm_vm s);
  um_walk : forall v, mapped_space v ->
    hw_walk (rm_vm s') v =
    if (io_map_base m <=? v) && (v <? io_map_base m + io_map_size m) then None else hw_walk (rm_vm s) v
}.

Lemma iounmap_unmapped ram s live m :
  rm_ok ram s live -> m ∈ rm_io s ->
  exists s', iounmap s (io_returned m) = Ret (Ok (), s') /\ rm_ok ram s' live /\ unmapped s s' m.
Proof.
  intros Hok Hm. destruct (io_window _ _ _ _ Hok Hm) as (Hw1 & Hw2 & Hw3).
  pose proof Hok as [Hvm Hva Hwin Hrs Hdma Hio Hap].
  pose proof (proj1 (Forall_forall _ _) Hio m Hm) as (Hm1 & Hm2 & Hm3 & Hm4 & Hm5).
  unfold iounmap. destruct (vec_position _ (rm_io s)) as [i|] eqn:Hpos.
  2: { apply vec_position_None in Hpos. pose proof (proj1 (Forall_forall _ _) Hpos _ Hm) as H.
       simpl in H. by rewrite Z.eqb_refl in H. }
  apply vec_position_Some in Hpos as (l1 & r & l2 & Hl & -> & Hr%Z.eqb_eq & _).
  assert (r = m) as ->.
  { assert (r ∈ rm_io s) as Hrin by (rewrite Hl; set_solver).
    pose proof (proj1 (Forall_forall _ _) Hio r Hrin) as (_ & Hr2 & _).
    apply (apart_point io_map_base io_map_size (rm_io s) r m (io_returned m)); try done. by rewrite <- Hr. }
  rewrite Hl, (proj2 (idx_Ret _ _ _) (get_middle _ _ _)), bind_Ret_l, vec_remove_middle. simpl rm_vm.
  assert (Z.of_nat (Z.to_nat ((io_map_size m + (PAGE_SIZE - 1)) / PAGE_SIZE)) * 4096 = io_map_size m) as Hn
    by (unfold PAGE_SIZE; mlia).
  unfold KERNEL_MMIO_BASE, KERNEL_MMIO_END, KERNEL_OFFSET in *.
  destruct (unmap_pages_ok ram live (Z.to_nat ((io_map_size m + (PAGE_SIZE - 1)) / PAGE_SIZE)) (rm_vm s) (io_map_base m) 0)
    as (vm' & -> & Hvm' & Hdir & Hwalk); try done; try lia; [by rewrite Hn, Z.add_0_r|]. rewrite bind_Ret_l. simpl rm_va.
  rewrite Hn, Z.add_0_r in Hwalk.
  destruct (free_kernel_virtual_ok _ _ (io_map_size m) _ _ Hva Hm1) as (va' & -> & Hva' & Hb' & He' & Hperm);
    [lia|unfold page_up; mlia|].
  eexists. split; [done|]. split; [|constructor; simpl; try done; rewrite Hl; symmetry; apply Permutation_middle].
  rewrite Hl in Hap, Hio. constructor; simpl; try done; [by rewrite Hb', He'| |by eapply intervals_remove].
  apply Forall_forall. intros x Hx. assert (x ∈ l1 ++ m :: l2) as Hxl by set_solver.
  pose proof (proj1 (Forall_forall _ _) Hio x Hxl) as (Hx1 & Hx2 & Hx3 & Hx4 & Hx5).
  split_and!; try done; try apply Hx2; simpl; [|by unfold had_table; rewrite Hdir].
  rewrite Hperm, elem_of_cons in Hx1. destruct Hx1 as [[= Hxb Hxs _]|]; [|done]. exfalso.
  assert (ioapart x m \/ ioapart m x) as [H|H].
  { apply StronglySorted_app in Hap as (H12 & _ & Hap). apply StronglySorted_inv in Hap as [_ H2].
    apply elem_of_app in Hx as [Hx|Hx]; [left; apply H12; [done|by left]|right].
    by apply (proj1 (Forall_forall _ _) H2). }
  all: unfold ioapart, apart, before in H; lia.
Qed.

(** ** DMA buffers *)

(** Freeing a run of frames takes it out of the handed-out frames. *)
Lemma free_run_ok ram fa live first n :
  frames_inv ram fa live -> frames_inv ram (free_run fa first n) (live ∖ list_to_set (seqZ first n)).
Proof.
  unfold free_run. generalize (seqZ first n) as l. intros l. revert fa live.
  induction l as [|f l IH]; intros fa live Hi; simpl; [by rewrite difference_empty_L|].
  rewrite <- difference_difference_l_L. apply IH.
  destruct (decide (f ∈ live)); [by apply free_phys_frame_live|].
  rewrite (free_phys_frame_other ram fa live) by done. by rewrite difference_disjoint_L by set_solver.
Qed.

(** A change of memory outside the handed-out frames is not seen by any walk. *)
Lemma vm_fresh_ok ram vm vm' live live' :
  vm_ok ram vm live -> dir vm' = dir vm -> frames_inv ram (frames vm') live' -> live ⊆ live' ->
  (forall a, a / 4096 ∈ live -> mem vm' !! a = mem vm !! a) ->
  vm_ok ram vm' live' /\ forall v, mapped_space v -> hw_walk vm' v = hw_walk vm v.
Proof.
  intros [Hr Hwin Hd Hf Ht Hinj] Hdir Hf' Hsub Hmem. split.
  - constructor; rewrite ?Hdir; try done. intros i e Hi He Hs. destruct (Ht i e Hi He Hs) as (t & Hm & ? & ?).
    exists t. rewrite Hmem by done. split_and!; try done. set_solver.
  - intros v Hv. destruct (space_slot v Hv) as (Hi & _). unfold hw_walk, page_view. rewrite Hdir.
    destruct (get (dir vm) (v / 0x400000)) as [e|] eqn:He; [|done]. simpl.
    destruct (has e PRESENT) eqn:Hp; [|done]. destruct (has e DIR_PAGE_SIZE) eqn:Hl; [done|]. simpl.
    destruct (Ht _ e Hi He (conj Hp Hl)) as (t & _ & _ & Hlive). by rewrite Hmem.
Qed.

Lemma zero_frames_ok l vm :
  (forall f, f ∈ l -> 0 <= f /\ f * 4096 < DIRECT_MAP_END) ->
  exists vm', zero_frames vm l = Ret vm' /\ dir vm' = dir vm /\ frames vm' = frames vm /\
    (forall f, f ∈ l -> mem vm' !! (f * 4096) = Some zero_page) /\
    (forall a, a / 4096 ∉ l -> mem vm' !! a = mem vm !! a).
Proof.
  revert vm. induction l as [|f l IH]; intros vm Hp; simpl; [by exists vm; split_and!; try intros ? ?%not_elem_of_nil|].
  destruct (Hp f (list_elem_of_here _ _)) as [H0 Hw]. assert (Z.shiftl f 12 = f * 4096) as Hsh by (rewrite Z.shiftl_mul_pow2 by lia; done).
  rewrite Hsh. unfold zero_frame, put_frame, through_alias. rewrite (proj2 (Z.ltb_lt _ _) Hw). simpl.
  destruct (IH (with_frame vm (f * 4096) zero_page)) as (vm' & -> & Hd & Hf & Hz & Hk); [intros g Hg; apply Hp; by right|].
  exists vm'. split_and!; [done..| |].
  - intros g. rewrite elem_of_cons. destruct (decide (g ∈ l)) as [|Hn]; [by auto|]. intros [-> |]; [|done].
    rewrite Hk by (rewrite Z.div_mul; [done|lia]). simpl. by rewrite lookup_insert_eq.
  - intros a [Hne Ha]%not_elem_of_cons. rewrite Hk by done. simpl. rewrite lookup_insert_ne; [done|].
    intros <-. rewrite Z.div_mul in Hne; lia.
Qed.

Lemma zero_run_ok vm first n :
  0 <= first -> (first + n) * 4096 <= DIRECT_MAP_END ->
  exists vm', zero_run vm first n = Ret vm' /\ dir vm' = dir vm /\ frames vm' = frames vm /\
  (forall f, first <= f < first + n -> mem vm' !! (f * 4096) = Some zero_page) /\
  (forall a, ~ first <= a / 4096 < first + n -> mem vm' !! a = mem vm !! a).
Proof.
  intros H0 Hw. destruct (zero_frames_ok (seqZ first n) vm) as (vm' & ? & ? & ? & Hz & Hk); [intros f ?%elem_of_seqZ; lia|].
  exists vm'. split_and!; try done; intros; [apply Hz|apply Hk]; rewrite elem_of_seqZ; done.
Qed.

Lemma frames_of_spec start size f :
  start mod 4096 = 0 -> size mod 4096 = 0 ->
  f ∈ frames_of start size <-> start <= f * 4096 < start + size.
Proof. intros. unfold frames_of. rewrite elem_of_list_to_set, elem_of_seqZ. split; intros; mlia. Qed.

(** A DMA reservation of fresh frames is new to the table. *)
Lemma dma_reserve_new rs live start size owner :
  Forall (dma_ok live) rs -> start mod 4096 = 0 -> size mod 4096 = 0 -> 0 < size ->
  frames_of start size ## live -> mkPR start size Dma owner ∉ rs.
Proof.
  intros Hd Hs Hz Hp Hfr Hin. destruct (proj1 (Forall_forall _ _) Hd _ Hin eq_refl) as (_ & _ & Hsub). simpl in Hsub.
  assert (start / 4096 ∈ frames_of start size) as Hf by (apply frames_of_spec; [done..|mlia]). set_solver.
Qed.

(** Contiguous physical memory for DMA, as [alloc_phys_below] hands it out. *)
Record phys_served (ram : Z) (s s' : Rm) (live : gset Z) (owner : string) (size align top phys : Z) : Prop := {
  ps_place : 0 <= phys /\ phys mod 4096 = 0 /\ phys mod align = 0 /\ phys + size <= Z.min (top + 1) ram;
  ps_fresh : frames_of phys size ## live;
  ps_frames : exists fa, rm_vm s' = rm_vm s <| frames := fa |> /\ frames_inv ram fa (live ∪ frames_of phys size);
  ps_ranges : ranges_ok (rm_ranges s') /\ forall r, r ∈ rm_ranges s' <-> r = mkPR phys size Dma owner \/ r ∈ rm_ranges s;
  ps_apart : Forall (papart (mkPR phys size Dma owner)) (rm_ranges s);
  ps_rest : rm_va s' = rm_va s /\ rm_io s' = rm_io s
}.

(** Why a DMA request is refused: a bad size or alignment, no aligned run of
    free frames below the limit, or a run that another owner has reserved. *)
Definition dma_refusal (ram : Z) (s : Rm) (size align top : Z) (owner : string) : Prop :=
  size = 0 \/ is_power_of_two align = false \/
  no_room (frames (rm_vm s)) (page_up size / 4096) (Z.max align PAGE_SIZE / 4096)
    (Z.min (page_of ram) ((top + 1) / 4096)) \/
  exists phys r, r ∈ rm_ranges s /\ ~ papart (mkPR phys (page_up size) Dma owner) r.

(** The arithmetic of [alloc_phys_below]. *)
Lemma phys_request size align top :
  0 < size < 2 ^ 32 -> is_pow2 align -> align < 2 ^ 32 -> 0 <= top < 2 ^ 32 ->
  is_power_of_two (Z.max align PAGE_SIZE) = true /\ Z.max align PAGE_SIZE mod 4096 = 0 /\
  is_pow2 (Z.max align PAGE_SIZE / 4096) /\ Z.min top U32_MAX = top /\
  checked_add 64 top 1 = Some (top + 1) /\ ((top + 1) / PAGE_SIZE) mod 2 ^ 32 = (top + 1) / 4096 /\
  (page_up size / PAGE_SIZE) mod 2 ^ 32 = page_up size / 4096 /\ 1 <= page_up size / 4096 <= 2 ^ 20 /\
  (top + 1) / 4096 <= 2 ^ 20.
Proof.
  intros Hs Hp Ha Ht. assert (is_pow2 (Z.max align PAGE_SIZE)) as Hm by (apply is_pow2_max; [done|apply is_pow2_page]).
  destruct (page_up_ok size) as [Hu1 Hu2]; [lia|]. unfold PAGE_SIZE, U32_MAX in *.
  assert (Z.max align 4096 mod 4096 = 0) as Hm4.
  { apply Z.mod_divide; [lia|]. apply is_pow2_divide; [by exists 12|done|lia]. }
  assert ((top + 1) / 4096 <= 2 ^ 20) by mlia. assert (1 <= page_up size / 4096 <= 2 ^ 20) by mlia.
  split_and!; try lia; try done; [by apply is_power_of_two_spec| |..].
  - destruct Hm as (k & Hk & Hke). exists (k - 12). assert (12 <= k) as Hk12.
    { destruct (Z.le_gt_cases 12 k); [done|]. assert (2 ^ k < 2 ^ 12) by (apply Z.pow_lt_mono_r; lia). lia. }
    split; [lia|]. rewrite Hke. rewrite Z.pow_sub_r by lia. done.
  - unfold checked_add. by rewrite (proj2 (Z.ltb_lt _ _)) by lia.
  - apply Z.mod_small. mlia.
  - apply Z.mod_small. mlia.
Qed.

Lemma first_dynamic_pos : 0 < first_dynamic.
Proof. by vm_compute. Qed.

(** The second half: a fresh run of frames is entered in the table, or freed. *)
Lemma reserve_run_ok ram s live fa owner size al top a :
  rm_ok ram s live -> 0 < size -> size mod 4096 = 0 -> al mod 4096 = 0 -> 0 < al ->
  run_served ram live (size / 4096) (al / 4096) (Z.min (page_of ram) ((top + 1) / 4096)) fa a ->
  exists r s',
    match reserve_range (rm_ranges s) (Z.shiftl a 12) size Dma owner with
    | (Err e, _) => Ret (Err e, with_frames (with_frames s fa) (free_run fa a (size / 4096)))
    | (Ok _, ranges) => Ret (Ok (Z.shiftl a 12 mod 2 ^ 32), with_frames s fa <| rm_ranges := ranges |>)
    end = Ret (r, s') /\
  match r with
  | Ok phys => phys_served ram s s' live owner size al top phys
  | Err _ => (exists phys r, r ∈ rm_ranges s /\ ~ papart (mkPR phys size Dma owner) r) /\
      exists fa', s' = with_frames s fa' /\ frames_inv ram fa' live
  end.
Proof.
  intros [Hvm _ _ Hrs Hdma _ _] Hsz Hu Hal Hal0 (Hra & Hrh & Hrf & Hri).
  destruct (ram_pages ram (vo_ram _ _ _ Hvm)) as [Hrp Hre]. unfold PAGE_SIZE in Hre.
  assert (0 <= a) as Ha0 by (destruct (Hrf a) as [_ H0]; [mlia|pose proof first_dynamic_pos; lia]).
  rewrite Z.shiftl_mul_pow2 by lia. change (2 ^ 12) with 4096.
  assert (frames_of (a * 4096) size = list_to_set (seqZ a (size / 4096))) as Hfo
    by (unfold frames_of; by rewrite Z.div_mul by lia).
  assert (frames_of (a * 4096) size ## live) as Hfresh.
  { intros f Hf Hl. rewrite Hfo, elem_of_list_to_set, elem_of_seqZ in Hf. by destruct (Hrf f Hf). }
  assert (a * 4096 mod 4096 = 0) as Ham by (apply Z.mod_mul; lia).
  assert (a * 4096 + size <= Z.min (top + 1) ram) as Hpl by mlia.
  pose proof (reserve_range_cases (rm_ranges s) (a * 4096) size Dma owner Hrs ltac:(lia) ltac:(lia)) as Hres.
  cbv zeta in Hres. destruct (reserve_range _ (a * 4096) _ _ _) as [[[]|e] rs']; simpl in Hres.
  - destruct Hres as (_ & Hro & Hin & Hcase). eexists _, _. split; [done|]. simpl.
    rewrite Z.mod_small by lia. constructor; simpl; try done.
    + split_and!; try done; try lia. apply Z.mod_divide in Hra as [q ->]; [|mlia].
      apply Z.mod_divide; [lia|]. exists q. mlia.
    + exists fa. split; [done|]. by rewrite Hfo.
    + destruct Hcase as [[Hd _]|?]; [|done]. by apply (dma_reserve_new _ live) in Hd.
  - destruct Hres as (_ & Hcase). eexists _, _. split; [done|]. split.
    + exists (a * 4096). destruct Hcase as [|[|(r & ? & ? & _)]]; [lia|lia|by exists r].
    + exists (free_run fa a (size / 4096)). split; [done|]. rewrite Hfo in Hfresh.
      set (run := list_to_set (seqZ a (size / 4096))) in *.
      replace live with ((live ∪ run) ∖ run) by set_solver. by apply free_run_ok.
Qed.

Lemma alloc_phys_below_ok ram stacks s live owner size align top :
  rm_ok ram s live -> stacks_live stacks live -> 0 <= size < 2 ^ 32 -> 0 <= align < 2 ^ 32 -> 0 <= top < 2 ^ 32 ->
  exists r s', alloc_phys_below ram stacks s top size align Dma owner = Ret (r, s') /\
  match r with
  | Ok phys => 0 < size /\ is_pow2 align /\
      phys_served ram s s' live owner (page_up size) (Z.max align PAGE_SIZE) top phys
  | Err _ => dma_refusal ram s size align top owner /\
      exists fa, s' = with_frames s fa /\ frames_inv ram fa live
  end.
Proof.
  intros Hok Hst Hsz Hal Htop. pose proof (rk_vm _ _ _ Hok) as Hvm. pose proof (vo_frames _ _ _ Hvm) as Hinv.
  assert (s = with_frames s (frames (rm_vm s))) as Hsame by (by destruct s as [? ? ? []]).
  unfold alloc_phys_below.
  destruct (Z.eqb_spec size 0) as [->|Hnz]; [eexists _, s; split; [done|]; split; [by left|eauto]|].
  destruct (is_power_of_two align) eqn:Hpw; simpl negb; rewrite ?orb_true_r, ?orb_false_r.
  2: { eexists _, s; split; [done|]; split; [right; by left|eauto]. }
  pose proof (proj1 (is_power_of_two_spec align) Hpw) as Hp2. pose proof (is_pow2_pos _ Hp2).
  rewrite (proj2 (Z.eqb_neq align 0)), align_up_page by lia.
  destruct (phys_request size align top) as (-> & Hm4 & Hp2' & -> & -> & -> & -> & Hpg & Hlim); [lia|done|lia|lia|].
  cbv zeta. simpl negb. cbv iota. destruct (page_up_ok size) as [Hu1 Hu2]; [lia|].
  assert (0 < Z.max align PAGE_SIZE < 2 ^ 32) as Hma by (unfold PAGE_SIZE; lia).
  destruct (contiguous_cases ram stacks (frames (rm_vm s)) live (vo_ram _ _ _ Hvm) Hinv Hst (page_up size / 4096)
    (Z.max align PAGE_SIZE / PAGE_SIZE) ((top + 1) / 4096)) as (r & fa & -> & Hr);
    [unfold in_u; lia|unfold in_u, PAGE_SIZE in *; mlia|unfold in_u; mlia|]. rewrite bind_Ret_l. simpl rm_ranges.
  destruct r as [a|e].
  - destruct Hr as (_ & _ & Hr).
    destruct (reserve_run_ok ram s live fa owner (page_up size) (Z.max align PAGE_SIZE) top a)
      as (r & s' & Hrun & Hcase); try done; try lia. exists r, s'. split; [exact Hrun|].
    destruct r; [by split_and!; try lia|]. destruct Hcase as [? ?]. split; [by right; right; right|done].
  - eexists _, _. split; [done|]. destruct Hr as [Hi Hno]. split; [|eauto]. right; right; left.
    destruct Hno as [Hno|[Hno|Hno]]; [lia|by destruct Hno|done].
Qed.

(** ** Correctness *)

(** The table of owned physical ranges stays ordered and disjoint.  A
    reservation succeeds exactly for a non-empty range that does not wrap and
    is off every other range, or is already there for the same owner and kind;
    then the table has exactly that entry more, and otherwise it is unchanged.
    [is_free] tells whether a range is off every entry, and releasing a new
    reservation gives back the table as it was. *)
Theorem reserve_range_exact rs start size kind owner :
  ranges_ok rs -> 0 <= start -> 0 <= size ->
  let x := mkPR start size kind owner in
  let out := reserve_range rs start size kind owner in
  let valid := 0 < size /\ start + size < 2 ^ 64 in
  ranges_ok out.2 /\
  (out.1 = Ok () <-> valid /\ (x ∈ rs \/ Forall (papart x) rs)) /\
  (out.1 = Ok () -> forall r, r ∈ out.2 <-> r = x \/ r ∈ rs) /\
  (out.1 <> Ok () -> out.2 = rs) /\
  (is_free rs start size = true <-> valid /\ Forall (papart x) rs) /\
  (out.1 = Ok () -> x ∉ rs -> exists rs', release_range out.2 start size = (Ok x, rs') /\ ranges_ok rs' /\ rs' ≡ₚ rs).
Proof.
  intros Hok H0 Hz x out valid. pose proof (reserve_range_cases rs start size kind owner Hok H0 Hz) as Hc.
  cbv zeta in Hc. fold x out in Hc.
  assert (is_free rs start size = true <-> valid /\ Forall (papart x) rs) as Hfree.
  { rewrite (is_free_ok rs start size (proj1 Hok) H0 Hz). unfold valid.
    split; [intros (? & ? & Hall); split; [done|apply Hall]|by intros [[? ?] Hall]]. }
  destruct (out.1) as [[]|e] eqn:Hout.
  - destruct Hc as (Hx & Ho & Hin & Hcase). destruct Hx as (_ & Hx).
    split; [exact Ho|]. split; [|split; [by intros _|split; [done|split; [exact Hfree|]]]].
    { split; [intros _; split; [exact Hx|]|by intros _]. destruct Hcase as [[? _]|?]; [by left|by right]. }
    intros _ Hnew. destruct (release_new out.2 x) as (rs' & Hr2 & Hr3 & Hperm); [done|by apply Hin; left|].
    exists rs'. split; [exact Hr2|]. split; [exact Hr3|]. by apply (reserve_perm rs start size kind owner).
  - destruct Hc as [-> Hcase]. split; [exact Hok|]. split; [|split_and!; by intros].
    split; [done|]. intros [[? ?] Hor].
    destruct Hcase as [|[|(r & Hr & Hna & Hne)]]; [lia|lia|]. exfalso. destruct Hor as [Hx|Hall].
    + apply Hna. apply (before_apart pr_start pr_size rs); [apply Hok|done|done|congruence].
    + apply Hna. by apply (proj1 (Forall_forall _ _) Hall).
Qed.

(** The kernel virtual window is allocated first-fit without gaps in its
    search: a page-rounded request is placed at the lowest aligned address that
    is free, it fails only when no address fits, bad arguments leave the
    allocator alone, and freeing a placed range gives back what was there. *)
Theorem kernel_virtual_exact a size align owner :
  va_ok a -> 0 <= size < 2 ^ 32 -> 0 <= align < 2 ^ 32 ->
  let out := alloc_kernel_virtual a size align owner in
  (if decide (0 < size /\ is_power_of_two align = true) then
     placed a (page_up size) (Z.max align PAGE_SIZE) owner out
   else out.2 = a /\ exists e, out.1 = Err e) /\
  (forall c, out.1 = Ok c -> exists a', free_kernel_virtual out.2 c size = (Ok (), a') /\ va_ok a' /\
     va_ranges a' ≡ₚ va_ranges a).
Proof.
  intros Hok Hs Ha out. pose proof (kernel_virtual_cases a size align owner Hok Hs Ha) as Hc. cbv zeta in Hc. fold out in Hc.
  split; [done|]. intros c Hout. destruct (decide _) as [_|_]; [|destruct Hc as (_ & e & He); congruence].
  destruct Hc as (Hva & _ & _ & Hcase). rewrite Hout in Hcase. destruct Hcase as (_ & _ & Hperm).
  destruct (free_kernel_virtual_ok out.2 c size (page_up size) owner) as (a' & -> & Hva' & _ & _ & Hp);
    [done|rewrite Hperm; by left|lia|done|]. exists a'. split_and!; try done.
  rewrite Hperm in Hp. by apply (inj (cons _)) in Hp.
Qed.

(** [ioremap] maps exactly the asked device range: the returned address
    lies in a fresh page-aligned part of the MMIO window, every byte of which
    translates to the corresponding physical byte with no more rights than
    asked for, and no other translation changes.  It is refused only when the
    request is empty, above 4 GiB or fits nowhere, and then nothing is mapped;
    it panics only when the frames for page tables run out. *)
Theorem ioremap_exact ram stacks s live phys size owner flags :
  rm_ok ram s live -> stacks_live stacks live -> flags_ok flags -> 0 <= phys -> 0 <= size < 2 ^ 32 ->
  let out := ioremap_with_flags ram stacks s phys size owner flags in
  (out = Panic /\ room ram live < remap_len phys size / 4096) \/
  (exists v s' live' base, out = Ret (Ok v, s') /\ live ⊆ live' /\ rm_ok ram s' live' /\
     remapped ram s s' phys size owner flags v base (remap_len phys size)) \/
  (exists e s', out = Ret (Err e, s') /\ rm_ok ram s' live /\ rm_vm s' = rm_vm s /\ rm_io s' = rm_io s /\
     rm_ranges s' = rm_ranges s /\ va_ranges (rm_va s') ≡ₚ va_ranges (rm_va s) /\ remap_refusal s phys size).
Proof.
  intros Hok Hst Hfl Hp Hs out. unfold out. clear out. destruct (ioremap_cases ram stacks s live phys size owner flags Hok Hst Hfl Hp Hs) as
    [H|[(v & s' & live' & base & H1 & H2 & H3 & H4 & H5)|(e & va & H1 & H2 & H3 & H4 & H5 & H6)]].
  - by left.
  - right; left. exists v, s', live', base. split_and!; try done. by eapply remapped_ok.
  - right; right. exists e, (s <| rm_va := va |>). split_and!; try done.
    destruct Hok as [Hvm _ _ Hrs Hdma Hio Hap]. constructor; simpl; try done.
    eapply Forall_impl; [exact Hio|]. intros m (Hm & Hm'). split; [simpl; by rewrite H5|done].
Qed.

(** [iounmap] undoes a mapping: for the address of any live mapping it
    succeeds, its pages no longer translate, every other address translates as
    before, and its record and its virtual range are gone; any other address is
    refused and changes nothing. *)
Theorem iounmap_exact ram s live virt :
  rm_ok ram s live ->
  (forall m, m ∈ rm_io s -> io_returned m = virt ->
     exists s', iounmap s virt = Ret (Ok (), s') /\ rm_ok ram s' live /\ unmapped s s' m) /\
  ((forall m, m ∈ rm_io s -> io_returned m <> virt) -> iounmap s virt = Ret (Err NotFound, s)).
Proof.
  intros Hok. split.
  - intros m Hm <-. by apply iounmap_unmapped.
  - intros Hno. unfold iounmap. destruct (vec_position _ (rm_io s)) as [i|] eqn:Hpos; [|done].
    apply vec_position_Some in Hpos as (l1 & r & l2 & Hl & _ & Hr%Z.eqb_eq & _).
    destruct (Hno r); [rewrite Hl; set_solver|done].
Qed.

(** A DMA buffer of [size] bytes for [owner] in the state [s']. *)
Record dma_served (ram : Z) (s s' : Rm) (live : gset Z) (owner : string) (size align max_phys : Z) (b : DmaBuffer)
    : Prop := {
  ds_buffer : b = mkDma (db_phys b) (db_phys b + KERNEL_OFFSET) size (page_up size) owner false;
  ds_place : 0 <= db_phys b /\ db_phys b mod 4096 = 0 /\ db_phys b mod align = 0 /\
             db_phys b + page_up size <= Z.min (max_phys + 1) ram;
  ds_fresh : frames_of (db_phys b) (page_up size) ## live;
  ds_state : rm_ok ram s' (live ∪ frames_of (db_phys b) (page_up size));
  ds_range : forall r, r ∈ rm_ranges s' <-> r = mkPR (db_phys b) (page_up size) Dma owner \/ r ∈ rm_ranges s;
  ds_apart : Forall (papart (mkPR (db_phys b) (page_up size) Dma owner)) (rm_ranges s);
  ds_zero : forall f, f ∈ frames_of (db_phys b) (page_up size) -> mem (rm_vm s') !! (f * 4096) = Some zero_page;
  ds_walk : forall v, mapped_space v -> hw_walk (rm_vm s') v = hw_walk (rm_vm s) v;
  ds_phys_of : forall ptr len p, in_u32 ptr -> in_u32 len -> phys_of b ptr len = Ok p <->
    db_virt b <= ptr /\ ptr + len <= db_virt b + size /\ p = ptr - KERNEL_OFFSET
}.

(** [phys_of] translates exactly the byte ranges inside the buffer. *)
Lemma phys_of_ok phys size alen owner ptr len p :
  0 <= phys -> 0 < size -> phys + size <= 2 ^ 30 -> in_u32 ptr -> in_u32 len ->
  phys_of (mkDma phys (phys + KERNEL_OFFSET) size alen owner false) ptr len = Ok p <->
  phys + KERNEL_OFFSET <= ptr /\ ptr + len <= phys + KERNEL_OFFSET + size /\ p = ptr - KERNEL_OFFSET.
Proof.
  unfold phys_of, in_u, KERNEL_OFFSET, checked_add, U32_MAX. cbn [db_phys db_virt db_len]. intros.
  destruct (Z.leb_spec (phys + 3221225472) ptr); cbn [ok_or res_bind]; [|split; [done|lia]].
  destruct (Z.ltb_spec (ptr - (phys + 3221225472) + len) (2 ^ 32)); cbn [ok_or res_bind]; [|split; [done|lia]].
  destruct (Z.ltb_spec size (ptr - (phys + 3221225472) + len)); [split; [done|lia]|].
  rewrite (proj2 (Z.ltb_lt _ _)) by lia. cbn [ok_or res_bind]. rewrite (proj2 (Z.ltb_ge _ _)) by lia.
  split; [intros [= <-]; lia|]. intros (_ & _ & ->). f_equal. lia.
Qed.

Lemma aligned_weaken_max phys align : is_pow2 align -> phys mod Z.max align PAGE_SIZE = 0 -> phys mod align = 0.
Proof.
  intros Hp. apply aligned_weaken; [done|apply is_pow2_max; [done|apply is_pow2_page]|lia].
Qed.

(** The state after the run was reserved and zeroed. *)
Lemma dma_state_ok ram s s1 live owner size align top phys :
  rm_ok ram s live -> 0 < size -> size mod 4096 = 0 -> phys_served ram s s1 live owner size align top phys ->
  exists vm, zero_run (rm_vm s1) (phys / 4096) (size / 4096) = Ret vm /\
  let s' := s1 <| rm_vm := vm |> in
  rm_ok ram s' (live ∪ frames_of phys size) /\
  (forall f, f ∈ frames_of phys size -> mem (rm_vm s') !! (f * 4096) = Some zero_page) /\
  (forall v, mapped_space v -> hw_walk (rm_vm s') v = hw_walk (rm_vm s) v).
Proof.
  intros [Hvm Hva Hw Hrs Hdma Hio Hap] Hsz Hsm [(Hp0 & Hpm & Hpa & Hpe) Hfr (fa & Hvm1 & Hfa) [Hro Hin] _ [Hv1 Hi1]].
  pose proof (vo_window _ _ _ Hvm) as Hwin.
  destruct (zero_run_ok (rm_vm s1) (phys / 4096) (size / 4096)) as (vm & Hrun & Hd & Hf & Hz & Hk); [mlia|mlia|]. exists vm. split; [done|]. intros s'.
  assert (forall f, f ∈ frames_of phys size <-> phys / 4096 <= f < phys / 4096 + size / 4096) as Hmem
    by (intros f; unfold frames_of; by rewrite elem_of_list_to_set, elem_of_seqZ).
  destruct (vm_fresh_ok ram (rm_vm s) (rm_vm s') live (live ∪ frames_of phys size) Hvm) as [Hok' Hwalk].
  { simpl. by rewrite Hd, Hvm1. }
  { simpl. by rewrite Hf, Hvm1. }
  { set_solver. }
  { intros a Ha. simpl. rewrite Hk, Hvm1; [done|]. intros Hx%Hmem. set_solver. }
  split_and!; [|by intros f Hx%Hmem; apply Hz|done]. constructor; simpl; try done; rewrite ?Hv1, ?Hi1; try done.
  - apply Forall_forall. intros r [->|Hr]%Hin Hkind; simpl.
    + split_and!; try done. set_solver.
    + destruct (proj1 (Forall_forall _ _) Hdma r Hr Hkind) as (? & ? & ?). split_and!; try done. set_solver.
  - eapply Forall_impl; [exact Hio|]. intros m (Hm1 & Hm2 & Hm3 & Hm4 & Hm5). split; [by simpl; rewrite Hv1|].
    split_and!; try done; try apply Hm2. unfold had_table in *. simpl. by rewrite Hd, Hvm1.
Qed.

(** C26. With at most 1020 MiB of memory, all of it below the recursive
    directory slot's alias, a DMA allocation never panics.  When it succeeds the buffer is a fresh
    run of frames, disjoint from every frame in use and every reservation,
    aligned as asked, below the limit and inside RAM, zeroed, entered in the
    table under its owner, and no translation changes; when it is refused, the
    reason is one of [dma_refusal] and every frame is where it was. *)
Theorem dma_alloc_exact ram stacks s live owner size align max_phys :
  rm_ok ram s live -> stacks_live stacks live -> 0 <= size < 2 ^ 32 -> 0 <= align < 2 ^ 32 -> 0 <= max_phys ->
  exists r s', dma_alloc_for ram stacks s owner size align max_phys = Ret (r, s') /\
  match r with
  | Ok b => dma_served ram s s' live owner size align max_phys b
  | Err _ => dma_refusal ram s size align (Z.min max_phys (ram - 1)) owner /\
      exists fa, s' = with_frames s fa /\ frames_inv ram fa live
  end.
Proof.
  intros Hok Hst Hsz Hal Hmax. pose proof (rk_vm _ _ _ Hok) as Hvm.
  destruct (ram_pages ram (vo_ram _ _ _ Hvm)) as [Hrp Hre]. unfold dma_alloc_for. rewrite align_up_page by lia. cbv zeta.
  destruct (Z.eqb_spec size 0) as [->|Hnz].
  { eexists _, s. split; [done|]. split; [by left|]. exists (frames (rm_vm s)).
    split; [by destruct s as [? ? ? []]|apply Hvm]. }
  pose proof first_dynamic_pos. unfold PAGE_SIZE in Hre. unfold sub_u. rewrite (proj2 (Z.leb_le 1 ram)), bind_Ret_l by lia.
  destruct (alloc_phys_below_ok ram stacks s live owner size align (Z.min max_phys (ram - 1)))
    as (r & s1 & -> & Hr); try done; try lia. rewrite bind_Ret_l. destruct r as [phys|e]; [|by eexists _, s1].
  destruct Hr as (_ & Hp2 & Hps). destruct (page_up_ok size) as [Hu1 Hu2]; [lia|].
  pose proof Hps as [(Hp0 & Hpm & Hpa & Hpe) Hfr _ [_ Hin] Hap _].
  destruct (dma_state_ok ram s s1 live owner (page_up size) _ _ phys Hok ltac:(lia) Hu2 Hps) as (vm & Hrun & Hok' & Hz & Hw).
  unfold page_of. rewrite Z.shiftr_div_pow2 by lia. change (2 ^ 12) with 4096. rewrite (Z.mod_small (page_up size)) by lia.
  unfold PAGE_SIZE. rewrite Hrun, bind_Ret_l. eexists _, _. split; [done|].
  assert (phys_to_virt phys = phys + KERNEL_OFFSET) as ->
    by (unfold phys_to_virt, wrapping_add, KERNEL_OFFSET; apply Z.mod_small; lia).
  constructor; cbn [db_phys]; try done; [|intros; apply phys_of_ok; try done; lia].
  split_and!; try done; [by apply (aligned_weaken_max _ align)|lia].
Qed.

(** Releasing a DMA buffer gives back exactly its reservation and its
    frames: nothing else changes owner, no translation changes, and a second
    release does nothing. *)
Theorem dma_release_exact ram s live b :
  let x := mkPR (db_phys b) (db_alloc_len b) Dma (db_owner b) in
  let run := frames_of (db_phys b) (db_alloc_len b) in
  rm_ok ram s live -> db_released b = false -> x ∈ rm_ranges s ->
  (forall i e, slot_ok i -> get (dir (rm_vm s)) i = Some e -> is_small e -> table_of e / 4096 ∉ run) ->
  let b' := b <| db_released := true |> in
  exists s', dma_release_owned s b = (Ok (), b', s') /\ rm_ok ram s' (live ∖ run) /\
    rm_ranges s ≡ₚ x :: rm_ranges s' /\
    (forall v, mapped_space v -> hw_walk (rm_vm s') v = hw_walk (rm_vm s) v) /\
    dma_release_owned s' b' = (Ok (), b', s').
Proof.
  intros x run Hok Hrel Hx Htab b'. pose proof Hok as [Hvm Hva Hw Hrs Hdma Hio Hap].
  unfold dma_release_owned at 1. rewrite Hrel. cbv zeta.
  destruct (release_new _ x Hrs Hx) as (rs' & Hrelease & Hrs' & Hperm). simpl in Hrelease. rewrite Hrelease.
  rewrite bool_decide_eq_true_2 by done. eexists. split; [done|]. cbn [rm_ranges]. split_and!; try done.
  unfold page_of. rewrite Z.shiftr_div_pow2 by (try lia; apply (proj1 (Forall_forall _ _) (proj1 Hrs) x Hx)).
  destruct (proj1 (Forall_forall _ _) Hdma x Hx eq_refl) as (Hxm & Hxs & _). simpl in Hxm, Hxs.
  constructor; cbn [rm_vm rm_va rm_ranges rm_io with_frames]; try done.
  - destruct Hvm as [Hr Hwin Hd Hf Ht Hinj]. constructor; cbn [dir mem frames]; try done; [by apply free_run_ok|].
    intros i e Hi He Hs. destruct (Ht i e Hi He Hs) as (t & ? & ? & ?). exists t. split_and!; try done.
    pose proof (Htab i e Hi He Hs). set_solver.
  - apply Forall_forall. intros r Hr Hk. assert (r ∈ rm_ranges s) as Hr0 by (rewrite Hperm; by right).
    destruct (proj1 (Forall_forall _ _) Hdma r Hr0 Hk) as (Hrm & Hrsz & Hsub). split_and!; try done.
    intros f Hf. apply elem_of_difference. split; [by apply Hsub|]. intros Hfx.
    apply frames_of_spec in Hf; [|done..]. apply frames_of_spec in Hfx; [|done..].
    pose proof (release_apart _ _ _ _ Hrs Hperm Hr) as Hapart.
    unfold papart, apart, before in Hapart. simpl in Hapart. lia.
Qed.

(** ** Witnesses *)

(** The module right after boot on a 64 MiB machine. *)
Definition wit_rm : Rm := mkRm fixed_ranges (mkVA KERNEL_MMIO_BASE KERNEL_MMIO_END []) [] wit_vm.

Lemma fixed_ranges_ok : ranges_ok fixed_ranges.
Proof. split; repeat constructor; unfold range_ok, before; simpl; lia. Qed.

Lemma wit_rm_ok : rm_ok (64 * MIB) wit_rm ∅.
Proof.
  constructor; try done.
  - apply wit_vm_ok.
  - constructor; [by vm_compute|constructor..].
  - apply fixed_ranges_ok.
  - unfold wit_rm, fixed_ranges. cbn [rm_ranges]. repeat (apply Forall_cons; split; [by intros [=]|]). constructor.
  - constructor.
Qed.

Lemma reserve_range_exact_witness :
  (reserve_range fixed_ranges 0xFEE00000 0x1000 Mmio "lapic").1 = Ok () /\
  (reserve_range fixed_ranges 0x1000000 0x1000 Mmio "lapic").2 = fixed_ranges.
Proof.
  destruct (reserve_range_exact fixed_ranges 0xFEE00000 0x1000 Mmio "lapic" fixed_ranges_ok) as (_ & H & _); [done..|].
  destruct (reserve_range_exact fixed_ranges 0x1000000 0x1000 Mmio "lapic" fixed_ranges_ok) as (_ & _ & _ & H' & _);
    [done..|]. split; [|by apply H'; vm_compute].
  apply H. split; [done|]. right. repeat constructor; unfold papart, apart, before; simpl; lia.
Defined.

Lemma kernel_virtual_exact_witness :
  placed (rm_va wit_rm) 0x2000 4096 "lapic" (alloc_kernel_virtual (rm_va wit_rm) 0x1001 16 "lapic").
Proof.
  destruct (kernel_virtual_exact (rm_va wit_rm) 0x1001 16 "lapic") as [H _]; [apply wit_rm_ok|done|done|].
  rewrite decide_True in H by done. exact H.
Defined.

Lemma ioremap_exact_witness :
  exists v s' live' base, ioremap_with_flags (64 * MIB) [] wit_rm 0xFEE00010 0x20 "lapic" mmio_flags = Ret (Ok v, s') /\
    rm_ok (64 * MIB) s' live' /\ remapped (64 * MIB) wit_rm s' 0xFEE00010 0x20 "lapic" mmio_flags v base 4096.
Proof.
  assert (flags_ok mmio_flags) as Hfl by by vm_compute.
  destruct (ioremap_exact (64 * MIB) [] wit_rm ∅ 0xFEE00010 0x20 "lapic" mmio_flags wit_rm_ok (no_stacks_live _) Hfl)
    as [[_ Hr]|[(v & s' & live' & base & H1 & _ & H2 & H3)|(e & s' & _ & _ & _ & _ & _ & _ & Hno)]];
    [done|done|by vm_compute in Hr|by exists v, s', live', base|].
  destruct Hno as [?|[?|[?|Hno]]]; [done|done|by vm_compute in H|].
  destruct (Hno KERNEL_MMIO_BASE). by split_and!; try constructor.
Defined.

(** The local APIC page, mapped. *)
Lemma wit_mapped : exists v s live base,
  ioremap_with_flags (64 * MIB) [] wit_rm 0xFEE00010 0x20 "lapic" mmio_flags = Ret (Ok v, s) /\
  rm_ok (64 * MIB) s live /\ mkIo v base 4096 0xFEE00000 "lapic" ∈ rm_io s.
Proof.
  assert (flags_ok mmio_flags) as Hfl by by vm_compute.
  destruct (ioremap_cases (64 * MIB) [] wit_rm ∅ 0xFEE00010 0x20 "lapic" mmio_flags wit_rm_ok (no_stacks_live _) Hfl)
    as [[_ Hr]|[(v & s' & live' & base & H1 & Hs & H2 & H3 & H4)|(e & va & _ & _ & _ & _ & _ & Hno)]];
    [done|done|by vm_compute in Hr| |].
  - exists v, s', live', base. split_and!; [done|by eapply remapped_ok, H4; [apply wit_rm_ok|..]|].
    rewrite (rp_io _ _ _ _ _ _ _ _ _ _ H4). by left.
  - exfalso. destruct Hno as [?|[?|[?|Hno]]]; [done|done|by vm_compute in H|].
    destruct (Hno KERNEL_MMIO_BASE). by split_and!; try constructor.
Qed.

Lemma iounmap_exact_witness : exists v s s',
  ioremap_with_flags (64 * MIB) [] wit_rm 0xFEE00010 0x20 "lapic" mmio_flags = Ret (Ok v, s) /\
  iounmap s v = Ret (Ok (), s').
Proof.
  destruct wit_mapped as (v & s & live & base & H1 & Hok & Hin).
  destruct (iounmap_exact (64 * MIB) s live v Hok) as [H _].
  destruct (H _ Hin eq_refl) as (s' & H2 & _). by exists v, s, s'.
Defined.

Lemma dma_alloc_exact_witness : exists b s',
  dma_alloc_for (64 * MIB) [] wit_rm "e1000" 6000 16 U32_MAX = Ret (Ok b, s') /\
  dma_served (64 * MIB) wit_rm s' ∅ "e1000" 6000 16 U32_MAX b.
Proof.
  assert ((r ← dma_alloc_for (64 * MIB) [] wit_rm "e1000" 6000 16 U32_MAX;
           Ret (match r.1 with Ok _ => true | Err _ => false end)) = Ret true) as Hc by by vm_compute.
  destruct (dma_alloc_exact (64 * MIB) [] wit_rm ∅ "e1000" 6000 16 U32_MAX wit_rm_ok (no_stacks_live _))
    as (r & s' & H1 & H2); [done..|]. rewrite H1 in Hc. destruct r as [b|e]; [|done]. by exists b, s'.
Defined.

(** A one-page DMA buffer in frame 0x2800 and the state that holds it. *)
Definition wit_dma : DmaBuffer := mkDma 0x2800000 0xC2800000 100 4096 "e1000" false.
Definition wit_rm_dma : Rm :=
  wit_rm <| rm_ranges := fixed_ranges ++ [mkPR 0x2800000 4096 Dma "e1000"] |>
         <| rm_vm := wit_vm <| frames := mkFA (first_dynamic + 1) [] |> |>.

Lemma wit_rm_dma_ok : rm_ok (64 * MIB) wit_rm_dma {[0x2800]}.
Proof.
  destruct wit_rm_ok as [[Hr Hwin Hd _ Ht Hinj] Hva Hw [Hf Hs] Hdma Hio Hap]. constructor; try done.
  - constructor; try done.
    + constructor; cbn; [by vm_compute|constructor| |by intros f ?%not_elem_of_nil].
      intros f. change first_dynamic with 0x2800. rewrite elem_of_singleton. split; [|lia].
      intros [?%not_elem_of_nil| ->]; [done|lia].
    + intros i e Hi He Hsm. destruct (Ht i e Hi He Hsm) as (t & _ & _ & H). by apply not_elem_of_empty in H.
  - split; [apply Forall_app; split; [apply fixed_ranges_ok|]; constructor; [by vm_compute|constructor]|].
    unfold wit_rm_dma, fixed_ranges. cbn. repeat constructor; unfold before; simpl; lia.
  - unfold wit_rm_dma, fixed_ranges. cbn. repeat (apply Forall_cons; split; [by intros [=]|]).
    constructor.
Qed.

Lemma dma_release_exact_witness :
  exists s', dma_release_owned wit_rm_dma wit_dma = (Ok (), wit_dma <| db_released := true |>, s') /\
    rm_ok (64 * MIB) s' ({[0x2800]} ∖ frames_of 0x2800000 4096).
Proof.
  destruct (dma_release_exact (64 * MIB) wit_rm_dma {[0x2800]} wit_dma wit_rm_dma_ok) as (s' & H1 & H2 & _).
  - done.
  - unfold wit_rm_dma. cbn [rm_ranges]. apply elem_of_app. right. by left.
  - intros i e Hi He Hsm. destruct (vo_tables _ _ _ wit_vm_ok i e Hi He Hsm) as (t & _ & _ & H).
    by apply not_elem_of_empty in H.
  - by exists s'.
Defined.
