(* ===== verification/SharedPages.v ===== *)
(** * The page cache of file-backed shared mappings

    Model of [kernel/src/memory/shared.rs]: one physical frame per mapped page
    of a file, counted by its page-table mappings, written back to the file
    and freed when the last mapping goes.  [acquire_file_page] gives up the
    cache lock while it reads the file, so its two critical sections are
    separate operations and the theorems hold for every interleaving of them. *)

From stdpp Require Import gmultiset.
From S2P Require Import Prelude Frames Paging.

(** What the cache uses of the VFS: the size of an inode, a page-sized buffer
    after reading a page into it, and writing the first bytes of a page back. *)
Class FileStore (F : Type) := {
  metadata_size : F -> Z -> option Z;
  read_page : F -> Z -> Z -> list Z;
  write_page : F -> Z -> Z -> Z -> list Z -> F
}.

Record SharedPage : Type := mkSP { sp_inode : Z; sp_offset : Z; sp_frame : Z; sp_refs : Z; sp_write_len : Z }.
#[global] Instance SharedPage_eta : Eta SharedPage := fun p =>
  mkSP (sp_inode p) (sp_offset p) (sp_frame p) (sp_refs p) (sp_write_len p).

Inductive AcquireError : Type := NotPageAligned | NoMetadata | BeyondEnd.
Inductive SharedFrameRelease : Type := NotShared | Retained | Last.

Section Cache.
  Context {F : Type} `{!FileStore F}.
  Variables (ram : Z) (stacks : list (option Z)).

(** [SHARED_PAGES], [PAGING] and physical memory, and the file system. *)
Record Sh : Type := mkSh { sh_pages : list SharedPage; sh_frames : FrameAllocator; sh_mem : gmap Z (list Z); sh_files : F }.
#[global] Instance Sh_eta : Eta Sh := fun s => mkSh (sh_pages s) (sh_frames s) (sh_mem s) (sh_files s).

Definition is_page (inode offset : Z) (p : SharedPage) : bool := (sp_inode p =? inode) && (sp_offset p =? offset).

(** A critical section of [acquire_file_page]: the cached page, counted once
    more. *)
Definition acquire_cached (pages : list SharedPage) (inode offset : Z) : option (Z * list SharedPage) :=
  i ← vec_position (is_page inode offset) pages;
  p ← get pages i;
  Some (sp_frame p, <[Z.to_nat i := p <| sp_refs := saturating_add 32 (sp_refs p) 1 |>]> pages).

(** The part of [acquire_file_page] without the cache lock: a fresh frame
    with the page's contents. *)
Definition prepare_file_page (s : Sh) (inode offset : Z) : outcome (result SharedPage AcquireError * Sh) :=
  match metadata_size (sh_files s) inode with
  | None => Ret (Err NoMetadata, s)
  | Some size =>
      if size <=? offset then Ret (Err BeyondEnd, s) else
      let write_len := Z.min ((size - offset) mod 2 ^ 32) PAGE_SIZE in
      '(frame, fa) ← alloc_frame ram stacks (sh_frames s);
      let page := read_page (sh_files s) inode offset in
      Ret (Ok (mkSP inode offset frame 1 write_len),
           s <| sh_frames := fa |> <| sh_mem := <[Z.shiftl frame 12 := page]> (sh_mem s) |>)
  end.

(** The last critical section: another caller may have cached the page. *)
Definition commit_file_page (s : Sh) (p : SharedPage) : Z * Sh :=
  match acquire_cached (sh_pages s) (sp_inode p) (sp_offset p) with
  | Some (existing_frame, pages) =>
      (existing_frame, s <| sh_pages := pages |> <| sh_frames := free_phys_frame (sh_frames s) (sp_frame p) |>)
  | None => (sp_frame p, s <| sh_pages := sh_pages s ++ [p] |>)
  end.

(** [acquire_file_page], run without interleaving *)
Definition acquire_file_page (s : Sh) (inode offset : Z) : outcome (result Z AcquireError * Sh) :=
  if negb (Z.land offset (PAGE_SIZE - 1) =? 0) then Ret (Err NotPageAligned, s) else
  match acquire_cached (sh_pages s) inode offset with
  | Some (frame, pages) => Ret (Ok frame, s <| sh_pages := pages |>)
  | None =>
      '(r, s) ← prepare_file_page s inode offset;
      match r with
      | Err e => Ret (Err e, s)
      | Ok p => let '(frame, s) := commit_file_page s p in Ret (Ok frame, s)
      end
  end.

(** [release_shared_frame] *)
Definition release_shared_frame (s : Sh) (frame : Z) : SharedFrameRelease * Sh :=
  match vec_position (fun p => sp_frame p =? frame) (sh_pages s) with
  | None => (NotShared, s)
  | Some i =>
      match get (sh_pages s) i with
      | None => (NotShared, s)
      | Some p =>
          if 1 <? sp_refs p then
            (Retained, s <| sh_pages := <[Z.to_nat i := p <| sp_refs := sp_refs p - 1 |>]> (sh_pages s) |>)
          else
            let bytes := default zero_page (sh_mem s !! Z.shiftl frame 12) in
            (Last, s <| sh_pages := vec_swap_remove (sh_pages s) i |>
                     <| sh_files := write_page (sh_files s) (sp_inode p) (sp_offset p) (sp_write_len p) bytes |>)
      end
  end.

(** [release_user_frame] *)
Definition release_user_frame (s : Sh) (frame : Z) : Sh :=
  let '(r, s) := release_shared_frame s frame in
  match r with
  | Retained => s
  | NotShared | Last => s <| sh_frames := free_phys_frame (sh_frames s) frame |>
  end.

(** ** Runs of the cache *)

(** The cache with what the rest of the kernel knows: the pages read but not
    yet committed, the page-table mappings of user frames, and the frames in
    use. *)
Record Run : Type := mkRun { rn_sh : Sh; rn_pending : list SharedPage; rn_mapped : gmultiset Z; rn_live : gset Z }.

(** Steps of the kernel on the cache, in any order: the critical sections of
    [acquire_file_page], private user pages, and releases of mapped frames. *)
Inductive sh_step : Run -> Run -> Prop :=
| st_cached s pend m live inode offset f pages :
    acquire_cached (sh_pages s) inode offset = Some (f, pages) -> Z.of_nat (size m) < U32_MAX ->
    sh_step (mkRun s pend m live) (mkRun (s <| sh_pages := pages |>) pend (m ⊎ {[+ f +]}) live)
| st_prepare s pend m live inode offset p s' :
    acquire_cached (sh_pages s) inode offset = None -> stacks_live stacks live ->
    prepare_file_page s inode offset = Ret (Ok p, s') ->
    sh_step (mkRun s pend m live) (mkRun s' (p :: pend) m (live ∪ {[sp_frame p]}))
| st_commit s pend1 p pend2 m live f s' :
    commit_file_page s p = (f, s') -> Z.of_nat (size m) < U32_MAX ->
    sh_step (mkRun s (pend1 ++ p :: pend2) m live)
      (mkRun s' (pend1 ++ pend2) (m ⊎ {[+ f +]}) (if decide (f = sp_frame p) then live else live ∖ {[sp_frame p]}))
| st_private s pend m live f fa :
    stacks_live stacks live -> alloc_frame ram stacks (sh_frames s) = Ret (f, fa) ->
    sh_step (mkRun s pend m live) (mkRun (s <| sh_frames := fa |>) pend (m ⊎ {[+ f +]}) (live ∪ {[f]}))
| st_release s pend m live f :
    f ∈ m ->
    sh_step (mkRun s pend m live)
      (mkRun (release_user_frame s f) pend (m ∖ {[+ f +]}) (if decide (multiplicity f m = 1%nat) then live ∖ {[f]} else live)).

Definition sh_start (s : Sh) (live : gset Z) : Run := mkRun s [] ∅ live.
End Cache.
Arguments Sh : clear implicits.
Arguments Run : clear implicits.

(** ** The invariant *)

Section Invariant.
  Context {F : Type} `{!FileStore F}.
  Variables (ram : Z) (stacks : list (option Z)).
  Hypothesis (Hram : ram_ok ram).
  Implicit Types (s : Sh F) (r : Run F) (p : SharedPage) (m : gmultiset Z).

Definition key p : Z * Z := (sp_inode p, sp_offset p).

Record sh_inv r : Prop := {
  si_frames : frames_inv ram (sh_frames (rn_sh r)) (rn_live r);
  si_keys : NoDup (key <$> sh_pages (rn_sh r));
  si_distinct : NoDup (sp_frame <$> sh_pages (rn_sh r) ++ rn_pending r);
  si_live : Forall (fun p => sp_frame p ∈ rn_live r) (sh_pages (rn_sh r) ++ rn_pending r);
  si_refs : Forall (fun p => sp_refs p = Z.of_nat (multiplicity (sp_frame p) (rn_mapped r)) /\ 1 <= sp_refs p)
              (sh_pages (rn_sh r));
  si_pending : Forall (fun p => sp_frame p ∉ rn_mapped r /\ sp_refs p = 1) (rn_pending r);
  si_mapped : forall f, f ∈ rn_mapped r -> f ∈ rn_live r /\
    (f ∈ sp_frame <$> sh_pages (rn_sh r) \/ multiplicity f (rn_mapped r) = 1%nat)
}.

Lemma multiplicity_size m f : (multiplicity f m <= size m)%nat.
Proof.
  induction m as [|x m IH] using gmultiset_ind; [rewrite multiplicity_empty; lia|].
  rewrite multiplicity_disj_union, gmultiset_size_disj_union, gmultiset_size_singleton.
  destruct (decide (f = x)) as [->|]; [rewrite multiplicity_singleton_eq|rewrite multiplicity_singleton_ne by done]; lia.
Qed.

Lemma acquire_cached_Some pages inode offset f pages' :
  acquire_cached pages inode offset = Some (f, pages') ->
  exists l1 p l2, pages = l1 ++ p :: l2 /\ key p = (inode, offset) /\ f = sp_frame p /\
    pages' = l1 ++ p <| sp_refs := saturating_add 32 (sp_refs p) 1 |> :: l2.
Proof.
  unfold acquire_cached. destruct (vec_position _ pages) as [i|] eqn:Hpos; [|done]. simpl.
  apply vec_position_Some in Hpos as (l1 & p & l2 & -> & -> & Hk & _). rewrite get_middle. simpl. intros [= <- <-].
  apply andb_true_iff in Hk as [<-%Z.eqb_eq <-%Z.eqb_eq]. exists l1, p, l2. split_and!; try done.
  unfold zlen. rewrite Nat2Z.id. rewrite <- (Nat.add_0_r (length l1)) at 1. by rewrite insert_app_r.
Qed.

Lemma acquire_cached_None pages inode offset :
  acquire_cached pages inode offset = None -> (inode, offset) ∉ key <$> pages.
Proof.
  unfold acquire_cached. destruct (vec_position _ pages) as [i|] eqn:Hpos; simpl.
  - apply vec_position_Some in Hpos as (l1 & p & l2 & -> & -> & _). by rewrite get_middle.
  - intros _ Hin. apply vec_position_None in Hpos. apply list_elem_of_fmap in Hin as (p & Hk & Hp).
    pose proof (proj1 (Forall_forall _ _) Hpos p Hp) as H. unfold key, is_page in *. injection Hk as -> ->.
    by rewrite !Z.eqb_refl in H.
Qed.

(** Counting one mapping more. *)
Lemma refs_more pages1 p pages2 m :
  Z.of_nat (size m) < U32_MAX -> NoDup (sp_frame <$> pages1 ++ p :: pages2) ->
  Forall (fun p => sp_refs p = Z.of_nat (multiplicity (sp_frame p) m) /\ 1 <= sp_refs p) (pages1 ++ p :: pages2) ->
  Forall (fun q => sp_refs q = Z.of_nat (multiplicity (sp_frame q) (m ⊎ {[+ sp_frame p +]})) /\ 1 <= sp_refs q)
    (pages1 ++ p <| sp_refs := saturating_add 32 (sp_refs p) 1 |> :: pages2).
Proof.
  intros Hsz Hnd Hf. rewrite fmap_app, fmap_cons in Hnd. apply NoDup_app in Hnd as (_ & Hd1 & Hnd).
  apply NoDup_cons in Hnd as [Hd2 _]. apply Forall_app in Hf as [Hf1 Hf]. apply Forall_cons in Hf as [[Hp1 Hp2] Hf2].
  assert (forall q, sp_frame q <> sp_frame p -> multiplicity (sp_frame q) (m ⊎ {[+ sp_frame p +]}) = multiplicity (sp_frame q) m) as Hne.
  { intros q Hq. rewrite multiplicity_disj_union, multiplicity_singleton_ne by done. lia. }
  apply Forall_app. split; [|constructor].
  - apply Forall_forall. intros q Hq. rewrite Hne; [by apply (proj1 (Forall_forall _ _) Hf1)|].
    intros Heq. apply (Hd1 (sp_frame q)); [by apply list_elem_of_fmap_2|]. rewrite Heq. by left.
  - simpl. rewrite multiplicity_disj_union, multiplicity_singleton_eq. pose proof (multiplicity_size m (sp_frame p)).
    unfold saturating_add, U32_MAX in *. lia.
  - apply Forall_forall. intros q Hq. rewrite Hne; [by apply (proj1 (Forall_forall _ _) Hf2)|].
    intros Heq. apply Hd2. rewrite <- Heq. by apply list_elem_of_fmap_2.
Qed.

(** The same mappings seen from the other frames. *)
Lemma mult_add_ne m f g : g <> f -> multiplicity g (m ⊎ {[+ f +]}) = multiplicity g m.
Proof. intros. rewrite multiplicity_disj_union, multiplicity_singleton_ne by done. lia. Qed.

Lemma elem_add m f g : g ∈ m ⊎ {[+ f +]} <-> g = f \/ g ∈ m.
Proof. multiset_solver. Qed.

(** Adding a mapping of a cached frame. *)
Lemma inv_cached s pend m live inode offset f pages :
  sh_inv (mkRun s pend m live) -> acquire_cached (sh_pages s) inode offset = Some (f, pages) ->
  Z.of_nat (size m) < U32_MAX ->
  sh_inv (mkRun (s <| sh_pages := pages |>) pend (m ⊎ {[+ f +]}) live).
Proof.
  intros [Hfr Hk Hd Hl Hr Hp Hm] (l1 & p & l2 & Hs & Hkey & -> & ->)%acquire_cached_Some Hsz. simpl in *. rewrite Hs in *.
  assert (NoDup (sp_frame <$> l1 ++ p :: l2)) as Hnd by (rewrite fmap_app in Hd; by apply NoDup_app in Hd as (? & _)).
  constructor; simpl; try done; rewrite ?fmap_app, ?fmap_cons in *; simpl; try done.
  - rewrite <- !app_assoc in *. apply Forall_app in Hl as [? Hl]. apply Forall_app. split; [done|].
    simpl in *. apply Forall_cons in Hl as [? ?]. by constructor.
  - apply refs_more; [done| |done]. by rewrite fmap_app, fmap_cons.
  - apply Forall_forall. intros q Hq. destruct (proj1 (Forall_forall _ _) Hp q Hq) as [Hq1 Hq2]. split; [|done].
    rewrite elem_add. intros [Heq|?]; [|done]. apply NoDup_app in Hd as (_ & Hd & _).
    apply (Hd (sp_frame p)); [set_solver|]. rewrite <- Heq. by apply list_elem_of_fmap_2.
  - intros g. rewrite elem_add. intros [-> |Hg].
    + split; [|left; set_solver]. apply Forall_app in Hl as [Hl _]. apply (proj1 (Forall_forall _ _) Hl). set_solver.
    + destruct (Hm g Hg) as [? [?|?]]; split; try done; [by left|].
      destruct (decide (g = sp_frame p)) as [-> |]; [left; set_solver|right]. by rewrite mult_add_ne.
Qed.

(** Reading a page into a fresh frame. *)
Lemma inv_prepare s pend m live inode offset p s' :
  sh_inv (mkRun s pend m live) -> stacks_live stacks live ->
  prepare_file_page ram stacks s inode offset = Ret (Ok p, s') ->
  sh_inv (mkRun s' (p :: pend) m (live ∪ {[sp_frame p]})) /\ key p = (inode, offset) /\ sp_frame p ∉ live.
Proof.
  intros [Hfr Hk Hd Hl Hr Hp Hm] Hst. unfold prepare_file_page. simpl in *.
  destruct (metadata_size _ _) as [sz|]; [|done]. destruct (sz <=? offset); [done|].
  destruct (alloc_frame_cases ram stacks _ live Hram Hfr Hst) as [(f & fa & -> & Hf & _ & Hi)|[-> _]]; [|done].
  simpl. intros [= <- <-]. split_and!; try done. simpl.
  assert (f ∉ sp_frame <$> sh_pages s ++ pend) as Hnf.
  { intros (q & -> & Hq)%list_elem_of_fmap. by apply Hf, (proj1 (Forall_forall _ _) Hl). }
  constructor; simpl; try done.
  - rewrite <- Permutation_middle, fmap_cons. by constructor.
  - rewrite <- Permutation_middle. constructor; [set_solver|]. eapply Forall_impl; [exact Hl|]. set_solver.
  - constructor; [|done]. split; [|done]. simpl. intros Hin. by apply Hf, Hm.
  - intros g Hg. destruct (Hm g Hg). split; [set_solver|done].
Qed.

(** A private user page. *)
Lemma inv_private s pend m live f fa :
  sh_inv (mkRun s pend m live) -> stacks_live stacks live ->
  alloc_frame ram stacks (sh_frames s) = Ret (f, fa) ->
  sh_inv (mkRun (s <| sh_frames := fa |>) pend (m ⊎ {[+ f +]}) (live ∪ {[f]})).
Proof.
  intros [Hfr Hk Hd Hl Hr Hp Hm] Hst Ha. simpl in *.
  destruct (alloc_frame_cases ram stacks _ live Hram Hfr Hst) as [(g & fb & Hg & Hf & _ & Hi)|[Hg _]];
    rewrite Ha in Hg; [|done]. injection Hg as <- <-.
  assert (forall p, p ∈ sh_pages s ++ pend -> sp_frame p <> f) as Hne.
  { intros p Hin <-. by apply Hf, (proj1 (Forall_forall _ _) Hl). }
  assert (f ∉ m) as Hfm by (intros Hin; by apply Hf, Hm).
  constructor; simpl; try done.
  - eapply Forall_impl; [exact Hl|]. set_solver.
  - apply Forall_forall. intros p Hin. rewrite mult_add_ne by (apply Hne; set_solver).
    by apply (proj1 (Forall_forall _ _) Hr).
  - apply Forall_forall. intros p Hin. destruct (proj1 (Forall_forall _ _) Hp p Hin) as [H1 H2]. split; [|done].
    rewrite elem_add. intros [Heq|]; [|done]. apply (Hne p); [set_solver|done].
  - intros g. rewrite elem_add. intros [-> |Hg].
    + split; [set_solver|]. right. rewrite multiplicity_disj_union, multiplicity_singleton_eq.
      assert (multiplicity f m = 0%nat) by (by apply not_elem_of_multiplicity). lia.
    + destruct (Hm g Hg) as [? Hc]. split; [set_solver|]. rewrite mult_add_ne; [done|]. by intros ->.
Qed.

(** A pending page is dropped and its frame freed. *)
Lemma inv_drop s pend1 p pend2 m live :
  sh_inv (mkRun s (pend1 ++ p :: pend2) m live) ->
  sh_inv (mkRun (s <| sh_frames := free_phys_frame (sh_frames s) (sp_frame p) |>) (pend1 ++ pend2) m (live ∖ {[sp_frame p]})).
Proof.
  intros [Hfr Hk Hd Hl Hr Hp Hm]. simpl in *.
  rewrite <- Permutation_middle in Hd, Hl, Hp. rewrite <- Permutation_middle in Hd, Hl.
  rewrite fmap_cons in Hd. apply NoDup_cons in Hd as [Hnp Hd].
  apply Forall_cons in Hl as [Hpl Hl]. apply Forall_cons in Hp as [[Hpm _] Hp].
  constructor; simpl; try done.
  - by apply free_phys_frame_live.
  - apply Forall_forall. intros q Hq. apply elem_of_difference. split; [by apply (proj1 (Forall_forall _ _) Hl)|].
    rewrite elem_of_singleton. intros Heq. apply Hnp. rewrite <- Heq. by apply list_elem_of_fmap_2.
  - intros g Hg. destruct (Hm g Hg). split; [|done]. apply elem_of_difference. split; [done|].
    rewrite elem_of_singleton. by intros ->.
Qed.

(** A pending page enters the cache with its first mapping. *)
Lemma inv_push s pend1 p pend2 m live :
  sh_inv (mkRun s (pend1 ++ p :: pend2) m live) -> key p ∉ key <$> sh_pages s ->
  sh_inv (mkRun (s <| sh_pages := sh_pages s ++ [p] |>) (pend1 ++ pend2) (m ⊎ {[+ sp_frame p +]}) live).
Proof.
  intros [Hfr Hk Hd Hl Hr Hp Hm] Hnew. simpl in *.
  assert ((sh_pages s ++ [p]) ++ pend1 ++ pend2 ≡ₚ sh_pages s ++ pend1 ++ p :: pend2) as Hperm.
  { rewrite <- app_assoc. simpl. by rewrite (Permutation_middle pend1 pend2 p). }
  rewrite <- Permutation_middle in Hp. apply Forall_cons in Hp as [[Hpm Hp1] Hp].
  assert (forall q, q ∈ sh_pages s ++ pend1 ++ pend2 -> sp_frame q <> sp_frame p) as Hne.
  { rewrite <- Permutation_middle in Hd. rewrite <- Permutation_middle, fmap_cons in Hd.
    apply NoDup_cons in Hd as [Hd _]. intros q Hq Heq. apply Hd. rewrite <- Heq. by apply list_elem_of_fmap_2. }
  assert (multiplicity (sp_frame p) m = 0%nat) as H0 by (by apply not_elem_of_multiplicity).
  constructor; simpl; try done; try by rewrite Hperm.
  - rewrite fmap_app. apply NoDup_app. split_and!; [done| |apply NoDup_singleton].
    intros k Hk1 Hk2%list_elem_of_singleton. by subst k.
  - apply Forall_app. split; [|constructor; [|constructor]].
    + apply Forall_forall. intros q Hq. rewrite mult_add_ne by (apply Hne; set_solver).
      by apply (proj1 (Forall_forall _ _) Hr).
    + rewrite multiplicity_disj_union, multiplicity_singleton_eq. lia.
  - apply Forall_forall. intros q Hq. destruct (proj1 (Forall_forall _ _) Hp q Hq) as [H1 H2]. split; [|done].
    rewrite elem_add. intros [Heq|]; [|done]. apply (Hne q); [set_solver|done].
  - intros g. rewrite elem_add. intros [-> |Hg].
    + split; [|left; rewrite fmap_app; set_solver]. apply (proj1 (Forall_forall _ _) Hl). set_solver.
    + destruct (Hm g Hg) as [? [Hc|Hc]]; split; try done; [left; rewrite fmap_app; set_solver|].
      right. rewrite mult_add_ne; [done|]. by intros ->.
Qed.

Lemma inv_commit s pend1 p pend2 m live f s' :
  sh_inv (mkRun s (pend1 ++ p :: pend2) m live) -> commit_file_page s p = (f, s') -> Z.of_nat (size m) < U32_MAX ->
  sh_inv (mkRun s' (pend1 ++ pend2) (m ⊎ {[+ f +]}) (if decide (f = sp_frame p) then live else live ∖ {[sp_frame p]})).
Proof.
  intros Hinv. unfold commit_file_page.
  destruct (acquire_cached (sh_pages s) (sp_inode p) (sp_offset p)) as [[g pages]|] eqn:Hc; intros [= <- <-] Hsz.
  - assert (g <> sp_frame p) as Hne.
    { destruct (acquire_cached_Some _ _ _ _ _ Hc) as (l1 & q & l2 & Hs & _ & -> & _). intros Heq.
      pose proof (si_distinct _ Hinv) as Hd. simpl in Hd. rewrite fmap_app in Hd. apply NoDup_app in Hd as (_ & Hd & _).
      apply (Hd (sp_frame q)); [rewrite Hs; set_solver|rewrite Heq; set_solver]. }
    rewrite decide_False by done. pose proof (inv_cached _ _ _ _ _ _ _ _ Hinv Hc Hsz) as H. by apply inv_drop in H.
  - rewrite decide_True by done. apply inv_push; [done|by apply acquire_cached_None].
Qed.

Lemma release_shared_cases s f :
  match release_shared_frame s f with
  | (NotShared, s') => s' = s /\ f ∉ sp_frame <$> sh_pages s
  | (Retained, s') => exists l1 p l2, sh_pages s = l1 ++ p :: l2 /\ sp_frame p = f /\ 1 < sp_refs p /\
      s' = s <| sh_pages := l1 ++ p <| sp_refs := sp_refs p - 1 |> :: l2 |>
  | (Last, s') => exists l1 p l2 pages, sh_pages s = l1 ++ p :: l2 /\ sp_frame p = f /\ sp_refs p <= 1 /\
      pages ≡ₚ l1 ++ l2 /\
      s' = s <| sh_pages := pages |>
             <| sh_files := write_page (sh_files s) (sp_inode p) (sp_offset p) (sp_write_len p)
                              (default zero_page (sh_mem s !! Z.shiftl f 12)) |>
  end.
Proof.
  unfold release_shared_frame. destruct (vec_position _ _) as [i|] eqn:Hpos.
  - apply vec_position_Some in Hpos as (l1 & p & l2 & Hs & -> & Hf%Z.eqb_eq & _). rewrite Hs, get_middle.
    destruct (Z.ltb_spec 1 (sp_refs p)).
    + exists l1, p, l2. split_and!; try done. unfold zlen. rewrite Nat2Z.id.
      rewrite <- (Nat.add_0_r (length l1)) at 1. by rewrite insert_app_r.
    + exists l1, p, l2, (vec_swap_remove (l1 ++ p :: l2) (zlen l1)). split_and!; try done. apply vec_swap_remove_middle.
  - split; [done|]. apply vec_position_None in Hpos. intros (p & -> & Hp)%list_elem_of_fmap.
    pose proof (proj1 (Forall_forall _ _) Hpos p Hp) as H. simpl in H. by rewrite Z.eqb_refl in H.
Qed.

Lemma mult_sub_ne m f g : g <> f -> multiplicity g (m ∖ {[+ f +]}) = multiplicity g m.
Proof. intros. rewrite multiplicity_difference, multiplicity_singleton_ne by done. lia. Qed.
Lemma mult_sub_eq m f : multiplicity f (m ∖ {[+ f +]}) = (multiplicity f m - 1)%nat.
Proof. by rewrite multiplicity_difference, multiplicity_singleton_eq. Qed.
Lemma elem_sub m f g : g ∈ m ∖ {[+ f +]} -> g ∈ m /\ (g = f -> (1 < multiplicity f m)%nat).
Proof. rewrite !elem_of_multiplicity. intros H. split; [|intros ->; rewrite mult_sub_eq in H; lia].
  destruct (decide (g = f)) as [->|]; [rewrite mult_sub_eq in H; lia|by rewrite mult_sub_ne in H]. Qed.

(** The last mapping of a frame that is not, or no longer, cached goes. *)
Lemma inv_release_last s pend m live f pages files :
  sh_inv (mkRun s pend m live) -> f ∈ m -> multiplicity f m = 1%nat ->
  (exists rest, sh_pages s ≡ₚ rest ++ pages /\ Forall (fun p => sp_frame p = f) rest) -> f ∉ sp_frame <$> pages ->
  sh_inv (mkRun (mkSh pages (free_phys_frame (sh_frames s) f) (sh_mem s) files) pend (m ∖ {[+ f +]}) (live ∖ {[f]})).
Proof.
  intros [Hfr Hk Hd Hl Hr Hp Hm] Hf H1 (rest & Hperm & Hrest) Hnf. simpl in *. rewrite Hperm in Hk, Hd, Hl, Hr.
  rewrite fmap_app in Hk. apply NoDup_app in Hk as (_ & _ & Hk).
  rewrite <- app_assoc, fmap_app in Hd. apply NoDup_app in Hd as (_ & _ & Hd).
  rewrite <- app_assoc in Hl. apply Forall_app in Hl as [_ Hl]. apply Forall_app in Hr as [_ Hr].
  assert (forall q, q ∈ pages ++ pend -> sp_frame q <> f) as Hne.
  { intros q [Hq|Hq]%elem_of_app <-; [by apply Hnf, list_elem_of_fmap_2|].
    by destruct (proj1 (Forall_forall _ _) Hp q Hq). }
  constructor; simpl; try done.
  - apply free_phys_frame_live; [done|]. by apply Hm.
  - apply Forall_forall. intros q Hq. apply elem_of_difference. split; [by apply (proj1 (Forall_forall _ _) Hl)|].
    rewrite elem_of_singleton. by apply Hne.
  - apply Forall_forall. intros q Hq. rewrite mult_sub_ne by (apply Hne; set_solver). by apply (proj1 (Forall_forall _ _) Hr).
  - apply Forall_forall. intros q Hq. destruct (proj1 (Forall_forall _ _) Hp q Hq) as [? ?]. split; [|done].
    by intros [? _]%elem_sub.
  - intros g [Hg Hgf]%elem_sub. assert (g <> f) as Hgne by (intros ->; specialize (Hgf eq_refl); lia).
    destruct (Hm g Hg) as [? Hc]. split; [set_solver|]. rewrite mult_sub_ne by done.
    destruct Hc as [Hc|Hc]; [left|by right]. rewrite Hperm, fmap_app, elem_of_app in Hc. destruct Hc as [Hc|]; [|done].
    apply list_elem_of_fmap in Hc as (q & -> & Hq). by apply (proj1 (Forall_forall _ _) Hrest) in Hq.
Qed.

(** One of several mappings of a cached frame goes. *)
Lemma inv_release_more s pend m live l1 p l2 :
  sh_inv (mkRun s pend m live) -> sh_pages s = l1 ++ p :: l2 -> 1 < sp_refs p ->
  sh_inv (mkRun (s <| sh_pages := l1 ++ p <| sp_refs := sp_refs p - 1 |> :: l2 |>) pend (m ∖ {[+ sp_frame p +]}) live).
Proof.
  intros [Hfr Hk Hd Hl Hr Hp Hm] Hs Hrf. simpl in *. rewrite Hs in *.
  assert (forall q, q ∈ l1 ++ l2 -> sp_frame q <> sp_frame p) as Hne.
  { rewrite fmap_app in Hd. apply NoDup_app in Hd as (Hd & _ & _).
    rewrite <- Permutation_middle, fmap_cons in Hd. apply NoDup_cons in Hd as [Hd _].
    intros q Hq Heq. apply Hd. rewrite <- Heq. by apply list_elem_of_fmap_2. }
  rewrite <- Permutation_middle in Hr. apply Forall_cons in Hr as [[Hp1 _] Hr].
  constructor; simpl; try done; rewrite ?fmap_app, ?fmap_cons in *; simpl; try done.
  - rewrite <- !app_assoc in *. apply Forall_app in Hl as [? Hl]. apply Forall_app. split; [done|].
    simpl in *. apply Forall_cons in Hl as [? ?]. by constructor.
  - rewrite <- Permutation_middle. constructor; simpl; [rewrite mult_sub_eq; lia|].
    apply Forall_forall. intros q Hq. rewrite mult_sub_ne by (by apply Hne). by apply (proj1 (Forall_forall _ _) Hr).
  - apply Forall_forall. intros q Hq. destruct (proj1 (Forall_forall _ _) Hp q Hq) as [? ?]. split; [|done].
    by intros [? _]%elem_sub.
  - intros g [Hg _]%elem_sub. destruct (Hm g Hg) as [? [Hc|Hc]]; split; try done; [by left|].
    destruct (decide (g = sp_frame p)) as [->|]; [left; set_solver|right; by rewrite mult_sub_ne].
Qed.

(** Releasing a mapped frame: what happens to it and to its file. *)
Lemma release_user_cases s pend m live f :
  sh_inv (mkRun s pend m live) -> f ∈ m ->
  let s' := release_user_frame s f in
  let last := multiplicity f m = 1%nat in
  sh_inv (mkRun s' pend (m ∖ {[+ f +]}) (if decide last then live ∖ {[f]} else live)) /\
  (last -> sh_frames s' = free_phys_frame (sh_frames s) f) /\ (~ last -> sh_frames s' = sh_frames s) /\
  sh_files s' =
    match list_find (fun p => sp_frame p = f) (sh_pages s) with
    | Some (_, p) => if decide last then
        write_page (sh_files s) (sp_inode p) (sp_offset p) (sp_write_len p) (default zero_page (sh_mem s !! Z.shiftl f 12))
      else sh_files s
    | None => sh_files s
    end.
Proof.
  intros Hinv Hf s' last. unfold s', release_user_frame. pose proof (release_shared_cases s f) as Hc.
  pose proof Hinv as [_ _ Hd _ Hr _ Hm]. simpl in Hd, Hr, Hm.
  assert (forall l1 p l2, sh_pages s = l1 ++ p :: l2 -> sp_frame p = f ->
    list_find (fun p => sp_frame p = f) (sh_pages s) = Some (length l1, p) /\
    f ∉ sp_frame <$> l1 ++ l2 /\ sp_refs p = Z.of_nat (multiplicity f m)) as Hfind.
  { intros l1 p l2 Hs Hpf. rewrite Hs in Hd, Hr |- *. rewrite fmap_app in Hd. apply NoDup_app in Hd as (Hd & _ & _).
    rewrite <- Permutation_middle in Hd, Hr. rewrite fmap_cons in Hd. apply NoDup_cons in Hd as [Hd _].
    apply Forall_cons in Hr as [[Hr _] _]. rewrite Hpf in *. split_and!; try done. apply list_find_Some.
    split_and!; [by rewrite list_lookup_middle|done|]. intros j y Hj Hlt Hy. apply Hd.
    rewrite lookup_app_l in Hj by done. rewrite <- Hy. apply list_elem_of_fmap_2, elem_of_app. left.
    by eapply list_elem_of_lookup_2. }
  destruct (release_shared_frame s f) as [[| |] s1]; simpl.
  - destruct Hc as [-> Hnf]. assert (multiplicity f m = 1%nat) as H1 by (destruct (Hm f Hf) as [_ [?|?]]; done).
    rewrite decide_True by done. split_and!; try done.
    + refine (inv_release_last s pend m live f (sh_pages s) (sh_files s) Hinv Hf H1 _ Hnf). by exists [].
    + destruct (list_find _ _) as [[i p]|] eqn:E; [|done]. apply list_find_Some in E as (Hp & Hpf & _).
      destruct Hnf. rewrite <- Hpf. by apply list_elem_of_fmap_2, (list_elem_of_lookup_2 _ i).
  - destruct Hc as (l1 & p & l2 & Hs & Hpf & Hrf & ->). destruct (Hfind l1 p l2 Hs Hpf) as (-> & _ & Hrm).
    assert (multiplicity f m <> 1%nat) as Hn1 by lia. rewrite !decide_False by done. rewrite <- Hpf.
    split_and!; try done. by apply inv_release_more.
  - destruct Hc as (l1 & p & l2 & pages & Hs & Hpf & Hrf & Hperm & ->). destruct (Hfind l1 p l2 Hs Hpf) as (-> & Hnf & Hrm).
    pose proof (proj1 (elem_of_multiplicity _ _) Hf) as Hf'. assert (multiplicity f m = 1%nat) as H1 by lia.
    rewrite !decide_True by done. split_and!; try done.
    refine (inv_release_last s pend m live f pages _ Hinv Hf H1 _ _); [|by rewrite Hperm].
    exists [p]. rewrite Hs, Hperm. split; [by rewrite <- Permutation_middle|by repeat constructor].
Qed.

(** A frame with other mappings stays cached. *)
Lemma release_more_cached s pend m live f :
  sh_inv (mkRun s pend m live) -> f ∈ m -> multiplicity f m <> 1%nat ->
  f ∈ sp_frame <$> sh_pages (release_user_frame s f).
Proof.
  intros [_ _ _ _ Hr _ Hm] Hf Hmore. simpl in *. pose proof (release_shared_cases s f) as Hc. unfold release_user_frame.
  destruct (release_shared_frame s f) as [[| |] s1].
  - destruct Hc as [_ Hc]. by destruct (Hm f Hf) as [_ [?|?]].
  - destruct Hc as (l1 & p & l2 & _ & <- & _ & ->). simpl. rewrite fmap_app. set_solver.
  - destruct Hc as (l1 & p & l2 & pages & Hs & <- & Hrf & _). exfalso. apply Hmore.
    rewrite Hs in Hr. apply Forall_app in Hr as [_ Hr]. apply Forall_cons in Hr as [[Hr1 Hr2] _]. lia.
Qed.

Lemma sh_step_inv r r' : sh_inv r -> sh_step ram stacks r r' -> sh_inv r'.
Proof.
  intros Hinv Hs. destruct Hs.
  - by eapply inv_cached.
  - by eapply inv_prepare.
  - by eapply inv_commit.
  - by eapply inv_private.
  - by apply release_user_cases.
Qed.

(** States the cache can reach from an empty cache. *)
Definition sh_reachable r : Prop :=
  exists s live, sh_pages s = [] /\ frames_inv ram (sh_frames s) live /\
    rtc (sh_step ram stacks) (sh_start s live) r.

Lemma sh_reachable_inv r : sh_reachable r -> sh_inv r.
Proof.
  intros (s & live & Hs & Hf & Hrun). revert Hrun. apply (rtc_ind_r (fun r => sh_inv r)).
  - constructor; simpl; rewrite ?Hs; simpl; try done; try apply NoDup_nil_2; try apply Forall_nil_2.
    intros f Hm. by apply gmultiset_not_elem_of_empty in Hm.
  - intros r1 r2 _ H Hi. by eapply sh_step_inv.
Qed.
End Invariant.

(** ** Correctness *)

(** C17. The shared-page cache is coherent in every interleaving of mapping and
    unmapping, also while callers read file pages outside the cache lock: a
    file page has one frame, the reference count is the number of its
    page-table mappings, and every mapped frame is in use and never on the free
    list, so a mapping can not alias a frame given to someone else.  Acquiring
    is split at its lock sections; releasing the last mapping, with its
    write-back, is one step. *)
Theorem shared_pages_coherent {F : Type} `{!FileStore F} ram stacks (r : Run F) :
  ram_ok ram -> sh_reachable ram stacks r ->
  let pages := sh_pages (rn_sh r) in
  (forall p q, p ∈ pages -> q ∈ pages -> key p = key q \/ sp_frame p = sp_frame q -> p = q) /\
  (forall p, p ∈ pages -> sp_refs p = Z.of_nat (multiplicity (sp_frame p) (rn_mapped r)) /\ 1 <= sp_refs p) /\
  (forall f, f ∈ rn_mapped r -> f ∈ rn_live r /\ f ∉ free_frames (sh_frames (rn_sh r))) /\
  (forall p, p ∈ pages -> exists pages', acquire_cached pages (sp_inode p) (sp_offset p) = Some (sp_frame p, pages')).
Proof.
  intros Hram Hreach. destruct (sh_reachable_inv ram stacks Hram r Hreach) as [Hfr Hk Hd _ Hr _ Hm].
  rewrite fmap_app in Hd. apply NoDup_app in Hd as (Hd & _ & _).
  assert (forall p q, p ∈ sh_pages (rn_sh r) -> q ∈ sh_pages (rn_sh r) -> key p = key q \/ sp_frame p = sp_frame q -> p = q) as Huniq.
  { intros p q Hp Hq [He|He]; [exact (NoDup_fmap_elem key _ Hk p q Hp Hq He)|exact (NoDup_fmap_elem sp_frame _ Hd p q Hp Hq He)]. }
  split_and!; [exact Huniq|by apply Forall_forall| |].
  - intros f Hf. destruct (Hm f Hf) as [Hl _]. split; [done|]. intros Hfree. by apply (fi_disj _ _ _ Hfr f).
  - intros p Hp. destruct (acquire_cached _ (sp_inode p) (sp_offset p)) as [[f pages']|] eqn:Hc.
    + destruct (acquire_cached_Some _ _ _ _ _ Hc) as (l1 & q & l2 & Hs & Hkey & -> & _).
      rewrite (Huniq q p); [by eexists|rewrite Hs; set_solver|done|by left].
    + apply acquire_cached_None in Hc. destruct Hc. by apply (list_elem_of_fmap_2 key).
Qed.

(** A user frame is freed exactly when its last mapping is released: the
    frame of a private page at once, the frame of a shared page when no other
    page table maps it, and then, once, the file's part of the page is written
    back; while other mappings remain, the frame and the file stay as they are. *)
Theorem shared_release_exact {F : Type} `{!FileStore F} ram stacks (r : Run F) f :
  ram_ok ram -> sh_reachable ram stacks r -> f ∈ rn_mapped r ->
  let s := rn_sh r in
  let s' := release_user_frame s f in
  let last := multiplicity f (rn_mapped r) = 1%nat in
  (last -> sh_frames s' = free_phys_frame (sh_frames s) f /\ f ∈ free_frames (sh_frames s') /\
           f ∉ sp_frame <$> sh_pages s') /\
  (~ last -> sh_frames s' = sh_frames s /\ f ∈ sp_frame <$> sh_pages s') /\
  sh_files s' =
    match list_find (fun p => sp_frame p = f) (sh_pages s) with
    | Some (_, p) => if decide last then
        write_page (sh_files s) (sp_inode p) (sp_offset p) (sp_write_len p) (default zero_page (sh_mem s !! Z.shiftl f 12))
      else sh_files s
    | None => sh_files s
    end.
Proof.
  intros Hram Hreach Hf s s' last. pose proof (sh_reachable_inv ram stacks Hram r Hreach) as Hinv.
  destruct r as [s0 pend m live]. simpl in *. subst s. pose proof (si_mapped _ _ Hinv f Hf) as [Hlive _]. simpl in Hlive.
  destruct (release_user_cases ram Hram s0 pend m live f Hinv Hf) as (Hinv' & Hl & Hn & Hfiles).
  fold s' in Hinv', Hl, Hn, Hfiles. fold last in Hinv', Hl, Hn, Hfiles. split_and!; [| |exact Hfiles].
  - intros Hlast. split; [by apply Hl|]. rewrite decide_True in Hinv' by done. destruct Hinv' as [Hfr' _ _ Hlv _ _ _]. simpl in *.
    split.
    + pose proof (fi_part _ _ _ (si_frames _ _ Hinv) f) as Hp. pose proof (fi_part _ _ _ Hfr' f) as Hp'. simpl in *.
      assert (next_free_page (sh_frames s') = next_free_page (sh_frames s0)) as Hnx.
      { rewrite (Hl Hlast). unfold free_phys_frame. destruct (_ || _); [done|]. by destruct (existsb _ _). }
      rewrite Hnx in Hp'. destruct (proj2 Hp') as [?|?]; [apply Hp; by right|done|set_solver].
    + intros (p & Heq & Hp)%list_elem_of_fmap. apply Forall_app in Hlv as [Hlv _].
      pose proof (proj1 (Forall_forall _ _) Hlv p Hp) as H. simpl in H. rewrite <- Heq in H. set_solver.
  - intros Hmore. split; [by apply Hn|]. by apply (release_more_cached ram Hram s0 pend m live).
Qed.

(** ** Witnesses *)

(** A file store with one 5000-byte file that records what is written back. *)
Definition wit_files : Type := list (Z * Z * Z).
#[global] Instance wit_FileStore : FileStore wit_files := {
  metadata_size := fun _ inode => if inode =? 7 then Some 5000 else None;
  read_page := fun _ _ _ => zero_page;
  write_page := fun log inode offset len _ => log ++ [(inode, offset, len)]
}.

Definition wit_sh0 : Sh wit_files := mkSh [] (mkFA first_dynamic []) ∅ [].

(** Page 1 of the file, mapped twice. *)
Definition wit_sh : Sh wit_files :=
  mkSh [mkSP 7 4096 0x2800 2 904] (mkFA 0x2801 []) {[0x2800000 := zero_page]} [].
Definition wit_run : Run wit_files := mkRun wit_sh [] ({[+ 0x2800 +]} ⊎ {[+ 0x2800 +]}) ({[0x2800]}).

Lemma wit_run_reachable : sh_reachable (64 * MIB) [] wit_run.
Proof.
  exists wit_sh0, ∅. split; [done|]. split.
  { constructor; simpl; [by vm_compute|constructor| |by intros f ?%not_elem_of_nil].
    intros f. rewrite elem_of_empty. split; [|lia]. intros [?%not_elem_of_nil|]; done. }
  eapply rtc_l; [eapply (st_prepare _ _ wit_sh0 [] ∅ ∅ 7 4096); [done|apply no_stacks_live|by vm_compute]|].
  eapply rtc_l; [eapply (st_commit _ _ _ [] _ []); by vm_compute|].
  eapply rtc_l; [eapply (st_cached _ _ _ _ _ _ 7 4096); by vm_compute|].
  match goal with |- rtc _ ?a ?b => assert (a = b) as -> end; [|apply rtc_refl].
  unfold wit_run. by f_equal.
Qed.

Lemma shared_pages_coherent_witness :
  sp_refs (mkSP 7 4096 0x2800 2 904) = Z.of_nat (multiplicity 0x2800 (rn_mapped wit_run)).
Proof.
  destruct (shared_pages_coherent (64 * MIB) [] wit_run) as (_ & H & _); [by vm_compute|apply wit_run_reachable|].
  apply (H (mkSP 7 4096 0x2800 2 904)). by left.
Defined.

Lemma shared_release_exact_witness :
  sh_frames (release_user_frame wit_sh 0x2800) = sh_frames wit_sh /\
  0x2800 ∈ sp_frame <$> sh_pages (release_user_frame wit_sh 0x2800).
Proof.
  destruct (shared_release_exact (64 * MIB) [] wit_run 0x2800) as (_ & H & _);
    [by vm_compute|apply wit_run_reachable|simpl; multiset_solver|]. apply H. by vm_compute.
Defined.

(** The length written back is cut to 32 bits before it is limited to a page:
    a mapping that starts exactly 4 GiB before the end of its file writes
    nothing back. *)
Lemma shared_write_len_truncated {F : Type} `{!FileStore F} ram stacks (s s' : Sh F) inode offset p :
  metadata_size (sh_files s) inode = Some (offset + 2 ^ 32) ->
  prepare_file_page ram stacks s inode offset = Ret (Ok p, s') -> sp_write_len p = 0.
Proof.
  intros Hm. unfold prepare_file_page. rewrite Hm, (proj2 (Z.leb_gt _ _)) by lia.
  destruct (alloc_frame ram stacks (sh_frames s)) as [[f fa]|]; [|done]. simpl. intros [= <- _]. cbn [sp_write_len].
  by replace (offset + 2 ^ 32 - offset) with (2 ^ 32) by lia.
Qed.
