(* ===== verification/FileTable.v ===== *)
(** * File descriptor tables and shared open file descriptions

    Model of [kernel/src/filesystem/file.rs].  A descriptor slot holds the
    identity of a resource and an [Arc] to the open file description with the
    state that [dup] and inheritance share.  The [Arc]s of all processes live
    in one store with their strong counts, so that what [close] reports about
    the last reference is a statement about every table of the system. *)

From S2P Require Import Prelude.

Inductive FileMode : Type := ReadOnly | WriteOnly | ReadWrite.
Inductive PipeEnd : Type := PRead | PWrite.
Inductive PtySide : Type := Master | Slave.
Inductive DeviceKind : Type := Block | Char.

(** [enum FileDescriptor]; the path of a directory is its 96-byte buffer. *)
Inductive FileDescriptor : Type :=
| ConsoleIn
| ConsoleOut
| File (inode offset : Z) (mode : FileMode)
| Socket (socket_id : Z)
| PipeFd (pipe_id : Z) (pend : PipeEnd)
| Pty (pty_id : Z) (side : PtySide)
| Device (inode offset : Z) (mode : FileMode) (kind : DeviceKind)
| Dir (path : list Z) (path_len cookie : Z).

Definition initial_offset (d : FileDescriptor) : Z :=
  match d with File _ offset _ | Device _ offset _ _ => offset | _ => 0 end.
Definition initial_cookie (d : FileDescriptor) : Z :=
  match d with Dir _ _ cookie => cookie | _ => 0 end.
Definition is_socket (d : FileDescriptor) : bool := match d with Socket _ => true | _ => false end.

Definition O_APPEND : Z := 0x400.
Definition O_NONBLOCK : Z := 0x800.
Definition OFD_STATUS_MASK : Z := Z.lor O_APPEND O_NONBLOCK.

Record OpenFileDescription : Type := mkOfd { ofd_offset : Z; dir_cookie : Z; status_flags : Z }.
#[global] Instance OpenFileDescription_eta : Eta OpenFileDescription := fun o =>
  mkOfd (ofd_offset o) (dir_cookie o) (status_flags o).
Definition from_descriptor (d : FileDescriptor) : OpenFileDescription :=
  mkOfd (initial_offset d) (initial_cookie d) 0.

(** ** The store of [Arc]s *)

Record Arcs : Type := mkArcs { arcs : gmap Z (OpenFileDescription * Z); next_arc : Z }.
#[global] Instance Arcs_eta : Eta Arcs := fun h => mkArcs (arcs h) (next_arc h).

Definition arc_new (h : Arcs) (o : OpenFileDescription) : Z * Arcs :=
  (next_arc h, mkArcs (<[next_arc h := (o, 1)]> (arcs h)) (next_arc h + 1)).
Definition arc_clone (h : Arcs) (id : Z) : Arcs :=
  h <| arcs := alter (fun '(o, n) => (o, n + 1)) id (arcs h) |>.
Definition strong_count (h : Arcs) (id : Z) : Z :=
  match arcs h !! id with Some (_, n) => n | None => 0 end.
Definition arc_drop (h : Arcs) (id : Z) : Arcs :=
  match arcs h !! id with
  | Some (o, n) =>
      if n <=? 1 then h <| arcs := delete id (arcs h) |> else h <| arcs := <[id := (o, n - 1)]> (arcs h) |>
  | None => h
  end.
Definition arc_modify (h : Arcs) (id : Z) (f : OpenFileDescription -> OpenFileDescription) : Arcs :=
  h <| arcs := alter (fun '(o, n) => (f o, n)) id (arcs h) |>.
Definition arc_read (h : Arcs) (id : Z) : option OpenFileDescription := fst <$> arcs h !! id.

(** The value an assignment or a scope end drops. *)
Definition drop_opt (h : Arcs) (o : option Z) : Arcs := match o with Some id => arc_drop h id | None => h end.

(** ** A table *)

Record FileDescriptorTable : Type := mkTable { fds : list (option FileDescriptor); ofds : list (option Z) }.
#[global] Instance FileDescriptorTable_eta : Eta FileDescriptorTable := fun t => mkTable (fds t) (ofds t).

Record ClosedFileDescriptor : Type := mkClosed { desc : FileDescriptor; last_open_ref : bool }.

Definition FD_COUNT : Z := 64.
Definition table_new : FileDescriptorTable := mkTable (replicate 64 None) (replicate 64 None).

(** [self.ofds.get(fd).and_then(..)], [self.fds.get(fd)?.as_ref()] *)
Definition ofd_at (t : FileDescriptorTable) (fd : Z) : option Z := mjoin (get (ofds t) fd).
Definition fd_at (t : FileDescriptorTable) (fd : Z) : option FileDescriptor := mjoin (get (fds t) fd).

Definition set_slot (t : FileDescriptorTable) (fd : Z) (d : option FileDescriptor) (o : option Z) : FileDescriptorTable :=
  mkTable (<[Z.to_nat fd := d]> (fds t)) (<[Z.to_nat fd := o]> (ofds t)).

(** [insert] *)
Definition insert_fd (h : Arcs) (t : FileDescriptorTable) (fd : Z) (d : FileDescriptor)
    : bool * Arcs * FileDescriptorTable :=
  if (FD_COUNT <=? fd) || bool_decide (is_Some (fd_at t fd)) then (false, h, t) else
  let '(id, h) := arc_new h (from_descriptor d) in
  (true, drop_opt h (ofd_at t fd), set_slot t fd (Some d) (Some id)).

(** [insert_shared]: the handle [ofd] is moved in, and dropped on failure. *)
Definition insert_shared (h : Arcs) (t : FileDescriptorTable) (fd : Z) (d : FileDescriptor) (ofd : Z)
    : bool * Arcs * FileDescriptorTable :=
  if (FD_COUNT <=? fd) || bool_decide (is_Some (fd_at t fd)) then (false, arc_drop h ofd, t)
  else (true, drop_opt h (ofd_at t fd), set_slot t fd (Some d) (Some ofd)).

(** [with_stdio] *)
Definition with_stdio (h : Arcs) : Arcs * FileDescriptorTable :=
  let '(_, h, t) := insert_fd h table_new 0 ConsoleIn in
  let '(_, h, t) := insert_fd h t 1 ConsoleOut in
  let '(_, h, t) := insert_fd h t 2 ConsoleOut in (h, t).

Definition get_flags (h : Arcs) (t : FileDescriptorTable) (fd : Z) : Z :=
  default 0 (id ← ofd_at t fd; o ← arc_read h id; Some (status_flags o)).
Definition get_offset (h : Arcs) (t : FileDescriptorTable) (fd : Z) : option Z :=
  id ← ofd_at t fd; o ← arc_read h id; Some (ofd_offset o).
Definition get_cookie (h : Arcs) (t : FileDescriptorTable) (fd : Z) : option Z :=
  id ← ofd_at t fd; o ← arc_read h id; Some (dir_cookie o).
Definition is_nonblock (h : Arcs) (t : FileDescriptorTable) (fd : Z) : bool :=
  negb (Z.land (get_flags h t fd) O_NONBLOCK =? 0).

Definition set_flags (h : Arcs) (t : FileDescriptorTable) (fd flags : Z) : bool * Arcs :=
  match ofd_at t fd with
  | None => (false, h)
  | Some id => (true, arc_modify h id (fun o => o <| status_flags := Z.land flags OFD_STATUS_MASK |>))
  end.
Definition set_offset (h : Arcs) (t : FileDescriptorTable) (fd offset : Z) : bool * Arcs :=
  match ofd_at t fd with
  | None => (false, h)
  | Some id => (true, arc_modify h id (fun o => o <| ofd_offset := offset |>))
  end.
Definition set_cookie (h : Arcs) (t : FileDescriptorTable) (fd cookie : Z) : bool * Arcs :=
  match ofd_at t fd with
  | None => (false, h)
  | Some id => (true, arc_modify h id (fun o => o <| dir_cookie := cookie |>))
  end.
Definition advance_offset (h : Arcs) (t : FileDescriptorTable) (fd amount : Z) : option Z * Arcs :=
  match ofd_at t fd with
  | None => (None, h)
  | Some id =>
      let h := arc_modify h id (fun o => o <| ofd_offset := saturating_add 64 (ofd_offset o) amount |>) in
      (ofd_offset <$> arc_read h id, h)
  end.

(** [alloc_fd], [alloc_fd_from] *)
Definition is_none_fd (d : option FileDescriptor) : bool := match d with None => true | Some _ => false end.
Definition alloc_fd (t : FileDescriptorTable) : option Z := vec_position is_none_fd (fds t).
Definition alloc_fd_from (t : FileDescriptorTable) (min : Z) : option Z :=
  (fun i => min + i) <$> vec_position is_none_fd (drop (Z.to_nat min) (fds t)).

(** [clone_entry]: a snapshot with a new handle. *)
Definition clone_entry (h : Arcs) (t : FileDescriptorTable) (fd : Z) : option (FileDescriptor * Z) * Arcs :=
  match fd_at t fd, ofd_at t fd with
  | Some d, Some id => (Some (d, id), arc_clone h id)
  | _, _ => (None, h)
  end.

(** [set], [set_shared]: the replaced handle is dropped. *)
Definition set_fd (h : Arcs) (t : FileDescriptorTable) (fd : Z) (d : FileDescriptor)
    : option FileDescriptor * Arcs * FileDescriptorTable :=
  if FD_COUNT <=? fd then (None, h, t) else
  let '(id, h) := arc_new h (from_descriptor d) in
  (fd_at t fd, drop_opt h (ofd_at t fd), set_slot t fd (Some d) (Some id)).
Definition set_shared (h : Arcs) (t : FileDescriptorTable) (fd : Z) (d : FileDescriptor) (ofd : Z)
    : option FileDescriptor * Arcs * FileDescriptorTable :=
  if FD_COUNT <=? fd then (None, arc_drop h ofd, t)
  else (fd_at t fd, drop_opt h (ofd_at t fd), set_slot t fd (Some d) (Some ofd)).

(** [close] *)
Definition close (h : Arcs) (t : FileDescriptorTable) (fd : Z)
    : option ClosedFileDescriptor * Arcs * FileDescriptorTable :=
  if FD_COUNT <=? fd then (None, h, t) else
  match fd_at t fd with
  | None => (None, h, t)
  | Some d =>
      let ofd := ofd_at t fd in
      let last := match ofd with Some id => strong_count h id =? 1 | None => true end in
      (Some (mkClosed d last), drop_opt h ofd, set_slot t fd None None)
  end.

(** [take_all] from slot [fd] on, [n] slots *)
Fixpoint take_from (n : nat) (h : Arcs) (t : FileDescriptorTable) (fd : Z)
    : list ClosedFileDescriptor * Arcs * FileDescriptorTable :=
  match n with
  | O => ([], h, t)
  | S n =>
      let '(c, h, t) := close h t fd in
      let '(out, h, t) := take_from n h t (fd + 1) in
      (match c with Some c => c :: out | None => out end, h, t)
  end.
Definition take_all (h : Arcs) (t : FileDescriptorTable) : list ClosedFileDescriptor * Arcs * FileDescriptorTable :=
  take_from (length (fds t)) h t 0.

(** [dup2] *)
Definition dup2 (h : Arcs) (t : FileDescriptorTable) (old new : Z) : bool * Arcs * FileDescriptorTable :=
  if (FD_COUNT <=? old) || (FD_COUNT <=? new) then (false, h, t) else
  match fd_at t old, ofd_at t old with
  | Some d, Some id =>
      if old =? new then (true, h, t)
      else (true, drop_opt (arc_clone h id) (ofd_at t new), set_slot t new (Some d) (Some id))
  | _, _ => (false, h, t)
  end.

(** ** Renaming directories *)

Definition SLASH : Z := 47.

(** [str::trim_end_matches('/')], [str::strip_prefix] on the bytes *)
Fixpoint drop_slashes (l : list Z) : list Z :=
  match l with b :: r => if b =? SLASH then drop_slashes r else l | [] => [] end.
Definition trim_end_slashes (l : list Z) : list Z := reverse (drop_slashes (reverse l)).
Fixpoint strip_prefix (p l : list Z) : option (list Z) :=
  match p, l with
  | [], _ => Some l
  | a :: p, b :: l => if a =? b then strip_prefix p l else None
  | _, _ => None
  end.

Definition in_range (lo hi b : Z) : bool := (lo <=? b) && (b <=? hi).

(** [core::str::from_utf8] accepts the bytes. *)
Fixpoint utf8_valid (l : list Z) : bool :=
  match l with
  | [] => true
  | b0 :: r0 =>
      if b0 <? 0x80 then utf8_valid r0 else
      match r0 with
      | [] => false
      | b1 :: r1 =>
          if in_range 0xC2 0xDF b0 then in_range 0x80 0xBF b1 && utf8_valid r1 else
          match r1 with
          | [] => false
          | b2 :: r2 =>
              if in_range 0xE0 0xEF b0 then
                in_range (if b0 =? 0xE0 then 0xA0 else 0x80) (if b0 =? 0xED then 0x9F else 0xBF) b1
                && in_range 0x80 0xBF b2 && utf8_valid r2
              else
              match r2 with
              | [] => false
              | b3 :: r3 =>
                  in_range 0xF0 0xF4 b0
                  && in_range (if b0 =? 0xF0 then 0x90 else 0x80) (if b0 =? 0xF4 then 0x8F else 0xBF) b1
                  && in_range 0x80 0xBF b2 && in_range 0x80 0xBF b3 && utf8_valid r3
              end
          end
      end
  end.

(** The path a directory below [old] has after the rename, if it is one. *)
Definition rewrite_path (old new current : list Z) : option (list Z) :=
  let old_prefix := if bool_decide (old = [SLASH]) then [SLASH] else trim_end_slashes old ++ [SLASH] in
  suffix ← (if bool_decide (current = old) then Some [] else strip_prefix old_prefix current);
  Some (match suffix with
        | [] => new
        | _ => if bool_decide (new = [SLASH]) then SLASH :: suffix else trim_end_slashes new ++ [SLASH] ++ suffix
        end).

Definition rewrite_slot (old new : list Z) (slot : option FileDescriptor) : outcome (option FileDescriptor) :=
  match slot with
  | Some (Dir path path_len cookie) =>
      if zlen path <? path_len then Panic else
      let current := take (Z.to_nat path_len) path in
      if negb (utf8_valid current) then Ret slot else
      match rewrite_path old new current with
      | None => Ret slot
      | Some bytes =>
          if zlen path <=? zlen bytes then Ret slot
          else Ret (Some (Dir (bytes ++ replicate (96 - length bytes) 0) (zlen bytes mod 256) cookie))
      end
  | _ => Ret slot
  end.

Fixpoint rewrite_slots (old new : list Z) (slots : list (option FileDescriptor))
    : outcome (list (option FileDescriptor)) :=
  match slots with
  | [] => Ret []
  | s :: rest => s ← rewrite_slot old new s; rest ← rewrite_slots old new rest; Ret (s :: rest)
  end.

Definition rewrite_dir_paths (t : FileDescriptorTable) (old new : list Z) : outcome FileDescriptorTable :=
  fds' ← rewrite_slots old new (fds t); Ret (t <| fds := fds' |>).

(** ** The tables of all processes *)

Record FileSys : Type := mkFS { fs_arcs : Arcs; fs_tables : list FileDescriptorTable }.

(** What one process does to its own table. *)
Inductive fd_op : Type :=
| OpInsert (fd : Z) (d : FileDescriptor)
| OpSet (fd : Z) (d : FileDescriptor)
| OpClose (fd : Z)
| OpTakeAll
| OpDup2 (old new : Z)
| OpFlags (fd flags : Z)
| OpOffset (fd offset : Z)
| OpCookie (fd cookie : Z)
| OpAdvance (fd amount : Z)
| OpRewrite (old new : list Z).

Definition run_op (op : fd_op) (h : Arcs) (t : FileDescriptorTable) : outcome (Arcs * FileDescriptorTable) :=
  match op with
  | OpInsert fd d => let '(_, h, t) := insert_fd h t fd d in Ret (h, t)
  | OpSet fd d => let '(_, h, t) := set_fd h t fd d in Ret (h, t)
  | OpClose fd => let '(_, h, t) := close h t fd in Ret (h, t)
  | OpTakeAll => let '(_, h, t) := take_all h t in Ret (h, t)
  | OpDup2 old new => let '(_, h, t) := dup2 h t old new in Ret (h, t)
  | OpFlags fd flags => Ret ((set_flags h t fd flags).2, t)
  | OpOffset fd offset => Ret ((set_offset h t fd offset).2, t)
  | OpCookie fd cookie => Ret ((set_cookie h t fd cookie).2, t)
  | OpAdvance fd amount => Ret ((advance_offset h t fd amount).2, t)
  | OpRewrite old new => t ← rewrite_dir_paths t old new; Ret (h, t)
  end.

Definition op_ok (op : fd_op) : Prop :=
  match op with
  | OpInsert fd _ | OpSet fd _ | OpClose fd | OpFlags fd _ | OpOffset fd _ | OpCookie fd _ | OpAdvance fd _ => 0 <= fd
  | OpDup2 old new => 0 <= old /\ 0 <= new
  | OpTakeAll | OpRewrite _ _ => True
  end.

(** Steps of the system: a process works on its table, a child inherits a
    descriptor of its parent, a process with fresh standard streams appears. *)
Inductive fs_step : FileSys -> FileSys -> Prop :=
| fs_own h ts i t op h' t' :
    ts !! i = Some t -> op_ok op -> run_op op h t = Ret (h', t') ->
    fs_step (mkFS h ts) (mkFS h' (<[i := t']> ts))
| fs_inherit h ts i j tp tc pfd cfd d ofd h1 r h' tc' :
    ts !! i = Some tp -> ts !! j = Some tc -> 0 <= cfd ->
    clone_entry h tp pfd = (Some (d, ofd), h1) -> set_shared h1 tc cfd d ofd = (r, h', tc') ->
    fs_step (mkFS h ts) (mkFS h' (<[j := tc']> ts))
| fs_install h ts i j tp tc pfd cfd d ofd h1 r h' tc' :
    ts !! i = Some tp -> ts !! j = Some tc -> 0 <= cfd ->
    clone_entry h tp pfd = (Some (d, ofd), h1) -> insert_shared h1 tc cfd d ofd = (r, h', tc') ->
    fs_step (mkFS h ts) (mkFS h' (<[j := tc']> ts))
| fs_spawn h ts h' t :
    with_stdio h = (h', t) -> fs_step (mkFS h ts) (mkFS h' (ts ++ [t])).

Definition fs_reachable (s : FileSys) : Prop := rtc fs_step (mkFS (mkArcs ∅ 0) []) s.

(** ** Counting references *)

(** The slots of [l] that hold the handle [x]. *)
Definition refs (l : list (option Z)) (x : Z) : Z := Z.of_nat (length (filter (fun o => o = Some x) l)).
Definition holds (o : option Z) (x : Z) : Z := if bool_decide (o = Some x) then 1 else 0.

Lemma refs_nil x : refs [] x = 0.
Proof. done. Qed.
Lemma refs_cons o l x : refs (o :: l) x = holds o x + refs l x.
Proof. unfold refs, holds. rewrite filter_cons. destruct (decide (o = Some x)); rewrite ?bool_decide_eq_true_2,
  ?bool_decide_eq_false_2 by done; simpl; lia. Qed.
Lemma refs_app l1 l2 x : refs (l1 ++ l2) x = refs l1 x + refs l2 x.
Proof. unfold refs. rewrite filter_app, length_app. lia. Qed.
Lemma refs_nonneg l x : 0 <= refs l x.
Proof. unfold refs. lia. Qed.
Lemma holds_range o x : 0 <= holds o x <= 1.
Proof. unfold holds. destruct (bool_decide _); lia. Qed.

Lemma refs_insert l i o o' x : l !! i = Some o -> refs (<[i := o']> l) x = refs l x - holds o x + holds o' x.
Proof.
  intros Hi. rewrite insert_take_drop by (by eapply lookup_lt_Some). rewrite <- (take_drop_middle l i o Hi) at 3.
  rewrite !refs_app, !refs_cons. lia.
Qed.

Lemma refs_zero l x : refs l x = 0 <-> forall i, l !! i <> Some (Some x).
Proof.
  induction l as [|o l IH]; [by split|]. rewrite refs_cons. pose proof (refs_nonneg l x). pose proof (holds_range o x).
  split.
  - intros Hz [|i]; simpl; [|by apply IH; lia]. intros [= ->]. unfold holds in *. rewrite bool_decide_eq_true_2 in * by done. lia.
  - intros Hn. assert (holds o x = 0) as -> by (unfold holds; rewrite bool_decide_eq_false_2; [done|]; intros ->; by apply (Hn 0%nat)).
    rewrite (proj2 IH); [done|]. intros i. apply (Hn (S i)).
Qed.

(** All tables together. *)
Definition total (ts : list FileDescriptorTable) (x : Z) : Z := refs (mjoin (ofds <$> ts)) x.

Lemma total_cons t ts x : total (t :: ts) x = refs (ofds t) x + total ts x.
Proof. unfold total. simpl. apply refs_app. Qed.
Lemma total_app ts1 ts2 x : total (ts1 ++ ts2) x = total ts1 x + total ts2 x.
Proof. unfold total. rewrite fmap_app, join_app. apply refs_app. Qed.
Lemma total_insert ts i t t' x :
  ts !! i = Some t -> total (<[i := t']> ts) x = total ts x - refs (ofds t) x + refs (ofds t') x.
Proof.
  intros Hi. rewrite insert_take_drop by (by eapply lookup_lt_Some). rewrite <- (take_drop_middle ts i t Hi) at 3.
  rewrite !total_app, !total_cons. lia.
Qed.
Lemma total_lookup ts i t x : ts !! i = Some t -> refs (ofds t) x <= total ts x.
Proof.
  intros Hi. rewrite <- (take_drop_middle ts i t Hi), total_app, total_cons.
  pose proof (refs_nonneg (mjoin (ofds <$> take i ts)) x). pose proof (refs_nonneg (mjoin (ofds <$> drop (S i) ts)) x).
  unfold total. lia.
Qed.
Lemma total_zero ts x : total ts x = 0 <-> forall i t, ts !! i = Some t -> refs (ofds t) x = 0.
Proof.
  split.
  - intros H0 i t Hi. pose proof (total_lookup ts i t x Hi). pose proof (refs_nonneg (ofds t) x). lia.
  - induction ts as [|t ts IH]; intros H; [done|]. rewrite total_cons, (H 0%nat t eq_refl), IH; [done|].
    intros i u Hi. by apply (H (S i)).
Qed.

(** ** Ownership *)

(** Counts are positive and handles are below the next one. *)
Definition arcs_ok (h : Arcs) : Prop :=
  forall id o n, arcs h !! id = Some (o, n) -> 1 <= n /\ id < next_arc h.

Lemma count_pos h id : arcs_ok h -> 1 <= strong_count h id -> exists o, arcs h !! id = Some (o, strong_count h id).
Proof. unfold strong_count. intros _. destruct (arcs h !! id) as [[o n]|] eqn:E; [eauto|lia]. Qed.

Lemma arc_new_ok h o :
  arcs_ok h -> let '(id, h') := arc_new h o in
  arcs_ok h' /\ id = next_arc h /\ forall x, strong_count h' x = strong_count h x + holds (Some id) x.
Proof.
  intros Hok. unfold arc_new. assert (arcs h !! next_arc h = None) as Hn.
  { destruct (arcs h !! next_arc h) as [[p n]|] eqn:E; [|done]. apply Hok in E. lia. }
  split_and!; [|done|].
  - intros id p n. simpl. rewrite lookup_insert_Some. intros [[<- [= <- <-]]|[_ Hp%Hok]]; lia.
  - intros x. unfold strong_count, holds. simpl. destruct (decide (x = next_arc h)) as [->|Hne].
    + by rewrite lookup_insert_eq, Hn, bool_decide_eq_true_2.
    + rewrite lookup_insert_ne, bool_decide_eq_false_2 by congruence. lia.
Qed.

Lemma arc_clone_ok h id :
  arcs_ok h -> 1 <= strong_count h id ->
  arcs_ok (arc_clone h id) /\ forall x, strong_count (arc_clone h id) x = strong_count h x + holds (Some id) x.
Proof.
  intros Hok Hc. destruct (count_pos h id Hok Hc) as (o & Ho). split.
  - intros x p n. unfold arc_clone. simpl. destruct (decide (x = id)) as [->|Hne].
    + rewrite lookup_alter_eq, Ho. simpl. intros [= <- <-]. apply Hok in Ho. lia.
    + rewrite lookup_alter_ne by done. apply Hok.
  - intros x. unfold strong_count, arc_clone, holds. simpl. destruct (decide (x = id)) as [->|Hne].
    + by rewrite lookup_alter_eq, Ho, bool_decide_eq_true_2.
    + rewrite lookup_alter_ne, bool_decide_eq_false_2 by congruence. lia.
Qed.

Lemma arc_drop_ok h id :
  arcs_ok h -> 1 <= strong_count h id ->
  arcs_ok (arc_drop h id) /\ (forall x, strong_count (arc_drop h id) x = strong_count h x - holds (Some id) x) /\
  (forall x, x <> id -> arcs (arc_drop h id) !! x = arcs h !! x) /\
  (2 <= strong_count h id -> arc_read (arc_drop h id) id = arc_read h id).
Proof.
  intros Hok Hc. destruct (count_pos h id Hok Hc) as (o & Ho). set (n := strong_count h id) in *.
  unfold arc_drop. rewrite Ho. assert (forall x, x <> id -> arcs (if n <=? 1 then h <| arcs := delete id (arcs h) |>
    else h <| arcs := <[id := (o, n - 1)]> (arcs h) |>) !! x = arcs h !! x) as Hframe.
  { intros x Hne. destruct (n <=? 1); simpl; [by rewrite lookup_delete_ne|by rewrite lookup_insert_ne]. }
  split_and!; [|intros x; destruct (decide (x = id)) as [->|Hne]|exact Hframe|].
  - intros x p k. destruct (Z.leb_spec n 1); simpl; [rewrite lookup_delete_Some|rewrite lookup_insert_Some].
    + intros [_ Hp]. by apply Hok in Hp.
    + intros [[<- [= <- <-]]|[_ Hp]]; [apply Hok in Ho; lia|by apply Hok in Hp].
  - fold n. unfold strong_count, holds. rewrite bool_decide_eq_true_2 by done.
    destruct (Z.leb_spec n 1); simpl; [rewrite lookup_delete_eq; lia|by rewrite lookup_insert_eq].
  - unfold strong_count, holds. rewrite Hframe, bool_decide_eq_false_2 by congruence. lia.
  - intros H2. rewrite (proj2 (Z.leb_gt _ _)) by lia. unfold arc_read. simpl. by rewrite lookup_insert_eq, Ho.
Qed.

Lemma drop_opt_ok h o :
  arcs_ok h -> (forall x, holds o x <= strong_count h x) ->
  arcs_ok (drop_opt h o) /\ forall x, strong_count (drop_opt h o) x = strong_count h x - holds o x.
Proof.
  intros Hok Hc. destruct o as [id|]; simpl.
  - specialize (Hc id). unfold holds in Hc. rewrite bool_decide_eq_true_2 in Hc by done.
    destruct (arc_drop_ok h id Hok Hc) as (? & ? & _). done.
  - split; [done|]. intros x. unfold holds. rewrite bool_decide_eq_false_2 by done. lia.
Qed.

Lemma arc_modify_ok h id f :
  arcs_ok h -> arcs_ok (arc_modify h id f) /\ (forall x, strong_count (arc_modify h id f) x = strong_count h x) /\
  (forall x, arc_read (arc_modify h id f) x = if decide (x = id) then f <$> arc_read h x else arc_read h x).
Proof.
  intros Hok. unfold arc_modify, strong_count, arc_read, arcs_ok. simpl. split_and!.
  - intros x p n. destruct (decide (x = id)) as [->|Hne]; [rewrite lookup_alter_eq|rewrite lookup_alter_ne by done; apply Hok].
    destruct (arcs h !! id) as [[q k]|] eqn:E; [|done]. simpl. intros [= <- <-]. by apply Hok in E.
  - intros x. destruct (decide (x = id)) as [->|Hne]; [rewrite lookup_alter_eq|by rewrite lookup_alter_ne].
    by destruct (arcs h !! id) as [[q k]|].
  - intros x. case_decide; [subst; rewrite lookup_alter_eq|by rewrite lookup_alter_ne].
    by destruct (arcs h !! id) as [[q k]|].
Qed.

(** ** Balanced operations *)

(** 64 slots, in use for descriptor and description together. *)
Definition table_wf (t : FileDescriptorTable) : Prop :=
  zlen (fds t) = 64 /\ zlen (ofds t) = 64 /\ forall fd, is_Some (fd_at t fd) <-> is_Some (ofd_at t fd).

Lemma table_new_wf : table_wf table_new.
Proof.
  split_and!; [done..|]. intros fd.
  assert (forall A, mjoin (get (replicate 64 (@None A)) fd) = None) as Hn.
  { intros A. unfold get. destruct (fd <? 0); [done|].
    destruct (replicate 64 None !! Z.to_nat fd) as [o|] eqn:E; [|done]. by apply lookup_replicate in E as [-> _]. }
  unfold fd_at, ofd_at. cbn [table_new fds ofds]. rewrite !Hn. by split; intros [? ?].
Qed.

Section Slots.
  Variables (t : FileDescriptorTable) (fd : Z).
  Hypothesis (Hwf : table_wf t) (Hfd : 0 <= fd < FD_COUNT).

Lemma slot_lookup : ofds t !! Z.to_nat fd = Some (ofd_at t fd) /\ fds t !! Z.to_nat fd = Some (fd_at t fd).
Proof using Hwf Hfd.
  destruct Hwf as (H1 & H2 & _). unfold ofd_at, fd_at, get, zlen, FD_COUNT in *.
  rewrite (proj2 (Z.ltb_ge fd 0)) by lia.
  destruct (lookup_lt_is_Some_2 (ofds t) (Z.to_nat fd)) as [o Ho]; [lia|].
  destruct (lookup_lt_is_Some_2 (fds t) (Z.to_nat fd)) as [d Hd]; [lia|]. by rewrite Ho, Hd.
Qed.

Lemma set_slot_refs d o x : refs (ofds (set_slot t fd d o)) x = refs (ofds t) x - holds (ofd_at t fd) x + holds o x.
Proof using Hwf Hfd. simpl. apply refs_insert, slot_lookup. Qed.

Lemma set_slot_at d o fd' : 0 <= fd' ->
  ofd_at (set_slot t fd d o) fd' = (if fd =? fd' then o else ofd_at t fd') /\
  fd_at (set_slot t fd d o) fd' = (if fd =? fd' then d else fd_at t fd').
Proof using Hwf Hfd.
  intros H0. destruct Hwf as (H1 & H2 & _). unfold ofd_at, fd_at, set_slot, FD_COUNT in *. simpl.
  rewrite !get_insert by lia. by destruct (fd =? fd').
Qed.

Lemma set_slot_wf d o : (is_Some d <-> is_Some o) -> table_wf (set_slot t fd d o).
Proof using Hwf Hfd.
  intros Hdo. pose proof Hwf as (H1 & H2 & H3). split_and!; [simpl; by rewrite zlen_insert..|].
  intros fd'. destruct (Z.lt_ge_cases fd' 0) as [Hneg|Hpos].
  - unfold fd_at, ofd_at, get. rewrite (proj2 (Z.ltb_lt _ _) Hneg). by split; intros [? ?].
  - destruct (set_slot_at d o fd' Hpos) as [-> ->]. by destruct (fd =? fd').
Qed.

Lemma slot_held x : holds (ofd_at t fd) x <= refs (ofds t) x.
Proof using Hwf Hfd.
  destruct slot_lookup as [Ho _]. pose proof (refs_insert _ _ _ None x Ho) as Hr.
  pose proof (refs_nonneg (<[Z.to_nat fd := None]> (ofds t)) x). pose proof (holds_range None x).
  unfold holds at 2 in Hr. rewrite bool_decide_eq_false_2 in Hr by done. lia.
Qed.
End Slots.

(** The table owns the handles in its slots. *)
Definition owned (h : Arcs) (t : FileDescriptorTable) : Prop := forall x, refs (ofds t) x <= strong_count h x.

(** Every strong count changed by what the table's slots changed. *)
Definition balanced (h : Arcs) (t : FileDescriptorTable) (h' : Arcs) (t' : FileDescriptorTable) : Prop :=
  arcs_ok h' /\ table_wf t' /\
  forall x, strong_count h' x - strong_count h x = refs (ofds t') x - refs (ofds t) x.

Lemma balanced_owned h t h' t' : balanced h t h' t' -> owned h t -> owned h' t'.
Proof. intros (_ & _ & Hb) Ho x. specialize (Hb x). specialize (Ho x). lia. Qed.

Lemma balanced_trans h1 t1 h2 t2 h3 t3 : balanced h1 t1 h2 t2 -> balanced h2 t2 h3 t3 -> balanced h1 t1 h3 t3.
Proof. intros (_ & _ & H1) (? & ? & H2). split_and!; try done. intros x. specialize (H1 x). specialize (H2 x). lia. Qed.

Lemma balanced_refl h t : arcs_ok h -> table_wf t -> balanced h t h t.
Proof. intros. split_and!; try done. intros. lia. Qed.

(** A handle held by the operation moves into a slot. *)
Lemma replace_ok h0 h t fd d id :
  arcs_ok h -> table_wf t -> owned h0 t -> 0 <= fd < FD_COUNT ->
  (forall x, strong_count h x = strong_count h0 x + holds (Some id) x) ->
  balanced h0 t (drop_opt h (ofd_at t fd)) (set_slot t fd (Some d) (Some id)).
Proof.
  intros Hok Hwf Hown Hfd Hc. destruct (drop_opt_ok h (ofd_at t fd) Hok) as [Hok' Hcount].
  { intros x. pose proof (slot_held t fd Hwf Hfd x). specialize (Hown x). rewrite Hc.
    pose proof (holds_range (Some id) x). lia. }
  split_and!; [done|by apply set_slot_wf|]. intros x. rewrite Hcount, set_slot_refs, Hc by done. lia.
Qed.

Lemma insert_fd_ok h t fd d ok h' t' :
  arcs_ok h -> table_wf t -> owned h t -> 0 <= fd -> insert_fd h t fd d = (ok, h', t') -> balanced h t h' t'.
Proof.
  intros Hok Hwf Hown Hfd. unfold insert_fd. destruct (Z.leb_spec FD_COUNT fd); cbn [orb].
  { intros [= <- <- <-]. by apply balanced_refl. }
  destruct (bool_decide _); [intros [= <- <- <-]; by apply balanced_refl|].
  pose proof (arc_new_ok h (from_descriptor d) Hok) as Hn. destruct (arc_new h _) as [id h1].
  destruct Hn as (Hok1 & _ & Hc). intros [= _ <- <-]. by apply (replace_ok h h1).
Qed.

Lemma set_fd_ok h t fd d r h' t' :
  arcs_ok h -> table_wf t -> owned h t -> 0 <= fd -> set_fd h t fd d = (r, h', t') -> balanced h t h' t'.
Proof.
  intros Hok Hwf Hown Hfd. unfold set_fd. destruct (Z.leb_spec FD_COUNT fd).
  { intros [= <- <- <-]. by apply balanced_refl. }
  pose proof (arc_new_ok h (from_descriptor d) Hok) as Hn. destruct (arc_new h _) as [id h1].
  destruct Hn as (Hok1 & _ & Hc). intros [= _ <- <-]. by apply (replace_ok h h1).
Qed.

Lemma close_ok h t fd c h' t' :
  arcs_ok h -> table_wf t -> owned h t -> 0 <= fd -> close h t fd = (c, h', t') -> balanced h t h' t'.
Proof.
  intros Hok Hwf Hown Hfd. unfold close. destruct (Z.leb_spec FD_COUNT fd).
  { intros [= <- <- <-]. by apply balanced_refl. }
  destruct (fd_at t fd) as [d|]; [|intros [= <- <- <-]; by apply balanced_refl]. intros [= _ <- <-].
  destruct (drop_opt_ok h (ofd_at t fd) Hok) as [Hok' Hcount].
  { intros x. pose proof (slot_held t fd Hwf ltac:(lia) x). specialize (Hown x). lia. }
  split_and!; [done|by apply set_slot_wf|]. intros x. rewrite Hcount, set_slot_refs by (done || lia).
  unfold holds at 3. rewrite bool_decide_eq_false_2 by done. lia.
Qed.

Lemma take_from_ok n : forall h t fd out h' t',
  arcs_ok h -> table_wf t -> owned h t -> 0 <= fd -> take_from n h t fd = (out, h', t') -> balanced h t h' t'.
Proof.
  induction n as [|n IH]; intros h t fd out h' t' Hok Hwf Hown Hfd; simpl.
  { intros [= <- <- <-]. by apply balanced_refl. }
  destruct (close h t fd) as [[c h1] t1] eqn:Hc. pose proof (close_ok _ _ _ _ _ _ Hok Hwf Hown Hfd Hc) as Hb.
  destruct (take_from n h1 t1 (fd + 1)) as [[out1 h2] t2] eqn:Ht. intros [= _ <- <-].
  eapply balanced_trans; [exact Hb|]. pose proof Hb as (? & ? & _).
  eapply (IH h1 t1 (fd + 1)); try done; [by eapply balanced_owned|lia].
Qed.

Lemma dup2_ok h t old new r h' t' :
  arcs_ok h -> table_wf t -> owned h t -> 0 <= old -> 0 <= new -> dup2 h t old new = (r, h', t') -> balanced h t h' t'.
Proof.
  intros Hok Hwf Hown Ho Hn. unfold dup2. destruct (Z.leb_spec FD_COUNT old), (Z.leb_spec FD_COUNT new); simpl;
    try (intros [= <- <- <-]; by apply balanced_refl).
  destruct (fd_at t old) as [d|]; [|intros [= <- <- <-]; by apply balanced_refl].
  destruct (ofd_at t old) as [id|] eqn:Hid; [|intros [= <- <- <-]; by apply balanced_refl].
  destruct (old =? new); intros [= _ <- <-]; [by apply balanced_refl|].
  destruct (arc_clone_ok h id Hok) as [Hok1 Hc].
  { pose proof (slot_held t old Hwf ltac:(lia) id) as Hs. rewrite Hid in Hs. unfold holds in Hs.
    rewrite bool_decide_eq_true_2 in Hs by done. specialize (Hown id). lia. }
  by apply (replace_ok h (arc_clone h id)).
Qed.

Lemma rewrite_slots_some old new l l' :
  rewrite_slots old new l = Ret l' -> length l' = length l /\ forall i, is_Some (mjoin (l' !! i)) <-> is_Some (mjoin (l !! i)).
Proof.
  revert l'. induction l as [|s l IH]; simpl; intros l' H; [injection H as <-; done|].
  destruct (rewrite_slot old new s) as [s'|] eqn:Hs; [|done]. simpl in H.
  destruct (rewrite_slots old new l) as [r|]; [|done]. simpl in H. injection H as <-.
  destruct (IH r eq_refl) as [Hl Hi]. split; [simpl; by rewrite Hl|]. intros [|i]; [|apply Hi]. simpl.
  unfold rewrite_slot in Hs. destruct s as [[]|]; try (injection Hs as <-; done).
  destruct (zlen path <? path_len); [done|]. destruct (negb _); [injection Hs as <-; done|].
  destruct (rewrite_path _ _ _); [|injection Hs as <-; done]. by destruct (zlen path <=? _); injection Hs as <-.
Qed.

Lemma fd_run_op_ok op h t h' t' :
  arcs_ok h -> table_wf t -> owned h t -> op_ok op -> run_op op h t = Ret (h', t') -> balanced h t h' t'.
Proof.
  intros Hok Hwf Hown Hop. assert (forall id f, balanced h t (arc_modify h id f) t) as Hmod.
  { intros id f. destruct (arc_modify_ok h id f Hok) as (? & Hc & _). split_and!; try done. intros x. rewrite Hc. lia. }
  destruct op; simpl in *.
  - destruct (insert_fd h t fd d) as [[r h1] t1] eqn:E. intros [= <- <-]. by eapply insert_fd_ok.
  - destruct (set_fd h t fd d) as [[r h1] t1] eqn:E. intros [= <- <-]. by eapply set_fd_ok.
  - destruct (close h t fd) as [[r h1] t1] eqn:E. intros [= <- <-]. by eapply close_ok.
  - destruct (take_all h t) as [[r h1] t1] eqn:E. intros [= <- <-]. by apply (take_from_ok (length (fds t)) h t 0 r h1 t1 Hok Hwf Hown).
  - destruct (dup2 h t old new) as [[r h1] t1] eqn:E. intros [= <- <-]. destruct Hop. by apply (dup2_ok h t old new r).
  - unfold set_flags. destruct (ofd_at t fd); intros [= <- <-]; [apply Hmod|by apply balanced_refl].
  - unfold set_offset. destruct (ofd_at t fd); intros [= <- <-]; [apply Hmod|by apply balanced_refl].
  - unfold set_cookie. destruct (ofd_at t fd); intros [= <- <-]; [apply Hmod|by apply balanced_refl].
  - unfold advance_offset. destruct (ofd_at t fd); intros [= <- <-]; [apply Hmod|by apply balanced_refl].
  - unfold rewrite_dir_paths. destruct (rewrite_slots old new (fds t)) as [l|] eqn:E; [|done]. simpl.
    intros [= <- <-]. destruct (rewrite_slots_some _ _ _ _ E) as [Hl Hi]. destruct Hwf as (H1 & H2 & H3).
    split_and!; [done| |simpl; intros; lia]. split_and!; simpl; [unfold zlen in *; lia|done|].
    intros fd. transitivity (is_Some (fd_at t fd)); [|apply H3]. unfold fd_at, get. simpl. by destruct (fd <? 0).
Qed.

(** ** The system *)

Record fs_ok (s : FileSys) : Prop := {
  fo_arcs : arcs_ok (fs_arcs s);
  fo_tables : Forall table_wf (fs_tables s);
  fo_count : forall x, strong_count (fs_arcs s) x = total (fs_tables s) x
}.

Lemma fs_ok_owned s i t : fs_ok s -> fs_tables s !! i = Some t -> owned (fs_arcs s) t.
Proof. intros [_ _ Hc] Hi x. rewrite Hc. by eapply total_lookup. Qed.

Lemma fs_ok_update s i t h' t' :
  fs_ok s -> fs_tables s !! i = Some t -> balanced (fs_arcs s) t h' t' -> fs_ok (mkFS h' (<[i := t']> (fs_tables s))).
Proof.
  intros [Ha Ht Hc] Hi (Ha' & Ht' & Hb). constructor; simpl; [done|by apply Forall_insert|].
  intros x. rewrite (total_insert _ _ t) by done. specialize (Hb x). rewrite Hc in Hb. lia.
Qed.

Lemma clone_entry_ok h t fd d ofd h1 :
  arcs_ok h -> owned h t -> table_wf t -> clone_entry h t fd = (Some (d, ofd), h1) ->
  arcs_ok h1 /\ (forall x, strong_count h1 x = strong_count h x + holds (Some ofd) x) /\
  fd_at t fd = Some d /\ ofd_at t fd = Some ofd.
Proof.
  intros Hok Hown Hwf. unfold clone_entry. destruct (fd_at t fd) as [d'|] eqn:Hd; [|done].
  destruct (ofd_at t fd) as [id|] eqn:Hid; [|done]. intros [= -> -> <-].
  assert (0 <= fd < FD_COUNT) as Hfd.
  { unfold ofd_at in Hid. destruct (get (ofds t) fd) as [o|] eqn:Hg; [|done]. apply get_Some_range in Hg.
    destruct Hwf as (_ & Hl & _). unfold FD_COUNT. lia. }
  destruct (arc_clone_ok h ofd Hok) as [? ?]; [|done].
  pose proof (slot_held t fd Hwf Hfd ofd) as Hs. rewrite Hid in Hs. unfold holds in Hs.
  rewrite bool_decide_eq_true_2 in Hs by done. specialize (Hown ofd). lia.
Qed.

(** Installing a cloned handle in a table. *)
Lemma install_ok h h1 t fd d ofd h' t' :
  arcs_ok h1 -> table_wf t -> owned h t -> 0 <= fd ->
  (forall x, strong_count h1 x = strong_count h x + holds (Some ofd) x) ->
  (exists r, set_shared h1 t fd d ofd = (r, h', t')) \/ (exists r, insert_shared h1 t fd d ofd = (r, h', t')) ->
  balanced h t h' t'.
Proof.
  intros Hok Hwf Hown Hfd Hc. assert (1 <= strong_count h1 ofd) as H1.
  { rewrite Hc. specialize (Hown ofd). pose proof (refs_nonneg (ofds t) ofd). unfold holds.
    rewrite bool_decide_eq_true_2 by done. lia. }
  destruct (arc_drop_ok h1 ofd Hok H1) as (Hok' & Hcd & _).
  assert (balanced h t (arc_drop h1 ofd) t) as Hdrop.
  { split_and!; try done. intros x. rewrite Hcd, Hc. lia. }
  unfold set_shared, insert_shared. destruct (Z.leb_spec FD_COUNT fd); simpl.
  { intros [(r & [= _ <- <-])|(r & [= _ <- <-])]; done. }
  assert (balanced h t (drop_opt h1 (ofd_at t fd)) (set_slot t fd (Some d) (Some ofd))) as Hset by (by apply replace_ok).
  destruct (bool_decide _); intros [(r & [= _ <- <-])|(r & [= _ <- <-])]; done.
Qed.

Lemma refs_new x : refs (ofds table_new) x = 0.
Proof.
  apply refs_zero. intros i Hi. change (replicate 64 (@None Z) !! i = Some (Some x)) in Hi.
  by apply lookup_replicate in Hi as [? _].
Qed.

Lemma with_stdio_ok h h' t :
  arcs_ok h -> with_stdio h = (h', t) -> balanced h table_new h' t.
Proof.
  intros Hok. unfold with_stdio.
  assert (owned h table_new) as Hown.
  { intros x. rewrite refs_new. unfold strong_count. destruct (arcs h !! x) as [[o n]|] eqn:E; [apply Hok in E; lia|done]. }
  destruct (insert_fd h table_new 0 ConsoleIn) as [[r1 h1] t1] eqn:E1.
  destruct (insert_fd h1 t1 1 ConsoleOut) as [[r2 h2] t2] eqn:E2.
  destruct (insert_fd h2 t2 2 ConsoleOut) as [[r3 h3] t3] eqn:E3. intros [= <- <-].
  pose proof (insert_fd_ok h table_new 0 ConsoleIn _ _ _ Hok table_new_wf Hown ltac:(lia) E1) as Hb1. pose proof Hb1 as (Hok1 & Hwf1 & _).
  pose proof (balanced_owned _ _ _ _ Hb1 Hown) as Ho1.
  pose proof (insert_fd_ok h1 t1 1 ConsoleOut _ _ _ Hok1 Hwf1 Ho1 ltac:(lia) E2) as Hb2. pose proof Hb2 as (Hok2 & Hwf2 & _).
  pose proof (balanced_owned _ _ _ _ Hb2 Ho1) as Ho2.
  pose proof (insert_fd_ok h2 t2 2 ConsoleOut _ _ _ Hok2 Hwf2 Ho2 ltac:(lia) E3) as Hb3.
  eapply balanced_trans; [exact Hb1|]. by eapply balanced_trans.
Qed.

Lemma fs_step_ok s s' : fs_ok s -> fs_step s s' -> fs_ok s'.
Proof.
  intros Hs Hstep. pose proof Hs as [Ha Ht Hc]. destruct Hstep as [h ts i t op h' t' Hi Hop Hrun
    |h ts i j tp tc pfd cfd d ofd h1 r h' tc' Hi Hj Hfd Hcl Hset|h ts i j tp tc pfd cfd d ofd h1 r h' tc' Hi Hj Hfd Hcl Hset
    |h ts h' t Hsp]; simpl in *.
  - apply (fs_ok_update (mkFS h ts) i t); try done. eapply fd_run_op_ok; try done; [by eapply Forall_lookup_1|].
    by apply (fs_ok_owned (mkFS h ts) i).
  - pose proof (fs_ok_owned (mkFS h ts) i tp Hs Hi) as Hop. pose proof (fs_ok_owned (mkFS h ts) j tc Hs Hj) as Hoc.
    destruct (clone_entry_ok h tp pfd d ofd h1) as (Hok1 & Hc1 & _); try done; [by eapply Forall_lookup_1|].
    apply (fs_ok_update (mkFS h ts) j tc); try done. eapply (install_ok h h1 tc cfd d ofd); try done;
      [by eapply Forall_lookup_1|left; by eexists].
  - pose proof (fs_ok_owned (mkFS h ts) i tp Hs Hi) as Hop. pose proof (fs_ok_owned (mkFS h ts) j tc Hs Hj) as Hoc.
    destruct (clone_entry_ok h tp pfd d ofd h1) as (Hok1 & Hc1 & _); try done; [by eapply Forall_lookup_1|].
    apply (fs_ok_update (mkFS h ts) j tc); try done. eapply (install_ok h h1 tc cfd d ofd); try done;
      [by eapply Forall_lookup_1|right; by eexists].
  - destruct (with_stdio_ok h h' t Ha Hsp) as (Ha' & Hwf & Hb). constructor; simpl; [done|apply Forall_app; split; [done|by apply Forall_singleton]|].
    intros x. rewrite total_app, total_cons. specialize (Hb x). rewrite refs_new, Hc in Hb.
    change (total [] x) with 0. lia.
Qed.

Lemma fs_reachable_ok s : fs_reachable s -> fs_ok s.
Proof.
  apply (rtc_ind_r (fun s => fs_ok s)).
  - constructor; simpl; [by intros id o n ?|constructor|done].
  - intros s1 s2 _ Hst Hs. by eapply fs_step_ok.
Qed.

(** ** Correctness *)

(** The description a slot of the system refers to. *)
Definition ofd_of (ts : list FileDescriptorTable) (i : nat) (fd : Z) : option Z := t ← ts !! i; ofd_at t fd.

Lemma total_zero_slots ts x :
  Forall table_wf ts -> total ts x = 0 <-> forall i fd, ofd_of ts i fd <> Some x.
Proof.
  intros Hwf. rewrite total_zero. unfold ofd_of. split.
  - intros H0 i fd. destruct (ts !! i) as [t|] eqn:Hi; [|done]. simpl. unfold ofd_at, get.
    destruct (fd <? 0); [done|]. specialize (H0 i t Hi). rewrite refs_zero in H0. specialize (H0 (Z.to_nat fd)).
    by destruct (ofds t !! Z.to_nat fd) as [[]|]; simpl; [intros [= ->]|..].
  - intros Hn i t Hi. apply refs_zero. intros k Hk. specialize (Hn i (Z.of_nat k)). rewrite Hi in Hn. simpl in Hn.
    apply Hn. unfold ofd_at, get. rewrite (proj2 (Z.ltb_ge _ _)), Nat2Z.id, Hk by lia. done.
Qed.

(** Clearing a slot. *)
Lemma ofd_of_clear ts i t fd :
  ts !! i = Some t -> table_wf t -> 0 <= fd < FD_COUNT -> forall j fd',
  ofd_of (<[i := set_slot t fd None None]> ts) j fd' = if decide (j = i /\ fd' = fd) then None else ofd_of ts j fd'.
Proof.
  intros Hi Hwf Hfd j fd'. unfold ofd_of. destruct (decide (j = i)) as [->|Hne].
  - rewrite list_lookup_insert_eq by (by eapply lookup_lt_Some). rewrite Hi. simpl.
    destruct (Z.lt_ge_cases fd' 0) as [Hneg|Hpos].
    + rewrite decide_False by lia. unfold ofd_at, get. by rewrite (proj2 (Z.ltb_lt _ _) Hneg).
    + rewrite (proj1 (set_slot_at t fd Hwf Hfd None None fd' Hpos)).
      destruct (Z.eqb_spec fd fd'); [by rewrite decide_True|by rewrite decide_False by naive_solver].
  - rewrite list_lookup_insert_ne by done. by rewrite decide_False by naive_solver.
Qed.

(** C14. Reference counting over all processes is exact: however processes open,
    duplicate, replace, inherit, close and rename, the strong count of every
    open file description is the number of descriptor slots that refer to it,
    no slot dangles, and a slot has a descriptor exactly when it has a
    description. *)
Theorem fd_refcount_exact s :
  fs_reachable s ->
  (forall x, strong_count (fs_arcs s) x = total (fs_tables s) x) /\
  (forall i t, fs_tables s !! i = Some t -> table_wf t) /\
  (forall i fd x, ofd_of (fs_tables s) i fd = Some x -> is_Some (arc_read (fs_arcs s) x)).
Proof.
  intros [Ha Ht Hc]%fs_reachable_ok. split_and!; [done|by intros i t Hi; eapply Forall_lookup_1|].
  intros i fd x Hx. unfold arc_read. destruct (arcs (fs_arcs s) !! x) as [[o n]|] eqn:E; [by eexists|].
  exfalso. specialize (Hc x). unfold strong_count in Hc. rewrite E in Hc. symmetry in Hc.
  rewrite (total_zero_slots _ _ Ht) in Hc. by apply Hc in Hx.
Qed.

(** [close] tells the truth about the last reference: it reports
    [last_open_ref] exactly when no other slot of any process refers to the
    same open file description, so the pipe, socket or terminal behind it is
    released once and not while it is still reachable; only the closed slot
    changes. *)
Theorem close_last_ref_exact s i t fd d :
  fs_reachable s -> fs_tables s !! i = Some t -> 0 <= fd -> fd_at t fd = Some d ->
  exists last h' t', close (fs_arcs s) t fd = (Some (mkClosed d last), h', t') /\
    (last = true <-> forall j fd', (j, fd') <> (i, fd) -> ofd_of (fs_tables s) j fd' <> ofd_at t fd) /\
    fd_at t' fd = None /\ (forall fd', 0 <= fd' -> fd' <> fd -> fd_at t' fd' = fd_at t fd' /\ ofd_at t' fd' = ofd_at t fd').
Proof.
  intros Hr Hi H0 Hd. pose proof (fs_reachable_ok s Hr) as Hok. pose proof Hok as [Ha Ht Hc].
  pose proof (Forall_lookup_1 _ _ _ _ Ht Hi) as Hwf. pose proof (fs_ok_owned s i t Hok Hi) as Hown.
  assert (fd < FD_COUNT) as Hfd.
  { unfold fd_at in Hd. destruct (get (fds t) fd) eqn:Hg; [|done]. apply get_Some_range in Hg.
    destruct Hwf as (Hl & _). unfold FD_COUNT. lia. }
  destruct (proj1 (proj2 (proj2 Hwf) fd) ltac:(by eexists)) as [x Hx].
  destruct (close (fs_arcs s) t fd) as [[c h'] t'] eqn:Hcl.
  pose proof (close_ok _ _ _ _ _ _ Ha Hwf Hown H0 Hcl) as Hb. pose proof (fs_ok_update s i t h' t' Hok Hi Hb) as Hok'.
  unfold close in Hcl. rewrite (proj2 (Z.leb_gt _ _)), Hd, Hx in Hcl by lia. injection Hcl as <- <- <-.
  eexists _, _, _. split; [done|]. rewrite Hx. split_and!.
  - rewrite Z.eqb_eq. destruct Hok' as [_ Ht' Hc']. simpl in Ht', Hc'.
    assert (strong_count (fs_arcs s) x = 1 <-> total (<[i := set_slot t fd None None]> (fs_tables s)) x = 0) as ->.
    { rewrite (total_insert _ _ t), <- Hc, set_slot_refs, Hx by (done || lia). unfold holds.
      rewrite bool_decide_eq_true_2, bool_decide_eq_false_2 by done. lia. }
    rewrite total_zero_slots by done.
    pose proof (ofd_of_clear (fs_tables s) i t fd Hi Hwf ltac:(lia)) as Hof.
    split; intros H j fd'.
    + intros Hne. specialize (H j fd'). rewrite Hof, decide_False in H; [done|]. intros [-> ->]. done.
    + rewrite Hof. case_decide as Hd'; [done|]. apply H. intros [= -> ->]. by apply Hd'.
  - rewrite (proj2 (set_slot_at t fd Hwf ltac:(lia) None None fd H0)). by rewrite Z.eqb_refl.
  - intros fd' Hp Hne. destruct (set_slot_at t fd Hwf ltac:(lia) None None fd' Hp) as [-> ->].
    by rewrite (proj2 (Z.eqb_neq fd fd')) by lia.
Qed.

(** What the accessors see of a changed description. *)
Lemma read_modified h x f u fd' :
  arcs_ok h -> (id ← ofd_at u fd'; arc_read (arc_modify h x f) id) =
  (if decide (ofd_at u fd' = Some x) then f <$> arc_read h x else id ← ofd_at u fd'; arc_read h id).
Proof.
  intros Hok. destruct (arc_modify_ok h x f Hok) as (_ & _ & Hm). destruct (ofd_at u fd') as [y|]; simpl.
  - rewrite Hm. destruct (decide (y = x)) as [->|Hne]; [by rewrite decide_True|by rewrite decide_False by congruence].
  - done.
Qed.

Lemma get_offset_alt h u fd' : get_offset h u fd' = ofd_offset <$> (id ← ofd_at u fd'; arc_read h id).
Proof. unfold get_offset. destruct (ofd_at u fd') as [y|]; [|done]. simpl. by destruct (arc_read h y). Qed.
Lemma get_cookie_alt h u fd' : get_cookie h u fd' = dir_cookie <$> (id ← ofd_at u fd'; arc_read h id).
Proof. unfold get_cookie. destruct (ofd_at u fd') as [y|]; [|done]. simpl. by destruct (arc_read h y). Qed.
Lemma get_flags_alt h u fd' : get_flags h u fd' = default 0 (status_flags <$> (id ← ofd_at u fd'; arc_read h id)).
Proof. unfold get_flags. destruct (ofd_at u fd') as [y|]; [|done]. simpl. by destruct (arc_read h y). Qed.

Lemma ofd_at_range t fd x : table_wf t -> ofd_at t fd = Some x -> 0 <= fd < FD_COUNT.
Proof.
  intros (_ & Hl & _) Hx. unfold ofd_at in Hx. destruct (get (ofds t) fd) eqn:Hg; [|done].
  apply get_Some_range in Hg. unfold FD_COUNT. lia.
Qed.

(** The effect of [dup2]. *)
Lemma dup2_shares h t old new x o h' t' :
  arcs_ok h -> table_wf t -> owned h t -> ofd_at t old = Some x -> arc_read h x = Some o -> 0 <= new ->
  dup2 h t old new = (true, h', t') ->
  fd_at t' new = fd_at t old /\ ofd_at t' new = Some x /\ get_offset h' t' new = get_offset h t old /\
  forall fd', 0 <= fd' -> fd' <> new -> fd_at t' fd' = fd_at t fd' /\ ofd_at t' fd' = ofd_at t fd'.
Proof.
  intros Ha Hwf Hown Hx Ho Hn. pose proof (ofd_at_range t old x Hwf Hx) as Hold. unfold dup2.
  rewrite (proj2 (Z.leb_gt FD_COUNT old)) by lia. destruct (Z.leb_spec FD_COUNT new) as [|Hlt]; [done|]. cbn [orb].
  destruct (fd_at t old) as [d|] eqn:Hd; [|done]. rewrite Hx.
  destruct (Z.eqb_spec old new) as [<-|Hne]; intros [= <- <-]; [done|].
  destruct (set_slot_at t new Hwf ltac:(lia) (Some d) (Some x) new Hn) as [Hat1 Hat2]. rewrite Z.eqb_refl in Hat1, Hat2.
  rewrite Hat1, Hat2. split_and!; [done|done| |].
  - rewrite !get_offset_alt, Hat1, Hx. simpl. rewrite Ho.
    pose proof (slot_held t old Hwf Hold x) as Hs1. rewrite Hx in Hs1. unfold holds in Hs1.
    rewrite bool_decide_eq_true_2 in Hs1 by done. pose proof (Hown x) as Hox.
    destruct (arc_clone_ok h x Ha ltac:(lia)) as [Hok1 Hc1].
    assert (arc_read (arc_clone h x) x = Some o) as Hr1.
    { unfold arc_read, arc_clone in *. simpl. rewrite lookup_alter_eq. by destruct (arcs h !! x) as [[]|]. }
    f_equal. destruct (ofd_at t new) as [y|] eqn:Hy; [|done]. simpl.
    destruct (arc_drop_ok (arc_clone h x) y Hok1) as (_ & _ & Hframe & Hkeep).
    { rewrite Hc1. pose proof (slot_held t new Hwf ltac:(lia) y) as Hs2. rewrite Hy in Hs2. unfold holds in Hs2 |- *.
      rewrite bool_decide_eq_true_2 in Hs2 by done. pose proof (Hown y). pose proof (holds_range (Some x) y).
      unfold holds in *. lia. }
    destruct (decide (y = x)) as [->|Hyx]; [|unfold arc_read in *; by rewrite Hframe].
    rewrite Hkeep; [done|]. rewrite Hc1. unfold holds. rewrite bool_decide_eq_true_2 by done. lia.
  - intros fd' Hp Hnew. destruct (set_slot_at t new Hwf ltac:(lia) (Some d) (Some x) fd' Hp) as [-> ->].
    by rewrite (proj2 (Z.eqb_neq new fd')) by lia.
Qed.

(** Duplicated and inherited descriptors share their open state, and
    nothing else does: moving the offset through one descriptor is seen through
    exactly the descriptors of any process with the same description, which
    keep their cookie and flags; and after [dup2] the new descriptor is the old
    one, with the same description and state, while every other slot of the
    table is unchanged. *)
Theorem ofd_state_shared s i t fd x :
  fs_reachable s -> fs_tables s !! i = Some t -> ofd_at t fd = Some x ->
  let h := fs_arcs s in
  (forall offset j u fd', fs_tables s !! j = Some u ->
     let h' := (set_offset h t fd offset).2 in
     get_offset h' u fd' = (if decide (ofd_at u fd' = Some x) then Some offset else get_offset h u fd') /\
     get_cookie h' u fd' = get_cookie h u fd' /\ get_flags h' u fd' = get_flags h u fd') /\
  (forall amount j u fd' off, fs_tables s !! j = Some u -> get_offset h t fd = Some off ->
     let '(r, h') := advance_offset h t fd amount in
     r = Some (saturating_add 64 off amount) /\
     get_offset h' u fd' = (if decide (ofd_at u fd' = Some x) then r else get_offset h u fd')) /\
  (forall new h' t', 0 <= new -> dup2 h t fd new = (true, h', t') ->
     fd_at t' new = fd_at t fd /\ ofd_at t' new = Some x /\ get_offset h' t' new = get_offset h t fd /\
     forall fd', 0 <= fd' -> fd' <> new -> fd_at t' fd' = fd_at t fd' /\ ofd_at t' fd' = ofd_at t fd').
Proof.
  intros Hr Hi Hx h. pose proof (fs_reachable_ok s Hr) as Hok. pose proof Hok as [Ha Ht Hc].
  pose proof (Forall_lookup_1 _ _ _ _ Ht Hi) as Hwf. pose proof (fs_ok_owned s i t Hok Hi) as Hown. fold h in Ha, Hc, Hown.
  assert (exists o, arc_read h x = Some o) as [o Ho].
  { unfold arc_read. destruct (arcs h !! x) as [[o n]|] eqn:E; [by exists o|]. exfalso. specialize (Hc x).
    unfold strong_count in Hc. rewrite E in Hc. symmetry in Hc. rewrite (total_zero_slots _ _ Ht) in Hc.
    apply (Hc i fd). unfold ofd_of. by rewrite Hi. }
  split_and!.
  - intros offset j u fd' Hj. unfold set_offset. rewrite Hx. cbn [snd].
    rewrite !get_offset_alt, !get_cookie_alt, !get_flags_alt, !read_modified by done.
    destruct (decide _) as [->|]; [|done]. simpl. by rewrite Ho.
  - intros amount j u fd' off Hj Hoff. rewrite get_offset_alt, Hx in Hoff. simpl in Hoff. rewrite Ho in Hoff. injection Hoff as <-.
    unfold advance_offset. rewrite Hx. destruct (arc_modify_ok h x
      (fun o => o <| ofd_offset := saturating_add 64 (ofd_offset o) amount |>) Ha) as (_ & _ & Hm).
    rewrite Hm, decide_True, Ho by done. split; [done|]. rewrite !get_offset_alt, read_modified by done.
    destruct (decide _); [|done]. by rewrite Ho.
  - intros new h' t' Hn. apply (dup2_shares h t fd new x o); done.
Qed.

(** ** Witnesses *)

(** A process with standard streams, a file at 3 and its duplicate at 4, and a
    second process that inherited descriptor 3. *)
Definition wit_a : Arcs * FileDescriptorTable := with_stdio (mkArcs ∅ 0).
Definition wit_b : bool * Arcs * FileDescriptorTable := insert_fd wit_a.1 wit_a.2 3 (File 7 0 ReadWrite).
Definition wit_c : bool * Arcs * FileDescriptorTable := dup2 wit_b.1.2 wit_b.2 3 4.
Definition wit_d : Arcs * FileDescriptorTable := with_stdio wit_c.1.2.
Definition wit_e : option (FileDescriptor * Z) * Arcs := clone_entry wit_d.1 wit_c.2 3.
Definition wit_f : option FileDescriptor * Arcs * FileDescriptorTable :=
  set_shared wit_e.2 wit_d.2 0 (File 7 0 ReadWrite) 3.
Definition wit_fs : FileSys := mkFS wit_f.1.2 [wit_c.2; wit_f.2].

Lemma wit_fs_reachable : fs_reachable wit_fs.
Proof.
  unfold fs_reachable.
  eapply rtc_l; [apply (fs_spawn _ _ wit_a.1 wit_a.2); by vm_compute|]. cbn [app].
  eapply rtc_l; [apply (fs_own _ _ 0 wit_a.2 (OpInsert 3 (File 7 0 ReadWrite)) wit_b.1.2 wit_b.2); by vm_compute|].
  cbn [list_insert insert].
  eapply rtc_l; [apply (fs_own _ _ 0 wit_b.2 (OpDup2 3 4) wit_c.1.2 wit_c.2); by vm_compute|]. cbn [list_insert insert].
  eapply rtc_l; [apply (fs_spawn _ _ wit_d.1 wit_d.2); by vm_compute|]. cbn [app].
  eapply rtc_l; [apply (fs_inherit _ _ 0 1 wit_c.2 wit_d.2 3 0 (File 7 0 ReadWrite) 3 wit_e.2 wit_f.1.1 wit_f.1.2 wit_f.2);
    by vm_compute|]. apply rtc_refl.
Qed.

Lemma fd_refcount_exact_witness : strong_count (fs_arcs wit_fs) 3 = total (fs_tables wit_fs) 3.
Proof. destruct (fd_refcount_exact wit_fs wit_fs_reachable) as [H _]. apply H. Defined.

(** Closing 4 leaves the description to 3 and to the other process. *)
Lemma close_last_ref_exact_witness :
  exists h' t', close (fs_arcs wit_fs) wit_c.2 4 = (Some (mkClosed (File 7 0 ReadWrite) false), h', t').
Proof.
  destruct (close_last_ref_exact wit_fs 0 wit_c.2 4 (File 7 0 ReadWrite) wit_fs_reachable) as (last & h' & t' & H1 & H2 & _);
    [done|done|by vm_compute|]. exists h', t'. destruct last; [|exact H1].
  exfalso. apply (proj1 H2 eq_refl 0%nat 3); [done|by vm_compute].
Defined.

(** An offset set through 3 is seen in the other process. *)
Lemma ofd_state_shared_witness :
  get_offset (set_offset (fs_arcs wit_fs) wit_c.2 3 512).2 wit_f.2 0 = Some 512.
Proof.
  destruct (ofd_state_shared wit_fs 0 wit_c.2 3 3 wit_fs_reachable) as [H _]; [done|by vm_compute|].
  destruct (H 512 1%nat wit_f.2 0 ltac:(done)) as [H1 _]. rewrite decide_True in H1 by (by vm_compute). exact H1.
Defined.
