(* ===== verification/Task.v ===== *)
(** * Tasks and the scheduler

    Model of [kernel/src/multitasking/task.rs]: the 32 scheduler slots, wake-ups
    and timers, the choice of the next task on every CPU with the ownership
    array [TASK_OWNER], process identities, and the release of dead tasks with
    their memory.  The giant kernel lock makes every operation one step.  Left
    out of the task record are the fields other components own (descriptor
    table, working directory, name) and the floating-point save area; TLB
    shootdown acknowledges or times out as the hardware decides and is a
    parameter. *)

From S2P Require Import Prelude Wait Frames Paging SharedPages.

Definition MAX_TASKS : Z := 32.
Definition MAX_CPUS : Z := 64.
Definition HEADROOM : Z := 256.
Definition CPU_STATE_SIZE : Z := 48.
Definition READY_WORDS : nat := 4.

(** [PageRefcounts]: pages with their counts *)
Definition PageRefcounts : Type := list (Z * Z).

Fixpoint refs_inc (l : PageRefcounts) (page_addr : Z) : option (outcome PageRefcounts) :=
  match l with
  | [] => None
  | (addr, count) :: rest =>
      if addr =? page_addr then Some (c ← add_u 32 count 1; Ret ((addr, c) :: rest))
      else (fun m => r ← m; Ret ((addr, count) :: r)) <$> refs_inc rest page_addr
  end.

(** [PageRefcounts::inc], [PageRefcounts::dec] *)
Definition inc (l : PageRefcounts) (page_addr : Z) : outcome (bool * PageRefcounts) :=
  match refs_inc l page_addr with
  | Some m => l ← m; Ret (false, l)
  | None => Ret (true, l ++ [(page_addr, 1)])
  end.
Definition dec (l : PageRefcounts) (page_addr : Z) : outcome (bool * PageRefcounts) :=
  match vec_position (fun e => e.1 =? page_addr) l with
  | None => Ret (false, l)
  | Some i =>
      e ← idx l i;
      c ← sub_u e.2 1;
      if c =? 0 then Ret (true, vec_swap_remove l i)
      else Ret (false, <[Z.to_nat i := (e.1, c)]> l)
  end.

Record Task : Type := mkTask {
  stack_base : Z; page_dir_phys : Z; cpu_state_ptr : Z; running : bool; state : TaskState; kernel_stack : Z;
  heap_next : Z; mmap_next : Z; mmap_free : list (Z * Z); page_refcounts : PageRefcounts;
  pid : Z; ppid : Z; pgid : Z; sid : Z; parent : Z; tty_id : Z; pty_id : Z;
  zombie : bool; stopped : bool; stop_signal : Z; wait_stopped_pending : bool; wait_continued_pending : bool;
  term_signal : Z; exit_code : Z; pending_signals : Z; signal_handlers : list Z;
  tid : Z; leader_slot : Z; is_thread : bool; thread_exited : bool; thread_exit_value : Z; thread_detached : bool;
  tls_ptr : Z; user_stack_bottom : Z; user_stack_top : Z; wake_deadline_ms : Z; connect_deadline_ms : Z; futex_key : Z;
  network_wait_read : list Z; network_wait_write : list Z; network_wait_any : bool; poll_periodic : bool
}.
#[global] Instance Task_eta : Eta Task := fun t =>
  mkTask (stack_base t) (page_dir_phys t) (cpu_state_ptr t) (running t) (state t) (kernel_stack t)
    (heap_next t) (mmap_next t) (mmap_free t) (page_refcounts t)
    (pid t) (ppid t) (pgid t) (sid t) (parent t) (tty_id t) (pty_id t)
    (zombie t) (stopped t) (stop_signal t) (wait_stopped_pending t) (wait_continued_pending t)
    (term_signal t) (exit_code t) (pending_signals t) (signal_handlers t)
    (tid t) (leader_slot t) (is_thread t) (thread_exited t) (thread_exit_value t) (thread_detached t)
    (tls_ptr t) (user_stack_bottom t) (user_stack_top t) (wake_deadline_ms t) (connect_deadline_ms t) (futex_key t)
    (network_wait_read t) (network_wait_write t) (network_wait_any t) (poll_periodic t).

Definition no_ready : list Z := replicate READY_WORDS 0.

(** The record [Task::new] and [Task::new_thread] build around a fresh kernel
    stack and a page directory. *)
Definition task_init (stack_base page_dir_phys mmap_next : Z) (is_thread : bool) : Task :=
  mkTask stack_base page_dir_phys 0 false New 0 0 mmap_next [] [] (-1) (-1) (-1) (-1) (-1) (-1) (-1)
    false false 0 false false 0 0 0 (replicate 32 0) (-1) (-1) is_thread false 0 false
    0 0 0 0 0 0 no_ready no_ready false false.

Record CPUState : Type := mkCpu {
  r_eax : Z; r_ebx : Z; r_ecx : Z; r_edx : Z; r_esi : Z; r_edi : Z; r_ebp : Z;
  r_eip : Z; r_cs : Z; r_eflags : Z; r_esp : Z; r_ss : Z
}.
#[global] Instance CPUState_eta : Eta CPUState := fun c =>
  mkCpu (r_eax c) (r_ebx c) (r_ecx c) (r_edx c) (r_esi c) (r_edi c) (r_ebp c) (r_eip c) (r_cs c) (r_eflags c) (r_esp c) (r_ss c).

(** ** One task *)

(** [Task::sleep], [wake], [block], [stop], [mark_zombie] *)
Definition clear_network (t : Task) : Task :=
  t <| network_wait_read := no_ready |> <| network_wait_write := no_ready |>
    <| network_wait_any := false |> <| poll_periodic := false |>.
Definition sleep (t : Task) : Task := t <| running := false |> <| state := Blocked Generic |>.
Definition wake (t : Task) : Task := clear_network (t <| running := true |> <| state := Runnable |>).
Definition block (t : Task) (reason : WaitReason) : Task :=
  let t := t <| running := false |> <| state := Blocked reason |> in
  match reason with Poll | Socket => t | _ => clear_network t end.
Definition stop (t : Task) : Task := t <| running := false |> <| state := Stopped |>.
Definition mark_zombie (t : Task) : Task := t <| running := false |> <| state := Zombie |>.

(** ** The manager *)

Section Manager.
  Context {F : Type} `{!FileStore F}.

(** [TASK_MANAGER], [TASK_OWNER], the per-CPU state of [smp.rs] and memory.
    [cpu_states] holds the saved register frames by address. *)
Record Sched : Type := mkSched {
  tasks : list (option Task); task_count : Z; current_task : Z; first_switch : bool; next_pid : Z;
  task_owner : list Z; cpu_slot : list Z; cpu_cr3 : list Z; idle_esp : list Z; cpu_esp0 : list Z;
  cpu_states : gmap Z CPUState; memory : Sh F
}.
#[global] Instance Sched_eta : Eta Sched := fun s =>
  mkSched (tasks s) (task_count s) (current_task s) (first_switch s) (next_pid s) (task_owner s) (cpu_slot s)
    (cpu_cr3 s) (idle_esp s) (cpu_esp0 s) (cpu_states s) (memory s).

(** [self.tasks[slot].as_ref()], for a slot that is in range *)
Definition task_at (s : Sched) (slot : Z) : option Task := mjoin (get (tasks s) slot).
Definition put_task (s : Sched) (slot : Z) (t : option Task) : Sched := s <| tasks := <[Z.to_nat slot := t]> (tasks s) |>.

(** [if let Some(task) = self.tasks[slot].as_mut() { .. }] *)
Definition on_task (s : Sched) (slot : Z) (f : Task -> Task) : Sched :=
  match task_at s slot with Some t => put_task s slot (Some (f t)) | None => s end.

(** A loop over all present tasks that updates each. *)
Definition map_tasks (f : Task -> Task) (s : Sched) : Sched := s <| tasks := (fun o : option Task => f <$> o) <$> tasks s |>.

Definition is_blocked_on (r : WaitReason) (t : Task) : bool := bool_decide (state t = Blocked r).

(** [TaskManager::wake_waiters]; the count it returns *)
Definition wake_waiters_tasks (r : WaitReason) (s : Sched) : Sched :=
  map_tasks (fun t => if is_blocked_on r t then wake t else t) s.
Definition wake_waiters_count (r : WaitReason) (s : Sched) : Z :=
  zlen (List.filter (fun o => match o with Some t => is_blocked_on r t | None => false end) (tasks s)).

(** [TaskManager::wake_network_waiters] *)
Definition interested (t : Task) (readable writable : list Z) : bool :=
  network_wait_any t
  || existsb (fun '(a, b) => negb (Z.land a b =? 0)) (zip (network_wait_read t) readable)
  || existsb (fun '(a, b) => negb (Z.land a b =? 0)) (zip (network_wait_write t) writable).
Definition wake_network_waiters (readable writable : list Z) (s : Sched) : Sched :=
  map_tasks (fun t =>
    if (is_blocked_on Poll t || is_blocked_on Socket t) && interested t readable writable then wake t else t) s.

(** [TaskManager::wake_periodic_poll_waiters] *)
Definition wake_periodic_poll_waiters (s : Sched) : Sched :=
  map_tasks (fun t => if is_blocked_on Poll t && poll_periodic t then wake t else t) s.

(** [TaskManager::wake_expired_timers] *)
Definition expired (now_ms : Z) (t : Task) : bool :=
  match state t with
  | Blocked Timer => wake_deadline_ms t <=? now_ms
  | Blocked Poll | Blocked Futex => negb (wake_deadline_ms t =? 0) && (wake_deadline_ms t <=? now_ms)
  | _ => false
  end.
Definition wake_expired (now_ms : Z) (t : Task) : Task :=
  if expired now_ms t then
    match state t with
    | Blocked Timer => wake (t <| wake_deadline_ms := 0 |>)
    | Blocked Futex => wake (t <| futex_key := 0 |> <| wake_deadline_ms := 0 |>)
    | _ => wake t
    end
  else t.
Definition ETIMEDOUT_RESULT : Z := 2 ^ 32 - 110.
Definition timeout_frame (c : CPUState) : CPUState := c <| r_eax := ETIMEDOUT_RESULT |>.
Definition timeout_result (now_ms : Z) (frames : gmap Z CPUState) (o : option Task) : gmap Z CPUState :=
  match o with
  | Some t =>
      if expired now_ms t && is_blocked_on Futex t && negb (cpu_state_ptr t =? 0)
      then alter timeout_frame (cpu_state_ptr t) frames else frames
  | None => frames
  end.
Definition wake_expired_timers (s : Sched) (now_ms : Z) : Sched :=
  map_tasks (wake_expired now_ms) (s <| cpu_states := foldl (timeout_result now_ms) (cpu_states s) (tasks s) |>).

(** ** Choosing the next task *)

Definition claimable (s : Sched) (slot : Z) : bool :=
  match task_at s slot with
  | Some t => running t && bool_decide (state t = Runnable) && negb (zombie t) && negb (thread_exited t)
  | None => false
  end.

(** [smp::task_slot_on_cpu] *)
Definition task_slot_on_cpu (s : Sched) (cpu : Z) : Z := default (-1) (get (cpu_slot s) cpu).

(** One iteration of [claim_next_task] at [slot]: the repair of a stale owner,
    then the attempt to claim. *)
Definition try_claim (s : Sched) (cpu slot : Z) : outcome (bool * Sched) :=
  owner ← idx (task_owner s) slot;
  owners ← (if (0 <=? owner) && negb (task_slot_on_cpu s owner =? slot)
            then upd (task_owner s) slot (-1) else Ret (task_owner s));
  let s := s <| task_owner := owners |> in
  if claimable s slot then
    owner ← idx (task_owner s) slot;
    if owner =? -1 then owners ← upd (task_owner s) slot cpu; Ret (true, s <| task_owner := owners |>)
    else Ret (false, s)
  else Ret (false, s).

Fixpoint claim_loop (n : nat) (s : Sched) (cpu slot : Z) : outcome (Z * Sched) :=
  match n with
  | O => Ret (0, s)
  | S n =>
      let slot := if slot =? 0 then 1 else slot in
      '(ok, s) ← try_claim s cpu slot;
      if ok : bool then Ret (slot, s) else claim_loop n s cpu ((slot + 1) mod MAX_TASKS)
  end.

(** [TaskManager::claim_next_task] *)
Definition claim_next_task (s : Sched) (cpu after : Z) : outcome (Z * Sched) :=
  claim_loop 31 s cpu (if after <? 1 then 1 else (after + 1) mod MAX_TASKS).

(** ** The scheduler *)

Definition set_cpu {A} (l : list A) (cpu : Z) (x : A) : list A := <[Z.to_nat cpu := x]> l.

(** [smp::set_current_task_slot], [smp::set_current_cr3] on CPU [cpu] *)
Definition set_current_task_slot (s : Sched) (cpu slot : Z) : Sched := s <| cpu_slot := set_cpu (cpu_slot s) cpu slot |>.
Definition set_current_cr3 (s : Sched) (cpu pd : Z) : Sched := s <| cpu_cr3 := set_cpu (cpu_cr3 s) cpu pd |>.

(** The outgoing task: its registers are saved, and it can run again unless it
    blocked. *)
Definition save_task (cpu_state : Z) (t : Task) : Task :=
  let t := t <| cpu_state_ptr := cpu_state |> in
  if running t then t <| state := Runnable |> else t.

(** Entering a task: kernel stack, address space, and the frame to resume. *)
Definition enter_task (s : Sched) (cpu slot : Z) : outcome (Z * Sched) :=
  t ← unwrap (task_at s slot);
  Ret (cpu_state_ptr t, set_current_cr3 (s <| cpu_esp0 := set_cpu (cpu_esp0 s) cpu (kernel_stack t) |>) cpu (page_dir_phys t)).

(** The first tick on the boot CPU. *)
Definition schedule_first (s : Sched) : outcome (Z * Sched) :=
  let s := s <| first_switch := false |> <| current_task := 0 |> in
  '(next, s) ← claim_next_task s 0 0;
  let s := if next =? 0 then s else s <| current_task := next |> in
  let s := set_current_task_slot s 0 (current_task s) in
  '(frame, s) ← enter_task s 0 (current_task s);
  Ret (frame, on_task s (current_task s) (fun t => t <| state := Running 0 |>)).

(** The outgoing half of a tick on the boot CPU. *)
Definition leave_current (s : Sched) (cpu_state : Z) : outcome Sched :=
  if current_task s <? 0 then Ret s else
  let s := on_task s (current_task s) (save_task cpu_state) in
  if 0 <? current_task s then
    owners ← upd (task_owner s) (current_task s) (-1);
    Ret (wake_waiters_tasks Thread (wake_waiters_tasks Child (s <| task_owner := owners |>)))
  else Ret s.

Definition schedule_next (s : Sched) (cpu_state : Z) : outcome (Z * Sched) :=
  s ← leave_current s cpu_state;
  '(next, s) ← claim_next_task s 0 (current_task s);
  let runs := match task_at s next with Some t => running t | None => false end in
  let s := s <| current_task := if (next <? 0) || negb runs then 0 else next |> in
  let s := set_current_task_slot s 0 (current_task s) in
  let s := on_task s (current_task s) (fun t => t <| state := Running 0 |>) in
  enter_task s 0 (current_task s).

(** [TaskManager::schedule_ap] *)
Definition leave_ap (s : Sched) (cpu cpu_state : Z) : outcome Sched :=
  let previous := task_slot_on_cpu s cpu in
  if previous <? 0 then Ret (s <| idle_esp := set_cpu (idle_esp s) cpu cpu_state |>) else
  match task_at s previous with
  | None => Ret s
  | Some _ =>
      let s := on_task s previous (save_task cpu_state) in
      owners ← upd (task_owner s) previous (-1);
      Ret (wake_waiters_tasks Thread (wake_waiters_tasks Child (s <| task_owner := owners |>)))
  end.

Definition schedule_ap (kernel_pd : Z) (s : Sched) (cpu cpu_state : Z) : outcome (Z * Sched) :=
  let previous := task_slot_on_cpu s cpu in
  s ← leave_ap s cpu cpu_state;
  '(next, s) ← claim_next_task s cpu previous;
  if next <=? 0 then
    let s := set_current_cr3 (set_current_task_slot s cpu (-1)) cpu kernel_pd in
    idle ← idx (idle_esp s) cpu;
    Ret (if idle =? 0 then cpu_state else idle, s)
  else
    let s := set_current_task_slot s cpu next in
    let s := on_task s next (fun t => t <| state := Running cpu |>) in
    enter_task s cpu next.

(** [TaskManager::schedule] on CPU [cpu] at time [now_ms] *)
Definition schedule (kernel_pd : Z) (s : Sched) (cpu cpu_state now_ms : Z) : outcome (Z * Sched) :=
  let s := wake_expired_timers s now_ms in
  if negb (cpu =? 0) then schedule_ap kernel_pd s cpu cpu_state else
  match task_at s 0 with
  | None => Ret (cpu_state, s)
  | Some _ => if first_switch s then schedule_first s else schedule_next s cpu_state
  end.

(** [timer_may_schedule]: kernel continuations are not preempted. *)
Definition timer_may_schedule (s : Sched) (cpu : Z) (frame : CPUState) : bool :=
  (Z.land (r_cs frame) 3 =? 3) || (task_slot_on_cpu s cpu <=? 0).

(** [handoff_kernel_lock]: a frame that returns to user mode has interrupts
    enabled; the flag in EDX says the lock is held. *)
Definition user_flags_on (c : CPUState) : CPUState :=
  if Z.land (r_cs c) 3 =? 3 then c <| r_eflags := Z.lor (r_eflags c) 0x202 |> else c.
Definition handoff_kernel_lock (s : Sched) (next_esp : Z) : Z * Sched :=
  (Z.lor (Z.shiftl 1 32) next_esp,
   if next_esp =? 0 then s else s <| cpu_states := alter user_flags_on next_esp (cpu_states s) |>).

(** [TaskManager::get_next_task] *)
Fixpoint next_loop (n : nat) (s : Sched) (i : Z) : outcome Z :=
  match n with
  | O => Ret 0
  | S n =>
      let runs := match task_at s i with Some t => running t && bool_decide (state t = Runnable) | None => false end in
      free ← (if runs then o ← idx (task_owner s) i; Ret (o <? 0) else Ret false);
      if free : bool then Ret i else next_loop n s ((i + 1) mod MAX_TASKS)
  end.
Definition get_next_task (s : Sched) : outcome Z :=
  if task_count s <=? 0 then Ret 0 else next_loop 32 s ((current_task s + 1) mod MAX_TASKS).

(** [TaskManager::current_pid] on CPU [cpu] *)
Definition current_pid (s : Sched) (cpu : Z) : Z :=
  let current := task_slot_on_cpu s cpu in
  if current <? 0 then -1 else match task_at s current with Some t => pid t | None => -1 end.

(** ** Identities *)

(** [TaskManager::alloc_pid] on [i32] *)
Definition wrapping_inc_i32 (x : Z) : Z := if x =? 2 ^ 31 - 1 then - 2 ^ 31 else x + 1.
Definition alloc_pid (s : Sched) : Z * Sched :=
  let p := Z.max (next_pid s) 1 in
  let n := wrapping_inc_i32 (next_pid s) in
  (p, s <| next_pid := if n <=? 0 then 1 else n |>).

(** The slots from [slot] on whose task satisfies [p]. *)
Fixpoint slots_from (slot : Z) (l : list (option Task)) (p : Z -> Task -> bool) : list Z :=
  match l with
  | [] => []
  | o :: rest =>
      match o with
      | Some t => if p slot t then slot :: slots_from (slot + 1) rest p else slots_from (slot + 1) rest p
      | None => slots_from (slot + 1) rest p
      end
  end.
Definition slots_where (s : Sched) (p : Z -> Task -> bool) : list Z := slots_from 0 (tasks s) p.

(** [slot_by_pid], [slot_by_tid], [process_slot], [thread_slots],
    [live_thread_count], [slots_in_pgid] *)
Definition slot_by_pid (s : Sched) (p : Z) : option Z :=
  head (slots_where s (fun slot t => (pid t =? p) && (leader_slot t =? slot))).
Definition slot_by_tid (s : Sched) (i : Z) : option Z := head (slots_where s (fun _ t => tid t =? i)).
Definition process_slot (s : Sched) (slot : Z) : Z :=
  match task_at s slot with
  | Some t => if 0 <=? leader_slot t then leader_slot t else slot
  | None => slot
  end.
Definition thread_slots (s : Sched) (leader : Z) : list Z := slots_where s (fun _ t => leader_slot t =? leader).
Definition live_thread_count (s : Sched) (leader : Z) : Z :=
  zlen (slots_where s (fun _ t => (leader_slot t =? leader) && negb (thread_exited t))).
Definition slots_in_pgid (s : Sched) (g : Z) : list Z :=
  slots_where s (fun slot t => (pgid t =? g) && negb (zombie t) && (leader_slot t =? slot)).

(** [find_zombie_child] *)
Definition find_zombie_child (s : Sched) (parent_pid want_pid : Z) : option (Z * Z * Z) :=
  slot ← head (slots_where s (fun _ t =>
            zombie t && (ppid t =? parent_pid) && ((want_pid <? 0) || (want_pid =? pid t))));
  t ← task_at s slot;
  Some (slot, pid t, exit_code t).

(** [siblings_quiescent], [process_quiescent] *)
Definition unowned (s : Sched) (slot : Z) : bool := match get (task_owner s) slot with Some o => o <? 0 | None => false end.
Definition siblings_quiescent (s : Sched) (leader : Z) : bool :=
  forallb (fun slot => (slot =? leader) || unowned s slot) (thread_slots s leader).
Definition process_quiescent (s : Sched) (leader : Z) : bool := forallb (unowned s) (thread_slots s leader).

(** [reparent_children_of] *)
Definition live_init (s : Sched) : option Z :=
  slot ← slot_by_pid s 1;
  t ← task_at s slot;
  if zombie t then None else Some slot.
Definition adopt (init_slot : option Z) (t : Task) : Task :=
  match init_slot with
  | Some slot => t <| ppid := 1 |> <| parent := slot |>
  | None => t <| ppid := 0 |> <| parent := 0 |>
  end.
Definition reparent_children_of (s : Sched) (dead_pid : Z) : Sched :=
  if dead_pid <=? 0 then s else
  let init_slot := if dead_pid =? 1 then None else live_init s in
  map_tasks (fun t => if ppid t =? dead_pid then adopt init_slot t else t) s.

(** ** Releasing dead tasks *)

Section Release.
  (** The acknowledgement of a TLB shootdown of a page in an address space. *)
  Variable (shootdown_tlb : Z -> Z -> bool).

(** A page directory together with memory, as the paging operations take it. *)
Definition vm_of (m : Sh F) (pd : Z) : Vm := mkVm (default zero_page (sh_mem m !! pd)) (sh_mem m) (sh_frames m).
Definition put_vm (m : Sh F) (pd : Z) (vm : Vm) : Sh F :=
  m <| sh_mem := <[pd := dir vm]> (mem vm) |> <| sh_frames := frames vm |>.

Definition free_frame (m : Sh F) (frame : Z) : Sh F := m <| sh_frames := free_phys_frame (sh_frames m) frame |>.

(** One page of a thread's user stack, and the stack from [addr] on. *)
Definition release_stack_page (pd addr : Z) (m : Sh F) : outcome (Sh F) :=
  r ← translate (vm_of m pd) addr;
  match r with
  | Some phys =>
      vm ← unmap (vm_of m pd) addr;
      let m := put_vm m pd vm in
      Ret (if shootdown_tlb pd addr then release_user_frame m (Z.shiftr phys 12) else m)
  | None => Ret m
  end.

Fixpoint release_stack_pages (n : nat) (pd addr : Z) (m : Sh F) : outcome (Sh F) :=
  match n with
  | O => Ret m
  | S n =>
      m ← release_stack_page pd addr m;
      addr ← add_u 32 addr 4096;
      release_stack_pages n pd addr m
  end.

(** [for offset in (0..STACK_SIZE).step_by(4096)] *)
Definition release_kernel_stack (stack_base : Z) (m : Sh F) : outcome (Sh F) :=
  base ← sub_u stack_base KERNEL_OFFSET;
  Ret (foldl (fun m i => free_frame m (Z.shiftr (base + i * 4096) 12)) m (seqZ 0 (STACK_SIZE / 4096))).

(** One user page table of the directory. *)
Definition release_table (m : Sh F) (table_phys : Z) : Sh F :=
  let table := default zero_page (sh_mem m !! table_phys) in
  let m := foldl (fun m page => if has page PRESENT then release_user_frame m (Z.shiftr (table_of page) 12) else m) m table in
  free_frame m (Z.shiftr table_phys 12).

(** One entry of the directory, and the entries from [index] on. *)
Definition release_entry (pd index : Z) (m : Sh F) : outcome (Sh F) :=
  entry ← idx (dir (vm_of m pd)) index;
  if negb (has entry PRESENT) || has entry DIR_PAGE_SIZE then Ret m else
  if negb (has entry USER) then Ret m else
  let m := release_table m (table_of entry) in
  d ← upd (dir (vm_of m pd)) index 0;
  Ret (m <| sh_mem := <[pd := d]> (sh_mem m) |>).

Fixpoint release_tables (n : nat) (pd index : Z) (m : Sh F) : outcome (Sh F) :=
  match n with
  | O => Ret m
  | S n => m ← release_entry pd index m; release_tables n pd (index + 1) m
  end.

(** [Task::release_memory] *)
Definition release_memory (t : Task) (m : Sh F) : outcome (Sh F) :=
  if is_thread t then
    m ← release_stack_pages (Z.to_nat ((user_stack_top t - user_stack_bottom t + 4095) / 4096))
          (page_dir_phys t) (user_stack_bottom t) m;
    release_kernel_stack (stack_base t) m
  else
    m ← release_tables 768 (page_dir_phys t) 0 m;
    release_kernel_stack (stack_base t) (free_frame m (Z.shiftr (page_dir_phys t) 12)).

(** Dropping the task in [slot] after its memory. *)
Definition drop_slot (s : Sched) (slot : Z) : outcome Sched :=
  m ← match task_at s slot with Some t => release_memory t (memory s) | None => Ret (memory s) end;
  Ret (put_task (s <| memory := m |>) slot None <| task_count := task_count s - 1 |>).

Fixpoint drop_slots (l : list Z) (s : Sched) : outcome Sched :=
  match l with
  | [] => Ret s
  | slot :: l => s ← drop_slot s slot; drop_slots l s
  end.

(** [TaskManager::reap] *)
Definition reap (s : Sched) (id : Z) : outcome (bool * Sched) :=
  if (id =? 0) || (MAX_TASKS <=? id) || negb (process_quiescent s id) then Ret (false, s) else
  match task_at s id with
  | None => Ret (false, s)
  | Some t =>
      if negb (zombie t) then Ret (false, s) else
      let s := reparent_children_of s (pid t) in
      let members := List.filter (fun slot => negb (slot =? id)) (thread_slots s id) in
      s ← drop_slots members s;
      s ← drop_slot s id;
      Ret (true, s)
  end.

(** [TaskManager::reap_thread] *)
Definition reap_thread (s : Sched) (id : Z) : outcome (bool * Sched) :=
  if (id =? 0) || (MAX_TASKS <=? id) then Ret (false, s) else
  if negb (unowned s id) then Ret (false, s) else
  match task_at s id with
  | Some t => if is_thread t && thread_exited t then s ← drop_slot s id; Ret (true, s) else Ret (false, s)
  | None => Ret (false, s)
  end.

(** [TaskManager::remove_task] *)
Definition remove_task (s : Sched) (id : Z) : Sched :=
  if negb (id =? 0) && (id <? MAX_TASKS) && unowned s id then
    match task_at s id with
    | Some t =>
        let s := reparent_children_of s (pid t) in
        put_task s id None <| task_count := task_count s - 1 |>
    | None => s
    end
  else s.

(** [TaskManager::remove_current_task] on CPU [cpu] *)
Definition remove_current_task (s : Sched) (cpu : Z) : Sched :=
  let current := task_slot_on_cpu s cpu in
  if 0 <=? current then remove_task s current else s.

(** [TaskManager::reap_detached_threads] over slots [slot..] *)
Fixpoint reap_detached_from (n : nat) (slot : Z) (s : Sched) : outcome Sched :=
  match n with
  | O => Ret s
  | S n =>
      s ← (if negb (unowned s slot) then Ret s else
           match task_at s slot with
           | Some t =>
               if is_thread t && thread_exited t && thread_detached t then '(_, s) ← reap_thread s slot; Ret s else Ret s
           | None => Ret s
           end);
      reap_detached_from n (slot + 1) s
  end.
Definition reap_detached_threads (s : Sched) : outcome Sched := reap_detached_from 31 1 s.

(** [TaskManager::reap_orphans] *)
Definition parent_gone (s : Sched) (p : Z) : bool := (p <=? 0) || match slot_by_pid s p with Some _ => false | None => true end.
Fixpoint scan_orphans (n : nat) (slot : Z) (init_slot : option Z) (s : Sched) (acc : list Z) : list Z * Sched :=
  match n with
  | O => (acc, s)
  | S n =>
      match task_at s slot with
      | Some t =>
          if negb (pid t =? 1) && parent_gone s (ppid t) then
            match init_slot with
            | Some _ => scan_orphans n (slot + 1) init_slot (put_task s slot (Some (adopt init_slot t))) acc
            | None => scan_orphans n (slot + 1) init_slot s (if zombie t then acc ++ [slot] else acc)
            end
          else scan_orphans n (slot + 1) init_slot s acc
      | None => scan_orphans n (slot + 1) init_slot s acc
      end
  end.
Fixpoint reap_all (l : list Z) (s : Sched) : outcome Sched :=
  match l with
  | [] => Ret s
  | id :: l => '(_, s) ← reap s id; reap_all l s
  end.
Definition reap_orphans (s : Sched) : outcome Sched :=
  let '(zombies, s) := scan_orphans 31 1 (live_init s) s [] in
  reap_all zombies s.

(** [TaskManager::get_free_slot] *)
Definition get_free_slot (s : Sched) : outcome (Z * Sched) :=
  s ← reap_detached_threads s;
  s ← reap_orphans s;
  Ret (default (-1) (vec_position (fun o : option Task => match o with None => true | Some _ => false end) (tasks s)), s).

(** ** Creating tasks *)

  (** [detected_ram_bytes()] *)
  Variable (ram : Z).

(** What [live_kernel_stack_owner] sees of the task table. *)
Definition task_stacks (s : Sched) : list (option Z) := (fun o : option Task => stack_base <$> o) <$> tasks s.

(** [alloc_task_page_dir], [alloc_kernel_stack] of [paging.rs] *)
Definition alloc_task_page_dir (s : Sched) : outcome (Z * Sched) :=
  '(frame, fa) ← alloc_frame ram (task_stacks s) (sh_frames (memory s));
  let phys := Z.shiftl frame 12 in
  Ret (phys, s <| memory := memory s <| sh_frames := fa |> <| sh_mem := <[phys := zero_page]> (sh_mem (memory s)) |> |>).
Definition alloc_kernel_stack (s : Sched) (size : Z) : outcome (Z * Sched) :=
  up ← add_u 32 size PAGE_SIZE;
  let pages := (up - 1) / PAGE_SIZE in
  '(first, fa) ← alloc_contiguous_frames ram (task_stacks s) (sh_frames (memory s)) pages;
  let base := wrapping_add 32 (Z.shiftl first 12) KERNEL_OFFSET in
  let zeroed := foldl (fun m f => <[Z.shiftl f 12 := zero_page]> m) (sh_mem (memory s)) (seqZ first pages) in
  Ret (base, s <| memory := memory s <| sh_frames := fa |> <| sh_mem := zeroed |> |>).

(** The overlap assertion of [Task::new] and [Task::new_thread]. *)
Definition stack_apart (page_dir_phys stack_base : Z) : outcome unit :=
  stack_phys ← sub_u stack_base KERNEL_OFFSET;
  _ ← assert ((page_dir_phys <? stack_phys) || (stack_phys + STACK_SIZE <=? page_dir_phys));
  Ret tt.

(** [Task::new], [Task::new_thread] *)
Definition task_new (s : Sched) : outcome (Task * Sched) :=
  '(pd, s) ← alloc_task_page_dir s;
  '(base, s) ← alloc_kernel_stack s STACK_SIZE;
  _ ← stack_apart pd base;
  Ret (task_init base pd 0x60000000 false, s).
Definition new_thread (s : Sched) (page_dir_phys : Z) : outcome (Task * Sched) :=
  '(base, s) ← alloc_kernel_stack s STACK_SIZE;
  _ ← stack_apart page_dir_phys base;
  Ret (task_init base page_dir_phys 0 true, s).

(** [Task::init]: the first user-mode frame on the kernel stack *)
Definition task_start (t : Task) (s : Sched) (entry_point user_stack_top heap_start : Z) : outcome (Task * Sched) :=
  top ← add_u 32 (stack_base t) STACK_SIZE;
  let ptr := top - HEADROOM - CPU_STATE_SIZE in
  let frame := mkCpu 0 0 0 0 0 0 0 entry_point 0x1B 0x202 user_stack_top 0x23 in
  Ret (t <| running := true |> <| state := Runnable |> <| kernel_stack := top |> <| cpu_state_ptr := ptr |>
         <| heap_next := heap_start |>,
       s <| cpu_states := <[ptr := frame]> (cpu_states s) |>).

(** [TaskManager::add_task] *)
Definition add_task (s : Sched) (entry_point user_stack_top heap_start : Z) : outcome Sched :=
  '(free_slot, s) ← get_free_slot s;
  if free_slot <? 0 then Ret s else
  let '(p, s) := alloc_pid s in
  '(t, s) ← task_new s;
  '(t, s) ← task_start t s entry_point user_stack_top heap_start;
  let t := t <| pid := p |> <| tid := p |> <| leader_slot := free_slot |> <| ppid := 0 |> <| pgid := p |>
             <| sid := p |> <| parent := 0 |> <| tty_id := -1 |> in
  Ret (put_task s free_slot (Some t) <| task_count := task_count s + 1 |>).

(** [TaskManager::init]; [share_kernel] is [copy_kernel_mappings] for the
    kernel directory of the running system and [idle_eip] the address of [idle]. *)
Definition sched_init (large_pages : Z) (kernel_pd : option (list Z)) (idle_eip : Z) (s : Sched) : outcome Sched :=
  '(t, s) ← task_new s;
  let pd := page_dir_phys t in
  d ← copy_kernel_mappings large_pages kernel_pd (dir (vm_of (memory s) pd)) pd;
  let s := s <| memory := memory s <| sh_mem := <[pd := d]> (sh_mem (memory s)) |> |> in
  top ← add_u 32 (stack_base t) STACK_SIZE;
  let ptr := top - HEADROOM - CPU_STATE_SIZE in
  let frame := mkCpu 0 0 0 0 0 0 0 idle_eip 0x08 0x202 top 0x10 in
  let t := t <| cpu_state_ptr := ptr |> <| kernel_stack := top |> <| running := true |> <| state := Running 0 |>
             <| pid := 0 |> <| tid := 0 |> <| leader_slot := 0 |> <| ppid := -1 |> <| pgid := 0 |> <| sid := 0 |> in
  Ret (s <| tasks := <[0%nat := Some t]> (tasks s) |> <| cpu_states := <[ptr := frame]> (cpu_states s) |>
         <| cpu_esp0 := set_cpu (cpu_esp0 s) 0 top |> <| task_count := 1 |> <| current_task := 0 |>
         <| task_owner := set_cpu (task_owner s) 0 0 |> <| cpu_slot := set_cpu (cpu_slot s) 0 0 |>
         <| first_switch := true |> <| next_pid := 1 |>).

(** The statics before [init]. *)
Definition sched_static (m : Sh F) : Sched :=
  mkSched (replicate 32 None) 0 (-1) true 1 (replicate 32 (-1)) (replicate 64 (-1)) (replicate 64 0) (replicate 64 0)
    (replicate 64 0) ∅ m.
End Release.
End Manager.
Arguments Sched : clear implicits.

(** ** Wake-ups *)

Section WakeUps.
  Context {F : Type}.
  Implicit Types (s : Sched F) (t : Task).

Lemma map_tasks_at (f : Task -> Task) s slot : task_at (map_tasks f s) slot = f <$> task_at s slot.
Proof.
  unfold task_at, map_tasks, get. simpl. destruct (slot <? 0); [done|]. rewrite list_lookup_fmap.
  by destruct (tasks s !! Z.to_nat slot).
Qed.

Definition blocked_reason t : option WaitReason := match state t with Blocked r => Some r | _ => None end.
Definition sched_blocked_on s (slot : nat) : option WaitReason := t ← task_at s (Z.of_nat slot); blocked_reason t.

Lemma wake_waiters_tasks_spec r s slot :
  sched_blocked_on (wake_waiters_tasks r s) slot =
  match sched_blocked_on s slot with
  | Some r' => if decide (r' = r) then None else Some r'
  | None => None
  end.
Proof.
  unfold sched_blocked_on, wake_waiters_tasks. rewrite map_tasks_at. destruct (task_at s (Z.of_nat slot)) as [t|]; [|done].
  simpl. unfold is_blocked_on, blocked_reason. destruct (state t) as [| | |r'| |] eqn:Hs;
    rewrite ?bool_decide_eq_false_2 by done; rewrite ?Hs; try done.
  destruct (decide (r' = r)) as [->|Hne]; [by rewrite bool_decide_eq_true_2|].
  rewrite bool_decide_eq_false_2 by congruence. by rewrite Hs.
Qed.

(** The scheduler is the wait queue of the other components. *)
#[global] Instance Sched_WaitQueue : WaitQueue (Sched F) := {
  wake_waiters := wake_waiters_tasks;
  blocked_on := sched_blocked_on;
  wake_waiters_spec := wake_waiters_tasks_spec
}.

(** The task waiting on a futex whose saved frame is at [p] ran out of time. *)
Definition timed_out (now p : Z) t : bool :=
  expired now t && is_blocked_on Futex t && (cpu_state_ptr t =? p) && negb (p =? 0).

Lemma wake_expired_not_expired now t : expired now (wake_expired now t) = false.
Proof.
  unfold wake_expired. destruct (expired now t) eqn:He; [|done].
  unfold expired in He |- *. destruct (state t) as [| | |[]| |]; try done.
Qed.
Lemma timeout_result_lookup now frames o p :
  timeout_result now frames o !! p =
  (if match o with Some t => timed_out now p t | None => false end then timeout_frame <$> frames !! p else frames !! p).
Proof.
  unfold timeout_result, timed_out. destruct o as [t|]; [|done].
  destruct (expired now t && is_blocked_on Futex t); simpl; [|done]. destruct (Z.eqb_spec (cpu_state_ptr t) 0) as [H0|Hn]; simpl.
  - rewrite H0. by destruct (Z.eqb_spec 0 p) as [<-|].
  - destruct (Z.eqb_spec (cpu_state_ptr t) p) as [Hp|Hne]; [|by rewrite lookup_alter_ne].
    rewrite Hp, lookup_alter_eq, (proj2 (Z.eqb_neq p 0)) by congruence. done.
Qed.

Lemma timeout_fold_lookup now l : forall frames p,
  foldl (timeout_result now) frames l !! p =
  (if existsb (fun o => match o with Some t => timed_out now p t | None => false end) l
   then timeout_frame <$> frames !! p else frames !! p).
Proof.
  induction l as [|o l IH]; intros frames p; [done|]. simpl. rewrite IH, timeout_result_lookup.
  destruct (match o with Some t => timed_out now p t | None => false end); simpl; [|done].
  destruct (existsb _ l); [|done]. by destruct (frames !! p).
Qed.

(** A timer tick wakes exactly the tasks whose deadline has passed: a task
    blocked on a timer, or on a poll or futex with a deadline.  A woken task is
    runnable, no task is expired afterwards, every other task is untouched, and
    a saved register frame changes only when its task timed out on a futex, in
    which case [eax] carries [-ETIMEDOUT]. *)
Theorem timers_wake_exact s now slot :
  task_at (wake_expired_timers s now) slot = wake_expired now <$> task_at s slot /\
  (forall t, task_at s slot = Some t ->
    expired now (wake_expired now t) = false /\
    (expired now t = false -> wake_expired now t = t) /\
    (expired now t = true -> running (wake_expired now t) = true /\ state (wake_expired now t) = Runnable /\
      (is_blocked_on Poll t = false -> wake_deadline_ms (wake_expired now t) = 0))) /\
  (forall p, cpu_states (wake_expired_timers s now) !! p =
    if existsb (fun o => match o with Some t => timed_out now p t | None => false end) (tasks s)
    then timeout_frame <$> cpu_states s !! p else cpu_states s !! p).
Proof.
  split; [unfold wake_expired_timers; by rewrite map_tasks_at|]. split; [|intros p; apply timeout_fold_lookup].
  intros t _. split; [apply wake_expired_not_expired|]. unfold wake_expired, is_blocked_on.
  split; [by intros ->|]. intros He. rewrite He. unfold expired in He. destruct (state t) as [| | |[]| |] eqn:Hs; try done.
Qed.
End WakeUps.

(** ** Slots *)

Section Slots.
  Context {F : Type}.
  Implicit Types (s : Sched F) (t : Task).

Lemma slots_from_elem l p : forall b k, k ∈ slots_from b l p <-> exists t, b <= k /\ l !! Z.to_nat (k - b) = Some (Some t) /\ p k t = true.
Proof.
  induction l as [|o l IH]; intros b k.
  { split; [by intros ?%not_elem_of_nil|]. intros (t & _ & Hl & _). by rewrite lookup_nil in Hl. }
  assert (b < k -> (o :: l) !! Z.to_nat (k - b) = l !! Z.to_nat (k - (b + 1))) as Hs.
  { intros. replace (Z.to_nat (k - b)) with (S (Z.to_nat (k - (b + 1)))) by lia. done. }
  assert (k ∈ slots_from (b + 1) l p <-> exists t, b < k /\ (o :: l) !! Z.to_nat (k - b) = Some (Some t) /\ p k t = true) as IH'.
  { rewrite IH. split; intros (t & Hb & Hl & Hp); exists t; (split; [lia|]); (split; [|done]).
    - by rewrite Hs by lia.
    - by rewrite <- Hs by lia. }
  assert (forall t, k = b -> (o :: l) !! Z.to_nat (k - b) = Some (Some t) <-> o = Some t) as H0.
  { intros t ->. rewrite Z.sub_diag. simpl. naive_solver. }
  cbn [slots_from]. destruct o as [t|]; [destruct (p b t) eqn:Hp; [rewrite elem_of_cons|]|]; rewrite IH'.
  - split.
    + intros [-> |(u & ? & ? & ?)]; [exists t; split; [lia|split; [by apply H0|done]]|exists u; split; [lia|done]].
    + intros (u & Hb & Hl & Hu). destruct (Z.eq_dec k b); [by left|right]. exists u. split; [lia|done].
  - split; intros (u & Hb & Hl & Hu); exists u; (split; [|done]); [lia|].
    destruct (Z.eq_dec k b) as [->|]; [|lia]. apply H0 in Hl; [|done]. injection Hl as ->. congruence.
  - split; intros (u & Hb & Hl & Hu); exists u; (split; [|done]); [lia|].
    destruct (Z.eq_dec k b) as [->|]; [|lia]. by apply H0 in Hl.
Qed.

Lemma slots_where_elem s p k : k ∈ slots_where s p <-> exists t, task_at s k = Some t /\ p k t = true.
Proof.
  unfold slots_where. rewrite slots_from_elem. unfold task_at, get. rewrite Z.sub_0_r. split.
  - intros (t & Hk & Hl & Hp). exists t. rewrite (proj2 (Z.ltb_ge _ _)) by lia. by rewrite Hl.
  - intros (t & Hl & Hp). exists t. destruct (Z.ltb_spec k 0); [done|]. split; [lia|]. split; [|done].
    by destruct (tasks s !! Z.to_nat k) as [[]|]; simpl in Hl; simplify_eq.
Qed.

Lemma slots_from_ge l p : forall b k, k ∈ slots_from b l p -> b <= k.
Proof. intros b k (t & ? & _)%slots_from_elem. done. Qed.

Lemma slots_from_NoDup l p : forall b, NoDup (slots_from b l p).
Proof.
  induction l as [|o l IH]; intros b; cbn [slots_from]; [constructor|].
  destruct o as [t|]; [|done]. destruct (p b t); [|done]. constructor; [|done].
  intros Hk%slots_from_ge. lia.
Qed.

Lemma task_at_range s k t : zlen (tasks s) = 32 -> task_at s k = Some t -> 0 <= k < 32.
Proof.
  unfold task_at. intros Hl. destruct (get (tasks s) k) eqn:Hg; [|done]. apply get_Some_range in Hg. by rewrite Hl in Hg.
Qed.
End Slots.

(** A test on the whole task table. *)
Lemma forall_tasks {F} (s : Sched F) (f : Z -> Task -> bool) :
  zlen (tasks s) = 32 -> forallb (fun j => match task_at s j with Some t => f j t | None => true end) (seqZ 0 32) = true ->
  forall j t, task_at s j = Some t -> f j t = true.
Proof.
  intros Hl Hall j t Ht. pose proof (task_at_range _ _ _ Hl Ht). rewrite forallb_forall in Hall. specialize (Hall j).
  rewrite Ht in Hall. apply Hall, list_elem_of_In, elem_of_seqZ. lia.
Qed.
