(* ===== verification/Schedule.v ===== *)
(** * Scheduling on several CPUs

    Proofs about [claim_next_task] and [schedule] of
    [kernel/src/multitasking/task.rs]: the search finds the first task that can
    run, no task runs on two CPUs, and a tick never fails. *)

From S2P Require Import Prelude Wait Frames Paging SharedPages Task.

(** ** The choice of the next task *)

Section Claim.
  Context {F : Type}.
  Implicit Types (s : Sched F) (t : Task).

Record sched_wf s : Prop := {
  sw_tasks : zlen (tasks s) = 32;
  sw_owner : zlen (task_owner s) = 32;
  sw_cpus : zlen (cpu_slot s) = 64;
  sw_owners : Forall (fun o => -1 <= o) (task_owner s)
}.

(** The owner entry of a slot names a CPU that runs something else. *)
Definition stale s (slot owner : Z) : bool := (0 <=? owner) && negb (task_slot_on_cpu s owner =? slot).

(** A slot that can be claimed: its task can run and no CPU has it. *)
Definition available s (slot : Z) : bool :=
  claimable s slot && match get (task_owner s) slot with Some o => (o =? -1) || stale s slot o | None => false end.

Definition set_owner s (slot o : Z) : Sched F := s <| task_owner := <[Z.to_nat slot := o]> (task_owner s) |>.

Lemma claimable_owner s l slot : claimable (s <| task_owner := l |>) slot = claimable s slot.
Proof. done. Qed.

Lemma set_owner_wf s slot o : sched_wf s -> -1 <= o -> sched_wf (set_owner s slot o).
Proof.
  intros [H1 H2 H3 H4] Ho. constructor; simpl; try done; [by rewrite zlen_insert|]. by apply Forall_insert.
Qed.

(** Changing the owner of one slot leaves the others as available as before. *)
Lemma available_set s slot o k :
  sched_wf s -> 0 <= slot < 32 -> k <> slot -> available (set_owner s slot o) k = available s k.
Proof.
  intros [_ H2 _ _] Hs Hne. unfold available. f_equal. unfold set_owner. simpl. by rewrite get_insert_ne by lia.
Qed.

(** One attempt. *)
Lemma try_claim_ok s cpu slot :
  sched_wf s -> 0 <= slot < 32 ->
  exists o, get (task_owner s) slot = Some o /\
    try_claim s cpu slot = Ret (available s slot,
      if available s slot then set_owner s slot cpu else if stale s slot o then set_owner s slot (-1) else s).
Proof.
  intros Hwf Hs. pose proof Hwf as [H1 H2 _ _]. destruct (get_in_range (task_owner s) slot) as [o Ho]; [lia|].
  exists o. split; [done|]. unfold try_claim, available. rewrite (proj2 (idx_Ret _ _ _) Ho). simpl. fold (stale s slot o).
  rewrite Ho. destruct (stale s slot o) eqn:Hst; rewrite ?orb_true_r, ?orb_false_r, ?andb_true_r.
  - rewrite upd_in_range by lia. simpl. rewrite claimable_owner. destruct (claimable s slot); [|done].
    rewrite (proj2 (idx_Ret _ _ _) (get_insert_eq (task_owner s) slot (-1) ltac:(lia))). simpl.
    rewrite upd_in_range by (rewrite zlen_insert; lia). simpl. unfold set_owner, set_field, setter. simpl. by rewrite list_insert_insert_eq.
  - simpl. destruct s as [ta tc cu fs np ow cs cr ie es st me]. simpl in *.
    destruct (claimable _ slot); simpl; [|done]. rewrite (proj2 (idx_Ret _ _ _) Ho). simpl.
    destruct (Z.eqb_spec o (-1)); [|done]. rewrite upd_in_range by lia. done.
Qed.

(** The [i]-th slot visited from slot [b] on: 1..31 cyclically. *)
Definition visit (b i : Z) : Z := (b - 1 + i) mod 31 + 1.

Lemma visit_range b i : 1 <= visit b i <= 31.
Proof. unfold visit. pose proof (Z.mod_pos_bound (b - 1 + i) 31). lia. Qed.
Lemma visit_0 b : 1 <= b <= 31 -> visit b 0 = b.
Proof. unfold visit. intros. rewrite Z.mod_small; lia. Qed.
Lemma visit_next b i : visit (visit b 1) i = visit b (i + 1).
Proof. unfold visit. f_equal. replace ((b - 1 + 1) mod 31 + 1 - 1 + i) with ((b - 1 + 1) mod 31 + i) by lia.
  rewrite Zplus_mod_idemp_l. f_equal. lia. Qed.

Definition norm (c : Z) : Z := if c =? 0 then 1 else c.
Lemma norm_next b : 1 <= b <= 31 -> norm ((b + 1) mod MAX_TASKS) = visit b 1.
Proof. unfold norm, visit, MAX_TASKS. intros. zcase; mlia. Qed.

(** The owner entries that differ after a search: a stale entry that was
    cleared, or the claimed slot. *)
Definition owners_after s s' (cpu r : Z) : Prop :=
  s' = s <| task_owner := task_owner s' |> /\ sched_wf s' /\
  forall k o, 0 <= k < 32 -> get (task_owner s) k = Some o ->
    get (task_owner s') k = Some (if (0 <? r) && (k =? r) then cpu else o) \/
    (stale s k o = true /\ get (task_owner s') k = Some (-1)).

(** The first step of a search that went on. *)
Lemma owners_later s s1 s' cpu r b o :
  sched_wf s -> 0 <= b < 32 -> get (task_owner s) b = Some o ->
  s1 = (if stale s b o then set_owner s b (-1) else s) -> r <> b ->
  owners_after s1 s' cpu r -> owners_after s s' cpu r.
Proof.
  intros [_ H2 _ _] Hb Ho Hs1 Hr (Heq & Hwf' & Hk). split_and!; [|done|].
  - rewrite Heq, Hs1. by destruct (stale s b o), s.
  - intros k q Hkr Hq. assert (forall x, stale s1 k x = stale s k x) as Hst by (rewrite Hs1; by destruct (stale s b o)).
    destruct (Z.eq_dec k b) as [->|Hne].
    + rewrite Ho in Hq. injection Hq as <-. destruct (stale s b o) eqn:Es.
      * right. split; [done|]. destruct (Hk b (-1)) as [->|[? ?]]; try done; [by rewrite Hs1; simpl; apply get_insert_eq; lia|].
        by rewrite (proj2 (Z.eqb_neq b r)), andb_false_r by lia.
      * destruct (Hk b o) as [?|[Hx ?]]; try done; [by rewrite Hs1|by left|]. by rewrite Hst, Es in Hx.
    + destruct (Hk k q) as [?|[Hx ?]]; try done; [|by left|right; by rewrite Hst in Hx].
      rewrite Hs1. destruct (stale s b o); [simpl; rewrite get_insert_ne by lia|]; done.
Qed.

Lemma claim_later s s1 cpu b s' r n :
  1 <= b <= 31 -> available s b = false -> (forall k, k <> b -> available s1 k = available s k) ->
  (forall i, 0 <= i < Z.of_nat n -> visit b (i + 1) <> b) ->
  ((r = 0 /\ forall i, 0 <= i < Z.of_nat n -> available s1 (visit (visit b 1) i) = false) \/
   exists i, 0 <= i < Z.of_nat n /\ r = visit (visit b 1) i /\ available s1 r = true /\
     get (task_owner s') r = Some cpu /\ forall j, 0 <= j < i -> available s1 (visit (visit b 1) j) = false) ->
  (r = 0 /\ forall i, 0 <= i < Z.of_nat (S n) -> available s (visit b i) = false) \/
   exists i, 0 <= i < Z.of_nat (S n) /\ r = visit b i /\ available s r = true /\
     get (task_owner s') r = Some cpu /\ forall j, 0 <= j < i -> available s (visit b j) = false.
Proof.
  intros Hb Hav Hav1 Hdist Hcase.
  assert (forall m, 0 <= m <= Z.of_nat n -> (forall j, 0 <= j < m -> available s1 (visit (visit b 1) j) = false) ->
    forall j, 0 <= j < m + 1 -> available s (visit b j) = false) as Hprev.
  { intros m Hm Hp j Hj. destruct (Z.eq_dec j 0) as [->|]; [by rewrite visit_0|].
    specialize (Hp (j - 1) ltac:(lia)). rewrite visit_next in Hp. replace (j - 1 + 1) with j in Hp by lia.
    rewrite Hav1 in Hp; [done|]. replace j with (j - 1 + 1) by lia. apply Hdist. lia. }
  destruct Hcase as [[-> Hno]|(i & Hi & -> & Hr & Hg & Hp)]; [left|right].
  - split; [done|]. intros i Hi. apply (Hprev (Z.of_nat n)); [lia|done|lia].
  - exists (i + 1). rewrite visit_next in Hr, Hg |- *. split_and!; try done; try lia.
    + rewrite <- Hav1; [done|]. by apply Hdist.
    + apply (Hprev i); [lia|done].
Qed.

(** The search claims the first available slot in visiting order. *)
Lemma claim_loop_ok n : forall s cpu c, sched_wf s -> 0 <= c < 32 -> -1 <= cpu -> (n <= 31)%nat ->
  exists r s', claim_loop n s cpu c = Ret (r, s') /\ owners_after s s' cpu r /\
  ((r = 0 /\ forall i, 0 <= i < Z.of_nat n -> available s (visit (norm c) i) = false) \/
   exists i, 0 <= i < Z.of_nat n /\ r = visit (norm c) i /\ available s r = true /\
     get (task_owner s') r = Some cpu /\ forall j, 0 <= j < i -> available s (visit (norm c) j) = false).
Proof.
  induction n as [|n IH]; intros s cpu c Hwf Hc Hcpu Hn.
  { exists 0, s. split; [done|]. split; [|left; split; [done|intros; lia]]. split_and!; [by destruct s|done|].
    intros k o Hk Ho. left. by rewrite Ho. }
  assert (1 <= norm c <= 31) as Hb by (unfold norm; zcase; lia). cbn [claim_loop]. fold (norm c).
  destruct (try_claim_ok s cpu (norm c) Hwf ltac:(lia)) as (o & Ho & ->). rewrite bind_Ret_l.
  destruct (available s (norm c)) eqn:Hav.
  - exists (norm c), (set_owner s (norm c) cpu). split; [done|]. pose proof Hwf as [_ H2 _ _].
    assert (get (task_owner (set_owner s (norm c) cpu)) (norm c) = Some cpu) as Hget
      by (simpl; apply get_insert_eq; lia).
    split; [|right; exists 0; rewrite visit_0 by done; split_and!; try done; try lia].
    split_and!; [by destruct s|by apply set_owner_wf|]. intros k q Hk Hq. left.
    rewrite (proj2 (Z.ltb_lt 0 (norm c))) by lia. simpl. destruct (Z.eqb_spec k (norm c)) as [->|Hne].
    + rewrite get_insert_eq by lia. done.
    + by rewrite get_insert_ne by lia.
  - set (s1 := if stale s (norm c) o then set_owner s (norm c) (-1) else s).
    assert (sched_wf s1) as Hwf1 by (unfold s1; destruct (stale _ _ _); [apply set_owner_wf; [done|lia]|done]).
    assert (forall k, k <> norm c -> available s1 k = available s k) as Hav1.
    { intros k Hk. unfold s1. destruct (stale _ _ _); [by apply available_set; [|lia|]|done]. }
    destruct (IH s1 cpu ((norm c + 1) mod MAX_TASKS) Hwf1) as (r & s' & Hrun & Haft & Hcase);
      [unfold MAX_TASKS; mlia|done|lia|]. rewrite norm_next in Hcase by done.
    exists r, s'. split; [exact Hrun|].
    assert (forall i, 0 <= i < Z.of_nat n -> visit (norm c) (i + 1) <> norm c) as Hdist.
    { intros i Hi. rewrite <- (visit_0 (norm c)) at 2 by done. unfold visit. intros Heq.
      assert ((norm c - 1 + (i + 1)) mod 31 = (norm c - 1 + 0) mod 31) as Hm by lia. mlia. }
    split; [|by apply (claim_later s s1 cpu (norm c) s' r n)].
    apply (owners_later s s1 s' cpu r (norm c) o); try done; [lia|].
    destruct Hcase as [[-> _]|(i & Hi & -> & _)]; [lia|]. rewrite visit_next. by apply Hdist.
Qed.

(** The slot a search starts at. *)
Definition first_visit (after : Z) : Z := if after <? 1 then 1 else norm ((after + 1) mod MAX_TASKS).

Lemma visit_all b k : 1 <= b <= 31 -> 1 <= k <= 31 -> visit b ((k - b) mod 31) = k.
Proof. unfold visit. intros. mlia. Qed.

Lemma claim_next_ok s cpu after :
  sched_wf s -> -1 <= cpu -> -1 <= after < 32 ->
  exists r s', claim_next_task s cpu after = Ret (r, s') /\ owners_after s s' cpu r /\
  ((r = 0 /\ forall k, 1 <= k <= 31 -> available s k = false) \/
   1 <= r <= 31 /\ available s r = true /\ get (task_owner s') r = Some cpu /\
   forall k, 1 <= k <= 31 -> available s k = true -> (r - first_visit after) mod 31 <= (k - first_visit after) mod 31).
Proof.
  intros Hwf Hcpu Ha. unfold claim_next_task. set (c := if after <? 1 then 1 else (after + 1) mod MAX_TASKS).
  assert (0 <= c < 32 /\ norm c = first_visit after) as [Hc Hn].
  { unfold c, first_visit, MAX_TASKS. zcase; [done|]. split; [mlia|done]. }
  assert (1 <= first_visit after <= 31) as Hb by (rewrite <- Hn; unfold norm; zcase; lia).
  destruct (claim_loop_ok 31 s cpu c Hwf Hc Hcpu) as (r & s' & Hrun & Haft & Hcase); [lia|]. rewrite Hn in Hcase.
  exists r, s'. split_and!; [done..|]. destruct Hcase as [[-> Hno]|(i & Hi & -> & Hr & Hg & Hp)]; [left|right].
  - split; [done|]. intros k Hk. rewrite <- (visit_all (first_visit after) k) by done. apply Hno. mlia.
  - split_and!; try apply visit_range; try done. intros k Hk Hav.
    assert (0 <= (k - first_visit after) mod 31 < 31) as Hd by mlia.
    destruct (Z.le_gt_cases i ((k - first_visit after) mod 31)) as [Hle|Hgt].
    + unfold visit. mlia.
    + specialize (Hp ((k - first_visit after) mod 31) ltac:(lia)). rewrite visit_all in Hp by done. congruence.
Qed.

(** ** Ownership of the running tasks *)

(** Slot 0 holds the idle task, a process of its own. *)
Definition idle_present s : Prop := exists t, task_at s 0 = Some t /\ leader_slot t = 0.

(** A task names a leader inside the table, and a zombie is its own leader. *)
Definition leader_ok (slot : Z) t : Prop := leader_slot t < 32 /\ (zombie t = true -> leader_slot t = slot).

(** Every owner entry names the CPU whose current task it is, and every CPU's
    current task is owned by it, CPU [ex] excepted. *)
Record own_core (ex : Z) s : Prop := {
  oc_wf : sched_wf s;
  oc_idle : idle_present s;
  oc_esp : zlen (idle_esp s) = 64 /\ zlen (cpu_cr3 s) = 64;
  oc_owner : forall slot o, 1 <= slot < 32 -> get (task_owner s) slot = Some o ->
    o = -1 \/ (0 <= o < 64 /\ o <> ex /\ get (cpu_slot s) o = Some slot /\ is_Some (task_at s slot));
  oc_cpu : forall c p, c <> ex -> get (cpu_slot s) c = Some p ->
    p = -1 \/ (p = 0 /\ c = 0) \/ (1 <= p < 32 /\ get (task_owner s) p = Some c);
  oc_zombie : forall slot t, task_at s slot = Some t -> leader_ok slot t
}.

Record own_inv s : Prop := {
  oi_core : own_core (-1) s;
  oi_boot : get (cpu_slot s) 0 = Some (current_task s) /\ 0 <= current_task s < 32 /\
            (first_switch s = true -> current_task s = 0)
}.

(** A change of the task table that keeps the idle task and every owned task. *)
Record keeps s s' : Prop := {
  kp_len : zlen (tasks s') = 32;
  kp_owner : task_owner s' = task_owner s;
  kp_cpu : cpu_slot s' = cpu_slot s;
  kp_esp : zlen (idle_esp s') = zlen (idle_esp s) /\ zlen (cpu_cr3 s') = zlen (cpu_cr3 s);
  kp_boot : current_task s' = current_task s /\ first_switch s' = first_switch s;
  kp_idle : idle_present s';
  kp_tasks : forall slot, 1 <= slot < 32 -> unowned s slot = false -> is_Some (task_at s slot) -> is_Some (task_at s' slot);
  kp_zombie : forall slot t, task_at s' slot = Some t -> leader_ok slot t
}.

Lemma keeps_core ex s s' : own_core ex s -> keeps s s' -> own_core ex s'.
Proof.
  intros [[H1 H2 H3 H4] Hid Hesp Ho Hc Hz] [K1 K2 K3 [K4 K4'] K5 K6 K7 K8].
  constructor; try done; rewrite ?K2, ?K3, ?K4, ?K4'; try done.
  - constructor; rewrite ?K2, ?K3; done.
  - intros slot o Hs Hg. destruct (Ho slot o Hs Hg) as [?|(? & ? & ? & ?)]; [by left|right]. split_and!; try done; try lia.
    apply K7; try done. unfold unowned. rewrite Hg. apply Z.ltb_ge. lia.
Qed.

Lemma keeps_inv s s' : own_inv s -> keeps s s' -> own_inv s'.
Proof.
  intros [Hc (B1 & B2 & B3)] Hk. constructor; [by eapply keeps_core|]. destruct Hk as [_ _ K3 _ [K5 K6] _ _ _].
  rewrite K3, K5, K6. done.
Qed.

(** Updating tasks in place. *)
Lemma keeps_map ex s f :
  own_core ex s -> (forall t, zombie (f t) = zombie t /\ leader_slot (f t) = leader_slot t) -> keeps s (map_tasks f s).
Proof.
  intros [[H1 _ _ _] Hid _ _ _ Hz] Hf. constructor; try done.
  - simpl. unfold zlen in *. by rewrite length_fmap.
  - destruct Hid as (t & Ht & Hl). exists (f t). rewrite map_tasks_at, Ht. split; [done|]. by destruct (Hf t) as [_ ->].
  - intros slot _ _ Ht. rewrite map_tasks_at. by apply fmap_is_Some.
  - intros slot t. rewrite map_tasks_at. intros (u & Hu & ->)%fmap_Some. unfold leader_ok. destruct (Hf u) as [-> ->]. by apply Hz.
Qed.

Lemma on_task_at s slot f k :
  zlen (tasks s) = 32 -> task_at (on_task s slot f) k = if k =? slot then f <$> task_at s k else task_at s k.
Proof.
  intros Hl. unfold on_task. destruct (task_at s slot) as [t|] eqn:Ht.
  - unfold task_at in *. destruct (get (tasks s) slot) as [o|] eqn:Hg; [|done]. pose proof (get_Some_range _ _ _ Hg) as Hr.
    unfold put_task. simpl. rewrite get_insert by lia. rewrite (Z.eqb_sym k). destruct (Z.eqb_spec slot k) as [<-|]; [|done].
    rewrite Hg. simpl in *. by rewrite Ht.
  - destruct (Z.eqb_spec k slot) as [->|]; [|done]. by rewrite Ht.
Qed.

Lemma keeps_on ex s slot f :
  own_core ex s -> (forall t, zombie (f t) = zombie t /\ leader_slot (f t) = leader_slot t) -> keeps s (on_task s slot f).
Proof.
  intros [[H1 _ _ _] Hid _ _ _ Hz] Hf.
  assert (forall k, is_Some (task_at s k) -> is_Some (task_at (on_task s slot f) k)) as Hs.
  { intros k Hk. rewrite on_task_at by done. destruct (k =? slot); [by apply fmap_is_Some|done]. }
  assert (on_task s slot f = s <| tasks := tasks (on_task s slot f) |>) as He
    by (unfold on_task; destruct (task_at s slot), s; done).
  constructor; try (rewrite He; done); try by auto.
  - unfold on_task. destruct (task_at s slot); simpl; [by rewrite zlen_insert|done].
  - destruct Hid as (t & Ht & Hl). unfold idle_present. rewrite on_task_at, Ht by done. destruct (0 =? slot); [|by exists t].
    exists (f t). split; [done|]. by destruct (Hf t) as [_ ->].
  - intros k t. rewrite on_task_at by done. destruct (k =? slot); [|apply Hz].
    intros (u & Hu & ->)%fmap_Some. unfold leader_ok. destruct (Hf u) as [-> ->]. by apply Hz.
Qed.
(** ** Schedule *)

(** No entry is stale while the invariant holds, so a search changes only the
    entry it claims. *)
Lemma core_not_stale ex s k o :
  own_core ex s -> 1 <= k < 32 -> get (task_owner s) k = Some o -> stale s k o = false.
Proof.
  intros Hc Hk Ho. unfold stale. destruct (oc_owner _ _ Hc k o Hk Ho) as [-> |(? & _ & Hg & _)]; [done|].
  unfold task_slot_on_cpu. rewrite Hg. simpl. rewrite Z.eqb_refl. apply andb_false_r.
Qed.

Lemma core_unclaimed ex s r :
  own_core ex s -> 1 <= r < 32 -> available s r = true -> get (task_owner s) r = Some (-1) /\ is_Some (task_at s r).
Proof.
  intros Hc Hr Hav. unfold available in Hav. apply andb_true_iff in Hav as [Hcl Hav].
  destruct (get (task_owner s) r) as [o|] eqn:Ho; [|done]. rewrite (core_not_stale ex s r o) in Hav by done.
  rewrite orb_false_r in Hav. apply Z.eqb_eq in Hav as ->. split; [done|].
  unfold claimable in Hcl. by destruct (task_at s r).
Qed.

(** The boot CPU idles in task 0, the others outside every task. *)
Definition idles (cpu p : Z) : Prop := p = -1 \/ (p = 0 /\ cpu = 0).

(** After the outgoing task is released, the CPU takes what it claimed. *)
Lemma claim_core s s' cpu r p :
  own_core cpu s -> 0 <= cpu < 64 -> owners_after s s' cpu r ->
  (r = 0 /\ idles cpu p) \/ (1 <= r < 32 /\ p = r /\ available s r = true /\ get (task_owner s') r = Some cpu) ->
  own_core (-1) (set_current_task_slot s' cpu p).
Proof.
  intros Hc Hcpu (Heq & Hwf & Hk) Hr. pose proof Hc as [[H1 H2 H3 H4] Hid Hesp Ho Hs Hz].
  assert (forall k, task_at (set_current_task_slot s' cpu p) k = task_at s k) as Hta by (intros; rewrite Heq; done).
  assert (cpu_slot s' = cpu_slot s) as Hcs by (rewrite Heq; done).
  assert (forall k o, 1 <= k < 32 -> get (task_owner s) k = Some o ->
    get (task_owner s') k = Some (if (0 <? r) && (k =? r) then cpu else o)) as Hown.
  { intros k o Hkr Hg. destruct (Hk k o ltac:(lia) Hg) as [?|[Hst _]]; [done|].
    by rewrite (core_not_stale cpu s k o) in Hst. }
  assert (forall k q, k <> cpu -> get (set_cpu (cpu_slot s') cpu p) k = Some q -> get (cpu_slot s) k = Some q) as Hcg.
  { intros k q Hne. unfold set_cpu. rewrite Hcs, get_insert_ne by lia. done. }
  assert (get (set_cpu (cpu_slot s') cpu p) cpu = Some p) as Hcp by (unfold set_cpu; rewrite Hcs; apply get_insert_eq; lia).
  constructor.
  - destruct Hwf. constructor; try done. simpl. unfold set_cpu. by rewrite zlen_insert.
  - unfold idle_present. by rewrite Hta.
  - rewrite Heq. done.
  - intros k o' Hkr Hg. simpl in Hg |- *. rewrite Hta. destruct (get_in_range (task_owner s) k) as [o Hgo]; [lia|].
    rewrite (Hown k o Hkr Hgo) in Hg. injection Hg as <-. destruct (Z.ltb_spec 0 r); simpl.
    + destruct Hr as [[? _]|(Hrr & -> & Hav & _)]; [lia|]. destruct (Z.eqb_spec k r) as [->|Hne].
      * right. split_and!; try done; try lia. by apply (core_unclaimed cpu s r).
      * destruct (Ho k o Hkr Hgo) as [?|(? & Hoc & Hg & ?)]; [by left|right]. split_and!; try done; try lia.
        unfold set_cpu. by rewrite Hcs, get_insert_ne by lia.
    + destruct (Ho k o Hkr Hgo) as [?|(? & Hoc & Hg & ?)]; [by left|right]. split_and!; try done; try lia.
      unfold set_cpu. by rewrite Hcs, get_insert_ne by lia.
  - intros c q _ Hg. simpl in Hg |- *. destruct (Z.eq_dec c cpu) as [->|Hne].
    + rewrite Hcp in Hg. injection Hg as <-. destruct Hr as [[_ [?|?]]|(? & -> & _ & ?)]; auto.
    + specialize (Hcg c q Hne Hg). destruct (Hs c q Hne Hcg) as [?|[?|[Hq Hgq]]]; auto. right; right. split; [done|].
      rewrite (Hown q c Hq Hgq). f_equal. destruct (Z.ltb_spec 0 r); simpl; [|done].
      destruct (Z.eqb_spec q r) as [->|]; [|done]. destruct Hr as [[? _]|(Hrr & _ & Hav & _)]; [lia|].
      destruct (core_unclaimed cpu s r Hc Hq Hav) as [Hm _]. rewrite Hm in Hgq. injection Hgq as <-.
      apply get_Some_range in Hcg. lia.
  - intros k t. rewrite Hta. apply Hz.
Qed.

(** Releasing the task the CPU runs. *)
Lemma release_core s cpu p :
  own_core (-1) s -> get (cpu_slot s) cpu = Some p -> 1 <= p < 32 -> own_core cpu (set_owner s p (-1)).
Proof.
  intros [[H1 H2 H3 H4] Hid Hesp Ho Hs Hz] Hp Hpr. assert (0 <= cpu) by (apply get_Some_range in Hp; lia).
  constructor; try done; [by apply set_owner_wf; [constructor|lia]|..]; simpl.
  - intros k o Hk. rewrite get_insert by lia. destruct (Z.eqb_spec p k) as [<-|Hne]; [intros [= <-]; by left|].
    intros Hg. destruct (Ho k o Hk Hg) as [?|(? & _ & Hg' & ?)]; [by left|right]. split_and!; try done; try lia.
    intros ->. congruence.
  - intros c q Hne Hg. destruct (Hs c q) as [?|[?|[Hq Hgq]]]; auto; [apply get_Some_range in Hg; lia|].
    right; right. split; [done|]. rewrite get_insert_ne; [done|lia|]. intros ->.
    destruct (Hs cpu q ltac:(lia) Hp) as [?|[?|[_ ?]]]; [lia..|]. congruence.
Qed.

(** A CPU that idles owns nothing. *)
Lemma idle_core s cpu p :
  own_core (-1) s -> get (cpu_slot s) cpu = Some p -> p < 1 -> own_core cpu s.
Proof.
  intros [H1 Hid Hesp Ho Hs Hz] Hp Hpr. assert (0 <= cpu) by (apply get_Some_range in Hp; lia).
  constructor; try done.
  - intros k o Hk Hg. destruct (Ho k o Hk Hg) as [?|(? & _ & Hg' & ?)]; [by left|right]. split_and!; try done; try lia.
    intros ->. rewrite Hp in Hg'. injection Hg' as ->. lia.
  - intros c q Hne Hg. apply Hs; [|done]. apply get_Some_range in Hg. lia.
Qed.
(** What a CPU resumes: its current task in that task's address space, or its
    idle loop in the kernel's. *)
Definition runs_task s (cpu p frame : Z) : Prop :=
  exists t, task_at s p = Some t /\ state t = Running cpu /\ frame = cpu_state_ptr t /\
    get (cpu_cr3 s) cpu = Some (page_dir_phys t).
Definition dispatched (kernel_pd : Z) s (cpu frame : Z) : Prop :=
  exists p, get (cpu_slot s) cpu = Some p /\
  ((p = -1 /\ 0 < cpu /\ get (cpu_cr3 s) cpu = Some kernel_pd) \/ (0 <= p < 32 /\ runs_task s cpu p frame)).

Definition start_running (cpu : Z) (t : Task) : Task := t <| state := Running cpu |>.

(** Entering a task marks it running; the order of the two does not matter. *)
Lemma enter_ok s cpu p :
  own_core (-1) s -> 0 <= cpu < 64 -> 0 <= p < 32 -> is_Some (task_at s p) ->
  exists frame s', enter_task (on_task s p (start_running cpu)) cpu p = Ret (frame, s') /\
    enter_task s cpu p = Ret (frame, set_current_cr3 (s <| cpu_esp0 := cpu_esp0 s' |>) cpu (default 0 (get (cpu_cr3 s') cpu))) /\
    s' = on_task (set_current_cr3 (s <| cpu_esp0 := cpu_esp0 s' |>) cpu (default 0 (get (cpu_cr3 s') cpu))) p (start_running cpu) /\
    keeps s s' /\ runs_task s' cpu p frame.
Proof.
  intros Hc Hcpu Hp [t Ht]. pose proof (keeps_on _ s p (start_running cpu) Hc (fun _ => conj eq_refl eq_refl)) as Hk.
  pose proof (oc_wf _ _ Hc) as [H1 _ _ _]. pose proof (oc_esp _ _ Hc) as [_ Hcr].
  assert (task_at (on_task s p (start_running cpu)) p = Some (start_running cpu t)) as Ht'
    by (rewrite on_task_at, Z.eqb_refl, Ht by done; done).
  assert (on_task s p (start_running cpu) = put_task s p (Some (start_running cpu t))) as Hon by (unfold on_task; by rewrite Ht).
  set (s1 := on_task s p (start_running cpu)) in *. unfold enter_task at 1. rewrite Ht'. simpl.
  assert (get (set_cpu (cpu_cr3 s1) cpu (page_dir_phys t)) cpu = Some (page_dir_phys t)) as Hg
    by (unfold set_cpu; apply get_insert_eq; rewrite Hon; simpl; lia).
  eexists _, _. split; [reflexivity|]. simpl. rewrite Hg. simpl. unfold enter_task. rewrite Ht. simpl.
  split; [by rewrite Hon|]. split; [|split].
  - unfold on_task at 1. unfold set_current_cr3, task_at. simpl. fold (task_at s p). rewrite Ht, Hon. done.
  - destruct Hk as [K1 K2 K3 K4 K5 K6 K7 K8]. constructor; try done. simpl. unfold set_cpu. rewrite zlen_insert. done.
  - exists (start_running cpu t). split_and!; done.
Qed.
Lemma wake_same t : zombie (wake t) = zombie t /\ leader_slot (wake t) = leader_slot t.
Proof. done. Qed.

Lemma keeps_trans s1 s2 s3 : keeps s1 s2 -> keeps s2 s3 -> keeps s1 s3.
Proof.
  intros [A1 A2 A3 [A4 A4'] [A5 A5'] A6 A7 A8] [B1 B2 B3 [B4 B4'] [B5 B5'] B6 B7 B8].
  constructor; try done; try congruence; [split; congruence..|].
  intros slot Hs Hu Ht. apply B7; [done| |by apply A7]. unfold unowned in *. by rewrite A2.
Qed.

Lemma keeps_wake_waiters ex s r : own_core ex s -> keeps s (wake_waiters_tasks r s).
Proof. intros Hc. eapply keeps_map; [done|]. intros t. by destruct (is_blocked_on r t). Qed.

Lemma keeps_wake_leave ex s :
  own_core ex s -> keeps s (wake_waiters_tasks Thread (wake_waiters_tasks Child s)).
Proof.
  intros Hc. pose proof (keeps_wake_waiters _ _ Child Hc) as Hk. eapply keeps_trans; [done|].
  eapply keeps_wake_waiters, keeps_core; done.
Qed.

Lemma keeps_timers ex s now : own_core ex s -> keeps s (wake_expired_timers s now).
Proof.
  intros Hc. set (s1 := s <| cpu_states := foldl (timeout_result now) (cpu_states s) (tasks s) |>).
  assert (keeps s s1) as H1 by (destruct Hc as [[] ? ? ? ? ?]; by constructor).
  eapply keeps_trans; [exact H1|]. eapply (keeps_map ex); [by eapply keeps_core|].
  intros t. unfold wake_expired. destruct (expired now t); [|done]. by destruct (state t) as [| | |[]| |].
Qed.

Lemma save_same f t : zombie (save_task f t) = zombie t /\ leader_slot (save_task f t) = leader_slot t.
Proof. unfold save_task. simpl. by destruct (running t). Qed.

(** The outgoing halves. *)
Lemma leave_current_ok s frame :
  own_inv s -> exists s1, leave_current s frame = Ret s1 /\ own_core 0 s1 /\
    current_task s1 = current_task s /\ first_switch s1 = first_switch s.
Proof.
  intros [Hc (B1 & B2 & B3)]. unfold leave_current. rewrite (proj2 (Z.ltb_ge _ _)) by lia.
  pose proof (keeps_on _ s (current_task s) (save_task frame) Hc (save_same frame)) as Hk.
  set (s1 := on_task s (current_task s) (save_task frame)) in *. destruct (kp_boot _ _ Hk) as [K1 K2]. rewrite K1.
  assert (own_core (-1) s1) as Hc1 by (by eapply keeps_core).
  assert (get (cpu_slot s1) 0 = Some (current_task s)) as Hb by (by rewrite (kp_cpu _ _ Hk)).
  destruct (Z.ltb_spec 0 (current_task s)).
  - rewrite upd_in_range by (rewrite (sw_owner _ (oc_wf _ _ Hc1)); lia).
    exists (wake_waiters_tasks Thread (wake_waiters_tasks Child (set_owner s1 (current_task s) (-1)))). split; [reflexivity|].
    assert (own_core 0 (set_owner s1 (current_task s) (-1))) as Hr by (apply release_core; [done|done|lia]).
    pose proof (keeps_wake_leave _ _ Hr) as Hw. destruct (kp_boot _ _ Hw) as [W1 W2].
    split_and!; [by eapply keeps_core|by rewrite W1|by rewrite W2].
  - exists s1. split_and!; try done. apply (idle_core s1 0 (current_task s)); [done|done|lia].
Qed.

Lemma leave_ap_ok s cpu frame :
  own_inv s -> 0 < cpu < 64 -> exists s1, leave_ap s cpu frame = Ret s1 /\ own_core cpu s1 /\
    cpu_slot s1 = cpu_slot s /\ current_task s1 = current_task s /\ first_switch s1 = first_switch s.
Proof.
  intros [Hc _] Hcpu. destruct (get_in_range (cpu_slot s) cpu) as [p Hp]; [by rewrite (sw_cpus _ (oc_wf _ _ Hc)); lia|].
  unfold leave_ap, task_slot_on_cpu. rewrite Hp. simpl.
  destruct (oc_cpu _ _ Hc cpu p ltac:(lia) Hp) as [-> |[?|[Hpr Hown]]]; [|lia|].
  - simpl. eexists. split; [reflexivity|]. split_and!; try done. apply (idle_core _ cpu (-1)); [|done|lia].
    destruct Hc as [[] ? [] ? ? ?]. constructor; try done. simpl. unfold set_cpu. by rewrite zlen_insert.
  - rewrite (proj2 (Z.ltb_ge _ _)) by lia.
    destruct (oc_owner _ _ Hc p cpu Hpr Hown) as [?|(_ & _ & _ & [t Ht])]; [lia|]. rewrite Ht.
    pose proof (keeps_on _ s p (save_task frame) Hc (save_same frame)) as Hk.
    set (s1 := on_task s p (save_task frame)) in *. assert (own_core (-1) s1) as Hc1 by (by eapply keeps_core).
    rewrite upd_in_range by (rewrite (sw_owner _ (oc_wf _ _ Hc1)); lia).
    exists (wake_waiters_tasks Thread (wake_waiters_tasks Child (set_owner s1 p (-1)))). split; [reflexivity|].
    assert (own_core cpu (set_owner s1 p (-1))) as Hr by (apply release_core; [done|by rewrite (kp_cpu _ _ Hk)|lia]).
    pose proof (keeps_wake_leave _ _ Hr) as Hw. destruct (kp_boot _ _ Hw) as [W1 W2]. destruct (kp_boot _ _ Hk) as [K1 K2].
    split_and!; [by eapply keeps_core|by rewrite (kp_cpu _ _ Hw); apply (kp_cpu _ _ Hk)|by rewrite W1|by rewrite W2].
Qed.

(** The incoming half on the boot CPU: [r] was claimed. *)
Lemma boot_enter_ok kernel_pd s s2 r :
  own_core 0 s -> owners_after s s2 0 r -> first_switch s2 = false -> 0 <= r < 32 ->
  (1 <= r -> available s r = true /\ get (task_owner s2) r = Some 0) ->
  let s3 := set_current_task_slot (s2 <| current_task := r |>) 0 r in
  exists frame s4, enter_task (on_task s3 r (start_running 0)) 0 r = Ret (frame, s4) /\
    enter_task s3 0 r = Ret (frame, set_current_cr3 (s3 <| cpu_esp0 := cpu_esp0 s4 |>) 0 (default 0 (get (cpu_cr3 s4) 0))) /\
    s4 = on_task (set_current_cr3 (s3 <| cpu_esp0 := cpu_esp0 s4 |>) 0 (default 0 (get (cpu_cr3 s4) 0))) r (start_running 0) /\
    own_inv s4 /\ dispatched kernel_pd s4 0 frame.
Proof.
  intros Hc Haft Hf Hr Hcl s3. pose proof Haft as (Heq & _).
  assert (own_core (-1) (set_current_task_slot s2 0 r)) as Hc3.
  { apply (claim_core s s2 0 r r); [done|lia|done|]. destruct (Z.eq_dec r 0) as [->|]; [left; split; [done|by right]|].
    right. destruct Hcl; [lia|]. split_and!; try done; lia. }
  assert (own_core (-1) s3) as Hc3' by (destruct Hc3 as [[] ? ? ? ? ?]; by constructor).
  assert (is_Some (task_at s3 r)) as Hsome.
  { destruct (Z.eq_dec r 0) as [->|]; [destruct (oc_idle _ _ Hc3') as (t & Ht & _); by exists t|]. destruct (core_unclaimed 0 s r Hc) as [_ Ht]; [lia|by apply Hcl; lia|].
    subst s3. rewrite Heq. done. }
  destruct (enter_ok s3 0 r Hc3' ltac:(lia) Hr Hsome) as (frame & s4 & E1 & E2 & E3 & Hk & Hrun).
  assert (get (cpu_slot s4) 0 = Some r) as Hslot.
  { rewrite (kp_cpu _ _ Hk). subst s3. simpl. unfold set_cpu. apply (get_insert_eq (cpu_slot s2) 0 r).
    pose proof (sw_cpus _ (oc_wf _ _ Hc3')) as Hl. simpl in Hl. unfold set_cpu in Hl. rewrite zlen_insert in Hl. lia. }
  exists frame, s4. split_and!; try done.
  - constructor; [by eapply keeps_core|]. destruct (kp_boot _ _ Hk) as [-> ->]. split; [by rewrite Hslot|]. split; [done|].
    subst s3. simpl. by rewrite Hf.
  - exists r. split; [done|]. right. done.
Qed.
Lemma core_set_first ex s : own_core ex s -> own_core ex (s <| first_switch := false |> <| current_task := 0 |>).
Proof. intros [[] ? ? ? ? ?]. by constructor. Qed.

Lemma schedule_first_ok kernel_pd s :
  own_inv s -> first_switch s = true ->
  exists frame s', schedule_first s = Ret (frame, s') /\ own_inv s' /\ dispatched kernel_pd s' 0 frame.
Proof.
  intros [Hc (B1 & B2 & B3)] Hf. unfold schedule_first.
  assert (own_core 0 (s <| first_switch := false |> <| current_task := 0 |>)) as Hc0
    by (apply core_set_first, (idle_core s 0 (current_task s)); [done|done|rewrite B3 by done; lia]).
  set (s0 := s <| first_switch := false |> <| current_task := 0 |>) in *.
  destruct (claim_next_ok s0 0 0 (oc_wf _ _ Hc0)) as (r & s2 & -> & Haft & Hr); [lia..|]. rewrite bind_Ret_l.
  assert (current_task s2 = 0 /\ first_switch s2 = false) as [Hct Hfs] by (destruct Haft as (-> & _); done).
  destruct (boot_enter_ok kernel_pd s0 s2 r) as (frame & s4 & _ & E2 & E3 & Hinv & Hd); try done;
    [lia|intros; destruct Hr as [[? _]|(_ & ? & ? & _)]; [lia|done]|].
  assert ((if r =? 0 then s2 else s2 <| current_task := r |>) = s2 <| current_task := r |>) as ->.
  { destruct (Z.eqb_spec r 0) as [->|]; [|done]. rewrite <- Hct. by destruct s2. }
  change (current_task (set_current_task_slot (s2 <| current_task := r |>) 0 (current_task (s2 <| current_task := r |>)))) with r.
  change (current_task (s2 <| current_task := r |>)) with r. rewrite E2, bind_Ret_l.
  exists frame, s4. split; [|done]. f_equal. f_equal. symmetry. exact E3.
Qed.

Lemma on_task_current s slot f : current_task (on_task s slot f) = current_task s.
Proof. unfold on_task. by destruct (task_at s slot). Qed.

Lemma schedule_next_ok kernel_pd s frame0 :
  own_inv s -> first_switch s = false ->
  exists frame s', schedule_next s frame0 = Ret (frame, s') /\ own_inv s' /\ dispatched kernel_pd s' 0 frame.
Proof.
  intros Hi Hf. unfold schedule_next. destruct (leave_current_ok s frame0 Hi) as (s1 & -> & Hc1 & Hct & Hfs).
  rewrite bind_Ret_l. pose proof (oi_boot _ Hi) as (B1 & B2 & _).
  destruct (claim_next_ok s1 0 (current_task s1) (oc_wf _ _ Hc1)) as (r & s2 & -> & Haft & Hr); [lia..|]. rewrite bind_Ret_l.
  assert (0 <= r < 32) as Hrr by lia.
  assert (first_switch s2 = false) as Hf2 by (destruct Haft as (-> & _); simpl; congruence).
  assert (forall b : bool, (r = 0 \/ b = true) -> (if (r <? 0) || negb b then 0 else r) = r) as Hsel.
  { intros b Hb. rewrite (proj2 (Z.ltb_ge _ _)) by lia. simpl. destruct b; [done|]. simpl. destruct Hb; [lia|done]. }
  rewrite Hsel.
  - destruct (boot_enter_ok kernel_pd s1 s2 r) as (frame & s4 & E1 & _ & _ & Hinv & Hd); try done;
      [intros; destruct Hr as [[? _]|(_ & ? & ? & _)]; [lia|done]|].
    exists frame, s4. split; [|done]. rewrite on_task_current. exact E1.
  - destruct Hr as [[-> _]|(Hr & Hav & _)]; [by left|right]. apply andb_true_iff in Hav as [Hcl _]. destruct Haft as (-> & _).
    unfold claimable in Hcl. unfold task_at in *. simpl. destruct (mjoin _); [|done]. by destruct (running t).
Qed.

Lemma schedule_ap_ok kernel_pd s cpu frame0 :
  own_inv s -> 0 < cpu < 64 ->
  exists frame s', schedule_ap kernel_pd s cpu frame0 = Ret (frame, s') /\ own_inv s' /\ dispatched kernel_pd s' cpu frame.
Proof.
  intros Hi Hcpu. unfold schedule_ap. destruct (leave_ap_ok s cpu frame0 Hi Hcpu) as (s1 & -> & Hc1 & Hcs & Hct & Hfs).
  rewrite bind_Ret_l. pose proof Hi as [Hc (B1 & B2 & B3)]. set (prev := task_slot_on_cpu s cpu).
  assert (-1 <= prev < 32) as Hprev.
  { unfold prev, task_slot_on_cpu. destruct (get (cpu_slot s) cpu) as [q|] eqn:Hq; simpl; [|lia].
    destruct (oc_cpu _ _ Hc cpu q ltac:(lia) Hq) as [?|[?|?]]; lia. }
  destruct (claim_next_ok s1 cpu prev (oc_wf _ _ Hc1)) as (r & s2 & -> & Haft & Hr); [lia|done|]. rewrite bind_Ret_l.
  assert (forall p, own_core (-1) (set_current_task_slot s2 cpu p) -> own_inv (set_current_task_slot s2 cpu p) /\
    get (cpu_slot (set_current_task_slot s2 cpu p)) cpu = Some p) as Hinv.
  { intros p Hcp. destruct Haft as (Heq & _). rewrite Heq in Hcp |- *. simpl. unfold set_cpu. rewrite Hcs.
    pose proof (sw_cpus _ (oc_wf _ _ Hc)). split; [|apply get_insert_eq; lia]. constructor; [exact Hcp|]. simpl.
    unfold set_cpu. rewrite Hcs, Hct, Hfs. by rewrite get_insert_ne by lia. }
  destruct Hr as [[-> _]|(Hr & Hav & Hg & _)].
  - destruct (Hinv (-1)) as [[Hci Hb] Hslot]; [apply (claim_core s1 s2 cpu 0); [done|lia|done|left; split; [done|by left]]|].
    simpl. pose proof (oc_esp _ _ Hci) as [He Hcr]. simpl in He, Hcr.
    destruct (get_in_range (idle_esp s2) cpu) as [e He']; [lia|]. rewrite (proj2 (idx_Ret _ _ _) He'). simpl.
    eexists _, _. split; [reflexivity|]. split.
    + constructor; [|exact Hb]. destruct Hci as [[] ? [] ? ? ?]. constructor; try done. simpl. unfold set_cpu. by rewrite zlen_insert.
    + exists (-1). split; [exact Hslot|]. left. split_and!; [done|lia|]. simpl. unfold set_cpu. apply get_insert_eq. lia.
  - rewrite (proj2 (Z.leb_gt _ _)) by lia.
    destruct (Hinv r) as [Hi3 Hslot]; [apply (claim_core s1 s2 cpu r); [done|lia|done|right; split_and!; try done; lia]|].
    destruct (enter_ok _ cpu r (oi_core _ Hi3) ltac:(lia) ltac:(lia)) as (frame & s4 & E1 & _ & _ & Hk & Hrun).
    { destruct (core_unclaimed cpu s1 r Hc1) as [_ Ht]; [lia|done|]. destruct Haft as (-> & _). exact Ht. }
    exists frame, s4. split; [exact E1|]. split; [by eapply keeps_inv|]. exists r. split; [by rewrite (kp_cpu _ _ Hk)|].
    right. split; [lia|done].
Qed.

(** A tick never fails, keeps the ownership invariant, and resumes the task it
    chose. *)
Lemma schedule_ok kernel_pd s cpu frame0 now :
  own_inv s -> 0 <= cpu < 64 ->
  exists frame s', schedule kernel_pd s cpu frame0 now = Ret (frame, s') /\ own_inv s' /\ dispatched kernel_pd s' cpu frame.
Proof.
  intros Hi Hcpu. unfold schedule. assert (own_inv (wake_expired_timers s now)) as Hi1
    by (eapply keeps_inv; [done|]; eapply keeps_timers, oi_core; done).
  destruct (Z.eqb_spec cpu 0) as [->|]; simpl; [|apply schedule_ap_ok; [done|lia]].
  destruct (oc_idle _ _ (oi_core _ Hi1)) as (t & -> & _). change (first_switch (wake_expired_timers s now)) with (first_switch s).
  destruct (first_switch s) eqn:Hf.
  - by apply schedule_first_ok.
  - by apply schedule_next_ok.
Qed.
(** The search for the next task is total and exact: it claims the first
    slot, in the cyclic order after the given one, whose task can run and that
    no CPU has (an owner entry is ignored when that CPU runs something else);
    it returns 0 exactly when there is none.  Apart from the claimed slot it
    changes nothing but stale owner entries, which it clears. *)
Theorem claim_next_exact s cpu after :
  sched_wf s -> -1 <= cpu -> -1 <= after < 32 ->
  exists r s', claim_next_task s cpu after = Ret (r, s') /\ owners_after s s' cpu r /\
  ((r = 0 /\ forall k, 1 <= k <= 31 -> available s k = false) \/
   1 <= r <= 31 /\ available s r = true /\ get (task_owner s') r = Some cpu /\
   forall k, 1 <= k <= 31 -> available s k = true -> (r - first_visit after) mod 31 <= (k - first_visit after) mod 31).
Proof. apply claim_next_ok. Qed.
End Claim.

(** ** Witnesses *)

(** Slots 3 and 7 can run; slot 3 is recorded as running on CPU 2, which in
    fact idles, and the search on CPU 1 starts after slot 7. *)
Definition wit_memory : Sh unit := mkSh [] (mkFA 0x2800 []) ∅ tt.
Definition wit_task : Task := task_init 0xC0100000 0x100000 0 false <| running := true |> <| state := Runnable |>.
Definition wit_sched : Sched unit :=
  sched_static wit_memory
    <| tasks := <[7%nat := Some wit_task]> (<[3%nat := Some wit_task]> (replicate 32 None)) |>
    <| task_owner := <[3%nat := 2]> (<[7%nat := 1]> (replicate 32 (-1))) |>
    <| cpu_slot := <[1%nat := 7]> (replicate 64 (-1)) |>.

Lemma claim_next_exact_witness :
  exists s', claim_next_task wit_sched 1 7 = Ret (3, s') /\ get (task_owner s') 3 = Some 1.
Proof.
  destruct (claim_next_exact wit_sched 1 7) as (r & s' & Hrun & _ & [[-> Hno]|(Hr & Hav & Hg & _)]).
  - constructor; [done..|]. apply Forall_forall. intros o Ho. repeat (apply elem_of_cons in Ho as [-> |Ho]; [lia|]).
    by apply not_elem_of_nil in Ho.
  - lia.
  - lia.
  - specialize (Hno 3 ltac:(lia)). by vm_compute in Hno.
  - exists s'. assert (r = 3) as ->; [|split; [exact Hrun|exact Hg]].
    assert (forallb (fun k => negb (available wit_sched k) || (k =? 3)) (seqZ 1 31) = true) as Hall by (by vm_compute).
    rewrite forallb_forall in Hall. specialize (Hall r). rewrite Hav in Hall. cbn [negb orb] in Hall.
    apply Z.eqb_eq, Hall, list_elem_of_In, elem_of_seqZ. lia.
Defined.
