(* ===== verification/Reap.v ===== *)
(** * Reaping tasks

    Proofs about [release_memory], [reap] and the other operations of
    [kernel/src/multitasking/task.rs] that free or create tasks, and the
    ownership invariant over every run of the scheduler. *)

From S2P Require Import Prelude Wait Frames Paging SharedPages Task Schedule.

(** ** Releasing memory *)

Section ReleaseProofs.
  Context {F : Type} `{!FileStore F}.
  Variable (shootdown_tlb : Z -> Z -> bool).
  Implicit Types (m : Sh F) (s : Sched F) (t : Task).

Definition mem_ok m : Prop := map_Forall (fun _ page => zlen page = 1024) (sh_mem m).

(** The page tables a directory names exist, where the kernel reaches them. *)
Definition dir_ok m (pd : Z) : Prop :=
  forall i e, get (dir (vm_of m pd)) i = Some e -> is_small e ->
    is_Some (sh_mem m !! table_of e) /\ through_alias (table_of e) = Ret ().

(** Releasing only clears entries. *)
Record mem_le m m' : Prop := {
  ml_ok : mem_ok m';
  ml_dom : forall p, is_Some (sh_mem m !! p) -> is_Some (sh_mem m' !! p);
  ml_dir : forall pd i e, get (dir (vm_of m' pd)) i = Some e -> e = 0 \/ get (dir (vm_of m pd)) i = Some e
}.

Lemma mem_le_same m m' : mem_ok m -> sh_mem m' = sh_mem m -> mem_le m m'.
Proof.
  intros Ho He. constructor; [by unfold mem_ok; rewrite He|by rewrite He|].
  intros pd i e. unfold vm_of. rewrite He. by right.
Qed.

Lemma mem_le_trans m1 m2 m3 : mem_le m1 m2 -> mem_le m2 m3 -> mem_le m1 m3.
Proof.
  intros [A1 A2 A3] [B1 B2 B3]. constructor; [done|auto|]. intros pd i e He.
  destruct (B3 pd i e He) as [?|?]; [by left|]. by apply A3.
Qed.

Lemma small_0 : ~ is_small 0.
Proof. by intros [? _]. Qed.

Lemma dir_ok_le m m' pd : mem_le m m' -> dir_ok m pd -> dir_ok m' pd.
Proof.
  intros [_ H2 H3] Hd i e He Hs. destruct (H3 pd i e He) as [-> |Hi]; [by destruct small_0|]. destruct (Hd i e Hi Hs). by auto.
Qed.

Lemma dir_length m pd : mem_ok m -> zlen (dir (vm_of m pd)) = 1024.
Proof.
  intros Ho. unfold vm_of. simpl. destruct (sh_mem m !! pd) eqn:E; simpl; [by apply (Ho pd)|].
  unfold zero_page. by rewrite zlen_replicate.
Qed.

(** Storing a page that only clears entries of the one it replaces. *)
Lemma mem_le_store m p page :
  mem_ok m -> zlen page = 1024 ->
  (forall i e, get page i = Some e -> e = 0 \/ get (default zero_page (sh_mem m !! p)) i = Some e) ->
  mem_le m (m <| sh_mem := <[p := page]> (sh_mem m) |>).
Proof.
  intros Ho Hl He. constructor; simpl.
  - apply map_Forall_insert_2; done.
  - intros q Hq. destruct (decide (q = p)) as [->|]; [by rewrite lookup_insert_eq|by rewrite lookup_insert_ne].
  - intros pd i e. destruct (decide (pd = p)) as [->|]; [rewrite lookup_insert_eq; apply He|].
    rewrite lookup_insert_ne by done. by right.
Qed.

Lemma mem_le_ok m m' : mem_le m m' -> mem_ok m'.
Proof. by intros []. Qed.

Lemma mem_le_vm m1 m2 fr : mem_le m1 m2 -> mem_le m1 (m2 <| sh_frames := fr |>).
Proof. intros H. eapply mem_le_trans; [exact H|]. apply mem_le_same; [by eapply mem_le_ok|done]. Qed.

Lemma get_insert_zero (page : list Z) j i e :
  0 <= j -> get (<[Z.to_nat j := 0]> page) i = Some e -> e = 0 \/ get page i = Some e.
Proof.
  intros Hj. destruct (Z.eq_dec i j) as [->|]; [|rewrite get_insert_ne by lia; by right].
  intros Hg. pose proof (get_Some_range _ _ _ Hg) as Hr. rewrite zlen_insert in Hr. rewrite get_insert_eq in Hg by done.
  injection Hg as <-. by left.
Qed.

Lemma release_user_frame_mem m f : sh_mem (release_user_frame m f) = sh_mem m.
Proof.
  unfold release_user_frame, release_shared_frame. destruct (vec_position _ _); [|done].
  destruct (get _ _); [|done]. by destruct (1 <? sp_refs _).
Qed.

Lemma pt_index_range v : 0 <= pt_index_of v < 1024.
Proof.
  unfold pt_index_of. change 0x3FF with (Z.ones 10). rewrite Z.land_ones by lia.
  pose proof (Z.mod_pos_bound (Z.shiftr v 12) (2 ^ 10)). lia.
Qed.

Lemma pd_index_range v : in_u32 v -> 0 <= pd_index_of v < 1024.
Proof. unfold in_u, pd_index_of. intros. rewrite Z.shiftr_div_pow2 by lia. change (2 ^ 22) with 4194304. mlia. Qed.

Lemma translate_total m pd v : mem_ok m -> dir_ok m pd -> in_u32 v -> exists r, translate (vm_of m pd) v = Ret r.
Proof.
  intros Ho Hd Hv. unfold translate. pose proof (pd_index_range v Hv) as Hi.
  destruct (get_in_range (dir (vm_of m pd)) (pd_index_of v)) as [e He]; [by rewrite dir_length|].
  rewrite (proj2 (idx_Ret _ _ _) He), bind_Ret_l. destruct (has e PRESENT) eqn:Hp; simpl; [|by eexists].
  destruct (has e DIR_PAGE_SIZE) eqn:Hl; [by eexists|]. destruct (Hd _ e He (conj Hp Hl)) as [[page Hpg] Ha].
  unfold pt_read. rewrite Ha, bind_Ret_l. simpl. rewrite Hpg. simpl. pose proof (pt_index_range v) as Hj.
  destruct (get_in_range page (pt_index_of v)) as [x Hx]; [by rewrite (Ho _ _ Hpg)|].
  rewrite (proj2 (idx_Ret _ _ _) Hx). simpl. destruct (has x PRESENT); by eexists.
Qed.

Lemma unmap_total m pd v : mem_ok m -> dir_ok m pd -> in_u32 v ->
  exists vm, unmap (vm_of m pd) v = Ret vm /\ mem_le m (put_vm m pd vm).
Proof.
  intros Ho Hd Hv. unfold unmap, put_vm. pose proof (pd_index_range v Hv) as Hi. pose proof (pt_index_range v) as Hj.
  rewrite (proj2 (Z.leb_gt _ _)) by (unfold ENTRIES; lia). pose proof (dir_length m pd Ho) as Hlen.
  destruct (get_in_range (dir (vm_of m pd)) (pd_index_of v)) as [e He]; [by rewrite Hlen|].
  rewrite (proj2 (idx_Ret _ _ _) He), bind_Ret_l.
  assert (forall m', mem_le m m' -> default zero_page (sh_mem m' !! pd) = default zero_page (sh_mem m !! pd) ->
    mem_le m (m' <| sh_mem := <[pd := dir (vm_of m pd)]> (sh_mem m') |>)) as Hput.
  { intros m' Hm Hsame. eapply mem_le_trans; [exact Hm|]. apply mem_le_store; [by eapply mem_le_ok|done|].
    intros i x Hx. right. by rewrite Hsame. }
  destruct (has e PRESENT) eqn:Hp; simpl.
  2:{ eexists. split; [reflexivity|]. apply mem_le_vm. apply (Hput m); [by apply mem_le_same|done]. }
  destruct (has e DIR_PAGE_SIZE) eqn:Hl.
  - unfold set_pde. rewrite upd_in_range by lia. rewrite bind_Ret_l. eexists. split; [reflexivity|]. apply mem_le_vm.
    change (mem_le m (m <| sh_mem := <[pd := <[Z.to_nat (pd_index_of v) := 0]> (dir (vm_of m pd))]> (sh_mem m) |>)).
    apply mem_le_store; [done|by rewrite zlen_insert|]. intros i x. apply get_insert_zero. lia.
  - destruct (Hd _ e He (conj Hp Hl)) as [[page Hpg] Ha]. unfold pt_write. rewrite Ha, bind_Ret_l. simpl. rewrite Hpg. simpl.
    rewrite upd_in_range by (rewrite (Ho _ _ Hpg); lia). simpl. eexists. split; [reflexivity|]. apply mem_le_vm. simpl.
    destruct (decide (table_of e = pd)) as [->|Hne].
    + rewrite insert_insert_eq. apply (Hput m); [by apply mem_le_same|done].
    + refine (Hput (m <| sh_mem := <[table_of e := <[Z.to_nat (pt_index_of v) := 0]> page]> (sh_mem m) |>) _ _).
      * apply mem_le_store; [done|by rewrite zlen_insert, (Ho _ _ Hpg)|]. rewrite Hpg. intros i x. apply get_insert_zero. lia.
      * simpl. by rewrite lookup_insert_ne.
Qed.
Lemma release_stack_page_total pd addr m :
  mem_ok m -> dir_ok m pd -> in_u32 addr ->
  exists m', release_stack_page shootdown_tlb pd addr m = Ret m' /\ mem_le m m'.
Proof.
  intros Ho Hd Hu. unfold release_stack_page. destruct (translate_total m pd addr Ho Hd Hu) as [r ->]. rewrite bind_Ret_l.
  destruct r as [phys|]; [|exists m; split; [done|by apply mem_le_same]].
  destruct (unmap_total m pd addr Ho Hd Hu) as (vm & -> & Hle). rewrite bind_Ret_l. eexists. split; [reflexivity|].
  destruct (shootdown_tlb pd addr); [|done]. eapply mem_le_trans; [exact Hle|].
  apply mem_le_same; [by eapply mem_le_ok|by rewrite release_user_frame_mem].
Qed.

Lemma release_stack_pages_total n : forall pd addr m,
  mem_ok m -> dir_ok m pd -> 0 <= addr -> addr + Z.of_nat n * 4096 < 2 ^ 32 ->
  exists m', release_stack_pages shootdown_tlb n pd addr m = Ret m' /\ mem_le m m'.
Proof.
  induction n as [|n IH]; intros pd addr m Ho Hd Ha Hb; [exists m; split; [done|by apply mem_le_same]|].
  cbn [release_stack_pages]. destruct (release_stack_page_total pd addr m Ho Hd) as (m1 & -> & Hm1); [unfold in_u; lia|].
  rewrite bind_Ret_l, add_u_Ret, bind_Ret_l by lia.
  destruct (IH pd (addr + 4096) m1) as (m2 & -> & Hm2); [by eapply mem_le_ok|by eapply dir_ok_le|lia..|].
  exists m2. split; [done|by eapply mem_le_trans].
Qed.

Lemma release_table_mem m p : sh_mem (release_table m p) = sh_mem m.
Proof.
  unfold release_table, free_frame. simpl. generalize (default zero_page (sh_mem m !! p)). intros l.
  revert m. induction l as [|x l IH]; intros m; [done|]. simpl. rewrite IH.
  destruct (has x PRESENT); [apply release_user_frame_mem|done].
Qed.

Lemma release_entry_total pd index m :
  mem_ok m -> 0 <= index < 1024 -> exists m', release_entry pd index m = Ret m' /\ mem_le m m'.
Proof.
  intros Ho Hi. unfold release_entry.
  destruct (get_in_range (dir (vm_of m pd)) index) as [e He]; [rewrite dir_length by done; lia|].
  rewrite (proj2 (idx_Ret _ _ _) He), bind_Ret_l.
  assert (exists m', Ret m = Ret m' /\ mem_le m m') as Hsame by (exists m; split; [done|by apply mem_le_same]).
  destruct (_ || _); [done|]. destruct (negb _); [done|].
  set (m0 := release_table m (table_of e)). cbv zeta.
  assert (mem_le m m0) as H0 by (apply mem_le_same; [done|apply release_table_mem]).
  pose proof (mem_le_ok _ _ H0) as Ho0. rewrite upd_in_range by (rewrite dir_length by done; lia). rewrite bind_Ret_l.
  eexists. split; [reflexivity|]. eapply mem_le_trans; [exact H0|].
  apply mem_le_store; [done|by rewrite zlen_insert, dir_length|]. intros i x. apply get_insert_zero. lia.
Qed.

Lemma release_tables_total n : forall pd index m,
  mem_ok m -> 0 <= index -> index + Z.of_nat n <= 1024 ->
  exists m', release_tables n pd index m = Ret m' /\ mem_le m m'.
Proof.
  induction n as [|n IH]; intros pd index m Ho Hi Hb; [exists m; split; [done|by apply mem_le_same]|].
  cbn [release_tables]. destruct (release_entry_total pd index m Ho) as (m1 & -> & Hm1); [lia|].
  rewrite bind_Ret_l. destruct (IH pd (index + 1) m1) as (m2 & -> & Hm2); [by eapply mem_le_ok|lia..|].
  exists m2. split; [done|by eapply mem_le_trans].
Qed.

Lemma release_kernel_stack_total base m :
  mem_ok m -> KERNEL_OFFSET <= base -> exists m', release_kernel_stack base m = Ret m' /\ mem_le m m'.
Proof.
  intros Ho Hb. unfold release_kernel_stack, sub_u. rewrite (proj2 (Z.leb_le _ _)) by done. rewrite bind_Ret_l.
  eexists. split; [reflexivity|]. apply mem_le_same; [done|]. generalize (seqZ 0 (STACK_SIZE / 4096)). intros l.
  revert m Ho. induction l as [|x l IH]; intros m Ho; [done|]. simpl. by rewrite IH.
Qed.

(** A task whose memory can be released: a kernel stack in the direct map, and
    for a thread a user stack below the kernel whose page tables exist. *)
Definition task_ok m t : Prop :=
  KERNEL_OFFSET <= stack_base t /\
  (is_thread t = true ->
   0 <= user_stack_bottom t <= KERNEL_OFFSET /\ user_stack_top t <= KERNEL_OFFSET /\ dir_ok m (page_dir_phys t)).

Lemma task_ok_le m m' t : mem_le m m' -> task_ok m t -> task_ok m' t.
Proof. intros Hm [? Ht]. split; [done|]. intros Hi. destruct (Ht Hi) as (? & ? & ?). split_and!; try done; try lia. by eapply dir_ok_le. Qed.

Lemma release_memory_total t m :
  mem_ok m -> task_ok m t -> exists m', release_memory shootdown_tlb t m = Ret m' /\ mem_le m m'.
Proof.
  intros Ho [Hs Ht]. unfold release_memory. destruct (is_thread t).
  - destruct (Ht eq_refl) as (Hb & Htop & Hd). unfold KERNEL_OFFSET in *.
    destruct (release_stack_pages_total (Z.to_nat ((user_stack_top t - user_stack_bottom t + 4095) / 4096))
      (page_dir_phys t) (user_stack_bottom t) m Ho Hd (proj1 Hb)) as (m1 & -> & H1); [mlia|]. rewrite bind_Ret_l.
    destruct (release_kernel_stack_total (stack_base t) m1) as (m2 & -> & H2); [by eapply mem_le_ok|done|].
    exists m2. split; [done|by eapply mem_le_trans].
  - destruct (release_tables_total 768 (page_dir_phys t) 0 m Ho) as (m1 & -> & H1); [lia..|]. rewrite bind_Ret_l.
    set (m2 := free_frame m1 _). assert (mem_le m m2) as H2
      by (eapply mem_le_trans; [exact H1|]; apply mem_le_same; [by eapply mem_le_ok|done]).
    destruct (release_kernel_stack_total (stack_base t) m2) as (m3 & -> & H3); [by eapply mem_le_ok|done|].
    exists m3. split; [done|by eapply mem_le_trans].
Qed.

(** Dropping a slot changes that slot, the count and memory. *)
Definition all_ok s : Prop := mem_ok (memory s) /\ forall slot t, task_at s slot = Some t -> task_ok (memory s) t.

Lemma put_task_at s slot o k :
  zlen (tasks s) = 32 -> 0 <= slot < 32 -> task_at (put_task s slot o) k = if k =? slot then o else task_at s k.
Proof.
  intros Hl Hs. unfold task_at, put_task. simpl. rewrite get_insert by lia. rewrite (Z.eqb_sym k).
  by destruct (slot =? k).
Qed.

Definition dropped s (l : list Z) s' : Prop :=
  s' = s <| tasks := tasks s' |> <| task_count := task_count s - zlen l |> <| memory := memory s' |> /\
  zlen (tasks s') = 32 /\
  forall k, task_at s' k = if bool_decide (k ∈ l) then None else task_at s k.

Lemma drop_slots_frame l : forall s s',
  zlen (tasks s) = 32 -> Forall (fun k => 0 <= k < 32) l -> drop_slots shootdown_tlb l s = Ret s' -> dropped s l s'.
Proof.
  induction l as [|k l IH]; intros s s' Hl Hk.
  { intros [= <-]. split_and!; [|done|done]. rewrite Z.sub_0_r. by destruct s. }
  apply Forall_cons in Hk as [Hk Hks]. cbn [drop_slots]. unfold drop_slot. intros Hd. outcome_inv. subst.
  set (s1 := put_task _ k None <| task_count := _ |>) in Hd.
  assert (forall j, task_at s1 j = if j =? k then None else task_at s j) as Hat by (intros; by apply (put_task_at s k None)).
  destruct (IH s1 s') as (Heq & Hl' & Hat'); [by unfold s1; simpl; rewrite zlen_insert|done..|]. split_and!; [|done|].
  - rewrite zlen_cons. replace (task_count s - (1 + zlen l)) with (task_count s - 1 - zlen l) by lia. exact Heq.
  - intros j. rewrite Hat', Hat. destruct (Z.eqb_spec j k) as [->|].
    + rewrite (bool_decide_eq_true_2 (k ∈ k :: l)) by (by left). by destruct (bool_decide _).
    + apply (f_equal (fun b : bool => if b then None else task_at s j)). apply bool_decide_ext. rewrite elem_of_cons. naive_solver.
Qed.

Lemma drop_slots_total l : forall s,
  all_ok s -> zlen (tasks s) = 32 -> Forall (fun k => 0 <= k < 32) l ->
  exists s', drop_slots shootdown_tlb l s = Ret s' /\ all_ok s'.
Proof.
  induction l as [|k l IH]; intros s Hok Hl Hk; [by exists s|].
  apply Forall_cons in Hk as [Hk Hks]. destruct Hok as [Hm Hall]. cbn [drop_slots]. unfold drop_slot.
  assert (exists m, match task_at s k with Some t => release_memory shootdown_tlb t (memory s) | None => Ret (memory s) end
    = Ret m /\ mem_le (memory s) m) as (m & -> & Hle).
  { destruct (task_at s k) as [t|] eqn:Ht; [by apply release_memory_total; [|apply (Hall k)]|].
    exists (memory s). split; [done|by apply mem_le_same]. }
  rewrite !bind_Ret_l. apply IH; [|by simpl; rewrite zlen_insert|done]. split; [by eapply mem_le_ok|]. intros slot t.
  change (task_at (put_task (s <| memory := m |>) k None) slot = Some t -> task_ok m t).
  rewrite put_task_at by done. destruct (slot =? k); [done|]. intros Ht.
  eapply task_ok_le; [exact Hle|]. by apply (Hall slot).
Qed.

(** ** Reaping *)

(** What [reap] leaves of a task. *)
Definition reparented s (dead_pid : Z) t : Task :=
  if dead_pid <=? 0 then t else
  if ppid t =? dead_pid then adopt (if dead_pid =? 1 then None else live_init s) t else t.

Lemma reparent_at s dead_pid k : task_at (reparent_children_of s dead_pid) k = reparented s dead_pid <$> task_at s k.
Proof.
  unfold reparent_children_of, reparented. destruct (dead_pid <=? 0); [by destruct (task_at s k)|]. by rewrite map_tasks_at.
Qed.

Lemma adopt_same o t : zombie (adopt o t) = zombie t /\ leader_slot (adopt o t) = leader_slot t /\
  stack_base (adopt o t) = stack_base t /\ is_thread (adopt o t) = is_thread t /\ user_stack_bottom (adopt o t) = user_stack_bottom t /\
  user_stack_top (adopt o t) = user_stack_top t /\ page_dir_phys (adopt o t) = page_dir_phys t.
Proof. by destruct o. Qed.

Lemma adopt_ok m o t : task_ok m t -> task_ok m (adopt o t).
Proof. unfold task_ok. destruct (adopt_same o t) as (_ & _ & -> & -> & -> & -> & ->). done. Qed.

Lemma reparented_same s p t : zombie (reparented s p t) = zombie t /\ leader_slot (reparented s p t) = leader_slot t.
Proof.
  unfold reparented. destruct (p <=? 0); [done|]. destruct (ppid t =? p); [|done]. set (o := if _ : bool then _ else _).
  by destruct (adopt_same o t) as (? & ? & _).
Qed.

Lemma reparented_ok m s p t : task_ok m t -> task_ok m (reparented s p t).
Proof. intros Ht. unfold reparented. destruct (p <=? 0); [done|]. destruct (ppid t =? p); [by apply adopt_ok|done]. Qed.

(** Only task records change. *)
Lemma reparent_frame s p : reparent_children_of s p = s <| tasks := tasks (reparent_children_of s p) |> /\
  zlen (tasks (reparent_children_of s p)) = zlen (tasks s).
Proof.
  unfold reparent_children_of. destruct (p <=? 0); [by destruct s|]. simpl. unfold map_tasks, zlen. simpl. by rewrite length_fmap.
Qed.

Lemma reparent_all_ok s p : all_ok s -> all_ok (reparent_children_of s p).
Proof.
  intros [Hm Ht]. destruct (reparent_frame s p) as [Hf _]. split; [by rewrite Hf|]. intros k t.
  rewrite reparent_at. intros (u & Hu & ->)%fmap_Some. replace (memory (reparent_children_of s p)) with (memory s) by (by rewrite Hf).
  apply reparented_ok. by apply (Ht k).
Qed.

(** No survivor names the dead process as its parent. *)
Lemma reparented_ppid s p t : 0 < p -> ppid (reparented s p t) <> p.
Proof.
  intros Hp. unfold reparented. rewrite (proj2 (Z.leb_gt _ _)) by lia. destruct (Z.eqb_spec (ppid t) p); [|done].
  destruct (Z.eqb_spec p 1); [simpl; lia|]. destruct (live_init s); simpl; lia.
Qed.

(** The tasks a reap of [id] frees. *)
Definition member (id k : Z) t : bool := (k =? id) || (leader_slot t =? id).
Definition reapable s (id : Z) : option Task :=
  if (id =? 0) || (MAX_TASKS <=? id) || negb (process_quiescent s id) then None else
  t ← task_at s id; if zombie t then Some t else None.

Lemma thread_slots_reparent s p id : thread_slots (reparent_children_of s p) id = thread_slots s id.
Proof.
  unfold reparent_children_of. destruct (p <=? 0); [done|]. unfold thread_slots, slots_where, map_tasks. simpl.
  generalize 0. induction (tasks s) as [|o l IH]; intros b; [done|]. simpl. rewrite IH.
  destruct o as [t|]; [|done]. simpl. destruct (ppid t =? p); [|done].
  by destruct (adopt_same (if p =? 1 then None else live_init s) t) as (_ & -> & _).
Qed.

Definition reap_list s (id : Z) : list Z := List.filter (fun slot => negb (slot =? id)) (thread_slots s id) ++ [id].

Lemma reap_list_elem s id k t :
  task_at s id = Some t -> k ∈ reap_list s id <-> exists u, task_at s k = Some u /\ member id k u = true.
Proof.
  intros Ht. unfold reap_list, member. rewrite elem_of_app, list_elem_of_singleton, list_elem_of_In, List.filter_In, <- list_elem_of_In.
  unfold thread_slots. rewrite slots_where_elem. split.
  - intros [[(u & Hu & Hl) Hne]| ->]; [exists u; rewrite Hl, orb_true_r; done|exists t; by rewrite Z.eqb_refl].
  - intros (u & Hu & Hm). destruct (Z.eqb_spec k id) as [->|]; [by right|left]. split; [|done]. exists u. done.
Qed.
Lemma drop_slots_snoc l k s :
  drop_slots shootdown_tlb (l ++ [k]) s = s ← drop_slots shootdown_tlb l s; drop_slot shootdown_tlb s k.
Proof.
  revert s. induction l as [|j l IH]; intros s; simpl.
  - by destruct (drop_slot shootdown_tlb s k).
  - destruct (drop_slot shootdown_tlb s j); [|done]. simpl. apply IH.
Qed.

Lemma reap_eq s id :
  reap shootdown_tlb s id =
  match reapable s id with
  | None => Ret (false, s)
  | Some t => s' ← drop_slots shootdown_tlb (reap_list s id) (reparent_children_of s (pid t)); Ret (true, s')
  end.
Proof.
  unfold reap, reapable, reap_list. destruct (_ || _ || _); [done|]. destruct (task_at s id) as [t|]; [|done]. simpl.
  destruct (zombie t); [|done]. simpl. rewrite thread_slots_reparent, drop_slots_snoc.
  destruct (drop_slots _ _ _) as [s1|]; [|done]. simpl. by destruct (drop_slot _ _ _).
Qed.

Lemma reapable_Some s id t :
  reapable s id = Some t -> id <> 0 /\ id < 32 /\ process_quiescent s id = true /\ task_at s id = Some t /\ zombie t = true.
Proof.
  unfold reapable, MAX_TASKS. destruct (Z.eqb_spec id 0); [done|]. destruct (Z.leb_spec 32 id); [done|].
  destruct (process_quiescent s id); [|done]. simpl. destruct (task_at s id) as [u|]; [|done]. simpl.
  destruct (zombie u) eqn:Hz; [|done]. intros [= ->]. done.
Qed.

(** The tasks a reap leaves, and what it counts. *)
Definition survivor s (id dead_pid k : Z) : option Task :=
  t ← task_at s k; if member id k t then None else Some (reparented s dead_pid t).

Definition members s (id : Z) : list Z := slots_where s (member id).

Lemma reap_list_length s id t : task_at s id = Some t -> zlen (reap_list s id) = zlen (members s id).
Proof.
  intros Ht. unfold zlen. f_equal. apply Permutation_length, NoDup_Permutation.
  - unfold reap_list. apply NoDup_app. split_and!; [|intros k Hk ->%list_elem_of_singleton|apply NoDup_singleton].
    + apply NoDup_ListNoDup, List.NoDup_filter, NoDup_ListNoDup. apply slots_from_NoDup.
    + apply list_elem_of_In, List.filter_In in Hk as [_ Hk]. by rewrite Z.eqb_refl in Hk.
  - apply slots_from_NoDup.
  - intros k. rewrite (reap_list_elem s id k t Ht). unfold members. by rewrite slots_where_elem.
Qed.

Definition reaped s (id : Z) t s' : Prop :=
  s' = s <| tasks := tasks s' |> <| task_count := task_count s - zlen (members s id) |> <| memory := memory s' |> /\
  zlen (tasks s') = 32 /\ (forall k, task_at s' k = survivor s id (pid t) k).

Lemma reaped_frame s id t s' :
  zlen (tasks s) = 32 -> task_at s id = Some t ->
  drop_slots shootdown_tlb (reap_list s id) (reparent_children_of s (pid t)) = Ret s' -> reaped s id t s'.
Proof.
  intros Hl Ht Hd. destruct (reparent_frame s (pid t)) as [Hf Hfl].
  assert (Forall (fun k => 0 <= k < 32) (reap_list s id)) as Hrange.
  { apply Forall_forall. intros k (u & Hu & _)%(reap_list_elem s id k t Ht). by eapply task_at_range. }
  apply drop_slots_frame in Hd as (Heq & Hl' & Hat); [|by rewrite Hfl|done]. split_and!; [|done|].
  - rewrite Heq, (reap_list_length s id t Ht). replace (task_count (reparent_children_of s (pid t))) with (task_count s) by (by rewrite Hf).
    rewrite Hf at 1. by destruct s.
  - intros k. rewrite Hat, reparent_at. unfold survivor. destruct (task_at s k) as [u|] eqn:Hu; simpl; [|by destruct (bool_decide _)].
    destruct (member id k u) eqn:Hm.
    + rewrite bool_decide_eq_true_2; [done|]. apply (reap_list_elem s id k t Ht). by exists u.
    + rewrite bool_decide_eq_false_2; [done|]. intros (v & Hv & Hm')%(reap_list_elem s id k t Ht). congruence.
Qed.

Lemma reap_ok s id t :
  all_ok s -> zlen (tasks s) = 32 -> reapable s id = Some t ->
  exists s', reap shootdown_tlb s id = Ret (true, s') /\ reaped s id t s' /\ all_ok s'.
Proof.
  intros Hok Hl Hr. rewrite reap_eq, Hr. apply reapable_Some in Hr as (_ & _ & _ & Ht & _).
  destruct (reparent_frame s (pid t)) as [Hf Hfl].
  assert (Forall (fun k => 0 <= k < 32) (reap_list s id)) as Hrange.
  { apply Forall_forall. intros k (u & Hu & _)%(reap_list_elem s id k t Ht). by eapply task_at_range. }
  destruct (drop_slots_total (reap_list s id) (reparent_children_of s (pid t))) as (s' & Hd & Hok');
    [by apply reparent_all_ok|by rewrite Hfl|done|]. rewrite Hd. exists s'. split; [done|]. split; [|done].
  by apply (reaped_frame s id t s').
Qed.

(** ** Ownership under every operation *)

(** Dropping tasks no CPU runs. *)
Lemma keeps_tasks s s' :
  sched_wf s -> zlen (tasks s') = 32 ->
  s' = s <| tasks := tasks s' |> <| task_count := task_count s' |> <| memory := memory s' |> ->
  idle_present s' ->
  (forall k, 1 <= k < 32 -> unowned s k = false -> is_Some (task_at s k) -> is_Some (task_at s' k)) ->
  (forall k t, task_at s' k = Some t -> leader_ok k t) -> keeps s s'.
Proof. intros Hwf Hl Heq Hi Ht Hz. constructor; try done; by rewrite Heq. Qed.

Lemma quiescent_unowned s id k t :
  process_quiescent s id = true -> task_at s k = Some t -> leader_slot t = id -> unowned s k = true.
Proof.
  unfold process_quiescent. rewrite forallb_forall. intros Hq Ht Hl. apply Hq, list_elem_of_In.
  unfold thread_slots. apply slots_where_elem. exists t. split; [done|]. by apply Z.eqb_eq.
Qed.

Lemma keeps_reap ex s id b s' : own_core ex s -> reap shootdown_tlb s id = Ret (b, s') -> keeps s s'.
Proof.
  intros Hc. pose proof Hc as [Hwf Hid _ _ _ Hz]. pose proof (sw_tasks _ Hwf) as Hl. rewrite reap_eq.
  destruct (reapable s id) as [t|] eqn:Hr; [|intros [= <- <-]; by apply keeps_tasks; destruct s].
  intros Hd. outcome_inv. subst. apply reapable_Some in Hr as (Hne & Hlt & Hq & Ht & Hzt).
  match goal with H : drop_slots _ _ _ = Ret _ |- _ => apply (reaped_frame s id t) in H as (Heq & Hl' & Hat); [|done..] end.
  assert (forall k u, task_at s k = Some u -> member id k u = true -> unowned s k = true) as Hun.
  { intros k u Hu Hm. apply orb_true_iff in Hm as [->%Z.eqb_eq|Hm%Z.eqb_eq]; [|by eapply quiescent_unowned].
    apply (quiescent_unowned s id id t Hq Ht). by apply (Hz id t Ht). }
  apply keeps_tasks; try done.
  - rewrite Heq. done.
  - destruct Hid as (i & Hi & Hli). exists (reparented s (pid t) i). rewrite Hat. unfold survivor. rewrite Hi. simpl.
    unfold member. rewrite Hli, (proj2 (Z.eqb_neq 0 id)) by lia. split; [done|]. by destruct (reparented_same s (pid t) i) as [_ ->].
  - intros k _ Hu [u Hk]. rewrite Hat. unfold survivor. rewrite Hk. simpl. destruct (member id k u) eqn:Hm; [|done].
    rewrite (Hun k u Hk Hm) in Hu. done.
  - intros k u. rewrite Hat. unfold survivor. destruct (task_at s k) as [v|] eqn:Hv; [|done]. simpl.
    destruct (member id k v); [done|]. intros [= <-]. unfold leader_ok.
    destruct (reparented_same s (pid t) v) as [-> ->]. by apply Hz.
Qed.

(** Freeing one slot that no CPU runs. *)
Lemma keeps_clear ex s s' id :
  own_core ex s -> 1 <= id < 32 -> unowned s id = true -> zlen (tasks s') = 32 ->
  s' = s <| tasks := tasks s' |> <| task_count := task_count s' |> <| memory := memory s' |> ->
  (forall k, task_at s' k = if k =? id then None else task_at s k) -> keeps s s'.
Proof.
  intros [Hwf Hid _ _ _ Hz] Hr Hu Hl Heq Hat. apply keeps_tasks; try done.
  - unfold idle_present. rewrite Hat, (proj2 (Z.eqb_neq 0 id)) by lia. done.
  - intros k _ Hk Ht. rewrite Hat. destruct (Z.eqb_spec k id) as [->|]; [congruence|done].
  - intros k t. rewrite Hat. destruct (k =? id); [done|]. apply Hz.
Qed.

Lemma keeps_refl ex s : own_core ex s -> keeps s s.
Proof. intros [[] ? ? ? ? ?]. by constructor. Qed.

Lemma unowned_range s k : sched_wf s -> unowned s k = true -> 0 <= k < 32.
Proof.
  unfold unowned. destruct (get (task_owner s) k) eqn:Hg; [|done]. intros Hwf _. apply get_Some_range in Hg.
  rewrite (sw_owner _ Hwf) in Hg. done.
Qed.

Lemma keeps_reap_thread ex s id b s' : own_core ex s -> reap_thread shootdown_tlb s id = Ret (b, s') -> keeps s s'.
Proof.
  intros Hc. pose proof (keeps_refl _ _ Hc) as Hrefl. pose proof (oc_wf _ _ Hc) as Hwf. unfold reap_thread, MAX_TASKS.
  destruct (Z.eqb_spec id 0); [by intros [= _ <-]|]. destruct (Z.leb_spec 32 id); simpl; [by intros [= _ <-]|].
  destruct (unowned s id) eqn:Hu; simpl; [|by intros [= _ <-]]. pose proof (unowned_range s id Hwf Hu).
  destruct (task_at s id) as [t|] eqn:Ht; [|by intros [= _ <-]]. destruct (is_thread t && thread_exited t); [|by intros [= _ <-]].
  intros Hd. outcome_inv. subst.
  match goal with H : drop_slot _ _ _ = Ret ?x |- _ =>
    assert (drop_slots shootdown_tlb [id] s = Ret x) as Hds by (cbn [drop_slots]; rewrite H; done) end.
  apply drop_slots_frame in Hds as (Heq & Hl & Hat); [|apply (sw_tasks _ Hwf)|repeat constructor; lia].
  apply (keeps_clear ex s _ id); try done; [lia|by rewrite Heq|]. intros k. rewrite Hat.
  destruct (Z.eqb_spec k id) as [->|]; [by rewrite bool_decide_eq_true_2 by (by left)|].
  by rewrite bool_decide_eq_false_2 by (rewrite list_elem_of_singleton; done).
Qed.

Lemma keeps_reparent ex s p : own_core ex s -> keeps s (reparent_children_of s p).
Proof.
  intros Hc. unfold reparent_children_of. destruct (p <=? 0); [by eapply keeps_refl|]. eapply keeps_map; [done|].
  intros t. destruct (ppid t =? p); [|done]. by destruct (adopt_same (if p =? 1 then None else live_init s) t) as (? & ? & _).
Qed.

Lemma keeps_remove ex s id : own_core ex s -> keeps s (remove_task s id).
Proof.
  intros Hc. pose proof (keeps_refl _ _ Hc) as Hrefl. pose proof (oc_wf _ _ Hc) as Hwf. unfold remove_task.
  destruct (Z.eqb_spec id 0); [done|]. destruct (id <? MAX_TASKS); [|done]. destruct (unowned s id) eqn:Hu; [|done]. simpl.
  pose proof (unowned_range s id Hwf Hu). destruct (task_at s id) as [t|] eqn:Ht; [|done].
  pose proof (keeps_reparent _ _ (pid t) Hc) as Hk. eapply keeps_trans; [exact Hk|].
  assert (own_core ex (reparent_children_of s (pid t))) as Hc1 by (by eapply keeps_core).
  set (s1 := reparent_children_of s (pid t)) in *. pose proof (sw_tasks _ (oc_wf _ _ Hc1)) as Hl1.
  apply (keeps_clear ex s1 _ id); [done|lia| | | |].
  - unfold unowned in *. by rewrite (kp_owner _ _ Hk).
  - simpl. by rewrite zlen_insert.
  - by destruct s1.
  - intros k. apply (put_task_at s1 id None); [done|lia].
Qed.
Lemma keeps_detached n : forall ex slot s s',
  own_core ex s -> reap_detached_from shootdown_tlb n slot s = Ret s' -> keeps s s'.
Proof.
  induction n as [|n IH]; intros ex slot s s' Hc; cbn [reap_detached_from]; [intros [= <-]; by eapply keeps_refl|].
  intros (s1 & H1 & H2)%bind_Ret. assert (keeps s s1) as Hk.
  { pose proof (keeps_refl _ _ Hc) as Hr. destruct (unowned s slot); simpl in H1; [|by injection H1 as <-].
    destruct (task_at s slot) as [t|]; [|by injection H1 as <-].
    destruct (is_thread t && thread_exited t && thread_detached t); [|by injection H1 as <-].
    apply bind_Ret in H1 as ([b s2] & H1 & [= <-]). by eapply keeps_reap_thread. }
  eapply keeps_trans; [exact Hk|]. eapply IH; [by eapply keeps_core|exact H2].
Qed.

Lemma on_task_put s slot t f : task_at s slot = Some t -> on_task s slot f = put_task s slot (Some (f t)).
Proof. unfold on_task. by intros ->. Qed.

Lemma keeps_scan n : forall ex slot init s acc zombies s',
  own_core ex s -> scan_orphans n slot init s acc = (zombies, s') -> keeps s s'.
Proof.
  induction n as [|n IH]; intros ex slot init s acc zombies s' Hc; cbn [scan_orphans]; [intros [= _ <-]; by eapply keeps_refl|].
  destruct (task_at s slot) as [t|] eqn:Ht; [|by apply (IH ex)].
  destruct (negb (pid t =? 1) && parent_gone s (ppid t)); [|by apply (IH ex)]. destruct init as [i|]; [|by apply (IH ex)].
  rewrite <- (on_task_put s slot t (adopt (Some i)) Ht).
  assert (keeps s (on_task s slot (adopt (Some i)))) as Hk by (by eapply keeps_on).
  intros Hs. eapply keeps_trans; [exact Hk|]. eapply IH; [by eapply keeps_core|exact Hs].
Qed.

Lemma keeps_reap_all l : forall ex s s', own_core ex s -> reap_all shootdown_tlb l s = Ret s' -> keeps s s'.
Proof.
  induction l as [|id l IH]; intros ex s s' Hc; cbn [reap_all]; [intros [= <-]; by eapply keeps_refl|].
  intros ([b s1] & H1 & H2)%bind_Ret. pose proof (keeps_reap _ _ _ _ _ Hc H1) as Hk.
  eapply keeps_trans; [exact Hk|]. eapply IH; [by eapply keeps_core|exact H2].
Qed.

Lemma keeps_free_slot ex s r s' : own_core ex s -> get_free_slot shootdown_tlb s = Ret (r, s') -> keeps s s'.
Proof.
  intros Hc. unfold get_free_slot, reap_detached_threads, reap_orphans. intros (s1 & H1 & (s2 & H2 & [= _ <-])%bind_Ret)%bind_Ret.
  pose proof (keeps_detached _ _ _ _ _ Hc H1) as K1. eapply keeps_trans; [exact K1|].
  destruct (scan_orphans 31 1 (live_init s1) s1 []) as [z s3] eqn:H3.
  assert (own_core ex s1) as Hc1 by (by eapply keeps_core). pose proof (keeps_scan _ _ _ _ _ _ _ _ Hc1 H3) as K2.
  eapply keeps_trans; [exact K2|]. eapply keeps_reap_all; [by eapply keeps_core|exact H2].
Qed.

Lemma free_slot_empty s r s' :
  get_free_slot shootdown_tlb s = Ret (r, s') -> r = -1 \/ (0 <= r < zlen (tasks s') /\ task_at s' r = None).
Proof.
  unfold get_free_slot. intros (s1 & _ & (s2 & _ & [= <- <-])%bind_Ret)%bind_Ret.
  destruct (vec_position _ (tasks s2)) as [i|] eqn:Hp; [right|by left]. simpl.
  apply vec_position_Some in Hp as (l1 & o & l2 & He & -> & Ho & _). unfold task_at. rewrite He, get_middle, zlen_app, zlen_cons.
  destruct o; [done|]. pose proof (zlen_nonneg l1). pose proof (zlen_nonneg l2). split; [lia|done].
Qed.

(** A new task in a free slot. *)
Lemma keeps_spawn ex s s' slot t :
  own_core ex s -> 1 <= slot < 32 -> zombie t = false -> leader_slot t < 32 ->
  s' = s <| tasks := <[Z.to_nat slot := Some t]> (tasks s) |> <| task_count := task_count s' |> <| memory := memory s' |>
         <| next_pid := next_pid s' |> <| cpu_states := cpu_states s' |> -> keeps s s'.
Proof.
  intros [[Hl _ _ _] Hid _ _ _ Hz] Hr Hnz Hlead Heq.
  assert (forall k, task_at s' k = if k =? slot then Some t else task_at s k) as Hat.
  { intros k. rewrite <- (put_task_at s slot (Some t) k Hl) by lia. unfold task_at. by rewrite Heq. }
  constructor; try (rewrite Heq; done).
  - rewrite Heq. simpl. by rewrite zlen_insert.
  - unfold idle_present. rewrite Hat, (proj2 (Z.eqb_neq 0 slot)) by lia. done.
  - intros k _ _ Hk. rewrite Hat. by destruct (k =? slot).
  - intros k u. rewrite Hat. destruct (k =? slot); [|apply Hz]. intros [= <-]. split; [done|]. by rewrite Hnz.
Qed.
(** ** Runs of the scheduler *)

Variable (ram : Z).

Lemma task_new_frame s t s' :
  task_new ram s = Ret (t, s') -> s' = s <| memory := memory s' |> /\ zombie t = false.
Proof.
  unfold task_new, alloc_task_page_dir, alloc_kernel_stack. intros ([pd s1] & H1 & H2)%bind_Ret.
  apply bind_Ret in H1 as ([f fa] & _ & [= <- <-]). apply bind_Ret in H2 as ([base s2] & H2 & H3).
  apply bind_Ret in H2 as (up & _ & H2). apply bind_Ret in H2 as ([first fa2] & _ & [= <- <-]).
  apply bind_Ret in H3 as ([] & _ & [= <- <-]). by destruct s.
Qed.

Lemma keeps_add_task ex s entry top heap s' :
  own_core ex s -> add_task shootdown_tlb ram s entry top heap = Ret s' -> keeps s s'.
Proof.
  intros Hc. unfold add_task. intros ([slot s1] & H1 & H2)%bind_Ret. pose proof (keeps_free_slot _ _ _ _ Hc H1) as K1.
  assert (own_core ex s1) as Hc1 by (by eapply keeps_core). apply free_slot_empty in H1.
  eapply keeps_trans; [exact K1|]. destruct (Z.ltb_spec slot 0); [injection H2 as <-; by eapply keeps_refl|].
  destruct H1 as [?|[Hr Hnone]]; [lia|]. rewrite (sw_tasks _ (oc_wf _ _ Hc1)) in Hr.
  destruct (alloc_pid s1) as [p s2] eqn:Hp. assert (s2 = s1 <| next_pid := next_pid s2 |>) as E2
    by (unfold alloc_pid in Hp; injection Hp as _ <-; by destruct s1).
  apply bind_Ret in H2 as ([t s3] & H2 & H3). apply task_new_frame in H2 as [E3 Hz].
  apply bind_Ret in H3 as ([t' s4] & H3 & [= <-]). apply bind_Ret in H3 as (tp & _ & [= <- <-]).
  assert (slot <> 0) as Hne by (intros ->; destruct (oc_idle _ _ Hc1) as (? & ? & _); congruence).
  eapply (keeps_spawn ex s1 _ slot); [done|lia| | |].
  3:{ rewrite E3, E2. destruct s1. reflexivity. }
  - exact Hz.
  - simpl. lia.
Qed.

(** The steps of the scheduler: ticks, wake-ups, changes of one task (a task
    becomes a zombie only as the leader of its process), and the operations
    that free and create tasks. *)
Inductive sched_step (kernel_pd : Z) : Sched F -> Sched F -> Prop :=
| ss_tick s cpu frame now next s' :
    0 <= cpu < 64 -> schedule kernel_pd s cpu frame now = Ret (next, s') -> sched_step kernel_pd s s'
| ss_wake s r : sched_step kernel_pd s (wake_waiters_tasks r s)
| ss_wake_network s rd wr : sched_step kernel_pd s (wake_network_waiters rd wr s)
| ss_wake_poll s : sched_step kernel_pd s (wake_periodic_poll_waiters s)
| ss_update s slot f :
    (forall t, task_at s slot = Some t -> leader_ok slot (f t) /\ (slot = 0 -> leader_slot (f t) = 0)) ->
    sched_step kernel_pd s (on_task s slot f)
| ss_spawn s slot t :
    1 <= slot < 32 -> task_at s slot = None -> zombie t = false -> leader_slot t < 32 ->
    sched_step kernel_pd s (put_task s slot (Some t))
| ss_add s entry top heap s' :
    add_task shootdown_tlb ram s entry top heap = Ret s' -> sched_step kernel_pd s s'
| ss_reparent s p : sched_step kernel_pd s (reparent_children_of s p)
| ss_reap s id b s' : reap shootdown_tlb s id = Ret (b, s') -> sched_step kernel_pd s s'
| ss_reap_thread s id b s' : reap_thread shootdown_tlb s id = Ret (b, s') -> sched_step kernel_pd s s'
| ss_remove s id : sched_step kernel_pd s (remove_task s id)
| ss_free_slot s r s' : get_free_slot shootdown_tlb s = Ret (r, s') -> sched_step kernel_pd s s'.

Lemma keeps_update ex s slot f :
  own_core ex s -> (forall t, task_at s slot = Some t -> leader_ok slot (f t) /\ (slot = 0 -> leader_slot (f t) = 0)) ->
  keeps s (on_task s slot f).
Proof.
  intros Hc Hf. pose proof Hc as [[H1 _ _ _] Hid _ _ _ Hz]. unfold on_task.
  destruct (task_at s slot) as [t|] eqn:Ht; [|by eapply keeps_refl]. pose proof (task_at_range _ _ _ H1 Ht) as Hr.
  apply keeps_tasks; [apply (oc_wf _ _ Hc)|by simpl; rewrite zlen_insert|by destruct s|..].
  - unfold idle_present. rewrite put_task_at by done. destruct (Z.eqb_spec 0 slot) as [<-|]; [|done].
    exists (f t). split; [done|]. by apply (Hf t eq_refl).
  - intros k _ _ Hk. rewrite put_task_at by done. by destruct (k =? slot).
  - intros k u. rewrite put_task_at by done. destruct (Z.eqb_spec k slot) as [->|]; [|apply Hz]. intros [= <-].
    by apply (Hf t eq_refl).
Qed.

Lemma sched_step_inv kernel_pd s s' : own_inv s -> sched_step kernel_pd s s' -> own_inv s'.
Proof.
  intros Hi Hs. pose proof (oi_core _ Hi) as Hc.
  destruct Hs as [s cpu frame now next s' Hcpu Hrun|s r|s rd wr|s|s slot f Hf|s slot t Hr Hn Hz Hlead|s e t h s' Ha|s p
    |s id b s' Hr|s id b s' Hr|s id|s r s' Hr].
  1:{ destruct (schedule_ok kernel_pd s cpu frame now Hi Hcpu) as (f' & s2 & H2 & Hi2 & _). congruence. }
  all: apply (keeps_inv s); [done|].
  - by eapply keeps_wake_waiters.
  - eapply keeps_map; [done|]. intros t. by destruct (_ && _).
  - eapply keeps_map; [done|]. intros t. by destruct (_ && _).
  - by eapply keeps_update.
  - by apply (keeps_spawn (-1) s _ slot t); destruct s.
  - by eapply keeps_add_task.
  - by eapply keeps_reparent.
  - by eapply keeps_reap.
  - by eapply keeps_reap_thread.
  - by eapply keeps_remove.
  - by eapply keeps_free_slot.
Qed.

(** The state [TaskManager::init] leaves. *)
Lemma sched_init_inv large_pages kernel_pd idle_eip m s :
  sched_init ram large_pages kernel_pd idle_eip (sched_static m) = Ret s -> own_inv s.
Proof.
  unfold sched_init. intros ([t s1] & H1 & H2)%bind_Ret. apply task_new_frame in H1 as [E1 Hz].
  apply bind_Ret in H2 as (d & _ & H2). apply bind_Ret in H2 as (top & _ & [= <-]). rewrite E1.
  constructor; [constructor|].
  - constructor; try done. apply (Forall_insert _ (replicate 32 (-1))); [|lia]. apply Forall_replicate. lia.
  - eexists. split; [reflexivity|done].
  - done.
  - intros slot o Hs Hg. left. change (get (set_cpu (replicate 32 (-1)) 0 0) slot = Some o) in Hg.
    unfold set_cpu in Hg. rewrite get_insert_ne in Hg by lia. by apply get_replicate in Hg.
  - intros c p _ Hg. change (get (set_cpu (replicate 64 (-1)) 0 0) c = Some p) in Hg. unfold set_cpu in Hg.
    destruct (Z.eq_dec c 0) as [->|]; [injection Hg as <-; right; left; done|].
    rewrite get_insert_ne in Hg by lia. left. by apply get_replicate in Hg.
  - intros slot u Hu. destruct (Z.eq_dec slot 0) as [->|]; [injection Hu as <-; split; [done|]; done|].
    assert (exists o, mjoin (get (<[Z.to_nat 0 := o]> (replicate 32 (@None Task))) slot) = Some u) as [o Hu'] by (eexists; exact Hu).
    rewrite get_insert_ne in Hu' by lia.
    destruct (get (replicate 32 None) slot) as [o'|] eqn:Hg; [|done]. apply get_replicate in Hg as ->. done.
  - done.
Qed.

Definition sched_reachable (kernel_pd : Z) (s0 s : Sched F) : Prop := rtc (sched_step kernel_pd) s0 s.
(** C1. In every state the scheduler reaches after [init], through ticks of any
    CPU in any order and every operation that wakes, changes, creates or frees
    tasks: no task runs on two CPUs, what a CPU runs exists, and the next tick
    of any CPU returns, resuming that CPU's new task in its own address space
    or the idle loop. *)
Theorem sched_exclusive large_pages kernel_dir kernel_pd idle_eip m s0 s :
  sched_init ram large_pages kernel_dir idle_eip (sched_static m) = Ret s0 -> sched_reachable kernel_pd s0 s ->
  (forall c1 c2 slot, 1 <= slot -> get (cpu_slot s) c1 = Some slot -> get (cpu_slot s) c2 = Some slot -> c1 = c2) /\
  (forall c slot, 0 <= slot -> get (cpu_slot s) c = Some slot -> is_Some (task_at s slot)) /\
  (forall cpu frame now, 0 <= cpu < 64 ->
    exists next s', schedule kernel_pd s cpu frame now = Ret (next, s') /\ dispatched kernel_pd s' cpu next).
Proof.
  intros H0 Hr. assert (own_inv s) as Hi.
  { apply sched_init_inv in H0. revert H0. induction Hr as [s|s1 s2 s3 Hstep _ IH]; [done|]. intros Hi. apply IH.
    by eapply sched_step_inv. }
  pose proof (oi_core _ Hi) as Hc. split_and!.
  - intros c1 c2 slot Hs H1 H2. pose proof (get_Some_range _ _ _ H1). pose proof (get_Some_range _ _ _ H2).
    destruct (oc_cpu _ _ Hc c1 slot ltac:(lia) H1) as [?|[?|[_ O1]]]; [lia..|].
    destruct (oc_cpu _ _ Hc c2 slot ltac:(lia) H2) as [?|[?|[_ O2]]]; [lia..|]. congruence.
  - intros c slot Hs H1. pose proof (get_Some_range _ _ _ H1).
    destruct (oc_cpu _ _ Hc c slot ltac:(lia) H1) as [?|[[-> _]|[Hr1 O1]]]; [lia|..].
    + destruct (oc_idle _ _ Hc) as (t & -> & _). done.
    + destruct (oc_owner _ _ Hc slot c Hr1 O1) as [?|(_ & _ & _ & ?)]; [lia|done].
  - intros cpu frame now Hcpu. destruct (schedule_ok kernel_pd s cpu frame now Hi Hcpu) as (next & s' & ? & _ & ?). eauto.
Qed.

(** Reaping a process that is not a quiescent zombie changes nothing and
    reports failure; reaping one that is returns, frees exactly its own slot
    and the slots of its threads, lowers the task count by their number, gives
    its children to a live init process (or to the kernel), so that no task
    names the dead process as its parent, and leaves every other task as it
    was, still releasable. *)
Theorem reap_exact s id :
  all_ok s -> zlen (tasks s) = 32 ->
  match reapable s id with
  | None => reap shootdown_tlb s id = Ret (false, s)
  | Some t =>
      exists s', reap shootdown_tlb s id = Ret (true, s') /\ all_ok s' /\
        task_count s' = task_count s - zlen (members s id) /\
        (forall k, task_at s' k = survivor s id (pid t) k) /\
        (forall k u, 0 < pid t -> task_at s' k = Some u -> ppid u <> pid t)
  end.
Proof.
  intros Hok Hl. destruct (reapable s id) as [t|] eqn:Hr; [|by rewrite reap_eq, Hr].
  destruct (reap_ok s id t Hok Hl Hr) as (s' & Hrun & (Heq & _ & Hat) & Hok'). exists s'. split_and!; try done.
  - rewrite Heq. done.
  - intros k u Hp. rewrite Hat. unfold survivor. destruct (task_at s k) as [v|]; [|done]. simpl.
    destruct (member id k v); [done|]. intros [= <-]. by apply reparented_ppid.
Qed.
End ReleaseProofs.

(** ** Witnesses *)

#[global] Instance unit_store : FileStore unit :=
  { metadata_size := fun _ _ => None; read_page := fun _ _ _ => []; write_page := fun f _ _ _ _ => f }.

Definition no_shootdown (pd addr : Z) : bool := true.

(** The idle task is created, a process appears in slot 1, and CPU 1 takes it. *)
Definition wit_boot : Sched unit :=
  match sched_init (64 * MIB) 16 None 0xC0101000 (sched_static wit_memory) with Ret s => s | Panic => wit_sched end.
Definition wit_two : Sched unit := put_task wit_boot 1 (Some wit_task).
Definition wit_ran : Sched unit :=
  match schedule 0x1000 wit_two 1 0xC0200000 5 with Ret (_, s) => s | Panic => wit_sched end.

Lemma sched_exclusive_witness :
  get (cpu_slot wit_ran) 1 = Some 1 /\ forall c, get (cpu_slot wit_ran) c = Some 1 -> 1 = c.
Proof.
  assert (get (cpu_slot wit_ran) 1 = Some 1) as H1 by (by vm_compute). split; [exact H1|].
  destruct (sched_exclusive no_shootdown (64 * MIB) 16 None 0x1000 0xC0101000 wit_memory wit_boot wit_ran) as (Hex & _).
  - by vm_compute.
  - eapply rtc_l; [apply (ss_spawn _ _ _ _ 1 wit_task); [lia|by vm_compute|done|done]|].
    eapply rtc_l; [apply (ss_tick _ _ _ wit_two 1 0xC0200000 5 0 wit_ran); [lia|by vm_compute]|]. apply rtc_refl.
  - intros c Hc. by apply (Hex 1 c 1).
Defined.

(** A zombie process in slot 2 with a thread in slot 4 and a child in slot 5;
    init is in slot 1. *)
Definition wit_proc (p parent_pid leader : Z) (dead thread : bool) : Task :=
  task_init (KERNEL_OFFSET + 0x2800000) 0x2900000 0 thread
    <| pid := p |> <| tid := p |> <| ppid := parent_pid |> <| leader_slot := leader |> <| zombie := dead |>.
Definition wit_family : Sched unit :=
  sched_static wit_memory <| task_count := 4 |>
    <| tasks := <[1%nat := Some (wit_proc 1 0 1 false false)]> (<[2%nat := Some (wit_proc 8 1 2 true false)]>
                (<[4%nat := Some (wit_proc 8 1 2 false true)]> (<[5%nat := Some (wit_proc 9 8 5 false false)]> (replicate 32 None)))) |>.

Lemma wit_family_ok : all_ok wit_family.
Proof.
  split; [by intros p page; simpl; rewrite lookup_empty|]. intros slot t Ht.
  assert (exists p q l d th, t = wit_proc p q l d th) as (p & q & l & d & th & ->).
  { unfold task_at in Ht. destruct (get (tasks wit_family) slot) as [o|] eqn:Hg; [|done]. simpl in Ht. subst o.
    unfold get in Hg. destruct (slot <? 0); [done|]. apply list_elem_of_lookup_2 in Hg.
    repeat (apply elem_of_cons in Hg as [Hg|Hg]; [first [discriminate Hg|injection Hg as ->; unfold wit_proc; by do 5 eexists]|]).
    by apply not_elem_of_nil in Hg. }
  split; [unfold KERNEL_OFFSET; simpl; unfold KERNEL_OFFSET; lia|]. intros _. simpl. split_and!; unfold KERNEL_OFFSET; try lia.
  intros i e. unfold vm_of. simpl. rewrite lookup_empty. simpl. intros ->%get_replicate Hs. by destruct small_0.
Qed.

Lemma reap_exact_witness :
  exists s', reap no_shootdown wit_family 2 = Ret (true, s') /\ task_count s' = 2 /\ task_at s' 4 = None /\
    ppid <$> task_at s' 5 = Some 1.
Proof.
  pose proof (reap_exact no_shootdown wit_family 2 wit_family_ok eq_refl) as H.
  assert (reapable wit_family 2 = Some (wit_proc 8 1 2 true false)) as Hr by (by vm_compute). rewrite Hr in H.
  destruct H as (s' & Hrun & _ & Hc & Hat & _). exists s'. split; [exact Hrun|]. rewrite Hc, !Hat.
  split; [by vm_compute|]. split; by vm_compute.
Defined.
