(* ===== verification/Signal.v ===== *)
(** * Signals

    Model of [kernel/src/signal.rs]: queueing, stopping and continuing a
    process, killing it, the deferred release of its descriptors, and the
    delivery of pending signals on the way back to user mode.  The state joins
    the scheduler with the descriptor tables of [FileTable] and the pipes of
    [Pipe], whose wait queue is the scheduler.  Calls into the network stack,
    the pseudo-terminals and the window manager are recorded in order. *)

From S2P Require Import Prelude Wait Frames Paging SharedPages Task Schedule Reap.
From S2P Require Import Pipe FileTable.

Definition SIGHUP : Z := 1.
Definition SIGINT : Z := 2.
Definition SIGQUIT : Z := 3.
Definition SIGKILL : Z := 9.
Definition SIGTERM : Z := 15.
Definition SIGCONT : Z := 18.
Definition SIGSTOP : Z := 19.
Definition SIGTSTP : Z := 20.
Definition SIGTTIN : Z := 21.
Definition SIGTTOU : Z := 22.
Definition SIGWINCH : Z := 28.

Definition SIG_DFL : Z := 0.
Definition SIG_IGN : Z := 1.

(** [sigbit] *)
Definition sigbit (sig : Z) : Z := if (sig =? 0) || (31 <? sig) then 0 else Z.shiftl 1 (sig - 1).

Definition DEFAULT_TERMINATE : Z :=
  Z.lor (Z.lor (Z.lor (Z.lor (sigbit SIGHUP) (sigbit SIGINT)) (sigbit SIGQUIT)) (sigbit SIGKILL)) (sigbit SIGTERM).

(** [u32::trailing_zeros], [lowest_sig] *)
Fixpoint pos_ctz (p : positive) : Z := match p with xO p => 1 + pos_ctz p | _ => 0 end.
Definition trailing_zeros (x : Z) : Z := match x with Zpos p => pos_ctz p | _ => 32 end.
Definition lowest_sig (mask : Z) : option Z := if mask =? 0 then None else Some (trailing_zeros mask + 1).

(** [pending &= !bits] *)
Definition clear_bits (mask bits : Z) : Z := Z.land mask (not_u 32 bits).

(** Calls that leave the modelled components. *)
Inductive Event : Type :=
| FreeSocket (socket_id : Z)
| ClosePty (pty_id : Z) (side : PtySide)
| DestroyWindows (slot : Z).

Section Signals.
  Context {F : Type} `{!FileStore F}.

(** The kernel state the signal code works on: the scheduler, the open file
    descriptions, the descriptor table of each task, the pipes,
    [DEFERRED_KILL_CLEANUP], and user memory by words. *)
Record Kern : Type := mkKern {
  k_sched : Sched F; k_arcs : Arcs; k_tables : gmap Z FileDescriptorTable; k_pipes : list Pipe;
  k_deferred : Z; k_user : gmap Z Z; k_events : list Event
}.
#[global] Instance Kern_eta : Eta Kern := fun k =>
  mkKern (k_sched k) (k_arcs k) (k_tables k) (k_pipes k) (k_deferred k) (k_user k) (k_events k).

Implicit Types (s : Sched F) (k : Kern) (t : Task).

(** A loop over slots that updates the task in each. *)
Definition on_tasks (l : list Z) (f : Task -> Task) s : Sched F := foldl (fun s slot => on_task s slot f) s l.

(** ** Sending *)

(** [send_signal] *)
Definition queue_signal (sig : Z) t : Task :=
  let t := t <| pending_signals := Z.lor (pending_signals t) (sigbit sig) |> in
  match state t with Blocked _ => wake t | _ => t end.
Definition send_signal s (slot sig : Z) : outcome (bool * Sched F) :=
  if (slot <=? 0) || (sig =? 0) || (31 <? sig) then Ret (false, s) else
  let leader := process_slot s slot in
  o ← idx (tasks s) leader;
  match o with
  | Some t => if zombie t then Ret (false, s) else Ret (true, put_task s leader (Some (queue_signal sig t)))
  | None => Ret (false, s)
  end.

(** [stop_task_with_signal], [stop_task] *)
Definition stop_member t : Task :=
  if thread_exited t then t else t <| running := false |> <| state := Stopped |> <| stopped := true |>.
Definition latch_stop (sig : Z) t : Task :=
  t <| stop_signal := sig |> <| wait_stopped_pending := true |>
    <| pending_signals := clear_bits (pending_signals t) (Z.lor (sigbit sig) (sigbit SIGCONT)) |>.
Definition stop_task_with_signal s (slot sig : Z) : outcome (bool * Sched F) :=
  if slot <=? 0 then Ret (false, s) else
  let leader := process_slot s slot in
  o ← idx (tasks s) leader;
  if match o with Some t => zombie t || stopped t | None => true end then Ret (false, s) else
  let s := on_tasks (thread_slots s leader) stop_member s in
  match task_at s leader with
  | Some t =>
      if zombie t then Ret (false, s)
      else Ret (true, wake_waiters_tasks Child (put_task s leader (Some (latch_stop sig t))))
  | None => Ret (false, s)
  end.
Definition stop_task s (slot : Z) : outcome (bool * Sched F) := stop_task_with_signal s slot SIGSTOP.

(** [continue_task] *)
Definition continue_member t : Task :=
  if thread_exited t then t else t <| stopped := false |> <| running := true |> <| state := Runnable |>.
Definition latch_continue (was_stopped : bool) t : Task :=
  let t := if was_stopped then t <| wait_continued_pending := true |> else t in
  t <| pending_signals := clear_bits (pending_signals t)
         (Z.lor (Z.lor (Z.lor (Z.lor (sigbit SIGCONT) (sigbit SIGSTOP)) (sigbit SIGTSTP)) (sigbit SIGTTIN)) (sigbit SIGTTOU)) |>.
Definition continue_task s (slot : Z) : outcome (bool * Sched F) :=
  if slot <=? 0 then Ret (false, s) else
  let leader := process_slot s slot in
  o ← idx (tasks s) leader;
  let was_stopped := match o with Some t => stopped t | None => false end in
  let s := on_tasks (thread_slots s leader) continue_member s in
  match task_at s leader with
  | Some t =>
      if zombie t then Ret (false, s)
      else Ret (true, wake_waiters_tasks Child (put_task s leader (Some (latch_continue was_stopped t))))
  | None => Ret (false, s)
  end.

(** [force_kill] *)
Definition kill_member (sig : Z) t : Task :=
  let term := if sig =? 0 then SIGKILL else sig in
  t <| pending_signals := 0 |> <| running := false |> <| state := Zombie |> <| stopped := false |>
    <| thread_exited := true |> <| term_signal := term |> <| exit_code := 128 + term |>.
Definition kill_process s (leader sig dead_pid : Z) : Sched F :=
  let s := on_tasks (thread_slots s leader) (kill_member sig) s in
  let s := on_task s leader (fun t => t <| zombie := true |>) in
  wake_waiters_tasks Thread (wake_waiters_tasks Child (reparent_children_of s dead_pid)).
Definition force_kill k (slot sig : Z) : outcome (bool * Kern) :=
  if slot <=? 0 then Ret (false, k) else
  let leader := process_slot (k_sched k) slot in
  o ← idx (tasks (k_sched k)) leader;
  match o with
  | Some t =>
      if zombie t then Ret (false, k) else
      Ret (true, k <| k_sched := kill_process (k_sched k) leader sig (pid t) |>
                   <| k_deferred := Z.lor (k_deferred k) (Z.shiftl 1 leader) |>)
  | None => Ret (false, k)
  end.

(** ** Releasing descriptors *)

Definition run_pipe (f : pstate (Sched F) -> outcome (pstate (Sched F))) k : outcome Kern :=
  p ← f (mkP (k_pipes k) (k_sched k));
  Ret (k <| k_pipes := PIPES p |> <| k_sched := TASKS p |>).
Definition record (e : Event) k : Kern := k <| k_events := k_events k ++ [e] |>.

(** The body of the loop of [close_task_fds] *)
Definition close_descriptor k (c : ClosedFileDescriptor) : outcome Kern :=
  if negb (last_open_ref c) then Ret k else
  match desc c with
  | PipeFd pipe_id PRead => run_pipe (pipe_close_reader pipe_id) k
  | PipeFd pipe_id PWrite => run_pipe (pipe_close_writer pipe_id) k
  | Socket socket_id => Ret (record (FreeSocket socket_id) k)
  | Pty pty_id side => Ret (record (ClosePty pty_id side) k)
  | _ => Ret k
  end.
Fixpoint close_descriptors k (l : list ClosedFileDescriptor) : outcome Kern :=
  match l with
  | [] => Ret k
  | c :: l => k ← close_descriptor k c; close_descriptors k l
  end.

(** [fd_table.take_all()] of the task in [slot] *)
Definition take_fds k (slot : Z) : list ClosedFileDescriptor * Kern :=
  match task_at (k_sched k) slot, k_tables k !! slot with
  | Some _, Some tbl =>
      let '(out, h, tbl) := take_all (k_arcs k) tbl in
      (out, k <| k_arcs := h |> <| k_tables := <[slot := tbl]> (k_tables k) |>)
  | _, _ => ([], k)
  end.

(** [close_task_fds] *)
Definition close_task_fds k (slot : Z) : outcome Kern :=
  if slot <=? 0 then Ret k else
  let '(taken, k) := take_fds k slot in
  close_descriptors k taken.

(** [drain_deferred_cleanup]; 32 bits are at most 32 rounds, and running out of
    rounds is a panic of the model. *)
Fixpoint drain_loop (n : nat) k (pending : Z) : outcome Kern :=
  match n with
  | O => Panic
  | S n =>
      if pending =? 0 then Ret k else
      let leader := trailing_zeros pending in
      let pending := clear_bits pending (Z.shiftl 1 leader) in
      if (leader =? 0) || (MAX_TASKS <=? leader) then drain_loop n k pending else
      if match task_at (k_sched k) leader with Some t => zombie t | None => false end then
        k ← close_task_fds k leader;
        drain_loop n (record (DestroyWindows leader) k) pending
      else drain_loop n k pending
  end.
Definition drain_deferred_cleanup k : outcome Kern := drain_loop 33 (k <| k_deferred := 0 |>) (k_deferred k).

(** ** Delivery *)

Section Deliver.
  (** The directory of the kernel, the CPU and the time of a switch. *)
  Variables (kernel_pd cpu now : Z).

Definition clear_pending k (slot sig : Z) : Kern :=
  k <| k_sched := on_task (k_sched k) slot (fun t => t <| pending_signals := clear_bits (pending_signals t) (sigbit sig) |>) |>.

(** The user frame that calls a handler: [sig] and the return address pushed. *)
Definition push_handler k (esp sig handler : Z) (c : CPUState) : Kern :=
  let usp1 := wrapping_sub 32 (r_esp c) 4 in
  let usp2 := wrapping_sub 32 usp1 4 in
  k <| k_user := <[usp2 := r_eip c]> (<[usp1 := sig]> (k_user k)) |>
    <| k_sched := k_sched k <| cpu_states := <[esp := c <| r_esp := usp2 |> <| r_eip := handler |>]> (cpu_states (k_sched k)) |> |>.
Definition call_handler k (slot esp sig handler : Z) : outcome Kern :=
  match task_at (k_sched k) slot with
  | Some _ => c ← unwrap (cpu_states (k_sched k) !! esp); Ret (push_handler (clear_pending k slot sig) esp sig handler c)
  | None => Ret k
  end.

(** The loop over the pending signals, lowest first; [Some sig] when it meets
    one whose action is to terminate. *)
Fixpoint deliver_loop (n : nat) k (slot esp remaining : Z) : outcome (option Z * Kern) :=
  match n with
  | O => Panic
  | S n =>
      if remaining =? 0 then Ret (None, k) else
      let sig := default 1 (lowest_sig remaining) in
      let remaining := clear_bits remaining (sigbit sig) in
      handler ← match task_at (k_sched k) slot with Some t => idx (signal_handlers t) (sig - 1) | None => Ret 0 end;
      if handler =? SIG_IGN then deliver_loop n (clear_pending k slot sig) slot esp remaining
      else if negb (handler =? SIG_DFL) then k ← call_handler k slot esp sig handler; Ret (None, k)
      else if negb (Z.land DEFAULT_TERMINATE (sigbit sig) =? 0) then Ret (Some sig, k)
      else deliver_loop n (clear_pending k slot sig) slot esp remaining
  end.

Definition switch k (esp : Z) : outcome (Z * Kern) :=
  '(next, s) ← schedule kernel_pd (k_sched k) cpu esp now;
  Ret (next, k <| k_sched := s |>).

(** The signals pending for the process of the current task, if it is to act
    on them. *)
Definition pending_of s (slot : Z) : outcome (option Z) :=
  o ← idx (tasks s) slot;
  Ret (match o with
       | Some t => if negb (pending_signals t =? 0) && running t && negb (zombie t) then Some (pending_signals t) else None
       | None => None
       end).

(** [deliver_pending_after_switch] *)
Definition deliver_pending_after_switch k (esp : Z) : outcome (Z * Kern) :=
  let thread_slot := task_slot_on_cpu (k_sched k) cpu in
  if thread_slot <=? 0 then Ret (esp, k) else
  let slot := process_slot (k_sched k) thread_slot in
  p ← pending_of (k_sched k) slot;
  match p with
  | None => Ret (esp, k)
  | Some pending =>
      let fatal := Z.land pending DEFAULT_TERMINATE in
      if negb (fatal =? 0) then
        '(_, k) ← force_kill k slot (default SIGINT (lowest_sig fatal));
        switch k esp
      else Ret (esp, k <| k_sched := on_task (k_sched k) slot (fun t => t <| pending_signals := 0 |>) |>)
  end.

(** [deliver_pending]; every path of the outer loop returns in its first
    round. *)
Definition deliver_pending k (esp : Z) : outcome (Z * Kern) :=
  c ← unwrap (cpu_states (k_sched k) !! esp);
  if negb (Z.land (r_cs c) 3 =? 3) then Ret (esp, k) else
  let thread_slot := task_slot_on_cpu (k_sched k) cpu in
  if thread_slot <=? 0 then Ret (esp, k) else
  let slot := process_slot (k_sched k) thread_slot in
  p ← pending_of (k_sched k) slot;
  match p with
  | None => Ret (esp, k)
  | Some pending =>
      '(fatal, k) ← deliver_loop 33 k slot esp pending;
      match fatal with
      | None => Ret (esp, k)
      | Some sig =>
          '(_, k) ← force_kill k slot sig;
          '(new_esp, k) ← switch k esp;
          deliver_pending_after_switch k new_esp
      end
  end.
End Deliver.
End Signals.
Arguments Kern : clear implicits.

(** ** Masks *)

Lemma pos_ctz_spec p : 0 <= pos_ctz p /\ Z.testbit (Zpos p) (pos_ctz p) = true /\
  forall j, 0 <= j < pos_ctz p -> Z.testbit (Zpos p) j = false.
Proof.
  induction p as [p IH|p IH|]; simpl pos_ctz; [split_and!; [lia|done|lia]| |split_and!; [lia|done|lia]].
  destruct IH as (H0 & H1 & H2). change (Zpos (xO p)) with (2 * Zpos p). split_and!; [lia| |].
  - rewrite Z.add_comm, Z.add_1_r, Z.testbit_even_succ by lia. done.
  - intros j Hj. destruct (Z.eq_dec j 0) as [->|]; [apply Z.testbit_even_0|].
    replace j with (Z.succ (j - 1)) by lia. rewrite Z.testbit_even_succ by lia. apply H2. lia.
Qed.

Lemma trailing_zeros_spec r w : 0 < r < 2 ^ w -> 0 <= w ->
  0 <= trailing_zeros r < w /\ Z.testbit r (trailing_zeros r) = true /\
  forall j, 0 <= j < trailing_zeros r -> Z.testbit r j = false.
Proof.
  intros Hr Hw. destruct r as [|p|p]; [lia| |lia]. destruct (pos_ctz_spec p) as (H0 & H1 & H2). simpl trailing_zeros.
  split_and!; try done. destruct (Z.lt_ge_cases (pos_ctz p) w) as [|Hge]; [done|].
  rewrite Z.bits_above_log2 in H1; [done|lia|]. apply (Z.lt_le_trans _ w); [|done]. apply Z.log2_lt_pow2; lia.
Qed.

Lemma clear_bits_spec mask bits j : 0 <= j < 32 -> Z.testbit (clear_bits mask bits) j = Z.testbit mask j && negb (Z.testbit bits j).
Proof.
  intros Hj. unfold clear_bits, not_u. rewrite Z.land_spec, Z.lxor_spec, Z.testbit_ones_nonneg by lia.
  rewrite (proj2 (Z.ltb_lt _ _)) by lia. by rewrite xorb_true_r.
Qed.

Lemma sigbit_spec sig j : 1 <= sig <= 31 -> 0 <= j -> Z.testbit (sigbit sig) j = (j =? sig - 1).
Proof.
  intros Hs Hj. unfold sigbit. rewrite (proj2 (Z.eqb_neq sig 0)), (proj2 (Z.ltb_ge 31 sig)) by lia. simpl.
  rewrite Z.shiftl_1_l, Z.pow2_bits_eqb by lia. apply Z.eqb_sym.
Qed.

Lemma clear_bits_range mask bits w : 0 <= mask < 2 ^ w -> 0 <= w -> 0 <= clear_bits mask bits < 2 ^ w.
Proof.
  intros Hm Hw. unfold clear_bits. assert (0 <= Z.land mask (not_u 32 bits)) by (apply Z.land_nonneg; lia).
  split; [done|]. apply bits_lt_pow2; [done..|]. intros j Hj. rewrite Z.land_spec, (testbit_above mask w) by lia. done.
Qed.

(** The signals of a mask in the order they are delivered. *)
Definition pending_list (mask : Z) : list Z := List.filter (fun sig => Z.testbit mask (sig - 1)) (seqZ 1 31).

Lemma pending_list_elem mask sig : sig ∈ pending_list mask <-> 1 <= sig <= 31 /\ Z.testbit mask (sig - 1) = true.
Proof.
  unfold pending_list. rewrite list_elem_of_In, List.filter_In, <- list_elem_of_In, elem_of_seqZ. split; intros [? ?]; split; lia || done.
Qed.

Lemma pending_list_0 : pending_list 0 = [].
Proof. done. Qed.

Lemma filter_none {A} (f : A -> bool) l : (forall x, x ∈ l -> f x = false) -> List.filter f l = [].
Proof.
  induction l as [|a l IH]; intros Hl; [done|]. simpl. rewrite Hl by (by left). apply IH. intros. apply Hl. by right.
Qed.
Lemma filter_same {A} (f g : A -> bool) l : (forall x, x ∈ l -> f x = g x) -> List.filter f l = List.filter g l.
Proof.
  induction l as [|a l IH]; intros Hl; [done|]. simpl. rewrite Hl by (by left). rewrite IH; [done|]. intros. apply Hl. by right.
Qed.

(** The lowest signal comes first, and clearing it leaves the rest. *)
Lemma pending_list_lowest r : 0 < r < 2 ^ 31 ->
  exists sig, lowest_sig r = Some sig /\ 1 <= sig <= 31 /\
    pending_list r = sig :: pending_list (clear_bits r (sigbit sig)) /\ 0 <= clear_bits r (sigbit sig) < 2 ^ 31.
Proof.
  intros Hr. destruct (trailing_zeros_spec r 31) as (Hc & Hb & Hlow); [done|lia|]. set (c := trailing_zeros r) in *.
  exists (c + 1). assert (1 <= c + 1 <= 31) as Hsig by lia. split_and!; try lia.
  - unfold lowest_sig. by rewrite (proj2 (Z.eqb_neq r 0)) by lia.
  - unfold pending_list. replace 31 with (c + (1 + (30 - c))) by lia. rewrite !seqZ_app by lia.
    rewrite (seqZ_cons (1 + c) 1) by lia. rewrite !List.filter_app.
    rewrite filter_none by (intros x Hx%elem_of_seqZ; apply Hlow; lia).
    rewrite (filter_none _ (seqZ 1 c)).
    2:{ intros x Hx%elem_of_seqZ. rewrite clear_bits_spec by lia. rewrite Hlow by lia. done. }
    simpl. replace (1 + c - 1) with c by lia. rewrite clear_bits_spec, sigbit_spec by lia.
    replace (c + 1 - 1) with c by lia. rewrite Hb, Z.eqb_refl. simpl. rewrite Z.add_comm. f_equal.
    apply filter_same. intros x Hx%elem_of_seqZ. rewrite clear_bits_spec, sigbit_spec by lia.
    rewrite (proj2 (Z.eqb_neq (x - 1) (c + 1 - 1))) by lia. by rewrite andb_true_r.
  - apply (clear_bits_range r (sigbit (c + 1)) 31); lia.
  - apply (clear_bits_range r (sigbit (c + 1)) 31); lia.
Qed.

(** ** Updating the threads of a process *)

Section SignalProofs.
  Context {F : Type} `{!FileStore F}.
  Implicit Types (s : Sched F) (k : Kern F) (t u : Task).

Lemma on_task_frame s slot f : on_task s slot f = s <| tasks := tasks (on_task s slot f) |> /\
  zlen (tasks (on_task s slot f)) = zlen (tasks s).
Proof. unfold on_task. destruct (task_at s slot); [|by destruct s]. simpl. by rewrite zlen_insert. Qed.

Lemma on_tasks_frame l : forall s f, on_tasks l f s = s <| tasks := tasks (on_tasks l f s) |> /\
  zlen (tasks (on_tasks l f s)) = zlen (tasks s).
Proof.
  induction l as [|a l IH]; intros s f; [by destruct s|].
  change (on_tasks (a :: l) f s) with (on_tasks l f (on_task s a f)).
  destruct (IH (on_task s a f) f) as [H1 H2]. destruct (on_task_frame s a f) as [H3 H4]. split; [|congruence].
  transitivity (on_task s a f <| tasks := tasks (on_tasks l f (on_task s a f)) |>); [exact H1|].
  unfold on_task. by destruct (task_at s a), s.
Qed.

Lemma on_tasks_at l : forall s f j, zlen (tasks s) = 32 -> NoDup l ->
  task_at (on_tasks l f s) j = if bool_decide (j ∈ l) then f <$> task_at s j else task_at s j.
Proof.
  induction l as [|a l IH]; intros s f j Hl Hnd; [done|]. apply NoDup_cons in Hnd as [Ha Hnd].
  change (on_tasks (a :: l) f s) with (on_tasks l f (on_task s a f)).
  rewrite IH; [|by rewrite (proj2 (on_task_frame s a f))|done]. rewrite on_task_at by done.
  destruct (Z.eqb_spec j a) as [->|Hne].
  - rewrite (bool_decide_eq_false_2 (a ∈ l)) by done. by rewrite bool_decide_eq_true_2 by (by left).
  - apply (f_equal (fun b : bool => if b then f <$> task_at s j else task_at s j)).
    apply bool_decide_ext. rewrite elem_of_cons. naive_solver.
Qed.

Lemma keeps_on_tasks l : forall ex s f,
  own_core ex s -> (forall t, zombie (f t) = zombie t /\ leader_slot (f t) = leader_slot t) -> keeps s (on_tasks l f s).
Proof.
  induction l as [|a l IH]; intros ex s f Hc Hf; [by eapply keeps_refl|].
  pose proof (keeps_on ex s a f Hc Hf) as Hk. eapply keeps_trans; [exact Hk|]. eapply IH; [by eapply keeps_core|done].
Qed.

Lemma thread_slots_elem s leader j : j ∈ thread_slots s leader <-> exists t, task_at s j = Some t /\ leader_slot t = leader.
Proof. unfold thread_slots. rewrite slots_where_elem. split; intros (t & ? & ?%Z.eqb_eq); by exists t. Qed.

Lemma thread_slots_NoDup s leader : NoDup (thread_slots s leader).
Proof. apply slots_from_NoDup. Qed.

(** A loop over the threads of a process updates exactly those. *)
Lemma on_members_at s leader f j : zlen (tasks s) = 32 ->
  task_at (on_tasks (thread_slots s leader) f s) j = (fun t => if leader_slot t =? leader then f t else t) <$> task_at s j.
Proof.
  intros Hl. rewrite on_tasks_at; [|done|apply thread_slots_NoDup]. destruct (task_at s j) as [t|] eqn:Ht.
  - simpl. destruct (Z.eqb_spec (leader_slot t) leader) as [He|Hne].
    + rewrite bool_decide_eq_true_2; [done|]. apply thread_slots_elem. by exists t.
    + rewrite bool_decide_eq_false_2; [done|]. intros (u & Hu & ?)%thread_slots_elem. congruence.
  - by destruct (bool_decide _).
Qed.

(** ** Killing *)

Definition wake_if (r : WaitReason) t : Task := if is_blocked_on r t then wake t else t.
Definition mark_dead (leader j : Z) t : Task := if j =? leader then t <| zombie := true |> else t.

(** The state in which the children of a killed process are given away. *)
Definition killed s (leader sig : Z) : Sched F :=
  on_task (on_tasks (thread_slots s leader) (kill_member sig) s) leader (fun t => t <| zombie := true |>).
Definition kill_task s (leader sig dead_pid j : Z) t : Task :=
  wake_if Thread (wake_if Child (reparented (killed s leader sig) dead_pid
    (mark_dead leader j (if leader_slot t =? leader then kill_member sig t else t)))).

Lemma kill_process_at s leader sig dead_pid j : zlen (tasks s) = 32 ->
  task_at (kill_process s leader sig dead_pid) j = kill_task s leader sig dead_pid j <$> task_at s j.
Proof.
  intros Hl. unfold kill_process. fold (killed s leader sig). unfold wake_waiters_tasks. rewrite !map_tasks_at, reparent_at.
  unfold killed at 2. rewrite on_task_at by (by rewrite (proj2 (on_tasks_frame _ _ _))). rewrite on_members_at by done.
  unfold kill_task, mark_dead, wake_if. destruct (task_at s j) as [t|]; simpl; [|by destruct (j =? leader)].
  by destruct (j =? leader).
Qed.

Lemma keeps_kill ex s leader sig dead_pid t :
  own_core ex s -> task_at s leader = Some t -> leader_slot t = leader -> 1 <= leader ->
  keeps s (kill_process s leader sig dead_pid).
Proof.
  intros Hc Ht Hlt Hpos. assert (keeps s (on_tasks (thread_slots s leader) (kill_member sig) s)) as K1 by (by eapply keeps_on_tasks).
  assert (own_core ex (on_tasks (thread_slots s leader) (kill_member sig) s)) as C1 by (by eapply keeps_core).
  assert (keeps s (killed s leader sig)) as K2.
  { eapply keeps_trans; [exact K1|]. apply (keeps_update ex); [done|]. intros u.
    rewrite on_members_at by apply (sw_tasks _ (oc_wf _ _ Hc)). rewrite Ht. simpl. rewrite Hlt, Z.eqb_refl. intros [= <-]. simpl.
    pose proof (task_at_range _ _ _ (sw_tasks _ (oc_wf _ _ Hc)) Ht). split; [split; simpl; lia|lia]. }
  assert (own_core ex (killed s leader sig)) as C2 by (by apply (keeps_core ex s)).
  assert (keeps s (reparent_children_of (killed s leader sig) dead_pid)) as K3
    by (eapply keeps_trans; [exact K2|]; by eapply keeps_reparent).
  eapply keeps_trans; [exact K3|]. apply (keeps_wake_leave ex). by apply (keeps_core ex s).
Qed.

Lemma wake_if_same r t : zombie (wake_if r t) = zombie t /\ pid (wake_if r t) = pid t /\ ppid (wake_if r t) = ppid t /\
  leader_slot (wake_if r t) = leader_slot t /\ term_signal (wake_if r t) = term_signal t /\ exit_code (wake_if r t) = exit_code t /\
  pending_signals (wake_if r t) = pending_signals t /\ thread_exited (wake_if r t) = thread_exited t.
Proof. unfold wake_if. by destruct (is_blocked_on r t). Qed.

Lemma reparented_run s p t : running (reparented s p t) = running t /\ state (reparented s p t) = state t /\
  thread_exited (reparented s p t) = thread_exited t /\ pending_signals (reparented s p t) = pending_signals t /\
  term_signal (reparented s p t) = term_signal t /\ exit_code (reparented s p t) = exit_code t.
Proof.
  unfold reparented. destruct (p <=? 0); [done|]. destruct (ppid t =? p); [|done].
  unfold adopt. destruct (if p =? 1 then None else live_init s); done.
Qed.

Lemma wake_if_zombie r t : state t = Zombie -> wake_if r t = t.
Proof. intros Hs. unfold wake_if, is_blocked_on. by rewrite Hs. Qed.

(** What a kill leaves of the tasks. *)
Definition dead_task (sig : Z) t : Prop :=
  let term := if sig =? 0 then SIGKILL else sig in
  running t = false /\ state t = Zombie /\ thread_exited t = true /\ pending_signals t = 0 /\
  term_signal t = term /\ exit_code t = 128 + term.

Lemma kill_task_member s leader sig p j t :
  leader_slot t = leader -> dead_task sig (kill_task s leader sig p j t) /\
  zombie (kill_task s leader sig p j t) = zombie t || (j =? leader).
Proof.
  intros Hl. unfold kill_task. rewrite Hl, Z.eqb_refl. set (t1 := mark_dead leader j (kill_member sig t)).
  assert (dead_task sig t1 /\ zombie t1 = zombie t || (j =? leader)) as [H1 Hz]
    by (unfold t1, mark_dead, dead_task; destruct (j =? leader); rewrite ?orb_true_r, ?orb_false_r; done).
  destruct (reparented_run (killed s leader sig) p t1) as (R1 & R2 & R3 & R4 & R5 & R6).
  destruct (reparented_same (killed s leader sig) p t1) as [R7 _].
  rewrite !(wake_if_zombie _ _) by (rewrite ?wake_if_zombie; rewrite ?R2; apply H1).
  unfold dead_task. rewrite R1, R2, R3, R4, R5, R6, R7. done.
Qed.

(** A task outside the process loses its dead parent and stops waiting for
    children and threads; nothing else changes. *)
Definition bystander (p : Z) t t' : Prop :=
  zombie t' = zombie t /\ pid t' = pid t /\ pending_signals t' = pending_signals t /\ (0 < p -> ppid t' <> p) /\
  blocked_reason t' <> Some Child /\ blocked_reason t' <> Some Thread /\
  (ppid t <> p -> blocked_reason t <> Some Child -> blocked_reason t <> Some Thread -> t' = t).

Lemma wake_if_not r t : blocked_reason (wake_if r t) <> Some r.
Proof.
  unfold wake_if, is_blocked_on, blocked_reason. destruct (bool_decide_reflect (state t = Blocked r)) as [He|Hne]; [done|].
  destruct (state t); try done. intros [= ->]. done.
Qed.
Lemma wake_if_id r t : blocked_reason t <> Some r -> wake_if r t = t.
Proof.
  unfold wake_if, is_blocked_on, blocked_reason. intros Hb. rewrite bool_decide_eq_false_2; [done|]. intros He. by rewrite He in Hb.
Qed.
Lemma wake_if_other r r' t : blocked_reason t <> Some r' -> blocked_reason (wake_if r t) <> Some r'.
Proof. unfold wake_if. by destruct (is_blocked_on r t). Qed.

Lemma kill_task_other s leader sig p j t :
  leader_slot t <> leader -> j <> leader -> bystander p t (kill_task s leader sig p j t).
Proof.
  intros Hl Hj. unfold kill_task. rewrite (proj2 (Z.eqb_neq _ _) Hl). unfold mark_dead. rewrite (proj2 (Z.eqb_neq _ _) Hj).
  set (w := killed s leader sig). set (t1 := reparented w p t).
  destruct (wake_if_same Child t1) as (A1 & A2 & A3 & _ & _ & _ & A7 & _).
  destruct (wake_if_same Thread (wake_if Child t1)) as (B1 & B2 & B3 & _ & _ & _ & B7 & _).
  destruct (reparented_run w p t) as (_ & R2 & _ & R4 & _). destruct (reparented_same w p t) as [R1 _].
  unfold bystander. rewrite B1, B2, B3, B7, A1, A2, A3, A7. unfold t1 at 1 2 3. rewrite R1, R4. split_and!.
  - done.
  - unfold reparented. destruct (p <=? 0); [done|]. destruct (ppid t =? p); [|done]. by destruct (if p =? 1 then None else live_init w).
  - done.
  - apply reparented_ppid.
  - apply wake_if_other, wake_if_not.
  - apply wake_if_not.
  - intros Hp Hc Ht. assert (t1 = t) as ->.
    { unfold t1, reparented. destruct (p <=? 0); [done|]. by rewrite (proj2 (Z.eqb_neq _ _) Hp). }
    rewrite (wake_if_id Child t Hc). by apply wake_if_id.
Qed.

Lemma core_slot_range ex s slot : own_core ex s -> 0 < slot < 32 -> 0 <= process_slot s slot < 32.
Proof.
  intros Hc Hs. unfold process_slot. destruct (task_at s slot) as [t|] eqn:Ht; [|lia].
  destruct (oc_zombie _ _ Hc slot t Ht) as [Hl _]. destruct (Z.leb_spec 0 (leader_slot t)); lia.
Qed.

Lemma idx_tasks ex s j : own_core ex s -> 0 <= j < 32 -> idx (tasks s) j = Ret (task_at s j).
Proof.
  intros Hc Hj. destruct (get_in_range (tasks s) j) as [o Ho]; [rewrite (sw_tasks _ (oc_wf _ _ Hc)); lia|].
  rewrite (proj2 (idx_Ret _ _ _) Ho). unfold task_at. by rewrite Ho.
Qed.

Lemma force_kill_eq ex k slot sig :
  own_core ex (k_sched k) -> 0 < slot < 32 ->
  let leader := process_slot (k_sched k) slot in
  force_kill k slot sig =
  match task_at (k_sched k) leader with
  | Some t => if zombie t then Ret (false, k) else
      Ret (true, k <| k_sched := kill_process (k_sched k) leader sig (pid t) |>
                   <| k_deferred := Z.lor (k_deferred k) (Z.shiftl 1 leader) |>)
  | None => Ret (false, k)
  end.
Proof.
  intros Hc Hs leader. unfold force_kill. rewrite (proj2 (Z.leb_gt _ _)) by lia. fold leader.
  rewrite (idx_tasks ex) by (done || by eapply core_slot_range). done.
Qed.

(** Killing a process marks every thread dead at once, for good: none of
    them can be chosen by the scheduler again, its signals are dropped, the
    exit status records the signal, the leader becomes a zombie for its parent
    to collect and its resources are queued for release.  Tasks of other
    processes only lose the dead parent and stop waiting for children or
    threads; a process that is already a zombie, or absent, is left alone. *)
Theorem force_kill_exact k slot sig :
  own_inv (k_sched k) -> 0 < slot < 32 ->
  let leader := process_slot (k_sched k) slot in
  match task_at (k_sched k) leader with
  | Some t =>
      leader_slot t = leader -> 1 <= leader ->
      if zombie t then force_kill k slot sig = Ret (false, k) else
      exists k', force_kill k slot sig = Ret (true, k') /\ own_inv (k_sched k') /\
        (forall j, Z.testbit (k_deferred k') j = Z.testbit (k_deferred k) j || (j =? leader)) /\
        forall j u, task_at (k_sched k) j = Some u -> exists u', task_at (k_sched k') j = Some u' /\
          if leader_slot u =? leader
          then dead_task sig u' /\ zombie u' = zombie u || (j =? leader) /\ claimable (k_sched k') j = false
          else bystander (pid t) u u'
  | None => force_kill k slot sig = Ret (false, k)
  end.
Proof.
  intros Hi Hs leader. pose proof (oi_core _ Hi) as Hc. pose proof (sw_tasks _ (oc_wf _ _ Hc)) as Hl32.
  pose proof (force_kill_eq (-1) k slot sig Hc Hs) as Heq. fold leader in Heq. cbv zeta in Heq.
  destruct (task_at (k_sched k) leader) as [t|] eqn:Ht; [|done]. intros Hlt Hpos. destruct (zombie t); [done|].
  eexists. split; [exact Heq|]. cbn [k_sched k_deferred set_field setter]. split_and!.
  - apply (keeps_inv (k_sched k)); [done|]. by eapply keeps_kill.
  - intros j. rewrite Z.lor_spec. f_equal. destruct (Z.lt_ge_cases j 0) as [Hn|Hn].
    + rewrite Z.testbit_neg_r by done. symmetry. apply Z.eqb_neq. lia.
    + rewrite Z.shiftl_1_l, Z.pow2_bits_eqb by lia. apply Z.eqb_sym.
  - intros j u Hu. assert (task_at (kill_process (k_sched k) leader sig (pid t)) j =
      Some (kill_task (k_sched k) leader sig (pid t) j u)) as Hat by (rewrite kill_process_at, Hu; done).
    eexists. split; [exact Hat|]. destruct (Z.eqb_spec (leader_slot u) leader) as [Hm|Hm].
    + destruct (kill_task_member (k_sched k) leader sig (pid t) j u Hm) as [Hd Hz]. split_and!; try apply Hd; try done.
      unfold claimable. cbn [k_sched set_field setter]. rewrite Hat. by rewrite (proj1 Hd).
    + apply kill_task_other; [done|]. intros ->. congruence.
Qed.
(** ** Delivery *)

(** What delivery does with the pending signals, on lists: ignored signals and
    signals without an action are dropped until one is handled or terminates. *)
Inductive action : Type := Nothing | Call (sig handler : Z) | Terminate (sig : Z).

Definition fatal_by_default (sig : Z) : bool := bool_decide (sig ∈ [SIGHUP; SIGINT; SIGQUIT; SIGKILL; SIGTERM]).

Fixpoint decide_signals (handlers sigs : list Z) : list Z * action :=
  match sigs with
  | [] => ([], Nothing)
  | sig :: rest =>
      let handler := default 0 (get handlers (sig - 1)) in
      if negb (handler =? SIG_IGN) && negb (handler =? SIG_DFL) then ([], Call sig handler)
      else if (handler =? SIG_DFL) && fatal_by_default sig then ([], Terminate sig)
      else let '(dropped, a) := decide_signals handlers rest in (sig :: dropped, a)
  end.

Definition drop_signals (slot : Z) (l : list Z) k : Kern F := foldl (fun k sig => clear_pending k slot sig) k l.

Lemma fatal_mask sig : 1 <= sig <= 31 -> negb (Z.land DEFAULT_TERMINATE (sigbit sig) =? 0) = fatal_by_default sig.
Proof.
  intros Hs. assert (forallb (fun sig => Bool.eqb (negb (Z.land DEFAULT_TERMINATE (sigbit sig) =? 0)) (fatal_by_default sig))
    (seqZ 1 31) = true) as Hall by (by vm_compute).
  rewrite forallb_forall in Hall. apply eqb_prop, Hall, list_elem_of_In, elem_of_seqZ. lia.
Qed.

Lemma terminate_bits j : 0 <= j < 31 -> Z.testbit DEFAULT_TERMINATE j = fatal_by_default (j + 1).
Proof.
  intros Hj. assert (forallb (fun j => Bool.eqb (Z.testbit DEFAULT_TERMINATE j) (fatal_by_default (j + 1))) (seqZ 0 31) = true)
    as Hall by (by vm_compute).
  rewrite forallb_forall in Hall. apply eqb_prop, Hall, list_elem_of_In, elem_of_seqZ. lia.
Qed.

(** Clearing a signal leaves the frames and the handlers alone. *)
Lemma clear_pending_task k slot sig t :
  zlen (tasks (k_sched k)) = 32 -> task_at (k_sched k) slot = Some t ->
  exists t', task_at (k_sched (clear_pending k slot sig)) slot = Some t' /\ signal_handlers t' = signal_handlers t /\
    zlen (tasks (k_sched (clear_pending k slot sig))) = 32 /\
    cpu_states (k_sched (clear_pending k slot sig)) = cpu_states (k_sched k).
Proof.
  intros Hl Ht. unfold clear_pending. cbn [k_sched set_field setter]. eexists. split; [by rewrite on_task_at, Z.eqb_refl, Ht|].
  split; [done|]. set (f := fun t => _). destruct (on_task_frame (k_sched k) slot f) as [Hf Hz]. split; [congruence|].
  rewrite Hf. done.
Qed.

Lemma deliver_loop_ok n : forall k slot esp r t c,
  zlen (tasks (k_sched k)) = 32 -> task_at (k_sched k) slot = Some t -> zlen (signal_handlers t) = 32 ->
  cpu_states (k_sched k) !! esp = Some c -> 0 <= r < 2 ^ 31 -> (length (pending_list r) < n)%nat ->
  deliver_loop n k slot esp r =
  let '(dropped, a) := decide_signals (signal_handlers t) (pending_list r) in
  let k1 := drop_signals slot dropped k in
  Ret (match a with
       | Nothing => (None, k1)
       | Call sig handler => (None, push_handler (clear_pending k1 slot sig) esp sig handler c)
       | Terminate sig => (Some sig, k1)
       end).
Proof.
  induction n as [|n IH]; intros k slot esp r t c Hl Ht Hh Hc Hr Hn; [lia|]. cbn [deliver_loop].
  destruct (Z.eqb_spec r 0) as [->|Hne]; [done|].
  destruct (pending_list_lowest r) as (sig & Hlow & Hsig & Hlist & Hr'); [lia|]. rewrite Hlow, Hlist in *. change (default 1 (Some sig)) with sig.
  destruct (get_in_range (signal_handlers t) (sig - 1)) as [h Hg]; [lia|].
  rewrite Ht, (proj2 (idx_Ret _ _ _) Hg), bind_Ret_l. cbn [decide_signals]. rewrite Hg. change (default 0 (Some h)) with h.
  destruct (clear_pending_task k slot sig t Hl Ht) as (t' & Ht' & Hh' & Hl' & Hc').
  assert (deliver_loop n (clear_pending k slot sig) slot esp (clear_bits r (sigbit sig)) =
    (let '(dropped, a) := (let '(dropped, a) := decide_signals (signal_handlers t) (pending_list (clear_bits r (sigbit sig)))
       in (sig :: dropped, a)) in let k1 := drop_signals slot dropped k in
     Ret (match a with
       | Nothing => (None, k1)
       | Call sig handler => (None, push_handler (clear_pending k1 slot sig) esp sig handler c)
       | Terminate sig => (Some sig, k1)
       end))) as Hnext.
  { rewrite (IH _ _ _ _ t' c); [|done..|by rewrite Hh'|by rewrite Hc'|done|simpl in Hn; lia]. rewrite Hh'.
    destruct (decide_signals _ _) as [dropped a]. done. }
  unfold SIG_IGN, SIG_DFL in *. destruct (Z.eqb_spec h 1) as [->|]; cbn [negb andb].
  { exact Hnext. }
  destruct (Z.eqb_spec h 0) as [->|]; cbn [negb andb].
  - rewrite fatal_mask by done. destruct (fatal_by_default sig); [done|exact Hnext].
  - unfold call_handler. rewrite Ht, Hc. done.
Qed.

Lemma pending_list_length r : (length (pending_list r) <= 31)%nat.
Proof. unfold pending_list. etransitivity; [apply List.filter_length_le|]. by rewrite length_seqZ. Qed.
(** The process of the current task of [cpu] returns to user mode with signals
    pending. *)
Record returning (cpu esp slot : Z) k t (c : CPUState) : Prop := {
  rt_inv : own_inv (k_sched k);
  rt_cpu : 0 <= cpu < 64;
  rt_current : 0 < task_slot_on_cpu (k_sched k) cpu;
  rt_slot : slot = process_slot (k_sched k) (task_slot_on_cpu (k_sched k) cpu) /\ 1 <= slot;
  rt_task : task_at (k_sched k) slot = Some t;
  rt_leader : leader_slot t = slot;
  rt_alive : running t = true /\ zombie t = false;
  rt_pending : 0 < pending_signals t < 2 ^ 31;
  rt_handlers : zlen (signal_handlers t) = 32;
  rt_frame : cpu_states (k_sched k) !! esp = Some c;
  rt_user : Z.land (r_cs c) 3 = 3
}.

Lemma current_range ex s cpu : own_core ex s -> cpu <> ex -> task_slot_on_cpu s cpu < 32.
Proof.
  intros Hc Hne. unfold task_slot_on_cpu. destruct (get (cpu_slot s) cpu) as [p|] eqn:Hp; simpl; [|lia].
  destruct (oc_cpu _ _ Hc cpu p Hne Hp) as [?|[?|?]]; lia.
Qed.

Lemma pending_of_ok s slot t ex : own_core ex s -> task_at s slot = Some t ->
  pending_of s slot = Ret (if negb (pending_signals t =? 0) && running t && negb (zombie t) then Some (pending_signals t) else None).
Proof.
  intros Hc Ht. unfold pending_of. pose proof (task_at_range _ _ _ (sw_tasks _ (oc_wf _ _ Hc)) Ht).
  rewrite (idx_tasks ex), Ht by done. done.
Qed.

(** Dropping signals keeps what a kill looks at. *)
Lemma drop_signals_keeps l : forall k slot t,
  own_inv (k_sched k) -> task_at (k_sched k) slot = Some t ->
  own_inv (k_sched (drop_signals slot l k)) /\ exists t', task_at (k_sched (drop_signals slot l k)) slot = Some t' /\
    zombie t' = zombie t /\ leader_slot t' = leader_slot t /\ pid t' = pid t.
Proof.
  induction l as [|sig l IH]; intros k slot t Hi Ht; [split; [done|by exists t]|].
  change (drop_signals slot (sig :: l) k) with (drop_signals slot l (clear_pending k slot sig)).
  set (f := fun t => t <| pending_signals := clear_bits (pending_signals t) (sigbit sig) |>).
  assert (own_inv (k_sched (clear_pending k slot sig))) as Hi1
    by (apply (keeps_inv (k_sched k)); [done|]; apply (keeps_on (-1)); [apply (oi_core _ Hi)|done]).
  assert (task_at (k_sched (clear_pending k slot sig)) slot = Some (f t)) as Ht1.
  { unfold clear_pending. cbn [k_sched set_field setter].
    rewrite on_task_at, Z.eqb_refl, Ht by apply (sw_tasks _ (oc_wf _ _ (oi_core _ Hi))). done. }
  destruct (IH (clear_pending k slot sig) slot (f t) Hi1 Ht1) as [H1 (t' & H2 & H3 & H4 & H5)].
  split; [done|]. exists t'. done.
Qed.

(** Killing the process of the current task and switching away never fails. *)
Lemma kill_switch_ok kernel_pd cpu now k esp slot sig t :
  own_inv (k_sched k) -> 0 <= cpu < 64 -> task_at (k_sched k) slot = Some t -> leader_slot t = slot -> 1 <= slot ->
  zombie t = false ->
  exists k1 next k2, force_kill k slot sig = Ret (true, k1) /\ switch kernel_pd cpu now k1 esp = Ret (next, k2) /\
    own_inv (k_sched k2) /\ dispatched kernel_pd (k_sched k2) cpu next.
Proof.
  intros Hi Hcpu Ht Hlead Hpos Hz. pose proof (oi_core _ Hi) as Hc.
  pose proof (task_at_range _ _ _ (sw_tasks _ (oc_wf _ _ Hc)) Ht) as Hr.
  assert (process_slot (k_sched k) slot = slot) as Hps
    by (unfold process_slot; rewrite Ht, Hlead; by rewrite (proj2 (Z.leb_le _ _)) by lia).
  pose proof (force_kill_eq (-1) k slot sig Hc ltac:(lia)) as Hk. cbv zeta in Hk. rewrite Hps, Ht, Hz in Hk.
  set (k1 := k <| k_sched := kill_process (k_sched k) slot sig (pid t) |>
               <| k_deferred := Z.lor (k_deferred k) (Z.shiftl 1 slot) |>) in *.
  assert (own_inv (k_sched k1)) as Hi1 by (apply (keeps_inv (k_sched k)); [done|]; by apply (keeps_kill (-1) _ _ _ _ t)).
  destruct (schedule_ok kernel_pd (k_sched k1) cpu esp now Hi1 Hcpu) as (next & s2 & Hs & Hi2 & Hd).
  exists k1, next, (k1 <| k_sched := s2 |>). split_and!; try done. unfold switch. by rewrite Hs.
Qed.

(** The fatal signals of a mask and the lowest of them. *)
Lemma lowest_fatal p sig : 0 <= p < 2 ^ 31 -> Z.testbit p (sig - 1) = true -> fatal_by_default sig = true ->
  exists sig', 1 <= sig' <= sig /\ Z.land p DEFAULT_TERMINATE <> 0 /\ lowest_sig (Z.land p DEFAULT_TERMINATE) = Some sig'.
Proof.
  intros Hp Hb Hf. set (fatal := Z.land p DEFAULT_TERMINATE). assert (1 <= sig <= 31) as Hs31.
  { unfold fatal_by_default in Hf. apply bool_decide_eq_true in Hf. unfold SIGHUP, SIGINT, SIGQUIT, SIGKILL, SIGTERM in Hf.
    repeat (apply elem_of_cons in Hf as [-> |Hf]; [lia|]). by apply not_elem_of_nil in Hf. }
  assert (0 <= fatal < 2 ^ 31) as Hfr.
  { assert (0 <= fatal) by (apply Z.land_nonneg; lia). split; [done|]. apply bits_lt_pow2; [done..|]. intros j Hj.
    unfold fatal. rewrite Z.land_spec, (testbit_above p 31) by lia. done. }
  assert (Z.testbit fatal (sig - 1) = true) as Hfb
    by (unfold fatal; rewrite Z.land_spec, Hb, terminate_bits by lia; by replace (sig - 1 + 1) with sig by lia).
  assert (fatal <> 0) as Hnz by (intros Hz0; by rewrite Hz0, Z.bits_0 in Hfb).
  destruct (trailing_zeros_spec fatal 31) as (Htz & _ & Hlow); [lia..|].
  exists (trailing_zeros fatal + 1). unfold lowest_sig. rewrite (proj2 (Z.eqb_neq _ _)) by done. split_and!; try done; [lia|].
  destruct (Z.le_gt_cases (trailing_zeros fatal + 1) sig) as [|Hgt]; [done|]. rewrite Hlow in Hfb by lia. done.
Qed.

Lemma no_fatal p : 0 <= p < 2 ^ 31 -> (forall sig, Z.testbit p (sig - 1) = true -> fatal_by_default sig = false) ->
  Z.land p DEFAULT_TERMINATE = 0.
Proof.
  intros Hp Hnone. apply Z.bits_inj'. intros j Hj. rewrite Z.bits_0, Z.land_spec.
  destruct (Z.lt_ge_cases j 31); [|by rewrite (testbit_above p 31) by lia]. rewrite terminate_bits by lia.
  destruct (Z.testbit p j) eqn:Hpj; [|done]. simpl. apply Hnone. by replace (j + 1 - 1) with j by lia.
Qed.

(** C16. Delivery on the way to user mode treats the pending signals in
    increasing order exactly as the list specification [decide_signals] does:
    ignored signals and signals without an action are dropped, a handled one is
    dequeued and its handler entered with the signal number and the interrupted
    instruction on the user stack, and one whose default action is to terminate
    kills the process and switches to another task; the loop always ends. *)
Theorem deliver_pending_exact kernel_pd cpu now k esp slot t c :
  returning cpu esp slot k t c ->
  let '(dropped, a) := decide_signals (signal_handlers t) (pending_list (pending_signals t)) in
  let k1 := drop_signals slot dropped k in
  match a with
  | Nothing => deliver_pending kernel_pd cpu now k esp = Ret (esp, k1)
  | Call sig handler =>
      deliver_pending kernel_pd cpu now k esp = Ret (esp, push_handler (clear_pending k1 slot sig) esp sig handler c)
  | Terminate sig =>
      exists k2 next k3, force_kill k1 slot sig = Ret (true, k2) /\ switch kernel_pd cpu now k2 esp = Ret (next, k3) /\
        own_inv (k_sched k3) /\ dispatched kernel_pd (k_sched k3) cpu next /\
        deliver_pending kernel_pd cpu now k esp = deliver_pending_after_switch kernel_pd cpu now k3 next
  end.
Proof.
  intros [Hi Hcpu Hcur [Hslot Hpos] Ht Hlead [Hrun Hz] Hp Hh Hfr Hcs]. pose proof (oi_core _ Hi) as Hc.
  assert (deliver_pending kernel_pd cpu now k esp =
    '(fatal, k) ← deliver_loop 33 k slot esp (pending_signals t);
    match fatal with
    | None => Ret (esp, k)
    | Some sig => '(_, k) ← force_kill k slot sig; '(new_esp, k) ← switch kernel_pd cpu now k esp;
                  deliver_pending_after_switch kernel_pd cpu now k new_esp
    end) as Heq.
  { unfold deliver_pending. rewrite Hfr. cbn [unwrap]. rewrite bind_Ret_l, Hcs. cbn [Z.eqb Pos.eqb negb].
    rewrite (proj2 (Z.leb_gt _ _)) by lia. rewrite <- Hslot, (pending_of_ok _ slot t (-1)) by done.
    rewrite Hrun, Hz, (proj2 (Z.eqb_neq _ _)) by lia. cbn [negb andb]. rewrite bind_Ret_l. reflexivity. }
  rewrite Heq, (deliver_loop_ok 33 k slot esp _ t c); try done; try lia.
  2:{ apply (sw_tasks _ (oc_wf _ _ Hc)). }
  2:{ pose proof (pending_list_length (pending_signals t)). lia. }
  destruct (decide_signals _ _) as [dropped a]. cbv zeta. destruct a as [|sig handler|sig]; [done..|]. rewrite bind_Ret_l.
  destruct (drop_signals_keeps dropped k slot t Hi Ht) as [Hi1 (t1 & Ht1 & Hz1 & Hl1 & Hp1)].
  destruct (kill_switch_ok kernel_pd cpu now (drop_signals slot dropped k) esp slot sig t1)
    as (k2 & next & k3 & Hk & Hsw & Hi3 & Hd); try done; [congruence..|].
  exists k2, next, k3. split_and!; try done. by rewrite Hk, bind_Ret_l, Hsw.
Qed.

(** C40. After such a switch the handlers of the next process are not
    consulted: a signal that terminates by default kills it even if the process
    installed a handler for it or ignores it, and when none is pending every
    other pending signal is lost, handled or not. *)
Theorem after_switch_ignores_handlers kernel_pd cpu now k esp slot t c :
  returning cpu esp slot k t c ->
  (forall sig, Z.testbit (pending_signals t) (sig - 1) = true -> fatal_by_default sig = true ->
    exists k1 sig' next k2, 1 <= sig' <= sig /\ force_kill k slot sig' = Ret (true, k1) /\
      switch kernel_pd cpu now k1 esp = Ret (next, k2) /\
      deliver_pending_after_switch kernel_pd cpu now k esp = Ret (next, k2)) /\
  ((forall sig, Z.testbit (pending_signals t) (sig - 1) = true -> fatal_by_default sig = false) ->
    exists k1 t', deliver_pending_after_switch kernel_pd cpu now k esp = Ret (esp, k1) /\
      task_at (k_sched k1) slot = Some t' /\ pending_signals t' = 0).
Proof.
  intros [Hi Hcpu Hcur [Hslot Hpos] Ht Hlead [Hrun Hz] Hp Hh Hfr Hcs]. pose proof (oi_core _ Hi) as Hc.
  pose proof (task_at_range _ _ _ (sw_tasks _ (oc_wf _ _ Hc)) Ht) as Hr. set (p := pending_signals t) in *.
  set (fatal := Z.land p DEFAULT_TERMINATE).
  assert (deliver_pending_after_switch kernel_pd cpu now k esp =
    if negb (fatal =? 0) then '(_, k) ← force_kill k slot (default SIGINT (lowest_sig fatal)); switch kernel_pd cpu now k esp
    else Ret (esp, k <| k_sched := on_task (k_sched k) slot (fun t => t <| pending_signals := 0 |>) |>)) as Heq.
  { unfold deliver_pending_after_switch. rewrite (proj2 (Z.leb_gt _ _)) by lia. rewrite <- Hslot, (pending_of_ok _ slot t (-1)) by done.
    rewrite Hrun, Hz, (proj2 (Z.eqb_neq _ _)) by lia. cbn [negb andb]. rewrite bind_Ret_l. reflexivity. }
  rewrite Heq. split.
  - intros sig Hb Hf. destruct (lowest_fatal p sig) as (sig' & Hs' & Hnz & Hlow); [lia|done..|]. fold fatal in Hnz, Hlow.
    rewrite (proj2 (Z.eqb_neq _ _) Hnz), Hlow. cbn [negb]. change (default SIGINT (Some sig')) with sig'.
    destruct (kill_switch_ok kernel_pd cpu now k esp slot sig' t) as (k1 & next & k2 & Hk & Hsw & _); try done.
    exists k1, sig', next, k2. split_and!; try done; [lia..|]. by rewrite Hk, bind_Ret_l.
  - intros Hnone. assert (fatal = 0) as -> by (apply no_fatal; [lia|done]).
    eexists _, _. split; [reflexivity|]. cbn [k_sched set_field setter].
    rewrite on_task_at, Z.eqb_refl, Ht by apply (sw_tasks _ (oc_wf _ _ Hc)). done.
Qed.
(** ** Stopping and continuing *)

(** The common shape of [stop_task_with_signal] and [continue_task]: every
    thread through [f], then the leader through [g], then parents wake. *)
Definition group_update s (leader : Z) (f g : Task -> Task) : Sched F :=
  wake_waiters_tasks Child (on_task (on_tasks (thread_slots s leader) f s) leader g).

Lemma group_update_at s leader f g j t : zlen (tasks s) = 32 -> task_at s j = Some t ->
  task_at (group_update s leader f g) j =
  Some (wake_if Child ((if j =? leader then g else id) (if leader_slot t =? leader then f t else t))).
Proof.
  intros Hl Ht. unfold group_update, wake_waiters_tasks. rewrite map_tasks_at.
  rewrite on_task_at by (by rewrite (proj2 (on_tasks_frame _ _ _))). rewrite on_members_at, Ht by done. by destruct (j =? leader).
Qed.

Lemma keeps_group ex s leader f g : own_core ex s ->
  (forall t, zombie (f t) = zombie t /\ leader_slot (f t) = leader_slot t) ->
  (forall t, zombie (g t) = zombie t /\ leader_slot (g t) = leader_slot t) -> keeps s (group_update s leader f g).
Proof.
  intros Hc Hf Hg. assert (keeps s (on_tasks (thread_slots s leader) f s)) as K1 by (by eapply keeps_on_tasks).
  pose proof (keeps_core ex _ _ Hc K1) as C1. pose proof (keeps_on ex _ leader g C1 Hg) as K2.
  eapply keeps_trans; [exact K1|]. eapply keeps_trans; [exact K2|]. apply (keeps_wake_waiters ex). by eapply keeps_core.
Qed.

(** A live process whose leader is in place. *)
Record group_leader s (slot leader : Z) t : Prop := {
  gl_slot : 0 < slot < 32;
  gl_leader : process_slot s slot = leader;
  gl_task : task_at s leader = Some t;
  gl_self : leader_slot t = leader;
  gl_alive : zombie t = false
}.

Lemma stop_task_eq s slot leader t sig : own_inv s -> group_leader s slot leader t ->
  stop_task_with_signal s slot sig =
  if stopped t then Ret (false, s) else Ret (true, group_update s leader stop_member (latch_stop sig)).
Proof.
  intros Hi [Hs Hl Ht Hself Hz]. pose proof (oi_core _ Hi) as Hc. pose proof (sw_tasks _ (oc_wf _ _ Hc)) as H32.
  pose proof (task_at_range _ _ _ H32 Ht) as Hr. unfold stop_task_with_signal. rewrite (proj2 (Z.leb_gt _ _)) by lia.
  rewrite Hl, (idx_tasks (-1)), bind_Ret_l, Ht, Hz by done. cbn [orb]. destruct (stopped t); [done|].
  unfold group_update. rewrite on_members_at, Ht by done. simpl. rewrite Hself, Z.eqb_refl.
  replace (zombie (stop_member t)) with (zombie t) by (unfold stop_member; by destruct (thread_exited t)). rewrite Hz.
  rewrite (on_task_put _ leader (stop_member t)); [done|]. rewrite on_members_at, Ht by done. simpl. by rewrite Hself, Z.eqb_refl.
Qed.

Lemma continue_task_eq s slot leader t : own_inv s -> group_leader s slot leader t ->
  continue_task s slot = Ret (true, group_update s leader continue_member (latch_continue (stopped t))).
Proof.
  intros Hi [Hs Hl Ht Hself Hz]. pose proof (oi_core _ Hi) as Hc. pose proof (sw_tasks _ (oc_wf _ _ Hc)) as H32.
  pose proof (task_at_range _ _ _ H32 Ht) as Hr. unfold continue_task. rewrite (proj2 (Z.leb_gt _ _)) by lia.
  rewrite Hl, (idx_tasks (-1)), bind_Ret_l, Ht by done.
  unfold group_update. rewrite on_members_at, Ht by done. simpl. rewrite Hself, Z.eqb_refl.
  replace (zombie (continue_member t)) with (zombie t) by (unfold continue_member; by destruct (thread_exited t)). rewrite Hz.
  rewrite (on_task_put _ leader (continue_member t)); [done|]. rewrite on_members_at, Ht by done. simpl. by rewrite Hself, Z.eqb_refl.
Qed.

Lemma stop_members_at s leader sig j u : zlen (tasks s) = 32 -> task_at s j = Some u -> leader_slot u = leader ->
  thread_exited u = false ->
  exists u', task_at (group_update s leader stop_member (latch_stop sig)) j = Some u' /\ state u' = Stopped /\ running u' = false /\
    (j = leader -> wait_stopped_pending u' = true /\ stop_signal u' = sig /\
      pending_signals u' = clear_bits (pending_signals u) (Z.lor (sigbit sig) (sigbit SIGCONT))).
Proof.
  intros Hl Hu Hlead He. eexists. split; [by apply group_update_at|]. rewrite Hlead, Z.eqb_refl. unfold stop_member. rewrite He.
  destruct (Z.eqb_spec j leader) as [->|]; rewrite wake_if_id by done; done.
Qed.

Lemma continue_members_at s leader was j u : zlen (tasks s) = 32 -> task_at s j = Some u -> leader_slot u = leader ->
  thread_exited u = false ->
  exists u', task_at (group_update s leader continue_member (latch_continue was)) j = Some u' /\ state u' = Runnable /\
    running u' = true /\ stopped u' = false /\
    (j = leader -> wait_continued_pending u' = was || wait_continued_pending u /\
      forall sig, sig ∈ [SIGCONT; SIGSTOP; SIGTSTP; SIGTTIN; SIGTTOU] -> Z.testbit (pending_signals u') (sig - 1) = false).
Proof.
  intros Hl Hu Hlead He. eexists. split; [by apply group_update_at|]. rewrite Hlead, Z.eqb_refl. unfold continue_member. rewrite He.
  destruct (Z.eqb_spec j leader) as [->|]; [|rewrite wake_if_id by done; done].
  rewrite wake_if_id by (unfold latch_continue; by destruct was). unfold latch_continue.
  split_and!; try (by destruct was). intros _. split; [by destruct was|]. intros sig Hsig.
  assert (forall m, Z.testbit (clear_bits m (Z.lor (Z.lor (Z.lor (Z.lor (sigbit SIGCONT) (sigbit SIGSTOP)) (sigbit SIGTSTP))
    (sigbit SIGTTIN)) (sigbit SIGTTOU))) (sig - 1) = false) as Hcl; [|by destruct was; apply Hcl].
  intros m. repeat (apply elem_of_cons in Hsig as [-> |Hsig]; [by rewrite clear_bits_spec, andb_false_r by done|]).
  by apply not_elem_of_nil in Hsig.
Qed.

(** Job control on a live process: stopping takes every live thread off the
    processors, latches the stop with its signal for the parent and discards a
    pending SIGCONT, and is refused for a process that is already stopped;
    continuing makes every live thread runnable, discards pending stop signals
    and latches the event exactly when the process was stopped.  Both keep the
    ownership invariant of the scheduler. *)
Theorem job_control_exact s slot leader t sig :
  own_inv s -> group_leader s slot leader t ->
  (if stopped t then stop_task_with_signal s slot sig = Ret (false, s) else
   exists s', stop_task_with_signal s slot sig = Ret (true, s') /\ own_inv s' /\
     forall j u, task_at s j = Some u -> leader_slot u = leader -> thread_exited u = false ->
       exists u', task_at s' j = Some u' /\ state u' = Stopped /\ running u' = false /\
         (j = leader -> wait_stopped_pending u' = true /\ stop_signal u' = sig /\
           pending_signals u' = clear_bits (pending_signals u) (Z.lor (sigbit sig) (sigbit SIGCONT)))) /\
  exists s', continue_task s slot = Ret (true, s') /\ own_inv s' /\
    forall j u, task_at s j = Some u -> leader_slot u = leader -> thread_exited u = false ->
      exists u', task_at s' j = Some u' /\ state u' = Runnable /\ running u' = true /\ stopped u' = false /\
        (j = leader -> wait_continued_pending u' = stopped t || wait_continued_pending u /\
          forall sig, sig ∈ [SIGCONT; SIGSTOP; SIGTSTP; SIGTTIN; SIGTTOU] -> Z.testbit (pending_signals u') (sig - 1) = false).
Proof.
  intros Hi Hg. pose proof (oi_core _ Hi) as Hc. pose proof (sw_tasks _ (oc_wf _ _ Hc)) as H32.
  rewrite (stop_task_eq s slot leader t sig Hi Hg), (continue_task_eq s slot leader t Hi Hg). split.
  - destruct (stopped t); [done|]. eexists. split; [reflexivity|]. split; [|intros; by apply stop_members_at].
    apply (keeps_inv s); [done|]. apply (keeps_group (-1)); [done| |done]. intros u. unfold stop_member. by destruct (thread_exited u).
  - eexists. split; [reflexivity|]. split; [|intros; by apply continue_members_at].
    apply (keeps_inv s); [done|]. apply (keeps_group (-1)); [done| |]; intros u.
    + unfold continue_member. by destruct (thread_exited u).
    + unfold latch_continue. by destruct (stopped t).
Qed.
End SignalProofs.

(** ** Witnesses *)

(** A process with pid 5 in slot 1 runs on CPU 1: SIGWINCH and SIGTERM are
    pending, and it has a handler for SIGTERM. *)
Definition wit_handlers : list Z := <[14%nat := 0x400100]> (replicate 32 0).
Definition wit_sig_task : Task :=
  wit_task <| pid := 5 |> <| tid := 5 |> <| ppid := 1 |> <| leader_slot := 1 |> <| signal_handlers := wit_handlers |>
           <| pending_signals := Z.lor (sigbit SIGTERM) (sigbit SIGWINCH) |>.
Definition wit_frame : CPUState := mkCpu 0 0 0 0 0 0 0 0x400020 0x1B 0x202 0xBFFFF000 0x23.
Definition wit_sig_start : Sched unit := put_task wit_boot 1 (Some wit_sig_task).
Definition wit_sig_ran : Sched unit :=
  match schedule 0x1000 wit_sig_start 1 0xC0200000 5 with Ret (_, s) => s | Panic => wit_sched end.
Definition wit_kern : Kern unit :=
  mkKern (wit_sig_ran <| cpu_states := {[ 0xC0300000 := wit_frame ]} |>) (mkArcs ∅ 0) ∅ [] 0 ∅ [].

Lemma own_inv_frames {F} (s : Sched F) fr : own_inv s -> own_inv (s <| cpu_states := fr |>).
Proof. intros [[[] ? ? ? ? ?] ?]. constructor; [by constructor|done]. Qed.

Lemma wit_sig_ran_inv : own_inv wit_sig_ran.
Proof.
  assert (own_inv wit_boot) as H0
    by (apply (sched_init_inv (64 * MIB) 16 None 0xC0101000 wit_memory); by vm_compute).
  assert (own_inv wit_sig_start) as H1.
  { apply (sched_step_inv no_shootdown (64 * MIB) 0x1000 wit_boot _ H0).
    apply (ss_spawn _ _ _ _ 1 wit_sig_task); [lia|by vm_compute|done|done]. }
  apply (sched_step_inv no_shootdown (64 * MIB) 0x1000 wit_sig_start _ H1).
  apply (ss_tick _ _ _ wit_sig_start 1 0xC0200000 5 0 wit_sig_ran); [lia|by vm_compute].
Qed.
Lemma wit_kern_inv : own_inv (k_sched wit_kern).
Proof. apply own_inv_frames, wit_sig_ran_inv. Qed.

Lemma wit_returning : returning 1 0xC0300000 1 wit_kern (start_running 1 wit_sig_task) wit_frame.
Proof. constructor; [apply wit_kern_inv|by vm_compute..]. Qed.

Lemma force_kill_exact_witness :
  exists k', force_kill wit_kern 1 SIGKILL = Ret (true, k') /\ claimable (k_sched k') 1 = false /\ Z.testbit (k_deferred k') 1 = true.
Proof.
  pose proof (force_kill_exact wit_kern 1 SIGKILL wit_kern_inv ltac:(lia)) as H. cbv zeta in H.
  assert (process_slot (k_sched wit_kern) 1 = 1) as Hp by (by vm_compute). rewrite Hp in H.
  assert (task_at (k_sched wit_kern) 1 = Some (start_running 1 wit_sig_task)) as Ht by (by vm_compute). rewrite Ht in H.
  destruct (H eq_refl ltac:(lia)) as (k' & Hk & _ & Hd & Hall). exists k'. split; [exact Hk|].
  destruct (Hall 1 _ Ht) as (u' & _ & _ & _ & Hc). split; [exact Hc|]. by rewrite Hd.
Defined.

Lemma deliver_pending_exact_witness :
  exists k', deliver_pending 0x1000 1 7 wit_kern 0xC0300000 = Ret (0xC0300000, k') /\
    k_user k' !! 0xBFFFEFFC = Some SIGTERM /\ k_user k' !! 0xBFFFEFF8 = Some 0x400020.
Proof.
  pose proof (deliver_pending_exact 0x1000 1 7 _ _ _ _ _ wit_returning) as H.
  assert (decide_signals (signal_handlers (start_running 1 wit_sig_task)) (pending_list (pending_signals (start_running 1 wit_sig_task)))
    = ([], Call SIGTERM 0x400100)) as Hd by (by vm_compute). rewrite Hd in H.
  eexists. split; [exact H|]. split; vm_compute; reflexivity.
Defined.

Lemma after_switch_ignores_handlers_witness :
  get (signal_handlers wit_sig_task) (SIGTERM - 1) = Some 0x400100 /\
  exists k1 sig next k2, force_kill wit_kern 1 sig = Ret (true, k1) /\
    deliver_pending_after_switch 0x1000 1 7 wit_kern 0xC0300000 = Ret (next, k2).
Proof.
  split; [by vm_compute|].
  destruct (proj1 (after_switch_ignores_handlers 0x1000 1 7 _ _ _ _ _ wit_returning) SIGTERM) as (k1 & sig & next & k2 & _ & Hk & _ & Hd);
    [by vm_compute..|].
  exists k1, sig, next, k2. split; [exact Hk|exact Hd].
Defined.

Lemma job_control_exact_witness :
  exists s', stop_task_with_signal (k_sched wit_kern) 1 SIGTSTP = Ret (true, s') /\ state <$> task_at s' 1 = Some Stopped.
Proof.
  destruct (job_control_exact (k_sched wit_kern) 1 1 (start_running 1 wit_sig_task) SIGTSTP) as [(s' & Hs & _ & Hall) _].
  - apply wit_kern_inv.
  - constructor; by vm_compute.
  - exists s'. split; [exact Hs|].
    destruct (Hall 1 (start_running 1 wit_sig_task)) as (u' & Hu & Hst & _); [by vm_compute..|]. rewrite Hu. simpl. by rewrite Hst.
Defined.
