(* ===== verification/Process.v ===== *)
(** * Process system calls

    Model of the process part of [kernel/src/syscalls/handler.rs]: exit of a
    process and of a thread, waiting for children, [kill], [sigaction], and
    process groups and sessions.  The state is the one of [Signal]: the
    scheduler, the descriptor tables with their open file descriptions, the
    pipes and user memory.  Values that a call returns in [eax] are 32-bit
    words, errors being the two's complement of the error number. *)

From S2P Require Import Prelude Wait Frames Paging SharedPages Task Schedule Reap.
From S2P Require Import Pipe FileTable Signal.

Definition errno (n : Z) : Z := 2 ^ 32 - n.
Definition EPERM : Z := errno 1.
Definition ESRCH : Z := errno 3.
Definition EAGAIN : Z := errno 11.
Definition EFAULT : Z := errno 14.
Definition EBUSY : Z := errno 16.
Definition EINVAL : Z := errno 22.
Definition EDEADLK : Z := errno 35.
Definition USIZE_MAX : Z := 2 ^ 32 - 1.

Definition WNOHANG : Z := 1.
Definition WUNTRACED : Z := 2.
Definition WCONTINUED : Z := 8.

(** [x as usize] of an [i32], and its negation *)
Definition as_usize (x : Z) : Z := x mod 2 ^ 32.
Definition neg_i32 (x : Z) : outcome Z := if x =? - 2 ^ 31 then Panic else Ret (- x).

(** The event a parent observes, in the order the scan meets the children. *)
Inductive ChildEvent : Type :=
| Exited (slot child_pid exit_code term_signal : Z)
| ChildStopped (slot child_pid sig : Z)
| Continued (slot child_pid : Z).

Section Process.
  Context {F : Type} `{!FileStore F}.
  Implicit Types (s : Sched F) (k : Kern F) (t : Task).

Definition on_sched k (f : Sched F -> Sched F) : Kern F := k <| k_sched := f (k_sched k) |>.

(** ** Exit *)

(** [finish_process] *)
Definition finish_leader (status sig : Z) t : Task :=
  t <| running := false |> <| state := Zombie |> <| stopped := false |> <| thread_exited := true |> <| zombie := true |>
    <| term_signal := sig |> <| exit_code := status |>.
Definition finish_process k (leader status sig : Z) : outcome (Kern F) :=
  o ← idx (tasks (k_sched k)) leader;
  let dead_pid := match o with Some t => pid t | None => -1 end in
  let k := record (DestroyWindows leader) k in
  k ← match o with
      | Some _ =>
          let '(taken, k) := take_fds k leader in
          k ← close_descriptors k taken;
          Ret (on_sched k (fun s => on_task s leader (finish_leader status sig)))
      | None => Ret k
      end;
  Ret (on_sched k (fun s => wake_waiters_tasks Thread (wake_waiters_tasks Child (reparent_children_of s dead_pid)))).

Definition exit_member (value : Z) t : Task :=
  t <| running := false |> <| state := Zombie |> <| stopped := false |> <| thread_exited := true |> <| thread_exit_value := value |>.

Section Switching.
  Variables (kernel_pd cpu now : Z).

(** [sys_exit] *)
Definition sys_exit k (current_slot esp status : Z) : outcome (Z * Kern F) :=
  k ← (if current_slot =? 0 then Ret k else
       let k := on_sched k (fun s => on_tasks (thread_slots s current_slot) (exit_member (as_usize status)) s) in
       finish_process k current_slot status 0);
  switch kernel_pd cpu now k esp.

(** [value as i32] *)
Definition as_i32 (x : Z) : Z := if x <? 2 ^ 31 then x else x - 2 ^ 32.

(** [sys_thread_exit] *)
Definition sys_thread_exit k (thread_slot esp value : Z) : outcome (Z * Kern F) :=
  if (thread_slot =? 0) || negb (bool_decide (is_Some (task_at (k_sched k) thread_slot))) then switch kernel_pd cpu now k esp else
  let leader := process_slot (k_sched k) thread_slot in
  let k := on_sched k (fun s => wake_waiters_tasks Thread (on_task s thread_slot (exit_member value))) in
  k ← (if live_thread_count (k_sched k) leader =? 0 then finish_process k leader (as_i32 value) 0 else Ret k);
  switch kernel_pd cpu now k esp.
End Switching.

(** ** Waiting *)

(** The closure [matches_selector] *)
Definition matches_selector (parent_pid parent_pgid want : Z) t : outcome bool :=
  if negb (ppid t =? parent_pid) then Ret false else
  if 0 <? want then Ret (pid t =? want) else
  if want =? -1 then Ret true else
  if want =? 0 then Ret (pgid t =? parent_pgid) else
  g ← neg_i32 want; Ret (pgid t =? g).

Definition child_event (options slot : Z) t : option ChildEvent :=
  if zombie t then Some (Exited slot (pid t) (exit_code t) (term_signal t)) else
  if negb (Z.land options WUNTRACED =? 0) && wait_stopped_pending t then Some (ChildStopped slot (pid t) (stop_signal t)) else
  if negb (Z.land options WCONTINUED =? 0) && wait_continued_pending t then Some (Continued slot (pid t)) else None.

Fixpoint scan_children (sel : Task -> outcome bool) (options slot : Z) (l : list (option Task)) : outcome (option ChildEvent) :=
  match l with
  | [] => Ret None
  | o :: rest =>
      match o with
      | None => scan_children sel options (slot + 1) rest
      | Some t =>
          if slot =? 0 then scan_children sel options (slot + 1) rest else
          m ← sel t;
          if negb m then scan_children sel options (slot + 1) rest else
          match child_event options slot t with
          | Some e => Ret (Some e)
          | None => scan_children sel options (slot + 1) rest
          end
      end
  end.

Fixpoint any_child (sel : Task -> outcome bool) (slot : Z) (l : list (option Task)) : outcome bool :=
  match l with
  | [] => Ret false
  | o :: rest =>
      m ← match o with Some t => if slot =? 0 then Ret false else sel t | None => Ret false end;
      if m : bool then Ret true else any_child sel (slot + 1) rest
  end.

(** The word at a user address, written unless the pointer is null. *)
Definition put_user (ptr value : Z) k : Kern F := if ptr =? 0 then k else k <| k_user := <[ptr := value]> (k_user k) |>.
Definition get_user k (ptr : Z) : Z := default 0 (k_user k !! ptr).

Definition exit_status (code sig : Z) : Z := if negb (sig =? 0) then Z.land sig 0x7f else Z.shiftl (Z.land code 0xff) 8.
Definition stop_status (sig : Z) : Z := Z.lor (Z.shiftl (Z.land sig 0xff) 8) 0x7f.

(** The descriptor tables of the slots that became free go with their tasks. *)
Definition drop_table (h : Arcs) (tbl : FileDescriptorTable) : Arcs := foldl drop_opt h (ofds tbl).
Definition drop_tables s k : Kern F :=
  foldl (fun k slot =>
    match task_at s slot, task_at (k_sched k) slot, k_tables k !! slot with
    | Some _, None, Some tbl => k <| k_arcs := drop_table (k_arcs k) tbl |> <| k_tables := delete slot (k_tables k) |>
    | _, _, _ => k
    end) k (seqZ 0 MAX_TASKS).

Section Reaping.
  Variable (shootdown_tlb : Z -> Z -> bool).

Definition reap_process k (slot : Z) : outcome (bool * Kern F) :=
  '(ok, s) ← reap shootdown_tlb (k_sched k) slot;
  Ret (ok, drop_tables (k_sched k) (k <| k_sched := s |>)).

(** [sys_wait_status] *)
Definition sys_wait_status k (current_slot want status_ptr options : Z) : outcome (Z * Kern F) :=
  let '(parent_pid, parent_pgid) := match task_at (k_sched k) current_slot with Some t => (pid t, pgid t) | None => (-1, -1) end in
  if parent_pid <? 0 then Ret (USIZE_MAX, k) else
  let sel := matches_selector parent_pid parent_pgid want in
  e ← scan_children sel options 0 (tasks (k_sched k));
  match e with
  | Some (Exited slot child_pid code sig) =>
      '(ok, k) ← reap_process k slot;
      if negb ok then Ret (if negb (Z.land options WNOHANG =? 0) then 0 else EAGAIN, k)
      else Ret (as_usize child_pid, put_user status_ptr (exit_status code sig) k)
  | Some (ChildStopped slot child_pid sig) =>
      Ret (as_usize child_pid, on_sched (put_user status_ptr (stop_status sig) k)
             (fun s => on_task s slot (fun t => t <| wait_stopped_pending := false |>)))
  | Some (Continued slot child_pid) =>
      Ret (as_usize child_pid, on_sched (put_user status_ptr 0xffff k)
             (fun s => on_task s slot (fun t => t <| wait_continued_pending := false |>)))
  | None =>
      if negb (Z.land options WNOHANG =? 0) then Ret (0, k) else
      m ← any_child sel 0 (tasks (k_sched k));
      Ret (if m : bool then EAGAIN else USIZE_MAX, k)
  end.
End Reaping.

(** ** Signalling *)

(** [t.signal_handlers[(sig - 1) as usize]], the default without a task *)
Definition handler_of s (slot sig : Z) : outcome Z :=
  match task_at s slot with Some t => idx (signal_handlers t) (sig - 1) | None => Ret SIG_DFL end.

Definition lift_sched k (r : outcome (bool * Sched F)) : outcome (bool * Kern F) :=
  '(ok, s) ← r; Ret (ok, k <| k_sched := s |>).

(** [signal_slot] *)
Definition signal_slot k (slot sig : Z) : outcome (bool * Kern F) :=
  if (slot =? 0) || (MAX_TASKS <=? slot) then Ret (false, k) else
  if sig =? SIGKILL then force_kill k slot sig else
  if sig =? SIGSTOP then lift_sched k (stop_task (k_sched k) slot) else
  if (sig =? SIGTSTP) || (sig =? SIGTTIN) || (sig =? SIGTTOU) then
    handler ← handler_of (k_sched k) slot sig;
    if handler =? SIG_IGN then Ret (true, k)
    else if negb (handler =? SIG_DFL) then lift_sched k (send_signal (k_sched k) slot sig)
    else lift_sched k (stop_task_with_signal (k_sched k) slot sig)
  else if sig =? SIGCONT then
    handler ← handler_of (k_sched k) slot sig;
    '(resumed, k) ← lift_sched k (continue_task (k_sched k) slot);
    if resumed && negb (handler =? SIG_DFL) && negb (handler =? SIG_IGN) then
      '(_, k) ← lift_sched k (send_signal (k_sched k) slot sig); Ret (resumed, k)
    else Ret (resumed, k)
  else lift_sched k (send_signal (k_sched k) slot sig).

Fixpoint signal_slots (l : list Z) k (sig : Z) (any : bool) : outcome (bool * Kern F) :=
  match l with
  | [] => Ret (any, k)
  | slot :: l => '(ok, k) ← signal_slot k slot sig; signal_slots l k sig (any || ok)
  end.

(** The slots [sys_kill] addresses *)
Definition kill_targets s (current_slot want : Z) : outcome (list Z) :=
  o ← idx (tasks s) current_slot;
  let caller_pid := match o with Some t => pid t | None => -1 end in
  if 0 <? want then Ret (match slot_by_pid s want with Some slot => [slot] | None => [] end) else
  if want =? 0 then Ret (slots_in_pgid s (match o with Some t => pgid t | None => -1 end)) else
  if want =? -1 then
    Ret (slots_where s (fun slot t => negb (slot =? 0) && (leader_slot t =? slot) && negb (pid t =? caller_pid) && negb (zombie t)))
  else g ← neg_i32 want; Ret (slots_in_pgid s g).

(** [sys_kill] *)
Definition sys_kill k (current_slot want sig : Z) : outcome (Z * Kern F) :=
  if (sig =? 0) || (31 <? sig) then Ret (EINVAL, k) else
  slots ← kill_targets (k_sched k) current_slot want;
  match slots with
  | [] => Ret (USIZE_MAX, k)
  | _ => '(any, k) ← signal_slots slots k sig false; Ret (if any : bool then 0 else USIZE_MAX, k)
  end.

(** [sys_sigaction]; [oldact] gets handler, mask and flags. *)
Definition sys_sigaction k (current_slot sig act oldact : Z) : outcome (Z * Kern F) :=
  if (sig =? 0) || (31 <? sig) || (sig =? SIGKILL) || (sig =? SIGSTOP) then Ret (USIZE_MAX, k) else
  o ← idx (tasks (k_sched k)) current_slot;
  match o with
  | None => Ret (USIZE_MAX, k)
  | Some t =>
      old ← idx (signal_handlers t) (sig - 1);
      let k := if oldact =? 0 then k else put_user (oldact + 8) 0 (put_user (oldact + 4) 0 (put_user oldact old k)) in
      let handlers := if act =? 0 then signal_handlers t else <[Z.to_nat (sig - 1) := get_user k act]> (signal_handlers t) in
      Ret (0, on_sched k (fun s => put_task s current_slot (Some (t <| signal_handlers := handlers |>))))
  end.

(** ** Identities *)

Definition id_of s (slot : Z) (f : Task -> Z) : outcome Z :=
  o ← idx (tasks s) slot; Ret (match o with Some t => as_usize (f t) | None => USIZE_MAX end).

(** [sys_getpid], [sys_getppid], [sys_getpgrp] *)
Definition sys_getpid s (current_slot : Z) : outcome Z := id_of s current_slot pid.
Definition sys_getppid s (current_slot : Z) : outcome Z := id_of s current_slot (fun t => Z.max (ppid t) 0).
Definition sys_getpgrp s (current_slot : Z) : outcome Z := id_of s current_slot pgid.

(** [process_slot_for], [sys_getpgid], [sys_getsid] *)
Definition process_slot_for s (current_slot want : Z) : option Z := if want =? 0 then Some current_slot else slot_by_pid s want.
Definition sys_getpgid s (current_slot want : Z) : outcome Z :=
  match process_slot_for s current_slot want with Some slot => id_of s slot pgid | None => Ret USIZE_MAX end.
Definition sys_getsid s (current_slot want : Z) : outcome Z :=
  match process_slot_for s current_slot want with Some slot => id_of s slot sid | None => Ret USIZE_MAX end.

Definition group_in_session s (g session : Z) : bool :=
  existsb (fun o => match o with Some t => (pgid t =? g) && (sid t =? session) | None => false end) (tasks s).

(** [sys_setpgid] *)
Definition sys_setpgid s (current_slot want g : Z) : outcome (Z * Sched F) :=
  caller ← idx (tasks s) current_slot;
  let caller_pid := match caller with Some t => pid t | None => -1 end in
  let target_pid := if want =? 0 then caller_pid else want in
  match slot_by_pid s target_pid with
  | None => Ret (USIZE_MAX, s)
  | Some target_slot =>
      let caller_sid := match caller with Some t => sid t | None => -1 end in
      target ← unwrap (task_at s target_slot);
      if negb (target_pid =? caller_pid) && negb (ppid target =? caller_pid) then Ret (EPERM, s) else
      if negb (sid target =? caller_sid) then Ret (EPERM, s) else
      let new_pgid := if g =? 0 then target_pid else g in
      if negb (new_pgid =? target_pid) && negb (group_in_session s new_pgid (sid target)) then Ret (EPERM, s) else
      Ret (0, put_task s target_slot (Some (target <| pgid := new_pgid |>)))
  end.

(** [sys_setsid] *)
Definition sys_setsid s (current_slot : Z) : outcome (Z * Sched F) :=
  o ← idx (tasks s) current_slot;
  match o with
  | None => Ret (USIZE_MAX, s)
  | Some t =>
      if pgid t =? pid t then Ret (EPERM, s) else
      let t := t <| sid := pid t |> <| pgid := pid t |> <| tty_id := -1 |> <| pty_id := -1 |> in
      Ret (as_usize (pid t), put_task s current_slot (Some t))
  end.
End Process.

(** ** What a switch leaves of the tasks *)

Section SwitchFrame.
  Context {F : Type} `{!FileStore F}.
  Implicit Types (s : Sched F) (k : Kern F) (t : Task).

(** A task without the fields the scheduler and wake-ups write. *)
Definition frozen t : Task :=
  clear_network (t <| running := false |> <| state := New |> <| cpu_state_ptr := 0 |> <| wake_deadline_ms := 0 |> <| futex_key := 0 |>).

Definition same_task t t' : Prop :=
  frozen t' = frozen t /\ (blocked_reason t' = None \/ blocked_reason t' = blocked_reason t).
Definition same_tasks s s' : Prop :=
  memory s' = memory s /\ zlen (tasks s') = zlen (tasks s) /\ forall j, option_Forall2 same_task (task_at s j) (task_at s' j).

Lemma same_task_refl t : same_task t t.
Proof. split; [done|by right]. Qed.
Lemma same_task_trans t1 t2 t3 : same_task t1 t2 -> same_task t2 t3 -> same_task t1 t3.
Proof. intros [H1 H2] [G1 G2]. split; [congruence|]. destruct G2 as [?|G2]; [by left|]. rewrite G2. done. Qed.
Lemma same_refl s s' : memory s' = memory s -> tasks s' = tasks s -> same_tasks s s'.
Proof.
  unfold same_tasks, task_at. intros -> ->. split_and!; [done..|]. intros j. destruct (mjoin _); constructor. apply same_task_refl.
Qed.
Lemma same_trans s1 s2 s3 : same_tasks s1 s2 -> same_tasks s2 s3 -> same_tasks s1 s3.
Proof.
  intros (H1 & H2 & H3) (G1 & G2 & G3). split_and!; [congruence..|]. intros j. specialize (H3 j). specialize (G3 j).
  destruct H3; inversion G3; subst; constructor. by eapply same_task_trans.
Qed.

Lemma same_map s f : (forall t, same_task t (f t)) -> same_tasks s (map_tasks f s).
Proof.
  intros Hf. split_and!; [done|simpl; unfold zlen; by rewrite length_fmap|]. intros j. rewrite map_tasks_at.
  destruct (task_at s j) as [t|]; constructor. apply Hf.
Qed.
Lemma same_on s slot f : (forall t, same_task t (f t)) -> same_tasks s (on_task s slot f).
Proof.
  intros Hf. unfold on_task. destruct (task_at s slot) as [t|] eqn:Ht; [|by apply same_refl]. split_and!; [done|by simpl; rewrite zlen_insert|].
  intros j. unfold task_at in *. simpl. destruct (get (tasks s) slot) as [o|] eqn:Hg; [|done]. pose proof (get_Some_range _ _ _ Hg).
  destruct (Z.eq_dec j slot) as [->|Hne].
  - rewrite get_insert_eq, Hg by done. simpl in Ht. subst o. constructor. apply Hf.
  - replace (get (<[Z.to_nat slot := Some (f t)]> (tasks s)) j) with (get (tasks s) j).
    + destruct (mjoin (get (tasks s) j)); constructor. apply same_task_refl.
    + destruct (Z.lt_ge_cases j 0) as [Hj|Hj]; [unfold get; by rewrite (proj2 (Z.ltb_lt _ _))|]. by rewrite get_insert_ne by lia.
Qed.

Lemma same_wake r s : same_tasks s (wake_waiters_tasks r s).
Proof. apply same_map. intros t. destruct (is_blocked_on r t); [split; [done|by left]|apply same_task_refl]. Qed.
Lemma same_timers s now : same_tasks s (wake_expired_timers s now).
Proof.
  apply (same_trans _ (s <| cpu_states := foldl (timeout_result now) (cpu_states s) (tasks s) |>)); [by apply same_refl|].
  apply same_map. intros t. unfold wake_expired. destruct (expired now t); [|apply same_task_refl].
  split; [by destruct (state t) as [| | |[]| |]|left; by destruct (state t) as [| | |[]| |]].
Qed.
Lemma same_save s slot f : same_tasks s (on_task s slot (save_task f)).
Proof.
  apply same_on. intros t. unfold save_task. destruct (running (t <| cpu_state_ptr := f |>)); split; try done; [by left|by right].
Qed.

Lemma try_claim_frame s cpu slot ok s' : try_claim s cpu slot = Ret (ok, s') ->
  s' = s <| task_owner := task_owner s' |> /\ (ok = true -> claimable s slot = true).
Proof.
  unfold try_claim. intros (o & _ & H)%bind_Ret. apply bind_Ret in H as (owners & _ & H). rewrite claimable_owner in H.
  destruct (claimable s slot); [|injection H as <- <-; by destruct s].
  apply bind_Ret in H as (o2 & _ & H). destruct (o2 =? -1); [|injection H as <- <-; by destruct s].
  apply bind_Ret in H as (o3 & _ & H). injection H as <- <-. by destruct s.
Qed.

Lemma claim_frame n : forall s cpu slot r s', claim_loop n s cpu slot = Ret (r, s') ->
  s' = s <| task_owner := task_owner s' |> /\ (r = 0 \/ claimable s r = true).
Proof.
  induction n as [|n IH]; intros s cpu slot r s'; cbn [claim_loop]; [intros [= <- <-]; split; [by destruct s|by left]|].
  intros ([ok s1] & H1 & H2)%bind_Ret. apply try_claim_frame in H1 as [Hs1 Hok].
  destruct ok; [injection H2 as <- <-; split; [done|right; auto]|].
  apply IH in H2 as [Hs' Hr]. rewrite Hs1, claimable_owner in Hr. split; [|done]. rewrite Hs1 in Hs'. rewrite Hs'. by destruct s.
Qed.

(** The switch of CPU [cpu] keeps every task apart from its run state, the
    current task of every other CPU, and enters no thread that has exited. *)
Record switched (cpu : Z) s s' : Prop := {
  sw_same : same_tasks s s';
  sw_other : forall c, 0 <= c -> c <> cpu -> get (cpu_slot s') c = get (cpu_slot s) c;
  sw_new : forall j t, 1 <= j -> get (cpu_slot s') cpu = Some j -> task_at s j = Some t -> thread_exited t = false
}.

Lemma frozen_field {A} (f : Task -> A) s s' j t : (forall t, f (frozen t) = f t) -> same_tasks s s' -> task_at s j = Some t ->
  exists t', task_at s' j = Some t' /\ f t' = f t.
Proof.
  intros Hf (_ & _ & Hs) Ht. specialize (Hs j). rewrite Ht in Hs. inversion Hs as [? t' [He _]|]; subst.
  exists t'. split; [done|]. rewrite <- (Hf t'), <- (Hf t). by rewrite He.
Qed.
Lemma claimable_alive s j t : claimable s j = true -> task_at s j = Some t -> thread_exited t = false.
Proof. unfold claimable. intros H Ht. rewrite Ht in H. by destruct (thread_exited t); rewrite ?andb_false_r in H. Qed.

Lemma leave_current_same s frame s' : leave_current s frame = Ret s' ->
  same_tasks s s' /\ cpu_slot s' = cpu_slot s /\ current_task s' = current_task s.
Proof.
  unfold leave_current. destruct (_ <? 0); [intros [= <-]; split; [by apply same_refl|done]|].
  set (s1 := on_task s _ _). assert (same_tasks s s1 /\ cpu_slot s1 = cpu_slot s /\ current_task s1 = current_task s) as (H1 & H2 & H3).
  { split; [apply same_save|]. unfold s1, on_task. by destruct (task_at _ _). }
  destruct (0 <? _); [|intros [= <-]; done]. intros (o & _ & [= <-])%bind_Ret. split; [|done].
  do 2 (eapply same_trans; [|apply same_wake]). eapply same_trans; [exact H1|]. by apply same_refl.
Qed.
Lemma leave_ap_same s cpu frame s' : leave_ap s cpu frame = Ret s' -> same_tasks s s' /\ cpu_slot s' = cpu_slot s.
Proof.
  unfold leave_ap. destruct (_ <? 0); [intros [= <-]; split; [by apply same_refl|done]|].
  destruct (task_at s _) eqn:Ht; [|intros [= <-]; split; [by apply same_refl|done]].
  intros (o & _ & [= <-])%bind_Ret. split; [|unfold on_task; by rewrite Ht].
  do 2 (eapply same_trans; [|apply same_wake]). eapply same_trans; [apply same_save|]. by apply same_refl.
Qed.

Lemma enter_same s cpu p frame s' : enter_task s cpu p = Ret (frame, s') ->
  memory s' = memory s /\ tasks s' = tasks s /\ cpu_slot s' = cpu_slot s.
Proof. unfold enter_task. by intros (t & _ & [= <- <-])%bind_Ret. Qed.

(** Putting [p] on the CPU, where [p] is idle or was claimed. *)
Lemma switched_enter s s1 s2 cpu p :
  zlen (cpu_slot s) = 64 -> 0 <= cpu < 64 -> same_tasks s s1 -> same_tasks s s2 ->
  cpu_slot s2 = set_cpu (cpu_slot s) cpu p -> (p <= 0 \/ claimable s1 p = true) -> switched cpu s s2.
Proof.
  intros Hl Hcpu H1 H2 Hc Hp. constructor; [done|..].
  - intros c Hc0 Hne. rewrite Hc. unfold set_cpu. by rewrite get_insert_ne by lia.
  - intros j t Hj Hg Ht. rewrite Hc in Hg. unfold set_cpu in Hg. rewrite get_insert_eq in Hg by lia. injection Hg as ->.
    destruct Hp as [?|Hp]; [lia|]. destruct (frozen_field thread_exited s s1 j t) as (t1 & Ht1 & <-); try done.
    by eapply claimable_alive.
Qed.
Lemma same_start s cpu p : same_tasks s (on_task s p (start_running cpu)).
Proof. apply same_on. intros t. split; [done|by left]. Qed.
Lemma on_task_cpu s slot f : cpu_slot (on_task s slot f) = cpu_slot s /\ memory (on_task s slot f) = memory s.
Proof. unfold on_task. by destruct (task_at s slot). Qed.
Lemma claim_same s cpu after r s' : claim_next_task s cpu after = Ret (r, s') ->
  same_tasks s s' /\ cpu_slot s' = cpu_slot s /\ current_task s' = current_task s /\ (r <= 0 \/ claimable s r = true).
Proof.
  unfold claim_next_task. generalize 31%nat. intros n [Hs Hr]%claim_frame. rewrite Hs. split; [by apply same_refl|]. split_and!; [done..|]. destruct Hr; [left; lia|by right].
Qed.

#[local] Opaque claim_next_task.

Lemma ap_switched kernel_pd s cpu frame next s' :
  zlen (cpu_slot s) = 64 -> 0 <= cpu < 64 -> schedule_ap kernel_pd s cpu frame = Ret (next, s') -> switched cpu s s'.
Proof.
  intros Hl Hcpu (s1 & H1 & H)%bind_Ret. apply leave_ap_same in H1 as [S1 C1].
  apply bind_Ret in H as ([r s2] & H2 & H). apply claim_same in H2 as (S2 & C2 & _ & Hr).
  assert (same_tasks s s2) as S3 by (by eapply same_trans).
  destruct (Z.leb_spec r 0) as [Hle|Hgt].
  - apply bind_Ret in H as (idle & _ & [= _ <-]). apply (switched_enter s s1 _ cpu (-1)); try done; [by rewrite <- C1, <- C2|by left].
  - set (s3 := set_current_task_slot s2 cpu r) in H. change (on_task s3 r _) with (on_task s3 r (start_running cpu)) in H.
    apply enter_same in H as (M & T & C). apply (switched_enter s s1 _ cpu r); try done.
    + eapply same_trans; [exact S3|]. eapply same_trans; [|by apply same_refl].
      eapply (same_trans _ s3); [by apply same_refl|apply same_start].
    + rewrite C, (proj1 (on_task_cpu _ _ _)). by rewrite <- C1, <- C2.
Qed.

Lemma first_switched s next s' :
  zlen (cpu_slot s) = 64 -> schedule_first s = Ret (next, s') -> switched 0 s s'.
Proof.
  intros Hl H. unfold schedule_first in H. set (s0 := s <| first_switch := false |> <| current_task := 0 |>) in H.
  apply bind_Ret in H as ([r s2] & H2 & H). apply claim_same in H2 as (S2 & C2 & U2 & Hr).
  set (s3 := if r =? 0 then s2 else s2 <| current_task := r |>) in H.
  assert (memory s3 = memory s2 /\ tasks s3 = tasks s2 /\ cpu_slot s3 = cpu_slot s2 /\ (current_task s3 <= 0 \/ claimable s0 (current_task s3) = true))
    as (M3 & T3 & C3 & Hp).
  { unfold s3. destruct (Z.eqb_spec r 0); split_and!; try done. left. rewrite U2. done. }
  apply bind_Ret in H as ([f s4] & H4 & [= _ <-]). apply enter_same in H4 as (M & T & C).
  apply (switched_enter s s0 _ 0 (current_task s3)); [done|done|by apply same_refl|..|done].
  - eapply same_trans; [by apply (same_refl s s0)|]. eapply same_trans; [exact S2|].
    eapply (same_trans _ s4); [|apply same_start]. apply same_refl; [by rewrite M|by rewrite T].
  - rewrite (proj1 (on_task_cpu _ _ _)), C. change (set_cpu (cpu_slot s3) 0 (current_task s3) = set_cpu (cpu_slot s) 0 (current_task s3)). by rewrite C3, C2.
Qed.

Lemma next_switched s frame next s' :
  zlen (cpu_slot s) = 64 -> schedule_next s frame = Ret (next, s') -> switched 0 s s'.
Proof.
  intros Hl (s1 & H1 & H)%bind_Ret. apply leave_current_same in H1 as (S1 & C1 & U1).
  apply bind_Ret in H as ([r s2] & H2 & H). apply claim_same in H2 as (S2 & C2 & U2 & Hr).
  cbv zeta in H. set (p := if (r <? 0) || negb _ then 0 else r) in H. set (s3 := s2 <| current_task := p |>) in H.
  change (current_task s3) with p in H. set (s4 := set_current_task_slot s3 0 p) in H.
  rewrite (on_task_current s4 p) in H. change (current_task s4) with p in H.
  apply enter_same in H as (M & T & C). apply (switched_enter s s1 _ 0 p); try done.
  - eapply same_trans; [exact S1|]. eapply same_trans; [exact S2|].
    eapply (same_trans _ s4); [by apply same_refl|]. eapply same_trans; [apply (same_start s4 0 p)|]. by apply same_refl.
  - rewrite C, (proj1 (on_task_cpu _ _ _)). by rewrite <- C1, <- C2.
  - unfold p. destruct (_ || _); [by left|done].
Qed.

Lemma schedule_switched kernel_pd s cpu frame now next s' :
  own_inv s -> 0 <= cpu < 64 -> schedule kernel_pd s cpu frame now = Ret (next, s') -> switched cpu s s'.
Proof.
  intros Hi Hcpu H. unfold schedule in H. set (s0 := wake_expired_timers s now) in H.
  assert (switched cpu s0 s' -> switched cpu s s') as Hlift.
  { intros [K1 K2 K3]. constructor; [eapply same_trans; [apply same_timers|exact K1]|exact K2|].
    intros j t Hj Hg Ht. destruct (frozen_field thread_exited s s0 j t) as (t0 & Ht0 & <-); [done|apply same_timers|done|].
    by apply (K3 j t0). }
  pose proof (sw_cpus _ (oc_wf _ _ (oi_core _ Hi))) as Hl. apply Hlift.
  destruct (Z.eqb_spec cpu 0) as [->|Hne]; simpl in H; [|by apply (ap_switched kernel_pd s0 cpu frame next s')].
  destruct (task_at s0 0) eqn:Ht0.
  - destruct (first_switch s); [exact (first_switched s0 next s' Hl H)|exact (next_switched s0 frame next s' Hl H)].
  - exfalso. destruct (oc_idle _ _ (oi_core _ Hi)) as (t & Ht & _).
    destruct (frozen_field tid s s0 0 t) as (? & ? & _); [done|apply same_timers|done|congruence].
Qed.
End SwitchFrame.

(** ** Closing all descriptors *)

Section ClosingAll.
  Context {F : Type} `{!FileStore F}.
  Implicit Types (s : Sched F) (k : Kern F) (t : Task).

(** Identifiers of pipes are unsigned. *)
Definition fd_typed (d : FileDescriptor) : Prop := match d with PipeFd id _ => 0 <= id | _ => True end.
Definition table_typed (tbl : FileDescriptorTable) : Prop :=
  table_wf tbl /\ forall fd d, fd_at tbl fd = Some d -> fd_typed d.
Definition kern_typed k : Prop :=
  zlen (k_pipes k) = MAX_PIPES /\ forall slot tbl, k_tables k !! slot = Some tbl -> table_typed tbl.

Lemma close_fd_at h tbl fd c h' tbl' : table_wf tbl -> 0 <= fd -> close h tbl fd = (c, h', tbl') ->
  table_wf tbl' /\ (forall x, c = Some x -> fd_at tbl fd = Some (desc x)) /\
  forall j, 0 <= j -> fd_at tbl' j = if j =? fd then None else fd_at tbl j.
Proof.
  intros Hwf Hfd. unfold close. destruct (Z.leb_spec FD_COUNT fd) as [Hge|Hlt].
  { intros [= <- <- <-]. split_and!; [done..|]. intros j _. destruct (Z.eqb_spec j fd) as [->|]; [|done].
    unfold fd_at. destruct (get (fds tbl) fd) eqn:Hg; [|done]. apply get_Some_range in Hg. destruct Hwf as (Hl & _).
    unfold FD_COUNT in *. lia. }
  destruct (fd_at tbl fd) as [d|] eqn:Hd.
  - intros [= <- <- <-]. split_and!; [apply set_slot_wf; [done|lia|done]|by intros x [= <-]|].
    intros j Hj. unfold fd_at, set_slot. cbn [fds]. destruct Hwf as (Hl & _). unfold FD_COUNT in *.
    destruct (Z.eqb_spec j fd) as [->|Hne]; [by rewrite get_insert_eq by lia|by rewrite get_insert_ne by lia].
  - intros [= <- <- <-]. split_and!; [done..|]. intros j _. destruct (Z.eqb_spec j fd) as [->|]; done.
Qed.

Lemma take_from_at n : forall h tbl fd out h' tbl', table_wf tbl -> 0 <= fd -> take_from n h tbl fd = (out, h', tbl') ->
  table_wf tbl' /\ (forall x, x ∈ out -> exists j, fd_at tbl j = Some (desc x)) /\
  forall j, 0 <= j -> fd_at tbl' j = if (fd <=? j) && (j <? fd + Z.of_nat n) then None else fd_at tbl j.
Proof.
  induction n as [|n IH]; intros h tbl fd out h' tbl' Hwf Hfd; cbn [take_from].
  { intros [= <- <- <-]. split_and!; [done|by intros x ?%not_elem_of_nil|]. intros j _.
    destruct (Z.leb_spec fd j), (Z.ltb_spec j (fd + Z.of_nat 0)); try done; lia. }
  destruct (close h tbl fd) as [[c h1] t1] eqn:Hc. apply close_fd_at in Hc as (Hwf1 & Hc1 & Hat1); [|done..].
  destruct (take_from n h1 t1 (fd + 1)) as [[out1 h2] t2] eqn:Ht. apply IH in Ht as (Hwf2 & Hout & Hat2); [|done|lia].
  intros [= <- <- <-]. assert (forall x, x ∈ out1 -> exists j, fd_at tbl j = Some (desc x)) as Hout1.
  { intros x [j Hj]%Hout. exists j. destruct (Z.lt_ge_cases j 0) as [Hn|Hn].
    - unfold fd_at, get in Hj. by rewrite (proj2 (Z.ltb_lt _ _)) in Hj.
    - rewrite Hat1 in Hj by done. by destruct (j =? fd). }
  split_and!; [done| |].
  - intros x Hx. destruct c as [c|]; [|auto]. apply elem_of_cons in Hx as [->|Hx]; [|auto]. exists fd. by apply Hc1.
  - intros j Hj. rewrite Hat2, Hat1 by done.
    destruct (Z.leb_spec (fd + 1) j), (Z.ltb_spec j (fd + 1 + Z.of_nat n)), (Z.leb_spec fd j), (Z.ltb_spec j (fd + Z.of_nat (S n))),
      (Z.eqb_spec j fd); simpl; try done; lia.
Qed.

Lemma take_fds_ok k slot taken k' : kern_typed k -> take_fds k slot = (taken, k') ->
  k_sched k' = k_sched k /\ k_pipes k' = k_pipes k /\ k_user k' = k_user k /\ kern_typed k' /\ Forall (fun c => fd_typed (desc c)) taken /\
  (is_Some (task_at (k_sched k) slot) -> forall tbl fd, k_tables k' !! slot = Some tbl -> fd_at tbl fd = None).
Proof.
  intros [Hp Ht]. unfold take_fds. destruct (task_at (k_sched k) slot) as [t|].
  2:{ intros [= <- <-]. split_and!; try done. }
  destruct (k_tables k !! slot) as [tbl|] eqn:Htbl.
  2:{ intros [= <- <-]. split_and!; try done. intros _ tbl fd H. congruence. }
  destruct (Ht _ _ Htbl) as [Hwf Hty]. destruct (take_all (k_arcs k) tbl) as [[out h] tbl'] eqn:Ho. intros [= <- <-].
  unfold take_all in Ho. apply take_from_at in Ho as (Hwf' & Hout & Hat); [|done..].
  assert (forall fd, fd_at tbl' fd = None) as Hnone.
  { intros fd. destruct (Z.lt_ge_cases fd 0) as [Hn|Hn]; [unfold fd_at, get; by rewrite (proj2 (Z.ltb_lt _ _))|].
    rewrite Hat by done. destruct (Z.ltb_spec fd (0 + Z.of_nat (length (fds tbl)))) as [|Hge].
    - by rewrite (proj2 (Z.leb_le _ _)).
    - rewrite andb_false_r. unfold fd_at. destruct (get (fds tbl) fd) eqn:Hg; [|done]. apply get_Some_range in Hg. unfold zlen in Hg. lia. }
  split_and!; try done.
  - split; [done|]. intros j tb. simpl. rewrite lookup_insert_Some. intros [[<- <-]|[_ Hj]]; [|by apply (Ht j)].
    split; [done|]. intros fd d Hd. by rewrite Hnone in Hd.
  - apply Forall_forall. intros c [j Hj]%Hout. by apply (Hty j).
  - intros _ tb fd. simpl. rewrite lookup_insert_eq. intros [= <-]. apply Hnone.
Qed.

(** Closing the last reference to an end of a pipe at most wakes the tasks
    waiting for input. *)
Definition woken s s' : Prop := s' = s \/ s' = wake_waiters_tasks Input s.

Lemma map_tasks_twice f s : (forall t, f (f t) = f t) -> map_tasks f (map_tasks f s) = map_tasks f s.
Proof.
  intros Hf. unfold map_tasks. simpl. rewrite <- list_fmap_compose.
  refine (f_equal (fun l => s <| tasks := l |>) (list_fmap_ext _ _ _ _)). intros _ o _. unfold compose.
  destruct o as [t|]; [|done]. apply (f_equal Some (Hf t)).
Qed.
Lemma woken_trans s1 s2 s3 : woken s1 s2 -> woken s2 s3 -> woken s1 s3.
Proof.
  intros [->| ->] [->| ->]; [by left|by right..|]. right. apply map_tasks_twice. intros t.
  destruct (is_blocked_on Input t) eqn:Hb; [|by rewrite Hb]. done.
Qed.
Lemma woken_same s s' : woken s s' -> same_tasks s s'.
Proof. intros [->| ->]; [by apply same_refl|apply same_wake]. Qed.
Lemma woken_keeps ex s s' : own_core ex s -> woken s s' -> keeps s s'.
Proof. intros Hc [->| ->]; [by eapply keeps_refl|by eapply keeps_wake_waiters]. Qed.

Lemma maybe_free_ok id (p : pstate (Sched F)) : zlen (PIPES p) = MAX_PIPES -> 0 <= id < MAX_PIPES ->
  exists l, maybe_free id p = Ret (mkP l (TASKS p)) /\ zlen l = MAX_PIPES.
Proof.
  intros Hl Hid. unfold maybe_free. destruct (get_in_range (PIPES p) id) as [q Hq]; [lia|].
  rewrite (proj2 (idx_Ret _ _ _) Hq), bind_Ret_l. destruct (_ && _); [|exists (PIPES p); by destruct p].
  rewrite upd_in_range, bind_Ret_l by lia. eexists. split; [done|]. by rewrite zlen_insert.
Qed.

(** Both ends close alike. *)
Lemma close_end_ok (b in_use : bool) id s l q :
  zlen l = MAX_PIPES -> 0 <= id < MAX_PIPES ->
  exists l' s', (if negb in_use then Ret (mkP l s) else
                 l1 ← (if b then upd l id q else Ret l); maybe_free id (wake_input (mkP l1 s))) = Ret (mkP l' s') /\
    zlen l' = MAX_PIPES /\ woken s s'.
Proof.
  intros Hl Hid. destruct in_use; simpl negb; cbv iota; [|exists l, s; split; [done|split; [done|by left]]].
  assert (exists l1, (if b then upd l id q else Ret l) = Ret l1 /\ zlen l1 = MAX_PIPES) as (l1 & -> & Hl1).
  { destruct b; [|by exists l]. rewrite upd_in_range by lia. eexists. split; [done|]. by rewrite zlen_insert. }
  rewrite bind_Ret_l. destruct (maybe_free_ok id (wake_input (mkP l1 s)) Hl1 Hid) as (l2 & -> & Hl2).
  exists l2, (wake_waiters_tasks Input s). split; [done|]. split; [done|by right].
Qed.
Lemma pipe_close_ok (f : Z -> pstate (Sched F) -> outcome (pstate (Sched F))) id s l :
  f = pipe_close_reader \/ f = pipe_close_writer -> zlen l = MAX_PIPES -> 0 <= id ->
  exists l' s', f id (mkP l s) = Ret (mkP l' s') /\ zlen l' = MAX_PIPES /\ woken s s'.
Proof.
  intros Hf Hl Hid. destruct (Z.leb_spec MAX_PIPES id) as [Hge|Hlt].
  { exists l, s. split; [|split; [done|by left]].
    destruct Hf as [->| ->]; [unfold pipe_close_reader|unfold pipe_close_writer]; by rewrite (proj2 (Z.leb_le _ _)). }
  destruct (get_in_range l id) as [q Hq]; [lia|].
  destruct Hf as [->| ->]; [unfold pipe_close_reader|unfold pipe_close_writer];
    rewrite (proj2 (Z.leb_gt _ _)) by done; cbn [PIPES TASKS]; rewrite (proj2 (idx_Ret _ _ _) Hq), bind_Ret_l;
    by apply close_end_ok.
Qed.

Lemma close_descriptor_ok k c : zlen (k_pipes k) = MAX_PIPES -> fd_typed (desc c) ->
  exists l s ev, close_descriptor k c = Ret (k <| k_pipes := l |> <| k_sched := s |> <| k_events := ev |>) /\
    zlen l = MAX_PIPES /\ woken (k_sched k) s.
Proof.
  intros Hl Hc. assert (forall k', k' = k \/ (exists e, k' = record e k) -> exists l s ev,
    Ret k' = Ret (k <| k_pipes := l |> <| k_sched := s |> <| k_events := ev |>) /\ zlen l = MAX_PIPES /\ woken (k_sched k) s) as Hsame.
  { intros k' Hk'. exists (k_pipes k), (k_sched k), (k_events k'). split; [|split; [done|by left]].
    destruct Hk' as [->|[e ->]]; by destruct k. }
  unfold close_descriptor. destruct (last_open_ref c); simpl negb; cbv iota; [|apply Hsame; by left].
  destruct (desc c) as [| | |sid|id [|]|pid side| |]; try (apply Hsame; eauto; fail).
  - destruct (pipe_close_ok pipe_close_reader id (k_sched k) (k_pipes k)) as (l & s & E & Hl' & Hw); [by left|done..|].
    unfold run_pipe. rewrite E. exists l, s, (k_events k). split; [by destruct k|done].
  - destruct (pipe_close_ok pipe_close_writer id (k_sched k) (k_pipes k)) as (l & s & E & Hl' & Hw); [by right|done..|].
    unfold run_pipe. rewrite E. exists l, s, (k_events k). split; [by destruct k|done].
Qed.

Lemma close_descriptors_ok l : forall k, zlen (k_pipes k) = MAX_PIPES -> Forall (fun c => fd_typed (desc c)) l ->
  exists k', close_descriptors k l = Ret k' /\ zlen (k_pipes k') = MAX_PIPES /\ woken (k_sched k) (k_sched k') /\
    k_tables k' = k_tables k /\ k_user k' = k_user k.
Proof.
  induction l as [|c l IH]; intros k Hl Hall; cbn [close_descriptors]; [exists k; split_and!; try done; by left|].
  apply Forall_cons in Hall as [Hc Hall]. destruct (close_descriptor_ok k c Hl Hc) as (p & s & ev & -> & Hp & Hw). rewrite bind_Ret_l.
  destruct (IH (k <| k_pipes := p |> <| k_sched := s |> <| k_events := ev |>)) as (k' & -> & Hl' & Hw' & Ht & Hu); [done..|].
  exists k'. split_and!; try done. by eapply woken_trans.
Qed.
End ClosingAll.

(** ** Exit *)

Section ExitProofs.
  Context {F : Type} `{!FileStore F}.
  Implicit Types (s : Sched F) (k : Kern F) (t u : Task).

Lemma frozen_reparented s p t u : frozen t = frozen u -> frozen (reparented s p t) = frozen (reparented s p u).
Proof.
  intros He. unfold reparented. assert (ppid t = ppid u) as -> by exact (f_equal ppid He).
  destruct (p <=? 0); [done|]. destruct (ppid u =? p); [|done]. unfold adopt.
  destruct (if p =? 1 then None else live_init s) as [slot|];
    [exact (f_equal (fun t => t <| ppid := 1 |> <| parent := slot |>) He)|exact (f_equal (fun t => t <| ppid := 0 |> <| parent := 0 |>) He)].
Qed.
Lemma frozen_wake_if r t : frozen (wake_if r t) = frozen t.
Proof. unfold wake_if. by destruct (is_blocked_on r t). Qed.

(** The last part of [finish_process], from the state after the descriptors are
    closed. *)
Definition ended s (leader status sig dead_pid : Z) : Sched F :=
  wake_waiters_tasks Thread (wake_waiters_tasks Child
    (reparent_children_of (on_task s leader (finish_leader status sig)) dead_pid)).

Lemma ended_at s leader status sig p j : zlen (tasks s) = 32 ->
  task_at (ended s leader status sig p) j =
  (fun u => wake_if Thread (wake_if Child (reparented (on_task s leader (finish_leader status sig)) p
     (if j =? leader then finish_leader status sig u else u)))) <$> task_at s j.
Proof.
  intros Hl. unfold ended, wake_waiters_tasks. rewrite !map_tasks_at, reparent_at, on_task_at by done.
  destruct (j =? leader); by destruct (task_at s j).
Qed.

Lemma ended_keeps ex s leader status sig p t :
  own_core ex s -> task_at s leader = Some t -> leader_slot t = leader -> 1 <= leader -> keeps s (ended s leader status sig p).
Proof.
  intros Hc Ht Hl Hpos. pose proof (task_at_range _ _ _ (sw_tasks _ (oc_wf _ _ Hc)) Ht).
  assert (keeps s (on_task s leader (finish_leader status sig))) as K1.
  { apply (keeps_update ex); [done|]. intros u Hu. assert (u = t) as -> by congruence. split; [split; simpl; lia|lia]. }
  assert (own_core ex (on_task s leader (finish_leader status sig))) as C1 by (by apply (keeps_core ex s)).
  eapply keeps_trans; [exact K1|]. eapply keeps_trans; [by eapply keeps_reparent|]. apply (keeps_wake_leave ex).
  eapply (keeps_core ex); [exact C1|]. by eapply keeps_reparent.
Qed.

Lemma finish_process_ok ex k leader status sig t :
  own_core ex (k_sched k) -> kern_typed k -> task_at (k_sched k) leader = Some t -> leader_slot t = leader -> 1 <= leader ->
  exists k' s1, finish_process k leader status sig = Ret k' /\ woken (k_sched k) s1 /\ k_sched k' = ended s1 leader status sig (pid t) /\
    kern_typed k' /\ k_user k' = k_user k /\ (forall tbl fd, k_tables k' !! leader = Some tbl -> fd_at tbl fd = None).
Proof.
  intros Hc Hty Ht Hl Hpos. pose proof (task_at_range _ _ _ (sw_tasks _ (oc_wf _ _ Hc)) Ht) as Hr.
  unfold finish_process. rewrite (idx_tasks ex) by (done || lia). rewrite bind_Ret_l, Ht. cbv zeta.
  destruct (take_fds (record (DestroyWindows leader) k) leader) as [taken k1] eqn:Htk.
  destruct (take_fds_ok (record (DestroyWindows leader) k) leader taken k1 Hty Htk) as (S1 & P1 & U1 & T1 & Hfd & Hnone). change (k_sched (record _ k)) with (k_sched k) in S1, Hnone.
  destruct (close_descriptors_ok taken k1) as (k2 & E2 & P2 & W2 & TB2 & U2); [by apply T1|done|].
  rewrite E2, !bind_Ret_l. eexists _, (k_sched k2). split; [reflexivity|]. split_and!.
  - by rewrite <- S1.
  - done.
  - split; [done|]. intros slot tbl. change (k_tables k2 !! slot = Some tbl -> table_typed tbl). rewrite TB2. apply T1.
  - change (k_user k2 = k_user k). by rewrite U2, U1.
  - intros tbl fd. change (k_tables k2 !! leader = Some tbl -> fd_at tbl fd = None). rewrite TB2. apply Hnone. by rewrite Ht.
Qed.

(** What [sys_exit] makes of the task in slot [j], its run state aside. *)
Definition exit_task (leader status j : Z) u : Task :=
  let u := if leader_slot u =? leader then exit_member (as_usize status) u else u in
  if j =? leader then finish_leader status 0 u else u.

Lemma same_task_at s s' j t : same_tasks s s' -> task_at s j = Some t ->
  exists t', task_at s' j = Some t' /\ same_task t t'.
Proof. intros (_ & _ & Hs) Ht. specialize (Hs j). rewrite Ht in Hs. inversion Hs; subst. eauto. Qed.
Lemma same_task_none s s' j : same_tasks s s' -> task_at s j = None -> task_at s' j = None.
Proof. intros (_ & _ & Hs) Ht. specialize (Hs j). rewrite Ht in Hs. by inversion Hs. Qed.

(** The task in slot [j] of [s] after the process of [leader] exited. *)
Definition after_exit (leader status dead_pid : Z) s (w : Sched F) s' : Prop :=
  memory s' = memory s /\ zlen (tasks s') = 32 /\
  forall j, match task_at s j with
  | Some u => exists u', task_at s' j = Some u' /\ frozen u' = frozen (reparented w dead_pid (exit_task leader status j u)) /\
                blocked_reason u' <> Some Child /\ blocked_reason u' <> Some Thread
  | None => task_at s' j = None
  end.

Lemma frozen_finish status sig t u : frozen t = frozen u -> frozen (finish_leader status sig t) = frozen (finish_leader status sig u).
Proof. intros He. exact (f_equal (fun t => frozen (finish_leader status sig t)) He). Qed.

Lemma after_exit_ended s leader status s1 p :
  let members := on_tasks (thread_slots s leader) (exit_member (as_usize status)) s in
  zlen (tasks s) = 32 -> woken members s1 ->
  after_exit leader status p s (on_task s1 leader (finish_leader status 0)) (ended s1 leader status 0 p).
Proof.
  intros members Hl Hw. destruct (on_tasks_frame (thread_slots s leader) s (exit_member (as_usize status))) as [Hf Hfl].
  fold members in Hf, Hfl. pose proof (woken_same _ _ Hw) as Hs. pose proof Hs as (M & L & _).
  assert (zlen (tasks s1) = 32) as Hl1 by (by rewrite L, Hfl). split_and!.
  - unfold ended, wake_waiters_tasks, map_tasks. cbn [memory set_field setter].
    rewrite (proj1 (reparent_frame _ _)). change (memory (on_task s1 leader (finish_leader status 0)) = memory s).
    rewrite (proj2 (on_task_cpu _ _ _)), M, Hf. done.
  - unfold ended, wake_waiters_tasks, map_tasks. cbn [tasks set_field setter]. unfold zlen. rewrite !length_fmap.
    fold (zlen (tasks (reparent_children_of (on_task s1 leader (finish_leader status 0)) p))).
    by rewrite (proj2 (reparent_frame _ _)), (proj2 (on_task_frame _ _ _)).
  - intros j. rewrite ended_at by done. pose proof (on_members_at s leader (exit_member (as_usize status)) j Hl) as Hm.
    fold members in Hm. destruct (task_at s j) as [u|].
    + destruct (same_task_at _ _ _ _ Hs Hm) as (u1 & -> & He & _). eexists. split; [done|]. split_and!.
      * rewrite !frozen_wake_if. apply frozen_reparented. unfold exit_task. destruct (j =? leader); [|done]. by apply frozen_finish.
      * apply wake_if_other, wake_if_not.
      * apply wake_if_not.
    + by rewrite (same_task_none _ _ _ Hs Hm).
Qed.

Lemma exit_ok kernel_pd cpu now k leader t esp status :
  own_inv (k_sched k) -> kern_typed k -> 0 <= cpu < 64 ->
  task_at (k_sched k) leader = Some t -> leader_slot t = leader -> 1 <= leader ->
  exists next k' w s1, sys_exit kernel_pd cpu now k leader esp status = Ret (next, k') /\ own_inv (k_sched k') /\
    dispatched kernel_pd (k_sched k') cpu next /\ kern_typed k' /\ k_user k' = k_user k /\
    (forall tbl fd, k_tables k' !! leader = Some tbl -> fd_at tbl fd = None) /\
    after_exit leader status (pid t) (k_sched k) w s1 /\ cpu_slot s1 = cpu_slot (k_sched k) /\ switched cpu s1 (k_sched k').
Proof.
  intros Hi Hty Hcpu Ht Hl Hpos. pose proof (oi_core _ Hi) as Hc. pose proof (sw_tasks _ (oc_wf _ _ Hc)) as Hl32.
  unfold sys_exit. rewrite (proj2 (Z.eqb_neq _ _)) by lia.
  set (sm := on_tasks (thread_slots (k_sched k) leader) (exit_member (as_usize status)) (k_sched k)).
  assert (keeps (k_sched k) sm) as Km by (by eapply keeps_on_tasks).
  assert (own_core (-1) sm) as Cm by (by eapply (keeps_core (-1) (k_sched k))).
  assert (task_at sm leader = Some (exit_member (as_usize status) t)) as Htm
    by (unfold sm; by rewrite on_members_at, Ht; simpl; rewrite ?Hl, ?Z.eqb_refl).
  change (on_sched k _) with (on_sched k (fun _ => sm)).
  destruct (finish_process_ok (-1) (on_sched k (fun _ => sm)) leader status 0 (exit_member (as_usize status) t))
    as (k1 & s1 & -> & Hw & Hs1 & Hty1 & Hu1 & Hn1); [done..|]. rewrite bind_Ret_l. unfold switch. rewrite Hs1.
  change (k_sched (on_sched k (fun _ => sm))) with sm in Hw. change (pid (exit_member (as_usize status) t)) with (pid t).
  assert (keeps sm s1) as K1 by (by eapply woken_keeps).
  assert (own_core (-1) s1) as C1 by (by apply (keeps_core (-1) sm)).
  destruct (same_task_at _ _ _ _ (woken_same _ _ Hw) Htm) as (t1 & Ht1 & Hf1 & _).
  assert (keeps s1 (ended s1 leader status 0 (pid t))) as K2.
  { apply (ended_keeps (-1) _ _ _ _ _ t1); try done. exact (eq_trans (f_equal leader_slot Hf1) Hl). }
  assert (keeps (k_sched k) (ended s1 leader status 0 (pid t))) as K by (do 2 (eapply keeps_trans; [eassumption|]); done).
  assert (own_inv (ended s1 leader status 0 (pid t))) as Hi1 by (by apply (keeps_inv (k_sched k))).
  destruct (schedule_ok kernel_pd _ cpu esp now Hi1 Hcpu) as (next & s' & Hsch & Hi' & Hd). rewrite Hsch, bind_Ret_l.
  eexists next, _, (on_task s1 leader (finish_leader status 0)), (ended s1 leader status 0 (pid t)).
  split; [reflexivity|]. do 5 (split; [done|]). split; [|split].
  - by apply after_exit_ended.
  - apply (kp_cpu _ _ K).
  - by eapply schedule_switched.
Qed.
End ExitProofs.

(** ** Waiting *)

Section WaitProofs.
  Context {F : Type} `{!FileStore F}.
  Implicit Types (s : Sched F) (k : Kern F) (t u : Task).
  Variables (sel : Task -> outcome bool) (f : Task -> bool) (options : Z).
  Hypothesis sel_pure : forall t, sel t = Ret (f t).

Lemma scan_found l : forall b i t e,
  l !! i = Some (Some t) -> 0 <= b -> b + Z.of_nat i <> 0 -> f t = true -> child_event options (b + Z.of_nat i) t = Some e ->
  (forall i' t', (i' < i)%nat -> l !! i' = Some (Some t') -> b + Z.of_nat i' <> 0 -> f t' = true ->
    child_event options (b + Z.of_nat i') t' = None) ->
  scan_children sel options b l = Ret (Some e).
Proof using sel_pure.
  induction l as [|o l IH]; intros b i t e Hi Hb Hne Hf He Hbefore; [done|]. cbn [scan_children].
  destruct i as [|i]; simpl in Hi.
  - injection Hi as ->. rewrite Z.add_0_r in *. rewrite (proj2 (Z.eqb_neq _ _)) by done. by rewrite sel_pure, bind_Ret_l, Hf, He.
  - assert (scan_children sel options (b + 1) l = Ret (Some e)) as Hrec.
    { apply (IH (b + 1) i t e); try done; try lia.
      - by replace (b + 1 + Z.of_nat i) with (b + Z.of_nat (S i)) by lia.
      - intros i' t' Hlt Hl Hn Hft. replace (b + 1 + Z.of_nat i') with (b + Z.of_nat (S i')) in * by lia.
        apply (Hbefore (S i')); [lia|done..]. }
    destruct o as [u|]; [|done]. destruct (Z.eqb_spec b 0) as [|Hb0]; [done|]. rewrite sel_pure, bind_Ret_l.
    destruct (f u) eqn:Hfu; [|done]. simpl negb. cbv iota. specialize (Hbefore 0%nat u ltac:(lia) eq_refl).
    rewrite Z.add_0_r in Hbefore. by rewrite Hbefore.
Qed.

Lemma scan_none l : forall b,
  (forall i t, l !! i = Some (Some t) -> b + Z.of_nat i <> 0 -> f t = true -> child_event options (b + Z.of_nat i) t = None) ->
  scan_children sel options b l = Ret None.
Proof using sel_pure.
  induction l as [|o l IH]; intros b Hall; [done|]. cbn [scan_children].
  assert (scan_children sel options (b + 1) l = Ret None) as Hrec.
  { apply IH. intros i t Hl. replace (b + 1 + Z.of_nat i) with (b + Z.of_nat (S i)) by lia. by apply (Hall (S i)). }
  destruct o as [u|]; [|done]. destruct (Z.eqb_spec b 0) as [|Hb0]; [done|]. rewrite sel_pure, bind_Ret_l.
  destruct (f u) eqn:Hfu; [|done]. simpl negb. cbv iota. specialize (Hall 0%nat u eq_refl). rewrite Z.add_0_r in Hall.
  by rewrite Hall.
Qed.

Lemma any_none l : forall b, (forall i t, l !! i = Some (Some t) -> b + Z.of_nat i <> 0 -> f t = false) -> any_child sel b l = Ret false.
Proof using sel_pure.
  induction l as [|o l IH]; intros b Hall; [done|]. cbn [any_child].
  assert (any_child sel (b + 1) l = Ret false) as Hrec.
  { apply IH. intros i t Hl Hn. apply (Hall (S i)); [done|lia]. }
  destruct o as [u|]; [|done]. destruct (Z.eqb_spec b 0) as [|Hb0]; [done|].
  rewrite sel_pure, bind_Ret_l, (Hall 0%nat u) by (done || lia). done.
Qed.
End WaitProofs.

Section RoundTrip.
  Context {F : Type} `{!FileStore F}.
  Implicit Types (s : Sched F) (k : Kern F) (t u : Task).
  Variable (shootdown_tlb : Z -> Z -> bool).

(** Only exits are waited for. *)
Definition plain (options : Z) : Prop := options = 0 \/ options = WNOHANG.

Lemma child_event_plain options slot t : plain options ->
  child_event options slot t = if zombie t then Some (Exited slot (pid t) (exit_code t) (term_signal t)) else None.
Proof. unfold child_event. intros [->| ->]; by destruct (zombie t). Qed.

Lemma matches_pid pp pg want t : 0 < want -> matches_selector pp pg want t = Ret ((ppid t =? pp) && (pid t =? want)).
Proof.
  intros Hw. unfold matches_selector. rewrite (proj2 (Z.ltb_lt _ _)) by done. by destruct (ppid t =? pp).
Qed.

Lemma task_at_lookup s j t : task_at s j = Some t <-> 0 <= j /\ tasks s !! Z.to_nat j = Some (Some t).
Proof.
  unfold task_at, get. destruct (Z.ltb_spec j 0); [split; [done|lia]|].
  destruct (tasks s !! Z.to_nat j) as [[u|]|]; simpl; split; try done; intros; naive_solver.
Qed.
Lemma lookup_task_at s i t : tasks s !! i = Some (Some t) -> task_at s (Z.of_nat i) = Some t.
Proof. intros H. apply task_at_lookup. rewrite Nat2Z.id. split; [lia|done]. Qed.

Lemma drop_tables_frame s k : k_sched (drop_tables s k) = k_sched k /\ k_user (drop_tables s k) = k_user k.
Proof.
  unfold drop_tables. generalize (seqZ 0 MAX_TASKS). intros l. revert k. induction l as [|j l IH]; intros k; [done|]. simpl.
  destruct (task_at s j); [destruct (task_at (k_sched k) j); [|destruct (k_tables k !! j)]|]; try apply IH.
  destruct (IH (k <| k_arcs := drop_table (k_arcs k) f |> <| k_tables := delete j (k_tables k) |>)) as [-> ->]. done.
Qed.

(** A wait for a child that ended and that no CPU runs any more. *)
Lemma wait_collects k parent p child u options ptr :
  let s := k_sched k in
  all_ok s -> zlen (tasks s) = 32 -> plain options ->
  task_at s parent = Some p -> 0 <= pid p ->
  task_at s child = Some u -> 1 <= child -> zombie u = true -> ppid u = pid p -> 0 < pid u -> process_quiescent s child = true ->
  (forall j v, task_at s j = Some v -> pid v = pid u -> zombie v = true -> j = child) ->
  exists s', reaped s child u s' /\ all_ok s' /\ reap shootdown_tlb s child = Ret (true, s') /\
    sys_wait_status shootdown_tlb k parent (pid u) ptr options =
    Ret (as_usize (pid u), put_user ptr (exit_status (exit_code u) (term_signal u)) (drop_tables s (k <| k_sched := s' |>))).
Proof.
  intros s Hok Hl Hopt Hp Hpp Hu Hc Hz Hppid Hpid Hq Huniq.
  destruct (reap_ok shootdown_tlb s child u Hok Hl) as (s' & Hr & Hreaped & Hok').
  { unfold reapable. pose proof (task_at_range _ _ _ Hl Hu). rewrite (proj2 (Z.eqb_neq child 0)), (proj2 (Z.leb_gt MAX_TASKS child)), Hq
      by (unfold MAX_TASKS; lia). simpl. rewrite Hu. simpl. by rewrite Hz. }
  exists s'. do 3 (split; [done|]). unfold sys_wait_status. fold s. rewrite Hp. rewrite (proj2 (Z.ltb_ge _ _)) by done.
  rewrite (scan_found _ (fun t => (ppid t =? pid p) && (pid t =? pid u)) options (fun t => matches_pid (pid p) (pgid p) (pid u) t Hpid)
    (tasks s) 0 (Z.to_nat child) u (Exited child (pid u) (exit_code u) (term_signal u))).
  - rewrite bind_Ret_l. unfold reap_process. fold s. rewrite Hr. done.
  - by apply task_at_lookup.
  - lia.
  - lia.
  - by rewrite Hppid, !Z.eqb_refl.
  - rewrite child_event_plain, Hz by done. by replace (0 + Z.of_nat (Z.to_nat child)) with child by lia.
  - intros i v Hlt Hv _ Hm. rewrite child_event_plain by done. destruct (zombie v) eqn:Hzv; [|done].
    apply andb_true_iff in Hm as [_ Hm%Z.eqb_eq]. apply lookup_task_at in Hv. specialize (Huniq _ _ Hv Hm Hzv). lia.
Qed.

(** Without a matching task there is nothing to wait for. *)
Lemma wait_no_child k parent p want ptr :
  task_at (k_sched k) parent = Some p -> 0 <= pid p -> 0 < want ->
  (forall j v, task_at (k_sched k) j = Some v -> pid v <> want) ->
  sys_wait_status shootdown_tlb k parent want ptr 0 = Ret (USIZE_MAX, k).
Proof.
  intros Hp Hpp Hw Hno. unfold sys_wait_status. rewrite Hp. rewrite (proj2 (Z.ltb_ge _ _)) by done.
  assert (forall i v, tasks (k_sched k) !! i = Some (Some v) -> (ppid v =? pid p) && (pid v =? want) = false) as Hf.
  { intros i v Hv. apply lookup_task_at, Hno in Hv. by rewrite (proj2 (Z.eqb_neq _ _) Hv), andb_false_r. }
  rewrite (scan_none _ _ 0 (fun t => matches_pid (pid p) (pgid p) want t Hw)).
  2:{ intros i v Hv _ Hm. by rewrite (Hf i v Hv) in Hm. }
  rewrite bind_Ret_l. change (negb (Z.land 0 WNOHANG =? 0)) with false. cbv iota.
  rewrite (any_none _ _ (fun t => matches_pid (pid p) (pgid p) want t Hw)); [done|]. intros i v Hv _. by apply (Hf i).
Qed.

Lemma reparented_id s p t : ppid t <> p -> reparented s p t = t.
Proof. intros Hp. unfold reparented. destruct (p <=? 0); [done|]. by rewrite (proj2 (Z.eqb_neq _ _) Hp). Qed.
Lemma reparented_pid s p t : pid (reparented s p t) = pid t.
Proof.
  unfold reparented. destruct (p <=? 0); [done|]. destruct (ppid t =? p); [|done].
  unfold adopt. by destruct (if p =? 1 then None else live_init s).
Qed.

(** The tasks after the switch that ends [sys_exit]. *)
Lemma after_exit_switched leader status p s w s1 s2 cpu :
  after_exit leader status p s w s1 -> switched cpu s1 s2 -> after_exit leader status p s w s2.
Proof.
  intros (M1 & L1 & H1) [Hs _ _]. pose proof Hs as (M2 & L2 & _). split_and!; [congruence..|]. intros j. specialize (H1 j).
  destruct (task_at s j) as [u|]; [|by eapply same_task_none].
  destruct H1 as (u1 & Hu1 & He & Hb1 & Hb2). destruct (same_task_at _ _ _ _ Hs Hu1) as (u2 & Hu2 & He2 & Hb).
  exists u2. split_and!; [done|congruence|..]; by destruct Hb as [->| ->].
Qed.

Lemma after_exit_back leader status p s (w : Sched F) s' j u' : after_exit leader status p s w s' -> task_at s' j = Some u' ->
  exists u, task_at s j = Some u /\ frozen u' = frozen (reparented w p (exit_task leader status j u)).
Proof.
  intros (_ & _ & H) Hu'. specialize (H j). destruct (task_at s j) as [u|]; [|congruence].
  destruct H as (v & Hv & He & _). exists u. split; [done|]. assert (u' = v) as -> by congruence. done.
Qed.

Lemma after_exit_ok leader status p s (w : Sched F) s' : after_exit leader status p s w s' -> all_ok s -> all_ok s'.
Proof.
  intros Ha [Hm Hok]. pose proof Ha as (M & _ & _). split; [by rewrite M|]. intros j u' Hu'.
  destruct (after_exit_back _ _ _ _ _ _ _ _ Ha Hu') as (u & Hu & He). rewrite M.
  change (task_ok (memory s) (frozen u')). rewrite He. change (task_ok (memory s) (reparented w p (exit_task leader status j u))).
  apply reparented_ok. specialize (Hok j u Hu). unfold exit_task. by destruct (leader_slot u =? leader), (j =? leader).
Qed.

(** A process none of whose threads is current on a CPU is quiescent. *)
Lemma nobody_runs s leader : own_inv s -> 1 <= leader ->
  (forall j u c, task_at s j = Some u -> leader_slot u = leader -> 0 <= c -> get (cpu_slot s) c = Some j -> False) ->
  process_quiescent s leader = true.
Proof.
  intros Hi Hpos Hno. pose proof (oi_core _ Hi) as Hc. unfold process_quiescent. apply forallb_forall. intros j Hj.
  apply list_elem_of_In, thread_slots_elem in Hj as (u & Hu & Hl). pose proof (task_at_range _ _ _ (sw_tasks _ (oc_wf _ _ Hc)) Hu) as Hr.
  assert (j <> 0) as Hj0. { intros ->. destruct (oc_idle _ _ Hc) as (i & Hi0 & Hli). assert (i = u) by congruence. subst. lia. }
  destruct (get_in_range (task_owner s) j) as [o Ho]; [rewrite (sw_owner _ (oc_wf _ _ Hc)); lia|].
  unfold unowned. rewrite Ho. destruct (oc_owner _ _ Hc j o ltac:(lia) Ho) as [->|(Ho1 & _ & Hg & _)]; [done|].
  exfalso. apply (Hno j u o); [done|done|lia|done].
Qed.

(** A process about to exit on CPU [cpu], with the parent that waits for it. *)
Record family (cpu : Z) k (parent : Z) p (child : Z) t : Prop := {
  fam_inv : own_inv (k_sched k);
  fam_ok : all_ok (k_sched k);
  fam_typed : kern_typed k;
  fam_cpu : 0 <= cpu < 64;
  fam_child : task_at (k_sched k) child = Some t /\ leader_slot t = child /\ 1 <= child /\ 0 < pid t < 2 ^ 31;
  fam_parent : task_at (k_sched k) parent = Some p /\ leader_slot p <> child /\ ppid t = pid p /\ 0 < pid p /\ pid p <> pid t;
  fam_pid : forall j u, task_at (k_sched k) j = Some u -> pid u = pid t -> leader_slot u = child;
  fam_alone : forall c j u, 0 <= c -> c <> cpu -> get (cpu_slot (k_sched k)) c = Some j -> task_at (k_sched k) j = Some u ->
    leader_slot u <> child
}.

Lemma exit_task_fields leader status j u :
  pid (exit_task leader status j u) = pid u /\ ppid (exit_task leader status j u) = ppid u /\
  leader_slot (exit_task leader status j u) = leader_slot u /\ (j <> leader -> zombie (exit_task leader status j u) = zombie u) /\
  (leader_slot u = leader -> thread_exited (exit_task leader status j u) = true) /\
  (leader_slot u <> leader -> j <> leader -> exit_task leader status j u = u).
Proof.
  unfold exit_task. destruct (Z.eqb_spec (leader_slot u) leader), (Z.eqb_spec j leader); split_and!; done.
Qed.

(** After the exit the process is a zombie that no CPU runs. *)
Lemma exit_quiescent kernel_pd cpu now k parent p child t esp status :
  family cpu k parent p child t ->
  exists next k' (w : Sched F), sys_exit kernel_pd cpu now k child esp status = Ret (next, k') /\ own_inv (k_sched k') /\
    k_user k' = k_user k /\ (forall tbl fd, k_tables k' !! child = Some tbl -> fd_at tbl fd = None) /\
    after_exit child status (pid t) (k_sched k) w (k_sched k') /\ process_quiescent (k_sched k') child = true.
Proof.
  intros [Hi Hok Hty Hcpu (Ht & Hl & Hpos & Hpid) _ _ Hal].
  destruct (exit_ok kernel_pd cpu now k child t esp status Hi Hty Hcpu Ht Hl Hpos)
    as (next & k' & w & s1 & E & Hi' & _ & _ & Hu & Hn & Ha & Hcs & Hsw).
  exists next, k', w. do 4 (split; [done|]). split; [by eapply after_exit_switched|].
  apply nobody_runs; [done..|]. intros j u' c Hu' Hlu Hc0 Hg.
  destruct (after_exit_back _ _ _ _ _ _ _ _ (after_exit_switched _ _ _ _ _ _ _ _ Ha Hsw) Hu') as (u & Hju & He).
  destruct (exit_task_fields child status j u) as (_ & _ & F3 & _ & F5 & _).
  assert (leader_slot u = child) as Hlead.
  { pose proof (f_equal leader_slot He : leader_slot u' = leader_slot (reparented w (pid t) (exit_task child status j u))) as Hf.
    rewrite (proj2 (reparented_same _ _ _)), F3 in Hf. congruence. }
  destruct (Z.eq_dec c cpu) as [->|Hne].
  - pose proof (proj2 (proj2 Ha) j) as Haj. rewrite Hju in Haj. destruct Haj as (u1 & Hu1 & He1 & _).
    assert (thread_exited u1 = true) as Hx.
    { pose proof (f_equal thread_exited He1 : thread_exited u1 = thread_exited (reparented w (pid t) (exit_task child status j u))) as Hf.
      destruct (reparented_run w (pid t) (exit_task child status j u)) as (_ & _ & Hx & _). rewrite Hx in Hf. rewrite Hf. auto. }
    assert (j <> 0) as Hj0 by (intros ->; destruct (oc_idle _ _ (oi_core _ Hi)) as (i & Hi0 & Hli); assert (i = u) by congruence; subst; lia).
    pose proof (task_at_range _ _ _ (sw_tasks _ (oc_wf _ _ (oi_core _ Hi))) Hju).
    pose proof (sw_new _ _ _ Hsw j u1 ltac:(lia) Hg Hu1). congruence.
  - rewrite (sw_other _ _ _ Hsw), Hcs in Hg by done. by apply (Hal c j u).
Qed.

(** What collecting the dead process leaves of the others. *)
Definition outlives (dead_pid : Z) u u' : Prop :=
  pid u' = pid u /\ zombie u' = zombie u /\ ppid u' <> dead_pid /\ (ppid u <> dead_pid -> ppid u' = ppid u) /\
  blocked_reason u' <> Some Child.

Lemma collected_task child status p s (w : Sched F) s1 s2 j u z :
  after_exit child status p s w s1 -> (forall i, task_at s2 i = survivor s1 child p i) -> 0 < p -> task_at s j = Some u ->
  task_at s child = Some z -> leader_slot z = child ->
  if leader_slot u =? child then task_at s2 j = None else exists u', task_at s2 j = Some u' /\ outlives p u u'.
Proof.
  intros (_ & _ & Ha) Hs Hp Hu Hz Hlz. specialize (Ha j). rewrite Hu in Ha. destruct Ha as (u1 & Hu1 & He & Hb & _). rewrite Hs.
  unfold survivor. rewrite Hu1. simpl. destruct (exit_task_fields child status j u) as (_ & _ & F3 & _ & _ & F6).
  pose proof (f_equal leader_slot He : leader_slot u1 = leader_slot (reparented w p (exit_task child status j u))) as Hl1.
  rewrite (proj2 (reparented_same _ _ _)), F3 in Hl1. unfold member. rewrite Hl1.
  destruct (Z.eqb_spec (leader_slot u) child) as [Hc|Hc]; [by rewrite orb_true_r|].
  assert (j <> child) as Hj by congruence. rewrite (proj2 (Z.eqb_neq _ _) Hj). simpl. rewrite F6 in He by done.
  pose proof (f_equal ppid He : ppid u1 = ppid (reparented w p u)) as Hpp.
  assert (ppid u1 <> p) as Hne by (rewrite Hpp; by apply reparented_ppid). rewrite (reparented_id s1 p u1 Hne).
  exists u1. split; [done|]. split_and!; try done.
  - etransitivity; [exact (f_equal pid He)|]. apply (reparented_pid w p u).
  - etransitivity; [exact (f_equal zombie He)|]. apply (proj1 (reparented_same w p u)).
  - intros Hn. rewrite Hpp. by rewrite reparented_id.
Qed.

(** The zombie that [sys_exit] leaves. *)
Lemma exit_zombie child status s (w : Sched F) s1 t p : after_exit child status p s w s1 ->
  task_at s child = Some t -> leader_slot t = child -> ppid t <> p ->
  exists u, task_at s1 child = Some u /\ zombie u = true /\ pid u = pid t /\ ppid u = ppid t /\ leader_slot u = child /\
    exit_code u = status /\ term_signal u = 0.
Proof.
  intros (_ & _ & Ha) Ht Hl Hp. specialize (Ha child). rewrite Ht in Ha. destruct Ha as (u & Hu & He & _). exists u. split; [done|].
  rewrite reparented_id in He by (by destruct (exit_task_fields child status child t) as (_ & -> & _)).
  unfold exit_task in He. rewrite Hl, !Z.eqb_refl in He.
  split_and!; [exact (f_equal zombie He)|exact (f_equal pid He)|exact (f_equal ppid He)| |exact (f_equal exit_code He)|exact (f_equal term_signal He)].
  rewrite <- Hl. exact (f_equal leader_slot He).
Qed.

Lemma exit_pids child status p s (w : Sched F) s1 j v : after_exit child status p s w s1 -> task_at s1 j = Some v ->
  exists u, task_at s j = Some u /\ pid v = pid u /\ leader_slot v = leader_slot u.
Proof.
  intros Ha Hv. destruct (after_exit_back _ _ _ _ _ _ _ _ Ha Hv) as (u & Hu & He). exists u. split; [done|].
  destruct (exit_task_fields child status j u) as (F1 & _ & F3 & _). split.
  - etransitivity; [exact (f_equal pid He)|]. etransitivity; [apply (reparented_pid w p)|done].
  - etransitivity; [exact (f_equal leader_slot He)|]. etransitivity; [apply (reparented_same w p)|done].
Qed.

Lemma put_user_frame ptr v k : k_sched (put_user ptr v k) = k_sched k /\ (ptr <> 0 -> k_user (put_user ptr v k) !! ptr = Some v).
Proof. unfold put_user. destruct (Z.eqb_spec ptr 0); split; try done. intros _. simpl. by rewrite lookup_insert_eq. Qed.

(** C7. Exit and wait are a round trip: when a process exits, the call returns
    in another task, every descriptor of the process is closed and its parent
    is no longer blocked waiting for a child; the parent's wait then returns the
    process id with the low byte of the status in bits 8 to 15, frees the slots
    of all its threads, gives its children away and leaves every other process
    in place; a second wait for the same process reports that there is none.
    No CPU but the one that exits runs a thread of the process. *)
Theorem exit_wait_roundtrip kernel_pd cpu now k parent p child t esp status ptr options :
  family cpu k parent p child t -> plain options ->
  exists next k1 k2, sys_exit kernel_pd cpu now k child esp status = Ret (next, k1) /\ own_inv (k_sched k1) /\
    (forall tbl fd, k_tables k1 !! child = Some tbl -> fd_at tbl fd = None) /\
    sys_wait_status shootdown_tlb k1 parent (pid t) ptr options = Ret (pid t, k2) /\ own_inv (k_sched k2) /\
    (ptr <> 0 -> k_user k2 !! ptr = Some (Z.shiftl (Z.land status 255) 8)) /\
    (forall j u, task_at (k_sched k) j = Some u ->
      if leader_slot u =? child then task_at (k_sched k2) j = None
      else exists u', task_at (k_sched k2) j = Some u' /\ outlives (pid t) u u') /\
    sys_wait_status shootdown_tlb k2 parent (pid t) ptr 0 = Ret (USIZE_MAX, k2).
Proof.
  intros Hf Hopt. destruct (exit_quiescent kernel_pd cpu now k parent p child t esp status Hf)
    as (next & k1 & w & E & Hi1 & _ & Hn & Ha & Hq).
  pose proof Hf as [Hi Hok _ _ (Ht & Hl & Hpos & Hpid) (Hp & Hlp & Hppid & Hpp & Hne) Huniq _].
  destruct (exit_zombie child status _ w _ t (pid t) Ha Ht Hl ltac:(lia)) as (z & Hz & Z1 & Z2 & Z3 & Z4 & Z5 & Z6).
  assert (forall j v, task_at (k_sched k1) j = Some v -> pid v = pid t -> leader_slot v = child) as Huniq1.
  { intros j v Hv Hpv. destruct (exit_pids _ _ _ _ _ _ _ _ Ha Hv) as (u & Hu & Hq1 & ->). apply (Huniq j u Hu). congruence. }
  pose proof (proj2 (proj2 Ha) parent) as Hpar. rewrite Hp in Hpar. destruct Hpar as (p1 & Hp1 & _).
  assert (pid p1 = pid p) as Hpid1 by (destruct (exit_pids _ _ _ _ _ _ _ _ Ha Hp1) as (u & Hu & -> & _); congruence).
  destruct (wait_collects k1 parent p1 child z options ptr) as (s2 & Hr & Hok2 & Hreap & Hw); try done; try congruence; try lia.
  { by eapply after_exit_ok. }
  { apply (sw_tasks _ (oc_wf _ _ (oi_core _ Hi1))). }
  { intros j v Hv Hpv Hzv. destruct (oc_zombie _ _ (oi_core _ Hi1) j v Hv) as [_ Hld]. rewrite <- (Hld Hzv).
    apply (Huniq1 j v Hv). congruence. }
  rewrite Z2, Z5, Z6 in Hw. set (k2 := put_user _ _ _) in Hw. assert (k_sched k2 = s2) as Hk2.
  { unfold k2. by rewrite (proj1 (put_user_frame _ _ _)), (proj1 (drop_tables_frame _ _)). }
  pose proof Hr as (_ & _ & Hsv). rewrite Z2 in Hsv.
  assert (forall j u, task_at (k_sched k) j = Some u -> if leader_slot u =? child then task_at s2 j = None
    else exists u', task_at s2 j = Some u' /\ outlives (pid t) u u') as Hall.
  { intros j u Hu. eapply (collected_task child status (pid t)); try done. lia. }
  exists next, k1, k2. rewrite Hk2. do 3 (split; [done|]). split; [|split; [|split; [apply put_user_frame|split; [done|]]]].
  - rewrite Hw. unfold as_usize. by rewrite Z.mod_small by lia.
  - apply (keeps_inv (k_sched k1)); [done|]. exact (keeps_reap shootdown_tlb (-1) (k_sched k1) child true s2 (oi_core _ Hi1) Hreap).
  - pose proof (Hall parent p Hp) as Hpar. rewrite (proj2 (Z.eqb_neq _ _) Hlp) in Hpar. destruct Hpar as (p2 & Hp2 & O1 & _).
    apply (wait_no_child k2 parent p2); rewrite ?Hk2; try done; try lia. intros j v. rewrite Hsv. unfold survivor.
    destruct (task_at (k_sched k1) j) as [v1|] eqn:Hv1; [|done]. simpl. unfold member.
    destruct (Z.eqb_spec (leader_slot v1) child) as [|Hlv]; [by rewrite orb_true_r|]. rewrite orb_false_r.
    destruct (j =? child); [done|]. intros [= <-]. rewrite reparented_pid. intros Hpv. by apply Hlv, (Huniq1 j).
Qed.
End RoundTrip.

(** ** Killing groups *)

Section KillProofs.
  Context {F : Type} `{!FileStore F}.
  Implicit Types (s : Sched F) (k : Kern F) (t u : Task).

(** A task that a kill of other processes may re-parent and wake. *)
Definition kin t : Task := frozen t <| ppid := 0 |> <| parent := 0 |>.
Definition spared u u' : Prop := kin u' = kin u /\ (state u = Zombie -> state u' = Zombie /\ running u' = running u).

Lemma spared_refl u : spared u u.
Proof. done. Qed.
Lemma spared_trans u1 u2 u3 : spared u1 u2 -> spared u2 u3 -> spared u1 u3.
Proof. intros [H1 H2] [G1 G2]. split; [congruence|]. intros Hz. destruct (H2 Hz) as [A1 A2]. destruct (G2 A1). split; congruence. Qed.
Lemma spared_dead sig u u' : spared u u' -> dead_task sig u -> dead_task sig u'.
Proof.
  intros [Hk Hz] (D1 & D2 & D3 & D4 & D5 & D6). destruct (Hz D2) as [Z1 Z2]. unfold dead_task.
  split_and!; [congruence|done|rewrite <- D3; exact (f_equal thread_exited Hk)|rewrite <- D4; exact (f_equal pending_signals Hk)|
    rewrite <- D5; exact (f_equal term_signal Hk)|rewrite <- D6; exact (f_equal exit_code Hk)].
Qed.
Lemma spared_fields u u' : spared u u' -> zombie u' = zombie u /\ leader_slot u' = leader_slot u /\ pid u' = pid u /\
  thread_exited u' = thread_exited u /\ pending_signals u' = pending_signals u.
Proof.
  intros [Hk _]. split_and!; [exact (f_equal zombie Hk)|exact (f_equal leader_slot Hk)|exact (f_equal pid Hk)|
    exact (f_equal thread_exited Hk)|exact (f_equal pending_signals Hk)].
Qed.

Lemma spared_wake r t : spared t (wake_if r t).
Proof.
  unfold wake_if, is_blocked_on. destruct (bool_decide_reflect (state t = Blocked r)) as [Hb|]; [|apply spared_refl].
  split; [done|]. intros Hz. congruence.
Qed.
Lemma spared_reparented s p t : spared t (reparented s p t).
Proof.
  unfold reparented. destruct (p <=? 0); [done|]. destruct (ppid t =? p); [|done]. unfold adopt.
  by destruct (if p =? 1 then None else live_init s).
Qed.

(** Tasks of the target are dead after its kill, the others spared. *)
Lemma kill_one s leader sig t j u :
  zlen (tasks s) = 32 -> task_at s leader = Some t -> leader_slot t = leader -> task_at s j = Some u ->
  exists u', task_at (kill_process s leader sig (pid t)) j = Some u' /\ leader_slot u' = leader_slot u /\
    if leader_slot u =? leader then dead_task sig u' /\ zombie u' = zombie u || (j =? leader) else spared u u'.
Proof.
  intros Hl Ht Hlt Hu. exists (kill_task s leader sig (pid t) j u). rewrite kill_process_at, Hu by done. split; [done|].
  assert (forall v, spared v (wake_if Thread (wake_if Child (reparented (killed s leader sig) (pid t) v)))) as Hsp.
  { intros v. eapply spared_trans; [apply spared_reparented|]. eapply spared_trans; apply spared_wake. }
  destruct (Z.eqb_spec (leader_slot u) leader) as [He|Hne].
  - split; [|by apply kill_task_member]. unfold kill_task. rewrite (proj2 (Z.eqb_eq _ _) He).
    etransitivity; [apply (spared_fields _ _ (Hsp _))|]. unfold mark_dead. by destruct (j =? leader).
  - unfold kill_task, mark_dead. rewrite (proj2 (Z.eqb_neq _ _) Hne).
    rewrite (proj2 (Z.eqb_neq j leader)) by congruence. split; [apply (spared_fields _ _ (Hsp u))|apply Hsp].
Qed.

(** A slot that names a process which is still alive. *)
Definition alive s (j : Z) : bool := match task_at s j with Some t => (0 <? j) && negb (zombie t) | None => false end.
Definition leads s (j : Z) : Prop := exists t, task_at s j = Some t /\ leader_slot t = j.

Lemma signal_kill ex k a : own_core ex (k_sched k) -> leads (k_sched k) a ->
  exists k', signal_slot k a SIGKILL = Ret (alive (k_sched k) a, k') /\ keeps (k_sched k) (k_sched k') /\
    forall j u, task_at (k_sched k) j = Some u -> exists u', task_at (k_sched k') j = Some u' /\ leader_slot u' = leader_slot u /\
      if alive (k_sched k) a && (leader_slot u =? a) then dead_task SIGKILL u' /\ zombie u' = zombie u || (j =? a) else spared u u'.
Proof.
  intros Hc (t & Ht & Hlt). pose proof (sw_tasks _ (oc_wf _ _ Hc)) as Hl. pose proof (task_at_range _ _ _ Hl Ht) as Hr.
  assert (forall r : outcome (bool * Kern F), r = Ret (alive (k_sched k) a, k) -> alive (k_sched k) a = false ->
    exists k', r = Ret (alive (k_sched k) a, k') /\ keeps (k_sched k) (k_sched k') /\
    forall j u, task_at (k_sched k) j = Some u -> exists u', task_at (k_sched k') j = Some u' /\ leader_slot u' = leader_slot u /\
      if alive (k_sched k) a && (leader_slot u =? a) then dead_task SIGKILL u' /\ zombie u' = zombie u || (j =? a) else spared u u') as Hnop.
  { intros r Hk Ha. exists k. split; [exact Hk|]. split; [by eapply keeps_refl|]. intros j u Hu. exists u. by rewrite Ha. }
  unfold signal_slot, MAX_TASKS. rewrite (proj2 (Z.leb_gt 32 a)) by lia. rewrite orb_false_r.
  destruct (Z.eqb_spec a 0) as [->|Hne].
  { apply Hnop; unfold alive; by rewrite Ht. }
  rewrite (Z.eqb_refl SIGKILL). pose proof (force_kill_eq ex k a SIGKILL Hc ltac:(lia)) as Hk. cbv zeta in Hk.
  assert (process_slot (k_sched k) a = a) as Hps
    by (unfold process_slot; rewrite Ht, Hlt; by rewrite (proj2 (Z.leb_le _ _)) by lia).
  rewrite Hps, Ht in Hk. assert (alive (k_sched k) a = negb (zombie t)) as Ha
    by (unfold alive; rewrite Ht; by rewrite (proj2 (Z.ltb_lt _ _)) by lia).
  destruct (zombie t) eqn:Hz; [by apply Hnop; [rewrite Ha|]|]. rewrite Ha. eexists. split; [exact Hk|]. split.
  - by apply (keeps_kill ex _ _ _ _ t); [..|lia].
  - intros j u Hu. by apply (kill_one (k_sched k) a SIGKILL t j u).
Qed.

Lemma existsb_same {A} (f g : A -> bool) l : (forall x, x ∈ l -> f x = g x) -> existsb f l = existsb g l.
Proof.
  induction l as [|a l IH]; intros Hl; [done|]. simpl. rewrite Hl by (by left). f_equal. apply IH. intros. apply Hl. by right.
Qed.
Lemma existsb_none {A} (f : A -> bool) l : (forall x, x ∈ l -> f x = false) -> existsb f l = false.
Proof. induction l as [|a l IH]; intros Hl; [done|]. simpl. rewrite Hl by (by left). apply IH. intros. apply Hl. by right. Qed.

Lemma signal_slots_kill l : forall ex k any,
  own_core ex (k_sched k) -> NoDup l -> Forall (leads (k_sched k)) l ->
  exists k', signal_slots l k SIGKILL any = Ret (any || existsb (alive (k_sched k)) l, k') /\ keeps (k_sched k) (k_sched k') /\
    forall j u, task_at (k_sched k) j = Some u -> exists u', task_at (k_sched k') j = Some u' /\ leader_slot u' = leader_slot u /\
      if existsb (fun a => alive (k_sched k) a && (leader_slot u =? a)) l
      then dead_task SIGKILL u' /\ zombie u' = zombie u || (j =? leader_slot u) else spared u u'.
Proof.
  induction l as [|a l IH]; intros ex k any Hc Hnd Hall; cbn [signal_slots].
  { exists k. rewrite orb_false_r. split; [done|]. split; [by eapply keeps_refl|]. intros j u Hu. by exists u. }
  apply NoDup_cons in Hnd as [Ha Hnd]. apply Forall_cons in Hall as [Hla Hall]. rewrite Forall_forall in Hall.
  destruct (signal_kill ex k a Hc Hla) as (k1 & E1 & K1 & H1). rewrite E1, bind_Ret_l.
  assert (own_core ex (k_sched k1)) as C1 by (by apply (keeps_core ex (k_sched k))).
  assert (forall b, b ∈ l -> leads (k_sched k1) b /\ alive (k_sched k1) b = alive (k_sched k) b) as Hb.
  { intros b Hbl. destruct (Hall b Hbl) as (t & Ht & Hlt). destruct (H1 b t Ht) as (t1 & Ht1 & Hl1 & Hd).
    split; [exists t1; split; [done|congruence]|]. unfold alive. rewrite Ht, Ht1.
    rewrite Hlt, (proj2 (Z.eqb_neq b a)), andb_false_r in Hd by (intros ->; done). by destruct (spared_fields _ _ Hd) as [-> _]. }
  destruct (IH ex k1 (any || alive (k_sched k) a) C1 Hnd) as (k2 & E2 & K2 & H2); [apply Forall_forall; by intros b [? _]%Hb|].
  rewrite E2. exists k2. split; [|split; [by eapply keeps_trans|]].
  { rewrite (existsb_same (alive (k_sched k1)) (alive (k_sched k))) by (by intros b [_ ?]%Hb). simpl. by rewrite orb_assoc. }
  intros j u Hu. destruct (H1 j u Hu) as (u1 & Hu1 & Hl1 & Hd1). destruct (H2 j u1 Hu1) as (u2 & Hu2 & Hl2 & Hd2).
  exists u2. split; [done|]. split; [congruence|]. simpl. rewrite Hl1 in Hd2.
  rewrite (existsb_same _ (fun a => alive (k_sched k) a && (leader_slot u =? a))) in Hd2 by (by intros b [_ ->]%Hb).
  revert Hd1. destruct (alive (k_sched k) a && (leader_slot u =? a)) eqn:Hau; simpl; intros Hd1.
  - apply andb_true_iff in Hau as [_ Hlu%Z.eqb_eq]. rewrite existsb_none in Hd2.
    + destruct (spared_fields _ _ Hd2) as [-> _]. split; [exact (spared_dead _ _ _ Hd2 (proj1 Hd1))|]. rewrite Hlu. by destruct Hd1 as [_ ->].
    + intros b Hbl. assert (leader_slot u <> b) as Hne by (intros He; apply Ha; by rewrite <- Hlu, He).
      by rewrite (proj2 (Z.eqb_neq _ _) Hne), andb_false_r.
  - revert Hd2. destruct (existsb (fun a => alive (k_sched k) a && _) l); intros Hd2.
    + destruct Hd2 as [? ->]. split; [done|]. by destruct (spared_fields _ _ Hd1) as [-> _].
    + by eapply spared_trans.
Qed.

(** The processes a [kill] addresses, by the rule of its argument. *)
Definition addressed s (current_slot want j : Z) t : Prop :=
  leader_slot t = j /\
  if 0 <? want then pid t = want /\ forall i u, task_at s i = Some u -> pid u = want -> leader_slot u = i -> j <= i
  else zombie t = false /\
    (if want =? 0 then exists c, task_at s current_slot = Some c /\ pgid t = pgid c
     else if want =? -1 then j <> 0 /\ forall c, task_at s current_slot = Some c -> pid t <> pid c
     else pgid t = - want).

Lemma slots_from_head p l : forall b j, head (slots_from b l p) = Some j ->
  j ∈ slots_from b l p /\ forall i, i ∈ slots_from b l p -> j <= i.
Proof.
  induction l as [|o l IH]; intros b j; cbn [slots_from]; [done|].
  destruct o as [t|]; [destruct (p b t)|]; try apply IH. intros [= <-]. split; [by left|].
  intros i [->|Hi]%elem_of_cons; [done|]. apply slots_from_ge in Hi. lia.
Qed.

Lemma slots_where_leads s p l : l = slots_where s p -> (forall j t, p j t = true -> leader_slot t = j) ->
  NoDup l /\ Forall (leads s) l.
Proof.
  intros -> Hp. split; [apply slots_from_NoDup|]. apply Forall_forall. intros j (t & Ht & Hj)%slots_where_elem. exists t. eauto.
Qed.
Lemma slots_where_iff s p j u : task_at s j = Some u -> j ∈ slots_where s p <-> p j u = true.
Proof. intros Hu. rewrite slots_where_elem. split; [intros (t & Ht & Hp); congruence|eauto]. Qed.

Lemma slot_by_pid_addressed s want j u : task_at s j = Some u -> 
  j ∈ (match slot_by_pid s want with Some slot => [slot] | None => [] end) <->
  leader_slot u = j /\ pid u = want /\ forall i v, task_at s i = Some v -> pid v = want -> leader_slot v = i -> j <= i.
Proof.
  intros Hu. unfold slot_by_pid. set (p := fun slot t => (pid t =? want) && (leader_slot t =? slot)).
  assert (forall i v, p i v = true <-> pid v = want /\ leader_slot v = i) as Hp
    by (intros i v; unfold p; by rewrite andb_true_iff, !Z.eqb_eq).
  destruct (head (slots_where s p)) as [i|] eqn:Hh.
  - destruct (slots_from_head p (tasks s) 0 i Hh) as [Hi Hmin]. change (slots_from 0 (tasks s) p) with (slots_where s p) in Hi, Hmin.
    rewrite list_elem_of_singleton. split.
    + intros ->. apply (slots_where_iff s p i u Hu), Hp in Hi as [H1 H2]. split_and!; try done.
      intros i' v Hv Hv1 Hv2. apply Hmin, (slots_where_iff s p i' v Hv), Hp. done.
    + intros (H1 & H2 & H3). apply Z.le_antisymm; [|by apply Hmin, (slots_where_iff s p j u Hu), Hp].
      apply slots_where_elem in Hi as (v & Hv & [Hv1 Hv2]%Hp). by apply (H3 i v).
  - split; [by intros ?%not_elem_of_nil|]. intros (H1 & H2 & _). exfalso.
    assert (j ∈ slots_where s p) as Hj by (by apply (slots_where_iff s p j u Hu), Hp).
    destruct (slots_where s p); [by apply not_elem_of_nil in Hj|done].
Qed.

Lemma kill_targets_ok ex s current_slot want c :
  own_core ex s -> task_at s current_slot = Some c -> want <> - 2 ^ 31 ->
  exists l, kill_targets s current_slot want = Ret l /\ NoDup l /\ Forall (leads s) l /\
    forall j u, task_at s j = Some u -> j ∈ l <-> addressed s current_slot want j u.
Proof.
  intros Hc Ht Hw. pose proof (task_at_range _ _ _ (sw_tasks _ (oc_wf _ _ Hc)) Ht) as Hr.
  unfold kill_targets. rewrite (idx_tasks ex), bind_Ret_l, Ht by done. unfold addressed. rewrite Ht.
  assert (forall g, NoDup (slots_in_pgid s g) /\ Forall (leads s) (slots_in_pgid s g)) as Hgroup.
  { intros g. eapply slots_where_leads; [reflexivity|]. by intros j t [_ ?%Z.eqb_eq]%andb_true_iff. }
  assert (forall g j u, task_at s j = Some u -> j ∈ slots_in_pgid s g <-> leader_slot u = j /\ zombie u = false /\ pgid u = g) as Hin.
  { intros g j u Hu. unfold slots_in_pgid. rewrite (slots_where_iff _ _ _ _ Hu), !andb_true_iff, negb_true_iff, !Z.eqb_eq. tauto. }
  destruct (Z.ltb_spec 0 want) as [Hpos|Hneg].
  { eexists. split; [reflexivity|]. split; [destruct (slot_by_pid s want); repeat constructor; set_solver|]. split.
    - destruct (slot_by_pid s want) as [i|] eqn:Hs; [|constructor]. repeat constructor. unfold slot_by_pid in Hs.
      apply slots_from_head in Hs as [(t & Hti & [_ ?%Z.eqb_eq]%andb_true_iff)%(slots_where_elem s) _]. by exists t.
    - intros j u Hu. by apply slot_by_pid_addressed. }
  destruct (Z.eqb_spec want 0) as [->|Hn0].
  { eexists. split; [reflexivity|]. split; [apply Hgroup|]. split; [apply Hgroup|]. intros j u Hu. rewrite (Hin _ j u Hu). naive_solver. }
  destruct (Z.eqb_spec want (-1)) as [->|Hn1].
  - eexists. split; [reflexivity|]. apply and_assoc. split.
    + eapply slots_where_leads; [reflexivity|]. intros j t. rewrite !andb_true_iff, Z.eqb_eq. tauto.
    + intros j u Hu. rewrite (slots_where_iff _ _ _ _ Hu), !andb_true_iff, !negb_true_iff, !Z.eqb_neq, Z.eqb_eq. naive_solver.
  - unfold neg_i32. rewrite (proj2 (Z.eqb_neq _ _) Hw). simpl. eexists. split; [reflexivity|]. split; [apply Hgroup|].
    split; [apply Hgroup|]. apply Hin.
Qed.

(** C18. [kill] with SIGKILL reaches exactly the processes its argument
    addresses: a positive one names a process, 0 the caller's group, -1 every
    process but the caller and the idle task, another negative one a group.
    Every thread of an addressed process that was alive is dead afterwards and
    its leader a zombie; every other task is spared; the call succeeds exactly
    when such a process existed.  The most negative argument is not covered:
    negating it overflows. *)
Theorem kill_exact k current_slot want c :
  own_inv (k_sched k) -> task_at (k_sched k) current_slot = Some c -> want <> - 2 ^ 31 ->
  exists l r k', kill_targets (k_sched k) current_slot want = Ret l /\ sys_kill k current_slot want SIGKILL = Ret (r, k') /\
    own_inv (k_sched k') /\
    (forall j u, task_at (k_sched k) j = Some u -> j ∈ l <-> addressed (k_sched k) current_slot want j u) /\
    r = (if existsb (alive (k_sched k)) l then 0 else USIZE_MAX) /\
    forall j u, task_at (k_sched k) j = Some u -> exists u', task_at (k_sched k') j = Some u' /\
      if existsb (fun a => alive (k_sched k) a && (leader_slot u =? a)) l
      then dead_task SIGKILL u' /\ zombie u' = zombie u || (j =? leader_slot u) /\ claimable (k_sched k') j = false
      else spared u u'.
Proof.
  intros Hi Ht Hw. destruct (kill_targets_ok (-1) (k_sched k) current_slot want c (oi_core _ Hi) Ht Hw) as (l & El & Hnd & Hl & Hin).
  destruct (signal_slots_kill l (-1) k false (oi_core _ Hi) Hnd Hl) as (k' & E & K & H). simpl orb in E.
  exists l, (if existsb (alive (k_sched k)) l then 0 else USIZE_MAX). unfold sys_kill. cbn [SIGKILL Z.eqb Z.ltb orb].
  exists (match l with [] => k | _ => k' end). split; [done|].
  assert ((match l with [] => k | _ => k' end) = k') as -> by (destruct l; [injection E as <-; done|done]).
  split; [|split; [by apply (keeps_inv (k_sched k))|split; [done|split; [done|]]]].
  - change ((9 =? 0) || (31 <? 9)) with false. cbv iota. rewrite El, bind_Ret_l.
    destruct l as [|a l]; [by injection E as <-|]. rewrite E. done.
  - intros j u Hu. destruct (H j u Hu) as (u' & Hu' & _ & Hd). exists u'. split; [done|].
    destruct (existsb (fun a => _) l); [|done]. destruct Hd as [Hd Hz]. do 2 (split; [done|]). unfold claimable. rewrite Hu'.
    by rewrite (proj1 Hd).
Qed.

(** The most negative argument panics the kernel. *)
Theorem kill_min_panics k current_slot sig c :
  own_inv (k_sched k) -> task_at (k_sched k) current_slot = Some c -> 1 <= sig <= 31 ->
  sys_kill k current_slot (- 2 ^ 31) sig = Panic.
Proof.
  intros Hi Ht Hs. pose proof (task_at_range _ _ _ (sw_tasks _ (oc_wf _ _ (oi_core _ Hi))) Ht) as Hr.
  unfold sys_kill. rewrite (proj2 (Z.eqb_neq sig 0)), (proj2 (Z.ltb_ge 31 sig)) by lia. simpl.
  unfold kill_targets. by rewrite (idx_tasks (-1)), bind_Ret_l by (apply Hi || done).
Qed.
End KillProofs.

(** ** Witnesses *)

(** The process of [Signal]'s witness with pid 5 runs on CPU 1; its parent, in
    slot 2, waits for a child. *)
Definition wit_parent : Task :=
  wit_task <| pid := 1 |> <| tid := 1 |> <| ppid := 0 |> <| leader_slot := 2 |> <| running := false |> <| state := Blocked Child |>.
Definition wit_couple : Sched unit := put_task wit_sig_ran 2 (Some wit_parent).
Definition wit_exit : Kern unit := mkKern wit_couple (mkArcs ∅ 0) {[ 1 := table_new ]} PIPES_init 0 ∅ [].

Lemma wit_couple_inv : own_inv wit_couple.
Proof.
  apply (sched_step_inv no_shootdown (64 * MIB) 0x1000 wit_sig_ran); [exact wit_sig_ran_inv|].
  apply (ss_spawn _ _ _ _ 2 wit_parent); [lia|by vm_compute|done|done].
Qed.

Lemma wit_exit_family : family 1 wit_exit 2 wit_parent 1 (start_running 1 wit_sig_task).
Proof.
  pose proof wit_couple_inv as Hi. assert (zlen (tasks wit_couple) = 32) as Hl by (by vm_compute).
  constructor; [exact Hi|split| |lia|split_and!; by vm_compute|split_and!; by vm_compute|..].
  - apply map_Forall_to_list. assert (forallb (fun e => zlen e.2 =? 1024) (map_to_list (sh_mem (memory wit_couple))) = true) as Hall
      by (by vm_compute). apply Forall_forall. intros [p page] Hp%list_elem_of_In. rewrite forallb_forall in Hall. by apply Z.eqb_eq, (Hall _ Hp).
  - intros j t Ht. assert ((KERNEL_OFFSET <=? stack_base t) && negb (is_thread t) = true) as Hok.
    { apply (forall_tasks wit_couple (fun _ t => (KERNEL_OFFSET <=? stack_base t) && negb (is_thread t)) Hl) with j; [by vm_compute|done]. }
    apply andb_true_iff in Hok as [Hb%Z.leb_le Hth%negb_true_iff]. split; [done|congruence].
  - split; [by vm_compute|]. intros slot tbl Ht. change (({[ 1 := table_new ]} : gmap Z FileDescriptorTable) !! slot = Some tbl) in Ht.
    apply lookup_singleton_Some in Ht as [<- <-]. split; [apply table_new_wf|]. intros fd d.
    unfold fd_at. destruct (get (fds table_new) fd) as [o|] eqn:Hg; [|done]. by apply get_replicate in Hg as ->.
  - intros j u Hu Hp. apply Z.eqb_eq. apply (forall_tasks wit_couple (fun _ u => negb (pid u =? 5) || (leader_slot u =? 1)) Hl) in Hu.
    + by rewrite Hp in Hu.
    + by vm_compute.
  - intros c j u Hc0 Hc Hg Hu Hlead. pose proof (get_Some_range _ _ _ Hg) as Hr.
    assert (forallb (fun c => (c =? 1) || match get (cpu_slot wit_couple) c with
        | Some j => match task_at wit_couple j with Some u => negb (leader_slot u =? 1) | None => true end
        | None => true end) (seqZ 0 64) = true) as Hall by (by vm_compute).
    rewrite forallb_forall in Hall. specialize (Hall c). change (k_sched wit_exit) with wit_couple in Hg, Hu.
    rewrite Hg, Hu, Hlead, (proj2 (Z.eqb_neq _ _) Hc) in Hall. specialize (Hall ltac:(apply list_elem_of_In, elem_of_seqZ; exact Hr)). done.
Qed.

Lemma exit_wait_roundtrip_witness :
  exists next k1 k2, sys_exit 0x1000 1 7 wit_exit 1 0xC0300000 298 = Ret (next, k1) /\
    sys_wait_status no_shootdown k1 2 5 0x8000 0 = Ret (5, k2) /\ k_user k2 !! 0x8000 = Some 0x2A00 /\ task_at (k_sched k2) 1 = None.
Proof.
  destruct (exit_wait_roundtrip no_shootdown 0x1000 1 7 wit_exit 2 wit_parent 1 _ 0xC0300000 298 0x8000 0 wit_exit_family)
    as (next & k1 & k2 & E & _ & _ & Hw & _ & Hu & Hall & _); [by left|].
  exists next, k1, k2. split; [exact E|]. split; [exact Hw|]. split; [exact (Hu ltac:(lia))|].
  assert (task_at wit_couple 1 = Some (start_running 1 wit_sig_task)) as Ht by (by vm_compute). exact (Hall 1 _ Ht).
Defined.

Lemma kill_exact_witness :
  exists k', sys_kill wit_exit 2 5 SIGKILL = Ret (0, k') /\ claimable (k_sched k') 1 = false /\
    exists p, task_at (k_sched k') 2 = Some p /\ zombie p = false.
Proof.
  destruct (kill_exact wit_exit 2 5 wit_parent wit_couple_inv) as (l & r & k' & El & E & _ & _ & -> & Hall); [by vm_compute|lia|].
  change (k_sched wit_exit) with wit_couple in El, Hall, E.
  assert (kill_targets wit_couple 2 5 = Ret [1]) as Hl by (by vm_compute). rewrite Hl in El. injection El as <-.
  assert (existsb (alive wit_couple) [1] = true) as Ha by (by vm_compute). exists k'. split; [rewrite E; by rewrite Ha|].
  destruct (Hall 1 (start_running 1 wit_sig_task)) as (u' & _ & Hd); [by vm_compute|].
  destruct (Hall 2 wit_parent) as (p' & Hp' & Hs); [by vm_compute|]. split.
  - assert (existsb (fun a => alive wit_couple a && (leader_slot (start_running 1 wit_sig_task) =? a)) [1] = true) as Hx by (by vm_compute).
    rewrite Hx in Hd. apply Hd.
  - exists p'. split; [exact Hp'|]. assert (existsb (fun a => alive wit_couple a && (leader_slot wit_parent =? a)) [1] = false) as Hx by (by vm_compute).
    rewrite Hx in Hs. by destruct (spared_fields _ _ Hs) as [-> _].
Defined.

(** A process with pid 5 leads group 5, with a child in it, next to group 3 of
    the same session.  It joins group 3 and then opens a session: group 5 now
    lies in two sessions. *)
Definition wit_member (p g leader : Z) : Task :=
  wit_task <| pid := p |> <| tid := p |> <| pgid := g |> <| sid := 2 |> <| leader_slot := leader |> <| ppid := 5 |>.
Definition wit_groups : Sched unit :=
  put_task (put_task (put_task (sched_static wit_memory) 1 (Some (wit_member 5 5 1))) 2 (Some (wit_member 6 5 2))) 3 (Some (wit_member 3 3 3)).

Lemma setsid_splits_group :
  exists s1 s2 p q, sys_setpgid wit_groups 1 0 3 = Ret (0, s1) /\ sys_setsid s1 1 = Ret (5, s2) /\
    task_at s2 1 = Some p /\ task_at s2 2 = Some q /\ pgid p = pgid q /\ sid p = 5 /\ sid q = 2.
Proof.
  eexists _, _, _, _. split; [vm_compute; reflexivity|]. split; [vm_compute; reflexivity|].
  split; [vm_compute; reflexivity|]. split; [vm_compute; reflexivity|]. done.
Qed.
