(* ===== verification/Threads.v ===== *)
(** * Threads, futexes and blocking system calls

    Model of the thread part of [kernel/src/syscalls/handler.rs]: creation,
    joining and detaching of threads, futex wait and wake, sleeping, and the
    blocking of a call that is restarted when its wait ends.  A [TimeSpec] or
    [PollFd] array behind a user pointer is an argument, absent for a null
    pointer; other user memory is the map of words of [Signal].  Trace records
    and log lines are left out. *)

From S2P Require Import Prelude Wait Frames Paging SharedPages Task Schedule Reap.
From S2P Require Import Pipe FileTable Signal Process.

Definition ENOSYS : Z := errno 38.
Definition ETIMEDOUT : Z := errno 110.

Definition FUTEX_WAIT : Z := 0.
Definition FUTEX_WAKE : Z := 1.
Definition FUTEX_PRIVATE_FLAG : Z := 128.
Definition FUTEX_CLOCK_REALTIME : Z := 256.
Definition FUTEX_CMD_MASK : Z := not_u 32 (Z.lor FUTEX_PRIVATE_FLAG FUTEX_CLOCK_REALTIME).

Definition USER_THREAD_STACK_BASE : Z := 0xB0000000.
Definition USER_THREAD_STACK_STRIDE : Z := 256 * 1024.
Definition USER_THREAD_STACK_PAGES : Z := 32.

Definition POLLIN : Z := 1.
Definition POLLOUT : Z := 4.
Definition POLLERR : Z := 8.
Definition POLLHUP : Z := 16.

(** [struct TimeSpec], [struct PollFd] with signed fields *)
Record TimeSpec : Type := mkTime { tv_sec : Z; tv_nsec : Z }.
Record PollFd : Type := mkPoll { poll_fd : Z; poll_events : Z }.

(** The range check of a [TimeSpec] and its length in milliseconds, rounded up *)
Definition bad_time (r : TimeSpec) : bool := (tv_sec r <? 0) || (tv_nsec r <? 0) || (1000000000 <=? tv_nsec r).
Definition saturating_mul (w a b : Z) : Z := Z.min (a * b) (2 ^ w - 1).
Definition wait_ms (r : TimeSpec) : Z := saturating_add 64 (saturating_mul 64 (tv_sec r) 1000) ((tv_nsec r + 999999) / 1000000).

(** [add_socket_wait] *)
Definition add_socket_wait (mask : list Z) (socket_id : Z) : outcome (bool * list Z) :=
  if (socket_id =? 0) || (Z.of_nat READY_WORDS * 32 <? socket_id) then Ret (false, mask) else
  let bit := socket_id - 1 in
  word ← idx mask (bit / 32);
  mask ← upd mask (bit / 32) (Z.lor word (Z.shiftl 1 (Z.land bit 31)));
  Ret (true, mask).

Section Threads.
  Context {F : Type} `{!FileStore F}.
  Implicit Types (s : Sched F) (k : Kern F) (t : Task).

Definition set_eax (esp value : Z) k : Kern F :=
  on_sched k (fun s => s <| cpu_states := alter (fun c => c <| r_eax := value |>) esp (cpu_states s) |>).

(** ** Blocking *)

(** One entry of the poll array: what the task waits for so far. *)
Record Interest : Type := mkInterest { i_read : list Z; i_write : list Z; i_any : bool; i_periodic : bool }.
Definition poll_interest (tbl : FileDescriptorTable) (i : Interest) (p : PollFd) : outcome Interest :=
  if poll_fd p <? 0 then Ret i else
  match fd_at tbl (poll_fd p) with
  | None => Ret i
  | Some (Socket socket_id) =>
      '(r1, rd) ← (if negb (Z.land (poll_events p) (Z.lor (Z.lor POLLIN POLLHUP) POLLERR) =? 0)
                   then add_socket_wait (i_read i) socket_id else Ret (true, i_read i));
      '(r2, wr) ← (if negb (Z.land (poll_events p) (Z.lor (Z.lor POLLOUT POLLHUP) POLLERR) =? 0)
                   then add_socket_wait (i_write i) socket_id else Ret (true, i_write i));
      Ret (mkInterest rd wr (i_any i || negb (r1 && r2)) (i_periodic i))
  | Some _ => Ret (mkInterest (i_read i) (i_write i) (i_any i) true)
  end.
Fixpoint poll_interests (tbl : FileDescriptorTable) (i : Interest) (l : list PollFd) : outcome Interest :=
  match l with
  | [] => Ret i
  | p :: l => i ← poll_interest tbl i p; poll_interests tbl i l
  end.

(** [prepare_network_wait]; [fds] is the poll array of at most 64 entries, and
    [writes] says that the interrupted call writes, sends or connects. *)
Definition prepare_network_wait k (thread_slot : Z) (reason : WaitReason) (fds : option (list PollFd)) (nfds fd : Z) (writes : bool)
    : outcome (Kern F) :=
  let slot := process_slot (k_sched k) thread_slot in
  let none := mkInterest no_ready no_ready false false in
  let any := mkInterest no_ready no_ready true false in
  let store i := on_sched k (fun s => on_task s thread_slot (fun t =>
        t <| network_wait_read := i_read i |> <| network_wait_write := i_write i |>
          <| network_wait_any := i_any i |> <| poll_periodic := i_periodic i |>)) in
  let tbl := match task_at (k_sched k) slot with Some _ => k_tables k !! slot | None => None end in
  match reason with
  | Poll =>
      i ← match fds, tbl with
          | None, Some _ => if negb (Z.min nfds 64 =? 0) then Ret any else Ret none
          | None, None => Ret any
          | Some l, Some tbl => poll_interests tbl none (take (Z.to_nat (Z.min nfds 64)) l)
          | Some _, None => Ret any
          end;
      Ret (store i)
  | Wait.Socket =>
      i ← match tbl ≫= (fun tbl => fd_at tbl fd) with
          | Some (Socket socket_id) =>
              '(ok, mask) ← add_socket_wait no_ready socket_id;
              Ret (if writes then mkInterest no_ready mask (negb ok) false else mkInterest mask no_ready (negb ok) false)
          | _ => Ret any
          end;
      Ret (store i)
  | _ => Ret k
  end.

Section Blocking.
  Variables (kernel_pd cpu now : Z).

(** [block_and_restart] *)
Definition block_and_restart k (thread_slot esp : Z) (reason : WaitReason) (fds : option (list PollFd)) (nfds fd : Z) (writes : bool)
    : outcome (Z * Kern F) :=
  let k := on_sched k (fun s => s <| cpu_states := alter (fun c => c <| r_eip := wrapping_sub 32 (r_eip c) 2 |>) esp (cpu_states s) |>) in
  _ ← idx (tasks (k_sched k)) thread_slot;
  let k := on_sched k (fun s => on_task s thread_slot (fun t => block t reason)) in
  k ← prepare_network_wait k thread_slot reason fds nfds fd writes;
  switch kernel_pd cpu now k esp.

(** ** Futexes *)

(** [futex_key] *)
Definition private_key (p addr : Z) : Z := Z.lor (Z.lor (Z.shiftl 1 63) (Z.shiftl (as_usize p) 32)) addr.
Definition futex_key_of s (thread_slot addr op : Z) : outcome (result Z Z) :=
  if (addr =? 0) || negb (Z.land addr 3 =? 0) then Ret (Err EINVAL) else
  if KERNEL_MMIO_BASE <=? addr then Ret (Err EFAULT) else
  match task_at s thread_slot with
  | None => Ret (Err EFAULT)
  | Some t =>
      p ← translate (vm_of (memory s) (page_dir_phys t)) addr;
      match p with
      | None => Ret (Err EFAULT)
      | Some phys =>
          if negb (Z.land op FUTEX_PRIVATE_FLAG =? 0) then Ret (Ok (private_key (pid t) addr)) else Ret (Ok phys)
      end
  end.

(** The loop of FUTEX_WAKE over the task table *)
Definition waits_on (key : Z) t : bool := is_blocked_on Futex t && (futex_key t =? key).
Definition wake_futex t : Task := wake (t <| futex_key := 0 |> <| wake_deadline_ms := 0 |>).
Fixpoint wake_loop (key val woken : Z) (l : list (option Task)) : Z * list (option Task) :=
  match l with
  | [] => (woken, [])
  | None :: rest => let '(n, rest) := wake_loop key val woken rest in (n, None :: rest)
  | Some t :: rest =>
      if val <=? woken then (woken, l) else
      if waits_on key t then let '(n, rest) := wake_loop key val (woken + 1) rest in (n, Some (wake_futex t) :: rest)
      else let '(n, rest) := wake_loop key val woken rest in (n, Some t :: rest)
  end.

(** The deadline of a wait: none, or an immediate answer *)
Definition futex_deadline (cmd : Z) (timeout : option TimeSpec) : result (option Z) Z :=
  match timeout with
  | Some r =>
      if negb (cmd =? FUTEX_WAIT) then Ok None else
      if bad_time r then Err EINVAL else
      if wait_ms r =? 0 then Err ETIMEDOUT else Ok (Some (saturating_add 64 now (wait_ms r)))
  | None => Ok None
  end.

Definition futex_sleep (key : Z) (deadline : option Z) t : Task :=
  block (t <| futex_key := key |> <| wake_deadline_ms := default 0 deadline |>) Futex.

Definition futex_wait k (thread_slot esp key val uaddr : Z) (deadline : option Z) : outcome (Z * Kern F) :=
  if negb (get_user k uaddr =? val) then Ret (esp, set_eax esp EAGAIN k) else
  let k := set_eax esp 0 k in
  o ← idx (tasks (k_sched k)) thread_slot;
  match o with
  | None => Ret (esp, set_eax esp EFAULT k)
  | Some t => switch kernel_pd cpu now (on_sched k (fun s => put_task s thread_slot (Some (futex_sleep key deadline t)))) esp
  end.

(** [sys_futex] *)
Definition sys_futex k (thread_slot esp uaddr op val : Z) (timeout : option TimeSpec) : outcome (Z * Kern F) :=
  let cmd := Z.land op FUTEX_CMD_MASK in
  if negb (Z.land op FUTEX_CLOCK_REALTIME =? 0) then Ret (esp, set_eax esp ENOSYS k) else
  match futex_deadline cmd timeout with
  | Err e => Ret (esp, set_eax esp e k)
  | Ok deadline =>
      key ← futex_key_of (k_sched k) thread_slot uaddr op;
      match key with
      | Err e => Ret (esp, set_eax esp e k)
      | Ok key =>
          if cmd =? FUTEX_WAIT then futex_wait k thread_slot esp key val uaddr deadline
          else if cmd =? FUTEX_WAKE then
            let '(woken, l) := wake_loop key val 0 (tasks (k_sched k)) in
            Ret (esp, set_eax esp woken (on_sched k (fun s => s <| tasks := l |>)))
          else Ret (esp, set_eax esp ENOSYS k)
      end
  end.

(** [sys_nanosleep_block] *)
Definition sys_nanosleep_block k (thread_slot esp : Z) (req : option TimeSpec) (rem : Z) : outcome (Z * Kern F) :=
  match req with
  | None => Ret (esp, set_eax esp EFAULT k)
  | Some r =>
      if bad_time r then Ret (esp, set_eax esp EINVAL k) else
      let k := if rem =? 0 then k else put_user (rem + 4) 0 (put_user rem 0 k) in
      let k := set_eax esp 0 k in
      if wait_ms r =? 0 then Ret (esp, k) else
      o ← idx (tasks (k_sched k)) thread_slot;
      match o with
      | None => Ret (esp, set_eax esp EINVAL k)
      | Some t =>
          let t := block (t <| wake_deadline_ms := saturating_add 64 now (wait_ms r) |>) Timer in
          switch kernel_pd cpu now (on_sched k (fun s => put_task s thread_slot (Some t))) esp
      end
  end.
End Blocking.

(** ** Threads *)

Section Creating.
  Variables (shootdown_tlb : Z -> Z -> bool) (ram : Z).

(** The pages of the new user stack, from [addr] on: [false] when one of them
    is mapped already. *)
Fixpoint map_stack (n : nat) s (pd addr : Z) : outcome (bool * Sched F) :=
  match n with
  | O => Ret (true, s)
  | S n =>
      p ← translate (vm_of (memory s) pd) addr;
      match p with
      | Some _ => Ret (false, s)
      | None =>
          vm ← alloc_and_map_user_page ram (task_stacks s) (vm_of (memory s) pd) addr;
          map_stack n (s <| memory := put_vm (memory s) pd vm |>) pd (addr + PAGE_SIZE)
      end
  end.

(** The frame and record of the new thread. *)
Definition thread_frame (entry user_esp : Z) : CPUState := mkCpu 0 0 0 0 0 0 0 entry 0x1B 0x202 user_esp 0x23.
Definition thread_task (thread leader : Task) (leader_slot kernel_stack_top state_ptr tid bottom top : Z) : Task :=
  thread <| kernel_stack := kernel_stack_top |> <| cpu_state_ptr := state_ptr |> <| running := true |> <| state := Runnable |>
    <| pid := pid leader |> <| Task.tid := tid |> <| Task.leader_slot := leader_slot |> <| ppid := ppid leader |>
    <| pgid := pgid leader |> <| sid := sid leader |> <| parent := parent leader |> <| tty_id := tty_id leader |>
    <| pty_id := pty_id leader |> <| user_stack_bottom := bottom |> <| user_stack_top := top |>.

(** [sys_thread_create]; freeing a slot may drop dead tasks. *)
Definition sys_thread_create k (leader_slot entry arg : Z) : outcome (Z * Kern F) :=
  if (leader_slot =? 0) || (entry =? 0) then Ret (EINVAL, k) else
  let before := k_sched k in
  '(slot, s) ← get_free_slot shootdown_tlb before;
  let k := drop_tables before (k <| k_sched := s |>) in
  if slot <? 0 then Ret (EAGAIN, k) else
  let '(tid, s) := alloc_pid s in
  let k := k <| k_sched := s |> in
  o ← idx (tasks s) leader_slot;
  match o with
  | None => Ret (EINVAL, k)
  | Some leader =>
      if zombie leader then Ret (EINVAL, k) else
      let top := saturating_sub USER_THREAD_STACK_BASE (slot * USER_THREAD_STACK_STRIDE) in
      bottom ← sub_u top (USER_THREAD_STACK_PAGES * PAGE_SIZE);
      '(fresh, s) ← map_stack (Z.to_nat USER_THREAD_STACK_PAGES) s (page_dir_phys leader) bottom;
      let k := k <| k_sched := s |> in
      if negb fresh then Ret (EBUSY, k) else
      '(thread, s) ← new_thread ram s (page_dir_phys leader);
      kernel_stack_top ← add_u 32 (stack_base thread) STACK_SIZE;
      let state_ptr := kernel_stack_top - HEADROOM - CPU_STATE_SIZE in
      let user_esp := saturating_sub (Z.land top (not_u 32 15)) 20 in
      let t := thread_task thread leader leader_slot kernel_stack_top state_ptr tid bottom top in
      let s := s <| cpu_states := <[state_ptr := thread_frame entry user_esp]> (cpu_states s) |> in
      let s := put_task s slot (Some t) <| task_count := task_count s + 1 |> in
      Ret (as_usize tid, put_user (user_esp + 4) arg (put_user user_esp 0 (k <| k_sched := s |>)))
  end.

Definition reap_thread_slot k (slot : Z) : outcome (bool * Kern F) :=
  '(ok, s) ← reap_thread shootdown_tlb (k_sched k) slot;
  Ret (ok, drop_tables (k_sched k) (k <| k_sched := s |>)).

(** [sys_thread_join]; its loop returns in the first round. *)
Definition sys_thread_join k (leader caller tid value_out : Z) : outcome (Z * Kern F) :=
  if tid <=? 0 then Ret (EINVAL, k) else
  match slot_by_tid (k_sched k) tid with
  | None => Ret (ESRCH, k)
  | Some slot =>
      if slot =? caller then Ret (EDEADLK, k) else
      match task_at (k_sched k) slot with
      | None => Ret (ESRCH, k)
      | Some t =>
          if negb (leader_slot t =? leader) || negb (is_thread t && negb (thread_detached t)) then Ret (EINVAL, k) else
          if thread_exited t then
            '(ok, k) ← reap_thread_slot k slot;
            if negb ok then Ret (EAGAIN, k) else Ret (as_usize tid, put_user value_out (thread_exit_value t) k)
          else Ret (EAGAIN, k)
      end
  end.

(** [sys_thread_detach] *)
Definition sys_thread_detach k (leader caller tid : Z) : outcome (Z * Kern F) :=
  if tid <=? 0 then Ret (EINVAL, k) else
  match slot_by_tid (k_sched k) tid with
  | None => Ret (ESRCH, k)
  | Some slot =>
      match task_at (k_sched k) slot with
      | None => Ret (ESRCH, k)
      | Some t =>
          if (slot =? caller) || negb (leader_slot t =? leader) || negb (is_thread t) then Ret (EINVAL, k) else
          if thread_detached t then Ret (EINVAL, k) else
          let k := on_sched k (fun s => put_task s slot (Some (t <| thread_detached := true |>))) in
          if thread_exited t then '(_, k) ← reap_thread_slot k slot; Ret (0, k) else Ret (0, k)
      end
  end.

(** The dispatch of SYS_WAIT and SYS_THREAD_JOIN: a call that has nothing to
    collect yet blocks and is issued again. *)
Definition syscall_wait (kernel_pd cpu now : Z) k (current_slot thread_slot esp want status_ptr options : Z) : outcome (Z * Kern F) :=
  '(result, k) ← sys_wait_status shootdown_tlb k current_slot want status_ptr options;
  if result =? EAGAIN then block_and_restart kernel_pd cpu now k thread_slot esp Child None 0 0 false
  else Ret (esp, set_eax esp result k).
Definition syscall_join (kernel_pd cpu now : Z) k (current_slot thread_slot esp tid value_out : Z) : outcome (Z * Kern F) :=
  '(result, k) ← sys_thread_join k current_slot thread_slot tid value_out;
  if result =? EAGAIN then block_and_restart kernel_pd cpu now k thread_slot esp Thread None 0 0 false
  else Ret (esp, set_eax esp result k).
End Creating.
End Threads.

(** ** A blocked task stays blocked *)

Section Parked.
  Context {F : Type} `{!FileStore F}.
  Implicit Types (s : Sched F) (k : Kern F) (t : Task).

(** The task in slot [j] is [t], up to the pointer to its saved frame. *)
Definition parked (j : Z) t s : Prop := zlen (tasks s) = 32 /\ exists p, task_at s j = Some (t <| cpu_state_ptr := p |>).

Lemma parked_tasks j t s s' : tasks s' = tasks s -> parked j t s -> parked j t s'.
Proof. unfold parked, task_at. by intros ->. Qed.
Lemma parked_on j t s slot f : parked j t s -> (slot = j -> forall p, exists p', f (t <| cpu_state_ptr := p |>) = t <| cpu_state_ptr := p' |>) ->
  parked j t (on_task s slot f).
Proof.
  intros [Hl [p Hp]] Hf. split; [by rewrite (proj2 (on_task_frame _ _ _))|]. rewrite on_task_at by done.
  destruct (Z.eqb_spec j slot) as [->|]; [|by exists p]. rewrite Hp. destruct (Hf eq_refl p) as [p' Hp']. exists p'. apply (f_equal Some Hp').
Qed.
Lemma parked_map j t s f : parked j t s -> (forall p, f (t <| cpu_state_ptr := p |>) = t <| cpu_state_ptr := p |>) -> parked j t (map_tasks f s).
Proof.
  intros [Hl [p Hp]] Hf. split; [simpl; unfold zlen in *; by rewrite length_fmap|]. exists p. rewrite map_tasks_at, Hp. apply (f_equal Some (Hf p)).
Qed.

Section Waiting.
  Variables (j : Z) (t : Task) (r : WaitReason).
  Hypotheses (Hj : 1 <= j) (Hst : state t = Blocked r) (Hrun : running t = false) (Hchild : r <> Child) (Hthread : r <> Thread).

Lemma parked_save s slot f : parked j t s -> parked j t (on_task s slot (save_task f)).
Proof using All.
  intros Hp. apply parked_on; [done|]. intros _ p. exists f. unfold save_task.
  change (running (t <| cpu_state_ptr := p |> <| cpu_state_ptr := f |>)) with (running t). by rewrite Hrun.
Qed.
Lemma parked_wake s r' : parked j t s -> r' <> r -> parked j t (wake_waiters_tasks r' s).
Proof using All.
  intros Hp Hne. apply parked_map; [done|]. intros p. unfold is_blocked_on. change (state (t <| cpu_state_ptr := p |>)) with (state t).
  rewrite bool_decide_eq_false_2; [done|]. rewrite Hst. by intros [= ->].
Qed.
Lemma parked_claim s cpu after q s' : parked j t s -> claim_next_task s cpu after = Ret (q, s') -> parked j t s' /\ q <> j.
Proof using All.
  intros Hp. unfold claim_next_task. generalize 31%nat. intros n [Hs Hq]%claim_frame. split; [rewrite Hs; by apply (parked_tasks j t s)|].
  intros ->. destruct Hq as [?|Hc]; [lia|]. destruct Hp as [_ [p Hp]]. unfold claimable in Hc. rewrite Hp in Hc.
  change (running (t <| cpu_state_ptr := p |>)) with (running t) in Hc. by rewrite Hrun in Hc.
Qed.
Lemma parked_start s cpu q : parked j t s -> q <> j -> parked j t (on_task s q (start_running cpu)).
Proof. intros Hp Hq. by apply parked_on. Qed.
Lemma parked_enter s cpu q f s' : parked j t s -> enter_task s cpu q = Ret (f, s') -> parked j t s'.
Proof. intros Hp (_ & HT & _)%enter_same. by eapply parked_tasks. Qed.

#[local] Opaque claim_next_task.

Lemma parked_ap kernel_pd s cpu frame next s' : parked j t s -> schedule_ap kernel_pd s cpu frame = Ret (next, s') -> parked j t s'.
Proof using All.
  intros Hp (s1 & H1 & H)%bind_Ret. assert (parked j t s1) as P1.
  { revert H1. unfold leave_ap. destruct (_ <? 0); [intros [= <-]; done|].
    destruct (task_at s _); [|intros [= <-]; done]. intros (o & _ & [= <-])%bind_Ret.
    do 2 (apply parked_wake; [|congruence]). apply (parked_tasks j t (on_task s (task_slot_on_cpu s cpu) (save_task frame))); [done|].
    by apply parked_save. }
  apply bind_Ret in H as ([q s2] & H2 & H). apply (parked_claim s1) in H2 as [P2 Hq]; [|done].
  destruct (q <=? 0); [apply bind_Ret in H as (idle & _ & [= _ <-]); done|].
  eapply parked_enter; [|exact H]. apply (parked_start _ cpu q); [|done]. done.
Qed.

Lemma parked_first s next s' : parked j t s -> schedule_first s = Ret (next, s') -> parked j t s'.
Proof using All.
  intros Hp H. unfold schedule_first in H. apply bind_Ret in H as ([q s2] & H2 & H).
  set (s0 := s <| first_switch := false |> <| current_task := 0 |>) in *.
  assert (current_task s2 = 0) as Hc2 by (apply claim_same in H2 as (_ & _ & -> & _); done).
  apply (parked_claim s0) in H2 as [P2 Hq]; [|done].
  set (s3 := if q =? 0 then s2 else s2 <| current_task := q |>) in H.
  assert (parked j t s3 /\ current_task s3 <> j) as [P3 Hn3].
  { unfold s3. destruct (q =? 0); [split; [done|lia]|split; done]. }
  apply bind_Ret in H as ([f s4] & H4 & [= _ <-]). unfold enter_task in H4. apply bind_Ret in H4 as (u & _ & [= _ <-]).
  apply (parked_start _ 0); [|exact Hn3]. done.
Qed.

Lemma parked_next s frame next s' : parked j t s -> schedule_next s frame = Ret (next, s') -> parked j t s'.
Proof using All.
  intros Hp (s1 & H1 & H)%bind_Ret. assert (parked j t s1) as P1.
  { revert H1. unfold leave_current. destruct (_ <? 0); [intros [= <-]; done|]. pose proof (parked_save s (current_task s) frame Hp) as Ps.
    destruct (0 <? _); [|intros [= <-]; done]. intros (o & _ & [= <-])%bind_Ret. do 2 (apply parked_wake; [|congruence]).
    apply (parked_tasks j t _ _ eq_refl Ps). }
  apply bind_Ret in H as ([q s2] & H2 & H). apply (parked_claim s1) in H2 as [P2 Hq]; [|done].
  cbv zeta in H. set (p := if (q <? 0) || negb _ then 0 else q) in H. set (s3 := s2 <| current_task := p |>) in H.
  change (current_task s3) with p in H. set (s4 := set_current_task_slot s3 0 p) in H.
  eapply parked_enter; [|exact H]. apply (parked_start s4 0); [done|]. change (current_task s4) with p. unfold p. destruct (_ || _); lia.
Qed.

(** The switch does not touch a task that waits for something else than a child
    or a thread and whose deadline has not passed. *)
Lemma parked_switch kernel_pd s cpu frame now next s' :
  own_inv s -> schedule kernel_pd s cpu frame now = Ret (next, s') -> task_at s j = Some t -> expired now t = false -> parked j t s'.
Proof using All.
  intros Hi H Ht Hexp. unfold schedule in H. set (s0 := wake_expired_timers s now) in H.
  assert (parked j t s0) as P0.
  { split; [unfold s0, wake_expired_timers; simpl; unfold zlen; rewrite length_fmap; apply (sw_tasks _ (oc_wf _ _ (oi_core _ Hi)))|].
    exists (cpu_state_ptr t). unfold s0, wake_expired_timers. rewrite map_tasks_at. change (task_at (s <| cpu_states := _ |>) j) with (task_at s j).
    rewrite Ht. simpl. unfold wake_expired. rewrite Hexp. by destruct t. }
  destruct (cpu =? 0); simpl in H; [|by apply (parked_ap kernel_pd s0 cpu frame next)].
  destruct (task_at s0 0); [|injection H as _ <-; exact P0].
  destruct (first_switch s); [by apply (parked_first s0 next)|by apply (parked_next s0 frame next)].
Qed.
End Waiting.
End Parked.

(** ** Futexes *)

Section FutexProofs.
  Context {F : Type} `{!FileStore F}.
  Implicit Types (s : Sched F) (k : Kern F) (t : Task).

Definition waiters_from (key b : Z) (l : list (option Task)) : list Z := slots_from b l (fun _ t => waits_on key t).

Lemma take_pos {A} (n : Z) (x : A) l : 0 < n -> take (Z.to_nat n) (x :: l) = x :: take (Z.to_nat (n - 1)) l.
Proof. intros Hn. by replace (Z.to_nat n) with (S (Z.to_nat (n - 1))) by lia. Qed.

Lemma take_ge_from key b l n i : i ∈ take n (waiters_from key b l) -> b <= i.
Proof. intros Hi%subseteq_take. by eapply slots_from_ge. Qed.

(** The table with the tasks of [first] woken, slots counted from [b]. *)
Definition woken_at (first : list Z) (b : Z) (l l' : list (option Task)) : Prop :=
  forall i, l' !! i = (fun o => if bool_decide (b + Z.of_nat i ∈ first) then wake_futex <$> o else o) <$> l !! i.

Lemma woken_cons first first' b o o' l l' :
  woken_at first (b + 1) l l' -> (forall x, b + 1 <= x -> x ∈ first' <-> x ∈ first) ->
  o' = (if bool_decide (b ∈ first') then wake_futex <$> o else o) -> woken_at first' b (o :: l) (o' :: l').
Proof.
  intros H2 Hf Ho i. destruct i as [|i]; simpl; [by rewrite Z.add_0_r, Ho|]. rewrite H2.
  replace (b + Z.of_nat (S i)) with (b + 1 + Z.of_nat i) by lia.
  assert (bool_decide (b + 1 + Z.of_nat i ∈ first') = bool_decide (b + 1 + Z.of_nat i ∈ first)) as -> by (apply bool_decide_ext, Hf; lia).
  done.
Qed.

(** The wake loop wakes the first waiters in slot order, at most [val]. *)
Lemma wake_loop_spec key val l : forall b woken n l', wake_loop key val woken l = (n, l') ->
  let first := take (Z.to_nat (val - woken)) (waiters_from key b l) in
  n = woken + zlen first /\ length l' = length l /\ woken_at first b l l'.
Proof.
  induction l as [|o l IH]; intros b woken n l'; cbn [wake_loop].
  { intros [= <- <-]. change (waiters_from key b []) with (@nil Z). cbv zeta. rewrite take_nil. split_and!; [unfold zlen; simpl; lia|done|]. intros i. by rewrite lookup_nil. }
  assert (forall (n0 : nat), b ∉ take n0 (waiters_from key (b + 1) l)) as Hnb by (intros n0 ?%take_ge_from; lia).
  destruct o as [t|]; [destruct (Z.leb_spec val woken) as [Hge|Hlt]|].
  - intros [= <- <-]. cbv zeta. replace (Z.to_nat (val - woken)) with 0%nat by lia. rewrite take_0. split_and!; [unfold zlen; simpl; lia|done|].
    intros i. rewrite bool_decide_eq_false_2 by (by intros ?%not_elem_of_nil). by destruct ((Some t :: l) !! i).
  - unfold waiters_from. cbn [slots_from]. fold (waiters_from key (b + 1) l). destruct (waits_on key t) eqn:Hw.
    + destruct (wake_loop key val (woken + 1) l) as [n1 l1] eqn:Hr. destruct (IH (b + 1) _ _ _ Hr) as (H1 & H2 & H3). intros [= <- <-].
      cbv zeta. rewrite take_pos by lia. replace (val - woken - 1) with (val - (woken + 1)) by lia.
      split_and!; [rewrite H1; unfold zlen; simpl length; lia|simpl; lia|]. eapply (woken_cons _ _ _ _ _ _ _ H3).
      * intros x Hx. rewrite elem_of_cons. split; [intros [->|?]; [lia|done]|by right].
      * by rewrite bool_decide_eq_true_2 by (by left).
    + destruct (wake_loop key val woken l) as [n1 l1] eqn:Hr. destruct (IH (b + 1) _ _ _ Hr) as (H1 & H2 & H3). intros [= <- <-].
      cbv zeta. split_and!; [done|simpl; lia|]. eapply (woken_cons _ _ _ _ _ _ _ H3); [done|]. by rewrite bool_decide_eq_false_2.
  - unfold waiters_from. cbn [slots_from]. fold (waiters_from key (b + 1) l).
    destruct (wake_loop key val woken l) as [n1 l1] eqn:Hr. destruct (IH (b + 1) _ _ _ Hr) as (H1 & H2 & H3). intros [= <- <-].
    cbv zeta. split_and!; [done|simpl; lia|]. eapply (woken_cons _ _ _ _ _ _ _ H3); [done|]. by rewrite bool_decide_eq_false_2.
Qed.

Definition waiters s (key : Z) : list Z := slots_where s (fun _ t => waits_on key t).
Definition op_is (op cmd : Z) : Prop := Z.land op FUTEX_CMD_MASK = cmd /\ Z.land op FUTEX_CLOCK_REALTIME = 0.

Lemma futex_wake_ok kernel_pd cpu now k slot esp uaddr op val timeout key :
  op_is op FUTEX_WAKE -> futex_key_of (k_sched k) slot uaddr op = Ret (Ok key) ->
  let first := take (Z.to_nat val) (waiters (k_sched k) key) in
  exists s', sys_futex kernel_pd cpu now k slot esp uaddr op val timeout = Ret (esp, set_eax esp (zlen first) (k <| k_sched := s' |>)) /\
    s' = k_sched k <| tasks := tasks s' |> /\ zlen (tasks s') = zlen (tasks (k_sched k)) /\
    forall j, task_at s' j = if bool_decide (j ∈ first) then wake_futex <$> task_at (k_sched k) j else task_at (k_sched k) j.
Proof.
  intros [Hcmd Hclk] Hkey first. unfold sys_futex. rewrite Hcmd, Hclk. change (negb (0 =? 0)) with false. cbv iota.
  replace (futex_deadline now FUTEX_WAKE timeout) with (@Ok (option Z) Z None) by (by destruct timeout).
  rewrite Hkey, bind_Ret_l. change (FUTEX_WAKE =? FUTEX_WAIT) with false. change (FUTEX_WAKE =? FUTEX_WAKE) with true. cbv iota.
  destruct (wake_loop key val 0 (tasks (k_sched k))) as [n l] eqn:Hw. destruct (wake_loop_spec key val _ 0 0 n l Hw) as (Hn & Hl & Hat).
  rewrite Z.sub_0_r in Hn, Hat. change (waiters_from key 0 (tasks (k_sched k))) with (waiters (k_sched k) key) in Hn, Hat. fold first in Hn, Hat.
  exists (k_sched k <| tasks := l |>). split; [by rewrite Hn|]. split; [done|]. split; [unfold zlen; simpl; lia|].
  intros j. unfold task_at at 1. unfold get. cbn [tasks set_field setter]. destruct (Z.ltb_spec j 0) as [Hneg|Hpos].
  - assert (task_at (k_sched k) j = None) as -> by (unfold task_at, get; by rewrite (proj2 (Z.ltb_lt _ _))).
    by destruct (bool_decide _).
  - change (tasks (k_sched k <| tasks := l |>)) with l. rewrite Hat. replace (0 + Z.of_nat (Z.to_nat j)) with j by lia.
    unfold task_at, get. rewrite (proj2 (Z.ltb_ge _ _)) by done. destruct (tasks (k_sched k) !! Z.to_nat j) as [o|]; simpl; by destruct (bool_decide _).
Qed.

(** FUTEX_WAKE wakes exactly the first tasks, in slot order, that wait on
    the key, at most as many as asked for, returns their number in [eax], and
    changes no other task: each is runnable, waits on nothing and has no
    deadline left. *)
Theorem futex_wake_exact kernel_pd cpu now k slot esp uaddr op val timeout key c :
  op_is op FUTEX_WAKE -> futex_key_of (k_sched k) slot uaddr op = Ret (Ok key) -> cpu_states (k_sched k) !! esp = Some c ->
  let first := take (Z.to_nat val) (waiters (k_sched k) key) in
  exists k', sys_futex kernel_pd cpu now k slot esp uaddr op val timeout = Ret (esp, k') /\
    cpu_states (k_sched k') !! esp = Some (c <| r_eax := zlen first |>) /\
    forall j t, task_at (k_sched k) j = Some t -> exists t', task_at (k_sched k') j = Some t' /\
      if bool_decide (j ∈ first)
      then waits_on key t = true /\ state t' = Runnable /\ running t' = true /\ futex_key t' = 0 /\ wake_deadline_ms t' = 0 /\ pid t' = pid t
      else t' = t.
Proof.
  intros Hop Hkey Hc first. destruct (futex_wake_ok kernel_pd cpu now k slot esp uaddr op val timeout key Hop Hkey) as (s' & E & Hs & _ & Hat).
  fold first in E, Hat. eexists. split; [exact E|]. split.
  - unfold set_eax, on_sched. cbn [k_sched set_field setter]. rewrite Hs. cbn [cpu_states set_field setter]. by rewrite lookup_alter_eq, Hc.
  - intros j t Ht. change (task_at (k_sched (set_eax esp _ (k <| k_sched := s' |>))) j) with (task_at s' j). rewrite Hat, Ht.
    destruct (bool_decide_reflect (j ∈ first)) as [Hin|]; [|by exists t]. eexists. split; [reflexivity|]. split; [|done].
    apply subseteq_take in Hin. apply slots_where_elem in Hin as (u & Hu & Hw). congruence.
Qed.

(** A task that goes to sleep stays asleep through the switch. *)
Lemma sleep_switch kernel_pd cpu now s slot t r f esp :
  own_inv s -> 0 <= cpu < 64 -> 1 <= slot -> task_at s slot = Some t ->
  state (f t) = Blocked r -> running (f t) = false -> r <> Child -> r <> Thread -> expired now (f t) = false ->
  (zombie (f t) = zombie t /\ leader_slot (f t) = leader_slot t) ->
  exists next s', schedule kernel_pd (put_task s slot (Some (f t))) cpu esp now = Ret (next, s') /\ own_inv s' /\ parked slot (f t) s'.
Proof.
  intros Hi Hcpu Hs Ht Hst Hrun Hc Hth Hexp [Hz Hl]. pose proof (oc_zombie _ _ (oi_core _ Hi) slot t Ht) as Hlead.
  pose proof (sw_tasks _ (oc_wf _ _ (oi_core _ Hi))) as Hl32. pose proof (task_at_range _ _ _ Hl32 Ht) as Hr.
  assert (own_inv (put_task s slot (Some (f t)))) as Hi1.
  { rewrite <- (on_task_put s slot t f Ht). apply (keeps_inv s); [done|]. apply (keeps_update (-1)); [apply Hi|].
    intros u Hu. assert (u = t) as -> by congruence. unfold leader_ok. rewrite Hz, Hl. split; [done|lia]. }
  destruct (schedule_ok kernel_pd _ cpu esp now Hi1 Hcpu) as (next & s' & Hsch & Hi' & _). exists next, s'. split; [done|]. split; [done|].
  apply (parked_switch slot (f t) r Hs Hst Hrun Hc Hth kernel_pd _ cpu esp now next s' Hi1 Hsch); [|done].
  by rewrite put_task_at, Z.eqb_refl.
Qed.

Lemma futex_wait_eq kernel_pd cpu now k slot t esp uaddr val key deadline ex :
  own_core ex (k_sched k) -> task_at (k_sched k) slot = Some t -> get_user k uaddr = val ->
  futex_wait kernel_pd cpu now k slot esp key val uaddr deadline =
  '(next, s) ← schedule kernel_pd (put_task (k_sched (set_eax esp 0 k)) slot (Some (futex_sleep key deadline t))) cpu esp now;
  Ret (next, set_eax esp 0 k <| k_sched := s |>).
Proof.
  intros Hc Ht Hv. pose proof (task_at_range _ _ _ (sw_tasks _ (oc_wf _ _ Hc)) Ht) as Hr.
  unfold futex_wait. rewrite Hv, Z.eqb_refl. simpl negb. cbv iota.
  change (tasks (k_sched (set_eax esp 0 k))) with (tasks (k_sched k)). rewrite (idx_tasks ex), bind_Ret_l, Ht by done.
  unfold switch. generalize (@schedule F kernel_pd). intros sch. done.
Qed.

Lemma futex_sleep_fields key deadline t :
  state (futex_sleep key deadline t) = Blocked Futex /\ wake_deadline_ms (futex_sleep key deadline t) = default 0 deadline.
Proof. done. Qed.
Lemma futex_sleep_fresh now key deadline t : (forall d, deadline = Some d -> now < d) -> expired now (futex_sleep key deadline t) = false.
Proof.
  intros Hd. unfold expired. destruct (futex_sleep_fields key deadline t) as [-> ->].
  destruct deadline as [d|]; [|done]. specialize (Hd d eq_refl). simpl. rewrite (proj2 (Z.leb_gt _ _)) by done. by rewrite andb_false_r.
Qed.

(** Going to sleep on a key. *)
Lemma futex_sleep_ok kernel_pd cpu now k slot t esp uaddr val key deadline :
  own_inv (k_sched k) -> 0 <= cpu < 64 -> 1 <= slot -> task_at (k_sched k) slot = Some t ->
  get_user k uaddr = val -> (forall d, deadline = Some d -> now < d) ->
  exists next k1, futex_wait kernel_pd cpu now k slot esp key val uaddr deadline = Ret (next, k1) /\ own_inv (k_sched k1) /\
    parked slot (futex_sleep key deadline t) (k_sched k1).
Proof.
  intros Hi Hcpu Hs Ht Hv Hd. pose proof (task_at_range _ _ _ (sw_tasks _ (oc_wf _ _ (oi_core _ Hi))) Ht) as Hr.
  rewrite (futex_wait_eq _ _ _ k slot t _ _ _ _ _ (-1) (oi_core _ Hi) Ht Hv).
  set (k0 := set_eax esp 0 k). assert (own_inv (k_sched k0)) as Hi0 by exact (own_inv_frames (k_sched k) _ Hi).
  assert (task_at (k_sched k0) slot = Some t) as Ht0 by exact Ht. clearbody k0.
  destruct (sleep_switch kernel_pd cpu now (k_sched k0) slot t Futex (futex_sleep key deadline) esp) as (next & s' & E & Hi' & Hp); try done.
  { by apply futex_sleep_fresh. }
  rewrite E, bind_Ret_l. eexists next, _. split; [reflexivity|]. done.
Qed.

(** C9. No wake-up is lost: a waiter that finds the futex word changed returns
    at once with EAGAIN and leaves every task alone; one that finds the expected
    value is queued on the key before any other task can run, keeps the
    invariant of the scheduler, and is made runnable by the next wake on that
    key that asks for at least as many tasks as wait on it. *)
Theorem futex_no_lost_wakeup kernel_pd cpu now k slot t esp uaddr op val timeout key deadline :
  own_inv (k_sched k) -> 0 <= cpu < 64 -> 1 <= slot -> task_at (k_sched k) slot = Some t ->
  op_is op FUTEX_WAIT -> futex_deadline now FUTEX_WAIT timeout = Ok deadline -> (forall d, deadline = Some d -> now < d) ->
  futex_key_of (k_sched k) slot uaddr op = Ret (Ok key) ->
  if get_user k uaddr =? val then
    exists next k1, sys_futex kernel_pd cpu now k slot esp uaddr op val timeout = Ret (next, k1) /\ own_inv (k_sched k1) /\
      slot ∈ waiters (k_sched k1) key /\ claimable (k_sched k1) slot = false /\
      forall waker cpu' now' esp' uaddr' op' n,
        op_is op' FUTEX_WAKE -> futex_key_of (k_sched k1) waker uaddr' op' = Ret (Ok key) -> zlen (waiters (k_sched k1) key) <= n ->
        exists k2 t2, sys_futex kernel_pd cpu' now' k1 waker esp' uaddr' op' n None = Ret (esp', k2) /\
          task_at (k_sched k2) slot = Some t2 /\ state t2 = Runnable /\ running t2 = true
  else sys_futex kernel_pd cpu now k slot esp uaddr op val timeout = Ret (esp, set_eax esp EAGAIN k).
Proof.
  intros Hi Hcpu Hs Ht [Hcmd Hclk] Hdl Hd Hkey.
  assert (sys_futex kernel_pd cpu now k slot esp uaddr op val timeout = futex_wait kernel_pd cpu now k slot esp key val uaddr deadline) as ->.
  { unfold sys_futex. rewrite Hcmd, Hclk. change (negb (0 =? 0)) with false. cbv iota. by rewrite Hdl, Hkey, bind_Ret_l. }
  destruct (Z.eqb_spec (get_user k uaddr) val) as [Hv|Hv].
  2:{ unfold futex_wait. by rewrite (proj2 (Z.eqb_neq _ _) Hv). }
  destruct (futex_sleep_ok kernel_pd cpu now k slot t esp uaddr val key deadline) as (next & k1 & E & Hi1 & [Hl1 [p Hp]]); [done..|].
  exists next, k1. do 2 (split; [done|]). assert (slot ∈ waiters (k_sched k1) key) as Hin.
  { apply slots_where_elem. eexists. split; [exact Hp|]. unfold waits_on, is_blocked_on. rewrite bool_decide_eq_true_2 by done. apply Z.eqb_refl. }
  split; [done|]. split; [unfold claimable; by rewrite Hp|]. intros waker cpu' now' esp' uaddr' op' n Hop Hkey' Hn.
  destruct (futex_wake_ok kernel_pd cpu' now' k1 waker esp' uaddr' op' n None key Hop Hkey') as (s2 & E2 & _ & _ & Hat).
  eexists _, (wake_futex (futex_sleep key deadline t <| cpu_state_ptr := p |>)). split; [exact E2|]. split; [|done].
  change (task_at s2 slot = Some (wake_futex (futex_sleep key deadline t <| cpu_state_ptr := p |>))). rewrite Hat, Hp.
  rewrite bool_decide_eq_true_2; [done|]. rewrite take_ge; [done|]. unfold zlen in Hn. lia.
Qed.

(** Keys of private futexes of different processes or addresses differ, and no
    private key is a physical address. *)
Lemma private_key_sum p addr : 0 <= p < 2 ^ 31 -> 0 <= addr < 2 ^ 32 -> private_key p addr = (2 ^ 31 + p) * 2 ^ 32 + addr.
Proof.
  intros Hp Ha. unfold private_key, as_usize. rewrite Z.mod_small by lia.
  change (Z.shiftl 1 63) with (Z.shiftl (Z.shiftl 1 31) 32). rewrite <- Z.shiftl_lor, !lor_shiftl_add by lia. done.
Qed.
Lemma futex_keys_apart p p' addr addr' : 0 <= p < 2 ^ 31 -> 0 <= p' < 2 ^ 31 -> 0 <= addr < 2 ^ 32 -> 0 <= addr' < 2 ^ 32 ->
  (private_key p addr = private_key p' addr' -> p = p' /\ addr = addr') /\ private_key p addr <> addr'.
Proof. intros. rewrite !private_key_sum by done. lia. Qed.
End FutexProofs.

(** ** Joining *)

Section JoinProofs.
  Context {F : Type} `{!FileStore F}.
  Implicit Types (s : Sched F) (k : Kern F) (t u : Task).
  Variable (shootdown_tlb : Z -> Z -> bool).

(** A thread about to exit on CPU [cpu], in a process with another live thread,
    and a thread that will join it. *)
Record joinable (cpu : Z) k (j : Z) t (leader caller : Z) : Prop := {
  jn_inv : own_inv (k_sched k);
  jn_ok : all_ok (k_sched k);
  jn_cpu : 0 <= cpu < 64 /\ get (cpu_slot (k_sched k)) cpu = Some j;
  jn_task : task_at (k_sched k) j = Some t /\ 1 <= j /\ caller <> j;
  jn_thread : is_thread t = true /\ thread_detached t = false /\ leader_slot t = leader /\ 0 <= leader /\ zombie t = false;
  jn_tid : 0 < tid t < 2 ^ 31 /\ forall i u, task_at (k_sched k) i = Some u -> tid u = tid t -> i = j;
  jn_other : exists i u, i <> j /\ task_at (k_sched k) i = Some u /\ leader_slot u = leader /\ thread_exited u = false
}.

(** The table when the thread is dead and its joiners are awake. *)
Definition thread_gone s (j value : Z) : Sched F := wake_waiters_tasks Thread (on_task s j (exit_member value)).

Lemma thread_gone_at s j value i : zlen (tasks s) = 32 ->
  task_at (thread_gone s j value) i = (fun u => wake_if Thread (if i =? j then exit_member value u else u)) <$> task_at s i.
Proof.
  intros Hl. unfold thread_gone, wake_waiters_tasks. rewrite map_tasks_at, on_task_at by done.
  destruct (i =? j); by destruct (task_at s i).
Qed.

Lemma head_unique s p j : j ∈ slots_where s p -> (forall i, i ∈ slots_where s p -> i = j) -> head (slots_where s p) = Some j.
Proof.
  intros Hj Hu. destruct (slots_where s p) as [|a l] eqn:Hs; [by apply not_elem_of_nil in Hj|]. simpl. f_equal. apply Hu. by left.
Qed.
Lemma slot_by_tid_unique s j t : task_at s j = Some t -> (forall i u, task_at s i = Some u -> tid u = tid t -> i = j) ->
  slot_by_tid s (tid t) = Some j.
Proof.
  intros Ht Hu. apply head_unique; [apply slots_where_elem; exists t; split; [done|apply Z.eqb_refl]|].
  intros i (u & Hi & He%Z.eqb_eq)%slots_where_elem. by apply (Hu i u).
Qed.

Lemma not_current_unowned s j : own_inv s -> 1 <= j < 32 -> (forall c, 0 <= c -> get (cpu_slot s) c <> Some j) -> unowned s j = true.
Proof.
  intros Hi Hj Hno. pose proof (oi_core _ Hi) as Hc. unfold unowned.
  destruct (get_in_range (task_owner s) j) as [o Ho]; [rewrite (sw_owner _ (oc_wf _ _ Hc)); lia|]. rewrite Ho.
  destruct (oc_owner _ _ Hc j o Hj Ho) as [->|(Hr & _ & Hg & _)]; [done|]. exfalso. by apply (Hno o); [lia|].
Qed.
Lemma current_unique s c c' j : own_inv s -> 1 <= j < 32 -> 0 <= c -> 0 <= c' -> get (cpu_slot s) c = Some j -> get (cpu_slot s) c' = Some j -> c = c'.
Proof.
  intros Hi Hj Hc0 Hc1 H1 H2. pose proof (oi_core _ Hi) as Hc.
  destruct (oc_cpu _ _ Hc c j ltac:(lia) H1) as [?|[[? _]|[_ O1]]]; [lia..|].
  destruct (oc_cpu _ _ Hc c' j ltac:(lia) H2) as [?|[[? _]|[_ O2]]]; [lia..|]. congruence.
Qed.

Lemma thread_gone_keeps ex s j value : own_core ex s -> keeps s (thread_gone s j value).
Proof.
  intros Hc. assert (keeps s (on_task s j (exit_member value))) as K by (by apply (keeps_on ex)).
  eapply keeps_trans; [exact K|]. apply (keeps_wake_waiters ex). by apply (keeps_core ex s).
Qed.

Lemma thread_gone_live s j value leader i u : zlen (tasks s) = 32 -> i <> j -> task_at s i = Some u -> leader_slot u = leader ->
  thread_exited u = false -> live_thread_count (thread_gone s j value) leader <> 0.
Proof.
  intros Hl Hne Hu Hlead Hx. unfold live_thread_count. assert (i ∈ slots_where (thread_gone s j value) (fun _ t => (leader_slot t =? leader) && negb (thread_exited t))) as Hin.
  { apply slots_where_elem. exists (wake_if Thread u). rewrite thread_gone_at, Hu, (proj2 (Z.eqb_neq _ _) Hne) by done. split; [done|].
    destruct (wake_if_same Thread u) as (_ & _ & _ & -> & _ & _ & _ & ->). by rewrite Hlead, Hx, Z.eqb_refl. }
  destruct (slots_where _ _); [by apply not_elem_of_nil in Hin|]. rewrite zlen_cons. pose proof (zlen_nonneg l). lia.
Qed.

Lemma thread_exit_eq kernel_pd cpu now k j t leader caller esp value : joinable cpu k j t leader caller ->
  sys_thread_exit kernel_pd cpu now k j esp value =
  '(next, s) ← schedule kernel_pd (thread_gone (k_sched k) j value) cpu esp now; Ret (next, k <| k_sched := s |>).
Proof.
  intros [Hi _ _ (Ht & Hj & _) (_ & _ & Hl & Hl0 & _) _ (i & u & Hne & Hu & Hlu & Hx)].
  pose proof (sw_tasks _ (oc_wf _ _ (oi_core _ Hi))) as Hl32.
  unfold sys_thread_exit. rewrite (proj2 (Z.eqb_neq j 0)), bool_decide_eq_true_2 by (rewrite ?Ht; done || lia). simpl negb. cbv iota.
  assert (process_slot (k_sched k) j = leader) as -> by (unfold process_slot; rewrite Ht, Hl; by rewrite (proj2 (Z.leb_le _ _))).
  cbv zeta. change (k_sched (on_sched k (fun s => wake_waiters_tasks Thread (on_task s j (exit_member value))))) with (thread_gone (k_sched k) j value).
  rewrite (proj2 (Z.eqb_neq _ _) (thread_gone_live _ _ _ _ _ _ Hl32 Hne Hu Hlu Hx)), bind_Ret_l. unfold switch.
  generalize (@schedule F kernel_pd). intros sch. done.
Qed.

(** Exiting leaves the thread dead, off every CPU, and the others as they were. *)
Lemma thread_exit_ok kernel_pd cpu now k j t leader caller esp value :
  joinable cpu k j t leader caller ->
  exists next s1 t1, sys_thread_exit kernel_pd cpu now k j esp value = Ret (next, k <| k_sched := s1 |>) /\ own_inv s1 /\
    memory s1 = memory (k_sched k) /\ task_at s1 j = Some t1 /\ frozen t1 = frozen (exit_member value t) /\ unowned s1 j = true /\
    forall i, i <> j -> option_Forall2 (fun u u' => frozen u' = frozen u) (task_at (k_sched k) i) (task_at s1 i).
Proof.
  intros Hjn. rewrite (thread_exit_eq _ _ _ _ _ _ _ _ _ _ Hjn). destruct Hjn as [Hi _ (Hcpu & Hcur) (Ht & Hj & _) _ _ _].
  pose proof (sw_tasks _ (oc_wf _ _ (oi_core _ Hi))) as Hl32. pose proof (task_at_range _ _ _ Hl32 Ht) as Hr.
  pose proof (thread_gone_keeps _ _ j value (oi_core _ Hi)) as K. set (s0 := thread_gone (k_sched k) j value) in *.
  assert (own_inv s0) as Hi0 by (by apply (keeps_inv (k_sched k))).
  assert (task_at s0 j = Some (exit_member value t)) as Ht0
    by (unfold s0; rewrite thread_gone_at, Ht, Z.eqb_refl by done; simpl; by rewrite wake_if_zombie).
  assert (forall i, i <> j -> task_at s0 i = wake_if Thread <$> task_at (k_sched k) i) as Hother
    by (intros i Hne; unfold s0; by rewrite thread_gone_at, (proj2 (Z.eqb_neq _ _) Hne)).
  assert (memory s0 = memory (k_sched k)) as Hm0 by exact (proj2 (on_task_cpu (k_sched k) j (exit_member value))).
  assert (cpu_slot s0 = cpu_slot (k_sched k)) as Hc0 by apply (kp_cpu _ _ K).
  clearbody s0. destruct (schedule_ok kernel_pd s0 cpu esp now Hi0 Hcpu) as (next & s1 & Hsch & Hi1 & _). rewrite Hsch, bind_Ret_l.
  pose proof (schedule_switched _ _ _ _ _ _ _ Hi0 Hcpu Hsch) as Hsw. pose proof (sw_same _ _ _ Hsw) as Hs.
  destruct (same_task_at _ _ _ _ Hs Ht0) as (t1 & Ht1 & Hf1 & _). exists next, s1, t1. split; [done|]. split; [done|].
  split; [by rewrite (proj1 Hs)|]. split; [done|]. split; [done|]. split.
  - apply not_current_unowned; [done|lia|]. intros c Hc Hg. destruct (Z.eq_dec c cpu) as [->|Hne].
    + pose proof (sw_new _ _ _ Hsw j _ Hj Hg Ht0) as Hx. done.
    + rewrite (sw_other _ _ _ Hsw), Hc0 in Hg by done. apply Hne, (current_unique _ c cpu j Hi ltac:(lia) Hc ltac:(lia) Hg Hcur).
  - intros i Hne. destruct (task_at (k_sched k) i) as [u|] eqn:Hu; pose proof (Hother i Hne) as Ho; rewrite Hu in Ho.
    + destruct (same_task_at _ _ _ _ Hs Ho) as (u' & -> & Hf & _). constructor. rewrite Hf. apply frozen_wake_if.
    + rewrite (same_task_none _ _ _ Hs Ho). constructor.
Qed.

Lemma reap_thread_ok s j t :
  all_ok s -> zlen (tasks s) = 32 -> task_at s j = Some t -> 1 <= j -> unowned s j = true -> is_thread t = true -> thread_exited t = true ->
  exists s', reap_thread shootdown_tlb s j = Ret (true, s') /\ all_ok s' /\
    forall i, task_at s' i = if i =? j then None else task_at s i.
Proof.
  intros Hok Hl Ht Hj Hu Hth Hx. pose proof (task_at_range _ _ _ Hl Ht) as Hr.
  unfold reap_thread, MAX_TASKS. rewrite (proj2 (Z.eqb_neq j 0)), (proj2 (Z.leb_gt 32 j)), Hu, Ht, Hth, Hx by lia. simpl.
  destruct (drop_slots_total shootdown_tlb [j] s Hok Hl) as (s' & Hd & Hok'); [repeat constructor; lia|].
  pose proof Hd as Hd'. cbn [drop_slots] in Hd'. apply bind_Ret in Hd' as (s1 & Hs1 & [= <-]). rewrite Hs1, bind_Ret_l.
  exists s1. split; [done|]. split; [done|]. apply drop_slots_frame in Hd as (_ & _ & Hat); [|done|repeat constructor; lia].
  intros i. rewrite Hat. destruct (Z.eqb_spec i j) as [->|]; [by rewrite bool_decide_eq_true_2 by (by left)|].
  by rewrite bool_decide_eq_false_2 by (rewrite list_elem_of_singleton; done).
Qed.

Lemma join_collects k j t leader caller value_out :
  let s := k_sched k in
  all_ok s -> zlen (tasks s) = 32 -> task_at s j = Some t -> 1 <= j -> caller <> j -> unowned s j = true ->
  is_thread t = true -> thread_detached t = false -> thread_exited t = true -> leader_slot t = leader -> 0 < tid t ->
  (forall i u, task_at s i = Some u -> tid u = tid t -> i = j) ->
  exists s', reap_thread shootdown_tlb s j = Ret (true, s') /\ (forall i, task_at s' i = if i =? j then None else task_at s i) /\
    sys_thread_join shootdown_tlb k leader caller (tid t) value_out =
    Ret (as_usize (tid t), put_user value_out (thread_exit_value t) (drop_tables s (k <| k_sched := s' |>))).
Proof.
  intros s Hok Hl Ht Hj Hne Hu Hth Hdet Hx Hlead Hpos Huniq.
  destruct (reap_thread_ok s j t Hok Hl Ht Hj Hu Hth Hx) as (s' & Hr & _ & Hat). exists s'. do 2 (split; [done|]).
  unfold sys_thread_join. fold s. rewrite (proj2 (Z.leb_gt _ _)), (slot_by_tid_unique s j t Ht Huniq) by done.
  rewrite (proj2 (Z.eqb_neq j caller)), Ht, Hlead, Z.eqb_refl, Hth, Hdet, Hx by done. simpl.
  unfold reap_thread_slot. fold s. by rewrite Hr.
Qed.

Lemma join_no_thread k leader caller want value_out :
  0 < want -> (forall i u, task_at (k_sched k) i = Some u -> tid u <> want) ->
  sys_thread_join shootdown_tlb k leader caller want value_out = Ret (ESRCH, k).
Proof.
  intros Hw Hno. unfold sys_thread_join. rewrite (proj2 (Z.leb_gt _ _)) by done. unfold slot_by_tid.
  destruct (slots_where (k_sched k) (fun _ t => tid t =? want)) as [|a l] eqn:Hs; [done|].
  assert (a ∈ slots_where (k_sched k) (fun _ t => tid t =? want)) as (u & Hu & He%Z.eqb_eq)%slots_where_elem by (rewrite Hs; by left).
  by destruct (Hno a u Hu).
Qed.

(** C23. Exit and join are a round trip for threads: a thread that exits while
    another thread of its process lives leaves the process running; a join then
    returns its id, stores the value it exited with, frees its slot, and leaves
    every other task as it was but for the scheduling fields that [frozen]
    erases (state, saved stack pointer, wake-up time, futex key, network wait);
    a second join finds no such thread. *)
Theorem thread_join_roundtrip kernel_pd cpu now k j t leader caller esp value ptr :
  joinable cpu k j t leader caller ->
  exists next k1 k2, sys_thread_exit kernel_pd cpu now k j esp value = Ret (next, k1) /\ own_inv (k_sched k1) /\
    sys_thread_join shootdown_tlb k1 leader caller (tid t) ptr = Ret (tid t, k2) /\ own_inv (k_sched k2) /\
    (ptr <> 0 -> k_user k2 !! ptr = Some value) /\ task_at (k_sched k2) j = None /\
    (forall i, i <> j -> option_Forall2 (fun u u' => frozen u' = frozen u) (task_at (k_sched k) i) (task_at (k_sched k2) i)) /\
    sys_thread_join shootdown_tlb k2 leader caller (tid t) ptr = Ret (ESRCH, k2).
Proof.
  intros Hjn. destruct (thread_exit_ok kernel_pd cpu now k j t leader caller esp value Hjn) as (next & s1 & t1 & E & Hi1 & Hm & Ht1 & Hf & Hu & Ho).
  destruct Hjn as [Hi [Hmok Hok] _ (Ht & Hj & Hcal) (Hth & Hdet & Hl & _ & _) (Hpos & Huniq) _].
  set (k1 := k <| k_sched := s1 |>) in E. assert (tid t1 = tid t) as Htid by exact (f_equal tid Hf).
  assert (forall i u', task_at s1 i = Some u' -> i = j \/ exists u, task_at (k_sched k) i = Some u /\ frozen u' = frozen u) as Hback.
  { intros i u' Hu'. destruct (Z.eq_dec i j) as [|Hne]; [by left|right]. specialize (Ho i Hne). rewrite Hu' in Ho.
    inversion Ho as [u v He Hiu Hv|]; subst. eauto. }
  assert (all_ok s1) as Hok1.
  { split; [by rewrite Hm|]. intros i u' Hu'. rewrite Hm. destruct (Hback i u' Hu') as [->|(u & Hui & He)].
    - assert (u' = t1) as -> by congruence. change (task_ok (memory (k_sched k)) (frozen t1)). rewrite Hf. exact (Hok j t Ht).
    - change (task_ok (memory (k_sched k)) (frozen u')). rewrite He. exact (Hok i u Hui). }
  destruct (join_collects k1 j t1 leader caller ptr) as (s2 & Hr & Hat & Hw); try done.
  { apply (sw_tasks _ (oc_wf _ _ (oi_core _ Hi1))). }
  { rewrite <- Hth. exact (f_equal is_thread Hf). }
  { rewrite <- Hdet. exact (f_equal thread_detached Hf). }
  { exact (f_equal thread_exited Hf). }
  { rewrite <- Hl. exact (f_equal leader_slot Hf). }
  { lia. }
  { intros i u' Hu' He. destruct (Hback i u' Hu') as [|(u & Hui & Hfu)]; [done|]. apply (Huniq i u Hui).
    rewrite <- Htid, <- He. symmetry. exact (f_equal tid Hfu). }
  rewrite Htid in Hw. assert (thread_exit_value t1 = value) as Hval by exact (f_equal thread_exit_value Hf). rewrite Hval in Hw.
  set (k2 := put_user _ _ _) in Hw. assert (k_sched k2 = s2) as Hk2
    by (unfold k2; by rewrite (proj1 (put_user_frame _ _ _)), (proj1 (drop_tables_frame _ _))).
  exists next, k1, k2. rewrite Hk2. split; [done|]. split; [done|]. split; [rewrite Hw; unfold as_usize; by rewrite Z.mod_small by lia|].
  split; [|split; [apply put_user_frame|split; [by rewrite Hat, Z.eqb_refl|split]]].
  - apply (keeps_inv s1); [done|]. exact (keeps_reap_thread shootdown_tlb (-1) s1 j true s2 (oi_core _ Hi1) Hr).
  - intros i Hne. rewrite Hat, (proj2 (Z.eqb_neq _ _) Hne). by apply Ho.
  - apply join_no_thread; [lia|]. intros i u'. rewrite Hk2, Hat. destruct (Z.eqb_spec i j) as [|Hne]; [done|]. intros Hu' He.
    destruct (Hback i u' Hu') as [|(u & Hui & Hfu)]; [done|]. apply Hne, (Huniq i u Hui). rewrite <- He. symmetry. exact (f_equal tid Hfu).
Qed.
End JoinProofs.

(** ** Witnesses *)

Lemma own_inv_memory {F} (s : Sched F) m : own_inv s -> own_inv (s <| memory := m |>).
Proof. intros [[[] ? ? ? ? ?] ?]. constructor; [by constructor|done]. Qed.

(** The couple of [Process] with a directory that maps 4 MiB at 0x400000; the
    word there is 7.  In a second state the process in slot 2 sleeps on it. *)
Definition wit_map (m : Sh unit) : Sh unit := m <| sh_mem := {[ 0x100000 := <[1%nat := 0x400083]> zero_page ]} |>.
Definition wit_futex : Kern unit :=
  mkKern (wit_couple <| memory := wit_map (memory wit_couple) |> <| cpu_states := {[ 0xC0300000 := wit_frame ]} |>)
    (mkArcs ∅ 0) ∅ PIPES_init 0 {[ 0x400000 := 7 ]} [].
Definition wit_sleeper : Task := futex_sleep 0x400000 None wit_parent.
Definition wit_asleep : Kern unit := on_sched wit_futex (fun s => put_task s 2 (Some wit_sleeper)).

Lemma wit_futex_inv : own_inv (k_sched wit_futex).
Proof. apply own_inv_frames, own_inv_memory, wit_couple_inv. Qed.

Lemma futex_wake_exact_witness :
  exists k', sys_futex 0x1000 1 7 wit_asleep 1 0xC0300000 0x400000 FUTEX_WAKE 5 None = Ret (0xC0300000, k') /\
    (exists c, cpu_states (k_sched k') !! 0xC0300000 = Some c /\ r_eax c = 1) /\ state <$> task_at (k_sched k') 2 = Some Runnable.
Proof.
  assert (waiters (k_sched wit_asleep) 0x400000 = [2]) as Hw by (by vm_compute).
  destruct (futex_wake_exact 0x1000 1 7 wit_asleep 1 0xC0300000 0x400000 FUTEX_WAKE 5 None 0x400000 wit_frame) as (k' & E & Hc & Hall);
    [split; by vm_compute|by vm_compute|by vm_compute|]. rewrite Hw in Hc, Hall.
  exists k'. split; [exact E|]. split; [eexists; split; [exact Hc|by vm_compute]|].
  destruct (Hall 2 wit_sleeper) as (t' & Ht' & Hd); [by vm_compute|]. rewrite Ht'.
  rewrite bool_decide_eq_true_2 in Hd by (by left). simpl. by destruct Hd as (_ & -> & _).
Defined.

Lemma futex_no_lost_wakeup_witness :
  exists next k1, sys_futex 0x1000 1 7 wit_futex 1 0xC0300000 0x400000 FUTEX_WAIT 7 None = Ret (next, k1) /\
    claimable (k_sched k1) 1 = false.
Proof.
  pose proof (futex_no_lost_wakeup 0x1000 1 7 wit_futex 1 (start_running 1 wit_sig_task) 0xC0300000 0x400000 FUTEX_WAIT 7 None 0x400000 None
    wit_futex_inv ltac:(lia) ltac:(lia)) as H.
  destruct H as (next & k1 & E & _ & _ & Hc & _); [by vm_compute|split; by vm_compute|by vm_compute|done|by vm_compute|].
  exists next, k1. split; [exact E|exact Hc].
Defined.

(** A thread of the process in slot 2 runs in slot 1 on CPU 1. *)
Definition wit_thread : Task :=
  task_init 0xC0100000 0x100000 0 true <| running := true |> <| state := Runnable |> <| pid := 1 |> <| tid := 9 |> <| leader_slot := 2 |>.
Definition wit_thread_start : Sched unit := put_task wit_boot 1 (Some wit_thread).
Definition wit_thread_ran : Sched unit :=
  match schedule 0x1000 wit_thread_start 1 0xC0200000 5 with Ret (_, s) => s | Panic => wit_sched end.
Definition wit_threads : Sched unit := put_task wit_thread_ran 2 (Some wit_parent).
Definition wit_join : Kern unit := mkKern wit_threads (mkArcs ∅ 0) ∅ PIPES_init 0 ∅ [].

Lemma wit_threads_inv : own_inv wit_threads.
Proof.
  assert (own_inv wit_boot) as H0 by (apply (sched_init_inv (64 * MIB) 16 None 0xC0101000 wit_memory); by vm_compute).
  assert (own_inv wit_thread_start) as H1.
  { apply (sched_step_inv no_shootdown (64 * MIB) 0x1000 wit_boot _ H0).
    apply (ss_spawn _ _ _ _ 1 wit_thread); [lia|by vm_compute|done|done]. }
  assert (own_inv wit_thread_ran) as H2.
  { apply (sched_step_inv no_shootdown (64 * MIB) 0x1000 wit_thread_start _ H1).
    apply (ss_tick _ _ _ wit_thread_start 1 0xC0200000 5 0 wit_thread_ran); [lia|by vm_compute]. }
  apply (sched_step_inv no_shootdown (64 * MIB) 0x1000 wit_thread_ran); [exact H2|].
  apply (ss_spawn _ _ _ _ 2 wit_parent); [lia|by vm_compute|done|done].
Qed.

Lemma wit_threads_ok : all_ok wit_threads.
Proof.
  assert (zlen (tasks wit_threads) = 32) as Hl by (by vm_compute). split.
  - apply map_Forall_to_list. assert (forallb (fun e => zlen e.2 =? 1024) (map_to_list (sh_mem (memory wit_threads))) = true) as Hall
      by (by vm_compute). apply Forall_forall. intros [p page] Hp%list_elem_of_In. rewrite forallb_forall in Hall. by apply Z.eqb_eq, (Hall _ Hp).
  - intros j t Ht. set (f := fun (_ : Z) t => (KERNEL_OFFSET <=? stack_base t) &&
      (negb (is_thread t) || ((user_stack_bottom t =? 0) && (user_stack_top t =? 0) && (page_dir_phys t =? 0x100000)))).
    assert (f j t = true) as Hf by (apply (forall_tasks wit_threads f Hl); [by vm_compute|done]).
    unfold f in Hf. rewrite andb_true_iff, Z.leb_le in Hf. destruct Hf as [Hb Hf]. split; [done|]. intros Hth. rewrite Hth in Hf.
    cbn [negb orb] in Hf. rewrite !andb_true_iff, !Z.eqb_eq in Hf. destruct Hf as [[-> ->] ->]. split_and!; try (unfold KERNEL_OFFSET; lia).
    intros i e Hg Hs. exfalso. assert (sh_mem (memory wit_threads) !! 0x100000 = None) as Hn by (by vm_compute).
    unfold vm_of in Hg. rewrite Hn in Hg. apply get_replicate in Hg as ->. by apply small_0.
Qed.

Lemma wit_joinable : joinable 1 wit_join 1 (start_running 1 wit_thread) 2 2.
Proof.
  assert (zlen (tasks wit_threads) = 32) as Hl by (by vm_compute).
  constructor; [exact wit_threads_inv|exact wit_threads_ok|split; [lia|by vm_compute]|split_and!; by vm_compute|split_and!; by vm_compute| |].
  - split; [by vm_compute|]. intros i u Hu He. apply (forall_tasks wit_threads (fun i u => negb (tid u =? 9) || (i =? 1)) Hl) in Hu.
    + rewrite He in Hu. by apply Z.eqb_eq.
    + by vm_compute.
  - exists 2, wit_parent. split; [done|]. split; by vm_compute.
Qed.

Lemma thread_join_roundtrip_witness :
  exists next k1 k2, sys_thread_exit 0x1000 1 7 wit_join 1 0xC0300000 55 = Ret (next, k1) /\
    sys_thread_join no_shootdown k1 2 2 9 0x8000 = Ret (9, k2) /\ k_user k2 !! 0x8000 = Some 55 /\ task_at (k_sched k2) 1 = None.
Proof.
  destruct (thread_join_roundtrip no_shootdown 0x1000 1 7 wit_join 1 (start_running 1 wit_thread) 2 2 0xC0300000 55 0x8000 wit_joinable)
    as (next & k1 & k2 & E & _ & Hj & _ & Hv & Hn & _).
  exists next, k1, k2. split; [exact E|]. split; [exact Hj|]. split; [exact (Hv ltac:(lia))|exact Hn].
Defined.

(** Where the process of slot 2 has mapped the second page of the stack of its
    next thread, creation fails but leaves the first page mapped. *)
Definition wit_busy_map (m : Sh unit) : Sh unit :=
  m <| sh_mem := <[ 0x100000 := <[703%nat := 0x200007]> zero_page ]> (<[ 0x200000 := <[801%nat := 0x300007]> zero_page ]> (sh_mem m)) |>.
Definition wit_busy : Kern unit := on_sched wit_join (fun s => s <| memory := wit_busy_map (memory s) |>).

Lemma thread_create_busy_leaks :
  translate (vm_of (memory (k_sched wit_busy)) 0x100000) 0xAFF20000 = Ret None /\
  match sys_thread_create no_shootdown (64 * MIB) wit_busy 2 0x400000 0 with
  | Ret (r, k') => r = EBUSY /\ exists phys, translate (vm_of (memory (k_sched k')) 0x100000) 0xAFF20000 = Ret (Some phys)
  | Panic => False
  end.
Proof. split; [by vm_compute|]. vm_compute. split; [reflexivity|]. eexists. reflexivity. Qed.
