(* ===== verification/Tty.v ===== *)
(** * Terminals

    Model of [kernel/src/tty.rs]: the controlling terminals and their
    foreground process groups, the pseudo terminals with their two byte queues
    and reference counts, the line discipline, and the job control signals.
    Bytes are integers below 256; a queue is the list of its bytes, front
    first.  The state joins both tables with the kernel state of [Signal]. *)

From S2P Require Import Prelude Wait Frames Paging SharedPages Task Schedule Reap.
From S2P Require Import Pipe FileTable Signal.

Definition MAX_TTYS : Z := 16.
Definition MAX_PTYS : Z := 8.
Definition PTY_BUF : Z := 8192.
Definition CANON_BUF : Z := 1024.
Definition WOULD_BLOCK : Z := USIZE_MAX - 0x1001.

Record WinSize : Type := mkWin { rows : Z; cols : Z; xpixel : Z; ypixel : Z }.
#[global] Instance WinSize_eq_dec : EqDecision WinSize.
Proof. solve_decision. Defined.

Definition NCCS : nat := 19.
Definition VINTR : Z := 0.
Definition VQUIT : Z := 1.
Definition VERASE : Z := 2.
Definition VKILL : Z := 3.
Definition VEOF : Z := 4.
Definition VTIME : Z := 5.
Definition VMIN : Z := 6.
Definition VSUSP : Z := 10.

(** [default_cc] *)
Definition default_cc : list Z :=
  foldl (fun cc '(i, b) => <[Z.to_nat i := b]> cc) (replicate NCCS 0)
    [(VINTR, 0x03); (VQUIT, 0x1c); (VERASE, 0x7f); (VKILL, 0x15); (VEOF, 0x04); (VTIME, 0); (VMIN, 1); (VSUSP, 0x1a)].

Record TtyState : Type := mkTty { allocated : bool; session_id : Z; foreground_pgid : Z }.
#[global] Instance TtyState_eta : Eta TtyState := fun t => mkTty (allocated t) (session_id t) (foreground_pgid t).

(** [TtyState::empty] *)
Definition empty_tty : TtyState := mkTty false (-1) (-1).

Record Pty : Type := mkPty {
  p_tty_id : Z; to_master : list Z; to_slave : list Z; canonical_input : list Z; canonical_records : list Z;
  master_refs : Z; slave_refs : Z; canonical : bool; echo : bool; isig : bool; tostop : bool; eof_pending : bool;
  icrnl : bool; opost : bool; onlcr : bool; cc : list Z; p_winsize : WinSize
}.
#[global] Instance Pty_eta : Eta Pty := fun p =>
  mkPty (p_tty_id p) (to_master p) (to_slave p) (canonical_input p) (canonical_records p)
    (master_refs p) (slave_refs p) (canonical p) (echo p) (isig p) (tostop p) (eof_pending p)
    (icrnl p) (opost p) (onlcr p) (cc p) (p_winsize p).

(** [Pty::new] *)
Definition pty_new (tty : Z) : Pty :=
  mkPty tty [] [] [] [] 1 1 true true true false false true true true default_cc (mkWin 0 0 0 0).

Record TermiosState : Type := mkTermios {
  t_canonical : bool; t_echo : bool; t_isig : bool; t_tostop : bool; t_icrnl : bool; t_opost : bool; t_onlcr : bool;
  t_cc : list Z
}.
#[global] Instance TermiosState_eta : Eta TermiosState := fun t =>
  mkTermios (t_canonical t) (t_echo t) (t_isig t) (t_tostop t) (t_icrnl t) (t_opost t) (t_onlcr t) (t_cc t).

(** ** One pseudo terminal *)

(** The loop that appends bytes to a queue until the queue is full, counting
    the bytes it queued. *)
Fixpoint fill (q l : list Z) (queued : Z) : list Z * Z :=
  match l with
  | [] => (q, queued)
  | b :: l => if PTY_BUF <=? zlen q then (q, queued) else fill (q ++ [b]) l (queued + 1)
  end.

(** [queue_echo] *)
Definition queue_echo (p : Pty) (bytes : list Z) : Pty :=
  if echo p then p <| to_master := (fill (to_master p) bytes 0).1 |> else p.

(** [commit_canonical] *)
Definition commit_canonical (p : Pty) : Pty :=
  let '(q, queued) := fill (to_slave p) (canonical_input p) 0 in
  let p := p <| canonical_input := [] |> <| to_slave := q |> in
  if queued =? 0 then p else p <| canonical_records := canonical_records p ++ [queued] |>.

(** [pty.cc[i]] *)
Definition cc_at (p : Pty) (i : Z) : Z := default 0 (get (cc p) i).

(** The three signal characters of [master_input_byte]. *)
Definition is_intr (p : Pty) (b : Z) : bool := isig p && (b =? cc_at p VINTR) && negb (b =? 0).
Definition is_quit (p : Pty) (b : Z) : bool := isig p && (b =? cc_at p VQUIT) && negb (b =? 0).
Definition is_susp (p : Pty) (b : Z) : bool := isig p && (b =? cc_at p VSUSP) && negb (b =? 0).

(** The canonical branch of [master_input_byte]. *)
Definition canonical_byte (p : Pty) (b : Z) : Pty :=
  if (b =? cc_at p VERASE) || ((cc_at p VERASE =? 0x7f) && (b =? 0x08)) then
    match vec_pop (canonical_input p) with
    | Some (_, l) => queue_echo (p <| canonical_input := l |>) [0x08; 0x20; 0x08]
    | None => p
    end
  else if (b =? cc_at p VKILL) && negb (b =? 0) then
    match canonical_input p with
    | [] => p
    | _ => queue_echo (p <| canonical_input := [] |>) [0x5e; 0x55; 0x0d; 0x0a]
    end
  else if (b =? cc_at p VEOF) && negb (b =? 0) then
    match canonical_input p with
    | [] => p <| eof_pending := true |>
    | _ => commit_canonical p
    end
  else
    let p := if zlen (canonical_input p) <? CANON_BUF
             then queue_echo (p <| canonical_input := canonical_input p ++ [b] |>) [b] else p in
    if b =? 0x0a then commit_canonical p else p.

(** [master_input_byte]: the terminal and the signal it raises, if any. *)
Definition master_input_byte (p : Pty) (b : Z) : Pty * option (Z * Z) :=
  if is_intr p b then (queue_echo (p <| canonical_input := [] |>) [0x5e; 0x43; 0x0d; 0x0a], Some (p_tty_id p, SIGINT)) else
  if is_quit p b then (queue_echo (p <| canonical_input := [] |>) [0x5e; 0x5c; 0x0d; 0x0a], Some (p_tty_id p, SIGQUIT)) else
  if is_susp p b then (queue_echo (p <| canonical_input := [] |>) [0x5e; 0x5a; 0x0d; 0x0a], Some (p_tty_id p, SIGTSTP)) else
  let b := if icrnl p && (b =? 0x0d) then 0x0a else b in
  if canonical p then (canonical_byte p b, None)
  else if zlen (to_slave p) <? PTY_BUF
  then (queue_echo (p <| to_slave := to_slave p ++ [b] |>) [b], None)
  else (p, None).

(** The slave branch of [write]: output post-processing.  The second component
    tells whether the byte was taken. *)
Definition slave_output_byte (p : Pty) (b : Z) : Pty * bool :=
  if opost p && onlcr p && (b =? 0x0a) then
    if PTY_BUF <? saturating_add 32 (zlen (to_master p)) 2 then (p, false)
    else (p <| to_master := to_master p ++ [0x0d; 0x0a] |>, true)
  else if PTY_BUF <=? zlen (to_master p) then (p, false)
  else (p <| to_master := to_master p ++ [b] |>, true).

(** The read of one canonical record in [try_read_inner] with room for [len]
    bytes: at most the rest of the front record, whose size is reduced. *)
Definition read_record (p : Pty) (len remaining : Z) : list Z * Pty :=
  let limit := Z.min len remaining in
  let out := take (Z.to_nat limit) (to_slave p) in
  let n := zlen out in
  let p := p <| to_slave := drop (Z.to_nat limit) (to_slave p) |> in
  (out,
   if n =? remaining then p <| canonical_records := tail (canonical_records p) |>
   else p <| canonical_records := match canonical_records p with
                                  | front :: l => saturating_sub front n :: l
                                  | [] => []
                                  end |>).

(** [try_read_inner] on a terminal: the bytes read, end of file, and the
    terminal afterwards. *)
Definition read_pty (p : Pty) (side : PtySide) (len : Z) : list Z * bool * Pty :=
  match side with
  | Slave =>
      if canonical p then
        match canonical_records p with
        | [] => if eof_pending p then ([], true, p <| eof_pending := false |>) else ([], master_refs p =? 0, p)
        | remaining :: _ => let '(out, p) := read_record p len remaining in (out, false, p)
        end
      else
        (take (Z.to_nat len) (to_slave p), negb (0 <? master_refs p), p <| to_slave := drop (Z.to_nat len) (to_slave p) |>)
  | Master =>
      (take (Z.to_nat len) (to_master p), negb (0 <? slave_refs p), p <| to_master := drop (Z.to_nat len) (to_master p) |>)
  end.

(** The master's last close: a pending unterminated line is released. *)
Definition hang_up (p : Pty) : Pty :=
  match canonical_input p with [] => p | _ => commit_canonical p end.

(** [close_ref] on a terminal; the flag tells whether the terminal hangs up. *)
Definition drop_ref (p : Pty) (side : PtySide) : Pty * bool :=
  match side with
  | Master =>
      let was_open := negb (master_refs p =? 0) in
      let p := p <| master_refs := saturating_sub (master_refs p) 1 |> in
      if was_open && (master_refs p =? 0) && negb (slave_refs p =? 0) then (hang_up p, true) else (p, false)
  | Slave => (p <| slave_refs := saturating_sub (slave_refs p) 1 |>, false)
  end.

(** [add_ref] on a terminal *)
Definition take_ref (p : Pty) (side : PtySide) : Pty :=
  match side with
  | Master => p <| master_refs := saturating_add 16 (master_refs p) 1 |>
  | Slave => p <| slave_refs := saturating_add 16 (slave_refs p) 1 |>
  end.

(** [termios], [set_termios], [flush_input] on a terminal *)
Definition termios_of (p : Pty) : TermiosState :=
  mkTermios (canonical p) (echo p) (isig p) (tostop p) (icrnl p) (opost p) (onlcr p) (cc p).
Definition release_raw (p : Pty) : Pty :=
  p <| canonical_records := [] |> <| to_slave := (fill (to_slave p) (canonical_input p) 0).1 |>
    <| canonical_input := [] |> <| eof_pending := false |>.
Definition apply_termios (p : Pty) (t : TermiosState) : Pty :=
  let was_canonical := canonical p in
  let p := p <| canonical := t_canonical t |> <| echo := t_echo t |> <| isig := t_isig t |> <| tostop := t_tostop t |>
             <| icrnl := t_icrnl t |> <| opost := t_opost t |> <| onlcr := t_onlcr t |> <| cc := t_cc t |> in
  if was_canonical && negb (t_canonical t) then release_raw p else p.
Definition flush_pty (p : Pty) : Pty :=
  p <| to_slave := [] |> <| canonical_input := [] |> <| canonical_records := [] |> <| eof_pending := false |>.

(** ** The tables *)

Section Terminals.
  Context {F : Type} `{!FileStore F}.

(** [TTYS], [PTYS] and the kernel state that signals act on. *)
Record Terminals : Type := mkTerms { TTYS : list TtyState; PTYS : list (option Pty); t_kern : Kern F }.
#[global] Instance Terminals_eta : Eta Terminals := fun s => mkTerms (TTYS s) (PTYS s) (t_kern s).

Implicit Types (s : Terminals) (k : Kern F) (p : Pty).

(** [table.slots.get(id).and_then(|p| p.as_ref())] *)
Definition pty_at s (id : Z) : option Pty := mjoin (get (PTYS s) id).
Definition put_pty s (id : Z) (o : option Pty) : Terminals := s <| PTYS := <[Z.to_nat id := o]> (PTYS s) |>.
Definition put_tty s (id : Z) (t : TtyState) : Terminals := s <| TTYS := <[Z.to_nat id := t]> (TTYS s) |>.
Definition sched_of s : Sched F := k_sched (t_kern s).
Definition tty_tasks s (f : Sched F -> Sched F) : Terminals :=
  s <| t_kern := t_kern s <| k_sched := f (k_sched (t_kern s)) |> |>.

(** *** Signals *)

(** The handler [signal_group] looks up for a slot. *)
Definition group_handler (sc : Sched F) (slot sig : Z) : outcome Z :=
  o ← idx (tasks sc) slot;
  match o with Some t => idx (signal_handlers t) (sig - 1) | None => Ret SIG_DFL end.

Definition on_sched_res k (r : outcome (bool * Sched F)) : outcome (bool * Kern F) :=
  '(b, sc) ← r; Ret (b, k <| k_sched := sc |>).

(** The body of the loop of [signal_group]. *)
Definition signal_slot_group (sig : Z) k (slot : Z) : outcome (Kern F) :=
  if sig =? SIGSTOP then '(_, k) ← on_sched_res k (stop_task (k_sched k) slot); Ret k else
  if (sig =? SIGTSTP) || (sig =? SIGTTIN) || (sig =? SIGTTOU) then
    handler ← group_handler (k_sched k) slot sig;
    if handler =? SIG_IGN then Ret k else
    if handler =? SIG_DFL then '(_, k) ← on_sched_res k (stop_task_with_signal (k_sched k) slot sig); Ret k
    else '(_, k) ← on_sched_res k (send_signal (k_sched k) slot sig); Ret k
  else if sig =? SIGCONT then
    handler ← group_handler (k_sched k) slot sig;
    '(resumed, k) ← on_sched_res k (continue_task (k_sched k) slot);
    if resumed && negb (handler =? SIG_DFL) && negb (handler =? SIG_IGN)
    then '(_, k) ← on_sched_res k (send_signal (k_sched k) slot sig); Ret k
    else Ret k
  else if sig =? SIGKILL then '(_, k) ← force_kill k slot sig; Ret k
  else '(_, k) ← on_sched_res k (send_signal (k_sched k) slot sig); Ret k.

Fixpoint signal_slots_group (sig : Z) k (l : list Z) : outcome (Kern F) :=
  match l with
  | [] => Ret k
  | slot :: l => k ← signal_slot_group sig k slot; signal_slots_group sig k l
  end.

(** [signal_group] *)
Definition signal_group k (g sig : Z) : outcome (Kern F) :=
  signal_slots_group sig k (slots_in_pgid (k_sched k) g).

(** [foreground_for_tty], [signal_foreground] *)
Definition foreground_for_tty s (tty : Z) : option Z :=
  t ← get (TTYS s) tty; if allocated t then Some (foreground_pgid t) else None.
Definition signal_foreground s (tty sig : Z) : outcome Terminals :=
  match foreground_for_tty s tty with
  | None => Ret s
  | Some g => k ← signal_group (t_kern s) g sig; Ret (s <| t_kern := k |>)
  end.

(** *** Controlling terminals *)

Definition set_task_tty s (slot id : Z) : Terminals :=
  tty_tasks s (fun sc => on_task sc slot (fun t => t <| Task.tty_id := id |>)).

(** [ensure_controlling_tty] *)
Definition ensure_controlling_tty s (slot : Z) : outcome (option Z * Terminals) :=
  if MAX_TASKS <=? slot then Ret (None, s) else
  o ← idx (tasks (sched_of s)) slot;
  match o with
  | None => Ret (None, s)
  | Some t =>
      if 0 <=? Task.tty_id t then Ret (Some (Task.tty_id t), s) else
      if sid t <=? 0 then Ret (None, s) else
      match vec_position (fun tty => allocated tty && (session_id tty =? sid t)) (TTYS s) with
      | Some id => Ret (Some id, set_task_tty s slot id)
      | None =>
          match vec_position (fun tty => negb (allocated tty)) (TTYS s) with
          | Some id => Ret (Some id, set_task_tty (put_tty s id (mkTty true (sid t) (pgid t))) slot id)
          | None => Ret (None, s)
          end
      end
  end.

(** [TASK_MANAGER.tasks.iter().flatten().any(..)]: a live member of the group
    in the session. *)
Definition group_exists (sc : Sched F) (g session : Z) : bool :=
  existsb (fun o => match o with Some t => negb (zombie t) && (pgid t =? g) && (sid t =? session) | None => false end)
    (tasks sc).

(** [set_foreground], [foreground], [tty_of_task] *)
Definition set_foreground s (slot g : Z) : outcome (bool * Terminals) :=
  if g <=? 0 then Ret (false, s) else
  '(o, s) ← ensure_controlling_tty s slot;
  match o with
  | None => Ret (false, s)
  | Some id =>
      t ← idx (tasks (sched_of s)) slot;
      match t with
      | None => Ret (false, s)
      | Some t =>
          if negb (group_exists (sched_of s) g (sid t)) then Ret (false, s) else
          tty ← idx (TTYS s) id;
          if negb (allocated tty) || negb (session_id tty =? sid t) then Ret (false, s)
          else Ret (true, put_tty s id (tty <| foreground_pgid := g |>))
      end
  end.
Definition foreground s (slot : Z) : outcome (option Z * Terminals) :=
  '(o, s) ← ensure_controlling_tty s slot;
  Ret (id ← o; foreground_for_tty s id, s).
Definition tty_of_task s (slot : Z) : outcome (option Z * Terminals) := ensure_controlling_tty s slot.

(** [foreground_pty], [set_foreground_pty] *)
Definition foreground_pty s (id : Z) : option Z := p ← pty_at s id; foreground_for_tty s (p_tty_id p).
Definition set_foreground_pty s (slot id g : Z) : outcome (bool * Terminals) :=
  if (g <=? 0) || (MAX_TASKS <=? slot) then Ret (false, s) else
  match pty_at s id with
  | None => Ret (false, s)
  | Some p =>
      o ← idx (tasks (sched_of s)) slot;
      match o with
      | None => Ret (false, s)
      | Some caller =>
          if negb (group_exists (sched_of s) g (sid caller)) then Ret (false, s) else
          match get (TTYS s) (p_tty_id p) with
          | None => Ret (false, s)
          | Some tty =>
              if negb (allocated tty) || negb (session_id tty =? sid caller) then Ret (false, s)
              else Ret (true, put_tty s (p_tty_id p) (tty <| foreground_pgid := g |>))
          end
      end
  end.

(** *** Pseudo terminals *)

(** [alloc_pty] *)
Definition alloc_pty s (slot : Z) : outcome (option Z * Terminals) :=
  '(o, s) ← ensure_controlling_tty s slot;
  match o, task_at (sched_of s) slot with
  | Some _, Some t =>
      if sid t <=? 0 then Ret (None, s) else
      match vec_position (fun tty => negb (allocated tty)) (TTYS s) with
      | None => Ret (None, s)
      | Some tty =>
          let s := put_tty s tty (mkTty true (sid t) (pgid t)) in
          match vec_position (fun o => match o with None => true | Some _ => false end) (PTYS s) with
          | Some id => Ret (Some id, put_pty s id (Some (pty_new tty)))
          | None => Ret (None, put_tty s tty empty_tty)
          end
      end
  | _, _ => Ret (None, s)
  end.

(** [pty_tty_id], [winsize], [set_winsize], [add_ref] *)
Definition pty_tty_id s (id : Z) : option Z := p_tty_id <$> pty_at s id.
Definition winsize s (id : Z) : option WinSize := p_winsize <$> pty_at s id.
Definition set_winsize s (id : Z) (w : WinSize) : outcome (bool * Terminals) :=
  match pty_at s id with
  | None => Ret (false, s)
  | Some p =>
      let s := put_pty s id (Some (p <| p_winsize := w |>)) in
      if bool_decide (p_winsize p = w) then Ret (true, s)
      else s ← signal_foreground s (p_tty_id p) SIGWINCH; Ret (true, s)
  end.
Definition add_ref s (id : Z) (side : PtySide) : bool * Terminals :=
  match pty_at s id with
  | None => (false, s)
  | Some p => (true, put_pty s id (Some (take_ref p side)))
  end.

(** [close_ref] *)
Definition close_ref s (id : Z) (side : PtySide) : outcome Terminals :=
  match pty_at s id with
  | None => Ret s
  | Some p =>
      let '(p', hangup) := drop_ref p side in
      let s := if (master_refs p' =? 0) && (slave_refs p' =? 0)
               then put_tty (put_pty s id None) (p_tty_id p) empty_tty
               else put_pty s id (Some p') in
      if hangup then
        s ← signal_foreground s (p_tty_id p) SIGHUP;
        signal_foreground s (p_tty_id p) SIGCONT
      else Ret s
  end.

(** [readable], [writable] *)
Definition readable s (id : Z) (side : PtySide) : bool :=
  match pty_at s id with
  | None => false
  | Some p =>
      match side with
      | Master => negb (zlen (to_master p) =? 0) || (slave_refs p =? 0)
      | Slave =>
          if canonical p then negb (zlen (canonical_records p) =? 0) || eof_pending p || (master_refs p =? 0)
          else negb (zlen (to_slave p) =? 0) || (master_refs p =? 0)
      end
  end.
Definition writable s (id : Z) (side : PtySide) : bool :=
  match pty_at s id with
  | None => false
  | Some p =>
      match side with
      | Master => (0 <? slave_refs p) && (zlen (to_slave p) <? PTY_BUF)
      | Slave => (0 <? master_refs p) && (zlen (to_master p) <? PTY_BUF)
      end
  end.

(** [try_read_inner] *)
Definition try_read_inner s (id : Z) (side : PtySide) (len : Z) : list Z * bool * Terminals :=
  match pty_at s id with
  | None => ([], true, s)
  | Some p => let '(out, eof, p) := read_pty p side len in (out, eof, put_pty s id (Some p))
  end.

(** [background_slave_group] *)
Definition background_slave_group s (slot id : Z) : option Z :=
  p ← pty_at s id;
  t ← task_at (sched_of s) slot;
  fg ← foreground_for_tty s (p_tty_id p);
  if (0 <? pgid t) && negb (pgid t =? fg) then Some (pgid t) else None.

(** [check_background] of [read] *)
Definition check_background s (slot id : Z) (side : PtySide) : outcome (bool * Terminals) :=
  match side with
  | Master => Ret (false, s)
  | Slave =>
      match background_slave_group s slot id with
      | Some g => k ← signal_group (t_kern s) g SIGTTIN; Ret (true, s <| t_kern := k |>)
      | None => Ret (false, s)
      end
  end.

(** [termios], [set_termios], [flush_input], [mode], [set_mode] *)
Definition termios s (id : Z) : option TermiosState := termios_of <$> pty_at s id.
Definition set_termios s (id : Z) (t : TermiosState) : bool * Terminals :=
  match pty_at s id with
  | None => (false, s)
  | Some p => (true, put_pty s id (Some (apply_termios p t)))
  end.
Definition flush_input s (id : Z) : bool * Terminals :=
  match pty_at s id with
  | None => (false, s)
  | Some p => (true, put_pty s id (Some (flush_pty p)))
  end.
Definition mode s (id : Z) : option (bool * bool * bool) :=
  t ← termios s id; Some (t_canonical t, t_echo t, t_isig t).
Definition set_mode s (id : Z) (canon ech sig : bool) : bool * Terminals :=
  match termios s id with
  | None => (false, s)
  | Some t => set_termios s id (t <| t_canonical := canon |> <| t_echo := ech |> <| t_isig := sig |>)
  end.

(** The last part of [read]: input that is not canonical, waited for by count
    and time.  [now], [now'] and [now''] are the three readings of the clock.
    The loop of the source returns in its first pass on every branch. *)
Definition read_timed s (slot id : Z) (side : PtySide) (len vmin vtime_ms now now' now'' : Z)
    : outcome (Z * list Z * Terminals) :=
  let deadline := if (vmin =? 0) && negb (vtime_ms =? 0) then Some (saturating_add 64 now vtime_ms) else None in
  '(bg, s) ← check_background s slot id side;
  if bg : bool then Ret (USIZE_MAX, [], s) else
  let '(out, eof, s) := try_read_inner s id side len in
  let total := zlen out in
  if (0 <? total) && ((vmin =? 0) || (vmin <=? total) || (total =? len)) then Ret (total, out, s) else
  let deadline := if (0 <? total) && negb (vtime_ms =? 0) then Some (saturating_add 64 now' vtime_ms) else deadline in
  if eof : bool then Ret (total, out, s) else
  if match deadline with Some e => e <=? now'' | None => false end then Ret (total, out, s)
  else Ret (if total =? 0 then WOULD_BLOCK else total, out, s).

(** [read] into a buffer of [len] bytes *)
Definition read s (slot id : Z) (side : PtySide) (len : Z) (nonblock : bool) (now now' now'' : Z)
    : outcome (Z * list Z * Terminals) :=
  if len =? 0 then Ret (0, [], s) else
  '(bg, s) ← check_background s slot id side;
  if bg : bool then Ret (USIZE_MAX, [], s) else
  let term := match side with Slave => termios s id | Master => None end in
  match term with
  | Some t =>
      if t_canonical t then
        '(bg, s) ← check_background s slot id side;
        if bg : bool then Ret (USIZE_MAX, [], s) else
        let '(out, eof, s) := try_read_inner s id side len in
        if (0 <? zlen out) || eof || nonblock then Ret (zlen out, out, s) else Ret (WOULD_BLOCK, out, s)
      else if nonblock then let '(out, _, s) := try_read_inner s id side len in Ret (zlen out, out, s) else
      let vmin := Z.min (default 0 (get (t_cc t) VMIN)) len in
      let vtime_ms := default 0 (get (t_cc t) VTIME) * 100 in
      if (vmin =? 0) && (vtime_ms =? 0)
      then let '(out, _, s) := try_read_inner s id side len in Ret (zlen out, out, s)
      else read_timed s slot id side len vmin vtime_ms now now' now''
  | None =>
      '(bg, s) ← check_background s slot id side;
      if bg : bool then Ret (USIZE_MAX, [], s) else
      let '(out, eof, s) := try_read_inner s id side len in
      if (0 <? zlen out) || eof || nonblock then Ret (zlen out, out, s) else Ret (WOULD_BLOCK, out, s)
  end.

(** The body of the loop of [write] on one byte: [None] when the other side is
    closed, otherwise the terminal, the signal raised, and whether the byte was
    taken. *)
Definition write_byte p (side : PtySide) (b : Z) : option (Pty * option (Z * Z) * bool) :=
  match side with
  | Master =>
      if slave_refs p =? 0 then None else
      let '(p', sig) := master_input_byte p b in
      let taken := match sig with Some _ => true | None => canonical p' || (zlen (to_slave p) <? zlen (to_slave p')) end in
      Some (p', sig, taken)
  | Slave =>
      if master_refs p =? 0 then None else
      let '(p', taken) := slave_output_byte p b in Some (p', None, taken)
  end.

(** The loop of [write] *)
Fixpoint write_loop s (id : Z) (side : PtySide) (data : list Z) (nonblock : bool) (written : Z) : outcome (Z * Terminals) :=
  match data with
  | [] => Ret (written, s)
  | b :: data =>
      match p ← pty_at s id; write_byte p side b with
      | None => Ret (written, s)
      | Some (p, pending, progressed) =>
          let s := put_pty s id (Some p) in
          s ← match pending with Some (tty, sig) => signal_foreground s tty sig | None => Ret s end;
          if progressed : bool then write_loop s id side data nonblock (written + 1) else
          if nonblock then Ret (written, s) else
          Ret (if written =? 0 then WOULD_BLOCK else written, s)
      end
  end.

(** [write] *)
Definition write s (slot id : Z) (side : PtySide) (data : list Z) (nonblock : bool) : outcome (Z * Terminals) :=
  match match side, pty_at s id with
        | Slave, Some p => if tostop p then background_slave_group s slot id else None
        | _, _ => None
        end with
  | Some g => k ← signal_group (t_kern s) g SIGTTOU; Ret (USIZE_MAX, s <| t_kern := k |>)
  | None => write_loop s id side data nonblock 0
  end.

End Terminals.
Arguments Terminals : clear implicits.

(** ** Well-formed terminals *)

Definition byte (b : Z) : Prop := 0 <= b < 256.
Definition total (l : list Z) : Z := foldr Z.add 0 l.

(** The type invariant of a pseudo terminal: bounded queues of bytes, positive
    record sizes that never exceed the bytes queued, counters of 16 bits that
    are not both zero, and no trace of line editing in raw mode. *)
Record pty_ok (p : Pty) : Prop := {
  po_master : zlen (to_master p) <= PTY_BUF;
  po_slave : zlen (to_slave p) <= PTY_BUF;
  po_input : zlen (canonical_input p) <= CANON_BUF;
  po_records : Forall (Z.lt 0) (canonical_records p);
  po_total : total (canonical_records p) <= zlen (to_slave p);
  po_refs : in_u 16 (master_refs p) /\ in_u 16 (slave_refs p);
  po_open : master_refs p <> 0 \/ slave_refs p <> 0;
  po_raw : canonical p = false -> canonical_records p = [] /\ canonical_input p = [] /\ eof_pending p = false;
  po_cc : length (cc p) = NCCS /\ Forall byte (cc p);
  po_bytes : Forall byte (to_master p) /\ Forall byte (to_slave p) /\ Forall byte (canonical_input p)
}.

Section PtyProofs.
Implicit Types p : Pty.

Lemma fill_eq l : forall q n, zlen q <= PTY_BUF -> let room := Z.to_nat (PTY_BUF - zlen q) in
  fill q l n = (q ++ take room l, n + zlen (take room l)).
Proof.
  induction l as [|b l IH]; intros q n Hq; simpl.
  - rewrite take_nil, app_nil_r. f_equal. unfold zlen. simpl. lia.
  - destruct (Z.leb_spec PTY_BUF (zlen q)) as [Hge|Hlt].
    + replace (Z.to_nat (PTY_BUF - zlen q)) with 0%nat by lia. rewrite app_nil_r. f_equal. unfold zlen. simpl. lia.
    + rewrite IH by (rewrite zlen_app, zlen_cons; unfold zlen at 2; simpl; lia).
      rewrite zlen_app. change (zlen [b]) with 1.
      replace (Z.to_nat (PTY_BUF - zlen q)) with (S (Z.to_nat (PTY_BUF - (zlen q + 1)))) by lia.
      cbn [take]. rewrite zlen_cons, <- app_assoc. f_equal. lia.
Qed.

Lemma zlen_take {A} n (l : list A) : zlen (take n l) = Z.min (Z.of_nat n) (zlen l).
Proof. unfold zlen. rewrite length_take. lia. Qed.

Lemma zlen_drop {A} n (l : list A) : zlen (drop n l) = Z.max 0 (zlen l - Z.of_nat n).
Proof. unfold zlen. rewrite length_drop. lia. Qed.

Lemma total_records_app l k : total (l ++ k) = total l + total k.
Proof. induction l as [|a l IH]; simpl; [done|]. rewrite IH. lia. Qed.

Lemma echo_ok p l : pty_ok p -> Forall byte l -> pty_ok (queue_echo p l).
Proof.
  intros [] Hl. unfold queue_echo. destruct (echo p); [|done]. rewrite fill_eq by done.
  constructor; try done; simpl.
  - rewrite zlen_app, zlen_take. lia.
  - destruct po_bytes0 as (? & ? & ?). split_and!; [|done..]. apply Forall_app. split; [done|by apply Forall_take].
Qed.

Lemma commit_ok p : pty_ok p -> canonical p = true -> pty_ok (commit_canonical p).
Proof.
  intros [] Hcan. unfold commit_canonical. rewrite fill_eq by done.
  pose proof (zlen_nonneg (take (Z.to_nat (PTY_BUF - zlen (to_slave p))) (canonical_input p))) as Hnn.
  destruct po_bytes0 as (? & ? & ?).
  assert (Forall byte (to_slave p ++ take (Z.to_nat (PTY_BUF - zlen (to_slave p))) (canonical_input p)))
    by (apply Forall_app; split; [done|by apply Forall_take]).
  destruct (Z.eqb_spec (0 + zlen (take (Z.to_nat (PTY_BUF - zlen (to_slave p))) (canonical_input p))) 0).
  all: constructor; try done; simpl; try (rewrite zlen_app; try rewrite zlen_take in *; lia); try congruence.
  - apply Forall_app. split; [done|]. apply Forall_singleton. lia.
  - rewrite total_records_app, zlen_app. simpl. lia.
Qed.

(** Changing only the line being edited. *)
Lemma edit_ok p l : pty_ok p -> canonical p = true -> zlen l <= CANON_BUF -> Forall byte l -> pty_ok (p <| canonical_input := l |>).
Proof. intros [] Hc Hl Hb. constructor; try done; simpl; [congruence|naive_solver]. Qed.

Ltac bytes := repeat constructor; done.

Lemma input_ok p b : pty_ok p -> byte b -> pty_ok (canonical_byte p b) \/ canonical p = false.
Proof.
  intros Hp Hb. destruct (canonical p) eqn:Hcan; [left|by right]. unfold canonical_byte.
  pose proof (po_input _ Hp) as Hi. destruct (po_bytes _ Hp) as (_ & _ & Hib).
  destruct ((b =? _) || _).
  { destruct (vec_pop (canonical_input p)) as [[x l]|] eqn:Hpop; [|done]. apply vec_pop_Some in Hpop. rewrite Hpop in Hi, Hib.
    rewrite zlen_app in Hi. apply Forall_app in Hib as [Hib _]. pose proof (zlen_nonneg [x]).
    apply echo_ok; [apply edit_ok; [done..|lia|done]|bytes]. }
  destruct (_ && _).
  { destruct (canonical_input p); [done|]. apply echo_ok; [|bytes]. by apply edit_ok. }
  destruct (_ && _).
  { destruct (canonical_input p); [|by apply commit_ok]. destruct Hp. constructor; try done. simpl. congruence. }
  assert (forall q, pty_ok q -> canonical q = true -> pty_ok (if b =? 0x0a then commit_canonical q else q)) as Hend.
  { intros q Hq Hcq. destruct (_ =? _); [by apply commit_ok|done]. }
  apply Hend.
  - destruct (Z.ltb_spec (zlen (canonical_input p)) CANON_BUF); [|done]. apply echo_ok; [|by apply Forall_singleton].
    apply edit_ok; [done..| |]. { rewrite zlen_app. change (zlen [b]) with 1. lia. }
    apply Forall_app. split; [done|by apply Forall_singleton].
  - destruct (_ <? _); [|done]. unfold queue_echo. simpl. by destruct (echo p).
Qed.
(** What every operation on an open terminal leaves: a well-formed terminal on
    the same controlling terminal. *)
Definition becomes p p' : Prop := pty_ok p' /\ p_tty_id p' = p_tty_id p.

Lemma echo_tty p l : p_tty_id (queue_echo p l) = p_tty_id p.
Proof. unfold queue_echo. by destruct (echo p). Qed.
Lemma commit_tty p : p_tty_id (commit_canonical p) = p_tty_id p.
Proof. unfold commit_canonical. destruct (fill _ _ _) as [q n]. by destruct (n =? 0). Qed.
Lemma canonical_tty p b : p_tty_id (canonical_byte p b) = p_tty_id p.
Proof.
  unfold canonical_byte. destruct (_ || _); [destruct (vec_pop _) as [[]|]; by rewrite ?echo_tty|].
  destruct (_ && _); [destruct (canonical_input p); by rewrite ?echo_tty|].
  destruct (_ && _); [destruct (canonical_input p); by rewrite ?commit_tty|].
  destruct (b =? 0x0a), (zlen (canonical_input p) <? CANON_BUF); by rewrite ?commit_tty, ?echo_tty.
Qed.

Lemma clear_input_ok p l : pty_ok p -> Forall byte l -> becomes p (queue_echo (p <| canonical_input := [] |>) l).
Proof.
  intros Hp Hl. split; [|by rewrite echo_tty]. apply echo_ok; [|done].
  destruct Hp. constructor; try done; simpl; naive_solver.
Qed.

Lemma master_input_ok p b : pty_ok p -> byte b ->
  becomes p (master_input_byte p b).1 /\
  forall tty sig, (master_input_byte p b).2 = Some (tty, sig) -> tty = p_tty_id p /\ sig ∈ [SIGINT; SIGQUIT; SIGTSTP].
Proof.
  intros Hp Hb. unfold master_input_byte.
  do 3 (destruct (_ p b); [split; [apply clear_input_ok; [done|bytes]|intros tty sig [= <- <-]; split; [done|set_solver]]|]).
  set (c := if icrnl p && _ then _ else b). assert (byte c) as Hc by (unfold c; by destruct (_ && _)). clearbody c.
  destruct (canonical p) eqn:Hcan.
  { split; [|done]. simpl. destruct (input_ok p c Hp Hc); [|congruence]. split; [done|apply canonical_tty]. }
  destruct (Z.ltb_spec (zlen (to_slave p)) PTY_BUF); [|done]. split; [|done]. simpl. split; [|by rewrite echo_tty].
  apply echo_ok; [|by apply Forall_singleton]. destruct Hp. destruct po_bytes0 as (? & ? & ?).
  assert (zlen [c] = 1) by done.
  constructor; try done; simpl; rewrite ?zlen_app; [lia..|]. split_and!; [done| |done].
  apply Forall_app. split; [done|by apply Forall_singleton].
Qed.

Lemma slave_output_ok p b : pty_ok p -> byte b -> becomes p (slave_output_byte p b).1.
Proof.
  intros Hp Hb. split; [|unfold slave_output_byte; destruct (_ && _); [by destruct (_ <? _)|by destruct (_ <=? _)]].
  assert (forall l, zlen (to_master p) + zlen l <= PTY_BUF -> Forall byte l -> pty_ok (p <| to_master := to_master p ++ l |>)) as Hpush.
  { intros l Hl Hbl. destruct Hp. destruct po_bytes0 as (? & ? & ?). constructor; try done; simpl; rewrite ?zlen_app; [lia|].
    split_and!; [|done..]. by apply Forall_app. }
  unfold slave_output_byte. destruct (_ && _).
  - destruct (Z.ltb_spec PTY_BUF (saturating_add 32 (zlen (to_master p)) 2)) as [|Hle]; [done|]. apply Hpush; [|bytes].
    change (zlen [13; 10]) with 2. unfold saturating_add, PTY_BUF in *. lia.
  - destruct (Z.leb_spec PTY_BUF (zlen (to_master p))); [done|]. apply Hpush; [|by apply Forall_singleton].
    change (zlen [b]) with 1. lia.
Qed.

(** The front record on a well-formed terminal is all there. *)
Lemma read_record_eq p len r l : pty_ok p -> canonical_records p = r :: l -> 0 <= len ->
  let n := Z.min len r in
  read_record p len r = (take (Z.to_nat n) (to_slave p),
    p <| to_slave := drop (Z.to_nat n) (to_slave p) |>
      <| canonical_records := if n =? r then l else (r - n) :: l |>).
Proof.
  intros Hp Hr Hl n. pose proof (po_total _ Hp) as Ht. pose proof (po_records _ Hp) as Hpos. rewrite Hr in Ht, Hpos. simpl in Ht.
  apply Forall_cons in Hpos as [Hpos Hrest].
  assert (0 <= total l) by (clear -Hrest; induction Hrest; simpl; lia).
  unfold read_record. fold n. assert (zlen (take (Z.to_nat n) (to_slave p)) = n) as -> by (rewrite zlen_take; lia).
  simpl. rewrite Hr. destruct (n =? r); [done|]. unfold saturating_sub. by rewrite Z.max_l by lia.
Qed.

Lemma drain_ok p n : pty_ok p -> canonical p = false -> becomes p (p <| to_slave := drop n (to_slave p) |>).
Proof.
  intros [] Hraw. split; [|done]. destruct (po_raw0 Hraw) as (Hr & _). destruct po_bytes0 as (? & ? & ?).
  constructor; try done; simpl; unfold PTY_BUF in *; rewrite ?zlen_drop, ?Hr; simpl; [lia..|]. split_and!; try done. by apply Forall_drop.
Qed.

Lemma record_ok p len r l : pty_ok p -> canonical_records p = r :: l -> 0 <= len -> becomes p (read_record p len r).2.
Proof.
  intros Hp Hr Hl. rewrite (read_record_eq p len r l) by done. split; [|done]. simpl. destruct Hp. rewrite Hr in *.
  apply Forall_cons in po_records0 as [Hpos Hrest]. simpl in *. destruct po_bytes0 as (? & ? & ?).
  assert (canonical p = true) as Hcan by (destruct (canonical p); [done|by destruct po_raw0]).
  constructor; try done; simpl; unfold PTY_BUF in *; rewrite ?zlen_drop.
  - lia.
  - destruct (Z.eqb_spec (Z.min len r) r); [done|]. constructor; [lia|done].
  - assert (0 <= total l) by (clear -Hrest; induction Hrest; simpl; lia).
    destruct (Z.eqb_spec (Z.min len r) r); simpl; lia.
  - congruence.
  - split_and!; [done|by apply Forall_drop|done].
Qed.

Lemma read_pty_ok p side len : pty_ok p -> 0 <= len -> becomes p (read_pty p side len).2.
Proof.
  intros Hp Hl. unfold read_pty. destruct side.
  - simpl. destruct Hp. destruct po_bytes0 as (? & ? & ?). split; [|done].
    constructor; try done; simpl; unfold PTY_BUF in *; rewrite ?zlen_drop; [lia|]. split_and!; try done. by apply Forall_drop.
  - destruct (canonical p) eqn:Hcan; [|by apply drain_ok]. destruct (canonical_records p) as [|r l] eqn:Hr.
    + destruct (eof_pending p); [|done]. split; [|done]. destruct Hp. constructor; try done. simpl. rewrite Hcan. done.
    + pose proof (record_ok p len r l Hp Hr Hl) as Hok. by destruct (read_record p len r).
Qed.

Lemma termios_ok p t : pty_ok p -> length (t_cc t) = NCCS -> Forall byte (t_cc t) -> becomes p (apply_termios p t).
Proof.
  intros [] Hl Hb. split; [|unfold apply_termios; by destruct (_ && _)]. destruct po_bytes0 as (? & ? & ?).
  unfold apply_termios. destruct (canonical p) eqn:Hcan, (t_canonical t) eqn:Hcan'; simpl.
  2: { unfold release_raw. simpl. rewrite fill_eq by done. constructor; try done; simpl; rewrite ?zlen_app, ?zlen_take.
       - lia.
       - pose proof (zlen_nonneg (to_slave p)). pose proof (zlen_nonneg (canonical_input p)). lia.
       - split_and!; [done| |constructor]. apply Forall_app. split; [done|by apply Forall_take]. }
  all: constructor; try done; simpl; rewrite ?Hcan'; naive_solver.
Qed.

Lemma flush_ok p : pty_ok p -> becomes p (flush_pty p).
Proof. intros []. split; [|done]. constructor; try done; simpl; try (by constructor). split_and!; [naive_solver|constructor..]. Qed.

Lemma take_ref_ok p side : pty_ok p -> becomes p (take_ref p side).
Proof.
  intros []. split; [|by destruct side]. unfold in_u in *. destruct side; constructor; try done; simpl; unfold in_u, saturating_add in *; lia.
Qed.

(** Dropping a reference leaves a well-formed terminal unless it was the last
    reference of both sides. *)
Lemma drop_ref_ok p side p' h : pty_ok p -> drop_ref p side = (p', h) ->
  (master_refs p' =? 0) && (slave_refs p' =? 0) = false -> becomes p p'.
Proof.
  intros Hp He Hopen.
  assert (forall q, q = p <| master_refs := saturating_sub (master_refs p) 1 |> \/ q = p <| slave_refs := saturating_sub (slave_refs p) 1 |> ->
    (master_refs q =? 0) && (slave_refs q =? 0) = false -> becomes p q) as Hdec.
  { intros q Hq Ho. apply andb_false_iff in Ho. rewrite !Z.eqb_neq in Ho. destruct Hp. unfold in_u, saturating_sub in *.
    destruct Hq as [-> | ->]; (split; [|done]); constructor; try done; simpl in *; unfold in_u; lia. }
  unfold drop_ref in He. destruct side; [|injection He as <- <-; apply Hdec; [by right|done]].
  destruct (_ && _) eqn:Hh; injection He as <- <-; [|apply Hdec; [by left|done]].
  unfold hang_up in *. simpl in *. destruct (canonical_input p) as [|x l] eqn:Hin; [apply Hdec; [by left|done]|].
  rewrite !andb_true_iff, !negb_true_iff in Hh. destruct Hh as [_ Hs]. simpl in Hs.
  destruct (Hdec (p <| master_refs := saturating_sub (master_refs p) 1 |>)) as [H1 H2]; [by left|simpl; by rewrite Hs, andb_false_r|].
  split; [|by rewrite commit_tty]. apply commit_ok; [done|]. simpl. destruct (canonical p) eqn:Hcan; [done|].
  destruct (po_raw _ Hp Hcan) as (_ & ? & _). congruence.
Qed.
End PtyProofs.

(** ** Signals to a process group *)

Section GroupProofs.
  Context {F : Type} `{!FileStore F}.
  Implicit Types (sc : Sched F) (k : Kern F) (t u : Task).

(** What a signal that does not kill leaves alone. *)
Definition ident t : Z * Z * Z * Z * bool * bool * Z * list Z :=
  (pid t, pgid t, sid t, leader_slot t, zombie t, thread_exited t, Task.tty_id t, signal_handlers t).
Definition same_ident sc sc' : Prop := forall j, ident <$> task_at sc' j = ident <$> task_at sc j.

Lemma ident_trans s1 s2 s3 : same_ident s1 s2 -> same_ident s2 s3 -> same_ident s1 s3.
Proof. intros H1 H2 j. by rewrite H2. Qed.

Lemma ident_at sc sc' j t : same_ident sc sc' -> task_at sc j = Some t -> exists t', task_at sc' j = Some t' /\ ident t' = ident t.
Proof. intros H Ht. specialize (H j). rewrite Ht in H. destruct (task_at sc' j) as [t'|]; [|done]. exists t'. split; [done|]. by apply (inj Some) in H. Qed.

Lemma ident_map sc f : (forall t, ident (f t) = ident t) -> same_ident sc (map_tasks f sc).
Proof. intros Hf j. rewrite map_tasks_at. destruct (task_at sc j); [simpl; by rewrite Hf|done]. Qed.

Lemma ident_on sc slot f : zlen (tasks sc) = 32 -> (forall t, ident (f t) = ident t) -> same_ident sc (on_task sc slot f).
Proof.
  intros Hl Hf j. rewrite on_task_at by done. destruct (j =? slot); [|done]. destruct (task_at sc j); [simpl; by rewrite Hf|done].
Qed.

Lemma ident_on_tasks l : forall sc f, zlen (tasks sc) = 32 -> (forall t, ident (f t) = ident t) -> same_ident sc (on_tasks l f sc).
Proof.
  induction l as [|a l IH]; intros sc f Hl Hf; [done|].
  change (on_tasks (a :: l) f sc) with (on_tasks l f (on_task sc a f)). eapply ident_trans; [by apply ident_on|].
  apply IH; [|done]. by rewrite (proj2 (on_task_frame sc a f)).
Qed.

Lemma ident_wake_if r t : ident (wake_if r t) = ident t.
Proof. unfold wake_if. by destruct (is_blocked_on r t). Qed.

Lemma ident_group sc leader f g : zlen (tasks sc) = 32 -> (forall t, ident (f t) = ident t) -> (forall t, ident (g t) = ident t) ->
  same_ident sc (group_update sc leader f g).
Proof.
  intros Hl Hf Hg. unfold group_update. eapply ident_trans; [by apply (ident_on_tasks (thread_slots sc leader) sc f)|].
  eapply ident_trans; [apply (ident_on _ leader g); [by rewrite (proj2 (on_tasks_frame _ _ _))|done]|].
  apply ident_map, ident_wake_if.
Qed.

Lemma ident_queue sig t : ident (queue_signal sig t) = ident t.
Proof. unfold queue_signal. simpl. by destruct (state t). Qed.
Lemma ident_stop t : ident (stop_member t) = ident t.
Proof. unfold stop_member. by destruct (thread_exited t). Qed.
Lemma ident_continue t : ident (continue_member t) = ident t.
Proof. unfold continue_member. by destruct (thread_exited t). Qed.
Lemma ident_latch b t : ident (latch_continue b t) = ident t.
Proof. by destruct b. Qed.
Lemma ident_zombie f : (forall t, ident (f t) = ident t) -> forall t, zombie (f t) = zombie t /\ leader_slot (f t) = leader_slot t.
Proof. intros Hf t. specialize (Hf t). unfold ident in Hf. by simplify_eq. Qed.

(** A leader in place: what [slots_in_pgid] lists. *)
Definition in_group sc (g j : Z) t : Prop := task_at sc j = Some t /\ pgid t = g /\ zombie t = false /\ leader_slot t = j.

Lemma slots_in_pgid_elem sc g j : j ∈ slots_in_pgid sc g <-> exists t, in_group sc g j t.
Proof.
  unfold slots_in_pgid, in_group. rewrite slots_where_elem. split; intros (t & Ht).
  - exists t. rewrite !andb_true_iff, negb_true_iff, !Z.eqb_eq in Ht. naive_solver.
  - exists t. rewrite !andb_true_iff, negb_true_iff, !Z.eqb_eq. naive_solver.
Qed.

Lemma leader_self sc g j t : in_group sc g j t -> process_slot sc j = j.
Proof. intros (Ht & _ & _ & Hl). unfold process_slot. rewrite Ht, Hl. by destruct (0 <=? j). Qed.

(** The three ways of signalling a process whose leader is in place. *)
Lemma send_in_group ex sc g j t sig : own_core ex sc -> in_group sc g j t -> 0 < sig <= 31 ->
  send_signal sc j sig = if j <=? 0 then Ret (false, sc) else Ret (true, on_task sc j (queue_signal sig)).
Proof.
  intros Hc Hg Hsig. pose proof (leader_self _ _ _ _ Hg) as Hp. destruct Hg as (Ht & _ & Hz & Hl).
  pose proof (task_at_range _ _ _ (sw_tasks _ (oc_wf _ _ Hc)) Ht) as Hr. unfold send_signal.
  rewrite (proj2 (Z.eqb_neq sig 0)), (proj2 (Z.ltb_ge 31 sig)) by lia. rewrite !orb_false_r. destruct (j <=? 0); [done|].
  rewrite Hp, (idx_tasks ex), bind_Ret_l, Ht, Hz by done. unfold on_task. by rewrite Ht.
Qed.

Lemma stop_in_group sc g j t sig : own_inv sc -> in_group sc g j t ->
  stop_task_with_signal sc j sig =
  if (j <=? 0) || stopped t then Ret (false, sc) else Ret (true, group_update sc j stop_member (latch_stop sig)).
Proof.
  intros Hi Hg. pose proof (leader_self _ _ _ _ Hg) as Hp. destruct Hg as (Ht & _ & Hz & Hl).
  pose proof (task_at_range _ _ _ (sw_tasks _ (oc_wf _ _ (oi_core _ Hi))) Ht) as Hr.
  destruct (Z.leb_spec j 0) as [Hle|Hgt]; [unfold stop_task_with_signal; by rewrite (proj2 (Z.leb_le _ _)) by lia|].
  rewrite (stop_task_eq sc j j t); [done..|]. constructor; [lia|done..].
Qed.

Lemma continue_in_group sc g j t : own_inv sc -> in_group sc g j t ->
  continue_task sc j =
  if j <=? 0 then Ret (false, sc) else Ret (true, group_update sc j continue_member (latch_continue (stopped t))).
Proof.
  intros Hi Hg. pose proof (leader_self _ _ _ _ Hg) as Hp. destruct Hg as (Ht & _ & Hz & Hl).
  pose proof (task_at_range _ _ _ (sw_tasks _ (oc_wf _ _ (oi_core _ Hi))) Ht) as Hr.
  destruct (Z.leb_spec j 0) as [Hle|Hgt]; [unfold continue_task; by rewrite (proj2 (Z.leb_le _ _)) by lia|].
  rewrite (continue_task_eq sc j j t); [done..|]. constructor; [lia|done..].
Qed.
Definition handlers_typed sc : Prop := forall j t, task_at sc j = Some t -> zlen (signal_handlers t) = 32.

(** The effect of signalling on the kernel: only the scheduler changes, its
    invariant stays, and no task changes identity. *)
Definition calm k k' : Prop :=
  k' = k <| k_sched := k_sched k' |> /\ own_inv (k_sched k') /\ same_ident (k_sched k) (k_sched k').

Lemma calm_refl k : own_inv (k_sched k) -> calm k k.
Proof. intros Hi. split_and!; [by destruct k|done|done]. Qed.
Lemma calm_trans k1 k2 k3 : calm k1 k2 -> calm k2 k3 -> calm k1 k3.
Proof.
  intros (H1 & _ & H2) (G1 & ? & G2). split_and!; [|done|by eapply ident_trans]. rewrite G1, H1. done.
Qed.
Lemma calm_sched k sc : own_inv sc -> same_ident (k_sched k) sc -> calm k (k <| k_sched := sc |>).
Proof. intros. split_and!; done. Qed.

Lemma ident_fields t t' : ident t' = ident t -> pid t' = pid t /\ pgid t' = pgid t /\ sid t' = sid t /\ leader_slot t' = leader_slot t /\
  zombie t' = zombie t /\ thread_exited t' = thread_exited t /\ Task.tty_id t' = Task.tty_id t /\ signal_handlers t' = signal_handlers t.
Proof. unfold ident. intros H. by simplify_eq. Qed.

Lemma in_group_same sc sc' g j t : same_ident sc sc' -> in_group sc g j t -> exists t', in_group sc' g j t' /\ ident t' = ident t.
Proof.
  intros Hs (Ht & Hg & Hz & Hl). destruct (ident_at _ _ _ _ Hs Ht) as (t' & Ht' & He). exists t'. split; [|done].
  destruct (ident_fields _ _ He) as (_ & ? & _ & ? & ? & _). unfold in_group. split_and!; congruence.
Qed.

Lemma handlers_same sc sc' : same_ident sc sc' -> handlers_typed sc -> handlers_typed sc'.
Proof.
  intros Hs Ht j t' Hj. specialize (Hs j). rewrite Hj in Hs. destruct (task_at sc j) as [t|] eqn:Hjt; [|done].
  apply (inj Some), ident_fields in Hs as (_ & _ & _ & _ & _ & _ & _ & ->). by eapply Ht.
Qed.

Lemma keeps_send sc j sig : own_inv sc -> own_inv (on_task sc j (queue_signal sig)) /\ same_ident sc (on_task sc j (queue_signal sig)).
Proof.
  intros Hi. pose proof (oi_core _ Hi) as Hc. split.
  - apply (keeps_inv sc); [done|]. apply (keeps_on (-1)); [done|]. apply ident_zombie, ident_queue.
  - apply ident_on; [apply (sw_tasks _ (oc_wf _ _ Hc))|apply ident_queue].
Qed.

Lemma keeps_group_update sc j f g : own_inv sc -> (forall t, ident (f t) = ident t) -> (forall t, ident (g t) = ident t) ->
  own_inv (group_update sc j f g) /\ same_ident sc (group_update sc j f g).
Proof.
  intros Hi Hf Hg. pose proof (oi_core _ Hi) as Hc. split.
  - apply (keeps_inv sc); [done|]. by apply (keeps_group (-1)); [done|apply ident_zombie..].
  - by apply ident_group; [apply (sw_tasks _ (oc_wf _ _ Hc))|..].
Qed.

Lemma send_calm k g j t sig : own_inv (k_sched k) -> in_group (k_sched k) g j t -> 0 < sig <= 31 ->
  exists b k', on_sched_res k (send_signal (k_sched k) j sig) = Ret (b, k') /\ calm k k'.
Proof.
  intros Hi Hg Hs. rewrite (send_in_group (-1) _ g j t) by (done || apply (oi_core _ Hi)). destruct (j <=? 0).
  - exists false, k. split; [by destruct k|by apply calm_refl].
  - eexists true, _. split; [reflexivity|]. by apply calm_sched; apply keeps_send.
Qed.

Lemma stop_calm k g j t sig : own_inv (k_sched k) -> in_group (k_sched k) g j t ->
  exists b k', on_sched_res k (stop_task_with_signal (k_sched k) j sig) = Ret (b, k') /\ calm k k'.
Proof.
  intros Hi Hg. rewrite (stop_in_group _ g j t) by done. destruct (_ || _).
  - exists false, k. split; [by destruct k|by apply calm_refl].
  - eexists true, _. split; [reflexivity|]. by apply calm_sched; apply keeps_group_update; try apply ident_stop.
Qed.

Lemma continue_calm k g j t : own_inv (k_sched k) -> in_group (k_sched k) g j t ->
  exists b k', on_sched_res k (continue_task (k_sched k) j) = Ret (b, k') /\ calm k k'.
Proof.
  intros Hi Hg. rewrite (continue_in_group _ g j t) by done. destruct (j <=? 0).
  - exists false, k. split; [by destruct k|by apply calm_refl].
  - eexists true, _. split; [reflexivity|].
    apply calm_sched; apply keeps_group_update; done || apply ident_continue || (intros; apply ident_latch).
Qed.

Lemma group_handler_ok sc g j t sig : own_inv sc -> handlers_typed sc -> in_group sc g j t -> 0 < sig <= 31 ->
  exists h, group_handler sc j sig = Ret h /\ get (signal_handlers t) (sig - 1) = Some h.
Proof.
  intros Hi Hh (Ht & _) Hs. pose proof (task_at_range _ _ _ (sw_tasks _ (oc_wf _ _ (oi_core _ Hi))) Ht).
  destruct (get_in_range (signal_handlers t) (sig - 1)) as [h Hget]; [rewrite (Hh _ _ Ht); lia|]. exists h. split; [|done].
  unfold group_handler. rewrite (idx_tasks (-1)), bind_Ret_l, Ht by (done || apply (oi_core _ Hi)). by apply idx_Ret.
Qed.

Lemma signal_slot_calm k g j t sig : own_inv (k_sched k) -> handlers_typed (k_sched k) -> in_group (k_sched k) g j t ->
  0 < sig <= 31 -> sig <> SIGKILL -> exists k', signal_slot_group sig k j = Ret k' /\ calm k k'.
Proof.
  intros Hi Hh Hg Hs Hk. destruct (group_handler_ok _ g j t sig Hi Hh Hg Hs) as (h & Hhe & _).
  destruct (send_calm k g j t sig Hi Hg Hs) as (bs & ks & Hsend & Cs). destruct (stop_calm k g j t sig Hi Hg) as (bt & kt & Hstop & Ct).
  unfold signal_slot_group, stop_task.
  destruct (Z.eqb_spec sig SIGSTOP) as [->|_]; [rewrite Hstop; by exists kt|].
  destruct ((sig =? SIGTSTP) || _ || _).
  { rewrite Hhe, bind_Ret_l. destruct (h =? SIG_IGN); [exists k; split; [done|by apply calm_refl]|].
    destruct (h =? SIG_DFL); [rewrite Hstop; by exists kt|rewrite Hsend; by exists ks]. }
  destruct (Z.eqb_spec sig SIGCONT) as [->|_].
  { rewrite Hhe, bind_Ret_l. destruct (continue_calm k g j t Hi Hg) as (bc & kc & Hcont & Cc). rewrite Hcont, bind_Ret_l.
    destruct (_ && _); [|by exists kc]. destruct Cc as (E & Ic & Dc). destruct (in_group_same _ _ _ _ _ Dc Hg) as (t' & Hg' & _).
    destruct (send_calm kc g j t' SIGCONT Ic Hg') as (b & k' & He & C'); [done|]. rewrite He. exists k'.
    split; [done|]. apply (calm_trans k kc); [by split_and!|done]. }
  rewrite (proj2 (Z.eqb_neq _ _)) by done. rewrite Hsend. by exists ks.
Qed.

Lemma signal_slots_calm g sig l : forall k, own_inv (k_sched k) -> handlers_typed (k_sched k) ->
  Forall (fun j => exists t, in_group (k_sched k) g j t) l -> 0 < sig <= 31 -> sig <> SIGKILL ->
  exists k', signal_slots_group sig k l = Ret k' /\ calm k k'.
Proof.
  induction l as [|j l IH]; intros k Hi Hh Hl Hs Hk; simpl; [exists k; split; [done|by apply calm_refl]|].
  apply Forall_cons in Hl as [[t Ht] Hl]. destruct (signal_slot_calm k g j t sig Hi Hh Ht Hs Hk) as (k1 & He & C1).
  rewrite He, bind_Ret_l. pose proof C1 as (_ & I1 & D1). destruct (IH k1) as (k' & He' & C'); try done.
  - by eapply handlers_same.
  - eapply Forall_impl; [exact Hl|]. intros i [u Hu]. destruct (in_group_same _ _ _ _ _ D1 Hu) as (u' & ? & _). by exists u'.
  - exists k'. split; [done|by eapply calm_trans].
Qed.

Lemma signal_group_calm k g sig : own_inv (k_sched k) -> handlers_typed (k_sched k) -> 0 < sig <= 31 -> sig <> SIGKILL ->
  exists k', signal_group k g sig = Ret k' /\ calm k k'.
Proof.
  intros Hi Hh Hs Hk. apply (signal_slots_calm g); try done. apply Forall_forall. intros j Hj. by apply slots_in_pgid_elem.
Qed.
End GroupProofs.

(** ** The invariant of the tables *)

Section TableProofs.
  Context {F : Type} `{!FileStore F}.
  Implicit Types (s : Terminals F) (k : Kern F) (p : Pty).

(** Every pseudo terminal is well formed and has an allocated controlling
    terminal that no other pseudo terminal has; an allocated terminal belongs
    to a session; a task's terminal is an index of the table. *)
Record terms_ok s : Prop := {
  ts_ttys : zlen (TTYS s) = MAX_TTYS;
  ts_ptys : zlen (PTYS s) = MAX_PTYS;
  ts_session : forall id t, get (TTYS s) id = Some t -> allocated t = true -> 0 < session_id t;
  ts_pty : forall id p, pty_at s id = Some p -> pty_ok p /\ exists t, get (TTYS s) (p_tty_id p) = Some t /\ allocated t = true;
  ts_inj : forall id id' p p', pty_at s id = Some p -> pty_at s id' = Some p' -> p_tty_id p = p_tty_id p' -> id = id';
  ts_sched : own_inv (sched_of s);
  ts_handlers : handlers_typed (sched_of s);
  ts_tasks : forall j t, task_at (sched_of s) j = Some t -> Task.tty_id t < MAX_TTYS
}.

Lemma pty_at_range s id p : terms_ok s -> pty_at s id = Some p -> 0 <= id < zlen (PTYS s).
Proof. intros Hs Hp. unfold pty_at in Hp. destruct (get (PTYS s) id) eqn:Hg; [|done]. by eapply get_Some_range. Qed.

Lemma pty_at_put s id o i : 0 <= id < zlen (PTYS s) -> pty_at (put_pty s id o) i = if id =? i then o else pty_at s i.
Proof. intros Hr. unfold pty_at, put_pty. simpl. rewrite get_insert by done. by destruct (id =? i). Qed.

Lemma tty_at_put s id t i : 0 <= id < zlen (TTYS s) -> get (TTYS (put_tty s id t)) i = if id =? i then Some t else get (TTYS s) i.
Proof. intros Hr. unfold put_tty. simpl. by rewrite get_insert. Qed.

Lemma ok_calm s k : terms_ok s -> calm (t_kern s) k -> terms_ok (s <| t_kern := k |>).
Proof.
  intros [] (_ & Hi & Hid). constructor; try done.
  - by apply (handlers_same (sched_of s)).
  - intros j t' Hj. specialize (Hid j). change (task_at (k_sched k) j = Some t') in Hj. rewrite Hj in Hid.
    destruct (task_at (k_sched (t_kern s)) j) as [t|] eqn:Ht; [|done]. apply (inj Some), ident_fields in Hid.
    destruct Hid as (_ & _ & _ & _ & _ & _ & -> & _). by apply (ts_tasks0 j).
Qed.

Lemma ok_put_pty s id p p' : terms_ok s -> pty_at s id = Some p -> becomes p p' -> terms_ok (put_pty s id (Some p')).
Proof.
  intros Hs Hp [Hok Htty]. pose proof (pty_at_range s id p Hs Hp) as Hr. destruct Hs. constructor; try done.
  - unfold put_pty. simpl. by rewrite zlen_insert.
  - intros i q. rewrite pty_at_put by done. destruct (Z.eqb_spec id i) as [<-|]; [|apply ts_pty0]. intros [= <-].
    split; [done|]. rewrite Htty. by apply (ts_pty0 id).
  - intros i i' q q'. rewrite !pty_at_put by done.
    destruct (Z.eqb_spec id i) as [<-|], (Z.eqb_spec id i') as [<-|]; try done.
    + intros [= <-] Hq'. rewrite Htty. by apply ts_inj0.
    + intros Hq [= <-]. rewrite Htty. by apply ts_inj0.
    + apply ts_inj0.
Qed.

Lemma ok_put_tty s id t : terms_ok s -> 0 <= id < MAX_TTYS -> allocated t = true -> 0 < session_id t -> terms_ok (put_tty s id t).
Proof.
  intros [] Hr Ha Hsid. constructor; try done.
  - unfold put_tty. simpl. by rewrite zlen_insert.
  - intros i u. rewrite tty_at_put by lia. destruct (id =? i); [by intros [= <-]|apply ts_session0].
  - intros i p Hp. destruct (ts_pty0 i p Hp) as (Hok & u & Hu & Hau). split; [done|]. rewrite tty_at_put by lia.
    destruct (id =? p_tty_id p); [by exists t|by exists u].
Qed.

Lemma free_tty s id : vec_position (fun tty => negb (allocated tty)) (TTYS s) = Some id ->
  exists t, get (TTYS s) id = Some t /\ allocated t = false.
Proof.
  intros (l1 & x & l2 & He & -> & Hx & _)%vec_position_Some. exists x. rewrite He. split; [apply get_middle|by apply negb_true_iff].
Qed.

Lemma ok_set_task_tty s slot id : terms_ok s -> id < MAX_TTYS -> terms_ok (set_task_tty s slot id).
Proof.
  intros [] Hid. pose proof (sw_tasks _ (oc_wf _ _ (oi_core _ ts_sched0))) as H32. constructor; try done.
  - apply (keeps_inv (sched_of s)); [done|]. by apply (keeps_on (-1)); [apply (oi_core _ ts_sched0)|].
  - intros j t. unfold sched_of, set_task_tty. simpl. rewrite on_task_at by done. destruct (j =? slot); [|apply ts_handlers0].
    intros (u & Hu & ->)%fmap_Some. exact (ts_handlers0 j u Hu).
  - intros j t. unfold sched_of, set_task_tty. simpl. rewrite on_task_at by done. destruct (j =? slot); [|apply ts_tasks0].
    intros (u & Hu & ->)%fmap_Some. exact Hid.
Qed.

Lemma ensure_ok s slot : terms_ok s -> 0 <= slot -> exists o s', ensure_controlling_tty s slot = Ret (o, s') /\ terms_ok s' /\
  (forall id, o = Some id -> 0 <= id < MAX_TTYS) /\ PTYS s' = PTYS s /\ (is_Some o -> slot < MAX_TASKS).
Proof.
  intros Hs Hslot. pose proof (ts_sched _ Hs) as Hi. unfold ensure_controlling_tty.
  assert (forall o, o = None -> exists o' s', Ret (o, s) = Ret (o', s') /\ terms_ok s' /\
    (forall id, o' = Some id -> 0 <= id < MAX_TTYS) /\ PTYS s' = PTYS s /\ (is_Some o' -> slot < MAX_TASKS)) as Hnone.
  { intros o ->. exists None, s. split_and!; try done. }
  destruct (Z.leb_spec MAX_TASKS slot) as [|Hlt]; [by apply Hnone|]. unfold MAX_TASKS in *.
  rewrite (idx_tasks (-1)), bind_Ret_l by (done || apply (oi_core _ Hi)). destruct (task_at (sched_of s) slot) as [t|] eqn:Ht; [|by apply Hnone].
  destruct (Z.leb_spec 0 (Task.tty_id t)) as [Hge|_].
  { exists (Some (Task.tty_id t)), s. split_and!; try done. intros id [= <-]. split; [done|by apply (ts_tasks _ Hs slot)]. }
  destruct (Z.leb_spec (sid t) 0) as [|Hsid]; [by apply Hnone|].
  destruct (vec_position _ (TTYS s)) as [id|] eqn:Hpos.
  { apply vec_position_Some in Hpos as (l1 & x & l2 & He & -> & _). pose proof (ts_ttys _ Hs) as Hl.
    rewrite He, zlen_app, zlen_cons in Hl. pose proof (zlen_nonneg l1). pose proof (zlen_nonneg l2).
    eexists (Some (zlen l1)), _. split_and!; [reflexivity|by apply ok_set_task_tty; [|lia]|intros ? [= <-]; lia|done|done]. }
  destruct (vec_position (fun tty => negb (allocated tty)) (TTYS s)) as [id|] eqn:Hfree; [|by apply Hnone].
  destruct (free_tty _ _ Hfree) as (x & Hx & _). pose proof (get_Some_range _ _ _ Hx) as Hr. rewrite (ts_ttys _ Hs) in Hr.
  eexists (Some id), _. split_and!; [reflexivity| |by intros ? [= <-]|done|done].
  apply ok_set_task_tty; [|lia]. by apply ok_put_tty.
Qed.
Lemma signal_foreground_ok s tty sig : terms_ok s -> 0 < sig <= 31 -> sig <> SIGKILL ->
  exists s', signal_foreground s tty sig = Ret s' /\ terms_ok s' /\ PTYS s' = PTYS s /\ TTYS s' = TTYS s.
Proof.
  intros Hs Hsig Hk. unfold signal_foreground. destruct (foreground_for_tty s tty) as [g|]; [|by exists s].
  destruct (signal_group_calm (t_kern s) g sig) as (k & He & Hc); [apply (ts_sched _ Hs)|apply (ts_handlers _ Hs)|done..|].
  rewrite He. eexists. split; [reflexivity|]. split; [by apply ok_calm|done].
Qed.

Lemma set_foreground_ok s slot g : terms_ok s -> 0 <= slot -> exists b s', set_foreground s slot g = Ret (b, s') /\ terms_ok s'.
Proof.
  intros Hs Hslot. unfold set_foreground. destruct (g <=? 0); [by exists false, s|].
  destruct (ensure_ok s slot Hs Hslot) as (o & s1 & He & H1 & Hid & _ & Hlt). rewrite He, bind_Ret_l. clear He.
  destruct o as [id|]; [|by exists false, s1]. specialize (Hid id eq_refl). specialize (Hlt ltac:(done)). unfold MAX_TASKS in Hlt.
  rewrite (idx_tasks (-1)), bind_Ret_l by (done || apply (oi_core _ (ts_sched _ H1))).
  destruct (task_at (sched_of s1) slot) as [t|]; [|by exists false, s1].
  destruct (negb (group_exists _ _ _)); [by exists false, s1|].
  destruct (get_in_range (TTYS s1) id) as [tty Htty]; [rewrite (ts_ttys _ H1); lia|].
  rewrite (proj2 (idx_Ret _ _ _) Htty), bind_Ret_l. destruct (negb (allocated tty) || _) eqn:Hd; [by exists false, s1|].
  apply orb_false_iff in Hd as [Ha%negb_false_iff _].
  eexists true, _. split; [reflexivity|]. apply ok_put_tty; [done|done|exact Ha|exact (ts_session _ H1 id tty Htty Ha)].
Qed.

Lemma set_foreground_pty_ok s slot id g : terms_ok s -> 0 <= slot ->
  exists b s', set_foreground_pty s slot id g = Ret (b, s') /\ terms_ok s'.
Proof.
  intros Hs Hslot. unfold set_foreground_pty. destruct (g <=? 0); [by exists false, s|].
  destruct (Z.leb_spec MAX_TASKS slot) as [|Hlt]; [by exists false, s|]. cbn [orb]. unfold MAX_TASKS in Hlt.
  destruct (pty_at s id) as [p|]; [|by exists false, s].
  rewrite (idx_tasks (-1)), bind_Ret_l by (done || apply (oi_core _ (ts_sched _ Hs))).
  destruct (task_at (sched_of s) slot) as [t|]; [|by exists false, s].
  destruct (negb (group_exists _ _ _)); [by exists false, s|].
  destruct (get (TTYS s) (p_tty_id p)) as [tty|] eqn:Htty; [|by exists false, s].
  destruct (negb (allocated tty) || _) eqn:Hd; [by exists false, s|]. apply orb_false_iff in Hd as [Ha%negb_false_iff _].
  eexists true, _. split; [reflexivity|]. pose proof (get_Some_range _ _ _ Htty) as Hr. rewrite (ts_ttys _ Hs) in Hr.
  apply ok_put_tty; [done|done|exact Ha|exact (ts_session _ Hs (p_tty_id p) tty Htty Ha)].
Qed.

Lemma pty_new_ok tty : pty_ok (pty_new tty).
Proof.
  constructor; simpl; try done; unfold in_u; try (constructor; done); try lia.
  split; [done|]. unfold default_cc. simpl. repeat (constructor; [by unfold byte|]). constructor.
Qed.

(** A new pseudo terminal takes a controlling terminal that was free. *)
Lemma ok_new_pty s tty id session g : terms_ok s -> 0 < session ->
  vec_position (fun t => negb (allocated t)) (TTYS s) = Some tty -> 0 <= id < MAX_PTYS ->
  terms_ok (put_pty (put_tty s tty (mkTty true session g)) id (Some (pty_new tty))).
Proof.
  intros Hs Hsess Hfree Hid. destruct (free_tty _ _ Hfree) as (x & Hx & Hxa). pose proof (get_Some_range _ _ _ Hx) as Hr.
  rewrite (ts_ttys _ Hs) in Hr. set (s1 := put_tty s tty (mkTty true session g)).
  assert (terms_ok s1) as H1 by (by apply ok_put_tty). assert (0 <= id < zlen (PTYS s1)) as Hr1 by (by rewrite (ts_ptys _ H1)).
  assert (forall i q, pty_at s1 i = Some q -> p_tty_id q <> tty) as Hnew.
  { intros i q Hq He. destruct (ts_pty _ Hs i q Hq) as (_ & t & Ht & Ha). congruence. }
  destruct H1. constructor; try done.
  - unfold put_pty. simpl. by rewrite zlen_insert.
  - intros i q. rewrite pty_at_put by done. destruct (id =? i); [|apply ts_pty0]. intros [= <-]. split; [apply pty_new_ok|].
    exists (mkTty true session g). split; [|done]. change (get (TTYS (put_tty s tty (mkTty true session g))) tty = Some (mkTty true session g)).
    rewrite tty_at_put by (rewrite (ts_ttys _ Hs); lia). by rewrite Z.eqb_refl.
  - intros i i' q q'. rewrite !pty_at_put by done.
    destruct (Z.eqb_spec id i) as [<-|], (Z.eqb_spec id i') as [<-|]; try done.
    + intros [= <-] Hq' He. by destruct (Hnew i' q').
    + intros Hq [= <-] He. by destruct (Hnew i q).
    + apply ts_inj0.
Qed.

(** Putting a terminal in use and giving it back leaves the invariant. *)
Lemma ok_put_back s id t : terms_ok s -> 0 <= id < MAX_TTYS -> (forall i p, pty_at s i = Some p -> p_tty_id p <> id) ->
  terms_ok (put_tty (put_tty s id t) id empty_tty).
Proof.
  intros Hs Hr Hno. pose proof (ts_ttys _ Hs) as Hl.
  assert (forall i, get (TTYS (put_tty (put_tty s id t) id empty_tty)) i = if id =? i then Some empty_tty else get (TTYS s) i) as Hget.
  { intros i. rewrite !tty_at_put; [by destruct (id =? i)|lia|]. unfold put_tty. simpl. rewrite zlen_insert. lia. }
  destruct Hs. constructor; try done.
  - unfold put_tty. simpl. by rewrite !zlen_insert.
  - intros i u. rewrite Hget. destruct (id =? i); [by intros [= <-]|apply ts_session0].
  - intros i p Hp. destruct (ts_pty0 i p Hp) as (Hok & u & Hu & Ha). split; [done|]. exists u. split; [|done]. rewrite Hget.
    destruct (Z.eqb_spec id (p_tty_id p)) as [He|]; [|done]. by destruct (Hno i p Hp).
Qed.

Lemma alloc_pty_ok s slot : terms_ok s -> 0 <= slot -> exists o s', alloc_pty s slot = Ret (o, s') /\ terms_ok s' /\
  (forall id, o = Some id -> pty_at s id = None /\ exists p, pty_at s' id = Some p /\ master_refs p = 1 /\ slave_refs p = 1).
Proof.
  intros Hs Hslot. unfold alloc_pty. destruct (ensure_ok s slot Hs Hslot) as (o & s1 & He & H1 & Hid & HP & Hlt).
  rewrite He, bind_Ret_l. clear He. destruct o as [ctty|]; [|by exists None, s1].
  destruct (task_at (sched_of s1) slot) as [t|]; [|by exists None, s1].
  destruct (Z.leb_spec (sid t) 0) as [|Hsid]; [by exists None, s1|].
  destruct (vec_position (fun tty => negb (allocated tty)) (TTYS s1)) as [tty|] eqn:Hfree; [|by exists None, s1].
  destruct (free_tty _ _ Hfree) as (x & Hx & Hxa). pose proof (get_Some_range _ _ _ Hx) as Hr. rewrite (ts_ttys _ H1) in Hr.
  destruct (vec_position _ (PTYS _)) as [id|] eqn:Hpos.
  - apply vec_position_Some in Hpos as (l1 & y & l2 & Hl & -> & Hy & _). simpl in Hl.
    assert (zlen (PTYS s1) = MAX_PTYS) as Hlen by apply (ts_ptys _ H1).
    assert (0 <= zlen l1 < MAX_PTYS) as Hrng.
    { rewrite Hl, zlen_app, zlen_cons in Hlen. pose proof (zlen_nonneg l1). pose proof (zlen_nonneg l2). lia. }
    eexists (Some (zlen l1)), _. split_and!; [reflexivity|by apply ok_new_pty|]. intros id [= <-]. split.
    + unfold pty_at. rewrite <- HP, Hl, get_middle. by destruct y.
    + exists (pty_new tty). rewrite pty_at_put by (unfold put_tty; simpl; lia). by rewrite Z.eqb_refl.
  - eexists None, _. split_and!; [reflexivity| |done]. apply ok_put_back; [done..|].
    intros i p Hp Heq. destruct (ts_pty _ H1 i p Hp) as (_ & u & Hu & Ha). congruence.
Qed.
(** Releasing a pseudo terminal together with its controlling terminal. *)
Lemma ok_release s id p : terms_ok s -> pty_at s id = Some p -> terms_ok (put_tty (put_pty s id None) (p_tty_id p) empty_tty).
Proof.
  intros Hs Hp. pose proof (pty_at_range s id p Hs Hp) as Hr. destruct (ts_pty _ Hs id p Hp) as (_ & t & Ht & _).
  pose proof (get_Some_range _ _ _ Ht) as Htr. destruct Hs.
  assert (forall i q, pty_at (put_tty (put_pty s id None) (p_tty_id p) empty_tty) i = Some q -> i <> id /\ pty_at s i = Some q) as Hother.
  { intros i q Hq. change (pty_at (put_pty s id None) i = Some q) in Hq. rewrite pty_at_put in Hq by done.
    destruct (Z.eqb_spec id i); [done|]. by split; [congruence|]. }
  constructor; try done.
  - unfold put_tty. simpl. by rewrite zlen_insert.
  - unfold put_tty, put_pty. simpl. by rewrite zlen_insert.
  - intros i u. rewrite tty_at_put by done. destruct (_ =? i); [by intros [= <-]|apply ts_session0].
  - intros i q [Hne Hq]%Hother. destruct (ts_pty0 i q Hq) as (Hok & u & Hu & Ha). split; [done|]. exists u. split; [|done].
    rewrite tty_at_put by done. destruct (Z.eqb_spec (p_tty_id p) (p_tty_id q)); [|done]. destruct Hne. by eapply ts_inj0.
  - intros i i' q q' [_ Hq]%Hother [_ Hq']%Hother. by apply ts_inj0.
Qed.

Lemma close_ref_ok s id side : terms_ok s -> exists s', close_ref s id side = Ret s' /\ terms_ok s'.
Proof.
  intros Hs. unfold close_ref. destruct (pty_at s id) as [p|] eqn:Hp; [|by exists s].
  destruct (drop_ref p side) as [p' h] eqn:Hd. destruct (ts_pty _ Hs id p Hp) as (Hok & _).
  set (s1 := if _ && _ then _ else _). assert (terms_ok s1) as H1.
  { unfold s1. destruct (_ && _) eqn:Hz; [by apply ok_release|]. eapply ok_put_pty; [done..|]. by eapply drop_ref_ok. }
  clearbody s1. destruct h; [|by exists s1].
  destruct (signal_foreground_ok s1 (p_tty_id p) SIGHUP H1) as (s2 & He & H2 & _); [done..|]. rewrite He, bind_Ret_l.
  destruct (signal_foreground_ok s2 (p_tty_id p) SIGCONT H2) as (s3 & He' & H3 & _); [done..|]. by exists s3.
Qed.

Lemma set_winsize_ok s id w : terms_ok s -> exists b s', set_winsize s id w = Ret (b, s') /\ terms_ok s'.
Proof.
  intros Hs. unfold set_winsize. destruct (pty_at s id) as [p|] eqn:Hp; [|by exists false, s].
  assert (terms_ok (put_pty s id (Some (p <| p_winsize := w |>)))) as H1.
  { eapply ok_put_pty; [done..|]. split; [|done]. destruct (ts_pty _ Hs id p Hp) as ([] & _). by constructor. }
  destruct (bool_decide _); [by eexists true, _|].
  destruct (signal_foreground_ok _ (p_tty_id p) SIGWINCH H1) as (s2 & He & H2 & _); [done..|]. rewrite He. by exists true, s2.
Qed.

Lemma try_read_ok s id side len : terms_ok s -> 0 <= len -> terms_ok (try_read_inner s id side len).2.
Proof.
  intros Hs Hl. unfold try_read_inner. destruct (pty_at s id) as [p|] eqn:Hp; [|done].
  destruct (ts_pty _ Hs id p Hp) as (Hok & _). pose proof (read_pty_ok p side len Hok Hl) as Hb.
  destruct (read_pty p side len) as [[out eof] p']. by eapply ok_put_pty.
Qed.

Lemma check_background_ok s slot id side : terms_ok s ->
  exists b s', check_background s slot id side = Ret (b, s') /\ terms_ok s' /\ (b = false -> s' = s) /\ PTYS s' = PTYS s /\
    b = match side with Master => false | Slave => bool_decide (is_Some (background_slave_group s slot id)) end.
Proof.
  intros Hs. unfold check_background. destruct side; [by exists false, s|].
  destruct (background_slave_group s slot id) as [g|]; [|by exists false, s].
  destruct (signal_group_calm (t_kern s) g SIGTTIN) as (k & He & Hc); [apply (ts_sched _ Hs)|apply (ts_handlers _ Hs)|done..|].
  rewrite He. eexists true, _. split; [reflexivity|]. split; [by apply ok_calm|done].
Qed.

Lemma read_ok s slot id side len nonblock now now' now'' : terms_ok s -> 0 <= len ->
  exists n out s', read s slot id side len nonblock now now' now'' = Ret (n, out, s') /\ terms_ok s'.
Proof.
  intros Hs Hl. unfold read. destruct (len =? 0); [by exists 0, [], s|].
  destruct (check_background_ok s slot id side Hs) as (b & s1 & Hcb & H1 & Hsame & _). rewrite Hcb, bind_Ret_l.
  destruct b; [by eexists _, _, _|]. rewrite (Hsame eq_refl) in *.
  pose proof (try_read_ok s id side len Hs Hl) as Hr. destruct (try_read_inner s id side len) as [[out eof] s2] eqn:Htr. simpl in Hr.
  destruct (match side with Master => None | Slave => termios s id end) as [t|].
  - destruct (t_canonical t); [rewrite Hcb, bind_Ret_l, Htr; cbv beta iota; destruct (_ || _); by eexists _, _, _|].
    destruct nonblock; [by eexists _, _, _|]. destruct (_ && _); [by eexists _, _, _|].
    unfold read_timed. rewrite Hcb, bind_Ret_l, Htr. cbv zeta. repeat case_match; (eexists _, _, _; split; [reflexivity|done]).
  - rewrite Hcb, bind_Ret_l, Htr. cbv beta iota. destruct (_ || _); by eexists _, _, _.
Qed.

Lemma write_byte_ok p side b p' sig taken : pty_ok p -> byte b -> write_byte p side b = Some (p', sig, taken) ->
  becomes p p' /\ forall tty sg, sig = Some (tty, sg) -> 0 < sg <= 31 /\ sg <> SIGKILL.
Proof.
  intros Hp Hb. unfold write_byte. destruct side.
  - destruct (slave_refs p =? 0); [done|]. destruct (master_input_ok p b Hp Hb) as [H1 H2].
    destruct (master_input_byte p b) as [q sg]. intros [= <- <- _]. split; [done|]. intros tty sg' [= ->].
    destruct (H2 tty sg' eq_refl) as [_ Hsg]. by repeat (apply elem_of_cons in Hsg as [-> |Hsg]; [done|]); apply not_elem_of_nil in Hsg.
  - destruct (master_refs p =? 0); [done|]. pose proof (slave_output_ok p b Hp Hb) as Hok.
    destruct (slave_output_byte p b). by intros [= <- <- _].
Qed.

Lemma write_loop_ok data : forall s id side nonblock n, terms_ok s -> Forall byte data ->
  exists w s', write_loop s id side data nonblock n = Ret (w, s') /\ terms_ok s'.
Proof.
  induction data as [|b data IH]; intros s id side nonblock n Hs Hd; simpl; [by eexists _, _|].
  apply Forall_cons in Hd as [Hb Hd]. destruct (pty_at s id) as [p|] eqn:Hp; simpl; [|by eexists _, _].
  destruct (write_byte p side b) as [[[p' sig] taken]|] eqn:Hw; [|by eexists _, _].
  destruct (ts_pty _ Hs id p Hp) as (Hok & _). destruct (write_byte_ok _ _ _ _ _ _ Hok Hb Hw) as [Hbec Hsig].
  pose proof (ok_put_pty s id p p' Hs Hp Hbec) as H1. set (s1 := put_pty s id (Some p')) in *. clearbody s1.
  assert (exists s2, match sig with Some (tty, sig) => signal_foreground s1 tty sig | None => Ret s1 end = Ret s2 /\ terms_ok s2)
    as (s2 & He & H2).
  { destruct sig as [[tty sg]|]; [|by exists s1]. destruct (Hsig tty sg eq_refl) as [Hr Hk].
    destruct (signal_foreground_ok s1 tty sg H1 Hr Hk) as (s2 & ? & ? & _). by exists s2. }
  rewrite He, bind_Ret_l. destruct taken; [by apply IH|]. destruct nonblock; by eexists _, _.
Qed.

Lemma write_ok s slot id side data nonblock : terms_ok s -> Forall byte data ->
  exists w s', write s slot id side data nonblock = Ret (w, s') /\ terms_ok s'.
Proof.
  intros Hs Hd. unfold write. destruct (match side with Master => _ | Slave => _ end) as [g|]; [|by apply write_loop_ok].
  destruct (signal_group_calm (t_kern s) g SIGTTOU) as (k & He & Hc); [apply (ts_sched _ Hs)|apply (ts_handlers _ Hs)|done..|].
  rewrite He. eexists _, _. split; [reflexivity|]. by apply ok_calm.
Qed.
(** ** Every operation *)

(** The calls of the module that change its state, with their arguments. *)
Inductive tty_op : Type :=
| SetForeground (slot g : Z)
| Foreground (slot : Z)
| SetForegroundPty (slot id g : Z)
| AllocPty (slot : Z)
| AddRef (id : Z) (side : PtySide)
| CloseRef (id : Z) (side : PtySide)
| SetWinsize (id : Z) (w : WinSize)
| SetTermios (id : Z) (t : TermiosState)
| SetMode (id : Z) (canon ech sig : bool)
| FlushInput (id : Z)
| Read (slot id : Z) (side : PtySide) (len : Z) (nonblock : bool) (now now' now'' : Z)
| Write (slot id : Z) (side : PtySide) (data : list Z) (nonblock : bool).

Definition run_op s (op : tty_op) : outcome (Terminals F) :=
  match op with
  | SetForeground slot g => '(_, s) ← set_foreground s slot g; Ret s
  | Foreground slot => '(_, s) ← foreground s slot; Ret s
  | SetForegroundPty slot id g => '(_, s) ← set_foreground_pty s slot id g; Ret s
  | AllocPty slot => '(_, s) ← alloc_pty s slot; Ret s
  | AddRef id side => Ret (add_ref s id side).2
  | CloseRef id side => close_ref s id side
  | SetWinsize id w => '(_, s) ← set_winsize s id w; Ret s
  | SetTermios id t => Ret (set_termios s id t).2
  | SetMode id canon ech sig => Ret (set_mode s id canon ech sig).2
  | FlushInput id => Ret (flush_input s id).2
  | Read slot id side len nonblock now now' now'' => '(_, _, s) ← read s slot id side len nonblock now now' now''; Ret s
  | Write slot id side data nonblock => '(_, s) ← write s slot id side data nonblock; Ret s
  end.

(** The types of the arguments. *)
Definition op_typed (op : tty_op) : Prop :=
  match op with
  | SetForeground slot _ | Foreground slot | SetForegroundPty slot _ _ | AllocPty slot => 0 <= slot
  | SetTermios _ t => length (t_cc t) = NCCS /\ Forall byte (t_cc t)
  | Read _ _ _ len _ _ _ _ => 0 <= len
  | Write _ _ _ data _ => Forall byte data
  | _ => True
  end.

Lemma update_ok s id (f : Pty -> Pty) : terms_ok s -> (forall p, pty_ok p -> becomes p (f p)) ->
  forall b, terms_ok (match pty_at s id with None => (false, s) | Some p => (b, put_pty s id (Some (f p))) end).2.
Proof.
  intros Hs Hf b. destruct (pty_at s id) as [p|] eqn:Hp; [|done]. simpl. destruct (ts_pty _ Hs id p Hp) as (Hok & _).
  eapply ok_put_pty; [done..|]. by apply Hf.
Qed.

Lemma set_mode_ok s id a b c : terms_ok s -> terms_ok (set_mode s id a b c).2.
Proof.
  intros Hs. unfold set_mode, set_termios, termios. destruct (pty_at s id) as [p|] eqn:Hp; [|done]. simpl.
  destruct (ts_pty _ Hs id p Hp) as (Hok & _). pose proof (po_cc _ Hok) as [Hl Hb]. eapply ok_put_pty; [done..|].
  by apply termios_ok.
Qed.

(** C15. The terminal layer is type safe: from well-formed tables every
    operation, with any arguments of its types, returns without a panic and
    leaves well-formed tables.  The queues stay within their bounds, the
    records account for queued bytes, every pseudo terminal keeps an allocated
    controlling terminal of its own, and the scheduler keeps its invariant
    under the signals the operation sends. *)
Theorem tty_ops_typed s op : terms_ok s -> op_typed op -> exists s', run_op s op = Ret s' /\ terms_ok s'.
Proof.
  intros Hs Ht. destruct op; simpl in *.
  - destruct (set_foreground_ok s slot g Hs Ht) as (b & s' & -> & ?). by exists s'.
  - unfold foreground. destruct (ensure_ok s slot Hs Ht) as (o & s' & -> & ? & _). by exists s'.
  - destruct (set_foreground_pty_ok s slot id g Hs Ht) as (b & s' & -> & ?). by exists s'.
  - destruct (alloc_pty_ok s slot Hs Ht) as (o & s' & -> & ? & _). by exists s'.
  - eexists. split; [reflexivity|]. apply (update_ok s id (fun p => take_ref p side)); [done|]. intros. by apply take_ref_ok.
  - by apply close_ref_ok.
  - destruct (set_winsize_ok s id w Hs) as (b & s' & -> & ?). by exists s'.
  - eexists. split; [reflexivity|]. apply (update_ok s id (fun p => apply_termios p t)); [done|]. intros. by apply termios_ok; [|apply Ht..].
  - eexists. split; [reflexivity|]. by apply set_mode_ok.
  - eexists. split; [reflexivity|]. apply (update_ok s id flush_pty); [done|]. intros. by apply flush_ok.
  - destruct (read_ok s slot id side len nonblock now now' now'' Hs Ht) as (n & out & s' & -> & ?). by exists s'.
  - destruct (write_ok s slot id side data nonblock Hs Ht) as (w & s' & -> & ?). by exists s'.
Qed.
End TableProofs.

(** ** Line editing *)

Section Cooked.
  Context {F : Type} `{!FileStore F}.
  Implicit Types (s : Terminals F) (p : Pty).

(** What the line discipline reads of a terminal and never changes. *)
Definition conf p : Z * bool * bool * bool * list Z * Z * Z :=
  (p_tty_id p, canonical p, isig p, icrnl p, cc p, master_refs p, slave_refs p).

Definition is_erase p (b : Z) : bool := (b =? cc_at p VERASE) || ((cc_at p VERASE =? 0x7f) && (b =? 0x08)).
Definition is_kill p (b : Z) : bool := (b =? cc_at p VKILL) && negb (b =? 0).
Definition is_eof p (b : Z) : bool := (b =? cc_at p VEOF) && negb (b =? 0).
Definition raises p (b : Z) : bool := is_intr p b || is_quit p b || is_susp p b.

(** A key that edits the line: it raises no signal and ends no line. *)
Definition edits p (b : Z) : bool :=
  negb (raises p b) && negb (icrnl p && (b =? 0x0d)) && (is_erase p b || is_kill p b || (negb (is_eof p b) && negb (b =? 0x0a))).
(** A new line is not one of the special characters. *)
Definition newline_ends p : bool := negb (raises p 0x0a) && negb (is_erase p 0x0a) && negb (is_kill p 0x0a) && negb (is_eof p 0x0a).

(** The line that a sequence of keys leaves. *)
Definition edit_key p (l : list Z) (b : Z) : list Z :=
  if is_erase p b then removelast l else if is_kill p b then [] else l ++ [b].
Definition typed p (keys : list Z) : list Z := foldl (edit_key p) [] keys.

(** The bytes of a terminal's input after the master sends [data]. *)
Definition feed p (data : list Z) : Pty := foldl (fun p b => (master_input_byte p b).1) p data.

(** The terminal holds exactly the complete lines [ls]. *)
Definition holds p (ls : list (list Z)) : Prop := canonical_records p = zlen <$> ls /\ to_slave p = concat ls.

Lemma echo_frame p l : conf (queue_echo p l) = conf p /\ to_slave (queue_echo p l) = to_slave p /\
  canonical_input (queue_echo p l) = canonical_input p /\ canonical_records (queue_echo p l) = canonical_records p /\
  eof_pending (queue_echo p l) = eof_pending p.
Proof. unfold queue_echo. by destruct (echo p). Qed.

Lemma conf_tests p p' : conf p' = conf p -> edits p' = edits p /\ newline_ends p' = newline_ends p /\ edit_key p' = edit_key p /\
  typed p' = typed p /\ canonical p' = canonical p /\ slave_refs p' = slave_refs p /\ master_refs p' = master_refs p /\ p_tty_id p' = p_tty_id p.
Proof.
  unfold conf. intros H. injection H as -> -> Hs Hi Hc -> ->.
  unfold typed, edit_key, edits, newline_ends, raises, is_erase, is_kill, is_eof, is_intr, is_quit, is_susp, cc_at. by rewrite Hs, Hi, Hc.
Qed.

Lemma removelast_pop {A} (l : list A) : match vec_pop l with Some (_, k) => k | None => l end = removelast l.
Proof. unfold vec_pop. destruct (last l) eqn:E; [done|]. apply last_None in E. by rewrite E. Qed.

(** One editing key. *)
Lemma edit_step p b : canonical p = true -> edits p b = true -> zlen (canonical_input p) < CANON_BUF ->
  exists p', master_input_byte p b = (p', None) /\ conf p' = conf p /\ to_slave p' = to_slave p /\
    canonical_records p' = canonical_records p /\ eof_pending p' = eof_pending p /\
    canonical_input p' = edit_key p (canonical_input p) b.
Proof.
  intros Hcan He Hroom. unfold edits in He. rewrite !andb_true_iff, !negb_true_iff in He. destruct He as [[Hr Hcr] He].
  unfold raises in Hr. rewrite !orb_false_iff in Hr. destruct Hr as [[Hi Hq] Hs].
  unfold master_input_byte. rewrite Hi, Hq, Hs, Hcr, Hcan. eexists. split; [reflexivity|].
  unfold canonical_byte, edit_key. fold (is_erase p b) (is_kill p b) (is_eof p b).
  destruct (is_erase p b).
  { rewrite <- removelast_pop. destruct (vec_pop _) as [[x l]|]; [|done].
    destruct (echo_frame (p <| canonical_input := l |>) [8; 32; 8]) as (-> & -> & -> & -> & ->). done. }
  destruct (is_kill p b).
  { destruct (canonical_input p) as [|x l] eqn:Hin; [by rewrite Hin|].
    destruct (echo_frame (p <| canonical_input := [] |>) [94; 85; 13; 10]) as (-> & -> & -> & -> & ->). done. }
  simpl in He. apply andb_true_iff in He as [Heof%negb_true_iff Hnl%negb_true_iff]. rewrite Heof, Hnl, (proj2 (Z.ltb_lt _ _)) by done.
  destruct (echo_frame (p <| canonical_input := canonical_input p ++ [b] |>) [b]) as (-> & -> & -> & -> & ->). done.
Qed.

(** The key that ends the line queues it. *)
Lemma newline_step p ls : canonical p = true -> newline_ends p = true -> zlen (canonical_input p) < CANON_BUF -> holds p ls ->
  zlen (to_slave p) + zlen (canonical_input p) + 1 <= PTY_BUF ->
  exists p', master_input_byte p 0x0a = (p', None) /\ conf p' = conf p /\ holds p' (ls ++ [canonical_input p ++ [0x0a]]) /\
    eof_pending p' = eof_pending p /\ canonical_input p' = [].
Proof.
  intros Hcan He Hroom [Hrec Hq] Hfit. unfold newline_ends in He. rewrite !andb_true_iff, !negb_true_iff in He.
  destruct He as [[[Hr Her] Hk] Heof]. unfold raises in Hr. rewrite !orb_false_iff in Hr. destruct Hr as [[Hi Hqu] Hs].
  unfold master_input_byte. rewrite Hi, Hqu, Hs, Hcan, andb_false_r. eexists. split; [reflexivity|].
  unfold canonical_byte. fold (is_erase p 10) (is_kill p 10) (is_eof p 10). rewrite Her, Hk, Heof, (proj2 (Z.ltb_lt _ _)) by done.
  rewrite Z.eqb_refl. destruct (echo_frame (p <| canonical_input := canonical_input p ++ [10] |>) [10]) as (Hc & Hsl & Hin & Hre & Hee).
  set (q := queue_echo _ _) in *. clearbody q. simpl in *. unfold commit_canonical.
  pose proof (zlen_nonneg (canonical_input p)). assert (zlen (canonical_input p ++ [10]) = zlen (canonical_input p) + 1) as Hl by (by rewrite zlen_app).
  rewrite fill_eq by (rewrite Hsl; lia). rewrite take_ge by (rewrite Hsl, Hin; unfold zlen in *; lia).
  rewrite Hin, Hl, (proj2 (Z.eqb_neq _ _)) by lia. unfold holds. simpl. split_and!; try done.
  - rewrite Hre, Hrec, fmap_app. cbn [fmap list_fmap]. by rewrite Hl.
  - by rewrite Hsl, Hq, concat_app, concat_cons, concat_nil, app_nil_r.
Qed.
Lemma put_put s id a b : put_pty (put_pty s id a) id b = put_pty s id b.
Proof. unfold put_pty. simpl. by rewrite list_insert_insert_eq. Qed.
Lemma put_same s id p : pty_at s id = Some p -> put_pty s id (Some p) = s.
Proof.
  unfold pty_at, put_pty, get. destruct (id <? 0); [done|]. intros Hp. destruct (PTYS s !! Z.to_nat id) as [o|] eqn:Hl; [|done].
  simpl in Hp. subst o. rewrite list_insert_id by done. by destruct s.
Qed.
Lemma at_put s id p o : pty_at s id = Some p -> pty_at (put_pty s id o) id = o.
Proof.
  intros Hp. assert (0 <= id < zlen (PTYS s)). { unfold pty_at in Hp. destruct (get (PTYS s) id) eqn:Hg; [|done]. by eapply get_Some_range. }
  rewrite pty_at_put by done. by rewrite Z.eqb_refl.
Qed.

Lemma edit_key_len p l b : zlen (edit_key p l b) <= zlen l + 1.
Proof.
  unfold edit_key. pose proof (zlen_nonneg l). destruct (is_erase p b).
  - rewrite <- removelast_pop. destruct (vec_pop _) as [[x k]|] eqn:Hpop; [|lia]. apply vec_pop_Some in Hpop as ->.
    rewrite zlen_app, zlen_cons. pose proof (zlen_nonneg (@nil Z)). lia.
  - destruct (is_kill p b); [change (zlen []) with 0; lia|by rewrite zlen_app].
Qed.
Lemma edit_keys_len p keys : forall l, zlen (foldl (edit_key p) l keys) <= zlen l + zlen keys.
Proof.
  induction keys as [|b keys IH]; intros l; simpl; [change (zlen []) with 0; lia|]. rewrite zlen_cons.
  pose proof (IH (edit_key p l b)). pose proof (edit_key_len p l b). lia.
Qed.

Section Typing.
  Variables (id : Z) (nonblock : bool).

Lemma write_quiet s p b data n p' : pty_at s id = Some p -> slave_refs p <> 0 -> canonical p' = true ->
  master_input_byte p b = (p', None) ->
  write_loop s id Master (b :: data) nonblock n = write_loop (put_pty s id (Some p')) id Master data nonblock (n + 1).
Proof. intros Hp Hr Hc Hm. simpl. rewrite Hp. simpl. rewrite (proj2 (Z.eqb_neq _ _)), Hm, Hc by done. done. Qed.

Lemma write_keys keys : forall s p data n, pty_at s id = Some p -> slave_refs p <> 0 -> canonical p = true ->
  Forall (fun b => edits p b = true) keys -> zlen (canonical_input p) + zlen keys <= CANON_BUF ->
  exists p', write_loop s id Master (keys ++ data) nonblock n = write_loop (put_pty s id (Some p')) id Master data nonblock (n + zlen keys) /\
    conf p' = conf p /\ to_slave p' = to_slave p /\ canonical_records p' = canonical_records p /\ eof_pending p' = eof_pending p /\
    canonical_input p' = foldl (edit_key p) (canonical_input p) keys.
Proof.
  induction keys as [|b keys IH]; intros s p data n Hp Hr Hc Hk Hroom.
  { exists p. rewrite put_same by done. split_and!; try done. f_equal. unfold zlen. simpl. lia. }
  apply Forall_cons in Hk as [Hb Hk]. rewrite zlen_cons in *. pose proof (zlen_nonneg keys).
  destruct (edit_step p b Hc Hb) as (p1 & Hm & Hconf & Hs1 & Hr1 & He1 & Hi1); [lia|].
  destruct (conf_tests _ _ Hconf) as (Ted & _ & Tek & _ & Tc & Tsr & _).
  assert (zlen (canonical_input p1) <= zlen (canonical_input p) + 1) by (rewrite Hi1; apply edit_key_len).
  cbn [app]. rewrite (write_quiet s p b _ n p1) by (done || by rewrite Tc).
  destruct (IH (put_pty s id (Some p1)) p1 data (n + 1)) as (p2 & Hw & G1 & G2 & G3 & G4 & G5).
  - by eapply at_put.
  - by rewrite Tsr.
  - by rewrite Tc.
  - by rewrite Ted.
  - lia.
  - exists p2. rewrite Hw, put_put. split_and!; try congruence; [f_equal; lia|]. by rewrite G5, Hi1, Tek.
Qed.

(** A whole line with the key that ends it. *)
Lemma write_line s p ls keys data n : pty_at s id = Some p -> slave_refs p <> 0 -> canonical p = true -> newline_ends p = true ->
  canonical_input p = [] -> holds p ls -> Forall (fun b => edits p b = true) keys -> zlen keys < CANON_BUF ->
  zlen (to_slave p) + zlen (typed p keys) + 1 <= PTY_BUF -> zlen (typed p keys) <= zlen keys ->
  exists p', write_loop s id Master (keys ++ 0x0a :: data) nonblock n =
      write_loop (put_pty s id (Some p')) id Master data nonblock (n + zlen keys + 1) /\
    conf p' = conf p /\ holds p' (ls ++ [typed p keys ++ [0x0a]]) /\ eof_pending p' = eof_pending p /\ canonical_input p' = [].
Proof.
  intros Hp Hr Hc Hn Hin Hh Hk Hl Hfit Hty.
  destruct (write_keys keys s p (0x0a :: data) n) as (p1 & Hw & Hconf & Hs1 & Hr1 & He1 & Hi1); try done.
  { rewrite Hin. change (zlen []) with 0. lia. }
  rewrite Hin in Hi1. change (canonical_input p1 = typed p keys) in Hi1.
  destruct (conf_tests _ _ Hconf) as (_ & Tn & _ & _ & Tc & Tsr & _).
  destruct (newline_step p1 ls) as (p2 & Hm & Hconf2 & Hh2 & He2 & Hi2); try congruence.
  - rewrite Hi1. lia.
  - destruct Hh. split; congruence.
  - exists p2. rewrite Hw. pose proof (at_put s id p (Some p1) Hp). destruct (conf_tests _ _ Hconf2) as (_ & _ & _ & _ & Tc2 & _).
    rewrite (write_quiet _ p1 _ _ _ p2) by congruence. rewrite put_put, <- Hi1. split_and!; congruence.
Qed.
End Typing.
Definition line p (keys : list Z) : list Z := typed p keys ++ [0x0a].
Definition keystrokes (lines : list (list Z)) : list Z := concat ((fun keys => keys ++ [0x0a]) <$> lines).
Definition line_ok p (keys : list Z) : Prop := Forall (fun b => edits p b = true) keys /\ zlen keys < CANON_BUF /\ Forall byte keys.

Lemma write_lines id nonblock lines : forall s p ls n, pty_at s id = Some p -> slave_refs p <> 0 -> canonical p = true ->
  newline_ends p = true -> canonical_input p = [] -> holds p ls -> Forall (line_ok p) lines ->
  zlen (concat (ls ++ (line p <$> lines))) <= PTY_BUF ->
  exists p', write_loop s id Master (keystrokes lines) nonblock n = Ret (n + zlen (keystrokes lines), put_pty s id (Some p')) /\
    conf p' = conf p /\ holds p' (ls ++ (line p <$> lines)) /\ eof_pending p' = eof_pending p /\ canonical_input p' = [].
Proof.
  induction lines as [|keys lines IH]; intros s p ls n Hp Hr Hc Hn Hin Hh Hl Hfit.
  { exists p. rewrite put_same by done. cbn [fmap list_fmap]. rewrite app_nil_r. split_and!; try done. simpl. by rewrite Z.add_0_r. }
  apply Forall_cons in Hl as [(Hed & Hlen & _) Hl]. unfold keystrokes. rewrite fmap_cons, concat_cons. fold (keystrokes lines).
  rewrite fmap_cons, (cons_middle (line p keys)), app_assoc in Hfit |- *. rewrite <- app_assoc. simpl.
  pose proof (edit_keys_len p keys []) as Hty. change (zlen []) with 0 in Hty. fold (typed p keys) in Hty. rewrite Z.add_0_l in Hty.
  pose proof Hfit as Hfit'. rewrite !concat_app, !zlen_app in Hfit'. cbn [concat] in Hfit'. rewrite app_nil_r in Hfit'.
  pose proof (zlen_nonneg (concat (line p <$> lines))). unfold line in Hfit' at 1. rewrite zlen_app in Hfit'. change (zlen [10]) with 1 in Hfit'.
  destruct Hh as [Hrec Hq].
  destruct (write_line id nonblock s p ls keys (keystrokes lines) n) as (p1 & Hw & Hconf & Hh1 & He1 & Hi1); try done.
  { rewrite Hq. lia. }
  destruct (conf_tests _ _ Hconf) as (Ted & Tn & _ & Tty & Tc & Tsr & _). rewrite Hw.
  assert (line p1 = line p) as Tl by (unfold line; by rewrite Tty).
  destruct (IH (put_pty s id (Some p1)) p1 (ls ++ [line p keys]) (n + zlen keys + 1)) as (p2 & Hw2 & Hconf2 & Hh2 & He2 & Hi2);
    try congruence; try done.
  - by eapply at_put.
  - eapply Forall_impl; [exact Hl|]. intros k [Hk1 Hk2]. split; [by rewrite Ted|done].
  - exists p2. rewrite Hw2, put_put. rewrite Tl in Hh2. split_and!; try congruence.
    f_equal. f_equal. rewrite zlen_app, zlen_cons. lia.
Qed.

(** Reading lines, with a buffer that has room for any line. *)
Lemma holds_read p l ls len : pty_ok p -> canonical p = true -> holds p (l :: ls) -> zlen l <= len ->
  exists p', read_pty p Slave len = (l, false, p') /\ conf p' = conf p /\ holds p' ls /\ eof_pending p' = eof_pending p.
Proof.
  intros Hok Hc [Hrec Hq] Hlen. unfold read_pty. rewrite Hc. cbn [fmap list_fmap] in Hrec. rewrite Hrec.
  pose proof (zlen_nonneg l). rewrite (read_record_eq p len (zlen l) (zlen <$> ls)) by (done || lia).
  rewrite Z.min_r by done. rewrite Z.eqb_refl, Hq, concat_cons.
  assert (Z.to_nat (zlen l) = length l) as -> by (unfold zlen; lia). rewrite take_app_length, drop_app_length.
  eexists. split; [reflexivity|]. done.
Qed.
Section Reading.
  Variables (reader id len now now' now'' : Z).

(** [n] blocking reads of the slave, with what each returned. *)
Fixpoint read_lines (n : nat) s : outcome (list (list Z) * Terminals F) :=
  match n with
  | O => Ret ([], s)
  | S n => '(_, out, s) ← read s reader id Slave len false now now' now''; '(ls, s) ← read_lines n s; Ret (out :: ls, s)
  end.

Lemma background_put s p p' : pty_at s id = Some p -> p_tty_id p' = p_tty_id p ->
  background_slave_group (put_pty s id (Some p')) reader id = background_slave_group s reader id.
Proof. intros Hp Ht. unfold background_slave_group. rewrite (at_put s id p) by done. rewrite Hp. simpl. by rewrite Ht. Qed.

Lemma read_line s p l ls : terms_ok s -> pty_at s id = Some p -> canonical p = true -> holds p (l :: ls) -> 0 < zlen l <= len ->
  background_slave_group s reader id = None ->
  exists p', read s reader id Slave len false now now' now'' = Ret (zlen l, l, put_pty s id (Some p')) /\
    conf p' = conf p /\ holds p' ls /\ eof_pending p' = eof_pending p.
Proof.
  intros Hs Hp Hc Hh Hl Hbg. destruct (ts_pty _ Hs id p Hp) as (Hok & _).
  destruct (holds_read p l ls len Hok Hc Hh) as (p' & Hr & Hrest); [lia|]. exists p'. split; [|done].
  unfold read, check_background, termios, try_read_inner. rewrite (proj2 (Z.eqb_neq _ _)), Hbg, bind_Ret_l by lia.
  cbv beta iota. rewrite Hp. cbn [fmap option_fmap option_map]. unfold termios_of at 1. cbn [t_canonical]. rewrite Hc, Hbg, bind_Ret_l.
  cbv beta iota. rewrite Hp, Hr. cbv beta iota. by rewrite (proj2 (Z.ltb_lt _ _)) by lia.
Qed.

Lemma read_blocks s p : pty_at s id = Some p -> canonical p = true -> holds p [] -> eof_pending p = false ->
  master_refs p <> 0 -> 0 < len -> background_slave_group s reader id = None ->
  read s reader id Slave len false now now' now'' = Ret (WOULD_BLOCK, [], s).
Proof.
  intros Hp Hc [Hrec _] He Hm Hl Hbg. unfold read, check_background, termios, try_read_inner, read_pty.
  rewrite (proj2 (Z.eqb_neq _ _)), Hbg, bind_Ret_l by lia. cbv beta iota.
  rewrite Hp. cbn [fmap option_fmap option_map]. unfold termios_of at 1. cbn [t_canonical]. rewrite Hc, Hbg, bind_Ret_l.
  cbv beta iota. rewrite Hp, Hc, Hrec, He, (proj2 (Z.eqb_neq _ _)) by done. cbn [fmap list_fmap]. cbv beta iota. by rewrite put_same.
Qed.

Lemma read_all_lines ls : forall s p, terms_ok s -> pty_at s id = Some p -> canonical p = true -> holds p ls ->
  Forall (fun l => 0 < zlen l <= len) ls -> background_slave_group s reader id = None ->
  exists p', read_lines (length ls) s = Ret (ls, put_pty s id (Some p')) /\ conf p' = conf p /\ holds p' [] /\ eof_pending p' = eof_pending p.
Proof.
  induction ls as [|l ls IH]; intros s p Hs Hp Hc Hh Hl Hbg; simpl; [exists p; by rewrite put_same|].
  apply Forall_cons in Hl as [Hl Hls]. destruct (read_line s p l ls) as (p1 & Hr & Hconf & Hh1 & He1); try done.
  destruct (read_ok s reader id Slave len false now now' now'' Hs) as (n & out & s' & Hr' & Hs1); [lia|].
  rewrite Hr in Hr'. injection Hr' as <- <- <-. rewrite Hr, bind_Ret_l. cbv beta iota.
  destruct (conf_tests _ _ Hconf) as (_ & _ & _ & _ & Tc & _ & _ & Tt).
  destruct (IH (put_pty s id (Some p1)) p1) as (p2 & Hr2 & Hconf2 & Hh2 & He2); try done.
  - by eapply at_put.
  - by rewrite Tc.
  - by rewrite (background_put s p).
  - exists p2. rewrite Hr2, bind_Ret_l, put_put. split_and!; try congruence.
Qed.
End Reading.

(** C4. The line discipline of a cooked terminal is a faithful line editor.
    When the master types lines of fewer than 1024 keys, each ended by a new
    line, that fit the queue, every key is accepted, and a reader in the
    foreground gets exactly one line per read: the line that the erase and
    kill keys left, with its new line, in the order typed.  With the lines
    read the next read waits. *)
Theorem cooked_roundtrip s id p writer reader lines nonblock len now now' now'' :
  terms_ok s -> pty_at s id = Some p -> canonical p = true -> newline_ends p = true -> slave_refs p <> 0 ->
  holds p [] -> canonical_input p = [] -> Forall (line_ok p) lines -> zlen (concat (line p <$> lines)) <= PTY_BUF ->
  background_slave_group s reader id = None -> CANON_BUF <= len ->
  exists s1 s2,
    write s writer id Master (keystrokes lines) nonblock = Ret (zlen (keystrokes lines), s1) /\
    read_lines reader id len now now' now'' (length lines) s1 = Ret (line p <$> lines, s2) /\
    (master_refs p <> 0 -> eof_pending p = false -> read s2 reader id Slave len false now now' now'' = Ret (WOULD_BLOCK, [], s2)).
Proof.
  intros Hs Hp Hc Hn Hr Hh Hin Hl Hfit Hbg Hlen. unfold CANON_BUF in Hlen.
  destruct (write_lines id nonblock lines s p [] 0) as (p1 & Hw & Hconf & Hh1 & He1 & _); try done.
  destruct (conf_tests _ _ Hconf) as (_ & _ & _ & _ & Tc & _ & Tm & Tt).
  destruct (write_loop_ok (keystrokes lines) s id Master nonblock 0 Hs) as (w & s1' & Hw' & H1).
  { unfold keystrokes. apply Forall_concat, Forall_fmap. eapply Forall_impl; [exact Hl|]. intros k (_ & _ & Hk). simpl.
    apply Forall_app. split; [done|]. by apply Forall_singleton. }
  rewrite Hw in Hw'. injection Hw' as <- <-.
  assert (background_slave_group (put_pty s id (Some p1)) reader id = None) as Hbg1 by (by rewrite (background_put _ _ s p)).
  destruct (read_all_lines reader id len now now' now'' (line p <$> lines) (put_pty s id (Some p1)) p1) as (p2 & Hrd & Hconf2 & Hh2 & He2);
    try done.
  - by eapply at_put.
  - by rewrite Tc.
  - apply Forall_fmap. eapply Forall_impl; [exact Hl|]. intros k (_ & Hk & _). unfold line. simpl. rewrite zlen_app. change (zlen [10]) with 1.
    pose proof (edit_keys_len p k []) as Hty. change (zlen []) with 0 in Hty. fold (typed p k) in Hty.
    pose proof (zlen_nonneg (typed p k)). unfold CANON_BUF in Hk. lia.
  - rewrite length_fmap in Hrd. eexists _, _. split; [exact Hw|]. split; [exact Hrd|]. intros Hm He.
    destruct (conf_tests _ _ Hconf2) as (_ & _ & _ & _ & Tc2 & _ & Tm2 & Tt2).
    apply (read_blocks _ _ _ _ _ _ _ p2); try congruence; try lia.
    + eapply at_put. by eapply at_put.
    + by rewrite (background_put _ _ _ p1) by (done || by eapply at_put).
Qed.
End Cooked.

(** ** Job control *)

Section JobControl.
  Context {F : Type} `{!FileStore F}.
  Implicit Types (s : Terminals F) (sc : Sched F) (k : Kern F) (t u : Task).

(** The processes of a group: the live leaders other than the idle task. *)
Definition member (g j : Z) t : bool := (0 <? j) && (pgid t =? g) && negb (zombie t) && (leader_slot t =? j).

(** A signal without an action of its own in [signal_group]. *)
Definition just_sent (sig : Z) : Prop := sig ∈ [SIGHUP; SIGINT; SIGQUIT; SIGWINCH].

Lemma just_sent_eq sig k j : just_sent sig ->
  signal_slot_group sig k j = '(_, k) ← on_sched_res k (send_signal (k_sched k) j sig); Ret k.
Proof. intros H. by repeat (apply elem_of_cons in H as [-> |H]; [done|]); apply not_elem_of_nil in H. Qed.

Lemma send_slots g sig l : forall k, just_sent sig -> own_inv (k_sched k) -> handlers_typed (k_sched k) -> NoDup l ->
  Forall (fun j => exists t, in_group (k_sched k) g j t) l ->
  exists k', signal_slots_group sig k l = Ret k' /\ calm k k' /\
    forall j t, task_at (k_sched k) j = Some t ->
      task_at (k_sched k') j = Some (if bool_decide (j ∈ l) && (0 <? j) then queue_signal sig t else t).
Proof.
  induction l as [|a l IH]; intros k Hsig Hi Hh Hnd Hl.
  { exists k. split; [done|]. split; [by apply calm_refl|]. intros j t Ht. by rewrite Ht. }
  apply NoDup_cons in Hnd as [Ha Hnd]. apply Forall_cons in Hl as [[ta Hta] Hl]. simpl. rewrite just_sent_eq by done.
  assert (0 < sig <= 31) as Hr by (by repeat (apply elem_of_cons in Hsig as [-> |Hsig]; [done|]); apply not_elem_of_nil in Hsig).
  pose proof (sw_tasks _ (oc_wf _ _ (oi_core _ Hi))) as H32.
  rewrite (send_in_group (-1) _ g a ta) by (done || apply (oi_core _ Hi)).
  set (k1 := if a <=? 0 then k else k <| k_sched := on_task (k_sched k) a (queue_signal sig) |>).
  assert (calm k k1) as C1.
  { unfold k1. destruct (a <=? 0); [by apply calm_refl|]. by apply calm_sched; apply keeps_send. }
  destruct (IH k1) as (k' & He & C' & Hat); try done; [apply C1|eapply handlers_same; [apply C1|done]| |].
  { eapply Forall_impl; [exact Hl|]. intros i [u Hu]. destruct (in_group_same _ _ _ _ _ (proj2 (proj2 C1)) Hu) as (u' & ? & _). by exists u'. }
  exists k'. split; [unfold k1 in He; destruct (a <=? 0); [destruct k|]; exact He|]. split; [by eapply calm_trans|]. intros j t Ht.
  assert (task_at (k_sched k1) j = Some (if (j =? a) && (0 <? a) then queue_signal sig t else t)) as H1.
  { unfold k1. rewrite Z.ltb_antisym. destruct (a <=? 0); [by rewrite Ht, andb_false_r|]. simpl. rewrite on_task_at, Ht by done.
    by destruct (j =? a). }
  rewrite (Hat j _ H1). f_equal. destruct (Z.eqb_spec j a) as [->|Hne].
  - rewrite (bool_decide_eq_false_2 (a ∈ l)), (bool_decide_eq_true_2 (a ∈ a :: l)) by (done || by left). done.
  - apply (f_equal (fun b : bool => if b && (0 <? j) then queue_signal sig t else t)). apply bool_decide_ext.
    rewrite elem_of_cons. naive_solver.
Qed.

Lemma member_slots sc g j t : task_at sc j = Some t -> bool_decide (j ∈ slots_in_pgid sc g) && (0 <? j) = member g j t.
Proof.
  intros Ht. apply eq_true_iff_eq. unfold member. rewrite !andb_true_iff, bool_decide_eq_true, slots_in_pgid_elem, negb_true_iff, !Z.eqb_eq.
  unfold in_group. split; [intros [(u & Hu & ? & ? & ?) ?]; rewrite Ht in Hu; by simplify_eq|naive_solver].
Qed.

Lemma slots_in_pgid_NoDup sc g : NoDup (slots_in_pgid sc g).
Proof. apply slots_from_NoDup. Qed.

Lemma group_sent k g sig : just_sent sig -> own_inv (k_sched k) -> handlers_typed (k_sched k) ->
  exists k', signal_group k g sig = Ret k' /\ calm k k' /\
    forall j t, task_at (k_sched k) j = Some t ->
      task_at (k_sched k') j = Some (if member g j t then queue_signal sig t else t).
Proof.
  intros Hsig Hi Hh. destruct (send_slots g sig (slots_in_pgid (k_sched k) g) k) as (k' & He & Hc & Hat); try done.
  - apply slots_in_pgid_NoDup.
  - apply Forall_forall. intros j Hj. by apply slots_in_pgid_elem.
  - exists k'. split_and!; [done|done|]. intros j t Ht. rewrite (Hat j t Ht). by rewrite (member_slots _ _ _ _ Ht).
Qed.

(** The interrupt key reaches exactly the foreground job.  Typed at a
    terminal that raises signals, it is accepted and not queued, the line
    being edited is discarded, SIGINT becomes pending for every process of the
    terminal's foreground group, waking it if it waits, and every other task
    stays as it was. *)
Theorem interrupt_exact s writer id p b fg nonblock :
  terms_ok s -> pty_at s id = Some p -> slave_refs p <> 0 -> is_intr p b = true ->
  foreground_for_tty s (p_tty_id p) = Some fg ->
  exists s' p', write s writer id Master [b] nonblock = Ret (1, s') /\ pty_at s' id = Some p' /\
    canonical_input p' = [] /\ to_slave p' = to_slave p /\ TTYS s' = TTYS s /\
    forall j t, task_at (sched_of s) j = Some t ->
      task_at (sched_of s') j = Some (if member fg j t then queue_signal SIGINT t else t).
Proof.
  intros Hs Hp Hr Hb Hfg. unfold write. simpl. rewrite Hp. simpl. rewrite (proj2 (Z.eqb_neq _ _)) by done.
  unfold master_input_byte. rewrite Hb. set (p' := queue_echo _ _).
  destruct (echo_frame (p <| canonical_input := [] |>) [94; 67; 13; 10]) as (_ & Hsl & Hin & _). fold p' in Hsl, Hin. clearbody p'.
  unfold signal_foreground. change (foreground_for_tty (put_pty s id (Some p')) (p_tty_id p)) with (foreground_for_tty s (p_tty_id p)).
  rewrite Hfg. destruct (group_sent (t_kern s) fg SIGINT) as (k & He & _ & Hat); [set_solver|apply (ts_sched _ Hs)|apply (ts_handlers _ Hs)|].
  change (t_kern (put_pty s id (Some p'))) with (t_kern s). rewrite He. eexists _, p'. split; [reflexivity|].
  split; [exact (at_put s id p (Some p') Hp)|done].
Qed.

(** Signals whose default action is to stop the process. *)
Definition default_action (sig : Z) t : Prop := get (signal_handlers t) (sig - 1) = Some SIG_DFL.
Definition stops (sig : Z) : Prop := sig ∈ [SIGTSTP; SIGTTIN; SIGTTOU].

Lemma stops_eq sig k a t h : stops sig -> group_handler (k_sched k) a sig = Ret h ->
  signal_slot_group sig k a =
  if h =? SIG_IGN then Ret k else
  if h =? SIG_DFL then '(_, k) ← on_sched_res k (stop_task_with_signal (k_sched k) a sig); Ret k
  else '(_, k) ← on_sched_res k (send_signal (k_sched k) a sig); Ret k.
Proof.
  intros H Hh. unfold signal_slot_group. rewrite Hh, bind_Ret_l.
  by repeat (apply elem_of_cons in H as [-> |H]; [done|]); apply not_elem_of_nil in H.
Qed.

(** What signalling process [a] does to the task [u] in slot [j]. *)
Definition spared_by u u' : Prop := u' = u \/ u' = wake_if Child u.
Definition halted u : Prop := state u = Stopped /\ running u = false.

(** What a stop signal to the process of leader [tl] in slot [a] does to its
    thread [u] in slot [j]: nothing if it is ignored, the process is stopped
    already or the thread has exited; a stop, with the leader keeping the signal
    for the parent, if the action is the default; and with a handler the signal
    becomes pending for the process. *)
Definition reacts (sig : Z) tl (a j : Z) u u' : Prop :=
  match get (signal_handlers tl) (sig - 1) with
  | None => False
  | Some h =>
      if (h =? SIG_IGN) || ((h =? SIG_DFL) && (stopped tl || (thread_exited u && negb (j =? a)))) then spared_by u u'
      else if h =? SIG_DFL then thread_exited u = false -> halted u' /\ (j = a -> wait_stopped_pending u' = true /\ stop_signal u' = sig)
      else if j =? a then u' = queue_signal sig u else spared_by u u'
  end.

Lemma stop_one k g a ta sig : stops sig -> own_inv (k_sched k) -> handlers_typed (k_sched k) -> in_group (k_sched k) g a ta ->
  exists k', signal_slot_group sig k a = Ret k' /\ calm k k' /\
    (forall j u, task_at (k_sched k) j = Some u -> leader_slot u <> a -> exists u', task_at (k_sched k') j = Some u' /\ spared_by u u') /\
    (forall j u, task_at (k_sched k) j = Some u -> leader_slot u = a ->
       exists u', task_at (k_sched k') j = Some u' /\ if 0 <? a then reacts sig ta a j u u' else spared_by u u').
Proof.
  intros Hst Hi Hh Ha. pose proof (sw_tasks _ (oc_wf _ _ (oi_core _ Hi))) as H32.
  assert (0 < sig <= 31 /\ sig <> SIGKILL) as [Hr Hk]
    by (by repeat (apply elem_of_cons in Hst as [-> |Hst]; [done|]); apply not_elem_of_nil in Hst).
  destruct (signal_slot_calm k g a ta sig Hi Hh Ha Hr Hk) as (k' & He & Hc). exists k'. split; [done|]. split; [done|].
  destruct (group_handler_ok _ g a ta sig Hi Hh Ha Hr) as (h & Hhe & Hget). rewrite (stops_eq sig k a ta h) in He by done.
  pose proof Ha as (Hta & _ & _ & Hself). unfold reacts. rewrite Hget.
  assert (forall j u, task_at (k_sched k) j = Some u -> leader_slot u <> a -> j <> a) as Hother by (intros j u Hu Hne ->; congruence).
  destruct (h =? SIG_IGN); cbn [orb].
  { injection He as <-. split; [intros j u Hu _|intros j u Hu _]; exists u; (split; [done|]); [by left|]. destruct (0 <? a); by left. }
  destruct (h =? SIG_DFL); cbn [andb].
  - rewrite (stop_in_group _ g a ta) in He by done. destruct ((a <=? 0) || stopped ta) eqn:Hno.
    + simpl in He. injection He as <-. split; [intros j u Hu _; exists u; split; [by destruct k|by left]|].
      intros j u Hu _. exists u. split; [by destruct k|]. destruct (Z.ltb_spec 0 a); [|by left]. apply orb_true_iff in Hno as [?%Z.leb_le|Hno]; [lia|]. rewrite Hno. by left.
    + apply orb_false_iff in Hno as [Hpos%Z.leb_gt ->]. rewrite (proj2 (Z.ltb_lt 0 a) Hpos). simpl in He. injection He as <-. simpl. split.
      * intros j u Hu Hne. rewrite (group_update_at _ _ _ _ j u) by done. rewrite (proj2 (Z.eqb_neq _ _)) by (by eapply Hother).
        rewrite (proj2 (Z.eqb_neq _ _)) by done. eexists. split; [reflexivity|by right].
      * intros j u Hu Hl. destruct (thread_exited u) eqn:Hex; cbn [orb andb].
        -- rewrite (group_update_at _ _ _ _ j u) by done. rewrite Hl, Z.eqb_refl. unfold stop_member. rewrite Hex.
           destruct (j =? a); cbn [negb]; eexists; (split; [reflexivity|]); [done|by right].
        -- destruct (stop_members_at (k_sched k) a sig j u H32 Hu Hl Hex) as (u' & Hu' & ? & ? & Hlead). exists u'. split; [done|]. intros _. split; [done|]. intros Hj. by destruct (Hlead Hj) as (? & ? & _).
  - rewrite (send_in_group (-1) _ g a ta) in He by (done || apply (oi_core _ Hi)). split; [intros j u Hu Hne; exists u; split; [|by left]|intros j u Hu Hl].
    + destruct (a <=? 0); simpl in He; injection He as <-; [by destruct k|]. simpl. rewrite on_task_at by done.
      by rewrite (proj2 (Z.eqb_neq _ _)) by (by eapply Hother).
    + destruct (Z.ltb_spec 0 a); [rewrite (proj2 (Z.leb_gt _ _)) in He by lia|rewrite (proj2 (Z.leb_le _ _)) in He by lia]; simpl in He; injection He as <-;
        [|exists u; split; [by destruct k|by left]]. simpl. rewrite on_task_at by done. rewrite Hu.
      destruct (j =? a); [by eexists|]. exists u. split; [done|by left].
Qed.

Lemma spared_halted u u' : spared_by u u' -> halted u -> u' = u.
Proof. intros [-> | ->] [Hs Hr]; [done|]. unfold wake_if, is_blocked_on. by rewrite Hs. Qed.
Lemma wake_if_stopped r t : stopped (wake_if r t) = stopped t.
Proof. unfold wake_if. by destruct (is_blocked_on r t). Qed.
Lemma spared_more u u' u'' : spared_by u u' -> spared_by u' u'' -> spared_by u u''.
Proof.
  unfold spared_by. intros [-> | ->] [-> | ->]; auto. right. unfold wake_if. destruct (is_blocked_on Child u) eqn:Hb; [|by rewrite Hb].
  assert (is_blocked_on Child (wake u) = false) as -> by (by apply bool_decide_eq_false_2). done.
Qed.
Lemma spared_queue sig u u' : spared_by u u' -> queue_signal sig u' = queue_signal sig u.
Proof.
  intros [-> | ->]; [done|]. unfold wake_if. destruct (is_blocked_on Child u) eqn:Hb; [|done]. apply bool_decide_eq_true in Hb.
  unfold queue_signal. cbn. by rewrite Hb.
Qed.
Lemma queued_spared sig u u' : spared_by (queue_signal sig u) u' -> u' = queue_signal sig u.
Proof.
  intros [-> | ->]; [done|]. unfold wake_if. assert (is_blocked_on Child (queue_signal sig u) = false) as ->; [|done].
  apply bool_decide_eq_false_2. unfold queue_signal. cbn. destruct (state u) eqn:E; cbn; congruence.
Qed.
Lemma spared_ident u u' : spared_by u u' -> thread_exited u' = thread_exited u /\ stopped u' = stopped u.
Proof. intros [-> | ->]; [done|]. unfold wake_if. by destruct (is_blocked_on Child u). Qed.

(** Reacting commutes with the wake-ups of other processes' parents. *)
Lemma reacts_spared sig tl tl1 a j u u1 u' u'' : spared_by u u1 -> spared_by tl tl1 -> signal_handlers tl1 = signal_handlers tl ->
  reacts sig tl1 a j u1 u' -> spared_by u' u'' -> reacts sig tl a j u u''.
Proof.
  intros Hu Htl Hh H1 Hu'. destruct (spared_ident _ _ Hu) as [Hex _]. destruct (spared_ident _ _ Htl) as [_ Hs].
  unfold reacts in *. rewrite Hh, Hex, Hs in H1. destruct (get (signal_handlers tl) (sig - 1)) as [h|]; [|done].
  destruct (_ || _); [eapply spared_more; [exact Hu|]; by eapply spared_more|]. destruct (h =? SIG_DFL).
  - intros He. destruct (H1 He) as [Hhalt Hl]. by rewrite (spared_halted _ _ Hu' Hhalt).
  - destruct (j =? a); [|eapply spared_more; [exact Hu|]; by eapply spared_more]. subst u'. rewrite (spared_queue sig _ _ Hu) in Hu'. by apply queued_spared.
Qed.

Lemma reacts_default sig tl a j u u' : default_action sig tl -> stopped tl = false -> thread_exited u = false ->
  reacts sig tl a j u u' -> halted u'.
Proof. unfold reacts, default_action. intros -> -> He. rewrite He. intros H. by apply H. Qed.

Lemma stop_slots g sig l : forall k, stops sig -> own_inv (k_sched k) -> handlers_typed (k_sched k) -> NoDup l ->
  Forall (fun a => exists t, in_group (k_sched k) g a t) l ->
  exists k', signal_slots_group sig k l = Ret k' /\ calm k k' /\
    (forall j u, task_at (k_sched k) j = Some u -> leader_slot u ∉ l -> exists u', task_at (k_sched k') j = Some u' /\ spared_by u u') /\
    (forall j u ta, task_at (k_sched k) j = Some u -> leader_slot u ∈ l -> task_at (k_sched k) (leader_slot u) = Some ta ->
       exists u', task_at (k_sched k') j = Some u' /\ if 0 <? leader_slot u then reacts sig ta (leader_slot u) j u u' else spared_by u u').
Proof.
  induction l as [|a l IH]; intros k Hst Hi Hh Hnd Hl.
  { exists k. split; [done|]. split; [by apply calm_refl|]. split; [intros j u Hu _; exists u; split; [done|by left]|].
    intros j u ta _ Hin. by apply not_elem_of_nil in Hin. }
  apply NoDup_cons in Hnd as [Ha Hnd]. apply Forall_cons in Hl as [[ta Hta] Hl].
  destruct (stop_one k g a ta sig Hst Hi Hh Hta) as (k1 & He1 & C1 & Hsp1 & Hst1). pose proof C1 as (_ & I1 & D1).
  destruct (IH k1) as (k' & He & C' & Hsp & Hre); try done; [by eapply handlers_same| |].
  { eapply Forall_impl; [exact Hl|]. intros i [u Hu]. destruct (in_group_same _ _ _ _ _ D1 Hu) as (u' & ? & _). by exists u'. }
  exists k'. simpl. rewrite He1, bind_Ret_l. split; [done|]. split; [by eapply calm_trans|].
  assert (forall u u', ident u' = ident u -> leader_slot u' = leader_slot u /\ signal_handlers u' = signal_handlers u) as Hid
    by (intros u u' (_ & _ & _ & ? & _ & _ & _ & ?)%ident_fields; done).
  assert (forall j u, task_at (k_sched k) j = Some u -> leader_slot u <> a ->
    exists u1, task_at (k_sched k1) j = Some u1 /\ spared_by u u1 /\ leader_slot u1 = leader_slot u /\ signal_handlers u1 = signal_handlers u) as Hsp1'.
  { intros j u Hu Hne. destruct (Hsp1 j u Hu Hne) as (u1 & Hu1 & S1). destruct (ident_at _ _ _ _ D1 Hu) as (v & Hv & Hiv).
    assert (v = u1) as -> by congruence. exists u1. split; [done|]. split; [done|]. by apply Hid. }
  split.
  - intros j u Hu [Hne Hnin]%not_elem_of_cons. destruct (Hsp1' j u Hu Hne) as (u1 & Hu1 & S1 & L1 & _).
    destruct (Hsp j u1 Hu1) as (u' & Hu' & S'); [by rewrite L1|]. exists u'. split; [done|by eapply spared_more].
  - intros j u tl Hu Hin Htl. destruct (decide (leader_slot u = a)) as [Heq|Hne].
    + assert (ta = tl) as -> by (destruct Hta as (Hta & _); rewrite <- Heq in Hta; congruence).
      destruct (Hst1 j u Hu Heq) as (v & Hv & Hrv). destruct (ident_at _ _ _ _ D1 Hu) as (u1 & Hu1 & Hiu). destruct (Hid _ _ Hiu) as (L1 & _).
      assert (v = u1) as -> by congruence. destruct (Hsp j u1 Hu1) as (u' & Hu' & S'); [by rewrite L1, Heq|]. exists u'. split; [done|].
      rewrite Heq. destruct (0 <? a); [|by eapply spared_more]. by apply (reacts_spared sig tl tl a j u u u1 u'); [left|left| | |].
    + apply elem_of_cons in Hin as [?|Hin]; [done|]. destruct (Hsp1' j u Hu Hne) as (u1 & Hu1 & S1 & L1 & _).
      assert (leader_slot tl <> a) as Hla.
      { rewrite Forall_forall in Hl. destruct (Hl _ Hin) as (x & Hx & _ & _ & Hxs). assert (x = tl) as -> by congruence. by rewrite Hxs. }
      destruct (Hsp1' _ tl Htl Hla) as (tl1 & Htl1 & Stl & _ & Hhd).
      destruct (Hre j u1 tl1) as (u' & Hu' & Hr'); rewrite ?L1; try done. exists u'. split; [done|]. rewrite L1 in Hr'.
      destruct (0 <? leader_slot u); [|by eapply spared_more]. apply (reacts_spared sig tl tl1 (leader_slot u) j u u1 u' u'); try done. by left.
Qed.

(** C22. A background job cannot take input from the terminal.  A read by a task
    whose process group is not the terminal's foreground group fails without
    consuming or changing any input.  Every process of the reader's group
    reacts to SIGTTIN as its action says: with the default action all its
    threads that have not exited are stopped, unless the process was stopped
    already; a process that ignores the signal is left alone; for one with a
    handler the signal becomes pending.  No task of another group changes.
    Left alone means unchanged, except that a parent waiting for a child
    wakes. *)
Theorem background_read_stops s slot id p t fg len nonblock now now' now'' :
  terms_ok s -> pty_at s id = Some p -> task_at (sched_of s) slot = Some t -> len <> 0 ->
  foreground_for_tty s (p_tty_id p) = Some fg -> 0 < pgid t -> pgid t <> fg ->
  exists s', read s slot id Slave len nonblock now now' now'' = Ret (USIZE_MAX, [], s') /\ PTYS s' = PTYS s /\ TTYS s' = TTYS s /\
    (forall j u tl, task_at (sched_of s) j = Some u -> task_at (sched_of s) (leader_slot u) = Some tl ->
       exists u', task_at (sched_of s') j = Some u' /\
         if member (pgid t) (leader_slot u) tl then reacts SIGTTIN tl (leader_slot u) j u u' else spared_by u u').
Proof.
  intros Hs Hp Ht Hlen Hfg Hpos Hne. unfold read, check_background. rewrite (proj2 (Z.eqb_neq _ _)) by done.
  assert (background_slave_group s slot id = Some (pgid t)) as ->.
  { unfold background_slave_group. rewrite Hp. simpl. rewrite Ht. simpl. rewrite Hfg. simpl.
    by rewrite (proj2 (Z.ltb_lt _ _)), (proj2 (Z.eqb_neq _ _)) by done. }
  unfold signal_group.
  destruct (stop_slots (pgid t) SIGTTIN (slots_in_pgid (k_sched (t_kern s)) (pgid t)) (t_kern s)) as (k' & He & C' & Hsp & Hre);
    [set_solver|apply (ts_sched _ Hs)|apply (ts_handlers _ Hs)|apply slots_in_pgid_NoDup|apply Forall_forall; intros; by apply slots_in_pgid_elem|].
  rewrite He. eexists. split; [reflexivity|]. split; [done|]. split; [done|]. intros j u tl Hu Htl.
  rewrite <- (member_slots _ _ _ _ Htl). case_bool_decide as Hin; cbn [andb]; [by apply (Hre j u tl)|by apply (Hsp j u)].
Qed.
End JobControl.

(** ** Witnesses *)

(** A session 5 with its shell in slot 1, in the foreground of pseudo terminal
    0, and a job of group 6 in slot 2. *)
Definition wit_job (p leader : Z) : Task :=
  wit_task <| pid := p |> <| tid := p |> <| pgid := p |> <| sid := 5 |> <| leader_slot := leader |> <| ppid := 1 |>.
Definition wit_session : Sched unit := put_task (put_task wit_boot 1 (Some (wit_job 5 1))) 2 (Some (wit_job 6 2)).
Definition wit_terms : Terminals unit :=
  mkTerms (mkTty true 5 5 :: replicate 15 empty_tty) (Some (pty_new 0) :: replicate 7 None)
    (mkKern wit_session (mkArcs ∅ 0) ∅ [] 0 ∅ []).

Lemma wit_session_inv : own_inv wit_session.
Proof.
  assert (own_inv wit_boot) as H0
    by (apply (sched_init_inv (64 * MIB) 16 None 0xC0101000 wit_memory); by vm_compute).
  assert (own_inv (put_task wit_boot 1 (Some (wit_job 5 1)))) as H1.
  { apply (sched_step_inv no_shootdown (64 * MIB) 0x1000 wit_boot _ H0).
    apply (ss_spawn _ _ _ _ 1 (wit_job 5 1)); [lia|by vm_compute|done|done]. }
  apply (sched_step_inv no_shootdown (64 * MIB) 0x1000 _ _ H1). apply (ss_spawn _ _ _ _ 2 (wit_job 6 2)); [lia|by vm_compute|done|done].
Qed.

Lemma wit_terms_pty id p : pty_at wit_terms id = Some p -> id = 0 /\ p = pty_new 0.
Proof.
  unfold pty_at, get. destruct (Z.ltb_spec id 0); [done|]. destruct (Z.to_nat id) as [|n] eqn:Hn; simpl; [intros [= <-]; split; [lia|done]|].
  by do 7 (destruct n as [|n]; [done|]).
Qed.

Lemma wit_terms_ok : terms_ok wit_terms.
Proof.
  assert (zlen (tasks wit_session) = 32) as Hl by (by vm_compute).
  assert (forall j t, task_at wit_session j = Some t -> (zlen (signal_handlers t) =? 32) && (Task.tty_id t <? MAX_TTYS) = true) as Hall.
  { apply (forall_tasks wit_session (fun _ t => (zlen (signal_handlers t) =? 32) && (Task.tty_id t <? MAX_TTYS)) Hl). by vm_compute. }
  constructor; [done|done|..].
  - intros id t. unfold get. destruct (id <? 0); [done|]. destruct (Z.to_nat id) as [|n]; simpl; [by intros [= <-]|].
    change (replicate 15 empty_tty !! n = Some t -> allocated t = true -> 0 < session_id t). by intros [-> _]%lookup_replicate.
  - intros id p [-> ->]%wit_terms_pty. split; [apply pty_new_ok|]. by exists (mkTty true 5 5).
  - intros id id' p p' [-> ->]%wit_terms_pty [-> ->]%wit_terms_pty. done.
  - apply wit_session_inv.
  - intros j t Ht. apply Hall, andb_true_iff in Ht as [Ht%Z.eqb_eq _]. done.
  - intros j t Ht. apply Hall, andb_true_iff in Ht as [_ Ht%Z.ltb_lt]. done.
Qed.

Lemma tty_ops_typed_witness : exists s', run_op wit_terms (Write 2 0 Slave [0x68; 0x0a] false) = Ret s' /\ terms_ok s'.
Proof. apply (tty_ops_typed wit_terms); [apply wit_terms_ok|]. repeat constructor; done. Defined.

Lemma cooked_roundtrip_witness : exists s1 s2,
  write wit_terms 1 0 Master (keystrokes [[0x6c; 0x78; 0x7f; 0x73]; [0x71; 0x15; 0x61]]) false = Ret (9, s1) /\
  read_lines 1 0 2048 0 0 0 2 s1 = Ret ([[0x6c; 0x73; 0x0a]; [0x61; 0x0a]], s2) /\
  read s2 1 0 Slave 2048 false 0 0 0 = Ret (WOULD_BLOCK, [], s2).
Proof.
  destruct (cooked_roundtrip wit_terms 0 (pty_new 0) 1 1 [[0x6c; 0x78; 0x7f; 0x73]; [0x71; 0x15; 0x61]] false 2048 0 0 0 wit_terms_ok)
    as (s1 & s2 & Hw & Hr & Hb); [reflexivity|reflexivity|reflexivity|by vm_compute|by split|reflexivity| |by vm_compute|by vm_compute|by vm_compute|].
  { repeat constructor; by vm_compute. }
  exists s1, s2. split; [exact Hw|]. split; [exact Hr|]. apply Hb; by vm_compute.
Defined.

Lemma interrupt_exact_witness : exists s' t, write wit_terms 1 0 Master [3] false = Ret (1, s') /\
  task_at (sched_of s') 1 = Some t /\ pending_signals t = sigbit SIGINT.
Proof.
  destruct (interrupt_exact wit_terms 1 0 (pty_new 0) 3 5 false wit_terms_ok) as (s' & p' & Hw & _ & _ & _ & _ & Hat); [by vm_compute..|].
  exists s'. eexists. split; [exact Hw|]. split; [apply (Hat 1 (wit_job 5 1)); by vm_compute|]. by vm_compute.
Defined.

Lemma background_read_stops_witness : exists s' t, read wit_terms 2 0 Slave 16 false 0 0 0 = Ret (USIZE_MAX, [], s') /\
  task_at (sched_of s') 2 = Some t /\ halted t.
Proof.
  destruct (background_read_stops wit_terms 2 0 (pty_new 0) (wit_job 6 2) 5 16 false 0 0 0 wit_terms_ok)
    as (s' & Hr & _ & _ & Hst); [by vm_compute..|].
  destruct (Hst 2 (wit_job 6 2) (wit_job 6 2)) as (u' & Hu' & Hh); [by vm_compute..|]. exists s', u'. split; [exact Hr|]. split; [exact Hu'|].
  assert (member (pgid (wit_job 6 2)) (leader_slot (wit_job 6 2)) (wit_job 6 2) = true) as Hm by (by vm_compute). rewrite Hm in Hh.
  apply (reacts_default SIGTTIN (wit_job 6 2) (leader_slot (wit_job 6 2)) 2 (wit_job 6 2) u'); [by vm_compute..|exact Hh].
Defined.

(** ** Two defects *)

(** Input left over from raw mode is handed out as part of the first canonical
    lines: after [ab] arrives in raw mode and [hi] is typed as a line, the line
    read is [abh]. *)
Lemma raw_bytes_break_lines :
  ('(_, s) ← write (set_mode wit_terms 0 false true true).2 1 0 Master [0x61; 0x62] false;
   '(_, s) ← write (set_mode s 0 true true true).2 1 0 Master [0x68; 0x69; 0x0a] false;
   '(n, out, _) ← read s 1 0 Slave 64 false 0 0 0;
   Ret (n, out)) = Ret (3, [0x61; 0x62; 0x68]).
Proof. by vm_compute. Qed.

(** A raw read with a time limit and no input asks its caller to block however
    long it has waited before, because each call starts the limit anew. *)
Lemma vtime_restarts {F} `{!FileStore F} (s : Terminals F) slot id p len now now' now'' :
  pty_at s id = Some p -> canonical p = false -> to_slave p = [] -> 0 < master_refs p ->
  get (cc p) VMIN = Some 0 -> cc_at p VTIME <> 0 -> 0 < cc_at p VTIME -> 0 < len -> background_slave_group s slot id = None ->
  now'' < saturating_add 64 now (cc_at p VTIME * 100) ->
  read s slot id Slave len false now now' now'' = Ret (WOULD_BLOCK, [], s).
Proof.
  intros Hp Hc Hq Hm Hv0 Hne Hpos Hl Hbg Hnow. unfold cc_at in *. unfold read, check_background, termios.
  rewrite (proj2 (Z.eqb_neq _ _)), Hbg, bind_Ret_l by lia. cbv beta iota. rewrite Hp. simpl. rewrite Hc, Hv0. simpl.
  rewrite Z.min_l by lia. rewrite (proj2 (Z.eqb_neq (_ * 100) 0)) by lia. simpl. unfold read_timed, check_background. rewrite Hbg, bind_Ret_l.
  cbv beta iota. unfold try_read_inner, read_pty. rewrite Hp, Hc, Hq, (proj2 (Z.ltb_lt _ _) Hm), take_nil, drop_nil. simpl.
  rewrite (proj2 (Z.eqb_neq (_ * 100) 0)) by lia. simpl. rewrite (proj2 (Z.leb_gt _ _)) by lia.
  f_equal. f_equal. rewrite <- Hq. replace (p <| to_slave := to_slave p |>) with p by (by destruct p). by rewrite put_same.
Qed.
