(* ===== verification/Bytes.v ===== *)
(** * Bytes

    Little-endian integers, packed structures as byte sequences
    ([read_unaligned] and [write_unaligned] on a buffer), and the check of
    [core::str::from_utf8].  The components that keep their data on a block
    device share these definitions. *)

From S2P Require Import Prelude.

Definition is_byte (b : Z) : Prop := 0 <= b < 256.

(** [mul] with overflow checks *)
Definition mul_u (w a b : Z) : outcome Z := if a * b <? 2 ^ w then Ret (a * b) else Panic.

(** ** Integers *)

(** [to_le_bytes] for [n] bytes, [from_le_bytes] *)
Fixpoint le_bytes (n : nat) (z : Z) : list Z :=
  match n with O => [] | S n => z mod 256 :: le_bytes n (z / 256) end.
Fixpoint of_le (l : list Z) : Z := match l with [] => 0 | b :: l => b + 256 * of_le l end.

Lemma le_bytes_length n : forall z, length (le_bytes n z) = n.
Proof. induction n as [|n IH]; intros z; simpl; [done|by rewrite IH]. Qed.

Lemma le_bytes_bytes n : forall z, Forall is_byte (le_bytes n z).
Proof. induction n as [|n IH]; intros z; simpl; constructor; [apply Z.mod_pos_bound; lia|done]. Qed.

Lemma of_le_bytes n : forall z, 0 <= z < 256 ^ Z.of_nat n -> of_le (le_bytes n z) = z.
Proof.
  induction n as [|n IH]; intros z Hz; cbn [le_bytes of_le]; [change (256 ^ Z.of_nat 0) with 1 in Hz; lia|].
  rewrite Nat2Z.inj_succ, Z.pow_succ_r in Hz by lia. rewrite IH.
  - pose proof (Z.div_mod z 256). lia.
  - split; [apply Z.div_pos; lia|apply Z.div_lt_upper_bound; lia].
Qed.

Lemma le_of_bytes l : Forall is_byte l -> le_bytes (length l) (of_le l) = l.
Proof.
  induction l as [|b l IH]; intros Hl; [done|]. apply Forall_cons in Hl as [Hb Hl]. unfold is_byte in Hb. cbn [length of_le le_bytes].
  replace (b + 256 * of_le l) with (b + of_le l * 256) by lia.
  rewrite Z.mod_add, Z.mod_small, Z.div_add, Z.div_small by lia. by rewrite Z.add_0_l, IH.
Qed.

Lemma of_le_range l : Forall is_byte l -> 0 <= of_le l < 256 ^ zlen l.
Proof.
  induction l as [|b l IH]; intros Hl; [done|]. apply Forall_cons in Hl as [Hb Hl]. specialize (IH Hl). unfold is_byte in Hb.
  rewrite zlen_cons, Z.pow_add_r by (pose proof (zlen_nonneg l); lia). cbn [of_le]. change (256 ^ 1) with 256. lia.
Qed.

(** ** Packed structures *)

(** The fields of a structure one after the other, each with its width. *)
Fixpoint pack (fields : list (nat * Z)) : list Z :=
  match fields with [] => [] | (n, z) :: l => le_bytes n z ++ pack l end.
Fixpoint unpack (widths : list nat) (l : list Z) : list Z :=
  match widths with [] => [] | n :: ws => of_le (take n l) :: unpack ws (drop n l) end.

Lemma unpack_pack fields rest : Forall (fun f => 0 <= f.2 < 256 ^ Z.of_nat f.1) fields ->
  unpack fields.*1 (pack fields ++ rest) = fields.*2.
Proof.
  induction fields as [|[n z] l IH]; intros Hf; [done|]. apply Forall_cons in Hf as [Hz Hf]. cbn [fmap list_fmap unpack pack fst snd].
  rewrite <- app_assoc, take_app_length', drop_app_length' by (by rewrite le_bytes_length). rewrite of_le_bytes by done.
  f_equal. by apply IH.
Qed.

Lemma unpack_take ws : forall l m, (sum_list ws <= m)%nat -> unpack ws (take m l) = unpack ws l.
Proof.
  induction ws as [|n ws IH]; intros l m Hm; [done|]. cbn in *. rewrite take_take, Nat.min_l by lia.
  f_equal. rewrite List.skipn_firstn_comm. apply IH. lia.
Qed.

Lemma pack_length fields : length (pack fields) = sum_list fields.*1.
Proof. induction fields as [|[n z] l IH]; [done|]. cbn [pack fmap list_fmap sum_list fst]. by rewrite length_app, le_bytes_length, IH. Qed.

Lemma pack_bytes fields : Forall is_byte (pack fields).
Proof. induction fields as [|[n z] l IH]; [constructor|]. apply Forall_app. split; [apply le_bytes_bytes|done]. Qed.

(** A plain structure: its bytes and its reading from bytes. *)
Class Pod (T : Type) : Type := { pod_size : nat; to_bytes : T -> list Z; of_bytes : list Z -> T }.
Arguments pod_size T {_} : assert.

(** What reading and writing a value as bytes rely on. *)
Class PodLaws (T : Type) `{!Pod T} (typed : T -> Prop) : Prop := {
  to_bytes_length t : typed t -> length (to_bytes t) = pod_size T;
  to_bytes_bytes t : Forall is_byte (to_bytes t);
  of_to_bytes t rest : typed t -> of_bytes (to_bytes t ++ rest) = t;
  of_bytes_take l : of_bytes (take (pod_size T) l) = of_bytes l
}.

(** ** Buffers *)

(** A copy into a buffer at an offset, and the bytes at an offset. *)
Definition splice (buf : list Z) (off : nat) (data : list Z) : list Z :=
  take off buf ++ data ++ drop (off + length data) buf.
Definition slice (buf : list Z) (off n : nat) : list Z := take n (drop off buf).

Lemma splice_length buf off data : (off + length data <= length buf)%nat -> length (splice buf off data) = length buf.
Proof. intros H. unfold splice. rewrite !length_app, length_take, length_drop. lia. Qed.

Lemma drop_splice buf off data : (off + length data <= length buf)%nat ->
  drop off (splice buf off data) = data ++ drop (off + length data) buf.
Proof. intros H. unfold splice. by rewrite drop_app_length' by (rewrite length_take; lia). Qed.

Lemma slice_splice_same buf off data : (off + length data <= length buf)%nat -> slice (splice buf off data) off (length data) = data.
Proof. intros H. unfold slice. rewrite drop_splice by done. by rewrite take_app_length. Qed.

Lemma slice_splice_before buf off data o n : (off + length data <= length buf)%nat -> (o + n <= off)%nat ->
  slice (splice buf off data) o n = slice buf o n.
Proof.
  intros H Hb. unfold slice, splice. rewrite drop_app_le by (rewrite length_take; lia).
  rewrite take_app_le by (rewrite length_drop, length_take; lia). rewrite List.skipn_firstn_comm, take_take. f_equal. lia.
Qed.

Lemma slice_splice_after buf off data o n : (off + length data <= length buf)%nat -> (off + length data <= o)%nat ->
  slice (splice buf off data) o n = slice buf o n.
Proof.
  intros H Ha. unfold slice. f_equal. unfold splice. rewrite app_assoc, drop_app_ge by (rewrite length_app, length_take; lia).
  rewrite drop_drop. f_equal. rewrite length_app, length_take. lia.
Qed.

Lemma splice_bytes buf off data : Forall is_byte buf -> Forall is_byte data -> Forall is_byte (splice buf off data).
Proof. intros Hb Hd. unfold splice. rewrite !Forall_app. split_and!; [by apply Forall_take|done|by apply Forall_drop]. Qed.

(** Parts of the same length one after the other. *)
Lemma concat_length_all {A} (n : nat) (l : list (list A)) : Forall (fun x => length x = n) l -> length (concat l) = (length l * n)%nat.
Proof. induction 1 as [|x l Hx Hl IH]; [done|]. cbn [concat length]. rewrite length_app, IH, Hx. lia. Qed.

Lemma concat_splice m (ls : list (list Z)) : Forall (fun x => length x = m) ls -> forall k x o d, ls !! k = Some x -> (o + length d <= m)%nat ->
  concat (<[k := splice x o d]> ls) = splice (concat ls) (k * m + o) d.
Proof.
  induction 1 as [|y ls Hy Hls IH]; intros k x o d Hk Ho; [done|]. destruct k as [|k]; simpl in Hk |- *.
  - injection Hk as ->. unfold splice. rewrite take_app_le, drop_app_le by lia. by rewrite <- !app_assoc.
  - rewrite (IH k x) by done. unfold splice. rewrite take_app_ge, drop_app_ge by lia. rewrite <- app_assoc. f_equal. subst m.
    replace (length y + k * length y + o - length y)%nat with (k * length y + o)%nat by lia.
    by replace (length y + k * length y + o + length d - length y)%nat with (k * length y + o + length d)%nat by lia.
Qed.

Lemma concat_slice m (ls : list (list Z)) : Forall (fun x => length x = m) ls -> forall k x o n, ls !! k = Some x -> (o + n <= m)%nat ->
  slice (concat ls) (k * m + o) n = slice x o n.
Proof.
  induction 1 as [|y ls Hy Hls IH]; intros k x o n Hk Ho; [done|]. destruct k as [|k]; simpl in Hk |- *.
  - injection Hk as ->. unfold slice. rewrite drop_app_le, take_app_le by (rewrite ?length_drop; lia). done.
  - rewrite <- (IH k x o n) by done. unfold slice. rewrite drop_app_ge by lia. do 2 f_equal. lia.
Qed.

Lemma splice_splice buf off d1 d2 : (off + length d1 + length d2 <= length buf)%nat ->
  splice (splice buf off d1) (off + length d1) d2 = splice buf off (d1 ++ d2).
Proof.
  intros H. unfold splice at 1. unfold splice at 1 2. set (rest := drop (off + length d1) buf).
  assert (length (take off buf ++ d1) = off + length d1)%nat as Hl by (rewrite length_app, length_take; lia).
  rewrite !(app_assoc (take off buf) d1 rest), take_app_length' by done. rewrite drop_app_ge by lia. unfold rest, splice.
  rewrite drop_drop, Hl, <- !app_assoc. do 4 f_equal. rewrite length_app. lia.
Qed.

Lemma slice_slice l off a b : slice l off a ++ slice l (off + a) b = slice l off (a + b).
Proof. unfold slice. by rewrite <- drop_drop, take_take_drop. Qed.

(** ** Bitmaps *)

(** Bit [i] of a bitmap, setting and clearing it. *)
Definition bit_at (bm : list Z) (i : Z) : bool := Z.testbit (default 0 (get bm (i / 8))) (i mod 8).
Definition set_bit (bm : list Z) (i : Z) : list Z :=
  alter (fun b => Z.lor b (Z.shiftl 1 (i mod 8))) (Z.to_nat (i / 8)) bm.
Definition clear_bit (bm : list Z) (i : Z) : list Z :=
  alter (fun b => Z.land b (not_u 8 (Z.shiftl 1 (i mod 8)))) (Z.to_nat (i / 8)) bm.

Lemma get_alter (l : list Z) f i k : 0 <= i -> get (alter f (Z.to_nat i) l) k = if i =? k then f <$> get l k else get l k.
Proof.
  intros Hi. unfold get. destruct (Z.ltb_spec k 0), (Z.eqb_spec i k); try done.
  - subst. by rewrite list_lookup_alter_eq.
  - apply list_lookup_alter_ne. lia.
Qed.

Lemma bit_index i j : 0 <= i -> 0 <= j -> i / 8 = j / 8 -> i mod 8 = j mod 8 -> i = j.
Proof. intros. pose proof (Z.div_mod i 8). pose proof (Z.div_mod j 8). lia. Qed.

Lemma bit_set bm i j : 0 <= i < 8 * zlen bm -> 0 <= j -> bit_at (set_bit bm i) j = (i =? j) || bit_at bm j.
Proof.
  intros Hi Hj. unfold bit_at, set_bit. pose proof (Z.mod_pos_bound i 8). pose proof (Z.mod_pos_bound j 8). pose proof (Z.div_mod i 8).
  rewrite get_alter by (apply Z.div_pos; lia). destruct (Z.eqb_spec (i / 8) (j / 8)) as [He|Hne].
  - rewrite <- He. destruct (get bm (i / 8)) as [v|] eqn:Hg; [|apply get_None in Hg; lia].
    cbn. rewrite Z.lor_spec, Z.shiftl_1_l, orb_comm. f_equal.
    rewrite Z.pow2_bits_eqb by lia. destruct (Z.eqb_spec i j) as [->|Hij]; [apply Z.eqb_refl|].
    apply Z.eqb_neq. intros Hm. apply Hij, bit_index; [lia..|done|lia].
  - destruct (Z.eqb_spec i j) as [->|]; done.
Qed.

Lemma bit_clear bm i j : 0 <= i < 8 * zlen bm -> 0 <= j -> bit_at (clear_bit bm i) j = negb (i =? j) && bit_at bm j.
Proof.
  intros Hi Hj. unfold bit_at, clear_bit. pose proof (Z.mod_pos_bound i 8). pose proof (Z.mod_pos_bound j 8). pose proof (Z.div_mod i 8).
  rewrite get_alter by (apply Z.div_pos; lia). destruct (Z.eqb_spec (i / 8) (j / 8)) as [He|Hne].
  - rewrite <- He. destruct (get bm (i / 8)) as [v|] eqn:Hg; [|apply get_None in Hg; lia].
    cbn. rewrite Z.land_spec, andb_comm. f_equal.
    unfold not_u. rewrite Z.lxor_spec, Z.ones_spec_low, xorb_true_r, Z.shiftl_1_l, Z.pow2_bits_eqb by lia. f_equal. destruct (Z.eqb_spec i j) as [->|Hij]; [apply Z.eqb_refl|].
    apply Z.eqb_neq. intros Hm. apply Hij, bit_index; [lia..|done|lia].
  - destruct (Z.eqb_spec i j) as [->|]; done.
Qed.

Lemma set_bit_length bm i : length (set_bit bm i) = length bm.
Proof. apply length_alter. Qed.
Lemma clear_bit_length bm i : length (clear_bit bm i) = length bm.
Proof. apply length_alter. Qed.

Lemma bit_at_app bm rest i : 0 <= i < 8 * zlen bm -> bit_at (bm ++ rest) i = bit_at bm i.
Proof.
  intros Hi. unfold bit_at, get, zlen in *. pose proof (Z.div_lt_upper_bound i 8 (Z.of_nat (length bm))).
  zcase; [done|]. rewrite lookup_app_l by lia. done.
Qed.

(** ** UTF-8 *)

(** A continuation byte between two bounds. *)
Definition cont (lo hi b : Z) : bool := (lo <=? b) && (b <=? hi).

(** Whether [core::str::from_utf8] accepts the bytes. *)
Fixpoint utf8_valid (l : list Z) : bool :=
  match l with
  | [] => true
  | a :: l =>
      if a <? 0x80 then utf8_valid l
      else if cont 0xC2 0xDF a then match l with b :: l => cont 0x80 0xBF b && utf8_valid l | _ => false end
      else if cont 0xE0 0xEF a then
        match l with
        | b :: c :: l =>
            cont (if a =? 0xE0 then 0xA0 else 0x80) (if a =? 0xED then 0x9F else 0xBF) b && cont 0x80 0xBF c && utf8_valid l
        | _ => false
        end
      else if cont 0xF0 0xF4 a then
        match l with
        | b :: c :: d :: l =>
            cont (if a =? 0xF0 then 0x90 else 0x80) (if a =? 0xF4 then 0x8F else 0xBF) b &&
            cont 0x80 0xBF c && cont 0x80 0xBF d && utf8_valid l
        | _ => false
        end
      else false
  end.

(** [from_utf8(l).unwrap_or(d)] *)
Definition utf8_or (d l : list Z) : list Z := if utf8_valid l then l else d.
