(* ===== verification/LineEdit.v ===== *)
(** * The command line of the shell

    Model of [apps/shell/src/line_editor.rs], of the input decoder and the key
    handler of [apps/shell/src/main.rs].  A string is the list of its
    characters, a character its code point; offsets into a string are byte
    offsets of its UTF-8 encoding, as in the source, and slicing at an offset
    that is not a character boundary panics.  Running a command, completing a
    path and saving the history are parameters; redrawing has no effect on
    this state. *)

From S2P Require Import Prelude Bytes.

(** ** Characters and strings *)

(** [char::len_utf8], [char::is_whitespace] *)
Definition len_utf8 (c : Z) : Z := if c <? 0x80 then 1 else if c <? 0x800 then 2 else if c <? 0x10000 then 3 else 4.
Definition is_whitespace (c : Z) : bool :=
  ((9 <=? c) && (c <=? 13)) || (c =? 32) || (c =? 0x85) || (c =? 0xA0) || (c =? 0x1680) || ((0x2000 <=? c) && (c <=? 0x200A)) ||
  (c =? 0x2028) || (c =? 0x2029) || (c =? 0x202F) || (c =? 0x205F) || (c =? 0x3000).

(** The UTF-8 encoding of a character. *)
Definition encode (c : Z) : list Z :=
  if c <? 0x80 then [c]
  else if c <? 0x800 then [0xC0 + c / 64; 0x80 + c mod 64]
  else if c <? 0x10000 then [0xE0 + c / 4096; 0x80 + (c / 64) mod 64; 0x80 + c mod 64]
  else [0xF0 + c / 262144; 0x80 + (c / 4096) mod 64; 0x80 + (c / 64) mod 64; 0x80 + c mod 64].

(** [from_utf8(l).ok().and_then(|s| s.chars().next())] *)
Definition first_char (l : list Z) : option Z :=
  if utf8_valid l then
    match l with
    | [] => None
    | a :: l =>
        if a <? 0x80 then Some a
        else if a <? 0xE0 then match l with b :: _ => Some (a mod 32 * 64 + b mod 64) | _ => None end
        else if a <? 0xF0 then match l with b :: c :: _ => Some (a mod 16 * 4096 + b mod 64 * 64 + c mod 64) | _ => None end
        else match l with b :: c :: d :: _ => Some (a mod 8 * 262144 + b mod 64 * 4096 + c mod 64 * 64 + d mod 64) | _ => None end
    end
  else None.

(** [str::len] *)
Fixpoint blen (t : list Z) : Z := match t with [] => 0 | c :: t => len_utf8 c + blen t end.

(** [str::split_at] *)
Fixpoint split_bytes (t : list Z) (k : Z) : outcome (list Z * list Z) :=
  if k =? 0 then Ret ([], t) else
  match t with
  | [] => Panic
  | c :: t => if k <? len_utf8 c then Panic else '(a, b) ← split_bytes t (k - len_utf8 c); Ret (c :: a, b)
  end.

(** [String::drain], [String::insert], [String::truncate],
    [str::is_char_boundary] *)
Definition drain (t : list Z) (from to : Z) : outcome (list Z) :=
  '(a, rest) ← split_bytes t from; '(_, b) ← split_bytes rest (to - from); Ret (a ++ b).
Definition insert_char (t : list Z) (k c : Z) : outcome (list Z) := '(a, b) ← split_bytes t k; Ret (a ++ c :: b).
Definition truncate (t : list Z) (k : Z) : outcome (list Z) := if blen t <? k then Ret t else '(a, _) ← split_bytes t k; Ret a.
Definition is_char_boundary (t : list Z) (k : Z) : bool := match split_bytes t k with Ret _ => true | Panic => false end.

(** ** The editor *)

Record LineEditor : Type := mkEditor { text : list Z; cursor : Z }.
#[global] Instance LineEditor_eta : Eta LineEditor := fun e => mkEditor (text e) (cursor e).

Implicit Types (e : LineEditor).

Definition editor_new : LineEditor := mkEditor [] 0.
(** [cursor_chars], [chars_after_cursor] *)
Definition cursor_chars e : outcome Z := '(a, _) ← split_bytes (text e) (cursor e); Ret (zlen a).
Definition chars_after_cursor e : outcome Z := '(_, b) ← split_bytes (text e) (cursor e); Ret (zlen b).

(** [prev_boundary], [next_boundary] *)
Definition prev_boundary e : outcome (option Z) :=
  if cursor e =? 0 then Ret None else
  '(a, _) ← split_bytes (text e) (cursor e);
  Ret (match last a with Some c => Some (cursor e - len_utf8 c) | None => None end).
Definition next_boundary e : outcome (option Z) :=
  if blen (text e) <=? cursor e then Ret None else
  '(_, b) ← split_bytes (text e) (cursor e);
  Ret (match b with c :: _ => Some (cursor e + len_utf8 c) | [] => None end).

Definition set (s : list Z) : LineEditor := mkEditor s (blen s).
(** The loop of [set_with_cursor] to a boundary. *)
Fixpoint back_to_boundary (n : nat) (s : list Z) (k : Z) : Z :=
  match n with
  | O => k
  | S n => if (0 <? k) && negb (is_char_boundary s k) then back_to_boundary n s (k - 1) else k
  end.
Definition set_with_cursor (s : list Z) (k : Z) : LineEditor :=
  let k := Z.min k (blen s) in mkEditor s (back_to_boundary (Z.to_nat k) s k).
Definition clear : LineEditor := editor_new.
(** [take]: the text, and an empty editor *)
Definition take_text e : list Z * LineEditor := (text e, editor_new).

Definition insert e (c : Z) : outcome LineEditor :=
  t ← insert_char (text e) (cursor e) c; Ret (mkEditor t (cursor e + len_utf8 c)).
Definition backspace e : outcome (bool * LineEditor) :=
  o ← prev_boundary e;
  match o with
  | None => Ret (false, e)
  | Some prev => t ← drain (text e) prev (cursor e); Ret (true, mkEditor t prev)
  end.
Definition delete e : outcome (bool * LineEditor) :=
  o ← next_boundary e;
  match o with
  | None => Ret (false, e)
  | Some next => t ← drain (text e) (cursor e) next; Ret (true, e <| text := t |>)
  end.
Definition left e : outcome (bool * LineEditor) :=
  o ← prev_boundary e; Ret (match o with None => (false, e) | Some prev => (true, e <| cursor := prev |>) end).
Definition right e : outcome (bool * LineEditor) :=
  o ← next_boundary e; Ret (match o with None => (false, e) | Some next => (true, e <| cursor := next |>) end).
Definition home e : bool * LineEditor := if cursor e =? 0 then (false, e) else (true, e <| cursor := 0 |>).
Definition end_ e : bool * LineEditor :=
  if cursor e =? blen (text e) then (false, e) else (true, e <| cursor := blen (text e) |>).
Definition kill_before e : outcome (bool * LineEditor) :=
  if cursor e =? 0 then Ret (false, e) else t ← drain (text e) 0 (cursor e); Ret (true, mkEditor t 0).
Definition kill_after e : outcome (bool * LineEditor) :=
  if cursor e =? blen (text e) then Ret (false, e) else t ← truncate (text e) (cursor e); Ret (true, e <| text := t |>).

(** The loops of [delete_prev_word]: the cursor moves left while the character
    before it satisfies [p]; a text has at most [fuel] characters. *)
Fixpoint skip_back (fuel : nat) (p : Z -> bool) e : outcome LineEditor :=
  match fuel with
  | O => Ret e
  | S fuel =>
      o ← prev_boundary e;
      match o with
      | None => Ret e
      | Some prev =>
          '(_, rest) ← split_bytes (text e) prev;
          '(word, _) ← split_bytes rest (cursor e - prev);
          if p (default 32 (head word)) then skip_back fuel p (e <| cursor := prev |>) else Ret e
      end
  end.
Definition delete_prev_word e : outcome (bool * LineEditor) :=
  if cursor e =? 0 then Ret (false, e) else
  let original := cursor e in
  e ← skip_back (length (text e)) is_whitespace e;
  e ← skip_back (length (text e)) (fun c => negb (is_whitespace c)) e;
  t ← drain (text e) (cursor e) original;
  Ret (true, e <| text := t |>).

(** The operations; the result says whether the line or the cursor changed. *)
Inductive edit : Type :=
  | Insert (c : Z) | Backspace | Delete | Left | Right | Home | End_ | KillBefore | KillAfter | DeletePrevWord
  | Set_ (s : list Z) | SetWithCursor (s : list Z) (k : Z) | Clear.
Definition run_edit e (op : edit) : outcome (bool * LineEditor) :=
  match op with
  | Insert c => e ← insert e c; Ret (true, e)
  | Backspace => backspace e
  | Delete => delete e
  | Left => left e
  | Right => right e
  | Home => Ret (home e)
  | End_ => Ret (end_ e)
  | KillBefore => kill_before e
  | KillAfter => kill_after e
  | DeletePrevWord => delete_prev_word e
  | Set_ s => Ret (true, set s)
  | SetWithCursor s k => Ret (true, set_with_cursor s k)
  | Clear => Ret (true, clear)
  end.

(** Dropping the last characters that satisfy a predicate. *)
Fixpoint drop_while (p : Z -> bool) (l : list Z) : list Z :=
  match l with [] => [] | c :: l' => if p c then drop_while p l' else l end.
Definition trim_right (p : Z -> bool) (a : list Z) : list Z := rev (drop_while p (rev a)).

(** ** Keys *)

Inductive InputKey : Type :=
  | Char (c : Z) | KEnter | KBackspace | KDelete | KLeft | KRight | KUp | KDown | KHome | KEnd | KTab | Ctrl (b : Z) | PageUp | PageDown.

Record InputDecoder : Type := mkDecoder { esc : list Z; esc_len : Z; utf8 : list Z; utf8_len : Z; utf8_need : Z }.
#[global] Instance InputDecoder_eta : Eta InputDecoder := fun d => mkDecoder (esc d) (esc_len d) (utf8 d) (utf8_len d) (utf8_need d).
Definition decoder_new : InputDecoder := mkDecoder (replicate 8 0) 0 (replicate 4 0) 0 0.

(** The key of a complete escape sequence. *)
Definition escape_key (seq : list Z) : option InputKey :=
  match seq with
  | [0x1b; m; k] =>
      if (m =? 0x5b) || (m =? 0x4f) then
        if k =? 0x41 then Some KUp else if k =? 0x42 then Some KDown else if k =? 0x43 then Some KRight else if k =? 0x44 then Some KLeft
        else if k =? 0x48 then Some KHome else if k =? 0x46 then Some KEnd else None
      else None
  | [0x1b; 0x5b; k; 0x7e] =>
      if k =? 0x31 then Some KHome else if k =? 0x34 then Some KEnd else if k =? 0x33 then Some KDelete
      else if k =? 0x35 then Some PageUp else if k =? 0x36 then Some PageDown else None
  | _ => None
  end.
Definition is_ascii_alphabetic (b : Z) : bool := ((0x41 <=? b) && (b <=? 0x5a)) || ((0x61 <=? b) && (b <=? 0x7a)).

(** The first byte of a multi-byte character. *)
Definition start_utf8 (d : InputDecoder) (b need : Z) : outcome (option InputKey * InputDecoder) :=
  u ← upd (utf8 d) 0 b; Ret (None, d <| utf8 := u |> <| utf8_len := 1 |> <| utf8_need := need |>).

(** [InputDecoder::feed] *)
Definition feed (d : InputDecoder) (b : Z) : outcome (option InputKey * InputDecoder) :=
  if negb (utf8_need d =? 0) then
    if (zlen (utf8 d) <=? utf8_len d) || negb (Z.land b 0xc0 =? 0x80) then Ret (None, d <| utf8_len := 0 |> <| utf8_need := 0 |>) else
    u ← upd (utf8 d) (utf8_len d) b;
    let d := d <| utf8 := u |> <| utf8_len := utf8_len d + 1 |> in
    if utf8_len d =? utf8_need d then
      Ret (Char <$> first_char (take (Z.to_nat (utf8_len d)) (utf8 d)), d <| utf8_len := 0 |> <| utf8_need := 0 |>)
    else Ret (None, d)
  else if negb (esc_len d =? 0) then
    if esc_len d <? zlen (esc d) then
      l ← upd (esc d) (esc_len d) b;
      let d := d <| esc := l |> <| esc_len := esc_len d + 1 |> in
      if negb (is_ascii_alphabetic b || (b =? 0x7e)) then Ret (None, d) else
      Ret (escape_key (take (Z.to_nat (esc_len d)) (esc d)), d <| esc_len := 0 |>)
    else Ret (None, d <| esc_len := 0 |>)
  else if b =? 0x1b then l ← upd (esc d) 0 0x1b; Ret (None, d <| esc := l |> <| esc_len := 1 |>)
  else if (b =? 0x0d) || (b =? 0x0a) then Ret (Some KEnter, d)
  else if (b =? 0x08) || (b =? 0x7f) then Ret (Some KBackspace, d)
  else if b =? 0x09 then Ret (Some KTab, d)
  else if (0x01 <=? b) && (b <=? 0x1a) then Ret (Some (Ctrl b), d)
  else if (0x20 <=? b) && (b <=? 0x7e) then Ret (Some (Char b), d)
  else if (0xc2 <=? b) && (b <=? 0xdf) then start_utf8 d b 2
  else if (0xe0 <=? b) && (b <=? 0xef) then start_utf8 d b 3
  else if (0xf0 <=? b) && (b <=? 0xf4) then start_utf8 d b 4
  else Ret (None, d).

(** ** The key handler *)

Definition MAX_INPUT : Z := 1024.
Definition CMD_HISTORY_MAX : Z := 64.

Inductive CompletionResult : Type := CNone | Replace (s : list Z) | Listed.

(** [str::trim] *)
Definition trim (s : list Z) : list Z := trim_right is_whitespace (drop_while is_whitespace s).

Section Keys.
  Context {Sh : Type}.
  Variables (interpret : list Z -> Sh -> Sh) (should_exit : Sh -> bool) (exit_shell interrupt_status : Sh -> Sh)
    (complete : list Z -> Sh -> CompletionResult * Sh).

Record Input : Type := mkInput { shell : Sh; editor : LineEditor; cmd_hist : list (list Z); hist_pos : option Z; draft : list Z }.
#[global] Instance Input_eta : Eta Input := fun s => mkInput (shell s) (editor s) (cmd_hist s) (hist_pos s) (draft s).

Implicit Types (s : Input).

(** [redraw_editor]: only counting the characters after the cursor can fail. *)
Definition redraw s : outcome Input := _ ← chars_after_cursor (editor s); Ret s.

(** An operation of the editor that redraws when it changed something. *)
Definition edit_line s (op : edit) (forget : bool) : outcome Input :=
  '(changed, e) ← run_edit (editor s) op;
  let s := s <| editor := e |> in
  if changed : bool then redraw (if forget then s <| hist_pos := None |> else s) else Ret s.

(** The history with a command. *)
Definition remember (hist : list (list Z)) (cmd : list Z) : list (list Z) :=
  if bool_decide (cmd = [] \/ last hist = Some cmd) then hist else
  let hist := hist ++ [cmd] in if CMD_HISTORY_MAX <? zlen hist then drop 1 hist else hist.

Definition key_enter s : outcome Input :=
  let '(cmd, e) := take_text (editor s) in
  let trimmed := trim cmd in
  let s := s <| editor := e |> <| cmd_hist := remember (cmd_hist s) trimmed |> <| hist_pos := None |> <| draft := [] |> in
  let s := if bool_decide (trimmed = []) then s else s <| shell := interpret cmd (shell s) |> in
  if should_exit (shell s) then Ret s else redraw s.
Definition key_up s : outcome Input :=
  if bool_decide (cmd_hist s = []) then Ret s else
  let '(next, d) := match hist_pos s with
                    | None => (zlen (cmd_hist s) - 1, text (editor s))
                    | Some i => (if i =? 0 then 0 else i - 1, draft s)
                    end in
  line ← idx (cmd_hist s) next;
  redraw (s <| draft := d |> <| hist_pos := Some next |> <| editor := set line |>).
Definition key_down s : outcome Input :=
  match hist_pos s with
  | None => Ret s
  | Some i =>
      if i + 1 <? zlen (cmd_hist s) then
        line ← idx (cmd_hist s) (i + 1); redraw (s <| hist_pos := Some (i + 1) |> <| editor := set line |>)
      else redraw (s <| hist_pos := None |> <| editor := set (draft s) |>)
  end.
Definition key_tab s : outcome Input :=
  '(prefix, suffix) ← split_bytes (text (editor s)) (cursor (editor s));
  let '(r, sh) := complete prefix (shell s) in
  let s := s <| shell := sh |> in
  match r with
  | CNone => Ret s
  | Replace new => redraw (s <| editor := set_with_cursor (new ++ suffix) (blen new) |>)
  | Listed => redraw s
  end.

(** [handle_key] *)
Definition handle_key (key : InputKey) s : outcome Input :=
  '(edited, e) ← match key with
                 | Ctrl 0x01 => run_edit (editor s) Home
                 | Ctrl 0x05 => run_edit (editor s) End_
                 | Ctrl 0x15 => run_edit (editor s) KillBefore
                 | Ctrl 0x0b => run_edit (editor s) KillAfter
                 | Ctrl 0x17 => run_edit (editor s) DeletePrevWord
                 | _ => Ret (false, editor s)
                 end;
  let s := s <| editor := e |> in
  if edited : bool then redraw (s <| hist_pos := None |>) else
  match key with
  | Ctrl 0x03 => redraw (s <| editor := clear |> <| hist_pos := None |> <| draft := [] |> <| shell := interrupt_status (shell s) |>)
  | Ctrl 0x04 => if bool_decide (text (editor s) = []) then Ret (s <| shell := exit_shell (shell s) |>) else edit_line s Delete true
  | KEnter => key_enter s
  | KLeft => edit_line s Left false
  | KRight => edit_line s Right false
  | KHome => edit_line s Home false
  | KEnd => edit_line s End_ false
  | KDelete => edit_line s Delete true
  | KBackspace => edit_line s Backspace true
  | KUp => key_up s
  | KDown => key_down s
  | KTab => key_tab s
  | Char c => if blen (text (editor s)) <? MAX_INPUT then edit_line s (Insert c) true else Ret s
  | PageUp | PageDown | Ctrl _ => Ret s
  end.

(** The loop of [main] over the bytes that were read. *)
Fixpoint read_keys (d : InputDecoder) s (bytes : list Z) : outcome (InputDecoder * Input) :=
  match bytes with
  | [] => Ret (d, s)
  | b :: bytes =>
      '(o, d) ← feed d b;
      match o with
      | None => read_keys d s bytes
      | Some key => s ← handle_key key s; if should_exit (shell s) then Ret (d, s) else read_keys d s bytes
      end
  end.
End Keys.

(** ** The editor as two strings

    The characters before and after the cursor. *)

Lemma len_utf8_pos c : 1 <= len_utf8 c <= 4.
Proof. unfold len_utf8. repeat case_match; lia. Qed.

Lemma blen_app a b : blen (a ++ b) = blen a + blen b.
Proof. induction a as [|c a IH]; cbn [app blen]; lia. Qed.

Lemma blen_nonneg t : 0 <= blen t.
Proof. induction t as [|c t IH]; cbn [blen]; [lia|]. pose proof (len_utf8_pos c). lia. Qed.

Lemma blen_zero t : blen t = 0 -> t = [].
Proof. destruct t as [|c t]; [done|]. cbn [blen]. pose proof (len_utf8_pos c). pose proof (blen_nonneg t). lia. Qed.

Lemma split_bytes_at a b : split_bytes (a ++ b) (blen a) = Ret (a, b).
Proof.
  induction a as [|c a IH]; cbn [app blen]; [by destruct b|]. pose proof (len_utf8_pos c). pose proof (blen_nonneg a). cbn [split_bytes].
  rewrite (proj2 (Z.eqb_neq _ _)), (proj2 (Z.ltb_ge _ _)) by lia. replace (len_utf8 c + blen a - len_utf8 c) with (blen a) by lia.
  by rewrite IH.
Qed.

Lemma drain_at a b c : drain (a ++ b ++ c) (blen a) (blen a + blen b) = Ret (a ++ c).
Proof. unfold drain. rewrite split_bytes_at, bind_Ret_l. replace (blen a + blen b - blen a) with (blen b) by lia. by rewrite split_bytes_at. Qed.

(** The cursor stands between [a] and [b]. *)
Definition stands e (a b : list Z) : Prop := text e = a ++ b /\ cursor e = blen a.

Lemma prev_boundary_at e a b : stands e a b ->
  prev_boundary e = Ret (match last a with Some c => Some (cursor e - len_utf8 c) | None => None end).
Proof.
  intros [Ht Hc]. unfold prev_boundary. rewrite Ht, Hc. destruct (Z.eqb_spec (blen a) 0) as [Hz|Hz]; [by rewrite (blen_zero a Hz)|].
  by rewrite split_bytes_at.
Qed.

Lemma next_boundary_at e a b : stands e a b ->
  next_boundary e = Ret (match b with c :: _ => Some (cursor e + len_utf8 c) | [] => None end).
Proof.
  intros [Ht Hc]. unfold next_boundary. rewrite Ht, Hc, blen_app. destruct b as [|c b].
  - by rewrite (proj2 (Z.leb_le _ _)) by (simpl; lia).
  - pose proof (len_utf8_pos c). pose proof (blen_nonneg b). rewrite (proj2 (Z.leb_gt _ _)) by (simpl; lia). by rewrite split_bytes_at.
Qed.

Lemma last_snoc_cases (a : list Z) : a = [] \/ exists a' c, a = a' ++ [c].
Proof. destruct a as [|c a'] using rev_ind; [by left|right]. eauto. Qed.

Lemma stands_left e a c b : stands e (a ++ [c]) b -> stands (e <| cursor := cursor e - len_utf8 c |>) a (c :: b).
Proof. intros [Ht Hc]. split; simpl; [by rewrite Ht, <- app_assoc|]. rewrite Hc, blen_app. simpl. lia. Qed.

Lemma trim_right_snoc p a c : trim_right p (a ++ [c]) = if p c then trim_right p a else a ++ [c].
Proof. unfold trim_right. rewrite rev_unit. simpl. destruct (p c); [done|]. simpl. by rewrite rev_involutive. Qed.

Lemma trim_right_prefix p a : exists d, a = trim_right p a ++ d.
Proof.
  induction a as [|c a IH] using rev_ind; [by exists []|]. rewrite trim_right_snoc. destruct (p c); [|exists []; by rewrite app_nil_r].
  destruct IH as [d IH]. exists (d ++ [c]). rewrite IH at 1. by rewrite app_assoc.
Qed.

Lemma skip_back_at p a : forall fuel e b, stands e a b -> (length a <= fuel)%nat ->
  exists d, a = trim_right p a ++ d /\ skip_back fuel p e = Ret (mkEditor (text e) (blen (trim_right p a))).
Proof.
  induction a as [|c a IH] using rev_ind; intros fuel e b He Hfuel.
  - exists []. split; [done|]. destruct He as [Ht Hc]. assert (e = mkEditor (text e) 0) as Heq by (destruct e; simpl in *; by f_equal).
    destruct fuel as [|fuel]; cbn [skip_back]; [by rewrite Heq|]. rewrite (prev_boundary_at e [] b) by done. by rewrite Heq.
  - rewrite length_app in Hfuel. simpl in Hfuel. destruct fuel as [|fuel]; [lia|]. cbn [skip_back]. rewrite trim_right_snoc.
    rewrite (prev_boundary_at e _ b He), last_snoc, bind_Ret_l. pose proof He as [Ht Hc]. rewrite blen_app in Hc. simpl in Hc.
    replace (cursor e - len_utf8 c) with (blen a) by lia. rewrite Ht, <- app_assoc. cbn [app]. rewrite split_bytes_at, bind_Ret_l.
    replace (cursor e - blen a) with (blen [c]) by (simpl; lia). change (c :: b) with ([c] ++ b). rewrite split_bytes_at, bind_Ret_l. simpl.
    destruct (p c).
    + destruct (IH fuel (e <| cursor := blen a |>) (c :: b)) as (d & Hd & Hs); [split; simpl; [by rewrite Ht, <- app_assoc|done]|lia|].
      exists (d ++ [c]). split; [by rewrite app_assoc, <- Hd|]. rewrite Hs. simpl. by rewrite Ht, <- app_assoc.
    + exists []. rewrite app_nil_r. split; [done|]. rewrite blen_app. simpl. destruct e as [t k]. simpl in *. subst t. f_equal. f_equal; [by rewrite <- app_assoc|lia].
Qed.

(** The longest part of a string of at most [k] bytes, and the rest. *)
Fixpoint split_le (s : list Z) (k : Z) : list Z * list Z :=
  match s with
  | [] => ([], [])
  | c :: s' => if k <? len_utf8 c then ([], s) else let '(a, b) := split_le s' (k - len_utf8 c) in (c :: a, b)
  end.

(** The operations on the two strings. *)
Definition zip_edit (z : list Z * list Z) (op : edit) : bool * (list Z * list Z) :=
  let '(a, b) := z in
  match op with
  | Insert c => (true, (a ++ [c], b))
  | Backspace => match last a with Some _ => (true, (removelast a, b)) | None => (false, z) end
  | Delete => match b with _ :: b => (true, (a, b)) | [] => (false, z) end
  | Left => match last a with Some c => (true, (removelast a, c :: b)) | None => (false, z) end
  | Right => match b with c :: b => (true, (a ++ [c], b)) | [] => (false, z) end
  | Home => match a with [] => (false, z) | _ => (true, ([], a ++ b)) end
  | End_ => match b with [] => (false, z) | _ => (true, (a ++ b, [])) end
  | KillBefore => match a with [] => (false, z) | _ => (true, ([], b)) end
  | KillAfter => match b with [] => (false, z) | _ => (true, (a, [])) end
  | DeletePrevWord =>
      match a with [] => (false, z) | _ => (true, (trim_right (fun c => negb (is_whitespace c)) (trim_right is_whitespace a), b)) end
  | Set_ s => (true, (s, []))
  | SetWithCursor s k => (true, split_le s k)
  | Clear => (true, ([], []))
  end.

Lemma delete_prev_word_at e a b : stands e a b -> a <> [] -> let a' := trim_right (fun c => negb (is_whitespace c)) (trim_right is_whitespace a) in
  delete_prev_word e = Ret (true, mkEditor (a' ++ b) (blen a')).
Proof.
  intros He Ha. pose proof He as [Ht Hc]. unfold delete_prev_word.
  rewrite (proj2 (Z.eqb_neq _ _)) by (rewrite Hc; intros Hz%blen_zero; done).
  destruct (skip_back_at is_whitespace a (length (text e)) e b He) as (d & Hd & ->); [rewrite Ht, length_app; lia|]. rewrite bind_Ret_l.
  set (a1 := trim_right is_whitespace a) in *. cbn [text].
  destruct (skip_back_at (fun c => negb (is_whitespace c)) a1 (length (text e)) (mkEditor (text e) (blen a1)) (d ++ b)) as (d' & Hd' & ->).
  { split; [simpl; by rewrite Ht, Hd at 1; rewrite <- app_assoc|done]. }
  { rewrite Ht, Hd, !length_app. lia. }
  rewrite bind_Ret_l. set (a2 := trim_right _ a1) in *. cbn [text cursor].
  assert (text e = a2 ++ (d' ++ d) ++ b) as -> by (rewrite Ht, Hd, Hd' at 1; by rewrite <- !app_assoc).
  replace (cursor e) with (blen a2 + blen (d' ++ d)) by (rewrite Hc, <- blen_app, app_assoc, <- Hd'; by rewrite <- Hd).
  rewrite drain_at. done.
Qed.

Lemma split_le_app s : forall k, (split_le s k).1 ++ (split_le s k).2 = s.
Proof.
  induction s as [|c s IH]; intros k; [done|]. cbn [split_le]. destruct (k <? len_utf8 c); [done|].
  specialize (IH (k - len_utf8 c)). destruct (split_le s (k - len_utf8 c)). simpl in *. by f_equal.
Qed.

Lemma split_le_max s : forall k, 0 <= k ->
  blen (split_le s k).1 <= k /\ forall j, blen (split_le s k).1 < j <= k -> split_bytes s j = Panic.
Proof.
  induction s as [|c s IH]; intros k Hk; cbn [split_le].
  - simpl. split; [lia|]. intros j Hj. cbn [split_bytes]. by rewrite (proj2 (Z.eqb_neq _ _)) by lia.
  - destruct (Z.ltb_spec k (len_utf8 c)) as [Hlt|Hge].
    + simpl. split; [lia|]. intros j Hj. by rewrite (proj2 (Z.eqb_neq _ _)), (proj2 (Z.ltb_lt _ _)) by lia.
    + specialize (IH (k - len_utf8 c) ltac:(lia)). destruct (split_le s (k - len_utf8 c)) as [a b]. cbn [fst blen] in *. destruct IH as [H1 H2].
      pose proof (blen_nonneg a). pose proof (len_utf8_pos c). split; [lia|]. intros j Hj. cbn [split_bytes].
      rewrite (proj2 (Z.eqb_neq _ _)), (proj2 (Z.ltb_ge _ _)) by lia. by rewrite H2 by lia.
Qed.

Lemma back_ok n : forall a b k, blen a <= k <= blen a + Z.of_nat n ->
  (forall j, blen a < j <= k -> split_bytes (a ++ b) j = Panic) -> back_to_boundary n (a ++ b) k = blen a.
Proof.
  induction n as [|n IH]; intros a b k Hk Hp; cbn [back_to_boundary]; [lia|]. unfold is_char_boundary.
  destruct (decide (k = blen a)) as [->|Hne]; [rewrite split_bytes_at; by rewrite andb_false_r|].
  pose proof (blen_nonneg a). rewrite Hp by lia. rewrite (proj2 (Z.ltb_lt _ _)) by lia. simpl. apply IH; [lia|]. intros j Hj. apply Hp. lia.
Qed.

Lemma set_with_cursor_at s k : 0 <= k -> stands (set_with_cursor s k) (split_le s k).1 (split_le s k).2.
Proof.
  intros Hk. destruct (split_le_max s k Hk) as [H1 H2]. pose proof (split_le_app s k) as Hs. pose proof (blen_nonneg s).
  set (a := (split_le s k).1) in *. set (b := (split_le s k).2) in *. clearbody a b. subst s. pose proof (blen_nonneg a). pose proof (blen_nonneg b).
  rewrite blen_app in *. split; [done|]. unfold set_with_cursor. simpl. rewrite blen_app. apply back_ok; [lia|]. intros j Hj. apply H2. lia.
Qed.

Definition edit_ok (op : edit) : Prop := match op with SetWithCursor _ k => 0 <= k | _ => True end.

Lemma run_edit_at e a b op : stands e a b -> edit_ok op ->
  exists e', run_edit e op = Ret ((zip_edit (a, b) op).1, e') /\ stands e' (zip_edit (a, b) op).2.1 (zip_edit (a, b) op).2.2.
Proof.
  intros He Hop. pose proof He as [Ht Hc]. destruct op; cbn [run_edit zip_edit].
  - unfold insert, insert_char. rewrite Ht, Hc, split_bytes_at. eexists. split; [reflexivity|]. split; simpl; [by rewrite <- app_assoc|].
    rewrite blen_app. simpl. lia.
  - unfold backspace. rewrite (prev_boundary_at e a b He), bind_Ret_l. destruct (last_snoc_cases a) as [->|(a' & c & ->)]; [by exists e|].
    rewrite last_snoc, removelast_last, Ht, Hc, blen_app. simpl. replace (blen a' + (len_utf8 c + 0) - len_utf8 c) with (blen a') by lia.
    replace (len_utf8 c + 0) with (blen [c]) by (simpl; lia). rewrite <- app_assoc, drain_at. by eexists.
  - unfold delete. rewrite (next_boundary_at e a b He), bind_Ret_l. destruct b as [|c b]; [by exists e|]. rewrite Ht, Hc.
    replace (blen a + len_utf8 c) with (blen a + blen [c]) by (simpl; lia). change (c :: b) with ([c] ++ b). rewrite drain_at.
    eexists. by split; [reflexivity|].
  - unfold left. rewrite (prev_boundary_at e a b He), bind_Ret_l. destruct (last_snoc_cases a) as [->|(a' & c & ->)]; [by exists e|].
    rewrite last_snoc, removelast_last. eexists. split; [reflexivity|]. by apply stands_left.
  - unfold right. rewrite (next_boundary_at e a b He), bind_Ret_l. destruct b as [|c b]; [by exists e|].
    eexists. split; [reflexivity|]. split; simpl; [by rewrite Ht, <- app_assoc|]. rewrite blen_app, Hc. simpl. lia.
  - unfold home. rewrite Hc. destruct a as [|c a]; [by exists e|]. pose proof (len_utf8_pos c). pose proof (blen_nonneg a). cbn [blen].
    rewrite (proj2 (Z.eqb_neq _ _)) by lia. eexists. by split; [reflexivity|].
  - unfold end_. rewrite Hc, Ht, blen_app. destruct b as [|c b]; [exists e; by rewrite (proj2 (Z.eqb_eq _ _)) by (simpl; lia)|].
    pose proof (len_utf8_pos c). pose proof (blen_nonneg b). rewrite (proj2 (Z.eqb_neq _ _)) by (simpl; lia). eexists.
    split; [reflexivity|]. split; simpl; [by rewrite app_nil_r|by rewrite blen_app].
  - unfold kill_before. rewrite Hc. destruct a as [|c a]; [by exists e|]. pose proof (len_utf8_pos c). pose proof (blen_nonneg a).
    rewrite (proj2 (Z.eqb_neq _ _)) by (simpl; lia). rewrite Ht. pose proof (drain_at [] (c :: a) b) as Hd. cbn [blen app] in Hd.
    rewrite Z.add_0_l in Hd. cbn [blen app]. rewrite Hd. eexists. by split; [reflexivity|].
  - unfold kill_after. rewrite Hc, Ht, blen_app. destruct b as [|c b]; [exists e; by rewrite (proj2 (Z.eqb_eq _ _)) by (simpl; lia)|].
    pose proof (len_utf8_pos c). pose proof (blen_nonneg b). rewrite (proj2 (Z.eqb_neq _ _)) by (simpl; lia). unfold truncate.
    rewrite blen_app, (proj2 (Z.ltb_ge _ _)), split_bytes_at by (simpl; lia). eexists. split; [reflexivity|].
    split; simpl; [by rewrite app_nil_r|done].
  - destruct a as [|c a]; [exists e; unfold delete_prev_word; by rewrite Hc|].
    rewrite (delete_prev_word_at e (c :: a) b He) by done. eexists. by split; [reflexivity|].
  - eexists. split; [reflexivity|]. split; simpl; [by rewrite app_nil_r|done].
  - eexists. split; [reflexivity|]. by apply set_with_cursor_at.
  - by eexists.
Qed.

(** C38. The line editor implements an editor on two strings, the characters
    before and after the cursor: every operation returns, never slices a
    string inside a character, reports a change exactly when the
    specification has one, and leaves the cursor between the two strings the
    specification gives. *)
Theorem editor_refines e a b op : stands e a b -> edit_ok op ->
  exists e', run_edit e op = Ret ((zip_edit (a, b) op).1, e') /\ stands e' (zip_edit (a, b) op).2.1 (zip_edit (a, b) op).2.2.
Proof. apply run_edit_at. Qed.

(** ** Typing *)

(** A character that is not a control character. *)
Definition printable (c : Z) : Prop := 0x20 <= c <= 0x10FFFF /\ c <> 0x7f /\ ~ 0xD800 <= c <= 0xDFFF.

Lemma cont_true lo hi b : lo <= b <= hi -> cont lo hi b = true.
Proof. intros H. unfold cont. by rewrite (proj2 (Z.leb_le _ _)), (proj2 (Z.leb_le _ _)) by lia. Qed.
Lemma cont_false lo hi b : b < lo \/ hi < b -> cont lo hi b = false.
Proof. intros H. unfold cont. destruct (Z.leb_spec lo b), (Z.leb_spec b hi); (done || lia). Qed.

Lemma encode_valid c : printable c -> utf8_valid (encode c) = true.
Proof.
  intros (Hc & _ & Hs). unfold encode.
  destruct (Z.ltb_spec c 0x80) as [H1|H1]; [cbn [utf8_valid]; by rewrite (proj2 (Z.ltb_lt _ _)) by lia|].
  destruct (Z.ltb_spec c 0x800) as [H2|H2].
  { cbn [utf8_valid]. rewrite (proj2 (Z.ltb_ge _ _)), !cont_true by mlia. done. }
  destruct (Z.ltb_spec c 0x10000) as [H3|H3]; cbn [utf8_valid].
  - rewrite (proj2 (Z.ltb_ge _ _)), (cont_false 0xC2 0xDF), (cont_true 0xE0 0xEF) by mlia.
    rewrite (cont_true 0x80 0xBF) by mlia. rewrite !andb_true_r. apply cont_true.
    destruct (Z.eqb_spec (224 + c / 4096) 0xE0), (Z.eqb_spec (224 + c / 4096) 0xED); mlia.
  - rewrite (proj2 (Z.ltb_ge _ _)), (cont_false 0xC2 0xDF), (cont_false 0xE0 0xEF), (cont_true 0xF0 0xF4) by mlia.
    rewrite !(cont_true 0x80 0xBF) by mlia. rewrite !andb_true_r. apply cont_true.
    destruct (Z.eqb_spec (240 + c / 262144) 0xF0), (Z.eqb_spec (240 + c / 262144) 0xF4); mlia.
Qed.

Lemma first_char_encode c : printable c -> first_char (encode c) = Some c.
Proof.
  intros Hp. unfold first_char. rewrite encode_valid by done. destruct Hp as (Hc & _ & Hs). unfold encode.
  destruct (Z.ltb_spec c 0x80) as [H1|H1]; [by rewrite (proj2 (Z.ltb_lt _ _)) by lia|].
  destruct (Z.ltb_spec c 0x800) as [H2|H2].
  { rewrite (proj2 (Z.ltb_ge _ _)), (proj2 (Z.ltb_lt _ _)) by mlia. f_equal. mlia. }
  destruct (Z.ltb_spec c 0x10000) as [H3|H3].
  - rewrite (proj2 (Z.ltb_ge _ 0x80)), (proj2 (Z.ltb_ge _ 0xE0)), (proj2 (Z.ltb_lt _ 0xF0)) by mlia. f_equal. mlia.
  - rewrite (proj2 (Z.ltb_ge _ 0x80)), (proj2 (Z.ltb_ge _ 0xE0)), (proj2 (Z.ltb_ge _ 0xF0)) by mlia. f_equal. mlia.
Qed.

(** Between keys, and inside a character of which [l] was read. *)
Definition idle (d : InputDecoder) : Prop := esc_len d = 0 /\ utf8_need d = 0 /\ length (esc d) = 8%nat /\ length (utf8 d) = 4%nat.
Definition partial (d : InputDecoder) (l : list Z) (need : Z) : Prop :=
  esc_len d = 0 /\ length (esc d) = 8%nat /\ length (utf8 d) = 4%nat /\ utf8_need d = need /\ need <= 4 /\
  utf8_len d = zlen l /\ zlen l < need /\ take (length l) (utf8 d) = l.

Lemma cont_bits b : 0x80 <= b <= 0xBF -> Z.land b 0xc0 = 0x80.
Proof.
  intros Hb. assert (Forall (fun b => Z.land b 0xc0 = 0x80) (seqZ 0x80 64)) as H by (by repeat constructor).
  rewrite Forall_forall in H. apply H, elem_of_seqZ. lia.
Qed.

Lemma feed_ascii d b : idle d -> 0x20 <= b <= 0x7e -> feed d b = Ret (Some (Char b), d).
Proof.
  intros (He & Hn & _) Hb. unfold feed. rewrite He, Hn. cbn [negb Z.eqb].
  rewrite !(proj2 (Z.eqb_neq b _)) by lia. cbn [orb]. rewrite (proj2 (Z.leb_gt b 0x1a)), andb_false_r by lia.
  by rewrite (proj2 (Z.leb_le 0x20 b)), (proj2 (Z.leb_le b 0x7e)) by lia.
Qed.

Lemma start_utf8_at d b need : idle d -> 2 <= need <= 4 -> exists d', start_utf8 d b need = Ret (None, d') /\ partial d' [b] need.
Proof.
  intros (He & Hn & Hl & Hu) Hr. unfold start_utf8, upd. rewrite Hu. cbn. eexists. split; [reflexivity|].
  unfold partial. cbn. rewrite length_insert. change (zlen [b]) with 1. split_and!; try done; try lia.
  change (Pos.to_nat 1) with 1%nat. destruct (utf8 d) as [|x u]; done.
Qed.

Lemma feed_lead d b : idle d -> 0xc2 <= b <= 0xf4 ->
  exists d', feed d b = Ret (None, d') /\ partial d' [b] (if b <? 0xe0 then 2 else if b <? 0xf0 then 3 else 4).
Proof.
  intros Hi Hb. pose proof Hi as (He & Hn & _). unfold feed. rewrite He, Hn. cbn [negb Z.eqb].
  rewrite !(proj2 (Z.eqb_neq b _)) by lia. cbn [orb].
  rewrite (proj2 (Z.leb_gt b 0x1a)), (proj2 (Z.leb_gt b 0x7e)), !andb_false_r, (proj2 (Z.leb_le 0xc2 b)) by lia. cbn [andb].
  destruct (Z.ltb_spec b 0xe0), (Z.leb_spec b 0xdf); try lia; [by apply start_utf8_at|]. rewrite (proj2 (Z.leb_le 0xe0 b)) by lia. cbn [andb].
  destruct (Z.ltb_spec b 0xf0), (Z.leb_spec b 0xef); try lia; [by apply start_utf8_at|].
  rewrite (proj2 (Z.leb_le 0xf0 b)), (proj2 (Z.leb_le b 0xf4)) by lia. by apply start_utf8_at.
Qed.

Lemma feed_cont d l need b : partial d l need -> 0x80 <= b <= 0xBF ->
  exists d', if zlen l + 1 =? need then feed d b = Ret (Char <$> first_char (l ++ [b]), d') /\ idle d'
             else feed d b = Ret (None, d') /\ partial d' (l ++ [b]) need.
Proof.
  intros (He & Hel & Hul & Hn & Hn4 & Hlen & Hlt & Htake) Hb. pose proof (zlen_nonneg l). unfold feed. rewrite Hn.
  rewrite (proj2 (Z.eqb_neq need 0)) by lia. cbn [negb]. rewrite cont_bits, Hlen by done. cbn [Z.eqb negb orb].
  replace (zlen (utf8 d)) with 4 by (unfold zlen; lia). rewrite (proj2 (Z.leb_gt _ _)) by lia. cbn [orb]. unfold upd. rewrite Hul.
  rewrite (proj2 (Z.leb_le 0 _)), (proj2 (Z.ltb_lt (zlen l) _)) by lia. cbn [andb Pos.eqb negb orb]. rewrite bind_Ret_l.
  assert (take (Z.to_nat (zlen l + 1)) (<[Z.to_nat (zlen l):=b]> (utf8 d)) = l ++ [b]) as Hk.
  { unfold zlen in *. rewrite Nat2Z.id. replace (Z.to_nat (Z.of_nat (length l) + 1)) with (S (length l)) by lia.
    rewrite (take_S_r _ _ b) by (apply list_lookup_insert_eq; lia). f_equal. rewrite take_insert_ge by lia. done. }
  cbn. rewrite ?Hlen, ?Hn. destruct (Z.eqb_spec (zlen l + 1) need) as [Hd|Hd]; eexists; (split; [cbn; by rewrite ?Hk|]).
  - unfold idle. cbn. by rewrite length_insert.
  - unfold partial. cbn. rewrite length_insert, zlen_app. change (zlen [b]) with 1. split_and!; try done; try lia.
    by replace (length (l ++ [b])) with (Z.to_nat (zlen l + 1)) by (rewrite length_app; unfold zlen; cbn; lia).
Qed.

Section Typing.
  Context {Sh : Type}.
  Variables (interpret : list Z -> Sh -> Sh) (should_exit : Sh -> bool) (exit_shell interrupt_status : Sh -> Sh)
    (complete : list Z -> Sh -> CompletionResult * Sh).
  Local Notation handle_key := (handle_key interpret should_exit exit_shell interrupt_status complete).
  Local Notation read_keys := (read_keys interpret should_exit exit_shell interrupt_status complete).
  Implicit Types (s : @Input Sh).

(** The bytes of one character are one key. *)
Lemma read_char d s c rest : idle d -> printable c -> exists d', idle d' /\
  read_keys d s (encode c ++ rest) = (s' ← handle_key (Char c) s; if should_exit (shell s') then Ret (d', s') else read_keys d' s' rest).
Proof.
  intros Hi Hp. pose proof (first_char_encode c Hp) as Hfc. destruct Hp as (Hc & H7 & Hs). unfold encode in *.
  destruct (Z.ltb_spec c 0x80) as [H1|H1].
  { exists d. split; [done|]. cbn [app LineEdit.read_keys]. by rewrite feed_ascii by (done || lia). }
  destruct (Z.ltb_spec c 0x800) as [H2|H2].
  { destruct (feed_lead d (0xC0 + c / 64) Hi ltac:(mlia)) as (d1 & Hf1 & Hp1). rewrite (proj2 (Z.ltb_lt _ _)) in Hp1 by mlia.
    destruct (feed_cont d1 _ _ (0x80 + c mod 64) Hp1 ltac:(mlia)) as (d2 & Hf2 & Hi2).
    exists d2. split; [done|]. cbn [app LineEdit.read_keys] in *. rewrite Hf1, bind_Ret_l, Hf2, bind_Ret_l, Hfc. done. }
  destruct (Z.ltb_spec c 0x10000) as [H3|H3].
  - destruct (feed_lead d (0xE0 + c / 4096) Hi ltac:(mlia)) as (d1 & Hf1 & Hp1).
    rewrite (proj2 (Z.ltb_ge _ _)), (proj2 (Z.ltb_lt _ 0xF0)) in Hp1 by mlia.
    destruct (feed_cont d1 _ _ (0x80 + (c / 64) mod 64) Hp1 ltac:(mlia)) as (d2 & Hf2 & Hp2).
    destruct (feed_cont d2 _ _ (0x80 + c mod 64) Hp2 ltac:(mlia)) as (d3 & Hf3 & Hi3).
    exists d3. split; [done|]. cbn [app LineEdit.read_keys] in *. rewrite Hf1, bind_Ret_l, Hf2, bind_Ret_l, Hf3, bind_Ret_l, Hfc. done.
  - destruct (feed_lead d (0xF0 + c / 262144) Hi ltac:(mlia)) as (d1 & Hf1 & Hp1).
    rewrite (proj2 (Z.ltb_ge _ 0xE0)), (proj2 (Z.ltb_ge _ 0xF0)) in Hp1 by mlia.
    destruct (feed_cont d1 _ _ (0x80 + (c / 4096) mod 64) Hp1 ltac:(mlia)) as (d2 & Hf2 & Hp2).
    destruct (feed_cont d2 _ _ (0x80 + (c / 64) mod 64) Hp2 ltac:(mlia)) as (d3 & Hf3 & Hp3).
    destruct (feed_cont d3 _ _ (0x80 + c mod 64) Hp3 ltac:(mlia)) as (d4 & Hf4 & Hi4).
    exists d4. split; [done|]. cbn [app LineEdit.read_keys] in *.
    rewrite Hf1, bind_Ret_l, Hf2, bind_Ret_l, Hf3, bind_Ret_l, Hf4, bind_Ret_l, Hfc. done.
Qed.

Lemma redraw_at s a b : stands (editor s) a b -> redraw s = Ret s.
Proof. intros [Ht Hc]. unfold redraw, chars_after_cursor. by rewrite Ht, Hc, split_bytes_at. Qed.

Lemma type_char s a b c : stands (editor s) a b -> blen a + blen b < MAX_INPUT ->
  handle_key (Char c) s = Ret (s <| editor := mkEditor (a ++ c :: b) (blen a + len_utf8 c) |> <| hist_pos := None |>).
Proof.
  intros [Ht Hc] Hm. unfold LineEdit.handle_key. rewrite bind_Ret_l. cbn beta iota. cbn [editor].
  assert (s <| editor := editor s |> = s) as -> by (by destruct s). rewrite Ht, blen_app, (proj2 (Z.ltb_lt _ _)) by lia.
  unfold edit_line, run_edit, insert, insert_char. rewrite Ht, Hc, split_bytes_at, bind_Ret_l. cbn beta iota. rewrite !bind_Ret_l. cbn beta iota.
  apply (redraw_at _ (a ++ [c]) b). split; cbn; [by rewrite <- app_assoc|]. rewrite blen_app. cbn. lia.
Qed.

(** The bytes of any text of printable characters, in UTF-8, that arrive
    at the prompt insert exactly that text at the cursor, which moves behind
    it; the history, the draft and the shell do not change and the decoder is
    ready for the next key. *)
Theorem typed_text_inserted t d s a b : idle d -> stands (editor s) a b -> should_exit (shell s) = false -> Forall printable t ->
  blen a + blen t + blen b <= MAX_INPUT ->
  exists d' s', read_keys d s (concat (encode <$> t)) = Ret (d', s') /\ idle d' /\ stands (editor s') (a ++ t) b /\
    shell s' = shell s /\ cmd_hist s' = cmd_hist s /\ draft s' = draft s.
Proof.
  intros Hi He Hx Hp Hm. revert d s a Hi He Hx Hm. induction Hp as [|c t Hc Ht IH]; intros d s a Hi He Hx Hm.
  - exists d, s. cbn. rewrite app_nil_r. done.
  - cbn [blen] in Hm. pose proof (len_utf8_pos c). pose proof (blen_nonneg t). cbn [fmap list_fmap concat].
    destruct (read_char d s c (concat (encode <$> t)) Hi Hc) as (d' & Hi' & ->).
    rewrite (type_char s a b) by (done || lia). rewrite bind_Ret_l.
    set (s1 := s <| editor := _ |> <| hist_pos := _ |>). change (shell s1) with (shell s). rewrite Hx.
    destruct (IH d' s1 (a ++ [c])) as (d2 & s2 & Hr & Hi2 & Hs2 & H2 & H3 & H4).
    + done.
    + split; cbn; [by rewrite <- app_assoc|]. rewrite blen_app. cbn. lia.
    + done.
    + rewrite blen_app. cbn. lia.
    + exists d2, s2. rewrite <- app_assoc in Hs2. done.
Qed.

(** ** Safety of the key handler *)

Definition decoder_ok (d : InputDecoder) : Prop :=
  length (esc d) = 8%nat /\ length (utf8 d) = 4%nat /\ 0 <= esc_len d <= 8 /\ 0 <= utf8_len d <= 4.
Definition input_ok s : Prop :=
  (exists a b, stands (editor s) a b) /\ zlen (cmd_hist s) <= CMD_HISTORY_MAX /\
  match hist_pos s with Some i => 0 <= i < zlen (cmd_hist s) | None => True end.

Lemma upd_ok (l : list Z) i x : 0 <= i < zlen l -> exists l', upd l i x = Ret l' /\ length l' = length l.
Proof.
  intros Hi. unfold upd, zlen in *. rewrite (proj2 (Z.leb_le _ _)), (proj2 (Z.ltb_lt _ _)) by lia. eexists. split; [reflexivity|].
  apply length_insert.
Qed.

Lemma feed_total d b : decoder_ok d -> exists o d', feed d b = Ret (o, d') /\ decoder_ok d'.
Proof.
  intros (He & Hu & Hel & Hul). assert (forall need, exists o d', start_utf8 d b need = Ret (o, d') /\ decoder_ok d') as Hstart.
  { intros need. unfold start_utf8. destruct (upd_ok (utf8 d) 0 b) as (l & -> & Hl); [unfold zlen; lia|]. rewrite bind_Ret_l.
    eexists _, _. split; [reflexivity|]. unfold decoder_ok. cbn. rewrite Hl. lia. }
  unfold feed. destruct (negb (utf8_need d =? 0)).
  { destruct (Z.leb_spec (zlen (utf8 d)) (utf8_len d)); cbn [orb]; [eexists _, _; split; [reflexivity|]; unfold decoder_ok; cbn; lia|].
    destruct (negb (Z.land b 0xc0 =? 0x80)); [eexists _, _; split; [reflexivity|]; unfold decoder_ok; cbn; lia|].
    destruct (upd_ok (utf8 d) (utf8_len d) b) as (l & -> & Hl); [lia|]. rewrite bind_Ret_l. unfold zlen in *.
    destruct (_ =? _); eexists _, _; (split; [reflexivity|]); unfold decoder_ok; cbn; rewrite Hl; lia. }
  destruct (negb (esc_len d =? 0)).
  { destruct (Z.ltb_spec (esc_len d) (zlen (esc d))); [|eexists _, _; split; [reflexivity|]; unfold decoder_ok; cbn; lia].
    destruct (upd_ok (esc d) (esc_len d) b) as (l & -> & Hl); [lia|]. rewrite bind_Ret_l. unfold zlen in *.
    destruct (negb _); eexists _, _; (split; [reflexivity|]); unfold decoder_ok; cbn; rewrite Hl; lia. }
  destruct (b =? 0x1b).
  { destruct (upd_ok (esc d) 0 0x1b) as (l & -> & Hl); [unfold zlen; lia|]. rewrite bind_Ret_l. eexists _, _. split; [reflexivity|].
    unfold decoder_ok. cbn. rewrite Hl. lia. }
  assert (decoder_ok d) by done.
  destruct ((b =? 0x0d) || (b =? 0x0a)); [by eexists _, _|]. destruct ((b =? 0x08) || (b =? 0x7f)); [by eexists _, _|].
  destruct (b =? 0x09); [by eexists _, _|]. destruct ((0x01 <=? b) && (b <=? 0x1a)); [by eexists _, _|].
  destruct ((0x20 <=? b) && (b <=? 0x7e)); [by eexists _, _|]. destruct ((0xc2 <=? b) && (b <=? 0xdf)); [apply Hstart|].
  destruct ((0xe0 <=? b) && (b <=? 0xef)); [apply Hstart|]. destruct ((0xf0 <=? b) && (b <=? 0xf4)); [apply Hstart|by eexists _, _].
Qed.

Lemma editor_stands e op : (exists a b, stands e a b) -> edit_ok op -> exists r e', run_edit e op = Ret (r, e') /\ exists a b, stands e' a b.
Proof. intros (a & b & He) Hop. destruct (run_edit_at e a b op He Hop) as (e' & H1 & H2). eauto 10. Qed.

Lemma redraw_ok s : input_ok s -> redraw s = Ret s.
Proof. intros ((a & b & He) & _). by apply (redraw_at s a b). Qed.

Lemma edit_line_ok s op forget : input_ok s -> edit_ok op -> exists s', edit_line s op forget = Ret s' /\ input_ok s'.
Proof.
  intros (He & Hh & Hp) Hop. unfold edit_line. destruct (editor_stands (editor s) op He Hop) as (r & e' & -> & He'). rewrite bind_Ret_l.
  cbn beta iota. destruct r; [|eexists; by split; [reflexivity|]]. rewrite redraw_ok by (by destruct forget). eexists. split; [reflexivity|].
  by destruct forget.
Qed.

Lemma remember_length hist cmd : zlen hist <= CMD_HISTORY_MAX -> zlen (remember hist cmd) <= CMD_HISTORY_MAX.
Proof.
  intros Hh. unfold remember. case_bool_decide; [done|]. rewrite zlen_app. change (zlen [cmd]) with 1.
  destruct (Z.ltb_spec CMD_HISTORY_MAX (zlen hist + 1)); [|rewrite zlen_app; change (zlen [cmd]) with 1; lia].
  unfold zlen in *. rewrite length_drop, length_app. cbn. lia.
Qed.

Lemma set_stands t : exists a b, stands (set t) a b.
Proof. exists t, []. split; cbn; [by rewrite app_nil_r|done]. Qed.

Lemma empty_stands : exists a b, stands editor_new a b.
Proof. by exists [], []. Qed.

Lemma key_enter_ok s : input_ok s -> exists s', key_enter interpret should_exit s = Ret s' /\ input_ok s'.
Proof.
  intros (He & Hh & Hp). unfold key_enter, take_text. cbn beta iota zeta. set (s1 := if bool_decide _ then _ else _).
  assert (input_ok s1) as Hok.
  { unfold s1. case_bool_decide; (split; [apply empty_stands|split; [by apply remember_length|done]]). }
  destruct (should_exit (shell s1)); [|rewrite redraw_ok by done]; by eexists.
Qed.

Lemma key_up_ok s : input_ok s -> exists s', key_up s = Ret s' /\ input_ok s'.
Proof.
  intros (He & Hh & Hp). unfold key_up. case_bool_decide as Hn; [by exists s|]. assert (0 < zlen (cmd_hist s)) as Hpos.
  { destruct (cmd_hist s); [done|]. rewrite zlen_cons. pose proof (zlen_nonneg l0). lia. }
  destruct (match hist_pos s with Some i => _ | None => _ end) as [next dr] eqn:Hm.
  assert (0 <= next < zlen (cmd_hist s)) as Hr.
  { destruct (hist_pos s) as [i|]; [|injection Hm; lia]. injection Hm as <- _. destruct (Z.eqb_spec i 0); lia. }
  destruct (get_in_range (cmd_hist s) next Hr) as [line Hl]. unfold idx. rewrite Hl. cbn [unwrap]. rewrite bind_Ret_l.
  rewrite redraw_ok; [eexists; split; [reflexivity|]|]; (split; [apply set_stands|done]).
Qed.

Lemma key_down_ok s : input_ok s -> exists s', key_down s = Ret s' /\ input_ok s'.
Proof.
  intros Hok. pose proof Hok as (He & Hh & Hp). unfold key_down. destruct (hist_pos s) as [i|]; [|by exists s].
  destruct (Z.ltb_spec (i + 1) (zlen (cmd_hist s))) as [Hlt|Hge].
  - destruct (get_in_range (cmd_hist s) (i + 1) ltac:(lia)) as [line Hl]. unfold idx. rewrite Hl. cbn [unwrap]. rewrite bind_Ret_l.
    rewrite redraw_ok; [eexists; split; [reflexivity|]|]; (split; [apply set_stands|split; [done|cbn; lia]]).
  - rewrite redraw_ok; [eexists; split; [reflexivity|]|]; (split; [apply set_stands|done]).
Qed.

Lemma key_tab_ok s : input_ok s -> exists s', key_tab complete s = Ret s' /\ input_ok s'.
Proof.
  intros ((a & b & He) & Hh & Hp). pose proof He as [Ht Hc]. unfold key_tab. rewrite Ht, Hc, split_bytes_at, bind_Ret_l. cbn beta iota.
  destruct (complete a (shell s)) as [r sh]. assert (input_ok (s <| shell := sh |>)) as Hok by (split; [by exists a, b|done]).
  destruct r; [by eexists| |rewrite redraw_ok by done; by eexists].
  rewrite redraw_ok; [eexists; split; [reflexivity|]|];
    (split; [eexists _, _; apply set_with_cursor_at, blen_nonneg|done]).
Qed.

Lemma handle_key_ok key s : input_ok s -> exists s', handle_key key s = Ret s' /\ input_ok s'.
Proof.
  intros Hok. pose proof Hok as (He & Hh & Hp). unfold LineEdit.handle_key.
  assert (exists r e', match key with
      | Ctrl 0x01 => run_edit (editor s) Home | Ctrl 0x05 => run_edit (editor s) End_ | Ctrl 0x15 => run_edit (editor s) KillBefore
      | Ctrl 0x0b => run_edit (editor s) KillAfter | Ctrl 0x17 => run_edit (editor s) DeletePrevWord
      | _ => Ret (false, editor s) end = Ret (r, e') /\ exists a b, stands e' a b) as (r & e' & -> & He').
  { assert (forall op, edit_ok op -> exists r e', run_edit (editor s) op = Ret (r, e') /\ exists a b, stands e' a b) as H by (intros; by apply editor_stands).
    repeat case_match; first [by apply H|by eexists _, _]. }
  rewrite bind_Ret_l. cbn beta iota. assert (input_ok (s <| editor := e' |>)) as Hok' by done. set (s1 := s <| editor := e' |>) in *.
  destruct r; [rewrite redraw_ok by (by destruct Hok' as (? & ? & ?)); eexists; split; [reflexivity|]; by destruct Hok' as (? & ? & ?)|].
  pose proof (key_enter_ok s1 Hok'). pose proof (key_up_ok s1 Hok'). pose proof (key_down_ok s1 Hok'). pose proof (key_tab_ok s1 Hok').
  assert (forall op f, edit_ok op -> exists s', edit_line s1 op f = Ret s' /\ input_ok s') as Hedit by (intros; by apply edit_line_ok).
  assert (exists s', redraw (s1 <| editor := clear |> <| hist_pos := None |> <| draft := [] |> <| shell := interrupt_status (shell s1) |>) = Ret s' /\ input_ok s') as Hclear.
  { rewrite redraw_ok; [eexists; split; [reflexivity|]|]; (split; [apply empty_stands|done]). }
  repeat case_match; first [done|by apply Hedit|by eexists].
Qed.

(** Whatever bytes arrive at the prompt, reading keys and handling them
    never panics, and the cursor stays on a character boundary, the history
    within its limit and the history position inside the history. *)
Theorem keys_safe bytes d s : decoder_ok d -> input_ok s -> exists d' s', read_keys d s bytes = Ret (d', s') /\ decoder_ok d' /\ input_ok s'.
Proof.
  revert d s. induction bytes as [|b bytes IH]; intros d s Hd Hs; cbn [LineEdit.read_keys]; [by eexists _, _|].
  destruct (feed_total d b Hd) as (o & d' & -> & Hd'). rewrite bind_Ret_l. cbn beta iota. destruct o as [key|]; [|by apply IH].
  destruct (handle_key_ok key s Hs) as (s' & -> & Hs'). rewrite bind_Ret_l. destruct (should_exit (shell s')); [by eexists _, _|by apply IH].
Qed.

(** An arrow key as the terminal sends it. *)
Lemma read_arrow d s k key rest : idle d -> is_ascii_alphabetic k = true -> escape_key [0x1b; 0x5b; k] = Some key ->
  exists d', idle d' /\ read_keys d s (0x1b :: 0x5b :: k :: rest) =
    (s' ← handle_key key s; if should_exit (shell s') then Ret (d', s') else read_keys d' s' rest).
Proof.
  intros (Hl & Hn & He & Hu) Hk Hkey. destruct d as [es el us ul un]. cbn in Hl, Hn, He, Hu. subst el un.
  destruct es as [|e1 [|e2 [|e3 [|e4 [|e5 [|e6 [|e7 [|e8 [|e9 es]]]]]]]]]; try (cbn in He; lia).
  exists (mkDecoder [0x1b; 0x5b; k; e4; e5; e6; e7; e8] 0 us ul 0). split; [by unfold idle|].
  assert (feed (mkDecoder [e1; e2; e3; e4; e5; e6; e7; e8] 0 us ul 0) 0x1b =
    Ret (None, mkDecoder [0x1b; e2; e3; e4; e5; e6; e7; e8] 1 us ul 0)) as H1 by reflexivity.
  assert (feed (mkDecoder [0x1b; e2; e3; e4; e5; e6; e7; e8] 1 us ul 0) 0x5b =
    Ret (None, mkDecoder [0x1b; 0x5b; e3; e4; e5; e6; e7; e8] 2 us ul 0)) as H2 by reflexivity.
  assert (feed (mkDecoder [0x1b; 0x5b; e3; e4; e5; e6; e7; e8] 2 us ul 0) k =
    Ret (Some key, mkDecoder [0x1b; 0x5b; k; e4; e5; e6; e7; e8] 0 us ul 0)) as H3.
  { rewrite <- Hkey. change (feed _ k) with (if negb (is_ascii_alphabetic k || (k =? 0x7e))
      then Ret (None, mkDecoder [0x1b; 0x5b; k; e4; e5; e6; e7; e8] 3 us ul 0)
      else Ret (escape_key [0x1b; 0x5b; k], mkDecoder [0x1b; 0x5b; k; e4; e5; e6; e7; e8] 0 us ul 0)). by rewrite Hk. }
  cbn [LineEdit.read_keys]. by rewrite H1, bind_Ret_l, H2, bind_Ret_l, H3, bind_Ret_l.
Qed.

(** The input shows entry [i] of the history. *)
Definition showing s (i : Z) (s' : @Input Sh) : Prop := exists line, get (cmd_hist s) i = Some line /\
  s' = s <| draft := text (editor s) |> <| hist_pos := Some i |> <| editor := set line |>.

Lemma redraw_set s t : redraw (s <| editor := set t |>) = Ret (s <| editor := set t |>).
Proof. apply (redraw_at _ t []). split; cbn; [by rewrite app_nil_r|done]. Qed.

Lemma up_first s : hist_pos s = None -> cmd_hist s <> [] -> exists s', key_up s = Ret s' /\ showing s (zlen (cmd_hist s) - 1) s'.
Proof.
  intros Hp Hn. unfold key_up. rewrite bool_decide_eq_false_2 by done. rewrite Hp. cbn beta iota.
  destruct (get_in_range (cmd_hist s) (zlen (cmd_hist s) - 1)) as [line Hl].
  { destruct (cmd_hist s) as [|x l]; [done|]. rewrite zlen_cons. pose proof (zlen_nonneg l). lia. }
  unfold idx. rewrite Hl. cbn [unwrap]. rewrite bind_Ret_l, redraw_set. eexists. split; [reflexivity|]. by exists line.
Qed.

Lemma up_next s i s1 : showing s i s1 -> 0 < i -> exists s2, key_up s1 = Ret s2 /\ showing s (i - 1) s2.
Proof.
  intros (line & Hl & ->) Hi. pose proof (get_Some_range _ _ _ Hl) as Hr. unfold key_up. cbn [cmd_hist hist_pos].
  destruct (get_in_range (cmd_hist s) (i - 1)) as [line' Hl']; [lia|].
  assert (cmd_hist s <> []) as Hn by (intros E; rewrite E in Hr; change (zlen (@nil (list Z))) with 0 in Hr; lia).
  change (cmd_hist (_ <| editor := _ |>)) with (cmd_hist s). rewrite bool_decide_eq_false_2 by done.
  change (hist_pos (_ <| editor := _ |>)) with (Some i). cbn beta iota. destruct (Z.eqb_spec i 0); [lia|].
  unfold idx. rewrite Hl'. cbn [unwrap]. rewrite bind_Ret_l, redraw_set. eexists. split; [reflexivity|]. by exists line'.
Qed.

Lemma down_next s i s1 : showing s i s1 -> i + 1 < zlen (cmd_hist s) -> exists s2, key_down s1 = Ret s2 /\ showing s (i + 1) s2.
Proof.
  intros (line & Hl & ->) Hi. pose proof (get_Some_range _ _ _ Hl) as Hr. unfold key_down.
  destruct (get_in_range (cmd_hist s) (i + 1)) as [line' Hl']; [lia|].
  change (hist_pos (_ <| editor := _ |>)) with (Some i). change (cmd_hist (_ <| editor := _ |>)) with (cmd_hist s). cbn beta iota.
  destruct (Z.ltb_spec (i + 1) (zlen (cmd_hist s))); [|lia].
  unfold idx. rewrite Hl'. cbn [unwrap]. rewrite bind_Ret_l, redraw_set. eexists. split; [reflexivity|]. by exists line'.
Qed.

(** Below the newest entry is the line that was being typed. *)
Lemma down_last s s1 : showing s (zlen (cmd_hist s) - 1) s1 -> hist_pos s = None ->
  key_down s1 = Ret (s <| draft := text (editor s) |> <| editor := set (text (editor s)) |>).
Proof.
  intros (line & Hl & ->) Hp. unfold key_down.
  change (hist_pos (_ <| editor := _ |>)) with (Some (zlen (cmd_hist s) - 1)).
  change (cmd_hist (_ <| editor := _ |>)) with (cmd_hist s). cbn beta iota.
  destruct (Z.ltb_spec (zlen (cmd_hist s) - 1 + 1) (zlen (cmd_hist s))); [lia|]. rewrite redraw_set. f_equal.
  destruct s as [sh e h p dr]. cbn in Hp. by subst p.
Qed.

Definition arrows (k : Z) (n : nat) : list Z := concat (replicate n [0x1b; 0x5b; k]).

Lemma handle_up s : handle_key KUp s = key_up s.
Proof. unfold LineEdit.handle_key. rewrite bind_Ret_l. by destruct s as [? [? ?] ? ? ?]. Qed.
Lemma handle_down s : handle_key KDown s = key_down s.
Proof. unfold LineEdit.handle_key. rewrite bind_Ret_l. by destruct s as [? [? ?] ? ? ?]. Qed.

Lemma ups s n : forall i d s1 rest, showing s i s1 -> idle d -> should_exit (shell s) = false -> Z.of_nat n <= i ->
  exists d' s2, read_keys d s1 (arrows 0x41 n ++ rest) = read_keys d' s2 rest /\ idle d' /\ showing s (i - Z.of_nat n) s2.
Proof.
  induction n as [|n IH]; intros i d s1 rest Hs Hd Hx Hi; [exists d, s1; rewrite Z.sub_0_r; by split_and!|].
  destruct (read_arrow d s1 0x41 KUp (arrows 0x41 n ++ rest) Hd eq_refl eq_refl) as (d1 & Hd1 & Hr).
  change (arrows 0x41 (S n) ++ rest) with (0x1b :: 0x5b :: 0x41 :: (arrows 0x41 n ++ rest)). rewrite Hr, handle_up.
  destruct (up_next s i s1 Hs ltac:(lia)) as (s2 & -> & Hs2). rewrite bind_Ret_l.
  assert (shell s2 = shell s) as -> by (by destruct Hs2 as (? & _ & ->)). rewrite Hx.
  destruct (IH (i - 1) d1 s2 rest Hs2 Hd1 Hx ltac:(lia)) as (d' & s' & -> & Hd' & Hs'). exists d', s'. split; [done|]. split; [done|].
  by replace (i - Z.of_nat (S n)) with (i - 1 - Z.of_nat n) by lia.
Qed.

Lemma downs s n : forall i d s1 rest, showing s i s1 -> idle d -> should_exit (shell s) = false -> i + Z.of_nat n < zlen (cmd_hist s) ->
  exists d' s2, read_keys d s1 (arrows 0x42 n ++ rest) = read_keys d' s2 rest /\ idle d' /\ showing s (i + Z.of_nat n) s2.
Proof.
  induction n as [|n IH]; intros i d s1 rest Hs Hd Hx Hi; [exists d, s1; rewrite Z.add_0_r; by split_and!|].
  destruct (read_arrow d s1 0x42 KDown (arrows 0x42 n ++ rest) Hd eq_refl eq_refl) as (d1 & Hd1 & Hr).
  change (arrows 0x42 (S n) ++ rest) with (0x1b :: 0x5b :: 0x42 :: (arrows 0x42 n ++ rest)). rewrite Hr, handle_down.
  destruct (down_next s i s1 Hs ltac:(lia)) as (s2 & -> & Hs2). rewrite bind_Ret_l.
  assert (shell s2 = shell s) as -> by (by destruct Hs2 as (? & _ & ->)). rewrite Hx.
  destruct (IH (i + 1) d1 s2 rest Hs2 Hd1 Hx ltac:(lia)) as (d' & s' & -> & Hd' & Hs'). exists d', s'. split; [done|]. split; [done|].
  by replace (i + Z.of_nat (S n)) with (i + 1 + Z.of_nat n) by lia.
Qed.

(** Going up the history by any number of entries that it has and down by
    the same number gives back the line that was being typed, with the cursor
    at its end; on the way up the line shown is the entry counted from the
    newest. *)
Theorem history_roundtrip n d s : idle d -> should_exit (shell s) = false -> hist_pos s = None -> (n < length (cmd_hist s))%nat ->
  exists d1 s1 d2, read_keys d s (arrows 0x41 (S n)) = Ret (d1, s1) /\
    Some (text (editor s1)) = reverse (cmd_hist s) !! n /\
    read_keys d1 s1 (arrows 0x42 (S n)) = Ret (d2, s <| draft := text (editor s) |> <| editor := set (text (editor s)) |>) /\ idle d2.
Proof.
  intros Hd Hx Hp Hn. assert (cmd_hist s <> []) as Hne by (intros E; rewrite E in Hn; cbn in Hn; lia).
  destruct (read_arrow d s 0x41 KUp (arrows 0x41 n) Hd eq_refl eq_refl) as (d0 & Hd0 & Hr0).
  destruct (up_first s Hp Hne) as (s0 & Hu & Hs0). rewrite handle_up, Hu, bind_Ret_l in Hr0.
  assert (shell s0 = shell s) as E0 by (by destruct Hs0 as (? & _ & ->)). rewrite E0, Hx in Hr0.
  destruct (ups s n _ d0 s0 [] Hs0 Hd0 Hx) as (d1 & s1 & H1 & Hd1 & Hs1); [unfold zlen; lia|]. rewrite app_nil_r in H1.
  destruct (downs s n _ d1 s1 [0x1b; 0x5b; 0x42] Hs1 Hd1 Hx) as (d2 & s2 & H2 & Hd2 & Hs2); [lia|].
  replace (_ - _ - Z.of_nat n + Z.of_nat n) with (zlen (cmd_hist s) - 1) in Hs2 by lia.
  destruct (read_arrow d2 s2 0x42 KDown [] Hd2 eq_refl eq_refl) as (d3 & Hd3 & Hr3). rewrite handle_down, (down_last s s2 Hs2 Hp), bind_Ret_l in Hr3.
  exists d1, s1, d3. split; [exact (eq_trans Hr0 H1)|]. split; [|split; [|done]].
  - destruct Hs1 as (line & Hl & ->). cbn [editor text]. change (Some line = reverse (cmd_hist s) !! n). rewrite reverse_lookup by done.
    symmetry. rewrite <- Hl. unfold get, zlen in *. rewrite (proj2 (Z.ltb_ge _ _)) by lia. f_equal. lia.
  - replace (arrows 0x42 (S n)) with (arrows 0x42 n ++ [0x1b; 0x5b; 0x42]); [rewrite H2, Hr3; cbn; by rewrite Hx|].
    clear. unfold arrows. rewrite replicate_S_end, concat_app. cbn. done.
Qed.
End Typing.

(** ** Instances *)

Definition idle_input (t : list Z) (hist : list (list Z)) : @Input bool := mkInput false (set t) hist None [].
Definition run_keys := read_keys (fun _ (sh : bool) => sh) (fun sh => sh) (fun _ => true) (fun sh => sh) (fun p sh => (Replace (p ++ [0x20]), sh)).

Lemma editor_refines_witness : exists e', run_edit (mkEditor [0x61; 0x20; 0xe9; 0x62] 4) DeletePrevWord = Ret (true, e') /\ stands e' [0x61; 0x20] [0x62].
Proof. apply (editor_refines _ [0x61; 0x20; 0xe9] [0x62] DeletePrevWord); [by split|done]. Defined.

Lemma typed_text_inserted_witness : exists d' s', run_keys decoder_new (idle_input [0x61] []) (concat (encode <$> [0x62; 0xe9; 0x1F600])) = Ret (d', s') /\
  idle d' /\ stands (editor s') ([0x61] ++ [0x62; 0xe9; 0x1F600]) [].
Proof.
  destruct (typed_text_inserted (fun _ (sh : bool) => sh) (fun sh => sh) (fun _ => true) (fun sh => sh) (fun p sh => (Replace (p ++ [0x20]), sh))
    [0x62; 0xe9; 0x1F600] decoder_new (idle_input [0x61] []) [0x61] []) as (d' & s' & H1 & H2 & H3 & _).
  - by unfold idle.
  - by split.
  - done.
  - repeat constructor; try lia; done.
  - vm_compute. done.
  - by exists d', s'.
Defined.

Lemma keys_safe_witness : exists d' s', run_keys decoder_new (idle_input [0x61] [[0x6c; 0x73]]) [0x1b; 0x5b; 0x41; 0x09; 0xe2; 0x1b; 0x5b; 0x44; 0x7f; 0x0d] = Ret (d', s') /\ decoder_ok d' /\ input_ok s'.
Proof.
  apply (keys_safe (fun _ (sh : bool) => sh) (fun sh => sh) (fun _ => true) (fun sh => sh) (fun p sh => (Replace (p ++ [0x20]), sh))).
  - by vm_compute.
  - split; [by exists [0x61], []|]. split; [by vm_compute|done].
Defined.

Lemma history_roundtrip_witness : exists d1 s1 d2, run_keys decoder_new (idle_input [0x61] [[0x6c; 0x73]; [0x70; 0x73]]) (arrows 0x41 2) = Ret (d1, s1) /\
  Some (text (editor s1)) = Some [0x6c; 0x73] /\
  run_keys d1 s1 (arrows 0x42 2) = Ret (d2, idle_input [0x61] [[0x6c; 0x73]; [0x70; 0x73]] <| draft := [0x61] |>) /\ idle d2.
Proof.
  apply (history_roundtrip (fun _ (sh : bool) => sh) (fun sh => sh) (fun _ => true) (fun sh => sh) (fun p sh => (Replace (p ++ [0x20]), sh)) 1).
  - by unfold idle.
  - done.
  - done.
  - cbn. lia.
Defined.

(** The arrow keys of the application mode, [ESC O A]: the letter [O] ends the
    sequence, so the key is dropped and [A] is typed into the line. *)
Lemma application_arrow_typed : exists d', run_keys decoder_new (idle_input [] []) [0x1b; 0x4f; 0x41] = Ret (d', idle_input [0x41] []).
Proof. by eexists. Qed.
