(* ===== verification/Disk.v ===== *)
(** * Block devices

    The trait [BlockDevice] of [kernel/src/disk/interface.rs] as a type class,
    what filesystems rely on as its laws, and the memory disk of
    [kernel/src/disk/ramdisk.rs] as an instance that satisfies them.  The
    memory a disk owns is the list of its bytes; buffer addresses become the
    bytes read or written. *)

From S2P Require Import Prelude Bytes.

Definition SECTOR_SIZE : Z := 512.

(** [trait BlockDevice]: the bytes read, or [None] for an error code. *)
Class BlockDevice (D : Type) : Type := {
  read_sectors : D -> Z -> Z -> outcome (option (list Z));
  write_sectors : D -> Z -> Z -> list Z -> outcome (option D)
}.

(** What a filesystem relies on: a device is an array of sectors, of which
    consecutive runs are read and written. *)
Class BlockDeviceLaws (D : Type) `{!BlockDevice D} (sectors : D -> Z) (sector : D -> Z -> list Z) : Prop := {
  sector_length d k : 0 <= k < sectors d -> length (sector d k) = 512%nat;
  read_run d n lba : 0 <= n < 256 -> 0 <= lba -> lba + n <= sectors d ->
    read_sectors d n lba = Ret (Some (concat (sector d <$> seqZ lba n)));
  write_run d n lba data : 0 <= n < 256 -> 0 <= lba -> lba + n <= sectors d -> zlen data = n * SECTOR_SIZE ->
    exists d', write_sectors d n lba data = Ret (Some d') /\ sectors d' = sectors d /\
      forall k, 0 <= k < sectors d ->
        sector d' k = if (lba <=? k) && (k <? lba + n) then slice data (Z.to_nat ((k - lba) * SECTOR_SIZE)) 512 else sector d k
}.

(** ** The memory disk *)

Record RamDisk : Type := mkRam { rd_bytes : list Z }.

(** [RamDisk::size_bytes], [size_sectors] *)
Definition size_bytes (d : RamDisk) : Z := zlen (rd_bytes d).
Definition size_sectors (d : RamDisk) : Z := size_bytes d / SECTOR_SIZE.

(** [RamDisk::read_sectors], [write_sectors] *)
Definition ram_read (d : RamDisk) (n lba : Z) : outcome (option (list Z)) :=
  start ← mul_u 32 lba SECTOR_SIZE;
  let nbytes := n * SECTOR_SIZE in
  e ← add_u 32 start nbytes;
  Ret (if size_bytes d <? e then None else Some (slice (rd_bytes d) (Z.to_nat start) (Z.to_nat nbytes))).
Definition ram_write (d : RamDisk) (n lba : Z) (data : list Z) : outcome (option RamDisk) :=
  start ← mul_u 32 lba SECTOR_SIZE;
  let nbytes := n * SECTOR_SIZE in
  e ← add_u 32 start nbytes;
  Ret (if size_bytes d <? e then None else Some (mkRam (splice (rd_bytes d) (Z.to_nat start) (take (Z.to_nat nbytes) data)))).

#[global] Instance RamDisk_device : BlockDevice RamDisk := { read_sectors := ram_read; write_sectors := ram_write }.

(** The sectors of a memory disk. *)
Definition ram_sectors (d : RamDisk) : Z := Z.min (size_sectors d) (2 ^ 23 - 1).
Definition ram_sector (d : RamDisk) (k : Z) : list Z := slice (rd_bytes d) (Z.to_nat (k * SECTOR_SIZE)) 512.

Lemma ram_sectors_bytes d k : k <= ram_sectors d -> k * SECTOR_SIZE <= size_bytes d /\ k < 2 ^ 23.
Proof. unfold ram_sectors, size_sectors, SECTOR_SIZE. intros Hk. pose proof (Z.mul_div_le (size_bytes d) 512). lia. Qed.

Lemma slice_concat (l : list Z) n : forall k, 0 <= k -> (k + Z.of_nat n) * SECTOR_SIZE <= zlen l ->
  concat ((fun k => slice l (Z.to_nat (k * SECTOR_SIZE)) 512) <$> seqZ k (Z.of_nat n)) =
  slice l (Z.to_nat (k * SECTOR_SIZE)) (Z.to_nat (Z.of_nat n * SECTOR_SIZE)).
Proof.
  unfold SECTOR_SIZE, zlen. induction n as [|n IH]; intros k Hk Hl; [done|]. rewrite seqZ_cons by lia. cbn [fmap list_fmap concat].
  replace (Z.pred (Z.of_nat (S n))) with (Z.of_nat n) by lia. rewrite IH by lia. unfold slice.
  replace (Z.to_nat (Z.of_nat (S n) * 512)) with (512 + Z.to_nat (Z.of_nat n * 512))%nat by lia.
  rewrite <- take_take_drop. f_equal. rewrite drop_drop. f_equal. f_equal. lia.
Qed.

#[global] Instance RamDisk_laws : BlockDeviceLaws RamDisk ram_sectors ram_sector.
Proof.
  constructor.
  - intros d k Hk. destruct (ram_sectors_bytes d (k + 1)) as [Hb _]; [lia|]. unfold ram_sector, slice, size_bytes, SECTOR_SIZE, zlen in *.
    rewrite length_take, length_drop. lia.
  - intros d n lba Hn Hl Hs. destruct (ram_sectors_bytes d (lba + n) Hs) as [Hb Hlt]. unfold SECTOR_SIZE in Hb.
    assert (lba * SECTOR_SIZE + n * SECTOR_SIZE < 2 ^ 32) as Hr by (unfold SECTOR_SIZE; lia).
    simpl. unfold ram_read, mul_u, ram_sector. rewrite (proj2 (Z.ltb_lt _ _)) by (unfold SECTOR_SIZE in *; lia).
    rewrite bind_Ret_l, add_u_Ret, bind_Ret_l by done. rewrite (proj2 (Z.ltb_ge _ _)) by (unfold SECTOR_SIZE; lia).
    do 2 f_equal. pose proof (slice_concat (rd_bytes d) (Z.to_nat n) lba Hl) as Hc. rewrite !Z2Nat.id in Hc by lia. symmetry. apply Hc.
    unfold size_bytes in Hb. unfold SECTOR_SIZE. lia.
  - intros d n lba data Hn Hl Hs Hd. destruct (ram_sectors_bytes d (lba + n) Hs) as [Hb Hlt]. unfold SECTOR_SIZE in Hb.
    assert (lba * SECTOR_SIZE + n * SECTOR_SIZE < 2 ^ 32) as Hr by (unfold SECTOR_SIZE; lia).
    simpl. unfold ram_write, mul_u. rewrite (proj2 (Z.ltb_lt _ _)) by (unfold SECTOR_SIZE in *; lia).
    rewrite bind_Ret_l, add_u_Ret, bind_Ret_l by done. rewrite (proj2 (Z.ltb_ge _ _)) by (unfold SECTOR_SIZE; lia).
    rewrite take_ge by (unfold zlen in Hd; lia). eexists. split; [reflexivity|].
    unfold size_bytes, zlen, SECTOR_SIZE in *.
    assert (Z.to_nat (lba * 512) + length data <= length (rd_bytes d))%nat as Hfit by lia. split.
    + unfold ram_sectors, size_sectors, size_bytes, zlen. simpl. by rewrite splice_length.
    + intros k Hk. unfold ram_sector, SECTOR_SIZE. simpl. destruct (Z.leb_spec lba k), (Z.ltb_spec k (lba + n)); simpl.
      * unfold slice. replace (Z.to_nat (k * 512)) with (Z.to_nat (lba * 512) + Z.to_nat ((k - lba) * 512))%nat by lia.
        rewrite <- drop_drop, drop_splice by done. rewrite drop_app_le by lia. apply take_app_le. rewrite length_drop. lia.
      * apply slice_splice_after; lia.
      * apply slice_splice_before; lia.
      * apply slice_splice_before; lia.
Qed.
