(* ===== verification/Vfs.v ===== *)
(** * Paths and the virtual file system

    Model of [kernel/src/filesystem/vfs.rs] and of the path functions of
    [kernel/src/syscalls/handler.rs]: lexical normalisation of paths, the mount
    table with its filesystem ids and registry, resolution of a path to the
    filesystem mounted deepest on it, and the operations that are forwarded to
    that filesystem.  The trait [Filesystem] is a type class; the boxed trait
    objects are values of one type that implements it.  A path is the list of
    its bytes. *)

From Stdlib Require Import Ascii String.
From S2P Require Import Prelude.
Local Open Scope Z_scope.

(** ** Byte strings *)

Notation path := (list Z).
Definition slash : Z := 47.
Definition dot : Z := 46.

(** The bytes of a literal. *)
Definition str (s : string) : path := (fun c => Z.of_nat (nat_of_ascii c)) <$> list_ascii_of_string s.

(** [s.starts_with(p)], [s.strip_prefix(p)] *)
Fixpoint strip_prefix (p s : path) : option path :=
  match p, s with
  | [], _ => Some s
  | a :: p, b :: s => if a =? b then strip_prefix p s else None
  | _ :: _, [] => None
  end.
Definition starts_with (p s : path) : bool := match strip_prefix p s with Some _ => true | None => false end.

(** [s.trim_end_matches('/')] *)
Fixpoint trim_start (s : path) : path := match s with c :: s' => if c =? slash then trim_start s' else s | [] => [] end.
Definition trim_end (s : path) : path := reverse (trim_start (reverse s)).

(** [s.split('/')] *)
Fixpoint split (s : path) : list path :=
  match s with
  | [] => [[]]
  | c :: s => if c =? slash then [] :: split s else match split s with p :: l => (c :: p) :: l | [] => [[c]] end
  end.

(** [parts.join(SEP)] with the separator '/' *)
Fixpoint join (l : list path) : path :=
  match l with
  | [] => []
  | [p] => p
  | p :: l => p ++ slash :: join l
  end.

(** ** Normalisation *)

(** The loop of [normalize_path] *)
Definition push_part (parts : list path) (part : path) : list path :=
  if bool_decide (part = [] \/ part = [dot]) then parts
  else if bool_decide (part = [dot; dot]) then removelast parts
  else parts ++ [part].

(** [normalize_path] *)
Definition normalize_path (p : path) : path :=
  match foldl push_part [] (split p) with
  | [] => [slash]
  | parts => slash :: join parts
  end.

(** [resolve_task_path]; [cwd] is the directory of the task, if there is one. *)
Definition resolve_task_path (cwd : option path) (p : path) : path :=
  if starts_with [slash] p then normalize_path p else
  let cwd := default [slash] cwd in
  if bool_decide (cwd = [slash]) then normalize_path (slash :: p) else normalize_path (cwd ++ slash :: p).

(** [normalize_dir_path] *)
Definition normalize_dir_path (p : path) : path :=
  if bool_decide (p = [] \/ p = [slash]) then [slash] else
  match trim_end p with [] => [slash] | t => t end.

(** ** The filesystem interface *)

Record DirEntry : Type := mkEntry { e_inode : Z; e_name : path; e_type : Z; e_size : Z }.
Record Metadata : Type := mkMeta {
  m_inode : Z; m_mode : Z; m_nlink : Z; m_uid : Z; m_gid : Z; m_rdev : Z; m_size : Z; m_blksize : Z; m_blocks : Z;
  m_atime : Z; m_mtime : Z; m_ctime : Z
}.
#[global] Instance Metadata_eta : Eta Metadata := fun m =>
  mkMeta (m_inode m) (m_mode m) (m_nlink m) (m_uid m) (m_gid m) (m_rdev m) (m_size m) (m_blksize m) (m_blocks m)
    (m_atime m) (m_mtime m) (m_ctime m).

Inductive RenameError : Type := NotFound | Exists | CrossDevice | Unsupported.

(** [trait Filesystem].  A method may panic; one with [&mut self] returns the
    new state; a read fills a buffer and returns a count. *)
Class Filesystem (B : Type) : Type := {
  fs_read_file : B -> path -> outcome (option (list Z));
  fs_write_file : B -> path -> list Z -> outcome (bool * B);
  fs_create_file : B -> path -> list Z -> outcome (bool * B);
  fs_remove_file : B -> path -> outcome (bool * B);
  fs_mkdir : B -> path -> outcome (bool * B);
  fs_rmdir : B -> path -> outcome (bool * B);
  fs_list_directory_entries : B -> path -> outcome (option (list DirEntry));
  fs_resolve_path : B -> path -> outcome (option Z);
  fs_read_at : B -> Z -> Z -> list Z -> outcome (Z * list Z);
  fs_write_at : B -> Z -> Z -> list Z -> outcome (Z * B);
  fs_metadata : B -> path -> outcome (option Metadata);
  fs_metadata_inode : B -> Z -> outcome (option Metadata);
  fs_rename : B -> path -> path -> outcome (bool * B)
}.

(** A mutable reference to one of the filesystems. *)
Inductive FsRef : Type := RootRef | MountRef (n : nat).
#[global] Instance FsRef_eq_dec : EqDecision FsRef.
Proof. solve_decision. Defined.

Section Vfs.
  Context {B : Type} `{!Filesystem B}.

Record Mount : Type := mkMount { point : path; fs_id : Z; mfs : B }.
#[global] Instance Mount_eta : Eta Mount := fun m => mkMount (point m) (fs_id m) (mfs m).

(** [VfsInner] and [MOUNT_REGISTRY] *)
Record VfsState : Type := mkVfs { root_fs : option B; mounts : list Mount; next_fs_id : Z; registry : list path }.
#[global] Instance VfsState_eta : Eta VfsState := fun v => mkVfs (root_fs v) (mounts v) (next_fs_id v) (registry v).

Implicit Types (v : VfsState) (m : Mount) (p : path).

(** [Vfs::new] *)
Definition vfs_new : VfsState := mkVfs None [] 1 [].

(** ** The mount table *)

Definition register (p : path) (l : list path) : list path := if existsb (fun q => bool_decide (q = p)) l then l else l ++ [p].

(** [Vfs::set_root] *)
Definition set_root v (fs : B) : VfsState := v <| root_fs := Some fs |> <| registry := register [slash] (registry v) |>.

(** The loop of [alloc_mount_id] *)
Fixpoint alloc_id_loop (n : nat) (ms : list Mount) (next : Z) : option Z * Z :=
  match n with
  | O => (None, next)
  | S n =>
      let id := if next =? 0 then 1 else next in
      let next := wrapping_add 8 id 1 in
      if existsb (fun m => fs_id m =? id) ms then alloc_id_loop n ms next else (Some id, next)
  end.

(** [alloc_mount_id] *)
Definition alloc_mount_id v : option Z * VfsState :=
  let '(o, next) := alloc_id_loop 255 (mounts v) (next_fs_id v) in (o, v <| next_fs_id := next |>).

(** [Vfs::is_mounted_at] *)
Definition is_mounted_at v p : bool := existsb (fun m => bool_decide (point m = p)) (mounts v).

(** [Vfs::mount] *)
Definition mount v p (fs : B) : VfsState :=
  if negb (starts_with [slash] p) then v else
  if is_mounted_at v p then v else
  match alloc_mount_id v with
  | (None, v) => v
  | (Some id, v) => v <| mounts := mounts v ++ [mkMount p id fs] |> <| registry := register p (registry v) |>
  end.

(** [Vfs::unmount] *)
Definition unmount v p : bool * VfsState :=
  let ms := List.filter (fun m => negb (bool_decide (point m = p))) (mounts v) in
  let ok := zlen ms <? zlen (mounts v) in
  let v := v <| mounts := ms |> in
  (ok, if ok then v <| registry := List.filter (fun q => negb (bool_decide (q = p))) (registry v) |> else v).

(** [Vfs::mount_points] *)
Definition mount_points v : list path := registry v.

(** ** Resolution *)

(** [is_mount_prefix] *)
Definition is_mount_prefix p mp : bool :=
  bool_decide (mp = [slash]) || bool_decide (p = mp) || (starts_with mp p && bool_decide (get p (zlen mp) = Some slash)).

(** The end of [resolve]: the path relative to the chosen mount point. *)
Definition relative_to p best : path :=
  if bool_decide (p = best) then [slash]
  else if starts_with best p && negb (bool_decide (best = [slash])) then drop (length best) p
  else p.

(** [resolve] *)
Definition better p (best : B * path * Z) m : B * path * Z :=
  let '(_, prefix, _) := best in
  if is_mount_prefix p (point m) && (zlen prefix <? zlen (point m)) then (mfs m, point m, fs_id m) else best.
Definition resolve v p : outcome (B * path * Z) :=
  let p := match p with [] => [slash] | _ => p end in
  root ← unwrap (root_fs v);
  let '(fs, prefix, id) := foldl (better p) (root, [slash], 0) (mounts v) in
  Ret (fs, relative_to p prefix, id).

Definition deref v (r : FsRef) : option B :=
  match r with RootRef => root_fs v | MountRef n => mfs <$> mounts v !! n end.
Definition store v (r : FsRef) (fs : B) : VfsState :=
  match r with
  | RootRef => v <| root_fs := Some fs |>
  | MountRef n => v <| mounts := alter (fun m => m <| mfs := fs |>) n (mounts v) |>
  end.

(** [resolve_mut] *)
Definition better_mut p (best : FsRef * path * Z) (i : nat) m : FsRef * path * Z :=
  let '(_, prefix, _) := best in
  if is_mount_prefix p (point m) && (zlen prefix <? zlen (point m)) then (MountRef i, point m, fs_id m) else best.
Fixpoint scan_mut p (i : nat) (l : list Mount) (best : FsRef * path * Z) : FsRef * path * Z :=
  match l with
  | [] => best
  | m :: l => scan_mut p (S i) l (better_mut p best i m)
  end.
Definition resolve_mut v p : outcome (FsRef * path * Z) :=
  let p := match p with [] => [slash] | _ => p end in
  _ ← unwrap (root_fs v);
  let '(r, prefix, id) := scan_mut p 0 (mounts v) (RootRef, [slash], 0) in
  Ret (r, relative_to p prefix, id).

(** ** Operations by path *)

(** [Vfs::read_file] *)
Definition read_file v p : outcome (option (list Z)) := '(fs, rel, _) ← resolve v p; fs_read_file fs rel.

(** The body shared by the operations that change a filesystem. *)
Definition change v p (op : B -> path -> outcome (bool * B)) : outcome (bool * VfsState) :=
  '(r, rel, _) ← resolve_mut v p;
  fs ← unwrap (deref v r);
  '(ok, fs) ← op fs rel; Ret (ok, store v r fs).

(** [Vfs::write_file], [create_file], [remove_file], [mkdir], [rmdir] *)
Definition write_file v p (data : list Z) : outcome (bool * VfsState) := change v p (fun fs rel => fs_write_file fs rel data).
Definition create_file v p (data : list Z) : outcome (bool * VfsState) := change v p (fun fs rel => fs_create_file fs rel data).
Definition remove_file v p : outcome (bool * VfsState) := change v p fs_remove_file.
Definition mkdir v p : outcome (bool * VfsState) := change v p fs_mkdir.
Definition rmdir v p : outcome (bool * VfsState) := change v p fs_rmdir.

(** [Vfs::resolve_path] *)
Definition global_inode (id local : Z) : Z := Z.lor (Z.shiftl id 24) (Z.land local 0x00FFFFFF).
Definition resolve_path v p : outcome (option Z) :=
  '(fs, rel, id) ← resolve v p; o ← fs_resolve_path fs rel; Ret (global_inode id <$> (o : option Z)).

(** [has_mount_descendant] *)
Definition has_mount_descendant v p : bool :=
  existsb (fun m => if bool_decide (p = [slash]) then negb (bool_decide (point m = [slash]))
                    else starts_with p (point m) && bool_decide (get (point m) (zlen p) = Some slash)) (mounts v).

(** [add_mount_children]: the name a mount adds to the directory, if any. *)
Definition mount_child p m : option path :=
  if bool_decide (point m = p) then None else
  rest ← (if bool_decide (p = [slash]) then Some (default (point m) (strip_prefix [slash] (point m)))
          else rest ← strip_prefix p (point m); strip_prefix [slash] rest);
  match rest with [] => None | _ => head (split rest) end.
Definition add_child p (acc : list DirEntry * bool) m : list DirEntry * bool :=
  let '(entries, added) := acc in
  match mount_child p m with
  | Some child =>
      if bool_decide (child = []) || existsb (fun e => bool_decide (trim_end (e_name e) = child)) entries then acc
      else (entries ++ [mkEntry 0 child 2 0], true)
  | None => acc
  end.
Definition add_mount_children v p (entries : list DirEntry) : list DirEntry * bool :=
  foldl (add_child p) (entries, false) (mounts v).

(** [Vfs::list_directory_entries] *)
Definition list_directory_entries v p : outcome (option (list DirEntry)) :=
  let p := normalize_dir_path p in
  '(fs, rel, _) ← resolve v p;
  backing ← fs_list_directory_entries fs rel;
  let '(entries, synthetic) := add_mount_children v p (default [] backing) in
  Ret (if bool_decide (is_Some backing) || synthetic then Some entries else None).

(** [Vfs::metadata] *)
Definition metadata v p : outcome (option Metadata) :=
  let p := normalize_dir_path p in
  '(fs, rel, id) ← resolve v p;
  o ← fs_metadata fs rel;
  match o with
  | Some meta => Ret (Some (meta <| m_inode := global_inode id (m_inode meta) |>))
  | None => if has_mount_descendant v p then Ret (Some (mkMeta 0 0x41ED 2 0 0 0 0 4096 0 0 0 0)) else Ret None
  end.

(** ** Operations by inode *)

(** The filesystem with an id, and the one an inode number names. *)
Definition by_id v (id : Z) : option FsRef :=
  if id =? 0 then (match root_fs v with Some _ => Some RootRef | None => None end)
  else (fun x => MountRef x.1) <$> list_find (fun m => fs_id m = id) (mounts v).
Definition by_inode v (g : Z) : option FsRef := by_id v (Z.shiftr g 24).
Definition local_inode (g : Z) : Z := Z.land g 0x00FFFFFF.

(** [Vfs::metadata_inode], [read_at], [write_at], [append_write] *)
Definition metadata_inode v (g : Z) : outcome (option Metadata) :=
  match r ← by_inode v g; deref v r with
  | Some fs => o ← fs_metadata_inode fs (local_inode g); Ret ((fun meta => meta <| m_inode := g |>) <$> (o : option Metadata))
  | None => Ret None
  end.
Definition read_at v (g offset : Z) (buf : list Z) : outcome (Z * list Z) :=
  match r ← by_inode v g; deref v r with
  | Some fs => fs_read_at fs (local_inode g) offset buf
  | None => Ret (0, buf)
  end.
Definition write_at v (g offset : Z) (buf : list Z) : outcome (Z * VfsState) :=
  match r ← by_inode v g; fs ← deref v r; Some (r, fs) with
  | Some (r, fs) => '(n, fs) ← fs_write_at fs (local_inode g) offset buf; Ret (n, store v r fs)
  | None => Ret (0, v)
  end.
Definition append_write v (g : Z) (buf : list Z) : outcome (Z * Z * VfsState) :=
  match r ← by_inode v g; fs ← deref v r; Some (r, fs) with
  | None => Ret (0, 0, v)
  | Some (r, fs) =>
      o ← fs_metadata_inode fs (local_inode g);
      match o with
      | None => Ret (0, 0, v)
      | Some meta =>
          let eof := m_size meta in
          '(written, fs) ← fs_write_at fs (local_inode g) eof buf;
          Ret (written, saturating_add 64 eof written, store v r fs)
      end
  end.

(** [Vfs::rename] *)
Definition fs_exists (fs : B) (rel : path) : outcome bool :=
  o ← fs_resolve_path fs rel;
  match o with
  | Some _ => Ret true
  | None => l ← fs_list_directory_entries fs rel; Ret (bool_decide (is_Some l))
  end.
Definition rename v (old new : path) : outcome (result () RenameError * VfsState) :=
  let old := normalize_dir_path old in
  let new := normalize_dir_path new in
  if bool_decide (old = [slash]) || bool_decide (new = [slash]) then Ret (Err Unsupported, v) else
  '(_, old_rel, old_id) ← resolve v old;
  '(_, new_rel, new_id) ← resolve v new;
  if negb (old_id =? new_id) then Ret (Err CrossDevice, v) else
  match r ← by_id v old_id; fs ← deref v r; Some (r, fs) with
  | None => Ret (Err NotFound, v)
  | Some (r, fs) =>
      old_exists ← fs_exists fs old_rel;
      if negb old_exists then Ret (Err NotFound, v) else
      new_exists ← fs_exists fs new_rel;
      if new_exists : bool then Ret (Err Exists, v) else
      '(ok, fs) ← fs_rename fs old_rel new_rel;
      Ret (if ok : bool then Ok () else Err Unsupported, store v r fs)
  end.
End Vfs.
Arguments VfsState : clear implicits.
Arguments Mount : clear implicits.

(** ** Strings *)

Lemma strip_prefix_spec p s r : strip_prefix p s = Some r <-> s = p ++ r.
Proof.
  revert s. induction p as [|a p IH]; intros s; simpl; [naive_solver|]. destruct s as [|b s]; [naive_solver|].
  destruct (Z.eqb_spec a b) as [->|Hne]; [rewrite IH; naive_solver|naive_solver].
Qed.

Lemma starts_with_spec p s : starts_with p s = true <-> exists r, s = p ++ r.
Proof.
  unfold starts_with. destruct (strip_prefix p s) as [r|] eqn:H.
  - apply strip_prefix_spec in H. naive_solver.
  - split; [done|]. intros [r Hr]. apply strip_prefix_spec in Hr. congruence.
Qed.

Lemma split_cons s : exists a l, split s = a :: l.
Proof. induction s as [|c s (a & l & IH)]; simpl; [by eexists _, _|]. destruct (c =? slash); [by eexists _, _|]. rewrite IH. by eexists _, _. Qed.

Lemma split_app a b : split (a ++ slash :: b) = split a ++ split b.
Proof.
  induction a as [|c a IH]; simpl; [done|]. rewrite IH. destruct (c =? slash); [done|]. by destruct (split_cons a) as (x & l & ->).
Qed.

Lemma split_no_slash s : Forall (fun part => slash ∉ part) (split s).
Proof.
  induction s as [|c s IH]; simpl; [constructor; [apply not_elem_of_nil|constructor]|].
  destruct (Z.eqb_spec c slash) as [->|Hne]; [constructor; [apply not_elem_of_nil|done]|].
  destruct (split s) as [|a l]; [constructor; [set_solver|done]|]. apply Forall_cons in IH as [Ha IH]. constructor; [set_solver|done].
Qed.

Lemma split_part part : slash ∉ part -> split part = [part].
Proof.
  induction part as [|c part IH]; intros Hn; simpl; [done|]. apply not_elem_of_cons in Hn as [Hc Hn].
  rewrite (proj2 (Z.eqb_neq _ _)) by congruence. by rewrite IH.
Qed.

Lemma split_join l : l <> [] -> Forall (fun part => slash ∉ part) l -> split (join l) = l.
Proof.
  induction l as [|a l IH]; intros Hne Hl; [done|]. apply Forall_cons in Hl as [Ha Hl]. destruct l as [|b l]; [by apply split_part|].
  change (join (a :: b :: l)) with (a ++ slash :: join (b :: l)). rewrite split_app, split_part, IH by done. done.
Qed.

(** ** Normal forms *)

(** A component of a normal path. *)
Definition good (part : path) : Prop := part <> [] /\ part <> [dot] /\ part <> [dot; dot] /\ slash ∉ part.
Definition print (parts : list path) : path := match parts with [] => [slash] | _ => slash :: join parts end.
Definition canonical_path (p : path) : Prop := exists parts, Forall good parts /\ p = print parts.
Definition parts_of (p : path) : list path := foldl push_part [] (split p).

Lemma push_part_good parts part : Forall good parts -> slash ∉ part -> Forall good (push_part parts part).
Proof.
  intros Hp Hn. unfold push_part. case_bool_decide as H1; [done|]. case_bool_decide as H2.
  - destruct (decide (parts = [])) as [->|Hne]; [constructor|].
    destruct (exists_last Hne) as (l & x & ->). rewrite removelast_last. by apply Forall_app in Hp as [? _].
  - apply Forall_app. split; [done|]. apply Forall_singleton. unfold good. naive_solver.
Qed.

Lemma push_parts_good l : forall parts, Forall good parts -> Forall (fun part => slash ∉ part) l -> Forall good (foldl push_part parts l).
Proof.
  induction l as [|a l IH]; intros parts Hp Hl; [done|]. apply Forall_cons in Hl as [Ha Hl]. apply IH; [by apply push_part_good|done].
Qed.

Lemma push_good l : forall parts, Forall good l -> foldl push_part parts l = parts ++ l.
Proof.
  induction l as [|a l IH]; intros parts Hl; simpl; [by rewrite app_nil_r|]. apply Forall_cons in Hl as [(H1 & H2 & H3 & _) Hl].
  unfold push_part at 2. rewrite bool_decide_eq_false_2 by naive_solver. rewrite bool_decide_eq_false_2 by done.
  by rewrite IH, <- app_assoc.
Qed.

Lemma normalize_print p : normalize_path p = print (parts_of p).
Proof. unfold normalize_path, parts_of, print. by destruct (foldl _ _ _). Qed.

Lemma parts_good p : Forall good (parts_of p).
Proof. apply push_parts_good; [constructor|apply split_no_slash]. Qed.

Lemma parts_print parts : Forall good parts -> parts_of (print parts) = parts.
Proof.
  intros Hg. unfold parts_of, print. destruct parts as [|a l]; [done|].
  change (slash :: join (a :: l)) with ([] ++ slash :: join (a :: l)). rewrite split_app, split_join; [|done|].
  - rewrite foldl_app. by rewrite push_good.
  - eapply Forall_impl; [exact Hg|]. by intros x (_ & _ & _ & ?).
Qed.

Lemma parts_app a b : parts_of (a ++ slash :: b) = foldl push_part (parts_of a) (split b).
Proof. unfold parts_of. by rewrite split_app, foldl_app. Qed.

(** Path normalisation.  The result is a canonical path (absolute, without
    empty, dot or dot-dot components and without a trailing slash), a canonical
    path is its own normal form, and a relative path is resolved from a
    canonical working directory by walking its components, where dot-dot
    leaves a directory and stays at the root. *)
Theorem normalize_exact (p cwd : path) :
  canonical_path (normalize_path p) /\ (canonical_path p -> normalize_path p = p) /\
  canonical_path (resolve_task_path (Some cwd) p) /\
  (canonical_path cwd -> starts_with [slash] p = false ->
   resolve_task_path (Some cwd) p = print (foldl push_part (parts_of cwd) (split p))).
Proof.
  assert (forall q, canonical_path (normalize_path q)) as Hcan.
  { intros q. exists (parts_of q). split; [apply parts_good|apply normalize_print]. }
  split_and!; [apply Hcan| | |].
  - intros (parts & Hg & ->). by rewrite normalize_print, parts_print.
  - unfold resolve_task_path. destruct (starts_with _ p); [apply Hcan|]. case_bool_decide; apply Hcan.
  - intros (parts & Hg & ->) Hrel. unfold resolve_task_path. rewrite Hrel. simpl. case_bool_decide as Hroot; rewrite normalize_print; f_equal.
    + rewrite Hroot. done.
    + by rewrite parts_app.
Qed.

(** ** Resolution *)

Section VfsProofs.
  Context {B : Type} `{!Filesystem B}.
  Implicit Types (v : VfsState B) (m : Mount B) (p q mp : path).

(** A path lies below a mount point when the mount point is one of its leading
    runs of components. *)
Definition below q mp : Prop := 1 < zlen mp /\ (q = mp \/ exists r, q = mp ++ slash :: r).

Lemma mount_prefix_spec q mp : 1 < zlen mp -> is_mount_prefix q mp = true <-> below q mp.
Proof.
  intros Hl. unfold is_mount_prefix, below. rewrite (bool_decide_eq_false_2 (mp = [slash])) by (intros ->; done). simpl.
  rewrite orb_true_iff, andb_true_iff, !bool_decide_eq_true, starts_with_spec. split.
  - intros [->|[[r ->] Hg]]; [naive_solver|]. split; [done|right]. destruct r as [|c r].
    + rewrite app_nil_r in Hg. apply get_Some_range in Hg. lia.
    + rewrite get_middle in Hg. injection Hg as ->. by exists r.
  - intros [_ [->|[r ->]]]; [by left|right]. split; [by eexists|apply get_middle].
Qed.

Lemma relative_below q mp : below q mp -> relative_to q mp = if bool_decide (q = mp) then [slash] else drop (length mp) q.
Proof.
  intros [Hl Hb]. unfold relative_to. case_bool_decide as He; [done|]. destruct Hb as [?|[r ->]]; [done|].
  rewrite (proj2 (starts_with_spec _ _)) by (by eexists). rewrite bool_decide_eq_false_2; [done|]. intros ->. done.
Qed.

(** A mount that the scan prefers to a prefix of length [n]. *)
Definition wins q (n : Z) m : Prop := is_mount_prefix q (point m) = true /\ n < zlen (point m).

(** What the scan of the table from position [i] finds: it either keeps its
    candidate, which no later mount beats, or ends at a mount that beats the
    candidate and is at least as long as every other that does. *)
Lemma scan_best q l : forall i r fs pre id, exists r' fs' pre' id',
  scan_mut q i l (r, pre, id) = (r', pre', id') /\ foldl (better q) (fs, pre, id) l = (fs', pre', id') /\
  ((r' = r /\ fs' = fs /\ pre' = pre /\ id' = id /\ forall m, m ∈ l -> ~ wins q (zlen pre) m) \/
   exists n m, r' = MountRef (i + n) /\ l !! n = Some m /\ fs' = mfs m /\ pre' = point m /\ id' = fs_id m /\ wins q (zlen pre) m /\
     forall m', m' ∈ l -> wins q (zlen pre) m' -> zlen (point m') <= zlen (point m)).
Proof.
  induction l as [|m l IH]; intros i r fs pre id.
  { exists r, fs, pre, id. split_and!; [done|done|left]. split_and!; try done. intros m Hm. by apply not_elem_of_nil in Hm. }
  simpl. destruct (is_mount_prefix q (point m) && (zlen pre <? zlen (point m))) eqn:Hb.
  - apply andb_true_iff in Hb as [Hp Hlt%Z.ltb_lt].
    destruct (IH (S i) (MountRef i) (mfs m) (point m) (fs_id m)) as (r' & fs' & pre' & id' & Hs & Hf & Hcase).
    exists r', fs', pre', id'. split_and!; [done..|right]. destruct Hcase as [(-> & -> & -> & -> & Hno)|(n & m' & -> & Hl & -> & -> & -> & [Hw Hw'] & Hmax)].
    + exists 0%nat, m. split_and!; try done; [f_equal; lia|]. intros m' [->|Hm']%elem_of_cons [Hp' _]; [lia|].
      destruct (Z.le_gt_cases (zlen (point m')) (zlen (point m))); [done|]. by destruct (Hno m' Hm').
    + exists (S n), m'. split_and!; try done; [f_equal; lia|split; [done|lia]|]. intros m'' [->|Hm'']%elem_of_cons [Hp'' _]; [lia|].
      destruct (Z.le_gt_cases (zlen (point m'')) (zlen (point m))); [lia|]. by apply Hmax.
  - assert (~ wins q (zlen pre) m) as Hnw.
    { intros [Hp Hlt]. rewrite Hp, (proj2 (Z.ltb_lt _ _)) in Hb by done. done. }
    destruct (IH (S i) r fs pre id) as (r' & fs' & pre' & id' & Hs & Hf & Hcase).
    exists r', fs', pre', id'. split_and!; [done..|]. destruct Hcase as [(-> & -> & -> & -> & Hno)|(n & m' & -> & Hl & -> & -> & -> & Hw & Hmax)].
    + left. split_and!; try done. intros m' [->|Hm']%elem_of_cons; [done|by apply Hno].
    + right. exists (S n), m'. split_and!; try done; [f_equal; lia|]. intros m'' [->|Hm'']%elem_of_cons Hw''; [done|by apply Hmax].
Qed.

Definition absolute p : path := match p with [] => [slash] | _ => p end.

(** The filesystem a path belongs to, as a relation on the mount table. *)
Definition owner v q (r : FsRef) (fs : B) (rel : path) (id : Z) : Prop :=
  match r with
  | RootRef => root_fs v = Some fs /\ id = 0 /\ rel = q /\ forall m, m ∈ mounts v -> ~ below q (point m)
  | MountRef n => exists m, mounts v !! n = Some m /\ fs = mfs m /\ id = fs_id m /\ below q (point m) /\
      (if bool_decide (q = point m) then rel = [slash] else q = point m ++ rel /\ starts_with [slash] rel = true) /\
      forall m', m' ∈ mounts v -> below q (point m') -> zlen (point m') < zlen (point m) \/ point m' = point m
  end.

Lemma below_same q mp mp' : below q mp -> below q mp' -> zlen mp = zlen mp' -> mp = mp'.
Proof.
  intros [_ H] [_ H'] Hl. unfold zlen in Hl. assert (length mp = length mp') as Hlen by lia.
  destruct H as [->|[r ->]], H' as [H'|[r' H']]; try congruence.
  - apply (f_equal length) in H'. rewrite length_app in H'. simpl in H'. lia.
  - apply (f_equal length) in H'. rewrite length_app in H'. simpl in H'. lia.
  - by apply app_inj_1 in H' as [? _].
Qed.

Lemma resolve_owner v p root : root_fs v = Some root -> exists r fs rel id,
  resolve v p = Ret (fs, rel, id) /\ resolve_mut v p = Ret (r, rel, id) /\ deref v r = Some fs /\ owner v (absolute p) r fs rel id.
Proof.
  intros Hroot. destruct (scan_best (absolute p) (mounts v) 0 RootRef root [slash] 0) as (r & fs & pre & id & Hs & Hf & Hcase).
  exists r, fs, (relative_to (absolute p) pre), id. unfold resolve, resolve_mut. rewrite Hroot. simpl.
  fold (absolute p). rewrite Hs, Hf. split; [done|]. split; [done|].
  assert (forall m, wins (absolute p) (zlen [slash]) m <-> below (absolute p) (point m)) as Hwin.
  { intros m. unfold wins. change (zlen [slash]) with 1. split; [intros [? ?]; by apply mount_prefix_spec|].
    intros Hb. pose proof Hb as [Hl _]. split; [by apply mount_prefix_spec|done]. }
  destruct Hcase as [(-> & -> & -> & -> & Hno)|(n & m & -> & Hl & -> & -> & -> & Hw & Hmax)].
  - split; [done|]. simpl. split_and!; try done.
    + unfold relative_to. case_bool_decide as He; [done|]. by rewrite (bool_decide_eq_true_2 ([slash] = [slash])), andb_false_r.
    + intros m Hm Hb. by apply (Hno m Hm), Hwin.
  - simpl. split; [by rewrite Hl|]. exists m. apply Hwin in Hw. split_and!; try done.
    + rewrite relative_below by done. case_bool_decide as He; [done|]. destruct Hw as [_ [?|[r Hr]]]; [done|].
      rewrite Hr, drop_app_length. split; [done|]. apply starts_with_spec. by exists r.
    + intros m' Hm' Hb'. specialize (Hmax m' Hm' (proj2 (Hwin m') Hb')).
      destruct (Z.eq_dec (zlen (point m')) (zlen (point m))); [right; by apply (below_same (absolute p))|left; lia].
Qed.

(** C8. Path resolution picks the deepest mount.  The filesystem is that of the
    longest mount point which is a run of leading components of the path, or
    the root filesystem if there is none; every other mount point above the
    path is strictly shorter (or the same point).  The relative path is what
    follows the mount point, a single slash for the mount point itself, and
    the shared and the exclusive resolution agree. *)
Theorem resolve_exact v p root :
  root_fs v = Some root ->
  exists r fs rel id, resolve v p = Ret (fs, rel, id) /\ resolve_mut v p = Ret (r, rel, id) /\ deref v r = Some fs /\
    owner v (absolute p) r fs rel id.
Proof. apply resolve_owner. Qed.
(** ** The mount table *)

(** Mount points are absolute, below the root and distinct; ids are distinct
    bytes other than the root's; the registry lists exactly the mount points
    and, once there is a root filesystem, the root. *)
Record vfs_ok v : Prop := {
  vo_points : NoDup (point <$> mounts v);
  vo_ids : NoDup (fs_id <$> mounts v);
  vo_range : Forall (fun m => 1 <= fs_id m <= 255) (mounts v);
  vo_next : 0 <= next_fs_id v <= 255;
  vo_below : Forall (fun m => starts_with [slash] (point m) = true /\ point m <> [slash]) (mounts v);
  vo_registry : NoDup (registry v) /\
    forall q, q ∈ registry v <-> q ∈ point <$> mounts v \/ (q = [slash] /\ is_Some (root_fs v))
}.

(** The [i]-th id that the search tries. *)
Definition tried (next i : Z) : Z := ((if next =? 0 then 1 else next) - 1 + i) mod 255 + 1.

Lemma tried_next next i : 0 <= next <= 255 -> 0 <= i -> tried (wrapping_add 8 (if next =? 0 then 1 else next) 1) i = tried next (i + 1).
Proof.
  intros Hn Hi. destruct (Z.eqb_spec next 0) as [->|Hne].
  { change ((2 - 1 + i) mod 255 + 1 = (1 - 1 + (i + 1)) mod 255 + 1). f_equal. f_equal. lia. }
  destruct (Z.eq_dec next 255) as [->|].
  { change ((1 - 1 + i) mod 255 + 1 = (255 - 1 + (i + 1)) mod 255 + 1).
    replace (255 - 1 + (i + 1)) with (1 - 1 + i + 1 * 255) by lia. by rewrite Z.mod_add. }
  unfold tried, wrapping_add. change (2 ^ 8) with 256. rewrite (Z.mod_small (next + 1)) by lia.
  rewrite !(proj2 (Z.eqb_neq _ _)) by lia. f_equal. f_equal. lia.
Qed.

Lemma alloc_loop_ok n : forall (ms : list (Mount B)) next o next', 0 <= next <= 255 -> alloc_id_loop n ms next = (o, next') ->
  0 <= next' <= 255 /\
  match o with
  | Some id => 1 <= id <= 255 /\ id ∉ fs_id <$> ms
  | None => forall i, 0 <= i < Z.of_nat n -> tried next i ∈ fs_id <$> ms
  end.
Proof.
  induction n as [|n IH]; intros ms next o next' Hn; simpl; [intros [= <- <-]; split; [done|lia]|].
  set (id := if next =? 0 then 1 else next). assert (1 <= id <= 255) as Hid by (unfold id; destruct (Z.eqb_spec next 0); lia).
  assert (0 <= wrapping_add 8 id 1 <= 255) as Hw by (unfold wrapping_add; change (2 ^ 8) with 256; pose proof (Z.mod_pos_bound (id + 1) 256); lia).
  assert (existsb (fun m => fs_id m =? id) ms = true <-> id ∈ fs_id <$> ms) as Hex.
  { rewrite existsb_exists, list_elem_of_fmap. split; intros (m & H1 & H2); exists m; rewrite ?list_elem_of_In in *; naive_solver lia. }
  destruct (existsb _ ms).
  - intros Hl. destruct (IH _ _ _ _ Hw Hl) as [H1 H2]. split; [done|]. destruct o as [|]; [done|]. intros i Hi.
    destruct (Z.eq_dec i 0) as [->|Hne].
    + replace (tried next 0) with id; [by apply Hex|]. unfold tried. fold id. rewrite Z.add_0_r, Z.mod_small by lia. lia.
    + replace (tried next i) with (tried (wrapping_add 8 id 1) (i - 1)); [apply H2; lia|].
      unfold id. rewrite tried_next by lia. f_equal. lia.
  - intros [= <- <-]. split; [done|]. split; [done|]. intros Hin. by apply Hex in Hin.
Qed.

Lemma tried_all next id : 1 <= id <= 255 -> exists i, 0 <= i < 255 /\ tried next i = id.
Proof.
  intros Hid. set (b := (if next =? 0 then 1 else next) - 1). exists ((id - 1 - b) mod 255). split; [apply Z.mod_pos_bound; lia|].
  unfold tried. fold b. rewrite Zplus_mod_idemp_r. replace (b + (id - 1 - b)) with (id - 1) by lia. rewrite Z.mod_small by lia. lia.
Qed.

(** The search for an id succeeds unless all 255 are in use. *)
Lemma alloc_exact v o v' : vfs_ok v -> alloc_mount_id v = (o, v') ->
  v' = v <| next_fs_id := next_fs_id v' |> /\ 0 <= next_fs_id v' <= 255 /\
  match o with
  | Some id => zlen (mounts v) < 255 /\ 1 <= id <= 255 /\ id ∉ fs_id <$> mounts v
  | None => zlen (mounts v) = 255
  end.
Proof.
  intros Hv. unfold alloc_mount_id. destruct (alloc_id_loop 255 (mounts v) (next_fs_id v)) as [o' next] eqn:Hl.
  intros [= <- <-]. destruct (alloc_loop_ok _ _ _ _ _ (vo_next _ Hv) Hl) as [Hn Ho]. split; [by destruct v|]. split; [done|].
  assert (forall ids, NoDup ids -> (forall id, id ∈ ids -> 1 <= id <= 255) -> zlen ids <= 255) as Hbound.
  { intros ids Hnd Hr. assert (ids ⊆+ seqZ 1 255) as Hsub.
    { apply NoDup_submseteq; [done|]. intros x Hx. apply elem_of_seqZ. specialize (Hr x Hx). lia. }
    apply submseteq_length in Hsub. rewrite length_seqZ in Hsub. unfold zlen. lia. }
  assert (forall id, id ∈ fs_id <$> mounts v -> 1 <= id <= 255) as Hr.
  { intros id (m & -> & Hm)%list_elem_of_fmap. pose proof (vo_range _ Hv) as HF. rewrite Forall_forall in HF. by apply HF. }
  assert (zlen (fs_id <$> mounts v) = zlen (mounts v)) as Hlen by (unfold zlen; by rewrite length_fmap).
  destruct o' as [id|].
  - destruct Ho as [Hid Hfree]. split; [|done]. pose proof (Hbound (id :: (fs_id <$> mounts v))) as H1. rewrite zlen_cons in H1.
    assert (1 + zlen (fs_id <$> mounts v) <= 255); [|lia]. apply H1; [by constructor; [|apply (vo_ids _ Hv)]|].
    intros x [->|Hx]%elem_of_cons; [done|by apply Hr].
  - pose proof (Hbound _ (vo_ids _ Hv) Hr) as Hle. assert (seqZ 1 255 ⊆+ fs_id <$> mounts v) as Hsub.
    { apply NoDup_submseteq; [apply NoDup_seqZ|]. intros x Hx%elem_of_seqZ. destruct (tried_all (next_fs_id v) x) as (i & Hi & <-); [lia|].
      apply Ho. lia. }
    apply submseteq_length in Hsub. rewrite length_seqZ in Hsub. unfold zlen in *. lia.
Qed.
Lemma mounted_at_spec v p : is_mounted_at v p = true <-> p ∈ point <$> mounts v.
Proof.
  unfold is_mounted_at. rewrite existsb_exists, list_elem_of_fmap.
  split; intros (m & H1 & H2); exists m; rewrite ?list_elem_of_In, ?bool_decide_eq_true in *; naive_solver.
Qed.

Lemma filter_out_id {A} (f : A -> path) p l : p ∉ f <$> l -> List.filter (fun x => negb (bool_decide (f x = p))) l = l.
Proof.
  induction l as [|a l IH]; intros Hn; simpl; [done|]. apply not_elem_of_cons in Hn as [Ha Hn].
  rewrite bool_decide_eq_false_2 by congruence. simpl. by rewrite IH.
Qed.

Lemma filter_out_last {A} (f : A -> path) l x : f x ∉ f <$> l ->
  List.filter (fun y => negb (bool_decide (f y = f x))) (l ++ [x]) = l.
Proof.
  intros Hn. rewrite List.filter_app, filter_out_id by done. simpl. rewrite bool_decide_eq_true_2 by done. by rewrite app_nil_r.
Qed.

Lemma register_new p l : p ∉ l -> register p l = l ++ [p].
Proof.
  intros Hn. unfold register. replace (existsb _ l) with false; [done|]. symmetry. apply not_true_iff_false. rewrite existsb_exists.
  intros (q & Hq & He%bool_decide_eq_true). subst. by apply Hn, list_elem_of_In.
Qed.

(** A mount that takes place. *)
Lemma mount_new v p fs : vfs_ok v -> starts_with [slash] p = true -> p <> [slash] -> is_mounted_at v p = false ->
  match alloc_mount_id v with
  | (Some id, v1) => mount v p fs = v1 <| mounts := mounts v ++ [mkMount p id fs] |> <| registry := registry v ++ [p] |>
  | (None, v1) => mount v p fs = v1
  end.
Proof.
  intros Hv Hs Hne Hm. unfold mount. rewrite Hs, Hm. simpl. destruct (alloc_mount_id v) as [[id|] v1] eqn:Ha; [|done].
  destruct (alloc_exact v _ _ Hv Ha) as (E & _). assert (mounts v1 = mounts v) as -> by (by rewrite E).
  assert (registry v1 = registry v) as -> by (by rewrite E). rewrite register_new; [done|].
  intros Hr. destruct (vo_registry _ Hv) as [_ Hreg]. apply Hreg in Hr as [Hin|[? _]]; [|done].
  apply mounted_at_spec in Hin. congruence.
Qed.

Lemma mount_ok v p fs : vfs_ok v -> starts_with [slash] p = true -> p <> [slash] -> vfs_ok (mount v p fs).
Proof.
  intros Hv Hs Hne. destruct (is_mounted_at v p) eqn:Hm.
  { unfold mount. by rewrite Hs, Hm. }
  pose proof (mount_new v p fs Hv Hs Hne Hm) as Hmn. destruct (alloc_mount_id v) as [[id|] v1] eqn:Ha; rewrite Hmn; clear Hmn;
    destruct (alloc_exact v _ _ Hv Ha) as (E & Hnx & Ho).
  - destruct Ho as (_ & Hid & Hfree). assert (p ∉ point <$> mounts v) as Hp by (intros Hin%mounted_at_spec; congruence).
    destruct Hv. constructor; simpl; rewrite ?fmap_app; try done.
    + apply NoDup_app. split_and!; [done| |apply NoDup_singleton]. set_solver.
    + apply NoDup_app. split_and!; [done| |apply NoDup_singleton]. set_solver.
    + apply Forall_app. split; [done|by apply Forall_singleton].
    + apply Forall_app. split; [done|by apply Forall_singleton].
    + destruct vo_registry0 as [Hnd Hreg]. split.
      * apply NoDup_app. split_and!; [done| |apply NoDup_singleton]. intros q Hq ->%list_elem_of_singleton. apply Hreg in Hq. naive_solver.
      * intros q. rewrite !elem_of_app, Hreg, E. simpl. rewrite !list_elem_of_singleton. naive_solver.
  - destruct Hv. rewrite E. by constructor.
Qed.

Lemma filter_drops {A} (f : A -> bool) l x : x ∈ l -> f x = false -> zlen (List.filter f l) < zlen l.
Proof.
  intros (l1 & l2 & ->)%list_elem_of_split Hf. rewrite List.filter_app. simpl. rewrite Hf, !zlen_app, zlen_cons.
  pose proof (List.filter_length_le f l1). pose proof (List.filter_length_le f l2). unfold zlen. lia.
Qed.

Lemma unmount_ok v p : vfs_ok v -> p <> [slash] -> vfs_ok (unmount v p).2.
Proof.
  intros Hv Hne. unfold unmount. simpl. set (f := fun m => negb (bool_decide (point m = p))).
  assert (forall m, m ∈ List.filter f (mounts v) <-> m ∈ mounts v /\ point m <> p) as Hf.
  { intros m. rewrite !list_elem_of_In, List.filter_In. unfold f. by rewrite negb_true_iff, bool_decide_eq_false. }
  assert (sublist (List.filter f (mounts v)) (mounts v)) as Hsub.
  { clear. induction (mounts v) as [|m l IH]; simpl; [constructor|]. destruct (f m); by constructor. }
  assert (forall q, q ∈ point <$> List.filter f (mounts v) <-> q ∈ point <$> mounts v /\ q <> p) as Hq.
  { intros q. rewrite !list_elem_of_fmap. setoid_rewrite Hf. naive_solver. }
  destruct Hv. destruct vo_registry0 as [Hnd Hreg].
  assert (forall reg, NoDup reg -> (forall q, q ∈ reg <-> q ∈ point <$> List.filter f (mounts v) \/ (q = [slash] /\ is_Some (root_fs v))) ->
    vfs_ok (v <| mounts := List.filter f (mounts v) |> <| registry := reg |>)) as Hmk.
  { intros reg H1 H2. constructor; simpl; try done.
    - eapply sublist_NoDup; [exact vo_points0|]. by apply fmap_sublist.
    - eapply sublist_NoDup; [exact vo_ids0|]. by apply fmap_sublist.
    - apply Forall_forall. intros m [Hm _]%Hf. rewrite Forall_forall in vo_range0. by apply vo_range0.
    - apply Forall_forall. intros m [Hm _]%Hf. rewrite Forall_forall in vo_below0. by apply vo_below0. }
  destruct (Z.ltb_spec (zlen (List.filter f (mounts v))) (zlen (mounts v))) as [Hlt|Hge].
  - apply Hmk.
    + apply NoDup_ListNoDup, List.NoDup_filter, NoDup_ListNoDup. done.
    + intros q. rewrite list_elem_of_In, List.filter_In, <- list_elem_of_In, negb_true_iff, bool_decide_eq_false, Hreg, Hq. naive_solver.
  - apply (Hmk (registry v)); [done|]. intros q. rewrite Hreg, Hq. split; [|naive_solver]. intros [Hin|?]; [left|by right]. split; [done|].
    intros ->. apply list_elem_of_fmap in Hin as (m & Hp & Hm). pose proof (filter_drops f (mounts v) m Hm) as Hlt.
    unfold f in Hlt at 1. rewrite bool_decide_eq_true_2 in Hlt by done. specialize (Hlt eq_refl). lia.
Qed.
(** Mounting and unmounting.  On a well-formed table, mounting at an
    absolute path below the root keeps the table well formed.  It is refused
    without effect where something is mounted, it fails only when all 255 ids
    are in use, and otherwise adds one mount with an id no other mount has.
    Unmounting that path then succeeds and gives back the table, the registry
    and the root filesystem as they were. *)
Theorem mount_roundtrip v p fs : vfs_ok v -> starts_with [slash] p = true -> p <> [slash] ->
  let v1 := mount v p fs in
  vfs_ok v1 /\ (is_mounted_at v p = true -> v1 = v) /\
  (is_mounted_at v p = false ->
   if zlen (mounts v) <? 255 then
     exists id v2, id ∉ fs_id <$> mounts v /\ 1 <= id <= 255 /\ mounts v1 = mounts v ++ [mkMount p id fs] /\
       unmount v1 p = (true, v2) /\ mounts v2 = mounts v /\ registry v2 = registry v /\ root_fs v2 = root_fs v
   else mounts v1 = mounts v /\ registry v1 = registry v /\ root_fs v1 = root_fs v).
Proof.
  intros Hv Hs Hne v1. split; [by apply mount_ok|]. split; [intros Hm; unfold v1, mount; by rewrite Hs, Hm|]. intros Hm.
  pose proof (mount_new v p fs Hv Hs Hne Hm) as Hmn. fold v1 in Hmn.
  destruct (alloc_mount_id v) as [[id|] v'] eqn:Ha; destruct (alloc_exact v _ _ Hv Ha) as (E & _ & Ho).
  - destruct Ho as (Hlt & Hid & Hfree). rewrite (proj2 (Z.ltb_lt _ _)) by done.
    assert (p ∉ point <$> mounts v) as Hp by (intros Hin%mounted_at_spec; congruence).
    assert (p ∉ registry v) as Hpr by (intros [?|[? _]]%(proj2 (vo_registry _ Hv)); done).
    pose proof (filter_out_last point (mounts v) (mkMount p id fs) Hp) as Hfm. simpl in Hfm.
    pose proof (filter_out_last (fun q => q) (registry v) p) as Hfr. rewrite list_fmap_id in Hfr. specialize (Hfr Hpr).
    exists id. eexists. split_and!; [done|lia|lia|by rewrite Hmn|unfold unmount; rewrite Hmn; simpl; rewrite Hfm, zlen_app|..].
    + change (zlen [mkMount p id fs]) with 1. rewrite (proj2 (Z.ltb_lt _ _)) by lia. by rewrite Hfr.
    + done.
    + done.
    + simpl. by rewrite E.
  - rewrite (proj2 (Z.ltb_ge _ _)) by lia. rewrite Hmn, E. done.
Qed.

(** ** Isolation of the mounted filesystems *)

Lemma scan_store q f l : (forall m, point (f m) = point m /\ fs_id (f m) = fs_id m) ->
  forall n i best, scan_mut q i (alter f n l) best = scan_mut q i l best.
Proof.
  intros Hf. induction l as [|m l IH]; intros n i best; [done|]. destruct n as [|n]; simpl; [|apply IH].
  f_equal. unfold better_mut. by destruct (Hf m) as [-> ->].
Qed.

Lemma store_resolve v r fs q : is_Some (root_fs v) -> resolve_mut (store v r fs) q = resolve_mut v q.
Proof.
  intros [root Hr]. unfold resolve_mut. destruct r as [|n]; simpl; [by rewrite Hr|].
  rewrite (scan_store (absolute q) _ (mounts v)) by done. done.
Qed.

Lemma deref_store v r fs r' : is_Some (deref v r) -> deref (store v r fs) r' = if decide (r' = r) then Some fs else deref v r'.
Proof.
  intros Hs. destruct r as [|n], r' as [|n']; [done..|].
  assert (mounts (store v (MountRef n) fs) = alter (fun m => m <| mfs := fs |>) n (mounts v)) as E by done.
  unfold deref at 1. rewrite E, list_lookup_alter. destruct Hs as [b Hs]. unfold deref in Hs. destruct (decide (n = n')) as [<-|Hne].
  - rewrite decide_True by done. by destruct (mounts v !! n).
  - by rewrite decide_False by congruence.
Qed.

Lemma store_points v r fs : (point <$> mounts (store v r fs)) = point <$> mounts v /\ (fs_id <$> mounts (store v r fs)) = fs_id <$> mounts v.
Proof.
  destruct r as [|n]; [done|]. simpl. split; generalize n; induction (mounts v) as [|m l IH]; intros [|k]; simpl; try done; f_equal; apply IH.
Qed.

Lemma store_ok v r fs : vfs_ok v -> is_Some (deref v r) -> vfs_ok (store v r fs).
Proof.
  intros Hv Hs. destruct (store_points v r fs) as [Hp Hi]. destruct Hv.
  assert (forall P : path -> Prop, Forall (fun m => P (point m)) (mounts v) -> Forall (fun m => P (point m)) (mounts (store v r fs))) as Hfp.
  { intros P HP. apply (Forall_fmap point P). rewrite Hp. by apply Forall_fmap. }
  constructor; rewrite ?Hp, ?Hi; try done.
  - apply (Forall_fmap fs_id (fun i => 1 <= i <= 255)). rewrite Hi. by apply Forall_fmap.
  - by destruct r.
  - by apply (Hfp (fun q => starts_with [slash] q = true /\ q <> [slash])).
  - destruct vo_registry0 as [Hnd Hreg]. destruct r as [|n]; [|done]. split; [done|]. intros q. simpl. rewrite Hreg. simpl in Hs. naive_solver.
Qed.

(** An operation by path changes exactly one filesystem.  It is carried out,
    with the relative path, by the filesystem that owns the path, and panics
    only if that filesystem does; every other filesystem, the mount table and
    the resolution of every path stay as they were. *)
Theorem change_isolated v p root (op : B -> path -> outcome (bool * B)) : root_fs v = Some root -> vfs_ok v ->
  exists r fs rel id, owner v (absolute p) r fs rel id /\
    match op fs rel with
    | Panic => change v p op = Panic
    | Ret (ok, fs') =>
        exists v', change v p op = Ret (ok, v') /\ vfs_ok v' /\ deref v' r = Some fs' /\
          (forall r', r' <> r -> deref v' r' = deref v r') /\ (forall q, resolve_mut v' q = resolve_mut v q)
    end.
Proof.
  intros Hr Hv. destruct (resolve_owner v p root Hr) as (r & fs & rel & id & _ & Hm & Hd & Ho).
  exists r, fs, rel, id. split; [done|]. unfold change. rewrite Hm, bind_Ret_l, Hd. simpl.
  destruct (op fs rel) as [[ok fs']|] eqn:Hop; [|done]. exists (store v r fs'). assert (is_Some (deref v r)) as Hs by (by eexists). split_and!.
  - done.
  - by apply store_ok.
  - rewrite deref_store by done. by rewrite decide_True.
  - intros r' Hne. rewrite deref_store by done. by rewrite decide_False.
  - intros q. apply store_resolve. by eexists.
Qed.

(** ** Inode numbers *)

Lemma global_inode_split id l : 0 <= id <= 255 -> 0 <= l ->
  Z.shiftr (global_inode id l) 24 = id /\ local_inode (global_inode id l) = l mod 2 ^ 24.
Proof.
  intros Hid Hl. unfold global_inode, local_inode. change 0x00FFFFFF with (Z.ones 24). rewrite !Z.land_ones by lia.
  pose proof (Z.mod_pos_bound l (2 ^ 24)). rewrite lor_shiftl_add by lia. rewrite Z.shiftr_div_pow2 by lia. split.
  - rewrite Z.div_add_l by lia. rewrite Z.div_small by lia. lia.
  - rewrite Z.add_comm, Z.mod_add by lia. by rewrite Z.mod_mod by lia.
Qed.

Lemma owner_by_id v q r fs rel id : vfs_ok v -> owner v q r fs rel id -> 0 <= id <= 255 /\ by_id v id = Some r.
Proof.
  intros Hv. unfold by_id. destruct r as [|n]; simpl.
  - intros (Hr & -> & _). rewrite Hr. split; [lia|done].
  - intros (m & Hm & _ & -> & _). pose proof (vo_range _ Hv) as HF. rewrite Forall_forall in HF.
    specialize (HF m (list_elem_of_lookup_2 _ _ _ Hm)). split; [lia|]. rewrite (proj2 (Z.eqb_neq _ _)) by lia.
    assert (list_find (fun m' => fs_id m' = fs_id m) (mounts v) = Some (n, m)) as ->; [|done].
    apply list_find_Some. split_and!; try done. intros j y Hy Hlt He.
    assert (j = n) as ->; [|lia]. apply (NoDup_lookup (fs_id <$> mounts v) j n (fs_id m) (vo_ids _ Hv)); rewrite list_lookup_fmap.
    + rewrite Hy. simpl. by rewrite He.
    + by rewrite Hm.
Qed.

(** C21. Inode numbers lead back to their filesystem.  A number obtained by
    resolving a path names the filesystem that owns the path and, in 24 bits,
    the inode there: reading by that number reads that inode of that
    filesystem, writing changes only that filesystem, and the number is not
    disturbed by operations on other filesystems.  An inode number of more
    than 24 bits is truncated. *)
Theorem inode_routes_back v p root g : root_fs v = Some root -> vfs_ok v ->
  (forall fs rel l, fs_resolve_path fs rel = Ret (Some l) -> 0 <= l) -> resolve_path v p = Ret (Some g) ->
  exists r fs rel id l, owner v (absolute p) r fs rel id /\ fs_resolve_path fs rel = Ret (Some l) /\ by_inode v g = Some r /\
    local_inode g = l mod 2 ^ 24 /\
    (forall off buf, read_at v g off buf = fs_read_at fs (l mod 2 ^ 24) off buf) /\
    (forall off buf n fs', fs_write_at fs (l mod 2 ^ 24) off buf = Ret (n, fs') ->
       write_at v g off buf = Ret (n, store v r fs') /\ forall r', r' <> r -> deref (store v r fs') r' = deref v r').
Proof.
  intros Hr Hv Hpos. unfold resolve_path. destruct (resolve_owner v p root Hr) as (r & fs & rel & id & He & _ & Hd & Ho).
  rewrite He, bind_Ret_l. destruct (fs_resolve_path fs rel) as [[l|]|] eqn:Hl; simpl; [|done|done]. intros [= <-].
  destruct (owner_by_id _ _ _ _ _ _ Hv Ho) as [Hid Hby]. destruct (global_inode_split id l Hid (Hpos _ _ _ Hl)) as [Hsh Hloc].
  assert (by_inode v (global_inode id l) = Some r) as Hbi by (unfold by_inode; by rewrite Hsh).
  exists r, fs, rel, id, l. split_and!; try done.
  - intros off buf. unfold read_at. rewrite Hbi. simpl. by rewrite Hd, Hloc.
  - intros off buf n fs' Hw. unfold write_at. rewrite Hbi. simpl. rewrite Hd. simpl. rewrite Hloc, Hw. split; [done|].
    intros r' Hne. rewrite deref_store by (by eexists). by rewrite decide_False.
Qed.
Lemma vfs_new_ok : vfs_ok (vfs_new (B := B)).
Proof.
  constructor; [apply NoDup_nil_2|apply NoDup_nil_2|constructor|simpl; lia|constructor|]. split; [constructor|]. intros q. simpl. split; [by intros ?%not_elem_of_nil|]. by intros [?%not_elem_of_nil|[_ []]].
Qed.

Lemma set_root_ok v fs : vfs_ok v -> vfs_ok (set_root v fs).
Proof.
  intros []. destruct vo_registry0 as [Hnd Hreg]. constructor; try done. simpl. unfold register. destruct (existsb _ _) eqn:He.
  - split; [done|]. intros q. rewrite Hreg. apply existsb_exists in He as (x & Hx & ->%bool_decide_eq_true).
    apply list_elem_of_In, Hreg in Hx. naive_solver.
  - assert ([slash] ∉ registry v) as Hn.
    { intros Hin. apply not_true_iff_false in He. apply He, existsb_exists. exists [slash]. rewrite <- list_elem_of_In. split; [done|by apply bool_decide_eq_true]. }
    split; [apply NoDup_app; split_and!; [done|set_solver|apply NoDup_singleton]|]. intros q. rewrite elem_of_app, list_elem_of_singleton, Hreg.
    split; [|intros [?|[-> _]]; auto]. intros [[?|[-> ?]]| ->]; [by left|right; split; [done|by eexists]..].
Qed.
End VfsProofs.

(** ** Witnesses *)

(** A filesystem of plain files, numbered by position. *)
Definition flat : Type := list (path * list Z).
Definition flat_find (f : flat) (p : path) : option (nat * (path * list Z)) := list_find (fun e => e.1 = p) f.
Definition flat_put (f : flat) (n : nat) (d : list Z) : flat := alter (fun e => (e.1, d)) n f.
#[global] Instance flat_fs : Filesystem flat := {
  fs_read_file f p := Ret ((fun x => x.2.2) <$> flat_find f p);
  fs_write_file f p d := match flat_find f p with Some (n, _) => Ret (true, flat_put f n d) | None => Ret (false, f) end;
  fs_create_file f p d := match flat_find f p with Some _ => Ret (false, f) | None => Ret (true, f ++ [(p, d)]) end;
  fs_remove_file f p := Ret (false, f);
  fs_mkdir f p := Ret (false, f);
  fs_rmdir f p := Ret (false, f);
  fs_list_directory_entries f p := Ret (if bool_decide (p = [slash]) then Some [] else None);
  fs_resolve_path f p := Ret ((fun x => Z.of_nat x.1) <$> flat_find f p);
  fs_read_at f n off buf := match f !! Z.to_nat n with Some e => Ret (zlen e.2, e.2) | None => Ret (0, buf) end;
  fs_write_at f n off buf := Ret (zlen buf, flat_put f (Z.to_nat n) buf);
  fs_metadata f p := Ret None;
  fs_metadata_inode f n := Ret None;
  fs_rename f p q := Ret (false, f)
}.

Definition usb : path := str "/mnt/usb".
Definition wit_root : VfsState flat := set_root vfs_new [(str "/etc/motd", str "hi")].
Definition wit_vfs : VfsState flat := mount wit_root usb [(str "/a", str "one")].

Lemma wit_root_ok : vfs_ok wit_root.
Proof. apply set_root_ok, vfs_new_ok. Qed.
Lemma wit_vfs_ok : vfs_ok wit_vfs.
Proof. apply mount_ok; [apply wit_root_ok|by vm_compute|by vm_compute]. Qed.

Lemma resolve_exact_witness : exists r fs id, resolve wit_vfs (str "/mnt/usb/a") = Ret (fs, str "/a", id) /\ deref wit_vfs r = Some fs.
Proof.
  destruct (resolve_exact wit_vfs (str "/mnt/usb/a") [(str "/etc/motd", str "hi")]) as (r & fs & rel & id & He & _ & Hd & _); [by vm_compute|].
  assert (rel = str "/a") as -> by (vm_compute in He; by injection He as _ <- _). by exists r, fs, id.
Defined.

Lemma mount_roundtrip_witness : exists id v2,
  mounts wit_vfs = [mkMount usb id [(str "/a", str "one")]] /\ unmount wit_vfs usb = (true, v2) /\ mounts v2 = [].
Proof.
  destruct (mount_roundtrip wit_root usb [(str "/a", str "one")] wit_root_ok) as (_ & _ & H); [by vm_compute|by vm_compute|].
  destruct (H eq_refl) as (id & v2 & _ & _ & Hm & Hu & Hm2 & _). by exists id, v2.
Defined.

Lemma change_isolated_witness : exists v', create_file wit_vfs (str "/mnt/usb/b") (str "two") = Ret (true, v') /\
  deref v' RootRef = deref wit_vfs RootRef.
Proof.
  destruct (change_isolated wit_vfs (str "/mnt/usb/b") [(str "/etc/motd", str "hi")] (fun fs rel => fs_create_file fs rel (str "two")))
    as (r & fs & rel & id & Ho & H); [by vm_compute|apply wit_vfs_ok|].
  unfold create_file in *. destruct (fs_create_file fs rel (str "two")) as [[ok fs']|].
  - destruct H as (v' & Hc & _ & _ & Hiso & _). exists v'. assert (ok = true) as -> by (vm_compute in Hc; by injection Hc as <- _).
    split; [exact Hc|]. apply Hiso. intros <-. destruct Ho as (_ & _ & _ & Hno).
    destruct (Hno (mkMount usb 1 [(str "/a", str "one")])); [by left|]. apply mount_prefix_spec; by vm_compute.
  - vm_compute in H. done.
Defined.

Lemma inode_routes_back_witness : exists g, resolve_path wit_vfs (str "/mnt/usb/a") = Ret (Some g) /\
  read_at wit_vfs g 0 [] = Ret (3, str "one").
Proof.
  destruct (inode_routes_back wit_vfs (str "/mnt/usb/a") [(str "/etc/motd", str "hi")] 0x01000000)
    as (r & fs & rel & id & l & _ & _ & _ & _ & Hr & _); [by vm_compute|apply wit_vfs_ok| |by vm_compute|].
  - intros fs rel l. simpl. intros [= Hx]. apply fmap_Some in Hx as (x & _ & ->). lia.
  - exists 0x01000000. split; by vm_compute.
Defined.

(** Listing a directory shows the mount points below it, also where the
    filesystem has no such directory. *)
Lemma mounts_are_listed : list_directory_entries wit_vfs (str "/mnt/") = Ret (Some [mkEntry 0 (str "usb") 2 0]).
Proof. by vm_compute. Qed.
