(* ===== verification/Shell.v ===== *)
(** * The shell's grammar, words and variables

    [src/apps/shell/src/parser.rs] as a whole, and of
    [src/apps/shell/src/main.rs] the state of the shell with its variables and
    the expansion of words ([expand_word], [expand_cmd]).

    A string is the list of its characters.  Tokenizing recurses on the rest
    of the line; the loop over the digits after [>&] is a local recursion on
    the same rest, so both end by construction.  The theorems: every command
    line a caller prints is parsed back and expanded to the same commands, a
    parsed line is well formed, expansion follows the pieces of a word, and
    the variables behave as a map whose PATH entry is mirrored in [path]. *)

From Stdlib Require Import String.
From S2P Require Import Prelude Vfs Bytes LineEdit.

(** ** Grammar *)

Definition PROTECTED : Z := 0x1f.

Inductive RedirKind : Type := In | Out | Append.
Inductive RedirTarget : Type := Path (p : list Z) | Fd (fd : Z).
Record Redir : Type := mkRedir { fd : Z; kind : RedirKind; target : RedirTarget }.
Record SimpleCmd : Type := mkCmd { args : list (list Z); redirs : list Redir }.
Inductive Connector : Type := Always | And | Or.
Record CommandGroup : Type := mkGroup { pipeline : list SimpleCmd; background : bool; next : Connector }.
Inductive Token : Type := Word (w : list Z) | TPipe | Semi | AndIf | OrIf | TBackground | TRedir (fd : Z) (kind : RedirKind) | Dup (fd target : Z).

#[global] Instance Redir_eta : Eta Redir := fun r => mkRedir (fd r) (kind r) (target r).
#[global] Instance SimpleCmd_eta : Eta SimpleCmd := fun c => mkCmd (args c) (redirs c).
#[global] Instance RedirKind_dec : EqDecision RedirKind.
Proof. solve_decision. Defined.
#[global] Instance Connector_dec : EqDecision Connector.
Proof. solve_decision. Defined.

(** The error messages of the parser. *)
Inductive SyntaxError : Type :=
| UnfinishedEscapeQuoted | UnfinishedEscape | BadRedirFd | ExpectedFd | BadTargetFd | UnterminatedSingle | UnterminatedDouble
| EmptyCommand | RedirWithoutCommand | ExpectedPath | OperatorRequiresCommand.

Definition parsed (A : Type) : Type := result A SyntaxError.
#[global] Instance parsed_bind : MBind parsed := fun _ _ f m => match m with Ok a => f a | Err e => Err e end.

(** ** Tokens *)

Definition protected (ch : Z) : bool := (ch =? 0x24) || (ch =? 0x7e) || (ch =? PROTECTED).
Definition push_protected (dst : list Z) (ch : Z) : list Z := (if protected ch then dst ++ [PROTECTED] else dst) ++ [ch].

(** The tokens so far, the word being read and whether one is being read. *)
Record Lex : Type := mkLex { out : list Token; cur : list Z; started : bool }.
#[global] Instance Lex_eta : Eta Lex := fun x => mkLex (out x) (cur x) (started x).

Definition flush_word (x : Lex) : Lex := if started x then mkLex (out x ++ [Word (cur x)]) [] false else x.

Definition is_ascii_digit (c : Z) : bool := (0x30 <=? c) && (c <=? 0x39).
Definition dec (l : list Z) : Z := foldl (fun a c => a * 10 + (c - 0x30)) 0 l.
(** [parse::<u8>] of a string of digits *)
Definition parse_u8 (l : list Z) (e : SyntaxError) : parsed Z := if dec l <=? 255 then Ok (dec l) else Err e.

Definition take_fd_prefix (x : Lex) (default : Z) : parsed (Z * Lex) :=
  if started x && negb (bool_decide (cur x = [])) && forallb is_ascii_digit (cur x) then
    v ← parse_u8 (cur x) BadRedirFd; Ok (v, mkLex (out x) [] false)
  else Ok (default, flush_word x).

Definition push_token (t : Token) (x : Lex) : Lex := x <| out := out x ++ [t] |>.

Fixpoint lex (line : list Z) (single double : bool) (x : Lex) {struct line} : parsed (list Token) :=
  match line with
  | [] => if single then Err UnterminatedSingle else if double then Err UnterminatedDouble else Ok (out (flush_word x))
  | ch :: rest =>
      if single then
        if ch =? 0x27 then lex rest false double x else lex rest single double (x <| cur := push_protected (cur x) ch |>)
      else if double then
        if ch =? 0x22 then lex rest single false x
        else if ch =? 0x5c then
          match rest with
          | [] => Err UnfinishedEscapeQuoted
          | nx :: rest => lex rest single double (x <| cur := push_protected (cur x) nx |>)
          end
        else lex rest single double (x <| started := true |> <| cur := cur x ++ [ch] |>)
      else if ch =? 0x27 then lex rest true double (x <| started := true |>)
      else if ch =? 0x22 then lex rest single true (x <| started := true |>)
      else if ch =? 0x5c then
        match rest with
        | [] => Err UnfinishedEscape
        | nx :: rest => lex rest single double (x <| started := true |> <| cur := push_protected (cur x) nx |>)
        end
      else if is_whitespace ch then lex rest single double (flush_word x)
      else if ch =? 0x3b then lex rest single double (push_token Semi (flush_word x))
      else if ch =? 0x7c then
        match rest with
        | 0x7c :: rest => lex rest single double (push_token OrIf (flush_word x))
        | _ => lex rest single double (push_token TPipe (flush_word x))
        end
      else if ch =? 0x26 then
        match rest with
        | 0x26 :: rest => lex rest single double (push_token AndIf (flush_word x))
        | _ => lex rest single double (push_token TBackground (flush_word x))
        end
      else if ch =? 0x3c then
        match take_fd_prefix x 0 with
        | Err e => Err e
        | Ok (v, x) => lex rest single double (push_token (TRedir v In) x)
        end
      else if ch =? 0x3e then
        match take_fd_prefix x 1 with
        | Err e => Err e
        | Ok (v, x) =>
            match rest with
            | 0x3e :: rest => lex rest single double (push_token (TRedir v Append) x)
            | 0x26 :: rest =>
                (fix dup (digits rest : list Z) {struct rest} : parsed (list Token) :=
                   let finish :=
                     if bool_decide (digits = []) then Err ExpectedFd else
                     match parse_u8 digits BadTargetFd with
                     | Err e => Err e
                     | Ok t => lex rest single double (push_token (Dup v t) x)
                     end in
                   match rest with
                   | c :: rest' => if is_ascii_digit c then dup (digits ++ [c]) rest' else finish
                   | [] => finish
                   end) [] rest
            | _ => lex rest single double (push_token (TRedir v Out) x)
            end
        end
      else lex rest single double (x <| started := true |> <| cur := cur x ++ [ch] |>)
  end.

Definition tokenize (line : list Z) : parsed (list Token) := lex line false false (mkLex [] [] false).

(** ** Commands *)

Record Build : Type := mkBuild { cmd : SimpleCmd; bpipeline : list SimpleCmd; groups : list CommandGroup }.
#[global] Instance Build_eta : Eta Build := fun b => mkBuild (cmd b) (bpipeline b) (groups b).

Definition no_cmd : SimpleCmd := mkCmd [] [].

Definition finish_cmd (b : Build) : parsed Build :=
  if bool_decide (args (cmd b) = []) && bool_decide (redirs (cmd b) = []) then Err EmptyCommand else
  if bool_decide (args (cmd b) = []) then Err RedirWithoutCommand else
  Ok (b <| bpipeline := bpipeline b ++ [cmd b] |> <| cmd := no_cmd |>).

Definition finish_group (b : Build) (bg : bool) (nx : Connector) : parsed Build :=
  b ← finish_cmd b; Ok (b <| groups := groups b ++ [mkGroup (bpipeline b) bg nx] |> <| bpipeline := [] |>).

Definition push_arg (w : list Z) (b : Build) : Build := b <| cmd := cmd b <| args := args (cmd b) ++ [w] |> |>.
Definition push_redir (r : Redir) (b : Build) : Build := b <| cmd := cmd b <| redirs := redirs (cmd b) ++ [r] |> |>.

Fixpoint parse_tokens (tokens : list Token) (b : Build) : parsed Build :=
  match tokens with
  | [] => Ok b
  | Word w :: tokens => parse_tokens tokens (push_arg w b)
  | TRedir fd kind :: tokens =>
      match tokens with
      | Word path :: tokens => parse_tokens tokens (push_redir (mkRedir fd kind (Path path)) b)
      | _ => Err ExpectedPath
      end
  | Dup fd target :: tokens => parse_tokens tokens (push_redir (mkRedir fd Out (Fd target)) b)
  | TPipe :: tokens => b ← finish_cmd b; parse_tokens tokens b
  | Semi :: tokens => b ← finish_group b false Always; parse_tokens tokens b
  | AndIf :: tokens => b ← finish_group b false And; parse_tokens tokens b
  | OrIf :: tokens => b ← finish_group b false Or; parse_tokens tokens b
  | TBackground :: tokens => b ← finish_group b true Always; parse_tokens tokens b
  end.

Definition needs_command (t : option Token) : bool :=
  match t with Some TPipe | Some AndIf | Some OrIf => true | _ => false end.

Definition parse_line (line : list Z) : parsed (list CommandGroup) :=
  tokens ← tokenize line;
  if bool_decide (tokens = []) then Ok [] else
  b ← parse_tokens tokens (mkBuild no_cmd [] []);
  b ← (if negb (bool_decide (args (cmd b) = [])) || negb (bool_decide (redirs (cmd b) = [])) || negb (bool_decide (bpipeline b = []))
       then finish_group b false Always
       else if needs_command (last tokens) then Err OperatorRequiresCommand else Ok b);
  if needs_command (last tokens) then Err OperatorRequiresCommand else Ok (groups b).

(** ** The shell *)

Inductive JobState : Type := Running | Stopped.
#[global] Instance JobState_dec : EqDecision JobState.
Proof. solve_decision. Defined.

Record BackgroundJob : Type := mkJob {
  id : Z; pgid : Z; pids : list Z; last_pid : Z; command : list Z; state : JobState; job_status : Z }.
#[global] Instance BackgroundJob_eta : Eta BackgroundJob := fun j =>
  mkJob (id j) (pgid j) (pids j) (last_pid j) (command j) (state j) (job_status j).

Record EnvVar : Type := mkVar { name : list Z; value : list Z; exported : bool }.
#[global] Instance EnvVar_eta : Eta EnvVar := fun v => mkVar (name v) (value v) (exported v).

Record Shell : Type := mkShell {
  cwd : path; old_cwd : path; search : path; command_cache : option (list (list Z)); jobs : list BackgroundJob; next_job_id : Z;
  env : list EnvVar; last_status : Z; should_exit : bool }.
#[global] Instance Shell_eta : Eta Shell := fun s =>
  mkShell (cwd s) (old_cwd s) (search s) (command_cache s) (jobs s) (next_job_id s) (env s) (last_status s) (should_exit s).

Implicit Types (sh : Shell).

Definition find_var (l : list EnvVar) (n : list Z) : option EnvVar := list_find (fun v => name v = n) l ≫= fun x => Some x.2.
Definition get_var sh (n : list Z) : option (list Z) := value <$> find_var (env sh) n.

(** [iter_mut().find(|v| v.name == name)] and the change of what it finds *)
Fixpoint change_var (n : list Z) (f : EnvVar -> EnvVar) (l : list EnvVar) : list EnvVar :=
  match l with
  | [] => []
  | v :: l => if bool_decide (name v = n) then f v :: l else v :: change_var n f l
  end.

Definition invalidate_cache sh : Shell := sh <| command_cache := None |>.

Definition set_var sh (n v : list Z) (e : bool) : Shell :=
  let sh := match find_var (env sh) n with
            | Some _ => sh <| env := change_var n (fun x => x <| value := v |> <| exported := exported x || e |>) (env sh) |>
            | None => sh <| env := env sh ++ [mkVar n v e] |>
            end in
  if bool_decide (n = str "PATH") then invalidate_cache (sh <| search := v |>) else sh.

Definition export_name sh (n : list Z) : bool * Shell :=
  match find_var (env sh) n with
  | Some _ => (true, sh <| env := change_var n (fun x => x <| exported := true |>) (env sh) |>)
  | None => (false, sh)
  end.

Definition unset_var sh (n : list Z) : Shell :=
  let sh := sh <| env := filter (fun v => name v <> n) (env sh) |> in
  if bool_decide (n = str "PATH") then invalidate_cache (sh <| search := [] |>) else sh.

Definition exported_env sh : list (list Z) := (fun v => name v ++ [0x3d] ++ value v ++ [0]) <$> filter (fun v => exported v = true) (env sh).

Definition alloc_job_id sh : Z * Shell := (next_job_id sh, sh <| next_job_id := Z.max (wrapping_add 32 (next_job_id sh) 1) 1 |>).

(** [s.split_once('=')] *)
Fixpoint split_once (c : Z) (s : list Z) : option (list Z * list Z) :=
  match s with
  | [] => None
  | x :: s => if x =? c then Some ([], s) else match split_once c s with Some (a, b) => Some (x :: a, b) | None => None end
  end.

(** [Shell::new]; [getcwd] and [envs] are the answers of the system. *)
Definition shell_new (dir : path) (envs : list (list Z)) : Shell :=
  let sh := mkShell dir dir [] None [] 1 [] 0 false in
  let sh := foldl (fun sh entry => match split_once 0x3d entry with Some (n, v) => set_var sh n v true | None => sh end) sh envs in
  let sh := match get_var sh (str "PATH") with None => set_var sh (str "PATH") (str "/bin:.") true | Some _ => sh end in
  let sh := match get_var sh (str "HOME") with None => set_var sh (str "HOME") (str "/home/user") true | Some _ => sh end in
  set_var (set_var sh (str "PWD") dir true) (str "OLDPWD") dir true.

(** [Shell::resolve]; [normalize_path] of the shell is that of the kernel. *)
Definition resolve sh (p : path) : path :=
  if starts_with [slash] p then normalize_path p
  else if bool_decide (cwd sh = [slash]) then normalize_path ([slash] ++ p)
  else normalize_path (cwd sh ++ [slash] ++ p).

(** ** Words *)

(** [to_string] of an integer: ten digits are enough for 32 bits. *)
Fixpoint digits (fuel : nat) (n : Z) (acc : list Z) : list Z :=
  match fuel with
  | O => acc
  | S fuel => let acc := (0x30 + n mod 10) :: acc in if n <? 10 then acc else digits fuel (n / 10) acc
  end.
Definition show (n : Z) : list Z := if n <? 0 then 0x2d :: digits 10 (- n) [] else digits 10 n [].

Definition is_ascii_alphanumeric (c : Z) : bool := is_ascii_alphabetic c || is_ascii_digit c.
Definition name_char (c : Z) : bool := is_ascii_alphanumeric c || (c =? 0x5f).

(** What [$name] becomes. *)
Definition var_value sh (n : list Z) : list Z := if bool_decide (n = []) then [0x24] else default [] (get_var sh n).

Fixpoint expand_chars sh (l : list Z) {struct l} : list Z :=
  match l with
  | [] => []
  | c :: rest =>
      if c =? PROTECTED then match rest with ch :: rest => ch :: expand_chars sh rest | [] => [] end
      else if negb (c =? 0x24) then c :: expand_chars sh rest
      else
        match rest with
        | [] => [0x24]
        | d :: rest' =>
            if d =? 0x3f then show (last_status sh) ++ expand_chars sh rest'
            else if d =? 0x7b then
              (fix braced (n l : list Z) {struct l} : list Z :=
                 match l with
                 | [] => var_value sh n
                 | e :: l => if e =? 0x7d then var_value sh n ++ expand_chars sh l else braced (n ++ [e]) l
                 end) [] rest'
            else
              (fix plain (n l : list Z) {struct l} : list Z :=
                 match l with
                 | e :: l' => if name_char e then plain (n ++ [e]) l' else var_value sh n ++ expand_chars sh l
                 | [] => var_value sh n
                 end) [] rest
        end
  end.

Definition expand_word sh (word : list Z) : list Z :=
  match word with
  | 0x7e :: rest =>
      match rest with
      | [] => default [slash] (get_var sh (str "HOME"))
      | 0x2f :: _ => default [slash] (get_var sh (str "HOME")) ++ expand_chars sh rest
      | _ => expand_chars sh word
      end
  | _ => expand_chars sh word
  end.

Definition expand_redir sh (r : Redir) : Redir :=
  mkRedir (fd r) (kind r) (match target r with Path p => Path (expand_word sh p) | Fd t => Fd t end).
Definition expand_cmd sh (c : SimpleCmd) : SimpleCmd := mkCmd (expand_word sh <$> args c) (expand_redir sh <$> redirs c).

(** ** Completion *)

(** The order and the sorting of strings. *)
Fixpoint str_leb (a b : list Z) : bool :=
  match a, b with
  | [], _ => true
  | _ :: _, [] => false
  | x :: a, y :: b => if x =? y then str_leb a b else x <? y
  end.
Definition str_le (a b : list Z) : Prop := str_leb a b = true.
#[global] Instance str_le_dec : RelDecision str_le := fun a b => decide (str_leb a b = true).
Fixpoint dedup_strings (l : list (list Z)) : list (list Z) :=
  match l with
  | [] => []
  | x :: t => match t with y :: _ => if bool_decide (x = y) then dedup_strings t else x :: dedup_strings t | [] => [x] end
  end.
Definition sort_dedup (l : list (list Z)) : list (list Z) := dedup_strings (merge_sort str_le l).

(** [s.ends_with(c)], [s.split(c)], [s.rfind('/')] as the two parts around it *)
Definition ends_with (c : Z) (s : list Z) : bool := bool_decide (last s = Some c).
Fixpoint split_at (c : Z) (s : list Z) : list (list Z) :=
  match s with
  | [] => [[]]
  | x :: s => if x =? c then [] :: split_at c s else match split_at c s with p :: l => (x :: p) :: l | [] => [[x]] end
  end.
Fixpoint split_dir (s : list Z) : list Z * list Z :=
  match s with
  | [] => ([], [])
  | x :: s => let '(d, leaf) := split_dir s in if bool_decide (d = []) && negb (x =? slash) then ([], x :: leaf) else (x :: d, leaf)
  end.

Definition BUILTINS : list (list Z) := str <$>
  ["help"; "exit"; "quit"; "pwd"; "cd"; "ls"; "cat"; "mkdir"; "rmdir"; "rm"; "mv"; "path"; "ps";
   "jobs"; "fg"; "bg"; "kill"; "wait"; "export"; "unset"; "env"; "set"; "clear"; "reboot"; "echo";
   "head"; "lspci"; "ifconfig"; "mount"; "mounts"; "umount"; "audiotest"]%string.

(** The pop loop of [longest_common_prefix], over the reversed prefix. *)
Fixpoint lcp_loop (strings : list (list Z)) (rprefix : list Z) : list Z :=
  match rprefix with
  | [] => []
  | _ :: r => if existsb (fun s => negb (starts_with (rev rprefix) s)) strings then lcp_loop strings r else rev rprefix
  end.
Definition longest_common_prefix (strings : list (list Z)) : list Z :=
  match strings with [] => [] | s :: _ => lcp_loop strings (rev s) end.

(** [input_token]: the text up to the last white space, and the rest. *)
Definition input_token (input : list Z) : list Z * list Z :=
  let before := trim_right (fun c => negb (is_whitespace c)) input in (before, drop (length before) input).

Definition command_position (before : list Z) : bool := bool_decide (trim (default before (last (split_at 0x7c before))) = []).

Section Completion.
  (** The names in a directory, as the system lists them, and whether a file can be opened. *)
  Context (list_dir : path -> list (list Z)) (file_exists : path -> bool).

Definition dir_of sh (dir : path) : path := if starts_with [slash] dir then normalize_path dir else resolve sh dir.

Definition find_executable sh (n : path) : option path :=
  if bool_decide (slash ∈ n) then let full := resolve sh n in if file_exists full then Some full else None else
  (fix go (dirs : list path) : option path :=
     match dirs with
     | [] => None
     | dir :: dirs =>
         if bool_decide (dir = []) then go dirs else
         let base := dir_of sh dir in
         let candidate := normalize_path (if bool_decide (base = [slash]) then [slash] ++ n else base ++ [slash] ++ n) in
         if file_exists candidate then Some candidate else go dirs
     end) (split_at 0x3a (search sh)).

Definition get_commands sh : list (list Z) * Shell :=
  match command_cache sh with
  | Some c => (c, sh)
  | None =>
      let external := split_at 0x3a (search sh) ≫= fun dir =>
        if bool_decide (dir = []) then [] else filter (fun f => ends_with slash f = false) (list_dir (dir_of sh dir)) in
      let cmds := sort_dedup (BUILTINS ++ external) in (cmds, sh <| command_cache := Some cmds |>)
  end.

Definition path_completion_matches sh (token : list Z) : list (list Z) :=
  let '(dir_part, leaf) := split_dir token in
  let list_path := if bool_decide (dir_part = []) then cwd sh else dir_of sh dir_part in
  sort_dedup ((fun entry => dir_part ++ entry) <$> filter (fun entry => starts_with leaf entry = true) (list_dir list_path)).

Definition matches sh (input : list Z) : list (list Z) * Shell :=
  let '(before, token) := input_token input in
  if command_position before && negb (bool_decide (slash ∈ token)) then
    let '(cmds, sh) := get_commands sh in (filter (fun c => starts_with token c = true) cmds, sh)
  else (path_completion_matches sh token, sh).

Definition handle_tab_completion (input : list Z) sh : CompletionResult * Shell :=
  let '(before, token) := input_token input in
  let '(ms, sh) := matches sh input in
  if bool_decide (ms = []) then (CNone, sh) else
  match sort_dedup ms with
  | [m] => (Replace (before ++ (if ends_with slash m then m else m ++ [0x20])), sh)
  | ms => let common := longest_common_prefix ms in
          if blen token <? blen common then (Replace (before ++ common), sh) else (Listed, sh)
  end.
End Completion.

(** ** Printing *)

(** A word in single quotes; a quote in it is closed, escaped and opened again. *)
Definition quote (w : list Z) : list Z := [0x27] ++ (w ≫= fun c => if c =? 0x27 then [0x27; 0x5c; 0x27; 0x27] else [c]) ++ [0x27].
Definition protect (w : list Z) : list Z := w ≫= fun c => if protected c then [PROTECTED; c] else [c].

Definition redir_op (k : RedirKind) : list Z := match k with In => [0x3c] | Out => [0x3e] | Append => [0x3e; 0x3e] end.
Definition print_redir (r : Redir) : list Z :=
  [0x20] ++ show (fd r) ++ redir_op (kind r) ++ match target r with Path p => quote p | Fd t => [0x26] ++ show t end.
Definition print_cmd (c : SimpleCmd) : list Z := (args c ≫= fun a => [0x20] ++ quote a) ++ (redirs c ≫= print_redir).
Fixpoint print_pipeline (l : list SimpleCmd) : list Z :=
  match l with [] => [] | [c] => print_cmd c | c :: l => print_cmd c ++ [0x7c] ++ print_pipeline l end.
Definition print_end (g : CommandGroup) : list Z :=
  if background g then [0x26] else match next g with Always => [0x3b] | And => [0x26; 0x26] | Or => [0x7c; 0x7c] end.
Definition print_group (g : CommandGroup) : list Z := print_pipeline (pipeline g) ++ print_end g.
Definition print_line (gs : list CommandGroup) : list Z := gs ≫= print_group.

(** Well-formed command lines. *)
Definition wf_redir (r : Redir) : Prop := 0 <= fd r <= 255 /\ match target r with Path _ => True | Fd t => 0 <= t <= 255 /\ kind r = Out end.
Definition wf_cmd (c : SimpleCmd) : Prop := args c <> [] /\ Forall wf_redir (redirs c).
Definition wf_group (g : CommandGroup) : Prop := pipeline g <> [] /\ Forall wf_cmd (pipeline g) /\ (background g = true -> next g = Always).
Definition wf_line (gs : list CommandGroup) : Prop := Forall wf_group gs /\ forall g, last gs = Some g -> next g = Always.

(** ** Lexing what was printed *)

Lemma push_protected_eq dst c : push_protected dst c = dst ++ (if protected c then [PROTECTED; c] else [c]).
Proof. unfold push_protected. destruct (protected c); [by rewrite <- app_assoc|done]. Qed.

Lemma lex_quoted w rest x : started x = true ->
  lex ((w ≫= fun c => if c =? 0x27 then [0x27; 0x5c; 0x27; 0x27] else [c]) ++ [0x27] ++ rest) true false x =
  lex rest false false (mkLex (out x) (cur x ++ protect w) true).
Proof.
  revert x. induction w as [|c w IH]; intros [o cu st] Hs; cbn in Hs; subst st.
  - cbn -[lex]. by rewrite app_nil_r.
  - rewrite !bind_cons, <- app_assoc. destruct (Z.eqb_spec c 0x27) as [->|Hc].
    + change (lex ([0x27; 0x5c; 0x27; 0x27] ++ ?l) true false ?x) with (lex l true false (mkLex o (push_protected cu 0x27) true)).
      rewrite IH by done. rewrite push_protected_eq. cbn -[lex]. by rewrite <- app_assoc.
    + cbn [app lex]. rewrite (proj2 (Z.eqb_neq _ _) Hc). rewrite IH by done. rewrite push_protected_eq. cbn -[lex].
      unfold protect. cbn -[lex]. by rewrite <- app_assoc.
Qed.

(** A state between two words: nothing is being read that has not started. *)
Definition settled (x : Lex) : Prop := started x = false -> cur x = [].
Definition tokens_of (x : Lex) : list Token := out (flush_word x).

Lemma flush_settled x : settled x -> flush_word x = mkLex (tokens_of x) [] false.
Proof. unfold settled, tokens_of, flush_word. destruct x as [o c []]; cbn; [done|]. intros H. by rewrite H. Qed.

Lemma lex_quote w rest x : started x = false -> cur x = [] -> lex (quote w ++ rest) false false x = lex rest false false (mkLex (out x) (protect w) true).
Proof.
  intros Hs Hc. unfold quote. rewrite <- !app_assoc.
  change (lex ([0x27] ++ ?l) false false ?x) with (lex l true false (x <| started := true |>)). rewrite lex_quoted by done.
  change (cur (x <| started := true |>)) with (cur x). by rewrite Hc.
Qed.

Lemma lex_space rest x : settled x -> lex (0x20 :: rest) false false x = lex rest false false (mkLex (tokens_of x) [] false).
Proof. intros Hx. rewrite <- flush_settled by done. done. Qed.

Lemma lex_arg w rest x : settled x -> exists x', settled x' /\ tokens_of x' = tokens_of x ++ [Word (protect w)] /\
  lex ([0x20] ++ quote w ++ rest) false false x = lex rest false false x'.
Proof.
  intros Hx. exists (mkLex (tokens_of x) (protect w) true). split; [done|]. split; [done|]. cbn [app]. rewrite lex_space by done. by rewrite lex_quote.
Qed.

(** *** Numbers *)

Lemma digits_acc fuel : forall n acc, digits fuel n acc = digits fuel n [] ++ acc.
Proof.
  induction fuel as [|fuel IH]; intros n acc; [done|]. cbn [digits]. destruct (n <? 10); [done|].
  by rewrite IH, (IH (n / 10) [_]), <- app_assoc.
Qed.

Lemma dec_app a b : dec (a ++ [b]) = dec a * 10 + (b - 0x30).
Proof. unfold dec. by rewrite foldl_app. Qed.

Lemma digits_dec fuel : forall n, 0 <= n < 10 ^ Z.of_nat fuel -> dec (digits fuel n []) = n.
Proof.
  induction fuel as [|fuel IH]; intros n Hn; [cbn in *; lia|]. cbn [digits]. destruct (Z.ltb_spec n 10) as [H|H].
  - rewrite Z.mod_small by lia. unfold dec. cbn. lia.
  - rewrite digits_acc, dec_app, IH; [mlia|]. rewrite Nat2Z.inj_succ, Z.pow_succ_r in Hn by lia. mlia.
Qed.

Lemma digits_are fuel : forall n acc, 0 <= n -> forallb is_ascii_digit acc = true -> forallb is_ascii_digit (digits fuel n acc) = true.
Proof.
  induction fuel as [|fuel IH]; intros n acc Hn Ha; [done|]. cbn [digits].
  assert (forallb is_ascii_digit ((0x30 + n mod 10) :: acc) = true) as Ha'.
  { cbn. rewrite Ha, andb_true_r. unfold is_ascii_digit. apply andb_true_iff. split; apply Z.leb_le; mlia. }
  destruct (n <? 10); [done|]. apply IH; [mlia|done].
Qed.

Lemma digits_nonempty fuel n acc : digits (S fuel) n acc <> [].
Proof. cbn [digits]. destruct (n <? 10); [done|]. rewrite digits_acc. intros E. by apply app_nil in E as [_ ?]. Qed.

Lemma show_byte n : 0 <= n <= 255 -> dec (show n) = n /\ forallb is_ascii_digit (show n) = true /\ show n <> [].
Proof.
  intros Hn. unfold show. rewrite (proj2 (Z.ltb_ge _ _)) by lia. split; [apply digits_dec; lia|]. split; [by apply digits_are; [lia|]|].
  apply digits_nonempty.
Qed.

Lemma lex_digits ds : forall rest x, forallb is_ascii_digit ds = true ->
  lex (ds ++ rest) false false x = lex rest false false (mkLex (out x) (cur x ++ ds) (started x || negb (bool_decide (ds = [])))).
Proof.
  induction ds as [|d ds IH]; intros rest [o c st] Hd; cbn [app].
  - rewrite app_nil_r, orb_false_r. done.
  - cbn in Hd. apply andb_true_iff in Hd as [H1 H2]. assert (0x30 <= d <= 0x39) as Hr by (unfold is_ascii_digit in H1; lia).
    assert (is_whitespace d = false) as Hw by (unfold is_whitespace; lia).
    cbn [lex]. rewrite Hw. rewrite !(proj2 (Z.eqb_neq _ _)) by lia. rewrite IH by done. cbn -[lex]. rewrite <- app_assoc.
    by rewrite orb_true_r.
Qed.

(** *** Redirections *)

Lemma lex_fd n rest x : settled x -> 0 <= n <= 255 ->
  lex (0x20 :: show n ++ rest) false false x = lex rest false false (mkLex (tokens_of x) (show n) true).
Proof.
  intros Hx Hn. destruct (show_byte n Hn) as (_ & Hd & Hne). rewrite lex_space by done. rewrite lex_digits by done. cbn -[lex show].
  by rewrite bool_decide_eq_false_2.
Qed.

Lemma take_fd_shown n o def : 0 <= n <= 255 -> take_fd_prefix (mkLex o (show n) true) def = Ok (n, mkLex o [] false).
Proof.
  intros Hn. destruct (show_byte n Hn) as (Hv & Hd & Hne). unfold take_fd_prefix. cbn -[show].
  rewrite bool_decide_eq_false_2, Hd by done. cbn -[show]. unfold parse_u8. rewrite Hv, (proj2 (Z.leb_le _ _)) by lia. done.
Qed.

Definition no_digit (l : list Z) : Prop := match l with c :: _ => is_ascii_digit c = false | [] => True end.

Lemma lex_dup v t rest x o : take_fd_prefix x 1 = Ok (v, mkLex o [] false) -> 0 <= t <= 255 -> no_digit rest ->
  lex (0x3e :: 0x26 :: show t ++ rest) false false x = lex rest false false (mkLex (o ++ [Dup v t]) [] false).
Proof.
  intros Hx Ht Hr. destruct (show_byte t Ht) as (Hv & Hd & Hne). cbn [lex]. rewrite Hx. cbn beta iota.
  change (is_whitespace 62) with false. cbn -[lex show no_digit app dec]. 
  set (f := fix dup (digits rest : list Z) {struct rest} : parsed (list Token) := _).
  assert (forall ds ds0, forallb is_ascii_digit ds = true -> f ds0 (ds ++ rest) = f (ds0 ++ ds) rest) as Hf.
  { induction ds as [|d ds IH]; intros ds0 H; [by rewrite app_nil_r|]. cbn in H. apply andb_true_iff in H as [H1 H2].
    cbn [app]. cbn [f]. rewrite H1, IH, <- app_assoc by done. done. }
  rewrite Hf by done. cbn [app]. destruct rest as [|c rest]; cbn in Hr; cbn [f]; [|rewrite Hr];
    rewrite bool_decide_eq_false_2 by done; unfold parse_u8; rewrite Hv, (proj2 (Z.leb_le _ _)) by lia; done.
Qed.

Definition redir_tokens (r : Redir) : list Token :=
  match target r with Path p => [TRedir (fd r) (kind r); Word (protect p)] | Fd t => [Dup (fd r) t] end.
Definition cmd_tokens (c : SimpleCmd) : list Token := (Word ∘ protect <$> args c) ++ (redirs c ≫= redir_tokens).
Fixpoint pipeline_tokens (l : list SimpleCmd) : list Token :=
  match l with [] => [] | [c] => cmd_tokens c | c :: l => cmd_tokens c ++ [TPipe] ++ pipeline_tokens l end.
Definition end_token (g : CommandGroup) : Token :=
  if background g then TBackground else match next g with Always => Semi | And => AndIf | Or => OrIf end.
Definition group_tokens (g : CommandGroup) : list Token := pipeline_tokens (pipeline g) ++ [end_token g].

(** Reading [l] adds [ts] to the tokens, whatever follows that satisfies [P]. *)
Definition reads (P : list Z -> Prop) (l : list Z) (ts : list Token) : Prop := forall rest x, settled x -> P rest ->
  exists x', settled x' /\ tokens_of x' = tokens_of x ++ ts /\ lex (l ++ rest) false false x = lex rest false false x'.

Lemma reads_app (P Q : list Z -> Prop) l1 l2 ts1 ts2 : reads P l1 ts1 -> reads Q l2 ts2 -> (forall rest, Q rest -> P (l2 ++ rest)) ->
  reads Q (l1 ++ l2) (ts1 ++ ts2).
Proof.
  intros H1 H2 HP rest x Hx Hr. rewrite <- app_assoc. destruct (H1 (l2 ++ rest) x Hx (HP _ Hr)) as (x1 & Hx1 & Ht1 & ->).
  destruct (H2 rest x1 Hx1 Hr) as (x2 & Hx2 & Ht2 & ->). exists x2. split; [done|]. split; [|done]. by rewrite Ht2, Ht1, app_assoc.
Qed.

Lemma reads_nil P : reads P [] [].
Proof. intros rest x Hx _. exists x. by rewrite app_nil_r. Qed.

Lemma reads_path v k p : 0 <= v <= 255 -> reads (fun _ => True) ([0x20] ++ show v ++ redir_op k ++ quote p) [TRedir v k; Word (protect p)].
Proof.
  intros Hv rest x Hx _. rewrite <- !app_assoc. cbn [app]. rewrite lex_fd by done.
  exists (mkLex (tokens_of x ++ [TRedir v k]) (protect p) true). split; [done|].
  split; [by unfold tokens_of at 1; cbn; rewrite <- app_assoc|].
  transitivity (lex (quote p ++ rest) false false (mkLex (tokens_of x ++ [TRedir v k]) [] false)); [|by rewrite lex_quote].
  destruct k; unfold quote; cbn [redir_op app]; cbn [lex]; rewrite !take_fd_shown by done; done.
Qed.

Lemma reads_redir r : wf_redir r -> reads no_digit (print_redir r) (redir_tokens r).
Proof.
  intros [Hf Ht]. unfold print_redir, redir_tokens. destruct (target r) as [p|t].
  - intros rest x Hx _. by apply reads_path.
  - destruct Ht as [Ht Hk]. rewrite Hk. intros rest x Hx Hr. rewrite <- !app_assoc. cbn [app redir_op]. rewrite lex_fd by done.
    exists (mkLex (tokens_of x ++ [Dup (fd r) t]) [] false). split; [done|]. split; [done|].
    by rewrite (lex_dup (fd r) t rest _ (tokens_of x)) by (done || by apply take_fd_shown).
Qed.

Lemma reads_args l : reads (fun _ => True) (l ≫= fun a => [0x20] ++ quote a) (Word ∘ protect <$> l).
Proof.
  induction l as [|a l IH]; [apply reads_nil|]. rewrite bind_cons. change (?f <$> a :: l) with ([f a] ++ (f <$> l)).
  apply (reads_app (fun _ => True)); [|done|done]. intros rest x Hx _. rewrite <- app_assoc. by apply lex_arg.
Qed.

Lemma reads_redirs l : Forall wf_redir l -> reads no_digit (l ≫= print_redir) (l ≫= redir_tokens).
Proof.
  induction 1 as [|r l Hr Hl IH]; [apply reads_nil|]. rewrite !bind_cons. apply (reads_app no_digit); [by apply reads_redir|done|].
  intros rest Hrest. by destruct l.
Qed.

Lemma reads_cmd c : wf_cmd c -> reads no_digit (print_cmd c) (cmd_tokens c).
Proof. intros [_ Hr]. apply (reads_app (fun _ => True)); [apply reads_args|by apply reads_redirs|done]. Qed.

(** An operator is followed by a space or by nothing. *)
Definition spaced (l : list Z) : Prop := match l with c :: _ => c = 0x20 | [] => True end.

Lemma cmd_spaced c rest : wf_cmd c -> spaced (print_cmd c ++ rest).
Proof. intros [Ha _]. unfold print_cmd. by destruct (args c). Qed.

Lemma reads_op op t : (op = [0x7c] /\ t = TPipe) \/ (op = [0x26] /\ t = TBackground) \/ (op = [0x3b] /\ t = Semi) \/
  (op = [0x26; 0x26] /\ t = AndIf) \/ (op = [0x7c; 0x7c] /\ t = OrIf) -> reads spaced op [t].
Proof.
  intros H rest x Hx Hr. exists (mkLex (tokens_of x ++ [t]) [] false). split; [done|]. split; [done|].
  assert (mkLex (tokens_of x ++ [t]) [] false = push_token t (flush_word x)) as -> by (by rewrite flush_settled).
  destruct rest as [|c rest]; [|cbn in Hr; subst c]; by destruct H as [[-> ->]|[[-> ->]|[[-> ->]|[[-> ->]|[-> ->]]]]].
Qed.

Lemma reads_pipeline l : Forall wf_cmd l -> reads no_digit (print_pipeline l) (pipeline_tokens l).
Proof.
  induction 1 as [|c l Hc Hl IH]; [apply reads_nil|]. destruct l as [|c' l]; [by apply reads_cmd|].
  change (print_pipeline (c :: c' :: l)) with (print_cmd c ++ [0x7c] ++ print_pipeline (c' :: l)).
  change (pipeline_tokens (c :: c' :: l)) with (cmd_tokens c ++ [TPipe] ++ pipeline_tokens (c' :: l)).
  apply (reads_app no_digit); [by apply reads_cmd| |done]. apply (reads_app spaced); [apply reads_op; auto|done|].
  intros rest _. apply Forall_cons in Hl as [Hc' _]. cbn [print_pipeline]. destruct l; [by apply cmd_spaced|].
  rewrite <- app_assoc. by apply cmd_spaced.
Qed.

Lemma reads_group g : wf_group g -> reads spaced (print_group g) (group_tokens g).
Proof.
  intros (Hn & Hp & Hb). apply (reads_app no_digit); [by apply reads_pipeline| |].
  - unfold print_end, end_token. apply reads_op. destruct (background g); [by auto|]. destruct (next g); naive_solver.
  - intros rest _. unfold print_end. destruct (background g); [done|]. by destruct (next g).
Qed.

Lemma group_spaced g rest : wf_group g -> spaced (print_group g ++ rest).
Proof.
  intros (Hn & Hp & _). unfold print_group. destruct (pipeline g) as [|c l]; [done|]. apply Forall_cons in Hp as [Hc _].
  destruct l; cbn [print_pipeline]; rewrite <- !app_assoc; by apply cmd_spaced.
Qed.

Lemma reads_line gs : Forall wf_group gs -> reads spaced (print_line gs) (gs ≫= group_tokens).
Proof.
  induction 1 as [|g gs Hg Hgs IH]; [apply reads_nil|]. unfold print_line. rewrite !bind_cons. apply (reads_app spaced); [by apply reads_group|done|].
  intros rest Hr. destruct gs as [|g' gs]; [done|]. apply Forall_cons in Hgs as [Hg' _]. rewrite bind_cons, <- app_assoc. by apply group_spaced.
Qed.

Lemma tokenize_printed gs : Forall wf_group gs -> tokenize (print_line gs) = Ok (gs ≫= group_tokens).
Proof.
  intros H. destruct (reads_line gs H [] (mkLex [] [] false)) as (x & Hx & Ht & Hl); [done|done|]. rewrite app_nil_r in Hl.
  unfold tokenize. rewrite Hl. cbn [lex]. f_equal. exact Ht.
Qed.

(** ** Parsing what was printed *)

Definition protect_redir (r : Redir) : Redir := mkRedir (fd r) (kind r) (match target r with Path p => Path (protect p) | Fd t => Fd t end).
Definition protect_cmd (c : SimpleCmd) : SimpleCmd := mkCmd (protect <$> args c) (protect_redir <$> redirs c).
Definition protect_group (g : CommandGroup) : CommandGroup := mkGroup (protect_cmd <$> pipeline g) (background g) (next g).

Lemma parse_words ws : forall rest b, parse_tokens ((Word ∘ protect <$> ws) ++ rest) b =
  parse_tokens rest (mkBuild (mkCmd (args (cmd b) ++ (protect <$> ws)) (redirs (cmd b))) (bpipeline b) (groups b)).
Proof.
  induction ws as [|w ws IH]; intros rest [[a r] p g]; [cbn; by rewrite app_nil_r|].
  change ((Word ∘ protect <$> w :: ws) ++ rest) with (Word (protect w) :: ((Word ∘ protect <$> ws) ++ rest)).
  cbn [parse_tokens]. rewrite IH. cbn. by rewrite <- app_assoc.
Qed.

Lemma parse_redirs rs : Forall wf_redir rs -> forall rest b, parse_tokens ((rs ≫= redir_tokens) ++ rest) b =
  parse_tokens rest (mkBuild (mkCmd (args (cmd b)) (redirs (cmd b) ++ (protect_redir <$> rs))) (bpipeline b) (groups b)).
Proof.
  induction 1 as [|r rs [Hf Ht] Hrs IH]; intros rest [[a l] p g]; [cbn; by rewrite app_nil_r|].
  rewrite bind_cons, <- app_assoc. unfold redir_tokens at 1. rewrite fmap_cons. unfold protect_redir at 1. destruct (target r).
  - cbn [app parse_tokens]. rewrite IH. cbn. by rewrite <- app_assoc.
  - destruct Ht as [_ ->]. cbn [app parse_tokens]. rewrite IH. cbn. by rewrite <- app_assoc.
Qed.

Lemma parse_cmd c rest p g : wf_cmd c -> parse_tokens (cmd_tokens c ++ rest) (mkBuild no_cmd p g) = parse_tokens rest (mkBuild (protect_cmd c) p g).
Proof. intros [_ Hr]. unfold cmd_tokens. rewrite <- app_assoc, parse_words, parse_redirs by done. done. Qed.

Lemma finish_cmd_ok c p g : args c <> [] -> finish_cmd (mkBuild c p g) = Ok (mkBuild no_cmd (p ++ [c]) g).
Proof. intros Ha. unfold finish_cmd. cbn. by rewrite bool_decide_eq_false_2. Qed.

Lemma finish_group_ok c p g bg nx : args c <> [] -> finish_group (mkBuild c p g) bg nx = Ok (mkBuild no_cmd [] (g ++ [mkGroup (p ++ [c]) bg nx])).
Proof. intros Ha. unfold finish_group. by rewrite finish_cmd_ok. Qed.

Lemma protect_args c : wf_cmd c -> args (protect_cmd c) <> [].
Proof. intros [Ha _] E. by apply fmap_nil_inv in E. Qed.

Lemma parse_pipeline l : Forall wf_cmd l -> l <> [] -> forall rest p g bg nx, (bg = true -> nx = Always) ->
  parse_tokens (pipeline_tokens l ++ end_token (mkGroup l bg nx) :: rest) (mkBuild no_cmd p g) =
  parse_tokens rest (mkBuild no_cmd [] (g ++ [mkGroup (p ++ (protect_cmd <$> l)) bg nx])).
Proof.
  induction 1 as [|c l Hc Hl IH]; intros Hn rest p g bg nx Hb; [done|]. pose proof (protect_args c Hc) as Ha. destruct l as [|c' l].
  - cbn [pipeline_tokens]. rewrite parse_cmd by done. change (protect_cmd <$> [c]) with [protect_cmd c].
    unfold end_token. cbn [background next]. destruct bg; [rewrite Hb by done|destruct nx]; cbn [parse_tokens]; by rewrite finish_group_ok.
  - change (pipeline_tokens (c :: c' :: l)) with (cmd_tokens c ++ [TPipe] ++ pipeline_tokens (c' :: l)).
    rewrite <- !app_assoc, parse_cmd by done. cbn [app parse_tokens]. rewrite finish_cmd_ok by done. change (Ok ?b ≫= ?f) with (f b).
    cbn beta. rewrite (IH ltac:(done) rest _ _ bg nx Hb), <- app_assoc. done.
Qed.

Lemma parse_groups gs : Forall wf_group gs -> forall g0, parse_tokens (gs ≫= group_tokens) (mkBuild no_cmd [] g0) =
  Ok (mkBuild no_cmd [] (g0 ++ (protect_group <$> gs))).
Proof.
  induction 1 as [|g gs (Hn & Hp & Hb) Hgs IH]; intros g0; [cbn; by rewrite app_nil_r|]. rewrite bind_cons. unfold group_tokens at 1.
  destruct g as [l bg nx]. cbn [pipeline background next] in *. rewrite <- app_assoc. cbn [app]. rewrite parse_pipeline by done.
  rewrite IH, <- app_assoc. done.
Qed.

Lemma last_group_token gs : last (gs ≫= group_tokens) = end_token <$> last gs.
Proof.
  destruct gs as [|g gs _] using rev_ind; [done|]. rewrite bind_app, last_snoc. cbn. rewrite app_nil_r. unfold group_tokens.
  by rewrite app_assoc, last_snoc.
Qed.

Lemma parse_printed gs : wf_line gs -> parse_line (print_line gs) = Ok (protect_group <$> gs).
Proof.
  intros [Hgs Hlast]. unfold parse_line. rewrite tokenize_printed by done. change (Ok ?b ≫= ?f) with (f b). cbn beta.
  rewrite last_group_token. assert (needs_command (end_token <$> last gs) = false) as Hnc.
  { destruct (last gs) as [g|]; [|done]. cbn. unfold end_token. rewrite (Hlast g eq_refl). by destruct (background g). }
  rewrite Hnc. case_bool_decide as Ht.
  - destruct gs as [|g gs]; [done|]. rewrite bind_cons in Ht. apply app_nil in Ht as [Ht _]. by apply app_nil in Ht as [_ ?].
  - rewrite parse_groups by done. done.
Qed.

Lemma expand_protect sh w : expand_chars sh (protect w) = w.
Proof.
  induction w as [|c w IH]; [done|]. unfold protect. rewrite bind_cons. fold (protect w). destruct (protected c) eqn:Hc.
  - cbn. by rewrite IH.
  - cbn [app expand_chars]. unfold protected in Hc. apply orb_false_iff in Hc as [Hc H3]. apply orb_false_iff in Hc as [H1 H2].
    by rewrite H3, H1, IH.
Qed.

Lemma expand_word_protect sh w : expand_word sh (protect w) = w.
Proof.
  rewrite <- (expand_protect sh w) at 2. unfold expand_word. destruct w as [|c w]; [done|]. unfold protect. rewrite bind_cons. fold (protect w).
  destruct (protected c) eqn:Hc; [done|]. cbn [app]. unfold protected in Hc. destruct (Z.eqb_spec c 0x7e) as [->|Hn]; [done|]. by repeat case_match.
Qed.

Definition expand_group sh (g : CommandGroup) : CommandGroup := mkGroup (expand_cmd sh <$> pipeline g) (background g) (next g).

Lemma fmap_back {A B} (f : A -> B) (g : B -> A) (l : list A) : (forall x, g (f x) = x) -> g <$> (f <$> l) = l.
Proof. intros H. rewrite <- list_fmap_compose. induction l as [|x l IH]; [done|]. rewrite fmap_cons, IH. unfold compose. by rewrite H. Qed.

Lemma expand_redir_protect sh r : expand_redir sh (protect_redir r) = r.
Proof. destruct r as [f k []]; [|done]. unfold expand_redir, protect_redir. cbn. by rewrite expand_word_protect. Qed.

Lemma expand_cmd_protect sh c : expand_cmd sh (protect_cmd c) = c.
Proof.
  destruct c as [a r]. unfold expand_cmd, protect_cmd. cbn [args redirs].
  f_equal; apply fmap_back; intros; [apply expand_word_protect|apply expand_redir_protect].
Qed.

Lemma expand_group_protect sh g : expand_group sh (protect_group g) = g.
Proof. destruct g as [l b n]. unfold expand_group, protect_group. cbn. f_equal. apply fmap_back. intros. apply expand_cmd_protect. Qed.

(** C34. Any command line, with arbitrary strings as arguments and as paths of
    redirections, that is printed with its words in single quotes is parsed,
    and expanding its words gives back exactly the commands, whatever the
    shell's variables are. *)
Theorem command_roundtrip sh gs : wf_line gs -> exists gs', parse_line (print_line gs) = Ok gs' /\ expand_group sh <$> gs' = gs.
Proof.
  intros H. exists (protect_group <$> gs). split; [by apply parse_printed|]. apply fmap_back. intros. apply expand_group_protect.
Qed.

(** ** What the parser returns *)

Definition wf_token (t : Token) : Prop :=
  match t with TRedir f _ => 0 <= f <= 255 | Dup f t => 0 <= f <= 255 /\ 0 <= t <= 255 | _ => True end.

Lemma dec_nonneg l : forallb is_ascii_digit l = true -> 0 <= dec l.
Proof.
  induction l as [|c l IH] using rev_ind; [done|]. rewrite forallb_app, dec_app. intros [H1 H2]%andb_true_iff. specialize (IH H1).
  cbn in H2. unfold is_ascii_digit in H2. lia.
Qed.

Lemma take_fd_wf x d v x' : take_fd_prefix x d = Ok (v, x') -> 0 <= d <= 255 -> Forall wf_token (out x) -> 0 <= v <= 255 /\ Forall wf_token (out x').
Proof.
  unfold take_fd_prefix. destruct (started x && _ && forallb is_ascii_digit (cur x)) eqn:E; intros H Hd Hx.
  - apply andb_true_iff in E as [_ E]. pose proof (dec_nonneg _ E). unfold parse_u8 in H. destruct (Z.leb_spec (dec (cur x)) 255); [|done].
    by injection H as <- <-.
  - injection H as <- <-. split; [done|]. unfold flush_word. destruct (started x); [|done]. cbn. apply Forall_app. by split; [|constructor].
Qed.

Lemma flush_wf x : Forall wf_token (out x) -> Forall wf_token (out (flush_word x)).
Proof. intros H. unfold flush_word. destruct (started x); [|done]. cbn. apply Forall_app. by split; [|constructor]. Qed.

Lemma push_wf t x : wf_token t -> Forall wf_token (out x) -> Forall wf_token (out (push_token t x)).
Proof. intros Ht Hx. cbn. apply Forall_app. by split; [|constructor]. Qed.

Lemma lex_wf n : forall line single double x ts, (length line < n)%nat -> Forall wf_token (out x) -> lex line single double x = Ok ts -> Forall wf_token ts.
Proof.
  induction n as [|n IH]; intros line single double x ts Hn Hx Hl; [lia|]. destruct line as [|ch rest]; cbn [lex] in Hl.
  { destruct single; [done|]. destruct double; [done|]. injection Hl as <-. by apply flush_wf. }
  cbn in Hn. assert (forall l s d y, lex l s d y = Ok ts -> (length l <= length rest)%nat -> Forall wf_token (out y) -> Forall wf_token ts) as Hgo.
  { intros l s d y H1 H2 H3. apply (IH l s d y); [lia|done|done]. }
  clear IH Hn. assert (forall t, wf_token t -> Forall wf_token (out (push_token t (flush_word x)))) as Hpush by (intros; by apply push_wf, flush_wf).
  destruct single; [repeat case_match; by (eapply Hgo; [exact Hl|cbn; lia|])|].
  destruct double; [repeat case_match; first [done|by (eapply Hgo; [exact Hl|cbn; lia|])]|].
  destruct (ch =? 0x27); [by (eapply Hgo; [exact Hl|cbn; lia|])|]. destruct (ch =? 0x22); [by (eapply Hgo; [exact Hl|cbn; lia|])|].
  destruct (ch =? 0x5c); [repeat case_match; first [done|by (eapply Hgo; [exact Hl|cbn; lia|])]|].
  destruct (is_whitespace ch); [eapply Hgo; [exact Hl|cbn; lia|by apply flush_wf]|].
  destruct (ch =? 0x3b); [eapply Hgo; [exact Hl|cbn; lia|by apply Hpush]|].
  destruct (ch =? 0x7c); [repeat case_match; (eapply Hgo; [exact Hl|subst; cbn; lia|by apply Hpush])|].
  destruct (ch =? 0x26); [repeat case_match; (eapply Hgo; [exact Hl|subst; cbn; lia|by apply Hpush])|].
  destruct (ch =? 0x3c).
  { destruct (take_fd_prefix x 0) as [[v x']|] eqn:Hf; [|done]. destruct (take_fd_wf _ _ _ _ Hf ltac:(lia) Hx). 
    eapply Hgo; [exact Hl|lia|by apply push_wf]. }
  destruct (ch =? 0x3e); [|by (eapply Hgo; [exact Hl|cbn; lia|])].
  destruct (take_fd_prefix x 1) as [[v x']|] eqn:Hf; [|done]. destruct (take_fd_wf _ _ _ _ Hf ltac:(lia) Hx) as [Hv Hx'].
  destruct (Z.eqb_spec (default 0 (head rest)) 0x26) as [H26|H26].
  - destruct rest as [|c rest]; [done|]. cbn in H26. subst c. revert Hl. set (f := fix dup (digits rest : list Z) {struct rest} : parsed (list Token) := _).
    assert (forall l ds, forallb is_ascii_digit ds = true -> (length l <= length rest)%nat -> f ds l = Ok ts -> Forall wf_token ts) as Hdup; [|by apply Hdup].
    assert (forall l ds, forallb is_ascii_digit ds = true -> (length l <= length rest)%nat ->
      (if bool_decide (ds = []) then Err ExpectedFd else match parse_u8 ds BadTargetFd with Err e => Err e | Ok t => lex l false false (push_token (Dup v t) x') end) = Ok ts ->
      Forall wf_token ts) as Hend.
    { intros l ds Hds Hle H. case_bool_decide; [done|]. pose proof (dec_nonneg _ Hds). unfold parse_u8 in H. destruct (Z.leb_spec (dec ds) 255); [|done].
      eapply Hgo; [exact H|cbn; lia|]. apply push_wf; [cbn; lia|done]. }
    induction l as [|c l IHl]; intros ds Hds Hle H; cbn [f] in H; [by apply (Hend [] ds)|].
    destruct (is_ascii_digit c) eqn:Hc; [|by apply (Hend (c :: l) ds)]. apply (IHl (ds ++ [c])); [|cbn in Hle; lia|done].
    rewrite forallb_app, Hds. cbn. by rewrite Hc.
  - repeat case_match; subst; first [done|eapply Hgo; [exact Hl|cbn; lia|by apply push_wf]].
Qed.

Definition wf_build (b : Build) : Prop := Forall wf_redir (redirs (cmd b)) /\ Forall wf_cmd (bpipeline b) /\ Forall wf_group (groups b).

Lemma finish_cmd_wf b b' : finish_cmd b = Ok b' -> wf_build b -> wf_build b' /\ bpipeline b' <> [] /\ cmd b' = no_cmd /\ groups b' = groups b.
Proof.
  unfold finish_cmd. intros H (Hr & Hp & Hg). case_bool_decide as Ha; [by case_bool_decide|]. cbn in H. injection H as <-.
  split; [|split; [by intros [_ ?]%app_nil|done]]. split; [constructor|]. split; [|done]. apply Forall_app. split; [done|]. by repeat constructor.
Qed.

Lemma finish_group_wf b bg nx b' : finish_group b bg nx = Ok b' -> wf_build b -> (bg = true -> nx = Always) ->
  wf_build b' /\ bpipeline b' = [] /\ cmd b' = no_cmd /\ exists g, last (groups b') = Some g /\ next g = nx.
Proof.
  unfold finish_group. intros H Hb Hbg. destruct (finish_cmd b) as [b1|] eqn:Hf; [|done]. injection H as <-.
  destruct (finish_cmd_wf _ _ Hf Hb) as ((Hr & Hp & Hg) & Hn & Hc & _). split; [|split; [done|split; [done|]]].
  - split; [done|]. split; [constructor|]. apply Forall_app. split; [done|]. by repeat constructor.
  - cbn. rewrite last_snoc. by eexists.
Qed.

Lemma push_redir_wf r b : wf_redir r -> wf_build b -> wf_build (push_redir r b).
Proof. intros Hr (H1 & H2 & H3). split; [|done]. cbn. apply Forall_app. by split; [|constructor]. Qed.

Definition between (b : Build) : Prop := args (cmd b) = [] /\ redirs (cmd b) = [] /\ bpipeline b = [].

Lemma parse_tokens_wf n : forall ts b b', (length ts <= n)%nat -> Forall wf_token ts -> wf_build b -> parse_tokens ts b = Ok b' ->
  wf_build b' /\ (ts <> [] -> between b' -> exists g, last (groups b') = Some g /\ (next g = Always \/ needs_command (last ts) = true)).
Proof.
  induction n as [|n IH]; intros ts b b' Hn Hts Hb H; [destruct ts; [by injection H as <-|cbn in Hn; lia]|].
  destruct ts as [|t ts]; [by injection H as <-|]. apply Forall_cons in Hts as [Ht Hts]. cbn in Hn.
  assert (forall b1, wf_build b1 -> parse_tokens ts b1 = Ok b' ->
    (ts = [] -> between b1 -> exists g, last (groups b1) = Some g /\ (next g = Always \/ needs_command (Some t) = true)) ->
    wf_build b' /\ (between b' -> exists g, last (groups b') = Some g /\ (next g = Always \/ needs_command (last (t :: ts)) = true))) as Hgo.
  { intros b1 Hb1 H1 Hl. destruct (IH ts b1 b' ltac:(lia) Hts Hb1 H1) as [Hw Hg]. split; [done|]. intros Hbt.
    destruct ts as [|t' ts]; [injection H1 as ->; by apply Hl|]. rewrite last_cons_cons. by apply Hg. }
  assert (forall bg nx b1, finish_group b bg nx = Ok b1 -> (bg = true -> nx = Always) -> (nx = Always \/ needs_command (Some t) = true) ->
    parse_tokens ts b1 = Ok b' -> wf_build b' /\ (between b' -> exists g, last (groups b') = Some g /\ (next g = Always \/ needs_command (last (t :: ts)) = true))) as Hgroup.
  { intros bg nx b1 Hf Hbg Hnx Hp. destruct (finish_group_wf b bg nx b1 Hf Hb Hbg) as (Hw & _ & _ & g & Hg & <-). apply (Hgo b1); [done|done|]. eauto. }
  cut (wf_build b' /\ (between b' -> exists g, last (groups b') = Some g /\ (next g = Always \/ needs_command (last (t :: ts)) = true))); [naive_solver|].
  destruct t as [w| | | | | |f k|f t']; cbn [parse_tokens] in H.
  - apply (Hgo (push_arg w b)); [done|done|]. intros _ (Ha & _). cbn in Ha. by apply app_nil in Ha as [_ ?].
  - destruct (finish_cmd b) as [b1|] eqn:Hf; [|done]. destruct (finish_cmd_wf b b1 Hf Hb) as (Hw & Hnp & _). apply (Hgo b1); [done|done|]. by intros _ (_ & _ & ?).
  - destruct (finish_group b false Always) as [b1|] eqn:Hf; [|done]. by apply (Hgroup false Always b1); auto.
  - destruct (finish_group b false And) as [b1|] eqn:Hf; [|done]. by apply (Hgroup false And b1); auto.
  - destruct (finish_group b false Or) as [b1|] eqn:Hf; [|done]. by apply (Hgroup false Or b1); auto.
  - destruct (finish_group b true Always) as [b1|] eqn:Hf; [|done]. by apply (Hgroup true Always b1); auto.
  - destruct ts as [|[] ts]; try done. apply Forall_cons in Hts as [_ Hts]. cbn in Hn.
    destruct (IH ts (push_redir (mkRedir f k (Path w)) b) b' ltac:(lia) Hts) as [Hw Hg]; [by apply push_redir_wf|done|]. split; [done|]. intros Hbt.
    destruct ts as [|t' ts]; [|rewrite !last_cons_cons; by apply Hg]. cbn in H. injection H as <-. destruct Hbt as (_ & Hr & _). cbn in Hr. by apply app_nil in Hr as [_ ?].
  - apply (Hgo (push_redir (mkRedir f Out (Fd t')) b)); [apply push_redir_wf; [|done]; cbn in Ht; split; [by apply Ht|by split; [apply Ht|]]|done|].
    intros _ (_ & Hr & _). cbn in Hr. by apply app_nil in Hr as [_ ?].
Qed.

(** Whatever line is typed, what the parser returns is well formed: every
    pipeline has commands and every command has a name, descriptors are bytes,
    only output descriptors are duplicated, a background group is followed
    unconditionally, and no [&&], [||] or [|] is left without a command. *)
Lemma parsed_wf line gs : parse_line line = Ok gs -> wf_line gs.
Proof.
  unfold parse_line. destruct (tokenize line) as [ts|] eqn:Ht; [|done]. change (Ok ?b ≫= ?f) with (f b). cbn beta.
  assert (Forall wf_token ts) as Hts by (apply (lex_wf (S (length line)) line false false (mkLex [] [] false)); [lia|constructor|exact Ht]). case_bool_decide as Hn; [intros [= <-]; by split|].
  destruct (parse_tokens ts (mkBuild no_cmd [] [])) as [b|] eqn:Hp; [|done]. change (Ok ?b ≫= ?f) with (f b). cbn beta.
  destruct (parse_tokens_wf (length ts) ts (mkBuild no_cmd [] []) b ltac:(lia) Hts (conj (Forall_nil_2 _) (conj (Forall_nil_2 _) (Forall_nil_2 _))) Hp) as [Hb Hl].
  destruct (negb _ || negb _ || negb _) eqn:Hpend.
  - destruct (finish_group b false Always) as [b1|] eqn:Hf; [|done]. change (Ok ?b ≫= ?f) with (f b). cbn beta. destruct (needs_command (last ts)); [done|].
    intros [= <-]. destruct (finish_group_wf b false Always b1 Hf Hb ltac:(done)) as ((_ & _ & Hg) & _ & _ & g & Hlast & Hnx). split; [done|]. intros g' Hg'. congruence.
  - destruct (needs_command (last ts)) eqn:Hnc; [done|]. intros [= <-]. split; [apply Hb|]. intros g Hg.
    destruct Hl as (g' & Hg' & Hc); [done| |]; [|destruct Hc; [congruence|done]].
    apply orb_false_iff in Hpend as [Hpend H3]. apply orb_false_iff in Hpend as [H1 H2].
    by rewrite negb_false_iff in H1, H2, H3; apply bool_decide_eq_true in H1, H2, H3.
Qed.

(** ** Expansion *)

(** The pieces of a word: quoted text, a variable as [$n] or as [${n}], and
    the status of the last command. *)
Inductive piece : Type := Quoted (w : list Z) | Var (n : list Z) | Braced (n : list Z) | Status.

Definition render (p : piece) : list Z :=
  match p with Quoted w => protect w | Var n => [0x24] ++ n | Braced n => [0x24; 0x7b] ++ n ++ [0x7d] | Status => [0x24; 0x3f] end.
Definition piece_value sh (p : piece) : list Z :=
  match p with Quoted w => w | Var n | Braced n => default [] (get_var sh n) | Status => show (last_status sh) end.

Definition no_name (l : list Z) : Prop := match l with c :: _ => name_char c = false | [] => True end.
Fixpoint wf_pieces (ps : list piece) : Prop :=
  match ps with
  | [] => True
  | p :: ps =>
      match p with
      | Var n => n <> [] /\ forallb name_char n = true /\ no_name (ps ≫= render)
      | Braced n => n <> [] /\ 0x7d ∉ n
      | _ => True
      end /\ wf_pieces ps
  end.

Lemma expand_quoted sh w rest : expand_chars sh (protect w ++ rest) = w ++ expand_chars sh rest.
Proof.
  induction w as [|c w IH]; [done|]. unfold protect. rewrite bind_cons. fold (protect w). rewrite <- app_assoc. destruct (protected c) eqn:Hc.
  - cbn. by rewrite IH.
  - cbn [app expand_chars]. unfold protected in Hc. apply orb_false_iff in Hc as [Hc H3]. apply orb_false_iff in Hc as [H1 H2].
    by rewrite H3, H1, IH.
Qed.

Lemma name_char_range c : name_char c = true -> 0x30 <= c <= 0x7a /\ c <> 0x3f.
Proof. unfold name_char, is_ascii_alphanumeric, is_ascii_alphabetic, is_ascii_digit. lia. Qed.

Lemma expand_var sh n rest : n <> [] -> forallb name_char n = true -> no_name rest ->
  expand_chars sh ([0x24] ++ n ++ rest) = default [] (get_var sh n) ++ expand_chars sh rest.
Proof.
  intros Hn Hc Hr. destruct n as [|d n]; [done|]. pose proof Hc as Hc'. cbn in Hc'. apply andb_true_iff in Hc' as [Hdn Hns]. pose proof (name_char_range _ Hdn) as Hd.
  cbn [app expand_chars]. change (36 =? PROTECTED) with false. change (negb (36 =? 36)) with false. cbn beta iota.
  rewrite !(proj2 (Z.eqb_neq d _)) by lia. set (f := fix plain (n l : list Z) {struct l} : list Z := _).
  assert (forall ds ds0, forallb name_char ds = true -> f ds0 (ds ++ rest) = f (ds0 ++ ds) rest) as Hf.
  { induction ds as [|e ds IH]; intros ds0 H; [by rewrite app_nil_r|]. cbn in H. apply andb_true_iff in H as [H1 H2].
    cbn [app]. cbn [f]. rewrite H1, IH, <- app_assoc by done. done. }
  transitivity (f [d] (n ++ rest)); [by rewrite Hdn|]. rewrite Hf by done. cbn [app]. destruct rest as [|c rest]; cbn in Hr; cbn [f]; [by rewrite app_nil_r|by rewrite Hr].
Qed.

Lemma expand_braced sh n rest : n <> [] -> 0x7d ∉ n ->
  expand_chars sh ([0x24; 0x7b] ++ n ++ [0x7d] ++ rest) = default [] (get_var sh n) ++ expand_chars sh rest.
Proof.
  intros Hn Hc. cbn [app expand_chars]. change (36 =? PROTECTED) with false. change (negb (36 =? 36)) with false.
  change (123 =? 63) with false. change (123 =? 123) with true. cbn beta iota.
  set (f := fix braced (n l : list Z) {struct l} : list Z := _).
  assert (forall ds ds0, 0x7d ∉ ds -> f ds0 (ds ++ 0x7d :: rest) = f (ds0 ++ ds) (0x7d :: rest)) as Hf.
  { induction ds as [|e ds IH]; intros ds0 H; [by rewrite app_nil_r|]. apply not_elem_of_cons in H as [H1 H2].
    cbn [app]. cbn [f]. rewrite (proj2 (Z.eqb_neq e _)), IH, <- app_assoc by done. done. }
  rewrite Hf by done. cbn [app f]. change (125 =? 125) with true. cbn beta iota. unfold var_value. by rewrite bool_decide_eq_false_2.
Qed.

Lemma expand_pieces sh ps : wf_pieces ps -> expand_chars sh (ps ≫= render) = ps ≫= piece_value sh.
Proof.
  induction ps as [|p ps IH]; [done|]. intros [Hp Hps]. specialize (IH Hps). rewrite !bind_cons. destruct p as [w|n|n|]; cbn [render piece_value].
  - by rewrite expand_quoted, IH.
  - destruct Hp as (Hn & Hc & Hr). by rewrite <- app_assoc, expand_var, IH.
  - destruct Hp as [Hn Hc]. by rewrite <- !app_assoc, expand_braced, IH.
  - change (expand_chars sh ([0x24; 0x3f] ++ ?l)) with (show (last_status sh) ++ expand_chars sh l). by rewrite IH.
Qed.

(** A word expands piece by piece: quoted text stands for itself, [$n] and
    [${n}] for the value of the variable or for nothing, [$?] for the status
    of the last command in decimal, and a leading [~/] for the home directory. *)
Theorem expand_word_exact sh ps : wf_pieces ps ->
  expand_word sh (ps ≫= render) = ps ≫= piece_value sh /\
  expand_word sh ([0x7e; 0x2f] ++ (ps ≫= render)) = default [slash] (get_var sh (str "HOME")) ++ [slash] ++ (ps ≫= piece_value sh).
Proof.
  intros H. rewrite <- (expand_pieces sh ps H). split; [|done].
  assert (head (ps ≫= render) <> Some 0x7e) as Hh.
  { clear H. induction ps as [|p ps IH]; [done|]. rewrite bind_cons. destruct p as [w|n|n|]; try done. cbn [render]. destruct w as [|c w]; [done|].
    unfold protect. rewrite bind_cons. destruct (protected c) eqn:Hc; [done|]. cbn. intros [= ->]. done. }
  destruct (ps ≫= render) as [|c l]; [done|]. unfold expand_word. destruct (Z.eqb_spec c 0x7e) as [->|Hc]; [done|]. by repeat case_match.
Qed.

(** ** Variables *)

(** The variables as a map, and the invariant: no name twice, and [path] is
    the value of PATH. *)
Definition var_pair (v : EnvVar) : list Z * (list Z * bool) := (name v, (value v, exported v)).
Definition vars sh : gmap (list Z) (list Z * bool) := list_to_map (var_pair <$> env sh).
Definition shell_ok sh : Prop := NoDup (name <$> env sh) /\ search sh = default [] (get_var sh (str "PATH")).

Lemma find_var_cons v l n : find_var (v :: l) n = if bool_decide (name v = n) then Some v else find_var l n.
Proof.
  unfold find_var. cbn. case_decide; [by rewrite bool_decide_eq_true_2|]. rewrite bool_decide_eq_false_2 by done.
  destruct (list_find _ l) as [[i w]|]; done.
Qed.

Lemma vars_find l n : (list_to_map (var_pair <$> l) : gmap (list Z) (list Z * bool)) !! n = (fun v => (value v, exported v)) <$> find_var l n.
Proof.
  induction l as [|v l IH]; [done|]. rewrite find_var_cons. cbn. case_bool_decide as E; [subst n; by rewrite lookup_insert_eq|].
  by rewrite lookup_insert_ne.
Qed.

Lemma get_var_vars sh n : get_var sh n = fst <$> vars sh !! n.
Proof. unfold get_var, vars. rewrite vars_find. by destruct (find_var (env sh) n). Qed.

Lemma find_var_none l n : find_var l n = None <-> n ∉ name <$> l.
Proof.
  induction l as [|v l IH]; [split; [by intros _ ?%elem_of_nil|done]|]. rewrite find_var_cons, fmap_cons, not_elem_of_cons.
  case_bool_decide; naive_solver.
Qed.

Lemma change_names n f l : (forall v, name (f v) = name v) -> name <$> change_var n f l = name <$> l.
Proof. intros Hf. induction l as [|v l IH]; [done|]. cbn. case_bool_decide; cbn; [by rewrite Hf|by rewrite IH]. Qed.

Lemma change_find n f l m : (forall v, name (f v) = name v) ->
  find_var (change_var n f l) m = if bool_decide (m = n) then f <$> find_var l m else find_var l m.
Proof.
  intros Hf. induction l as [|v l IH]; [by case_bool_decide|]. cbn [change_var]. rewrite (find_var_cons v l m). destruct (decide (name v = n)) as [Hv|Hv].
  - rewrite (bool_decide_eq_true_2 (name v = n)) by done. rewrite find_var_cons, Hf. repeat case_bool_decide; naive_solver.
  - rewrite (bool_decide_eq_false_2 (name v = n)) by done. rewrite find_var_cons, IH. repeat case_bool_decide; naive_solver.
Qed.

Lemma snoc_find l v m : name v ∉ name <$> l -> find_var (l ++ [v]) m = if bool_decide (m = name v) then Some v else find_var l m.
Proof.
  induction l as [|w l IH]; intros Hn; cbn [app]; rewrite ?find_var_cons; [repeat case_bool_decide; naive_solver|].
  rewrite fmap_cons in Hn. apply not_elem_of_cons in Hn as [H1 H2]. rewrite IH by done. repeat case_bool_decide; naive_solver.
Qed.

Lemma filter_find l n m : find_var (filter (fun v => name v <> n) l) m = if bool_decide (m = n) then None else find_var l m.
Proof.
  induction l as [|v l IH]; [by case_bool_decide|]. rewrite filter_cons, (find_var_cons v l). destruct (decide (name v <> n)) as [Hv|Hv].
  - rewrite find_var_cons, IH. repeat case_bool_decide; naive_solver.
  - rewrite IH. repeat case_bool_decide; naive_solver.
Qed.

Lemma set_env sh n v e : env (set_var sh n v e) = match find_var (env sh) n with
  | Some _ => change_var n (fun x => x <| value := v |> <| exported := exported x || e |>) (env sh) | None => env sh ++ [mkVar n v e] end.
Proof. unfold set_var. destruct (find_var (env sh) n); by case_bool_decide. Qed.

Lemma set_var_vars sh n v e : vars (set_var sh n v e) = <[n := (v, default false (snd <$> vars sh !! n) || e)]> (vars sh).
Proof.
  apply map_eq. intros m. unfold vars. rewrite set_env, vars_find, lookup_insert, !vars_find.
  destruct (find_var (env sh) n) as [x|] eqn:Hx.
  - rewrite change_find by done. destruct (decide (n = m)) as [<-|Hm].
    + rewrite bool_decide_eq_true_2, Hx by done. done.
    + by rewrite bool_decide_eq_false_2 by done.
  - rewrite snoc_find by (by apply find_var_none). cbn [name]. destruct (decide (n = m)) as [<-|Hm].
    + by rewrite bool_decide_eq_true_2 by done.
    + by rewrite bool_decide_eq_false_2 by done.
Qed.

Lemma set_var_ok sh n v e : shell_ok sh -> shell_ok (set_var sh n v e).
Proof.
  intros [Hn Hp]. split.
  - rewrite set_env. destruct (find_var (env sh) n) eqn:Hx; [by rewrite change_names|]. rewrite fmap_app. apply NoDup_app. split; [done|].
    split; [|apply NoDup_singleton]. intros m Hm ->%list_elem_of_singleton. by apply find_var_none in Hx.
  - rewrite get_var_vars, set_var_vars. destruct (decide (n = str "PATH")) as [->|Hne].
    + rewrite lookup_insert_eq. unfold set_var. by rewrite bool_decide_eq_true_2.
    + rewrite lookup_insert_ne, <- get_var_vars, <- Hp by done. unfold set_var. rewrite bool_decide_eq_false_2 by done. by destruct (find_var _ _).
Qed.

Lemma export_name_vars sh n : (export_name sh n).1 = bool_decide (is_Some (vars sh !! n)) /\
  vars (export_name sh n).2 = alter (fun x => (x.1, true)) n (vars sh) /\ (shell_ok sh -> shell_ok (export_name sh n).2).
Proof.
  assert (vars (export_name sh n).2 = alter (fun x => (x.1, true)) n (vars sh)) as Hv.
  { apply map_eq. intros m. unfold export_name, vars. destruct (find_var (env sh) n) as [x|] eqn:Hx; cbn [snd]; rewrite lookup_alter.
    - change (env (sh <| env := ?e |>)) with e. rewrite !vars_find, change_find by done.
      destruct (decide (n = m)) as [<-|Hm]; [rewrite bool_decide_eq_true_2, Hx by done|rewrite bool_decide_eq_false_2 by done]; done.
    - destruct (decide (n = m)) as [<-|Hm]; [|done]. by rewrite vars_find, Hx. }
  split; [|split; [done|]].
  - unfold export_name, vars. rewrite vars_find. destruct (find_var (env sh) n); symmetry;
      [by apply bool_decide_eq_true_2|apply bool_decide_eq_false_2; by intros [? ?]].
  - intros [Hn Hp]. split; [unfold export_name; destruct (find_var _ _); [|done]; cbn [snd]; change (env (sh <| env := ?e |>)) with e; by rewrite change_names|].
    rewrite get_var_vars, Hv, lookup_alter. replace (search (export_name sh n).2) with (search sh) by (unfold export_name; by destruct (find_var _ _)).
    rewrite Hp, get_var_vars. case_decide as E; [|done]. rewrite <- E. by destruct (vars sh !! n).
Qed.

Lemma unset_env sh n : env (unset_var sh n) = filter (fun v => name v <> n) (env sh).
Proof. unfold unset_var. by case_bool_decide. Qed.

Lemma unset_var_vars sh n : vars (unset_var sh n) = base.delete n (vars sh) /\ (shell_ok sh -> shell_ok (unset_var sh n)).
Proof.
  assert (vars (unset_var sh n) = base.delete n (vars sh)) as Hv.
  { apply map_eq. intros m. unfold vars. rewrite unset_env, vars_find, filter_find, lookup_delete, vars_find.
    destruct (decide (n = m)) as [<-|Hm]; [by rewrite bool_decide_eq_true_2|by rewrite bool_decide_eq_false_2]. }
  split; [done|]. intros [Hn Hp]. split.
  - rewrite unset_env. eapply sublist_NoDup; [exact Hn|]. apply fmap_sublist. apply sublist_filter.
  - rewrite get_var_vars, Hv, lookup_delete. unfold unset_var. destruct (decide (n = str "PATH")) as [->|Hne].
    + by rewrite bool_decide_eq_true_2.
    + rewrite bool_decide_eq_false_2 by done. by rewrite <- get_var_vars.
Qed.

(** The variables are a map from names to values and export marks:
    assigning, exporting and unsetting act on it as insertion, alteration and
    deletion, reading is its lookup, no name occurs twice, and the search path
    is at every time the value of PATH. *)
Theorem vars_refine sh n v e : shell_ok sh ->
  get_var sh n = fst <$> vars sh !! n /\
  (shell_ok (set_var sh n v e) /\ vars (set_var sh n v e) = <[n := (v, default false (snd <$> vars sh !! n) || e)]> (vars sh)) /\
  (shell_ok (export_name sh n).2 /\ (export_name sh n).1 = bool_decide (is_Some (vars sh !! n)) /\
   vars (export_name sh n).2 = alter (fun x => (x.1, true)) n (vars sh)) /\
  (shell_ok (unset_var sh n) /\ vars (unset_var sh n) = base.delete n (vars sh)).
Proof.
  intros H. destruct (export_name_vars sh n) as (H1 & H2 & H3). destruct (unset_var_vars sh n) as [H4 H5].
  split; [apply get_var_vars|]. split; [by split; [apply set_var_ok|apply set_var_vars]|]. by split_and!; auto.
Qed.

(** ** Completion *)

Lemma starts_with_prefix p s : starts_with p s = true <-> p `prefix_of` s.
Proof. apply starts_with_spec. Qed.

Lemma prefix_snoc q l (c : Z) : q `prefix_of` l ++ [c] -> q = l ++ [c] \/ q `prefix_of` l.
Proof.
  intros [d Hd]. destruct d as [|x d _] using rev_ind; [left; by rewrite Hd, app_nil_r|]. right. rewrite app_assoc in Hd.
  apply app_inj_tail in Hd as [-> _]. by exists d.
Qed.

Lemma dedup_strings_elem x l : x ∈ dedup_strings l <-> x ∈ l.
Proof.
  induction l as [|a l IH]; [done|]. cbn [dedup_strings]. destruct l as [|b l]; [done|]. case_bool_decide as E.
  - subst b. rewrite IH. set_solver.
  - rewrite !(elem_of_cons _ x a), IH. done.
Qed.

Lemma sort_dedup_elem x l : x ∈ sort_dedup l <-> x ∈ l.
Proof. unfold sort_dedup. rewrite dedup_strings_elem. by rewrite merge_sort_Permutation. Qed.

Lemma sort_dedup_nil l : sort_dedup l = [] <-> l = [].
Proof.
  split; [|by intros ->]. intros H. destruct l as [|x l]; [done|]. assert (x ∈ sort_dedup (x :: l)) as Hx by (apply sort_dedup_elem; set_solver).
  rewrite H in Hx. by apply elem_of_nil in Hx.
Qed.

Lemma split_dir_app s : (split_dir s).1 ++ (split_dir s).2 = s.
Proof. induction s as [|c s IH]; [done|]. cbn. destruct (split_dir s) as [d leaf]. cbn in IH. subst s. case_bool_decide as E; cbn; [|done]. by destruct (c =? slash); subst d. Qed.

Lemma input_token_app input : (input_token input).1 ++ (input_token input).2 = input.
Proof.
  unfold input_token. cbn. destruct (trim_right_prefix (fun c => negb (is_whitespace c)) input) as [d Hd].
  revert Hd. generalize (trim_right (fun c => negb (is_whitespace c)) input). intros b ->. by rewrite drop_app_length.
Qed.

Lemma lcp_loop_spec strings r : strings <> [] -> (forall q, (forall m, m ∈ strings -> q `prefix_of` m) -> q `prefix_of` rev r) ->
  (forall m, m ∈ strings -> lcp_loop strings r `prefix_of` m) /\ (forall q, (forall m, m ∈ strings -> q `prefix_of` m) -> q `prefix_of` lcp_loop strings r).
Proof.
  intros Hn. induction r as [|c r IH]; intros Hq; [split; [intros; apply prefix_nil|done]|]. cbn [lcp_loop].
  destruct (existsb (fun s => negb (starts_with (rev (c :: r)) s)) strings) eqn:E.
  - apply IH. intros q Hall. specialize (Hq q Hall). cbn [rev] in Hq. apply prefix_snoc in Hq as [->|Hq]; [|done]. exfalso.
    apply existsb_exists in E as (s & Hs & Hneg). rewrite <- list_elem_of_In in Hs. specialize (Hall s Hs). apply starts_with_prefix in Hall.
    cbn [rev] in Hneg. by rewrite Hall in Hneg.
  - split; [|done]. intros m Hm. apply starts_with_prefix. destruct (starts_with (rev (c :: r)) m) eqn:Es; [done|]. exfalso.
    assert (existsb (fun s => negb (starts_with (rev (c :: r)) s)) strings = true) as Ht; [|congruence].
    apply existsb_exists. exists m. rewrite <- list_elem_of_In. by rewrite Es.
Qed.

Lemma lcp_spec strings : strings <> [] -> (forall m, m ∈ strings -> longest_common_prefix strings `prefix_of` m) /\
  (forall q, (forall m, m ∈ strings -> q `prefix_of` m) -> q `prefix_of` longest_common_prefix strings).
Proof.
  intros Hn. destruct strings as [|s strings]; [done|]. apply lcp_loop_spec; [done|]. intros q Hq. rewrite rev_involutive. apply Hq. set_solver.
Qed.

Lemma matches_token list_dir sh input m : m ∈ (matches list_dir sh input).1 -> (input_token input).2 `prefix_of` m.
Proof.
  unfold matches. destruct (input_token input) as [before token]. cbn [snd]. destruct (command_position before && _).
  - destruct (get_commands list_dir sh) as [cmds sh']. cbn. rewrite list_elem_of_filter. intros [H _]. by apply starts_with_prefix.
  - cbn. unfold path_completion_matches. pose proof (split_dir_app token) as Hs. destruct (split_dir token) as [d leaf]. cbn in Hs.
    rewrite sort_dedup_elem, list_elem_of_fmap. intros (e & -> & He). apply list_elem_of_filter in He as [He _]. apply starts_with_prefix in He.
    subst token. by apply prefix_app.
Qed.

Lemma blen_prefix a b : a `prefix_of` b -> blen a <= blen b /\ (blen b <= blen a -> a = b).
Proof.
  intros [d ->]. rewrite blen_app. pose proof (blen_nonneg d). split; [lia|]. intros H1. assert (d = []) as -> by (apply blen_zero; lia). by rewrite app_nil_r.
Qed.

(** Completion never loses what was typed: the answer depends only on the
    candidates, all of which extend the last word; with none nothing happens,
    a single one is taken as a whole, several are replaced by their longest
    common prefix if that is longer than the word, and are listed exactly when
    nothing can be added. *)
Theorem completion_exact list_dir sh input :
  let '(before, token) := input_token input in let ms := sort_dedup (matches list_dir sh input).1 in
  before ++ token = input /\ (forall m, m ∈ ms -> token `prefix_of` m) /\
  match (handle_tab_completion list_dir input sh).1 with
  | CNone => ms = []
  | Replace new =>
      (exists m, ms = [m] /\ new = before ++ m ++ (if ends_with slash m then [] else [0x20])) \/
      ((2 <= length ms)%nat /\ exists p, new = before ++ p /\ token `prefix_of` p /\ token <> p /\ (forall m, m ∈ ms -> p `prefix_of` m) /\
         forall q, (forall m, m ∈ ms -> q `prefix_of` m) -> q `prefix_of` p)
  | Listed => (2 <= length ms)%nat /\ forall q, (forall m, m ∈ ms -> q `prefix_of` m) -> q `prefix_of` token
  end.
Proof.
  pose proof (input_token_app input) as Happ. pose proof (matches_token list_dir sh input) as Htok. unfold handle_tab_completion.
  destruct (input_token input) as [before token]. cbn [fst snd] in Happ, Htok. destruct (matches list_dir sh input) as [l sh']. cbn [fst] in *.
  assert (forall m, m ∈ sort_dedup l -> token `prefix_of` m) as Hms by (intros m Hm; by apply Htok, sort_dedup_elem). split; [done|]. split; [done|].
  case_bool_decide as Hl; [cbn; by apply sort_dedup_nil|]. assert (sort_dedup l <> []) as Hn by (by rewrite sort_dedup_nil).
  destruct (sort_dedup l) as [|m [|m' ms]] eqn:Es; [done|cbn; left; exists m; split; [done|]; destruct (ends_with slash m); by rewrite ?app_nil_r|].
  destruct (lcp_spec (m :: m' :: ms) Hn) as [Hpre Hlong]. specialize (Hlong token Hms) as Ht. destruct (blen_prefix _ _ Ht) as [Hle Heq].
  destruct (Z.ltb_spec (blen token) (blen (longest_common_prefix (m :: m' :: ms)))) as [Hlt|Hge]; cbn [fst].
  - right. split; [cbn; lia|]. eexists. split_and!; try done. intros E. rewrite <- E in Hlt. lia.
  - split; [cbn; lia|]. intros q Hq. rewrite (Heq Hge). by apply Hlong.
Qed.

(** ** Instances *)

Definition test_shell : Shell := shell_new (str "/home") [str "A=x y"; str "HOME=/root"].

Definition test_line : list CommandGroup :=
  [mkGroup [mkCmd [str "echo"; str "$A ~'"; []] [mkRedir 2 Append (Path (str "a b")); mkRedir 1 Out (Fd 2)]; mkCmd [str "cat"] []] false And;
   mkGroup [mkCmd [str "sleep"; [PROTECTED]] [mkRedir 0 In (Path (str "~"))]] true Always].

Lemma test_line_wf : wf_line test_line.
Proof. split; [|by intros g [= <-]]. repeat constructor; try done; cbn; try lia. Qed.

Lemma command_roundtrip_witness : exists gs', parse_line (print_line test_line) = Ok gs' /\ expand_group test_shell <$> gs' = test_line.
Proof. apply (command_roundtrip test_shell test_line). apply test_line_wf. Defined.

Lemma expand_word_exact_witness :
  expand_word test_shell ([Quoted (str "$"); Var (str "A"); Status; Braced (str "B")] ≫= render) = str "$x y0" /\
  expand_word test_shell ([0x7e; 0x2f] ++ ([Quoted (str "$"); Var (str "A"); Status; Braced (str "B")] ≫= render)) = str "/root/$x y0".
Proof.
  apply (expand_word_exact test_shell [Quoted (str "$"); Var (str "A"); Status; Braced (str "B")]).
  cbn. split_and!; try done. refine (bool_decide_unpack _ _). by vm_compute.
Defined.

Lemma test_shell_ok : shell_ok test_shell.
Proof. split; [refine (bool_decide_unpack _ _); by vm_compute|by vm_compute]. Qed.

Lemma vars_refine_witness : get_var test_shell (str "A") = fst <$> vars test_shell !! str "A" /\ shell_ok (set_var test_shell (str "A") [] false) /\
  vars (set_var test_shell (str "A") [] false) = <[str "A" := ([], true)]> (vars test_shell).
Proof.
  destruct (vars_refine test_shell (str "A") [] false test_shell_ok) as (H1 & [H2 H3] & _). split; [exact H1|]. split; [exact H2|]. exact H3.
Defined.

(** A quoted number before a redirection is taken for a descriptor. *)
Lemma quoted_number_redirects : parse_line (str "echo " ++ [0x22; 0x32; 0x22] ++ str ">f") = Ok [mkGroup [mkCmd [str "echo"] [mkRedir 2 Out (Path (str "f"))]] false Always].
Proof. by vm_compute. Qed.

(** A tilde in double quotes is expanded. *)
Lemma quoted_tilde_expands : exists gs, parse_line ([0x22] ++ str "~/x" ++ [0x22]) = Ok gs /\
  expand_group test_shell <$> gs = [mkGroup [mkCmd [str "/root/x"] []] false Always].
Proof. eexists. split; [by vm_compute|]. by vm_compute. Qed.
