(* ===== verification/ShellExec.v ===== *)
(** * Running commands in the shell

    [src/apps/shell/src/executor.rs], and from [src/apps/shell/src/main.rs]
    the redirections of builtins.  The system is a function that answers each
    call from the calls made before it; what the shell does is a program over
    the list of calls and answers, which can also crash (an index out of
    range) or still be waiting when the rounds it was given are used up.

    The theorems: starting a pipeline opens and closes descriptors in balance
    on every path, connects its stages in order and puts them into one group,
    waiting collects the status that the kernel encoded, and command lists
    follow their connectors. *)

From Stdlib Require Import String.
From S2P Require Import Prelude Process Vfs Bytes LineEdit Shell.

(** ** System calls *)

Inductive ExecError : Type :=
| NotFound (n : list Z) | CannotOpen (p : path) | FdUnsupported (fd : Z) | DupUnsupported (from to : Z) | ExecFailed (n : list Z) | PipeFailed | EmptyPipeline.

(** What is printed: error messages, notices about jobs, variables. *)
Inductive message : Type :=
| MError (e : ExecError) | MSyntax (e : SyntaxError) | MUsage (n : list Z) | MVar (n v : list Z) | MJob (n : list Z) (i : Z) | MStarted (i pgid pid : Z)
| MStopped (i pgid pid : Z).

Inductive call : Type :=
| Open (p : path) (flags : Z) | Close (fd : Z) | MakePipe
| Spawn (exe : path) (sin sout serr : Z) (argv envp : list (list Z)) (pgid : Z) (foreground : bool)
| Kill (pid sig : Z) | Waitpid (pid options : Z) | Tcsetpgrp (pgid : Z) | Getpgrp | Sleep
| Say (fd : Z) (m : message).

(** The value a call returns, and what it stores through its pointer. *)
Record answer : Type := mkAnswer { ret : Z; stored : list Z }.
Definition event : Type := call * answer.

Inductive run (A : Type) : Type := Done (a : A) (w : list event) | Crash | Waiting.
Arguments Done {A} _ _.
Arguments Crash {A}.
Arguments Waiting {A}.

Definition prog (A : Type) : Type := list event -> run A.
#[global] Instance prog_ret : MRet prog := fun A a w => Done a w.
#[global] Instance prog_bind : MBind prog := fun A B f m w => match m w with Done a w' => f a w' | Crash => Crash | Waiting => Waiting end.

Definition crash {A} : prog A := fun _ => Crash.
Definition need {A} (o : option A) : prog A := match o with Some a => mret a | None => crash end.

Definition as_i32 (z : Z) : Z := if z <? 2 ^ 31 then z else z - 2 ^ 32.

Definition as_usize (z : Z) : Z := z mod 2 ^ 32.

Definition O_RDONLY : Z := 0.
Definition O_WRONLY : Z := 1.
Definition O_CREAT : Z := 0x40.
Definition O_TRUNC : Z := 0x200.
Definition O_APPEND : Z := 0x400.
Definition SIGKILL : Z := 9.
Definition SIGTERM : Z := 15.
Definition SIGCONT : Z := 18.
Definition SIGSTOP : Z := 19.

(** The states in a wait status *)
Definition wifexited (status : Z) : bool := Z.land status 0x7f =? 0.
Definition wexitstatus (status : Z) : Z := Z.land (Z.shiftr status 8) 0xff.
Definition wifsignaled (status : Z) : bool := let sig := Z.land status 0x7f in negb (sig =? 0) && negb (sig =? 0x7f).
Definition wtermsig (status : Z) : Z := Z.land status 0x7f.
Definition wifstopped (status : Z) : bool := Z.land status 0xff =? 0x7f.
Definition wifcontinued (status : Z) : bool := status =? 0xffff.
Definition wait_status_exit_code (status : Z) : Z :=
  if wifexited status then wexitstatus status else if wifsignaled status then 128 + wtermsig status else status.

(** ** Numbers and names *)

Definition all_digits (s : list Z) : bool := negb (bool_decide (s = [])) && forallb is_ascii_digit s.
Definition strip_sign (c : Z) (s : list Z) : list Z := default s (strip_prefix [c] s).
(** [parse::<u32>], [parse::<i32>] *)
Definition parse_u32 (s : list Z) : option Z :=
  let s := strip_sign 0x2b s in if all_digits s && (dec s <=? U32_MAX) then Some (dec s) else None.
Definition parse_i32 (s : list Z) : option Z :=
  match strip_prefix [0x2d] s with
  | Some s => if all_digits s && (dec s <=? 2 ^ 31) then Some (- dec s) else None
  | None => let s := strip_sign 0x2b s in if all_digits s && (dec s <? 2 ^ 31) then Some (dec s) else None
  end.

Definition split_assignment (s : list Z) : option (list Z * list Z) :=
  '(n, v) ← split_once 0x3d s;
  match n with
  | [] => None
  | c :: _ => if (negb (is_ascii_alphabetic c) && negb (c =? 0x5f)) || negb (forallb name_char n) then None else Some (n, v)
  end.

Definition parse_signal (s : list Z) : option Z :=
  let raw := strip_sign 0x2d s in
  let named n := bool_decide (raw = str n) || bool_decide (raw = str "SIG" ++ str n) in
  if named "INT"%string then Some 2 else if named "KILL"%string then Some SIGKILL else if named "TERM"%string then Some SIGTERM
  else if named "STOP"%string then Some SIGSTOP else if named "TSTP"%string then Some 20 else if named "TTIN"%string then Some 21
  else if named "TTOU"%string then Some 22 else if named "CONT"%string then Some SIGCONT else parse_u32 raw.

Definition job_index sh (spec : option (list Z)) : option Z :=
  match spec with
  | None => if zlen (jobs sh) =? 0 then None else Some (zlen (jobs sh) - 1)
  | Some s =>
      match strip_prefix [0x25] s with
      | Some s => i ← parse_u32 s; vec_position (fun j => id j =? i) (jobs sh)
      | None => p ← parse_i32 s; vec_position (fun j => bool_decide (p ∈ pids j) || (last_pid j =? p)) (jobs sh)
      end
  end.

Record RunningGroup : Type := mkRunning { g_pgid : Z; g_pids : list Z; g_last_pid : Z; g_last_status : Z }.
#[global] Instance RunningGroup_eta : Eta RunningGroup := fun g => mkRunning (g_pgid g) (g_pids g) (g_last_pid g) (g_last_status g).
Inductive SuperviseResult : Type := Exited (status : Z) | StoppedGroup (g : RunningGroup).

Definition job_from_running (i : Z) (c : list Z) (st : JobState) (g : RunningGroup) : BackgroundJob :=
  mkJob i (g_pgid g) (g_pids g) (g_last_pid g) c st (g_last_status g).
Definition running_from_job (j : BackgroundJob) : RunningGroup := mkRunning (pgid j) (pids j) (last_pid j) (job_status j).

Section Exec.
  (** The system, whether a path can be opened, and the names in a directory. *)
  Context (os : list event -> call -> answer) (file_exists : list event -> path -> bool).

Definition sys (c : call) : prog answer := fun w => let a := os w c in Done a (w ++ [(c, a)]).
Definition find_exe sh (n : path) : prog (option path) := fun w => Done (find_executable (file_exists w) sh n) w.

(** ** Starting processes *)

Definition c_string (s : list Z) : list Z := s ++ [0].

Definition spawn sh (p : path) (sin sout serr : Z) (arguments : list (list Z)) (group : Z) (foreground : bool) : prog (option Z) :=
  let is_rhai := starts_with (rev (str ".rhai")) (rev p) in
  let executable := if is_rhai then str "/bin/rhai" else p in
  let argv := if is_rhai then c_string (str "/bin/rhai") :: c_string p :: (c_string <$> drop 1 arguments)
              else if bool_decide (arguments = []) then [c_string p] else c_string <$> arguments in
  a ← sys (Spawn (c_string executable) sin sout serr argv (exported_env sh) group foreground);
  mret (if ret a =? USIZE_MAX then None else Some (as_i32 (ret a))).

Fixpoint close_from (seen fds : list Z) : prog unit :=
  match fds with
  | [] => mret ()
  | f :: fds => (if (f <? 0) || bool_decide (f ∈ seen) then mret () else _ ← sys (Close f); mret ());; close_from (seen ++ [f]) fds
  end.
Definition close_unique (fds : list Z) : prog unit := close_from [] fds.

Definition open_flags (k : RedirKind) : Z :=
  match k with In => O_RDONLY | Out => Z.lor (Z.lor O_WRONLY O_CREAT) O_TRUNC | Append => Z.lor (Z.lor O_WRONLY O_CREAT) O_APPEND end.
Definition open_redir_path sh (r : Redir) (p : path) : prog (result Z ExecError) :=
  a ← sys (Open (c_string (resolve sh p)) (open_flags (kind r)));
  mret (if ret a =? USIZE_MAX then Err (CannotOpen p) else Ok (as_i32 (ret a))).

(** The standard descriptors of a stage and the files opened for it. *)
Record Std : Type := mkStd { sin : Z; sout : Z; serr : Z }.
#[global] Instance Std_eta : Eta Std := fun s => mkStd (sin s) (sout s) (serr s).

Definition dup_std (from to : Z) (s : Std) : option Std :=
  match from, to with
  | 0, 0 | 1, 1 | 2, 2 => Some s
  | 1, 2 => Some (s <| sout := serr s |>)
  | 2, 1 => Some (s <| serr := sout s |>)
  | 0, 1 => Some (s <| sin := sout s |>)
  | 0, 2 => Some (s <| sin := serr s |>)
  | 1, 0 => Some (s <| sout := sin s |>)
  | 2, 0 => Some (s <| serr := sin s |>)
  | _, _ => None
  end.
Definition set_std (n f : Z) (s : Std) : option Std :=
  match n with 0 => Some (s <| sin := f |>) | 1 => Some (s <| sout := f |>) | 2 => Some (s <| serr := f |>) | _ => None end.

Fixpoint apply_redirs sh (rs : list Redir) (s : Std) (opened : list Z) : prog (result (Std * list Z) ExecError) :=
  match rs with
  | [] => mret (Ok (s, opened))
  | r :: rs =>
      match target r with
      | Path p =>
          o ← open_redir_path sh r p;
          match o with
          | Err e => close_unique opened;; mret (Err e)
          | Ok f =>
              let opened := opened ++ [f] in
              match set_std (fd r) f s with
              | Some s => apply_redirs sh rs s opened
              | None => close_unique opened;; mret (Err (FdUnsupported (fd r)))
              end
          end
      | Fd t =>
          match dup_std (fd r) t s with
          | Some s => apply_redirs sh rs s opened
          | None => close_unique opened;; mret (Err (DupUnsupported (fd r) t))
          end
      end
  end.

Definition spawn_stage sh (c : SimpleCmd) (base_in base_out base_err group : Z) (foreground : bool) : prog (result Z ExecError) :=
  arg0 ← need (head (args c));
  found ← (if bool_decide (arg0 ∈ BUILTINS) then mret (Ok (str "/bin/shell", [str "/bin/shell"; str "--builtin"] ++ args c))
           else o ← find_exe sh arg0; mret (match o with Some full => Ok (full, args c) | None => Err (NotFound arg0) end));
  match found with
  | Err e => mret (Err e)
  | Ok (full, exec_args) =>
      o ← apply_redirs sh (redirs c) (mkStd base_in base_out base_err) [];
      match o with
      | Err e => mret (Err e)
      | Ok (s, opened) =>
          p ← spawn sh full (sin s) (sout s) (serr s) exec_args group foreground;
          close_unique opened;;
          mret (match p with Some p => Ok p | None => Err (ExecFailed arg0) end)
      end
  end.

Definition make_pipe : prog (result (Z * Z) ExecError) :=
  a ← sys MakePipe;
  mret (match stored a with [r; w] => if ret a =? 0 then Ok (r, w) else Err PipeFailed | _ => Err PipeFailed end).

Fixpoint close_pipes (pipes : list (Z * Z)) : prog unit :=
  match pipes with [] => mret () | (r, w) :: pipes => close_unique [as_i32 r; as_i32 w];; close_pipes pipes end.

Fixpoint make_pipes (n : nat) (pipes : list (Z * Z)) : prog (result (list (Z * Z)) ExecError) :=
  match n with
  | O => mret (Ok pipes)
  | S n => p ← make_pipe; match p with Ok p => make_pipes n (pipes ++ [p]) | Err e => close_pipes pipes;; mret (Err e) end
  end.

Fixpoint kill_all (l : list Z) : prog unit :=
  match l with [] => mret () | p :: l => _ ← sys (Kill p SIGKILL); kill_all l end.

Fixpoint spawn_stages sh (n i : Z) (cmds : list SimpleCmd) (pipes : list (Z * Z)) (started : list Z) (group : Z) (foreground : bool) : prog (result (Z * list Z) ExecError) :=
  match cmds with
  | [] => mret (Ok (group, started))
  | c :: cmds =>
      base_in ← (if i =? 0 then mret 0 else p ← need (get pipes (i - 1)); mret (as_i32 p.1));
      base_out ← (if i + 1 =? n then mret 1 else p ← need (get pipes i); mret (as_i32 p.2));
      o ← spawn_stage sh c base_in base_out 2 group foreground;
      match o with
      | Ok p => spawn_stages sh n (i + 1) cmds pipes (started ++ [p]) (if group =? 0 then p else group) foreground
      | Err e => kill_all started;; close_pipes pipes;; mret (Err e)
      end
  end.

Definition spawn_pipeline sh (cmds : list SimpleCmd) (foreground : bool) : prog (result RunningGroup ExecError) :=
  if bool_decide (cmds = []) then mret (Err EmptyPipeline) else
  o ← make_pipes (length cmds - 1) [];
  match o with
  | Err e => mret (Err e)
  | Ok pipes =>
      o ← spawn_stages sh (zlen cmds) 0 cmds pipes [] 0 foreground;
      match o with
      | Err e => mret (Err e)
      | Ok (group, started) =>
          close_pipes pipes;;
          p ← need (last started);
          mret (Ok (mkRunning group started p 0))
      end
  end.

(** ** Waiting *)

Definition WAIT_OPTIONS : Z := 11.

(** What a drain of one child's events ended with. *)
Inductive drained : Type := Removed (status : option Z) | Kept (transition : Z).

Fixpoint drain (n : nat) (p transition : Z) : prog drained :=
  match n with
  | O => mret (Kept transition)
  | S n =>
      a ← sys (Waitpid p WAIT_OPTIONS);
      let status := default 0 (head (stored a)) in
      if ret a =? 0 then mret (Kept transition)
      else if ret a =? USIZE_MAX then mret (Removed None)
      else if negb (ret a =? as_usize p) then mret (Kept transition)
      else if wifstopped status then drain n p 1
      else if wifcontinued status then drain n p 2
      else mret (Removed (Some status))
  end.

(** The children still there, the status of the last one and the transitions. *)
Record Reaped : Type := mkReaped { kept : list Z; status_now : Z; stopped_now : bool; continued_now : bool }.
#[global] Instance Reaped_eta : Eta Reaped := fun r => mkReaped (kept r) (status_now r) (stopped_now r) (continued_now r).

Fixpoint reap_pids (l : list Z) (last_p : Z) (r : Reaped) : prog Reaped :=
  match l with
  | [] => mret r
  | p :: l =>
      d ← drain 4 p 0;
      reap_pids l last_p
        (match d with
         | Removed (Some status) => if p =? last_p then r <| status_now := wait_status_exit_code status |> else r
         | Removed None => r
         | Kept t => let r := r <| kept := kept r ++ [p] |> in
                     if t =? 1 then r <| stopped_now := true |> else if t =? 2 then r <| continued_now := true |> else r
         end)
  end.

Definition reap_group_nonblocking (g : RunningGroup) : prog (bool * bool * bool * RunningGroup) :=
  r ← reap_pids (g_pids g) (g_last_pid g) (mkReaped [] (g_last_status g) false false);
  mret (bool_decide (kept r = []), stopped_now r, continued_now r, g <| g_pids := kept r |> <| g_last_status := status_now r |>).

Definition reclaim_shell_tty : prog unit :=
  a ← sys Getpgrp; if 0 <? as_i32 (ret a) then _ ← sys (Tcsetpgrp (as_i32 (ret a))); mret () else mret ().

(** Stops a group of which a member stopped. *)
Definition stop_group (g : RunningGroup) : prog RunningGroup :=
  _ ← sys (Kill (- g_pgid g) SIGSTOP); '(_, _, _, g) ← reap_group_nonblocking g; mret g.

(** The loop of [supervise_group], at most [rounds] times. *)
Fixpoint supervise_loop (rounds : nat) (g : RunningGroup) : prog SuperviseResult :=
  match rounds with
  | O => fun _ => Waiting
  | S rounds =>
      '(all_exited, stopped, _, g) ← reap_group_nonblocking g;
      if all_exited : bool then reclaim_shell_tty;; mret (Exited (g_last_status g))
      else if stopped : bool then g ← stop_group g; reclaim_shell_tty;; mret (StoppedGroup g)
      else _ ← sys Sleep; supervise_loop rounds g
  end.
Definition supervise_group (rounds : nat) (g : RunningGroup) : prog SuperviseResult := _ ← sys (Tcsetpgrp (g_pgid g)); supervise_loop rounds g.

Definition say (m : message) : prog unit := _ ← sys (Say 1 m); mret ().
Definition emit_line (file_fd : Z) (m : message) : prog unit := if 0 <=? file_fd then _ ← sys (Say file_fd m); mret () else say m.

Fixpoint wait_loop (rounds : nat) (i : Z) (c : list Z) (g : RunningGroup) : prog (Z * option BackgroundJob) :=
  match rounds with
  | O => fun _ => Waiting
  | S rounds =>
      '(done, stopped, _, g) ← reap_group_nonblocking g;
      if done : bool then mret (g_last_status g, None)
      else if stopped : bool then
        g ← stop_group g; say (MJob (str "wait: stopped") i);; mret (1, Some (job_from_running i c Stopped g))
      else _ ← sys Sleep; wait_loop rounds i c g
  end.
Definition wait_job (rounds : nat) (j : BackgroundJob) : prog (Z * option BackgroundJob) :=
  if bool_decide (state j = Stopped) then say (MJob (str "wait: stopped") (id j));; mret (1, Some j)
  else wait_loop rounds (id j) (command j) (running_from_job j).

(** ** Redirections of builtins *)

Record RedirFds : Type := mkFds { r_stdin : Z; r_stdout : Z; r_stderr : Z; stderr_to_stdout : bool }.
#[global] Instance RedirFds_eta : Eta RedirFds := fun f => mkFds (r_stdin f) (r_stdout f) (r_stderr f) (stderr_to_stdout f).

Definition close_if_open (f : Z) : prog Z := if 0 <=? f then _ ← sys (Close f); mret (-1) else mret f.

Fixpoint prepare_redirs sh (rs : list Redir) (fds : RedirFds) : prog (result RedirFds ExecError) :=
  match rs with
  | [] => mret (Ok fds)
  | r :: rs =>
      match target r with
      | Path p =>
          o ← open_redir_path sh r p;
          match o with
          | Err e => mret (Err e)
          | Ok f =>
              match fd r with
              | 0 => _ ← close_if_open (r_stdin fds); prepare_redirs sh rs (fds <| r_stdin := f |>)
              | 1 => _ ← close_if_open (r_stdout fds); prepare_redirs sh rs (fds <| r_stdout := f |>)
              | 2 => _ ← close_if_open (r_stderr fds); prepare_redirs sh rs (fds <| r_stderr := f |> <| stderr_to_stdout := false |>)
              | n => _ ← sys (Close f); mret (Err (FdUnsupported n))
              end
          end
      | Fd t =>
          if (fd r =? 2) && (t =? 1) then
            f ← close_if_open (r_stderr fds); prepare_redirs sh rs (fds <| r_stderr := f |> <| stderr_to_stdout := true |>)
          else mret (Err (DupUnsupported (fd r) t))
      end
  end.

(** [open_redirs], [special_stdout]: the descriptor for the output, or -1 *)
Definition special_stdout sh (rs : list Redir) : prog (result Z ExecError) :=
  o ← prepare_redirs sh rs (mkFds (-1) (-1) (-1) false);
  match o with
  | Err e => mret (Err e)
  | Ok fds => _ ← close_if_open (r_stdin fds); _ ← close_if_open (r_stderr fds); mret (Ok (r_stdout fds))
  end.
Definition close_output (f : Z) : prog unit := if 0 <=? f then _ ← sys (Close f); mret () else mret ().

(** ** Builtins that change the shell *)

Definition arg (c : SimpleCmd) (i : nat) : option (list Z) := args c !! i.

Fixpoint export_args sh (l : list (list Z)) : Shell :=
  match l with
  | [] => sh
  | a :: l =>
      export_args (match split_assignment a with
                   | Some (k, v) => set_var sh k v true
                   | None => let '(ok, sh) := export_name sh a in if ok then sh else set_var sh a [] true
                   end) l
  end.

Fixpoint set_args sh (l : list (list Z)) : prog (Z * Shell) :=
  match l with
  | [] => mret (0, sh)
  | a :: l => match split_assignment a with
              | Some (k, v) => set_args (set_var sh k v false) l
              | None => say (MUsage a);; mret (1, sh)
              end
  end.

Fixpoint emit_vars (f : Z) (p : EnvVar -> bool) (l : list EnvVar) : prog unit :=
  match l with
  | [] => mret ()
  | v :: l => (if p v then emit_line f (MVar (name v) (value v)) else mret ());; emit_vars f p l
  end.

Definition builtin_export sh (c : SimpleCmd) : prog (Z * Shell) :=
  o ← special_stdout sh (redirs c);
  match o with
  | Err e => say (MError e);; mret (1, sh)
  | Ok f =>
      sh ← (if zlen (args c) =? 1 then emit_vars f exported (env sh);; mret sh else mret (export_args sh (drop 1 (args c))));
      close_output f;; mret (0, sh)
  end.

Definition builtin_set sh (is_set : bool) (c : SimpleCmd) : prog (Z * Shell) :=
  if is_set && (1 <? zlen (args c)) then set_args sh (drop 1 (args c)) else
  o ← special_stdout sh (redirs c);
  match o with
  | Err e => say (MError e);; mret (1, sh)
  | Ok f => emit_vars f (fun v => is_set || exported v) (env sh);; close_output f;; mret (0, sh)
  end.

Fixpoint say_jobs (l : list BackgroundJob) : prog unit :=
  match l with [] => mret () | j :: l => say (MJob (command j) (id j));; say_jobs l end.

Definition upd_job sh (i : Z) (f : BackgroundJob -> BackgroundJob) : Shell := sh <| jobs := alter f (Z.to_nat i) (jobs sh) |>.

Definition builtin_bg sh (c : SimpleCmd) : prog (Z * Shell) :=
  match job_index sh (arg c 1) with
  | None => say (MUsage (str "bg: job not found"));; mret (1, sh)
  | Some i =>
      j ← need (get (jobs sh) i);
      _ ← sys (Kill (- pgid j) SIGCONT);
      say (MJob (str "continued") (id j));; mret (0, upd_job sh i (fun j => j <| state := Running |>))
  end.

Definition builtin_fg (rounds : nat) sh (c : SimpleCmd) : prog (Z * Shell) :=
  match job_index sh (arg c 1) with
  | None => say (MUsage (str "fg: job not found"));; mret (1, sh)
  | Some i =>
      j ← need (get (jobs sh) i);
      let sh := sh <| jobs := vec_remove (jobs sh) i |> in
      _ ← sys (Tcsetpgrp (pgid j)); _ ← sys (Kill (- pgid j) SIGCONT);
      r ← supervise_group rounds (running_from_job j);
      mret (match r with
            | Exited status => (status, sh)
            | StoppedGroup g => (148, sh <| jobs := jobs sh ++ [job_from_running (id j) (command j) Stopped g] |>)
            end)
  end.

Definition kill_spec sh (sig : Z) (spec : list Z) : prog (Z * Shell) :=
  match job_index sh (Some spec) with
  | Some i =>
      j ← need (get (jobs sh) i);
      a ← sys (Kill (- pgid j) sig);
      let sh := if sig =? SIGSTOP then upd_job sh i (fun j => j <| state := Stopped |>) else sh in
      let sh := if sig =? SIGCONT then upd_job sh i (fun j => j <| state := Running |>) else sh in
      mret (if ret a =? USIZE_MAX then 1 else 0, sh)
  | None =>
      match parse_i32 spec with
      | Some p => a ← sys (Kill p sig); mret (if ret a =? 0 then 0 else 1, sh)
      | None => say (MUsage (str "kill: process/job not found"));; mret (1, sh)
      end
  end.

Definition builtin_kill sh (c : SimpleCmd) : prog (Z * Shell) :=
  match arg c 1 with
  | None => say (MUsage (str "kill"));; mret (1, sh)
  | Some a1 =>
      if starts_with [0x2d] a1 then
        match parse_signal a1 with
        | None => say (MUsage (str "kill: bad signal"));; mret (1, sh)
        | Some sig => match arg c 2 with Some spec => kill_spec sh sig spec | None => say (MUsage (str "kill: missing pid/job"));; mret (1, sh) end
        end
      else kill_spec sh SIGTERM a1
  end.

(** The loop of [wait] without arguments: every job is waited for once. *)
Fixpoint wait_all (rounds : nat) (todo : list BackgroundJob) (status : Z) : prog (Z * list BackgroundJob) :=
  match todo with
  | [] => mret (status, [])
  | j :: todo =>
      '(status, keep) ← wait_job rounds j;
      match keep with Some j => mret (status, todo ++ [j]) | None => wait_all rounds todo status end
  end.

Definition builtin_wait (rounds : nat) sh (c : SimpleCmd) : prog (Z * Shell) :=
  match arg c 1 with
  | Some spec =>
      match job_index sh (Some spec) with
      | Some i =>
          j ← need (get (jobs sh) i);
          let sh := sh <| jobs := vec_remove (jobs sh) i |> in
          '(status, keep) ← wait_job rounds j;
          mret (status, match keep with Some j => sh <| jobs := jobs sh ++ [j] |> | None => sh end)
      | None =>
          match parse_i32 spec with
          | Some p =>
              a ← sys (Waitpid p 0);
              mret (if ret a =? as_usize p then wait_status_exit_code (default 0 (head (stored a))) else 1, sh)
          | None => say (MUsage (str "wait: job not found"));; mret (1, sh)
          end
      end
  | None => '(status, js) ← wait_all rounds (jobs sh) 0; mret (status, sh <| jobs := js |>)
  end.

(** [run_special_builtin] *)
Definition run_special_builtin (rounds : nat) sh (c : SimpleCmd) : prog (option Z * Shell) :=
  match head (args c) with
  | None => mret (None, sh)
  | Some n =>
      let is_one s := bool_decide (n = str s) in
      let done (p : prog (Z * Shell)) : prog (option Z * Shell) := '(status, sh) ← p; mret (Some status, sh) in
      match (if (zlen (args c) =? 1) && bool_decide (redirs c = []) then split_assignment n else None) with
      | Some (k, v) => mret (Some 0, set_var sh k v false)
      | None =>
          if is_one "export"%string then done (builtin_export sh c)
          else if is_one "unset"%string then mret (Some 0, foldl unset_var sh (drop 1 (args c)))
          else if is_one "env"%string then done (builtin_set sh false c)
          else if is_one "set"%string then done (builtin_set sh true c)
          else if is_one "jobs"%string then
            (if bool_decide (jobs sh = []) then say (MUsage (str "No background jobs")) else say_jobs (jobs sh));; mret (Some 0, sh)
          else if is_one "bg"%string then done (builtin_bg sh c)
          else if is_one "fg"%string then done (builtin_fg rounds sh c)
          else if is_one "kill"%string then done (builtin_kill sh c)
          else if is_one "wait"%string then done (builtin_wait rounds sh c)
          else mret (None, sh)
      end
  end.

(** ** Command lists *)

  (** The other builtins: whether the command is one, and the shell after it. *)
  Context (try_builtin : Shell -> SimpleCmd -> prog (bool * Shell)).

Definition has_stdout_redir (c : SimpleCmd) : bool :=
  existsb (fun r => (fd r =? 1) && match target r with Path _ => true | Fd _ => false end) (redirs c).

(** Runs commands that are not builtins of the shell itself. *)
Definition execute_external (rounds : nat) sh (g : CommandGroup) (cmds : list SimpleCmd) (text : list Z) : prog (Z * Shell) :=
  let detach := background g || match last cmds with Some c => has_stdout_redir c | None => false end in
  o ← spawn_pipeline sh cmds (negb detach);
  match o with
  | Err e => say (MError e);; mret (127, sh)
  | Ok running =>
      if detach then
        let '(i, sh) := alloc_job_id sh in
        say (MStarted i (g_pgid running) (g_last_pid running));;
        mret (0, sh <| jobs := jobs sh ++ [job_from_running i text Running running] |>)
      else
        r ← supervise_group rounds running;
        match r with
        | Exited status => mret (status, sh)
        | StoppedGroup rg =>
            let '(i, sh) := alloc_job_id sh in
            say (MStopped i (g_pgid rg) (g_last_pid rg));;
            mret (148, sh <| jobs := jobs sh ++ [job_from_running i text Stopped rg] |>)
        end
  end.

Definition execute_group (rounds : nat) sh (g : CommandGroup) (text : list Z) : prog (Z * Shell) :=
  let cmds := expand_cmd sh <$> pipeline g in
  match cmds with
  | [] => mret (0, sh)
  | [c] =>
      '(o, sh) ← run_special_builtin rounds sh c;
      match o with
      | Some status => mret (status, sh)
      | None =>
          '(ran, sh) ← try_builtin (sh <| last_status := 0 |>) c;
          if ran : bool then mret (last_status sh, sh) else execute_external rounds sh g cmds text
      end
  | _ => execute_external rounds sh g cmds text
  end.

Definition runs (prev : Connector) (status : Z) : bool :=
  match prev with Always => true | And => status =? 0 | Or => negb (status =? 0) end.

Fixpoint run_groups (rounds : nat) sh (gs : list CommandGroup) (prev : Connector) (status : Z) (text : list Z) : prog Shell :=
  match gs with
  | [] => mret sh
  | g :: gs =>
      if runs prev status then
        '(status, sh) ← execute_group rounds sh g text;
        let sh := sh <| last_status := status |> in
        if should_exit sh then mret sh else run_groups rounds sh gs (next g) status text
      else run_groups rounds sh gs (next g) status text
  end.

Definition interpret (rounds : nat) sh (line : list Z) : prog Shell :=
  match parse_line line with
  | Err e => say (MSyntax e);; mret (sh <| last_status := 2 |>)
  | Ok gs => run_groups rounds sh gs Always (last_status sh) line
  end.

(** ** Background jobs *)

(** One job of [poll_background_jobs]: what is left of it, and whether the screen changed. *)
Definition poll_job (j : BackgroundJob) : prog (option BackgroundJob * bool) :=
  '(done, stopped, continued, g) ← reap_group_nonblocking (running_from_job j);
  g ← (if stopped && negb done then stop_group g else mret g);
  let j' := j <| pids := g_pids g |> <| job_status := g_last_status g |> in
  if done || bool_decide (g_pids g = []) then say (MJob (str "Done") (id j));; mret (None, true)
  else if stopped : bool then
    let j' := j' <| state := Stopped |> in
    if bool_decide (state j = Stopped) then mret (Some j', false) else say (MJob (str "Stopped") (id j));; mret (Some j', true)
  else if continued : bool then
    let j' := j' <| state := Running |> in
    if bool_decide (state j = Stopped) then say (MJob (str "Continued") (id j));; mret (Some j', true) else mret (Some j', false)
  else mret (Some j', false).

Fixpoint poll_jobs (l : list BackgroundJob) (changed : bool) : prog (list BackgroundJob * bool) :=
  match l with
  | [] => mret ([], changed)
  | j :: l =>
      '(o, ch) ← poll_job j;
      '(l, changed) ← poll_jobs l (changed || ch);
      mret (match o with Some j => j :: l | None => l end, changed)
  end.
Definition poll_background_jobs sh : prog (bool * Shell) :=
  '(l, changed) ← poll_jobs (jobs sh) false; mret (changed, sh <| jobs := l |>).
End Exec.

(** ** Descriptors in a trace *)

(** The descriptors a call gives.  [open] fails with a negative error number,
    -1 or another. *)
Definition new_fds (e : event) : list Z :=
  match e.1 with
  | Open _ _ => if 0 <=? as_i32 (ret e.2) then [as_i32 (ret e.2)] else []
  | MakePipe => match stored e.2 with [r; w] => if ret e.2 =? 0 then [as_i32 r; as_i32 w] else [] | _ => [] end
  | _ => []
  end.

(** The descriptors held after a trace. *)
Definition held_step (s : gset Z) (e : event) : gset Z := match e.1 with Close f => s ∖ {[f]} | _ => s ∪ list_to_set (new_fds e) end.
Definition held (w : list event) : gset Z := foldl held_step ∅ w.

(** What the shell relies on: the descriptors that the system gives are not
    negative, distinct and not held, and no process has the number 0.  A failed
    [open] may answer any negative number, as the kernel's [sys_open] does. *)
Definition pid_ok (e : event) : Prop := match e.1 with Spawn _ _ _ _ _ _ _ _ => as_i32 (ret e.2) <> 0 | _ => True end.
Class Lawful (os : list event -> call -> answer) : Prop := {
  fds_distinct w c : NoDup (new_fds (c, os w c));
  fds_fresh w c f : f ∈ new_fds (c, os w c) -> 0 <= f /\ f ∉ held w;
  pids_nonzero w c : pid_ok (c, os w c) }.

(** What a part of a trace still owns of what it opened; closing anything else is an error. *)
Definition fd_step (own : option (gset Z)) (e : event) : option (gset Z) :=
  own ← own;
  match e.1 with
  | Close f => if bool_decide (f ∈ own) then Some (own ∖ {[f]}) else None
  | _ => Some (own ∪ list_to_set (new_fds e))
  end.
Definition fd_run (t : list event) : option (gset Z) := foldl fd_step (Some ∅) t.

(** The calls that start processes and make pipes. *)
Definition starts (e : event) : bool := match e.1 with Spawn _ _ _ _ _ _ _ _ | MakePipe => true | _ => false end.
Definition log (t : list event) : list event := filter (fun e => starts e = true) t.

Lemma fd_run_snoc t e : fd_run (t ++ [e]) = fd_step (fd_run t) e.
Proof. unfold fd_run. by rewrite foldl_app. Qed.

Lemma fd_run_held w t own : fd_run t = Some own -> own ⊆ held (w ++ t).
Proof.
  revert own. induction t as [|e t IH] using rev_ind; intros own H; [injection H as <-; apply empty_subseteq|].
  rewrite fd_run_snoc in H. unfold held. rewrite app_assoc, foldl_app. cbn. fold (held (w ++ t)).
  destruct (fd_run t) as [o|] eqn:Ho; [|done]. specialize (IH o eq_refl). unfold fd_step, held_step in *. cbn in H.
  destruct (e.1); try (injection H as <-; set_solver). case_bool_decide; [|done]. injection H as <-. set_solver.
Qed.

Section Logic.
  Context (os : list event -> call -> answer) (file_exists : list event -> path -> bool) `{!Lawful os} (w0 : list event).

(** [m], run where the trace since [w0] owns [own] and logged [l], returns, and [Q] holds of its result. *)
Definition ht {A} (own : gset Z) (l : list event) (m : prog A) (Q : A -> gset Z -> list event -> Prop) : Prop :=
  forall t, fd_run t = Some own -> log t = l -> exists a t' own', m (w0 ++ t) = Done a (w0 ++ t') /\ fd_run t' = Some own' /\ Q a own' (log t').

Lemma ht_ret {A} own l (a : A) (Q : A -> gset Z -> list event -> Prop) : Q a own l -> ht own l (mret a) Q.
Proof. intros HQ t Ht <-. by exists a, t, own. Qed.

Lemma ht_bind {A B} own l (m : prog A) (f : A -> prog B) R Q :
  ht own l m R -> (forall a own' l', R a own' l' -> ht own' l' (f a) Q) -> ht own l (m ≫= f) Q.
Proof.
  intros Hm Hf t Ht Hl. destruct (Hm t Ht Hl) as (a & t' & own' & E & Ht' & HR). destruct (Hf a own' (log t') HR t' Ht' eq_refl) as (b & t2 & own2 & E2 & H2 & HQ).
  exists b, t2, own2. split; [|done]. unfold mbind, prog_bind. by rewrite E.
Qed.

Lemma ht_weaken {A} own l (m : prog A) (Q R : A -> gset Z -> list event -> Prop) : ht own l m Q -> (forall a o k, Q a o k -> R a o k) -> ht own l m R.
Proof. intros Hm HQ t Ht Hl. destruct (Hm t Ht Hl) as (a & t' & own' & H1 & H2 & H3). exists a, t', own'. auto. Qed.

Lemma ht_sys own l c (Q : answer -> gset Z -> list event -> Prop) :
  match c with Close f => f ∈ own | _ => True end ->
  (forall a, NoDup (new_fds (c, a)) -> (forall f, f ∈ new_fds (c, a) -> 0 <= f /\ f ∉ own) -> pid_ok (c, a) ->
     Q a (match c with Close f => own ∖ {[f]} | _ => own ∪ list_to_set (new_fds (c, a)) end) (l ++ if starts (c, a) then [(c, a)] else [])) ->
  ht own l (sys os c) Q.
Proof.
  intros Hc HQ t Ht <-. pose proof (fds_distinct (w0 ++ t) c) as Hnd.
  pose proof (fds_fresh (w0 ++ t) c) as Hnew. pose proof (pids_nonzero (w0 ++ t) c) as Hpid. set (a := os (w0 ++ t) c) in *.
  exists a, (t ++ [(c, a)]). eexists. split; [unfold sys; cbn; by rewrite app_assoc|]. rewrite fd_run_snoc, Ht. split.
  - unfold fd_step. cbn -[new_fds]. instantiate (1 := match c with Close f => own ∖ {[f]} | _ => own ∪ list_to_set (new_fds (c, a)) end).
    destruct c; try done. by rewrite bool_decide_eq_true_2.
  - unfold log. rewrite filter_app. replace (filter (fun e => starts e = true) [(c, a)]) with (if starts (c, a) then [(c, a)] else []).
    + apply HQ; [done| |done]. intros f Hf. destruct (Hnew f Hf) as [H1 H2]. split; [done|]. intros Hin. apply H2. by apply (fd_run_held w0 t own Ht).
    + rewrite filter_cons. by destruct (starts (c, a)).
Qed.

(** A call that neither gives nor takes descriptors and is not logged. *)
Lemma ht_other own l c (Q : answer -> gset Z -> list event -> Prop) :
  (forall a, new_fds (c, a) = [] /\ starts (c, a) = false) -> match c with Close _ => False | _ => True end -> (forall a, Q a own l) -> ht own l (sys os c) Q.
Proof.
  intros Hn Hc HQ. apply ht_sys; [by destruct c|]. intros a _ _ _. destruct (Hn a) as [-> ->]. specialize (HQ a). rewrite app_nil_r.
  destruct c; try done; by rewrite list_to_set_nil, union_empty_r_L.
Qed.

Lemma ht_close own l f (Q : unit -> gset Z -> list event -> Prop) : f ∈ own -> Q () (own ∖ {[f]}) l -> ht own l (_ ← sys os (Close f); mret ()) Q.
Proof.
  intros Hf HQ. eapply ht_bind; [apply (ht_sys own l (Close f) (fun _ o k => o = own ∖ {[f]} /\ k = l)); [done|]|].
  - intros a _ _ _. by rewrite app_nil_r.
  - intros _ o k [-> ->]. by apply ht_ret.
Qed.

(** The descriptors in a list that may hold error numbers as well. *)
Definition real (l : list Z) : list Z := filter (fun f => 0 <= f) l.
Lemma elem_of_real f l : f ∈ real l <-> 0 <= f /\ f ∈ l.
Proof. apply list_elem_of_filter. Qed.
Lemma real_app l k : real (l ++ k) = real l ++ real k.
Proof. apply filter_app. Qed.
Lemma real_all l : (forall f, f ∈ l -> 0 <= f) -> real l = l.
Proof. intros H. induction l as [|f l IH]; [done|]. unfold real in *. rewrite filter_cons_True by (apply H; set_solver). rewrite IH; [done|]. intros g Hg. apply H. set_solver. Qed.

Lemma close_from_ht fds : forall seen own l, (forall f, f ∈ real fds -> f ∉ seen -> f ∈ own) -> (forall f, f ∈ seen -> 0 <= f -> f ∉ own) ->
  ht own l (close_from os seen fds) (fun _ o k => o = own ∖ list_to_set (real fds) /\ k = l).
Proof.
  induction fds as [|f fds IH]; intros seen own l Hown Hseen; cbn [close_from].
  { apply ht_ret. split; [set_solver|done]. }
  assert (forall own', own' = own ∖ list_to_set (real [f]) -> ht own' l (close_from os (seen ++ [f]) fds) (fun _ o k => o = own ∖ list_to_set (real (f :: fds)) /\ k = l)) as Hrest.
  { intros own' ->. change (f :: fds) with ([f] ++ fds). rewrite real_app. eapply ht_weaken; [apply (IH (seen ++ [f]))|intros _ o k [-> ->]; split; [set_solver|done]].
    - intros g Hg Hn. assert (g ∈ own) by (apply Hown; [rewrite elem_of_real in *; set_solver|set_solver]). rewrite elem_of_difference, elem_of_list_to_set, elem_of_real. set_solver.
    - intros g Hg H0. rewrite elem_of_difference, elem_of_list_to_set, elem_of_real. apply elem_of_app in Hg as [Hg|Hg]; [|set_solver]. intros [Ho _]. by apply (Hseen g). }
  assert (0 <= f -> list_to_set (real [f]) =@{gset Z} {[f]}) as Hre by (intros Hf; unfold real; rewrite filter_cons_True by done; set_solver).
  eapply (ht_bind _ _ _ _ (fun _ o k => o = own ∖ list_to_set (real [f]) /\ k = l)); [|intros _ o k [-> ->]; by apply Hrest].
  destruct (Z.ltb_spec f 0) as [Hf|Hf]; cbn [orb].
  - apply ht_ret. split; [|done]. unfold real. rewrite filter_cons_False by lia. set_solver.
  - rewrite Hre by done. case_bool_decide as Hin; [apply ht_ret; split; [specialize (Hseen f Hin Hf); set_solver|done]|].
    apply ht_close; [|done]. apply Hown; [apply elem_of_real; set_solver|done].
Qed.

Lemma close_unique_ht fds own l : (forall f, f ∈ real fds -> f ∈ own) -> ht own l (close_unique os fds) (fun _ o k => o = own ∖ list_to_set (real fds) /\ k = l).
Proof. intros H. apply close_from_ht; [intros f Hf _; by apply H|by intros f ?%elem_of_nil]. Qed.

(** *** One stage *)

Lemma open_redir_path_ht sh r p own l : ht own l (open_redir_path os sh r p) (fun o o' k => k = l /\
  match o with Ok f => (0 <= f -> f ∉ own) /\ o' = own ∪ list_to_set (real [f]) | Err _ => o' = own end).
Proof.
  unfold open_redir_path. set (c := Open _ _). eapply ht_bind; [apply (ht_sys own l c (fun a o k => k = l /\
    o = own ∪ list_to_set (real [as_i32 (ret a)]) /\ (0 <= as_i32 (ret a) -> as_i32 (ret a) ∉ own))); [done|]|].
  - intros a _ Hf _. cbn -[Z.leb real] in *. rewrite app_nil_r. split; [done|]. unfold real. rewrite filter_cons, filter_nil.
    destruct (Z.leb_spec 0 (as_i32 (ret a))) as [H0|H0]; [rewrite decide_True by done|rewrite decide_False by lia]; [|split; [done|lia]].
    split; [done|]. intros _. apply Hf. set_solver.
  - intros a o k (-> & -> & Hn). apply ht_ret. split; [done|]. destruct (Z.eqb_spec (ret a) USIZE_MAX) as [E|E]; [|done].
    rewrite E. change (as_i32 USIZE_MAX) with (-1). cbn. set_solver.
Qed.

Lemma apply_redirs_ht sh rs : forall s opened own l, (forall f, f ∈ real opened -> f ∉ own) ->
  ht (own ∪ list_to_set (real opened)) l (apply_redirs os sh rs s opened) (fun o o' k => k = l /\
    match o with Ok (s', op') => o' = own ∪ list_to_set (real op') /\ (forall f, f ∈ real op' -> f ∉ own) /\ (rs = [] -> s' = s) | Err _ => o' = own end).
Proof.
  assert (forall opened (own : gset Z) l (e : ExecError), (forall f, f ∈ real opened -> f ∉ own) ->
    ht (own ∪ list_to_set (real opened)) l (close_unique os opened;; mret (Err e)) (fun (o : result (Std * list Z) ExecError) o' k => k = l /\
      match o with Ok _ => False | Err _ => o' = own end)) as Hfail.
  { intros opened own l e Hop. eapply ht_bind; [apply close_unique_ht; intros f Hf; set_solver|].
    intros _ o k [-> ->]. apply ht_ret. split; [done|]. apply set_eq. intros f. specialize (Hop f). set_solver. }
  induction rs as [|r rs IH]; intros s opened own l Hop; cbn [apply_redirs]; [apply ht_ret; done|]. destruct (target r) as [p|t].
  - eapply ht_bind; [apply open_redir_path_ht|]. intros [f|e] o k [-> H]; cbn beta iota.
    + destruct H as (Hn & ->). rewrite <- (assoc_L (∪)), <- list_to_set_app_L, <- real_app.
      assert (forall g, g ∈ real (opened ++ [f]) -> g ∉ own) as Hop'.
      { intros g Hg. rewrite real_app, elem_of_app in Hg. destruct Hg as [Hg|Hg]; [by apply Hop|]. apply elem_of_real in Hg as [H0 Hg]. assert (g = f) as -> by set_solver. set_solver. }
      destruct (set_std (fd r) f s) as [s'|].
      * eapply ht_weaken; [by apply IH|]. intros [[s2 op2]|e2] o k [-> H2]; [|done]. split; [done|]. by destruct H2 as (? & ? & _).
      * eapply ht_weaken; [by apply Hfail|]. by intros [[s2 op2]|e2] o k [-> H2].
    + rewrite H. eapply ht_weaken; [by apply Hfail|]. by intros [[s2 op2]|e2] o' k' [-> H2].
  - destruct (dup_std (fd r) t s) as [s'|].
    + eapply ht_weaken; [by apply IH|]. intros [[s2 op2]|e2] o k [-> H2]; [|done]. split; [done|]. by destruct H2 as (? & ? & _).
    + eapply ht_weaken; [by apply Hfail|]. by intros [[s2 op2]|e2] o' k' [-> H2].
Qed.

(** The processes started and the pipes made in a log. *)
Definition spawned (l : list event) : list event := filter (fun e => match e.1 with MakePipe => false | _ => true end = true) l.
Definition made (l : list event) : list (Z * Z) :=
  l ≫= fun e => match e.1, stored e.2 with MakePipe, [r; w] => [(r, w)] | _, _ => [] end.

(** An event that starts a process with the standard descriptors [s] in group [g]. *)
Definition starts_with_std (e : event) (s : Std) (g : Z) (foreground : bool) : Prop :=
  as_i32 (ret e.2) <> 0 /\ exists exe argv envp, e.1 = Spawn exe (sin s) (sout s) (serr s) argv envp g foreground.

Lemma spawn_ht sh p s arguments g foreground own l :
  ht own l (spawn os sh p (sin s) (sout s) (serr s) arguments g foreground) (fun o own' k => own' = own /\
    exists e, k = l ++ [e] /\ starts_with_std e s g foreground /\ o = if ret e.2 =? USIZE_MAX then None else Some (as_i32 (ret e.2))).
Proof.
  unfold spawn. set (c := Spawn _ _ _ _ _ _ _ _). eapply ht_bind; [apply (ht_sys own l c (fun a o k => o = own /\ k = l ++ [(c, a)] /\ as_i32 (ret a) <> 0)); [done|]|].
  - intros a _ _ Hpid. split; [|done]. cbn. set_solver.
  - intros a o k (-> & -> & Hpid). apply ht_ret. split; [done|]. exists (c, a). split; [done|]. split; [split; [done|by eexists _, _, _]|done].
Qed.

Lemma find_exe_ht sh n own l : ht own l (find_exe file_exists sh n) (fun _ o k => o = own /\ k = l).
Proof. intros t Ht Hl. by exists (find_executable (file_exists (w0 ++ t)) sh n), t, own. Qed.

Lemma spawn_stage_ht sh c i o e g foreground own l : args c <> [] ->
  ht own l (spawn_stage os file_exists sh c i o e g foreground) (fun r own' k => own' = own /\
    match r with
    | Ok p => exists ev s, k = l ++ [ev] /\ starts_with_std ev s g foreground /\ ret ev.2 <> USIZE_MAX /\ (redirs c = [] -> s = mkStd i o e) /\ p = as_i32 (ret ev.2)
    | Err _ => made k = made l
    end).
Proof.
  intros Ha. unfold spawn_stage. destruct (args c) as [|a0 rest] eqn:Eargs; [done|]. cbn [head need].
  apply (ht_bind _ _ _ _ (fun a o k => o = own /\ k = l /\ a = a0)); [by apply ht_ret|]. intros _ ? ? (-> & -> & ->).
  eapply (ht_bind _ _ _ _ (fun _ o k => o = own /\ k = l)).
  { case_bool_decide; [by apply ht_ret|]. eapply ht_bind; [apply find_exe_ht|]. intros r ? ? [-> ->]. by apply ht_ret. }
  intros [[full ex]|er] ? ? [-> ->]; [|by apply ht_ret].
  replace own with (own ∪ list_to_set (real [])) at 1 by set_solver.
  eapply ht_bind; [apply apply_redirs_ht; by intros f ?%elem_of_nil|]. intros [[s opened]|er] o' k [-> H]; [|subst o'; by apply ht_ret].
  destruct H as (-> & Hop & Hs). eapply ht_bind; [apply spawn_ht|]. intros p o' k (-> & ev & -> & Hev & Hp).
  eapply ht_bind; [apply close_unique_ht; intros f Hf; set_solver|]. intros _ o' k [-> ->]. apply ht_ret. split.
  { apply set_eq. intros f. specialize (Hop f). set_solver. }
  destruct p as [p|].
  - exists ev, s. destruct (Z.eqb_spec (ret ev.2) USIZE_MAX); [done|]. injection Hp as ->. by split_and!.
  - destruct Hev as (_ & ? & ? & ? & Hev). unfold made. rewrite bind_app. cbn. rewrite Hev. cbn. by rewrite app_nil_r.
Qed.

(** *** Pipes *)

Definition ends (pipes : list (Z * Z)) : list Z := pipes ≫= fun p => [as_i32 p.1; as_i32 p.2].
Definition pipes_ok (pipes : list (Z * Z)) (own : gset Z) : Prop := NoDup (ends pipes) /\ (forall f, f ∈ ends pipes -> 0 <= f) /\ own = list_to_set (ends pipes).

Lemma made_app l k : made (l ++ k) = made l ++ made k.
Proof. unfold made. apply bind_app. Qed.
Lemma spawned_app l k : spawned (l ++ k) = spawned l ++ spawned k.
Proof. unfold spawned. apply filter_app. Qed.

Lemma make_pipe_ht own l : ht own l (make_pipe os) (fun o own' k => spawned k = spawned l /\
  match o with
  | Ok (r, w) => made k = made l ++ [(r, w)] /\ NoDup [as_i32 r; as_i32 w] /\ (forall f, f ∈ [as_i32 r; as_i32 w] -> 0 <= f /\ f ∉ own) /\
      own' = own ∪ list_to_set [as_i32 r; as_i32 w]
  | Err _ => own' = own
  end).
Proof.
  unfold make_pipe. eapply ht_bind; [apply (ht_sys own l MakePipe (fun a o k => k = l ++ [(MakePipe, a)] /\ NoDup (new_fds (MakePipe, a)) /\
    (forall f, f ∈ new_fds (MakePipe, a) -> 0 <= f /\ f ∉ own) /\ o = own ∪ list_to_set (new_fds (MakePipe, a)))); [done|]; by intros a H1 H2 _|].
  intros a o k (-> & H1 & H2 & ->). apply ht_ret. rewrite spawned_app, made_app. split; [by rewrite app_nil_r|].
  unfold new_fds in *. cbn [fst snd] in *. unfold made. cbn. destruct (stored a) as [|r [|w [|? ?]]]; cbn; try set_solver.
  destruct (ret a =? 0); [|set_solver]. split; [done|]. split; [done|]. split; [done|]. done.
Qed.

Lemma close_pipes_ht pipes : forall own l, NoDup (ends pipes) -> (forall f, f ∈ ends pipes -> 0 <= f /\ f ∈ own) ->
  ht own l (close_pipes os pipes) (fun _ o k => o = own ∖ list_to_set (ends pipes) /\ k = l).
Proof.
  induction pipes as [|[r w] pipes IH]; intros own l Hnd Hf; cbn [close_pipes]; [apply ht_ret; split; [set_solver|done]|].
  change (ends ((r, w) :: pipes)) with ([as_i32 r; as_i32 w] ++ ends pipes) in *. apply NoDup_app in Hnd as (_ & Hd & Hnd).
  eapply ht_bind; [apply close_unique_ht; intros f [_ H]%elem_of_real; apply Hf; set_solver|]. intros _ o k [-> ->].
  rewrite real_all by (intros f H; apply Hf; set_solver).
  eapply ht_weaken; [apply IH; [done|]|intros _ o k [-> ->]; split; [set_solver|done]]. intros f H. destruct (Hf f) as [H0 Ho]; [set_solver|]. split; [done|].
  specialize (Hd f). set_solver.
Qed.

Lemma close_all_ht pipes own l : pipes_ok pipes own -> ht own l (close_pipes os pipes) (fun _ o k => o = ∅ /\ k = l).
Proof.
  intros (Hnd & Hpos & ->). eapply ht_weaken; [apply close_pipes_ht; [done|]|intros _ o k [-> ->]; split; [set_solver|done]].
  intros f Hf. split; [by apply Hpos|set_solver].
Qed.

Lemma make_pipes_ht n : forall pipes own l, pipes_ok pipes own -> made l = pipes ->
  ht own l (make_pipes os n pipes) (fun o own' k => spawned k = spawned l /\
    match o with Ok pipes' => pipes_ok pipes' own' /\ made k = pipes' /\ length pipes' = (length pipes + n)%nat | Err _ => own' = ∅ end).
Proof.
  induction n as [|n IH]; intros pipes own l Hp Hm; cbn [make_pipes].
  - apply ht_ret. split; [done|]. split; [done|]. split; [done|]. lia.
  - eapply ht_bind; [apply make_pipe_ht|]. intros [[r w]|e] o k [Hs H]; cbn beta iota.
    + destruct H as (Hk & Hnd & Hf & ->). destruct Hp as (H1 & H2 & ->). eapply ht_weaken; [apply IH|].
      * assert (ends (pipes ++ [(r, w)]) = ends pipes ++ [as_i32 r; as_i32 w]) as E by (unfold ends; by rewrite bind_app). split; [|split].
        -- rewrite E. apply NoDup_app. split; [done|]. split; [|done]. intros f Hfe Hfr. destruct (Hf f Hfr) as [_ Hn]. apply Hn. set_solver.
        -- intros f. rewrite E, elem_of_app. intros [H|H]; [by apply H2|by apply Hf].
        -- rewrite E. by rewrite list_to_set_app_L.
      * by rewrite Hk, Hm.
      * intros [ps|e] o k' [Hs' H']; rewrite Hs', Hs; [|done]. split; [done|]. destruct H' as (? & ? & Hlen). split_and!; try done. rewrite length_app in Hlen. cbn in Hlen. lia.
    + subst o. eapply ht_bind; [by apply close_all_ht|]. intros _ o k' [-> ->]. by apply ht_ret.
Qed.

(** *** Pipelines *)

Lemma kill_all_ht pl : forall own l, ht own l (kill_all os pl) (fun _ o k => o = own /\ k = l).
Proof.
  induction pl as [|p pl IH]; intros own l; cbn [kill_all]; [by apply ht_ret|].
  eapply ht_bind; [apply (ht_other own l _ (fun _ o k => o = own /\ k = l)); done|]. intros _ o k [-> ->]. apply IH.
Qed.

(** The standard descriptors of stage [i] of [n] before its redirections. *)
Definition stage_std (pipes : list (Z * Z)) (n i : nat) : Std :=
  mkStd (match i with O => 0 | S j => default 0 (as_i32 ∘ fst <$> pipes !! j) end)
        (if bool_decide (S i = n) then 1 else default 0 (as_i32 ∘ snd <$> pipes !! i)) 2.

(** Stages from number [i] on were started as [evs]. *)
Definition wired (pipes : list (Z * Z)) (n i : nat) (g : Z) (foreground : bool) (cmds : list SimpleCmd) (evs : list event) : Prop :=
  length evs = length cmds /\ forall j c, cmds !! j = Some c -> exists ev s, evs !! j = Some ev /\
    starts_with_std ev s (if bool_decide (i + j = 0)%nat then 0 else g) foreground /\ ret ev.2 <> USIZE_MAX /\ (redirs c = [] -> s = stage_std pipes n (i + j)).

Definition pid_of (e : event) : Z := as_i32 (ret e.2).

Lemma wired_cons pipes n i g foreground c cmds ev evs s : starts_with_std ev s (if bool_decide (i = 0)%nat then 0 else g) foreground -> ret ev.2 <> USIZE_MAX ->
  (redirs c = [] -> s = stage_std pipes n i) -> wired pipes n (S i) g foreground cmds evs -> wired pipes n i g foreground (c :: cmds) (ev :: evs).
Proof.
  intros Hev Hst Hs [Hl Hw]. split; [cbn; by rewrite Hl|]. intros [|j] c' Hc.
  - injection Hc as <-. exists ev, s. rewrite Nat.add_0_r. done.
  - destruct (Hw j c' Hc) as (ev' & s' & H1 & H2 & H3). exists ev', s'. replace (i + S j)%nat with (S i + j)%nat by lia. done.
Qed.

Lemma need_get_ht {A} (l : list A) i own k : (i < length l)%nat -> exists x, l !! i = Some x /\ ht own k (need (get l (Z.of_nat i))) (fun y o k' => y = x /\ o = own /\ k' = k).
Proof.
  intros Hi. apply lookup_lt_is_Some in Hi as [x Hx]. exists x. split; [done|]. unfold get. rewrite (proj2 (Z.ltb_ge _ _)), Nat2Z.id, Hx by lia. by apply ht_ret.
Qed.

Lemma base_in_ht pipes n i own l : (i < n)%nat -> length pipes = (n - 1)%nat ->
  ht own l (if Z.of_nat i =? 0 then mret 0 else p ← need (get pipes (Z.of_nat i - 1)); mret (as_i32 p.1))
    (fun b o k => b = sin (stage_std pipes n i) /\ o = own /\ k = l).
Proof.
  intros Hi Hp. destruct i as [|i]; [by apply ht_ret|]. rewrite (proj2 (Z.eqb_neq _ _)) by lia. replace (Z.of_nat (S i) - 1) with (Z.of_nat i) by lia.
  destruct (need_get_ht pipes i own l) as (x & Hx & Hht); [lia|]. eapply ht_bind; [exact Hht|]. intros y o k (-> & -> & ->). apply ht_ret. cbn. by rewrite Hx.
Qed.

Lemma base_out_ht pipes n i own l : (i < n)%nat -> length pipes = (n - 1)%nat ->
  ht own l (if Z.of_nat i + 1 =? Z.of_nat n then mret 1 else p ← need (get pipes (Z.of_nat i)); mret (as_i32 p.2))
    (fun b o k => b = sout (stage_std pipes n i) /\ o = own /\ k = l).
Proof.
  intros Hi Hp. cbn [sout stage_std]. destruct (Z.eqb_spec (Z.of_nat i + 1) (Z.of_nat n)) as [E|E].
  - apply ht_ret. by rewrite bool_decide_eq_true_2 by lia.
  - destruct (need_get_ht pipes i own l) as (x & Hx & Hht); [lia|]. eapply ht_bind; [exact Hht|]. intros y o k (-> & -> & ->). apply ht_ret.
    rewrite bool_decide_eq_false_2 by lia. cbn. by rewrite Hx.
Qed.

Lemma stage_event_logged l ev s g foreground : starts_with_std ev s g foreground -> made (l ++ [ev]) = made l /\ spawned (l ++ [ev]) = spawned l ++ [ev].
Proof.
  intros (_ & ? & ? & ? & E). rewrite made_app, spawned_app. destruct ev as [c a]. cbn in E. subst c. split; [apply app_nil_r|done].
Qed.

Lemma spawn_stages_ht sh n pipes foreground cmds : Forall (fun c => args c <> []) cmds -> length pipes = (n - 1)%nat ->
  forall i pl own l, pipes_ok pipes own -> (i + length cmds = n)%nat -> length pl = i -> Forall (fun p => p <> 0) pl ->
  ht own l (spawn_stages os file_exists sh (Z.of_nat n) (Z.of_nat i) cmds pipes pl (default 0 (head pl)) foreground) (fun o own' k =>
    match o with
    | Ok (g, pl') => own' = own /\ made k = made l /\ exists evs, spawned k = spawned l ++ evs /\ pl' = pl ++ (pid_of <$> evs) /\
        g = default 0 (head pl') /\ wired pipes n i g foreground cmds evs
    | Err _ => own' = ∅
    end).
Proof.
  intros Hargs Hlen. induction Hargs as [|c cmds Hc Hcs IH]; intros i pl own l Hp Hn Hpl Hnz; cbn [spawn_stages].
  { apply ht_ret. split; [done|]. split; [done|]. exists []. rewrite !app_nil_r. done. }
  cbn in Hn. eapply ht_bind; [apply (base_in_ht pipes n); [lia|done]|]. intros bi o k (-> & -> & ->).
  eapply ht_bind; [apply (base_out_ht pipes n); [lia|done]|]. intros bo o k (-> & -> & ->).
  eapply ht_bind; [by apply spawn_stage_ht|]. intros [p|e] o k [-> H]; cbn beta iota.
  - destruct H as (ev & s & -> & Hev & Hst & Hs & ->). destruct (stage_event_logged l ev s _ _ Hev) as [Hm Hsp]. pose proof Hev as [Hp0 _].
    replace (Z.of_nat i + 1) with (Z.of_nat (S i)) by lia.
    assert ((if default 0 (head pl) =? 0 then as_i32 (ret ev.2) else default 0 (head pl)) = default 0 (head (pl ++ [pid_of ev]))) as Eg.
    { destruct pl as [|q pl]; [done|]. apply Forall_cons in Hnz as [Hq _]. cbn. by rewrite (proj2 (Z.eqb_neq _ _) Hq). }
    change (as_i32 (ret ev.2)) with (pid_of ev) at 1. rewrite Eg. eapply ht_weaken; [apply (IH (S i)); [done|lia|rewrite length_app; cbn; lia|]|].
    + apply Forall_app. split; [done|]. by constructor.
    + intros [[g pl']|e] o k; [|done]. intros (-> & Hk & evs & Hse & -> & Hg & Hw). rewrite Hk, Hm, Hse, Hsp. split; [done|]. split; [done|].
      exists (ev :: evs). rewrite <- !app_assoc. split; [done|]. split; [done|]. rewrite <- app_assoc in Hg. split; [done|].
      apply (wired_cons _ _ _ _ _ _ _ _ _ s); [|done|done|done]. destruct pl as [|q pl]; cbn in Hpl; subst i; [done|]. cbn in Hg. by subst g.
  - eapply ht_bind; [apply kill_all_ht|]. intros _ o k' [-> ->]. eapply ht_bind; [by apply close_all_ht|]. intros _ o k' [-> ->]. by apply ht_ret.
Qed.

Lemma spawn_pipeline_ht sh cmds foreground l : Forall (fun c => args c <> []) cmds -> made l = [] -> spawned l = [] ->
  ht ∅ l (spawn_pipeline os file_exists sh cmds foreground) (fun o own' k => own' = ∅ /\
    match o with
    | Ok g => length (made k) = (length cmds - 1)%nat /\ g_pids g = pid_of <$> spawned k /\ head (g_pids g) = Some (g_pgid g) /\
        last (g_pids g) = Some (g_last_pid g) /\ g_last_status g = 0 /\
        wired (made k) (length cmds) 0 (g_pgid g) foreground cmds (spawned k)
    | Err _ => True
    end).
Proof.
  intros Hargs Hm Hs. unfold spawn_pipeline. case_bool_decide as Hn; [by apply ht_ret|].
  eapply ht_bind; [apply (make_pipes_ht (length cmds - 1) [] ∅ l); [split; [constructor|split; [by intros f ?%elem_of_nil|done]]|done]|].
  intros [pipes|e] o k [Hsk H]; [|subst o; by apply ht_ret]. destruct H as (Hp & Hk & Hlen). cbn in Hlen.
  eapply ht_bind; [apply (spawn_stages_ht sh (length cmds) pipes foreground cmds Hargs Hlen 0 [] o k); try done|].
  intros [[g pl]|e] o' k' H; [|subst o'; by apply ht_ret]. destruct H as (-> & Hmk & evs & Hse & -> & Hg & Hw).
  eapply ht_bind; [by apply close_all_ht|]. intros _ o' k2 [-> ->]. cbn [app] in *. rewrite Hsk, Hs in Hse. cbn in Hse.
  destruct cmds as [|c cmds]; [done|]. pose proof Hw as [Hl _]. destruct evs as [|ev evs]; [done|].
  destruct (last (pid_of <$> ev :: evs)) as [p|] eqn:Hlast; [|by apply last_None in Hlast].
  eapply (ht_bind _ _ _ _ (fun q o k => q = p /\ o = ∅ /\ k = k')); [by apply ht_ret|]. intros q o' k2 (-> & -> & ->). apply ht_ret. split; [done|].
  rewrite Hse, Hmk, Hk. cbn [g_pids g_pgid g_last_pid g_last_status]. split_and!; try done. by rewrite Hg.
Qed.
End Logic.

(** C35. On every system that gives fresh descriptors and answers a failed
    [open] with any negative number, starting a pipeline returns on every path,
    and the descriptors that were opened for it, pipes and files of
    redirections, are exactly those that were closed, each once; nothing else
    is closed. *)
Theorem pipeline_fds_balanced os file_exists `{!Lawful os} sh cmds foreground w : Forall (fun c => args c <> []) cmds ->
  exists r t, spawn_pipeline os file_exists sh cmds foreground w = Done r (w ++ t) /\ fd_run t = Some ∅.
Proof.
  intros H. destruct (spawn_pipeline_ht os file_exists w sh cmds foreground [] H eq_refl eq_refl [] eq_refl eq_refl) as (r & t & own & E & Ht & -> & _).
  rewrite app_nil_r in E. by exists r, t.
Qed.

(** C37. On every system that gives fresh descriptors a pipeline that was started has one process per
    command, in order, each of them started.  A stage without redirections
    reads the pipe its predecessor writes, or the shell's input if it is the
    first, and writes the pipe its successor reads, or the shell's output if it
    is the last.  Every process after the first is put into the group of the
    first, and the last process is the one whose status counts. *)
Theorem pipeline_wired os file_exists `{!Lawful os} sh cmds foreground w w' g : Forall (fun c => args c <> []) cmds ->
  spawn_pipeline os file_exists sh cmds foreground w = Done (Ok g) w' ->
  exists t pipes, w' = w ++ t /\ pipes = made (log t) /\ length pipes = (length cmds - 1)%nat /\
    g_pids g = pid_of <$> spawned (log t) /\ head (g_pids g) = Some (g_pgid g) /\ last (g_pids g) = Some (g_last_pid g) /\
    wired pipes (length cmds) 0 (g_pgid g) foreground cmds (spawned (log t)).
Proof.
  intros H E. destruct (spawn_pipeline_ht os file_exists w sh cmds foreground [] H eq_refl eq_refl [] eq_refl eq_refl) as (r & t & own & E' & Ht & _ & HQ).
  rewrite app_nil_r in E'. rewrite E in E'. injection E' as <- ->. exists t, (made (log t)). naive_solver.
Qed.

(** ** Wait statuses *)

Lemma land_7f a : Z.land a 0x7f = a mod 128.
Proof. apply (Z.land_ones a 7). lia. Qed.
Lemma land_ff a : Z.land a 0xff = a mod 256.
Proof. apply (Z.land_ones a 8). lia. Qed.
Lemma shiftl_8 a : Z.shiftl a 8 = a * 256.
Proof. by rewrite Z.shiftl_mul_pow2. Qed.
Lemma shiftr_8 a : Z.shiftr a 8 = a / 256.
Proof. by rewrite Z.shiftr_div_pow2. Qed.

Definition stop_decoded (sig : Z) : bool :=
  let status := stop_status sig in
  wifstopped status && (wexitstatus status =? sig) && negb (wifcontinued status) && negb (wifexited status) && negb (wifsignaled status).

Lemma stop_decodes sig : 0 <= sig < 128 -> stop_decoded sig = true.
Proof.
  intros H. assert (forallb stop_decoded (seqZ 0 128) = true) as Hall by (by vm_compute). rewrite forallb_forall in Hall. apply Hall.
  apply list_elem_of_In, elem_of_seqZ. lia.
Qed.

(** The shell reads from a wait status what the kernel wrote into it: the
    low byte of an exit code, 128 plus the signal that killed a process, and
    the signal that stopped it; no status is taken for one of another kind. *)
Theorem statuses_decoded code sig : 0 < sig < 127 ->
  wait_status_exit_code (exit_status code 0) = code mod 256 /\ wait_status_exit_code (exit_status code sig) = 128 + sig /\
  (wifstopped (exit_status code 0) || wifcontinued (exit_status code 0) || wifstopped (exit_status code sig) || wifcontinued (exit_status code sig)) = false /\
  stop_decoded sig = true /\ wifcontinued 0xffff = true /\ wifstopped 0xffff = false.
Proof.
  intros Hs. assert (exit_status code 0 = code mod 256 * 256) as E0 by (unfold exit_status; cbn; by rewrite land_ff, shiftl_8).
  assert (exit_status code sig = sig) as Es.
  { unfold exit_status. rewrite (proj2 (Z.eqb_neq _ _)) by lia. cbn. rewrite land_7f. apply Z.mod_small. lia. }
  rewrite E0, Es. unfold wait_status_exit_code, wifexited, wexitstatus, wifsignaled, wtermsig, wifstopped, wifcontinued.
  rewrite !land_7f, !land_ff, shiftr_8. replace (code mod 256 * 256 mod 128) with 0 by mlia. replace (code mod 256 * 256 mod 256) with 0 by mlia.
  rewrite (Z.mod_small sig 128), (Z.mod_small sig 256) by lia. rewrite !(proj2 (Z.eqb_neq sig _)) by lia.
  split; [rewrite Z.div_mul by lia; change (0 =? 0) with true; by rewrite Z.mod_mod|]. split; [done|]. split; [|split; [apply stop_decodes; lia|done]].
  rewrite (proj2 (Z.eqb_neq (code mod 256 * 256) _)) by mlia. done.
Qed.

(** ** Command lists *)

(** The grammar of lists: pipelines joined by [&&] and [||], which group to
    the left, and sequences of those. *)
Record Job : Type := mkJobCmd { job_pipeline : list SimpleCmd; job_background : bool }.
Inductive andor : Type := One (j : Job) | AndThen (e : andor) (j : Job) | OrElse (e : andor) (j : Job).

Definition group_of (j : Job) (nx : Connector) : CommandGroup := mkGroup (job_pipeline j) (job_background j) nx.
Fixpoint flatten (e : andor) (nx : Connector) : list CommandGroup :=
  match e with One j => [group_of j nx] | AndThen e j => flatten e And ++ [group_of j nx] | OrElse e j => flatten e Or ++ [group_of j nx] end.
Definition flatten_all (es : list andor) : list CommandGroup := es ≫= fun e => flatten e Always.

Definition job_of (g : CommandGroup) : Job := mkJobCmd (pipeline g) (background g).

Lemma group_of_job g : group_of (job_of g) (next g) = g.
Proof. by destruct g. Qed.

Lemma flatten_last e nx : exists g, last (flatten e nx) = Some g /\ next g = nx.
Proof. destruct e; cbn [flatten]; rewrite ?last_snoc; by eexists. Qed.

Lemma flatten_from gs : forall e nx, (forall g, last (flatten e nx ++ gs) = Some g -> next g = Always) -> exists es, flatten e nx ++ gs = flatten_all es.
Proof.
  induction gs as [|g gs IH]; intros e nx Hl.
  - rewrite app_nil_r in *. destruct (flatten_last e nx) as (g & Hg & <-). rewrite (Hl g Hg). exists [e]. unfold flatten_all. cbn. by rewrite app_nil_r.
  - destruct nx.
    + destruct (IH (One (job_of g)) (next g)) as [es Hes].
      { cbn [flatten]. rewrite group_of_job. intros g' Hg'. apply Hl. rewrite last_app. cbn [app] in Hg'. by rewrite Hg'. }
      exists (e :: es). unfold flatten_all. rewrite bind_cons. fold (flatten_all es). rewrite <- Hes. cbn [flatten app]. by rewrite group_of_job.
    + destruct (IH (AndThen e (job_of g)) (next g)) as [es Hes]; [|exists es; rewrite <- Hes];
        cbn [flatten]; rewrite group_of_job, <- app_assoc; done.
    + destruct (IH (OrElse e (job_of g)) (next g)) as [es Hes]; [|exists es; rewrite <- Hes];
        cbn [flatten]; rewrite group_of_job, <- app_assoc; done.
Qed.

Lemma flatten_covers gs : wf_line gs -> exists es, gs = flatten_all es.
Proof.
  intros [_ Hl]. destruct gs as [|g gs]; [by exists []|]. destruct (flatten_from gs (One (job_of g)) (next g)) as [es Hes].
  - cbn [flatten app]. by rewrite group_of_job.
  - cbn [flatten app] in Hes. rewrite group_of_job in Hes. by exists es.
Qed.

Section Lists.
  Context (os : list event -> call -> answer) (file_exists : list event -> path -> bool)
    (try_builtin : Shell -> SimpleCmd -> prog (bool * Shell)) (rounds : nat) (text : list Z).
  Local Notation execute_group := (execute_group os file_exists try_builtin rounds).
  Local Notation run_groups := (run_groups os file_exists try_builtin rounds).

(** Running one pipeline leaves its status in the shell. *)
Definition run_job sh (j : Job) : prog (Z * Shell) :=
  '(status, sh) ← execute_group sh (group_of j Always) text; mret (status, sh <| last_status := status |>).
(** Continues unless the shell is to exit. *)
Definition unless_exit (m : prog (Z * Shell)) (f : Z -> Shell -> prog (Z * Shell)) : prog (Z * Shell) :=
  '(status, sh) ← m; if should_exit sh then mret (status, sh) else f status sh.

Fixpoint eval sh (e : andor) : prog (Z * Shell) :=
  match e with
  | One j => run_job sh j
  | AndThen e j => unless_exit (eval sh e) (fun status sh => if status =? 0 then run_job sh j else mret (status, sh))
  | OrElse e j => unless_exit (eval sh e) (fun status sh => if status =? 0 then mret (status, sh) else run_job sh j)
  end.
Fixpoint eval_all sh (es : list andor) : prog Shell :=
  match es with
  | [] => mret sh
  | e :: es => '(status, sh) ← eval sh e; if should_exit sh then mret sh else eval_all sh es
  end.

Lemma run_groups_one sh j nx gs prev status w : runs prev status = true ->
  run_groups sh (group_of j nx :: gs) prev status text w =
  ('(st, sh') ← run_job sh j; if should_exit sh' then mret sh' else run_groups sh' gs nx st text) w.
Proof.
  intros Hr. cbn [ShellExec.run_groups]. rewrite Hr. unfold run_job, mbind, prog_bind.
  change (execute_group sh (group_of j nx) text w) with (execute_group sh (group_of j Always) text w).
  by destruct (execute_group sh (group_of j Always) text w) as [[st sh']| |].
Qed.

Lemma run_groups_flatten e : forall sh nx gs status w,
  run_groups sh (flatten e nx ++ gs) Always status text w = ('(st, sh') ← eval sh e; if should_exit sh' then mret sh' else run_groups sh' gs nx st text) w.
Proof.
  assert (forall (m : prog (Z * Shell)) (f : Z -> Shell -> prog (Z * Shell)) (k : Z -> Shell -> prog Shell) w,
    ('(st, sh') ← m; if should_exit sh' then mret sh' else '(st2, sh2) ← f st sh'; if should_exit sh2 then mret sh2 else k st2 sh2) w =
    ('(st, sh') ← unless_exit m f; if should_exit sh' then mret sh' else k st sh') w) as Hassoc.
  { intros m f k w. unfold unless_exit, mbind, prog_bind. destruct (m w) as [[st sh'] w'| |]; [|done|done]. destruct (should_exit sh') eqn:E; [|done].
    unfold mret, prog_ret. by rewrite E. }
  assert (forall (m : prog (Z * Shell)) (f g : Z -> Shell -> prog Shell) w, (forall st sh' w', should_exit sh' = false -> f st sh' w' = g st sh' w') ->
    ('(st, sh') ← m; if should_exit sh' then mret sh' else f st sh') w = ('(st, sh') ← m; if should_exit sh' then mret sh' else g st sh') w) as Hext.
  { intros m f g w H. unfold mbind, prog_bind. destruct (m w) as [[st sh'] w'| |]; [|done|done]. destruct (should_exit sh') eqn:E; [done|by apply H]. }
  induction e as [j|e IH j|e IH j]; intros sh nx gs status w; cbn [flatten eval].
  - by apply run_groups_one.
  - rewrite <- app_assoc, IH, <- Hassoc. apply Hext. intros st sh' w' Hx. cbn [app]. destruct (Z.eqb_spec st 0) as [->|Hne]; [by apply run_groups_one|].
    cbn [ShellExec.run_groups runs]. rewrite (proj2 (Z.eqb_neq _ _) Hne). unfold mbind, prog_bind, mret, prog_ret. by rewrite Hx.
  - rewrite <- app_assoc, IH, <- Hassoc. apply Hext. intros st sh' w' Hx. cbn [app]. destruct (Z.eqb_spec st 0) as [->|Hne].
    + cbn [ShellExec.run_groups runs]. unfold mbind, prog_bind, mret, prog_ret. by rewrite Hx.
    + apply run_groups_one. cbn. by rewrite (proj2 (Z.eqb_neq _ _) Hne).
Qed.

Lemma run_groups_all es : forall sh status w, run_groups sh (flatten_all es) Always status text w = eval_all sh es w.
Proof.
  induction es as [|e es IH]; intros sh status w; [done|]. unfold flatten_all. rewrite bind_cons. fold (flatten_all es). rewrite run_groups_flatten.
  cbn [eval_all]. unfold mbind, prog_bind. destruct (eval sh e w) as [[st sh'] w'| |]; [|done|done]. destruct (should_exit sh'); [done|]. apply IH.
Qed.
End Lists.

(** C36. A line that parses runs as its grammar says: it is a sequence of lists
    in which [&&] and [||] group to the left, the right side of [&&] runs
    exactly when the left ended with status 0 and that of [||] exactly when it
    did not, and nothing runs once the shell is to exit. *)
Theorem interpret_exact os file_exists try_builtin rounds sh line gs : parse_line line = Ok gs ->
  exists es, gs = flatten_all es /\ forall w, interpret os file_exists try_builtin rounds sh line w = eval_all os file_exists try_builtin rounds line sh es w.
Proof.
  intros H. destruct (flatten_covers gs) as [es Hes]; [by apply parsed_wf in H|]. exists es. split; [done|]. intros w. unfold interpret. rewrite H, Hes.
  apply run_groups_all.
Qed.

(** ** Safety *)

Definition safe {A} (m : prog A) : Prop := forall w, m w <> Crash.

Lemma safe_ret {A} (a : A) : safe (mret a).
Proof. done. Qed.
Lemma safe_bind {A B} (m : prog A) (f : A -> prog B) : safe m -> (forall a, safe (f a)) -> safe (m ≫= f).
Proof. intros Hm Hf w. unfold mbind, prog_bind. specialize (Hm w). destruct (m w) as [a w'| |]; [apply Hf|done|done]. Qed.
Lemma safe_waiting {A} : safe (fun _ : list event => @Waiting A).
Proof. done. Qed.
Lemma safe_need {A} (o : option A) : is_Some o -> safe (need o).
Proof. by intros [a ->]. Qed.

Create HintDb safe.
#[local] Hint Resolve safe_ret safe_waiting : safe.

(** Follows the structure of a program. *)
Ltac prove_safe := repeat first
  [ solve [auto with safe]
  | apply safe_bind
  | progress intros
  | match goal with
    | |- safe (match ?x with _ => _ end) => destruct x eqn:?
    | |- safe (let '_ := ?x in _) => destruct x eqn:?
    end ].

Lemma vec_position_get {A} (p : A -> bool) l i : vec_position p l = Some i -> is_Some (get l i).
Proof.
  unfold vec_position. destruct (list_find _ l) as [[n x]|] eqn:H; [|done]. intros [= <-]. apply list_find_Some in H as (H & _). unfold get.
  rewrite (proj2 (Z.ltb_ge _ _)), Nat2Z.id by lia. by exists x.
Qed.

Lemma job_index_get sh spec i : job_index sh spec = Some i -> is_Some (get (jobs sh) i).
Proof.
  unfold job_index. destruct spec as [s|].
  - destruct (strip_prefix [37] s) as [s'|]; [destruct (parse_u32 s')|destruct (parse_i32 s)]; try done; apply vec_position_get.
  - destruct (Z.eqb_spec (zlen (jobs sh)) 0) as [|Hn]; [done|]. intros [= <-]. pose proof (zlen_nonneg (jobs sh)).
    destruct (get_in_range (jobs sh) (zlen (jobs sh) - 1)) as [x Hx]; [lia|]. by exists x.
Qed.

Section Safety.
  Context (os : list event -> call -> answer) (file_exists : list event -> path -> bool)
    (try_builtin : Shell -> SimpleCmd -> prog (bool * Shell)) (rounds : nat) (Htry : forall sh c, safe (try_builtin sh c)).

Lemma safe_sys c : safe (sys os c).
Proof. done. Qed.
#[local] Hint Resolve safe_sys : safe.

Lemma safe_say m : safe (say os m).
Proof. unfold say. prove_safe. Qed.
#[local] Hint Resolve safe_say : safe.

Lemma safe_drain n : forall p t, safe (drain os n p t).
Proof. induction n as [|n IH]; intros p t; cbn [drain]; prove_safe. Qed.
#[local] Hint Resolve safe_drain : safe.

Lemma safe_reap_pids l : forall p r, safe (reap_pids os l p r).
Proof. induction l as [|q l IH]; intros p r; cbn [reap_pids]; prove_safe. Qed.
#[local] Hint Resolve safe_reap_pids : safe.

Lemma safe_reap g : safe (reap_group_nonblocking os g).
Proof. unfold reap_group_nonblocking. prove_safe. Qed.
#[local] Hint Resolve safe_reap : safe.

Lemma safe_reclaim : safe (reclaim_shell_tty os).
Proof. unfold reclaim_shell_tty. prove_safe. Qed.
#[local] Hint Resolve safe_reclaim : safe.

Lemma safe_stop_group g : safe (stop_group os g).
Proof. unfold stop_group. prove_safe. Qed.
#[local] Hint Resolve safe_stop_group : safe.

Lemma safe_supervise_loop n : forall g, safe (supervise_loop os n g).
Proof. induction n as [|n IH]; intros g; cbn [supervise_loop]; prove_safe. Qed.
#[local] Hint Resolve safe_supervise_loop : safe.

Lemma safe_supervise n g : safe (supervise_group os n g).
Proof. unfold supervise_group. prove_safe. Qed.
#[local] Hint Resolve safe_supervise : safe.

Lemma safe_wait_loop n : forall i c g, safe (wait_loop os n i c g).
Proof. induction n as [|n IH]; intros i c g; cbn [wait_loop]; prove_safe. Qed.
#[local] Hint Resolve safe_wait_loop : safe.

Lemma safe_wait_job n j : safe (wait_job os n j).
Proof. unfold wait_job. prove_safe. Qed.
#[local] Hint Resolve safe_wait_job : safe.

Lemma safe_wait_all n l : forall st, safe (wait_all os n l st).
Proof. induction l as [|j l IH]; intros st; cbn [wait_all]; prove_safe. Qed.
#[local] Hint Resolve safe_wait_all : safe.

Lemma safe_close_if_open f : safe (close_if_open os f).
Proof. unfold close_if_open. prove_safe. Qed.
#[local] Hint Resolve safe_close_if_open : safe.

Lemma safe_open_redir_path sh r p : safe (open_redir_path os sh r p).
Proof. unfold open_redir_path. prove_safe. Qed.
#[local] Hint Resolve safe_open_redir_path : safe.

Lemma safe_prepare_redirs sh rs : forall fds, safe (prepare_redirs os sh rs fds).
Proof. induction rs as [|r rs IH]; intros fds; cbn [prepare_redirs]; prove_safe. Qed.
#[local] Hint Resolve safe_prepare_redirs : safe.

Lemma safe_special_stdout sh rs : safe (special_stdout os sh rs).
Proof. unfold special_stdout. prove_safe. Qed.
#[local] Hint Resolve safe_special_stdout : safe.

Lemma safe_emit_line f m : safe (emit_line os f m).
Proof. unfold emit_line. prove_safe. Qed.
#[local] Hint Resolve safe_emit_line : safe.

Lemma safe_emit_vars f p l : safe (emit_vars os f p l).
Proof. induction l as [|v l IH]; cbn [emit_vars]; prove_safe. Qed.
#[local] Hint Resolve safe_emit_vars : safe.

Lemma safe_close_output f : safe (close_output os f).
Proof. unfold close_output. prove_safe. Qed.
#[local] Hint Resolve safe_close_output : safe.

Lemma safe_set_args l : forall sh, safe (set_args os sh l).
Proof. induction l as [|a l IH]; intros sh; cbn [set_args]; prove_safe. Qed.
#[local] Hint Resolve safe_set_args : safe.

Lemma safe_say_jobs l : safe (say_jobs os l).
Proof. induction l as [|j l IH]; cbn [say_jobs]; prove_safe. Qed.
#[local] Hint Resolve safe_say_jobs : safe.

Lemma safe_job sh spec i : job_index sh spec = Some i -> safe (need (get (jobs sh) i)).
Proof. intros H. eapply safe_need, job_index_get, H. Qed.
#[local] Hint Extern 1 (safe (need (get (jobs _) _))) => eapply safe_job; eassumption : safe.

Lemma safe_kill_spec sh sig spec : safe (kill_spec os sh sig spec).
Proof. unfold kill_spec. prove_safe. Qed.
#[local] Hint Resolve safe_kill_spec : safe.

Lemma safe_special sh c : safe (run_special_builtin os rounds sh c).
Proof. unfold run_special_builtin, builtin_export, builtin_set, builtin_bg, builtin_fg, builtin_kill, builtin_wait. prove_safe. Qed.
#[local] Hint Resolve safe_special : safe.

(** A program that does not crash, with what holds of its result. *)
Definition yields {A} (m : prog A) (Q : A -> Prop) : Prop := forall w, match m w with Done a _ => Q a | Crash => False | Waiting => True end.
Lemma yields_ret {A} (a : A) (Q : A -> Prop) : Q a -> yields (mret a) Q.
Proof. by intros H w. Qed.
Lemma yields_bind {A B} (m : prog A) (f : A -> prog B) (R : A -> Prop) (Q : B -> Prop) : yields m R -> (forall a, R a -> yields (f a) Q) -> yields (m ≫= f) Q.
Proof. intros Hm Hf w. specialize (Hm w). unfold mbind, prog_bind. destruct (m w) as [a w'| |]; [by apply Hf|done|done]. Qed.
Lemma yields_safe {A} (m : prog A) : safe m -> yields m (fun _ => True).
Proof. intros H w. specialize (H w). by destruct (m w). Qed.
Lemma safe_yields {A} (m : prog A) (Q : A -> Prop) : yields m Q -> safe m.
Proof. intros H w E. specialize (H w). by rewrite E in H. Qed.

Lemma safe_close_from fds : forall seen, safe (close_from os seen fds).
Proof. induction fds as [|f fds IH]; intros seen; cbn [close_from]; prove_safe. Qed.
#[local] Hint Resolve safe_close_from : safe.
Lemma safe_close_unique fds : safe (close_unique os fds).
Proof. apply safe_close_from. Qed.
#[local] Hint Resolve safe_close_unique : safe.
Lemma safe_close_pipes ps : safe (close_pipes os ps).
Proof. induction ps as [|[r w] ps IH]; cbn [close_pipes]; prove_safe. Qed.
Lemma safe_kill_all l : safe (kill_all os l).
Proof. induction l as [|p l IH]; cbn [kill_all]; prove_safe. Qed.
Lemma safe_apply_redirs sh rs : forall st opened, safe (apply_redirs os sh rs st opened).
Proof. induction rs as [|r rs IH]; intros st opened; cbn [apply_redirs]; prove_safe. Qed.
Lemma safe_find_exe sh n : safe (find_exe file_exists sh n).
Proof. by intros w. Qed.
Lemma safe_spawn sh p i o e l g fgr : safe (spawn os sh p i o e l g fgr).
Proof. unfold spawn. prove_safe. Qed.
#[local] Hint Resolve safe_close_pipes safe_kill_all safe_apply_redirs safe_find_exe safe_spawn : safe.

Lemma safe_spawn_stage sh c i o e g fgr : args c <> [] -> safe (spawn_stage os file_exists sh c i o e g fgr).
Proof. intros H. unfold spawn_stage. destruct (args c) as [|a l]; [done|]. cbn [head need]. prove_safe. Qed.

Lemma make_pipes_yields n : forall ps, yields (make_pipes os n ps) (fun o => match o with Ok ps' => length ps' = (length ps + n)%nat | Err _ => True end).
Proof.
  induction n as [|n IH]; intros ps; cbn [make_pipes]; [apply yields_ret; lia|]. eapply yields_bind; [apply yields_safe; unfold make_pipe; prove_safe|]. intros [p|e] _.
  - intros w. specialize (IH (ps ++ [p]) w). rewrite length_app in IH. cbn in IH. destruct (make_pipes os n (ps ++ [p]) w) as [[ps'|e] w'| |]; [lia|done..].
  - eapply yields_bind; [apply yields_safe; prove_safe|]. intros _ _. by apply yields_ret.
Qed.

Lemma spawn_stages_yields sh n ps fgr cmds : Forall (fun c => args c <> []) cmds -> length ps = (n - 1)%nat -> forall i pl g, (i + length cmds = n)%nat ->
  yields (spawn_stages os file_exists sh (Z.of_nat n) (Z.of_nat i) cmds ps pl g fgr)
    (fun o => match o with Ok (_, pl') => length pl' = (length pl + length cmds)%nat | Err _ => True end).
Proof.
  intros Hc Hps. assert (forall {A} (f : Z * Z -> A) j, (j < length ps)%nat -> safe (p ← need (get ps (Z.of_nat j)); mret (f p))) as Hget.
  { intros A f j Hj. apply safe_bind; [|intros; apply safe_ret]. apply safe_need. unfold get. rewrite (proj2 (Z.ltb_ge _ _)), Nat2Z.id by lia. by apply lookup_lt_is_Some. }
  induction Hc as [|c cmds Ha _ IH]; intros i pl g Hn; cbn [spawn_stages]; [apply yields_ret; cbn; lia|]. cbn in Hn.
  eapply (yields_bind _ _ (fun _ => True)); [apply yields_safe|intros bi _].
  { destruct (Z.eqb_spec (Z.of_nat i) 0); [apply safe_ret|]. replace (Z.of_nat i - 1) with (Z.of_nat (i - 1)) by lia. apply Hget. lia. }
  eapply (yields_bind _ _ (fun _ => True)); [apply yields_safe|intros bo _].
  { destruct (Z.eqb_spec (Z.of_nat i + 1) (Z.of_nat n)); [apply safe_ret|]. apply Hget. lia. }
  eapply yields_bind; [by apply yields_safe, safe_spawn_stage|]. intros [p|e] _.
  - replace (Z.of_nat i + 1) with (Z.of_nat (S i)) by lia. intros w. specialize (IH (S i) (pl ++ [p]) (if g =? 0 then p else g) ltac:(lia) w).
    rewrite length_app in IH. cbn in IH. destruct (spawn_stages _ _ _ _ _ _ _ _ _ _ w) as [[[? ?]|?] ?| |]; [cbn; lia|done..].
  - eapply yields_bind; [apply yields_safe; prove_safe|]. intros _ _. eapply yields_bind; [apply yields_safe; prove_safe|]. intros _ _. by apply yields_ret.
Qed.

Lemma safe_pipeline sh cmds fgr : Forall (fun c => args c <> []) cmds -> safe (spawn_pipeline os file_exists sh cmds fgr).
Proof.
  intros H. unfold spawn_pipeline. case_bool_decide as Hn; [apply safe_ret|]. apply (safe_yields _ (fun _ => True)).
  eapply yields_bind; [apply make_pipes_yields|]. intros [ps|e] Hps; [|by apply yields_ret]. cbn in Hps.
  eapply yields_bind; [apply (spawn_stages_yields sh (length cmds) ps fgr cmds H Hps 0); lia|]. intros [[g pl]|e] Hpl; [|by apply yields_ret]. cbn in Hpl.
  apply yields_safe, safe_bind; [prove_safe|]. intros _. apply safe_bind; [|intros; apply safe_ret]. apply safe_need.
  destruct (last pl) as [p|] eqn:E; [by eexists|]. apply last_None in E. subst pl. destruct cmds; [done|]. cbn in Hpl. lia.
Qed.

Lemma expanded_args sh g : wf_group g -> Forall (fun c => args c <> []) (expand_cmd sh <$> pipeline g).
Proof.
  intros (_ & H & _). apply Forall_fmap. eapply Forall_impl; [exact H|]. intros c [Hc _] E. by apply fmap_nil_inv in E.
Qed.

Lemma safe_external sh g cmds text : Forall (fun c => args c <> []) cmds -> safe (execute_external os file_exists rounds sh g cmds text).
Proof. intros H. pose proof (fun fg => safe_pipeline sh cmds fg H). unfold execute_external. prove_safe. Qed.

Lemma safe_execute_group sh g text : wf_group g -> safe (execute_group os file_exists try_builtin rounds sh g text).
Proof.
  intros Hg. pose proof (expanded_args sh g Hg) as Ha. unfold execute_group.
  pose proof (fun sh' => safe_external sh' g _ text Ha) as Hext. destruct (expand_cmd sh <$> pipeline g) as [|c [|c' l]]; prove_safe.
Qed.

Lemma safe_run_groups gs text : Forall wf_group gs -> forall sh prev status, safe (run_groups os file_exists try_builtin rounds sh gs prev status text).
Proof.
  induction 1 as [|g gs Hg _ IH]; intros sh prev status; cbn [run_groups]; [prove_safe|]. pose proof (safe_execute_group sh g text Hg). prove_safe.
Qed.

Lemma safe_interpret sh line : safe (interpret os file_exists try_builtin rounds sh line).
Proof.
  unfold interpret. destruct (parse_line line) as [gs|e] eqn:H; [|prove_safe]. apply safe_run_groups. by apply parsed_wf in H as [H _].
Qed.

Lemma safe_poll_jobs l : forall ch, safe (poll_jobs os l ch).
Proof. induction l as [|j l IH]; intros ch; cbn [poll_jobs]; unfold poll_job; prove_safe. Qed.
End Safety.

(** Whatever line is typed and whatever the system answers, the executor itself
    never indexes out of range: the parser gives every command a name,
    pipelines have a pipe between any two stages, and a job that was found
    exists.  Printing and the builtins of [main.rs] are taken as given. *)
Theorem executor_safe os file_exists try_builtin rounds sh line : (forall sh c, safe (try_builtin sh c)) ->
  safe (interpret os file_exists try_builtin rounds sh line) /\ safe (poll_background_jobs os sh).
Proof.
  intros H. split; [by apply safe_interpret|]. unfold poll_background_jobs. apply safe_bind; [apply safe_poll_jobs|]. intros [l ch]. apply safe_ret.
Qed.

(** ** Waiting for a foreground pipeline *)

Definition sleeps (t : list event) : nat := length (filter (fun e => match e.1 with Sleep => true | _ => false end = true) t).

Lemma sleeps_snoc t e : sleeps (t ++ [e]) = (sleeps t + match e.1 with Sleep => 1 | _ => 0 end)%nat.
Proof. unfold sleeps. rewrite filter_app, length_app. f_equal. rewrite filter_cons. by destruct (e.1). Qed.

Section Foreground.
  Context (os : list event -> call -> answer) (w0 : list event) (d : Z -> nat) (st : Z -> Z) (children : list Z).

(** Each child runs for [d] rounds of sleeping and then has the status [st], which is that of an end. *)
Definition children_end : Prop :=
  (forall t p, p ∈ children -> os (w0 ++ t) (Waitpid p WAIT_OPTIONS) =
     if bool_decide (sleeps t < d p)%nat then mkAnswer 0 [] else mkAnswer (as_usize p) [st p]) /\
  forall p, p ∈ children -> 0 < p < 2 ^ 31 /\ wifstopped (st p) = false /\ wifcontinued (st p) = false.
  Hypothesis Hend : children_end.

Definition alive (t : list event) (p : Z) : Prop := (sleeps t < d p)%nat.
#[local] Instance alive_dec t p : Decision (alive t p) := Nat.lt_dec (sleeps t) (d p).

Lemma drain_child t p : p ∈ children -> exists t', sleeps t' = sleeps t /\
  drain os 4 p 0 (w0 ++ t) = Done (if decide (alive t p) then Kept 0 else Removed (Some (st p))) (w0 ++ t').
Proof.
  intros Hp. destruct Hend as [Hos Hst]. destruct (Hst p Hp) as (Hr & Hs & Hc). specialize (Hos t p Hp).
  exists (t ++ [(Waitpid p WAIT_OPTIONS, os (w0 ++ t) (Waitpid p WAIT_OPTIONS))]). rewrite sleeps_snoc. split; [cbn; lia|].
  cbn [drain]. unfold sys, mbind, prog_bind. rewrite Hos, app_assoc. unfold alive.
  destruct (decide (sleeps t < d p)%nat) as [Ha|Ha]; [by rewrite bool_decide_eq_true_2|]. rewrite bool_decide_eq_false_2 by done. cbn [ret stored].
  assert (as_usize p = p) as Eu by (unfold as_usize; apply Z.mod_small; lia). rewrite Eu, (proj2 (Z.eqb_neq p 0)), (proj2 (Z.eqb_neq p USIZE_MAX)), Z.eqb_refl by (unfold USIZE_MAX; lia).
  cbn [negb]. change (default 0 (head [st p])) with (st p). by rewrite Hs, Hc.
Qed.

Lemma reap_children l : forall lp r t, (forall p, p ∈ l -> p ∈ children) -> exists t', sleeps t' = sleeps t /\
  reap_pids os l lp r (w0 ++ t) = Done (mkReaped (kept r ++ filter (alive t) l)
    (if bool_decide (lp ∈ l /\ ~ alive t lp) then wait_status_exit_code (st lp) else status_now r) (stopped_now r) (continued_now r)) (w0 ++ t').
Proof.
  induction l as [|p l IH]; intros lp r t Hl; cbn [reap_pids].
  { exists t. split; [done|]. rewrite bool_decide_eq_false_2 by (by intros [?%elem_of_nil _]). cbn. rewrite app_nil_r. by destruct r. }
  destruct (drain_child t p) as (t1 & Hs1 & Hd); [apply Hl; set_solver|]. unfold mbind, prog_bind. rewrite Hd.
  set (r1 := match (if decide (alive t p) then _ else _) with Removed _ => _ | Kept _ => _ end).
  destruct (IH lp r1 t1) as (t2 & Hs2 & E); [intros q Hq; apply Hl; set_solver|]. exists t2. split; [congruence|]. rewrite E. f_equal.
  assert (forall q, alive t1 q <-> alive t q) as Ha by (intros q; unfold alive; by rewrite Hs1).
  assert (filter (alive t1) l = filter (alive t) l) as -> by (apply list_filter_iff; done).
  rewrite filter_cons. unfold r1. clear r1 E Hd. destruct (decide (alive t p)) as [Hp|Hp]; cbn -[bool_decide].
  - rewrite <- app_assoc. f_equal. destruct (decide (lp ∈ l /\ ~ alive t lp)) as [H|H].
    + rewrite !bool_decide_eq_true_2; [done|set_solver|]. by rewrite Ha.
    + rewrite !bool_decide_eq_false_2; [done| |by rewrite Ha]. intros [H1 H2]. apply elem_of_cons in H1 as [->|H1]; [done|by apply H].
  - destruct (Z.eqb_spec p lp) as [->|Hne]; cbn -[bool_decide].
    + f_equal. rewrite (bool_decide_eq_true_2 (lp ∈ lp :: l /\ _)) by (split; [set_solver|done]). by case_bool_decide.
    + f_equal. rewrite (bool_decide_ext (lp ∈ l /\ ~ alive t1 lp) (lp ∈ p :: l /\ ~ alive t lp)); [done|]. rewrite Ha, elem_of_cons. naive_solver.
Qed.

Lemma reclaim_done t : exists t', reclaim_shell_tty os (w0 ++ t) = Done () (w0 ++ t').
Proof.
  unfold reclaim_shell_tty, sys, mbind, prog_bind. destruct (0 <? _); cbn; rewrite <- ?app_assoc; by eexists.
Qed.

Lemma supervise_children rounds : forall g t, g_pids g <> [] -> (forall p, p ∈ g_pids g -> p ∈ children /\ (d p - sleeps t < rounds)%nat) ->
  g_last_pid g ∈ g_pids g \/ g_last_status g = wait_status_exit_code (st (g_last_pid g)) ->
  exists t', supervise_loop os rounds g (w0 ++ t) = Done (Exited (wait_status_exit_code (st (g_last_pid g)))) (w0 ++ t').
Proof.
  induction rounds as [|rounds IH]; intros g t Hne Hg Hl.
  { destruct (g_pids g) as [|p l]; [done|]. destruct (Hg p) as [_ ?]; [set_solver|lia]. }
  cbn [supervise_loop]. unfold reap_group_nonblocking.
  destruct (reap_children (g_pids g) (g_last_pid g) (mkReaped [] (g_last_status g) false false) t) as (t1 & Hs1 & E); [intros p Hp; by apply Hg|].
  set (status := if bool_decide _ then _ else _) in E. cbn [kept app stopped_now continued_now] in E.
  unfold mbind at 1, prog_bind at 1. unfold mbind at 1, prog_bind at 1. rewrite E. unfold mret at 1, prog_ret at 1. cbn [kept stopped_now status_now continued_now].
  case_bool_decide as Hk.
  - destruct (reclaim_done t1) as [t2 Ht2]. exists t2. unfold mbind, prog_bind. rewrite Ht2. unfold mret, prog_ret. do 2 f_equal.
    change (g_last_status _) with status. unfold status. case_bool_decide as Hd; [done|]. destruct Hl as [Hl|Hl]; [|done]. exfalso. apply Hd. split; [done|].
    intros Ha. assert (g_last_pid g ∈ filter (alive t) (g_pids g)) as Hin by (by apply list_elem_of_filter). rewrite Hk in Hin. by apply elem_of_nil in Hin.
  - cbn beta iota. set (t2 := t1 ++ [(Sleep, os (w0 ++ t1) Sleep)]).
    assert (sleeps t2 = S (sleeps t)) as Hs2 by (unfold t2; rewrite sleeps_snoc, Hs1; cbn; lia).
    destruct (IH (g <| g_pids := filter (alive t) (g_pids g) |> <| g_last_status := status |>) t2) as [t3 E3]; [done| | |exists t3; refine (eq_trans _ E3); unfold t2; by rewrite app_assoc].
    + intros p Hp. apply list_elem_of_filter in Hp as [Ha Hp]. destruct (Hg p Hp) as [Hc Hr]. split; [done|]. unfold alive in Ha. rewrite Hs2. lia.
    + change (g_last_pid (_ <| g_last_status := _ |>)) with (g_last_pid g). change (g_last_status (_ <| g_last_status := _ |>)) with status.
      change (g_pids (_ <| g_last_status := _ |>)) with (filter (alive t) (g_pids g)). unfold status. case_bool_decide as Hd; [by right|].
      destruct Hl as [Hl|Hl]; [|by right]. left. apply list_elem_of_filter. split; [|done]. destruct (decide (alive t (g_last_pid g))); [done|]. exfalso. by apply Hd.
Qed.
End Foreground.

(** The shell waits for a foreground pipeline as long as it takes and no
    longer: when every process ends after some number of rounds, supervising
    the group returns within one round more than the longest, with the exit
    code of the last process of the pipeline. *)
Theorem foreground_waits os w d st rounds g : children_end os (w ++ [(Tcsetpgrp (g_pgid g), os w (Tcsetpgrp (g_pgid g)))]) d st (g_pids g) ->
  g_last_pid g ∈ g_pids g -> (forall p, p ∈ g_pids g -> (d p < rounds)%nat) ->
  exists w', supervise_group os rounds g w = Done (Exited (wait_status_exit_code (st (g_last_pid g)))) w'.
Proof.
  intros Hend Hl Hr. unfold supervise_group, mbind, prog_bind, sys. set (w0 := w ++ _) in *.
  destruct (supervise_children os w0 d st (g_pids g) Hend rounds g []) as [t E].
  - intros E. rewrite E in Hl. by apply elem_of_nil in Hl.
  - intros p Hp. split; [done|]. specialize (Hr p Hp). lia.
  - by left.
  - rewrite app_nil_r in E. by exists (w0 ++ t).
Qed.

(** ** Instances *)

(** A system that gives the descriptor after the largest held one and has no
    file to read: opening one fails with [ENOENT], -2. *)
Definition top (w : list event) : Z := foldr Z.max 2 (elements (held w)) + 1.
Definition simple_os (w : list event) (c : call) : answer :=
  match c with
  | Open _ flags => if flags =? O_RDONLY then mkAnswer (2 ^ 32 - 2) [] else if top w <? 2 ^ 31 then mkAnswer (top w) [] else mkAnswer USIZE_MAX []
  | MakePipe => if top w + 1 <? 2 ^ 31 then mkAnswer 0 [top w; top w + 1] else mkAnswer 1 []
  | Spawn _ _ _ _ _ _ _ _ => mkAnswer (100 + zlen w mod 1000) []
  | Waitpid p _ => mkAnswer (as_usize p) [exit_status 7 0]
  | _ => mkAnswer 0 []
  end.

Lemma top_above w f : f ∈ held w -> f < top w.
Proof.
  intros Hf. apply elem_of_elements in Hf. unfold top. induction (elements (held w)) as [|x l IH]; [by apply elem_of_nil in Hf|]. cbn.
  apply elem_of_cons in Hf as [->|Hf]; [lia|specialize (IH Hf); lia].
Qed.

Lemma top_positive w : 3 <= top w.
Proof. unfold top. induction (elements (held w)) as [|x l IH]; cbn; lia. Qed.

#[global] Instance simple_os_lawful : Lawful simple_os.
Proof.
  assert (forall z, z < 2 ^ 31 -> as_i32 z = z) as Hi by (intros z Hz; unfold as_i32; by rewrite (proj2 (Z.ltb_lt _ _))).
  split; intros w c; pose proof (top_positive w) as Ht; pose proof (fun f => top_above w f) as Ha.
  - destruct c; try apply NoDup_nil_2; cbn -[Z.pow USIZE_MAX top].
    + case_match; [apply NoDup_singleton|constructor].
    + destruct (Z.ltb_spec (top w + 1) (2 ^ 31)); cbn -[top as_i32]; [|by constructor]. rewrite !Hi by lia. repeat constructor; set_solver by lia.
  - intros f. destruct c; cbn -[Z.pow USIZE_MAX top]; try by intros ?%elem_of_nil.
    + destruct (flags =? O_RDONLY); [by intros ?%elem_of_nil|]. destruct (Z.ltb_spec (top w) (2 ^ 31)); cbn -[USIZE_MAX top as_i32]; [|by intros ?%elem_of_nil].
      rewrite Hi by done. rewrite (proj2 (Z.leb_le _ _)) by lia. intros ->%list_elem_of_singleton. split; [lia|]. intros ?%Ha. lia.
    + destruct (Z.ltb_spec (top w + 1) (2 ^ 31)); cbn -[top as_i32]; [|by intros ?%elem_of_nil]. rewrite !Hi by lia.
      intros [->|[->|?%elem_of_nil]%elem_of_cons]%elem_of_cons; [split; [lia|]; intros ?%Ha; lia..|done].
  - destruct c; try done. cbn -[as_i32 Z.modulo]. unfold as_i32. pose proof (Z.mod_pos_bound (zlen w) 1000). case_match; lia.
Qed.

Definition test_pipeline : list SimpleCmd :=
  [mkCmd [str "ls"] [mkRedir 0 In (Path (str "none"))]; mkCmd [str "sort"] [mkRedir 2 Append (Path (str "err"))]; mkCmd [str "wc"] [mkRedir 1 Out (Path (str "n")); mkRedir 2 Out (Fd 1)]].

Lemma pipeline_fds_balanced_witness : exists r t,
  spawn_pipeline simple_os (fun _ _ => true) test_shell test_pipeline true [] = Done r ([] ++ t) /\ fd_run t = Some ∅.
Proof. apply (pipeline_fds_balanced simple_os (fun _ _ => true) test_shell test_pipeline true []). repeat constructor; done. Defined.

Lemma pipeline_wired_witness : exists g w' t pipes, spawn_pipeline simple_os (fun _ _ => true) test_shell test_pipeline true [] = Done (Ok g) w' /\
  w' = [] ++ t /\ pipes = made (log t) /\ length pipes = 2%nat /\ wired pipes 3 0 (g_pgid g) true test_pipeline (spawned (log t)).
Proof.
  assert (exists g w', spawn_pipeline simple_os (fun _ _ => true) test_shell test_pipeline true [] = Done (Ok g) w') as (g & w' & E).
  { eexists _, _. vm_compute. reflexivity. }
  destruct (pipeline_wired simple_os (fun _ _ => true) test_shell test_pipeline true [] w' g) as (t & pipes & H1 & H2 & H3 & _ & _ & _ & H4).
  - repeat constructor; done.
  - exact E.
  - exists g, w', t, pipes. split; [exact E|]. split; [exact H1|]. split; [exact H2|]. split; [exact H3|exact H4].
Defined.

Lemma statuses_decoded_witness : wait_status_exit_code (exit_status 300 0) = 44 /\ wait_status_exit_code (exit_status 300 9) = 137.
Proof. destruct (statuses_decoded 300 9) as (H1 & H2 & _); [lia|]. split; [exact H1|exact H2]. Defined.

Lemma interpret_exact_witness : exists es, [mkGroup [mkCmd [str "a"] []] false And; mkGroup [mkCmd [str "b"] []] false Always] = flatten_all es /\
  forall w, interpret simple_os (fun _ _ => true) (fun sh _ => mret (true, sh)) 5 test_shell (str "a&&b") w =
    eval_all simple_os (fun _ _ => true) (fun sh _ => mret (true, sh)) 5 (str "a&&b") test_shell es w.
Proof. apply interpret_exact. vm_compute. reflexivity. Defined.

Lemma executor_safe_witness : safe (interpret simple_os (fun _ _ => true) (fun sh _ => mret (false, sh)) 5 test_shell (str "fg %1; a|b")) /\
  safe (poll_background_jobs simple_os test_shell).
Proof. apply (executor_safe simple_os (fun _ _ => true) (fun sh _ => mret (false, sh)) 5 test_shell (str "fg %1; a|b")). intros sh c. apply safe_ret. Defined.

(** A system in which every child ends with code 3 after two rounds. *)
Definition ending_os (w : list event) (c : call) : answer :=
  match c with
  | Waitpid p _ => if bool_decide (sleeps w < 2)%nat then mkAnswer 0 [] else mkAnswer (as_usize p) [exit_status 3 0]
  | _ => mkAnswer 0 []
  end.

Lemma foreground_waits_witness : exists w', supervise_group ending_os 3 (mkRunning 5 [5; 6] 6 0) [] = Done (Exited 3) w'.
Proof.
  apply (foreground_waits ending_os [] (fun _ => 2%nat) (fun _ => exit_status 3 0) 3 (mkRunning 5 [5; 6] 6 0)).
  - split; [intros t p _; reflexivity|]. intros p Hp. split; [|done]. cbn in Hp. set_solver by lia.
  - set_solver.
  - intros p _. lia.
Defined.

(** The shell takes every error of [open] but -1 for a descriptor: with input
    from a file that does not exist the command starts, with -2 as its input. *)
Lemma open_error_taken_for_fd os sh r p w : let a := os w (Open (c_string (resolve sh p)) (open_flags (kind r))) in
  2 ^ 31 <= ret a < USIZE_MAX -> exists w', open_redir_path os sh r p w = Done (Ok (ret a - 2 ^ 32)) w'.
Proof.
  intros a H. unfold open_redir_path. eexists. unfold mbind, prog_bind, sys. fold a. cbv beta iota zeta. unfold mret, prog_ret, as_i32.
  rewrite (proj2 (Z.eqb_neq _ _)), (proj2 (Z.ltb_ge _ _)) by lia. reflexivity.
Qed.
Lemma missing_input_ignored : exists t, apply_redirs simple_os test_shell [mkRedir 0 In (Path (str "none"))] (mkStd 0 1 2) [] [] = Done (Ok (mkStd (-2) 1 2, [-2])) t.
Proof. eexists. vm_compute. reflexivity. Qed.

(** A builtin whose second redirection fails keeps the file of the first open. *)
Lemma builtin_redirect_leaks : exists t, special_stdout simple_os test_shell [mkRedir 1 Out (Path (str "f")); mkRedir 1 Out (Fd 2)] [] = Done (Err (DupUnsupported 1 2)) t /\
  fd_run t = Some {[3]}.
Proof. eexists. split; [vm_compute; reflexivity|]. vm_compute. reflexivity. Qed.

(** A command with redirected output is not waited for: its status is 0, so the right side of [&&] runs although the command will fail. *)
Lemma redirected_not_waited : exists sh t, execute_external simple_os (fun _ _ => true) 5 test_shell (mkGroup [] false And) [mkCmd [str "a"] [mkRedir 1 Out (Path (str "f"))]] [] [] =
  Done (0, sh) t /\ (forall p o a, (Waitpid p o, a) ∉ t) /\ length (jobs sh) = 1%nat.
Proof.
  eexists _, _. split; [vm_compute; reflexivity|]. split; [|reflexivity]. intros p o a H. repeat (apply elem_of_cons in H as [H|H]; [discriminate H|]). by apply elem_of_nil in H.
Qed.
