(* ===== verification/Ext2.v ===== *)
(** * The ext2 filesystem

    Model of [kernel/src/filesystem/ext2.rs]: the on-disk structures as byte
    sequences, blocks and bitmaps on a block device, inodes, the block map of a
    file, directories, and the operations of the trait [Filesystem].  The
    clock is an argument.  A copy into a fixed buffer that does not fit, which
    is undefined behaviour in the source, is a panic of the model. *)

From S2P Require Import Prelude Bytes Disk Vfs.

(** [a / b] and [a % b] on unsigned integers *)
Definition div_u (a b : Z) : outcome Z := if b =? 0 then Panic else Ret (a / b).
Definition rem_u (a b : Z) : outcome Z := if b =? 0 then Panic else Ret (a mod b).

(** ** Structures on disk *)

Record Ext2BlockGroupDescriptor : Type := mkBgd {
  bg_block_bitmap : Z; bg_inode_bitmap : Z; bg_inode_table : Z; bg_free_blocks_count : Z; bg_free_inodes_count : Z;
  bg_used_dirs_count : Z; bg_pad : Z; bg_reserved : Z
}.
#[global] Instance Bgd_eta : Eta Ext2BlockGroupDescriptor := fun g =>
  mkBgd (bg_block_bitmap g) (bg_inode_bitmap g) (bg_inode_table g) (bg_free_blocks_count g) (bg_free_inodes_count g)
    (bg_used_dirs_count g) (bg_pad g) (bg_reserved g).
#[global] Instance Bgd_pod : Pod Ext2BlockGroupDescriptor := {
  pod_size := 32;
  to_bytes g := pack [(4%nat, bg_block_bitmap g); (4%nat, bg_inode_bitmap g); (4%nat, bg_inode_table g); (2%nat, bg_free_blocks_count g);
                      (2%nat, bg_free_inodes_count g); (2%nat, bg_used_dirs_count g); (2%nat, bg_pad g); (12%nat, bg_reserved g)];
  of_bytes l := match unpack [4; 4; 4; 2; 2; 2; 2; 12]%nat l with
                | [a; b; c; d; e; f; g; h] => mkBgd a b c d e f g h
                | _ => mkBgd 0 0 0 0 0 0 0 0
                end
}.

Record Ext2Inode : Type := mkInode {
  i_mode : Z; i_uid : Z; i_size : Z; i_atime : Z; i_ctime : Z; i_mtime : Z; i_dtime : Z; i_gid : Z; i_links_count : Z;
  i_blocks : Z; i_flags : Z; i_osd1 : Z; i_block : list Z; i_generation : Z; i_file_acl : Z; i_dir_acl : Z; i_faddr : Z; i_osd2 : Z
}.
#[global] Instance Inode_eta : Eta Ext2Inode := fun i =>
  mkInode (i_mode i) (i_uid i) (i_size i) (i_atime i) (i_ctime i) (i_mtime i) (i_dtime i) (i_gid i) (i_links_count i)
    (i_blocks i) (i_flags i) (i_osd1 i) (i_block i) (i_generation i) (i_file_acl i) (i_dir_acl i) (i_faddr i) (i_osd2 i).
Definition inode_widths : list nat :=
  [2; 2; 4; 4; 4; 4; 4; 2; 2; 4; 4; 4]%nat ++ replicate 15 4%nat ++ [4; 4; 4; 4; 12]%nat.
Definition inode_fields (i : Ext2Inode) : list Z :=
  [i_mode i; i_uid i; i_size i; i_atime i; i_ctime i; i_mtime i; i_dtime i; i_gid i; i_links_count i; i_blocks i; i_flags i; i_osd1 i]
  ++ i_block i ++ [i_generation i; i_file_acl i; i_dir_acl i; i_faddr i; i_osd2 i].
Definition inode_of_fields (v : list Z) : Ext2Inode :=
  let f k := nth k v 0 in
  mkInode (f 0%nat) (f 1%nat) (f 2%nat) (f 3%nat) (f 4%nat) (f 5%nat) (f 6%nat) (f 7%nat) (f 8%nat) (f 9%nat) (f 10%nat) (f 11%nat)
    (take 15 (drop 12 v)) (f 27%nat) (f 28%nat) (f 29%nat) (f 30%nat) (f 31%nat).
#[global] Instance Inode_pod : Pod Ext2Inode := {
  pod_size := 128;
  to_bytes i := pack (zip inode_widths (inode_fields i));
  of_bytes l := inode_of_fields (unpack inode_widths l)
}.

Record Ext2DirEntry : Type := mkDirent { d_inode : Z; rec_len : Z; name_len : Z; file_type : Z }.
#[global] Instance Dirent_eta : Eta Ext2DirEntry := fun d => mkDirent (d_inode d) (rec_len d) (name_len d) (file_type d).
#[global] Instance Dirent_pod : Pod Ext2DirEntry := {
  pod_size := 8;
  to_bytes d := pack [(4%nat, d_inode d); (2%nat, rec_len d); (1%nat, name_len d); (1%nat, file_type d)];
  of_bytes l := match unpack [4; 2; 1; 1]%nat l with [a; b; c; d] => mkDirent a b c d | _ => mkDirent 0 0 0 0 end
}.

(** The superblock is kept as its bytes; the fields the code uses. *)
Definition field_at (l : list Z) (off width : nat) : Z := of_le (slice l off width).
Definition s_blocks_count (sb : list Z) : Z := field_at sb 4 4.
Definition s_first_data_block (sb : list Z) : Z := field_at sb 20 4.
Definition s_log_block_size (sb : list Z) : Z := field_at sb 24 4.
Definition s_blocks_per_group (sb : list Z) : Z := field_at sb 32 4.
Definition s_inodes_per_group (sb : list Z) : Z := field_at sb 40 4.
Definition s_magic (sb : list Z) : Z := field_at sb 56 2.
Definition s_inode_size (sb : list Z) : Z := field_at sb 88 2.

Definition EXT2_MAGIC : Z := 0xEF53.

Definition zeros (n : Z) : list Z := replicate (Z.to_nat n) 0.
(** [[0u8; 4096]] *)
Definition page : list Z := zeros 4096.

Section Ext2.
  Context {D : Type} `{!BlockDevice D}.

Record Ext2 : Type := mkExt2 { superblock : list Z; block_size : Z; mounted : bool; disk : D; partition_offset : Z }.
#[global] Instance Ext2_eta : Eta Ext2 := fun e =>
  mkExt2 (superblock e) (block_size e) (mounted e) (disk e) (partition_offset e).

Implicit Types (e : Ext2) (i : Ext2Inode) (g : Ext2BlockGroupDescriptor).

(** ** Blocks *)

(** The first sector of a block. *)
Definition block_lba e (block : Z) : outcome Z :=
  off ← mul_u 32 block (block_size e / 512);
  add_u 32 (partition_offset e mod 2 ^ 32) off.

(** [read_blocks] into a buffer, [write_blocks] from one; [count] is 1. *)
Definition read_blocks e (block : Z) (buf : list Z) : outcome (list Z) :=
  if block_size e =? 0 then Ret buf else
  let total_sectors := (block_size e / 512) mod 256 in
  lba ← block_lba e block;
  o ← read_sectors (disk e) total_sectors lba;
  match o with
  | Some data => if zlen buf <? zlen data then Panic else Ret (splice buf 0 data)
  | None => Ret buf
  end.
Definition write_blocks e (block : Z) (buf : list Z) : outcome Ext2 :=
  if block_size e =? 0 then Ret e else
  let total_sectors := (block_size e / 512) mod 256 in
  lba ← block_lba e block;
  if zlen buf <? total_sectors * 512 then Panic else
  o ← write_sectors (disk e) total_sectors lba (take (Z.to_nat (total_sectors * 512)) buf);
  Ret (match o with Some d => e <| disk := d |> | None => e end).

(** [read_unaligned] and [write_unaligned] in a buffer *)
Definition struct_at {T} `{!Pod T} (buf : list Z) (off : Z) : outcome T :=
  if zlen buf <? off + Z.of_nat (pod_size T) then Panic else Ret (of_bytes (drop (Z.to_nat off) buf)).
Definition put_struct {T} `{!Pod T} (buf : list Z) (off : Z) (t : T) : outcome (list Z) :=
  if zlen buf <? off + Z.of_nat (pod_size T) then Panic else Ret (splice buf (Z.to_nat off) (to_bytes t)).

Definition zeroed (T : Type) `{!Pod T} : T := of_bytes (replicate (pod_size T) 0).

(** [read_struct_from_disk], [write_struct_to_disk] *)
Definition read_struct_from_disk {T} `{!Pod T} e (block off : Z) : outcome T :=
  if block_size e =? 0 then Ret (zeroed T) else
  buf ← read_blocks e block page; struct_at buf off.
Definition write_struct_to_disk {T} `{!Pod T} e (block off : Z) (t : T) : outcome Ext2 :=
  if block_size e =? 0 then Ret e else
  buf ← read_blocks e block page;
  buf ← put_struct buf off t;
  write_blocks e block buf.

(** [Ext2::new] *)
Definition ext2_new (d : D) (start_lba : Z) : Ext2 := mkExt2 (zeros 1032) 0 false d start_lba.

(** [Ext2::mount] *)
Definition ext2_mount e (config : option Z) : outcome Ext2 :=
  let e := match config with Some lba => e <| partition_offset := lba |> | None => e end in
  lba ← add_u 64 (partition_offset e) 2;
  o ← read_sectors (disk e) 2 (lba mod 2 ^ 32);
  match o with
  | None => Ret e
  | Some data =>
      let e := e <| superblock := splice (superblock e) 0 (take 1024 data) |> in
      if negb (s_magic (superblock e) =? EXT2_MAGIC) then Ret e else
      if 32 <=? s_log_block_size (superblock e) then Panic else
      Ret (e <| block_size := Z.shiftl 1024 (s_log_block_size (superblock e)) mod 2 ^ 32 |> <| mounted := true |>)
  end.

(** ** Group descriptors and inodes *)

(** The place of a group's descriptor, in [get_bg_descriptor] and
    [write_bg_descriptor]. *)
Definition bgd_place e (group : Z) : outcome (Z * Z) :=
  let table := if s_first_data_block (superblock e) =? 0 then 1 else s_first_data_block (superblock e) in
  let per_block := block_size e / 32 in
  q ← div_u group per_block;
  r ← rem_u group per_block;
  block ← add_u 32 table q;
  Ret (block, r * 32).

(** [get_bg_descriptor], [write_bg_descriptor] *)
Definition get_bg_descriptor e (group : Z) : outcome Ext2BlockGroupDescriptor :=
  if negb (mounted e) then Ret (zeroed _) else
  '(block, off) ← bgd_place e group; read_struct_from_disk e block off.
Definition write_bg_descriptor e (group : Z) g : outcome Ext2 :=
  '(block, off) ← bgd_place e group; write_struct_to_disk e block off g.

(** The place of an inode, in [read_inode] and [write_inode]. *)
Definition inode_place e (n : Z) : outcome (Z * Z) :=
  group ← div_u (n - 1) (s_inodes_per_group (superblock e));
  bgd ← get_bg_descriptor e group;
  index ← rem_u (n - 1) (s_inodes_per_group (superblock e));
  let inode_offset := index * s_inode_size (superblock e) in
  block_offset ← div_u inode_offset (block_size e);
  off ← rem_u inode_offset (block_size e);
  block ← add_u 32 (bg_inode_table bgd) (block_offset mod 2 ^ 32);
  Ret (block, off).

(** [read_inode], [write_inode] *)
Definition read_inode e (n : Z) : outcome Ext2Inode :=
  if negb (mounted e) || (n =? 0) then Ret (zeroed _) else
  '(block, off) ← inode_place e n; read_struct_from_disk e block off.
Definition write_inode e (n : Z) i : outcome Ext2 :=
  if negb (mounted e) || (n =? 0) then Ret e else
  '(block, off) ← inode_place e n; write_struct_to_disk e block off i.

(** ** Allocation *)

(** [update_superblock_free_blocks], [update_superblock_free_inodes] *)
Definition update_superblock e : outcome Ext2 :=
  lba ← add_u 64 (partition_offset e) 2;
  o ← write_sectors (disk e) 2 (lba mod 2 ^ 32) (take 1024 (superblock e));
  Ret (match o with Some d => e <| disk := d |> | None => e end).

(** The search of [alloc_block] and [alloc_inode] for a clear bit. *)
Fixpoint find_free (bm : list Z) (k : Z) (n : nat) : option Z :=
  match n with
  | O => None
  | S n => if zlen bm <=? k / 8 then None else if bit_at bm k then find_free bm (k + 1) n else Some k
  end.

(** [alloc_inode] *)
Definition alloc_inode e : outcome (option Z * Ext2) :=
  if negb (mounted e) then Ret (None, e) else
  bgd ← get_bg_descriptor e 0;
  bm ← read_blocks e (bg_inode_bitmap bgd) page;
  match find_free bm 12 (Z.to_nat (s_inodes_per_group (superblock e) - 12)) with
  | None => Ret (None, e)
  | Some k =>
      e ← write_blocks e (bg_inode_bitmap bgd) (set_bit bm k);
      let bgd := if 0 <? bg_free_inodes_count bgd then bgd <| bg_free_inodes_count := bg_free_inodes_count bgd - 1 |> else bgd in
      e ← write_bg_descriptor e 0 bgd;
      e ← update_superblock e;
      Ret (Some k, e)
  end.

(** The first block after the inode table, in [alloc_block]. *)
Definition first_data_block e g : outcome Z :=
  size ← div_u (s_inodes_per_group (superblock e) * s_inode_size (superblock e) + (block_size e - 1)) (block_size e);
  Ret ((bg_inode_table g + size) mod 2 ^ 32).

(** [alloc_block] *)
Definition alloc_block e : outcome (option Z * Ext2) :=
  if negb (mounted e) then Ret (None, e) else
  bgd ← get_bg_descriptor e 0;
  bm ← read_blocks e (bg_block_bitmap bgd) page;
  first ← first_data_block e bgd;
  match find_free bm first (Z.to_nat (s_blocks_per_group (superblock e) - first)) with
  | None => Ret (None, e)
  | Some k =>
      e ← write_blocks e (bg_block_bitmap bgd) (set_bit bm k);
      let bgd := if 0 <? bg_free_blocks_count bgd then bgd <| bg_free_blocks_count := bg_free_blocks_count bgd - 1 |> else bgd in
      e ← write_bg_descriptor e 0 bgd;
      e ← update_superblock e;
      Ret (Some k, e)
  end.

(** [free_block] *)
Definition free_block e (block : Z) : outcome Ext2 :=
  if block =? 0 then Ret e else
  bgd ← get_bg_descriptor e 0;
  bm ← read_blocks e (bg_block_bitmap bgd) page;
  if zlen bm <=? block / 8 then Ret e else
  e ← write_blocks e (bg_block_bitmap bgd) (clear_bit bm block);
  count ← add_u 16 (bg_free_blocks_count bgd) 1;
  e ← write_bg_descriptor e 0 (bgd <| bg_free_blocks_count := count |>);
  update_superblock e.

(** [free_inode] *)
Definition free_inode e (n : Z) : outcome Ext2 :=
  n1 ← sub_u n 1;
  group ← div_u n1 (s_inodes_per_group (superblock e));
  bgd ← get_bg_descriptor e group;
  bm ← read_blocks e (bg_inode_bitmap bgd) page;
  index ← rem_u n1 (s_inodes_per_group (superblock e));
  e ← (if zlen bm <=? index / 8 then Ret e else
       e ← write_blocks e (bg_inode_bitmap bgd) (clear_bit bm index);
       count ← add_u 16 (bg_free_inodes_count bgd) 1;
       e ← write_bg_descriptor e group (bgd <| bg_free_inodes_count := count |>);
       update_superblock e);
  write_inode e n (zeroed _).

(** ** The blocks of a file *)

(** Entry [k] of an indirect block. *)
Definition ptr_at (buf : list Z) (k : Z) : outcome Z :=
  if zlen buf <? k * 4 + 4 then Panic else Ret (of_le (slice buf (Z.to_nat (k * 4)) 4)).
Definition nonzero (b : Z) : option Z := if b =? 0 then None else Some b.

(** An indirect block into a buffer of the block size, with one of its
    entries; a zero block number is a hole. *)
Definition through e (buf : list Z) (block k : Z) : outcome (option (Z * list Z)) :=
  if block =? 0 then Ret None else
  buf ← read_blocks e block buf;
  b ← ptr_at buf k;
  Ret (Some (b, buf)).

(** [resolve_block] *)
Definition resolve_block e i (logical : Z) : outcome (option Z) :=
  let n := block_size e / 4 in
  let buf := zeros (block_size e) in
  if logical <? 12 then b ← idx (i_block i) logical; Ret (nonzero b) else
  let off := logical - 12 in
  if off <? n then
    b12 ← idx (i_block i) 12;
    o ← through e buf b12 off;
    Ret ('(b, _) ← o; nonzero b)
  else
  let off := off - n in
  nn ← mul_u 32 n n;
  if off <? nn then
    b13 ← idx (i_block i) 13;
    o ← through e buf b13 (off / n);
    match o with
    | None => Ret None
    | Some (b1, buf) => o ← through e buf b1 (off mod n); Ret ('(b, _) ← o; nonzero b)
    end
  else
  let off := off - nn in
  nnn ← mul_u 32 nn n;
  if off <? nnn then
    b14 ← idx (i_block i) 14;
    o ← through e buf b14 (off / nn);
    match o with
    | None => Ret None
    | Some (b1, buf) =>
        o ← through e buf b1 ((off / n) mod n);
        match o with
        | None => Ret None
        | Some (b2, buf) => o ← through e buf b2 (off mod n); Ret ('(b, _) ← o; nonzero b)
        end
    end
  else Ret None.

(** A new block, filled with zeros. *)
Definition alloc_zeroed e : outcome (option Z * Ext2) :=
  '(o, e) ← alloc_block e;
  match o with
  | Some b => e ← write_blocks e b (zeros (block_size e)); Ret (Some b, e)
  | None => Ret (None, e)
  end.

Definition set_i_block i (k b : Z) : outcome Ext2Inode := l ← upd (i_block i) k b; Ret (i <| i_block := l |>).

(** [ensure_file_block]; the inode may change also when it fails. *)
Definition ensure_file_block e i (logical : Z) : outcome (option Z * Ext2Inode * Ext2) :=
  if 12 + block_size e / 4 <=? logical then Ret (None, i, e) else
  if logical <? 12 then
    b ← idx (i_block i) logical;
    if b =? 0 then
      '(o, e) ← alloc_zeroed e;
      match o with
      | None => Ret (None, i, e)
      | Some b => i ← set_i_block i logical b; Ret (Some b, i, e)
      end
    else Ret (Some b, i, e)
  else
  b12 ← idx (i_block i) 12;
  '(o, e) ← (if b12 =? 0 then alloc_zeroed e else Ret (Some b12, e));
  match o with
  | None => Ret (None, i, e)
  | Some table =>
      i ← set_i_block i 12 table;
      buf ← read_blocks e table (zeros (block_size e));
      b ← ptr_at buf (logical - 12);
      if b =? 0 then
        '(o, e) ← alloc_zeroed e;
        match o with
        | None => Ret (None, i, e)
        | Some b =>
            e ← write_blocks e table (splice buf (Z.to_nat ((logical - 12) * 4)) (le_bytes 4 b));
            Ret (Some b, i, e)
        end
      else Ret (Some b, i, e)
  end.

(** ** Directories *)

Definition is_dir i : bool := Z.land (i_mode i) 0xF000 =? 0x4000.
Definition is_reg i : bool := Z.land (i_mode i) 0xF000 =? 0x8000.

(** The name of the entry at an offset. *)
Definition entry_name (buf : list Z) (off : Z) (d : Ext2DirEntry) : list Z := slice buf (Z.to_nat (off + 8)) (Z.to_nat (name_len d)).

(** The scan of one block by [find_dir_entry]; a block of [bs] bytes has at
    most [bs] entries, which bounds the fuel. *)
Fixpoint find_in_block (fuel : nat) (bs : Z) (buf : list Z) (name : path) (off : Z) : outcome (option Z) :=
  match fuel with
  | O => Panic
  | S fuel =>
      if bs <? off + 8 then Ret None else
      d ← struct_at buf off;
      if (rec_len d =? 0) || (bs - off <? rec_len d) then Ret None else
      let name_end := off + 8 + name_len d in
      if (bs <? name_end) || (off + rec_len d <? name_end) then Ret None else
      if negb (d_inode d =? 0) && bool_decide (utf8_or [] (entry_name buf off d) = name) then Ret (Some (d_inode d))
      else find_in_block fuel bs buf name (off + rec_len d)
  end.

(** The loop over the direct blocks. *)
Fixpoint find_in_blocks e (blocks : list Z) (name : path) : outcome (option Z) :=
  match blocks with
  | [] => Ret None
  | b :: blocks =>
      if b =? 0 then Ret None else
      buf ← read_blocks e b page;
      o ← find_in_block (S (Z.to_nat (block_size e))) (block_size e) buf name 0;
      match o with Some n => Ret (Some n) | None => find_in_blocks e blocks name end
  end.

(** [find_dir_entry] *)
Definition find_dir_entry e (dir : Z) (name : path) : outcome (option Z) :=
  i ← read_inode e dir;
  if negb (is_dir i) then Ret None else find_in_blocks e (take 12 (i_block i)) name.

(** [Ext2::resolve_path] *)
Fixpoint walk_path e (parts : list path) (n : Z) : outcome (option Z) :=
  match parts with
  | [] => Ret (Some n)
  | p :: parts => o ← find_dir_entry e n p; match o with Some n => walk_path e parts n | None => Ret None end
  end.
Definition ext2_resolve_path e (p : path) : outcome (option Z) :=
  if negb (mounted e) then Ret None else
  if bool_decide (p = [slash] \/ p = []) then Ret (Some 2) else
  walk_path e (List.filter (fun s => negb (bool_decide (s = []))) (Vfs.split p)) 2.

(** [split_path] *)
Fixpoint rfind (p : path) : option nat :=
  match p with
  | [] => None
  | c :: p => match rfind p with Some k => Some (S k) | None => if c =? slash then Some O else None end
  end.
Definition split_path (p : path) : option (path * path) :=
  if bool_decide (p = [slash] \/ p = []) then None else
  let p := trim_end p in
  match rfind p with
  | Some pos =>
      let parent := if (pos =? 0)%nat then [slash] else take pos p in
      match drop (S pos) p with [] => None | name => Some (parent, name) end
  | None => Some ([slash], p)
  end.

(** The walk of [add_dir_entry] to the end of the entries of a block: the
    offset reached and that of the last entry. *)
Fixpoint walk_entries (fuel : nat) (bs : Z) (buf : list Z) (off last : Z) : outcome (Z * Z) :=
  match fuel with
  | O => Panic
  | S fuel =>
      if bs <? off + 8 then Ret (off, last) else
      d ← struct_at buf off;
      if (rec_len d =? 0) || (bs - off <? rec_len d) then Ret (off, last)
      else walk_entries fuel bs buf (off + rec_len d) off
  end.

(** The space an entry with a name of this length takes. *)
Definition entry_len (n : Z) : Z := Z.land (8 + n + 3) (not_u 32 3).

(** The attempt of [add_dir_entry] to put an entry into a block. *)
Definition add_in_block (bs : Z) (buf name : list Z) (n ftype : Z) : outcome (option (list Z)) :=
  let name_len' := zlen name mod 256 in
  let need := entry_len name_len' in
  '(off, last) ← walk_entries (S (Z.to_nat bs)) bs buf 0 0;
  if bs <? off + need then Ret None else
  '(buf, off) ← (if last =? off then Ret (buf, off) else
     prev ← struct_at buf last;
     let prev_min := entry_len (name_len prev) in
     if prev_min <? rec_len prev then
       buf ← put_struct buf last (prev <| rec_len := prev_min |>);
       Ret (buf, last + prev_min)
     else Ret (buf, off));
  if bs <? off + need then Ret None else
  len ← sub_u (bs mod 2 ^ 16) (off mod 2 ^ 16);
  buf ← put_struct buf off (mkDirent n len name_len' ftype);
  Ret (Some (splice buf (Z.to_nat (off + 8)) (take (Z.to_nat name_len') name))).

(** The loop of [add_dir_entry] over the direct blocks from [k] on. *)
Fixpoint add_in_blocks (fuel : nat) e (dir : Z) i (k : Z) (name : path) (n ftype : Z) : outcome (bool * Ext2) :=
  match fuel with
  | O => Ret (false, e)
  | S fuel =>
      b ← idx (i_block i) k;
      '(o, i, e) ← (if b =? 0 then
          '(o, e) ← alloc_block e;
          match o with
          | None => Ret (None, i, e)
          | Some b =>
              i ← set_i_block i k b;
              size ← add_u 32 (i_size i) (block_size e);
              blocks ← add_u 32 (i_blocks i) (block_size e / 512);
              let i := i <| i_size := size |> <| i_blocks := blocks |> in
              e ← write_inode e dir i;
              e ← write_blocks e b page;
              Ret (Some b, i, e)
          end
        else Ret (Some b, i, e));
      match o with
      | None => Ret (false, e)
      | Some b =>
          buf ← read_blocks e b page;
          o ← add_in_block (block_size e) buf name n ftype;
          match o with
          | Some buf => e ← write_blocks e b buf; Ret (true, e)
          | None => add_in_blocks fuel e dir i (k + 1) name n ftype
          end
      end
  end.

(** [add_dir_entry] *)
Definition add_dir_entry e (dir : Z) (name : path) (n ftype : Z) : outcome (bool * Ext2) :=
  i ← read_inode e dir;
  if negb (is_dir i) then Ret (false, e) else add_in_blocks 12 e dir i 0 name n ftype.

(** The scan of one block by [remove_dir_entry]: the offset of the entry. *)
Fixpoint find_name (fuel : nat) (bs : Z) (buf : list Z) (name : path) (off : Z) : outcome (option (Z * Ext2DirEntry)) :=
  match fuel with
  | O => Panic
  | S fuel =>
      if bs <? off + 8 then Ret None else
      d ← struct_at buf off;
      if rec_len d =? 0 then Ret None else
      if zlen buf <? off + 8 + name_len d then Panic else
      if bool_decide (utf8_or [] (entry_name buf off d) = name) then Ret (Some (off, d))
      else find_name fuel bs buf name (off + rec_len d)
  end.
Fixpoint remove_in_blocks e (blocks : list Z) (name : path) : outcome (bool * Ext2) :=
  match blocks with
  | [] => Ret (false, e)
  | b :: blocks =>
      if b =? 0 then Ret (false, e) else
      buf ← read_blocks e b page;
      o ← find_name (S (Z.to_nat (block_size e))) (block_size e) buf name 0;
      match o with
      | Some (off, d) =>
          buf ← put_struct buf off (d <| d_inode := 0 |>);
          e ← write_blocks e b buf;
          Ret (true, e)
      | None => remove_in_blocks e blocks name
      end
  end.

(** [remove_dir_entry] *)
Definition remove_dir_entry e (dir : Z) (name : path) : outcome (bool * Ext2) :=
  i ← read_inode e dir;
  if negb (is_dir i) then Ret (false, e) else remove_in_blocks e (take 12 (i_block i)) name.

(** [init_directory_block] *)
Definition init_directory_block e (block self parent : Z) : outcome (bool * Ext2) :=
  buf ← put_struct page 0 (mkDirent self 12 1 2);
  let buf := splice buf 8 [dot] in
  len ← sub_u (block_size e) 12;
  buf ← put_struct buf 12 (mkDirent parent (len mod 2 ^ 16) 2 2);
  let buf := splice buf 20 [dot; dot] in
  e ← write_blocks e block buf;
  Ret (true, e).

(** [update_dotdot] *)
Fixpoint find_dotdot (fuel : nat) (bs : Z) (buf : list Z) (off : Z) : outcome (option (Z * Ext2DirEntry)) :=
  match fuel with
  | O => Panic
  | S fuel =>
      if bs <? off + 8 then Ret None else
      d ← struct_at buf off;
      if (rec_len d =? 0) || (bs - off <? rec_len d) then Ret None else
      if bs <? off + 8 + name_len d then Ret None else
      if bool_decide (entry_name buf off d = [dot; dot]) then Ret (Some (off, d))
      else find_dotdot fuel bs buf (off + rec_len d)
  end.
Definition update_dotdot e (dir parent : Z) : outcome (bool * Ext2) :=
  i ← read_inode e dir;
  b ← idx (i_block i) 0;
  if b =? 0 then Ret (false, e) else
  buf ← read_blocks e b page;
  o ← find_dotdot (S (Z.to_nat (block_size e))) (block_size e) buf 0;
  match o with
  | Some (off, d) => buf ← put_struct buf off (d <| d_inode := parent |>); e ← write_blocks e b buf; Ret (true, e)
  | None => Ret (false, e)
  end.

(** The scan of one block by [list_directory_entries]. *)
Fixpoint list_block (fuel : nat) e (buf : list Z) (off : Z) : outcome (list DirEntry) :=
  match fuel with
  | O => Panic
  | S fuel =>
      if block_size e <? off + 8 then Ret [] else
      d ← struct_at buf off;
      if (rec_len d =? 0) || (block_size e - off <? rec_len d) then Ret [] else
      if d_inode d =? 0 then list_block fuel e buf (off + rec_len d) else
      if block_size e <? off + 8 + name_len d then Ret [] else
      size ← (if file_type d =? 1 then i ← read_inode e (d_inode d); Ret (i_size i) else Ret 0);
      rest ← list_block fuel e buf (off + rec_len d);
      Ret (mkEntry (d_inode d) (utf8_or [0x3F; 0x3F; 0x3F] (entry_name buf off d)) (file_type d) size :: rest)
  end.
Fixpoint list_blocks e (blocks : list Z) : outcome (list DirEntry) :=
  match blocks with
  | [] => Ret []
  | b :: blocks =>
      if b =? 0 then Ret [] else
      buf ← read_blocks e b page;
      l ← list_block (S (Z.to_nat (block_size e))) e buf 0;
      rest ← list_blocks e blocks;
      Ret (l ++ rest)
  end.

(** [Ext2::list_directory_entries], [list_directory_entries_by_inode] *)
Definition ext2_list e (p : path) : outcome (option (list DirEntry)) :=
  o ← ext2_resolve_path e p;
  match o with
  | None => Ret None
  | Some n =>
      i ← read_inode e n;
      if negb (is_dir i) then Ret None else l ← list_blocks e (take 12 (i_block i)); Ret (Some l)
  end.
Definition list_directory_entries_by_inode e (n : Z) : outcome (option (list DirEntry)) :=
  i ← read_inode e n; if negb (is_dir i) then Ret None else Ret None.

(** ** File contents *)

(** The loop of [read_file_by_inode] from block [k] on. *)
Fixpoint read_all (n : nat) e i (k : Z) : outcome (list Z) :=
  match n with
  | O => Ret []
  | S n =>
      o ← resolve_block e i k;
      match o with
      | None => Ret []
      | Some b =>
          buf ← read_blocks e b (zeros (block_size e));
          let start := k * block_size e in
          let stop := Z.min (start + block_size e) (i_size i) in
          rest ← read_all n e i (k + 1);
          Ret (take (Z.to_nat (stop - start)) buf ++ rest)
      end
  end.

(** [(n + block_size - 1) / block_size] *)
Definition blocks_for e (n : Z) : outcome Z :=
  s ← add_u 32 n (block_size e); s ← sub_u s 1; div_u s (block_size e).

(** [read_file_by_inode] *)
Definition read_file_by_inode e (n : Z) : outcome (option (list Z)) :=
  i ← read_inode e n;
  if negb (is_reg i) then Ret None else
  count ← blocks_for e (i_size i);
  data ← read_all (Z.to_nat count) e i 0;
  Ret (Some data).

(** The loop of [write_file_by_inode] from block [k] on. *)
Fixpoint write_all (n : nat) e i (k : Z) (data : list Z) : outcome (bool * Ext2Inode * Ext2) :=
  match n with
  | O => Ret (true, i, e)
  | S n =>
      '(o, i, e) ← ensure_file_block e i k;
      match o with
      | None => Ret (false, i, e)
      | Some b =>
          let start := Z.to_nat (k * block_size e) in
          let part := slice data start (Z.to_nat (block_size e)) in
          e ← write_blocks e b (splice (zeros (block_size e)) 0 part);
          write_all n e i (k + 1) data
      end
  end.

(** The sectors a file of [n] blocks takes, with its indirect block. *)
Definition sectors_for e (n : Z) : outcome Z :=
  total ← add_u 32 n (if 12 <? n then 1 else 0); mul_u 32 total (block_size e / 512).

(** [write_file_by_inode] *)
Definition write_file_by_inode (now : Z) e (n : Z) (data : list Z) : outcome (bool * Ext2) :=
  i ← read_inode e n;
  if negb (is_reg i) then Ret (false, e) else
  count ← blocks_for e (zlen data);
  if 12 + block_size e / 4 <? count then Ret (false, e) else
  '(ok, i, e) ← write_all (Z.to_nat count) e i 0 data;
  if negb ok then Ret (false, e) else
  need ← sectors_for e count;
  e ← write_inode e n (i <| i_size := zlen data |> <| i_mtime := now |> <| i_ctime := now |> <| i_blocks := Z.max (i_blocks i) need |>);
  Ret (true, e).

(** [read_file_path], [write_file_path] *)
Definition read_file_path e (p : path) : outcome (option (list Z)) :=
  o ← ext2_resolve_path e p; match o with Some n => read_file_by_inode e n | None => Ret None end.
Definition write_file_path (now : Z) e (p : path) (data : list Z) : outcome (bool * Ext2) :=
  o ← ext2_resolve_path e p; match o with Some n => write_file_by_inode now e n data | None => Ret (false, e) end.

(** The loop of [create_new_file]: block [k] of the data to a new block, whose
    number goes to the inode or to the indirect block.  The last block is
    written from memory past the end of the data, [after]. *)
Fixpoint create_blocks (after : list Z) (n : nat) e i (indirect : list Z) (k : Z) (data : list Z)
    : outcome (option (Ext2Inode * list Z) * Ext2) :=
  match n with
  | O => Ret (Some (i, indirect), e)
  | S n =>
      '(o, e) ← alloc_block e;
      match o with
      | None => Ret (None, e)
      | Some b =>
          if (12 <=? k) && (zlen indirect <? (k - 12) * 4 + 4) then Ret (None, e) else
          i ← (if k <? 12 then set_i_block i k b else Ret i);
          let indirect := if k <? 12 then indirect else splice indirect (Z.to_nat ((k - 12) * 4)) (le_bytes 4 b) in
          let start := Z.to_nat (k * block_size e) in
          e ← write_blocks e b (drop start (data ++ after));
          create_blocks after n e i indirect (k + 1) data
      end
  end.

(** The inode that [create_new_file] and [mkdir_path] start from. *)
Definition new_inode (mode size links blocks now : Z) : Ext2Inode :=
  mkInode mode 0 size now now now 0 0 links blocks 0 0 (replicate 15 0) 0 0 0 0 0.

(** [create_new_file] *)
Definition create_new_file (now : Z) (after : list Z) e (p : path) (data : list Z) : outcome (bool * Ext2) :=
  if negb (mounted e) then Ret (false, e) else
  match split_path p with
  | None => Ret (false, e)
  | Some (parent_path, name) =>
      o ← ext2_resolve_path e parent_path;
      match o with
      | None => Ret (false, e)
      | Some parent =>
          pi ← read_inode e parent;
          if negb (is_dir pi) then Ret (false, e) else
          '(o, e) ← alloc_inode e;
          match o with
          | None => Ret (false, e)
          | Some n =>
              count ← blocks_for e (zlen data);
              if 12 + block_size e / 4 <? count then Ret (false, e) else
              '(o, e) ← (if 12 <? count then alloc_block e else Ret (Some 0, e));
              match o with
              | None => Ret (false, e)
              | Some indirect_block =>
                  let i := new_inode (Z.lor 0x8000 0x1A4) (zlen data) 1 (count * (block_size e / 512)) now in
                  '(o, e) ← create_blocks after (Z.to_nat count) e i page 0 data;
                  match o with
                  | None => Ret (false, e)
                  | Some (i, indirect) =>
                      '(i, e) ← (if 12 <? count then
                          i ← set_i_block i 12 indirect_block; e ← write_blocks e indirect_block indirect; Ret (i, e)
                        else Ret (i, e));
                      need ← sectors_for e count;
                      e ← write_inode e n (i <| i_blocks := need |>);
                      add_dir_entry e parent name n 1
                  end
              end
          end
      end
  end.

(** [create_file_path] *)
Definition create_file_path (now : Z) (after : list Z) e (p : path) (data : list Z) : outcome (bool * Ext2) :=
  o ← ext2_resolve_path e p;
  match o with Some n => write_file_by_inode now e n data | None => create_new_file now after e p data end.

(** [free_blocks_of_inode] *)
Fixpoint free_blocks e (blocks : list Z) : outcome Ext2 :=
  match blocks with
  | [] => Ret e
  | b :: blocks => e ← (if b =? 0 then Ret e else free_block e b); free_blocks e blocks
  end.
Definition free_blocks_of_inode e (n : Z) : outcome Ext2 := i ← read_inode e n; free_blocks e (take 12 (i_block i)).

(** The name of a file in the root directory. *)
Definition root_name (p : path) : option path :=
  name ← strip_prefix [slash] p; if existsb (Z.eqb slash) name then None else Some name.

(** [remove_file_path] *)
Definition remove_file_path e (p : path) : outcome (bool * Ext2) :=
  if negb (mounted e) then Ret (false, e) else
  o ← ext2_resolve_path e p;
  match o with
  | None => Ret (false, e)
  | Some n =>
      i ← read_inode e n;
      if is_dir i then Ret (false, e) else
      match root_name p with
      | None => Ret (false, e)
      | Some name =>
          '(ok, e) ← remove_dir_entry e 2 name;
          if negb ok then Ret (false, e) else
          e ← free_blocks_of_inode e n;
          e ← free_inode e n;
          Ret (true, e)
      end
  end.

(** [mkdir_path] *)
Definition mkdir_path (now : Z) e (p : path) : outcome (bool * Ext2) :=
  if negb (mounted e) then Ret (false, e) else
  o ← ext2_resolve_path e p;
  match o with
  | Some _ => Ret (false, e)
  | None =>
      match root_name p with
      | None => Ret (false, e)
      | Some name =>
          '(o, e) ← alloc_inode e;
          match o with
          | None => Ret (false, e)
          | Some n =>
              '(o, e) ← alloc_block e;
              match o with
              | None => Ret (false, e)
              | Some b =>
                  i ← set_i_block (new_inode (Z.lor 0x4000 0x1ED) (block_size e) 2 (block_size e / 512) now) 0 b;
                  e ← write_inode e n i;
                  '(ok, e) ← init_directory_block e b n 2;
                  if negb ok then Ret (false, e) else add_dir_entry e 2 name n 2
              end
          end
      end
  end.

(** The decimal digits of an inode number, for [format!]. *)
Fixpoint digits (fuel : nat) (n : Z) : list Z :=
  match fuel with
  | O => []
  | S fuel => (if n <? 10 then [] else digits fuel (n / 10)) ++ [48 + n mod 10]
  end.

(** [rmdir_path] and [remove_directory_contents], which call each other. *)
Fixpoint rmdir_path (fuel : nat) e (p : path) : outcome (bool * Ext2) :=
  match fuel with
  | O => Panic
  | S fuel =>
      if negb (mounted e) then Ret (false, e) else
      o ← ext2_resolve_path e p;
      match o with
      | None => Ret (false, e)
      | Some n =>
          i ← read_inode e n;
          if negb (is_dir i) then Ret (false, e) else
          '(ok, e) ← (
            o ← list_directory_entries_by_inode e n;
            match o with
            | None => Ret (false, e)
            | Some entries =>
                (fix contents (l : list DirEntry) e : outcome (bool * Ext2) :=
                   match l with
                   | [] => Ret (true, e)
                   | d :: l =>
                       if bool_decide (e_name d = [dot] \/ e_name d = [dot; dot]) then contents l e else
                       let full := slash :: digits 10 n ++ slash :: e_name d in
                       '(ok, e) ← (if e_type d =? 2 then rmdir_path fuel e full else remove_file_path e full);
                       if ok : bool then contents l e else Ret (false, e)
                   end) entries e
            end);
          if negb ok then Ret (false, e) else
          match root_name p with
          | None => Ret (false, e)
          | Some name =>
              '(ok, e) ← remove_dir_entry e 2 name;
              if negb ok then Ret (false, e) else
              b ← idx (i_block i) 0;
              e ← (if b =? 0 then Ret e else free_block e b);
              e ← free_inode e n;
              Ret (true, e)
          end
      end
  end.

(** [metadata_by_inode] *)
Definition metadata_by_inode e (n : Z) : outcome (option Metadata) :=
  if negb (mounted e) || (n =? 0) then Ret None else
  i ← read_inode e n;
  if i_mode i =? 0 then Ret None else
  Ret (Some (mkMeta n (i_mode i) (i_links_count i) (i_uid i) (i_gid i) 0 (i_size i) (block_size e) (i_blocks i)
               (i_atime i) (i_mtime i) (i_ctime i))).

(** [is_directory_empty] *)
Fixpoint count_entries (fuel : nat) (bs : Z) (buf : list Z) (off : Z) : outcome Z :=
  match fuel with
  | O => Panic
  | S fuel =>
      if bs <? off + 8 then Ret 0 else
      d ← struct_at buf off;
      let one := if d_inode d =? 0 then 0 else 1 in
      if rec_len d =? 0 then Ret one else
      rest ← count_entries fuel bs buf (off + rec_len d); Ret (one + rest)
  end.
Definition is_directory_empty e (dir : Z) : outcome bool :=
  i ← read_inode e dir;
  b ← idx (i_block i) 0;
  if b =? 0 then Ret true else
  buf ← read_blocks e b page;
  count ← count_entries (S (Z.to_nat (block_size e))) (block_size e) buf 0;
  Ret (count <=? 2).

(** The test of [rename_path] that the new parent lies inside the directory. *)
Definition inside (parent old : path) : bool :=
  let old := trim_end old in
  let parent := trim_end parent in
  bool_decide (parent = old) || (starts_with old parent && bool_decide (get parent (zlen old) = Some slash)).

(** The last part of [rename_path], with the new entry in place. *)
Definition finish_rename (now : Z) e (n old_parent new_parent : Z) i (old_name new_name : path) : outcome (bool * Ext2) :=
  '(ok, e) ← remove_dir_entry e old_parent old_name;
  if negb ok then '(_, e) ← remove_dir_entry e new_parent new_name; Ret (false, e) else
  '(ok, e) ← (if is_dir i && negb (old_parent =? new_parent) then
      '(ok, e) ← update_dotdot e n new_parent;
      if negb ok then Ret (false, e) else
      op ← read_inode e old_parent;
      np ← read_inode e new_parent;
      e ← write_inode e old_parent (op <| i_links_count := saturating_sub (i_links_count op) 1 |> <| i_mtime := now |> <| i_ctime := now |>);
      e ← write_inode e new_parent (np <| i_links_count := saturating_add 16 (i_links_count np) 1 |> <| i_mtime := now |> <| i_ctime := now |>);
      Ret (true, e)
    else Ret (true, e));
  if negb ok then Ret (false, e) else
  e ← write_inode e n (i <| i_ctime := now |>);
  Ret (true, e).

(** [rename_path] *)
Definition rename_path (now : Z) e (old new : path) : outcome (bool * Ext2) :=
  if negb (mounted e) || bool_decide (old = [slash]) || bool_decide (new = [slash]) || bool_decide (old = new) then Ret (false, e) else
  o ← ext2_resolve_path e old;
  match o with
  | None => Ret (false, e)
  | Some n =>
      o ← ext2_resolve_path e new;
      match o, split_path old, split_path new with
      | None, Some (old_parent_path, old_name), Some (new_parent_path, new_name) =>
          o1 ← ext2_resolve_path e old_parent_path;
          match o1 with
          | None => Ret (false, e)
          | Some old_parent =>
              o2 ← ext2_resolve_path e new_parent_path;
              match o2 with
              | None => Ret (false, e)
              | Some new_parent =>
                  op ← read_inode e old_parent;
                  np ← (if is_dir op then read_inode e new_parent else Ret op);
                  if negb (is_dir op) || negb (is_dir np) then Ret (false, e) else
                  i ← read_inode e n;
                  if is_dir i && inside new_parent_path old then Ret (false, e) else
                  '(ok, e) ← add_dir_entry e new_parent new_name n (if is_dir i then 2 else 1);
                  if negb ok then Ret (false, e) else finish_rename now e n old_parent new_parent i old_name new_name
              end
          end
      | _, _, _ => Ret (false, e)
      end
  end.

(** The loop of [read_at]; every pass reads at least one byte. *)
Fixpoint read_span (fuel : nat) e i (off todo : Z) : outcome (list Z) :=
  match fuel with
  | O => Panic
  | S fuel =>
      if todo <=? 0 then Ret [] else
      o ← resolve_block e i (off / block_size e mod 2 ^ 32);
      match o with
      | None => Ret []
      | Some b =>
          buf ← read_blocks e b (zeros (block_size e));
          let in_block := off mod block_size e in
          let can := Z.min todo (block_size e - in_block) in
          rest ← read_span fuel e i (off + can) (todo - can);
          Ret (slice buf (Z.to_nat in_block) (Z.to_nat can) ++ rest)
      end
  end.

(** [read_at] into a buffer: the count and the buffer. *)
Definition ext2_read_at e (n off : Z) (buf : list Z) : outcome (Z * list Z) :=
  i ← read_inode e n;
  if negb (is_reg i) then Ret (0, buf) else
  if i_size i <=? off then Ret (0, buf) else
  let to_read := Z.min (zlen buf) (i_size i - off) in
  if (0 <? to_read) && (block_size e =? 0) then Panic else
  data ← read_span (S (Z.to_nat to_read)) e i off to_read;
  Ret (zlen data, splice buf 0 data).

(** The loop of [write_at]; every pass writes at least one byte. *)
Fixpoint write_span (fuel : nat) e i (off : Z) (data : list Z) : outcome (Z * Ext2Inode * Ext2) :=
  match fuel with
  | O => Panic
  | S fuel =>
      match data with
      | [] => Ret (0, i, e)
      | _ =>
          let index := off / block_size e mod 2 ^ 32 in
          if 12 + block_size e / 4 <=? index then Ret (0, i, e) else
          '(o, i, e) ← ensure_file_block e i index;
          match o with
          | None => Ret (0, i, e)
          | Some b =>
              let in_block := off mod block_size e in
              let can := Z.min (zlen data) (block_size e - in_block) in
              buf ← read_blocks e b (zeros (block_size e));
              e ← write_blocks e b (splice buf (Z.to_nat in_block) (take (Z.to_nat can) data));
              '(n, i, e) ← write_span fuel e i (off + can) (drop (Z.to_nat can) data);
              Ret (can + n, i, e)
          end
      end
  end.

(** [write_at] *)
Definition ext2_write_at (now : Z) e (n off : Z) (data : list Z) : outcome (Z * Ext2) :=
  match data with
  | [] => Ret (0, e)
  | _ =>
      i ← read_inode e n;
      if negb (is_reg i) then Ret (0, e) else
      if block_size e =? 0 then Panic else
      '(written, i, e) ← write_span (S (length data)) e i off data;
      stop ← add_u 64 off written;
      let size := Z.max (i_size i) stop mod 2 ^ 32 in
      used ← blocks_for e size;
      need ← sectors_for e used;
      let i := i <| i_size := size |> <| i_blocks := Z.max (i_blocks i) need |> in
      let i := if written =? 0 then i else i <| i_mtime := now |> <| i_ctime := now |> in
      e ← write_inode e n i;
      Ret (written, e)
  end.

(** ** Partitions and formatting *)

(** [find_ext2_partition_config]: the first entry of type 0x83 of a valid
    partition table, or the whole disk. *)
Fixpoint find_partition (mbr : list Z) (entry : nat) (n : nat) : Z :=
  match n with
  | O => 0
  | S n => if field_at mbr (entry + 4) 1 =? 0x83 then field_at mbr (entry + 8) 4 else find_partition mbr (entry + 16) n
  end.
Definition find_ext2_partition_config (d : D) : outcome Z :=
  o ← read_sectors d 1 0;
  Ret (match o with
       | None => 0
       | Some mbr => if (field_at mbr 510 1 =? 0x55) && (field_at mbr 511 1 =? 0xAA) then find_partition mbr 446 4 else 0
       end).

(** [Ext2::new_with_auto_partition] *)
Definition new_with_auto_partition (d : D) : outcome Ext2 := lba ← find_ext2_partition_config d; Ret (ext2_new d lba).

(** The superblock that [format] builds. *)
Definition format_super (block_size total_blocks inodes first_data_block free_blocks : Z) : list Z :=
  let log := if block_size =? 2048 then 1 else if block_size =? 4096 then 2 else 0 in
  pack [(4%nat, inodes); (4%nat, total_blocks); (4%nat, 0); (4%nat, free_blocks); (4%nat, saturating_sub inodes 11);
        (4%nat, first_data_block); (4%nat, log); (4%nat, log); (4%nat, total_blocks); (4%nat, total_blocks); (4%nat, inodes);
        (4%nat, 0); (4%nat, 0); (2%nat, 0); (2%nat, 0xFFFF); (2%nat, EXT2_MAGIC); (2%nat, 1); (2%nat, 1); (2%nat, 0);
        (4%nat, 0); (4%nat, 0); (4%nat, 0); (4%nat, 1); (2%nat, 0); (2%nat, 0); (4%nat, 11); (2%nat, 128); (2%nat, 0);
        (4%nat, 2); (4%nat, 0); (4%nat, 0); (16%nat, 0)] ++
  [0x52; 0x75; 0x73; 0x74; 0x4F; 0x53] ++ zeros 10 ++ zeros 896.

(** A block written by [format], which ignores errors. *)
Definition format_write (d : D) (partition_offset spb block : Z) (buf : list Z) : outcome D :=
  off ← mul_u 32 block spb;
  lba ← add_u 32 (partition_offset mod 2 ^ 32) off;
  o ← write_sectors d spb lba (take (Z.to_nat (spb * 512)) buf);
  Ret (default d o).
Fixpoint format_zero (n : nat) (d : D) (partition_offset spb block : Z) : outcome D :=
  match n with
  | O => Ret d
  | S n => d ← format_write d partition_offset spb block page; format_zero n d partition_offset spb (block + 1)
  end.
Definition set_bits (bm : list Z) (bits : list Z) : list Z := foldl set_bit bm bits.

(** [Ext2::format]; a group has all blocks of the partition, so no bits beyond
    its end are set. *)
Definition ext2_format (d : D) (partition_offset total_sectors bs : Z) : outcome Ext2 :=
  if negb (existsb (Z.eqb bs) [1024; 2048; 4096]) then Panic else
  let spb := bs / 512 in
  let total_blocks := total_sectors / spb mod 2 ^ 32 in
  if total_blocks <? 32 then Panic else
  let inodes := Z.min (Z.max (total_blocks / 4) 64) 16384 in
  let first_data_block := if bs =? 1024 then 1 else 0 in
  let bgd_blocks := (32 + bs - 1) / bs in
  let inode_table_blocks := (inodes * 128 + bs - 1) / bs in
  let block_bitmap_block := first_data_block + 1 + bgd_blocks in
  let inode_bitmap_block := block_bitmap_block + 1 in
  let inode_table_block := inode_bitmap_block + 1 in
  let first_free_block := inode_table_block + inode_table_blocks + 1 in
  if bs * 8 <? total_blocks then Panic else
  let free := saturating_sub total_blocks first_free_block in
  let sb := format_super bs total_blocks inodes first_data_block free in
  lba ← add_u 64 partition_offset 2;
  o ← write_sectors d 2 (lba mod 2 ^ 32) (take 1024 sb);
  let d := default d o in
  let bgd := mkBgd block_bitmap_block inode_bitmap_block inode_table_block (free mod 2 ^ 16) (saturating_sub inodes 11 mod 2 ^ 16) 1 0 0 in
  d ← format_write d partition_offset spb (first_data_block + 1) (splice page 0 (to_bytes bgd));
  d ← format_write d partition_offset spb block_bitmap_block (set_bits page (seqZ 0 first_free_block));
  d ← format_write d partition_offset spb inode_bitmap_block (set_bits page (seqZ 0 11));
  d ← format_zero (Z.to_nat inode_table_blocks) d partition_offset spb inode_table_block;
  let root_block := first_free_block in
  i ← set_i_block (new_inode (Z.lor 0x4000 0x1ED) bs 2 (bs / 512) 0) 0 root_block;
  d ← format_write d partition_offset spb (inode_table_block + 2 * 128 / bs) (splice page (Z.to_nat (2 * 128 mod bs)) (to_bytes i));
  let dir := splice (splice page 0 (to_bytes (mkDirent 2 12 1 2))) 8 [dot] in
  let dir := splice (splice dir 12 (to_bytes (mkDirent 2 ((bs - 12) mod 2 ^ 16) 2 2))) 20 [dot; dot] in
  d ← format_write d partition_offset spb root_block dir;
  let sb := format_super bs total_blocks inodes first_data_block (saturating_sub total_blocks (first_free_block + 1)) in
  Ret (mkExt2 sb bs true d partition_offset).

(** [Ext2::format_gb] *)
Definition format_gb (d : D) (partition_offset gb bs : Z) : outcome Ext2 :=
  a ← mul_u 64 gb 1024; b ← mul_u 64 a 1024; ext2_format d partition_offset (b / 512) bs.

(** [impl Filesystem for Ext2], with the clock and the memory that follows a
    caller's buffer. *)
Definition ext2_filesystem (now : Z) (after : list Z) : Filesystem Ext2 := {|
  fs_read_file := read_file_path;
  fs_write_file := write_file_path now;
  fs_create_file := create_file_path now after;
  fs_remove_file := remove_file_path;
  fs_mkdir := mkdir_path now;
  fs_rmdir := rmdir_path 2;
  fs_list_directory_entries := ext2_list;
  fs_resolve_path := ext2_resolve_path;
  fs_read_at := ext2_read_at;
  fs_write_at := ext2_write_at now;
  fs_metadata e p := o ← ext2_resolve_path e p; match o with Some n => metadata_by_inode e n | None => Ret None end;
  fs_metadata_inode := metadata_by_inode;
  fs_rename := rename_path now
|}.
End Ext2.
Arguments Ext2 : clear implicits.
