(* ===== verification/Ext2Layout.v ===== *)
(** * The layout of an ext2 filesystem

    Proofs about the model of [Ext2]: structures and blocks are read back as
    written, the inode table and the bitmaps of a single-group filesystem, and
    the allocation of blocks and inodes. *)

From S2P Require Import Prelude Bytes Disk Vfs Ext2.

(** ** Structures *)

Definition field_ok (w : nat) (z : Z) : Prop := 0 <= z < 256 ^ Z.of_nat w.

Definition bgd_typed (g : Ext2BlockGroupDescriptor) : Prop :=
  field_ok 4 (bg_block_bitmap g) /\ field_ok 4 (bg_inode_bitmap g) /\ field_ok 4 (bg_inode_table g) /\ field_ok 2 (bg_free_blocks_count g) /\
  field_ok 2 (bg_free_inodes_count g) /\ field_ok 2 (bg_used_dirs_count g) /\ field_ok 2 (bg_pad g) /\ field_ok 12 (bg_reserved g).
#[global] Instance Bgd_laws : PodLaws Ext2BlockGroupDescriptor bgd_typed.
Proof.
  constructor.
  - intros g _. exact (pack_length _).
  - intros g. apply pack_bytes.
  - intros g rest (H1 & H2 & H3 & H4 & H5 & H6 & H7 & H8). unfold of_bytes, to_bytes, Bgd_pod.
    rewrite (unpack_pack [(4%nat, bg_block_bitmap g); (4%nat, bg_inode_bitmap g); (4%nat, bg_inode_table g); (2%nat, bg_free_blocks_count g);
      (2%nat, bg_free_inodes_count g); (2%nat, bg_used_dirs_count g); (2%nat, bg_pad g); (12%nat, bg_reserved g)]) by (repeat first [apply Forall_nil_2|apply Forall_cons_2; [done|]]).
    by destruct g.
  - intros l. unfold of_bytes, Bgd_pod. by rewrite unpack_take.
Qed.

Definition dirent_typed (d : Ext2DirEntry) : Prop :=
  field_ok 4 (d_inode d) /\ field_ok 2 (rec_len d) /\ field_ok 1 (name_len d) /\ field_ok 1 (file_type d).
#[global] Instance Dirent_laws : PodLaws Ext2DirEntry dirent_typed.
Proof.
  constructor.
  - intros d _. exact (pack_length _).
  - intros d. apply pack_bytes.
  - intros d rest (H1 & H2 & H3 & H4). unfold of_bytes, to_bytes, Dirent_pod.
    rewrite (unpack_pack [(4%nat, d_inode d); (2%nat, rec_len d); (1%nat, name_len d); (1%nat, file_type d)]) by (repeat first [apply Forall_nil_2|apply Forall_cons_2; [done|]]).
    by destruct d.
  - intros l. unfold of_bytes, Dirent_pod. by rewrite unpack_take.
Qed.

(** An inode with fifteen block numbers and every field in its width. *)
Definition inode_typed (i : Ext2Inode) : Prop :=
  length (i_block i) = 15%nat /\ Forall2 field_ok inode_widths (inode_fields i).

Lemma fields_length i : length (i_block i) = 15%nat -> length (inode_fields i) = 32%nat.
Proof. intros H. unfold inode_fields. rewrite !length_app, H. done. Qed.

Lemma inode_of_fields_id i : length (i_block i) = 15%nat -> inode_of_fields (inode_fields i) = i.
Proof.
  intros H. unfold inode_fields, inode_of_fields. destruct i as [? ? ? ? ? ? ? ? ? ? ? ? l ? ? ? ? ?]. simpl in *.
  do 15 (destruct l as [|? l]; [done|]). by destruct l.
Qed.

Lemma zip_ok ws zs : Forall2 field_ok ws zs -> Forall (fun f => 0 <= f.2 < 256 ^ Z.of_nat f.1) (zip ws zs).
Proof. induction 1; constructor; done. Qed.

#[global] Instance Inode_laws : PodLaws Ext2Inode inode_typed.
Proof.
  constructor.
  - intros i [Hl _]. unfold to_bytes, Inode_pod. rewrite pack_length, fst_zip by (by rewrite fields_length). done.
  - intros i. apply pack_bytes.
  - intros i rest [Hl Hf]. unfold of_bytes, to_bytes, Inode_pod. pose proof (fields_length i Hl) as Hlen.
    rewrite <- (fst_zip inode_widths (inode_fields i)) at 1 by (by rewrite Hlen).
    rewrite unpack_pack, snd_zip by (rewrite ?Hlen; done || by apply zip_ok). by apply inode_of_fields_id.
  - intros l. unfold of_bytes, Inode_pod. by rewrite unpack_take.
Qed.

Lemma Forall2_replicate_inv {A B} (P : A -> B -> Prop) n x l : Forall2 P (replicate n x) l -> Forall (P x) l.
Proof. revert l. induction n as [|n IH]; intros l H; inversion H; subst; constructor; auto. Qed.

Lemma inode_typed_iff i : inode_typed i <->
  length (i_block i) = 15%nat /\ Forall (field_ok 4) (i_block i) /\
  Forall2 field_ok [2; 2; 4; 4; 4; 4; 4; 2; 2; 4; 4; 4]%nat
    [i_mode i; i_uid i; i_size i; i_atime i; i_ctime i; i_mtime i; i_dtime i; i_gid i; i_links_count i; i_blocks i; i_flags i; i_osd1 i] /\
  Forall2 field_ok [4; 4; 4; 4; 12]%nat [i_generation i; i_file_acl i; i_dir_acl i; i_faddr i; i_osd2 i].
Proof.
  unfold inode_typed, inode_widths, inode_fields. split; intros [Hl H]; (split; [done|]).
  - apply Forall2_app_inv in H as [H1 H]; [|done]. apply Forall2_app_inv in H as [H2 H3]; [|by rewrite Hl].
    split_and!; try done. by eapply Forall2_replicate_inv.
  - destruct H as (H2 & H1 & H3). apply Forall2_app; [done|]. apply Forall2_app; [|done]. by apply Forall2_replicate_l.
Qed.

(** ** Blocks *)

Section Blocks.
  Context {D : Type} `{!BlockDevice D} (sectors : D -> Z) (sector : D -> Z -> list Z) `{!BlockDeviceLaws D sectors sector}.
  Implicit Types (e : Ext2 D).

Definition spb e : Z := block_size e / 512.

(** The contents of a block. *)
Definition blk e (b : Z) : list Z := concat (sector (disk e) <$> seqZ (partition_offset e + b * spb e) (spb e)).

(** A filesystem of [nb] blocks of one of the sizes of [format] that lies on
    the device. *)
Record geom (nb : Z) e : Prop := {
  gm_size : block_size e = 1024 \/ block_size e = 2048 \/ block_size e = 4096;
  gm_offset : 0 <= partition_offset e;
  gm_device : partition_offset e + nb * spb e <= sectors (disk e) < 2 ^ 32;
  gm_some : 8 <= nb
}.

Variable nb : Z.

Lemma spb_bs e : geom nb e -> spb e * 512 = block_size e /\ 0 < spb e <= 8.
Proof. intros []. unfold spb. destruct gm_size0 as [-> | [-> | ->]]; split; try lia; done. Qed.

Lemma block_run e b : geom nb e -> 0 <= b < nb ->
  0 <= partition_offset e + b * spb e /\ partition_offset e + b * spb e + spb e <= sectors (disk e).
Proof. intros Hg Hb. pose proof (spb_bs e Hg). destruct Hg. nia. Qed.

Lemma block_lba_eq e b : geom nb e -> 0 <= b < nb -> block_lba e b = Ret (partition_offset e + b * spb e).
Proof.
  intros Hg Hb. pose proof (spb_bs e Hg) as [_ Hs]. pose proof (block_run e b Hg Hb). unfold block_lba. fold (spb e). destruct Hg.
  unfold mul_u. rewrite (proj2 (Z.ltb_lt _ _)) by nia. rewrite bind_Ret_l. rewrite Z.mod_small by nia. apply add_u_Ret. nia.
Qed.

Lemma blk_length e b : geom nb e -> 0 <= b < nb -> zlen (blk e b) = block_size e.
Proof.
  intros Hg Hb. pose proof (spb_bs e Hg) as [Hs Hp]. pose proof (block_run e b Hg Hb) as [H0 H1]. unfold blk, zlen.
  rewrite (concat_length_all 512); [rewrite length_fmap, length_seqZ; lia|]. apply Forall_fmap, Forall_forall. intros k Hk%elem_of_seqZ.
  simpl. apply sector_length. lia.
Qed.

Lemma read_blocks_eq e b buf : geom nb e -> 0 <= b < nb -> block_size e <= zlen buf -> read_blocks e b buf = Ret (splice buf 0 (blk e b)).
Proof.
  intros Hg Hb Hl. pose proof (spb_bs e Hg) as [Hs Hp]. pose proof (block_run e b Hg Hb) as [H0 H1]. unfold read_blocks.
  rewrite (proj2 (Z.eqb_neq _ _)) by (destruct (gm_size _ _ Hg); lia). rewrite block_lba_eq, bind_Ret_l by done. fold (spb e).
  rewrite Z.mod_small by lia. rewrite (read_run (sector := sector)) by lia. rewrite bind_Ret_l. fold (blk e b).
  by rewrite (proj2 (Z.ltb_ge _ _)) by (rewrite blk_length; done).
Qed.

(** The filesystem after block [b] was overwritten. *)
Record wrote e e' (b : Z) (data : list Z) : Prop := {
  wr_same : e' = e <| disk := disk e' |>;
  wr_geom : geom nb e';
  wr_blk : blk e' b = data;
  wr_other : forall b', 0 <= b' < nb -> b' <> b -> blk e' b' = blk e b'
}.

Lemma geom_disk e d : geom nb e -> sectors d = sectors (disk e) -> geom nb (e <| disk := d |>).
Proof. intros [] Hd. by constructor; simpl; rewrite ?Hd. Qed.

Lemma blk_sectors e d lba n data b : geom nb e -> 0 <= b < nb -> 0 <= lba -> lba + n <= sectors (disk e) -> sectors d = sectors (disk e) ->
  (forall k, 0 <= k < sectors (disk e) ->
     sector d k = if (lba <=? k) && (k <? lba + n) then slice data (Z.to_nat ((k - lba) * SECTOR_SIZE)) 512 else sector (disk e) k) ->
  (forall k, partition_offset e + b * spb e <= k < partition_offset e + b * spb e + spb e -> ~ lba <= k < lba + n) ->
  blk (e <| disk := d |>) b = blk e b.
Proof.
  intros Hg Hb Hl Hn Hd Hk Hdis. pose proof (block_run e b Hg Hb) as [H0 H1]. unfold blk. f_equal. apply list_fmap_ext.
  intros x k Hx%list_elem_of_lookup_2%elem_of_seqZ. change (sector d k = sector (disk e) k).
  change (spb (e <| disk := d |>)) with (spb e) in Hx. change (partition_offset (e <| disk := d |>)) with (partition_offset e) in Hx.
  rewrite Hk by lia. specialize (Hdis k ltac:(lia)). destruct (Z.leb_spec lba k), (Z.ltb_spec k (lba + n)); simpl; try done. lia.
Qed.

Lemma slices_concat (data : list Z) n : zlen data = Z.of_nat n * SECTOR_SIZE ->
  forall lba, concat ((fun k => slice data (Z.to_nat ((k - lba) * SECTOR_SIZE)) 512) <$> seqZ lba (Z.of_nat n)) = data.
Proof.
  intros Hl lba. pose proof (slice_concat data n 0 ltac:(lia)) as H. rewrite Z.add_0_l in H. specialize (H ltac:(lia)).
  assert (slice data (Z.to_nat (0 * SECTOR_SIZE)) (Z.to_nat (Z.of_nat n * SECTOR_SIZE)) = data) as Hd.
  { unfold slice. rewrite <- Hl, Z.mul_0_l. change (Z.to_nat 0) with O. rewrite drop_0. apply take_ge. unfold zlen. lia. }
  rewrite Hd in H. etrans; [|exact H]. f_equal.
  assert (seqZ lba (Z.of_nat n) = Z.add lba <$> seqZ 0 (Z.of_nat n)) as -> by (by rewrite fmap_add_seqZ, Z.add_0_r).
  rewrite <- list_fmap_compose.
  apply list_fmap_ext. intros j k _. unfold compose. do 2 f_equal. lia.
Qed.

Lemma write_blocks_eq e b buf : geom nb e -> 0 <= b < nb -> block_size e <= zlen buf ->
  exists e', write_blocks e b buf = Ret e' /\ wrote e e' b (take (Z.to_nat (block_size e)) buf).
Proof.
  intros Hg Hb Hl. pose proof (spb_bs e Hg) as [Hs Hp]. pose proof (block_run e b Hg Hb) as [H0 H1]. unfold write_blocks.
  rewrite (proj2 (Z.eqb_neq _ _)) by (destruct (gm_size _ _ Hg); lia). rewrite block_lba_eq, bind_Ret_l by done. fold (spb e).
  rewrite Z.mod_small by lia. rewrite Hs, (proj2 (Z.ltb_ge _ _)) by lia.
  set (data := take (Z.to_nat (block_size e)) buf).
  assert (zlen data = block_size e) as Hdl by (unfold data, zlen in *; rewrite length_take; lia).
  destruct (write_run (sector := sector) (disk e) (spb e) (partition_offset e + b * spb e) data) as (d & Hw & Hd & Hk); try lia;
    [unfold SECTOR_SIZE; lia|].
  rewrite Hw, bind_Ret_l. eexists. split; [reflexivity|]. constructor.
  - by destruct e.
  - by apply geom_disk.
  - unfold blk. change (spb (e <| disk := d |>)) with (spb e). change (partition_offset (e <| disk := d |>)) with (partition_offset e).
    change (disk (e <| disk := d |>)) with d. pose proof (slices_concat data (Z.to_nat (spb e))) as Hc. rewrite Z2Nat.id in Hc by lia.
    etrans; [|exact (Hc ltac:(unfold SECTOR_SIZE; lia) (partition_offset e + b * spb e))]. f_equal. apply list_fmap_ext.
    intros j k Hx%list_elem_of_lookup_2%elem_of_seqZ. rewrite Hk by lia.
    rewrite (proj2 (Z.leb_le _ _)), (proj2 (Z.ltb_lt _ _)) by lia. done.
  - intros b' Hb' Hne. apply (blk_sectors e d (partition_offset e + b * spb e) (spb e) _ b' Hg Hb' ltac:(lia) ltac:(lia) Hd Hk). intros k Hr. nia.
Qed.

(** The superblock occupies two sectors of block 0, unless blocks have 1024 bytes. *)
Lemma update_superblock_eq e : geom nb e -> 2048 <= block_size e -> zlen (superblock e) >= 1024 ->
  exists e', update_superblock e = Ret e' /\ e' = e <| disk := disk e' |> /\ geom nb e' /\ forall b, 0 < b < nb -> blk e' b = blk e b.
Proof.
  intros Hg Hbs Hl. pose proof (spb_bs e Hg) as [Hs Hp]. pose proof Hg as []. unfold update_superblock.
  assert (partition_offset e + 2 + 2 <= sectors (disk e)) as Hfit by nia.
  rewrite add_u_Ret, bind_Ret_l by lia. rewrite Z.mod_small by lia.
  destruct (write_run (sector := sector) (disk e) 2 (partition_offset e + 2) (take 1024 (superblock e))) as (d & Hw & Hd & Hk);
    try lia; [unfold zlen, SECTOR_SIZE in *; rewrite length_take; lia|].
  rewrite Hw, bind_Ret_l. eexists. split; [reflexivity|]. split; [by destruct e|]. split; [by apply geom_disk|].
  intros b Hb. apply (blk_sectors e d (partition_offset e + 2) 2 _ b Hg ltac:(lia) ltac:(lia) ltac:(lia) Hd Hk). intros k Hr. nia.
Qed.

(** ** Structures in blocks *)

Definition view (T : Type) `{!Pod T} e (b off : Z) : T := of_bytes (slice (blk e b) (Z.to_nat off) (pod_size T)).

Lemma page_length : zlen page = 4096.
Proof. done. Qed.

Lemma block_size_page e : geom nb e -> 1024 <= block_size e <= 4096.
Proof. intros []. lia. Qed.

(** A block in a page buffer. *)
Lemma read_page e b : geom nb e -> 0 <= b < nb ->
  read_blocks e b page = Ret (blk e b ++ drop (Z.to_nat (block_size e)) page).
Proof.
  intros Hg Hb. pose proof (block_size_page e Hg). rewrite read_blocks_eq by (done || (rewrite page_length; lia)).
  unfold splice. rewrite take_0. pose proof (blk_length e b Hg Hb) as Hl. unfold zlen in Hl.
  by replace (0 + length (blk e b))%nat with (Z.to_nat (block_size e)) by lia.
Qed.

Lemma page_buffer_length e b : geom nb e -> 0 <= b < nb -> zlen (blk e b ++ drop (Z.to_nat (block_size e)) page) = 4096.
Proof.
  intros Hg Hb. pose proof (block_size_page e Hg). pose proof (blk_length e b Hg Hb). unfold zlen in *. rewrite length_app, length_drop.
  change (length page) with (Z.to_nat 4096). lia.
Qed.

Section Struct.
  Context {T : Type} `{!Pod T} (typed : T -> Prop) `{!PodLaws T typed}.
  Implicit Types (t : T).

Lemma read_struct_eq e b off : geom nb e -> 0 <= b < nb -> 0 <= off -> off + Z.of_nat (pod_size T) <= block_size e ->
  read_struct_from_disk e b off = Ret (view T e b off).
Proof.
  intros Hg Hb H0 Hoff. pose proof (block_size_page e Hg). pose proof (blk_length e b Hg Hb) as Hl. unfold read_struct_from_disk.
  rewrite (proj2 (Z.eqb_neq _ _)) by lia. rewrite read_page, bind_Ret_l by done. unfold struct_at.
  rewrite page_buffer_length by done. rewrite (proj2 (Z.ltb_ge _ _)) by lia. unfold view, slice, zlen in *.
  rewrite drop_app_le by lia. rewrite <- (of_bytes_take (T := T)). rewrite take_app_le by (rewrite length_drop; lia). done.
Qed.

Lemma splice_app (l rest d : list Z) off : (off + length d <= length l)%nat -> splice (l ++ rest) off d = splice l off d ++ rest.
Proof.
  intros H. unfold splice. rewrite take_app_le, drop_app_le by lia. by rewrite <- !app_assoc.
Qed.

Lemma write_struct_eq e b off t : geom nb e -> 0 <= b < nb -> 0 <= off -> off + Z.of_nat (pod_size T) <= block_size e -> typed t ->
  exists e', write_struct_to_disk e b off t = Ret e' /\ wrote e e' b (splice (blk e b) (Z.to_nat off) (to_bytes t)).
Proof.
  intros Hg Hb H0 Hoff Ht. pose proof (block_size_page e Hg). pose proof (blk_length e b Hg Hb) as Hl. unfold write_struct_to_disk.
  pose proof (to_bytes_length t Ht) as Htl.
  rewrite (proj2 (Z.eqb_neq _ _)) by lia. rewrite read_page, bind_Ret_l by done. unfold put_struct.
  pose proof (page_buffer_length e b Hg Hb) as Hpl. rewrite Hpl. rewrite (proj2 (Z.ltb_ge _ _)) by lia. rewrite bind_Ret_l.
  rewrite splice_app by (unfold zlen in Hl; lia). set (l := splice (blk e b) (Z.to_nat off) (to_bytes t)).
  assert (length l = Z.to_nat (block_size e)) as Hll by (unfold l; rewrite splice_length; unfold zlen in Hl; lia).
  destruct (write_blocks_eq e b (l ++ drop (Z.to_nat (block_size e)) page) Hg Hb) as (e' & Hw & Hwr).
  { unfold zlen in *. rewrite length_app in *. lia. }
  exists e'. split; [done|]. by rewrite take_app_length' in Hwr by done.
Qed.

Lemma view_same e e' b off t : geom nb e -> 0 <= b < nb -> 0 <= off -> off + Z.of_nat (pod_size T) <= block_size e -> typed t ->
  wrote e e' b (splice (blk e b) (Z.to_nat off) (to_bytes t)) -> view T e' b off = t.
Proof.
  intros Hg Hb H0 Hoff Ht Hw. pose proof (blk_length e b Hg Hb) as Hl. pose proof (to_bytes_length t Ht) as Htl. unfold view.
  rewrite (wr_blk _ _ _ _ Hw), <- Htl, slice_splice_same by (unfold zlen in Hl; lia).
  rewrite <- (app_nil_r (to_bytes t)). by apply (of_to_bytes (typed := typed)).
Qed.
End Struct.

(** Another structure of the block, and structures of other blocks. *)
Lemma view_other {T} `{!Pod T} {U} `{!Pod U} e e' b off (t : U) b' off' : geom nb e -> 0 <= b < nb -> 0 <= b' < nb -> 0 <= off -> 0 <= off' ->
  length (to_bytes t) = pod_size U -> off + Z.of_nat (pod_size U) <= block_size e ->
  b' <> b \/ off' + Z.of_nat (pod_size T) <= off \/ off + Z.of_nat (pod_size U) <= off' ->
  wrote e e' b (splice (blk e b) (Z.to_nat off) (to_bytes t)) -> view T e' b' off' = view T e b' off'.
Proof.
  intros Hg Hb Hb' H0 H0' Ht Hoff Hdis Hw. pose proof (blk_length e b Hg Hb) as Hl. unfold zlen in Hl. unfold view. f_equal.
  destruct (decide (b' = b)) as [->|Hne]; [|by rewrite (wr_other _ _ _ _ Hw)]. rewrite (wr_blk _ _ _ _ Hw).
  destruct Hdis as [?|[Hd|Hd]]; [done| |].
  - apply slice_splice_before; lia.
  - apply slice_splice_after; lia.
Qed.

(** With blocks of 1024 bytes and the first data block 1, as [format] makes
    them, the superblock fills block 1, and that is where [get_bg_descriptor]
    reads: the group descriptor is the first 32 bytes of the superblock. *)
Lemma descriptor_is_superblock e : geom nb e -> block_size e = 1024 -> mounted e = true -> s_first_data_block (superblock e) = 1 ->
  1024 <= zlen (superblock e) ->
  exists e', update_superblock e = Ret e' /\ get_bg_descriptor e' 0 = Ret (of_bytes (take 32 (superblock e))).
Proof.
  intros Hg Hbs Hm Hf Hl. pose proof (block_run e 1 Hg ltac:(destruct Hg; lia)) as [H0 H1]. pose proof Hg as [].
  assert (spb e = 2) as Hsp by (unfold spb; by rewrite Hbs). rewrite Hsp in *.
  assert (update_superblock e = write_blocks e 1 (superblock e)) as ->.
  { unfold update_superblock, write_blocks. rewrite Hbs. change (1024 =? 0) with false. cbn iota. rewrite (block_lba_eq e 1 Hg) by lia.
    rewrite bind_Ret_l, Hsp, add_u_Ret, bind_Ret_l by lia. rewrite Z.mod_small by lia.
    change (1024 `div` 512 `mod` 256 * 512) with 1024. rewrite (proj2 (Z.ltb_ge _ _)) by lia. done. }
  destruct (write_blocks_eq e 1 (superblock e) Hg ltac:(lia) ltac:(lia)) as (e' & -> & [Hs' Hg' Hb' _]). exists e'. split; [done|].
  assert (mounted e' = true /\ superblock e' = superblock e /\ block_size e' = 1024) as (Hm' & Hsb & Hbs') by (rewrite Hs'; done).
  rewrite Hbs in Hb'.
  assert (bgd_place e' 0 = Ret (1, 0)) as Hp by (unfold bgd_place; rewrite Hsb, Hbs', Hf; done).
  unfold get_bg_descriptor. rewrite Hm', Hp. cbn [negb]. rewrite bind_Ret_l. rewrite (read_struct_eq bgd_typed) by (done || lia || (rewrite Hbs'; done)).
  unfold view. rewrite Hb'. f_equal. f_equal. unfold slice. rewrite drop_0, take_take. done.
Qed.

(** ** A filesystem of one block group *)

Variables (bb ib it : Z).

Notation ipg e := (s_inodes_per_group (superblock e)).
Notation isize e := (s_inode_size (superblock e)).
Notation bpg e := (s_blocks_per_group (superblock e)).

Definition first e : Z := it + (ipg e * isize e + (block_size e - 1)) / block_size e.
Definition group e : Ext2BlockGroupDescriptor := view _ e 1 0.
Definition used e (k : Z) : bool := bit_at (blk e bb) k.
Definition ino e (n : Z) : Ext2Inode := view _ e (it + (n - 1) * isize e / block_size e) ((n - 1) * isize e mod block_size e).

(** Blocks of 2048 or 4096 bytes, the first data block is number 0: the
    superblock in block 0, the group descriptor in block 1, then the two
    bitmaps, the inode table and the data blocks; bits of blocks beyond the
    device are set.  With blocks of 1024 bytes the code takes the superblock for
    the descriptor, see [descriptor_is_superblock]. *)
Record layout e : Prop := {
  ly_geom : geom nb e;
  ly_block : 2048 <= block_size e;
  ly_mounted : mounted e = true;
  ly_super : 1024 <= zlen (superblock e);
  ly_first : s_first_data_block (superblock e) = 0;
  ly_inodes : 0 < ipg e;
  ly_isize : 128 <= isize e /\ (isize e | block_size e);
  ly_bits : bpg e <= 8 * block_size e;
  ly_group : bgd_typed (group e) /\ bg_block_bitmap (group e) = bb /\ bg_inode_bitmap (group e) = ib /\ bg_inode_table (group e) = it;
  ly_places : 1 < bb < it /\ 1 < ib < it /\ bb <> ib /\ first e <= nb;
  ly_tail k : nb <= k < bpg e -> used e k = true
}.

(** Only the device changed. *)
Definition same e e' : Prop := e' = e <| disk := disk e' |>.

Lemma same_fields e e' : same e e' -> superblock e' = superblock e /\ block_size e' = block_size e /\ mounted e' = mounted e /\ first e' = first e.
Proof. unfold same, first. intros ->. done. Qed.

Lemma fs_same_refl e : same e e.
Proof. by destruct e. Qed.
Lemma fs_same_trans e1 e2 e3 : same e1 e2 -> same e2 e3 -> same e1 e3.
Proof. unfold same. intros H1 H2. rewrite H1 in H2. exact H2. Qed.

Lemma layout_frame e e' : layout e -> same e e' -> geom nb e' ->
  (bgd_typed (group e') /\ bg_block_bitmap (group e') = bb /\ bg_inode_bitmap (group e') = ib /\ bg_inode_table (group e') = it) ->
  (forall k, nb <= k < bpg e -> used e' k = true) -> layout e'.
Proof.
  intros Hl Hs Hg Hgr Ht. pose proof (same_fields e e' Hs) as (H1 & H2 & H3 & H4). destruct Hl.
  constructor; rewrite ?H1, ?H2, ?H3, ?H4; done.
Qed.

(** Writing outside the descriptor and the bitmap keeps the layout. *)
Lemma layout_blocks e e' : layout e -> same e e' -> geom nb e' -> blk e' 1 = blk e 1 -> blk e' bb = blk e bb -> layout e'.
Proof.
  intros Hl Hs Hg H1 Hb. apply (layout_frame e); try done; [|unfold used; rewrite Hb; apply (ly_tail _ Hl)].
  unfold group, view. rewrite H1. apply (ly_group _ Hl).
Qed.

Lemma nb_32 e : layout e -> nb < 2 ^ 32.
Proof. intros Hl. pose proof (spb_bs e (ly_geom _ Hl)). destruct (ly_geom _ Hl). nia. Qed.

Lemma bgd_place_0 e : layout e -> bgd_place e 0 = Ret (1, 0).
Proof.
  intros Hl. unfold bgd_place. rewrite (ly_first _ Hl). simpl. unfold div_u, rem_u.
  assert (block_size e / 32 <> 0) as Hn by (destruct (gm_size _ _ (ly_geom _ Hl)) as [-> | [-> | ->]]; done).
  apply Z.eqb_neq in Hn as Hn'. rewrite Hn', !bind_Ret_l, Z.div_0_l, Z.mod_0_l by done. done.
Qed.

Lemma get_group e : layout e -> get_bg_descriptor e 0 = Ret (group e).
Proof.
  intros Hl. unfold get_bg_descriptor. rewrite (ly_mounted _ Hl), bgd_place_0 by done. cbn -[view].
  pose proof (block_size_page e (ly_geom _ Hl)). pose proof (gm_some _ _ (ly_geom _ Hl)).
  apply (read_struct_eq bgd_typed); try done; try apply (ly_geom _ Hl); try lia. simpl. lia.
Qed.

Lemma places_nb e : layout e -> 1 < bb < nb /\ 1 < ib < nb /\ bb < it /\ ib < it /\ bb <> ib /\ it <= first e <= nb.
Proof.
  intros Hl. pose proof (block_size_page e (ly_geom _ Hl)). destruct (ly_places _ Hl) as (? & ? & ? & Hf). pose proof (ly_inodes _ Hl).
  destruct (ly_isize _ Hl). unfold first in *. pose proof (Z.div_pos (ipg e * isize e + (block_size e - 1)) (block_size e)). nia.
Qed.

Lemma write_group e g : layout e -> bgd_typed g -> bg_block_bitmap g = bb -> bg_inode_bitmap g = ib -> bg_inode_table g = it ->
  exists e', write_bg_descriptor e 0 g = Ret e' /\ layout e' /\ same e e' /\ group e' = g /\ forall b, 0 <= b < nb -> b <> 1 -> blk e' b = blk e b.
Proof.
  intros Hl Hg H1 H2 H3. pose proof (ly_geom _ Hl) as Hge. pose proof (block_size_page e Hge). pose proof (gm_some _ _ Hge).
  pose proof (places_nb e Hl). unfold write_bg_descriptor. rewrite bgd_place_0, bind_Ret_l by done.
  destruct (write_struct_eq bgd_typed e 1 0 g) as (e' & Hw & Hwr); [done|lia|lia|simpl; lia|done|].
  exists e'. split; [done|]. destruct Hwr as [Hsame Hgeom Hblk Hother].
  assert (group e' = g) as Hgr by (apply (view_same bgd_typed e e'); [done|lia|lia|simpl; lia|done|by constructor]).
  split_and!; try done. apply (layout_frame e); try done; [by rewrite Hgr|].
  intros k Hk. unfold used. rewrite Hother by lia. by apply (ly_tail _ Hl).
Qed.

(** ** The inode table *)

Lemma inode_in_block e n : layout e -> 1 <= n <= ipg e ->
  it <= it + (n - 1) * isize e / block_size e < first e /\
  0 <= (n - 1) * isize e mod block_size e /\ (n - 1) * isize e mod block_size e + isize e <= block_size e.
Proof.
  intros Hl Hn. pose proof (block_size_page e (ly_geom _ Hl)) as Hb. destruct (ly_isize _ Hl) as [His [q Hq]].
  pose proof (Z.div_mod ((n - 1) * isize e) (block_size e) ltac:(lia)) as Hdm.
  pose proof (Z.mod_pos_bound ((n - 1) * isize e) (block_size e) ltac:(lia)) as Hm.
  pose proof (Z.div_mod (ipg e * isize e + (block_size e - 1)) (block_size e) ltac:(lia)) as Hdf.
  pose proof (Z.mod_pos_bound (ipg e * isize e + (block_size e - 1)) (block_size e) ltac:(lia)) as Hmf.
  unfold first. set (a := (n - 1) * isize e / block_size e) in *. set (m := (n - 1) * isize e mod block_size e) in *.
  set (t := (ipg e * isize e + (block_size e - 1)) / block_size e) in *.
  assert (0 <= a) by (apply Z.div_pos; nia). clearbody a m t. clear Hl. split; [|split; [lia|]].
  - pose proof (Z.mul_le_mono_nonneg_r (n - 1) (ipg e - 1) (isize e) ltac:(lia) ltac:(lia)).
    assert (block_size e * a < block_size e * t) as Hlt by lia. apply Z.mul_lt_mono_pos_l in Hlt; lia.
  - assert (m = isize e * (n - 1 - q * a)) as Hmq by nia. assert (isize e * (n - 1 - q * a) < isize e * q) as Hlt by lia.
    apply Z.mul_lt_mono_pos_l in Hlt; [|lia]. rewrite Hmq, Hq. nia.
Qed.

Lemma inode_place_eq e n : layout e -> 1 <= n <= ipg e ->
  inode_place e n = Ret (it + (n - 1) * isize e / block_size e, (n - 1) * isize e mod block_size e).
Proof.
  intros Hl Hn. pose proof (block_size_page e (ly_geom _ Hl)) as Hb. pose proof (inode_in_block e n Hl Hn). pose proof (places_nb e Hl).
  pose proof (nb_32 e Hl). unfold inode_place, div_u, rem_u. rewrite (proj2 (Z.eqb_neq (ipg e) 0)) by lia.
  rewrite bind_Ret_l, (Z.div_small (n - 1)), get_group, !bind_Ret_l by (done || lia).
  rewrite (Z.mod_small (n - 1) (ipg e)) by lia.
  rewrite (proj2 (Z.eqb_neq (block_size e) 0)) by lia. rewrite !bind_Ret_l. destruct (ly_group _ Hl) as (_ & _ & _ & ->).
  rewrite (Z.mod_small ((n - 1) * isize e / block_size e)) by lia. by rewrite add_u_Ret by lia.
Qed.

Lemma read_inode_eq e n : layout e -> 1 <= n <= ipg e -> read_inode e n = Ret (ino e n).
Proof.
  intros Hl Hn. pose proof (inode_in_block e n Hl Hn). pose proof (places_nb e Hl). destruct (ly_isize _ Hl). unfold read_inode.
  rewrite (ly_mounted _ Hl), (proj2 (Z.eqb_neq n 0)) by lia. rewrite inode_place_eq, bind_Ret_l by done.
  apply (read_struct_eq inode_typed); [apply (ly_geom _ Hl)|lia..|]. simpl. lia.
Qed.

(** Different inodes have different places. *)
Lemma inode_disjoint e n m : layout e -> n <> m ->
  (n - 1) * isize e / block_size e <> (m - 1) * isize e / block_size e \/
  (n - 1) * isize e mod block_size e + isize e <= (m - 1) * isize e mod block_size e \/
  (m - 1) * isize e mod block_size e + isize e <= (n - 1) * isize e mod block_size e.
Proof.
  intros Hl Hne. pose proof (block_size_page e (ly_geom _ Hl)) as Hb. destruct (ly_isize _ Hl) as [His _].
  pose proof (Z.div_mod ((n - 1) * isize e) (block_size e) ltac:(lia)).
  pose proof (Z.div_mod ((m - 1) * isize e) (block_size e) ltac:(lia)).
  destruct (decide ((n - 1) * isize e / block_size e = (m - 1) * isize e / block_size e)) as [He|]; [right|by left].
  rewrite He in *. destruct (Z.lt_total n m) as [?|[?|?]]; [left|done|right]; nia.
Qed.

Lemma write_inode_eq e n i : layout e -> 1 <= n <= ipg e -> inode_typed i ->
  exists e', write_inode e n i = Ret e' /\ layout e' /\ same e e' /\ ino e' n = i /\
    (forall m, 1 <= m <= ipg e -> m <> n -> ino e' m = ino e m) /\
    (forall b, 0 <= b < nb -> b < it \/ first e <= b -> blk e' b = blk e b).
Proof.
  intros Hl Hn Hi. pose proof (ly_geom _ Hl) as Hg. pose proof (inode_in_block e n Hl Hn) as (Hb & H0 & Hsz).
  pose proof (places_nb e Hl). pose proof (ly_isize _ Hl) as [His _]. unfold write_inode.
  rewrite (ly_mounted _ Hl), (proj2 (Z.eqb_neq n 0)) by lia. rewrite inode_place_eq by done. cbn [negb orb mbind outcome_bind].
  destruct (write_struct_eq inode_typed e (it + (n - 1) * isize e / block_size e) ((n - 1) * isize e mod block_size e) i)
    as (e' & Hw & Hwr); [done|lia..|simpl; lia|done|].
  exists e'. split; [done|]. pose proof Hwr as [Hsame Hgeom Hblk Hother]. pose proof (same_fields e e' Hsame) as (Hsb & Hbs & _ & _).
  split_and!; [apply (layout_blocks e); try done; apply Hother; lia|done| | |].
  - unfold ino. rewrite Hsb, Hbs. apply (view_same inode_typed e e'); try done; [lia|simpl; lia].
  - intros m Hm Hne. unfold ino. rewrite Hsb, Hbs. pose proof (inode_in_block e m Hl Hm) as (Hbm & H0m & Hszm).
    pose proof (inode_disjoint e m n Hl Hne).
    refine (view_other e e' _ _ i _ _ Hg _ _ _ _ _ _ _ Hwr); [lia..|by apply (to_bytes_length (typed := inode_typed))|simpl; lia|simpl; lia].
  - intros b Hbn Hr. apply Hother; lia.
Qed.

(** ** Allocation of blocks *)

Lemma find_free_spec bm n : forall k, 0 <= k -> k + Z.of_nat n <= 8 * zlen bm ->
  match find_free bm k n with
  | Some j => k <= j < k + Z.of_nat n /\ bit_at bm j = false /\ forall i, k <= i < j -> bit_at bm i = true
  | None => forall i, k <= i < k + Z.of_nat n -> bit_at bm i = true
  end.
Proof.
  induction n as [|n IH]; intros k Hk Hn; [simpl; lia|]. cbn [find_free].
  pose proof (Z.div_lt_upper_bound k 8 (zlen bm)). rewrite (proj2 (Z.leb_gt _ _)) by lia.
  destruct (bit_at bm k) eqn:Hbit; [|repeat split; [lia..|done|lia]].
  specialize (IH (k + 1) ltac:(lia) ltac:(lia)). destruct (find_free bm (k + 1) n) as [j|].
  - destruct IH as (H1 & H2 & H3). repeat split; [lia..|done|]. intros i Hi. destruct (decide (i = k)) as [->|]; [done|apply H3; lia].
  - intros i Hi. destruct (decide (i = k)) as [->|]; [done|apply IH; lia].
Qed.

Lemma find_free_app bm rest n : forall k, 0 <= k -> k + Z.of_nat n <= 8 * zlen bm -> find_free (bm ++ rest) k n = find_free bm k n.
Proof.
  induction n as [|n IH]; intros k Hk Hn; [done|]. cbn [find_free]. pose proof (Z.div_lt_upper_bound k 8 (zlen bm)).
  rewrite (proj2 (Z.leb_gt (zlen bm) _)), (proj2 (Z.leb_gt (zlen (bm ++ rest)) _)) by (unfold zlen in *; rewrite ?length_app; lia).
  rewrite bit_at_app by lia. by rewrite IH by lia.
Qed.

Lemma set_bit_app bm rest k : 0 <= k < 8 * zlen bm -> set_bit (bm ++ rest) k = set_bit bm k ++ rest.
Proof.
  intros Hk. unfold set_bit. pose proof (Z.div_lt_upper_bound k 8 (zlen bm)). pose proof (Z.div_pos k 8).
  apply alter_app_l. unfold zlen in *. lia.
Qed.
Lemma clear_bit_app bm rest k : 0 <= k < 8 * zlen bm -> clear_bit (bm ++ rest) k = clear_bit bm k ++ rest.
Proof.
  intros Hk. unfold clear_bit. pose proof (Z.div_lt_upper_bound k 8 (zlen bm)). pose proof (Z.div_pos k 8).
  apply alter_app_l. unfold zlen in *. lia.
Qed.

(** A page buffer written back to its block. *)
Lemma write_page e b data : geom nb e -> 0 <= b < nb -> zlen data = block_size e ->
  exists e', write_blocks e b (data ++ drop (Z.to_nat (block_size e)) page) = Ret e' /\ wrote e e' b data.
Proof.
  intros Hg Hb Hl. destruct (write_blocks_eq e b (data ++ drop (Z.to_nat (block_size e)) page) Hg Hb) as (e' & Hw & Hwr).
  - unfold zlen in *. rewrite length_app. lia.
  - exists e'. split; [done|]. by rewrite take_app_length' in Hwr by (unfold zlen in Hl; lia).
Qed.

(** The bitmap of blocks with other bits. *)
Lemma write_bits e bm : layout e -> zlen bm = block_size e -> (forall k, nb <= k < bpg e -> bit_at bm k = true) ->
  exists e', write_blocks e bb (bm ++ drop (Z.to_nat (block_size e)) page) = Ret e' /\
    layout e' /\ same e e' /\ blk e' bb = bm /\ group e' = group e /\ forall b, 0 <= b < nb -> b <> bb -> blk e' b = blk e b.
Proof.
  intros Hl Hlen Htail. pose proof (places_nb e Hl). destruct (write_page e bb bm (ly_geom _ Hl) ltac:(lia) Hlen) as (e1 & Hw1 & [Hs1 Hg1 Hb1 Ho1]).
  assert (group e1 = group e) as Hgr by (unfold group, view; by rewrite Ho1 by lia).
  exists e1. split_and!; try done. apply (layout_frame e); try done; [rewrite Hgr; apply (ly_group _ Hl)|unfold used; by rewrite Hb1].
Qed.

(** The counts in the descriptor and the superblock. *)
Lemma write_counts e g : layout e -> bgd_typed g -> bg_block_bitmap g = bb -> bg_inode_bitmap g = ib -> bg_inode_table g = it ->
  exists e1 e', write_bg_descriptor e 0 g = Ret e1 /\ update_superblock e1 = Ret e' /\
    layout e' /\ same e e' /\ group e' = g /\ forall b, 0 < b < nb -> b <> 1 -> blk e' b = blk e b.
Proof.
  intros Hl Hg H1 H2 H3. pose proof (places_nb e Hl). destruct (write_group e g Hl Hg H1 H2 H3) as (e2 & Hw2 & Hl2 & Hs2 & Hgr2 & Ho2).
  destruct (update_superblock_eq e2 (ly_geom _ Hl2) (ly_block _ Hl2)) as (e3 & Hw3 & Hs3 & Hg3 & Ho3); [pose proof (ly_super _ Hl2); lia|].
  assert (group e3 = g) as Hgr by (unfold group, view; rewrite Ho3 by lia; exact Hgr2).
  exists e2, e3. split_and!; try done; [|by eapply fs_same_trans|intros b Hb Hne; by rewrite Ho3, Ho2 by lia].
  apply (layout_blocks e2); try done; apply Ho3; lia.
Qed.

Lemma read_bits e b : layout e -> b = bb \/ b = ib -> read_blocks e b page = Ret (blk e b ++ drop (Z.to_nat (block_size e)) page).
Proof. intros Hl Hb. pose proof (places_nb e Hl). apply read_page; [apply (ly_geom _ Hl)|lia]. Qed.

Lemma first_data_block_eq e : layout e -> first_data_block e (group e) = Ret (first e).
Proof.
  intros Hl. pose proof (block_size_page e (ly_geom _ Hl)). pose proof (places_nb e Hl). pose proof (nb_32 e Hl).
  unfold first_data_block, div_u. rewrite (proj2 (Z.eqb_neq _ _)) by lia. rewrite bind_Ret_l.
  destruct (ly_group _ Hl) as (_ & _ & _ & ->). fold (first e). by rewrite Z.mod_small by lia.
Qed.

Lemma bgd_count_range g : bgd_typed g -> 0 <= bg_free_blocks_count g < 2 ^ 16.
Proof. intros (_ & _ & _ & H & _). exact H. Qed.
Lemma bgd_count_typed g c : bgd_typed g -> 0 <= c < 2 ^ 16 -> bgd_typed (g <| bg_free_blocks_count := c |>).
Proof. intros (? & ? & ? & ? & ? & ? & ? & ?) Hc. by split_and!. Qed.

(** What an allocation of a block does. *)
Definition allocated e e' (k : Z) : Prop :=
  layout e' /\ same e e' /\ first e <= k < nb /\ k < bpg e /\ used e k = false /\ (forall j, first e <= j < k -> used e j = true) /\
  (forall j, 0 <= j -> used e' j = (k =? j) || used e j) /\
  bg_free_blocks_count (group e') = Z.max 0 (bg_free_blocks_count (group e) - 1) /\
  (forall b, 0 < b < nb -> b <> 1 -> b <> bb -> blk e' b = blk e b).

Lemma alloc_block_eq e : layout e ->
  (alloc_block e = Ret (None, e) /\ forall k, first e <= k < bpg e -> used e k = true) \/
  (exists k e', alloc_block e = Ret (Some k, e') /\ allocated e e' k).
Proof.
  intros Hl. pose proof (places_nb e Hl). pose proof (ly_geom _ Hl) as Hge. pose proof (blk_length e bb Hge ltac:(lia)) as Hlen.
  destruct (ly_group _ Hl) as (Hty & Hg1 & Hg2 & Hg3). unfold alloc_block. rewrite (ly_mounted _ Hl), get_group by done. cbn [negb]. rewrite bind_Ret_l, Hg1.
  rewrite read_bits, bind_Ret_l by tauto. rewrite first_data_block_eq, bind_Ret_l by done.
  destruct (Z_le_gt_dec (bpg e) (first e)) as [Hle|Hgt]; [left; replace (Z.to_nat (bpg e - first e)) with O by lia; split; [done|lia]|].
  pose proof (ly_bits _ Hl) as Hbits. rewrite find_free_app by lia.
  pose proof (find_free_spec (blk e bb) (Z.to_nat (bpg e - first e)) (first e) ltac:(lia) ltac:(lia)) as Hf.
  destruct (find_free (blk e bb) (first e) _) as [k|]; [|left; split; [done|intros j Hj; apply Hf; lia]].
  right. destruct Hf as (Hk & Hfree & Hbefore). assert (k < nb) as Hkn.
  { destruct (Z_lt_ge_dec k nb) as [?|Hge']; [done|]. pose proof (ly_tail _ Hl k ltac:(lia)) as Ht. unfold used in Ht. congruence. }
  rewrite set_bit_app by lia.
  destruct (write_bits e (set_bit (blk e bb) k) Hl) as (e1 & Hw1 & Hl1 & Hs1 & Hb1 & Hgr1 & Ho1);
    [unfold zlen in *; by rewrite set_bit_length|intros j Hj; rewrite bit_set by lia; rewrite (ly_tail _ Hl j Hj : bit_at _ _ = true); by destruct (k =? j)|].
  rewrite Hw1, bind_Ret_l. set (g := if 0 <? bg_free_blocks_count (group e) then _ else _).
  assert (bgd_typed g /\ bg_block_bitmap g = bb /\ bg_inode_bitmap g = ib /\ bg_inode_table g = it /\
    bg_free_blocks_count g = Z.max 0 (bg_free_blocks_count (group e) - 1)) as (Hg & Hp1 & Hp2 & Hp3 & Hcount).
  { pose proof (bgd_count_range _ Hty). unfold g. destruct (Z.ltb_spec 0 (bg_free_blocks_count (group e)));
      (split; [try apply bgd_count_typed; (done || lia)|split_and!; [exact Hg1|exact Hg2|exact Hg3|]]);
      [change (bg_free_blocks_count (group e) - 1 = Z.max 0 (bg_free_blocks_count (group e) - 1))|]; lia. }
  destruct (write_counts e1 g Hl1 Hg Hp1 Hp2 Hp3) as (e2 & e3 & Hw2 & Hw3 & Hl3 & Hs3 & Hgr3 & Ho3).
  rewrite Hw2, bind_Ret_l, Hw3, bind_Ret_l. exists k, e3. split; [done|]. unfold allocated. rewrite Hgr3. split_and!; try done; try lia.
  - by eapply fs_same_trans.
  - intros j Hj. unfold used. rewrite Ho3, Hb1 by lia. apply bit_set; lia.
  - intros b Hb Hne Hne'. by rewrite Ho3, Ho1 by lia.
Qed.

Lemma free_block_eq e k : layout e -> 0 < k < nb -> k < 8 * block_size e -> bg_free_blocks_count (group e) + 1 < 2 ^ 16 ->
  exists e', free_block e k = Ret e' /\ layout e' /\ same e e' /\ (forall j, 0 <= j -> used e' j = negb (k =? j) && used e j) /\
    bg_free_blocks_count (group e') = bg_free_blocks_count (group e) + 1 /\
    (forall b, 0 < b < nb -> b <> 1 -> b <> bb -> blk e' b = blk e b).
Proof.
  intros Hl Hk Hbit Hc. pose proof (places_nb e Hl). pose proof (ly_geom _ Hl) as Hge. pose proof (blk_length e bb Hge ltac:(lia)) as Hlen.
  destruct (ly_group _ Hl) as (Hty & Hg1 & Hg2 & Hg3). unfold free_block. rewrite (proj2 (Z.eqb_neq k 0)) by lia.
  rewrite get_group, bind_Ret_l, Hg1 by done. rewrite read_bits, bind_Ret_l by tauto.
  pose proof (Z.div_lt_upper_bound k 8 (block_size e)). pose proof (block_size_page e Hge).
  rewrite (proj2 (Z.leb_gt _ _)) by (rewrite page_buffer_length by (done || lia); lia). rewrite clear_bit_app by lia.
  destruct (write_bits e (clear_bit (blk e bb) k) Hl) as (e1 & Hw1 & Hl1 & Hs1 & Hb1 & Hgr1 & Ho1);
    [unfold zlen in *; by rewrite clear_bit_length|intros j Hj; rewrite bit_clear by lia;
       rewrite (ly_tail _ Hl j Hj : bit_at _ _ = true), (proj2 (Z.eqb_neq k j)) by lia; done|].
  rewrite Hw1, bind_Ret_l. pose proof (bgd_count_range _ Hty). rewrite add_u_Ret, bind_Ret_l by lia.
  destruct (write_counts e1 (group e <| bg_free_blocks_count := bg_free_blocks_count (group e) + 1 |>) Hl1)
    as (e2 & e3 & Hw2 & Hw3 & Hl3 & Hs3 & Hgr3 & Ho3); [apply bgd_count_typed; [done|lia]|exact Hg1|exact Hg2|exact Hg3|].
  rewrite Hw2, bind_Ret_l, Hw3. exists e3. rewrite Hgr3. split_and!; try done.
  - by eapply fs_same_trans.
  - intros j Hj. unfold used. rewrite Ho3, Hb1 by lia. apply bit_clear; lia.
  - intros b Hb Hne Hne'. by rewrite Ho3, Ho1 by lia.
Qed.

(** C20. On a filesystem with one block group and blocks of 2048 or 4096 bytes,
    with the first data block 0, allocating a block fails only
    when no data block is free and then changes nothing; otherwise it takes
    the first free data block, marks exactly that block, decrements the count
    of free blocks and writes to no block but the superblock, the descriptor
    and the bitmap, and freeing the block afterwards succeeds and restores
    the bitmap. *)
Theorem alloc_block_exact e : layout e -> bg_free_blocks_count (group e) + 1 < 2 ^ 16 ->
  (alloc_block e = Ret (None, e) /\ forall k, first e <= k < bpg e -> used e k = true) \/
  (exists k e' e'', alloc_block e = Ret (Some k, e') /\ allocated e e' k /\ free_block e' k = Ret e'' /\ layout e'' /\
     (forall j, 0 <= j -> used e'' j = used e j) /\ forall b, 0 < b < nb -> b <> 1 -> b <> bb -> blk e'' b = blk e b).
Proof.
  intros Hl Hc. destruct (alloc_block_eq e Hl) as [?|(k & e' & He & Ha)]; [by left|right].
  pose proof Ha as (Hl' & Hs & Hk & Hb & Hfree & _ & Hu & Hcount & Ho). pose proof (places_nb e Hl). pose proof (ly_bits _ Hl).
  destruct (same_fields e e' Hs) as (Hsb & Hbs & _ & _). destruct (free_block_eq e' k Hl') as (e'' & Hf & Hl'' & _ & Hu' & _ & Ho');
    [lia|rewrite Hbs; lia|lia|].
  exists k, e', e''. split_and!; try done.
  - intros j Hj. rewrite Hu', Hu by done. by destruct (Z.eqb_spec k j) as [<-|].
  - intros b Hb0 Hb1 Hb2. by rewrite Ho', Ho by done.
Qed.

(** On a filesystem with one block group, an inode that was written is
    read back, all other inodes read the same as before, and no block
    outside the inode table changes. *)
Theorem inode_roundtrip e n i : layout e -> 1 <= n <= ipg e -> inode_typed i ->
  exists e', write_inode e n i = Ret e' /\ layout e' /\ read_inode e' n = Ret i /\
    (forall m, 1 <= m <= ipg e -> m <> n -> read_inode e' m = read_inode e m) /\
    (forall b, 0 <= b < nb -> b < it \/ first e <= b -> blk e' b = blk e b).
Proof.
  intros Hl Hn Hi. destruct (write_inode_eq e n i Hl Hn Hi) as (e' & Hw & Hl' & Hs & Hin & Hm & Hb).
  destruct (same_fields e e' Hs) as (Hsb & _). exists e'. split_and!; try done.
  - rewrite read_inode_eq by (rewrite ?Hsb; done). by rewrite Hin.
  - intros m Hm1 Hm2. rewrite !read_inode_eq by (rewrite ?Hsb; done). by rewrite Hm.
Qed.
End Blocks.
