(* ===== verification/Ext2Files.v ===== *)
(** * The contents of files on ext2

    Proofs about the block map of a file in the model of [Ext2]: the direct
    blocks and the blocks reached through the indirect block, their
    allocation on demand, and reading back what was written, whole files and
    spans of them, on a filesystem of one block group. *)

From S2P Require Import Prelude Bytes Disk Vfs Ext2 Ext2Layout.

Section Files.
  Context {D : Type} `{!BlockDevice D} (sectors : D -> Z) (sector : D -> Z -> list Z) `{!BlockDeviceLaws D sectors sector}.
  Context (nb bb ib it : Z).
  Implicit Types (e : Ext2 D) (i : Ext2Inode).

  Local Notation layout := (layout sectors sector nb bb ib it).
  Local Notation geom := (geom sectors nb).
  Local Notation blk := (blk sector).
  Local Notation first := (first it).
  Local Notation used := (used sector bb).
  Local Notation ino := (ino sector it).
  Local Notation bpg e := (s_blocks_per_group (superblock e)).
  Local Notation ipg e := (s_inodes_per_group (superblock e)).

(** ** The block map *)

(** The number of blocks a file can have. *)
Definition limit e : Z := 12 + block_size e / 4.
Definition table i : Z := default 0 (get (i_block i) 12).
Definition entry e (t k : Z) : Z := of_le (slice (blk e t) (Z.to_nat (k * 4)) 4).
(** Block [k] of a file, 0 for a hole. *)
Definition slot e i (k : Z) : Z :=
  if k <? 12 then default 0 (get (i_block i) k) else if table i =? 0 then 0 else entry e (table i) (k - 12).

(** The blocks that belong to a file. *)
Definition owns e i (b : Z) : Prop := b <> 0 /\ (b = table i \/ exists k, 0 <= k < limit e /\ slot e i k = b).

(** A data block that is marked as used. *)
Definition taken e (b : Z) : Prop := first e <= b < nb /\ b < bpg e /\ used e b = true.

(** The blocks of a file are taken and distinct. *)
Record file_ok e i : Prop := {
  fo_typed : inode_typed i;
  fo_taken b : owns e i b -> taken e b;
  fo_inj j k : 0 <= j < limit e -> 0 <= k < limit e -> slot e i j = slot e i k -> slot e i j <> 0 -> j = k;
  fo_table k : 0 <= k < limit e -> slot e i k <> 0 -> slot e i k <> table i
}.

Lemma i_block_length e i : file_ok e i -> length (i_block i) = 15%nat.
Proof. intros []. by destruct fo_typed0. Qed.

Lemma idx_block e i k : file_ok e i -> 0 <= k < 15 -> idx (i_block i) k = Ret (default 0 (get (i_block i) k)).
Proof.
  intros Hf Hk. pose proof (i_block_length e i Hf). unfold idx. destruct (get (i_block i) k) eqn:Hg; [done|].
  apply get_None in Hg. unfold zlen in Hg. lia.
Qed.

Lemma limit_bs e : layout e -> limit e <= 1036 /\ 4 * (limit e - 12) = block_size e.
Proof. intros Hl. unfold limit. destruct (gm_size _ _ _ (ly_geom _ _ _ _ _ _ _ Hl)) as [-> | [-> | ->]]; done. Qed.

Lemma taken_range e b : layout e -> taken e b -> 0 < b < nb /\ b <> 1 /\ b <> bb /\ b < 2 ^ 32.
Proof. intros Hl (H1 & _). pose proof (places_nb _ _ _ _ _ _ _ Hl). pose proof (nb_32 _ _ _ _ _ _ _ Hl). lia. Qed.

(** A block in a buffer of its size. *)
Lemma read_block e b : layout e -> taken e b -> read_blocks e b (zeros (block_size e)) = Ret (blk e b).
Proof.
  intros Hl Ht. pose proof (taken_range e b Hl Ht) as (Hb & _). pose proof (ly_geom _ _ _ _ _ _ _ Hl) as Hg.
  pose proof (blk_length sectors sector nb e b Hg ltac:(lia)) as Hlen. pose proof (block_size_page sectors nb e Hg).
  rewrite (read_blocks_eq sectors sector nb) by (done || lia || (unfold zlen, zeros; rewrite length_replicate; lia)).
  unfold splice. rewrite take_0, drop_ge, app_nil_r by (unfold zeros, zlen in *; rewrite length_replicate; lia). done.
Qed.

Lemma ptr_at_eq e b k : layout e -> taken e b -> 0 <= k < block_size e / 4 -> ptr_at (blk e b) k = Ret (entry e b k).
Proof.
  intros Hl Ht Hk. pose proof (taken_range e b Hl Ht) as (Hb & _). pose proof (ly_geom _ _ _ _ _ _ _ Hl) as Hg.
  unfold ptr_at. rewrite (blk_length sectors sector nb) by (done || lia). pose proof (limit_bs e Hl). unfold limit in *.
  by rewrite (proj2 (Z.ltb_ge _ _)) by lia.
Qed.

Lemma table_taken e i : file_ok e i -> table i <> 0 -> taken e (table i).
Proof. intros Hf Ht. apply (fo_taken _ _ Hf). split; [done|by left]. Qed.
Lemma slot_taken e i k : file_ok e i -> 0 <= k < limit e -> slot e i k <> 0 -> taken e (slot e i k).
Proof. intros Hf Hk Hs. apply (fo_taken _ _ Hf). split; [done|]. right. by exists k. Qed.

Lemma resolve_block_eq e i k : layout e -> file_ok e i -> 0 <= k < limit e -> resolve_block e i k = Ret (nonzero (slot e i k)).
Proof.
  intros Hl Hf Hk. pose proof (limit_bs e Hl). unfold resolve_block, slot. unfold limit in *.
  destruct (Z.ltb_spec k 12); [by rewrite (idx_block e) by (done || lia)|].
  rewrite (proj2 (Z.ltb_lt _ _)) by lia. rewrite (idx_block e) by (done || lia). fold (table i). rewrite bind_Ret_l. unfold through.
  destruct (Z.eqb_spec (table i) 0) as [Ht|Ht]; [done|]. pose proof (table_taken e i Hf Ht).
  rewrite read_block, bind_Ret_l, ptr_at_eq, bind_Ret_l by (done || lia). done.
Qed.

(** A file without blocks. *)
Lemma empty_file e i : inode_typed i -> i_block i = replicate 15 0 -> file_ok e i.
Proof.
  intros Hty Hb. assert (table i = 0) as Ht by (unfold table; by rewrite Hb). assert (forall k, slot e i k = 0) as Hs.
  { intros k. unfold slot. rewrite Ht, Hb. destruct (k <? 12); [|done]. destruct (get (replicate 15 0) k) as [x|] eqn:Hg; [|done].
    unfold get in Hg. destruct (k <? 0); [done|]. by apply lookup_replicate in Hg as [-> _]. }
  constructor; [done|..].
  - intros b [Hb0 [Hbt|(k & _ & Hk)]]; [congruence|]. rewrite Hs in Hk. done.
  - intros j k _ _ _ Hn. by rewrite Hs in Hn.
  - intros k _ Hn. by rewrite Hs in Hn.
Qed.

(** ** How a file grows *)

(** The file [i] of [e] may get new blocks and new contents; blocks in use
    that are not its own, and the inode table, stay the same. *)
Record evolves e i e' i' : Prop := {
  ev_layout : layout e';
  ev_same : same e e';
  ev_file : file_ok e' i';
  ev_meta : i' = i <| i_block := i_block i' |>;
  ev_used b : 0 <= b -> used e b = true -> used e' b = true;
  ev_slot k : 0 <= k < limit e -> slot e i k <> 0 -> slot e' i' k = slot e i k;
  ev_owns b : owns e' i' b -> owns e i b \/ used e b = false;
  ev_blk b : 0 < b < nb -> b <> 1 -> b <> bb -> b < first e \/ used e b = true -> ~ owns e i b -> blk e' b = blk e b
}.

Lemma same_more e e' : same e e' -> limit e' = limit e /\ first e' = first e /\ bpg e' = bpg e /\ ipg e' = ipg e /\ block_size e' = block_size e.
Proof. intros H. destruct (same_fields it e e' H) as (Hsb & Hbs & _ & Hf). unfold limit. by rewrite Hsb, Hbs, Hf. Qed.

Lemma evolves_refl e i : layout e -> file_ok e i -> evolves e i e i.
Proof. intros Hl Hf. constructor; try done; [apply fs_same_refl|by destruct i|by left]. Qed.

Lemma evolves_trans e1 i1 e2 i2 e3 i3 : evolves e1 i1 e2 i2 -> evolves e2 i2 e3 i3 -> evolves e1 i1 e3 i3.
Proof.
  intros [Hl Hs Hf Hm Hu Hsl Ho Hb] [Hl' Hs' Hf' Hm' Hu' Hsl' Ho' Hb']. destruct (same_more e1 e2 Hs) as (Hlim & Hfi & _).
  rewrite Hlim in Hsl'. rewrite Hfi in Hb'.
  constructor; try done.
  - by eapply fs_same_trans.
  - rewrite Hm', Hm. by destruct i1.
  - auto.
  - intros k Hk Hn. specialize (Hsl k Hk Hn). rewrite Hsl' by (done || (rewrite Hsl; done)). done.
  - intros b Hob. destruct (Ho' b Hob) as [H|H]; [by apply Ho|]. right. destruct (used e1 b) eqn:Hub; [|done].
    rewrite Hu in H; [done| |done]. pose proof (fo_taken _ _ Hf' _ Hob) as Ht. pose proof (taken_range e3 b Hl' Ht). lia.
  - intros b Hbn H1 Hbb Hc Hno. rewrite Hb'; try done; [by apply Hb| |].
    + destruct Hc as [?|Hc]; [by left|right]. apply Hu; [lia|done].
    + intros Hob. destruct (Ho b Hob) as [?|Hf0]; [done|]. destruct Hc as [Hc|Hc]; [|congruence].
      pose proof (fo_taken _ _ Hf _ Hob) as (Ht & _). lia.
Qed.

(** A block that was allocated and cleared. *)
Record fresh e e' (b : Z) : Prop := {
  fr_layout : layout e';
  fr_same : same e e';
  fr_range : first e <= b < nb /\ b < bpg e;
  fr_free : used e b = false;
  fr_used j : 0 <= j -> used e' j = (b =? j) || used e j;
  fr_zero : blk e' b = zeros (block_size e);
  fr_other c : 0 < c < nb -> c <> 1 -> c <> bb -> c <> b -> blk e' c = blk e c
}.

Definition full e : Prop := forall k, first e <= k < bpg e -> used e k = true.

Lemma zeros_length n : 0 <= n -> zlen (zeros n) = n.
Proof. intros H. unfold zlen, zeros. rewrite length_replicate. lia. Qed.

(** A taken block overwritten with a buffer of the block's size. *)
Lemma write_taken e b data : layout e -> first e <= b < nb -> zlen data = block_size e ->
  exists e', write_blocks e b data = Ret e' /\ layout e' /\ same e e' /\ blk e' b = data /\ forall c, 0 <= c < nb -> c <> b -> blk e' c = blk e c.
Proof.
  intros Hl Hb Hd. pose proof (places_nb _ _ _ _ _ _ _ Hl). pose proof (ly_geom _ _ _ _ _ _ _ Hl) as Hg.
  destruct (write_blocks_eq sectors sector nb e b data Hg ltac:(lia) ltac:(lia)) as (e' & Hw & [Hs Hg' Hbk Ho]).
  exists e'. split_and!; try done.
  - apply (layout_blocks sectors sector nb bb ib it e); try done; apply Ho; lia.
  - rewrite Hbk. apply take_ge. unfold zlen in Hd. lia.
Qed.

Lemma alloc_zeroed_eq e : layout e ->
  (alloc_zeroed e = Ret (None, e) /\ full e) \/ exists b e', alloc_zeroed e = Ret (Some b, e') /\ fresh e e' b.
Proof.
  intros Hl. unfold alloc_zeroed. destruct (alloc_block_eq _ _ _ _ _ _ e Hl) as [[-> Hfull]|(b & e1 & -> & Ha)]; [by left|right].
  destruct Ha as (Hl1 & Hs1 & Hr & Hbp & Hfree & _ & Hu & _ & Ho). destruct (same_more e e1 Hs1) as (_ & Hfi & _ & _ & Hbs).
  pose proof (places_nb _ _ _ _ _ _ _ Hl). pose proof (block_size_page _ _ _ (ly_geom _ _ _ _ _ _ _ Hl)).
  destruct (write_taken e1 b (zeros (block_size e1)) Hl1) as (e2 & Hw & Hl2 & Hs2 & Hb2 & Ho2); [lia|apply zeros_length; lia|].
  rewrite bind_Ret_l. cbn beta iota. rewrite Hw. exists b, e2. split; [done|].
  constructor; try done; [by eapply fs_same_trans| |by rewrite Hb2, Hbs|].
  - intros j Hj. unfold Ext2Layout.used. rewrite Ho2 by lia. by apply Hu.
  - intros c Hc0 Hc1 Hbb Hcb. rewrite Ho2 by lia. by apply Ho.
Qed.

(** A new block [b] becomes the indirect block or block [k] of a file. *)
Section Grow.
  Context e i e' i' (b : Z) (Hl : layout e) (Hf : file_ok e i) (Hl' : layout e') (Hs : same e e') (Hfree : used e b = false)
    (Hr : first e <= b < nb /\ b < bpg e) (Hu : forall j, 0 <= j -> used e' j = (b =? j) || used e j)
    (Hty : inode_typed i') (Hmeta : i' = i <| i_block := i_block i' |>)
    (Hcase : (table i' = table i /\ exists k, 0 <= k < limit e /\ slot e i k = 0 /\
                forall j, 0 <= j < limit e -> slot e' i' j = if j =? k then b else slot e i j) \/
             (table i = 0 /\ table i' = b /\ forall j, 0 <= j < limit e -> slot e' i' j = slot e i j))
    (Hblk : forall c, 0 < c < nb -> c <> 1 -> c <> bb -> c <> b -> c <> table i -> blk e' c = blk e c).

Lemma grow_owned c : owns e' i' c -> c = b \/ owns e i c.
Proof.
  destruct (same_more e e' Hs) as (Hlim & _). intros [Hc Ho]. rewrite Hlim in Ho.
  destruct Hcase as [(Ht & k & Hk & Hk0 & Hsl)|(Ht & Ht' & Hsl)].
  - destruct Ho as [Ho|(j & Hj & Ho)]; [right; split; [done|left; congruence]|]. rewrite Hsl in Ho by done.
    destruct (j =? k); [by left|right]. split; [done|]. right. by exists j.
  - destruct Ho as [Ho|(j & Hj & Ho)]; [left; congruence|right]. rewrite Hsl in Ho by done. split; [done|]. right. by exists j.
Qed.

Lemma grow_new c : owns e i c -> c <> b.
Proof. intros Ho ->. pose proof (fo_taken _ _ Hf _ Ho) as (_ & _ & H). congruence. Qed.

Lemma grow_slot_new k : 0 <= k < limit e -> slot e i k <> 0 -> slot e i k <> b.
Proof. intros Hk Hn. apply grow_new. split; [done|]. right. by exists k. Qed.

Lemma grow_file : file_ok e' i'.
Proof.
  destruct (same_more e e' Hs) as (Hlim & Hfi & Hbp & _). pose proof (places_nb _ _ _ _ _ _ _ Hl). constructor; rewrite ?Hlim; [done|..].
  - intros c Ho. unfold taken. rewrite Hfi, Hbp. destruct (grow_owned c Ho) as [->|Hoc].
    + rewrite Hu, Z.eqb_refl by lia. split_and!; (lia || done).
    + pose proof (fo_taken _ _ Hf _ Hoc) as (H1 & H2 & H3). rewrite Hu, H3, orb_true_r by lia. split_and!; (lia || done).
  - intros j k Hj Hk Heq Hn. destruct Hcase as [(_ & k0 & Hk0 & Hz & Hsl)|(_ & _ & Hsl)]; rewrite !Hsl in Heq by done; rewrite Hsl in Hn by done.
    + destruct (Z.eqb_spec j k0) as [->|], (Z.eqb_spec k k0) as [->|]; try done.
      * symmetry in Heq. by apply grow_slot_new in Heq; [|done|rewrite Heq].
      * by apply grow_slot_new in Heq.
      * by apply (fo_inj _ _ Hf).
    + by apply (fo_inj _ _ Hf).
  - intros k Hk Hn. destruct Hcase as [(Ht & k0 & Hk0 & Hz & Hsl)|(Ht & Ht' & Hsl)]; rewrite Hsl in * by done.
    + rewrite Ht. destruct (Z.eqb_spec k k0) as [->|]; [|by apply (fo_table _ _ Hf)]. intros He.
      apply (grow_new (table i)); [|done]. split; [congruence|by left].
    + rewrite Ht'. by apply grow_slot_new.
Qed.

Lemma grow_evolves : evolves e i e' i'.
Proof.
  destruct (same_more e e' Hs) as (Hlim & _). constructor; try done.
  - apply grow_file.
  - intros c Hc Huc. by rewrite Hu, Huc, orb_true_r.
  - intros k Hk Hn. destruct Hcase as [(_ & k0 & _ & Hz & Hsl)|(_ & _ & Hsl)]; rewrite Hsl by done; [|done].
    by destruct (Z.eqb_spec k k0) as [->|].
  - intros c Ho. destruct (grow_owned c Ho) as [->|?]; [by right|by left].
  - intros c Hc H1 Hcb Hor Hno. apply Hblk; try done.
    + intros ->. destruct Hor; [lia|congruence].
    + intros ->. apply Hno. split; [lia|by left].
Qed.
End Grow.

Lemma set_i_block_eq e i k b : file_ok e i -> 0 <= k < 15 -> 0 <= b < 2 ^ 32 ->
  exists i', set_i_block i k b = Ret i' /\ inode_typed i' /\ i' = i <| i_block := i_block i' |> /\
    forall j, get (i_block i') j = if k =? j then Some b else get (i_block i) j.
Proof.
  intros Hf Hk Hb. pose proof (i_block_length e i Hf) as Hlen. unfold set_i_block, upd.
  rewrite (proj2 (Z.leb_le _ _)), (proj2 (Z.ltb_lt _ _)) by lia. eexists. split; [reflexivity|].
  pose proof (proj1 (inode_typed_iff i) (fo_typed _ _ Hf)) as (_ & Hl & H1 & H2). split_and!.
  - apply inode_typed_iff. split; [by etrans; [apply length_insert|]|]. split; [by apply Forall_insert|done].
  - by destruct i.
  - intros j. apply get_insert. unfold zlen. lia.
Qed.

Lemma of_le_zeros n : of_le (replicate n 0) = 0.
Proof. induction n as [|n IH]; [done|]. cbn [replicate of_le]. by rewrite IH. Qed.

Lemma entry_zeros e t k : blk e t = zeros (block_size e) -> entry e t k = 0.
Proof. intros Hz. unfold entry. rewrite Hz. unfold slice, zeros. by rewrite drop_replicate, take_replicate, of_le_zeros. Qed.

Lemma entry_other e e' t k : blk e' t = blk e t -> entry e' t k = entry e t k.
Proof. unfold entry. by intros ->. Qed.

(** A block that an indirect block refers to at another place. *)
Lemma entry_splice e e' t k j b : layout e -> taken e t -> 0 <= k < block_size e / 4 -> 0 <= j < block_size e / 4 -> 0 <= b < 2 ^ 32 ->
  blk e' t = splice (blk e t) (Z.to_nat (k * 4)) (le_bytes 4 b) -> entry e' t j = if j =? k then b else entry e t j.
Proof.
  intros Hl Ht Hk Hj Hb Hblk. pose proof (taken_range e t Hl Ht) as (Htn & _). pose proof (limit_bs e Hl) as [_ Hlim]. unfold limit in Hlim.
  pose proof (blk_length sectors sector nb e t (ly_geom _ _ _ _ _ _ _ Hl) ltac:(lia)) as Hlen. unfold zlen in Hlen. unfold entry. rewrite Hblk.
  pose proof (le_bytes_length 4 b) as Hle. destruct (Z.eqb_spec j k) as [->|Hne].
  - rewrite <- Hle at 2. rewrite slice_splice_same by lia. by apply of_le_bytes.
  - f_equal. destruct (Z_lt_ge_dec j k); [apply slice_splice_before|apply slice_splice_after]; lia.
Qed.

(** The contents of the blocks a file has. *)
Definition quiet e i e' : Prop := forall j, 0 <= j < limit e -> slot e i j <> 0 -> blk e' (slot e i j) = blk e (slot e i j).

Lemma slot_table e i e' i' k : table i' = table i -> (forall j, j < 12 -> get (i_block i') j = get (i_block i) j) ->
  (table i <> 0 -> blk e' (table i) = blk e (table i)) -> slot e' i' k = slot e i k.
Proof.
  intros Ht Hg Hb. unfold slot. rewrite Ht. destruct (Z.ltb_spec k 12); [by rewrite Hg|]. destruct (Z.eqb_spec (table i) 0); [done|].
  by apply entry_other, Hb.
Qed.

Lemma fresh_taken e e' b c : layout e -> fresh e e' b -> taken e c -> c <> b /\ blk e' c = blk e c.
Proof.
  intros Hl Hfr Ht. pose proof (taken_range e c Hl Ht) as (H1 & H2 & H3 & _). assert (c <> b) as Hne.
  { intros ->. destruct Ht as (_ & _ & Ht). rewrite (fr_free _ _ _ Hfr) in Ht. done. }
  split; [done|]. by apply (fr_other _ _ _ Hfr).
Qed.

Lemma fresh_quiet e i e' b : layout e -> file_ok e i -> fresh e e' b -> quiet e i e'.
Proof. intros Hl Hf Hfr j Hj Hn. by apply (fresh_taken e e' b), slot_taken. Qed.

Lemma fresh_32 e e' b : layout e -> fresh e e' b -> 0 < b < 2 ^ 32.
Proof. intros Hl Hfr. pose proof (fr_range _ _ _ Hfr). pose proof (nb_32 _ _ _ _ _ _ _ Hl). pose proof (places_nb _ _ _ _ _ _ _ Hl). lia. Qed.

(** A fresh direct block. *)
Lemma direct_step e i e' i' k b : layout e -> file_ok e i -> fresh e e' b -> 0 <= k < 12 -> slot e i k = 0 ->
  inode_typed i' -> i' = i <| i_block := i_block i' |> -> (forall j, get (i_block i') j = if k =? j then Some b else get (i_block i) j) ->
  evolves e i e' i' /\ forall j, 0 <= j < limit e -> slot e' i' j = if j =? k then b else slot e i j.
Proof.
  intros Hl Hf Hfr Hk Hz Hty Hm Hg. assert (table i' = table i) as Ht by (unfold table; by rewrite Hg, (proj2 (Z.eqb_neq _ _)) by lia).
  assert (forall j, 0 <= j < limit e -> slot e' i' j = if j =? k then b else slot e i j) as Hsl.
  { intros j Hj. destruct (Z.eqb_spec j k) as [->|Hne].
    - unfold slot. rewrite (proj2 (Z.ltb_lt _ _)) by lia. by rewrite Hg, Z.eqb_refl.
    - unfold slot. rewrite Ht, Hg, (proj2 (Z.eqb_neq k j)) by lia. destruct (j <? 12); [done|]. destruct (Z.eqb_spec (table i) 0); [done|].
      apply entry_other. by apply (fresh_taken e e' b), table_taken. }
  split; [|done]. destruct Hfr. eapply grow_evolves; try done; [|auto]. left. split; [done|]. exists k. split; [|done].
  pose proof (limit_bs e Hl). pose proof (block_size_page _ _ _ (ly_geom _ _ _ _ _ _ _ Hl)). lia.
Qed.

(** A fresh indirect block. *)
Lemma table_step e i e' i' b : layout e -> file_ok e i -> fresh e e' b -> table i = 0 ->
  inode_typed i' -> i' = i <| i_block := i_block i' |> -> (forall j, get (i_block i') j = if 12 =? j then Some b else get (i_block i) j) ->
  evolves e i e' i' /\ forall j, 0 <= j < limit e -> slot e' i' j = slot e i j.
Proof.
  intros Hl Hf Hfr Hz Hty Hm Hg. assert (table i' = b) as Ht by (unfold table; by rewrite Hg).
  assert (forall j, 0 <= j < limit e -> slot e' i' j = slot e i j) as Hsl.
  { intros j Hj. unfold slot. rewrite Ht, Hz, Hg. destruct (Z.ltb_spec j 12); [by rewrite (proj2 (Z.eqb_neq 12 j)) by lia|].
    destruct (b =? 0); [done|]. simpl. apply entry_zeros. rewrite (fr_zero _ _ _ Hfr).
    by destruct (same_more e e' (fr_same _ _ _ Hfr)) as (_ & _ & _ & _ & ->). }
  split; [|done]. destruct Hfr. eapply grow_evolves; try done; [|auto]. by right.
Qed.

(** A fresh block behind the indirect block. *)
Lemma entry_step e i e1 e' k b : layout e -> file_ok e i -> fresh e e1 b -> table i <> 0 -> 12 <= k < limit e -> slot e i k = 0 ->
  layout e' -> same e1 e' -> blk e' (table i) = splice (blk e (table i)) (Z.to_nat ((k - 12) * 4)) (le_bytes 4 b) ->
  (forall c, 0 <= c < nb -> c <> table i -> blk e' c = blk e1 c) ->
  evolves e i e' i /\ forall j, 0 <= j < limit e -> slot e' i j = if j =? k then b else slot e i j.
Proof.
  intros Hl Hf Hfr Ht Hk Hz Hl' Hs Hbt Ho. pose proof (table_taken e i Hf Ht) as Htk. pose proof (fresh_32 e e1 b Hl Hfr).
  pose proof (taken_range e _ Hl Htk) as (? & ? & ? & _). pose proof (places_nb _ _ _ _ _ _ _ Hl).
  assert (forall j, 0 <= j < limit e -> slot e' i j = if j =? k then b else slot e i j) as Hsl.
  { intros j Hj. unfold slot. rewrite (proj2 (Z.eqb_neq _ _) Ht). destruct (Z.ltb_spec j 12); [by rewrite (proj2 (Z.eqb_neq j k)) by lia|].
    unfold limit in *. rewrite (entry_splice e e' (table i) (k - 12) (j - 12) b) by (done || lia).
    destruct (Z.eqb_spec (j - 12) (k - 12)), (Z.eqb_spec j k); done || lia. }
  split; [|done]. pose proof Hfr as []. eapply (grow_evolves e i e' i b); try done.
  - by eapply fs_same_trans.
  - intros j Hj. unfold Ext2Layout.used. rewrite Ho by lia. by apply fr_used0.
  - apply (fo_typed _ _ Hf).
  - by destruct i.
  - left. split; [done|]. exists k. split; [lia|done].
  - intros c H0' H1' Hcb Hcb' Hct. rewrite Ho by lia. by apply fr_other0.
Qed.

Lemma quiet_trans e i e1 i1 e2 : evolves e i e1 i1 -> quiet e i e1 -> quiet e1 i1 e2 -> quiet e i e2.
Proof.
  intros Hev H1 H2 j Hj Hn. destruct (same_more e e1 (ev_same _ _ _ _ Hev)) as (Hlim & _). pose proof (ev_slot _ _ _ _ Hev j Hj Hn) as Hs.
  specialize (H2 j). rewrite Hlim, Hs in H2. rewrite H2 by done. by apply H1.
Qed.

(** What asking for block [k] of a file gives. *)
Definition ensured e i k (r : option Z * Ext2Inode * Ext2 D) : Prop :=
  let '(o, i', e') := r in
  evolves e i e' i' /\ quiet e i e' /\ (forall j, 0 <= j < limit e -> j <> k -> slot e' i' j = slot e i j) /\
  match o with
  | Some b => slot e' i' k = b /\ b <> 0 /\ (slot e i k = 0 -> blk e' b = zeros (block_size e))
  | None => full e' /\ slot e i k = 0 /\ slot e' i' k = 0
  end.

(** Behind an indirect block that is there. *)
Definition through_table e i (t k : Z) : outcome (option Z * Ext2Inode * Ext2 D) :=
  i ← set_i_block i 12 t;
  buf ← read_blocks e t (zeros (block_size e));
  b ← ptr_at buf (k - 12);
  if b =? 0 then
    '(o, e) ← alloc_zeroed e;
    match o with
    | None => Ret (None, i, e)
    | Some b =>
        e ← write_blocks e t (splice buf (Z.to_nat ((k - 12) * 4)) (le_bytes 4 b));
        Ret (Some b, i, e)
    end
  else Ret (Some b, i, e).

Lemma set_table_id i : table i <> 0 -> length (i_block i) = 15%nat -> set_i_block i 12 (table i) = Ret i.
Proof.
  intros Ht Hl. unfold set_i_block, upd. rewrite Hl. cbn [Z.of_nat]. simpl. f_equal. unfold table, get in *. simpl in *.
  rewrite list_insert_id; [by destruct i|]. change (Z.to_nat 12) with 12%nat. destruct (i_block i !! 12%nat) eqn:H; [done|].
  apply lookup_ge_None in H. lia.
Qed.

Lemma through_table_eq e i k : layout e -> file_ok e i -> table i <> 0 -> 12 <= k < limit e ->
  exists r, through_table e i (table i) k = Ret r /\ ensured e i k r.
Proof.
  intros Hl Hf Ht Hk. pose proof (table_taken e i Hf Ht) as Htk. pose proof (taken_range e _ Hl Htk) as (? & ? & ? & _). unfold through_table.
  rewrite set_table_id, bind_Ret_l by (done || by apply (i_block_length e)). rewrite read_block, bind_Ret_l by done.
  unfold limit in Hk. rewrite ptr_at_eq, bind_Ret_l by (done || lia). assert (slot e i k = entry e (table i) (k - 12)) as Hsk.
  { unfold slot. by rewrite (proj2 (Z.ltb_ge _ _)), (proj2 (Z.eqb_neq _ _)) by lia. }
  destruct (Z.eqb_spec (entry e (table i) (k - 12)) 0) as [Hz|Hz].
  2:{ eexists. split; [reflexivity|]. split; [by apply evolves_refl|]. split; [done|]. split_and!; try done; congruence. }
  destruct (alloc_zeroed_eq e Hl) as [[-> Hfull]|(b & e1 & -> & Hfr)]; rewrite bind_Ret_l; cbn beta iota.
  { eexists. split; [reflexivity|]. split; [by apply evolves_refl|]. split; [done|]. split_and!; done || congruence. }
  destruct (fresh_taken e e1 b _ Hl Hfr Htk) as [Hne Hbt]. pose proof (same_more e e1 (fr_same _ _ _ Hfr)) as (_ & Hfi & _ & _ & Hbs).
  pose proof (blk_length sectors sector nb e (table i) (ly_geom _ _ _ _ _ _ _ Hl) ltac:(lia)) as Hlen. pose proof (limit_bs e Hl). unfold limit in *.
  destruct (write_taken e1 (table i) (splice (blk e (table i)) (Z.to_nat ((k - 12) * 4)) (le_bytes 4 b)) (fr_layout _ _ _ Hfr))
    as (e2 & -> & Hl2 & Hs2 & Hb2 & Ho2).
  { destruct Htk. lia. }
  { unfold zlen in *. rewrite splice_length; rewrite ?le_bytes_length; lia. }
  rewrite bind_Ret_l. eexists. split; [reflexivity|].
  destruct (entry_step e i e1 e2 k b Hl Hf Hfr Ht ltac:(unfold limit; lia) ltac:(congruence) Hl2 Hs2 Hb2 Ho2) as [Hev Hsl].
  pose proof (fresh_32 e e1 b Hl Hfr). pose proof (fr_range _ _ _ Hfr).
  split; [done|]. split; [|split_and!].
  - intros j Hj Hn. rewrite Ho2; [by apply (fresh_quiet e i e1 b)| |by apply (fo_table _ _ Hf)].
    pose proof (slot_taken e i j Hf Hj Hn) as Hst. pose proof (taken_range e _ Hl Hst). lia.
  - intros j Hj Hjk. by rewrite Hsl, (proj2 (Z.eqb_neq _ _)) by done.
  - rewrite Hsl, Z.eqb_refl by (unfold limit; lia). done.
  - lia.
  - intros _. rewrite Ho2 by lia. apply (fr_zero _ _ _ Hfr).
Qed.

Lemma ensured_trans e i e1 i1 k r : evolves e i e1 i1 -> quiet e i e1 -> (forall j, 0 <= j < limit e -> slot e1 i1 j = slot e i j) ->
  0 <= k < limit e -> ensured e1 i1 k r -> ensured e i k r.
Proof.
  intros Hev Hq Hsl Hk. destruct r as [[o i'] e']. intros (Hev' & Hq' & Hj & Ho). destruct (same_more e e1 (ev_same _ _ _ _ Hev)) as (Hlim & _ & _ & _ & Hbs).
  split; [by eapply evolves_trans|]. split; [by eapply quiet_trans|]. rewrite Hlim in Hj.
  split; [intros j Hjr Hjk; rewrite Hj by done; by apply Hsl|]. destruct o as [b|]; [|by rewrite Hsl in Ho by done].
  rewrite Hbs in Ho. by rewrite Hsl in Ho by done.
Qed.

Lemma ensure_direct e i k : layout e -> file_ok e i -> 0 <= k < 12 -> exists r, ensure_file_block e i k = Ret r /\ ensured e i k r.
Proof.
  intros Hl Hf Hk. pose proof (limit_bs e Hl). pose proof (block_size_page _ _ _ (ly_geom _ _ _ _ _ _ _ Hl)).
  unfold ensure_file_block. fold (limit e). rewrite (proj2 (Z.leb_gt _ _)), (proj2 (Z.ltb_lt _ _)) by lia.
  rewrite (idx_block e), bind_Ret_l by (done || lia). assert (slot e i k = default 0 (get (i_block i) k)) as Hsk.
  { unfold slot. by rewrite (proj2 (Z.ltb_lt _ _)) by lia. }
  rewrite <- Hsk. destruct (Z.eqb_spec (slot e i k) 0) as [Hz|Hz].
  2:{ eexists. split; [reflexivity|]. split; [by apply evolves_refl|]. by split_and!. }
  destruct (alloc_zeroed_eq e Hl) as [[-> Hfull]|(b & e1 & -> & Hfr)]; rewrite bind_Ret_l; cbn beta iota.
  { eexists. split; [reflexivity|]. split; [by apply evolves_refl|]. by split_and!. }
  pose proof (fresh_32 e e1 b Hl Hfr). destruct (set_i_block_eq e i k b Hf) as (i1 & -> & Hty & Hm & Hg); [lia..|].
  rewrite bind_Ret_l. eexists. split; [reflexivity|]. destruct (direct_step e i e1 i1 k b Hl Hf Hfr Hk Hz Hty Hm Hg) as [Hev Hsl].
  split; [done|]. split; [by eapply fresh_quiet|]. split_and!.
  - intros j Hj Hjk. by rewrite Hsl, (proj2 (Z.eqb_neq _ _)) by done.
  - by rewrite Hsl, Z.eqb_refl by lia.
  - lia.
  - intros _. apply (fr_zero _ _ _ Hfr).
Qed.

Lemma ensure_indirect e i k : layout e -> file_ok e i -> 12 <= k < limit e -> exists r, ensure_file_block e i k = Ret r /\ ensured e i k r.
Proof.
  intros Hl Hf Hk. unfold ensure_file_block. fold (limit e). rewrite (proj2 (Z.leb_gt _ _)), (proj2 (Z.ltb_ge _ _)) by lia.
  rewrite (idx_block e), bind_Ret_l by (done || lia). fold (table i).
  destruct (Z.eqb_spec (table i) 0) as [Hz|Hz]; [|rewrite bind_Ret_l; by apply through_table_eq].
  destruct (alloc_zeroed_eq e Hl) as [[-> Hfull]|(t & e1 & -> & Hfr)]; rewrite bind_Ret_l; cbn beta iota.
  { eexists. split; [reflexivity|]. split; [by apply evolves_refl|]. split_and!; try done; unfold slot; by rewrite (proj2 (Z.ltb_ge _ _)), Hz by lia. }
  change (exists r, through_table e1 i t k = Ret r /\ ensured e i k r).
  pose proof (fresh_32 e e1 t Hl Hfr). destruct (set_i_block_eq e i 12 t Hf) as (i1 & Hi1 & Hty & Hm & Hg); [lia..|].
  destruct (table_step e i e1 i1 t Hl Hf Hfr Hz Hty Hm Hg) as [Hev Hsl].
  assert (table i1 = t) as Ht by (unfold table; by rewrite Hg).
  pose proof (i_block_length e1 i1 (ev_file _ _ _ _ Hev)) as Hlen.
  assert (through_table e1 i t k = through_table e1 i1 (table i1) k) as ->.
  { unfold through_table. rewrite set_table_id by (done || lia). by rewrite Hi1, Ht. }
  destruct (same_more e e1 (fr_same _ _ _ Hfr)) as (Hlim & _).
  destruct (through_table_eq e1 i1 k (ev_layout _ _ _ _ Hev) (ev_file _ _ _ _ Hev) ltac:(lia) ltac:(lia)) as (r & -> & Hr).
  exists r. split; [done|]. eapply ensured_trans; try done; [by eapply fresh_quiet|lia].
Qed.

Lemma ensure_file_block_eq e i k : layout e -> file_ok e i -> 0 <= k < limit e -> exists r, ensure_file_block e i k = Ret r /\ ensured e i k r.
Proof. intros Hl Hf Hk. destruct (Z_lt_ge_dec k 12); [apply ensure_direct|apply ensure_indirect]; done || lia. Qed.

(** ** The contents of a file *)

(** Block [j] of a file, and its whole space; holes are zeros. *)
Definition content e i (j : Z) : list Z := if slot e i j =? 0 then zeros (block_size e) else blk e (slot e i j).
Definition contents e i : list Z := concat (content e i <$> seqZ 0 (limit e)).

Lemma content_length e i j : layout e -> file_ok e i -> 0 <= j < limit e -> zlen (content e i j) = block_size e.
Proof.
  intros Hl Hf Hj. pose proof (block_size_page _ _ _ (ly_geom _ _ _ _ _ _ _ Hl)). unfold content.
  destruct (Z.eqb_spec (slot e i j) 0) as [Hz|Hz]; [apply zeros_length; lia|].
  pose proof (taken_range e _ Hl (slot_taken e i j Hf Hj Hz)). apply (blk_length sectors sector nb); [apply (ly_geom _ _ _ _ _ _ _ Hl)|lia].
Qed.

Lemma content_lengths e i : layout e -> file_ok e i ->
  Forall (fun x => length x = Z.to_nat (block_size e)) (content e i <$> seqZ 0 (limit e)).
Proof.
  intros Hl Hf. apply Forall_fmap, Forall_forall. intros j Hj%elem_of_seqZ. simpl.
  pose proof (content_length e i j Hl Hf ltac:(lia)). unfold zlen in *. lia.
Qed.

Lemma contents_length e i : layout e -> file_ok e i -> zlen (contents e i) = limit e * block_size e.
Proof.
  intros Hl Hf. pose proof (limit_bs e Hl). pose proof (block_size_page _ _ _ (ly_geom _ _ _ _ _ _ _ Hl)). unfold contents, zlen.
  rewrite (concat_length_all (Z.to_nat (block_size e))) by (by apply content_lengths). rewrite length_fmap, length_seqZ. lia.
Qed.

Lemma contents_block e i j : 0 <= j < limit e -> (content e i <$> seqZ 0 (limit e)) !! Z.to_nat j = Some (content e i j).
Proof. intros Hj. rewrite list_lookup_fmap, lookup_seqZ_lt by lia. simpl. do 2 f_equal. lia. Qed.

Lemma file_contents_ext e i e' i' : limit e' = limit e -> (forall j, 0 <= j < limit e -> content e' i' j = content e i j) -> contents e' i' = contents e i.
Proof.
  intros Hlim Hc. unfold contents. rewrite Hlim. f_equal. apply list_fmap_ext. intros n j Hj%list_elem_of_lookup_2%elem_of_seqZ. apply Hc. lia.
Qed.

Lemma contents_update e i e' i' k o d : layout e -> file_ok e i -> limit e' = limit e -> 0 <= k < limit e -> 0 <= o -> o + zlen d <= block_size e ->
  (forall j, 0 <= j < limit e -> content e' i' j = if j =? k then splice (content e i k) (Z.to_nat o) d else content e i j) ->
  contents e' i' = splice (contents e i) (Z.to_nat (k * block_size e + o)) d.
Proof.
  intros Hl Hf Hlim Hk Ho Hd Hc. unfold contents, zlen in *. rewrite Hlim.
  replace (Z.to_nat (k * block_size e + o)) with (Z.to_nat k * Z.to_nat (block_size e) + Z.to_nat o)%nat by nia.
  rewrite <- (concat_splice _ _ (content_lengths e i Hl Hf) (Z.to_nat k) (content e i k)) by (by apply contents_block || lia).
  f_equal. apply list_eq. intros n. destruct (decide (n < Z.to_nat (limit e))%nat) as [Hn|Hn].
  - rewrite list_lookup_fmap, lookup_seqZ_lt by lia. simpl. rewrite Hc by lia. destruct (Z.eqb_spec (0 + Z.of_nat n) k) as [He|He].
    + replace n with (Z.to_nat k) by lia. rewrite list_lookup_insert_eq; [done|]. rewrite length_fmap, length_seqZ. lia.
    + rewrite list_lookup_insert_ne by lia. by rewrite list_lookup_fmap, lookup_seqZ_lt by lia.
  - rewrite !lookup_ge_None_2; [done| |]; rewrite ?length_insert, length_fmap, length_seqZ; lia.
Qed.

(** Allocating blocks does not change what a file contains. *)
Lemma ensured_content e i k o i' e' : ensured e i k (o, i', e') -> forall j, 0 <= j < limit e -> content e' i' j = content e i j.
Proof.
  intros (Hev & Hq & Hsl & Ho) j Hj. destruct (same_more e e' (ev_same _ _ _ _ Hev)) as (_ & _ & _ & _ & Hbs). unfold content. rewrite Hbs.
  destruct (decide (j = k)) as [->|Hne].
  - destruct (Z.eqb_spec (slot e i k) 0) as [Hz|Hz].
    + destruct o as [b|]; [|by destruct Ho as (_ & _ & ->)]. destruct Ho as (-> & Hb & Hz'). rewrite (proj2 (Z.eqb_neq _ _) Hb). by apply Hz'.
    + rewrite (ev_slot _ _ _ _ Hev) by done. rewrite (proj2 (Z.eqb_neq _ _) Hz). by apply Hq.
  - rewrite Hsl by done. destruct (Z.eqb_spec (slot e i j) 0); [done|]. by apply Hq.
Qed.

(** Writing a block of a file. *)
Lemma write_slot e i k data : layout e -> file_ok e i -> 0 <= k < limit e -> slot e i k <> 0 -> zlen data = block_size e ->
  exists e', write_blocks e (slot e i k) data = Ret e' /\ evolves e i e' i /\ (forall j, 0 <= j < limit e -> slot e' i j = slot e i j) /\
    forall j, 0 <= j < limit e -> content e' i j = if j =? k then data else content e i j.
Proof.
  intros Hl Hf Hk Hn Hd. pose proof (slot_taken e i k Hf Hk Hn) as Ht. pose proof Ht as ((H1 & H2) & _).
  destruct (write_taken e (slot e i k) data Hl ltac:(lia) Hd) as (e' & Hw & Hl' & Hs & Hb & Ho).
  pose proof (same_more e e' Hs) as (Hlim & Hfi & Hbp & _ & Hbs). pose proof (places_nb _ _ _ _ _ _ _ Hl).
  assert (forall j, slot e' i j = slot e i j) as Hsl.
  { intros j. apply slot_table; try done. intros Htab. pose proof (taken_range e _ Hl (table_taken e i Hf Htab)).
    apply Ho; [lia|]. intros Heq. by apply (fo_table _ _ Hf k Hk Hn). }
  assert (forall b, used e' b = used e b) as Hu by (intros b; unfold Ext2Layout.used; by rewrite Ho by lia).
  assert (forall b, owns e' i b -> owns e i b) as Hown.
  { intros b [Hb0 Hor]. split; [done|]. rewrite Hlim in Hor. destruct Hor as [?|(j & Hj & Hj')]; [by left|right]. exists j. by rewrite <- Hsl. }
  exists e'. split; [done|]. split; [|split; [done|]].
  - constructor; try done.
    + constructor; rewrite ?Hlim; [apply (fo_typed _ _ Hf)| | |].
      * intros b Hob. unfold taken. rewrite Hfi, Hbp, Hu. by apply (fo_taken _ _ Hf), Hown.
      * intros j j'. rewrite !Hsl. apply (fo_inj _ _ Hf).
      * intros j. rewrite !Hsl. apply (fo_table _ _ Hf).
    + by destruct i.
    + intros b _. by rewrite Hu.
    + intros b Hob. left. by apply Hown.
    + intros b Hbn _ _ _ Hno. apply Ho; [lia|]. intros ->. apply Hno. split; [done|]. right. by exists k.
  - intros j Hj. unfold content. rewrite Hsl, Hbs. destruct (Z.eqb_spec j k) as [->|Hne]; [by rewrite (proj2 (Z.eqb_neq _ _) Hn)|].
    destruct (Z.eqb_spec (slot e i j) 0) as [|Hnz]; [done|]. pose proof (taken_range e _ Hl (slot_taken e i j Hf Hj Hnz)).
    apply Ho; [lia|]. intros Heq. by apply Hne, (fo_inj _ _ Hf).
Qed.

(** ** Spans *)

(** What writing [data] at an offset does: [w] bytes are written. *)
Definition spanned e i off data (r : Z * Ext2Inode * Ext2 D) : Prop :=
  let '(w, i', e') := r in
  evolves e i e' i' /\ 0 <= w <= zlen data /\ (0 < w -> off + w <= limit e * block_size e) /\
  contents e' i' = splice (contents e i) (Z.to_nat off) (take (Z.to_nat w) data) /\
  (0 < w -> forall j, off / block_size e <= j -> j * block_size e < off + w -> slot e' i' j <> 0) /\
  (w < zlen data -> full e' \/ limit e * block_size e <= off + w).

Lemma splice_nil (l : list Z) n : splice l n [] = l.
Proof. unfold splice. simpl. rewrite Nat.add_0_r. apply take_drop. Qed.

(** Nothing is written. *)
Lemma spanned_none e i e' i' off data : layout e -> 0 <= off -> evolves e i e' i' ->
  (forall j, 0 <= j < limit e -> content e' i' j = content e i j) -> full e' \/ limit e * block_size e <= off ->
  spanned e i off data (0, i', e').
Proof.
  intros Hl Ho Hev Hc Hor. pose proof (zlen_nonneg data). pose proof (block_size_page _ _ _ (ly_geom _ _ _ _ _ _ _ Hl)).
  destruct (same_more e e' (ev_same _ _ _ _ Hev)) as (Hlim & _). split; [done|]. split_and!; try lia.
  - rewrite take_0, splice_nil. by apply file_contents_ext.
  - intros _. by rewrite Z.add_0_r.
Qed.

(** A part in one block, and then the rest. *)
Lemma spanned_app e i e1 i1 off data c r : layout e -> file_ok e i -> evolves e i e1 i1 -> 0 <= off -> 0 < c <= zlen data ->
  off mod block_size e + c <= block_size e -> off / block_size e < limit e -> c = zlen data \/ off mod block_size e + c = block_size e ->
  slot e1 i1 (off / block_size e) <> 0 ->
  contents e1 i1 = splice (contents e i) (Z.to_nat off) (take (Z.to_nat c) data) ->
  spanned e1 i1 (off + c) (drop (Z.to_nat c) data) r ->
  spanned e i off data (c + r.1.1, r.1.2, r.2).
Proof.
  intros Hl Hf Hev Ho Hc Hin Hlt Hfit Hs Hct. destruct r as [[w i'] e']. intros (Hev' & Hw & Hmax & Hct' & Hsl & Hend). cbn [fst snd].
  pose proof (block_size_page _ _ _ (ly_geom _ _ _ _ _ _ _ Hl)). destruct (same_more e e1 (ev_same _ _ _ _ Hev)) as (Hlim & _ & _ & _ & Hbs).
  rewrite Hlim, Hbs in *. pose proof (Z.div_mod off (block_size e) ltac:(lia)) as Hdm. pose proof (Z.mod_pos_bound off (block_size e) ltac:(lia)).
  assert (zlen (drop (Z.to_nat c) data) = zlen data - c) as Hdl by (unfold zlen in *; rewrite length_drop; lia). rewrite Hdl in *.
  assert (off + c <= limit e * block_size e) as Hlb by nia. split; [by eapply evolves_trans|]. split_and!; try lia.
  - rewrite Hct', Hct. assert (length (take (Z.to_nat c) data) = Z.to_nat c) as Htl by (rewrite length_take; unfold zlen in *; lia).
    pose proof (contents_length e i Hl Hf) as Hcl. unfold zlen in Hcl, Hc, Hw.
    replace (Z.to_nat (off + c)) with (Z.to_nat off + length (take (Z.to_nat c) data))%nat by lia.
    destruct (decide (w = 0)) as [->|Hw0]; [by rewrite take_0, splice_nil, Z.add_0_r|].
    rewrite splice_splice by (rewrite Htl, length_take, length_drop; lia).
    f_equal. rewrite (Z2Nat.inj_add c w) by lia. by rewrite take_take_drop.
  - intros _ j Hj Hj'. destruct (decide (j = off / block_size e)) as [->|Hne].
    + rewrite (ev_slot _ _ _ _ Hev'); [done| |done]. rewrite Hlim. split; [apply Z.div_pos; lia|done].
    + assert ((off / block_size e + 1) * block_size e <= j * block_size e) by nia. apply Hsl; [lia| |lia].
      apply Z.div_le_upper_bound; lia.
  - intros Hwd. rewrite Z.add_assoc. apply Hend. lia.
Qed.

Lemma read_slot e i k : layout e -> file_ok e i -> 0 <= k < limit e -> slot e i k <> 0 ->
  read_blocks e (slot e i k) (zeros (block_size e)) = Ret (content e i k).
Proof.
  intros Hl Hf Hk Hn. rewrite read_block by (done || by apply slot_taken). unfold content. by rewrite (proj2 (Z.eqb_neq _ _) Hn).
Qed.

(** A part of one block. *)
Lemma write_part e i k o part : layout e -> file_ok e i -> 0 <= k < limit e -> slot e i k <> 0 -> 0 <= o -> o + zlen part <= block_size e ->
  exists e', write_blocks e (slot e i k) (splice (content e i k) (Z.to_nat o) part) = Ret e' /\ evolves e i e' i /\
    slot e' i k <> 0 /\ contents e' i = splice (contents e i) (Z.to_nat (k * block_size e + o)) part.
Proof.
  intros Hl Hf Hk Hn Ho Hp. pose proof (content_length e i k Hl Hf Hk) as Hcl.
  destruct (write_slot e i k (splice (content e i k) (Z.to_nat o) part) Hl Hf Hk Hn) as (e' & -> & Hev & Hsl & Hc).
  { unfold zlen in *. rewrite splice_length; lia. }
  exists e'. split_and!; try done; [by rewrite Hsl|]. apply contents_update; try done. apply (same_more e e' (ev_same _ _ _ _ Hev)).
Qed.

Lemma write_span_eq fuel : forall e i off data, layout e -> file_ok e i -> 0 <= off -> (length data < fuel)%nat ->
  off + zlen data <= 2 ^ 32 -> exists r, write_span fuel e i off data = Ret r /\ spanned e i off data r.
Proof.
  induction fuel as [|fuel IH]; intros e i off data Hl Hf Ho Hfuel Hmax; [lia|]. cbn [write_span].
  destruct data as [|x data']; [eexists; split; [reflexivity|]|]; [|set (data := x :: data') in *].
  { split; [by apply evolves_refl|]. change (zlen []) with 0. split_and!; try lia. by rewrite take_nil, splice_nil. }
  pose proof (block_size_page _ _ _ (ly_geom _ _ _ _ _ _ _ Hl)) as Hbs. pose proof (limit_bs e Hl) as Hlimb. fold (limit e).
  pose proof (Z.mod_pos_bound off (block_size e) ltac:(lia)). pose proof (Z.div_mod off (block_size e) ltac:(lia)) as Hdm.
  assert (0 < zlen data) as Hd by (unfold data; rewrite zlen_cons; pose proof (zlen_nonneg data'); lia).
  assert (0 <= off / block_size e <= off) as Hq by (split; [apply Z.div_pos; lia|apply Z.div_le_upper_bound; nia]).
  rewrite (Z.mod_small (off / block_size e)) by lia. set (k := off / block_size e) in *.
  destruct (Z.leb_spec (limit e) k) as [Hover|Hk].
  { eexists. split; [reflexivity|]. apply spanned_none; [done|lia|by apply evolves_refl|done|right]. nia. }
  destruct (ensure_file_block_eq e i k Hl Hf ltac:(lia)) as ([[o i1] e1] & -> & Hens). rewrite bind_Ret_l. cbn beta iota.
  pose proof (ensured_content _ _ _ _ _ _ Hens) as Hc1. destruct Hens as (Hev & Hq1 & Hsl1 & Ho1).
  destruct o as [b|]; [|eexists; split; [reflexivity|]; apply spanned_none; try done; [left; apply Ho1]].
  destruct Ho1 as (<- & Hb0 & _). pose proof (ev_layout _ _ _ _ Hev) as Hl1. pose proof (ev_file _ _ _ _ Hev) as Hf1.
  destruct (same_more e e1 (ev_same _ _ _ _ Hev)) as (Hlim1 & _ & _ & _ & Hbs1).
  rewrite read_slot, bind_Ret_l by (done || lia). rewrite Hbs1. set (c := Z.min (zlen data) (block_size e - off mod block_size e)).
  destruct (write_part e1 i1 k (off mod block_size e) (take (Z.to_nat c) data) Hl1 Hf1 ltac:(lia) Hb0) as (e2 & -> & Hev2 & Hs2 & Hc2);
    [lia|rewrite Hbs1; unfold zlen, c in *; rewrite length_take; lia|].
  rewrite bind_Ret_l.
  destruct (IH e2 i1 (off + c) (drop (Z.to_nat c) data)) as (r & -> & Hr);
    [apply Hev2|apply Hev2|lia|rewrite length_drop; unfold zlen in *; lia|unfold zlen in *; rewrite length_drop; lia|].
  rewrite bind_Ret_l. exists (c + r.1.1, r.1.2, r.2). split; [by destruct r as [[? ?] ?]|].
  apply (spanned_app e i e2 i1); try done; try lia; [by eapply evolves_trans|].
  rewrite Hc2, Hbs1. replace (k * block_size e + off mod block_size e) with off by lia. f_equal. by apply file_contents_ext.
Qed.

(** Reading a span without holes. *)
Lemma read_span_eq fuel : forall e i off n, layout e -> file_ok e i -> 0 <= off -> 0 <= n -> (Z.to_nat n < fuel)%nat ->
  off + n <= limit e * block_size e -> (0 < n -> forall j, off / block_size e <= j -> j * block_size e < off + n -> slot e i j <> 0) ->
  read_span fuel e i off n = Ret (slice (contents e i) (Z.to_nat off) (Z.to_nat n)).
Proof.
  induction fuel as [|fuel IH]; intros e i off n Hl Hf Ho Hn Hfuel Hmax Hs; [lia|]. cbn [read_span].
  destruct (Z.leb_spec n 0) as [Hn0|Hn0]; [by replace n with 0 by lia|].
  pose proof (block_size_page _ _ _ (ly_geom _ _ _ _ _ _ _ Hl)) as Hbs. pose proof (limit_bs e Hl) as Hlimb.
  pose proof (Z.mod_pos_bound off (block_size e) ltac:(lia)). pose proof (Z.div_mod off (block_size e) ltac:(lia)) as Hdm.
  assert (0 <= off / block_size e) as Hq by (apply Z.div_pos; lia). set (k := off / block_size e) in *.
  assert (k < limit e) as Hk by nia. rewrite (Z.mod_small k) by lia.
  assert (slot e i k <> 0) as Hsk by (apply Hs; lia). rewrite resolve_block_eq, bind_Ret_l by (done || lia).
  unfold nonzero at 1. rewrite (proj2 (Z.eqb_neq _ _) Hsk), read_slot, bind_Ret_l by (done || lia).
  set (c := Z.min n (block_size e - off mod block_size e)).
  rewrite (IH e i (off + c) (n - c)); try done; try lia; [|intros Hnc j Hj Hj'].
  - rewrite bind_Ret_l. f_equal. replace (Z.to_nat n) with (Z.to_nat c + Z.to_nat (n - c))%nat by lia.
    rewrite <- slice_slice. f_equal; [|f_equal; lia]. symmetry. unfold contents.
    replace (Z.to_nat off) with (Z.to_nat k * Z.to_nat (block_size e) + Z.to_nat (off mod block_size e))%nat by nia.
    apply concat_slice; [by apply content_lengths|apply contents_block; lia|lia].
  - apply Hs; [done| |lia]. unfold k. etrans; [|exact Hj]. apply Z.div_le_mono; lia.
Qed.

(** ** Inodes of files *)

Lemma ino_evolves e i e1 i1 m : layout e -> file_ok e i -> evolves e i e1 i1 -> 1 <= m <= ipg e -> ino e1 m = ino e m.
Proof.
  intros Hl Hf Hev Hm. pose proof (ev_same _ _ _ _ Hev) as Hs1. destruct (same_fields it e e1 Hs1) as (Hsb & Hbs & _).
  pose proof (inode_in_block _ _ _ _ _ _ _ _ Hl Hm). pose proof (places_nb _ _ _ _ _ _ _ Hl). unfold Ext2Layout.ino, view. rewrite Hsb, Hbs.
  do 2 f_equal. apply (ev_blk _ _ _ _ Hev); try lia. intros Hoi. pose proof (fo_taken _ _ Hf _ Hoi) as (? & _). lia.
Qed.

(** Writing back the inode of a file that grew. *)
Lemma inode_commit e n e1 i1 i2 : layout e -> evolves e (ino e n) e1 i1 -> file_ok e (ino e n) -> 1 <= n <= ipg e ->
  inode_typed i2 -> i_block i2 = i_block i1 ->
  exists e', write_inode e1 n i2 = Ret e' /\ layout e' /\ same e e' /\ ino e' n = i2 /\ file_ok e' i2 /\ contents e' i2 = contents e1 i1 /\
    (forall k, slot e' i2 k = slot e1 i1 k) /\ (forall m, 1 <= m <= ipg e -> m <> n -> ino e' m = ino e m) /\
    (forall b, first e <= b < nb -> blk e' b = blk e1 b) /\ (forall b, 0 <= b -> used e' b = used e1 b).
Proof.
  intros Hl Hev Hf Hn Hty Hb. pose proof (ev_layout _ _ _ _ Hev) as Hl1. pose proof (ev_file _ _ _ _ Hev) as Hf1.
  pose proof (ev_same _ _ _ _ Hev) as Hs1. destruct (same_more e e1 Hs1) as (Hlim & Hfi & Hbp & Hip & Hbs). pose proof (places_nb _ _ _ _ _ _ _ Hl).
  destruct (same_fields it e e1 Hs1) as (Hsb & _).
  destruct (write_inode_eq sectors sector nb bb ib it e1 n i2 Hl1 ltac:(lia) Hty) as (e' & Hw & Hl' & Hs' & Hin & Hm & Ho).
  rewrite Hfi in Ho. destruct (same_more e1 e' Hs') as (Hlim' & Hfi' & Hbp' & _ & Hbs').
  assert (forall b, first e <= b < nb -> blk e' b = blk e1 b) as Hob by (intros b Hbr; apply Ho; lia).
  assert (table i2 = table i1) as Ht by (unfold table; by rewrite Hb).
  assert (forall k, slot e' i2 k = slot e1 i1 k) as Hsl.
  { intros k. apply slot_table; [done|by rewrite Hb|]. intros Htn. apply Hob. pose proof (table_taken e1 i1 Hf1 Htn) as (? & _). lia. }
  assert (forall b, 0 <= b -> used e' b = used e1 b) as Hu by (intros b _; unfold Ext2Layout.used; by rewrite Ho by lia).
  assert (forall b, owns e' i2 b -> owns e1 i1 b) as Hown.
  { intros b [Hb0 Hor]. split; [done|]. rewrite Hlim', Ht in Hor. destruct Hor as [?|(k & Hk & Hk')]; [by left|right]. exists k. by rewrite <- Hsl. }
  exists e'. split_and!; try done; [by eapply fs_same_trans| | |].
  - constructor; rewrite ?Hlim'; [done| | |].
    + intros b Hob'. pose proof (fo_taken _ _ Hf1 b (Hown b Hob')) as Htk. pose proof (taken_range e1 b Hl1 Htk).
      unfold taken in *. by rewrite Hfi', Hbp', Hu by lia.
    + intros j k. rewrite !Hsl. apply (fo_inj _ _ Hf1).
    + intros k. rewrite Hsl, Ht. apply (fo_table _ _ Hf1).
  - apply file_contents_ext; [done|]. intros j Hj. unfold content. rewrite Hsl, Hbs'. destruct (Z.eqb_spec (slot e1 i1 j) 0) as [|Hnz]; [done|].
    apply Hob. pose proof (slot_taken e1 i1 j Hf1 Hj Hnz) as (? & _). lia.
  - intros m Hm1 Hmn. rewrite Hm by lia. by apply (ino_evolves e (ino e n) e1 i1).
Qed.

Lemma blocks_for_eq e n : layout e -> 0 <= n < 2 ^ 31 -> exists c, blocks_for e n = Ret c /\ n <= c * block_size e < n + block_size e.
Proof.
  intros Hl Hn. pose proof (block_size_page _ _ _ (ly_geom _ _ _ _ _ _ _ Hl)). unfold blocks_for, sub_u, div_u.
  rewrite add_u_Ret, bind_Ret_l by lia. rewrite (proj2 (Z.leb_le _ _)), bind_Ret_l, (proj2 (Z.eqb_neq _ _)) by lia.
  eexists. split; [reflexivity|]. pose proof (Z.div_mod (n + block_size e - 1) (block_size e) ltac:(lia)).
  pose proof (Z.mod_pos_bound (n + block_size e - 1) (block_size e) ltac:(lia)). lia.
Qed.

Lemma sectors_for_eq e c : layout e -> 0 <= c -> c * block_size e < 2 ^ 32 - 4096 -> exists s, sectors_for e c = Ret s /\ 0 <= s < 2 ^ 32.
Proof.
  intros Hl Hc Hb. pose proof (spb_bs _ _ _ (ly_geom _ _ _ _ _ _ _ Hl)) as [Hs Hr]. unfold spb in *. unfold sectors_for, mul_u.
  rewrite add_u_Ret, bind_Ret_l by (destruct (12 <? c); nia). rewrite (proj2 (Z.ltb_lt _ _)) by (destruct (12 <? c); nia).
  eexists. split; [reflexivity|]. destruct (12 <? c); nia.
Qed.

(** The fields of an inode that writing changes. *)
Lemma inode_update_typed i size blocks mtime ctime : inode_typed i -> 0 <= size < 2 ^ 32 -> 0 <= blocks < 2 ^ 32 -> 0 <= mtime < 2 ^ 32 -> 0 <= ctime < 2 ^ 32 ->
  inode_typed (i <| i_size := size |> <| i_blocks := blocks |> <| i_mtime := mtime |> <| i_ctime := ctime |>).
Proof.
  intros (Hl & Hb & H1 & H2)%inode_typed_iff Hs Hbl Hm Hc. apply inode_typed_iff. split; [done|]. split; [done|]. split; [|done].
  repeat match goal with H : Forall2 _ (_ :: _) (_ :: _) |- _ => apply Forall2_cons in H as [? H] end.
  by repeat (apply Forall2_cons; split).
Qed.

Lemma inode_typed_fields i : inode_typed i -> 0 <= i_size i < 2 ^ 32 /\ 0 <= i_blocks i < 2 ^ 32 /\ 0 <= i_mtime i < 2 ^ 32 /\ 0 <= i_ctime i < 2 ^ 32.
Proof.
  intros (_ & _ & H & _)%inode_typed_iff.
  repeat match goal with H : Forall2 _ (_ :: _) (_ :: _) |- _ => apply Forall2_cons in H as [? H] end. done.
Qed.

(** What writing a span of a file does to the filesystem. *)
Definition written_at e n off data w e' : Prop :=
  layout e' /\ same e e' /\ file_ok e' (ino e' n) /\ 0 <= w <= zlen data /\ (w < zlen data -> full e' \/ limit e * block_size e <= off + w) /\
  contents e' (ino e' n) = splice (contents e (ino e n)) (Z.to_nat off) (take (Z.to_nat w) data) /\
  i_size (ino e' n) = Z.max (i_size (ino e n)) (off + w) /\ i_mode (ino e' n) = i_mode (ino e n) /\
  (0 < w -> off + w <= limit e * block_size e /\ forall j, off / block_size e <= j -> j * block_size e < off + w -> slot e' (ino e' n) j <> 0) /\
  forall m, 1 <= m <= ipg e -> m <> n -> ino e' m = ino e m /\
    forall b, owns e (ino e m) b -> taken e b -> ~ owns e (ino e n) b -> blk e' b = blk e b.

Lemma write_at_eq now e n off data : layout e -> 1 <= n <= ipg e -> file_ok e (ino e n) -> is_reg (ino e n) = true -> data <> [] ->
  0 <= off -> off + zlen data < 2 ^ 31 -> i_size (ino e n) < 2 ^ 31 -> 0 <= now < 2 ^ 32 ->
  exists w e', ext2_write_at now e n off data = Ret (w, e') /\ written_at e n off data w e'.
Proof.
  intros Hl Hn Hf Hreg Hne Ho Hmax Hsz Hnow. pose proof (block_size_page _ _ _ (ly_geom _ _ _ _ _ _ _ Hl)) as Hbs.
  unfold ext2_write_at. destruct data as [|x l]; [done|]. set (data := x :: l) in *. clearbody data.
  rewrite (read_inode_eq sectors sector nb bb ib it), bind_Ret_l by done.
  rewrite Hreg, (proj2 (Z.eqb_neq _ _)) by lia. cbn [negb].
  destruct (write_span_eq (S (length data)) e (ino e n) off data Hl Hf Ho ltac:(lia) ltac:(lia)) as ([[w i1] e1] & -> & Hsp).
  rewrite bind_Ret_l. cbn beta iota. destruct Hsp as (Hev & Hw & Hlim & Hc & Hsl & Hend).
  assert (i_size i1 = i_size (ino e n) /\ i_mode i1 = i_mode (ino e n)) as [Hi1 Hi1'] by (by rewrite (ev_meta _ _ _ _ Hev)).
  pose proof (inode_typed_fields _ (fo_typed _ _ (ev_file _ _ _ _ Hev))) as (? & ? & ? & ?). rewrite add_u_Ret, bind_Ret_l by lia.
  rewrite (Z.mod_small (Z.max _ _)) by lia. pose proof (ev_layout _ _ _ _ Hev) as Hl1.
  destruct (same_more e e1 (ev_same _ _ _ _ Hev)) as (_ & _ & _ & _ & Hbs1).
  destruct (blocks_for_eq e1 (Z.max (i_size i1) (off + w)) Hl1 ltac:(lia)) as (c & -> & Hc1). rewrite bind_Ret_l.
  destruct (sectors_for_eq e1 c Hl1 ltac:(nia) ltac:(lia)) as (s & -> & Hs). rewrite bind_Ret_l.
  set (i2 := if w =? 0 then _ else _). assert (inode_typed i2 /\ i_block i2 = i_block i1 /\ i_size i2 = Z.max (i_size i1) (off + w) /\ i_mode i2 = i_mode i1)
    as (Hty & Hb2 & Hs2 & Hm2).
  { pose proof (fo_typed _ _ (ev_file _ _ _ _ Hev)) as Hty1. unfold i2. destruct (w =? 0); (split; [|done]).
    - pose proof (inode_update_typed i1 (Z.max (i_size i1) (off + w)) (Z.max (i_blocks i1) s) (i_mtime i1) (i_ctime i1) Hty1 ltac:(lia) ltac:(lia) ltac:(lia) ltac:(lia)) as H'.
      by destruct i1.
    - apply inode_update_typed; done || lia. }
  destruct (inode_commit e n e1 i1 i2 Hl Hev Hf Hn Hty Hb2) as (e' & -> & Hl' & Hs' & Hin & Hf' & Hc' & Hsl' & Hm & Hob & Hu).
  rewrite bind_Ret_l. exists w, e'. split; [done|]. unfold written_at. rewrite Hin. split_and!; try done; try lia.
  - intros Hlt. destruct (Hend Hlt) as [Hfull|?]; [left|by right]. destruct (same_more e e' Hs') as (_ & Hfi' & Hbp' & _).
    destruct (same_more e e1 (ev_same _ _ _ _ Hev)) as (_ & Hfi1 & Hbp1 & _). pose proof (places_nb _ _ _ _ _ _ _ Hl).
    intros k Hk. rewrite Hu by lia. apply Hfull. lia.
  - by rewrite Hc'.
  - intros H0w. split; [by apply Hlim|]. intros j Hj Hj'. rewrite Hsl'. by apply Hsl.
  - intros m Hm1 Hmn. split; [by apply Hm|]. intros b Hob' Htk Hno. pose proof Htk as (Hr & _ & Hub). rewrite Hob by lia.
    pose proof (taken_range e b Hl Htk). apply (ev_blk _ _ _ _ Hev); try done; try lia. by right.
Qed.

Lemma read_at_eq e n off buf : layout e -> 1 <= n <= ipg e -> file_ok e (ino e n) -> is_reg (ino e n) = true -> 0 <= off -> 0 < zlen buf ->
  off + zlen buf <= i_size (ino e n) -> off + zlen buf <= limit e * block_size e ->
  (forall j, off / block_size e <= j -> j * block_size e < off + zlen buf -> slot e (ino e n) j <> 0) ->
  ext2_read_at e n off buf = Ret (zlen buf, slice (contents e (ino e n)) (Z.to_nat off) (length buf)).
Proof.
  intros Hl Hn Hf Hreg Ho Hb Hsz Hlim Hs. pose proof (block_size_page _ _ _ (ly_geom _ _ _ _ _ _ _ Hl)). unfold ext2_read_at.
  rewrite (read_inode_eq sectors sector nb bb ib it), bind_Ret_l by done. rewrite Hreg, (proj2 (Z.leb_gt _ _)) by lia. cbn [negb].
  rewrite Z.min_l by lia. rewrite (proj2 (Z.ltb_lt _ _)), (proj2 (Z.eqb_neq (block_size e) 0)) by lia. cbn [andb].
  rewrite read_span_eq, bind_Ret_l by (done || lia || auto).
  assert (zlen (slice (contents e (ino e n)) (Z.to_nat off) (Z.to_nat (zlen buf))) = zlen buf) as Hsl.
  { pose proof (contents_length e _ Hl Hf) as Hcl. unfold slice, zlen in *. rewrite length_take, length_drop. lia. }
  rewrite Hsl. do 2 f_equal. unfold splice. rewrite take_0, drop_ge, app_nil_r by (unfold zlen in *; lia). unfold zlen. by rewrite Nat2Z.id.
Qed.


(** ** Whole files *)

(** Block [j] of the data, padded with zeros. *)
Definition padded e (data : list Z) (j : Z) : list Z :=
  splice (zeros (block_size e)) 0 (slice data (Z.to_nat (j * block_size e)) (Z.to_nat (block_size e))).

Lemma padded_length e data j : 0 <= block_size e -> zlen (padded e data j) = block_size e.
Proof.
  intros Hb. pose proof (zeros_length _ Hb). unfold padded, zlen in *. rewrite splice_length; [done|].
  unfold slice. rewrite length_take. lia.
Qed.

Lemma write_all_eq data n : forall e i k, layout e -> file_ok e i -> 0 <= k -> k + Z.of_nat n <= limit e ->
  exists ok i' e', write_all n e i k data = Ret (ok, i', e') /\ evolves e i e' i' /\
    (forall j, 0 <= j < limit e -> j < k \/ k + Z.of_nat n <= j -> content e' i' j = content e i j) /\
    if ok : bool then forall j, k <= j < k + Z.of_nat n -> slot e' i' j <> 0 /\ content e' i' j = padded e data j else full e'.
Proof.
  induction n as [|n IH]; intros e i k Hl Hf Hk Hn; cbn [write_all].
  { exists true, i, e. split_and!; try done; [by apply evolves_refl|lia]. }
  destruct (ensure_file_block_eq e i k Hl Hf ltac:(lia)) as ([[o i1] e1] & -> & Hens). rewrite bind_Ret_l. cbn beta iota.
  pose proof (ensured_content _ _ _ _ _ _ Hens) as Hc1. destruct Hens as (Hev & _ & _ & Ho1).
  destruct o as [b|]; [|exists false, i1, e1; split_and!; try done; [intros; by apply Hc1|apply Ho1]].
  destruct Ho1 as (<- & Hb0 & _). pose proof (ev_layout _ _ _ _ Hev) as Hl1. pose proof (ev_file _ _ _ _ Hev) as Hf1.
  destruct (same_more e e1 (ev_same _ _ _ _ Hev)) as (Hlim1 & _ & _ & _ & Hbs1). pose proof (block_size_page _ _ _ (ly_geom _ _ _ _ _ _ _ Hl)).
  fold (padded e1 data k). destruct (write_slot e1 i1 k (padded e1 data k) Hl1 Hf1 ltac:(lia) Hb0) as (e2 & -> & Hev2 & Hsl2 & Hc2); [apply padded_length; lia|].
  rewrite bind_Ret_l. destruct (same_more e1 e2 (ev_same _ _ _ _ Hev2)) as (Hlim2 & _ & _ & _ & Hbs2).
  destruct (IH e2 i1 (k + 1)) as (ok & i' & e' & -> & Hev' & Hc' & Hr); [apply Hev2|apply Hev2|lia|lia|].
  exists ok, i', e'. split; [done|]. split; [eapply evolves_trans; [exact Hev|]; by eapply evolves_trans|].
  rewrite Hlim2, Hlim1 in *. split.
  - intros j Hj Hout. rewrite Hc' by lia. rewrite Hc2, (proj2 (Z.eqb_neq _ _)) by lia. by apply Hc1.
  - destruct ok; [|done]. intros j Hj. destruct (decide (j = k)) as [->|Hne].
    + split; [rewrite (ev_slot _ _ _ _ Hev') by (rewrite ?Hsl2; (done || lia)); by rewrite Hsl2 by lia|].
      rewrite Hc', Hc2, Z.eqb_refl by lia. unfold padded. by rewrite Hbs1.
    + destruct (Hr j ltac:(lia)) as [H1 H2]. split; [done|]. rewrite H2. unfold padded. by rewrite Hbs2, Hbs1.
Qed.

Lemma read_all_eq data n : forall e i k, layout e -> file_ok e i -> 0 <= k -> k + Z.of_nat n <= limit e -> i_size i = zlen data ->
  (k + Z.of_nat n - 1) * block_size e < zlen data ->
  (forall j, k <= j < k + Z.of_nat n -> slot e i j <> 0 /\ content e i j = padded e data j) ->
  read_all n e i k = Ret (slice data (Z.to_nat (k * block_size e)) (n * Z.to_nat (block_size e))).
Proof.
  induction n as [|n IH]; intros e i k Hl Hf Hk Hn Hs Hlast Hc; [done|]. cbn [read_all].
  pose proof (block_size_page _ _ _ (ly_geom _ _ _ _ _ _ _ Hl)). destruct (Hc k ltac:(lia)) as [Hsk Hck].
  rewrite resolve_block_eq, bind_Ret_l by (done || lia). unfold nonzero. rewrite (proj2 (Z.eqb_neq _ _) Hsk), read_slot, bind_Ret_l by (done || lia).
  rewrite IH by (done || lia || (intros j Hj; apply Hc; lia) || (replace (k + 1 + Z.of_nat n - 1) with (k + Z.of_nat (S n) - 1) by lia; done)).
  rewrite bind_Ret_l. f_equal. cbn [Nat.mul]. rewrite <- slice_slice. f_equal; [|f_equal; lia].
  rewrite Hck. unfold padded, splice. rewrite take_0, app_nil_l. apply take_app_length'. unfold slice. rewrite length_take, length_drop.
  unfold zlen in *. nia.
Qed.

Lemma read_file_eq e n data : layout e -> 1 <= n <= ipg e -> file_ok e (ino e n) -> is_reg (ino e n) = true -> i_size (ino e n) = zlen data ->
  zlen data < 2 ^ 31 -> zlen data <= limit e * block_size e ->
  (forall j, 0 <= j -> j * block_size e < zlen data -> slot e (ino e n) j <> 0 /\ content e (ino e n) j = padded e data j) ->
  read_file_by_inode e n = Ret (Some data).
Proof.
  intros Hl Hn Hf Hreg Hs Hmax Hlim Hc. pose proof (block_size_page _ _ _ (ly_geom _ _ _ _ _ _ _ Hl)). pose proof (zlen_nonneg data).
  unfold read_file_by_inode. rewrite (read_inode_eq sectors sector nb bb ib it), bind_Ret_l, Hreg, Hs by done. cbn [negb].
  destruct (blocks_for_eq e (zlen data) Hl ltac:(lia)) as (c & -> & Hcb). rewrite bind_Ret_l.
  assert (0 <= c <= limit e) as Hcl by nia.
  rewrite (read_all_eq data) by (done || nia || (intros j Hj; apply Hc; nia)). rewrite bind_Ret_l. do 2 f_equal. unfold slice.
  rewrite drop_0. apply take_ge. unfold zlen in *. nia.
Qed.

(** The inode with the new size makes the blocks written the contents. *)
Lemma commit_file now e n data e1 i1 blocks : layout e -> 1 <= n <= ipg e -> file_ok e (ino e n) -> is_reg (ino e n) = true ->
  zlen data < 2 ^ 31 -> zlen data <= limit e * block_size e -> 0 <= now < 2 ^ 32 -> 0 <= blocks < 2 ^ 32 -> evolves e (ino e n) e1 i1 ->
  (forall j, 0 <= j -> j * block_size e < zlen data -> slot e1 i1 j <> 0 /\ content e1 i1 j = padded e data j) ->
  exists e', write_inode e1 n (i1 <| i_size := zlen data |> <| i_mtime := now |> <| i_ctime := now |> <| i_blocks := blocks |>) = Ret e' /\
    layout e' /\ file_ok e' (ino e' n) /\ read_file_by_inode e' n = Ret (Some data) /\
    forall m, 1 <= m <= ipg e -> m <> n -> ino e' m = ino e m /\ forall b, taken e b -> blk e' b = blk e1 b.
Proof.
  intros Hl Hn Hf Hreg Hmax Hlim Hnow Hbl Hev Hok. pose proof (block_size_page _ _ _ (ly_geom _ _ _ _ _ _ _ Hl)) as Hbs.
  pose proof (zlen_nonneg data). destruct (same_more e e1 (ev_same _ _ _ _ Hev)) as (Hlim1 & Hfi1 & _ & _ & Hbs1).
  pose proof (fo_typed _ _ (ev_file _ _ _ _ Hev)) as Hty1.
  set (i2 := i1 <| i_size := zlen data |> <| i_mtime := now |> <| i_ctime := now |> <| i_blocks := blocks |>).
  assert (inode_typed i2) as Hty.
  { pose proof (inode_update_typed i1 (zlen data) blocks now now Hty1 ltac:(lia) ltac:(lia) Hnow Hnow) as H'. by destruct i1. }
  destruct (inode_commit e n e1 i1 i2 Hl Hev Hf Hn Hty eq_refl) as (e' & -> & Hl' & Hs' & Hin & Hf' & Hc' & Hsl' & Hm & Hob & Hu).
  destruct (same_more e e' Hs') as (Hlim' & _ & _ & Hip' & Hbs'). pose proof (ev_file _ _ _ _ Hev) as Hf1.
  exists e'. split_and!; try done; [by rewrite Hin| |intros m Hm1 Hmn; split; [by apply Hm|]; intros b (Hr & _); by apply Hob].
  apply read_file_eq; rewrite ?Hin, ?Hip', ?Hlim', ?Hbs'; try done.
  - unfold is_reg in *. change (i_mode i2) with (i_mode i1). by rewrite (ev_meta _ _ _ _ Hev).
  - intros j Hj Hj'. destruct (Hok j Hj Hj') as [Hj1 Hj2]. rewrite Hsl'. split; [done|]. unfold padded in *. rewrite Hbs'. rewrite <- Hj2.
    unfold content. rewrite Hsl', (proj2 (Z.eqb_neq _ _) Hj1). apply Hob.
    pose proof (slot_taken e1 i1 j Hf1 ltac:(rewrite Hlim1; nia) Hj1) as (? & _). lia.
Qed.

(** C19. Writing a whole regular file of a filesystem with one block group and
    blocks of 2048 or 4096 bytes, with the first data block 0, returns; when it succeeds, the file reads back exactly as the data.  It
    fails only when the data exceed what the block map can hold or no block
    is free.  All other inodes and the blocks of other files are unchanged. *)
Theorem file_roundtrip now e n data : layout e -> 1 <= n <= ipg e -> file_ok e (ino e n) -> is_reg (ino e n) = true ->
  zlen data < 2 ^ 31 -> 0 <= now < 2 ^ 32 ->
  exists ok e', write_file_by_inode now e n data = Ret (ok, e') /\ layout e' /\
    (if ok : bool then file_ok e' (ino e' n) /\ read_file_by_inode e' n = Ret (Some data) else full e' \/ limit e * block_size e < zlen data) /\
    forall m, 1 <= m <= ipg e -> m <> n -> ino e' m = ino e m /\
      forall b, owns e (ino e m) b -> taken e b -> ~ owns e (ino e n) b -> blk e' b = blk e b.
Proof.
  intros Hl Hn Hf Hreg Hmax Hnow. pose proof (block_size_page _ _ _ (ly_geom _ _ _ _ _ _ _ Hl)) as Hbs. pose proof (zlen_nonneg data).
  unfold write_file_by_inode. rewrite (read_inode_eq sectors sector nb bb ib it), bind_Ret_l, Hreg by done. cbn [negb].
  destruct (blocks_for_eq e (zlen data) Hl ltac:(lia)) as (c & -> & Hcb). rewrite bind_Ret_l. fold (limit e).
  destruct (Z.ltb_spec (limit e) c) as [Hbig|Hfits].
  { exists false, e. split_and!; try done. right. nia. }
  assert (0 <= c) by nia. destruct (write_all_eq data (Z.to_nat c) e (ino e n) 0 Hl Hf ltac:(lia) ltac:(lia)) as (ok & i1 & e1 & -> & Hev & Hc & Hok).
  rewrite bind_Ret_l. cbn beta iota. assert (forall b, taken e b -> ~ owns e (ino e n) b -> blk e1 b = blk e b) as Hother.
  { intros b Htk Hno. pose proof Htk as (_ & _ & Hub). pose proof (taken_range e b Hl Htk). apply (ev_blk _ _ _ _ Hev); try done; try lia. by right. }
  destruct ok; cbn [negb].
  2:{ exists false, e1. split_and!; try done; [apply Hev|by left|]. intros m Hm _. split; [by eapply ino_evolves|auto]. }
  destruct (same_more e e1 (ev_same _ _ _ _ Hev)) as (_ & _ & _ & _ & Hbs1).
  destruct (sectors_for_eq e1 c (ev_layout _ _ _ _ Hev) ltac:(lia) ltac:(rewrite Hbs1; lia)) as (s & -> & Hs). rewrite bind_Ret_l.
  pose proof (inode_typed_fields _ (fo_typed _ _ (ev_file _ _ _ _ Hev))) as (_ & ? & _ & _).
  destruct (commit_file now e n data e1 i1 (Z.max (i_blocks i1) s)) as (e' & -> & Hl' & Hf' & Hread & Hm); try done; try nia.
  { intros j Hj Hj'. apply Hok. nia. }
  rewrite bind_Ret_l. exists true, e'. split_and!; try done. intros m Hm1 Hmn. destruct (Hm m Hm1 Hmn) as [Him Hb]. split; [done|].
  intros b _ Htk Hno. rewrite Hb by done. auto.
Qed.
End Files.
