(* ===== verification/Ext2Image.v ===== *)
(** * A small ext2 filesystem

    A memory disk of sixteen blocks with an empty root directory and an empty
    regular file, on which the theorems about ext2 are instantiated, and
    behaviours of the directory and inode code that runs on it show. *)

From S2P Require Import Prelude Bytes Disk Vfs Ext2 Ext2Layout Ext2Files.

(** ** The disk *)

Definition put (off : nat) (d l : list Z) : list Z := splice l off d.

Definition image_super : list Z :=
  put 88 (le_bytes 2 128) (put 56 (le_bytes 2 EXT2_MAGIC) (put 40 (le_bytes 4 16) (put 32 (le_bytes 4 16) (put 24 (le_bytes 4 1)
    (put 4 (le_bytes 4 16) (zeros 1024)))))).
Definition image_root : list Z :=
  put 20 [dot; dot] (put 12 (to_bytes (mkDirent 2 2036 2 2)) (put 8 [dot] (put 0 (to_bytes (mkDirent 2 12 1 2)) (zeros 2048)))).
Definition image_inodes : list Z :=
  put (11 * 128) (to_bytes (new_inode 0x81A4 0 1 0 0))
    (put 128 (to_bytes (new_inode 0x41ED 2048 2 4 0 <| i_block := 5 :: replicate 14 0 |>)) (zeros 2048)).
Definition image : list Z :=
  zeros 1024 ++ image_super ++ put 0 (to_bytes (mkBgd 2 3 4 10 4 1 0 0)) (zeros 2048) ++ put 0 [63] (zeros 2048) ++
  put 0 [255; 15] (zeros 2048) ++ image_inodes ++ image_root ++ zeros (10 * 2048).

(** The filesystem that mounting the disk gives. *)
Definition image_fs : Ext2 RamDisk :=
  match ext2_mount (ext2_new (mkRam image) 0) None with Ret e => e | Panic => ext2_new (mkRam image) 0 end.

Notation image_layout_is := (layout ram_sectors ram_sector 16 2 3 4 image_fs).

Lemma image_layout : image_layout_is.
Proof.
  constructor.
  - constructor; [right; left; by vm_compute|by vm_compute|split; by vm_compute|done].
  - by vm_compute.
  - by vm_compute.
  - by vm_compute.
  - by vm_compute.
  - by vm_compute.
  - split; [by vm_compute|]. exists 16. by vm_compute.
  - by vm_compute.
  - assert (group ram_sector image_fs = mkBgd 2 3 4 10 4 1 0 0) as -> by (by vm_compute). by repeat split.
  - split_and!; by vm_compute.
  - intros k Hk. assert (s_blocks_per_group (superblock image_fs) = 16) as Hb by (by vm_compute). lia.
Qed.

Notation image_file := (ino ram_sector 4 image_fs 12).
Lemma image_file_eq : image_file = new_inode 0x81A4 0 1 0 0.
Proof. by vm_compute. Qed.

Lemma image_file_ok : file_ok ram_sector 16 2 4 image_fs image_file.
Proof. apply empty_file; rewrite image_file_eq; [|done]. split; [done|]. by repeat constructor. Qed.

(** ** Instances *)

Lemma alloc_block_exact_witness :
  (alloc_block image_fs = Ret (None, image_fs) /\ forall k, first 4 image_fs <= k < s_blocks_per_group (superblock image_fs) -> used ram_sector 2 image_fs k = true) \/
  (exists k e' e'', alloc_block image_fs = Ret (Some k, e') /\ allocated ram_sectors ram_sector 16 2 3 4 image_fs e' k /\ free_block e' k = Ret e'' /\
     layout ram_sectors ram_sector 16 2 3 4 e'' /\ (forall j, 0 <= j -> used ram_sector 2 e'' j = used ram_sector 2 image_fs j) /\
     forall b, 0 < b < 16 -> b <> 1 -> b <> 2 -> blk ram_sector e'' b = blk ram_sector image_fs b).
Proof. apply (alloc_block_exact ram_sectors ram_sector 16 2 3 4 image_fs); [exact image_layout|by vm_compute]. Defined.

Lemma inode_roundtrip_witness :
  exists e', write_inode image_fs 13 (new_inode 0x8000 5 1 0 0) = Ret e' /\ read_inode e' 13 = Ret (new_inode 0x8000 5 1 0 0) /\
    read_inode e' 12 = read_inode image_fs 12.
Proof.
  assert (1 <= 12 <= s_inodes_per_group (superblock image_fs)) as Hr by (by vm_compute).
  destruct (inode_roundtrip ram_sectors ram_sector 16 2 3 4 image_fs 13 (new_inode 0x8000 5 1 0 0)) as (e' & H1 & _ & H2 & H3 & _);
    [exact image_layout|by vm_compute|split; [done|by repeat constructor]|].
  exists e'. split; [exact H1|]. split; [exact H2|]. apply H3; [exact Hr|intros [=]].
Defined.


Lemma file_roundtrip_witness :
  exists ok e', write_file_by_inode 7 image_fs 12 (replicate 2100 65) = Ret (ok, e') /\ layout ram_sectors ram_sector 16 2 3 4 e' /\
    if ok : bool then read_file_by_inode e' 12 = Ret (Some (replicate 2100 65)) else full ram_sector 2 4 e' \/ limit image_fs * 2048 < 2100.
Proof.
  destruct (file_roundtrip ram_sectors ram_sector 16 2 3 4 7 image_fs 12 (replicate 2100 65)) as (ok & e' & H1 & H2 & H3 & _);
    [exact image_layout|by vm_compute|exact image_file_ok|by vm_compute..|].
  exists ok, e'. split; [exact H1|]. split; [exact H2|]. destruct ok; [apply H3|]. destruct H3 as [H3|H3]; [left; exact H3|right; exact H3].
Defined.

(** ** Behaviours of the inode and directory code *)

(** Inode numbers start at 1 and bit [k] of the bitmap stands for inode
    [k + 1] when an inode is read or freed, but for inode [k] when one is
    allocated: the first allocation returns inode 12, which is in use. *)
Lemma alloc_inode_takes_used : ('(o, _) ← alloc_inode image_fs; Ret o) = Ret (Some 12) /\
  bit_at (blk ram_sector image_fs 3) (12 - 1) = true /\ i_links_count image_file = 1.
Proof. by vm_compute. Qed.

(** Freeing the second of two new inodes makes the first one free. *)
Lemma freed_inode_aliases :
  ('(o1, e) ← alloc_inode image_fs; '(o2, e) ← alloc_inode e; e ← free_inode e 13; '(o3, _) ← alloc_inode e; Ret (o1, o2, o3)) =
  Ret (Some 12, Some 13, Some 12).
Proof. by vm_compute. Qed.

(** The space after the last entry of a directory block is not used: each of
    two short names takes a block of its own. *)
Lemma names_take_blocks :
  ('(ok1, e) ← create_file_path 0 (zeros 2048) image_fs [slash; 97] [1];
   '(ok2, e) ← create_file_path 0 (zeros 2048) e [slash; 98] [2];
   i ← read_inode e 2; Ret (ok1, ok2, i_size i, take 4 (i_block i))) =
  Ret (true, true, 3 * 2048, [5; 7; 9; 0]).
Proof. by vm_compute. Qed.

(** Removing a name clears a stale entry with the same name first, so the
    second removal leaves the name with a freed inode. *)
Lemma removed_name_stays :
  ('(ok1, e) ← create_file_path 0 (zeros 2048) image_fs [slash; 97] [1];
   '(ok2, e) ← remove_file_path e [slash; 97];
   '(ok3, e) ← create_file_path 0 (zeros 2048) e [slash; 97] [2];
   '(ok4, e) ← remove_file_path e [slash; 97];
   o ← ext2_resolve_path e [slash; 97];
   i ← read_inode e 13; Ret (ok1, ok2, ok3, ok4, o, i_mode i)) =
  Ret (true, true, true, true, Some 13, 0).
Proof. by vm_compute. Qed.

(** [rmdir_path] never removes a directory: the listing it relies on is not
    implemented. *)
Lemma rmdir_never_succeeds {D} `{!BlockDevice D} fuel (e : Ext2 D) p ok e' : rmdir_path fuel e p = Ret (ok, e') -> ok = false /\ e' = e.
Proof.
  destruct fuel as [|fuel]; [done|]. cbn [rmdir_path]. destruct (negb (mounted e)); [by intros [= <- <-]|].
  destruct (ext2_resolve_path e p) as [[n|]|]; cbn; [|by intros [= <- <-]|done].
  unfold list_directory_entries_by_inode. destruct (read_inode e n) as [i|]; cbn; [|done].
  destruct (is_dir i); cbn; by intros [= <- <-].
Qed.

(** A write past the size that the block map can hold writes nothing and
    still makes the file as long as its offset. *)
Lemma failed_write_grows :
  ('(w, e) ← ext2_write_at 7 image_fs 12 2000000 [65]; i ← read_inode e 12; Ret (w, i_size i)) = Ret (0, 2000000).
Proof. by vm_compute. Qed.

(** A freshly formatted filesystem has no root directory: its inode is in the
    place of inode 3, so the root inode is empty and no file can be created. *)
Lemma format_misplaces_root :
  (e ← ext2_format (mkRam (zeros (32 * 2048))) 0 128 2048;
   root ← read_inode e 2; third ← read_inode e 3;
   '(ok, _) ← create_file_path 0 (zeros 2048) e [slash; 97] [1]; Ret (i_mode root, i_mode third, ok)) =
  Ret (0, Z.lor 0x4000 0x1ED, false).
Proof. by vm_compute. Qed.
