(* ===== verification/Screen.v ===== *)
(** * The screen of the terminal application

    [src/apps/terminal/src/terminal.rs] without the drawing: the grid of cells
    with its soft-wrapped rows and its scrollback, printing with word wrap,
    control characters and escape sequences, and the reflow on resizing.  The
    parser of escape sequences is the library [vte]; what it reports is the
    list of its calls.

    Positions are natural numbers.  The application is built without overflow
    checks for machines of 32 bits: the number of cells wraps around, and so
    does the sum of [scroll_view].  On a screen of fewer than 2^31 cells, which
    the theorems ask for, no other sum or product of the source reaches 2^32.
    The theorems: whatever the parser reports, nothing is indexed out of range
    and the cursor, the view and the scrollback stay within their bounds;
    printed text, its spaces and its line ends are never lost before they leave
    the scrollback, and a resize keeps all characters but spaces. *)

From Stdlib Require Import String.
From S2P Require Import Prelude.
Local Open Scope nat_scope.

(** ** Data *)

Definition Rgb888 : Type := Z * Z * Z.
Definition DEFAULT_FG : Rgb888 := (0xF0, 0xF0, 0xF0)%Z.
Definition DEFAULT_BG : Rgb888 := (0x10, 0x18, 0x20)%Z.
Definition SCROLLBACK_MAX : nat := 256.

Record Cell : Type := mkCell { ch : Z; cell_fg : Rgb888; cell_bg : Rgb888 }.
Definition empty : Cell := mkCell 0x20 DEFAULT_FG DEFAULT_BG.
Definition is_space (c : Cell) : bool := (ch c =? 0x20)%Z.

Record SbLine : Type := mkLine { line_cells : list Cell; soft : bool }.

Record Screen : Type := mkScreen {
  cols : nat; rows : nat; cells : list Cell; row_soft : list bool; scrollback : list SbLine; view_off : nat; row : nat; col : nat;
  fg : Rgb888; bg : Rgb888; inverse : bool; after_carriage_return : bool; dirty : bool }.
#[global] Instance Screen_eta : Eta Screen := fun s =>
  mkScreen (cols s) (rows s) (cells s) (row_soft s) (scrollback s) (view_off s) (row s) (col s) (fg s) (bg s) (inverse s) (after_carriage_return s) (dirty s).

Implicit Types (s : Screen).

(** [v[a..b]], filling it, [v[i] = x], [v.resize(n, x)] *)
Definition slice {A} (l : list A) (a b : nat) : outcome (list A) := if (a <=? b) && (b <=? length l) then Ret (take (b - a) (drop a l)) else Panic.
Definition fill {A} (l : list A) (a b : nat) (x : A) : outcome (list A) :=
  if (a <=? b) && (b <=? length l) then Ret (take a l ++ replicate (b - a) x ++ drop b l) else Panic.
Definition nth_set {A} (l : list A) (i : nat) (x : A) : outcome (list A) := if i <? length l then Ret (<[i := x]> l) else Panic.
Definition vec_resize {A} (l : list A) (n : nat) (x : A) : list A := take n l ++ replicate (n - length l) x.

(** [cols * rows] in 32 bits. *)
Definition usize_mul (a b : nat) : nat := Z.to_nat ((Z.of_nat a * Z.of_nat b) mod 2 ^ 32).

Definition screen_new (c r : nat) : Screen :=
  let c := Nat.max c 1 in let r := Nat.max r 1 in
  mkScreen c r (replicate (usize_mul c r) empty) (replicate r false) [] 0 0 0 DEFAULT_FG DEFAULT_BG false false true.

(** ** Scrolling *)

Definition scroll_up s : outcome Screen :=
  line ← slice (cells s) 0 (cols s);
  let '(sft, rest) := match row_soft s with [] => (false, []) | b :: l => (b, l) end in
  let sb := scrollback s ++ [mkLine line sft] in
  Ret (s <| cells := drop (cols s) (cells s) ++ replicate (cols s) empty |> <| row_soft := rest ++ [false] |>
         <| scrollback := drop (length sb - SCROLLBACK_MAX) sb |> <| view_off := 0 |>).

Definition line_feed s : outcome Screen :=
  s ← (if row s + 1 <? rows s then Ret (s <| row := row s + 1 |>) else scroll_up s);
  Ret (s <| dirty := true |>).

Definition soft_row s (b : bool) : outcome Screen := l ← nth_set (row_soft s) (row s) b; Ret (s <| row_soft := l |>).

Definition hard_break s : outcome Screen :=
  s ← (if row s <? length (row_soft s) then soft_row s false else Ret s);
  line_feed (s <| col := 0 |>).

(** [as i32] of a sum, which wraps around. *)
Definition wrap_i32 (z : Z) : Z := ((z + 2 ^ 31) mod 2 ^ 32 - 2 ^ 31)%Z.

Definition scroll_view s (delta : Z) : Screen :=
  let sum := wrap_i32 (Z.of_nat (view_off s) + delta) in
  let next := Z.to_nat (Z.max 0 (Z.min sum (Z.of_nat (length (scrollback s))))) in
  if next =? view_off s then s else s <| view_off := next |> <| dirty := true |>.

Definition view_start s : nat := length (scrollback s) + rows s - (rows s + view_off s).

Definition cells_for_abs s (abs : nat) : outcome (list Cell) :=
  match scrollback s !! abs with
  | Some l => Ret (vec_resize (line_cells l) (cols s) empty)
  | None =>
      let r := abs - length (scrollback s) in
      if rows s <=? r then Ret (replicate (cols s) empty) else slice (cells s) (r * cols s) (r * cols s + cols s)
  end.

(** ** Printing *)

Definition current_pair s : Rgb888 * Rgb888 := if inverse s then (bg s, fg s) else (fg s, bg s).

(** The last space of a row. *)
Fixpoint last_space (l : list Cell) : option nat :=
  match l with
  | [] => None
  | c :: l => match last_space l with Some i => Some (S i) | None => if is_space c then Some 0 else None end
  end.

(** The loop that writes the word that moved to the next row. *)
Fixpoint put_overflow (overflow : list Cell) s : outcome Screen :=
  match overflow with
  | [] => Ret s
  | c :: overflow =>
      s ← (if cols s <=? col s then s ← soft_row s true; line_feed (s <| col := 0 |>) else Ret s);
      l ← nth_set (cells s) (row s * cols s + col s) c;
      put_overflow overflow (s <| cells := l |> <| col := col s + 1 |>)
  end.

Definition wrap_current_word s : outcome Screen :=
  let start := row s * cols s in
  line ← slice (cells s) start (start + cols s);
  '(overflow, l) ← match last_space line with
                   | Some sp => if sp + 1 <? cols s then
                                  ov ← slice (cells s) (start + sp + 1) (start + cols s);
                                  l ← fill (cells s) (start + sp + 1) (start + cols s) empty; Ret (ov, l)
                                else Ret ([], cells s)
                   | None => Ret ([], cells s)
                   end;
  s ← soft_row (s <| cells := l |>) true;
  s ← line_feed (s <| col := 0 |>);
  put_overflow overflow s.

Definition put (c : Z) s : outcome Screen :=
  let s := s <| after_carriage_return := false |> in
  s ← (if cols s <=? col s then wrap_current_word s else Ret s);
  let '(f, b) := current_pair s in
  l ← nth_set (cells s) (row s * cols s + col s) (mkCell c f b);
  Ret (s <| cells := l |> <| col := col s + 1 |> <| dirty := true |>).

(** ** Erasing and moving *)

Definition clear_all s : Screen :=
  s <| cells := replicate (length (cells s)) empty |> <| row_soft := replicate (length (row_soft s)) false |> <| dirty := true |>.
Definition clear_range s (start stop : nat) : outcome Screen :=
  l ← fill (cells s) start (Nat.min stop (length (cells s))) empty; Ret (s <| cells := l |> <| dirty := true |>).

(** The loops of [clear_logical_line]. *)
Fixpoint first_row (soft : list bool) (r : nat) : outcome nat :=
  match r with
  | O => Ret 0
  | S r' => b ← unwrap (soft !! r'); if b : bool then first_row soft r' else Ret r
  end.
Fixpoint last_row (fuel : nat) (soft : list bool) (n r : nat) : outcome nat :=
  match fuel with
  | O => Ret r
  | S fuel => if r + 1 <? n then b ← unwrap (soft !! r); if b : bool then last_row fuel soft n (r + 1) else Ret r else Ret r
  end.

Definition clear_logical_line s : outcome Screen :=
  first ← first_row (row_soft s) (row s);
  lst ← last_row (rows s) (row_soft s) (rows s) (row s);
  s ← clear_range s (first * cols s) ((lst + 1) * cols s);
  l ← fill (row_soft s) first (lst + 1) false;
  Ret (s <| row_soft := l |> <| row := first |> <| col := 0 |>).

(** The last cell that is not a space. *)
Fixpoint last_ink (l : list Cell) : option nat :=
  match l with
  | [] => None
  | c :: l => match last_ink l with Some i => Some (S i) | None => if is_space c then None else Some 0 end
  end.

Definition soft_row_end s (r : nat) : outcome nat :=
  line ← slice (cells s) (r * cols s) (r * cols s + cols s);
  Ret (match last_ink line with Some i => if i + 1 <? cols s then i + 2 else cols s | None => 0 end).

(** [move_left]: every round after the first goes one row up. *)
Fixpoint move_left_from s (count r c : nat) {struct r} : outcome Screen :=
  if count =? 0 then Ret (s <| row := r |> <| col := c |>) else
  if count <=? c then Ret (s <| row := r |> <| col := c - count |>) else
  match r with
  | O => Ret (s <| row := 0 |> <| col := 0 |>)
  | S r' =>
      b ← unwrap (row_soft s !! r');
      if b : bool then e ← soft_row_end s r'; move_left_from s (count - c) r' e else Ret (s <| row := r |> <| col := 0 |>)
  end.
Definition move_left s (count : nat) : outcome Screen := move_left_from s count (row s) (col s).

Definition cursor_clamp s : Screen :=
  let s := if rows s <=? row s then s <| row := rows s - 1 |> else s in
  if cols s <=? col s then s <| col := cols s - 1 |> else s.

(** ** Escape sequences *)

Definition Params : Type := list (list nat).
Definition first_param (p : Params) (d : nat) : nat := match p with (v :: _) :: _ => if v =? 0 then d else v | _ => d end.
Definition nth_raw (p : Params) (n : nat) : nat := match p !! n with Some (v :: _) => v | _ => 0 end.

Definition base_color (i : nat) : Rgb888 :=
  match i with
   | 0 => (0x00, 0x00, 0x00)%Z | 1 => (0xCC, 0x24, 0x1D)%Z | 2 => (0x98, 0x97, 0x1A)%Z | 3 => (0xD7, 0x99, 0x21)%Z
   | 4 => (0x45, 0x85, 0x88)%Z | 5 => (0xB1, 0x62, 0x86)%Z | 6 => (0x68, 0x9D, 0x6A)%Z | _ => (0xA8, 0x99, 0x84)%Z
  end.
Definition ansi_color (i : nat) (bright : bool) : Rgb888 :=
  let '(r, g, b) := base_color (Nat.min i 7) in
  if bright then (saturating_add 8 r 40, saturating_add 8 g 40, saturating_add 8 b 40) else (r, g, b).

Definition reset_colors s : Screen := s <| fg := DEFAULT_FG |> <| bg := DEFAULT_BG |> <| inverse := false |>.
Definition within (a b n : nat) : bool := (a <=? n) && (n <=? b).
Definition sgr_one s (code : nat) : Screen :=
  if code =? 0 then reset_colors s
  else if code =? 7 then s <| inverse := true |>
  else if code =? 27 then s <| inverse := false |>
  else if within 30 37 code then s <| fg := ansi_color (code - 30) false |>
  else if code =? 39 then s <| fg := DEFAULT_FG |>
  else if within 40 47 code then s <| bg := ansi_color (code - 40) false |>
  else if code =? 49 then s <| bg := DEFAULT_BG |>
  else if within 90 97 code then s <| fg := ansi_color (code - 90) true |>
  else if within 100 107 code then s <| bg := ansi_color (code - 100) true |>
  else s.
Definition sgr s (p : Params) : Screen := match p with [] => reset_colors s | _ => foldl (fun s c => sgr_one s (default 0 (head c))) s p end.

Definition erase_display s (n : nat) : outcome Screen :=
  let cur := row s * cols s + col s in
  if n =? 0 then clear_range s cur (length (cells s))
  else if n =? 1 then clear_range s 0 (cur + 1)
  else if (n =? 2) || (n =? 3) then Ret (clear_all s)
  else Ret s.

Definition erase_line s (n : nat) : outcome Screen :=
  if (n =? 2) && after_carriage_return s then clear_logical_line s else
  let line := row s * cols s in
  if n =? 0 then clear_range s (line + col s) (line + cols s)
  else if n =? 1 then clear_range s line (line + col s + 1)
  else if n =? 2 then clear_range s line (line + cols s)
  else Ret s.

Definition is_code (a b : Z) : bool := (a =? b)%Z.

Definition csi_action s (p : Params) (action : Z) : outcome Screen :=
  if is_code action 0x41 then Ret (s <| row := row s - first_param p 1 |>)
  else if is_code action 0x42 then Ret (s <| row := Nat.min (row s + first_param p 1) (rows s - 1) |>)
  else if is_code action 0x43 then Ret (s <| col := Nat.min (col s + first_param p 1) (cols s - 1) |>)
  else if is_code action 0x44 then move_left s (first_param p 1)
  else if is_code action 0x48 || is_code action 0x66 then
    let c := nth_raw p 1 in
    Ret (s <| row := Nat.min (first_param p 1 - 1) (rows s - 1) |> <| col := Nat.min ((if c =? 0 then 1 else c) - 1) (cols s - 1) |>)
  else if is_code action 0x4A then erase_display s (nth_raw p 0)
  else if is_code action 0x4B then erase_line s (nth_raw p 0)
  else if is_code action 0x6D then Ret (sgr s p)
  else Ret s.

Definition csi_dispatch s (p : Params) (ignore : bool) (action : Z) : outcome Screen :=
  if ignore then Ret s else
  s ← csi_action s p action;
  Ret (cursor_clamp (s <| after_carriage_return := false |>) <| dirty := true |>).

Definition execute s (byte : Z) : outcome Screen :=
  let plain := s <| after_carriage_return := false |> in
  if is_code byte 0x08 then Ret (plain <| col := col s - 1 |> <| dirty := true |>)
  else if is_code byte 0x09 then
    let s := plain <| col := (col s / 8 + 1) * 8 |> in
    s ← (if cols s <=? col s then s ← soft_row s true; line_feed (s <| col := 0 |>) else Ret s);
    Ret (s <| dirty := true |>)
  else if is_code byte 0x0A || is_code byte 0x0B || is_code byte 0x0C then hard_break plain
  else if is_code byte 0x0D then Ret (s <| col := 0 |> <| after_carriage_return := true |> <| dirty := true |>)
  else Ret plain.

(** What the parser reports. *)
Inductive report : Type := Print (c : Z) | Execute (b : Z) | Csi (p : Params) (ignore : bool) (action : Z).

Definition perform s (r : report) : outcome Screen :=
  match r with Print c => put c s | Execute b => execute s b | Csi p i a => csi_dispatch s p i a end.
Fixpoint perform_all s (l : list report) : outcome Screen := match l with [] => Ret s | r :: l => s ← perform s r; perform_all s l end.
(** [Terminal::process] *)
Definition process s (l : list report) : outcome Screen := s ← perform_all s l; Ret (s <| view_off := 0 |>).

(** ** Resizing *)

Definition trim_cells (line : list Cell) : list Cell := match last_ink line with Some i => take (S i) line | None => [] end.
Definition pad_row (r : list Cell) (width : nat) : list Cell := vec_resize r width empty.

(** The tokens of a line: its longest runs of spaces and of other cells. *)
Fixpoint tokens (l : list Cell) : list (list Cell) :=
  match l with
  | [] => []
  | c :: l => match tokens l with
              | (d :: t) :: ts => if Bool.eqb (is_space c) (is_space d) then (c :: d :: t) :: ts else [c] :: (d :: t) :: ts
              | ts => [c] :: ts
              end
  end.

Definition Wrapped : Type := list (list Cell * bool).

(** The loop for a word longer than a row: the rows it fills, and the rest. *)
Fixpoint long_word (fuel width : nat) (out : Wrapped) (r tok : list Cell) (more_after : bool) : Wrapped * list Cell :=
  match fuel with
  | O => (out, r)
  | S fuel =>
      match tok with
      | [] => (out, r)
      | _ =>
          let n := Nat.min (width - length r) (length tok) in
          let r := r ++ take n tok in let tok := drop n tok in
          if length r =? width then
            let more := negb (bool_decide (tok = [])) || more_after in
            long_word fuel width (out ++ [(pad_row r width, more)]) [] tok more_after
          else long_word fuel width out r tok more_after
      end
  end.

(** The loop of [wrap_words] over the tokens. *)
Fixpoint wrap_tokens (width : nat) (ts : list (list Cell)) (out : Wrapped) (r : list Cell) : Wrapped :=
  match ts with
  | [] => out ++ [(pad_row r width, false)]
  | tok :: ts =>
      if forallb is_space tok then
        if bool_decide (r = []) then wrap_tokens width ts out r
        else if length r + length tok <=? width then wrap_tokens width ts out (r ++ tok)
        else wrap_tokens width ts (out ++ [(pad_row r width, true)]) []
      else
        let '(out, r) := if negb (bool_decide (r = [])) && (width <? length r + length tok) then (out ++ [(pad_row r width, true)], []) else (out, r) in
        if width <? length tok then
          let '(out, r) := long_word (length tok) width out r tok (negb (bool_decide (ts = []))) in wrap_tokens width ts out r
        else wrap_tokens width ts out (r ++ tok)
  end.

Definition wrap_words (src : list Cell) (width : nat) : Wrapped :=
  let width := Nat.max width 1 in
  match src with [] => [(replicate width empty, false)] | _ => wrap_tokens width (tokens src) [] [] end.

Definition row_cells s (r : nat) : outcome (list Cell) := slice (cells s) (r * cols s) (r * cols s + cols s).

(** The loops over the rows of the screen. *)
Fixpoint content_row s (rs : list nat) (last : nat) : outcome nat :=
  match rs with
  | [] => Ret last
  | r :: rs => line ← row_cells s r; content_row s rs (if forallb is_space line then last else Nat.max last r)
  end.
Definition last_content_row s : outcome nat := content_row s (seq 0 (rows s)) (row s).

Definition is_full (line : list Cell) : bool := match last line with Some c => negb (is_space c) | None => false end.

Fixpoint physical_rows s (rs : list nat) (last : nat) : outcome Wrapped :=
  match rs with
  | [] => Ret []
  | r :: rs =>
      line ← row_cells s r; sft ← unwrap (row_soft s !! r);
      rest ← physical_rows s rs last; Ret ((line, sft || (is_full line && (r <? last))) :: rest)
  end.

Definition collect_physical s : outcome Wrapped :=
  let back := (fun l => let line := vec_resize (line_cells l) (cols s) empty in (line, soft l || is_full line)) <$> scrollback s in
  last ← last_content_row s;
  front ← physical_rows s (seq 0 (S last)) last;
  Ret (back ++ front).

(** Joins soft rows into logical lines. *)
Fixpoint unwrap_rows (phys : Wrapped) (acc : list Cell) : list (list Cell) :=
  match phys with
  | [] => if bool_decide (acc = []) then [] else [acc]
  | (line, sft) :: phys =>
      let acc := acc ++ trim_cells line in
      if sft : bool then unwrap_rows phys (if negb (bool_decide (acc = [])) && is_full acc then acc ++ [empty] else acc)
      else acc :: unwrap_rows phys []
  end.

(** Writes rows into a fresh screen; the result has the cursor's place after the last one. *)
Fixpoint place_rows (c r : nat) (l : Wrapped) (cs : list Cell) (sf : list bool) (at_row at_col : nat) : outcome (list Cell * list bool * nat * nat) :=
  match l with
  | [] => Ret (cs, sf, at_row, at_col)
  | (line, sft) :: l =>
      let n := Nat.min (length line) c in
      _ ← slice cs (r * c) (r * c + n);
      sf ← nth_set sf r sft;
      place_rows c (S r) l (take (r * c) cs ++ take n line ++ drop (r * c + n) cs) sf r (Nat.min (length (trim_cells line)) c)
  end.

Definition resize s (c r : nat) : outcome Screen :=
  let c := Nat.max c 1 in let r := Nat.max r 1 in
  if (c =? cols s) && (r =? rows s) then Ret s else
  phys ← collect_physical s;
  let logical := match unwrap_rows phys [] with [] => [[]] | l => l end in
  let wrapped := logical ≫= fun line => wrap_words line c in
  let wrapped := drop (length wrapped - (SCROLLBACK_MAX + r)) wrapped in
  let split := length wrapped - Nat.min (length wrapped) r in
  '(cs, sf, at_row, at_col) ← place_rows c 0 (drop split wrapped) (replicate (usize_mul c r) empty) (replicate r false) 0 0;
  let at_col := Nat.min at_col c in
  Ret (s <| scrollback := (fun x => mkLine x.1 x.2) <$> take split wrapped |> <| cells := cs |> <| row_soft := sf |> <| cols := c |> <| rows := r |>
         <| row := Nat.min at_row (r - 1) |> <| col := if at_col =? c then c - 1 else at_col |> <| view_off := 0 |> <| dirty := true |>).

(** [Terminal::clear] *)
Definition clear s : Screen := clear_all s <| row := 0 |> <| col := 0 |>.

(** [row_string] *)
Definition row_string s (r : nat) : outcome (list Z) :=
  if rows s <=? r then Ret [] else line ← row_cells s r; Ret (ch <$> trim_cells line).

(** ** What is on the screen *)

(** The characters that are not spaces, from the oldest line of the
    scrollback to the end of the screen. *)
Definition ink (l : list Cell) : list Z := ch <$> filter (fun c => is_space c = false) l.
#[local] Arguments ink : simpl never.
Definition letters s : list Z := ink (concat (line_cells <$> scrollback s)) ++ ink (cells s).
Definition blank (l : list Cell) : Prop := Forall (fun c => is_space c = true) l.

(** The text up to the cursor, every character of it, spaces included; [None]
    is the end of a line.  A soft row goes on in the next one, so no line ends
    there. *)
Definition chars (l : list Cell) : list (option Z) := Some ∘ ch <$> l.
Definition row_text (l : list Cell) (soft : bool) : list (option Z) := chars l ++ (if soft then [] else [None]).
Definition back_text (l : list SbLine) : list (option Z) := l ≫= fun x => row_text (line_cells x) (soft x).
Fixpoint rows_text (c : nat) (soft : list bool) (l : list Cell) : list (option Z) :=
  match soft with [] => [] | b :: soft => row_text (take c l) b ++ rows_text c soft (drop c l) end.
(** The rows before the cursor's. *)
Definition above s : list (option Z) := back_text (scrollback s) ++ rows_text (cols s) (take (row s) (row_soft s)) (cells s).
Definition text s : list (option Z) := above s ++ chars (take (col s) (drop (row s * cols s) (cells s))).

(** [q] is [p] with more spaces: before a space, or at the end of a line. *)
Definition SP : option Z := Some 0x20%Z.
Inductive stretched : list (option Z) -> list (option Z) -> Prop :=
| str_nil : stretched [] []
| str_cons x p q : stretched p q -> stretched (x :: p) (x :: q)
| str_space x p q : x = SP \/ x = None -> stretched (x :: p) q -> stretched (x :: p) (SP :: q).

Lemma stretched_refl p : stretched p p.
Proof. induction p; by constructor. Qed.
Lemma stretched_app p q r : stretched p q -> stretched (p ++ r) (q ++ r).
Proof. induction 1; cbn; [apply stretched_refl|by constructor|by apply str_space]. Qed.
Lemma stretched_pre r p q : stretched p q -> stretched (r ++ p) (r ++ q).
Proof. intros H. induction r; [done|]. by constructor. Qed.
Lemma stretched_trans p q r : stretched p q -> stretched q r -> stretched p r.
Proof.
  intros Hpq Hqr. revert p Hpq. induction Hqr as [|x q r H IH|x q r Hx H IH]; intros p Hpq; [done| |].
  - inversion Hpq as [|? p' ? Hp|y p' ? Hy Hp]; subst; [constructor; by apply IH|]. apply str_space; [done|by apply IH].
  - inversion Hpq as [|? p' ? Hp|y p' ? Hy Hp]; subst; apply str_space; auto.
Qed.
Lemma stretched_spaces n x p : x = SP \/ x = None -> stretched (x :: p) (replicate n SP ++ x :: p).
Proof. intros Hx. induction n as [|n IH]; [apply stretched_refl|]. by apply str_space. Qed.

Lemma chars_app a b : chars (a ++ b) = chars a ++ chars b.
Proof. apply fmap_app. Qed.
Lemma chars_blank l : blank l -> chars l = replicate (length l) SP.
Proof. induction 1 as [|c l Hc _ IH]; [done|]. cbn. rewrite <- IH. unfold is_space in Hc. apply Z.eqb_eq in Hc. cbn. by rewrite Hc. Qed.
Lemma rows_text_app c (sf : list bool) sf' l : rows_text c (sf ++ sf') l = rows_text c sf l ++ rows_text c sf' (drop (length sf * c) l).
Proof. revert l. induction sf as [|b sf IH]; intros l; cbn; [done|]. by rewrite IH, <- app_assoc, drop_drop. Qed.
Lemma rows_text_agree c (sf : list bool) l l' : take (length sf * c) l = take (length sf * c) l' -> rows_text c sf l = rows_text c sf l'.
Proof.
  revert l l'. induction sf as [|b sf IH]; intros l l' H; [done|]. cbn [rows_text length Nat.mul] in *. f_equal.
  - f_equal. apply (f_equal (take c)) in H. by rewrite !take_take, Nat.min_l in H by lia.
  - apply IH. by rewrite !take_drop_commute, H.
Qed.

Lemma ink_app a b : ink (a ++ b) = ink a ++ ink b.
Proof. unfold ink. by rewrite filter_app, fmap_app. Qed.
Lemma ink_blank l : blank l -> ink l = [].
Proof. unfold ink. induction 1 as [|c l Hc _ IH]; [done|]. rewrite filter_cons, Hc. by destruct (decide (true = false)). Qed.
Lemma blank_empty n : blank (replicate n empty).
Proof. by apply Forall_replicate. Qed.
Lemma ink_empty n : ink (replicate n empty) = [].
Proof. apply ink_blank, blank_empty. Qed.
Lemma blank_app a b : blank (a ++ b) <-> blank a /\ blank b.
Proof. apply Forall_app. Qed.
Lemma blank_drop n l : blank l -> blank (drop n l).
Proof. apply Forall_drop. Qed.
Lemma ink_concat_app (a b : list (list Cell)) : ink (concat (a ++ b)) = ink (concat a) ++ ink (concat b).
Proof. by rewrite concat_app, ink_app. Qed.

(** *** Invariant *)

Definition screen_ok s : Prop :=
  1 <= cols s /\ 1 <= rows s /\ length (cells s) = cols s * rows s /\ length (row_soft s) = rows s /\ row s < rows s /\ col s <= cols s /\
  length (scrollback s) <= SCROLLBACK_MAX /\ Forall (fun l => length (line_cells l) = cols s) (scrollback s) /\ view_off s <= length (scrollback s).

(** The number of cells does not wrap around, with room for the sums of positions. *)
Definition fits (c r : nat) : Prop := (Z.of_nat (Nat.max c 1) * Z.of_nat (Nat.max r 1) < 2 ^ 31)%Z.
Lemma usize_mul_fits c r : fits c r -> usize_mul (Nat.max c 1) (Nat.max r 1) = Nat.max c 1 * Nat.max r 1.
Proof. unfold fits, usize_mul. intros H. rewrite Z.mod_small by lia. lia. Qed.

(** The position of the cursor. *)
Definition pos s : nat := row s * cols s + col s.

Lemma row_end s : screen_ok s -> row s * cols s + cols s <= length (cells s).
Proof. intros (H1 & H2 & -> & _ & H5 & _). nia. Qed.

(** From [s] to [s'] the text [e] is typed: the screen shows it, with spaces
    added where a row is filled up, and only the oldest rows are lost, when
    the scrollback is full. *)
Definition keeps s (s' : Screen) (e : list (option Z)) : Prop :=
  exists full, stretched (text s ++ e) full /\ text s' `suffix_of` full /\ (length (scrollback s') < SCROLLBACK_MAX -> text s' = full) /\
    length (scrollback s) <= length (scrollback s').

Lemma keeps_same s s' e : text s' = text s ++ e -> length (scrollback s') = length (scrollback s) -> keeps s s' e.
Proof. intros H1 H2. exists (text s ++ e). rewrite H1, H2. split_and!; try done. apply stretched_refl. Qed.

Lemma keeps_text_trans s s1 s2 e1 e2 : keeps s s1 e1 -> keeps s1 s2 e2 -> keeps s s2 (e1 ++ e2).
Proof.
  intros (f1 & H1 & (k & ->) & H2 & H3) (f2 & H4 & H5 & H6 & H7). exists (k ++ f2). rewrite app_assoc. split_and!; [| | |lia].
  - eapply stretched_trans; [by apply stretched_app|]. rewrite <- app_assoc. by apply stretched_pre.
  - by apply suffix_app_r.
  - intros Hl. rewrite H6 by done. assert (text s1 = k ++ text s1) as E by (apply H2; lia).
    apply (f_equal length) in E. rewrite length_app in E. by destruct k; [|cbn in E; lia].
Qed.

(** *** Lists *)

Lemma slice_ret {A} (l : list A) a b : a <= b -> b <= length l -> slice l a b = Ret (take (b - a) (drop a l)).
Proof. intros H1 H2. unfold slice. by rewrite (proj2 (Nat.leb_le _ _) H1), (proj2 (Nat.leb_le _ _) H2). Qed.
Lemma fill_ret {A} (l : list A) a b x : a <= b -> b <= length l -> fill l a b x = Ret (take a l ++ replicate (b - a) x ++ drop b l).
Proof. intros H1 H2. unfold fill. by rewrite (proj2 (Nat.leb_le _ _) H1), (proj2 (Nat.leb_le _ _) H2). Qed.
Lemma fill_length {A} (l : list A) a b x : a <= b -> b <= length l -> length (take a l ++ replicate (b - a) x ++ drop b l) = length l.
Proof. intros H1 H2. rewrite !length_app, length_take, length_replicate, length_drop. lia. Qed.
Lemma nth_set_ret {A} (l : list A) i x : i < length l -> nth_set l i x = Ret (<[i := x]> l).
Proof. intros H. unfold nth_set. by rewrite (proj2 (Nat.ltb_lt _ _) H). Qed.

Lemma soft_row_ret s b : screen_ok s -> soft_row s b = Ret (s <| row_soft := <[row s := b]> (row_soft s) |>).
Proof. intros (_ & _ & _ & H4 & H5 & _). unfold soft_row. rewrite nth_set_ret by lia. done. Qed.

Lemma soft_ok s l : screen_ok s -> length l = length (row_soft s) -> screen_ok (s <| row_soft := l |>).
Proof. intros (H1 & H2 & H3 & H4 & H5 & H6 & H7 & H8 & H9) Hl. unfold screen_ok. cbn. split_and!; try done. congruence. Qed.
Lemma cells_ok s l : screen_ok s -> length l = length (cells s) -> screen_ok (s <| cells := l |>).
Proof. intros (H1 & H2 & H3 & H4 & H5 & H6 & H7 & H8 & H9) Hl. unfold screen_ok. cbn. split_and!; try done. congruence. Qed.
Lemma cursor_ok s r c : screen_ok s -> r < rows s -> c <= cols s -> screen_ok (s <| row := r |> <| col := c |>).
Proof. intros (H1 & H2 & H3 & H4 & H5 & H6 & H7 & H8 & H9) Hr Hc. unfold screen_ok. cbn. by split_and!. Qed.
Lemma col_ok s c : screen_ok s -> c <= cols s -> screen_ok (s <| col := c |>).
Proof. intros (H1 & H2 & H3 & H4 & H5 & H6 & H7 & H8 & H9) Hc. unfold screen_ok. cbn. by split_and!. Qed.
Lemma row_ok s r : screen_ok s -> r < rows s -> screen_ok (s <| row := r |>).
Proof. intros (H1 & H2 & H3 & H4 & H5 & H6 & H7 & H8 & H9) Hr. unfold screen_ok. cbn. by split_and!. Qed.

(** *** Scrolling *)

(** What line feed leaves above the cursor: the rows before it and its own. *)
Definition below s : list (option Z) := back_text (scrollback s) ++ rows_text (cols s) (take (S (row s)) (row_soft s)) (cells s).

Lemma below_above s b : screen_ok s -> row_soft s !! row s = Some b -> below s = above s ++ row_text (take (cols s) (drop (row s * cols s) (cells s))) b.
Proof.
  intros (_ & _ & _ & H4 & H5 & _) Hb. unfold below, above. rewrite (take_S_r _ _ b Hb), rows_text_app, <- app_assoc. cbn [rows_text].
  rewrite length_take, Nat.min_l, app_nil_r by lia. done.
Qed.

Definition same_frame s (s' : Screen) : Prop := cols s' = cols s /\ rows s' = rows s /\ inverse s' = inverse s /\ fg s' = fg s /\ bg s' = bg s.

Lemma scroll_up_ok s : screen_ok s -> exists s', scroll_up s = Ret s' /\ screen_ok s' /\ same_frame s s' /\ row s' = row s /\ col s' = col s /\
  cells s' = drop (cols s) (cells s) ++ replicate (cols s) empty /\ length (scrollback s) <= length (scrollback s') /\
  (S (row s) = rows s -> above s' `suffix_of` below s /\ (length (scrollback s') < SCROLLBACK_MAX -> above s' = below s)).
Proof.
  intros (H1 & H2 & H3 & H4 & H5 & H6 & H7 & H8 & H9). unfold scroll_up. rewrite slice_ret by nia. rewrite bind_Ret_l, Nat.sub_0_r, drop_0.
  destruct (row_soft s) as [|b l] eqn:Hs; [cbn in H4; lia|]. eexists. split; [reflexivity|].
  set (ln := mkLine (take (cols s) (cells s)) b). set (sb := scrollback s ++ [ln]). set (n := length sb - SCROLLBACK_MAX).
  assert (length sb = S (length (scrollback s))) as Hsb by (unfold sb; rewrite length_app; cbn; lia). cbn in H4.
  split; [|split; [by split_and!|do 3 (split; [done|]); split; [cbn -[drop]; unfold n; rewrite length_drop; fold sb; lia|]]].
  - unfold screen_ok. cbn -[drop]. rewrite !length_app, !length_drop, length_replicate. cbn [length]. fold sb. split_and!; try done; try nia.
    apply Forall_drop, Forall_app. split; [done|]. constructor; [|done]. cbn. rewrite length_take. nia.
  - intros Hr. unfold above, below. cbn -[drop take back_text]. fold ln sb n. rewrite Hs.
    assert (back_text (drop n sb) ++ rows_text (cols s) (take (row s) (l ++ [false])) (drop (cols s) (cells s) ++ replicate (cols s) empty) =
            back_text (drop n sb) ++ rows_text (cols s) l (drop (cols s) (cells s))) as ->.
    { f_equal. rewrite take_app_le, (take_ge l) by lia. apply rows_text_agree. rewrite take_app_le; [done|]. rewrite length_drop. nia. }
    assert (back_text (scrollback s) ++ rows_text (cols s) (take (S (row s)) (b :: l)) (cells s) = back_text sb ++ rows_text (cols s) l (drop (cols s) (cells s))) as ->.
    { rewrite take_ge by (cbn; lia). unfold sb, back_text. rewrite bind_app, <- app_assoc. cbn. by rewrite app_nil_r. }
    split; [|intros Hl; rewrite length_drop in Hl; replace n with 0 by (unfold n, SCROLLBACK_MAX in *; lia); done].
    exists (back_text (take n sb)). rewrite app_assoc. f_equal. unfold back_text. by rewrite <- bind_app, take_drop.
Qed.

(** The line feed at the end of a row. *)
Lemma line_feed_ok s : screen_ok s -> exists s', line_feed s = Ret s' /\ screen_ok s' /\ same_frame s s' /\ col s' = col s /\
  length (scrollback s) <= length (scrollback s') /\
  (above s' `suffix_of` below s /\ (length (scrollback s') < SCROLLBACK_MAX -> above s' = below s)) /\
  (blank (drop ((row s + 1) * cols s) (cells s)) -> blank (drop (row s' * cols s) (cells s'))).
Proof.
  intros Hok. unfold line_feed. destruct (Nat.ltb_spec (row s + 1) (rows s)) as [Hr|Hr].
  - eexists. split; [reflexivity|]. split; [by apply (row_ok s)|]. split; [done|]. split; [done|]. split; [done|]. split; [|done].
    unfold above, below. cbn -[take]. rewrite Nat.add_1_r. done.
  - destruct (scroll_up_ok s Hok) as (s' & -> & Hok' & Hf & Hrow & Hcol & Hc & Hsb & Ht). rewrite bind_Ret_l. eexists. split; [reflexivity|].
    destruct Hok as (H1 & H2 & H3 & H4 & H5 & _). split; [exact Hok'|]. split; [exact Hf|]. split; [done|]. split; [done|]. split; [apply Ht; lia|].
    intros Hbl. change (row (s' <| dirty := true |>)) with (row s'). change (cells (s' <| dirty := true |>)) with (cells s'). rewrite Hc, Hrow.
    rewrite drop_app_le by (rewrite length_drop; nia). rewrite drop_drop. apply blank_app. split; [|apply blank_empty].
    by replace (cols s + row s * cols s) with ((row s + 1) * cols s) by lia.
Qed.

(** ** Printing *)

(** The cursor is at the end of the text. *)
Definition at_end s : Prop := blank (drop (pos s) (cells s)).

Lemma insert_split {A} (l : list A) i x : i < length l -> <[i := x]> l = take i l ++ x :: drop (S i) l.
Proof. intros H. apply insert_take_drop. done. Qed.

(** Writing a cell at the cursor. *)
Lemma write_end s c : screen_ok s -> col s < cols s ->
  let s' := s <| cells := <[pos s := c]> (cells s) |> <| col := col s + 1 |> in
  nth_set (cells s) (row s * cols s + col s) c = Ret (<[pos s := c]> (cells s)) /\ screen_ok s' /\ text s' = text s ++ [Some (ch c)] /\ (at_end s -> at_end s').
Proof.
  intros Hok Hc s'. pose proof (row_end s Hok) as Hre. assert (pos s < length (cells s)) as Hp by (unfold pos; lia).
  split; [by apply nth_set_ret|]. split; [apply (col_ok (s <| cells := <[pos s := c]> (cells s) |>)); [apply cells_ok; [done|by rewrite length_insert]|cbn; lia]|].
  assert (cells s' = take (pos s) (cells s) ++ c :: drop (S (pos s)) (cells s)) as Ec by (by apply insert_split).
  split.
  - unfold text. rewrite <- app_assoc. f_equal.
    + unfold above. f_equal. apply rows_text_agree. cbn. rewrite length_take. unfold pos. destruct Hok as (_ & _ & _ & H4 & H5 & _).
      rewrite Nat.min_l by lia. apply take_insert_ge. lia.
    + change (row s') with (row s). change (cols s') with (cols s). change (col s') with (col s + 1). rewrite Ec. unfold pos.
      rewrite drop_app_le by (rewrite length_take; lia). rewrite <- take_drop_commute, Nat.add_1_r.
      rewrite (take_S_r _ _ c); [rewrite chars_app|].
      * f_equal. f_equal. rewrite take_app_le by (rewrite length_take, length_drop; lia). by rewrite take_take, Nat.min_id.
      * rewrite lookup_app_r; rewrite length_take, length_drop, Nat.min_l by lia; [|lia]. by rewrite Nat.sub_diag.
  - intros He. unfold at_end. replace (pos s') with (S (pos s)) by (unfold pos; cbn; lia). rewrite Ec, drop_app_ge by (rewrite length_take; lia).
    rewrite length_take, Nat.min_l by lia. replace (S (pos s) - pos s) with 1 by lia. cbn. rewrite drop_0.
    replace (S (pos s)) with (pos s + 1) by lia. rewrite <- drop_drop. by apply blank_drop.
Qed.

Lemma put_overflow_ok ov : forall s, screen_ok s -> col s + length ov <= cols s -> exists s', put_overflow ov s = Ret s' /\ screen_ok s' /\ same_frame s s' /\
  col s' = col s + length ov /\ scrollback s' = scrollback s /\ text s' = text s ++ chars ov /\ (at_end s -> at_end s').
Proof.
  induction ov as [|c ov IH]; intros s Hok Hl; cbn [put_overflow].
  - exists s. cbn. rewrite app_nil_r, Nat.add_0_r. done.
  - cbn in Hl. destruct (Nat.leb_spec (cols s) (col s)); [lia|]. rewrite bind_Ret_l. destruct (write_end s c Hok ltac:(lia)) as (E & Hok1 & Ht1 & He1). rewrite E, bind_Ret_l.
    set (s1 := s <| cells := _ |> <| col := _ |>) in *. destruct (IH s1 Hok1) as (s' & E' & Hok' & Hf & Hc & Hsb & Ht & He); [cbn; lia|]. exists s'. split; [exact E'|].
    split; [done|]. split; [done|]. split; [rewrite Hc; cbn; lia|]. split; [done|]. split; [|auto]. rewrite Ht, Ht1, <- app_assoc. done.
Qed.

Lemma last_space_spec l i : last_space l = Some i -> exists c, l !! i = Some c /\ is_space c = true.
Proof.
  revert i. induction l as [|c l IH]; intros i; cbn; [done|]. destruct (last_space l) as [j|]; [intros [= <-]; by apply IH|].
  destruct (is_space c) eqn:E; [|done]. intros [= <-]. by exists c.
Qed.

(** Where a row breaks: after [k] cells, the last of which is a space unless
    the whole row stays. *)
Definition breaks_at (line : list Cell) (k : nat) : Prop :=
  k = length line \/ exists w c, take k line = w ++ [c] /\ is_space c = true.

Lemma break_word s : screen_ok s -> let start := row s * cols s in exists k, 1 <= k <= cols s /\ breaks_at (take (cols s) (drop start (cells s))) k /\
  (line ← slice (cells s) start (start + cols s);
   match last_space line with
   | Some sp => if sp + 1 <? cols s then
                  ov ← slice (cells s) (start + sp + 1) (start + cols s);
                  l ← fill (cells s) (start + sp + 1) (start + cols s) empty; Ret (ov, l)
                else Ret ([], cells s)
   | None => Ret ([], cells s)
   end) = Ret (take (cols s - k) (drop (start + k) (cells s)), take (start + k) (cells s) ++ replicate (cols s - k) empty ++ drop (start + cols s) (cells s)).
Proof.
  intros Hok start. pose proof (row_end s Hok) as Hre. destruct Hok as (H1 & _). rewrite slice_ret by (unfold start; lia). rewrite bind_Ret_l.
  replace (start + cols s - start) with (cols s) by lia.
  set (line := take _ _). assert (length line = cols s) as Hlen by (unfold line; rewrite length_take, length_drop; unfold start; lia).
  assert (forall k, k = cols s -> Ret ([], cells s) = Ret (take (cols s - k) (drop (start + k) (cells s)), take (start + k) (cells s) ++ replicate (cols s - k) empty ++ drop (start + cols s) (cells s))) as Hnone.
  { intros k ->. rewrite Nat.sub_diag. cbn. by rewrite take_drop. }
  destruct (last_space line) as [sp|] eqn:Hsp; [|exists (cols s); split; [lia|split; [by left|by apply Hnone]]].
  destruct (last_space_spec line sp Hsp) as (c & Hc & Hcs). pose proof (lookup_lt_Some _ _ _ Hc) as Hlt. rewrite Hlen in Hlt.
  destruct (Nat.ltb_spec (sp + 1) (cols s)); [|exists (cols s); split; [lia|split; [by left|by apply Hnone]]]. exists (sp + 1). split; [lia|]. split.
  { right. exists (take sp line), c. split; [|done]. rewrite Nat.add_1_r. by apply take_S_r. }
  rewrite slice_ret, bind_Ret_l, fill_ret, bind_Ret_l by (unfold start; lia).
  replace (start + (sp + 1)) with (start + sp + 1) by lia. by replace (start + cols s - (start + sp + 1)) with (cols s - (sp + 1)) by lia.
Qed.

(** Filling a broken row up with spaces stretches its text. *)
Lemma break_stretched line k : breaks_at line k -> stretched (chars line) (chars (take k line ++ replicate (length line - k) empty) ++ chars (drop k line)).
Proof.
  rewrite <- (take_drop k line) at 2. intros [->|(w & c & E & Hc)].
  - rewrite Nat.sub_diag, drop_all, take_ge by done. rewrite !app_nil_r. apply stretched_refl.
  - rewrite E, !chars_app, <- !app_assoc. apply stretched_pre. rewrite (chars_blank (replicate _ _)) by apply blank_empty.
    rewrite (chars_blank [c]) by (by constructor). cbn [length replicate app]. rewrite length_replicate.
    set (n := length line - k). change (SP :: replicate n SP ++ chars (drop k line)) with (replicate (S n) SP ++ chars (drop k line)).
    rewrite replicate_S_end, <- app_assoc. apply stretched_spaces. by left.
Qed.

Lemma wrap_ok s : screen_ok s -> col s = cols s -> exists s', wrap_current_word s = Ret s' /\ screen_ok s' /\ same_frame s s' /\ col s' < cols s /\
  keeps s s' [] /\ (at_end s -> at_end s').
Proof.
  intros Hok Hcol. pose proof (row_end s Hok) as Hre. destruct (break_word s Hok) as (k & Hk & Hbr & Hb). cbn zeta in Hb, Hbr. set (start := row s * cols s) in *.
  assert (wrap_current_word s = ('(overflow, l) ← Ret (take (cols s - k) (drop (start + k) (cells s)), take (start + k) (cells s) ++ replicate (cols s - k) empty ++ drop (start + cols s) (cells s));
    s ← soft_row (s <| cells := l |>) true; s ← line_feed (s <| col := 0 |>); put_overflow overflow s)) as ->.
  { rewrite <- Hb. unfold wrap_current_word. fold start. by destruct (slice (cells s) start (start + cols s)). }
  rewrite bind_Ret_l. set (line := take (cols s) (drop start (cells s))) in *. assert (length line = cols s) as Hlen by (unfold line; rewrite length_take, length_drop; lia).
  assert (take (cols s - k) (drop (start + k) (cells s)) = drop k line) as ->.
  { unfold line. rewrite <- drop_drop, take_drop_commute. f_equal. f_equal. lia. }
  assert (take (start + k) (cells s) = take start (cells s) ++ take k line) as ->.
  { unfold line. rewrite take_take, Nat.min_l by lia. by rewrite take_take_drop. }
  set (ov := drop k line). set (l := (_ ++ take k line) ++ _). assert (length ov = cols s - k) as Hov by (unfold ov; rewrite length_drop; lia).
  assert (take start l = take start (cells s)) as Hl1 by (unfold l; rewrite <- app_assoc, take_app_le, take_take, Nat.min_id by (rewrite length_take; lia); done).
  assert (take (cols s) (drop start l) = take k line ++ replicate (cols s - k) empty) as Hl2.
  { unfold l. rewrite <- app_assoc, drop_app_length' by (rewrite length_take; lia). rewrite app_assoc, take_app_length'; [done|]. rewrite length_app, length_take, length_replicate. lia. }
  assert (drop (start + cols s) l = drop (start + cols s) (cells s)) as Hl3.
  { unfold l. rewrite app_assoc, drop_app_length'; [done|]. rewrite !length_app, !length_take, length_replicate. lia. }
  assert (length l = length (cells s)) as Hl by (unfold l; rewrite !length_app, !length_take, length_replicate, length_drop; lia). clearbody l.
  assert (screen_ok (s <| cells := l |>)) as Hok1 by (by apply cells_ok). rewrite soft_row_ret, bind_Ret_l by done. set (s0 := _ <| col := 0 |>).
  assert (screen_ok s0) as Hok0 by (apply col_ok; [apply soft_ok; [done|by rewrite length_insert]|lia]).
  assert (below s0 = above s ++ chars (take k line ++ replicate (cols s - k) empty)) as Hbel.
  { destruct Hok as (_ & _ & _ & H4 & H5 & _). rewrite (below_above s0 true Hok0) by (cbn; apply list_lookup_insert_eq; lia). f_equal.
    - unfold above. f_equal. cbn. rewrite take_insert_ge by lia. apply rows_text_agree. rewrite length_take, Nat.min_l by lia. exact Hl1.
    - unfold row_text. rewrite app_nil_r. f_equal. exact Hl2. }
  destruct (line_feed_ok s0 Hok0) as (s1 & -> & Hs1 & Hf1 & Hc1 & Hsb1 & [Ht1 Ht1'] & Hb1). rewrite bind_Ret_l. destruct Hf1 as (Hf1 & Hf2 & Hf3 & Hf4 & Hf5).
  change (col s0) with 0 in Hc1. change (cols s0) with (cols s) in *. destruct (put_overflow_ok ov s1 Hs1) as (s2 & -> & Hs2 & Hf6 & Hc2 & Hsb2 & Ht2 & He2); [rewrite Hc1; lia|].
  assert (text s1 = above s1) as Et1 by (unfold text; rewrite Hc1; cbn; by rewrite app_nil_r).
  exists s2. split; [done|]. split; [done|]. split; [unfold same_frame in *; naive_solver congruence|]. split; [rewrite Hc2, Hc1; lia|]. split.
  - exists (below s0 ++ chars ov). rewrite Ht2, Et1, Hsb2. split_and!; [|destruct Ht1 as [x ->]; exists x; by rewrite app_assoc|intros Hlt; by rewrite Ht1'|done].
    rewrite app_nil_r, Hbel, <- app_assoc. unfold text. rewrite Hcol. apply stretched_pre. fold start line. rewrite <- Hlen. by apply break_stretched.
  - intros He. apply He2. unfold at_end, pos. rewrite Hc1, Hf1, Nat.add_0_r. apply Hb1. change (row s0) with (row s). change (cells s0) with l.
    replace ((row s + 1) * cols s) with (start + cols s) by (unfold start; lia). rewrite Hl3. unfold at_end, pos in He. by rewrite Hcol in He.
Qed.

Lemma put_ok c s : screen_ok s -> exists s', put c s = Ret s' /\ screen_ok s' /\ keeps s s' [Some c] /\ (at_end s -> at_end s').
Proof.
  intros Hok. unfold put. set (s0 := s <| after_carriage_return := false |>). assert (screen_ok s0) as Hok0 by done.
  assert (exists s1, (if cols s0 <=? col s0 then wrap_current_word s0 else Ret s0) = Ret s1 /\ screen_ok s1 /\ col s1 < cols s1 /\ keeps s s1 [] /\ (at_end s -> at_end s1)) as (s1 & -> & Hok1 & Hc1 & Hk1 & He1).
  { destruct (Nat.leb_spec (cols s0) (col s0)) as [Hw|Hw].
    - destruct (wrap_ok s0 Hok0) as (s1 & -> & H1 & (Hf & _) & H2 & H3); [destruct Hok0 as (_ & _ & _ & _ & _ & ? & _); lia|]. exists s1. rewrite Hf. done.
    - exists s0. split_and!; try done. apply keeps_same; [by rewrite app_nil_r|done]. }
  rewrite bind_Ret_l. destruct (current_pair s1) as [f b]. destruct (write_end s1 (mkCell c f b) Hok1 Hc1) as (-> & Hok2 & Ht2 & He2). rewrite bind_Ret_l.
  eexists. split; [reflexivity|]. split; [exact Hok2|]. split; [|intros He; by apply He2, He1]. change [Some c] with ([] ++ [Some c]).
  eapply keeps_text_trans; [exact Hk1|]. by apply keeps_same.
Qed.

Lemma hard_break_ok s : screen_ok s -> exists s', hard_break s = Ret s' /\ screen_ok s' /\ (at_end s -> keeps s s' [None] /\ at_end s').
Proof.
  intros Hok. unfold hard_break. pose proof (row_end s Hok) as Hre. pose proof Hok as (H1 & H2 & H3 & H4 & H5 & H6 & _). rewrite H4, (proj2 (Nat.ltb_lt _ _) H5), soft_row_ret by done. rewrite bind_Ret_l.
  set (s0 := _ <| col := 0 |>). assert (screen_ok s0) as Hok0 by (apply col_ok; [apply soft_ok; [done|by rewrite length_insert]|lia]).
  destruct (line_feed_ok s0 Hok0) as (s1 & -> & Hs1 & (Hf1 & Hf) & Hc & Hsb & [Ht Ht'] & Hb). exists s1. split; [done|]. split; [done|].
  change (col s0) with 0 in Hc. change (cols s0) with (cols s) in *. intros He. split.
  - assert (text s1 = above s1) as Et1 by (unfold text; rewrite Hc; cbn; by rewrite app_nil_r).
    exists (below s0). rewrite Et1. split_and!; try done. rewrite (below_above s0 false Hok0) by (cbn; apply list_lookup_insert_eq; lia).
    unfold text. assert (above s0 = above s) as -> by (unfold above; cbn; by rewrite take_insert_ge by lia). rewrite <- app_assoc. apply stretched_pre.
    unfold row_text. change (cols s0) with (cols s). change (row s0) with (row s). change (cells s0) with (cells s). set (line := drop (row s * cols s) (cells s)).
    rewrite <- (take_drop (col s) (take (cols s) line)), take_take, Nat.min_l, chars_app, <- app_assoc by lia. apply stretched_pre.
    rewrite chars_blank; [apply stretched_spaces; by right|]. rewrite skipn_firstn_comm. apply Forall_take. unfold line. rewrite drop_drop. exact He.
  - unfold at_end, pos. rewrite Hc, Hf1. rewrite Nat.add_0_r. apply Hb. change (row s0) with (row s). change (cells s0) with (cells s).
    unfold at_end, pos in He. replace ((row s + 1) * cols s) with (row s * cols s + col s + (cols s - col s)) by lia. rewrite <- drop_drop. by apply blank_drop.
Qed.

(** Text and line ends, and what is typed with them. *)
Definition plain (r : report) : Prop := match r with Print _ => True | Execute b => b = 0x0A%Z | _ => False end.
Definition printed (r : report) : list (option Z) := match r with Print c => [Some c] | _ => [None] end.

(** C33. Text that is printed after the end of the screen's text, with line
    ends in it, is never lost: after it, scrollback and screen read up to the
    cursor give the text that was there followed by every printed character,
    spaces included, and every line end, in order.  Word wrapping and the ends
    of lines only add spaces, next to a space or before a line end, and only
    when the scrollback is full do the oldest rows go. *)
Theorem printed_text_kept l s : screen_ok s -> at_end s -> Forall plain l ->
  exists s', perform_all s l = Ret s' /\ screen_ok s' /\ at_end s' /\ keeps s s' (l ≫= printed).
Proof.
  intros Hok He Hl. revert s Hok He. induction Hl as [|r l Hr _ IH]; intros s Hok He; [exists s; split_and!; try done; apply keeps_same; [by rewrite app_nil_r|done]|].
  assert (exists s1, perform s r = Ret s1 /\ screen_ok s1 /\ keeps s s1 (printed r) /\ at_end s1) as (s1 & E & Hok1 & Hk1 & He1).
  { destruct r as [c|b|p i a]; [destruct (put_ok c s Hok) as (s1 & ? & ? & ? & ?); exists s1; by split_and!; auto| |done]. cbn in Hr. subst b.
    pose (s0 := s <| after_carriage_return := false |>). destruct (hard_break_ok s0 Hok) as (s1 & E & H1 & H2). exists s1. split; [exact E|]. split; [exact H1|]. by apply H2. }
  destruct (IH s1 Hok1 He1) as (s' & E' & Hok' & He' & Hk'). exists s'. cbn [perform_all]. rewrite E, bind_Ret_l. split; [done|].
  split; [done|]. split; [done|]. rewrite bind_cons. by eapply keeps_text_trans.
Qed.

(** ** Bounds *)

Definition ok_ret (m : outcome Screen) : Prop := exists s', m = Ret s' /\ screen_ok s'.

Lemma ok_Ret s : screen_ok s -> ok_ret (Ret s).
Proof. intros H. by exists s. Qed.

Lemma last_ink_lt l i : last_ink l = Some i -> i < length l.
Proof.
  revert i. induction l as [|c l IH]; intros i; cbn; [done|]. destruct (last_ink l) as [j|]; [intros [= <-]; specialize (IH j eq_refl); lia|].
  destruct (is_space c); [done|]. intros [= <-]. lia.
Qed.

Lemma row_cells_ret s r : screen_ok s -> r < rows s -> row_cells s r = Ret (take (cols s) (drop (r * cols s) (cells s))) /\
  length (take (cols s) (drop (r * cols s) (cells s))) = cols s.
Proof.
  intros (H1 & H2 & H3 & _) Hr. unfold row_cells. rewrite slice_ret by nia. rewrite length_take, length_drop, H3.
  replace (r * cols s + cols s - r * cols s) with (cols s) by lia. split; [done|]. nia.
Qed.

Lemma soft_row_end_ok s r : screen_ok s -> r < rows s -> exists e, soft_row_end s r = Ret e /\ e <= cols s.
Proof.
  intros Hok Hr. destruct (row_cells_ret s r Hok Hr) as [E Hl]. unfold soft_row_end. unfold row_cells in E. rewrite E, bind_Ret_l. eexists. split; [reflexivity|].
  destruct (last_ink _) as [i|] eqn:Hi; [|lia]. destruct (Nat.ltb_spec (i + 1) (cols s)); lia.
Qed.

Lemma soft_some s r : screen_ok s -> r < rows s -> exists b, row_soft s !! r = Some b.
Proof. intros (_ & _ & _ & H4 & _) Hr. apply lookup_lt_is_Some. lia. Qed.

Lemma move_left_ok s : screen_ok s -> forall r count c, r < rows s -> c <= cols s -> ok_ret (move_left_from s count r c).
Proof.
  intros Hok. induction r as [|r IH]; intros count c Hr Hc; cbn [move_left_from]; (destruct (count =? 0); [apply ok_Ret, cursor_ok; done|]);
    (destruct (Nat.leb_spec count c); [apply ok_Ret, cursor_ok; [done|done|lia]|]); [apply ok_Ret, cursor_ok; [done|done|lia]|].
  destruct (soft_some s r Hok) as [b ->]; [lia|]. cbn [unwrap]. rewrite bind_Ret_l. destruct b; [|apply ok_Ret, cursor_ok; [done|done|lia]].
  destruct (soft_row_end_ok s r Hok) as (e & -> & He); [lia|]. rewrite bind_Ret_l. apply IH; [lia|done].
Qed.

Lemma clear_range_ok s a b : screen_ok s -> a <= b -> a <= length (cells s) ->
  exists s', clear_range s a b = Ret s' /\ screen_ok s' /\ row_soft s' = row_soft s /\ cols s' = cols s /\ rows s' = rows s.
Proof.
  intros Hok H1 H2. unfold clear_range. rewrite fill_ret by lia. eexists. split; [reflexivity|]. split; [|done].
  apply (cells_ok s); [done|]. apply fill_length; lia.
Qed.

Lemma first_row_ok l r : r <= length l -> exists f, first_row l r = Ret f /\ f <= r.
Proof.
  induction r as [|r IH]; intros Hr; [by exists 0|]. cbn [first_row]. destruct (lookup_lt_is_Some_2 l r ltac:(lia)) as [b ->]. cbn [unwrap]. rewrite bind_Ret_l.
  destruct b; [|by exists (S r)]. destruct IH as (f & -> & Hf); [lia|]. exists f. split; [done|lia].
Qed.

Lemma last_row_ok l n fuel : length l = n -> forall r, r < n -> exists e, last_row fuel l n r = Ret e /\ r <= e < n.
Proof.
  intros Hl. induction fuel as [|fuel IH]; intros r Hr; cbn [last_row]; [by exists r|]. destruct (Nat.ltb_spec (r + 1) n); [|by exists r].
  destruct (lookup_lt_is_Some_2 l r ltac:(lia)) as [b ->]. cbn [unwrap]. rewrite bind_Ret_l. destruct b; [|by exists r].
  destruct (IH (r + 1)) as (e & -> & He); [lia|]. exists e. split; [done|lia].
Qed.

Lemma clear_logical_line_ok s : screen_ok s -> ok_ret (clear_logical_line s).
Proof.
  intros Hok. pose proof Hok as (H1 & H2 & H3 & H4 & H5 & _). unfold clear_logical_line. destruct (first_row_ok (row_soft s) (row s)) as (f & -> & Hf); [lia|].
  rewrite bind_Ret_l. destruct (last_row_ok (row_soft s) (rows s) (rows s) H4 (row s) H5) as (e & -> & He). rewrite bind_Ret_l.
  destruct (clear_range_ok s (f * cols s) ((e + 1) * cols s) Hok) as (s1 & -> & Hok1 & Hs & Hc & Hr); [nia|rewrite H3; nia|]. rewrite bind_Ret_l.
  rewrite fill_ret by (rewrite ?Hs; lia). rewrite bind_Ret_l. set (l := take f (row_soft s1) ++ _). apply ok_Ret.
  assert (length l = length (row_soft s1)) as Hl by (apply fill_length; rewrite ?Hs; lia).
  pose (s2 := s1 <| row_soft := l |>). assert (screen_ok s2) as Hok2 by (by apply soft_ok). apply (cursor_ok s2); [done|change (rows s2) with (rows s1); lia|lia].
Qed.

Lemma erase_display_ok s n : screen_ok s -> ok_ret (erase_display s n).
Proof.
  intros Hok. pose proof (row_end s Hok) as Hre. pose proof Hok as (_ & _ & _ & _ & _ & Hc & _). unfold erase_display.
  destruct (n =? 0); [|destruct (n =? 1); [|destruct ((n =? 2) || (n =? 3))]].
  - destruct (clear_range_ok s (row s * cols s + col s) (length (cells s)) Hok) as (s1 & -> & H & _); [lia..|by exists s1].
  - destruct (clear_range_ok s 0 (row s * cols s + col s + 1) Hok) as (s1 & -> & H & _); [lia..|by exists s1].
  - apply ok_Ret. destruct Hok as (H1 & H2 & H3 & H4 & H). unfold screen_ok, clear_all. cbn. by rewrite !length_replicate.
  - by apply ok_Ret.
Qed.

Lemma erase_line_ok s n : screen_ok s -> ok_ret (erase_line s n).
Proof.
  intros Hok. pose proof (row_end s Hok) as Hre. pose proof Hok as (_ & _ & _ & _ & _ & Hc & _). unfold erase_line.
  destruct ((n =? 2) && after_carriage_return s); [by apply clear_logical_line_ok|]. destruct (n =? 0); [|destruct (n =? 1); [|destruct (n =? 2)]].
  - destruct (clear_range_ok s (row s * cols s + col s) (row s * cols s + cols s) Hok) as (s1 & -> & H & _); [lia..|by exists s1].
  - destruct (clear_range_ok s (row s * cols s) (row s * cols s + col s + 1) Hok) as (s1 & -> & H & _); [lia..|by exists s1].
  - destruct (clear_range_ok s (row s * cols s) (row s * cols s + cols s) Hok) as (s1 & -> & H & _); [lia..|by exists s1].
  - by apply ok_Ret.
Qed.

Lemma sgr_ok s p : screen_ok s -> screen_ok (sgr s p).
Proof.
  intros Hok. unfold sgr. destruct p as [|c p]; [exact Hok|]. revert s Hok. generalize (c :: p). intros l. induction l as [|x l IH]; intros s Hok; [done|]. cbn [foldl].
  apply IH. unfold sgr_one. repeat case_match; exact Hok.
Qed.

Lemma csi_ok s p i a : screen_ok s -> ok_ret (csi_dispatch s p i a).
Proof.
  intros Hok. unfold csi_dispatch. destruct i; [by apply ok_Ret|]. pose proof Hok as (H1 & H2 & H3 & H4 & H5 & H6 & _).
  assert (ok_ret (csi_action s p a)) as (s1 & -> & Hs1).
  { unfold csi_action. repeat match goal with |- ok_ret (if ?b then _ else _) => destruct b end.
    - apply ok_Ret, row_ok; [done|lia].
    - apply ok_Ret, row_ok; [done|lia].
    - apply ok_Ret, col_ok; [done|lia].
    - by apply move_left_ok.
    - apply ok_Ret, cursor_ok; [done|lia|lia].
    - by apply erase_display_ok.
    - by apply erase_line_ok.
    - by apply ok_Ret, sgr_ok.
    - by apply ok_Ret. }
  rewrite bind_Ret_l. apply ok_Ret. destruct Hs1 as (G1 & G2 & G3 & G4 & G5 & G6 & G7). unfold cursor_clamp, screen_ok.
  repeat case_match; cbn; split_and!; try done; try lia; naive_solver.
Qed.

Lemma execute_ok s b : screen_ok s -> ok_ret (execute s b).
Proof.
  intros Hok. pose proof Hok as (H1 & H2 & H3 & H4 & H5 & H6 & _). unfold execute. set (s0 := s <| after_carriage_return := false |>). assert (screen_ok s0) as Hok0 by done.
  repeat match goal with |- ok_ret (if ?b then _ else _) => destruct b end.
  - apply ok_Ret. apply (col_ok s0); [done|]. change (cols s0) with (cols s). lia.
  - cbn zeta. set (s1 := s0 <| col := _ |>). destruct (Nat.leb_spec (cols s1) (col s1)) as [Hw|Hw].
    + assert (soft_row s1 true = Ret (s1 <| row_soft := <[row s := true]> (row_soft s) |>)) as ->.
      { unfold soft_row. change (row s1) with (row s). change (row_soft s1) with (row_soft s). rewrite nth_set_ret by lia. done. }
      rewrite bind_Ret_l. set (s2 := _ <| col := 0 |>). assert (screen_ok s2) as Hok2.
      { pose (s3 := s0 <| row_soft := <[row s := true]> (row_soft s) |>). assert (screen_ok s3) as Hok3 by (apply soft_ok; [done|by rewrite length_insert]).
        exact (col_ok s3 0 Hok3 ltac:(lia)). }
      destruct (line_feed_ok s2 Hok2) as (s3 & -> & Hs3 & _). by exists (s3 <| dirty := true |>).
    + apply ok_Ret. apply (col_ok s0); [done|]. change (cols s0) with (cols s) in *. change (cols s1) with (cols s) in Hw. change (col s1) with ((col s / 8 + 1) * 8) in Hw. lia.
  - destruct (hard_break_ok s0 Hok0) as (s1 & -> & H & _). by exists s1.
  - apply ok_Ret. apply (col_ok s); [done|lia].
  - by apply ok_Ret.
Qed.

Lemma perform_ok s r : screen_ok s -> ok_ret (perform s r).
Proof.
  intros Hok. destruct r as [c|b|p i a]; [|by apply execute_ok|by apply csi_ok]. destruct (put_ok c s Hok) as (s' & E & H & _). by exists s'.
Qed.

Lemma process_ok l : forall s, screen_ok s -> ok_ret (process s l).
Proof.
  intros s Hok. unfold process. assert (ok_ret (perform_all s l)) as (s' & -> & H).
  { revert s Hok. induction l as [|r l IH]; intros s Hok; [by apply ok_Ret|]. cbn [perform_all]. destruct (perform_ok s r Hok) as (s' & -> & Hs'). rewrite bind_Ret_l. by apply IH. }
  rewrite bind_Ret_l. apply ok_Ret. destruct H as (H1 & H2 & H3 & H4 & H5 & H6 & H7 & H8 & H9). unfold screen_ok. cbn. split_and!; try done. lia.
Qed.

(** ** Resizing *)

Lemma last_ink_tail l : blank (drop (match last_ink l with Some i => S i | None => 0 end) l).
Proof.
  induction l as [|c l IH]; [constructor|]. cbn [last_ink]. destruct (last_ink l) as [i|]; [exact IH|]. destruct (is_space c) eqn:Hc; [|exact IH]. cbn. by constructor.
Qed.

Lemma ink_trim l : ink (trim_cells l) = ink l.
Proof.
  pose proof (last_ink_tail l) as H. unfold trim_cells. destruct (last_ink l) as [i|]; [|rewrite drop_0 in H; by rewrite (ink_blank l H)].
  rewrite <- (take_drop (S i) l) at 2. by rewrite ink_app, (ink_blank _ H), app_nil_r.
Qed.

Lemma pad_row_ok r w : length r <= w -> length (pad_row r w) = w /\ ink (pad_row r w) = ink r.
Proof.
  intros H. unfold pad_row, vec_resize. rewrite take_ge by lia. rewrite length_app, length_replicate, ink_app, ink_empty, app_nil_r. split; [lia|done].
Qed.

Lemma tokens_concat l : concat (tokens l) = l.
Proof.
  induction l as [|c l IH]; [done|]. cbn [tokens]. destruct (tokens l) as [|[|d t] ts]; cbn in *; [by rewrite IH|by rewrite IH|].
  destruct (Bool.eqb _ _); cbn; by rewrite IH.
Qed.

(** The rows of a reflow: all of the width, with the ink of the source. *)
Definition rows_ok (width : nat) (w : Wrapped) (e : list Z) : Prop := Forall (fun x => length x.1 = width) w /\ ink (concat (fst <$> w)) = e.

Lemma rows_ok_snoc width w e r b : rows_ok width w e -> length r <= width -> rows_ok width (w ++ [(pad_row r width, b)]) (e ++ ink r).
Proof.
  intros [H1 H2] Hr. destruct (pad_row_ok r width Hr) as [Hl Hi]. split; [apply Forall_app; split; [done|]; by constructor|].
  rewrite fmap_app, ink_concat_app, H2. cbn. by rewrite app_nil_r, Hi.
Qed.

Lemma long_word_ok width more fuel : 1 <= width -> forall out r tok e, rows_ok width out e -> length r < width -> length tok <= fuel ->
  exists out' r' e', long_word fuel width out r tok more = (out', r') /\ rows_ok width out' e' /\ length r' < width /\ e' ++ ink r' = e ++ ink r ++ ink tok.
Proof.
  intros Hw. induction fuel as [|fuel IH]; intros out r tok e Ho Hr Ht; cbn [long_word].
  { destruct tok; [|cbn in Ht; lia]. exists out, r, e. by rewrite app_nil_r. }
  destruct tok as [|c tok]; [exists out, r, e; by rewrite app_nil_r|]. set (tk := c :: tok) in *. set (n := Nat.min _ _).
  assert (1 <= n <= length tk) as Hn by (unfold n, tk; cbn [length]; lia). assert (length (r ++ take n tk) = length r + n) as Hl by (rewrite length_app, length_take; lia).
  assert (length (drop n tk) <= fuel) as Hd by (rewrite length_drop; lia). assert (ink tk = ink (take n tk) ++ ink (drop n tk)) as Ei by (by rewrite <- ink_app, take_drop).
  destruct (Nat.eqb_spec (length (r ++ take n tk)) width) as [E|E].
  - destruct (IH (out ++ [(pad_row (r ++ take n tk) width, negb (bool_decide (drop n tk = [])) || more)]) [] (drop n tk) (e ++ ink (r ++ take n tk))) as (out' & r' & e' & H1 & H2 & H3 & H4).
    + apply rows_ok_snoc; [done|lia].
    + cbn. lia.
    + done.
    + exists out', r', e'. split; [done|]. split; [done|]. split; [done|]. rewrite H4, Ei, ink_app, <- !app_assoc. done.
  - destruct (IH out (r ++ take n tk) (drop n tk) e Ho) as (out' & r' & e' & H1 & H2 & H3 & H4); [unfold n in *; lia|done|].
    exists out', r', e'. split; [done|]. split; [done|]. split; [done|]. rewrite H4, Ei, ink_app, <- !app_assoc. done.
Qed.

Lemma forallb_blank l : forallb is_space l = true -> blank l.
Proof. intros H. apply Forall_forall. intros c Hc. rewrite forallb_forall in H. by apply H, list_elem_of_In. Qed.

Lemma wrap_tokens_ok width : 1 <= width -> forall ts out r e, rows_ok width out e -> length r <= width ->
  rows_ok width (wrap_tokens width ts out r) (e ++ ink r ++ ink (concat ts)).
Proof.
  intros Hw. induction ts as [|tok ts IH]; intros out r e Ho Hr; cbn [wrap_tokens].
  { change (concat []) with (@nil Cell). rewrite app_nil_r. by apply rows_ok_snoc. }
  cbn [concat]. rewrite ink_app. destruct (forallb is_space tok) eqn:Hs.
  - rewrite (ink_blank tok) by (by apply forallb_blank). cbn [app]. case_bool_decide as Hn; [by apply IH|].
    destruct (Nat.leb_spec (length r + length tok) width).
    + rewrite <- (app_nil_r (ink r)). rewrite <- (ink_blank tok) by (by apply forallb_blank). rewrite <- ink_app. apply IH; [done|by rewrite length_app].
    + rewrite app_assoc. apply (IH _ [] (e ++ ink r)); [by apply rows_ok_snoc|cbn; lia].
  - assert (exists out1 r1 e1, (if negb (bool_decide (r = [])) && (width <? length r + length tok) then (out ++ [(pad_row r width, true)], []) else (out, r)) = (out1, r1) /\
      rows_ok width out1 e1 /\ e1 ++ ink r1 = e ++ ink r /\ (r1 = [] \/ length r1 + length tok <= width)) as (out1 & r1 & e1 & -> & Ho1 & He1 & Hl1).
    { destruct (negb (bool_decide (r = [])) && (width <? length r + length tok)) eqn:E.
      - eexists _, _, (e ++ ink r). split; [reflexivity|]. split; [by apply rows_ok_snoc|]. split; [by rewrite app_nil_r|by left].
      - exists out, r, e. split; [done|]. split; [done|]. split; [done|]. apply andb_false_iff in E as [E|E]; [left; apply negb_false_iff in E; by apply bool_decide_eq_true in E|right; by apply Nat.ltb_ge]. }
    destruct (Nat.ltb_spec width (length tok)) as [Hlong|Hshort].
    + destruct (long_word_ok width (negb (bool_decide (ts = []))) (length tok) Hw out1 r1 tok e1 Ho1) as (out2 & r2 & e2 & -> & Ho2 & Hr2 & He2); [destruct Hl1 as [->|]; [cbn; lia|lia]|done|].
      replace (e ++ ink r ++ ink tok ++ ink (concat ts)) with (e2 ++ ink r2 ++ ink (concat ts)); [apply IH; [done|lia]|].
      rewrite !app_assoc. f_equal. rewrite He2, app_assoc, He1. done.
    + replace (e ++ ink r ++ ink tok ++ ink (concat ts)) with (e1 ++ ink (r1 ++ tok) ++ ink (concat ts)); [apply IH; [done|rewrite length_app; destruct Hl1 as [->|]; [cbn; lia|lia]]|].
      rewrite ink_app, !app_assoc, He1. done.
Qed.

Lemma wrap_words_ok src width : 1 <= width -> rows_ok width (wrap_words src width) (ink src).
Proof.
  intros Hw. unfold wrap_words. replace (Nat.max width 1) with width by lia. destruct src as [|c src].
  - split; [by repeat constructor; cbn; rewrite length_replicate|]. cbn. by rewrite app_nil_r, ink_empty.
  - pose proof (wrap_tokens_ok width Hw (tokens (c :: src)) [] [] []) as H. rewrite tokens_concat in H. apply H; [|cbn; lia]. by split.
Qed.

Lemma wrap_all_ok lines width : 1 <= width -> rows_ok width (lines ≫= fun line => wrap_words line width) (ink (concat lines)).
Proof.
  intros Hw. induction lines as [|l lines [IH1 IH2]]; [by split|]. rewrite bind_cons. destruct (wrap_words_ok l width Hw) as [H1 H2].
  split; [by apply Forall_app|]. rewrite fmap_app, ink_concat_app, H2, IH2. cbn [concat]. by rewrite ink_app.
Qed.

Lemma unwrap_rows_ink phys : forall acc, ink (concat (unwrap_rows phys acc)) = ink acc ++ ink (concat (fst <$> phys)).
Proof.
  induction phys as [|[line sft] phys IH]; intros acc; cbn [unwrap_rows].
  - rewrite app_nil_r. case_bool_decide as E; [by subst acc|]. cbn. by rewrite app_nil_r.
  - rewrite fmap_cons. cbn [concat fst]. rewrite ink_app, app_assoc, <- (ink_trim line), <- ink_app. destruct sft.
    + rewrite IH. f_equal. case_match; [|done]. rewrite ink_app. change (ink [empty]) with (@nil Z). by rewrite app_nil_r.
    + cbn [concat]. rewrite ink_app, IH. done.
Qed.

Lemma content_row_ok s : screen_ok s -> forall rs n, (forall r, r ∈ rs -> r < rows s) -> n < rows s ->
  exists m, content_row s rs n = Ret m /\ n <= m < rows s /\ forall r, r ∈ rs -> m < r -> blank (take (cols s) (drop (r * cols s) (cells s))).
Proof.
  intros Hok. induction rs as [|r rs IH]; intros n Hrs Hn; cbn [content_row]; [exists n; split; [done|]; split; [lia|]; by intros r ?%elem_of_nil|].
  destruct (row_cells_ret s r Hok) as [-> _]; [apply Hrs; set_solver|]. rewrite bind_Ret_l. assert (r < rows s) as Hr by (apply Hrs; set_solver).
  destruct (forallb is_space _) eqn:Hb.
  - destruct (IH n) as (m & -> & Hm & Hbl); [set_solver|done|]. exists m. split; [done|]. split; [lia|]. intros r' [->|Hr']%elem_of_cons Hlt; [by apply forallb_blank|by apply Hbl].
  - destruct (IH (Nat.max n r)) as (m & -> & Hm & Hbl); [set_solver|lia|]. exists m. split; [done|]. split; [lia|]. intros r' [->|Hr']%elem_of_cons Hlt; [lia|by apply Hbl].
Qed.

(** The rows from [r] on, one after the other, are the cells from there on. *)
Lemma rows_concat (l : list Cell) c n : forall r, c * (r + n) <= length l ->
  concat ((fun r => take c (drop (r * c) l)) <$> seq r n) = take (n * c) (drop (r * c) l).
Proof.
  induction n as [|n IH]; intros r Hl; [done|]. cbn [seq fmap list_fmap concat]. change (list_fmap _ _ ?f (seq (S r) n)) with (f <$> seq (S r) n).
  rewrite IH by lia. replace (S n * c) with (c + n * c) by lia. rewrite <- take_take_drop, drop_drop. do 3 f_equal. lia.
Qed.

Lemma blank_concat (ls : list (list Cell)) : Forall blank ls -> blank (concat ls).
Proof. induction 1 as [|l ls Hl _ IH]; [constructor|]. cbn. by apply blank_app. Qed.

Lemma last_content_row_ok s : screen_ok s -> exists m, last_content_row s = Ret m /\ m < rows s /\ blank (drop (S m * cols s) (cells s)).
Proof.
  intros Hok. pose proof Hok as (H1 & H2 & H3 & H4 & H5 & _). unfold last_content_row.
  destruct (content_row_ok s Hok (seq 0 (rows s)) (row s)) as (m & -> & Hm & Hb); [intros r Hr%elem_of_seq; lia|done|]. exists m. split; [done|]. split; [lia|].
  assert (drop (S m * cols s) (cells s) = concat ((fun r => take (cols s) (drop (r * cols s) (cells s))) <$> seq (S m) (rows s - S m))) as ->.
  { rewrite rows_concat by nia. rewrite take_ge; [done|]. rewrite length_drop, H3. nia. }
  apply blank_concat, Forall_fmap, Forall_forall. intros r Hr%elem_of_seq. apply Hb; [apply elem_of_seq; lia|lia].
Qed.

Lemma physical_rows_ok s last : screen_ok s -> forall rs, (forall r, r ∈ rs -> r < rows s) ->
  exists w, physical_rows s rs last = Ret w /\ fst <$> w = (fun r => take (cols s) (drop (r * cols s) (cells s))) <$> rs.
Proof.
  intros Hok. induction rs as [|r rs IH]; intros Hrs; cbn [physical_rows]; [by exists []|]. assert (r < rows s) as Hr by (apply Hrs; set_solver).
  destruct (row_cells_ret s r Hok Hr) as [-> _]. rewrite bind_Ret_l. destruct (soft_some s r Hok Hr) as [b ->]. cbn [unwrap]. rewrite bind_Ret_l.
  destruct IH as (w & -> & Hw); [set_solver|]. rewrite bind_Ret_l. eexists. split; [reflexivity|]. by rewrite !fmap_cons, Hw.
Qed.

Lemma collect_physical_ok s : screen_ok s -> exists w, collect_physical s = Ret w /\ ink (concat (fst <$> w)) = letters s.
Proof.
  intros Hok. unfold collect_physical. destruct (last_content_row_ok s Hok) as (m & -> & Hm & Hb). rewrite bind_Ret_l.
  destruct (physical_rows_ok s m Hok (seq 0 (S m))) as (w & -> & Hw); [intros r Hr%elem_of_seq; lia|]. rewrite bind_Ret_l. eexists. split; [reflexivity|].
  rewrite fmap_app, ink_concat_app, Hw. unfold letters. f_equal.
  - rewrite <- list_fmap_compose. f_equal. f_equal. pose proof Hok as (_ & _ & _ & _ & _ & _ & _ & H8 & _). induction H8 as [|l sb Hl _ IH]; [done|].
    rewrite !fmap_cons, IH. f_equal. unfold compose. cbn. unfold vec_resize. rewrite take_ge, Hl, Nat.sub_diag by lia. apply app_nil_r.
  - destruct Hok as (_ & _ & H3 & _). rewrite rows_concat by nia. rewrite drop_0. rewrite <- (take_drop (S m * cols s) (cells s)) at 2. by rewrite ink_app, (ink_blank _ Hb), app_nil_r.
Qed.

Lemma place_rows_ok c R : forall l r cs sf at_row at_col, length cs = c * R -> length sf = R -> r + length l <= R -> Forall (fun x => length x.1 = c) l -> at_row < R ->
  exists sf' at_row' at_col', place_rows c r l cs sf at_row at_col = Ret (take (r * c) cs ++ concat (fst <$> l) ++ drop ((r + length l) * c) cs, sf', at_row', at_col') /\
    length sf' = R /\ at_row' < R.
Proof.
  induction l as [|[line b] l IH]; intros r cs sf at_row at_col Hcs Hsf Hr Hl Har; cbn [place_rows].
  - exists sf, at_row, at_col. cbn. rewrite Nat.add_0_r, take_drop. done.
  - apply Forall_cons in Hl as [Hline Hl]. cbn in Hline, Hr. rewrite Hline, Nat.min_id. unfold slice. destruct (Nat.leb_spec (r * c + c) (length cs)) as [_|]; [|nia].
    destruct (Nat.leb_spec (r * c) (r * c + c)) as [_|]; [|lia]. cbn [andb]. rewrite bind_Ret_l. unfold nth_set. destruct (Nat.ltb_spec r (length sf)) as [_|]; [|lia]. rewrite bind_Ret_l.
    rewrite (take_ge line) by lia. set (cs1 := take (r * c) cs ++ line ++ drop (r * c + c) cs).
    assert (length (take (r * c) cs) = r * c) as Ht by (rewrite length_take; nia).
    destruct (IH (S r) cs1 (<[r:=b]> sf) r (Nat.min (length (trim_cells line)) c)) as (sf' & ar & ac & -> & H1 & H2); [| |lia|done|lia|].
    { unfold cs1. rewrite !length_app, length_drop, Ht, Hline. nia. }
    { by rewrite length_insert. }
    exists sf', ar, ac. split; [|done]. do 4 f_equal. rewrite fmap_cons. cbn [concat fst].
    assert (take (S r * c) cs1 = take (r * c) cs ++ line) as ->. { unfold cs1. rewrite app_assoc. apply take_app_length'. rewrite length_app. lia. }
    assert (drop ((S r + length l) * c) cs1 = drop ((r + length ((line, b) :: l)) * c) cs) as ->.
    { unfold cs1. rewrite app_assoc, drop_app_ge by (rewrite length_app; lia). rewrite drop_drop, length_app, Ht, Hline. f_equal. cbn. lia. }
    by rewrite <- !app_assoc.
Qed.

Lemma ink_drop_rows (n : nat) (w : Wrapped) : ink (concat (fst <$> drop n w)) `suffix_of` ink (concat (fst <$> w)).
Proof. rewrite <- (take_drop n w) at 2. rewrite fmap_app, ink_concat_app. by eexists. Qed.

(** The rows of the resized screen: the last of them on the screen, the ones before in the scrollback. *)
Lemma resized_ok s w c r e : 1 <= c -> 1 <= r -> rows_ok c w e -> length w <= SCROLLBACK_MAX + r ->
  exists cs sf at_row at_col, let split := length w - Nat.min (length w) r in
    place_rows c 0 (drop split w) (replicate (c * r) empty) (replicate r false) 0 0 = Ret (cs, sf, at_row, at_col) /\
    let s' := s <| scrollback := (fun x => mkLine x.1 x.2) <$> take split w |> <| cells := cs |> <| row_soft := sf |> <| cols := c |> <| rows := r |>
         <| row := Nat.min at_row (r - 1) |> <| col := if Nat.min at_col c =? c then c - 1 else Nat.min at_col c |> <| view_off := 0 |> <| dirty := true |> in
    screen_ok s' /\ letters s' = e.
Proof.
  intros Hc Hr [H1 H2] Hlen. cbv zeta. set (split := length w - Nat.min (length w) r). assert (length (drop split w) <= r) as Hd by (rewrite length_drop; lia).
  destruct (place_rows_ok c r (drop split w) 0 (replicate (c * r) empty) (replicate r false) 0 0) as (sf & ar & ac & -> & Hsf & Har);
    [apply length_replicate|apply length_replicate|lia|by apply Forall_drop|lia|].
  eexists _, sf, ar, ac. split; [reflexivity|]. assert (length (concat (fst <$> drop split w)) = c * length (drop split w)) as Hcl.
  { generalize (Forall_drop _ split _ H1). generalize (drop split w). clear. intros l Hl. induction Hl as [|x l Hx _ IH]; [cbn; lia|]. rewrite fmap_cons. cbn [concat length]. rewrite length_app. lia. }
  change (take (0 * c) (replicate (c * r) empty)) with (@nil Cell). cbn [app]. rewrite drop_replicate. split.
  - unfold screen_ok. cbn -[drop take]. rewrite length_fmap, length_take, length_app, length_replicate, Hcl. split_and!; try done; try lia; try nia.
    + case_match eqn:E; [apply Nat.eqb_eq in E; lia|lia].
    + apply Forall_fmap. by apply Forall_take.
  - unfold letters. cbn -[drop take]. rewrite !ink_app, ink_empty, app_nil_r, <- list_fmap_compose, <- H2. rewrite <- (take_drop split w) at 3. rewrite fmap_app, ink_concat_app. done.
Qed.

Lemma resize_ok s c r : screen_ok s -> fits c r ->
  exists s', resize s c r = Ret s' /\ screen_ok s' /\ cols s' = Nat.max c 1 /\ rows s' = Nat.max r 1 /\
    letters s' `suffix_of` letters s /\ (length (scrollback s') < SCROLLBACK_MAX -> letters s' = letters s).
Proof.
  intros Hok Hfit. unfold resize. rewrite usize_mul_fits by done. destruct ((Nat.max c 1 =? cols s) && (Nat.max r 1 =? rows s)) eqn:E.
  { apply andb_true_iff in E as [E1%Nat.eqb_eq E2%Nat.eqb_eq]. exists s. by split_and!. }
  clear E. set (c' := Nat.max c 1). set (r' := Nat.max r 1). destruct (collect_physical_ok s Hok) as (phys & -> & Hphys). rewrite bind_Ret_l.
  set (logical := match unwrap_rows phys [] with [] => [[]] | l => l end). set (w0 := logical ≫= fun line => wrap_words line c').
  assert (rows_ok c' w0 (letters s)) as [Hw1 Hw2].
  { assert (ink (concat logical) = letters s) as <-; [|apply wrap_all_ok; lia]. rewrite <- Hphys. pose proof (unwrap_rows_ink phys []) as Hu. change (ink []) with (@nil Z) in Hu. cbn [app] in Hu. rewrite <- Hu. unfold logical. by case_match. }
  set (w := drop (length w0 - (SCROLLBACK_MAX + r')) w0). destruct (resized_ok s w c' r' (ink (concat (fst <$> w)))) as (cs & sf & ar & ac & -> & Hok' & Ht');
    [lia|lia|split; [by apply Forall_drop|done]|unfold w; rewrite length_drop; lia|]. rewrite bind_Ret_l. eexists. split; [reflexivity|]. split; [exact Hok'|].
  split; [done|]. split; [done|]. rewrite Ht', <- Hw2. split; [apply ink_drop_rows|]. cbn [scrollback]. intros Hlt. change (length ((fun x => mkLine x.1 x.2) <$> take (length w - Nat.min (length w) r') w) < SCROLLBACK_MAX) in Hlt.
  rewrite length_fmap, length_take in Hlt. unfold w in *. rewrite length_drop in Hlt. replace (length w0 - (SCROLLBACK_MAX + r')) with 0 by lia. by rewrite drop_0.
Qed.

(** Resizing keeps the text: whatever the new width and height, the
    characters of the scrollback and the screen, read in order and without the
    spaces, are the ones that were there; only when the scrollback is full
    afterwards may the oldest of them be gone. The result is a consistent
    screen of the size asked for, and no index of it is out of range. *)
Theorem resize_keeps_letters s c r : screen_ok s -> fits c r ->
  exists s', resize s c r = Ret s' /\ screen_ok s' /\ cols s' = Nat.max c 1 /\ rows s' = Nat.max r 1 /\
    letters s' `suffix_of` letters s /\ (length (scrollback s') < SCROLLBACK_MAX -> letters s' = letters s).
Proof. apply resize_ok. Qed.

(** ** The terminal *)

Lemma screen_new_ok c r : fits c r -> screen_ok (screen_new c r).
Proof. intros Hf. unfold screen_ok. cbn -[Nat.max replicate usize_mul]. rewrite !length_replicate, usize_mul_fits by done. split_and!; try done; lia. Qed.

Lemma clear_ok s : screen_ok s -> screen_ok (clear s).
Proof.
  intros (H1 & H2 & H3 & H4 & H5 & H6 & H7 & H8 & H9). unfold screen_ok. cbn -[replicate]. rewrite ?length_fmap, ?length_replicate. split_and!; try done; lia.
Qed.

Lemma scroll_view_ok s delta : screen_ok s -> screen_ok (scroll_view s delta).
Proof.
  intros (H1 & H2 & H3 & H4 & H5 & H6 & H7 & H8 & H9). unfold scroll_view. case_match; [by split_and!|]. unfold screen_ok. cbn. split_and!; try done. lia.
Qed.

(** The view moves by what is asked for, within the scrollback. *)
Lemma scroll_view_exact s delta : screen_ok s -> (- 2 ^ 31 <= delta < 2 ^ 31 - 256)%Z ->
  (Z.of_nat (view_off (scroll_view s delta)) = Z.max 0 (Z.min (Z.of_nat (view_off s) + delta) (Z.of_nat (length (scrollback s)))))%Z.
Proof.
  intros (_ & _ & _ & _ & _ & _ & H7 & _ & H9) Hd. unfold SCROLLBACK_MAX in H7. unfold scroll_view, wrap_i32. rewrite Z.mod_small by lia.
  case_match eqn:E; [apply Nat.eqb_eq in E; lia|]. cbn. lia.
Qed.

(** The operations of [Terminal]. *)
Inductive op := Output (l : list report) | Clear | Resize (c r : nat) | Scroll (delta : Z).
Definition run s (o : op) : outcome Screen :=
  match o with Output l => process s l | Clear => Ret (clear s) | Resize c r => resize s c r | Scroll d => Ret (scroll_view s d) end.
Fixpoint runs s (l : list op) : outcome Screen := match l with [] => Ret s | o :: l => s ← run s o; runs s l end.
Definition in_range (o : op) : Prop := match o with Resize c r => fits c r | _ => True end.

Lemma runs_ok l : Forall in_range l -> forall s, screen_ok s -> ok_ret (runs s l).
Proof.
  induction 1 as [|o l Ho _ IH]; intros s Hok; [by apply ok_Ret|]. cbn [runs]. assert (ok_ret (run s o)) as (s' & -> & Hs'); [|rewrite bind_Ret_l; by apply IH].
  destruct o as [r| |c r|d]; cbn [run]; [by apply process_ok|by apply ok_Ret, clear_ok| |by apply ok_Ret, scroll_view_ok].
  destruct (resize_ok s c r Hok Ho) as (s' & H1 & H2 & _). by exists s'.
Qed.

Lemma visible_row s r : screen_ok s -> r < rows s -> exists line, cells_for_abs s (view_start s + r) = Ret line /\ length line = cols s.
Proof.
  intros Hok Hr. pose proof Hok as (H1 & H2 & H3 & H4 & H5 & H6 & H7 & H8 & H9). unfold cells_for_abs. destruct (scrollback s !! _) as [l|] eqn:E.
  - eexists. split; [reflexivity|]. unfold vec_resize. rewrite length_app, length_take, length_replicate. lia.
  - apply lookup_ge_None in E. case_match; [eexists; split; [reflexivity|apply length_replicate]|]. eexists. apply (row_cells_ret s (view_start s + r - length (scrollback s)) Hok). unfold view_start in *. lia.
Qed.

(** C32. The terminal stays within its bounds: from a new terminal of fewer than
    2^31 cells, whatever output it is given (text, control characters, escape
    sequences with any parameters), however it is cleared, scrolled and resized
    to such sizes, no index is ever out of range; the cells are always the width times the
    height, the cursor is on the screen (at most one column past the end of
    its row), the scrollback has at most 256 lines, each of the width of the
    screen, and every row of the view, wherever it is scrolled to, has the
    width of the screen. *)
Theorem terminal_in_bounds c r l : fits c r -> Forall in_range l ->
  exists s, runs (screen_new c r) l = Ret s /\ length (cells s) = cols s * rows s /\ row s < rows s /\ col s <= cols s /\
    length (scrollback s) <= 256 /\ view_off s <= length (scrollback s) /\
    forall i, i < rows s -> exists line, cells_for_abs s (view_start s + i) = Ret line /\ length line = cols s.
Proof.
  intros Hf Hl. destruct (runs_ok l Hl _ (screen_new_ok c r Hf)) as (s & E & Hok). exists s. pose proof Hok as (_ & _ & H3 & _ & H5 & H6 & H7 & _ & H9).
  split_and!; try done. intros i Hi. by apply visible_row.
Qed.

(** ** Concrete screens *)

Definition str (s : String.string) : list report := Print <$> (Z.of_N ∘ Ascii.N_of_ascii <$> String.list_ascii_of_string s).
Definition newline : list report := [Execute 0x0A].

Lemma printed_text_kept_witness :
  exists s', perform_all (screen_new 8 2) (str "a long line" ++ newline ++ str "x") = Ret s' /\ screen_ok s' /\ at_end s' /\
    keeps (screen_new 8 2) s' ((str "a long line" ++ newline ++ str "x") ≫= printed).
Proof.
  apply (printed_text_kept (str "a long line" ++ newline ++ str "x") (screen_new 8 2)); [by apply screen_new_ok|apply Forall_drop, blank_empty|].
  apply Forall_app; split; [by repeat constructor|]. by repeat constructor.
Defined.

Lemma resize_keeps_letters_witness :
  exists s', resize (screen_new 80 25) 20 5 = Ret s' /\ screen_ok s' /\ cols s' = Nat.max 20 1 /\ rows s' = Nat.max 5 1 /\
    letters s' `suffix_of` letters (screen_new 80 25) /\ (length (scrollback s') < SCROLLBACK_MAX -> letters s' = letters (screen_new 80 25)).
Proof. by apply (resize_keeps_letters (screen_new 80 25) 20 5); [apply screen_new_ok|]. Defined.

Lemma terminal_in_bounds_witness :
  exists s, runs (screen_new 4 2) [Output (str "some text"); Scroll 8; Resize 3 3; Clear] = Ret s /\ length (cells s) = cols s * rows s /\ row s < rows s /\ col s <= cols s /\
    length (scrollback s) <= 256 /\ view_off s <= length (scrollback s) /\
    forall i, i < rows s -> exists line, cells_for_abs s (view_start s + i) = Ret line /\ length line = cols s.
Proof. apply terminal_in_bounds; [by vm_compute|]. repeat constructor; vm_compute; done. Defined.

Definition shown (m : outcome Screen) : option (list (list Z)) :=
  match m with Ret s => Some ((fun r => match row_string s r with Ret l => l | Panic => [] end) <$> seq 0 (rows s)) | Panic => None end.

(** A word that fills the row moves to the next one as a whole. *)
Example word_wrapped : shown (process (screen_new 5 2) (str "ab cdef")) = Some [[97; 98]; [99; 100; 101; 102]]%Z.
Proof. reflexivity. Qed.

(** Without the bound on the size the number of cells wraps around: a screen of
    2^16 times 2^16 has no cell, and the first character is out of range. *)
Lemma put_no_cells c s : cells s = [] -> col s < cols s -> put c s = Panic.
Proof.
  intros E H. destruct s as [co ro cl sf sb vo rw cc f b i a d]. cbn in E, H. subst cl. unfold put. cbn. destruct (Nat.leb_spec co cc); [lia|]. by destruct i.
Qed.
Lemma huge_screen_panics c : let n := Z.to_nat (2 ^ 16) in cells (screen_new n n) = [] /\ put c (screen_new n n) = Panic.
Proof.
  set (n := Z.to_nat (2 ^ 16)). cbv zeta. assert (Nat.max n 1 = n) as Hn by lia. assert (cells (screen_new n n) = []) as E.
  { unfold screen_new. rewrite Hn. cbn [cells]. unfold usize_mul. replace (Z.of_nat n) with (2 ^ 16)%Z by lia. done. }
  split; [done|]. apply put_no_cells; [done|]. unfold screen_new. cbn [col cols]. lia.
Qed.

(** The cursor after a resize is never past the last column: when the last
    row is full, it is on its last character, and the next character printed
    replaces it. *)
Lemma resize_cursor_on_text :
  shown (runs (screen_new 4 2) [Output (str "abcd"); Resize 4 3; Output (str "e")]) = Some [[97; 98; 99; 101]; []; []]%Z /\
  shown (runs (screen_new 4 3) [Output (str "abcd"); Output (str "e")]) = Some [[97; 98; 99; 100]; [101]; []]%Z.
Proof. split; reflexivity. Qed.

(** "Erase to the start of the line" erases one cell too many when the cursor
    is past the last column: the first one of the next row. *)
Lemma erase_reaches_next_row :
  shown (process (screen_new 3 2) (str "abc" ++ newline ++ str "xyz" ++ [Csi [] false 0x48] ++ str "def" ++ [Csi [[1]] false 0x4B])) = Some [[]; [32; 121; 122]]%Z.
Proof. reflexivity. Qed.

(** Two lines are joined by a resize when the first fills its row. *)
Lemma resize_joins_lines :
  shown (runs (screen_new 3 2) [Output (str "abc" ++ newline ++ str "de"); Resize 8 2]) = Some [[97; 98; 99; 32; 100; 101]; []]%Z.
Proof. reflexivity. Qed.
