(* ===== verification/Locks.v ===== *)
(** * Locks

    The locks of the kernel and of user space, as steps of threads that
    interleave freely: the futex mutex of [lib/src/mutex.rs], the spin lock of
    [kernel/src/spin/mod.rs] on CPUs that take interrupts, the interrupt guard
    and the lazy cell of [interrupt-sync/src/lib.rs].  One step is one atomic
    access or one instruction that changes the interrupt flag; the memory
    orders of the accesses make the steps sequentially consistent for these
    single-word protocols. *)

From S2P Require Import Prelude.

(** ** Threads at program points *)

Section Threads.
  Context {P : Type} `{EqDecision P}.

(** Thread [t] moves to point [q]. *)
Definition goto (t : nat) (q : P) (l : list P) : list P := <[t := q]> l.
Definition at_point (l : list P) (t : nat) (q : P) : Prop := l !! t = Some q.

Lemma goto_self l t p q : at_point l t p -> at_point (goto t q l) t q.
Proof. intros H. unfold at_point, goto. apply list_lookup_insert_eq. by apply lookup_lt_Some in H. Qed.
Lemma goto_other l t u q : u <> t -> at_point (goto t q l) u = at_point l u.
Proof. intros H. unfold at_point, goto. by rewrite list_lookup_insert_ne. Qed.
Lemma goto_cases l t u q r : at_point (goto t q l) u r -> (u = t /\ r = q) \/ (u <> t /\ at_point l u r).
Proof.
  unfold at_point, goto. intros H. destruct (decide (u = t)) as [->|Hne]; [|right; by rewrite list_lookup_insert_ne in H].
  left. split; [done|]. apply list_lookup_insert_Some in H as [(_ & <- & _)|(? & _)]; done.
Qed.
Lemma at_point_inj l t p q : at_point l t p -> at_point l t q -> p = q.
Proof. unfold at_point. congruence. Qed.
End Threads.

(** ** The futex mutex *)

Module UserMutex.

(** Where a thread is: outside; before the [compare_exchange] of [try_lock],
    called on its own or by [lock]; before the load of the state; at the top
    of the loop with its local copy; before [futex_wait]; asleep in the
    kernel; with the guard; after the swap of [drop], before [futex_wake]. *)
Inductive pc : Type := Out | TryOnly | TryLock | Load | Loop (state : Z) | Wait | Sleep | Held | Wake.
#[global] Instance pc_eq_dec : EqDecision pc.
Proof. solve_decision. Defined.

Record Mutex : Type := mkMutex { state : Z; threads : list pc }.
#[global] Instance Mutex_eta : Eta Mutex := fun m => mkMutex (state m) (threads m).

(** What the program does not decide: a thread starts an operation, a weak
    exchange fails although the values agree, a wait ends without a wake-up,
    and which sleeper the kernel wakes. *)
Inductive choice : Type := Start (p : pc) | Go | Fail | Intr | Pick (t : nat).

Definition move m (t : nat) (s : Z) (q : pc) : Mutex := mkMutex s (goto t q (threads m)).

Definition new (n : nat) : Mutex := mkMutex 0 (replicate n Out).

(** The next atomic access of thread [t]. *)
Definition mutex_step (m : Mutex) (t : nat) (a : choice) : option Mutex :=
  p ← threads m !! t;
  match p, a with
  | Out, Start TryOnly => Some (move m t (state m) TryOnly)
  | Out, Start TryLock => Some (move m t (state m) TryLock)
  | TryOnly, Go => Some (if state m =? 0 then move m t 1 Held else move m t (state m) Out)
  | TryLock, Go => Some (if state m =? 0 then move m t 1 Held else move m t (state m) Load)
  | Load, Go => Some (move m t (state m) (Loop (state m)))
  | Loop s, Go =>
      Some (if s =? 0 then
              if state m =? 0 then move m t 2 Held else move m t (state m) (Loop (state m))
            else if negb (s =? 2) then
              if state m =? 0 then move m t 2 Held else move m t 2 Wait
            else move m t (state m) Wait)
  | Loop s, Fail => if s =? 0 then Some (move m t (state m) (Loop (state m))) else None
  | Wait, Go => Some (if state m =? 2 then move m t (state m) Sleep else move m t (state m) Load)
  | Wait, Intr => Some (move m t (state m) Load)
  | Sleep, Intr => Some (move m t (state m) Load)
  | Held, Go => Some (if state m =? 2 then move m t 0 Wake else move m t 0 Out)
  | Wake, Go => if bool_decide (Sleep ∈ threads m) then None else Some (move m t (state m) Out)
  | Wake, Pick u => if bool_decide (threads m !! u = Some Sleep) then Some (mkMutex (state m) (goto u Load (goto t Out (threads m)))) else None
  | _, _ => None
  end.

Definition steps : Mutex -> Mutex -> Prop := fun m m' => exists t a, mutex_step m t a = Some m'.
(** The threads only finish what they are in: no thread starts another
    operation, and the kernel lets a waiter go only for a wake-up. *)
Definition pending (a : choice) : bool := match a with Go | Fail | Pick _ => true | Start _ | Intr => false end.
Definition settles : Mutex -> Mutex -> Prop := fun m m' => exists t a, mutex_step m t a = Some m' /\ pending a = true.
Definition reachable m : Prop := exists n, rtc steps (new n) m.

(** A thread that goes on to take the lock with its contended mark, or to
    look at it again. *)
Definition contends (p : pc) : bool := match p with Load | Loop _ | Wait => true | _ => false end.

Record mutex_inv m : Prop := {
  mi_state : state m = 0 \/ state m = 1 \/ state m = 2;
  mi_owner : forall t u, at_point (threads m) t Held -> at_point (threads m) u Held -> t = u;
  mi_held : (exists t, at_point (threads m) t Held) <-> state m <> 0;
  mi_wake : forall t, at_point (threads m) t Sleep ->
    state m = 2 \/ exists u p, at_point (threads m) u p /\ (p = Wake \/ contends p = true)
}.

Lemma new_inv n : mutex_inv (new n).
Proof.
  assert (forall t p, at_point (replicate n Out) t p -> p = Out) as H by (by intros t p [? _]%lookup_replicate).
  split; cbn; [by left|..].
  - intros t u Ht. by apply H in Ht.
  - split; [intros [t Ht]; by apply H in Ht|done].
  - intros t Ht. by apply H in Ht.
Qed.

Definition wakeful m : Prop := forall t, at_point (threads m) t Sleep ->
  state m = 2 \/ exists u p, at_point (threads m) u p /\ (p = Wake \/ contends p = true).

Lemma wakeful_move m t p s q : wakeful m -> at_point (threads m) t p -> p <> Wake -> contends p = false -> q <> Sleep -> (state m = 2 -> s = 2) -> wakeful (move m t s q).
Proof.
  intros Hw Hp Hne Hc Hq Hs u Hu. cbn in *. destruct (goto_cases _ _ _ _ _ Hu) as [[_ ?]|[Hut Hu']]; [done|].
  destruct (Hw u Hu') as [?|(v & r & Hv & Hr)]; [left; auto|]. right. exists v, r. split; [|done]. rewrite goto_other; [done|].
  intros ->. pose proof (at_point_inj _ _ _ _ Hp Hv) as <-. destruct Hr; congruence.
Qed.

Lemma wakeful_by m t p s q : at_point (threads m) t p -> q = Wake \/ contends q = true -> wakeful (move m t s q).
Proof. intros Hp Hq u _. right. exists t, q. split; [by apply (goto_self _ _ p)|done]. Qed.

Lemma mutex_inv_keep m t p s q : mutex_inv m -> at_point (threads m) t p -> p <> Held -> q <> Held -> s = state m \/ s = 2 -> (s = 0 <-> state m = 0) ->
  wakeful (move m t s q) -> mutex_inv (move m t s q).
Proof.
  intros [H1 H2 H3 _] Hp Hne Hq Hs Hz Hw. split; cbn in *; [destruct Hs as [->| ->]; auto| | |exact Hw].
  - intros u v Hu Hv. destruct (goto_cases _ _ _ _ _ Hu) as [[_ ?]|[_ ?]]; [done|]. destruct (goto_cases _ _ _ _ _ Hv) as [[_ ?]|[_ ?]]; [done|]. by apply H2.
  - split; [intros [u Hu]|intros Hnz].
    + destruct (goto_cases _ _ _ _ _ Hu) as [[_ ?]|[_ ?]]; [done|]. rewrite Hz. apply H3. by exists u.
    + destruct (proj2 H3) as [u Hu]; [by rewrite <- Hz|]. exists u. rewrite goto_other; [done|]. intros ->. by pose proof (at_point_inj _ _ _ _ Hp Hu).
Qed.

Lemma mutex_inv_take m t p s : mutex_inv m -> at_point (threads m) t p -> state m = 0 -> s = 1 \/ s = 2 -> wakeful (move m t s Held) -> mutex_inv (move m t s Held).
Proof.
  intros [H1 H2 H3 _] Hp Hz Hs Hw. assert (forall u, ~ at_point (threads m) u Held) as Hno by (intros u Hu; apply H3; [by exists u|done]).
  split; cbn in *; [tauto| | |exact Hw].
  - intros u v Hu Hv. destruct (goto_cases _ _ _ _ _ Hu) as [[-> _]|[_ Hu']]; [|by destruct (Hno u)]. destruct (goto_cases _ _ _ _ _ Hv) as [[-> _]|[_ Hv']]; [done|by destruct (Hno v)].
  - split; [lia|]. intros _. exists t. by apply (goto_self _ _ p).
Qed.

Lemma mutex_inv_drop m t q : mutex_inv m -> at_point (threads m) t Held -> q <> Held -> wakeful (move m t 0 q) -> mutex_inv (move m t 0 q).
Proof.
  intros [H1 H2 H3 _] Hp Hq Hw. assert (forall u, ~ at_point (goto t q (threads m)) u Held) as Hno.
  { intros u Hu. destruct (goto_cases _ _ _ _ _ Hu) as [[_ ?]|[Hne Hu']]; [done|]. by apply Hne, H2. }
  split; cbn in *; [by left| | |exact Hw].
  - intros u v Hu. by apply Hno in Hu.
  - split; [intros [u Hu]; by apply Hno in Hu|done].
Qed.

Lemma pick_inv m t u : mutex_inv m -> at_point (threads m) t Wake -> at_point (threads m) u Sleep -> mutex_inv (mkMutex (state m) (goto u Load (goto t Out (threads m)))).
Proof.
  intros Hi Ht Hu. assert (u <> t) as Hne by (intros ->; by pose proof (at_point_inj _ _ _ _ Ht Hu)).
  set (l := goto u Load (goto t Out (threads m))). assert (forall v, at_point l v Held <-> at_point (threads m) v Held) as Hh.
  { intros v. split; intros Hv.
    - destruct (goto_cases _ _ _ _ _ Hv) as [[_ ?]|[_ Hv']]; [done|]. by destruct (goto_cases _ _ _ _ _ Hv') as [[_ ?]|[_ ?]].
    - assert (v <> t /\ v <> u) as [? ?] by (split; intros ->; [by pose proof (at_point_inj _ _ _ _ Ht Hv)|by pose proof (at_point_inj _ _ _ _ Hu Hv)]).
      unfold l. by rewrite !goto_other. }
  destruct Hi as [H1 H2 H3 _]. split; cbn; fold l; [done| | |].
  - intros v w. rewrite !Hh. apply H2.
  - rewrite <- H3. by setoid_rewrite Hh.
  - intros v _. right. exists u, Load. split; [|by right]. apply (goto_self _ _ Sleep). by rewrite goto_other.
Qed.

Lemma step_inv m t a m' : mutex_step m t a = Some m' -> mutex_inv m -> mutex_inv m'.
Proof.
  unfold mutex_step. intros H Hi. pose proof (mi_wake m Hi) as Hw. destruct (threads m !! t) as [p|] eqn:Hp; [|done]. cbn in H.
  assert (at_point (threads m) t p) as Ht by exact Hp. pose proof (mi_state m Hi) as Hst. 
  assert (forall q, q <> Held -> wakeful (move m t (state m) q) -> p <> Held -> mutex_inv (move m t (state m) q)) as Hk by (intros; apply (mutex_inv_keep m t p); auto; tauto).
  destruct p; destruct a as [[]| | | |u]; try discriminate H.
  - injection H as <-. apply Hk; [done|by eapply wakeful_move|done].
  - injection H as <-. apply Hk; [done|by eapply wakeful_move|done].
  - injection H as <-. destruct (Z.eqb_spec (state m) 0) as [E|E]; [apply (mutex_inv_take m t TryOnly); auto|apply Hk; try done]; eapply wakeful_move; try done. lia.
  - injection H as <-. destruct (Z.eqb_spec (state m) 0) as [E|E]; [apply (mutex_inv_take m t TryLock); auto|apply Hk; try done]; [eapply wakeful_move; try done; lia|]. eapply wakeful_by; eauto.
  - injection H as <-. apply Hk; [done|eapply wakeful_by; eauto|done].
  - injection H as <-. destruct (state0 =? 0); [|destruct (negb (state0 =? 2))]; [destruct (Z.eqb_spec (state m) 0) as [E|E]..|].
    + apply (mutex_inv_take m t (Loop state0)); auto. by left.
    + apply Hk; [done|eapply wakeful_by; eauto|done].
    + apply (mutex_inv_take m t (Loop state0)); auto. by left.
    + apply (mutex_inv_keep m t (Loop state0)); auto; [split; lia|]. eapply wakeful_by; eauto.
    + apply Hk; [done|eapply wakeful_by; eauto|done].
  - destruct (state0 =? 0); [|done]. injection H as <-. apply Hk; [done|eapply wakeful_by; eauto|done].
  - injection H as <-. destruct (Z.eqb_spec (state m) 2) as [E|E]; apply Hk; try done; [by left|eapply wakeful_by; eauto].
  - injection H as <-. apply Hk; [done|eapply wakeful_by; eauto|done].
  - injection H as <-. apply Hk; [done|eapply wakeful_by; eauto|done].
  - injection H as <-. destruct (Z.eqb_spec (state m) 2) as [E|E]; apply mutex_inv_drop; try done; [eapply wakeful_by; eauto|by eapply wakeful_move].
  - case_bool_decide as Hs; [done|]. injection H as <-. apply Hk; [done| |done]. intros u Hu. destruct Hs.
    destruct (goto_cases _ _ _ _ _ Hu) as [[_ ?]|[_ Hu']]; [done|]. by eapply list_elem_of_lookup_2.
  - case_bool_decide as Hs; [|done]. injection H as <-. by apply pick_inv.
Qed.

Lemma reachable_inv m : reachable m -> mutex_inv m.
Proof.
  intros [n H]. pose proof (new_inv n) as Hi. induction H as [m|m m1 m2 (t & a & Hs) _ IH]; [done|]. apply IH. by eapply step_inv.
Qed.

(** C30. The user-space mutex excludes: in every interleaving of any number of
    threads, with failing weak exchanges, interrupted waits and the kernel
    waking whom it likes, at most one thread has the guard, and the word is 0
    exactly when none has it. *)
Theorem user_mutex_exclusive m : reachable m ->
  (forall t u, threads m !! t = Some Held -> threads m !! u = Some Held -> t = u) /\ (state m = 0 <-> forall t, threads m !! t <> Some Held).
Proof.
  intros [H1 H2 H3 _]%reachable_inv. split; [apply H2|]. split; intros Hs.
  - intros t Ht. apply H3; [by exists t|done].
  - destruct (Z.eq_dec (state m) 0) as [|Hnz]; [done|]. apply H3 in Hnz as [t Ht]. by destruct (Hs t).
Qed.

(** *** Progress *)

Definition others (t : nat) m (m' : Mutex) : Prop := forall u p, u <> t -> at_point (threads m) u p -> at_point (threads m') u p.

Lemma others_move m t s q : others t m (move m t s q).
Proof. intros u p Hne Hu. cbn. by rewrite goto_other. Qed.

Lemma others_trans t m1 m2 m3 : others t m1 m2 -> others t m2 m3 -> others t m1 m3.
Proof. intros H1 H2 u p Hne Hu. apply H2; [done|]. by apply H1. Qed.

Lemma run_go m t a m1 m2 : mutex_step m t a = Some m1 -> pending a = true -> rtc settles m1 m2 -> rtc settles m m2.
Proof. intros H Ha Hr. eapply rtc_l; [|exact Hr]. by exists t, a. Qed.

(** A thread that goes on when the word is 0 gets the lock, marked contended. *)
Lemma take_from_load m t : state m = 0 -> at_point (threads m) t Load ->
  exists m', rtc settles m m' /\ at_point (threads m') t Held /\ state m' = 2 /\ others t m m'.
Proof.
  intros Hz Ht. set (m1 := move m t (state m) (Loop 0)). assert (at_point (threads m1) t (Loop 0)) as H1 by (by apply (goto_self _ _ Load)).
  exists (move m1 t 2 Held). split_and!.
  - apply (run_go m t Go m1); [unfold mutex_step, m1; rewrite Ht; cbn; by rewrite Hz|done|]. apply (run_go m1 t Go (move m1 t 2 Held)); [|done|apply rtc_refl].
    unfold mutex_step. rewrite H1. cbn. by rewrite Hz.
  - by apply (goto_self _ _ (Loop 0)).
  - done.
  - eapply others_trans; apply others_move.
Qed.

Lemma take_after m t p q m1 : mutex_step m t Go = Some (move m t (state m) q) -> state m = 0 -> at_point (threads m) t p -> m1 = move m t (state m) q ->
  (exists m', rtc settles m1 m' /\ at_point (threads m') t Held /\ state m' = 2 /\ others t m1 m') ->
  exists m', rtc settles m m' /\ at_point (threads m') t Held /\ state m' = 2 /\ others t m m'.
Proof.
  intros Hs Hz Ht -> (m' & H1 & H2 & H3 & H4). exists m'. split_and!; [by eapply run_go|done|done|]. eapply others_trans; [apply others_move|exact H4].
Qed.

Lemma take_from_wait m t : state m = 0 -> at_point (threads m) t Wait ->
  exists m', rtc settles m m' /\ at_point (threads m') t Held /\ state m' = 2 /\ others t m m'.
Proof.
  intros Hz Ht. apply (take_after m t Wait Load (move m t (state m) Load)); try done; [unfold mutex_step; rewrite Ht; cbn; by rewrite Hz|].
  apply take_from_load; [done|by apply (goto_self _ _ Wait)].
Qed.

Lemma take_contended m t p : state m = 0 -> at_point (threads m) t p -> contends p = true ->
  exists m', rtc settles m m' /\ at_point (threads m') t Held /\ state m' = 2 /\ others t m m'.
Proof.
  intros Hz Ht Hc. destruct p; try done; [by apply take_from_load| |by apply take_from_wait]. destruct (Z.eqb_spec state0 2) as [->|Hne].
  - apply (take_after m t (Loop 2) Wait (move m t (state m) Wait)); try done; [unfold mutex_step; by rewrite Ht|]. apply take_from_wait; [done|by apply (goto_self _ _ (Loop 2))].
  - exists (move m t 2 Held). split_and!; [|by apply (goto_self _ _ (Loop state0))|done|by apply others_move]. apply (run_go m t Go (move m t 2 Held)); [|done|apply rtc_refl].
    unfold mutex_step. rewrite Ht. cbn. rewrite Hz. destruct (state0 =? 0); [done|]. by destruct (Z.eqb_spec state0 2).
Qed.

Lemma release m t : at_point (threads m) t Held ->
  exists m', rtc settles m m' /\ state m' = 0 /\ at_point (threads m') t (if state m =? 2 then Wake else Out) /\ others t m m'.
Proof.
  intros Ht. exists (move m t 0 (if state m =? 2 then Wake else Out)). split_and!; [|done|by apply (goto_self _ _ Held)|by apply others_move].
  eapply (run_go m t Go); [|done|apply rtc_refl]. unfold mutex_step. rewrite Ht. cbn. by destruct (state m =? 2).
Qed.

Lemma take_woken m t u : state m = 0 -> at_point (threads m) u Wake -> at_point (threads m) t Sleep ->
  exists m', rtc settles m m' /\ at_point (threads m') t Held.
Proof.
  intros Hz Hu Ht. assert (t <> u) as Hne by (intros ->; by pose proof (at_point_inj _ _ _ _ Hu Ht)).
  set (m1 := mkMutex (state m) (goto t Load (goto u Out (threads m)))). destruct (take_from_load m1 t) as (m' & H1 & H2 & _); [done|apply (goto_self _ _ Sleep); by rewrite goto_other|].
  exists m'. split; [|done]. apply (run_go m u (Pick t) m1); [|done|done]. unfold mutex_step. rewrite Hu. cbn. by rewrite bool_decide_eq_true_2.
Qed.

Lemma obtain_free m t p : mutex_inv m -> state m = 0 -> at_point (threads m) t p -> p = TryLock \/ p = Sleep \/ contends p = true ->
  exists m', rtc settles m m' /\ at_point (threads m') t Held.
Proof.
  intros Hi Hz Ht [->|[->|Hc]].
  - exists (move m t 1 Held). split; [|by apply (goto_self _ _ TryLock)]. apply (run_go m t Go (move m t 1 Held)); [|done|apply rtc_refl]. unfold mutex_step. rewrite Ht. cbn. by rewrite Hz.
  - destruct (mi_wake m Hi t Ht) as [?|(u & p & Hu & [->|Hp])]; [lia|by eapply take_woken|].
    assert (t <> u) as Hne by (intros ->; pose proof (at_point_inj _ _ _ _ Hu Ht); by subst p).
    destruct (take_contended m u p Hz Hu Hp) as (m1 & Hr1 & Hu1 & Hs1 & Ho1). destruct (release m1 u Hu1) as (m2 & Hr2 & Hs2 & Hu2 & Ho2). rewrite Hs1 in Hu2.
    destruct (take_woken m2 t u Hs2 Hu2) as (m' & Hr3 & Ht3); [by apply Ho2, Ho1|]. exists m'. split; [|done]. etrans; [exact Hr1|]. by etrans.
  - destruct (take_contended m t p Hz Ht Hc) as (m' & H1 & H2 & _). by exists m'.
Qed.

(** C31. No wake-up of the user-space mutex is lost.  In every reachable state
    in which a thread sleeps in [lock] while the lock is free, some other
    thread is about to wake a sleeper or is itself inside [lock] and awake;
    and a thread inside [lock], asleep or not, can still get the lock when the
    threads only finish the operations they are in, that is without any thread
    starting another operation and without any wait ending but by a wake-up. *)
Theorem user_mutex_obtainable m t p : reachable m -> threads m !! t = Some p -> p = TryLock \/ p = Sleep \/ p = Held \/ contends p = true ->
  (p = Sleep -> state m = 0 -> exists u q, u <> t /\ threads m !! u = Some q /\ (q = Wake \/ contends q = true)) /\
  exists m', rtc settles m m' /\ threads m' !! t = Some Held.
Proof.
  intros Hr Ht Hp. pose proof (reachable_inv m Hr) as Hi. split.
  { intros -> Hz. destruct (mi_wake m Hi t Ht) as [?|(u & q & Hu & Hq)]; [lia|]. exists u, q. split; [|done].
    intros ->. pose proof (at_point_inj _ _ _ _ Ht Hu) as <-. by destruct Hq. }
  destruct (decide (p = Held)) as [->|Hne]; [exists m; by split|].
  assert (p = TryLock \/ p = Sleep \/ contends p = true) as Hp' by tauto. destruct (Z.eq_dec (state m) 0) as [Hz|Hnz]; [by apply (obtain_free m t p)|].
  destruct (proj2 (mi_held m Hi) Hnz) as [o Ho]. destruct (release m o Ho) as (m1 & Hr1 & Hs1 & _ & Ho1).
  assert (t <> o) as Hto by (intros ->; by pose proof (at_point_inj _ _ _ _ Ho Ht)).
  destruct (obtain_free m1 t p) as (m' & H1 & H2); [|done|by apply Ho1|done|exists m'; split; [by etrans|done]].
  apply reachable_inv. destruct Hr as [n Hn]. exists n. etrans; [exact Hn|]. clear -Hr1. induction Hr1 as [|x y z (u & a & Hxy & _) _ IH]; [done|]. eapply rtc_l; [by exists u, a|done].
Qed.
End UserMutex.

(** ** The spin lock of the kernel *)

Module SpinLock.

(** Where [lock] or [try_lock] is: after [pushfd], before [cli]; before the
    exchange; and at the end of a failed [try_lock] or of [drop], before
    [leave_irq_guard].  [r] is [restore_interrupts]. *)
Inductive phase : Type := Run | Flags (l : nat) (r try : bool) | Spin (l : nat) (r try : bool) | Leave (r : bool).

(** An execution on a CPU, a task or an interrupt handler, with its guards:
    the lock and [restore_interrupts] of each, the newest first. *)
Record Context : Type := mkCtx { guards : list (nat * bool); at_ : phase }.
(** The interrupt flag of a CPU and its contexts, the running one first. *)
Record Cpu : Type := mkCpu { iflag : bool; ctxs : list Context }.
Record System : Type := mkSystem { locked : gset nat; cpus : list Cpu }.

(** What a context does next: acquire a lock, go on, drop its [k]-th guard;
    an interrupt arrives or its handler returns. *)
Inductive act : Type := Acquire (l : nat) (try : bool) | Next | Drop (k : nat) | Irq | Iret.
#[global] Instance act_eq_dec : EqDecision act.
Proof. solve_decision. Defined.

Section Steps.
  (** The constant of [RawMutex]: [KMutex] disables interrupts. *)
  Variable INT : bool.

Definition enter_irq_guard (f : bool) (l : nat) (try : bool) : phase := if negb INT then Spin l false try else Flags l f try.
Definition leave_irq_guard (f restore_interrupts : bool) : bool := if INT && restore_interrupts then true else f.

Definition cpu_step (lk : gset nat) (c : Cpu) (a : act) : option (gset nat * Cpu) :=
  match ctxs c with
  | [] => None
  | x :: rest =>
      let f := iflag c in
      let run f p := Some (lk, mkCpu f (mkCtx (guards x) p :: rest)) in
      match a, at_ x with
      | Acquire l try, Run => run f (enter_irq_guard f l try)
      | Next, Flags l r try => run (if r then false else f) (Spin l r try)
      | Next, Spin l r try =>
          if bool_decide (l ∈ lk) then run f (if try : bool then Leave r else Spin l r try)
          else Some ({[l]} ∪ lk, mkCpu f (mkCtx ((l, r) :: guards x) Run :: rest))
      | Next, Leave r => run (leave_irq_guard f r) Run
      | Drop k, Run =>
          '(l, r) ← guards x !! k;
          Some (lk ∖ {[l]}, mkCpu f (mkCtx (take k (guards x) ++ drop (S k) (guards x)) (Leave r) :: rest))
      | Irq, _ => if f then Some (lk, mkCpu false (mkCtx [] Run :: x :: rest)) else None
      | Iret, Run => match guards x, rest with [], _ :: _ => Some (lk, mkCpu true rest) | _, _ => None end
      | _, _ => None
      end
  end.

Definition sys_step (s : System) (i : nat) (a : act) : option System :=
  c ← cpus s !! i;
  '(lk, c) ← cpu_step (locked s) c a;
  Some (mkSystem lk (<[i := c]> (cpus s))).

(** Guards end with their scope: the newest is dropped first. *)
Definition scoped (a : act) : Prop := match a with Drop k => k = 0%nat | _ => True end.
Definition sys_steps : System -> System -> Prop := fun s s' => exists i a, sys_step s i a = Some s' /\ scoped a.

(** The CPUs start with no lock held and their interrupt flags as they are. *)
Definition boot (ifs : list bool) : System := mkSystem ∅ ((fun f => mkCpu f [mkCtx [] Run]) <$> ifs).
Definition booted (ifs : list bool) (s : System) : Prop := rtc sys_steps (boot ifs) s.
End Steps.

(** The locks held on a CPU and in the system. *)
Definition cpu_held (c : Cpu) : list nat := ctxs c ≫= fun x => (guards x).*1.
Definition held (s : System) : list nat := cpus s ≫= cpu_held.

(** Only the oldest guard of a context restores interrupts, as they were when
    the context started. *)
Fixpoint chain (base : bool) (g : list (nat * bool)) : Prop :=
  match g with [] => True | [(_, r)] => r = base | (_, r) :: g => r = false /\ chain base g end.
Definition unguarded (base : bool) (g : list (nat * bool)) : bool := match g with [] => base | _ => false end.

Definition ctx_ok (base f : bool) (x : Context) : Prop :=
  chain base (guards x) /\
  match at_ x with
  | Run => f = unguarded base (guards x)
  | Flags _ r _ => f = unguarded base (guards x) /\ r = f
  | Spin _ r _ | Leave r => f = false /\ r = unguarded base (guards x)
  end.

(** A CPU runs its task, or one handler over the task it interrupted. *)
Definition cpu_ok (base : bool) (c : Cpu) : Prop :=
  match ctxs c with
  | [x] => ctx_ok base (iflag c) x
  | [h; x] => ctx_ok false (iflag c) h /\ ctx_ok base true x
  | _ => False
  end.

Lemma chain_push base g l : chain base g -> chain base ((l, unguarded base g) :: g).
Proof. by destruct g as [|[l' r'] g]. Qed.
Lemma chain_pop base g l r : chain base ((l, r) :: g) -> chain base g /\ r = unguarded base g.
Proof. destruct g as [|[l' r'] g]; [done|]. intros [H1 H2]. done. Qed.

(** The step of the running context. *)
Lemma ctx_step_ok base lk f x rest a lk' c' : a <> Irq -> a <> Iret -> scoped a -> ctx_ok base f x -> cpu_step true lk (mkCpu f (x :: rest)) a = Some (lk', c') ->
  exists x', ctxs c' = x' :: rest /\ ctx_ok base (iflag c') x'.
Proof.
  intros Hq Hr Hsc [Hch Hp] H. destruct x as [g p]. unfold cpu_step in H. cbn in *. destruct a as [l try| |k| |], p as [|l' r' try'|l' r' try'|r']; try done.
  - injection H as <- <-. eexists. split; [done|]. by split.
  - injection H as <- <-. eexists. split; [done|]. destruct Hp as [-> ->]. split; [done|]. cbn. by destruct (unguarded base g).
  - case_bool_decide; injection H as <- <-; eexists; (split; [done|]); destruct Hp as [-> ->].
    + split; [done|]. by destruct try'.
    + split; [by apply chain_push|done].
  - injection H as <- <-. eexists. split; [done|]. destruct Hp as [-> ->]. split; [done|]. cbn. by destruct (unguarded base g).
  - cbn in Hsc. subst k. destruct g as [|[l r] g]; [done|]. cbn in H. injection H as <- <-. eexists. split; [done|]. apply chain_pop in Hch as [Hch ->]. split; [done|]. by rewrite Hp.
Qed.

Lemma cpu_step_ok base lk c a lk' c' : scoped a -> cpu_ok base c -> cpu_step true lk c a = Some (lk', c') -> cpu_ok base c'.
Proof.
  intros Hsc Hok H. destruct c as [f [|x rest]]; [done|]. unfold cpu_ok in Hok. cbn in Hok. destruct (decide (a = Irq \/ a = Iret)) as [[->| ->]|Hne].
  - unfold cpu_step in H. cbn in H. destruct f; [|done]. injection H as <- <-. destruct rest as [|y [|z rest]]; [..|done].
    + unfold cpu_ok. cbn. split; [by split|done].
    + destruct Hok as [[_ Hx] _]. destruct (at_ x), (guards x); naive_solver.
  - unfold cpu_step in H. cbn in H. destruct x as [g p]. cbn in H. destruct p; try done. destruct g; [|done]. destruct rest as [|y rest]; [done|]. injection H as <- <-.
    destruct rest; [|done]. destruct Hok as [_ Hy]. exact Hy.
  - destruct rest as [|y [|z rest]]; [| |done].
    + destruct (ctx_step_ok base lk f x [] a lk' c') as (x' & Hc & Hx'); [tauto|tauto|done|done|done|]. unfold cpu_ok. by rewrite Hc.
    + destruct Hok as [Hx Hy]. destruct (ctx_step_ok false lk f x [y] a lk' c') as (x' & Hc & Hx'); [tauto|tauto|done|done|done|]. unfold cpu_ok. by rewrite Hc.
Qed.

(** The locks held by the others do not change with a step of one CPU. *)
Lemma held_insert s i c : cpus s !! i = Some c -> exists rest, held s ≡ₚ cpu_held c ++ rest /\ forall lk c', held (mkSystem lk (<[i := c']> (cpus s))) ≡ₚ cpu_held c' ++ rest.
Proof.
  intros Hi. unfold held. destruct s as [lk0 cs]. cbn in *. exists ((take i cs ++ drop (S i) cs) ≫= cpu_held). split.
  - rewrite <- (take_drop_middle cs i c Hi) at 1. rewrite !bind_app, bind_cons. by rewrite Permutation_app_swap_app.
  - intros lk c'. rewrite insert_take_drop by (by apply lookup_lt_Some in Hi). rewrite !bind_app, bind_cons. by rewrite Permutation_app_swap_app.
Qed.

Definition exact (lk : gset nat) (h : list nat) : Prop := NoDup h /\ forall l, l ∈ h <-> l ∈ lk.

Lemma cpu_step_held INT lk c a lk' c' rest : cpu_step INT lk c a = Some (lk', c') -> exact lk (cpu_held c ++ rest) -> exact lk' (cpu_held c' ++ rest).
Proof.
  intros H [Hn He]. destruct c as [f [|x others]]; [done|]. unfold cpu_step in H. cbn in H. unfold cpu_held in *. cbn [ctxs] in *.
  destruct a as [l try| |k| |]; destruct (at_ x) as [|l' r' try'|l' r' try'|r'] eqn:Hp; try done; try (injection H as <- <-; by split).
  - case_bool_decide as Hl; injection H as <- <-; [by split|]. cbn [ctxs]. rewrite bind_cons in *. cbn [guards fmap list_fmap fst app] in *. split.
    + constructor; [|done]. by rewrite He.
    + intros l0. rewrite elem_of_cons, He. set_solver.
  - destruct (guards x !! k) as [[l r]|] eqn:Hk; [|done]. cbn in H. injection H as <- <-. cbn [ctxs]. rewrite bind_cons in *. cbn [guards] in *.
    rewrite <- (take_drop_middle (guards x) k (l, r) Hk) in Hn, He. rewrite fmap_app, fmap_cons in Hn, He. cbn [fst] in *. rewrite fmap_app, <- !app_assoc in *.
    rewrite <- app_comm_cons in Hn, He. revert Hn He. generalize ((take k (guards x)).*1). generalize ((drop (S k) (guards x)).*1 ++ (others ≫= fun x => (guards x).*1) ++ rest). clear.
    intros B A Hn He. apply NoDup_app in Hn as (N1 & N2 & N3). apply NoDup_cons in N3 as [N3 N4]. split.
    + apply NoDup_app. split; [done|]. split; [|done]. intros y Hy Hy'. apply (N2 y Hy). by right.
    + intros y. rewrite elem_of_difference, <- He, elem_of_app, (elem_of_app _ _ y), elem_of_cons, elem_of_singleton. split.
      * intros Hy. split; [tauto|]. intros ->. destruct Hy as [Hy|Hy]; [|done]. apply (N2 l Hy). by left.
      * tauto.
  - destruct f; [|done]. injection H as <- <-. by split.
  - destruct f; [|done]. injection H as <- <-. by split.
  - destruct f; [|done]. injection H as <- <-. by split.
  - destruct f; [|done]. injection H as <- <-. by split.
  - destruct (guards x) eqn:Hg; [|done]. destruct others; [done|]. injection H as <- <-. rewrite bind_cons, Hg in Hn, He. by split.
Qed.

Record sys_ok (ifs : list bool) (s : System) : Prop := {
  so_cpus : Forall2 cpu_ok ifs (cpus s);
  so_held : exact (locked s) (held s)
}.

Lemma exact_perm lk h h' : h ≡ₚ h' -> exact lk h -> exact lk h'.
Proof. intros Hp [H1 H2]. split; [by rewrite <- Hp|]. intros l. by rewrite <- Hp. Qed.

Lemma boot_ok ifs : sys_ok ifs (boot ifs).
Proof.
  split.
  - apply Forall2_fmap_r, Forall2_same_length_lookup. split; [done|]. intros i x y Hx Hy. rewrite Hx in Hy. injection Hy as <-. by split.
  - assert (held (boot ifs) = []) as ->; [|split; [constructor|set_solver]]. unfold held. cbn. by induction ifs.
Qed.

Lemma sys_step_ok ifs s i a s' : scoped a -> sys_step true s i a = Some s' -> sys_ok ifs s -> sys_ok ifs s'.
Proof.
  intros Hsc H [H1 H2]. unfold sys_step in H. destruct (cpus s !! i) as [c|] eqn:Hi; [|done]. cbn in H. destruct (cpu_step true (locked s) c a) as [[lk c']|] eqn:Hs; [|done]. injection H as <-. split.
  - destruct (Forall2_lookup_r _ _ _ _ _ H1 Hi) as (b & Hb & Hok). rewrite <- (list_insert_id ifs i b Hb). apply Forall2_insert; [done|]. by eapply cpu_step_ok.
  - destruct (held_insert s i c Hi) as (rest & Hh & Hh'). eapply exact_perm; [symmetry; apply (Hh' lk)|]. eapply cpu_step_held; [exact Hs|]. by eapply exact_perm.
Qed.

Lemma booted_ok ifs s : booted true ifs s -> sys_ok ifs s.
Proof.
  unfold booted. intros H. pose proof (boot_ok ifs) as Hb. revert Hb. generalize (boot ifs), s, H. clear. intros s0 s H. induction H as [s|s s1 s2 (i & a & Hs & Hsc) _ IH]; [done|]. intros Hb. apply IH. by eapply sys_step_ok.
Qed.

Lemma guarded_off base f x : ctx_ok base f x -> guards x <> [] -> f = false.
Proof. intros [_ H] Hg. destruct (guards x) as [|y g]; [done|]. destruct (at_ x); cbn in H; naive_solver. Qed.

Lemma held_lookup s l : l ∈ held s -> exists i c x r, cpus s !! i = Some c /\ x ∈ ctxs c /\ (l, r) ∈ guards x.
Proof.
  intros (c & H & Hc)%list_elem_of_bind. apply list_elem_of_bind in H as (x & H & Hx). apply list_elem_of_fmap in H as ([l' r] & -> & H). apply list_elem_of_lookup_1 in Hc as [i Hi]. by exists i, c, x, r.
Qed.

(** C29. A kernel spin lock that disables interrupts ([KMutex]) is safe on any
    number of CPUs, with interrupts arriving whenever they are enabled, as
    long as each context drops its newest guard first (guards that end with
    their scopes do; [early_drop_unguards] shows what happens otherwise): no
    lock is held twice; a context that has a guard runs with interrupts off
    and is the one its CPU executes, so a lock that someone waits for is held
    by a context that can go on and release it; handlers do not nest; and when
    the task of a CPU has no guard its interrupt flag is what it was. *)
Theorem kmutex_safe ifs s : booted true ifs s ->
  NoDup (held s) /\ (forall l, l ∈ locked s -> exists i c x rest r, cpus s !! i = Some c /\ ctxs c = x :: rest /\ (l, r) ∈ guards x /\ iflag c = false) /\
  (forall i c, cpus s !! i = Some c -> (length (ctxs c) <= 2)%nat /\ forall x, ctxs c = [x] -> guards x = [] -> at_ x = Run -> ifs !! i = Some (iflag c)).
Proof.
  intros [H1 [H2 H3]]%booted_ok. split_and!; [done| |].
  - intros l Hl. apply H3, held_lookup in Hl as (i & c & x & r & Hi & Hx & Hr). destruct (Forall2_lookup_r _ _ _ _ _ H1 Hi) as (b & _ & Hok). unfold cpu_ok in Hok.
    assert (guards x <> []) as Hne by (intros E; rewrite E in Hr; by apply elem_of_nil in Hr). destruct (ctxs c) as [|y [|z [|]]] eqn:Ec; try done.
    + apply list_elem_of_singleton in Hx as ->. exists i, c, y, [], r. split_and!; try done. by eapply guarded_off.
    + destruct Hok as [Hy Hz]. apply elem_of_cons in Hx as [->|Hx]; [exists i, c, y, [z], r; split_and!; try done; by eapply guarded_off|].
      apply list_elem_of_singleton in Hx as ->. by pose proof (guarded_off _ _ _ Hz Hne).
  - intros i c Hi. destruct (Forall2_lookup_r _ _ _ _ _ H1 Hi) as (b & Hb & Hok). unfold cpu_ok in Hok. destruct (ctxs c) as [|y [|z [|]]] eqn:Ec; try done; (split; [cbn; lia|]).
    intros x [= <-] Hg Hr. destruct Hok as [_ Hok]. rewrite Hg, Hr in Hok. by rewrite Hok.
Qed.

Fixpoint sys_run (INT : bool) (s : System) (l : list (nat * act)) : option System :=
  match l with [] => Some s | (i, a) :: l => s ← sys_step INT s i a; sys_run INT s l end.

Lemma sys_run_steps INT l : forall s s', Forall (fun x => scoped x.2) l -> sys_run INT s l = Some s' -> rtc (sys_steps INT) s s'.
Proof.
  induction l as [|[i a] l IH]; intros s s' Hl H; cbn in H; [by injection H as <-|]. apply Forall_cons in Hl as [Ha Hl]. destruct (sys_step INT s i a) as [s1|] eqn:E; [|done].
  eapply rtc_l; [by exists i, a|]. by apply IH.
Qed.

(** The variant that leaves interrupts on ([Mutex]) can stop a CPU: a handler
    waits for a lock of the task it interrupted. *)
Lemma plain_mutex_stuck : exists s c h x, booted false [true] s /\ cpus s = [c] /\ ctxs c = [h; x] /\ at_ h = Spin 0 false false /\ (0%nat, false) ∈ guards x /\
  forall a s', sys_step false s 0 a = Some s' -> s' = s.
Proof.
  eexists _, _, _, _. split; [eapply (sys_run_steps false [(0, Acquire 0 false); (0, Next); (0, Irq); (0, Acquire 0 false)]%nat); [by repeat constructor|reflexivity]|].
  split; [reflexivity|]. split; [reflexivity|]. split; [reflexivity|]. split; [by left|]. intros [] s' H; by vm_compute in H; simplify_eq.
Qed.

(** A guard dropped before a newer one turns interrupts on under the newer. *)
Lemma early_drop_unguards : exists s c x, sys_run true (boot [true]) ((fun a => (0%nat, a)) <$> [Acquire 0 false; Next; Next; Acquire 1 false; Next; Next; Drop 1; Next]) = Some s /\
  cpus s = [c] /\ ctxs c = [x] /\ guards x = [(1%nat, false)] /\ iflag c = true.
Proof. eexists _, _, _. split; [reflexivity|]. done. Qed.
End SpinLock.

(** ** The interrupt guard *)

Module InterruptGuard.

(** The interrupt flag of a CPU, its entries of [INTERRUPT_NESTING] and
    [RESTORE_INTERRUPTS], and the guards of its contexts, the running one
    first.  The code between [cli] and the end of either function runs with
    interrupts off, so each is one step. *)
Record Guard : Type := mkGuard { gflag : bool; nesting : Z; restore : bool; depth : list nat }.
#[global] Instance Guard_eta : Eta Guard := fun g => mkGuard (gflag g) (nesting g) (restore g) (depth g).

Definition enter_interrupt_guard (g : Guard) : Guard :=
  let flags := gflag g in
  let g := g <| gflag := false |> in
  let previous := nesting g in
  let g := g <| nesting := (previous + 1) mod 2 ^ 32 |> in
  if previous =? 0 then g <| restore := flags |> else g.

Definition leave_interrupt_guard (g : Guard) : outcome Guard :=
  let previous := nesting g in
  let g := g <| nesting := (previous - 1) mod 2 ^ 32 |> in
  if negb (0 <? previous) then Panic else
  if previous =? 1 then
    let r := restore g in
    let g := g <| restore := false |> in
    Ret (if r then g <| gflag := true |> else g)
  else Ret g.

Inductive gact : Type := Enter | Leave | Irq | Iret.

(** A step of the running context; what is not possible does not happen. *)
Definition guard_step (g : Guard) (a : gact) : outcome Guard :=
  match a, depth g with
  | Enter, n :: rest => Ret (enter_interrupt_guard g <| depth := S n :: rest |>)
  | Leave, S n :: rest => g ← leave_interrupt_guard g; Ret (g <| depth := n :: rest |>)
  | Irq, rest => Ret (if gflag g then g <| gflag := false |> <| depth := 0%nat :: rest |> else g)
  | Iret, 0%nat :: n :: rest => Ret (g <| gflag := true |> <| depth := n :: rest |>)
  | _, _ => Ret g
  end.
Fixpoint guard_run (g : Guard) (l : list gact) : outcome Guard := match l with [] => Ret g | a :: l => g ← guard_step g a; guard_run g l end.

Definition guard_new (f : bool) : Guard := mkGuard f 0 false [0%nat].

(** With [f] the flag at the start: the task, or a handler over the task. *)
Definition guard_ok (f : bool) (bound : nat) (g : Guard) : Prop :=
  exists n, (n <= bound)%nat /\ nesting g = Z.of_nat n /\
  ((depth g = [n] /\ gflag g = (bool_decide (n = 0%nat) && f) /\ restore g = (negb (bool_decide (n = 0%nat)) && f)) \/
   (depth g = [n; 0%nat] /\ gflag g = false /\ restore g = false /\ f = true)).

Lemma guard_step_ok f bound g a : Z.of_nat bound < 2 ^ 32 - 1 -> guard_ok f bound g -> exists g', guard_step g a = Ret g' /\ guard_ok f (S bound) g'.
Proof.
  intros Hb (n & Hn & Hz & H). destruct g as [fl z r d]. cbn in *. subst z.
  assert (guard_ok f (S bound) (mkGuard fl (Z.of_nat n) r d)) as Hsame by (exists n; split; [lia|]; by split).
  assert ((Z.of_nat n + 1) mod 2 ^ 32 = Z.of_nat (S n)) as Hs by (rewrite Z.mod_small; lia).
  destruct a; unfold guard_step; cbn [depth gflag].
  - assert (exists rest, d = n :: rest) as [rest ->] by (destruct H as [[-> _]|[-> _]]; eauto). eexists. split; [reflexivity|]. exists (S n). split; [lia|].
    unfold enter_interrupt_guard. cbn. destruct (Z.eqb_spec (Z.of_nat n) 0) as [E|E]; cbn; (split; [by rewrite Hs|]).
    + assert (n = 0%nat) as -> by lia. destruct H as [([= ->] & -> & ->)|([= ->] & -> & -> & ->)]; [left|right]; by split_and!.
    + destruct H as [([= ->] & -> & ->)|([= ->] & -> & -> & ->)]; [left|right]; split_and!; try done. rewrite bool_decide_eq_false_2 by lia. by rewrite bool_decide_eq_false_2 by lia.
  - destruct n as [|n]; [assert (exists rest, d = 0%nat :: rest) as [rest ->] by (destruct H as [[-> _]|[-> _]]; eauto); by eexists|].
    assert (exists rest, d = S n :: rest) as [rest ->] by (destruct H as [[-> _]|[-> _]]; eauto). unfold leave_interrupt_guard. cbn [nesting]. rewrite (proj2 (Z.ltb_lt 0 _)) by lia. cbn [negb].
    assert ((Z.of_nat (S n) - 1) mod 2 ^ 32 = Z.of_nat n) as Hm by (rewrite Z.mod_small; lia). 
    destruct (Z.eqb_spec (Z.of_nat (S n)) 1) as [E|E]; rewrite bind_Ret_l; eexists; (split; [reflexivity|]); exists n; (split; [lia|]).
    + assert (n = 0%nat) as -> by lia. destruct H as [([= ->] & -> & ->)|([= ->] & -> & -> & ->)]; [|split; [done|]; right; by split_and!]. destruct f; (split; [done|]); left; by split_and!.
    + split; [cbn; done|]. destruct H as [([= ->] & -> & ->)|([= ->] & -> & -> & ->)]; (destruct n as [|n]; [lia|]); [left|right]; by split_and!.
  - destruct fl; [|by eexists]. eexists. split; [reflexivity|]. destruct H as [(-> & Hf & ->)|(_ & ? & _)]; [|done]. symmetry in Hf. apply andb_true_iff in Hf as [Hf ->].
    apply bool_decide_eq_true in Hf as ->. exists 0%nat. split; [lia|]. split; [done|]. right. by split_and!.
  - destruct H as [(-> & H)|(-> & H)]; [destruct n; by eexists|]. destruct n; [|by eexists]. eexists. split; [reflexivity|]. exists 0%nat. split; [lia|]. split; [done|]. left. destruct H as (_ & -> & ->). by split_and!.
Qed.

(** The nesting interrupt guard restores what it found: whatever a task
    and the handlers that interrupt it do with guards, in any order, nothing
    panics; interrupts are off while the running context has a guard; and when
    the task has none, its interrupt flag is the one it started with. *)
Theorem interrupt_guard_restores f l : Z.of_nat (length l) < 2 ^ 32 - 1 ->
  exists g, guard_run (guard_new f) l = Ret g /\ (forall n rest, depth g = S n :: rest -> gflag g = false) /\ (depth g = [0%nat] -> gflag g = f).
Proof.
  intros Hl. assert (forall l bound g, Z.of_nat (bound + length l) < 2 ^ 32 - 1 -> guard_ok f bound g -> exists g', guard_run g l = Ret g' /\ guard_ok f (bound + length l) g') as Hrun.
  { clear. induction l as [|a l IH]; intros bound g Hb Hok; cbn [guard_run length] in *; [exists g; by rewrite Nat.add_0_r|].
    destruct (guard_step_ok f bound g a) as (g1 & -> & H1); [lia|done|]. rewrite bind_Ret_l. destruct (IH (S bound) g1) as (g2 & -> & H2); [lia|done|]. exists g2. by rewrite <- Nat.add_succ_comm. }
  destruct (Hrun l 0%nat (guard_new f)) as (g & Hg & n & _ & _ & H); [done|exists 0%nat; split; [done|]; split; [done|]; left; by destruct f|]. exists g. split; [done|]. split.
  - intros k rest Hd. rewrite Hd in H. destruct H as [([= <- ->] & -> & _)|(_ & -> & _)]; done.
  - intros Hd. rewrite Hd in H. destruct H as [([= <-] & -> & _)|([=] & _)]. done.
Qed.

Lemma interrupt_guard_restores_witness :
  exists g, guard_run (guard_new true) [Enter; Enter; Leave; Irq; Leave; Irq; Enter; Leave; Iret] = Ret g /\ (forall n rest, depth g = S n :: rest -> gflag g = false) /\ (depth g = [0%nat] -> gflag g = true).
Proof. apply interrupt_guard_restores. cbn. lia. Defined.
End InterruptGuard.

(** ** The lazy cell *)

Module Lazy.
Section Lazy.
  Context {V : Type}.

(** Where a thread is in [get]: at the load of [initialized], reading the
    value without the lock, waiting for the lock; with the lock, at the test of
    [data], at [take], calling the initializer, storing its value, setting the
    flag, at the final [unwrap]; back with a value, or failed. *)
Inductive lpc : Type := Idle | Check | Fast | Acquire | Look | Take | Call | Store (v : V) | SetFlag | Final | Got (v : V) | Crash.

Record InterruptLazy : Type := mkLazy { init : bool; data : option V; lock : bool; initialized : bool; calls : nat; gets : list lpc }.
#[global] Instance InterruptLazy_eta : Eta InterruptLazy := fun z => mkLazy (init z) (data z) (lock z) (initialized z) (calls z) (gets z).

Definition lazy_new (n : nat) : InterruptLazy := mkLazy true None false false 0 (replicate n Idle).

(** The next access of thread [t]; [v] is what a call of the initializer
    would return now. *)
Definition get_step (z : InterruptLazy) (t : nat) (v : V) : option InterruptLazy :=
  p ← gets z !! t;
  let to q := z <| gets := goto t q (gets z) |> in
  match p with
  | Idle => Some (to Check)
  | Check => Some (to (if initialized z then Fast else Acquire))
  | Fast => Some (to (match data z with Some v => Got v | None => Crash end))
  | Acquire => if lock z then None else Some (to Look <| lock := true |>)
  | Look => Some (to (match data z with None => Take | Some _ => Final end))
  | Take => Some (if init z then to Call <| init := false |> else to Crash)
  | Call => Some (to (Store v) <| calls := S (calls z) |>)
  | Store v => Some (to SetFlag <| data := Some v |>)
  | SetFlag => Some (to Final <| initialized := true |>)
  | Final => Some (match data z with Some v => to (Got v) <| lock := false |> | None => to Crash end)
  | Got _ | Crash => None
  end.

Definition lazy_steps : InterruptLazy -> InterruptLazy -> Prop := fun z z' => exists t v, get_step z t v = Some z'.

Definition inside (p : lpc) : bool := match p with Look | Take | Call | Store _ | SetFlag | Final => true | _ => false end.

(** What a thread at [p] knows. *)
Definition knows (z : InterruptLazy) (p : lpc) : Prop :=
  match p with
  | Take => data z = None
  | Call => data z = None /\ init z = false /\ calls z = 0%nat
  | Store _ => data z = None /\ init z = false /\ calls z = 1%nat
  | Fast | SetFlag | Final => is_Some (data z)
  | Got v => data z = Some v
  | Crash => False
  | Idle | Check | Acquire | Look => True
  end.

Record lazy_inv (z : InterruptLazy) : Prop := {
  zi_knows : forall t p, at_point (gets z) t p -> knows z p;
  zi_one : forall t u p q, at_point (gets z) t p -> at_point (gets z) u q -> inside p = true -> inside q = true -> t = u;
  zi_lock : forall t p, at_point (gets z) t p -> inside p = true -> lock z = true;
  zi_flag : initialized z = true -> is_Some (data z);
  zi_data : is_Some (data z) -> init z = false /\ calls z = 1%nat;
  zi_init : init z = true -> calls z = 0%nat;
  zi_taken : init z = false -> is_Some (data z) \/ exists t p, at_point (gets z) t p /\ (p = Call \/ exists v, p = Store v)
}.

Lemma lazy_new_inv n : lazy_inv (lazy_new n).
Proof.
  assert (forall t p, at_point (replicate n Idle) t p -> p = Idle) as H by (by intros t p [? _]%lookup_replicate).
  split; cbn; try done; try (intros t p Hp; apply H in Hp; by subst p); try by intros [].
  intros t u p q Hp. apply H in Hp. by subst p.
Qed.

(** Threads outside the lock know the same when the value only appears. *)
Lemma knows_mono z z' p : knows z p -> inside p = false -> (is_Some (data z) -> data z' = data z) -> knows z' p.
Proof. destruct p; cbn; intros H Hp Hd; try done; [rewrite Hd; done|rewrite Hd; [done|by rewrite H]]. Qed.

(** A step of thread [t] to [q] that keeps everything outside its own view. *)
Lemma lazy_move z z' t p q : lazy_inv z -> at_point (gets z) t p -> gets z' = goto t q (gets z) -> knows z' q ->
  (is_Some (data z) -> data z' = data z) ->
  (inside p = false -> inside q = true -> lock z = false) -> (inside q = true -> lock z' = true) -> (inside p = false -> lock z = true -> lock z' = true) ->
  (inside p = false -> init z' = init z /\ data z' = data z /\ calls z' = calls z) ->
  (initialized z' = true -> is_Some (data z')) -> (is_Some (data z') -> init z' = false /\ calls z' = 1%nat) -> (init z' = true -> calls z' = 0%nat) ->
  (init z' = false -> is_Some (data z') \/ (q = Call \/ exists v, q = Store v) \/ (init z = false /\ data z' = data z /\ p <> Call /\ forall v, p <> Store v)) ->
  lazy_inv z'.
Proof.
  intros Hi Hp Hg Hq Hd Hin Hlk Hlk2 Hsame H4 H5 H6 H7. pose proof Hi as [K1 K2 K3 _ _ _ K7].
  assert (forall u r, u <> t -> at_point (gets z) u r -> inside r = true -> inside p = false /\ inside q = false) as Hout.
  { intros u r Hne Hu Hr. assert (inside p = false) as Hpf by (destruct (inside p) eqn:E; [by destruct Hne; apply (K2 u t r p)|done]). split; [done|].
    destruct (inside q) eqn:E; [|done]. pose proof (K3 u r Hu Hr). rewrite Hin in *; done. }
  split; rewrite ?Hg; try done.
  - intros u r Hu. destruct (goto_cases _ _ _ _ _ Hu) as [[-> ->]|[Hne Hu']]; [done|]. pose proof (K1 u r Hu') as Hk. destruct (inside r) eqn:Hr; [|by apply (knows_mono z)].
    destruct (Hout u r Hne Hu' Hr) as [Hpf _]. destruct (Hsame Hpf) as (E1 & E2 & E3). destruct r; cbn in *; rewrite ?E1, ?E2, ?E3; done.
  - intros u v r r' Hu Hv Hr Hr'. destruct (goto_cases _ _ _ _ _ Hu) as [[-> ->]|[Hne Hu']], (goto_cases _ _ _ _ _ Hv) as [[-> ->]|[Hne' Hv']]; [done|..].
    + destruct (Hout v r' Hne' Hv' Hr'). congruence.
    + destruct (Hout u r Hne Hu' Hr). congruence.
    + by apply (K2 u v r r').
  - intros u r Hu Hr. destruct (goto_cases _ _ _ _ _ Hu) as [[-> ->]|[Hne Hu']]; [by apply Hlk|]. destruct (Hout u r Hne Hu' Hr) as [Hpf _]. apply Hlk2; [done|]. by apply (K3 u r).
  - intros Hi'. destruct (H7 Hi') as [?|[Hc|(E1 & E2 & E3 & E4)]]; [by left|right; exists t, q; split; [by apply (goto_self _ _ p)|done]|].
    rewrite E2. destruct (K7 E1) as [?|(u & r & Hu & Hr)]; [by left|right]. exists u, r. split; [|done]. rewrite goto_other; [done|]. intros ->. pose proof (at_point_inj _ _ _ _ Hp Hu) as ->. destruct Hr as [->|[v ->]]; naive_solver.
Qed.

(** The side conditions of [lazy_move]. *)
Ltac lazy_side :=
  cbn; intros; try done; try by auto;
  repeat match goal with H : is_Some _ |- _ => destruct H | H : _ /\ _ |- _ => destruct H end;
  first [ done | congruence | by auto | by split_and! | by eexists
        | by left; eexists | by right; left; left | by right; left; right; eexists | by right; right; split_and! ].

Lemma get_step_inv z t v z' : get_step z t v = Some z' -> lazy_inv z -> lazy_inv z'.
Proof.
  unfold get_step. intros H Hi. destruct (gets z !! t) as [p|] eqn:Hp; [|done]. cbn in H. assert (at_point (gets z) t p) as Ht by exact Hp.
  pose proof Hi as [K1 K2 K3 K4 K5 K6 K7]. pose proof (K1 t p Ht) as Hk. pose proof (K3 t p Ht) as Hl. clear K1 K3. destruct p; cbn in Hk, Hl; try done.
  - injection H as <-. apply (lazy_move z _ t Idle Check Hi Ht); lazy_side.
  - injection H as <-. destruct (initialized z) eqn:E; [apply (lazy_move z _ t Check Fast Hi Ht)|apply (lazy_move z _ t Check Acquire Hi Ht)]; lazy_side.
  - injection H as <-. destruct Hk as [w Hw]. rewrite Hw. apply (lazy_move z _ t Fast (Got w) Hi Ht); lazy_side.
  - destruct (lock z) eqn:E; [done|]. injection H as <-. apply (lazy_move z _ t Acquire Look Hi Ht); lazy_side.
  - injection H as <-. destruct (data z) eqn:E in |- *; [apply (lazy_move z _ t Look Final Hi Ht)|apply (lazy_move z _ t Look Take Hi Ht)]; lazy_side.
  - destruct (init z) eqn:E.
    + injection H as <-. apply (lazy_move z _ t Take Call Hi Ht); lazy_side.
    + destruct (K7 eq_refl) as [[w Hw]|(u & r & Hu & Hr)]; [congruence|]. assert (u = t) as -> by (apply (K2 u t r Take); try done; by destruct Hr as [->|[? ->]]).
      pose proof (at_point_inj _ _ _ _ Ht Hu) as <-. by destruct Hr as [|[? ?]].
  - injection H as <-. destruct Hk as (Hd & Hin & Hc). apply (lazy_move z _ t Call (Store v) Hi Ht); lazy_side.
  - injection H as <-. destruct Hk as (Hd & Hin & Hc). apply (lazy_move z _ t (Store v0) SetFlag Hi Ht); lazy_side.
  - injection H as <-. apply (lazy_move z _ t SetFlag Final Hi Ht); lazy_side.
  - destruct Hk as [w Hw]. rewrite Hw in H. injection H as <-. apply (lazy_move z _ t Final (Got w) Hi Ht); lazy_side.
Qed.

(** A lazy cell is initialised once: in every interleaving of calls of
    [get] the initializer runs at most once, no call fails or reads a missing
    value, and all calls return the same value. *)
Theorem lazy_init_once n z : rtc lazy_steps (lazy_new n) z ->
  (calls z <= 1)%nat /\ (forall t, gets z !! t <> Some Crash) /\ forall t u v w, gets z !! t = Some (Got v) -> gets z !! u = Some (Got w) -> v = w.
Proof.
  intros H. assert (lazy_inv z) as [K1 K2 K3 K4 K5 K6 K7].
  { pose proof (lazy_new_inv n) as Hi. induction H as [|z z1 z2 (t & v & Hs) _ IH]; [done|]. apply IH. by eapply get_step_inv. }
  split_and!.
  - destruct (init z) eqn:E; [rewrite K6; [lia|done]|]. destruct (K7 eq_refl) as [Hd|(t & p & Ht & Hp)]; [destruct (K5 Hd) as [_ ->]; lia|]. pose proof (K1 t p Ht) as Hk.
    destruct Hp as [->|[v ->]]; cbn in Hk; lia.
  - intros t Ht. exact (K1 t Crash Ht).
  - intros t u v w Ht Hu. pose proof (K1 t _ Ht) as Hv. pose proof (K1 u _ Hu) as Hw. cbn in *. congruence.
Qed.
End Lazy.
End Lazy.

(** ** Instances *)

(** One thread has the mutex, another sleeps. *)
Definition contended : UserMutex.Mutex := UserMutex.mkMutex 2 [UserMutex.Held; UserMutex.Sleep].

Fixpoint mutex_run (m : UserMutex.Mutex) (l : list (nat * UserMutex.choice)) : option UserMutex.Mutex :=
  match l with [] => Some m | (t, a) :: l => m ← UserMutex.mutex_step m t a; mutex_run m l end.
Lemma mutex_run_steps l : forall m m', mutex_run m l = Some m' -> rtc UserMutex.steps m m'.
Proof.
  induction l as [|[t a] l IH]; intros m m' H; cbn in H; [by injection H as <-|]. destruct (UserMutex.mutex_step m t a) as [m1|] eqn:E; [|done]. eapply rtc_l; [by exists t, a|]. by apply IH.
Qed.
Lemma contended_reachable : UserMutex.reachable contended.
Proof.
  exists 2%nat. eapply (mutex_run_steps ([(0, UserMutex.Start UserMutex.TryLock); (0, UserMutex.Go); (1, UserMutex.Start UserMutex.TryLock)] ++ replicate 4 (1, UserMutex.Go))%nat). reflexivity.
Qed.

Lemma user_mutex_exclusive_witness :
  (forall t u, UserMutex.threads contended !! t = Some UserMutex.Held -> UserMutex.threads contended !! u = Some UserMutex.Held -> t = u) /\
  (UserMutex.state contended = 0 <-> forall t, UserMutex.threads contended !! t <> Some UserMutex.Held).
Proof. apply (UserMutex.user_mutex_exclusive contended), contended_reachable. Defined.

Lemma user_mutex_obtainable_witness : exists m', rtc UserMutex.settles contended m' /\ UserMutex.threads m' !! 1%nat = Some UserMutex.Held.
Proof. apply (UserMutex.user_mutex_obtainable contended 1 UserMutex.Sleep); [apply contended_reachable|reflexivity|by right; left]. Defined.

(** Two CPUs: one holds lock 0, the handler of the other waits for it. *)
Definition two_cpus : SpinLock.System :=
  SpinLock.mkSystem {[ 0%nat ]} [SpinLock.mkCpu false [SpinLock.mkCtx [(0%nat, true)] SpinLock.Run];
                                 SpinLock.mkCpu false [SpinLock.mkCtx [] (SpinLock.Spin 0 false false); SpinLock.mkCtx [] SpinLock.Run]].

Lemma kmutex_safe_witness :
  NoDup (SpinLock.held two_cpus) /\
  (forall l, l ∈ SpinLock.locked two_cpus -> exists i c x rest r, SpinLock.cpus two_cpus !! i = Some c /\ SpinLock.ctxs c = x :: rest /\ (l, r) ∈ SpinLock.guards x /\ SpinLock.iflag c = false) /\
  (forall i c, SpinLock.cpus two_cpus !! i = Some c -> (length (SpinLock.ctxs c) <= 2)%nat /\
     forall x, SpinLock.ctxs c = [x] -> SpinLock.guards x = [] -> SpinLock.at_ x = SpinLock.Run -> [true; true] !! i = Some (SpinLock.iflag c)).
Proof.
  apply (SpinLock.kmutex_safe [true; true] two_cpus).
  apply (SpinLock.sys_run_steps true [(0, SpinLock.Acquire 0 false); (0, SpinLock.Next); (0, SpinLock.Next); (1, SpinLock.Irq); (1, SpinLock.Acquire 0 false); (1, SpinLock.Next); (1, SpinLock.Next)]%nat);
    [by repeat constructor|]. vm_compute. reflexivity.
Defined.

Lemma lazy_init_once_witness :
  let z := Lazy.mkLazy false (Some 7) true false 1 [Lazy.SetFlag; Lazy.Acquire] in
  (Lazy.calls z <= 1)%nat /\ (forall t, Lazy.gets z !! t <> Some Lazy.Crash) /\ forall t u v w, Lazy.gets z !! t = Some (Lazy.Got v) -> Lazy.gets z !! u = Some (Lazy.Got w) -> v = w.
Proof.
  intros z. apply (Lazy.lazy_init_once 2 z). do 7 (eapply rtc_l; [exists 0%nat, 7; reflexivity|]). do 2 (eapply rtc_l; [exists 1%nat, 8; reflexivity|]). apply rtc_refl.
Defined.
