(* ===== verification/FileCalls.v ===== *)
(** * File system calls

    Model of the descriptor and path calls of
    [kernel/src/syscalls/handler.rs]: opening, reading, writing and closing,
    pipes and duplicates, status flags, the calls on paths, and the
    descriptors a child inherits.  They join the terminals and the kernel
    state of [Tty], the descriptor tables of [FileTable], the pipes of [Pipe]
    and the file systems of [Vfs].

    A path or a buffer behind a user pointer is an argument, and the bytes a
    call stores are part of its result; values in [eax] are 32-bit words.  The
    network, the sound device and the table of device names are parameters. *)

From S2P Require Import Prelude Wait Pipe Bytes SharedPages FileTable Task Signal Process Vfs Tty.

Definition O_RDONLY : Z := 0.
Definition O_WRONLY : Z := 1.
Definition O_RDWR : Z := 2.
Definition O_CREAT : Z := 0x40.
Definition O_TRUNC : Z := 0x200.
Definition O_DIRECTORY : Z := 0x10000.

Definition SEEK_SET : Z := 0.
Definition SEEK_CUR : Z := 1.
Definition SEEK_END : Z := 2.

Definition ENOENT : Z := errno 2.
Definition ENXIO : Z := errno 6.
Definition EBADF : Z := errno 9.
Definition ENOMEM : Z := errno 12.
Definition EEXIST : Z := errno 17.
Definition EXDEV : Z := errno 18.
Definition ENOTDIR : Z := errno 20.
Definition BLOCK_AND_RESTART : Z := USIZE_MAX - 0x1000.
Definition AUDIO_BLOCK_AND_RESTART : Z := BLOCK_AND_RESTART - 1.

Definition S_IFMT : Z := 0xF000.
Definition S_IFDIR : Z := 0x4000.
Definition F_GETFL : Z := 3.
Definition F_SETFL : Z := 4.

Definition has_flag (flags bit : Z) : bool := negb (Z.land flags bit =? 0).

(** [StreamWrite] of the sound device. *)
Inductive StreamWrite : Type := Written (n : Z) | WouldBlock | Unavailable.

(** ** Strings from user space *)

(** [utf8_char_width], and one round of the loop of [Utf8Chunks::next] on a
    sequence that is not empty: whether a character is complete, and the bytes
    taken. *)
Definition utf8_char_width (b : Z) : Z :=
  if b <? 0x80 then 1 else if in_range 0xC2 0xDF b then 2 else if in_range 0xE0 0xEF b then 3 else if in_range 0xF0 0xF4 b then 4 else 0.
Definition is_cont (b : Z) : bool := in_range 0x80 0xBF b.
Definition utf8_scan (l : list Z) : bool * nat :=
  let at_ i := default 0 (l !! i) in
  let b := at_ 0%nat in
  let w := utf8_char_width b in
  if w =? 1 then (true, 1%nat)
  else if w =? 2 then if is_cont (at_ 1%nat) then (true, 2%nat) else (false, 1%nat)
  else if w =? 3 then
    if negb (in_range (if b =? 0xE0 then 0xA0 else 0x80) (if b =? 0xED then 0x9F else 0xBF) (at_ 1%nat)) then (false, 1%nat)
    else if negb (is_cont (at_ 2%nat)) then (false, 2%nat) else (true, 3%nat)
  else if w =? 4 then
    if negb (in_range (if b =? 0xF0 then 0x90 else 0x80) (if b =? 0xF4 then 0x8F else 0xBF) (at_ 1%nat)) then (false, 1%nat)
    else if negb (is_cont (at_ 2%nat)) then (false, 2%nat)
    else if negb (is_cont (at_ 3%nat)) then (false, 3%nat) else (true, 4%nat)
  else (false, 1%nat).

(** [String::from_utf8_lossy]: what is not UTF-8 becomes U+FFFD. *)
Definition REPLACEMENT : list Z := [0xEF; 0xBF; 0xBD].
Fixpoint lossy_loop (fuel : nat) (l : list Z) : list Z :=
  match fuel, l with
  | S fuel, _ :: _ => let '(ok, n) := utf8_scan l in (if ok : bool then take n l else REPLACEMENT) ++ lossy_loop fuel (drop n l)
  | _, _ => []
  end.
Definition from_utf8_lossy (l : list Z) : list Z := lossy_loop (length l) l.

(** The bytes before the first zero. *)
Fixpoint until_nul (l : list Z) : list Z := match l with [] => [] | b :: l => if b =? 0 then [] else b :: until_nul l end.

(** [copy_cstr_from_user] of a pointer to the bytes [mem] *)
Definition copy_cstr_from_user (mem : list Z) : path := from_utf8_lossy (until_nul (take 255 mem)).

(** ** Calls *)

(** [Stat64], without its padding *)
Record Stat64 : Type := mkStat {
  st_dev : Z; st_mode : Z; st_nlink : Z; st_uid : Z; st_gid : Z; st_rdev : Z; st_size : Z; st_blksize : Z; st_blocks : Z;
  st_atime : Z; st_mtime : Z; st_ctime : Z; st_ino : Z
}.
Definition fill_stat64 (m : Metadata) : Stat64 :=
  mkStat (Z.shiftr (m_inode m) 24 + 1) (m_mode m) (Z.max (m_nlink m) 1) (m_uid m) (m_gid m) (m_rdev m)
    (if m_size m <? 2 ^ 63 then m_size m else m_size m - 2 ^ 64) (Z.max (m_blksize m) 1) (m_blocks m) (m_atime m) (m_mtime m) (m_ctime m) (m_inode m).
Definition synthetic_meta (inode mode : Z) : Metadata := mkMeta inode mode 1 0 0 0 0 4096 0 0 0 0.
Definition S_IFREG : Z := 0x8000.
Definition S_IFCHR : Z := 0x2000.
Definition S_IFBLK : Z := 0x6000.
Definition S_IFIFO : Z := 0x1000.
Definition S_IFSOCK : Z := 0xC000.

Section Calls.
  Context {F : Type} `{!FileStore F} {B : Type} `{!Filesystem B}.

(** The terminals with the kernel state, the file systems, the working
    directory of each task, the keyboard buffer and what the console printed. *)
Record Sys : Type := mkSys {
  s_terms : Terminals F; s_vfs : VfsState B; s_cwd : gmap Z path; s_keys : list Z; s_out : list (list Z)
}.
#[global] Instance Sys_eta : Eta Sys := fun s => mkSys (s_terms s) (s_vfs s) (s_cwd s) (s_keys s) (s_out s).

Implicit Types (s : Sys).

Definition kern s : Kern F := t_kern (s_terms s).
Definition with_kern s (k : Kern F) : Sys := s <| s_terms := s_terms s <| t_kern := k |> |>.

(** The descriptor table of the calling process. *)
Definition fd_table s (slot : Z) : option FileDescriptorTable := k_tables (kern s) !! slot.
Definition put_table s (slot : Z) (h : Arcs) (t : FileDescriptorTable) : Sys :=
  with_kern s (kern s <| k_arcs := h |> <| k_tables := <[slot := t]> (k_tables (kern s)) |>).
Definition put_arcs s (h : Arcs) : Sys := with_kern s (kern s <| k_arcs := h |>).

(** ** Closing *)

(** [close_descriptor] *)
Definition close_descriptor s (c : ClosedFileDescriptor) : outcome Sys :=
  if negb (last_open_ref c) then Ret s else
  match desc c with
  | Socket socket_id => Ret (with_kern s (record (FreeSocket socket_id) (kern s)))
  | PipeFd pipe_id PRead => k ← run_pipe (pipe_close_reader pipe_id) (kern s); Ret (with_kern s k)
  | PipeFd pipe_id PWrite => k ← run_pipe (pipe_close_writer pipe_id) (kern s); Ret (with_kern s k)
  | FileTable.Pty pty_id side => t ← close_ref (s_terms s) pty_id side; Ret (s <| s_terms := t |>)
  | _ => Ret s
  end.

Definition sys_close s (slot fd : Z) : outcome (Z * Sys) :=
  match fd_table s slot with
  | Some t =>
      let '(c, h, t) := close (k_arcs (kern s)) t fd in
      match c with
      | Some c => s ← close_descriptor (put_table s slot h t) c; Ret (0, s)
      | None => Ret (USIZE_MAX, s)
      end
  | None => Ret (USIZE_MAX, s)
  end.

(** [close_task_fds] of signal.rs, which ends every process *)
Fixpoint close_descriptors s (l : list ClosedFileDescriptor) : outcome Sys :=
  match l with [] => Ret s | c :: l => s ← close_descriptor s c; close_descriptors s l end.
Definition close_task_fds s (slot : Z) : outcome Sys :=
  if slot <=? 0 then Ret s else
  match fd_table s slot with
  | Some t => let '(taken, h, t) := take_all (k_arcs (kern s)) t in close_descriptors (put_table s slot h t) taken
  | None => Ret s
  end.

(** ** Pipes and duplicates *)

Definition pipe_call {A} s (f : pstate (Sched F) -> outcome (A * pstate (Sched F))) : outcome (A * Sys) :=
  '(r, p) ← f (mkP (k_pipes (kern s)) (k_sched (kern s)));
  Ret (r, with_kern s (kern s <| k_pipes := PIPES p |> <| k_sched := TASKS p |>)).

Definition close_both_ends s (pipe_id : Z) : outcome Sys :=
  k ← run_pipe (pipe_close_reader pipe_id) (kern s);
  k ← run_pipe (pipe_close_writer pipe_id) k;
  Ret (with_kern s k).

(** [sys_pipe]; the second component holds the two words stored. *)
Definition sys_pipe s (slot : Z) : outcome (Z * list Z * Sys) :=
  '(r, s) ← pipe_call s pipe_create;
  match r with
  | None => Ret (USIZE_MAX, [], s)
  | Some pipe_id =>
      match fd_table s slot with
      | None => Ret (USIZE_MAX, [], s)
      | Some t =>
          match alloc_fd t with
          | None => s ← close_both_ends s pipe_id; Ret (USIZE_MAX, [], s)
          | Some r =>
              let '(_, h, t) := insert_fd (k_arcs (kern s)) t r (PipeFd pipe_id PRead) in
              let s := put_table s slot h t in
              match alloc_fd t with
              | None =>
                  let '(_, h, t) := close (k_arcs (kern s)) t r in
                  s ← close_both_ends (put_table s slot h t) pipe_id; Ret (USIZE_MAX, [], s)
              | Some w =>
                  let '(_, h, t) := insert_fd (k_arcs (kern s)) t w (PipeFd pipe_id PWrite) in
                  Ret (0, [r; w], put_table s slot h t)
              end
          end
      end
  end.

Definition sys_dup2 s (slot oldfd newfd : Z) : outcome (Z * Sys) :=
  match fd_table s slot with
  | None => Ret (USIZE_MAX, s)
  | Some t =>
      if bool_decide (fd_at t oldfd = None) || (64 <=? newfd) then Ret (USIZE_MAX, s) else
      if oldfd =? newfd then Ret (newfd, s) else
      let '(c, h, t) := close (k_arcs (kern s)) t newfd in
      s ← match c with Some c => close_descriptor (put_table s slot h t) c | None => Ret s end;
      let '(ok, h, t) := dup2 (k_arcs (kern s)) t oldfd newfd in
      Ret (if ok : bool then newfd else USIZE_MAX, put_table s slot h t)
  end.

Definition sys_dup s (slot oldfd : Z) : outcome (Z * Sys) :=
  match fd_table s slot with
  | None => Ret (EBADF, s)
  | Some t =>
      if bool_decide (fd_at t oldfd = None) then Ret (EBADF, s) else
      match alloc_fd t with None => Ret (ENOMEM, s) | Some fd => sys_dup2 s slot oldfd fd end
  end.

(** The access mode that [F_GETFL] reports. *)
Definition access_of (d : FileDescriptor) : Z :=
  match d with
  | File _ _ m | Device _ _ m _ => match m with ReadOnly => O_RDONLY | WriteOnly => O_WRONLY | ReadWrite => O_RDWR end
  | PipeFd _ PRead | ConsoleIn | Dir _ _ _ => O_RDONLY
  | PipeFd _ PWrite | ConsoleOut => O_WRONLY
  | FileTable.Pty _ _ | Socket _ => O_RDWR
  end.
Definition sys_fcntl s (slot fd cmd arg : Z) : Z * Sys :=
  match fd_table s slot with
  | None => (USIZE_MAX, s)
  | Some t =>
      match fd_at t fd with
      | None => (USIZE_MAX, s)
      | Some d =>
          if cmd =? F_GETFL then (Z.lor (access_of d) (get_flags (k_arcs (kern s)) t fd), s)
          else if cmd =? F_SETFL then
            let '(ok, h) := set_flags (k_arcs (kern s)) t fd (Z.land arg OFD_STATUS_MASK) in
            (if ok : bool then 0 else EBADF, put_arcs s h)
          else (EINVAL, s)
      end
  end.

(** [sys_openpty] with a pointer that is not null *)
Definition close_both_sides s (id : Z) : outcome Sys :=
  t ← close_ref (s_terms s) id Master;
  t ← close_ref t id Slave;
  Ret (s <| s_terms := t |>).
Definition sys_openpty s (slot : Z) : outcome (Z * list Z * Sys) :=
  '(r, t) ← alloc_pty (s_terms s) slot;
  let s := s <| s_terms := t |> in
  match r with
  | None => Ret (ENOMEM, [], s)
  | Some id =>
      match t ← fd_table s slot; fd ← alloc_fd t; Some (t, fd) with
      | None => s ← close_both_sides s id; Ret (ENOMEM, [], s)
      | Some (t, master_fd) =>
          let '(_, h, t) := insert_fd (k_arcs (kern s)) t master_fd (FileTable.Pty id Master) in
          let s := put_table s slot h t in
          match alloc_fd t with
          | None =>
              let '(_, h, t) := close (k_arcs (kern s)) t master_fd in
              s ← close_both_sides (put_table s slot h t) id; Ret (ENOMEM, [], s)
          | Some slave_fd =>
              let '(_, h, t) := insert_fd (k_arcs (kern s)) t slave_fd (FileTable.Pty id Slave) in
              Ret (id, [master_fd; slave_fd], put_table s slot h t)
          end
      end
  end.

(** ** Reading and writing *)

(** [sys_read_stdin]: the keys that are there, at most [count]. *)
Definition sys_read_stdin s (count : Z) : Z * list Z * Sys :=
  let bytes := take (Z.to_nat count) (s_keys s) in
  let s := s <| s_keys := drop (Z.to_nat count) (s_keys s) |> in
  (if (0 <? count) && bool_decide (bytes = []) then BLOCK_AND_RESTART else zlen bytes, bytes, s).

(** A read from an inode at the shared offset. *)
Definition read_inode s (slot fd : Z) (t : FileDescriptorTable) (inode count : Z) : outcome (Z * list Z * Sys) :=
  let offset := default 0 (get_offset (k_arcs (kern s)) t fd) in
  '(bytes, temp) ← read_at (s_vfs s) inode offset (replicate (Z.to_nat count) 0);
  if 0 <? bytes then
    let '(_, h) := advance_offset (k_arcs (kern s)) t fd bytes in
    Ret (bytes, take (Z.to_nat bytes) temp, put_arcs s h)
  else Ret (bytes, [], s).

Section Outside.
  (** [sys_recvfrom] and [sys_sendto] on a socket, the sound device behind an
      inode, and the readings of the clock during a call. *)
  Variables (recvfrom : Z -> Z -> Z * list Z) (sendto : Z -> list Z -> Z) (sound : Z -> option (list Z -> StreamWrite)).
  Variables (now now' now'' : Z).

Definition sys_read s (slot fd count : Z) : outcome (Z * list Z * Sys) :=
  match fd_table s slot with
  | None => Ret (0, [], s)
  | Some t =>
      let h := k_arcs (kern s) in
      match match fd_at t fd with Some d => Some d | None => if fd =? 0 then Some ConsoleIn else None end with
      | Some ConsoleIn => Ret (sys_read_stdin s count)
      | Some (File inode _ mode) | Some (Device inode _ mode _) =>
          match mode with WriteOnly => Ret (0, [], s) | _ => read_inode s slot fd t inode count end
      | Some (PipeFd _ PWrite) => Ret (0, [], s)
      | Some (PipeFd pipe_id PRead) =>
          '((result, bytes), s) ← pipe_call s (pipe_try_read pipe_id count);
          Ret (if negb (is_nonblock h t fd) && (result =? USIZE_MAX) then BLOCK_AND_RESTART else result, bytes, s)
      | Some (FileTable.Pty pty_id side) =>
          let nonblock := is_nonblock h t fd in
          '((result, bytes), terms) ← Tty.read (s_terms s) slot pty_id side count nonblock now now' now'';
          Ret (if result =? WOULD_BLOCK then if nonblock then USIZE_MAX else BLOCK_AND_RESTART else result, bytes, s <| s_terms := terms |>)
      | Some (Socket socket_id) => let '(result, bytes) := recvfrom socket_id count in Ret (result, bytes, s)
      | Some ConsoleOut | Some (Dir _ _ _) | None => Ret (0, [], s)
      end
  end.

(** A write to an inode at the shared offset. *)
Definition write_inode s (t : FileDescriptorTable) (fd inode : Z) (buf : list Z) : outcome (Z * Sys) :=
  let h := k_arcs (kern s) in
  '(written, v) ← write_at (s_vfs s) inode (default 0 (get_offset h t fd)) buf;
  let s := s <| s_vfs := v |> in
  Ret (written, if 0 <? written then put_arcs s (advance_offset h t fd written).2 else s).
Definition append_inode s (t : FileDescriptorTable) (fd inode : Z) (buf : list Z) : outcome (Z * Sys) :=
  '(written, new_eof, v) ← append_write (s_vfs s) inode buf;
  let s := s <| s_vfs := v |> in
  Ret (written, if 0 <? written then put_arcs s (set_offset (k_arcs (kern s)) t fd new_eof).2 else s).

Definition sys_write s (slot fd : Z) (buf : list Z) : outcome (Z * Sys) :=
  let count := zlen buf in
  if count =? 0 then Ret (0, s) else
  match fd_table s slot with
  | None => Ret (0, s)
  | Some t =>
      let h := k_arcs (kern s) in
      let nonblock := is_nonblock h t fd in
      match match fd_at t fd with Some d => Some d | None => if (fd =? 1) || (fd =? 2) then Some ConsoleOut else None end with
      | Some ConsoleOut | Some ConsoleIn => Ret (count, s <| s_out := s_out s ++ [buf] |>)
      | Some (File inode _ mode) =>
          match mode with
          | ReadOnly => Ret (0, s)
          | _ => if has_flag (get_flags h t fd) O_APPEND then append_inode s t fd inode buf else write_inode s t fd inode buf
          end
      | Some (PipeFd _ PRead) => Ret (0, s)
      | Some (PipeFd pipe_id PWrite) =>
          '(result, s) ← pipe_call s (pipe_try_write pipe_id buf);
          Ret (if negb nonblock && (result =? USIZE_MAX) then BLOCK_AND_RESTART else result, s)
      | Some (FileTable.Pty pty_id side) =>
          '(result, terms) ← Tty.write (s_terms s) slot pty_id side buf nonblock;
          Ret (if result =? WOULD_BLOCK then if nonblock then USIZE_MAX else BLOCK_AND_RESTART else result, s <| s_terms := terms |>)
      | Some (Socket socket_id) => Ret (sendto socket_id buf, s)
      | Some (Device inode _ mode _) =>
          match mode, sound inode with
          | ReadOnly, _ => Ret (0, s)
          | _, Some stream =>
              Ret (match stream buf with
                   | Written n => n
                   | WouldBlock => if nonblock then EAGAIN else AUDIO_BLOCK_AND_RESTART
                   | Unavailable => 0
                   end, s)
          | _, None => write_inode s t fd inode buf
          end
      | Some (Dir _ _ _) | None => Ret (0, s)
      end
  end.
End Outside.

(** [probe_inode_size]: blocks of 1024 bytes until one is short; 16 MiB are at
    most 16385 of them. *)
Fixpoint probe_loop (fuel : nat) (v : VfsState B) (inode size : Z) : outcome Z :=
  match fuel with
  | O => Ret size
  | S fuel =>
      '(n, _) ← read_at v inode size (replicate 1024 0);
      if n =? 0 then Ret size else
      size ← add_u 64 size n;
      if n <? 1024 then Ret size else
      if 16 * 1024 * 1024 <? size then Ret size else probe_loop fuel v inode size
  end.
Definition probe_inode_size (v : VfsState B) (inode : Z) : outcome Z := probe_loop (Z.to_nat 16386) v inode 0.
Definition inode_size (v : VfsState B) (inode : Z) : outcome Z :=
  o ← metadata_inode v inode;
  match o with Some m => Ret (m_size m) | None => probe_inode_size v inode end.

(** A [u64] as [i64], and the sum of two [i64]. *)
Definition as_i64 (x : Z) : Z := if x <? 2 ^ 63 then x else x - 2 ^ 64.
Definition add_i64 (a b : Z) : outcome Z := if (- 2 ^ 63 <=? a + b) && (a + b <? 2 ^ 63) then Ret (a + b) else Panic.

Definition sys_lseek s (slot fd offset whence : Z) : outcome (Z * Sys) :=
  match fd_table s slot with
  | None => Ret (EBADF, s)
  | Some t =>
      let h := k_arcs (kern s) in
      match fd_at t fd with
      | Some (File inode _ _) | Some (Device inode _ _ _) =>
          size ← inode_size (s_vfs s) inode;
          let current_off := default 0 (get_offset h t fd) in
          if negb ((whence =? SEEK_SET) || (whence =? SEEK_CUR) || (whence =? SEEK_END)) then Ret (EINVAL, s) else
          new ← add_i64 (if whence =? SEEK_SET then 0 else if whence =? SEEK_CUR then as_i64 current_off else as_i64 size) offset;
          if new <? 0 then Ret (EINVAL, s) else
          let '(ok, h) := set_offset h t fd new in
          if ok : bool then Ret (new mod 2 ^ 32, put_arcs s h) else Ret (EBADF, s)
      | Some (Dir _ _ _) =>
          if negb (whence =? SEEK_SET) || negb (offset =? 0) then Ret (EINVAL, s) else
          let '(ok, h) := set_cookie h t fd 0 in
          if ok : bool then Ret (0, put_arcs s h) else Ret (EBADF, s)
      | _ => Ret (EBADF, s)
      end
  end.

(** ** Opening *)

Definition path_is_dir (v : VfsState B) (p : path) : outcome bool :=
  o ← metadata v p;
  Ret (match o with Some m => Z.land (m_mode m) S_IFMT =? S_IFDIR | None => false end).

(** The path of the task, absolute and normalised. *)
Definition task_path s (slot : Z) (raw : path) : path := resolve_task_path (s_cwd s !! slot) raw.

(** A new descriptor [d] in the lowest free slot with status [flags]; [None]
    when there is no table or no slot. *)
Definition install s (slot : Z) (d : FileDescriptor) (flags : Z) : option (Z * Sys) :=
  t ← fd_table s slot;
  fd ← alloc_fd t;
  let '(_, h, t) := insert_fd (k_arcs (kern s)) t fd d in
  Some (fd, put_table s slot (set_flags h t fd flags).2 t).

(** [/dev/tty] is the controlling pseudo terminal of the process. *)
Definition open_tty s (slot flags : Z) : outcome (Z * Sys) :=
  let id := match task_at (k_sched (kern s)) slot with Some t => pty_id t | None => -1 end in
  if id <? 0 then Ret (ENXIO, s) else
  let '(ok, terms) := add_ref (s_terms s) id Slave in
  if negb ok then Ret (ENXIO, s) else
  let s := s <| s_terms := terms |> in
  match install s slot (FileTable.Pty id Slave) (Z.land flags O_NONBLOCK) with
  | Some (fd, s) => Ret (fd, s)
  | None => terms ← close_ref (s_terms s) id Slave; Ret (ENOMEM, s <| s_terms := terms |>)
  end.

Definition open_dir s (slot : Z) (p : path) (flags : Z) : Z * Sys :=
  if has_flag flags O_WRONLY || has_flag flags O_RDWR then (EINVAL, s) else
  if 96 <=? zlen p then (EINVAL, s) else
  match install s slot (Dir (p ++ replicate (96 - length p) 0) (zlen p) 0) (Z.land flags O_NONBLOCK) with
  | Some (fd, s) => (fd, s)
  | None => (ENOMEM, s)
  end.

Definition mode_of (flags : Z) : FileMode :=
  let acc := Z.land flags 3 in
  if acc =? O_WRONLY then WriteOnly else if acc =? O_RDWR then ReadWrite else ReadOnly.

(** The inode to open: a missing file is created, a present one truncated, as
    the flags ask. *)
Definition open_inode (v : VfsState B) (p : path) (flags : Z) : outcome (option Z * VfsState B) :=
  let acc := Z.land flags 3 in
  o ← resolve_path v p;
  match o with
  | None =>
      if has_flag flags O_CREAT then
        '(ok, v) ← create_file v p [];
        if negb ok then Ret (None, v) else o ← resolve_path v p; Ret (o, v)
      else Ret (None, v)
  | Some inode =>
      if has_flag flags O_TRUNC && ((acc =? O_WRONLY) || (acc =? O_RDWR)) then
        '(_, v) ← create_file v p [];
        o ← resolve_path v p; Ret (o, v)
      else Ret (Some inode, v)
  end.

Definition dev_tty : path := str "/dev/tty".
Definition dev_prefix : path := str "/dev/".

Section Devices.
  (** [DevFS::device_kind]: the kinds of the registered devices. *)
  Variable device_kind : path -> option DeviceKind.

(** [sys_open] of the path [raw] that the pointer led to *)
Definition sys_open s (slot : Z) (raw : path) (flags : Z) : outcome (Z * Sys) :=
  if bool_decide (raw = []) then Ret (ENOENT, s) else
  let p := task_path s slot raw in
  if bool_decide (p = dev_tty) then open_tty s slot flags else
  d ← path_is_dir (s_vfs s) p;
  if d : bool then Ret (open_dir s slot p flags) else
  if has_flag flags O_DIRECTORY then Ret (ENOTDIR, s) else
  '(o, v) ← open_inode (s_vfs s) p flags;
  let s := s <| s_vfs := v |> in
  match o with
  | None => Ret (ENOENT, s)
  | Some inode =>
      offset ← (if has_flag flags O_APPEND then inode_size v inode else Ret 0);
      let d := match name ← strip_prefix dev_prefix p; device_kind name with
               | Some kind => Device inode offset (mode_of flags) kind
               | None => File inode offset (mode_of flags)
               end in
      match install s slot d (Z.land flags OFD_STATUS_MASK) with
      | Some (fd, s) => Ret (fd, s)
      | None => Ret (ENOMEM, s)
      end
  end.
End Devices.

(** ** Paths *)

Definition path_call s (slot : Z) (raw : path) (f : VfsState B -> path -> outcome (bool * VfsState B)) : outcome (Z * Sys) :=
  if bool_decide (raw = []) then Ret (EINVAL, s) else
  '(ok, v) ← f (s_vfs s) (task_path s slot raw);
  Ret (if ok : bool then 0 else USIZE_MAX, s <| s_vfs := v |>).
Definition sys_mkdir s (slot : Z) (raw : path) : outcome (Z * Sys) := path_call s slot raw mkdir.
Definition sys_rmdir s (slot : Z) (raw : path) : outcome (Z * Sys) := path_call s slot raw rmdir.
Definition sys_unlink s (slot : Z) (raw : path) : outcome (Z * Sys) := path_call s slot raw remove_file.

(** The loop of [sys_rename] over the tables of all tasks. *)
Definition rewrite_tables (old new : path) (m : gmap Z FileDescriptorTable) : outcome (gmap Z FileDescriptorTable) :=
  map_fold (fun slot t r => m ← r; t ← rewrite_dir_paths t old new; Ret (<[slot := t]> m)) (Ret ∅) m.
Definition sys_rename s (slot : Z) (old_raw new_raw : path) : outcome (Z * Sys) :=
  if bool_decide (old_raw = []) || bool_decide (new_raw = []) then Ret (EINVAL, s) else
  let old := task_path s slot old_raw in let new := task_path s slot new_raw in
  '(r, v) ← rename (s_vfs s) old new;
  let s := s <| s_vfs := v |> in
  match r with
  | Ok _ => m ← rewrite_tables old new (k_tables (kern s)); Ret (0, with_kern s (kern s <| k_tables := m |>))
  | Err NotFound => Ret (ENOENT, s)
  | Err Exists => Ret (EEXIST, s)
  | Err CrossDevice => Ret (EXDEV, s)
  | Err Unsupported => Ret (EINVAL, s)
  end.

Definition sys_chdir s (slot : Z) (raw : path) : outcome (Z * Sys) :=
  if bool_decide (raw = []) then Ret (ENOENT, s) else
  let p := task_path s slot raw in
  d ← path_is_dir (s_vfs s) p;
  if negb d then Ret (ENOTDIR, s) else
  match fd_table s slot with
  | Some _ => Ret (0, s <| s_cwd := <[slot := p]> (s_cwd s) |>)
  | None => Ret (EINVAL, s)
  end.

(** [sys_getcwd] with a buffer of [size] bytes *)
Definition sys_getcwd s (slot size : Z) : Z * list Z :=
  if size =? 0 then (EFAULT, []) else
  let cwd := default [slash] (s_cwd s !! slot) in
  if size <? zlen cwd + 1 then (ENOMEM, []) else (zlen cwd + 1, cwd ++ [0]).

(** ** Listing *)

(** One entry of [getdents64] and the space it takes. *)
Definition reclen (e : DirEntry) : Z := Z.land (19 + zlen (e_name e) + 1 + 7) (not_u 32 7).
Definition dirent (idx : Z) (e : DirEntry) : list Z :=
  le_bytes 8 (e_inode e) ++ le_bytes 8 (idx + 1) ++ le_bytes 2 (reclen e) ++ [if e_type e =? 2 then 4 else 8] ++ e_name e ++ [0].

(** The loop of [sys_getdents64] over the entries from index [idx] on. *)
Fixpoint fill_dirents (entries : list DirEntry) (idx written : Z) (buf : list Z) : Z * Z * list Z :=
  match entries with
  | [] => (idx, written, buf)
  | e :: entries =>
      if zlen buf <? written + reclen e then (idx, written, buf)
      else fill_dirents entries (idx + 1) (written + reclen e) (splice buf (Z.to_nat written) (dirent idx e))
  end.

(** [sys_getdents64] into the buffer [buf] *)
Definition sys_getdents64 s (slot fd : Z) (buf : list Z) : outcome (Z * list Z * Sys) :=
  if zlen buf <? 24 then Ret (EINVAL, buf, s) else
  match fd_table s slot with
  | None => Ret (EBADF, buf, s)
  | Some t =>
      match fd_at t fd with
      | Some (Dir p len _) =>
          let name := take (Z.to_nat len) p in
          let cookie := default 0 (get_cookie (k_arcs (kern s)) t fd) in
          o ← list_directory_entries (s_vfs s) (if utf8_valid name then name else [slash]);
          match o with
          | None => Ret (ENOTDIR, buf, s)
          | Some entries =>
              let '(idx, written, buf) := fill_dirents (drop (Z.to_nat cookie) entries) cookie 0 buf in
              Ret (written, buf, put_arcs s (set_cookie (k_arcs (kern s)) t fd idx).2)
          end
      | _ => Ret (ENOTDIR, buf, s)
      end
  end.

(** [sys_ls] into a buffer of [size] bytes: names with a slash after
    directories, a line each, while they fit *)
Fixpoint ls_loop (size : Z) (entries : list DirEntry) (out : list Z) : list Z :=
  match entries with
  | [] => out
  | e :: entries =>
      let line := e_name e ++ (if e_type e =? 2 then [slash] else []) ++ [10] in
      if size <? zlen out + zlen line then out else ls_loop size entries (out ++ line)
  end.
Definition sys_ls s (slot : Z) (raw : path) (size : Z) : outcome (Z * list Z) :=
  let p := if bool_decide (raw = []) then default [slash] (s_cwd s !! slot) else task_path s slot raw in
  o ← list_directory_entries (s_vfs s) p;
  Ret (match o with Some entries => let out := ls_loop size entries [] in (zlen out, out) | None => (0, []) end).

(** ** Metadata *)

Definition sys_fstat64 s (slot fd : Z) : outcome (Z * option Stat64) :=
  match fd_table s slot with
  | None => Ret (EBADF, None)
  | Some t =>
      let meta : outcome (option Metadata) :=
        match match fd_at t fd with
              | Some d => Some d
              | None => if fd =? 0 then Some ConsoleIn else if (fd =? 1) || (fd =? 2) then Some ConsoleOut else None
              end with
        | Some (File inode _ _) | Some (Device inode _ _ _) => o ← metadata_inode (s_vfs s) inode; Ret (Some (default (synthetic_meta inode (Z.lor S_IFREG 0x1A4)) o))
        | Some (Dir p len _) =>
            let name := take (Z.to_nat len) p in
            o ← metadata (s_vfs s) (if utf8_valid name then name else [slash]); Ret (Some (default (synthetic_meta 1 (Z.lor S_IFDIR 0x1ED)) o))
        | Some ConsoleIn | Some ConsoleOut | Some (FileTable.Pty _ _) => Ret (Some (synthetic_meta 0 (Z.lor S_IFCHR 0x190)))
        | Some (PipeFd pipe_id _) => Ret (Some (synthetic_meta pipe_id 0x1180))
        | Some (Socket socket_id) => Ret (Some (synthetic_meta socket_id 0xC180))
        | None => Ret None
        end in
      o ← meta;
      Ret (match o with Some m => (0, Some (fill_stat64 m)) | None => (EBADF, None) end)
  end.

Definition sys_stat64 s (slot : Z) (raw : path) : outcome (Z * option Stat64) :=
  if bool_decide (raw = []) then Ret (ENOENT, None) else
  let p := task_path s slot raw in
  if bool_decide (p = dev_tty) then
    let has_tty := match task_at (k_sched (kern s)) slot with Some t => 0 <=? pty_id t | None => false end in
    Ret (if negb has_tty then (ENXIO, None) else (0, Some (fill_stat64 (synthetic_meta 0 (Z.lor S_IFCHR 0x190)))))
  else
  o ← metadata (s_vfs s) p;
  Ret (match o with Some m => (0, Some (fill_stat64 m)) | None => (ENOENT, None) end).

(** [sys_mount_list] with room for [max] paths of 96 bytes *)
Definition mount_info (p : path) : list Z := let p := take 95 p in p ++ replicate (96 - length p) 0.
Definition sys_mount_list s (null : bool) (max : Z) : Z * list (list Z) :=
  let mounts := mount_points (s_vfs s) in
  if null || (max =? 0) then (zlen mounts, []) else
  let n := Z.min (zlen mounts) max in (n, mount_info <$> take (Z.to_nat n) mounts).

(** ** The descriptors of a child *)

(** [install_child_fd]; the child's table is not published yet. *)
Definition install_child_fd s (parent_slot : Z) (h : Arcs) (child : FileDescriptorTable) (child_fd parent_fd : Z) (default : FileDescriptor)
    : Arcs * FileDescriptorTable :=
  let fresh h := let '(_, h, child) := set_fd h child child_fd default in (h, child) in
  if parent_fd <? 0 then fresh h else
  match fd_table s parent_slot with
  | None => fresh h
  | Some parent =>
      match clone_entry h parent parent_fd with
      | (Some (d, ofd), h) => let '(_, h, child) := set_shared h child child_fd d ofd in (h, child)
      | (None, h) => fresh h
      end
  end.

(** The descriptors and the working directory that [sys_spawn_image] gives to
    the child in [slot]. *)
Definition spawn_fds s (parent_slot slot stdin_fd stdout_fd stderr_fd : Z) : Sys :=
  let '(h, child) := with_stdio (k_arcs (kern s)) in
  let '(h, child) := install_child_fd s parent_slot h child 0 stdin_fd ConsoleIn in
  let '(h, child) := install_child_fd s parent_slot h child 1 stdout_fd ConsoleOut in
  let '(h, child) := install_child_fd s parent_slot h child 2 stderr_fd ConsoleOut in
  put_table s slot h child <| s_cwd := <[slot := default [slash] (s_cwd s !! parent_slot)]> (s_cwd s) |>.
End Calls.
Arguments Sys : clear implicits.

(** ** Counting descriptors *)

(** The slots of all tables that hold the description [x]. *)
Definition totals (m : gmap Z FileDescriptorTable) (x : Z) : Z := FileTable.total (snd <$> map_to_list m) x.

Lemma total_perm ts ts' x : ts ≡ₚ ts' -> FileTable.total ts x = FileTable.total ts' x.
Proof. induction 1; rewrite ?total_cons; lia. Qed.

Lemma totals_fresh m i t x : m !! i = None -> totals (<[i := t]> m) x = refs (ofds t) x + totals m x.
Proof. intros Hi. unfold totals. rewrite (total_perm _ _ x (fmap_Permutation snd _ _ (map_to_list_insert m i t Hi))). apply total_cons. Qed.

Lemma totals_insert m i t t' x : m !! i = Some t -> totals (<[i := t']> m) x = totals m x - refs (ofds t) x + refs (ofds t') x.
Proof.
  intros Hi. rewrite <- insert_delete_eq, totals_fresh by apply lookup_delete_eq. rewrite <- (insert_delete_id m i t Hi) at 2.
  rewrite totals_fresh by apply lookup_delete_eq. lia.
Qed.

Lemma totals_lookup m i t x : m !! i = Some t -> refs (ofds t) x <= totals m x.
Proof.
  intros Hi. pose proof (totals_insert m i t table_new x Hi) as Ht. rewrite refs_new in Ht. assert (0 <= totals (<[i := table_new]> m) x); [apply refs_nonneg|lia].
Qed.

Lemma totals_zero m x : totals m x = 0 -> forall i t, m !! i = Some t -> refs (ofds t) x = 0.
Proof. intros H i t Hi. pose proof (totals_lookup m i t x Hi). pose proof (refs_nonneg (ofds t) x). lia. Qed.

Lemma refs_pos t x : 0 < refs (ofds t) x -> exists fd, ofd_at t fd = Some x.
Proof.
  intros H. destruct (list_find (fun o => o = Some x) (ofds t)) as [[i o]|] eqn:E.
  - apply list_find_Some in E as (Hi & -> & _). exists (Z.of_nat i). unfold ofd_at, get. rewrite (proj2 (Z.ltb_ge _ _)), Nat2Z.id, Hi by lia. done.
  - apply list_find_None in E. assert (refs (ofds t) x = 0); [|lia]. apply refs_zero. intros i Hi. by apply (Forall_lookup_1 _ _ _ _ E Hi).
Qed.

Lemma totals_pos m x : 0 < totals m x -> exists i t fd, m !! i = Some t /\ ofd_at t fd = Some x.
Proof.
  induction m as [|i t m Hi IH] using map_ind; [done|]. rewrite totals_fresh by done. intros H. destruct (Z.le_gt_cases (refs (ofds t) x) 0) as [Hz|Hp].
  - destruct IH as (j & u & fd & Hj & Hu); [lia|]. exists j, u, fd. split; [|done]. rewrite lookup_insert_ne; [done|]. intros ->. congruence.
  - destruct (refs_pos t x Hp) as [fd Hfd]. exists i, t, fd. by rewrite lookup_insert_eq.
Qed.

(** ** Pipe ends *)

Section Ends.
  Context {F : Type} `{!FileStore F}.
  Implicit Types (k : Kern F) (ends : gmap Z (Z * PipeEnd)) (owed : list (Z * PipeEnd)).

Definition end_of (d : option FileDescriptor) : option (Z * PipeEnd) := match d with Some (PipeFd id e) => Some (id, e) | _ => None end.

#[global] Instance PipeEnd_eq_dec : EqDecision PipeEnd.
Proof. solve_decision. Defined.

(** The references of a pipe end, as the pipe counts them. *)
Definition open_ends (t : list Pipe) (id : Z) (e : PipeEnd) : Z :=
  match abs t id with Some q => match e with PRead => q_readers q | PWrite => q_writers q end | None => 0 end.

Definition count_ends ends (ie : Z * PipeEnd) : Z := Z.of_nat (size (filter (fun p => p.2 = ie) ends)).
Definition count_owed owed (ie : Z * PipeEnd) : Z := Z.of_nat (length (filter (fun o => o = ie) owed)).

(** Every description has as many references as slots; [ends] says which of
    them are pipe ends, and the pipes count exactly these and the ends that a
    call has in hand. *)
Record ends_ok ends owed k : Prop := {
  eo_arcs : arcs_ok (k_arcs k);
  eo_tables : forall slot t, k_tables k !! slot = Some t -> table_wf t;
  eo_count : forall x, strong_count (k_arcs k) x = totals (k_tables k) x;
  eo_ends : forall slot t fd x, k_tables k !! slot = Some t -> ofd_at t fd = Some x -> ends !! x = end_of (fd_at t fd);
  eo_live : forall x ie, ends !! x = Some ie -> 1 <= strong_count (k_arcs k) x;
  eo_pipes : Pipe.table_ok (k_pipes k);
  eo_refs : forall id e, open_ends (k_pipes k) id e = count_ends ends (id, e) + count_owed owed (id, e)
}.

Lemma ends_owned ends owed k slot t : ends_ok ends owed k -> k_tables k !! slot = Some t -> owned (k_arcs k) t.
Proof. intros H Ht x. rewrite (eo_count _ _ _ H). by eapply totals_lookup. Qed.

Lemma ends_frame ends owed k k' : k_arcs k' = k_arcs k -> k_tables k' = k_tables k -> k_pipes k' = k_pipes k -> ends_ok ends owed k -> ends_ok ends owed k'.
Proof. intros E1 E2 E3 [H1 H2 H3 H4 H5 H6 H7]. split; rewrite ?E1, ?E2, ?E3; done. Qed.

Lemma count_ends_insert ends x ie ie' : ends !! x = None -> count_ends (<[x := ie]> ends) ie' = count_ends ends ie' + (if decide (ie = ie') then 1 else 0).
Proof.
  intros Hx. unfold count_ends. case_decide as E.
  - rewrite map_filter_insert_True by done. rewrite map_size_insert_None; [lia|]. apply map_lookup_filter_None. by left.
  - rewrite map_filter_insert_False by done. rewrite delete_id by done. lia.
Qed.

Lemma count_ends_delete ends x ie ie' : ends !! x = Some ie -> count_ends (base.delete x ends) ie' = count_ends ends ie' - (if decide (ie = ie') then 1 else 0).
Proof.
  intros Hx. pose proof (count_ends_insert (base.delete x ends) x ie ie' (lookup_delete_eq _ _)) as H. rewrite insert_delete_id in H by done. lia.
Qed.

Lemma count_owed_cons ie owed ie' : count_owed (ie :: owed) ie' = count_owed owed ie' + (if decide (ie = ie') then 1 else 0).
Proof. unfold count_owed. rewrite filter_cons. case_decide; cbn [length]; lia. Qed.

Definition set_table k (slot : Z) (h : Arcs) (t : FileDescriptorTable) : Kern F := k <| k_arcs := h |> <| k_tables := <[slot := t]> (k_tables k) |>.

(** A call changes the table of its process. *)
Lemma ends_update ends owed k slot t h' t' ends' owed' :
  ends_ok ends owed k -> k_tables k !! slot = Some t -> balanced (k_arcs k) t h' t' ->
  (forall fd x, ofd_at t' fd = Some x -> ends' !! x = end_of (fd_at t' fd)) ->
  (forall slot' u fd x, slot' <> slot -> k_tables k !! slot' = Some u -> ofd_at u fd = Some x -> ends' !! x = ends !! x) ->
  (forall x ie, ends' !! x = Some ie -> 1 <= strong_count h' x) ->
  (forall ie, count_ends ends' ie + count_owed owed' ie = count_ends ends ie + count_owed owed ie) ->
  ends_ok ends' owed' (set_table k slot h' t').
Proof.
  intros H Ht (Ha & Hw & Hb) HA HB HC HD. split; cbn.
  - done.
  - intros slot' u Hu. apply lookup_insert_Some in Hu as [[<- <-]|[_ Hu]]; [done|]. by apply (eo_tables _ _ _ H slot').
  - intros x. rewrite (totals_insert _ _ t) by done. rewrite <- (eo_count _ _ _ H). specialize (Hb x). lia.
  - intros slot' u fd x Hu Hx. apply lookup_insert_Some in Hu as [[<- <-]|[Hne Hu]]; [by apply HA|]. rewrite (HB slot' u fd x) by done. by apply (eo_ends _ _ _ H slot' u fd x).
  - done.
  - apply (eo_pipes _ _ _ H).
  - intros id e. rewrite (eo_refs _ _ _ H). specialize (HD (id, e)). lia.
Qed.

(** A description that a slot holds is below the next handle. *)
Lemma ends_fresh ends owed k : ends_ok ends owed k ->
  ends !! next_arc (k_arcs k) = None /\ forall slot t fd x, k_tables k !! slot = Some t -> ofd_at t fd = Some x -> x <> next_arc (k_arcs k) /\ 1 <= strong_count (k_arcs k) x.
Proof.
  intros H. assert (forall x, 1 <= strong_count (k_arcs k) x -> x < next_arc (k_arcs k)) as Hlt.
  { intros x Hx. destruct (count_pos _ x (eo_arcs _ _ _ H) Hx) as [o Ho]. apply (eo_arcs _ _ _ H) in Ho. lia. }
  split.
  - destruct (ends !! next_arc (k_arcs k)) as [ie|] eqn:E; [|done]. apply (eo_live _ _ _ H), Hlt in E. lia.
  - intros slot t fd x Ht Hx. pose proof (eo_tables _ _ _ H slot t Ht) as Hw. pose proof (ofd_at_range t fd x Hw Hx) as Hr.
    pose proof (slot_held t fd Hw Hr x) as Hs. rewrite Hx in Hs. unfold FileTable.holds in Hs. rewrite bool_decide_eq_true_2 in Hs by done.
    pose proof (ends_owned _ _ _ _ _ H Ht x). assert (1 <= strong_count (k_arcs k) x) as Hc by lia. split; [|done]. apply Hlt in Hc. lia.
Qed.

Definition owed_for (d : FileDescriptor) : list (Z * PipeEnd) := match end_of (Some d) with Some ie => [ie] | None => [] end.
Definition add_end (x : Z) (d : FileDescriptor) ends : gmap Z (Z * PipeEnd) := match end_of (Some d) with Some ie => <[x := ie]> ends | None => ends end.

(** A new descriptor in a free slot. *)
Lemma ends_insert ends owed k slot t fd d ok h' t' :
  ends_ok ends (owed_for d ++ owed) k -> k_tables k !! slot = Some t -> 0 <= fd < FD_COUNT -> fd_at t fd = None -> insert_fd (k_arcs k) t fd d = (ok, h', t') ->
  ok = true /\ t' = set_slot t fd (Some d) (Some (next_arc (k_arcs k))) /\ ends_ok (add_end (next_arc (k_arcs k)) d ends) owed (set_table k slot h' t') /\
  strong_count h' (next_arc (k_arcs k)) = 1.
Proof.
  intros H Ht Hfd Hn Hi. pose proof (eo_tables _ _ _ H slot t Ht) as Hw. destruct (ends_fresh _ _ _ H) as [Hx Hlive]. set (x := next_arc (k_arcs k)) in *.
  assert (balanced (k_arcs k) t h' t') as Hb by (eapply (insert_fd_ok _ _ fd d); [apply (eo_arcs _ _ _ H)|done|by eapply ends_owned|lia|exact Hi]).
  unfold insert_fd in Hi. rewrite (proj2 (Z.leb_gt FD_COUNT fd)), Hn in Hi by lia. cbn [orb] in Hi. unfold arc_new in Hi. fold x in Hi. injection Hi as <- Hh <-.
  split; [done|]. split; [done|]. assert (ofd_at t fd = None) as Ho.
  { destruct (ofd_at t fd) eqn:E; [|done]. destruct Hw as (_ & _ & Hw). destruct (proj2 (Hw fd)) as [? ?]; [by rewrite E|congruence]. }
  assert (strong_count (k_arcs k) x = 0) as Hx0.
  { unfold strong_count. destruct (arcs (k_arcs k) !! x) as [[o n]|] eqn:E; [|done]. apply (eo_arcs _ _ _ H) in E. unfold x in E. lia. }
  assert (forall y, strong_count h' y = strong_count (k_arcs k) y + FileTable.holds (Some x) y) as Hcount.
  { intros y. destruct Hb as (_ & _ & Hb). specialize (Hb y). rewrite set_slot_refs, Ho in Hb by done. unfold FileTable.holds at 1 in Hb. rewrite bool_decide_eq_false_2 in Hb by done. lia. }
  assert (FileTable.holds (Some x) x = 1) as Hself by (unfold FileTable.holds; by rewrite bool_decide_eq_true_2).
  split; [|rewrite Hcount, Hx0, Hself; lia]. assert (forall y, y <> x -> add_end x d ends !! y = ends !! y) as Hne by (intros y Hy; unfold add_end; case_match; [by rewrite lookup_insert_ne|done]).
  eapply ends_update; try done.
  - intros fd' y Hy. destruct (ofd_at_range _ fd' y (proj1 (proj2 Hb)) Hy) as [Hf _]. destruct (set_slot_at t fd Hw Hfd (Some d) (Some x) fd' Hf) as [E1 E2].
    rewrite E1 in Hy. rewrite E2. destruct (Z.eqb_spec fd fd') as [<-|Hd].
    + injection Hy as <-. unfold add_end. destruct (end_of (Some d)) eqn:E; [by rewrite lookup_insert_eq|done].
    + destruct (Hlive slot t fd' y Ht Hy) as [Hyx _]. rewrite Hne by done. by apply (eo_ends _ _ _ H slot t).
  - intros slot' u fd' y _ Hu Hy. apply Hne. by apply (Hlive slot' u fd' y).
  - intros y ie Hy. rewrite Hcount. pose proof (holds_range (Some x) y). destruct (decide (y = x)) as [->|Hyx]; [rewrite Hself; lia|].
    rewrite Hne in Hy by done. apply (eo_live _ _ _ H) in Hy. lia.
  - intros ie. unfold add_end, owed_for. destruct (end_of (Some d)) as [je|] eqn:E; [|done]. rewrite count_ends_insert by done. cbn [app]. rewrite count_owed_cons. lia.
Qed.

Lemma held_refs t fd x : table_wf t -> ofd_at t fd = Some x -> 1 <= refs (ofds t) x.
Proof.
  intros Hw Hx. pose proof (slot_held t fd Hw (ofd_at_range t fd x Hw Hx) x) as Hs. rewrite Hx in Hs. unfold FileTable.holds in Hs. by rewrite bool_decide_eq_true_2 in Hs.
Qed.

Lemma slot_both t fd d : table_wf t -> fd_at t fd = Some d -> exists x, ofd_at t fd = Some x /\ 0 <= fd < FD_COUNT.
Proof.
  intros Hw Hd. destruct (proj1 (proj2 (proj2 Hw) fd)) as [x Hx]; [by rewrite Hd|]. exists x. split; [done|]. by eapply ofd_at_range.
Qed.

(** What [close] does to a used slot. *)
Lemma close_used h t fd d x : table_wf t -> fd_at t fd = Some d -> ofd_at t fd = Some x ->
  close h t fd = (Some (mkClosed d (strong_count h x =? 1)), arc_drop h x, set_slot t fd None None).
Proof. intros Hw Hd Hx. pose proof (ofd_at_range t fd x Hw Hx). unfold close. rewrite (proj2 (Z.leb_gt FD_COUNT fd)), Hd, Hx by lia. done. Qed.

(** A slot is closed; the last one of a pipe end leaves that end to the call. *)
Lemma ends_close ends owed k slot t fd d c h' t' :
  ends_ok ends owed k -> k_tables k !! slot = Some t -> fd_at t fd = Some d -> close (k_arcs k) t fd = (c, h', t') ->
  exists last ends', c = Some (mkClosed d last) /\ t' = set_slot t fd None None /\ ends_ok ends' (if last then owed_for d ++ owed else owed) (set_table k slot h' t') /\
    forall x, ofd_at t fd = Some x -> last = (strong_count (k_arcs k) x =? 1).
Proof.
  intros H Ht Hd Hc. pose proof (eo_tables _ _ _ H slot t Ht) as Hw. destruct (slot_both t fd d Hw Hd) as (x & Hx & Hfd).
  assert (balanced (k_arcs k) t h' t') as Hb by (eapply (close_ok _ _ fd); [apply (eo_arcs _ _ _ H)|done|by eapply ends_owned|lia|exact Hc]).
  rewrite (close_used _ _ _ d x) in Hc by done. injection Hc as <- <- <-. pose proof (eo_ends _ _ _ H slot t fd x Ht Hx) as Hex. rewrite Hd in Hex.
  assert (forall y, strong_count (arc_drop (k_arcs k) x) y = strong_count (k_arcs k) y - FileTable.holds (Some x) y) as Hcount.
  { intros y. destruct Hb as (_ & _ & Hb). specialize (Hb y). rewrite set_slot_refs, Hx in Hb by done. unfold FileTable.holds at 2 in Hb. rewrite bool_decide_eq_false_2 in Hb by done. lia. }
  assert (forall y, y <> x -> FileTable.holds (Some x) y = 0) as Hother by (intros y Hy; unfold FileTable.holds; by rewrite bool_decide_eq_false_2 by congruence).
  assert (FileTable.holds (Some x) x = 1) as Hself by (unfold FileTable.holds; by rewrite bool_decide_eq_true_2).
  pose proof (held_refs t fd x Hw Hx) as Hrefs. pose proof (ends_owned _ _ _ _ _ H Ht x) as Hown.
  set (t' := set_slot t fd None None) in *. set (last := strong_count (k_arcs k) x =? 1).
  assert (last = true -> totals (<[slot := t']> (k_tables k)) x = 0) as Hz.
  { intros Hl%Z.eqb_eq. rewrite (totals_insert _ _ t), <- (eo_count _ _ _ H), Hl by done. pose proof (proj2 (proj2 Hb) x) as Hbx. rewrite Hcount, Hself in Hbx. lia. }
  exists last, (if last then base.delete x ends else ends). split; [done|]. split; [done|]. split; [|intros y Hy; rewrite Hx in Hy; by injection Hy as <-]. eapply ends_update; try done.
  - intros fd' y Hy. destruct (ofd_at_range _ fd' y (proj1 (proj2 Hb)) Hy) as [Hf _]. destruct (set_slot_at t fd Hw Hfd None None fd' Hf) as [E1 E2]. pose proof Hy as Hy'.
    unfold t' in Hy |- *. rewrite E1 in Hy. rewrite E2. destruct (fd =? fd'); [done|]. rewrite <- (eo_ends _ _ _ H slot t fd' y Ht Hy). destruct last eqn:El; [|done].
    rewrite lookup_delete_ne; [done|]. intros ->. pose proof (totals_zero _ _ (Hz eq_refl) slot t' (lookup_insert_eq _ _ _)). pose proof (held_refs t' fd' y (proj1 (proj2 Hb)) Hy'). lia.
  - intros slot' u fd' y Hne Hu Hy. destruct last eqn:El; [|done]. rewrite lookup_delete_ne; [done|]. intros ->.
    pose proof (totals_zero _ _ (Hz eq_refl) slot' u) as Hu0. rewrite lookup_insert_ne in Hu0 by done. specialize (Hu0 Hu). pose proof (held_refs u fd' y (eo_tables _ _ _ H slot' u Hu) Hy). lia.
  - intros y ie Hy. rewrite Hcount. destruct (decide (y = x)) as [->|Hne].
    + destruct last eqn:El; [by rewrite lookup_delete_eq in Hy|]. apply Z.eqb_neq in El. rewrite Hself. lia.
    + rewrite Hother by done. assert (ends !! y = Some ie) as Hy' by (destruct last; [by rewrite lookup_delete_ne in Hy|done]). apply (eo_live _ _ _ H) in Hy'. lia.
  - intros ie. destruct last; [|done]. unfold owed_for. destruct (end_of (Some d)) as [je|] eqn:E; cbn [app].
    + rewrite (count_ends_delete _ _ je), count_owed_cons by done. lia.
    + by rewrite delete_id.
Qed.

Lemma ends_close_free ends owed k slot t fd c h' t' :
  ends_ok ends owed k -> k_tables k !! slot = Some t -> fd_at t fd = None -> close (k_arcs k) t fd = (c, h', t') -> c = None /\ h' = k_arcs k /\ t' = t.
Proof. intros H Ht Hd. unfold close. destruct (FD_COUNT <=? fd); [by intros [= <- <- <-]|]. rewrite Hd. by intros [= <- <- <-]. Qed.

(** A slot that holds no pipe end gets the description [x]. *)
Lemma ends_replace ends owed k slot t fd d x h' :
  ends_ok ends owed k -> k_tables k !! slot = Some t -> 0 <= fd < FD_COUNT -> end_of (fd_at t fd) = None -> ends !! x = end_of (Some d) ->
  balanced (k_arcs k) t h' (set_slot t fd (Some d) (Some x)) -> ends_ok ends owed (set_table k slot h' (set_slot t fd (Some d) (Some x))).
Proof.
  intros H Ht Hfd Ho Hx Hb. pose proof (eo_tables _ _ _ H slot t Ht) as Hw. eapply ends_update; try done.
  - intros fd' y Hy. destruct (ofd_at_range _ fd' y (proj1 (proj2 Hb)) Hy) as [Hf _]. destruct (set_slot_at t fd Hw Hfd (Some d) (Some x) fd' Hf) as [E1 E2].
    rewrite E1 in Hy. rewrite E2. destruct (fd =? fd'); [by injection Hy as <-|]. by apply (eo_ends _ _ _ H slot t).
  - intros y ie Hy. pose proof (proj2 (proj2 Hb) y) as Hby. rewrite set_slot_refs in Hby by done. pose proof (holds_range (Some x) y). pose proof (eo_live _ _ _ H y ie Hy).
    destruct (ofd_at t fd) as [z|] eqn:Hz.
    + assert (y <> z) by (intros ->; rewrite (eo_ends _ _ _ H slot t fd z Ht Hz) in Hy; congruence). unfold FileTable.holds at 1 in Hby. rewrite bool_decide_eq_false_2 in Hby by congruence. lia.
    + unfold FileTable.holds at 1 in Hby. rewrite bool_decide_eq_false_2 in Hby by done. lia.
Qed.

Lemma ends_modify ends owed k x f : ends_ok ends owed k -> ends_ok ends owed (k <| k_arcs := arc_modify (k_arcs k) x f |>).
Proof.
  intros [H1 H2 H3 H4 H5 H6 H7]. destruct (arc_modify_ok (k_arcs k) x f H1) as (Ha & Hc & _). split; cbn -[arc_modify]; try done; intros; rewrite Hc; eauto.
Qed.

Lemma set_table_same k slot t : k_tables k !! slot = Some t -> set_table k slot (k_arcs k) t = k.
Proof. intros H. unfold set_table. destruct k. cbn in *. by rewrite insert_id. Qed.
Lemma set_table_twice k slot h t h' t' : set_table (set_table k slot h t) slot h' t' = set_table k slot h' t'.
Proof. unfold set_table. cbn. by rewrite insert_insert_eq. Qed.
Lemma set_table_at k slot h t : k_tables (set_table k slot h t) !! slot = Some t.
Proof. apply lookup_insert_eq. Qed.

Lemma ends_dup2 ends owed k slot t old new ok h' t' :
  ends_ok ends owed k -> k_tables k !! slot = Some t -> 0 <= new -> fd_at t new = None -> dup2 (k_arcs k) t old new = (ok, h', t') ->
  ends_ok ends owed (set_table k slot h' t').
Proof.
  intros H Ht Hn Hf Hd. pose proof (eo_tables _ _ _ H slot t Ht) as Hw. destruct (Z.lt_ge_cases old 0) as [Hneg|Hold].
  { assert (fd_at t old = None) as Ho by (unfold fd_at, get; by rewrite (proj2 (Z.ltb_lt _ _) Hneg)). unfold dup2 in Hd. rewrite Ho in Hd. destruct (_ || _); injection Hd as <- <- <-; by rewrite set_table_same. }
  assert (balanced (k_arcs k) t h' t') as Hb by (eapply (dup2_ok _ _ old new); [apply (eo_arcs _ _ _ H)|done|by eapply ends_owned|done|done|exact Hd]).
  unfold dup2 in Hd. destruct (Z.leb_spec FD_COUNT old), (Z.leb_spec FD_COUNT new); cbn [orb] in Hd; try (injection Hd as <- <- <-; by rewrite set_table_same).
  destruct (fd_at t old) as [d|] eqn:Ed; [|injection Hd as <- <- <-; by rewrite set_table_same]. destruct (ofd_at t old) as [x|] eqn:Ex; [|injection Hd as <- <- <-; by rewrite set_table_same].
  destruct (old =? new); [injection Hd as <- <- <-; by rewrite set_table_same|]. injection Hd as <- <- <-. apply ends_replace; try done; [by rewrite Hf|].
  rewrite (eo_ends _ _ _ H slot t old x Ht Ex). by rewrite Ed.
Qed.

(** ** Pipes *)

Definition with_pipes k (p : pstate (Sched F)) : Kern F := k <| k_pipes := PIPES p |> <| k_sched := TASKS p |>.

Lemma ends_pipes ends owed owed' k p : ends_ok ends owed k -> Pipe.table_ok (PIPES p) ->
  (forall id e, open_ends (PIPES p) id e = open_ends (k_pipes k) id e - count_owed owed (id, e) + count_owed owed' (id, e)) -> ends_ok ends owed' (with_pipes k p).
Proof. intros [H1 H2 H3 H4 H5 H6 H7] Hp Hr. split; cbn; try done. intros id e. rewrite Hr, H7. lia. Qed.

Lemma count_owed_nonneg owed ie : 0 <= count_owed owed ie.
Proof. unfold count_owed. lia. Qed.
Lemma count_ends_nonneg ends ie : 0 <= count_ends ends ie.
Proof. unfold count_ends. lia. Qed.

Lemma open_ends_range t id e : 1 <= open_ends t id e -> 0 <= id.
Proof. unfold open_ends, abs, get. destruct (Z.ltb_spec id 0); cbn; lia. Qed.

Definition close_end (id : Z) (e : PipeEnd) : pstate (Sched F) -> outcome (pstate (Sched F)) := match e with PRead => pipe_close_reader id | PWrite => pipe_close_writer id end.

(** The end in hand is given back. *)
Lemma ends_release ends owed k id e : ends_ok ends ((id, e) :: owed) k ->
  exists k', run_pipe (close_end id e) k = Ret k' /\ ends_ok ends owed k' /\ k_arcs k' = k_arcs k /\ k_tables k' = k_tables k.
Proof.
  intros H. pose proof (eo_refs _ _ _ H) as Hr. assert (forall e', 0 <= open_ends (k_pipes k) id e') as Hnn.
  { intros e'. rewrite Hr. pose proof (count_ends_nonneg ends (id, e')). pose proof (count_owed_nonneg ((id, e) :: owed) (id, e')). lia. }
  assert (1 <= open_ends (k_pipes k) id e) as H1.
  { rewrite Hr, count_owed_cons, decide_True by done. pose proof (count_ends_nonneg ends (id, e)). pose proof (count_owed_nonneg owed (id, e)). lia. }
  pose proof (open_ends_range _ _ _ H1) as Hid. set (p := mkP (k_pipes k) (k_sched k)).
  assert (exists t, close_end id e p = Ret (mkP t (if decide (is_Some (abs (PIPES p) id)) then wake_waiters Input (TASKS p) else TASKS p)) /\ Pipe.table_ok t /\
    forall j, abs t j = if id =? j then spec_close (match e with PRead => (1, 0) | PWrite => (0, 1) end) (abs (PIPES p) id) else abs (PIPES p) j) as (t & Hc & Ht & Ha).
  { destruct e; [apply pipe_close_reader_abs|apply pipe_close_writer_abs]; try done; apply (eo_pipes _ _ _ H). }
  unfold run_pipe. fold p. rewrite Hc, bind_Ret_l. eexists. split; [reflexivity|]. split; [|done]. eapply (ends_pipes _ ((id, e) :: owed)); [done|done|]. intros j e'. cbn [PIPES].
  rewrite count_owed_cons. unfold open_ends at 1. rewrite Ha. destruct (Z.eqb_spec id j) as [<-|Hne]; [|rewrite decide_False by congruence; unfold open_ends; cbn; lia].
  unfold open_ends in H1, Hnn |- *. cbn [PIPES p]. destruct (abs (k_pipes k) id) as [q|] eqn:Eq; [|lia]. pose proof (Hnn PRead) as N1. pose proof (Hnn PWrite) as N2. cbn in N1, N2.
  cbn. destruct e, e'; cbn in *; rewrite ?decide_True by done; rewrite ?decide_False by congruence; destruct (_ && _) eqn:E; cbn; try lia; apply andb_true_iff in E as [E1 E2]; lia.
Qed.

Lemma ends_create ends owed k r p : ends_ok ends owed k -> pipe_create (mkP (k_pipes k) (k_sched k)) = Ret (r, p) ->
  ends_ok ends (match r with Some id => (id, PRead) :: (id, PWrite) :: owed | None => owed end) (with_pipes k p).
Proof.
  intros H Hc. destruct (pipe_create_abs (mkP (k_pipes k) (k_sched k))) as (r' & t & Hc' & Ht & Hr); [apply (eo_pipes _ _ _ H)|]. rewrite Hc in Hc'. injection Hc' as -> ->. cbn [PIPES] in *.
  destruct r' as [id|]; [|destruct Hr as [-> _]; eapply ends_pipes; [done|done|]; cbn; intros; lia]. destruct Hr as (Hid & Hnone & _ & Ha). eapply ends_pipes; [done|done|]. intros j e. cbn [PIPES].
  rewrite !count_owed_cons. unfold open_ends. rewrite Ha. destruct (Z.eqb_spec id j) as [<-|Hne]; [|rewrite !decide_False by congruence; lia].
  rewrite Hnone. destruct e; repeat case_decide; cbn; try congruence; lia.
Qed.

Lemma ends_pipe_read ends owed k id count r bs p : ends_ok ends owed k -> 0 <= id -> 0 <= count -> pipe_try_read id count (mkP (k_pipes k) (k_sched k)) = Ret (r, bs, p) ->
  ends_ok ends owed (with_pipes k p) /\ exists o, spec_read count (abs (k_pipes k) id) = (r, bs, o).
Proof.
  intros H Hid Hn Hc. destruct (pipe_try_read_abs id count (mkP (k_pipes k) (k_sched k))) as (r' & bs' & o & t & Hs & Hc' & Ht & Ha); [apply (eo_pipes _ _ _ H)|done|done|].
  rewrite Hc in Hc'. injection Hc' as -> -> ->. cbn [PIPES] in *. split; [|by exists o]. eapply ends_pipes; [done|done|]. intros j e. cbn [PIPES]. unfold open_ends. rewrite Ha. destruct (Z.eqb_spec id j) as [<-|Hne]; [|lia].
  unfold spec_read in Hs. destruct (abs (k_pipes k) id) as [q|]; [|injection Hs as _ _ <-; lia]. repeat case_match; simplify_eq; cbn; lia.
Qed.

Lemma ends_pipe_write ends owed k id data r p : ends_ok ends owed k -> 0 <= id -> pipe_try_write id data (mkP (k_pipes k) (k_sched k)) = Ret (r, p) -> ends_ok ends owed (with_pipes k p).
Proof.
  intros H Hid Hc. destruct (pipe_try_write_abs id data (mkP (k_pipes k) (k_sched k))) as (r' & bs' & o & t & Hs & Hc' & Ht & Ha); [apply (eo_pipes _ _ _ H)|done|].
  rewrite Hc in Hc'. injection Hc' as -> ->. cbn [PIPES] in *. eapply ends_pipes; [done|done|]. intros j e. cbn [PIPES]. unfold open_ends. rewrite Ha. destruct (Z.eqb_spec id j) as [<-|Hne]; [|lia].
  unfold spec_write in Hs. destruct (abs (k_pipes k) id) as [q|]; [|injection Hs as _ _ <-; lia]. repeat case_match; simplify_eq; cbn; lia.
Qed.
End Ends.

(** ** Terminals leave files alone *)

Section Frames.
  Context {F : Type} `{!FileStore F}.
  Implicit Types (k : Kern F) (s : Terminals F).

Definition files k : Arcs * gmap Z FileDescriptorTable * list Pipe := (k_arcs k, k_tables k, k_pipes k).

(** Follows the steps of a call that returned. *)
Ltac returned :=
  repeat (match goal with
  | H : _ ≫= _ = Ret _ |- _ => apply bind_Ret in H; destruct H as (? & ? & H)
  | p : (_ * _)%type |- _ => destruct p
  | H : context [match ?x with _ => _ end] |- _ = _ => destruct x eqn:?
  end; simplify_eq/=).

Lemma signal_slot_files sig k slot k' : signal_slot_group sig k slot = Ret k' -> files k' = files k.
Proof. unfold signal_slot_group, on_sched_res, force_kill. intros H. returned; done. Qed.

Lemma signal_group_files k g sig k' : signal_group k g sig = Ret k' -> files k' = files k.
Proof.
  unfold signal_group. generalize (slots_in_pgid (k_sched k) g). intros l. revert k. induction l as [|slot l IH]; intros k H; cbn in H; [by injection H as <-|].
  apply bind_Ret in H as (k1 & H1 & H). rewrite (IH k1 H). by eapply signal_slot_files.
Qed.

Lemma signal_foreground_files s tty sig s' : signal_foreground s tty sig = Ret s' -> files (t_kern s') = files (t_kern s).
Proof. unfold signal_foreground. case_match; [|by intros [= <-]]. intros HR. apply bind_Ret in HR as (k & H1 & [= <-]). by apply signal_group_files in H1. Qed.

Lemma close_ref_files s id side s' : close_ref s id side = Ret s' -> files (t_kern s') = files (t_kern s).
Proof.
  unfold close_ref. case_match; [|by intros [= <-]]. destruct (drop_ref _ _) as [p' hangup]. destruct hangup.
  - intros HR. apply bind_Ret in HR as (s1 & H1 & H2). apply signal_foreground_files in H1, H2. rewrite H2, H1. by case_match.
  - intros [= <-]. by case_match.
Qed.

Lemma ensure_files s slot o s' : ensure_controlling_tty s slot = Ret (o, s') -> files (t_kern s') = files (t_kern s).
Proof. unfold ensure_controlling_tty. intros H. returned; done. Qed.

Lemma alloc_pty_files s slot o s' : alloc_pty s slot = Ret (o, s') -> files (t_kern s') = files (t_kern s).
Proof.
  unfold alloc_pty. intros H. apply bind_Ret in H as ([o1 s1] & H1 & H). apply ensure_files in H1. rewrite <- H1. clear H1. cbv zeta in H. returned; done.
Qed.

Lemma check_background_files s slot id side b s' : check_background s slot id side = Ret (b, s') -> files (t_kern s') = files (t_kern s).
Proof.
  unfold check_background. destruct side; [by intros [= <- <-]|]. case_match; [|by intros [= <- <-]]. intros HR. apply bind_Ret in HR as (k & H1 & [= <- <-]). by apply signal_group_files in H1.
Qed.

Lemma try_read_files s id side len out eof s' : try_read_inner s id side len = (out, eof, s') -> files (t_kern s') = files (t_kern s).
Proof. unfold try_read_inner. case_match; [|by intros [= <- <- <-]]. destruct (read_pty _ _ _) as [[o e] p']. by intros [= <- <- <-]. Qed.

Lemma read_timed_files s slot id side len vmin vtime now now' now'' r out s' :
  read_timed s slot id side len vmin vtime now now' now'' = Ret (r, out, s') -> files (t_kern s') = files (t_kern s).
Proof.
  unfold read_timed. cbv zeta. intros H. apply bind_Ret in H as ([bg s1] & H1 & H). apply check_background_files in H1. rewrite <- H1. clear H1. destruct bg; [by injection H as _ _ <-|].
  destruct (try_read_inner s1 id side len) as [[o e] s2] eqn:E. apply try_read_files in E. rewrite <- E. clear E. repeat case_match; by injection H as _ _ <-.
Qed.

Lemma tty_read_files s slot id side len nonblock now now' now'' r out s' :
  Tty.read s slot id side len nonblock now now' now'' = Ret (r, out, s') -> files (t_kern s') = files (t_kern s).
Proof.
  unfold Tty.read. cbv zeta. intros H. returned;
  repeat match goal with
  | E : check_background _ _ _ _ = Ret _ |- _ => apply check_background_files in E
  | E : try_read_inner _ _ _ _ = _ |- _ => apply try_read_files in E
  | E : read_timed _ _ _ _ _ _ _ _ _ _ = Ret _ |- _ => apply read_timed_files in E
  end; congruence.
Qed.

Lemma write_loop_files data : forall s id side nonblock n r s', write_loop s id side data nonblock n = Ret (r, s') -> files (t_kern s') = files (t_kern s).
Proof.
  induction data as [|b data IH]; intros s id side nonblock n r s' H; cbn [write_loop] in H; [by injection H as _ <-|].
  destruct (p ← pty_at s id; write_byte p side b) as [[[p pending] progressed]|]; [|by injection H as _ <-]. apply bind_Ret in H as (s1 & H1 & H).
  assert (files (t_kern s1) = files (t_kern s)) as <-. { destruct pending as [[tty sig]|]; [by apply signal_foreground_files in H1|by injection H1 as <-]. }
  destruct progressed; [by eapply IH|]. by destruct nonblock; injection H as _ <-.
Qed.

Lemma tty_write_files s slot id side data nonblock r s' : Tty.write s slot id side data nonblock = Ret (r, s') -> files (t_kern s') = files (t_kern s).
Proof.
  unfold Tty.write. case_match; [|by apply write_loop_files]. intros H0. apply bind_Ret in H0 as (k & H1 & [= _ <-]). by apply signal_group_files in H1.
Qed.
End Frames.

(** ** The calls keep the pipe ends *)

Section CallProofs.
  Context {F : Type} `{!FileStore F} {B : Type} `{!Filesystem B}.
  Implicit Types (s : Sys F B) (ends : gmap Z (Z * PipeEnd)) (owed : list (Z * PipeEnd)).

Definition calls_ok s : Prop := exists ends, ends_ok ends [] (kern s).

Definition owed_of (c : ClosedFileDescriptor) : list (Z * PipeEnd) := if last_open_ref c then owed_for (desc c) else [].

Lemma ends_files ends owed (k k' : Kern F) : files k' = files k -> ends_ok ends owed k -> ends_ok ends owed k'.
Proof. unfold files. intros [= E1 E2 E3]. by apply ends_frame. Qed.

Lemma ends_perm ends owed owed' (k : Kern F) : owed ≡ₚ owed' -> ends_ok ends owed k -> ends_ok ends owed' k.
Proof.
  intros Hp [H1 H2 H3 H4 H5 H6 H7]. split; try done. intros id e. rewrite H7. unfold count_owed. do 2 f_equal. by apply Permutation_length, filter_Permutation.
Qed.

(** What a closed descriptor leaves behind is given back. *)
Lemma close_descriptor_ends ends owed s c : ends_ok ends (owed_of c ++ owed) (kern s) -> forall s', close_descriptor s c = Ret s' ->
  ends_ok ends owed (kern s') /\ k_tables (kern s') = k_tables (kern s) /\ k_arcs (kern s') = k_arcs (kern s) /\ s_vfs s' = s_vfs s /\ s_cwd s' = s_cwd s.
Proof.
  intros H s'. destruct c as [d last]. unfold close_descriptor, owed_of in *. cbn [last_open_ref desc] in *. destruct last; cbn [negb]; [|by intros [= <-]].
  destruct d; cbn [owed_for end_of app] in H; try (intros [= <-]; by split_and!).
  - intros [= <-]. split_and!; try done. by apply (ends_frame _ _ (kern s)).
  - destruct (ends_release _ _ _ _ _ H) as (k & Hk & Hok & Ha & Ht). destruct pend; cbn [close_end] in Hk; rewrite Hk, bind_Ret_l; intros [= <-]; by split_and!.
  - intros HR. apply bind_Ret in HR as (t & Ht & [= <-]). apply close_ref_files in Ht. unfold files in Ht. split_and!; try done; [|by simplify_eq..]. eapply ends_files; [|exact H]. exact Ht.
Qed.

Lemma sys_close_ok s slot fd r s' : sys_close s slot fd = Ret (r, s') -> calls_ok s -> calls_ok s'.
Proof.
  intros HR [ends H]. unfold sys_close in HR. destruct (fd_table s slot) as [t|] eqn:Ht; [|injection HR as _ <-; by exists ends]. destruct (close (k_arcs (kern s)) t fd) as [[c h'] t'] eqn:Hc.
  destruct (fd_at t fd) as [d|] eqn:Hd.
  - destruct (ends_close _ _ _ _ _ _ _ _ _ _ H Ht Hd Hc) as (last & ends' & -> & -> & H' & _). apply bind_Ret in HR as (s1 & H1 & [= _ <-]). exists ends'.
    eapply (close_descriptor_ends ends' []); [|exact H1]. unfold owed_of. cbn [last_open_ref desc]. rewrite app_nil_r. rewrite app_nil_r in H'. by destruct last.
  - destruct (ends_close_free _ _ _ _ _ _ _ _ _ H Ht Hd Hc) as (-> & -> & ->). injection HR as _ <-. by exists ends.
Qed.

Lemma take_from_ends n : forall ends owed (k : Kern F) slot t fd out h' t', ends_ok ends owed k -> k_tables k !! slot = Some t -> take_from n (k_arcs k) t fd = (out, h', t') ->
  exists ends', ends_ok ends' ((out ≫= owed_of) ++ owed) (set_table k slot h' t').
Proof.
  induction n as [|n IH]; intros ends owed k slot t fd out h' t' H Ht Hc; cbn [take_from] in Hc.
  { injection Hc as <- <- <-. exists ends. by rewrite set_table_same. }
  destruct (close (k_arcs k) t fd) as [[c h1] t1] eqn:Hcl. destruct (take_from n h1 t1 (fd + 1)) as [[out1 h2] t2] eqn:Htk. injection Hc as <- <- <-. destruct (fd_at t fd) as [d|] eqn:Hd.
  - destruct (ends_close _ _ _ _ _ _ _ _ _ _ H Ht Hd Hcl) as (last & ends1 & -> & -> & H1 & _).
    destruct (IH _ _ (set_table k slot h1 (set_slot t fd None None)) slot _ (fd + 1) out1 h2 t2 H1 (set_table_at _ _ _ _) Htk) as (ends2 & H2). rewrite set_table_twice in H2. exists ends2.
    eapply ends_perm; [|exact H2]. rewrite bind_cons. unfold owed_of at 2. cbn [last_open_ref desc]. destruct last; [|done]. by rewrite <- app_assoc, Permutation_app_swap_app.
  - destruct (ends_close_free _ _ _ _ _ _ _ _ _ H Ht Hd Hcl) as (-> & -> & ->). by apply (IH ends owed k slot t (fd + 1)).
Qed.

Lemma close_descriptors_ends l : forall ends s s', ends_ok ends (l ≫= owed_of) (kern s) -> close_descriptors s l = Ret s' -> ends_ok ends [] (kern s').
Proof.
  induction l as [|c l IH]; intros ends s s' H HR; cbn in HR; [by injection HR as <-|]. apply bind_Ret in HR as (s1 & H1 & HR). rewrite bind_cons in H.
  destruct (close_descriptor_ends _ _ _ _ H _ H1) as (H2 & _). by eapply IH.
Qed.

Lemma close_task_fds_ok s slot s' : close_task_fds s slot = Ret s' -> calls_ok s -> calls_ok s'.
Proof.
  intros HR [ends H]. unfold close_task_fds in HR. destruct (slot <=? 0); [injection HR as <-; by exists ends|]. destruct (fd_table s slot) as [t|] eqn:Ht; [|injection HR as <-; by exists ends].
  unfold take_all in HR. destruct (take_from _ _ _ _) as [[out h'] t'] eqn:Htk. destruct (take_from_ends _ _ _ _ _ _ _ _ _ _ H Ht Htk) as (ends' & H'). rewrite app_nil_r in H'. exists ends'. eapply (close_descriptors_ends out ends' (put_table s slot h' t')); [exact H'|exact HR].
Qed.

Lemma alloc_fd_free t fd : table_wf t -> alloc_fd t = Some fd -> fd_at t fd = None /\ 0 <= fd < FD_COUNT.
Proof.
  intros (Hl & _ & _) H. apply vec_position_Some in H as (l1 & d & l2 & Hd & -> & Hn & _). unfold fd_at. rewrite Hd, get_middle. split; [by destruct d|].
  pose proof (zlen_nonneg l1). pose proof (zlen_nonneg l2). rewrite Hd, zlen_app, zlen_cons in Hl. unfold FD_COUNT. lia.
Qed.

Lemma both_ends_ok ends owed s id s' : ends_ok ends ((id, PRead) :: (id, PWrite) :: owed) (kern s) -> close_both_ends s id = Ret s' -> ends_ok ends owed (kern s').
Proof.
  intros H HR. unfold close_both_ends in HR. destruct (ends_release _ _ _ _ _ H) as (k1 & Hk1 & H1 & _). cbn [close_end] in Hk1. rewrite Hk1, bind_Ret_l in HR.
  destruct (ends_release _ _ _ _ _ H1) as (k2 & Hk2 & H2 & _). cbn [close_end] in Hk2. rewrite Hk2, bind_Ret_l in HR. by injection HR as <-.
Qed.

Lemma sys_pipe_ok s slot r words s' : is_Some (fd_table s slot) -> sys_pipe s slot = Ret (r, words, s') -> calls_ok s -> calls_ok s'.
Proof.
  intros [t0 Ht0] HR [ends H]. unfold sys_pipe in HR. apply bind_Ret in HR as ([o s1] & H1 & HR). unfold pipe_call in H1. apply bind_Ret in H1 as ([o' p] & Hp & [= -> <-]).
  pose proof (ends_create _ _ _ _ _ H Hp) as Hc. fold (with_pipes (kern s) p) in HR. set (s1 := with_kern s (with_pipes (kern s) p)) in *. fold (kern s1) in Hc.
  destruct o as [id|]; [|injection HR as _ _ <-; by exists ends].
  assert (fd_table s1 slot = Some t0) as Ht by exact Ht0. rewrite Ht in HR. pose proof (eo_tables _ _ _ Hc slot t0 Ht) as Hw. destruct (alloc_fd t0) as [rd|] eqn:Ea.
  2: { apply bind_Ret in HR as (s2 & H2 & [= _ _ <-]). exists ends. eapply (both_ends_ok ends [] s1 id); [exact Hc|exact H2]. }
  destruct (alloc_fd_free t0 rd Hw Ea) as [Hf Hr]. destruct (insert_fd (k_arcs (kern s1)) t0 rd (PipeFd id PRead)) as [[ok h1] t1] eqn:Ei.
  destruct (ends_insert _ _ _ slot t0 rd (PipeFd id PRead) _ _ _ Hc Ht Hr Hf Ei) as (_ & Et1 & H1 & Hone). set (s2 := put_table s1 slot h1 t1) in *. fold (kern s2) in H1.
  assert (fd_table s2 slot = Some t1) as Ht1 by apply set_table_at. pose proof (eo_tables _ _ _ H1 slot t1 Ht1) as Hw1. destruct (alloc_fd t1) as [wd|] eqn:Eb.
  - destruct (alloc_fd_free t1 wd Hw1 Eb) as [Hf1 Hr1]. destruct (insert_fd (k_arcs (kern s2)) t1 wd (PipeFd id PWrite)) as [[ok2 h2] t2] eqn:Ei2. injection HR as _ _ <-.
    destruct (ends_insert _ _ _ slot t1 wd (PipeFd id PWrite) _ _ _ H1 Ht1 Hr1 Hf1 Ei2) as (_ & _ & H2 & _). eexists. exact H2.
  - destruct (close (k_arcs (kern s2)) t1 rd) as [[c h2] t2] eqn:Ecl. destruct (set_slot_at t0 rd Hw Hr (Some (PipeFd id PRead)) (Some (next_arc (k_arcs (kern s1)))) rd (proj1 Hr)) as [Eo Ed].
    rewrite Z.eqb_refl in Eo, Ed. change (ofd_at (set_slot t0 rd (Some (PipeFd id PRead)) (Some (next_arc (k_arcs (with_pipes (kern s) p))))) rd = Some (next_arc (k_arcs (kern s1)))) in Eo.
    change (fd_at (set_slot t0 rd (Some (PipeFd id PRead)) (Some (next_arc (k_arcs (with_pipes (kern s) p))))) rd = Some (PipeFd id PRead)) in Ed. rewrite <- Et1 in Eo, Ed. destruct (ends_close _ _ _ _ _ _ _ _ _ _ H1 Ht1 Ed Ecl) as (last & ends2 & -> & _ & H2 & Hlast).
    apply bind_Ret in HR as (s3 & H3 & [= _ _ <-]). exists ends2. eapply (both_ends_ok ends2 [] (put_table s2 slot h2 t2) id); [|exact H3]. assert (last = true) as -> by (rewrite (Hlast _ Eo); by apply Z.eqb_eq). exact H2.
Qed.

Lemma sys_dup2_ok s slot old new r s' : 0 <= new -> sys_dup2 s slot old new = Ret (r, s') -> calls_ok s -> calls_ok s'.
Proof.
  intros Hn HR [ends H]. unfold sys_dup2 in HR. destruct (fd_table s slot) as [t|] eqn:Ht; [|injection HR as _ <-; by exists ends].
  destruct (bool_decide _ || (64 <=? new)) eqn:Eg; [injection HR as _ <-; by exists ends|]. destruct (old =? new) eqn:Eo; [injection HR as _ <-; by exists ends|]. apply orb_false_iff in Eg as [_ Eg]. apply Z.leb_gt in Eg.
  pose proof (eo_tables _ _ _ H slot t Ht) as Hw. destruct (close (k_arcs (kern s)) t new) as [[c h1] t1] eqn:Ecl. apply bind_Ret in HR as (s1 & H1 & HR).
  assert (exists ends1, ends_ok ends1 [] (kern s1) /\ fd_table s1 slot = Some t1 /\ fd_at t1 new = None) as (ends1 & Hok1 & Ht1 & Hf1).
  { destruct (fd_at t new) as [d|] eqn:Ed.
    - destruct (ends_close _ _ _ _ _ _ _ _ _ _ H Ht Ed Ecl) as (last & ends1 & -> & -> & H2 & _). exists ends1. destruct (close_descriptor_ends ends1 [] (put_table s slot h1 (set_slot t new None None)) (mkClosed d last)) with (s' := s1) as (H3 & E1 & _); [|exact H1|].
      { unfold owed_of. cbn [last_open_ref desc]. rewrite app_nil_r. rewrite app_nil_r in H2. by destruct last. }
      split; [done|]. split; [unfold fd_table; rewrite E1; apply set_table_at|]. rewrite (proj2 (set_slot_at t new Hw (conj Hn Eg) None None new Hn)). by rewrite Z.eqb_refl.
    - destruct (ends_close_free _ _ _ _ _ _ _ _ _ H Ht Ed Ecl) as (-> & -> & ->). injection H1 as <-. by exists ends. }
  destruct (dup2 (k_arcs (kern s1)) t1 old new) as [[ok h2] t2] eqn:Ed. injection HR as _ <-. exists ends1. by eapply ends_dup2.
Qed.

Lemma sys_dup_ok s slot old r s' : sys_dup s slot old = Ret (r, s') -> calls_ok s -> calls_ok s'.
Proof.
  intros HR Hok. unfold sys_dup in HR. destruct (fd_table s slot) as [t|] eqn:Ht; [|by injection HR as _ <-]. destruct (bool_decide _); [by injection HR as _ <-|].
  destruct (alloc_fd t) as [fd|] eqn:Ea; [|by injection HR as _ <-]. destruct Hok as [ends H]. destruct (alloc_fd_free t fd (eo_tables _ _ _ H slot t Ht) Ea) as [_ Hr]. eapply (sys_dup2_ok s slot old fd); [lia|exact HR|by exists ends].
Qed.

(** A pipe that a descriptor names exists. *)
Lemma pipe_fd_live ends owed (k : Kern F) slot t fd id e : ends_ok ends owed k -> k_tables k !! slot = Some t -> fd_at t fd = Some (PipeFd id e) -> 1 <= open_ends (k_pipes k) id e /\ 0 <= id.
Proof.
  intros H Ht Hd. destruct (slot_both t fd _ (eo_tables _ _ _ H slot t Ht) Hd) as (x & Hx & _). pose proof (eo_ends _ _ _ H slot t fd x Ht Hx) as He. rewrite Hd in He. cbn in He.
  pose proof (count_ends_delete ends x (id, e) (id, e) He) as Hc. rewrite decide_True in Hc by done. pose proof (count_ends_nonneg (base.delete x ends) (id, e)). pose proof (count_owed_nonneg owed (id, e)).
  assert (1 <= open_ends (k_pipes k) id e) as Hop by (rewrite (eo_refs _ _ _ H); lia). split; [done|]. by eapply open_ends_range.
Qed.

(** Calls that only touch the state of a description. *)
Definition touched (h h' : Arcs) : Prop := h' = h \/ exists x f, h' = arc_modify h x f.

Lemma touched_ok s h : touched (k_arcs (kern s)) h -> calls_ok s -> calls_ok (put_arcs s h).
Proof. intros [->|(x & f & ->)] [ends H]; exists ends; [by apply (ends_frame _ _ (kern s))|]. by apply ends_modify. Qed.

Lemma touched_flags h t fd v : touched h (set_flags h t fd v).2.
Proof. unfold set_flags. case_match; [right; by eexists _, _|by left]. Qed.
Lemma touched_offset h t fd v : touched h (set_offset h t fd v).2.
Proof. unfold set_offset. case_match; [right; by eexists _, _|by left]. Qed.
Lemma touched_cookie h t fd v : touched h (set_cookie h t fd v).2.
Proof. unfold set_cookie. case_match; [right; by eexists _, _|by left]. Qed.
Lemma touched_advance h t fd v : touched h (advance_offset h t fd v).2.
Proof. unfold advance_offset. case_match; [right; by eexists _, _|by left]. Qed.

Lemma calls_files s s' : files (kern s') = files (kern s) -> calls_ok s -> calls_ok s'.
Proof. intros E [ends H]. exists ends. by eapply ends_files. Qed.

Lemma read_inode_ok s slot fd t inode count r bs s' : read_inode s slot fd t inode count = Ret (r, bs, s') -> calls_ok s -> calls_ok s'.
Proof.
  unfold read_inode. cbv zeta. intros HR Hok. apply bind_Ret in HR as ([n temp] & _ & HR). destruct (0 <? n); [|by injection HR as _ _ <-].
  pose proof (touched_advance (k_arcs (kern s)) t fd n) as Ht. destruct (advance_offset _ _ _ _) as [o h]. injection HR as _ _ <-. by apply touched_ok.
Qed.

Lemma write_inode_ok s t fd inode buf r s' : write_inode s t fd inode buf = Ret (r, s') -> calls_ok s -> calls_ok s'.
Proof.
  unfold write_inode. cbv zeta. intros HR Hok. apply bind_Ret in HR as ([n v] & _ & [= _ <-]). destruct (0 <? n); [|by apply (calls_files s)]. apply (touched_ok (s <| s_vfs := v |>)); [apply touched_advance|by apply (calls_files s)].
Qed.

Lemma append_inode_ok s t fd inode buf r s' : append_inode s t fd inode buf = Ret (r, s') -> calls_ok s -> calls_ok s'.
Proof.
  unfold append_inode. cbv zeta. intros HR Hok. apply bind_Ret in HR as ([[n eof] v] & _ & [= _ <-]). destruct (0 <? n); [|by apply (calls_files s)]. apply (touched_ok (s <| s_vfs := v |>)); [apply touched_offset|by apply (calls_files s)].
Qed.

Lemma sys_read_ok recvfrom now now' now'' s slot fd count r bs s' : 0 <= count -> sys_read recvfrom now now' now'' s slot fd count = Ret (r, bs, s') -> calls_ok s -> calls_ok s'.
Proof.
  intros Hn HR Hok. unfold sys_read in HR. cbv zeta in HR. destruct (fd_table s slot) as [t|] eqn:Ht; [|by injection HR as _ _ <-].
  destruct (fd_at t fd) as [d|] eqn:Hd; [|destruct (fd =? 0); injection HR as _ _ <-; [by apply (calls_files s)|done]].
  destruct d as [| |inode o mode|id|id e|id side|inode o mode kind|p l c].
  - injection HR as _ _ <-. by apply (calls_files s).
  - by injection HR as _ _ <-.
  - destruct mode; [by eapply read_inode_ok|by injection HR as _ _ <-|by eapply read_inode_ok].
  - destruct (recvfrom id count). by injection HR as _ _ <-.
  - destruct e; [|by injection HR as _ _ <-]. apply bind_Ret in HR as ([[r1 bs1] s1] & H1 & [= _ _ <-]). unfold pipe_call in H1. apply bind_Ret in H1 as ([[r2 bs2] p] & Hp & [= _ _ <-]).
    destruct Hok as [ends H]. exists ends. destruct (pipe_fd_live _ _ _ _ _ _ _ _ H Ht Hd) as [_ Hid]. by destruct (ends_pipe_read _ _ _ _ _ _ _ _ H Hid Hn Hp) as [Hok _].
  - apply bind_Ret in HR as ([[r1 bs1] terms] & H1 & [= _ _ <-]). apply tty_read_files in H1. by apply (calls_files s).
  - destruct mode; [by eapply read_inode_ok|by injection HR as _ _ <-|by eapply read_inode_ok].
  - by injection HR as _ _ <-.
Qed.

Lemma sys_write_ok sendto sound s slot fd buf r s' : sys_write sendto sound s slot fd buf = Ret (r, s') -> calls_ok s -> calls_ok s'.
Proof.
  intros HR Hok. unfold sys_write in HR. cbv zeta in HR. destruct (zlen buf =? 0); [by injection HR as _ <-|]. destruct (fd_table s slot) as [t|] eqn:Ht; [|by injection HR as _ <-].
  destruct (fd_at t fd) as [d|] eqn:Hd; [|destruct ((fd =? 1) || (fd =? 2)); injection HR as _ <-; [by apply (calls_files s)|done]].
  destruct d as [| |inode o mode|id|id e|id side|inode o mode kind|p l c].
  - injection HR as _ <-. by apply (calls_files s).
  - injection HR as _ <-. by apply (calls_files s).
  - destruct mode; [by injection HR as _ <-|..]; (destruct (has_flag _ _); [by eapply append_inode_ok|by eapply write_inode_ok]).
  - by injection HR as _ <-.
  - destruct e; [by injection HR as _ <-|]. apply bind_Ret in HR as ([r1 s1] & H1 & [= _ <-]). unfold pipe_call in H1. apply bind_Ret in H1 as ([r2 p] & Hp & [= _ <-]).
    destruct Hok as [ends H]. exists ends. destruct (pipe_fd_live _ _ _ _ _ _ _ _ H Ht Hd) as [_ Hid]. by eapply ends_pipe_write.
  - apply bind_Ret in HR as ([r1 terms] & H1 & [= _ <-]). apply tty_write_files in H1. by apply (calls_files s).
  - destruct mode, (sound inode); try (by injection HR as _ <-); by eapply write_inode_ok.
  - by injection HR as _ <-.
Qed.

Lemma sys_fcntl_ok s slot fd cmd arg r s' : sys_fcntl s slot fd cmd arg = (r, s') -> calls_ok s -> calls_ok s'.
Proof.
  unfold sys_fcntl. intros HR Hok. destruct (fd_table s slot) as [t|]; [|by injection HR as _ <-]. destruct (fd_at t fd); [|by injection HR as _ <-].
  destruct (cmd =? F_GETFL); [by injection HR as _ <-|]. destruct (cmd =? F_SETFL); [|by injection HR as _ <-].
  pose proof (touched_flags (k_arcs (kern s)) t fd (Z.land arg OFD_STATUS_MASK)) as Ht. destruct (set_flags _ _ _ _) as [ok h]. injection HR as _ <-. by apply touched_ok.
Qed.

Lemma sys_lseek_ok s slot fd offset whence r s' : sys_lseek s slot fd offset whence = Ret (r, s') -> calls_ok s -> calls_ok s'.
Proof.
  unfold sys_lseek. cbv zeta. intros HR Hok. destruct (fd_table s slot) as [t|]; [|by injection HR as _ <-].
  assert (forall inode, (size ← inode_size (s_vfs s) inode;
      (if negb ((whence =? SEEK_SET) || (whence =? SEEK_CUR) || (whence =? SEEK_END)) then Ret (EINVAL, s) else
       new ← add_i64 (if whence =? SEEK_SET then 0 else if whence =? SEEK_CUR then as_i64 (default 0 (get_offset (k_arcs (kern s)) t fd)) else as_i64 size) offset;
       if new <? 0 then Ret (EINVAL, s) else
       let '(ok, h) := set_offset (k_arcs (kern s)) t fd new in
       if ok : bool then Ret (new mod 2 ^ 32, put_arcs s h) else Ret (EBADF, s))) = Ret (r, s') -> calls_ok s') as Hseek.
  { clear HR. intros inode HR. apply bind_Ret in HR as (size & _ & HR). destruct (negb _); [by injection HR as _ <-|]. apply bind_Ret in HR as (new & _ & HR). destruct (new <? 0); [by injection HR as _ <-|].
    pose proof (touched_offset (k_arcs (kern s)) t fd new) as Ht. destruct (set_offset _ _ _ _) as [[] h]; injection HR as _ <-; [by apply touched_ok|done]. }
  destruct (fd_at t fd) as [[]|]; try (by injection HR as _ <-); try (by eapply Hseek).
  destruct (negb _ || negb _); [by injection HR as _ <-|].
  pose proof (touched_cookie (k_arcs (kern s)) t fd 0) as Ht. destruct (set_cookie _ _ _ _) as [[] h]; injection HR as _ <-; [by apply touched_ok|done].
Qed.

Lemma sys_getdents64_ok s slot fd buf r buf' s' : sys_getdents64 s slot fd buf = Ret (r, buf', s') -> calls_ok s -> calls_ok s'.
Proof.
  unfold sys_getdents64. cbv zeta. intros HR Hok. destruct (zlen buf <? 24); [by injection HR as _ _ <-|]. destruct (fd_table s slot) as [t|]; [|by injection HR as _ _ <-].
  destruct (fd_at t fd) as [[]|]; try (by injection HR as _ _ <-). apply bind_Ret in HR as ([entries|] & _ & HR); [|by injection HR as _ _ <-].
  destruct (fill_dirents _ _ _ _) as [[idx written] buf1]. injection HR as _ _ <-. apply touched_ok; [apply touched_cookie|done].
Qed.

(** A new descriptor that is not a pipe end. *)
Lemma insert_plain_ok s slot t fd d ok h t' : calls_ok s -> fd_table s slot = Some t -> alloc_fd t = Some fd -> end_of (Some d) = None ->
  insert_fd (k_arcs (kern s)) t fd d = (ok, h, t') -> calls_ok (put_table s slot h t').
Proof.
  intros [ends H] Ht Ea He Ei. destruct (alloc_fd_free t fd (eo_tables _ _ _ H slot t Ht) Ea) as [Hf Hr].
  destruct (ends_insert ends [] (kern s) slot t fd d ok h t') as (_ & _ & H1 & _); try done; [unfold owed_for; by rewrite He|]. eexists. exact H1.
Qed.

Lemma install_calls_ok s slot d flags fd s' : install s slot d flags = Some (fd, s') -> end_of (Some d) = None -> calls_ok s -> calls_ok s'.
Proof.
  unfold install. intros HR He Hok. destruct (fd_table s slot) as [t|] eqn:Ht; [|done]. cbn in HR. destruct (alloc_fd t) as [fd'|] eqn:Ea; [|done]. cbn in HR.
  destruct (insert_fd _ _ _ _) as [[ok h] t'] eqn:Ei. injection HR as -> <-. pose proof (insert_plain_ok _ _ _ _ _ _ _ _ Hok Ht Ea He Ei) as H1.
  pose proof (touched_ok (put_table s slot h t') _ (touched_flags h t' fd flags) H1) as [ends H2]. exists ends. by apply (ends_frame _ _ _ _ eq_refl eq_refl eq_refl H2).
Qed.

Lemma open_tty_ok s slot flags r s' : open_tty s slot flags = Ret (r, s') -> calls_ok s -> calls_ok s'.
Proof.
  unfold open_tty. cbv zeta. intros HR Hok. destruct (_ <? 0); [by injection HR as _ <-|]. destruct (add_ref _ _ _) as [ok terms] eqn:Ea. destruct ok; [|by injection HR as _ <-].
  assert (files (t_kern terms) = files (kern s)) as Ef by (unfold add_ref in Ea; destruct (pty_at _ _); [by injection Ea as <-|by inversion Ea]).
  assert (calls_ok (s <| s_terms := terms |>)) as Hok1 by (by apply (calls_files s)). cbn [negb] in HR.
  destruct (install _ _ _ _) as [[fd s1]|] eqn:Ei; [injection HR as _ <-; by eapply install_calls_ok|].
  apply bind_Ret in HR as (terms' & H1 & [= _ <-]). apply close_ref_files in H1. by apply (calls_files (s <| s_terms := terms |>)).
Qed.

Lemma sys_open_ok device_kind s slot raw flags r s' : sys_open device_kind s slot raw flags = Ret (r, s') -> calls_ok s -> calls_ok s'.
Proof.
  unfold sys_open. cbv zeta. intros HR Hok. destruct (bool_decide _); [by injection HR as _ <-|]. destruct (bool_decide _); [by eapply open_tty_ok|].
  apply bind_Ret in HR as (d & _ & HR). destruct d.
  { unfold open_dir in HR. destruct (_ || _); [by injection HR as _ <-|]. destruct (96 <=? _); [by injection HR as _ <-|].
    destruct (install _ _ _ _) as [[fd s1]|] eqn:Ei; injection HR as _ <-; [by eapply install_calls_ok|done]. }
  destruct (has_flag flags O_DIRECTORY); [by injection HR as _ <-|]. apply bind_Ret in HR as ([o v] & _ & HR).
  assert (calls_ok (s <| s_vfs := v |>)) as Hok1 by (by apply (calls_files s)). destruct o as [inode|]; [|by injection HR as _ <-].
  apply bind_Ret in HR as (offset & _ & HR). destruct (install _ _ _ _) as [[fd s1]|] eqn:Ei; injection HR as _ <-; [|done]. eapply install_calls_ok; [exact Ei| |done]. by case_match.
Qed.

Lemma path_call_ok s slot raw f r s' : path_call s slot raw f = Ret (r, s') -> calls_ok s -> calls_ok s'.
Proof. unfold path_call. intros HR Hok. destruct (bool_decide _); [by injection HR as _ <-|]. apply bind_Ret in HR as ([ok v] & _ & [= _ <-]). by apply (calls_files s). Qed.

Lemma sys_chdir_ok s slot raw r s' : sys_chdir s slot raw = Ret (r, s') -> calls_ok s -> calls_ok s'.
Proof.
  unfold sys_chdir. cbv zeta. intros HR Hok. destruct (bool_decide _); [by injection HR as _ <-|]. apply bind_Ret in HR as (d & _ & HR). destruct (negb d); [by injection HR as _ <-|].
  destruct (fd_table s slot); injection HR as _ <-; [by apply (calls_files s)|done].
Qed.

(** [sys_openpty]: neither side is a pipe end. *)
Lemma close_both_sides_ok s id s' : close_both_sides s id = Ret s' -> calls_ok s -> calls_ok s'.
Proof.
  unfold close_both_sides. intros HR Hok. apply bind_Ret in HR as (t1 & H1 & HR). apply bind_Ret in HR as (t2 & H2 & [= <-]). apply close_ref_files in H1, H2.
  apply (calls_files s); [|done]. etrans; [exact H2|exact H1].
Qed.

Lemma close_plain_ok s slot t fd d c h t' : calls_ok s -> fd_table s slot = Some t -> fd_at t fd = Some d -> end_of (Some d) = None -> close (k_arcs (kern s)) t fd = (c, h, t') -> calls_ok (put_table s slot h t').
Proof.
  intros [ends H] Ht Hd He Hc. destruct (ends_close _ _ _ _ _ _ _ _ _ _ H Ht Hd Hc) as (last & ends' & _ & _ & H' & _). exists ends'. unfold owed_for in H'. rewrite He in H'. by destruct last.
Qed.

Lemma sys_openpty_ok s slot r words s' : sys_openpty s slot = Ret (r, words, s') -> calls_ok s -> calls_ok s'.
Proof.
  unfold sys_openpty. cbv zeta. intros HR Hok. apply bind_Ret in HR as ([o terms] & H1 & HR). apply alloc_pty_files in H1. set (s1 := s <| s_terms := terms |>) in *.
  assert (calls_ok s1) as Hok1 by (by apply (calls_files s)). destruct o as [id|]; [|by injection HR as _ _ <-].
  destruct (fd_table s1 slot) as [t|] eqn:Ht; cbn [mbind option_bind] in HR; [|apply bind_Ret in HR as (s2 & H2 & [= _ _ <-]); by eapply close_both_sides_ok].
  destruct (alloc_fd t) as [m|] eqn:Ea; cbn [mbind option_bind] in HR; [|apply bind_Ret in HR as (s2 & H2 & [= _ _ <-]); by eapply close_both_sides_ok].
  destruct (insert_fd (k_arcs (kern s1)) t m (FileTable.Pty id Master)) as [[ok h1] t1] eqn:Ei. pose proof (insert_plain_ok s1 slot t m (FileTable.Pty id Master) ok h1 t1 Hok1 Ht Ea eq_refl Ei) as H2.
  set (s2 := put_table s1 slot h1 t1) in *. assert (fd_table s2 slot = Some t1) as Ht1 by apply set_table_at. destruct (alloc_fd t1) as [w|] eqn:Eb.
  - destruct (insert_fd (k_arcs (kern s2)) t1 w (FileTable.Pty id Slave)) as [[ok2 h2] t2] eqn:Ei2. injection HR as _ _ <-. exact (insert_plain_ok s2 slot t1 w (FileTable.Pty id Slave) ok2 h2 t2 H2 Ht1 Eb eq_refl Ei2).
  - destruct (close (k_arcs (kern s2)) t1 m) as [[c h2] t2] eqn:Ecl. apply bind_Ret in HR as (s3 & H3 & [= _ _ <-]).
    assert (fd_at t1 m = Some (FileTable.Pty id Master)) as Hd.
    { destruct Hok1 as [ends H]. pose proof (eo_tables _ _ _ H slot t Ht) as Hw. destruct (alloc_fd_free t m Hw Ea) as [Hf Hr]. unfold insert_fd in Ei. rewrite (proj2 (Z.leb_gt FD_COUNT m)) in Ei by lia.
      rewrite bool_decide_eq_false_2 in Ei by (rewrite Hf; by intros []). injection Ei as _ _ <-. rewrite (proj2 (set_slot_at t m Hw Hr _ _ m (proj1 Hr))). by rewrite Z.eqb_refl. }
    exact (close_both_sides_ok _ _ _ H3 (close_plain_ok s2 slot t1 m _ c h2 t2 H2 Ht1 Hd eq_refl Ecl)).
Qed.

(** Renaming rewrites the paths of open directories only. *)
Definition same_slots (t t' : FileDescriptorTable) : Prop := ofds t' = ofds t /\ (table_wf t -> table_wf t') /\ forall fd, end_of (fd_at t' fd) = end_of (fd_at t fd).

Lemma rewrite_slot_end old new d d' : rewrite_slot old new d = Ret d' -> end_of d' = end_of d.
Proof.
  unfold rewrite_slot. destruct d as [[]|]; try (by intros [= <-]). destruct (zlen path <? path_len); [done|]. destruct (negb _); [by intros [= <-]|].
  destruct (rewrite_path _ _ _); [|by intros [= <-]]. destruct (_ <=? _); by intros [= <-].
Qed.

Lemma rewrite_slots_end old new l : forall l', rewrite_slots old new l = Ret l' -> forall i : nat, end_of (mjoin (l' !! i)) = end_of (mjoin (l !! i)).
Proof.
  induction l as [|d l IH]; intros l' HR; cbn in HR; [by injection HR as <-|]. apply bind_Ret in HR as (d' & H1 & HR). apply bind_Ret in HR as (l1 & H2 & [= <-]).
  intros [|i]; [by apply rewrite_slot_end in H1|]. by apply (IH l1 H2 i).
Qed.

Lemma rewrite_dirs_same t old new t' : rewrite_dir_paths t old new = Ret t' -> same_slots t t'.
Proof.
  unfold rewrite_dir_paths. intros HR. apply bind_Ret in HR as (l & H1 & [= <-]). destruct (rewrite_slots_some _ _ _ _ H1) as [Hl Hs]. split; [done|]. split.
  - intros (Hf & Ho & Hsome). split_and!; cbn; [unfold zlen in *; lia|done|]. intros fd. specialize (Hsome fd). unfold ofd_at, fd_at, get in *. cbn. destruct (fd <? 0); [done|]. by rewrite Hs.
  - intros fd. unfold fd_at, get. cbn. destruct (fd <? 0); [done|]. by apply (rewrite_slots_end old new).
Qed.

Lemma rewrite_tables_same old new m : forall m', rewrite_tables old new m = Ret m' ->
  (forall slot, m' !! slot = None <-> m !! slot = None) /\ (forall slot t', m' !! slot = Some t' -> exists t, m !! slot = Some t /\ same_slots t t') /\ forall x, totals m' x = totals m x.
Proof.
  unfold rewrite_tables. apply (map_fold_weak_ind (fun r m => forall m', r = Ret m' ->
    (forall slot, m' !! slot = None <-> m !! slot = None) /\ (forall slot t', m' !! slot = Some t' -> exists t, m !! slot = Some t /\ same_slots t t') /\ forall x, totals m' x = totals m x)).
  - intros m' [= <-]. done.
  - intros i t m0 r Hi IH m' HR. apply bind_Ret in HR as (m1 & -> & HR). apply bind_Ret in HR as (t' & H1 & [= <-]). apply rewrite_dirs_same in H1. destruct (IH m1 eq_refl) as (H2 & H3 & H4). split_and!.
    + intros slot. destruct (decide (i = slot)) as [->|Hne]; [by rewrite !lookup_insert_eq|]. by rewrite !lookup_insert_ne.
    + intros slot u Hu. apply lookup_insert_Some in Hu as [[<- <-]|[Hne Hu]]; [exists t; by rewrite lookup_insert_eq|]. rewrite lookup_insert_ne by done. by apply H3.
    + intros x. rewrite !totals_fresh by (done || by apply H2). rewrite H4. by rewrite (proj1 H1).
Qed.

Lemma sys_rename_ok s slot old new r s' : sys_rename s slot old new = Ret (r, s') -> calls_ok s -> calls_ok s'.
Proof.
  unfold sys_rename. cbv zeta. intros HR Hok. destruct (_ || _); [by injection HR as _ <-|]. apply bind_Ret in HR as ([r1 v] & _ & HR). assert (calls_ok (s <| s_vfs := v |>)) as Hv by (by apply (calls_files s)).
  destruct r1 as [[]|[]]; try (by injection HR as _ <-). apply bind_Ret in HR as (m & H1 & [= _ <-]). destruct (rewrite_tables_same _ _ _ _ H1) as (_ & Hs & Ht).
  destruct Hok as [ends [A1 A2 A3 A4 A5 A6 A7]]. exists ends. split; cbn; try done.
  - intros sl t' Hm. destruct (Hs sl t' Hm) as (t & Hm0 & Hsame). by apply Hsame, (A2 sl).
  - intros x. rewrite Ht. apply A3.
  - intros sl t' fd x Hm Hx. destruct (Hs sl t' Hm) as (t & Hm0 & Hsame). rewrite (proj2 (proj2 Hsame)). apply (A4 sl t fd x Hm0). unfold ofd_at in *. by rewrite <- (proj1 Hsame).
Qed.

(** The table of a slot whose process is gone. *)
Definition free_table s (slot : Z) : Prop := match fd_table s slot with None => True | Some t => forall fd, fd_at t fd = None end.

Lemma empty_refs t x : table_wf t -> (forall fd, fd_at t fd = None) -> refs (ofds t) x = 0.
Proof.
  intros (_ & _ & Hs) He. apply refs_zero. intros i Hi. specialize (Hs (Z.of_nat i)). rewrite He in Hs. unfold ofd_at, get in Hs.
  rewrite (proj2 (Z.ltb_ge (Z.of_nat i) 0)), Nat2Z.id, Hi in Hs by lia. destruct (proj2 Hs) as [? ?]; [by eexists|done].
Qed.

Lemma new_fd x : fd_at table_new x = None.
Proof. unfold fd_at, get. destruct (x <? 0); [done|]. change (mjoin (replicate 64 (@None FileDescriptor) !! Z.to_nat x) = None). destruct (_ !! _) eqn:E; [|done]. by apply lookup_replicate in E as [-> _]. Qed.
Lemma new_ofd fd x : ofd_at table_new fd <> Some x.
Proof. unfold ofd_at, get. destruct (fd <? 0); [done|]. change (mjoin (replicate 64 (@None Z) !! Z.to_nat fd) <> Some x). destruct (_ !! _) eqn:E; [|done]. by apply lookup_replicate in E as [-> _]. Qed.

Lemma ends_new_table ends s slot : ends_ok ends [] (kern s) -> free_table s slot -> ends_ok ends [] (set_table (kern s) slot (k_arcs (kern s)) table_new).
Proof.
  intros [A1 A2 A3 A4 A5 A6 A7] Hf. unfold free_table, fd_table in Hf. split; cbn; try done.
  - intros sl t Hm. apply lookup_insert_Some in Hm as [[_ <-]|[_ Hm]]; [apply table_new_wf|by apply (A2 sl)].
  - intros x. rewrite A3. destruct (k_tables (kern s) !! slot) as [t|] eqn:Ht.
    + rewrite (totals_insert _ _ t) by done. rewrite refs_new, (empty_refs t); [lia|by apply (A2 slot)|done].
    + rewrite totals_fresh by done. rewrite refs_new. lia.
  - intros sl t fd x Hm Hx. apply lookup_insert_Some in Hm as [[_ <-]|[_ Hm]]; [by apply new_ofd in Hx|by apply (A4 sl)].
Qed.

Section Child.
  Context (s : Sys F B) (parent slot : Z) (Hne : parent <> slot) (ends : gmap Z (Z * PipeEnd)).

Lemma child_set_ok h child fd d x h' : ends_ok ends [] (set_table (kern s) slot h child) -> 0 <= fd < FD_COUNT -> end_of (fd_at child fd) = None -> ends !! x = end_of (Some d) ->
  balanced h child h' (set_slot child fd (Some d) (Some x)) ->
  ends_ok ends [] (set_table (kern s) slot h' (set_slot child fd (Some d) (Some x))) /\ forall fd', 0 <= fd' -> fd' <> fd -> fd_at (set_slot child fd (Some d) (Some x)) fd' = fd_at child fd'.
Proof.
  intros H Hfd He Hx Hb. pose proof (set_table_at (kern s) slot h child) as Ht. split.
  - pose proof (ends_replace ends [] _ slot child fd d x h' H Ht Hfd He Hx Hb) as H1. by rewrite set_table_twice in H1.
  - intros fd' Hf Hn. rewrite (proj2 (set_slot_at child fd (eo_tables _ _ _ H slot child Ht) Hfd _ _ fd' Hf)). by rewrite (proj2 (Z.eqb_neq fd fd')).
Qed.

Lemma child_fd_ok h child fd pfd d h' child' : ends_ok ends [] (set_table (kern s) slot h child) -> 0 <= fd < FD_COUNT -> end_of (fd_at child fd) = None -> end_of (Some d) = None ->
  install_child_fd s parent h child fd pfd d = (h', child') ->
  ends_ok ends [] (set_table (kern s) slot h' child') /\ forall fd', 0 <= fd' -> fd' <> fd -> fd_at child' fd' = fd_at child fd'.
Proof.
  intros H Hfd He Hd HR. pose proof (set_table_at (kern s) slot h child) as Ht. pose proof (eo_tables _ _ _ H slot child Ht) as Hw. pose proof (ends_owned _ _ _ _ _ H Ht) as Ho. pose proof (eo_arcs _ _ _ H) as Ha. cbn in Ha, Ho.
  assert (forall r, (let '(_, h1, child1) := set_fd h child fd d in (h1, child1)) = r -> r = (h', child') ->
    ends_ok ends [] (set_table (kern s) slot h' child') /\ forall fd', 0 <= fd' -> fd' <> fd -> fd_at child' fd' = fd_at child fd') as Hfresh.
  { intros r <- Hr. destruct (set_fd h child fd d) as [[o h1] t1] eqn:Es. injection Hr as -> ->. pose proof (set_fd_ok _ _ _ _ _ _ _ Ha Hw Ho (proj1 Hfd) Es) as Hb.
    unfold set_fd in Es. rewrite (proj2 (Z.leb_gt FD_COUNT fd)) in Es by lia. cbn in Es. injection Es as _ Eh <-. eapply child_set_ok; try done. rewrite Hd. apply (proj1 (ends_fresh _ _ _ H)). }
  unfold install_child_fd in HR. cbv zeta in HR. destruct (pfd <? 0); [by apply (Hfresh _ eq_refl)|]. destruct (fd_table s parent) as [p|] eqn:Hp; [|by apply (Hfresh _ eq_refl)].
  assert (k_tables (set_table (kern s) slot h child) !! parent = Some p) as Hp' by (cbn; by rewrite lookup_insert_ne).
  destruct (clone_entry h p pfd) as [[[d1 x]|] h1] eqn:Ec.
  2: { assert (h1 = h) as -> by (unfold clone_entry in Ec; destruct (fd_at p pfd); [destruct (ofd_at p pfd)|]; by inversion Ec). by apply (Hfresh _ eq_refl). }
  pose proof (eo_tables _ _ _ H parent p Hp') as Hwp. pose proof (ends_owned _ _ _ _ _ H Hp') as Hop. cbn in Hop. destruct (clone_entry_ok h p pfd d1 x h1 Ha Hop Hwp Ec) as (Ha1 & Hc & Hpd & Hpx).
  destruct (set_shared h1 child fd d1 x) as [[o h2] t2] eqn:Es. injection HR as -> ->.
  pose proof (install_ok h h1 child fd d1 x h' child' Ha1 Hw Ho (proj1 Hfd) Hc (or_introl (ex_intro _ o Es))) as Hb.
  unfold set_shared in Es. rewrite (proj2 (Z.leb_gt FD_COUNT fd)) in Es by lia. injection Es as _ _ <-. eapply child_set_ok; try done. rewrite (eo_ends _ _ _ H parent p pfd x Hp' Hpx). by rewrite Hpd.
Qed.

Lemma child_console_ok h child fd d ok h' child' : ends_ok ends [] (set_table (kern s) slot h child) -> 0 <= fd < FD_COUNT -> fd_at child fd = None -> end_of (Some d) = None ->
  insert_fd h child fd d = (ok, h', child') ->
  ends_ok ends [] (set_table (kern s) slot h' child') /\ fd_at child' fd = Some d /\ forall fd', 0 <= fd' -> fd' <> fd -> fd_at child' fd' = fd_at child fd'.
Proof.
  intros H Hfd Hf Hd HR. pose proof (set_table_at (kern s) slot h child) as Ht. pose proof (eo_tables _ _ _ H slot child Ht) as Hw.
  destruct (ends_insert ends [] (set_table (kern s) slot h child) slot child fd d ok h' child') as (_ & -> & H1 & _); try done; [unfold owed_for; by rewrite Hd|].
  rewrite set_table_twice in H1. unfold add_end in H1. rewrite Hd in H1. split; [done|]. split.
  - rewrite (proj2 (set_slot_at child fd Hw Hfd _ _ fd (proj1 Hfd))). by rewrite Z.eqb_refl.
  - intros fd' Hf' Hn. rewrite (proj2 (set_slot_at child fd Hw Hfd _ _ fd' Hf')). by rewrite (proj2 (Z.eqb_neq fd fd')).
Qed.
End Child.

Lemma stdio_ok ends s slot h child : ends_ok ends [] (kern s) -> free_table s slot -> with_stdio (k_arcs (kern s)) = (h, child) ->
  ends_ok ends [] (set_table (kern s) slot h child) /\ forall fd, 0 <= fd < 3 -> end_of (fd_at child fd) = None.
Proof.
  intros H Hf HR. pose proof (ends_new_table _ _ _ H Hf) as H0. unfold with_stdio in HR. destruct (insert_fd _ table_new 0 ConsoleIn) as [[o1 h1] t1] eqn:E1. destruct (insert_fd h1 t1 1 ConsoleOut) as [[o2 h2] t2] eqn:E2.
  destruct (insert_fd h2 t2 2 ConsoleOut) as [[o3 h3] t3] eqn:E3. injection HR as <- <-. unfold FD_COUNT in *.
  destruct (child_console_ok s slot ends _ table_new 0 ConsoleIn _ _ _ H0 ltac:(unfold FD_COUNT; lia) (new_fd 0) eq_refl E1) as (H1 & D1 & K1).
  destruct (child_console_ok s slot ends h1 t1 1 ConsoleOut o2 h2 t2 H1 ltac:(unfold FD_COUNT; lia)) as (H2 & D2 & K2); [rewrite K1 by lia; apply new_fd|done|done|].
  destruct (child_console_ok s slot ends h2 t2 2 ConsoleOut o3 h3 t3 H2 ltac:(unfold FD_COUNT; lia)) as (H3 & D3 & K3); [rewrite K2, K1 by lia; apply new_fd|done|done|].
  split; [done|]. intros fd Hfd. assert (fd = 0 \/ fd = 1 \/ fd = 2) as [->|[->| ->]] by lia; [rewrite K3, K2, D1 by lia|rewrite K3, D2 by lia|rewrite D3]; done.
Qed.

Lemma spawn_fds_ok s parent slot i o e : parent <> slot -> free_table s slot -> calls_ok s -> calls_ok (spawn_fds s parent slot i o e).
Proof.
  intros Hne Hf [ends H]. unfold spawn_fds. destruct (with_stdio (k_arcs (kern s))) as [h0 c0] eqn:E0. destruct (stdio_ok _ _ _ _ _ H Hf E0) as [H0 D].
  destruct (install_child_fd s parent h0 c0 0 i ConsoleIn) as [h1 c1] eqn:E1. destruct (install_child_fd s parent h1 c1 1 o ConsoleOut) as [h2 c2] eqn:E2. destruct (install_child_fd s parent h2 c2 2 e ConsoleOut) as [h3 c3] eqn:E3.
  destruct (child_fd_ok s parent slot Hne ends h0 c0 0 i ConsoleIn h1 c1 H0 ltac:(unfold FD_COUNT; lia) (D 0 ltac:(lia)) eq_refl E1) as [H1 K1].
  destruct (child_fd_ok s parent slot Hne ends h1 c1 1 o ConsoleOut h2 c2 H1 ltac:(unfold FD_COUNT; lia)) as [H2 K2]; [rewrite K1 by lia; by apply D|done|done|].
  destruct (child_fd_ok s parent slot Hne ends h2 c2 2 e ConsoleOut h3 c3 H2 ltac:(unfold FD_COUNT; lia)) as [H3 K3]; [rewrite K2, K1 by lia; by apply D|done|done|].
  exists ends. by apply (ends_frame _ _ _ _ eq_refl eq_refl eq_refl H3).
Qed.

(** The table of a task that is reaped goes with it. *)
Definition drop_table_of s (slot : Z) : Sys F B := with_kern s (kern s <| k_tables := base.delete slot (k_tables (kern s)) |>).

Lemma drop_table_ok s slot : free_table s slot -> calls_ok s -> calls_ok (drop_table_of s slot).
Proof.
  intros Hf [ends [A1 A2 A3 A4 A5 A6 A7]]. unfold free_table, fd_table in Hf. exists ends. split; cbn; try done.
  - intros sl t Hm. apply lookup_delete_Some in Hm as [_ Hm]. by apply (A2 sl).
  - intros x. rewrite A3. destruct (k_tables (kern s) !! slot) as [t|] eqn:Ht; [|by rewrite delete_id].
    rewrite <- (insert_delete_id (k_tables (kern s)) slot t Ht) at 1. rewrite totals_fresh by apply lookup_delete_eq. rewrite (empty_refs t); [lia|by apply (A2 slot)|done].
  - intros sl t fd x Hm Hx. apply lookup_delete_Some in Hm as [_ Hm]. by apply (A4 sl).
Qed.
End CallProofs.

(** ** Sequences of calls *)

(** The calls on descriptors and paths, with their arguments. *)
Inductive call : Type :=
| CRead (fd count : Z) | CWrite (fd : Z) (buf : list Z) | COpen (raw : path) (flags : Z) | CClose (fd : Z) | CLseek (fd offset whence : Z)
| CPipe | COpenpty | CDup (oldfd : Z) | CDup2 (oldfd newfd : Z) | CFcntl (fd cmd arg : Z) | CGetdents (fd : Z) (buf : list Z)
| CMkdir (raw : path) | CRmdir (raw : path) | CUnlink (raw : path) | CRename (old_raw new_raw : path) | CChdir (raw : path) | CExit.

(** The arguments come from registers: they are unsigned where the code says so. *)
Definition call_args (c : call) : Prop :=
  match c with CRead _ count => 0 <= count | CDup2 _ newfd => 0 <= newfd | _ => True end.

Section Steps.
  Context {F : Type} `{!FileStore F} {B : Type} `{!Filesystem B}.
  Variables (recvfrom : Z -> Z -> Z * list Z) (sendto : Z -> list Z -> Z) (sound : Z -> option (list Z -> StreamWrite)) (device_kind : path -> option DeviceKind).

(** One call of the process in [slot] with three readings of the clock: what
    it returns and the bytes it stores. *)
Definition run_call (s : Sys F B) (slot now now' now'' : Z) (c : call) : outcome (Z * list Z * Sys F B) :=
  let plain r : outcome (Z * list Z * Sys F B) := '(n, s) ← r; Ret (n, [], s) in
  match c with
  | CRead fd count => sys_read recvfrom now now' now'' s slot fd count
  | CWrite fd buf => plain (sys_write sendto sound s slot fd buf)
  | COpen raw flags => plain (sys_open device_kind s slot raw flags)
  | CClose fd => plain (sys_close s slot fd)
  | CLseek fd offset whence => plain (sys_lseek s slot fd offset whence)
  | CPipe => sys_pipe s slot
  | COpenpty => sys_openpty s slot
  | CDup oldfd => plain (sys_dup s slot oldfd)
  | CDup2 oldfd newfd => plain (sys_dup2 s slot oldfd newfd)
  | CFcntl fd cmd arg => plain (Ret (sys_fcntl s slot fd cmd arg))
  | CGetdents fd buf => sys_getdents64 s slot fd buf
  | CMkdir raw => plain (sys_mkdir s slot raw)
  | CRmdir raw => plain (sys_rmdir s slot raw)
  | CUnlink raw => plain (sys_unlink s slot raw)
  | CRename old_raw new_raw => plain (sys_rename s slot old_raw new_raw)
  | CChdir raw => plain (sys_chdir s slot raw)
  | CExit => s ← close_task_fds s slot; Ret (0, [], s)
  end.

(** What happens between two states: a call of a process, a new process in a
    slot that none uses, a reaped one, and whatever leaves descriptors and
    pipes alone, such as interrupts and other calls. *)
Inductive sys_step (s : Sys F B) : Sys F B -> Prop :=
| step_call slot now now' now'' c r bs s' : is_Some (fd_table s slot) -> call_args c -> run_call s slot now now' now'' c = Ret (r, bs, s') -> sys_step s s'
| step_spawn parent slot i o e : parent <> slot -> free_table s slot -> sys_step s (spawn_fds s parent slot i o e)
| step_reap slot : free_table s slot -> sys_step s (drop_table_of s slot)
| step_other s' : files (kern s') = files (kern s) -> sys_step s s'.

(** At boot there are no processes, descriptions or pipes. *)
Definition boot (s : Sys F B) : Prop := files (kern s) = (mkArcs ∅ 0, ∅, PIPES_init).
Inductive sys_reachable : Sys F B -> Prop :=
| reach_boot s : boot s -> sys_reachable s
| reach_step s s' : sys_reachable s -> sys_step s s' -> sys_reachable s'.

Lemma boot_calls_ok s : boot s -> calls_ok s.
Proof.
  unfold boot, files. intros [= E1 E2 E3]. exists ∅. split; rewrite ?E1, ?E2, ?E3; try done.
  - apply table_ok_init.
  - intros id e. unfold open_ends. rewrite abs_init. done.
Qed.

Lemma run_call_ok s slot now now' now'' c r bs s' : is_Some (fd_table s slot) -> call_args c -> run_call s slot now now' now'' c = Ret (r, bs, s') -> calls_ok s -> calls_ok s'.
Proof.
  intros Ht Ha HR Hok. destruct c; unfold run_call in HR; cbv zeta in HR;
    try (apply bind_Ret in HR as ([n s1] & H1 & [= _ _ <-]));
    eauto using sys_read_ok, sys_write_ok, sys_open_ok, sys_close_ok, sys_lseek_ok, sys_pipe_ok, sys_openpty_ok, sys_dup_ok, sys_dup2_ok, sys_getdents64_ok, path_call_ok, sys_rename_ok, sys_chdir_ok.
  - injection H1 as H1. by eapply sys_fcntl_ok.
  - by eapply close_task_fds_ok.
Qed.

Lemma reachable_ok s : sys_reachable s -> calls_ok s.
Proof.
  induction 1 as [s H|s s' _ IH Hstep]; [by apply boot_calls_ok|]. destruct Hstep; eauto using run_call_ok, spawn_fds_ok, drop_table_ok, calls_files.
Qed.

(** Some process has a descriptor of this end, and the bytes in the pipe. *)
Definition holds_end (s : Sys F B) (id : Z) (e : PipeEnd) : Prop := exists slot t fd, fd_table s slot = Some t /\ fd_at t fd = Some (PipeFd id e).
Definition queue (s : Sys F B) (id : Z) : list Z := match abs (k_pipes (kern s)) id with Some q => q_bytes q | None => [] end.

Lemma ends_held s id e : calls_ok s -> open_ends (k_pipes (kern s)) id e <> 0 <-> holds_end s id e.
Proof.
  intros [ends H]. split.
  - rewrite (eo_refs _ _ _ H). unfold count_owed. cbn. intros Hn. unfold count_ends in Hn. destruct (map_choose (filter (fun p => p.2 = (id, e)) ends)) as (x & ie & Hx); [intros E; rewrite E, map_size_empty in Hn; lia|].
    apply map_lookup_filter_Some in Hx as [Hx Hie]. cbn in Hie. subst ie. pose proof (eo_live _ _ _ H x _ Hx) as Hl. rewrite (eo_count _ _ _ H) in Hl. destruct (totals_pos (k_tables (kern s)) x) as (slot & t & fd & Ht & Hfd); [lia|].
    exists slot, t, fd. split; [done|]. rewrite (eo_ends _ _ _ H slot t fd x Ht Hfd) in Hx. destruct (fd_at t fd) as [[]|]; try done. cbn in Hx. by injection Hx as -> ->.
  - intros (slot & t & fd & Ht & Hd). destruct (pipe_fd_live _ _ _ _ _ _ _ _ H Ht Hd). lia.
Qed.

Lemma live_pipe s slot t fd id e : calls_ok s -> fd_table s slot = Some t -> fd_at t fd = Some (PipeFd id e) ->
  0 <= id /\ Pipe.table_ok (k_pipes (kern s)) /\ exists q, abs (k_pipes (kern s)) id = Some q /\ zlen (q_bytes q) <= PIPE_BUF_SIZE /\ (q_readers q <> 0 <-> holds_end s id PRead) /\ (q_writers q <> 0 <-> holds_end s id PWrite).
Proof.
  intros Hok Ht Hd. pose proof (ends_held s id PRead Hok) as Hr. pose proof (ends_held s id PWrite Hok) as Hw. destruct Hok as [ends H]. destruct (pipe_fd_live _ _ _ _ _ _ _ _ H Ht Hd) as [Hl Hid]. pose proof (eo_pipes _ _ _ H) as Hp.
  split; [done|]. split; [done|]. unfold open_ends in *. destruct (abs (k_pipes (kern s)) id) as [q|] eqn:Hq; [|by destruct e]. exists q. split; [done|]. split; [|done].
  unfold abs in Hq. destruct (get (k_pipes (kern s)) id) as [p|] eqn:Hg; [|done]. cbn in Hq. assert (pipe_ok p) as Hpk. { destruct Hp as [_ Hp]. unfold get in Hg. destruct (id <? 0); [done|]. by eapply Forall_lookup_1. }
  unfold abs_pipe in Hq. destruct (p_in_use p); [|done]. injection Hq as <-. cbn. rewrite zlen_contents by done. apply Hpk.
Qed.

(** C6. A blocking read of a pipe takes the bytes that are there.  From an
    empty pipe it returns 0, the end of the file, exactly when no process has
    a descriptor of the write end any more, and otherwise it waits; this holds
    after every sequence of calls, spawns, exits and reaped processes. *)
Theorem pipe_end_of_file s slot t fd id count now now' now'' :
  sys_reachable s -> fd_table s slot = Some t -> fd_at t fd = Some (PipeFd id PRead) -> is_nonblock (k_arcs (kern s)) t fd = false -> 0 < count ->
  exists r s', sys_read recvfrom now now' now'' s slot fd count = Ret (r, take (Z.to_nat count) (queue s id), s') /\
    queue s' id = drop (Z.to_nat count) (queue s id) /\
    (queue s id <> [] -> r = zlen (take (Z.to_nat count) (queue s id))) /\
    (queue s id = [] -> (r = 0 /\ ~ holds_end s id PWrite) \/ (r = BLOCK_AND_RESTART /\ holds_end s id PWrite)).
Proof.
  intros Hs Ht Hd Hb Hc. apply reachable_ok in Hs. destruct (live_pipe _ _ _ _ _ _ Hs Ht Hd) as (Hid & Hp & q & Hq & Hlen & _ & Hw).
  destruct (pipe_try_read_abs id count (mkP (k_pipes (kern s)) (k_sched (kern s)))) as (r & bs & o & t' & Hspec & Hrun & _ & Habs); [done..|lia|]. cbn [PIPES] in *.
  unfold sys_read, pipe_call. rewrite Ht, Hd, Hrun, Hb. cbn. rewrite Hq in Hspec. unfold spec_read in Hspec. rewrite (proj2 (Z.eqb_neq count 0)) in Hspec by lia. unfold queue. rewrite Hq.
  destruct (q_bytes q) as [|b l] eqn:Hbytes.
  - injection Hspec as <- <- <-. eexists _, _. split; [by rewrite take_nil|]. split; [cbn; rewrite Habs, Z.eqb_refl, Hbytes; by rewrite drop_nil|]. split; [done|]. intros _.
    destruct (Z.eqb_spec (q_writers q) 0) as [E|E]; cbn; [left; split; [done|]; rewrite <- Hw; lia|right; split; [done|]; by apply Hw].
  - injection Hspec as <- <- <-. eexists _, _. split; [reflexivity|]. split; [cbn; by rewrite Habs, Z.eqb_refl|]. split; [|done]. intros _.
    destruct (Z.eqb_spec (zlen (take (Z.to_nat count) (b :: l))) USIZE_MAX) as [E|E]; [|done]. exfalso. revert E. unfold zlen in *. rewrite length_take. unfold USIZE_MAX, PIPE_BUF_SIZE in *. lia.
Qed.

(** A blocking write to a pipe appends what fits, waits when nothing fits,
    and returns 0 exactly when no process has a descriptor of the read end any
    more; this holds after every sequence of calls, spawns, exits and reaped
    processes. *)
Theorem pipe_write_exact s slot t fd id buf :
  sys_reachable s -> fd_table s slot = Some t -> fd_at t fd = Some (PipeFd id PWrite) -> is_nonblock (k_arcs (kern s)) t fd = false -> buf <> [] ->
  let free := Z.to_nat (PIPE_BUF_SIZE - zlen (queue s id)) in
  exists r s', sys_write sendto sound s slot fd buf = Ret (r, s') /\
    (~ holds_end s id PRead /\ r = 0 /\ queue s' id = queue s id \/
     holds_end s id PRead /\ zlen (queue s id) = PIPE_BUF_SIZE /\ r = BLOCK_AND_RESTART /\ queue s' id = queue s id \/
     holds_end s id PRead /\ zlen (queue s id) < PIPE_BUF_SIZE /\ r = zlen (take free buf) /\ queue s' id = queue s id ++ take free buf).
Proof.
  intros Hs Ht Hd Hb Hbuf free. apply reachable_ok in Hs. destruct (live_pipe _ _ _ _ _ _ Hs Ht Hd) as (Hid & Hp & q & Hq & Hlen & Hr & _).
  destruct (pipe_try_write_abs id buf (mkP (k_pipes (kern s)) (k_sched (kern s)))) as (r & bs & o & t' & Hspec & Hrun & _ & Habs); [done..|]. cbn [PIPES] in *.
  assert (queue s id = q_bytes q) as Hqs by (unfold queue; by rewrite Hq). assert (free = room q) as Hfree by (unfold free, room; rewrite Hqs; unfold zlen; lia). clearbody free. subst free.
  unfold sys_write, pipe_call. rewrite (proj2 (Z.eqb_neq (zlen buf) 0)), Ht, Hd, Hrun, Hb by (destruct buf; [done|rewrite zlen_cons; pose proof (zlen_nonneg buf); lia]). cbn.
  rewrite Hq in Hspec. unfold spec_write in Hspec. rewrite bool_decide_eq_false_2 in Hspec by done. rewrite Hqs. eexists _, _. split; [reflexivity|]. unfold queue. cbn. rewrite Habs, Z.eqb_refl.
  destruct (Z.eqb_spec (q_readers q) 0) as [E|E]; [injection Hspec as <- <- <-; left; split; [rewrite <- Hr; lia|done]|]. right. apply Hr in E.
  destruct (Nat.eqb_spec (room q) 0) as [E'|E']; injection Hspec as <- <- <-; [left|right]; unfold room in E'; (split; [done|]); (split; [unfold zlen in *; lia|]); [done|].
  split; [|done]. destruct (Z.eqb_spec (zlen (take (room q) buf)) USIZE_MAX) as [E1|E1]; [|done]. exfalso. revert E1. unfold zlen in *. rewrite length_take. unfold room, USIZE_MAX, PIPE_BUF_SIZE in *. lia.
Qed.
End Steps.

(** ** Witnesses *)

Definition no_recv (id count : Z) : Z * list Z := (0, []).
Definition no_send (id : Z) (buf : list Z) : Z := 0.
Definition no_sound (inode : Z) : option (list Z -> StreamWrite) := None.
Definition no_device (name : path) : option DeviceKind := None.

(** A process in slot 1, with a pipe in descriptors 3 and 4, then with two
    bytes in it, then with its write end closed. *)
Definition wit_sys : Sys unit flat :=
  mkSys (wit_terms <| t_kern := mkKern wit_session (mkArcs ∅ 0) ∅ PIPES_init 0 ∅ [] |>) wit_vfs ∅ [] [].
Definition wit_spawned : Sys unit flat := spawn_fds wit_sys 0 1 (-1) (-1) (-1).
Definition after (s : Sys unit flat) (c : call) : Sys unit flat :=
  match run_call no_recv no_send no_sound no_device s 1 0 0 0 c with Ret (_, _, s) => s | Panic => s end.
Definition wit_piped : Sys unit flat := after wit_spawned CPipe.
Definition wit_drained : Sys unit flat := after (after wit_piped (CWrite 4 [104; 105])) (CRead 3 8).
Definition wit_ended : Sys unit flat := after wit_drained (CClose 4).

Notation wit_reachable := (sys_reachable no_recv no_send no_sound no_device).

Lemma wit_after s c r : wit_reachable s -> is_Some (fd_table s 1) -> call_args c ->
  run_call no_recv no_send no_sound no_device s 1 0 0 0 c = Ret r -> wit_reachable (after s c).
Proof.
  intros Hs Ht Ha HR. eapply reach_step; [exact Hs|]. unfold after. rewrite HR. destruct r as [[n bs] s']. by eapply step_call.
Qed.

Lemma wit_spawned_reachable : wit_reachable wit_spawned.
Proof. eapply reach_step; [apply (reach_boot _ _ _ _ wit_sys); done|]. by apply step_spawn. Qed.
Lemma wit_step s c : wit_reachable s -> (match fd_table s 1 with Some _ => true | None => false end) = true -> call_args c ->
  (match run_call no_recv no_send no_sound no_device s 1 0 0 0 c with Ret _ => true | Panic => false end) = true -> wit_reachable (after s c).
Proof.
  intros Hs Ht Ha HR. destruct (fd_table s 1) eqn:E; [|done]. destruct (run_call _ _ _ _ _ _ _ _ _ _) as [r|] eqn:Er; [|done]. eapply wit_after; try done.
Qed.
Lemma wit_piped_reachable : wit_reachable wit_piped.
Proof. apply wit_step; [apply wit_spawned_reachable|by vm_compute|done|by vm_compute]. Qed.
Lemma wit_drained_reachable : wit_reachable wit_drained.
Proof. apply wit_step; [apply wit_step; [apply wit_piped_reachable|..]|..]; by vm_compute. Qed.
Lemma wit_ended_reachable : wit_reachable wit_ended.
Proof. apply wit_step; [apply wit_drained_reachable|by vm_compute|done|by vm_compute]. Qed.

Lemma pipe_end_of_file_witness :
  (exists s', sys_read no_recv 0 0 0 wit_drained 1 3 8 = Ret (BLOCK_AND_RESTART, [], s')) /\ exists s', sys_read no_recv 0 0 0 wit_ended 1 3 8 = Ret (0, [], s').
Proof.
  split.
  - destruct (pipe_end_of_file no_recv no_send no_sound no_device wit_drained 1 (default table_new (fd_table wit_drained 1)) 3 0 8 0 0 0) as (r & s' & H1 & _ & _ & H2); [apply wit_drained_reachable|by vm_compute..|].
    exists s'. destruct H2 as [[-> H2]|[-> H2]]; [by vm_compute| |exact H1]. destruct H2. exists 1, (default table_new (fd_table wit_drained 1)), 4. split; by vm_compute.
  - destruct (pipe_end_of_file no_recv no_send no_sound no_device wit_ended 1 (default table_new (fd_table wit_ended 1)) 3 0 8 0 0 0) as (r & s' & H1 & _); [apply wit_ended_reachable|by vm_compute..|].
    exists s'. assert (r = 0) as ->; [|exact H1]. assert (match sys_read no_recv 0 0 0 wit_ended 1 3 8 with Ret (r, _, _) => r | Panic => 1 end = 0) as H2 by (by vm_compute). by rewrite H1 in H2.
Defined.

Lemma pipe_write_exact_witness : exists s', sys_write no_send no_sound wit_piped 1 4 [104; 105] = Ret (2, s') /\ queue s' 0 = [104; 105].
Proof.
  destruct (pipe_write_exact no_recv no_send no_sound no_device wit_piped 1 (default table_new (fd_table wit_piped 1)) 4 0 [104; 105]) as (r & s' & H1 & H2); [apply wit_piped_reachable|by vm_compute|by vm_compute|by vm_compute|done|].
  exists s'. assert (queue wit_piped 0 = []) as Hq by (by vm_compute). rewrite Hq in H2. destruct H2 as [(H2 & _)|[(_ & H2 & _)|(_ & _ & -> & ->)]]; [|by vm_compute in H2|by split].
  destruct H2. exists 1, (default table_new (fd_table wit_piped 1)), 3. split; by vm_compute.
Defined.
