(* ===== verification/UserFs.v ===== *)
(** * The file library of user space

    Model of [lib/src/fs.rs]: open files, whole-file reads and writes,
    directory listings.  The library is written against the system calls as an
    interface, the class [Syscalls]; its instance runs the calls of
    [FileCalls] for one process.  A call that puts the process to sleep ends
    the run of the library in [Asleep]: the kernel repeats it later.

    Memory is not shared: a call takes the bytes of its buffers and returns
    those it stores.  Capacities reserved by [Vec::with_capacity] are not
    modelled, and with them the [fstat64] that [read_to_end] asks one for. *)

From S2P Require Import Prelude Wait Pipe Bytes SharedPages FileTable Task Signal Process Vfs Tty FileCalls.

(** ** Programs over system calls *)

Inductive ret (S A : Type) : Type := Back (a : A) (s : S) | Asleep (s : S).
Arguments Back {S A}. Arguments Asleep {S A}.

Definition prog (S A : Type) : Type := S -> outcome (ret S A).
Definition pure {S A} (a : A) : prog S A := fun s => Ret (Back a s).
Definition seq_ {S A B} (m : prog S A) (k : A -> prog S B) : prog S B := fun s =>
  r ← m s; match r with Back a s => k a s | Asleep s => Ret (Asleep s) end.
Notation "x <~ m ; k" := (seq_ m (fun x => k)) (at level 100, m at level 99, k at level 200, right associativity).
Notation "'do' p <~ m ; k" := (seq_ m (fun x => match x with p => k end)) (at level 100, p strict pattern, m at level 99, k at level 200, right associativity).

(** The calls that the library makes, with what they store. *)
Class Syscalls (S : Type) : Type := {
  call_open : list Z -> Z -> prog S Z;
  call_close : Z -> prog S Z;
  call_read : Z -> Z -> prog S (Z * list Z);
  call_write : Z -> list Z -> prog S Z;
  call_lseek : Z -> Z -> Z -> prog S Z;
  call_mkdir : list Z -> prog S Z;
  call_rmdir : list Z -> prog S Z;
  call_unlink : list Z -> prog S Z;
  call_ls : list Z -> Z -> prog S (Z * list Z);
  call_stat64 : list Z -> prog S (Z * option Stat64);
  call_getdents64 : Z -> list Z -> prog S (Z * list Z);
  call_mount_list : bool -> Z -> prog S (Z * list (list Z))
}.

(** ** The library *)

Inductive IoError : Type := IoNotFound | InvalidFd | WriteZero | Other (n : Z).
Inductive FileType : Type := Directory | Regular | CharDevice | BlockDevice | Fifo | SocketType | Unknown.
#[global] Instance FileType_eq_dec : EqDecision FileType.
Proof. solve_decision. Defined.

(** [DirEntry] of the library *)
Record Entry : Type := mkEnt { d_name : path; d_inode : Z; file_type : FileType; d_mode : Z; d_size : Z; d_mtime : Z; is_mount_point : bool }.
Definition is_dir (e : Entry) : bool := bool_decide (file_type e = Directory).
Definition is_executable (e : Entry) : bool := bool_decide (file_type e = Regular) && negb (Z.land (d_mode e) 0x49 =? 0).

Definition path_to_cstr (p : path) : list Z := p ++ [0].

(** [(n as i32) < 0] for a [u32] *)
Definition negative (n : Z) : bool := 2 ^ 31 <=? n.

Section Library.
  Context {S : Type} `{!Syscalls S}.

(** [File::from_syscall] and the ways to open; the value is the descriptor *)
Definition from_syscall (p : path) (flags : Z) : prog S (result Z IoError) :=
  fd <~ call_open (path_to_cstr p) flags;
  pure (if (fd =? USIZE_MAX) || negative fd then Err IoNotFound else Ok fd).
Definition open (p : path) : prog S (result Z IoError) := from_syscall p O_RDWR.
Definition open_ro (p : path) : prog S (result Z IoError) := from_syscall p O_RDONLY.
Definition create (p : path) : prog S (result Z IoError) := from_syscall p (Z.lor (Z.lor O_CREAT O_WRONLY) O_TRUNC).

Definition seek (fd offset : Z) : prog S (result Z IoError) :=
  pos <~ call_lseek fd (if offset <? 2 ^ 31 then offset else offset - 2 ^ 32) SEEK_SET;
  pure (if negative pos then Err (Other pos) else Ok pos).

(** [File::read] into [buf] *)
Definition read (fd : Z) (buf : list Z) : prog S (result Z IoError * list Z) :=
  if zlen buf =? 0 then pure (Ok 0, buf) else
  do (n, bytes) <~ call_read fd (zlen buf);
  pure (if n =? USIZE_MAX then Err InvalidFd else Ok n, bytes ++ drop (length bytes) buf).

(** [read_to_end] with at most [fuel] reads *)
Definition READ_CHUNK : Z := 16 * 1024.
Fixpoint read_to_end (fuel : nat) (fd : Z) (chunk acc : list Z) : prog S (result (list Z) IoError) :=
  match fuel with
  | O => fun _ => Panic
  | Datatypes.S fuel =>
      do (r, chunk) <~ read fd chunk;
      match r with
      | Err e => pure (Err e)
      | Ok n =>
          if n =? 0 then pure (Ok acc) else
          if zlen chunk <? n then fun _ => Panic else read_to_end fuel fd chunk (acc ++ take (Z.to_nat n) chunk)
      end
  end.

(** [read_exact_or_eof] of [left] bytes; every round reads some. *)
Fixpoint read_exact_loop (fuel : nat) (fd left : Z) (chunk acc : list Z) : prog S (result (list Z) IoError) :=
  match fuel with
  | O => fun _ => Panic
  | Datatypes.S fuel =>
      if left <=? 0 then pure (Ok acc) else
      let to_read := Z.min left (zlen chunk) in
      do (r, part) <~ read fd (take (Z.to_nat to_read) chunk);
      match r with
      | Err e => pure (Err e)
      | Ok got =>
          if got =? 0 then pure (Ok acc) else
          let chunk := part ++ drop (length part) chunk in
          if (zlen chunk <? got) || (left <? got) then fun _ => Panic else read_exact_loop fuel fd (left - got) chunk (acc ++ take (Z.to_nat got) chunk)
      end
  end.
Definition read_exact_or_eof (fd n : Z) : prog S (result (list Z) IoError) := read_exact_loop (Datatypes.S (Z.to_nat n)) fd n (replicate 512 0) [].

(** [File::write] *)
Definition write (fd : Z) (buf : list Z) : prog S (result Z IoError) :=
  if zlen buf =? 0 then pure (Ok 0) else
  n <~ call_write fd buf;
  pure (if n =? 0 then Err WriteZero else if n =? USIZE_MAX then Err InvalidFd else Ok n).

(** [write_all] of the bytes from [offset] on; every round writes some. *)
Fixpoint write_all_loop (fuel : nat) (fd : Z) (buf : list Z) (offset : Z) : prog S (result () IoError) :=
  if zlen buf <=? offset then pure (Ok ()) else
  match fuel with
  | O => fun _ => Panic
  | Datatypes.S fuel =>
      r <~ write fd (drop (Z.to_nat offset) buf);
      match r with
      | Err e => pure (Err e)
      | Ok n =>
          if n =? 0 then pure (Err WriteZero) else
          if 2 ^ 32 <=? offset + n then fun _ => Panic else write_all_loop fuel fd buf (offset + n)
      end
  end.
Definition write_all (fd : Z) (buf : list Z) : prog S (result () IoError) := write_all_loop (length buf) fd buf 0.

(** [impl Drop for File] *)
Definition drop_file (fd : Z) : prog S () := if 2 <? fd then _ <~ call_close fd; pure () else pure ().

(** [read], [read_to_string], [write] of the module *)
Definition fs_read (fuel : nat) (p : path) : prog S (result (list Z) IoError) :=
  r <~ open p;
  match r with
  | Err e => pure (Err e)
  | Ok fd => r <~ read_to_end fuel fd (replicate (Z.to_nat READ_CHUNK) 0) []; _ <~ drop_file fd; pure r
  end.
Definition read_to_string (fuel : nat) (p : path) : prog S (result (list Z) IoError) :=
  r <~ fs_read fuel p; pure (match r with Ok data => Ok (from_utf8_lossy data) | Err e => Err e end).
Definition fs_write (p : path) (data : list Z) : prog S (result () IoError) :=
  r <~ create p;
  match r with
  | Err e => pure (Err e)
  | Ok fd => r <~ write_all fd data; _ <~ drop_file fd; pure r
  end.

Definition create_dir (p : path) : prog S (result () IoError) :=
  n <~ call_mkdir (path_to_cstr p); pure (if n =? USIZE_MAX then Err (Other n) else Ok ()).
Definition remove_file (p : path) : prog S (result () IoError) :=
  n <~ call_unlink (path_to_cstr p); pure (if n =? USIZE_MAX then Err IoNotFound else Ok ()).
Definition remove_dir (p : path) : prog S (result () IoError) :=
  n <~ call_rmdir (path_to_cstr p); pure (if n =? USIZE_MAX then Err IoNotFound else Ok ()).
Definition read_dir (p : path) : prog S (result (list Z) IoError) :=
  do (n, bytes) <~ call_ls (path_to_cstr p) 4096;
  pure (if n =? 0 then Err IoNotFound else Ok (from_utf8_lossy (take (Z.to_nat n) bytes))).
Definition metadata (p : path) : prog S (result Stat64 IoError) :=
  do (n, st) <~ call_stat64 (path_to_cstr p); pure (if negative n then Err IoNotFound else Ok (default (mkStat 0 0 0 0 0 0 0 0 0 0 0 0 0) st)).

(** [mount_points] *)
Definition mount_path (info : list Z) : option path :=
  let p := until_nul info in if bool_decide (p = []) then None else Some (from_utf8_lossy p).
Definition mount_points : prog S (list path) :=
  do (count, _) <~ call_mount_list true 0;
  if (count =? 0) || negative count then pure [] else
  do (written, raw) <~ call_mount_list false count;
  if negative written then pure [] else pure (omap mount_path (take (Z.to_nat written) raw)).

(** ** Listing a directory *)

Definition file_type_from_mode (mode : Z) : FileType :=
  let t := Z.land mode S_IFMT in
  if t =? S_IFDIR then Directory else if t =? S_IFREG then Regular else if t =? S_IFCHR then CharDevice else if t =? S_IFBLK then BlockDevice
  else if t =? S_IFIFO then Fifo else if t =? S_IFSOCK then SocketType else Unknown.
Definition join_path (parent name : path) : path :=
  if bool_decide (parent = []) || bool_decide (parent = [slash]) then slash :: name else trim_end parent ++ [slash] ++ name.
Definition same_path (a b : path) : bool := bool_decide (trim_end a = trim_end b).

(** The entry of a directory with what [metadata] says of it. *)
Definition make_entry (mounts : list path) (full name : path) (inode dtype : Z) (stat : result Stat64 IoError) : Entry :=
  let mounted := existsb (fun m => same_path m full) mounts in
  match stat with
  | Ok st => mkEnt name inode (file_type_from_mode (st_mode st)) (st_mode st) (Z.max (st_size st) 0) (st_mtime st) mounted
  | Err _ => mkEnt name inode (if dtype =? 4 then Directory else if dtype =? 8 then Regular else Unknown) 0 0 0 mounted
  end.

(** The loop over the [n] bytes of a buffer; every entry has 20 bytes or more. *)
Definition skipped (name : path) : bool := bool_decide (name = []) || bool_decide (name = [dot]) || bool_decide (name = [dot; dot]).
Fixpoint entries_loop (fuel : nat) (mounts : list path) (p : path) (buf : list Z) (pos n : Z) (out : list Entry) : prog S (result (list Entry) IoError) :=
  if n <=? pos then pure (Ok out) else
  match fuel with
  | O => fun _ => Panic
  | Datatypes.S fuel =>
      if n - pos <? 19 then pure (Err (Other USIZE_MAX)) else
      let rest := drop (Z.to_nat pos) buf in
      let inode := of_le (take 8 rest) in
      let reclen := of_le (slice rest 16 2) in
      let dtype := default 0 (rest !! 18%nat) in
      if (reclen <? 20) || (n <? pos + reclen) then pure (Err (Other USIZE_MAX)) else
      if zlen buf <? pos + reclen then fun _ => Panic else
      let name := from_utf8_lossy (until_nul (slice rest 19 (Z.to_nat reclen - 19))) in
      if skipped name then entries_loop fuel mounts p buf (pos + reclen) n out else
      let full := join_path p name in
      stat <~ metadata full;
      entries_loop fuel mounts p buf (pos + reclen) n (out ++ [make_entry mounts full name inode dtype stat])
  end.
Fixpoint dir_loop (fuel : nat) (fd : Z) (mounts : list path) (p : path) (buf : list Z) (out : list Entry) : prog S (result (list Entry) IoError) :=
  match fuel with
  | O => fun _ => Panic
  | Datatypes.S fuel =>
      do (n, buf) <~ call_getdents64 fd buf;
      if negative n then pure (Err (Other n)) else
      if n =? 0 then pure (Ok out) else
      r <~ entries_loop (Z.to_nat n) mounts p buf 0 n out;
      match r with Ok out => dir_loop fuel fd mounts p buf out | Err e => pure (Err e) end
  end.

(** [read_dir_entries] with at most [fuel] calls of [getdents64] *)
Definition read_dir_entries (fuel : nat) (p : path) : prog S (result (list Entry) IoError) :=
  r <~ open_ro p;
  match r with
  | Err e => pure (Err e)
  | Ok fd => mounts <~ mount_points; r <~ dir_loop fuel fd mounts p (replicate 4096 0) []; _ <~ drop_file fd; pure r
  end.
End Library.

(** ** The calls of a process *)

Section Process.
  Context {F : Type} `{!FileStore F} {B : Type} `{!Filesystem B}.
  Variables (recvfrom : Z -> Z -> Z * list Z) (sendto : Z -> list Z -> Z) (sound : Z -> option (list Z -> StreamWrite)) (device_kind : path -> option DeviceKind).
  Variables (slot now now' now'' : Z).

(** A result that blocks puts the process to sleep; the call is repeated. *)
Definition trap {A} (f : Sys F B -> outcome (Z * A * Sys F B)) : prog (Sys F B) (Z * A) := fun s =>
  '(n, a, s) ← f s;
  Ret (if (n =? BLOCK_AND_RESTART) || (n =? AUDIO_BLOCK_AND_RESTART) then Asleep s else Back (n, a) s).
Definition trap_plain (f : Sys F B -> outcome (Z * Sys F B)) : prog (Sys F B) Z :=
  r <~ trap (fun s => x ← f s; Ret (x.1, (), x.2)); pure r.1.

#[local] Instance process_calls : Syscalls (Sys F B) := {
  call_open mem flags := trap_plain (fun s => sys_open device_kind s slot (copy_cstr_from_user mem) flags);
  call_close fd := trap_plain (fun s => sys_close s slot fd);
  call_read fd count := trap (fun s => sys_read recvfrom now now' now'' s slot fd count);
  call_write fd buf := trap_plain (fun s => sys_write sendto sound s slot fd buf);
  call_lseek fd offset whence := trap_plain (fun s => sys_lseek s slot fd offset whence);
  call_mkdir mem := trap_plain (fun s => sys_mkdir s slot (copy_cstr_from_user mem));
  call_rmdir mem := trap_plain (fun s => sys_rmdir s slot (copy_cstr_from_user mem));
  call_unlink mem := trap_plain (fun s => sys_unlink s slot (copy_cstr_from_user mem));
  call_ls mem size := trap (fun s => '(n, bytes) ← sys_ls s slot (copy_cstr_from_user mem) size; Ret (n, bytes, s));
  call_stat64 mem := trap (fun s => '(n, st) ← sys_stat64 s slot (copy_cstr_from_user mem); Ret (n, st, s));
  call_getdents64 fd buf := trap (fun s => sys_getdents64 s slot fd buf);
  call_mount_list null max := trap (fun s => let '(n, l) := sys_mount_list s null max in Ret (n, l, s))
}.
End Process.

(** ** What a filesystem promises of regular files *)

(** [file_at] says which inode is the regular file at a path of the
    filesystem, [file_data] what is in it.  Creating may fail, and a write may
    be short; a file that exists can be emptied. *)
Class FileLaws (B : Type) `{!Filesystem B} : Type := {
  fs_wf : B -> Prop;
  file_at : B -> path -> option Z;
  file_data : B -> Z -> list Z;
  law_resolve b p n : fs_wf b -> file_at b p = Some n -> fs_resolve_path b p = Ret (Some n) /\ 0 <= n < 2 ^ 24;
  law_metadata b p n : fs_wf b -> file_at b p = Some n -> exists m, fs_metadata b p = Ret (Some m) /\ Z.land (m_mode m) S_IFMT <> S_IFDIR;
  law_create b p ok b' : fs_wf b -> fs_resolve_path b p = Ret None \/ is_Some (file_at b p) -> fs_create_file b p [] = Ret (ok, b') ->
    fs_wf b' /\ (ok = true -> exists n, file_at b' p = Some n /\ file_data b' n = []);
  law_truncate b p n ok b' : fs_wf b -> file_at b p = Some n -> fs_create_file b p [] = Ret (ok, b') -> ok = true;
  law_write b p n off buf w b' : fs_wf b -> file_at b p = Some n -> 0 <= off <= zlen (file_data b n) -> fs_write_at b n off buf = Ret (w, b') ->
    fs_wf b' /\ 0 <= w <= zlen buf /\ file_at b' p = Some n /\
    file_data b' n = take (Z.to_nat off) (file_data b n) ++ take (Z.to_nat w) buf ++ drop (Z.to_nat (off + w)) (file_data b n);
  law_read b p n off count : fs_wf b -> file_at b p = Some n -> 0 <= off ->
    exists temp, fs_read_at b n off (replicate count 0) = Ret (zlen (take count (drop (Z.to_nat off) (file_data b n))), take count (drop (Z.to_nat off) (file_data b n)) ++ temp)
}.

Section Files.
  Context {B : Type} `{!Filesystem B, !FileLaws B}.
  Implicit Types (v : VfsState B) (q : path).

Definition vfs_good v : Prop := vfs_ok v /\ is_Some (root_fs v) /\ forall r fs, deref v r = Some fs -> fs_wf fs.

(** The regular file at an absolute path: its inode number and its bytes. *)
Definition vfile v q (g : Z) (data : list Z) : Prop :=
  exists r fs rel id n, resolve v q = Ret (fs, rel, id) /\ resolve_mut v q = Ret (r, rel, id) /\ deref v r = Some fs /\ owner v (absolute q) r fs rel id /\
    file_at fs rel = Some n /\ g = global_inode id n /\ file_data fs n = data.

Lemma store_good v r fs fs' : vfs_good v -> deref v r = Some fs -> fs_wf fs' -> vfs_good (store v r fs').
Proof.
  intros (Hv & [root Hr] & Hw) Hd Hf. assert (is_Some (deref v r)) as Hs by (by eexists). split; [by apply store_ok|]. split; [destruct r; cbn; [by eexists|by eexists]|].
  intros r' fs1. rewrite deref_store by done. case_decide; [by intros [= <-]|by apply Hw].
Qed.

(** A path after its filesystem changed. *)
Lemma store_owner v q r fs fs' rel id : vfs_good v -> resolve_mut v q = Ret (r, rel, id) -> deref v r = Some fs ->
  resolve (store v r fs') q = Ret (fs', rel, id) /\ resolve_mut (store v r fs') q = Ret (r, rel, id) /\ deref (store v r fs') r = Some fs' /\ owner (store v r fs') (absolute q) r fs' rel id.
Proof.
  intros (Hv & [root Hr] & Hw) Hm Hd. assert (is_Some (deref v r)) as Hs by (by eexists). assert (exists root', root_fs (store v r fs') = Some root') as [root' Hr'] by (destruct r; cbn; by eexists).
  destruct (resolve_owner (store v r fs') q root' Hr') as (r1 & fs1 & rel1 & id1 & H1 & H2 & H3 & H4). rewrite store_resolve in H2 by (by eexists). rewrite Hm in H2. injection H2 as <- <- <-.
  rewrite deref_store, decide_True in H3 by done. injection H3 as <-. split; [done|]. split; [by rewrite store_resolve by (by eexists)|]. split; [|done]. by rewrite deref_store, decide_True.
Qed.

Lemma vfile_resolve v q g data : vfs_good v -> vfile v q g data -> Vfs.resolve_path v q = Ret (Some g).
Proof.
  intros (_ & _ & Hw) (r & fs & rel & id & n & H1 & _ & H3 & _ & H5 & -> & _). unfold Vfs.resolve_path. rewrite H1. cbn. destruct (law_resolve fs rel n (Hw _ _ H3) H5) as [-> _]. done.
Qed.

Lemma vfile_not_dir v q g data : vfs_good v -> normalize_dir_path q = q -> vfile v q g data -> path_is_dir v q = Ret false.
Proof.
  intros (_ & _ & Hw) Hq (r & fs & rel & id & n & H1 & _ & H3 & _ & H5 & -> & _). unfold path_is_dir, Vfs.metadata. rewrite Hq, H1. cbn.
  destruct (law_metadata fs rel n (Hw _ _ H3) H5) as (m & -> & Hm). cbn. f_equal. by apply Z.eqb_neq.
Qed.

Lemma vfile_by_inode v q g data : vfs_good v -> vfile v q g data ->
  exists r fs rel id n, resolve_mut v q = Ret (r, rel, id) /\ deref v r = Some fs /\ by_inode v g = Some r /\ local_inode g = n /\ fs_wf fs /\ file_at fs rel = Some n /\ file_data fs n = data /\ g = global_inode id n.
Proof.
  intros (Hv & _ & Hw) (r & fs & rel & id & n & H1 & H2 & H3 & H4 & H5 & -> & H7). destruct (law_resolve fs rel n (Hw _ _ H3) H5) as [_ Hn]. destruct (owner_by_id v _ _ _ _ _ Hv H4) as [Hid Hb].
  destruct (global_inode_split id n Hid ltac:(lia)) as [E1 E2]. rewrite Z.mod_small in E2 by lia. exists r, fs, rel, id, n. split_and!; try done; [unfold by_inode; by rewrite E1|by eapply Hw].
Qed.

Lemma vfile_read v q g data off count : vfs_good v -> vfile v q g data -> 0 <= off ->
  exists temp, Vfs.read_at v g off (replicate count 0) = Ret (zlen (take count (drop (Z.to_nat off) data)), take count (drop (Z.to_nat off) data) ++ temp).
Proof.
  intros Hg Hf Ho. destruct (vfile_by_inode _ _ _ _ Hg Hf) as (r & fs & rel & id & n & _ & Hd & Hb & Hl & Hw & Ha & <- & _).
  destruct (law_read fs rel n off count Hw Ha Ho) as [temp Ht]. exists temp. unfold Vfs.read_at. rewrite Hb. cbn. by rewrite Hd, Hl.
Qed.

Lemma vfile_write v q g data off buf w v' : vfs_good v -> vfile v q g data -> 0 <= off <= zlen data -> Vfs.write_at v g off buf = Ret (w, v') ->
  vfs_good v' /\ 0 <= w <= zlen buf /\ vfile v' q g (take (Z.to_nat off) data ++ take (Z.to_nat w) buf ++ drop (Z.to_nat (off + w)) data).
Proof.
  intros Hg Hf Ho HR. destruct (vfile_by_inode _ _ _ _ Hg Hf) as (r & fs & rel & id & n & Hm & Hd & Hb & Hl & Hw & Ha & <- & ->).
  unfold Vfs.write_at in HR. rewrite Hb in HR. cbn in HR. rewrite Hd in HR. cbn in HR. rewrite Hl in HR. apply bind_Ret in HR as ([w' fs'] & H1 & [= -> <-]).
  destruct (law_write fs rel n off buf w fs' Hw Ha Ho H1) as (Hw' & Hlen & Ha' & Hdata). split; [by eapply store_good|]. split; [done|].
  destruct (store_owner v q r fs fs' rel id Hg Hm Hd) as (S1 & S2 & S3 & S4). exists r, fs', rel, id, n. by rewrite Hdata.
Qed.

(** There is no file at the path, or a regular one. *)
Definition vacant v q : Prop := Vfs.resolve_path v q = Ret None \/ exists g data, vfile v q g data.

Lemma create_vfile v q ok v' : vfs_good v -> vacant v q -> Vfs.create_file v q [] = Ret (ok, v') ->
  vfs_good v' /\ (ok = true -> exists g, vfile v' q g []) /\ (forall g data, vfile v q g data -> ok = true).
Proof.
  intros Hg Hv HR. pose proof Hg as (_ & [root Hroot] & Hw). destruct (resolve_owner v q root Hroot) as (r & fs & rel & id & H1 & H2 & H3 & H4).
  assert (forall g data, vfile v q g data -> exists n, file_at fs rel = Some n) as Hfile.
  { intros g data (r' & fs' & rel' & id' & n & E1 & E2 & E3 & _ & E5 & _). rewrite H1 in E1. injection E1 as <- <- <-. by exists n. }
  assert (fs_resolve_path fs rel = Ret None \/ is_Some (file_at fs rel)) as Hvac.
  { destruct Hv as [Hv|(g & data & Hv)]; [left|right; destruct (Hfile g data Hv) as [n Hn]; by exists n]. unfold Vfs.resolve_path in Hv. rewrite H1 in Hv. cbn in Hv. by apply bind_Ret in Hv as ([n|] & Hn & Hv). }
  unfold Vfs.create_file, change in HR. rewrite H2 in HR. cbn in HR. rewrite H3 in HR. cbn in HR.
  apply bind_Ret in HR as ([ok' fs'] & Hc & [= -> <-]). destruct (law_create fs rel ok fs' (Hw _ _ H3) Hvac Hc) as [Hw' Hok]. split; [by eapply store_good|]. split.
  - intros Ht. destruct (Hok Ht) as (n & Ha & Hdata). destruct (store_owner v q r fs fs' rel id Hg H2 H3) as (S1 & S2 & S3 & S4). exists (global_inode id n), r, fs', rel, id, n. done.
  - intros g data Hf. destruct (Hfile g data Hf) as [n Hn]. eapply law_truncate; [by eapply Hw|exact Hn|exact Hc].
Qed.
End Files.

(** ** Paths from user space *)

Lemma utf8_scan_valid l : l <> [] -> utf8_valid l = true -> exists n, utf8_scan l = (true, n) /\ (1 <= n <= length l)%nat /\ utf8_valid (drop n l) = true.
Proof.
  destruct l as [|b l]; [done|]. intros _ H. cbn [utf8_valid] in H. unfold utf8_scan. cbv zeta. change (default 0 ((b :: l) !! 0%nat)) with b. unfold utf8_char_width. destruct (b <? 0x80); [exists 1%nat; cbn; split; [done|]; split; [lia|by rewrite drop_0]|].
  destruct l as [|b1 l]; [done|]. destruct (in_range 0xC2 0xDF b).
  { apply andb_true_iff in H as [H1 H]. exists 2%nat. cbn -[in_range]. unfold is_cont. rewrite H1. split_and!; [done|lia|lia|done]. }
  destruct l as [|b2 l]; [done|]. destruct (in_range 0xE0 0xEF b).
  { apply andb_true_iff in H as [H1 H]. apply andb_true_iff in H1 as [H1 H2]. exists 3%nat. cbn -[in_range]. unfold is_cont. rewrite H1, H2. split_and!; [done|lia|lia|done]. }
  destruct l as [|b3 l]; [done|]. apply andb_true_iff in H as [H1 H]. apply andb_true_iff in H1 as [H1 H4]. apply andb_true_iff in H1 as [H1 H3]. apply andb_true_iff in H1 as [H0 H1].
  exists 4%nat. rewrite H0. cbn -[in_range]. unfold is_cont. rewrite H1, H3, H4. split_and!; [done|lia|lia|done].
Qed.

Lemma lossy_loop_valid fuel : forall l, (length l <= fuel)%nat -> utf8_valid l = true -> lossy_loop fuel l = l.
Proof.
  induction fuel as [|fuel IH]; intros l Hl Hv; [by destruct l; [|cbn in Hl; lia]|]. destruct l as [|b l]; [done|]. destruct (utf8_scan_valid (b :: l)) as (n & Hs & Hn & Hd); [done|done|].
  cbn [lossy_loop]. rewrite Hs, IH; [apply take_drop|rewrite length_drop; lia|done].
Qed.

Lemma lossy_valid l : utf8_valid l = true -> from_utf8_lossy l = l.
Proof. by apply lossy_loop_valid. Qed.

Lemma until_nul_app l l' : 0 ∉ l -> until_nul (l ++ 0 :: l') = l.
Proof. induction l as [|b l IH]; intros H; [done|]. cbn. apply not_elem_of_cons in H as [Hb Hl]. rewrite (proj2 (Z.eqb_neq b 0)), IH by done. done. Qed.

Lemma until_nul_id l : 0 ∉ l -> until_nul l = l.
Proof. induction l as [|b l IH]; intros H; [done|]. cbn. apply not_elem_of_cons in H as [Hb Hl]. by rewrite (proj2 (Z.eqb_neq b 0)), IH. Qed.

(** A path that the kernel sees as the program wrote it. *)
Definition user_path (p : path) : Prop := p <> [] /\ 0 ∉ p /\ zlen p <= 255 /\ utf8_valid p = true.

Lemma copy_path p : user_path p -> copy_cstr_from_user (path_to_cstr p) = p.
Proof.
  intros (_ & H0 & Hl & Hv). unfold copy_cstr_from_user, path_to_cstr. unfold zlen in Hl. destruct (decide (length p = 255%nat)) as [E|E].
  - rewrite take_app_length' by done. rewrite until_nul_id by done. by apply lossy_valid.
  - rewrite take_ge by (rewrite length_app; cbn; lia). rewrite until_nul_app by done. by apply lossy_valid.
Qed.

Lemma trim_end_last (l : path) c : c <> slash -> trim_end (l ++ [c]) = l ++ [c].
Proof. intros Hc. unfold trim_end. rewrite reverse_snoc. cbn [trim_start]. rewrite (proj2 (Z.eqb_neq c slash)) by done. by rewrite reverse_cons, reverse_involutive. Qed.

Lemma join_last parts : parts <> [] -> Forall good parts -> exists l c, join parts = l ++ [c] /\ c <> slash.
Proof.
  induction parts as [|a parts IH]; [done|]. intros _ Hg. apply Forall_cons in Hg as [(Hne & _ & _ & Hs) Hg]. destruct parts as [|b parts].
  - destruct (exists_last Hne) as (l & c & ->). exists l, c. split; [done|]. intros ->. apply Hs, elem_of_app. right. by apply list_elem_of_singleton.
  - destruct IH as (l & c & Hj & Hc); [done|done|]. exists (a ++ slash :: l), c. split; [|done]. change (join (a :: b :: parts)) with (a ++ slash :: join (b :: parts)). rewrite Hj. by rewrite <- app_assoc.
Qed.

Lemma normal_dir_path p : normalize_dir_path (normalize_path p) = normalize_path p.
Proof.
  rewrite normalize_print. pose proof (parts_good p) as Hg. destruct (parts_of p) as [|a parts] eqn:E; [done|]. destruct (join_last (a :: parts) ltac:(done) Hg) as (l & c & Hj & Hc).
  unfold print. rewrite Hj. unfold normalize_dir_path. rewrite bool_decide_eq_false_2 by (intros [?|[= H]]; [done|by destruct l]).
  change (slash :: l ++ [c]) with ((slash :: l) ++ [c]). by rewrite trim_end_last.
Qed.

(** ** An open file *)

Section Opened.
  Context {F : Type} `{!FileStore F} {B : Type} `{!Filesystem B, !FileLaws B}.
  Context (slot : Z).
  Implicit Types (s : Sys F B) (t : FileDescriptorTable).

(** Descriptor [fd] of the table [t] is the file [g] at [off], with no status flags. *)
Definition opened s t (fd g : Z) (mode : FileMode) (off : Z) : Prop :=
  fd_table s slot = Some t /\ table_wf t /\ arcs_ok (k_arcs (kern s)) /\
  exists x o i, fd_at t fd = Some (File g i mode) /\ ofd_at t fd = Some x /\ arc_read (k_arcs (kern s)) x = Some o /\ ofd_offset o = off /\ status_flags o = 0.

Lemma opened_reads s t fd g mode off : opened s t fd g mode off ->
  get_offset (k_arcs (kern s)) t fd = Some off /\ get_flags (k_arcs (kern s)) t fd = 0 /\ exists i, fd_at t fd = Some (File g i mode).
Proof.
  intros (_ & _ & _ & x & o & i & Hd & Hx & Ho & <- & Hf). rewrite get_offset_alt, get_flags_alt, Hx. cbn. rewrite Ho. cbn. split_and!; [done|done|by exists i].
Qed.

(** A change of the description that is asked for. *)
Lemma opened_modify s t fd g mode off x f : opened s t fd g mode off -> ofd_at t fd = Some x -> (forall o, status_flags (f o) = status_flags o) ->
  forall off', (forall o, ofd_offset o = off -> ofd_offset (f o) = off') -> opened (put_arcs s (arc_modify (k_arcs (kern s)) x f)) t fd g mode off'.
Proof.
  intros (Ht & Hw & Ha & y & o & i & Hd & Hy & Ho & Hoff & Hf) Hx Hs off' Ho'. rewrite Hx in Hy. injection Hy as <-. destruct (arc_modify_ok (k_arcs (kern s)) x f Ha) as (Ha' & _ & Hm).
  split; [done|]. split; [done|]. split; [done|]. exists x, (f o), i. cbn. rewrite Hm, decide_True, Ho by done. cbn. split_and!; try done; [by apply Ho'|by rewrite Hs].
Qed.

Lemma advance_opened s t fd g mode off n : opened s t fd g mode off -> 0 <= n -> 0 <= off -> off + n < 2 ^ 64 ->
  opened (put_arcs s (advance_offset (k_arcs (kern s)) t fd n).2) t fd g mode (off + n).
Proof.
  intros Ho Hn H0 Hlt. pose proof Ho as (_ & _ & _ & x & _ & _ & _ & Hx & _). unfold advance_offset. rewrite Hx. cbn [snd]. eapply opened_modify; [exact Ho|exact Hx|done|].
  intros o Eo. cbn. rewrite Eo. unfold saturating_add. lia.
Qed.

(** A new descriptor in a free slot. *)
Lemma install_run s t0 fd d : calls_ok s -> fd_table s slot = Some t0 -> alloc_fd t0 = Some fd ->
  exists s' t x, install s slot d 0 = Some (fd, s') /\ fd_table s' slot = Some t /\ table_wf t /\ arcs_ok (k_arcs (kern s')) /\
    fd_at t fd = Some d /\ ofd_at t fd = Some x /\ arc_read (k_arcs (kern s')) x = Some (from_descriptor d) /\
    s_vfs s' = s_vfs s /\ s_cwd s' = s_cwd s /\ k_sched (kern s') = k_sched (kern s) /\ set_slot t fd None None = t0 /\ 0 <= fd < FD_COUNT /\ fd_at t0 fd = None.
Proof.
  intros [ends H] Ht Ea. pose proof (eo_tables _ _ _ H slot t0 Ht) as Hw. pose proof (eo_arcs _ _ _ H) as Ha. destruct (alloc_fd_free t0 fd Hw Ea) as [Hf Hr].
  assert (ofd_at t0 fd = None) as Ho. { destruct (ofd_at t0 fd) eqn:E; [|done]. destruct Hw as (_ & _ & Hs). destruct (proj2 (Hs fd)) as [? ?]; [by eexists|congruence]. }
  unfold install. rewrite Ht. cbn [mbind option_bind]. rewrite Ea. cbn [mbind option_bind]. unfold insert_fd. rewrite (proj2 (Z.leb_gt FD_COUNT fd)), bool_decide_eq_false_2 by (lia || (rewrite Hf; by intros [])).
  cbn [orb arc_new]. rewrite Ho. cbn [drop_opt]. set (x := next_arc (k_arcs (kern s))). set (h := mkArcs _ _). set (t := set_slot t0 fd _ _).
  pose proof (proj1 (arc_new_ok (k_arcs (kern s)) (from_descriptor d) Ha)) as Hah. cbn in Hah. fold x in Hah. fold h in Hah.
  destruct (set_slot_at t0 fd Hw Hr (Some d) (Some x) fd (proj1 Hr)) as [Eo Ed]. rewrite Z.eqb_refl in Eo, Ed. fold t in Eo, Ed.
  assert (table_wf t) as Hwt by (apply set_slot_wf; [done|done|by split]).
  unfold set_flags. rewrite Eo. cbn [snd]. destruct (arc_modify_ok h x (fun o => o <| status_flags := Z.land 0 OFD_STATUS_MASK |>) Hah) as (Ham & _ & Hm).
  eexists _, t, x. split; [reflexivity|]. split; [apply set_table_at|]. split_and!; try done; try lia.
  - cbn. rewrite Hm, decide_True by done. unfold arc_read, h. cbn. by rewrite lookup_insert_eq.
  - unfold t, set_slot. cbn. rewrite !list_insert_insert_eq. destruct t0 as [f0 o0]. cbn in *. destruct (slot_lookup (mkTable f0 o0) fd Hw Hr) as [L1 L2]. cbn in L1, L2. rewrite Ho in L1. rewrite Hf in L2. by rewrite !list_insert_id.
Qed.

Lemma open_file s t0 fd g mode flags : calls_ok s -> fd_table s slot = Some t0 -> alloc_fd t0 = Some fd -> Z.land flags OFD_STATUS_MASK = 0 ->
  exists s' t, install s slot (File g 0 mode) (Z.land flags OFD_STATUS_MASK) = Some (fd, s') /\ opened s' t fd g mode 0 /\ s_vfs s' = s_vfs s /\ s_cwd s' = s_cwd s /\
    set_slot t fd None None = t0 /\ 0 <= fd < FD_COUNT /\ fd_at t0 fd = None.
Proof.
  intros Hok Ht Ea ->. destruct (install_run s t0 fd (File g 0 mode) Hok Ht Ea) as (s' & t & x & H1 & H2 & H3 & H4 & H5 & H6 & H7 & H8 & H9 & _ & H10 & H11 & H12).
  exists s', t. split; [done|]. split; [|done]. split_and!; try done. by exists x, (from_descriptor (File g 0 mode)), 0.
Qed.

Lemma close_file s t fd g mode off : opened s t fd g mode off -> exists s', sys_close s slot fd = Ret (0, s') /\ fd_table s' slot = Some (set_slot t fd None None) /\ s_vfs s' = s_vfs s /\ s_cwd s' = s_cwd s.
Proof.
  intros (Ht & Hw & _ & x & o & i & Hd & Hx & _). unfold sys_close. rewrite Ht, (close_used _ _ _ _ _ Hw Hd Hx). cbn. unfold close_descriptor. cbn. destruct (negb _); eexists; (split; [reflexivity|split_and!; [apply set_table_at|done|done]]).
Qed.

Lemma read_file_step recvfrom now now' now'' s t fd g mode off q data count : opened s t fd g mode off -> mode <> WriteOnly -> vfs_good (s_vfs s) -> vfile (s_vfs s) q g data ->
  0 <= off <= zlen data -> zlen data < 2 ^ 32 ->
  let bs := take (Z.to_nat count) (drop (Z.to_nat off) data) in
  exists s', sys_read recvfrom now now' now'' s slot fd count = Ret (zlen bs, bs, s') /\ opened s' t fd g mode (off + zlen bs) /\ s_vfs s' = s_vfs s /\ s_cwd s' = s_cwd s.
Proof.
  intros Ho Hm Hg Hf Hoff Hlen bs. destruct (opened_reads _ _ _ _ _ _ Ho) as (Eo & _ & i & Ed). pose proof Ho as (Ht & _). destruct (vfile_read _ _ _ _ off (Z.to_nat count) Hg Hf (proj1 Hoff)) as [temp Hr]. fold bs in Hr.
  assert (0 <= zlen bs <= zlen data - off) as Hbs by (unfold bs, zlen in *; rewrite length_take, length_drop; lia).
  assert (read_inode s slot fd t g count = Ret (zlen bs, bs, if 0 <? zlen bs then put_arcs s (advance_offset (k_arcs (kern s)) t fd (zlen bs)).2 else s)) as HR.
  { unfold read_inode. rewrite Eo. cbn [default id]. rewrite Hr. cbn. destruct (Z.ltb_spec 0 (zlen bs)) as [Hp|Hp].
    - destruct (advance_offset _ _ _ _) as [o' h']. cbn. f_equal. unfold zlen. by rewrite Nat2Z.id, take_app_length.
    - destruct bs; [done|]. rewrite zlen_cons in Hp. pose proof (zlen_nonneg bs). lia. }
  exists (if 0 <? zlen bs then put_arcs s (advance_offset (k_arcs (kern s)) t fd (zlen bs)).2 else s). split.
  - unfold sys_read. rewrite Ht, Ed. destruct mode; [exact HR|done|exact HR].
  - destruct (Z.ltb_spec 0 (zlen bs)) as [Hp|Hp]; [split; [apply advance_opened; try done; lia|done]|]. split; [|done]. by replace (off + zlen bs) with off by lia.
Qed.

Lemma write_file_step sendto sound s t fd g mode off q data buf w s' : opened s t fd g mode off -> mode <> ReadOnly -> vfs_good (s_vfs s) -> vfile (s_vfs s) q g data ->
  off = zlen data -> zlen data + zlen buf < 2 ^ 32 -> buf <> [] -> sys_write sendto sound s slot fd buf = Ret (w, s') ->
  0 <= w <= zlen buf /\ opened s' t fd g mode (off + w) /\ vfs_good (s_vfs s') /\ vfile (s_vfs s') q g (data ++ take (Z.to_nat w) buf) /\ s_cwd s' = s_cwd s.
Proof.
  intros Ho Hm Hg Hf -> Hlen Hb HR. destruct (opened_reads _ _ _ _ _ _ Ho) as (Eo & Efl & i & Ed). pose proof Ho as (Ht & _). pose proof (zlen_nonneg data) as Hd0.
  assert (write_inode s t fd g buf = Ret (w, s')) as HW.
  { unfold sys_write in HR. rewrite (proj2 (Z.eqb_neq (zlen buf) 0)), Ht, Ed, Efl in HR by (destruct buf; [done|rewrite zlen_cons; pose proof (zlen_nonneg buf); lia]). by destruct mode. }
  unfold write_inode in HW. rewrite Eo in HW. cbn [default id] in HW. apply bind_Ret in HW as ([w' v'] & H1 & [= -> <-]).
  destruct (vfile_write _ _ _ _ (zlen data) _ _ _ Hg Hf (conj Hd0 (Z.le_refl _)) H1) as (Hg' & Hw & Hf'). split; [done|].
  rewrite (take_ge data) in Hf' by (unfold zlen; lia). rewrite (drop_ge data) in Hf' by (unfold zlen; lia). rewrite app_nil_r in Hf'.
  assert (opened (s <| s_vfs := v' |>) t fd g mode (zlen data)) as Ho' by exact Ho.
  destruct (Z.ltb_spec 0 w) as [Hp|Hp]; [|split; [by replace (zlen data + w) with (zlen data) by lia|done]].
  split; [|done]. apply (advance_opened _ _ _ _ _ _ _ Ho'); lia.
Qed.
End Opened.

(** ** Runs *)

Lemma seq_Back {S A B} (m : prog S A) (k : A -> prog S B) s b s' : seq_ m k s = Ret (Back b s') <-> exists a s1, m s = Ret (Back a s1) /\ k a s1 = Ret (Back b s').
Proof.
  unfold seq_. split.
  - intros H. apply bind_Ret in H as ([a s1|s1] & H1 & H2); [by exists a, s1|done].
  - intros (a & s1 & H1 & H2). by rewrite H1.
Qed.

Lemma seq_step {S A B} (m : prog S A) (k : A -> prog S B) s a s1 : m s = Ret (Back a s1) -> seq_ m k s = k a s1.
Proof. unfold seq_. by intros ->. Qed.

Section Runs.
  Context {F : Type} `{!FileStore F} {B : Type} `{!Filesystem B, !FileLaws B}.
  Variables (recvfrom : Z -> Z -> Z * list Z) (sendto : Z -> list Z -> Z) (sound : Z -> option (list Z -> StreamWrite)) (device_kind : path -> option DeviceKind).
  Variables (slot now now' now'' : Z).
  Implicit Types (s : Sys F B) (t : FileDescriptorTable).
  #[local] Notation calls := (process_calls (F := F) (B := B) recvfrom sendto sound device_kind slot now now' now'').

Lemma trap_Back {A} (f : Sys F B -> outcome (Z * A * Sys F B)) s n a s' : trap f s = Ret (Back (n, a) s') <-> f s = Ret (n, a, s') /\ n <> BLOCK_AND_RESTART /\ n <> AUDIO_BLOCK_AND_RESTART.
Proof.
  unfold trap. split.
  - intros H. apply bind_Ret in H as ([[n1 a1] s1] & H1 & H2). destruct (Z.eqb_spec n1 BLOCK_AND_RESTART); [done|]. destruct (Z.eqb_spec n1 AUDIO_BLOCK_AND_RESTART); [done|]. cbn in H2. injection H2 as -> -> ->. done.
  - intros (-> & H1 & H2). cbn. by rewrite (proj2 (Z.eqb_neq _ _) H1), (proj2 (Z.eqb_neq _ _) H2).
Qed.

Lemma trap_plain_Back (f : Sys F B -> outcome (Z * Sys F B)) s n s' : trap_plain f s = Ret (Back n s') <-> f s = Ret (n, s') /\ n <> BLOCK_AND_RESTART /\ n <> AUDIO_BLOCK_AND_RESTART.
Proof.
  unfold trap_plain. rewrite seq_Back. split.
  - intros ([n1 []] & s1 & H1 & [= <- <-]). apply trap_Back in H1 as (H1 & H2). apply bind_Ret in H1 as ([n2 s2] & H1 & [= -> ->]). done.
  - intros (H1 & H2). exists (n, ()), s'. split; [|done]. apply trap_Back. by rewrite H1.
Qed.

Lemma write_all_run q g t fd fuel : forall data offset s s', opened slot s t fd g WriteOnly offset -> vfs_good (s_vfs s) -> vfile (s_vfs s) q g (take (Z.to_nat offset) data) ->
  0 <= offset <= zlen data -> zlen data < 2 ^ 31 -> calls_ok s -> write_all_loop (Syscalls0 := calls) fuel fd data offset s = Ret (Back (Ok ()) s') ->
  opened slot s' t fd g WriteOnly (zlen data) /\ vfs_good (s_vfs s') /\ vfile (s_vfs s') q g data /\ s_cwd s' = s_cwd s /\ calls_ok s'.
Proof.
  induction fuel as [|fuel IH]; intros data offset s s' Ho Hg Hf Hoff Hlen Hok HR; cbn [write_all_loop] in HR; (destruct (Z.leb_spec (zlen data) offset) as [Hle|Hlt];
    [injection HR as <-; replace offset with (zlen data) in * by lia; rewrite take_ge in Hf by (unfold zlen; lia); done|]); [done|].
  apply seq_Back in HR as (r & s1 & H1 & HR). set (buf := drop (Z.to_nat offset) data) in *. assert (zlen buf = zlen data - offset) as Hbl by (unfold buf, zlen in *; rewrite length_drop; lia).
  unfold write in H1. rewrite (proj2 (Z.eqb_neq (zlen buf) 0)) in H1 by lia. apply seq_Back in H1 as (n & s2 & H1 & H2). apply trap_plain_Back in H1 as (H1 & _). injection H2 as Hr <-.
  assert (zlen (take (Z.to_nat offset) data) = offset) as Htl by (unfold zlen in *; rewrite length_take; lia). assert (buf <> []) as Hne by (intros E; rewrite E in Hbl; change (zlen (@nil Z)) with 0 in Hbl; lia).
  destruct (write_file_step slot sendto sound s t fd g WriteOnly offset q (take (Z.to_nat offset) data) buf n s2 Ho ltac:(done) Hg Hf (eq_sym Htl) ltac:(lia) Hne H1) as (Hn & Ho' & Hg' & Hf' & Hc').
  destruct (Z.eqb_spec n 0) as [->|Hn0]; [by subst r|]. rewrite (proj2 (Z.eqb_neq n USIZE_MAX)) in Hr by (unfold USIZE_MAX; lia). subst r. rewrite (proj2 (Z.eqb_neq n 0)), (proj2 (Z.leb_gt (2 ^ 32) (offset + n))) in HR by lia.
  destruct (IH data (offset + n) s2 s') as (A1 & A2 & A3 & A4 & A5); try done; [|lia|by eapply sys_write_ok|split_and!; try done; by rewrite A4].
  replace (take (Z.to_nat (offset + n)) data) with (take (Z.to_nat offset) data ++ take (Z.to_nat n) buf); [done|]. unfold buf. rewrite Z2Nat.inj_add by lia. apply take_take_drop.
Qed.

(** A path that names a place for a regular file: neither the terminal nor a device. *)
Definition file_path (cwd : option path) (p : path) : Prop :=
  user_path p /\ resolve_task_path cwd p <> dev_tty /\ (name ← strip_prefix dev_prefix (resolve_task_path cwd p); device_kind name) = None.

Lemma task_path_dir cwd p : normalize_dir_path (resolve_task_path cwd p) = resolve_task_path cwd p.
Proof. unfold resolve_task_path. destruct (starts_with _ _); [apply normal_dir_path|]. case_bool_decide; apply normal_dir_path. Qed.

Lemma errno_negative : negative ENOENT = true /\ negative EINVAL = true /\ negative ENOMEM = true /\ negative ENOTDIR = true.
Proof. done. Qed.

(** The end of [sys_open], from the inode on. *)
Lemma open_end s t0 g mode flags r s' : calls_ok s -> fd_table s slot = Some t0 -> Z.land flags OFD_STATUS_MASK = 0 ->
  match install s slot (File g 0 mode) (Z.land flags OFD_STATUS_MASK) with Some (fd, s) => Ret (fd, s) | None => Ret (ENOMEM, s) end = Ret (r, s') -> negative r = false ->
  exists t, opened slot s' t r g mode 0 /\ s_vfs s' = s_vfs s /\ s_cwd s' = s_cwd s /\ set_slot t r None None = t0 /\ fd_at t0 r = None /\ 0 <= r < FD_COUNT /\ calls_ok s'.
Proof.
  intros Hok Ht Hfl HR Hn. destruct (alloc_fd t0) as [fd|] eqn:Ea.
  - destruct (open_file slot s t0 fd g mode flags Hok Ht Ea Hfl) as (s1 & t & Hi & Ho & H1 & H2 & H3 & H4 & H5). pose proof (install_calls_ok _ _ _ _ _ _ Hi eq_refl Hok) as Hok'. rewrite Hi in HR. injection HR as <- <-. by exists t.
  - unfold install in HR. rewrite Ht in HR. cbn [mbind option_bind] in HR. rewrite Ea in HR. cbn in HR. injection HR as <- <-. done.
Qed.

Lemma create_run s t0 p fd s1 : calls_ok s -> fd_table s slot = Some t0 -> file_path (s_cwd s !! slot) p -> vfs_good (s_vfs s) ->
  vacant (s_vfs s) (task_path s slot p) -> create (Syscalls0 := calls) p s = Ret (Back (Ok fd) s1) ->
  exists t g, opened slot s1 t fd g WriteOnly 0 /\ vfile (s_vfs s1) (task_path s slot p) g [] /\ vfs_good (s_vfs s1) /\ s_cwd s1 = s_cwd s /\
    set_slot t fd None None = t0 /\ fd_at t0 fd = None /\ 0 <= fd < FD_COUNT /\ calls_ok s1.
Proof.
  intros Hok Ht (Hp & Htty & Hdev) Hg Hv HR. unfold create, from_syscall in HR. apply seq_Back in HR as (r & s2 & H1 & HR). apply trap_plain_Back in H1 as (H1 & _). injection HR as HR <-.
  assert (r = fd /\ negative r = false) as [<- Hn]; [|clear HR]. { destruct (r =? USIZE_MAX); [done|]. destruct (negative r); [done|]. by injection HR as ->. }
  change (Z.lor (Z.lor O_CREAT O_WRONLY) O_TRUNC) with 0x241 in H1. rewrite copy_path in H1 by done. unfold sys_open in H1. rewrite bool_decide_eq_false_2 in H1 by apply Hp. set (q := task_path s slot p) in *. cbv zeta in H1.
  rewrite bool_decide_eq_false_2 in H1 by done. apply bind_Ret in H1 as (d & Hd & H1). destruct d; [by injection H1 as <- <-|]. cbn [has_flag] in H1. change (has_flag 0x241 O_DIRECTORY) with false in H1. cbn [negb] in H1.
  apply bind_Ret in H1 as ([o v] & Hi & H1). unfold open_inode in Hi. change (has_flag 0x241 O_CREAT) with true in Hi. change (has_flag 0x241 O_TRUNC && ((Z.land 0x241 3 =? O_WRONLY) || (Z.land 0x241 3 =? O_RDWR))) with true in Hi.
  assert (forall g, o = Some g -> vfs_good v /\ vfile v q g []) as Ho.
  { intros g ->. destruct Hv as [Hv|(g0 & data & Hv)].
    - rewrite Hv in Hi. cbn in Hi. apply bind_Ret in Hi as ([ok v1] & Hc & Hi). destruct (create_vfile _ _ _ _ Hg (or_introl Hv) Hc) as (Hg1 & Hf1 & _). destruct ok; [|done]. destruct (Hf1 eq_refl) as [g1 Hf].
      cbn in Hi. rewrite (vfile_resolve _ _ _ _ Hg1 Hf) in Hi. cbn in Hi. by injection Hi as <- <-.
    - rewrite (vfile_resolve _ _ _ _ Hg Hv) in Hi. cbn in Hi. apply bind_Ret in Hi as ([ok v1] & Hc & Hi). destruct (create_vfile _ _ _ _ Hg (or_intror (ex_intro _ g0 (ex_intro _ data Hv))) Hc) as (Hg1 & Hf1 & Hok1).
      destruct (Hf1 (Hok1 _ _ Hv)) as [g1 Hf]. rewrite (vfile_resolve _ _ _ _ Hg1 Hf) in Hi. cbn in Hi. by injection Hi as <- <-. }
  destruct o as [g|]; [|by injection H1 as <- <-]. destruct (Ho g eq_refl) as [Hg1 Hf]. change (has_flag 0x241 O_APPEND) with false in H1. cbv iota in H1. rewrite bind_Ret_l in H1. unfold q, task_path in H1. rewrite Hdev in H1.
  destruct (open_end (s <| s_vfs := v |>) t0 g (mode_of 0x241) 0x241 r s2) as (t & A1 & A2 & A3 & A4 & A5 & A6 & A7); try done.
  exists t, g. rewrite A2. split_and!; try done; by apply A6.
Qed.

Lemma open_run s t0 p g data : calls_ok s -> fd_table s slot = Some t0 -> file_path (s_cwd s !! slot) p -> vfs_good (s_vfs s) ->
  vfile (s_vfs s) (task_path s slot p) g data -> is_Some (alloc_fd t0) ->
  exists fd t s1, open (Syscalls0 := calls) p s = Ret (Back (Ok fd) s1) /\ opened slot s1 t fd g ReadWrite 0 /\ s_vfs s1 = s_vfs s /\ s_cwd s1 = s_cwd s /\
    set_slot t fd None None = t0 /\ fd_at t0 fd = None /\ 0 <= fd < FD_COUNT /\ calls_ok s1.
Proof.
  intros Hok Ht (Hp & Htty & Hdev) Hg Hv [fd Ea]. destruct (open_file slot s t0 fd g ReadWrite O_RDWR Hok Ht Ea eq_refl) as (s2 & t & Hi & Ho & H1 & H2 & H3 & H4 & H5).
  pose proof (install_calls_ok _ _ _ _ _ _ Hi eq_refl Hok) as Hok'. exists fd, t, s2. split; [|done]. unfold open, from_syscall.
  assert (sys_open device_kind s slot (copy_cstr_from_user (path_to_cstr p)) O_RDWR = Ret (fd, s2)) as HS.
  { rewrite copy_path by done. unfold sys_open. rewrite bool_decide_eq_false_2 by apply Hp. cbv zeta. rewrite bool_decide_eq_false_2 by done. rewrite (vfile_not_dir _ _ g data Hg) by (done || apply task_path_dir). rewrite bind_Ret_l.
    change (has_flag O_RDWR O_DIRECTORY) with false. cbv iota. unfold open_inode. rewrite (vfile_resolve _ _ _ _ Hg Hv), bind_Ret_l. cbv iota zeta.
    change (has_flag O_RDWR O_TRUNC && _) with false. cbv iota. rewrite bind_Ret_l. cbv iota beta. change (has_flag O_RDWR O_APPEND) with false. cbv iota. rewrite bind_Ret_l. unfold task_path. rewrite Hdev. assert (s <| s_vfs := s_vfs s |> = s) as -> by (by destruct s).
    change (mode_of O_RDWR) with ReadWrite. by rewrite Hi. }
  rewrite (seq_step _ _ _ fd s2).
  - unfold pure. unfold FD_COUNT in H4. rewrite (proj2 (Z.eqb_neq fd USIZE_MAX)) by (unfold USIZE_MAX; lia). unfold negative. rewrite (proj2 (Z.leb_gt (2 ^ 31) fd)) by lia. done.
  - apply trap_plain_Back. split; [exact HS|]. unfold FD_COUNT, BLOCK_AND_RESTART, AUDIO_BLOCK_AND_RESTART, BLOCK_AND_RESTART, USIZE_MAX in *. lia.
Qed.

Lemma read_all_run q g t fd data (c : Z) fuel : 0 < c -> forall off chunk s, opened slot s t fd g ReadWrite off -> vfs_good (s_vfs s) -> vfile (s_vfs s) q g data -> 0 <= off <= zlen data -> zlen data < 2 ^ 31 ->
  zlen chunk = c -> zlen data - off <= (Z.of_nat fuel - 1) * c -> calls_ok s ->
  exists s' off', read_to_end (Syscalls0 := calls) fuel fd chunk (take (Z.to_nat off) data) s = Ret (Back (Ok data) s') /\ opened slot s' t fd g ReadWrite off' /\ s_vfs s' = s_vfs s /\ s_cwd s' = s_cwd s /\ calls_ok s'.
Proof.
  intros Hpos. induction fuel as [|fuel IH]; intros off chunk s Ho Hg Hf Hoff Hlen Hc Hfuel Hok; [lia|]. cbn [read_to_end].
  destruct (read_file_step slot recvfrom now now' now'' s t fd g ReadWrite off q data c Ho ltac:(done) Hg Hf Hoff ltac:(lia)) as (s1 & Hr & Ho1 & Hv1 & Hc1). set (bs := take (Z.to_nat c) (drop (Z.to_nat off) data)) in *.
  assert (0 <= zlen bs <= zlen data - off /\ zlen bs <= c /\ (zlen bs < c -> zlen bs = zlen data - off)) as (Hb1 & Hb2 & Hb3) by (unfold bs, zlen in *; rewrite length_take, length_drop; lia).
  assert (take (Z.to_nat off) data ++ bs = take (Z.to_nat (off + zlen bs)) data) as Hcat.
  { rewrite Z2Nat.inj_add by lia. rewrite <- take_take_drop. f_equal. unfold zlen. rewrite Nat2Z.id. unfold bs. by rewrite take_length_take. }
  clearbody bs.
  assert (read (Syscalls0 := calls) fd chunk s = Ret (Back (Ok (zlen bs), bs ++ drop (length bs) chunk) s1)) as HR.
  { unfold read. rewrite Hc. rewrite (proj2 (Z.eqb_neq c 0)) by lia. rewrite (seq_step _ _ _ (zlen bs, bs) s1).
    - unfold pure. rewrite (proj2 (Z.eqb_neq (zlen bs) USIZE_MAX)) by (unfold USIZE_MAX; lia). done.
    - apply trap_Back. split; [exact Hr|]. unfold BLOCK_AND_RESTART, AUDIO_BLOCK_AND_RESTART, BLOCK_AND_RESTART, USIZE_MAX. lia. }
  rewrite (seq_step _ _ _ _ _ HR). cbv iota beta. pose proof (sys_read_ok _ _ _ _ _ _ _ _ _ _ _ (Z.lt_le_incl _ _ Hpos) Hr Hok) as Hok1. destruct (Z.eqb_spec (zlen bs) 0) as [E|E].
  - exists s1, (off + zlen bs). rewrite take_ge by (unfold zlen in *; lia). done.
  - assert (zlen (bs ++ drop (length bs) chunk) = c) as Hc' by (rewrite <- Hc; unfold zlen in *; rewrite length_app, length_drop; lia). rewrite Hc'. rewrite (proj2 (Z.ltb_ge c (zlen bs))) by done.
    replace (take (Z.to_nat (zlen bs)) (bs ++ drop (length bs) chunk)) with bs by (unfold zlen; by rewrite Nat2Z.id, take_app_length). rewrite Hcat.
    destruct (IH (off + zlen bs) (bs ++ drop (length bs) chunk) s1) as (s' & off' & A1 & A2 & A3 & A4 & A5); try done; [by rewrite Hv1|by rewrite Hv1|lia|assert (1 <= Z.of_nat fuel) by (destruct fuel; lia); rewrite Nat2Z.inj_succ in Hfuel; destruct (Z.eq_dec (zlen bs) c); nia|].
    exists s', off'. rewrite A3, A4. done.
Qed.

Lemma alloc_free t fd : table_wf t -> 0 <= fd < FD_COUNT -> fd_at t fd = None -> is_Some (alloc_fd t).
Proof.
  intros Hw Hr Hf. destruct (slot_lookup t fd Hw Hr) as [_ L]. rewrite Hf in L. destruct (alloc_fd t) eqn:E; [by eexists|]. apply vec_position_None in E. by pose proof (Forall_lookup_1 _ _ _ _ E L).
Qed.

Lemma drop_run s t fd g mode off : opened slot s t fd g mode off -> 2 < fd < FD_COUNT -> calls_ok s ->
  exists s', drop_file (Syscalls0 := calls) fd s = Ret (Back () s') /\ fd_table s' slot = Some (set_slot t fd None None) /\ s_vfs s' = s_vfs s /\ s_cwd s' = s_cwd s /\ calls_ok s'.
Proof.
  intros Ho Hfd Hok. destruct (close_file slot _ _ _ _ _ _ Ho) as (s' & Hc & H1 & H2 & H3). exists s'. split; [|split_and!; try done; by eapply sys_close_ok].
  unfold drop_file. rewrite (proj2 (Z.ltb_lt 2 fd)) by lia. rewrite (seq_step _ _ _ 0 s'); [done|]. apply trap_plain_Back. done.
Qed.

End Runs.

(** ** What the library does not notice *)

Section Unnoticed.
  Context {F : Type} `{!FileStore F} {B : Type} `{!Filesystem B}.

(** The kernel cuts a path after 255 bytes: a call on a longer path acts on a
    shorter one. *)
Lemma long_path_truncated p : 255 <= zlen p -> copy_cstr_from_user (path_to_cstr p) = copy_cstr_from_user (path_to_cstr (take 255 p)).
Proof.
  intros Hl. unfold copy_cstr_from_user, path_to_cstr. unfold zlen in Hl. rewrite take_app_le by lia. rewrite take_app_length' by (rewrite length_take; lia). done.
Qed.

(** Only one error code is an error: making a directory without a name
    succeeds. *)
Lemma create_dir_empty_ok recvfrom sendto sound device_kind slot now now' now'' (s : Sys F B) :
  create_dir (Syscalls0 := process_calls recvfrom sendto sound device_kind slot now now' now'') [] s = Ret (Back (Ok ()) s).
Proof. done. Qed.

(** A write that would block counts as written. *)
Lemma write_all_error_ok {S} `{!Syscalls S} fd buf (s : S) : buf <> [] -> zlen buf <= EAGAIN -> call_write fd buf s = Ret (Back EAGAIN s) ->
  write_all fd buf s = Ret (Back (Ok ()) s).
Proof.
  intros Hb Hl Hc. unfold write_all. destruct buf as [|b buf]; [done|]. cbn [length write_all_loop]. pose proof (zlen_nonneg buf) as H0. rewrite zlen_cons in *. rewrite (proj2 (Z.leb_gt _ _)) by lia.
  assert (write fd (drop (Z.to_nat 0) (b :: buf)) s = Ret (Back (Ok EAGAIN) s)) as Hw.
  { unfold write. change (drop (Z.to_nat 0) (b :: buf)) with (b :: buf). rewrite zlen_cons, (proj2 (Z.eqb_neq _ _)) by lia. by rewrite (seq_step _ _ _ _ _ Hc). }
  rewrite (seq_step _ _ _ _ _ Hw). cbv iota. change (EAGAIN =? 0) with false. change (2 ^ 32 <=? 0 + EAGAIN) with false. cbv iota. change (0 + EAGAIN) with EAGAIN.
  destruct (length buf); cbn [write_all_loop]; by rewrite zlen_cons, (proj2 (Z.leb_le _ _) Hl).
Qed.

(** Opening with truncation succeeds when the file cannot be emptied. *)
Lemma truncation_failure_ignored (v : VfsState B) p g : Vfs.resolve_path v p = Ret (Some g) -> Vfs.create_file v p [] = Ret (false, v) ->
  open_inode v p (Z.lor (Z.lor O_CREAT O_WRONLY) O_TRUNC) = Ret (Some g, v).
Proof. intros H1 H2. unfold open_inode. rewrite H1, bind_Ret_l. cbn -[Vfs.create_file Vfs.resolve_path]. by rewrite H2, bind_Ret_l, H1. Qed.
End Unnoticed.

(** ** Records of a directory *)

Section Records.

Definition name_ok (e : DirEntry) : Prop := 0 ∉ e_name e /\ utf8_valid (e_name e) = true /\ zlen (e_name e) <= 4069 /\ 0 <= e_inode e < 2 ^ 64.

Lemma reclen_range e : zlen (e_name e) <= 4069 -> 20 + zlen (e_name e) <= reclen e <= 4096.
Proof.
  intros Hl. pose proof (zlen_nonneg (e_name e)) as H0. unfold reclen. change (Z.land (19 + zlen (e_name e) + 1 + 7) (not_u 32 7)) with (align_down 32 (19 + zlen (e_name e) + 1 + 7) (2 ^ 3)).
  rewrite land_not_ones by lia. pose proof (Z.mod_pos_bound (19 + zlen (e_name e) + 1 + 7) (2 ^ 3)). pose proof (Z.div_mod (19 + zlen (e_name e) + 1 + 7) (2 ^ 3)). lia.
Qed.

(** The bytes of one record with its padding. *)
Definition record_of (e : DirEntry) (r : list Z) : Prop :=
  of_le (take 8 r) = e_inode e /\ of_le (slice r 16 2) = reclen e /\ r !! 18%nat = Some (if e_type e =? 2 then 4 else 8) /\ until_nul (slice r 19 (Z.to_nat (reclen e) - 19)) = e_name e.

Lemma dirent_length idx e : zlen (dirent idx e) = 20 + zlen (e_name e).
Proof. unfold dirent, zlen. rewrite !length_app, !le_bytes_length. cbn. lia. Qed.

Lemma dirent_record idx e pad : name_ok e -> zlen (dirent idx e) + zlen pad = reclen e -> record_of e (dirent idx e ++ pad).
Proof.
  intros (H0 & Hv & Hl & Hi) Hp. pose proof (reclen_range e Hl) as Hr. rewrite dirent_length in Hp. set (ty := if e_type e =? 2 then 4 else 8).
  assert (dirent idx e ++ pad = le_bytes 8 (e_inode e) ++ le_bytes 8 (idx + 1) ++ le_bytes 2 (reclen e) ++ [ty] ++ e_name e ++ 0 :: pad) as -> by (unfold dirent; by rewrite <- !app_assoc).
  pose proof (le_bytes_length 8 (e_inode e)) as L1. pose proof (le_bytes_length 8 (idx + 1)) as L2. pose proof (le_bytes_length 2 (reclen e)) as L3. split_and!.
  - rewrite take_app_length' by done. apply of_le_bytes. done.
  - unfold slice. change 16%nat with (8 + 8)%nat. rewrite <- drop_drop, drop_app_length', drop_app_length' by done. rewrite take_app_length' by done. apply of_le_bytes. change (256 ^ Z.of_nat 2) with 65536. pose proof (zlen_nonneg (e_name e)). lia.
  - rewrite lookup_app_r by lia. rewrite lookup_app_r by lia. rewrite lookup_app_r by lia. by rewrite L1, L2, L3.
  - assert (forall l : list Z, drop 19 l = drop 1 (drop 2 (drop 8 (drop 8 l)))) as Hdrop by (intros l; by rewrite !drop_drop).
    unfold slice. rewrite Hdrop, !drop_app_length' by done. change (drop 1 ([ty] ++ e_name e ++ 0 :: pad)) with (e_name e ++ 0 :: pad).
    rewrite take_ge by (rewrite length_app; cbn; unfold zlen in *; lia). by apply until_nul_app.
Qed.

(** The records of [es] lie one after the other between [pos] and [n]. *)
Fixpoint records (buf : list Z) (pos : Z) (es : list DirEntry) (n : Z) : Prop :=
  match es with
  | [] => pos = n
  | e :: es => 0 <= pos /\ pos + reclen e <= zlen buf /\ record_of e (slice buf (Z.to_nat pos) (Z.to_nat (reclen e))) /\ records buf (pos + reclen e) es n
  end.

Lemma fill_records es : forall idx written buf idx' n buf', Forall name_ok es -> 0 <= written <= zlen buf -> fill_dirents es idx written buf = (idx', n, buf') ->
  exists k, idx' = idx + Z.of_nat k /\ (k <= length es)%nat /\ records buf' written (take k es) n /\ zlen buf' = zlen buf /\ written <= n <= zlen buf /\
    take (Z.to_nat written) buf' = take (Z.to_nat written) buf /\ (k = 0%nat -> es = [] \/ exists e, head es = Some e /\ zlen buf < written + reclen e).
Proof.
  induction es as [|e es IH]; intros idx written buf idx' n buf' Hok Hw HR; cbn [fill_dirents] in HR.
  { injection HR as <- <- <-. exists 0%nat. split_and!; try done; try lia. by left. }
  apply Forall_cons in Hok as [He Hok]. pose proof (reclen_range e ltac:(apply He)) as Hrec. pose proof (zlen_nonneg (e_name e)) as H0. destruct (Z.ltb_spec (zlen buf) (written + reclen e)) as [Hlt|Hge].
  { injection HR as <- <- <-. exists 0%nat. split_and!; try done; try (cbn; lia). intros _. right. by exists e. }
  pose proof (dirent_length idx e) as Hdl. assert (Z.to_nat written + length (dirent idx e) <= length buf)%nat as Hfit by (unfold zlen in *; lia).
  set (buf1 := splice buf (Z.to_nat written) (dirent idx e)) in *. assert (zlen buf1 = zlen buf) as Hl1 by (unfold zlen, buf1; by rewrite splice_length).
  destruct (IH (idx + 1) (written + reclen e) buf1 idx' n buf' Hok ltac:(lia) HR) as (k & -> & Hk & Hrecs & Hl' & Hn & Htake & _). exists (S k).
  assert (slice buf' (Z.to_nat written) (Z.to_nat (reclen e)) = dirent idx e ++ slice buf (Z.to_nat written + length (dirent idx e)) (Z.to_nat (reclen e) - length (dirent idx e))) as Hslice.
  { rewrite Z2Nat.inj_add in Htake by lia. unfold slice. rewrite (List.firstn_skipn_comm (Z.to_nat (reclen e)) (Z.to_nat written) buf'), Htake, <- List.firstn_skipn_comm. unfold buf1. rewrite drop_splice by done.
    rewrite take_app_ge by (unfold zlen in *; lia). done. }
  split_and!; [lia|cbn; lia| |lia|lia|lia| |done].
  - cbn [take records]. split_and!; [lia|lia| |done]. rewrite Hslice. apply dirent_record; [done|]. unfold slice. unfold zlen at 2. rewrite length_take, length_drop. unfold zlen in *. lia.
  - pose proof (f_equal (take (Z.to_nat written)) Htake) as E. rewrite !take_take, !Nat.min_l in E by lia. rewrite E. unfold buf1, splice.
    rewrite take_app_le by (rewrite length_take; unfold zlen in *; lia). rewrite take_take. f_equal. lia.
Qed.

Lemma records_le buf n es : forall pos, Forall name_ok es -> records buf pos es n -> pos <= n.
Proof.
  induction es as [|e es IH]; intros pos Hok Hr; [cbn in Hr; lia|]. apply Forall_cons in Hok as [He Hok]. destruct Hr as (H1 & H2 & _ & H3). specialize (IH _ Hok H3).
  pose proof (reclen_range e ltac:(apply He)). pose proof (zlen_nonneg (e_name e)). lia.
Qed.
End Records.

(** ** A listing *)

Section Listing.
  Context {F : Type} `{!FileStore F} {B : Type} `{!Filesystem B}.
  Variables (recvfrom : Z -> Z -> Z * list Z) (sendto : Z -> list Z -> Z) (sound : Z -> option (list Z -> StreamWrite)) (device_kind : path -> option DeviceKind).
  Variables (slot now now' now'' : Z).
  Implicit Types (s : Sys F B) (t : FileDescriptorTable).
  #[local] Notation calls := (process_calls (F := F) (B := B) recvfrom sendto sound device_kind slot now now' now'').

(** What [metadata] of a path returns. *)
Definition stat_path s (q : path) : outcome (Z * option Stat64) := sys_stat64 s slot (copy_cstr_from_user (path_to_cstr q)).
Definition looked_up s (q : path) : result Stat64 IoError :=
  match stat_path s q with
  | Ret (n, st) => if negative n then Err IoNotFound else Ok (default (mkStat 0 0 0 0 0 0 0 0 0 0 0 0 0) st)
  | Panic => Err IoNotFound
  end.
Definition stat_total s : Prop := forall q, exists r, stat_path s q = Ret r.

(** The entry that the library makes of an entry of the kernel. *)
Definition describe s (mounts : list path) (p : path) (e : DirEntry) : Entry :=
  let full := join_path p (e_name e) in make_entry mounts full (e_name e) (e_inode e) (if e_type e =? 2 then 4 else 8) (looked_up s full).
Definition shown (e : DirEntry) : Prop := skipped (e_name e) = false.

Lemma stat_code s raw n st : sys_stat64 s slot raw = Ret (n, st) -> n <> BLOCK_AND_RESTART /\ n <> AUDIO_BLOCK_AND_RESTART.
Proof.
  unfold sys_stat64. cbv zeta. intros HR. assert (n = 0 \/ n = ENOENT \/ n = ENXIO) as [->|[->| ->]]; [|done..].
  destruct (bool_decide _); [injection HR as <- <-; auto|]. destruct (bool_decide _); [destruct (negb _); injection HR as <- <-; auto|]. apply bind_Ret in HR as ([m|] & _ & [= <- <-]); auto.
Qed.

Lemma metadata_run s q : stat_total s -> metadata (Syscalls0 := calls) q s = Ret (Back (looked_up s q) s).
Proof.
  intros Ht. destruct (Ht q) as [[n st] Hs]. unfold metadata. rewrite (seq_step _ _ _ (n, st) s).
  - unfold looked_up. by rewrite Hs.
  - apply trap_Back. unfold stat_path in Hs. rewrite Hs. split; [done|]. by eapply stat_code.
Qed.

Lemma entries_run s mounts p buf n es : stat_total s -> forall fuel pos out, records buf pos es n -> Forall name_ok es -> n - pos <= Z.of_nat fuel ->
  entries_loop (Syscalls0 := calls) fuel mounts p buf pos n out s = Ret (Back (Ok (out ++ (describe s mounts p <$> filter shown es))) s).
Proof.
  intros Hst. induction es as [|e es IH]; intros fuel pos out Hr Hok Hf.
  { cbn in Hr. subst pos. rewrite app_nil_r. destruct fuel; cbn [entries_loop]; by rewrite Z.leb_refl. }
  apply Forall_cons in Hok as [He Hok]. destruct Hr as (Hp & Hb & (R1 & R2 & R3 & R4) & Hr). pose proof (records_le _ _ _ _ Hok Hr) as Hle. pose proof (reclen_range e ltac:(apply He)) as Hrec. pose proof (zlen_nonneg (e_name e)) as Hn0.
  set (rest := drop (Z.to_nat pos) buf). assert (slice buf (Z.to_nat pos) (Z.to_nat (reclen e)) = take (Z.to_nat (reclen e)) rest) as Hrest by done. rewrite Hrest in R1, R2, R3, R4.
  rewrite take_take, Nat.min_l in R1 by lia. unfold slice in R2, R4. rewrite List.skipn_firstn_comm, take_take, Nat.min_l in R2 by lia. rewrite List.skipn_firstn_comm, take_take, Nat.min_l in R4 by lia. rewrite lookup_take_lt in R3 by lia.
  destruct fuel as [|fuel]; [lia|]. cbn [entries_loop]. rewrite (proj2 (Z.leb_gt n pos)), (proj2 (Z.ltb_ge (n - pos) 19)) by lia. fold rest. unfold slice. rewrite R1, R2, R3, R4. cbv zeta. cbn [default id].
  rewrite (proj2 (Z.ltb_ge (reclen e) 20)), (proj2 (Z.ltb_ge n (pos + reclen e))), (proj2 (Z.ltb_ge (zlen buf) (pos + reclen e))) by lia. cbn [orb]. rewrite lossy_valid by apply He. rewrite filter_cons. destruct (decide (shown e)) as [Es|Es]; unfold shown in Es.
  2: { apply not_false_is_true in Es. rewrite Es. apply IH; [done|done|lia]. }
  - rewrite Es. rewrite (seq_step _ _ _ _ _ (metadata_run s _ Hst)). rewrite IH by (done || lia). cbn [fmap list_fmap]. rewrite <- app_assoc. done.
Qed.

(** The states of one listing differ only in descriptors. *)
Definition same_view s s' : Prop := s_vfs s' = s_vfs s /\ s_cwd s' = s_cwd s /\ k_sched (kern s') = k_sched (kern s).

Lemma view_stat s s' q : same_view s s' -> stat_path s' q = stat_path s q.
Proof. intros (H1 & H2 & H3). unfold stat_path, sys_stat64, task_path. by rewrite H1, H2, H3. Qed.
Lemma view_describe s s' mounts p e : same_view s s' -> describe s' mounts p e = describe s mounts p e.
Proof. intros H. unfold describe, looked_up. by rewrite (view_stat s s') by done. Qed.
Lemma view_total s s' : same_view s s' -> stat_total s -> stat_total s'.
Proof. intros H Ht q. rewrite (view_stat s s') by done. apply Ht. Qed.

(** Descriptor [fd] of the table [t] is the directory [q] with cookie [c]. *)
Definition opened_dir s t (fd : Z) (q : path) (c : Z) : Prop :=
  fd_table s slot = Some t /\ table_wf t /\ arcs_ok (k_arcs (kern s)) /\
  exists x o i, fd_at t fd = Some (Dir (q ++ replicate (96 - length q) 0) (zlen q) i) /\ ofd_at t fd = Some x /\ arc_read (k_arcs (kern s)) x = Some o /\ dir_cookie o = c.

Lemma getdents_step s t fd q c entries buf idx n buf' : opened_dir s t fd q c -> utf8_valid q = true -> list_directory_entries (s_vfs s) q = Ret (Some entries) -> 24 <= zlen buf ->
  fill_dirents (drop (Z.to_nat c) entries) c 0 buf = (idx, n, buf') ->
  exists s', sys_getdents64 s slot fd buf = Ret (n, buf', s') /\ opened_dir s' t fd q idx /\ same_view s s'.
Proof.
  intros (Ht & Hw & Ha & x & o & i & Hd & Hx & Ho & Hc) Hv Hl Hb Hf. unfold sys_getdents64. rewrite (proj2 (Z.ltb_ge (zlen buf) 24)), Ht, Hd by done. cbv zeta.
  replace (take (Z.to_nat (zlen q)) (q ++ replicate (96 - length q) 0)) with q by (unfold zlen; by rewrite Nat2Z.id, take_app_length). rewrite Hv, Hl, get_cookie_alt, Hx. cbn [mbind option_bind]. rewrite Ho. cbn [fmap option_fmap option_map default id].
  rewrite Hc, bind_Ret_l. cbv iota beta. rewrite Hf. eexists. split; [reflexivity|]. split; [|done]. unfold set_cookie. rewrite Hx. cbn [snd]. destruct (arc_modify_ok (k_arcs (kern s)) x (fun o => o <| dir_cookie := idx |>) Ha) as (Ha' & _ & Hm).
  split; [done|]. split; [done|]. split; [exact Ha'|]. eexists x, _, i. split; [done|]. split; [done|]. split; [cbn; rewrite Hm, decide_True, Ho by done; reflexivity|done].
Qed.

Lemma dir_run s0 t fd q p mounts entries : utf8_valid q = true -> list_directory_entries (s_vfs s0) q = Ret (Some entries) -> Forall name_ok entries -> stat_total s0 ->
  forall fuel c s buf, same_view s0 s -> opened_dir s t fd q (Z.of_nat c) -> zlen buf = 4096 -> (c <= length entries)%nat -> (length entries - c < fuel)%nat -> calls_ok s ->
  exists s', dir_loop (Syscalls0 := calls) fuel fd mounts p buf (describe s0 mounts p <$> filter shown (take c entries)) s = Ret (Back (Ok (describe s0 mounts p <$> filter shown entries)) s') /\
    same_view s0 s' /\ (exists c', opened_dir s' t fd q c') /\ calls_ok s'.
Proof.
  intros Hv Hl Hok Hst. induction fuel as [|fuel IH]; intros c s buf Hsv Ho Hb Hc Hf Hcok; [lia|]. cbn [dir_loop].
  destruct (fill_dirents (drop (Z.to_nat (Z.of_nat c)) entries) (Z.of_nat c) 0 buf) as [[idx n] buf'] eqn:Ef.
  destruct (getdents_step s t fd q (Z.of_nat c) entries buf idx n buf' Ho Hv ltac:(by rewrite (proj1 Hsv)) ltac:(lia) Ef) as (s1 & Hg & Ho1 & Hsv1). pose proof (sys_getdents64_ok _ _ _ _ _ _ _ Hg Hcok) as Hok1.
  rewrite Nat2Z.id in Ef. assert (Forall name_ok (drop c entries)) as Hokd by (by apply Forall_drop).
  destruct (fill_records (drop c entries) _ _ _ _ _ _ Hokd (conj (Z.le_refl 0) (zlen_nonneg buf)) Ef) as (k & -> & Hk & Hrec & Hb' & Hn & _ & Hk0). rewrite length_drop in Hk.
  assert (same_view s0 s1) as Hsv' by (destruct Hsv as (?&?&?), Hsv1 as (?&?&?); split_and!; congruence).
  rewrite (seq_step _ _ _ (n, buf') s1) by (apply trap_Back; split; [exact Hg|]; unfold BLOCK_AND_RESTART, AUDIO_BLOCK_AND_RESTART, BLOCK_AND_RESTART, USIZE_MAX; lia). cbv iota beta.
  unfold negative. rewrite (proj2 (Z.leb_gt (2 ^ 31) n)) by lia. destruct k as [|k].
  - rewrite take_0 in Hrec. cbn in Hrec. subst n. rewrite Z.eqb_refl. exists s1. destruct (Hk0 eq_refl) as [Hnil|(e & He & Hlt)].
    + split; [|split_and!; try done; by eexists]. assert (length (drop c entries) = 0%nat) as Hz by (by rewrite Hnil). rewrite length_drop in Hz. by rewrite take_ge by lia.
    + apply head_Some in He as [l' He]. rewrite He in Hokd. apply Forall_cons in Hokd as [Hen _]. pose proof (reclen_range e ltac:(apply Hen)). lia.
  - assert (0 < n) as Hn0. { destruct (drop c entries) as [|e es] eqn:Ed; [apply (f_equal length) in Ed; rewrite length_drop in Ed; cbn in Ed; lia|]. apply Forall_cons in Hokd as [Hen Hokd].
      cbn [take records] in Hrec. destruct Hrec as (_ & _ & _ & Hrec). pose proof (reclen_range e ltac:(apply Hen)). pose proof (zlen_nonneg (e_name e)).
      apply records_le in Hrec; [lia|by apply Forall_take]. }
    rewrite (proj2 (Z.eqb_neq n 0)) by lia.
    rewrite (seq_step _ _ _ _ _ (entries_run s1 mounts p buf' n _ (view_total s0 s1 Hsv' Hst) (Z.to_nat n) 0 _ Hrec (Forall_take _ _ _ Hokd) ltac:(lia))). cbv iota beta.
    replace ((describe s0 mounts p <$> filter shown (take c entries)) ++ (describe s1 mounts p <$> filter shown (take (S k) (drop c entries)))) with (describe s0 mounts p <$> filter shown (take (c + S k) entries)).
    + replace (Z.of_nat c + Z.of_nat (S k)) with (Z.of_nat (c + S k)) in Ho1 by lia. apply (IH (c + S k)%nat s1 buf'); try done; lia.
    + rewrite <- take_take_drop, filter_app, fmap_app. f_equal. apply list_fmap_ext. intros j e _. symmetry. by apply view_describe.
Qed.

(** A mount point that fits the structure of [mount_list]. *)
Definition mount_ok (m : path) : Prop := m <> [] /\ 0 ∉ m /\ zlen m <= 95 /\ utf8_valid m = true.

Lemma mount_info_path m : mount_ok m -> mount_path (mount_info m) = Some m.
Proof.
  intros (Hne & H0 & Hl & Hv). unfold mount_info. rewrite take_ge by (unfold zlen in Hl; lia). cbv zeta. unfold mount_path. replace (until_nul (m ++ replicate (96 - length m) 0)) with m.
  - rewrite bool_decide_eq_false_2 by done. by rewrite lossy_valid.
  - destruct (96 - length m)%nat eqn:E; [unfold zlen in Hl; lia|]. cbn. by rewrite until_nul_app.
Qed.

Lemma mount_points_run s : Forall mount_ok (registry (s_vfs s)) -> zlen (registry (s_vfs s)) < 2 ^ 31 -> mount_points (Syscalls0 := calls) s = Ret (Back (registry (s_vfs s)) s).
Proof.
  intros Hm Hl. unfold mount_points. set (reg := registry (s_vfs s)) in *. pose proof (zlen_nonneg reg) as H0. assert (zlen reg <> BLOCK_AND_RESTART /\ zlen reg <> AUDIO_BLOCK_AND_RESTART) as Hnb by (unfold BLOCK_AND_RESTART, AUDIO_BLOCK_AND_RESTART, BLOCK_AND_RESTART, USIZE_MAX; lia).
  rewrite (seq_step _ _ _ (zlen reg, []) s) by (by apply trap_Back). cbv iota beta. unfold negative at 1. rewrite (proj2 (Z.leb_gt (2 ^ 31) (zlen reg))) by lia. destruct (Z.eqb_spec (zlen reg) 0) as [E|E]; cbn [orb].
  { assert (reg = []) as -> by (destruct reg; [done|rewrite zlen_cons in E; pose proof (zlen_nonneg reg); lia]). done. }
  rewrite (seq_step _ _ _ (zlen reg, mount_info <$> reg) s).
  - cbv iota beta. unfold negative. rewrite (proj2 (Z.leb_gt (2 ^ 31) (zlen reg))) by lia. rewrite take_ge by (rewrite length_fmap; unfold zlen; lia). unfold pure. do 2 f_equal. clear -Hm. induction Hm as [|m l Hm Hl IH]; [done|]. cbn. rewrite mount_info_path by done. by rewrite IH.
  - apply trap_Back. split; [|done]. unfold sys_mount_list, Vfs.mount_points. fold reg. cbn [orb]. rewrite (proj2 (Z.eqb_neq (zlen reg) 0)) by done. rewrite Z.min_id, take_ge by (unfold zlen; lia). done.
Qed.

Lemma open_dir_run s t0 p fd : calls_ok s -> fd_table s slot = Some t0 -> alloc_fd t0 = Some fd -> user_path p -> task_path s slot p <> dev_tty ->
  path_is_dir (s_vfs s) (task_path s slot p) = Ret true -> zlen (task_path s slot p) < 96 ->
  exists t s1, open_ro (Syscalls0 := calls) p s = Ret (Back (Ok fd) s1) /\ opened_dir s1 t fd (task_path s slot p) 0 /\ same_view s s1 /\ set_slot t fd None None = t0 /\ fd_at t0 fd = None /\ 0 <= fd < FD_COUNT /\ calls_ok s1.
Proof.
  intros Hok Ht Ea Hp Htty Hd Hl. set (q := task_path s slot p) in *. destruct (install_run slot s t0 fd (Dir (q ++ replicate (96 - length q) 0) (zlen q) 0) Hok Ht Ea) as (s1 & t & x & H1 & H2 & H3 & H4 & H5 & H6 & H7 & H8 & H9 & H10 & H11 & H12 & H13).
  exists t, s1. pose proof (install_calls_ok _ _ _ _ _ _ H1 eq_refl Hok) as Hok1. split; [|split; [|done]].
  - unfold open_ro, from_syscall. rewrite (seq_step _ _ _ fd s1).
    + unfold pure, negative. unfold FD_COUNT in H12. rewrite (proj2 (Z.eqb_neq fd USIZE_MAX)), (proj2 (Z.leb_gt (2 ^ 31) fd)) by (unfold USIZE_MAX; lia). done.
    + apply trap_plain_Back. split; [|unfold FD_COUNT, BLOCK_AND_RESTART, AUDIO_BLOCK_AND_RESTART, BLOCK_AND_RESTART, USIZE_MAX in *; lia]. rewrite copy_path by done. unfold sys_open. rewrite bool_decide_eq_false_2 by apply Hp. cbv zeta. fold q.
      rewrite bool_decide_eq_false_2 by done. rewrite Hd, bind_Ret_l. cbv iota. unfold open_dir. change (has_flag O_RDONLY O_WRONLY || has_flag O_RDONLY O_RDWR) with false. cbv iota. rewrite (proj2 (Z.leb_gt 96 (zlen q))) by done.
      change (Z.land O_RDONLY O_NONBLOCK) with 0. by rewrite H1.
  - split_and!; try done. by exists x, (from_descriptor (Dir (q ++ replicate (96 - length q) 0) (zlen q) 0)), 0.
Qed.

Lemma close_dir_run s t fd q c : opened_dir s t fd q c -> 2 < fd -> exists s', drop_file (Syscalls0 := calls) fd s = Ret (Back () s') /\ fd_table s' slot = Some (set_slot t fd None None) /\ same_view s s'.
Proof.
  intros (Ht & Hw & _ & x & o & i & Hd & Hx & _) Hfd. assert (exists s', sys_close s slot fd = Ret (0, s') /\ fd_table s' slot = Some (set_slot t fd None None) /\ same_view s s') as (s' & Hc & H1 & H2).
  { unfold sys_close. rewrite Ht, (close_used _ _ _ _ _ Hw Hd Hx). cbn. unfold close_descriptor. cbn. destruct (negb _); eexists; (split; [reflexivity|split; [apply set_table_at|done]]). }
  exists s'. split; [|done]. unfold drop_file. rewrite (proj2 (Z.ltb_lt 2 fd)) by done. rewrite (seq_step _ _ _ 0 s'); [done|]. by apply trap_plain_Back.
Qed.

End Listing.

(** ** A filesystem in memory *)

(** Regular files, numbered by position. *)
Record ram : Type := mkRam { ram_files : list (path * list Z) }.
Definition ram_index (f : ram) (p : path) : option nat := fst <$> list_find (fun e => e.1 = p) (ram_files f).
Definition ram_bytes (f : ram) (n : Z) : list Z := match ram_files f !! Z.to_nat n with Some e => e.2 | None => [] end.
Definition ram_put (f : ram) (n : nat) (d : list Z) : ram := mkRam (alter (fun e => (e.1, d)) n (ram_files f)).
Definition ram_create (f : ram) (p : path) (d : list Z) : bool * ram :=
  match ram_index f p with
  | Some n => (true, ram_put f n d)
  | None => if (zlen (ram_files f) <? 2 ^ 24) && negb (bool_decide (p = [slash])) then (true, mkRam (ram_files f ++ [(p, d)])) else (false, f)
  end.
Definition ram_read (f : ram) (n off : Z) (buf : list Z) : Z * list Z :=
  let bs := take (length buf) (drop (Z.to_nat off) (ram_bytes f n)) in (zlen bs, bs ++ drop (length bs) buf).
Definition ram_write (f : ram) (n off : Z) (buf : list Z) : Z * ram :=
  let d := ram_bytes f n in (zlen buf, ram_put f (Z.to_nat n) (take (Z.to_nat off) d ++ buf ++ drop (Z.to_nat off + length buf) d)).
Definition ram_meta (f : ram) (n : Z) : Metadata := mkMeta n 0x81A4 1 0 0 0 (zlen (ram_bytes f n)) 4096 0 0 0 0.

#[global] Instance ram_fs : Filesystem ram := {
  fs_read_file f p := Ret ((fun n => ram_bytes f (Z.of_nat n)) <$> ram_index f p);
  fs_write_file f p d := match ram_index f p with Some n => Ret (true, ram_put f n d) | None => Ret (false, f) end;
  fs_create_file f p d := Ret (ram_create f p d);
  fs_remove_file f p := Ret (false, f);
  fs_mkdir f p := Ret (false, f);
  fs_rmdir f p := Ret (false, f);
  fs_list_directory_entries f p := Ret (if bool_decide (p = [slash]) then Some (imap (fun n e => mkEntry (Z.of_nat n) (default e.1 (strip_prefix [slash] e.1)) 1 (zlen e.2)) (ram_files f)) else None);
  fs_resolve_path f p := Ret (Z.of_nat <$> ram_index f p);
  fs_read_at f n off buf := Ret (ram_read f n off buf);
  fs_write_at f n off buf := Ret (ram_write f n off buf);
  fs_metadata f p := Ret (if bool_decide (p = [slash]) then Some (mkMeta 0 0x41ED 2 0 0 0 0 4096 0 0 0 0) else ram_meta f ∘ Z.of_nat <$> ram_index f p);
  fs_metadata_inode f n := Ret (Some (ram_meta f n));
  fs_rename f p q := Ret (false, f)
}.

Definition ram_wf (f : ram) : Prop := zlen (ram_files f) <= 2 ^ 24 /\ ram_index f [slash] = None.

Lemma ram_index_Some f p n : ram_index f p = Some n -> exists d, ram_files f !! n = Some (p, d) /\ forall j e, ram_files f !! j = Some e -> (j < n)%nat -> e.1 <> p.
Proof. unfold ram_index. intros ([m [q d]] & H & ->)%fmap_Some. apply list_find_Some in H as (H1 & H2 & H3). cbn in *. subst q. exists d. done. Qed.

Lemma ram_index_intro f p n d : ram_files f !! n = Some (p, d) -> (forall j e, ram_files f !! j = Some e -> (j < n)%nat -> e.1 <> p) -> ram_index f p = Some n.
Proof. intros H1 H2. unfold ram_index. apply fmap_Some. exists (n, (p, d)). split; [|done]. apply list_find_Some. done. Qed.

Lemma ram_put_at f n d j : ram_files (ram_put f n d) !! j = (fun e => (e.1, if decide (j = n) then d else e.2)) <$> ram_files f !! j.
Proof.
  cbn. destruct (decide (j = n)) as [->|Hne]; [by rewrite list_lookup_alter_eq|]. rewrite list_lookup_alter_ne by done. by destruct (ram_files f !! j) as [[? ?]|].
Qed.

Lemma ram_put_index f n d p : ram_index (ram_put f n d) p = ram_index f p.
Proof.
  unfold ram_index. cbn. revert n. induction (ram_files f) as [|[q e] l IH]; intros n; [done|]. destruct n as [|n]; cbn; destruct (decide (q = p)); try done.
  pose proof (IH n) as H. unfold alter in *. destruct (list_find (fun e0 => e0.1 = p) (list_alter _ n l)) as [[? ?]|], (list_find (fun e0 => e0.1 = p) l) as [[? ?]|]; cbn in *; by simplify_eq.
Qed.

Lemma ram_put_bytes f n d : (n < length (ram_files f))%nat -> ram_bytes (ram_put f n d) (Z.of_nat n) = d.
Proof. intros H. unfold ram_bytes. rewrite ram_put_at, Nat2Z.id. destruct (lookup_lt_is_Some_2 _ _ H) as [e ->]. cbn. by rewrite decide_True. Qed.

Lemma ram_put_wf f n d : ram_wf f -> ram_wf (ram_put f n d).
Proof. intros [H1 H2]. split; [unfold zlen in *; cbn; by rewrite length_alter|by rewrite ram_put_index]. Qed.

Lemma ram_append_index f p d q : ram_index f p = None -> ram_index (mkRam (ram_files f ++ [(p, d)])) q = if decide (p = q) then Some (length (ram_files f)) else ram_index f q.
Proof.
  intros Hn. destruct (decide (p = q)) as [<-|Hne].
  - apply (ram_index_intro _ _ _ d); cbn; [by rewrite lookup_app_r, Nat.sub_diag by lia|]. intros j e He Hj. rewrite lookup_app_l in He by lia. unfold ram_index in Hn. apply fmap_None in Hn. apply list_find_None in Hn. by apply (Forall_lookup_1 _ _ _ _ Hn He).
  - unfold ram_index. cbn. clear Hn. induction (ram_files f) as [|[q' e'] l IH]; cbn; [by rewrite decide_False|]. destruct (decide (q' = q)); [done|].
    destruct (list_find (fun e0 => e0.1 = q) (l ++ [(p, d)])) as [[? ?]|], (list_find (fun e0 => e0.1 = q) l) as [[? ?]|]; cbn in *; by simplify_eq.
Qed.

Lemma ram_index_lt f p n : ram_index f p = Some n -> (n < length (ram_files f))%nat.
Proof. intros H. apply ram_index_Some in H as (d & H & _). by eapply lookup_lt_Some. Qed.

Lemma ram_create_law f p ok f' : ram_wf f -> ram_create f p [] = (ok, f') -> ram_wf f' /\ (ok = true -> exists n, ram_index f' p = Some n /\ ram_bytes f' (Z.of_nat n) = []).
Proof.
  intros Hw. unfold ram_create. destruct (ram_index f p) as [n|] eqn:E.
  - intros [= <- <-]. split; [by apply ram_put_wf|]. intros _. exists n. rewrite ram_put_index. split; [done|]. apply ram_put_bytes. by eapply ram_index_lt.
  - destruct (_ && _) eqn:Eg; [|by intros [= <- <-]]. apply andb_true_iff in Eg as [El Ep]. apply Z.ltb_lt in El. apply negb_true_iff, bool_decide_eq_false in Ep. intros [= <- <-]. split.
    + split; [cbn; rewrite zlen_app; change (zlen [(p, @nil Z)]) with 1; lia|]. rewrite ram_append_index, decide_False by done. apply Hw.
    + intros _. exists (length (ram_files f)). rewrite ram_append_index, decide_True by done. split; [done|]. unfold ram_bytes. cbn. by rewrite Nat2Z.id, lookup_app_r, Nat.sub_diag by lia.
Qed.

#[global, refine] Instance ram_laws : FileLaws ram := {
  fs_wf := ram_wf; file_at f p := Z.of_nat <$> ram_index f p; file_data := ram_bytes
}.
Proof.
  - intros f p n [Hl _] H. split; [cbn; by rewrite H|]. apply fmap_Some in H as (m & H & ->). apply ram_index_lt in H. unfold zlen in Hl. lia.
  - intros f p n [_ Hr] H. cbn. case_bool_decide as Ep; [subst; by rewrite Hr in H|]. apply fmap_Some in H as (m & -> & ->). eexists. split; [reflexivity|done].
  - intros f p ok f' Hw _ [= H]. destruct (ram_create_law f p ok f' Hw H) as [H1 H2]. split; [done|]. intros Ht. destruct (H2 Ht) as (n & Hn & Hd). exists (Z.of_nat n). by rewrite Hn.
  - intros f p n ok f' _ H [= Hc]. apply fmap_Some in H as (m & Hm & _). unfold ram_create in Hc. rewrite Hm in Hc. by injection Hc as <- _.
  - intros f p n off buf w f' Hw H Hoff [= <- <-]. apply fmap_Some in H as (m & Hm & ->). pose proof (zlen_nonneg buf). split; [by apply ram_put_wf|]. split; [lia|]. rewrite ram_put_index, Hm. split; [done|].
    rewrite !Nat2Z.id, ram_put_bytes by (by eapply ram_index_lt). rewrite (take_ge buf) by (unfold zlen; lia). do 3 f_equal. unfold zlen in *. lia.
  - intros f p n off count _ _ _. cbn. unfold ram_read. rewrite length_replicate. eexists. reflexivity.
Defined.

(** ** Witnesses *)

(** A process in slot 1 over a memory filesystem with one file. *)
Definition wit_disk : VfsState ram := set_root vfs_new (mkRam [(str "/old", str "a longer text")]).
Definition wit_proc : Sys unit ram :=
  spawn_fds (mkSys (wit_terms <| t_kern := mkKern wit_session (mkArcs ∅ 0) ∅ PIPES_init 0 ∅ [] |>) wit_disk ∅ [] []) 0 1 (-1) (-1) (-1).
Notation wit_calls := (process_calls (F := unit) (B := ram) no_recv no_send no_sound no_device 1 0 0 0).

Lemma wit_proc_reachable : sys_reachable no_recv no_send no_sound no_device wit_proc.
Proof. eapply reach_step; [|by apply step_spawn]. by apply reach_boot. Qed.

Lemma wit_disk_good : vfs_good wit_disk.
Proof.
  split; [apply set_root_ok, vfs_new_ok|]. split; [by eexists|]. intros [|n] fs; [|done]. intros [= <-]. split; [done|]. by vm_compute.
Qed.

Definition ran {A} (d : A) (r : outcome (ret (Sys unit ram) A)) : Sys unit ram * A :=
  match r with Ret (Back a s) => (s, a) | _ => (wit_proc, d) end.
Definition wit_written : Sys unit ram := (ran (Err WriteZero) (fs_write (Syscalls0 := wit_calls) (str "old") (str "new") wit_proc)).1.


Lemma wit_stat_total : stat_total 1 wit_proc.
Proof.
  intros q. unfold stat_path, sys_stat64. cbv zeta. destruct (bool_decide _); [by eexists|]. destruct (bool_decide _); [by eexists|].
  set (p := task_path wit_proc 1 _). destruct (resolve_owner wit_disk (normalize_dir_path p) (mkRam [(str "/old", str "a longer text")]) eq_refl) as (r & fs & rel & id & Hr & _).
  change (s_vfs wit_proc) with wit_disk. unfold Vfs.metadata. cbv zeta. rewrite Hr. cbn. case_bool_decide; cbn; [by eexists|]. destruct (ram_index fs rel); cbn; [by eexists|]. by eexists.
Qed.

