(* ===== verification/UserSpace.v ===== *)
(** * The user half of an address space

    What the memory system calls need of [kernel/src/memory/paging.rs]: the
    page tables below the window manager's area, seen as one finite map from
    user pages to the frames that back them.  [space] relates that map to the
    page tables in memory; the lemmas say what each paging operation does to
    it. *)

From S2P Require Import Prelude Frames Paging.

#[local] Hint Resolve attr_PRESENT attr_WRITABLE attr_USER attr_PAGE_SIZE slot_index : felix.

(** The pages below [WM_SHARED_BASE]. *)
Definition USER_PAGES : Z := 0xA0000.

Definition table_frame (vm : Vm) (f : Z) : Prop :=
  exists i e, slot_ok i /\ get (dir vm) i = Some e /\ is_small e /\ table_of e / 4096 = f.

Definition frame_of (vm : Vm) (n : Z) : option Z :=
  (fun x => x.1.1 / 4096) <$> page_view vm (n / 1024) (n mod 1024).

(** The user pages of [vm] are those of [A]: each backed by a frame of its
    own, which is handed out and holds no page table. *)
Record space (ram : Z) (vm : Vm) (A : gmap Z Z) (live : gset Z) : Prop := {
  sp_vm : vm_ok ram vm live;
  sp_small : forall i e, 0 <= i < 640 -> get (dir vm) i = Some e -> has e PRESENT = true -> has e DIR_PAGE_SIZE = false;
  sp_view : forall n, 0 <= n < USER_PAGES -> frame_of vm n = A !! n;
  sp_dom : forall n f, A !! n = Some f -> 0 <= n < USER_PAGES /\ f ∈ live /\ ~ table_frame vm f;
  sp_inj : forall n n' f, A !! n = Some f -> A !! n' = Some f -> n = n'
}.

Lemma live_unique ram fa live live' : frames_inv ram fa live -> frames_inv ram fa live' -> live = live'.
Proof.
  intros [_ _ Hp Hd] [_ _ Hp' Hd']. apply set_eq. intros f. split; intros Hf.
  - destruct (proj2 (Hp' f) (proj1 (Hp f) (or_intror Hf))) as [Hfree|]; [|done]. by apply Hd in Hfree.
  - destruct (proj2 (Hp f) (proj1 (Hp' f) (or_intror Hf))) as [Hfree|]; [|done]. by apply Hd' in Hfree.
Qed.

Lemma live_range ram fa live f : ram_ok ram -> frames_inv ram fa live -> f ∈ live -> 0 <= f < 2 ^ 18.
Proof.
  intros Hr [Hn _ Hp _] Hf. destruct (ram_pages ram Hr) as [Hb _].
  pose proof (proj1 (Hp f) (or_intror Hf)). assert (0 <= first_dynamic) by by vm_compute. lia.
Qed.

Section Space.
  Variables (ram : Z) (stacks : list (option Z)).

Lemma page_slot n : 0 <= n < USER_PAGES -> slot_ok (n / 1024) /\ 0 <= n / 1024 < 640 /\ index_ok (n mod 1024).
Proof. unfold USER_PAGES, slot_ok, index_ok. intros. split_and!; mlia. Qed.

Lemma page_of_addr v : 0 <= v < 0xA0000000 ->
  0 <= v / 4096 < USER_PAGES /\ mapped_space v /\ v / 0x400000 = v / 4096 / 1024.
Proof. unfold USER_PAGES, mapped_space. intros. split_and!; mlia. Qed.

(** A page view has a page-aligned 32-bit address. *)
Lemma view_aligned vm live i j p w u : vm_ok ram vm live -> slot_ok i -> index_ok j ->
  (forall e, get (dir vm) i = Some e -> has e PRESENT = true -> has e DIR_PAGE_SIZE = false) ->
  page_view vm i j = Some (p, w, u) -> p = p / 4096 * 4096.
Proof.
  intros Hok Hi Hj Hsm Hv. destruct (dir_get ram vm live Hok i Hi) as (e & He & _). unfold page_view in Hv. rewrite He in Hv.
  simpl in Hv. destruct (has e PRESENT) eqn:Hp; [|done]. simpl in Hv. rewrite (Hsm e He Hp) in Hv.
  destruct (vo_tables _ _ _ Hok i e Hi He (conj Hp (Hsm e He Hp))) as (t & Ht & Htok & _). rewrite Ht in Hv. simpl in Hv.
  destruct (table_ok_get t j Htok Hj) as (x & Hx & Hxu). rewrite Hx in Hv. simpl in Hv. unfold decode in Hv.
  destruct (has x PRESENT); [|done]. injection Hv as <- _ _. destruct (table_of_range x Hxu) as [_ Hm]. mlia.
Qed.

Lemma space_translate vm A live v : space ram vm A live -> 0 <= v < 0xA0000000 ->
  translate vm v = Ret ((fun f => f * 4096 + v mod 4096) <$> A !! (v / 4096)).
Proof.
  intros [Hok Hsm Hview _ _] Hv. destruct (page_of_addr v Hv) as (Hn & Hm & Hdiv).
  rewrite (translate_walk ram vm live Hok v Hm). rewrite <- Hview by done. unfold frame_of, hw_walk. rewrite Hdiv.
  destruct (page_slot _ Hn) as (Hi & Hi' & Hj).
  destruct (page_view vm _ _) as [[[p w] u]|] eqn:E; simpl; [|done]. do 2 f_equal.
  rewrite (view_aligned vm live _ _ _ _ _ Hok Hi Hj (fun e => Hsm _ e Hi') E) at 1. lia.
Qed.

(** Memory outside the page tables may change freely. *)
Lemma space_write vm A live f page : space ram vm A live -> ~ table_frame vm f -> 
  space ram (vm <| mem := <[f * 4096 := page]> (mem vm) |>) A live.
Proof.
  intros [Hok Hsm Hview Hdom Hinj] Hf.
  assert (forall i e, slot_ok i -> get (dir vm) i = Some e -> is_small e -> f * 4096 <> table_of e) as Hsep.
  { intros i e Hi He Hs Heq. apply Hf. exists i, e. split_and!; try done. rewrite <- Heq. by rewrite Z.div_mul. }
  constructor; try done.
  - destruct Hok as [Hr Hwin Hd Hfr Htb Hij]. constructor; try done. simpl. intros i e Hi He Hs.
    rewrite lookup_insert_ne by (by eapply Hsep). by apply (Htb i).
  - intros n Hn. rewrite <- Hview by done. unfold frame_of. f_equal. destruct (page_slot n Hn) as (Hi & Hi' & Hj).
    unfold page_view. simpl. destruct (get (dir vm) (n / 1024)) as [e|] eqn:He; [|done]. simpl.
    destruct (has e PRESENT) eqn:Hp; [|done]. simpl. rewrite (Hsm _ e Hi' He Hp).
    rewrite lookup_insert_ne; [done|]. apply (Hsep _ e Hi He). split; [done|by eapply Hsm].
Qed.

(** A frame that backs no user page and no page table can be given back. *)
Lemma space_free vm A live f : space ram vm A live -> f ∈ live -> ~ table_frame vm f -> (forall n, A !! n <> Some f) ->
  space ram (vm <| frames := free_phys_frame (frames vm) f |>) A (live ∖ {[f]}).
Proof.
  intros [Hok Hsm Hview Hdom Hinj] Hl Hf HA. constructor; try done.
  - destruct Hok as [Hr Hwin Hd Hfr Htb Hij]. constructor; try done; simpl; [by apply free_phys_frame_live|].
    intros i e Hi He Hs. destruct (Htb i e Hi He Hs) as (t & ? & ? & Htl). exists t. split_and!; try done.
    apply elem_of_difference. split; [done|]. intros Heq%elem_of_singleton. apply Hf. by exists i, e.
  - intros n g Hg. destruct (Hdom n g Hg) as (? & ? & ?). split; [done|]. split; [|done].
    apply elem_of_difference. split; [done|]. intros Heq%elem_of_singleton. apply (HA n). by rewrite <- Heq.
Qed.

(** Writing one page-table entry moves one page. *)
Definition entry_change (A : gmap Z Z) (n x : Z) : gmap Z Z :=
  if has x PRESENT then <[n := table_of x / 4096]> A else base.delete n A.

Lemma lookup_entry_change A n x n' :
  entry_change A n x !! n' = if n' =? n then (if has x PRESENT then Some (table_of x / 4096) else None) else A !! n'.
Proof.
  unfold entry_change. destruct (Z.eqb_spec n' n) as [->|Hne]; destruct (has x PRESENT).
  - apply lookup_insert_eq.
  - apply lookup_delete_eq.
  - by apply lookup_insert_ne.
  - by apply lookup_delete_ne.
Qed.

Lemma table_frame_dir vm vm' f : dir vm' = dir vm -> table_frame vm' f <-> table_frame vm f.
Proof. intros H. unfold table_frame. by rewrite H. Qed.

Lemma space_pte vm A live n e x :
  space ram vm A live -> 0 <= n < USER_PAGES -> get (dir vm) (n / 1024) = Some e -> is_small e -> in_u32 x ->
  (has x PRESENT = true -> table_of x / 4096 ∈ live /\ ~ table_frame vm (table_of x / 4096) /\
     forall n', A !! n' = Some (table_of x / 4096) -> n' = n) ->
  exists vm', pt_write vm (table_of e) (n mod 1024) x = Ret vm' /\ space ram vm' (entry_change A n x) live /\
    (forall f, f ∈ live -> ~ table_frame vm f -> mem vm' !! (f * 4096) = mem vm !! (f * 4096)) /\
    dir vm' = dir vm.
Proof.
  intros [Hok Hsm Hview Hdom Hinj] Hn He Hs Hx Hnew. destruct (page_slot n Hn) as (Hi & Hi' & Hj).
  destruct (pte_write_ok ram vm live Hok _ e _ x Hi He Hs Hj Hx) as (vm' & Hw & Hok' & Hdir & _ & Hmem & Hv).
  exists vm'. split; [done|]. split; [|split; [|done]].
  - constructor; [done|by rewrite Hdir|..].
    + intros n' Hn'. destruct (page_slot n' Hn') as (Hn1 & _ & Hn2). unfold frame_of. rewrite Hv, lookup_entry_change by done.
      destruct (Z.eqb_spec n' n) as [->|Hne].
      * rewrite !Z.eqb_refl. simpl. unfold decode. by destruct (has x PRESENT).
      * replace ((n' / 1024 =? n / 1024) && (n' mod 1024 =? n mod 1024)) with false; [by apply Hview|].
        symmetry. apply andb_false_iff. rewrite !Z.eqb_neq. mlia.
    + intros n' f. rewrite lookup_entry_change, (table_frame_dir vm vm') by done.
      destruct (Z.eqb_spec n' n) as [->|]; [|apply Hdom]. destruct (has x PRESENT); [|done].
      intros [= <-]. by destruct Hnew as (? & ? & _).
    + intros n1 n2 f. rewrite !lookup_entry_change. destruct (has x PRESENT);
        destruct (Z.eqb_spec n1 n) as [->|], (Z.eqb_spec n2 n) as [->|]; try done; [..|apply Hinj|apply Hinj].
      * intros [= <-] H2. symmetry. by apply Hnew.
      * intros H1 [= <-]. by apply Hnew.
  - intros f Hf Ht. apply Hmem. intros Heq. apply Ht. exists (n / 1024), e. split_and!; try done.
    rewrite <- Heq. by rewrite Z.div_mul.
Qed.

Lemma space_unmap vm A live v : space ram vm A live -> 0 <= v < 0xA0000000 ->
  exists vm', unmap vm v = Ret vm' /\ space ram vm' (base.delete (v / 4096) A) live /\ dir vm' = dir vm /\
    (forall f, f ∈ live -> ~ table_frame vm f -> mem vm' !! (f * 4096) = mem vm !! (f * 4096)).
Proof.
  intros Hsp Hv. pose proof Hsp as [Hok Hsm Hview _ _]. destruct (page_of_addr v Hv) as (Hn & Hm & Hdiv).
  destruct (page_slot _ Hn) as (Hi & Hi' & Hj). destruct (space_slot v Hm) as (_ & _ & Hvu).
  destruct (addr_fields v Hvu) as (Hpd & Hpt & _). destruct (dir_get ram vm live Hok _ Hi) as (e & He & _).
  unfold unmap. rewrite Hpd, Hpt, Hdiv. rewrite (proj2 (Z.leb_gt _ _)) by (unfold slot_ok, ENTRIES in *; lia).
  rewrite (proj2 (idx_Ret _ _ _) He). simpl. destruct (has e PRESENT) eqn:Hp; simpl.
  - pose proof (Hsm _ e Hi' He Hp) as Hl. rewrite Hl.
    destruct (space_pte vm A live _ e 0 Hsp Hn He (conj Hp Hl)) as (vm' & -> & Hsp' & Hmem & Hdir); [by unfold in_u|done|].
    exists vm'. by split_and!.
  - exists vm. split; [done|]. split; [|done]. rewrite delete_id; [done|]. rewrite <- Hview by done.
    unfold frame_of, page_view. rewrite He. simpl. by rewrite Hp.
Qed.

(** A page table appears at a directory entry, in place or in a fresh frame. *)
Lemma user_table_frames vm live i vm1 :
  vm_ok ram vm live -> stacks_live stacks live -> slot_ok i -> user_table ram stacks vm i = Ret vm1 ->
  (forall f, table_frame vm1 f -> table_frame vm f \/ f ∉ live) /\
  (forall f, f ∈ live -> mem vm1 !! (f * 4096) = mem vm !! (f * 4096)) /\
  (forall k e, 0 <= k -> get (dir vm1) k = Some e -> get (dir vm) k = Some e \/ has e DIR_PAGE_SIZE = false).
Proof.
  intros Hok Hst Hi Hu. destruct (dir_get ram vm live Hok i Hi) as (e & He & Heu).
  unfold user_table in Hu. rewrite (proj2 (idx_Ret _ _ _) He) in Hu. simpl in Hu. rewrite zero_pde in Hu.
  assert (0 <= i < zlen (dir vm)) as Hil by (destruct (vo_dir _ _ _ Hok) as [-> _]; unfold slot_ok in Hi; lia).
  destruct (negb (has e PRESENT) || has e DIR_PAGE_SIZE) eqn:Hneed.
  - destruct (vm_alloc_frame ram stacks vm) as [[f vm0]|] eqn:Ha; [|done]. simpl in Hu.
    destruct (vm_alloc_ok ram vm live Hok _ _ _ Hst Ha) as (Hf & Hfb & fa & -> & _).
    destruct (shiftl_page f ltac:(lia)) as (Hsh & Hal & Hfu). unfold set_pde in Hu. simpl in Hu.
    rewrite upd_in_range in Hu by done. simpl in Hu. unfold zero_frame in Hu.
    rewrite (put_fresh ram vm live Hok stacks f _ _ zero_page Hst Ha) in Hu. injection Hu as <-. rewrite <- !Z.lor_assoc.
    change (Z.lor PRESENT (Z.lor WRITABLE USER)) with 7.
    destruct (entry_table (Z.shiftl f 12) 7 Hal Hfu ltac:(lia)) as [Htab _].
    split_and!; simpl.
    + intros g (k & x & Hk & Hx & Hs & <-). simpl in Hx. rewrite get_insert in Hx by done.
      destruct (Z.eqb_spec i k) as [<-|]; [|left; by exists k, x]. injection Hx as <-. right.
      rewrite Htab, Hsh, Z.div_mul by lia. done.
    + intros g Hg. rewrite lookup_insert_ne; [done|]. rewrite Hsh. intros Heq. apply Hf. by replace f with g by lia.
    + intros k x Hk Hx. rewrite get_insert in Hx by done. destruct (Z.eqb_spec i k) as [<-|]; [|by left].
      injection Hx as <-. right. by rewrite (entry_has _ 7 _ Hal attr_PAGE_SIZE).
  - apply small_iff in Hneed as [Hp Hl]. unfold set_pde in Hu. rewrite upd_in_range in Hu by done.
    injection Hu as <-. split_and!; simpl; [|done|].
    + intros g (k & x & Hk & Hx & Hs & <-). simpl in Hx. rewrite get_insert in Hx by done. left.
      destruct (Z.eqb_spec i k) as [<-|]; [|by exists k, x]. injection Hx as <-. exists i, e.
      by rewrite table_of_lor_attr by (unfold USER; lia).
    + intros k x Hk Hx. rewrite get_insert in Hx by done. destruct (Z.eqb_spec i k) as [<-|]; [|by left].
      injection Hx as <-. right. rewrite has_lor by auto with felix. by rewrite Hl.
Qed.

Lemma space_user_table vm A live n :
  space ram vm A live -> stacks_live stacks live -> 0 <= n < USER_PAGES ->
  (user_table ram stacks vm (n / 1024) = Panic /\ room ram live = 0) \/
  exists vm1 live1 e1, user_table ram stacks vm (n / 1024) = Ret vm1 /\ space ram vm1 A live1 /\
    live ⊆ live1 /\ room ram live - 1 <= room ram live1 /\ get (dir vm1) (n / 1024) = Some e1 /\ is_small e1 /\
    (forall k f, A !! k = Some f -> mem vm1 !! (f * 4096) = mem vm !! (f * 4096)).
Proof.
  intros [Hok Hsm Hview Hdom Hinj] Hst Hn. destruct (page_slot n Hn) as (Hi & Hi' & _).
  destruct (user_table_ok ram stacks vm live _ Hok Hst Hi) as
    [?|(vm1 & Hu & live1 & e1 & Hsub & Hroom & Hok1 & He1 & Hsm1 & Hu1 & Hother & Hhad & Hnot)]; [by left|right].
  destruct (user_table_frames vm live _ vm1 Hok Hst Hi Hu) as (Htf & Hmem & Hdir).
  exists vm1, live1, e1. split; [done|]. split; [|split_and!; try done].
  - constructor; try done.
    + intros i e Hi1 He Hp. destruct (Hdir i e ltac:(lia) He) as [He'|]; [by eapply Hsm|done].
    + intros k Hk. rewrite <- Hview by done. destruct (page_slot k Hk) as (Hk1 & Hk2 & Hk3). unfold frame_of.
      destruct (decide (k / 1024 = n / 1024)) as [Heq|Hne]; [|by rewrite Hother by done]. rewrite Heq.
      destruct (had_table_dec vm (n / 1024)) as [Hh|Hh].
      * pose proof (Hhad Hh _ Hk3) as Hfst.
        destruct (page_view vm1 _ _) as [[[p w] u]|], (page_view vm _ _) as [[[p' w'] u']|]; simpl in *; congruence.
      * rewrite (proj2 (Hnot Hh) _ Hk3). unfold page_view. destruct (get (dir vm) (n / 1024)) as [e|] eqn:He; [|done].
        simpl. destruct (has e PRESENT) eqn:Hp; [|done]. destruct Hh. exists e. split; [done|].
        split; [done|]. exact (Hsm _ e Hi' He Hp).
    + intros k f Hk. destruct (Hdom k f Hk) as (Hkr & Hl & Ht). split; [done|]. split; [set_solver|].
      intros H. by destruct (Htf f H).
  - intros k f Hk. apply Hmem. by apply (Hdom k f Hk).
Qed.

(** What [alloc_and_map_user_page] leaves: the page is backed, by a fresh
    zeroed frame if it was not before, and the contents of the other user
    pages are as they were. *)
Definition alloc_post (vm : Vm) (A : gmap Z Z) (live : gset Z) (n : Z) (vm' : Vm) (A' : gmap Z Z) (live' : gset Z) : Prop :=
  space ram vm' A' live' /\ live ⊆ live' /\ room ram live - 2 <= room ram live' /\
  (forall k f, A !! k = Some f -> mem vm' !! (f * 4096) = mem vm !! (f * 4096)) /\
  (if A !! n then A' = A else exists f, f ∉ live /\ A' = <[n := f]> A /\ mem vm' !! (f * 4096) = Some zero_page).

Lemma user_flags_entry f : 0 <= f < 2 ^ 18 ->
  let x := Z.lor (Z.lor (Z.lor (Z.lor (Z.shiftl f 12) PRESENT) WRITABLE) USER) DIRTY in
  in_u32 x /\ has x PRESENT = true /\ table_of x / 4096 = f.
Proof.
  intros Hf. rewrite <- !Z.lor_assoc. change (Z.lor PRESENT (Z.lor WRITABLE (Z.lor USER DIRTY))) with user_flags.
  destruct (shiftl_page f ltac:(lia)) as (Hsh & Hal & Hu).
  destruct (entry_table _ user_flags Hal Hu ltac:(by unfold user_flags)) as [Ht Hx]. split; [done|].
  rewrite entry_has by auto with felix. split; [done|]. by rewrite Ht, Hsh, Z.div_mul by lia.
Qed.

Lemma space_data_frame vm A live f vm1 :
  space ram vm A live -> stacks_live stacks live -> vm_alloc_frame ram stacks vm = Ret (f, vm1) ->
  let vm2 := with_frame vm1 (Z.shiftl f 12) zero_page in
  f ∉ live /\ 0 <= f < 2 ^ 18 /\ space ram vm2 A (live ∪ {[f]}) /\ dir vm2 = dir vm /\ ~ table_frame vm2 f /\
  (forall g, g ∈ live -> mem vm2 !! (g * 4096) = mem vm !! (g * 4096)) /\ mem vm2 !! (f * 4096) = Some zero_page.
Proof.
  intros [Hok Hsm Hview Hdom Hinj] Hst Ha vm2.
  destruct (data_frame_ok ram stacks vm live f vm1 Hok Hst Ha) as (Hok2 & Hdir & Hv). fold vm2 in Hok2, Hdir, Hv.
  destruct (vm_alloc_ok ram vm live Hok _ _ _ Hst Ha) as (Hf & Hfb & fa & -> & _).
  destruct (shiftl_page f ltac:(lia)) as (Hsh & _ & _).
  split; [done|]. split; [done|]. split; [|split_and!].
  - constructor; [done|by rewrite Hdir| | |done].
    + intros n Hn. rewrite <- Hview by done. destruct (page_slot n Hn) as (Hi & _ & Hj). unfold frame_of. by rewrite Hv.
    + intros n g Hg. destruct (Hdom n g Hg) as (? & ? & ?). split; [done|]. split; [set_solver|].
      by rewrite (table_frame_dir vm vm2).
  - done.
  - rewrite (table_frame_dir vm vm2) by done. intros (i & e & Hi & He & Hs & <-).
    destruct (vo_tables _ _ _ Hok i e Hi He Hs) as (_ & _ & _ & Hl). done.
  - intros g Hg. unfold vm2, with_frame. simpl. rewrite lookup_insert_ne; [done|]. rewrite Hsh. intros Heq.
    apply Hf. by replace f with g by lia.
  - unfold vm2, with_frame. simpl. rewrite Hsh. apply lookup_insert_eq.
Qed.

Lemma existing_entry vm A live n e x :
  space ram vm A live -> 0 <= n < USER_PAGES -> get (dir vm) (n / 1024) = Some e -> is_small e -> in_u32 x ->
  page_view vm (n / 1024) (n mod 1024) = decode e x ->
  A !! n = if has x PRESENT then Some (table_of x / 4096) else None.
Proof.
  intros Hsp Hn He Hs Hx Hd. rewrite <- (sp_view _ _ _ _ Hsp n Hn). unfold frame_of. rewrite Hd. unfold decode.
  by destruct (has x PRESENT).
Qed.

Lemma space_alloc vm A live v :
  space ram vm A live -> stacks_live stacks live -> 0 <= v < 0xA0000000 ->
  (alloc_and_map_user_page ram stacks vm v = Panic /\ room ram live < 2) \/
  exists vm' A' live', alloc_and_map_user_page ram stacks vm v = Ret vm' /\
    alloc_post vm A live (v / 4096) vm' A' live'.
Proof.
  intros Hsp Hst Hv. destruct (page_of_addr v Hv) as (Hn & Hm & Hdiv). destruct (space_slot v Hm) as (_ & _ & Hvu).
  destruct (page_fields v Hvu) as [Hpd Hpt]. unfold alloc_and_map_user_page. rewrite Hpd, Hpt, Hdiv.
  set (n := v / 4096) in *. destruct (page_slot n Hn) as (Hi & Hi' & Hj).
  destruct (space_user_table vm A live n Hsp Hst Hn) as
    [[-> Hr]|(vm1 & live1 & e1 & -> & Hsp1 & Hsub & Hroom & He1 & Hs1 & Hmem1)]; [left; split; [done|lia]|]. simpl.
  rewrite (proj2 (idx_Ret _ _ _) He1). simpl.
  destruct (pt_read_ok ram vm1 live1 _ e1 _ (sp_vm _ _ _ _ Hsp1) Hi He1 Hs1 Hj) as (x & -> & Hxu & Hd). simpl.
  pose proof (existing_entry vm1 A live1 n e1 x Hsp1 Hn He1 Hs1 Hxu Hd) as HA.
  destruct (has x PRESENT) eqn:Hx.
  - right. assert (has (Z.lor x USER) PRESENT = true) as Hx' by (rewrite has_lor by auto with felix; by rewrite Hx).
    assert (table_of (Z.lor x USER) = table_of x) as Ht by (apply table_of_lor_attr; unfold USER; lia).
    destruct (sp_dom _ _ _ _ Hsp1 n _ HA) as (_ & Hl & Htf).
    destruct (space_pte vm1 A live1 n e1 (Z.lor x USER) Hsp1 Hn He1 Hs1) as (vm' & Hw & Hsp' & Hmem & _).
    { unfold in_u in *. apply lor_range; [lia|done|unfold USER; lia]. }
    { rewrite Ht. intros _. split_and!; try done. intros n' Hn'. by eapply (sp_inj _ _ _ _ Hsp1). }
    exists vm', A, live1. split; [done|]. unfold alloc_post. rewrite HA. unfold entry_change in Hsp'.
    rewrite Hx', Ht, insert_id in Hsp' by done. split_and!; try done; [lia|].
    intros k f Hk. rewrite Hmem by apply (sp_dom _ _ _ _ Hsp1 k f Hk). by eapply Hmem1.
  - assert (stacks_live stacks live1) as Hst1 by (by eapply stacks_live_mono).
    destruct (vm_alloc_frame ram stacks vm1) as [[f vm2]|] eqn:Ha; simpl.
    2:{ left. split; [done|]. pose proof (vm_alloc_panic ram vm1 live1 (sp_vm _ _ _ _ Hsp1) stacks Hst1 Ha). lia. }
    right. destruct (space_data_frame vm1 A live1 f vm2 Hsp1 Hst1 Ha) as (Hf & Hfb & Hsp2 & Hdir & Htf & Hmem2 & Hz).
    unfold zero_frame. rewrite (put_fresh ram vm1 live1 (sp_vm _ _ _ _ Hsp1) stacks f vm2 vm2 zero_page Hst1 Ha), bind_Ret_l.
    rewrite <- Hdir in He1. destruct (user_flags_entry f Hfb) as (Hxu' & Hx' & Ht).
    set (x' := Z.lor _ DIRTY) in *.
    destruct (space_pte _ A _ n e1 x' Hsp2 Hn He1 Hs1 Hxu') as (vm' & Hw & Hsp' & Hmem & _).
    { rewrite Ht. intros _. split_and!; [set_solver|done|]. intros n' Hn'.
      destruct (sp_dom _ _ _ _ Hsp1 n' f Hn') as (_ & ? & _). done. }
    exists vm', (<[n := f]> A), (live1 ∪ {[f]}). split; [done|]. unfold alloc_post, entry_change in *.
    rewrite Hx', Ht in Hsp'. rewrite HA. pose proof (room_union ram live1 f).
    split_and!; [done|set_solver|lia| |].
    + intros k g Hk. destruct (sp_dom _ _ _ _ Hsp2 k g Hk) as (_ & Hgl & Hgt). rewrite Hmem by done.
      destruct (sp_dom _ _ _ _ Hsp1 k g Hk) as (_ & Hgl' & _). rewrite Hmem2 by done. by eapply Hmem1.
    + exists f. split_and!; [set_solver|done|]. rewrite Hmem by (done || set_solver). done.
Qed.
End Space.
