(* ===== verification/UserMem.v ===== *)
(** * Memory of user processes

    Model of the memory system calls of [kernel/src/syscalls/handler.rs]: the
    bump heap ([SYS_MALLOC], [SYS_REALLOC], [SYS_FREE], [sys_brk]) and the
    mappings ([sys_mmap2], [sys_mmap_old], [sys_munmap]) with the list of
    address ranges that [munmap] returns for reuse.  A call runs on the task of
    the calling process, its page directory and memory; the page directory's
    own frame is kept apart as [mm_dir].  Reading and writing user memory goes
    through the page tables, and a fault in the kernel halts it.  Log lines and
    the counter of failed TLB shootdowns are left out. *)

From S2P Require Import Prelude Wait Frames Paging SharedPages Task Schedule Reap.
From S2P Require Import Pipe FileTable Signal Process FileCalls UserSpace.

Definition EOPNOTSUPP : Z := errno 95.
Definition USER_HEAP_BASE : Z := 0x40000000.
Definition WM_SHARED_BASE : Z := 0xA0000000.
Definition MMAP_BASE : Z := 0x60000000.
Definition MAP_SHARED : Z := 1.
Definition MAP_PRIVATE : Z := 2.
Definition MAP_FIXED : Z := 0x10.
Definition MAP_ANONYMOUS : Z := 0x20.
Definition HEAP_SOFT_CAP : Z := 128 * 1024 * 1024.
Definition BRK_CAP : Z := 32 * 1024 * 1024.
Definition MMAP_CAP : Z := 64 * 1024 * 1024.

(** [struct MmapArgStruct] *)
Record MmapArgStruct : Type := mkArgs { a_addr : Z; a_len : Z; a_prot : Z; a_flags : Z; a_fd : Z; a_offset : Z }.

(** What a private file mapping uses of the VFS: the bytes a read of at most
    the given length returns. *)
Class FileReads (F : Type) := { read_at : F -> Z -> Z -> Z -> list Z }.
Class FileReadLaws (F : Type) `{!FileReads F} := {
  read_at_length : forall fs inode off len, 0 <= len -> zlen (read_at fs inode off len) <= len
}.

(** [usize::next_power_of_two] with the overflow check *)
Definition next_power_of_two (x : Z) : outcome Z :=
  if x <=? 1 then Ret 1 else let p := 2 ^ Z.log2_up x in if p <? 2 ^ 32 then Ret p else Panic.

(** [while p < end { body; p += page_size }] *)
Fixpoint for_pages {S : Type} (fuel : nat) (body : Z -> S -> outcome S) (p e : Z) (s : S) : outcome S :=
  if p <? e then
    match fuel with
    | O => Panic
    | S fuel => s ← body p s; p ← add_u 32 p PAGE_SIZE; for_pages fuel body p e s
    end
  else Ret s.
Definition each_page {S : Type} (body : Z -> S -> outcome S) (p e : Z) (s : S) : outcome S :=
  for_pages (Z.to_nat ((e - p + (PAGE_SIZE - 1)) / PAGE_SIZE)) body p e s.

(** [(x + page_size - 1) & !(page_size - 1)] *)
Definition page_up (x : Z) : outcome Z := up ← add_u 32 x PAGE_SIZE; Ret (align_down 32 (up - 1) PAGE_SIZE).
Definition page_down (x : Z) : Z := align_down 32 x PAGE_SIZE.

(** ** User memory through the page tables *)

Definition byte_of (w k : Z) : Z := Z.land (Z.shiftr w (8 * k)) 255.
Definition set_byte (w k b : Z) : Z := w - Z.shiftl (byte_of w k) (8 * k) + Z.shiftl b (8 * k).

Definition peek (vm : Vm) (v : Z) : outcome Z :=
  r ← translate vm v;
  phys ← unwrap r;
  w ← idx (default zero_page (mem vm !! table_of phys)) (phys mod 4096 / 4);
  Ret (byte_of w (phys mod 4)).
Definition poke (vm : Vm) (v b : Z) : outcome Vm :=
  r ← translate vm v;
  phys ← unwrap r;
  let page := default zero_page (mem vm !! table_of phys) in
  w ← idx page (phys mod 4096 / 4);
  page ← upd page (phys mod 4096 / 4) (set_byte w (phys mod 4) b);
  Ret (vm <| mem := <[table_of phys := page]> (mem vm) |>).

Fixpoint read_user (vm : Vm) (v : Z) (n : nat) : outcome (list Z) :=
  match n with
  | O => Ret []
  | S n => b ← peek vm v; l ← read_user vm (v + 1) n; Ret (b :: l)
  end.
Fixpoint write_user (vm : Vm) (v : Z) (bytes : list Z) : outcome Vm :=
  match bytes with
  | [] => Ret vm
  | b :: rest => vm ← poke vm v b; write_user vm (v + 1) rest
  end.

(** [write_bytes(p, 0, PAGE_SIZE)] at a page boundary *)
Definition zero_user_page (vm : Vm) (p : Z) : outcome Vm :=
  r ← translate vm p;
  phys ← unwrap r;
  Ret (with_frame vm (table_of phys) zero_page).

Section UserMem.
  Context {F : Type} `{!FileStore F, !FileReads F}.
  Variables (ram : Z) (stacks : list (option Z)).
  Variable (shootdown_tlb : Z -> Z -> bool).

Record Mm : Type := mkMm { mm_task : Task; mm_dir : list Z; mm_sh : Sh F }.
#[global] Instance Mm_eta : Eta Mm := fun m => mkMm (mm_task m) (mm_dir m) (mm_sh m).

Definition mm_vm (m : Mm) : Vm := mkVm (mm_dir m) (sh_mem (mm_sh m)) (sh_frames (mm_sh m)).
Definition set_vm (m : Mm) (vm : Vm) : Mm :=
  m <| mm_dir := dir vm |> <| mm_sh := mm_sh m <| sh_mem := mem vm |> <| sh_frames := frames vm |> |>.
Definition set_refs (m : Mm) (l : PageRefcounts) : Mm := m <| mm_task := mm_task m <| page_refcounts := l |> |>.
Definition set_heap_next (m : Mm) (a : Z) : Mm := m <| mm_task := mm_task m <| heap_next := a |> |>.
Definition set_mmap_next (m : Mm) (a : Z) : Mm := m <| mm_task := mm_task m <| mmap_next := a |> |>.
Definition set_mmap_free (m : Mm) (l : list (Z * Z)) : Mm := m <| mm_task := mm_task m <| mmap_free := l |> |>.

Definition bad_slot (current_slot : Z) : bool := (current_slot =? 0) || (MAX_TASKS <=? current_slot).

(** ** The heap *)

(** The body of the loops that back heap pages. *)
Definition back_page (p : Z) (m : Mm) : outcome Mm :=
  '(need, refs) ← inc (page_refcounts (mm_task m)) p;
  let m := set_refs m refs in
  if need : bool then vm ← alloc_and_map_user_page ram stacks (mm_vm m) p; Ret (set_vm m vm) else Ret m.

(** The pages from [start] to [start + size]. *)
Definition back_range (start size : Z) (m : Mm) : outcome Mm :=
  e ← add_u 32 start size;
  end_page ← page_up e;
  each_page back_page (page_down start) end_page m.

(** The tripwire of [SYS_MALLOC]: a heap page in the task's kernel stack or
    page directory panics. *)
Definition alias_page (m : Mm) (kstack_phys kstack_end check : Z) (u : unit) : outcome unit :=
  r ← translate (mm_vm m) check;
  match r with
  | None => Ret u
  | Some phys =>
      let page_phys := page_down phys in
      if (kstack_phys <=? page_phys) && (page_phys <? kstack_end) then Panic
      else if page_phys =? page_dir_phys (mm_task m) then Panic
      else Ret u
  end.
Definition alias_check (start size : Z) (m : Mm) : outcome unit :=
  if size <? 256 * 1024 then Ret tt else
  kstack_phys ← sub_u (stack_base (mm_task m)) KERNEL_OFFSET;
  kstack_end ← add_u 32 kstack_phys STACK_SIZE;
  e ← add_u 32 start size;
  end_page ← page_up e;
  each_page (alias_page m kstack_phys kstack_end) (page_down start) end_page tt.

Definition malloc_align (align_raw : Z) : outcome Z :=
  if align_raw =? 0 then Ret 8 else p ← next_power_of_two align_raw; Ret (Z.min (Z.max p 8) 4096).

(** [SYS_MALLOC] *)
Definition sys_malloc (m : Mm) (current_slot size align_raw : Z) : outcome (Z * Mm) :=
  align ← malloc_align align_raw;
  if bad_slot current_slot then Ret (0, m) else
  let m := if heap_next (mm_task m) <? USER_HEAP_BASE then set_heap_next m USER_HEAP_BASE else m in
  let heap_limit := wrapping_add 32 USER_HEAP_BASE HEAP_SOFT_CAP in
  up ← add_u 32 (heap_next (mm_task m)) (align - 1);
  let start := align_down 32 up align in
  let used := saturating_sub start USER_HEAP_BASE in
  if (0 <? size) && ((heap_limit <? saturating_add 32 start size) || (HEAP_SOFT_CAP <? saturating_add 32 used size))
  then Ret (0, m)
  else if 0 <? size then
    m ← back_range start size m;
    _ ← alias_check start size m;
    next ← add_u 32 start size;
    Ret (start, set_heap_next m next)
  else Ret (start, m).

(** [SYS_REALLOC] *)
Definition sys_realloc (m : Mm) (current_slot old_ptr old_size new_size : Z) : outcome (Z * Mm) :=
  if bad_slot current_slot then Ret (0, m) else
  up ← add_u 32 (heap_next (mm_task m)) 7;
  let new_start := align_down 32 up 8 in
  m ← (if 0 <? new_size then
         m ← back_range new_start new_size m;
         vm ← write_user (mm_vm m) new_start (replicate (Z.to_nat new_size) 0);
         vm ← (if negb (old_ptr =? 0) && (0 <? old_size) then
                 bytes ← read_user vm old_ptr (Z.to_nat (Z.min old_size new_size));
                 write_user vm new_start bytes
               else Ret vm);
         Ret (set_vm m vm)
       else Ret m);
  next ← add_u 32 new_start new_size;
  Ret (new_start, set_heap_next m next).

(** [SYS_FREE] *)
Definition sys_free (m : Mm) : Z * Mm := (0, m).

(** [sys_brk] *)
Definition sys_brk (m : Mm) (current_slot addr : Z) : outcome (Z * Mm) :=
  if bad_slot current_slot then Ret (0, m) else
  let m := if heap_next (mm_task m) <? USER_HEAP_BASE then set_heap_next m USER_HEAP_BASE else m in
  let h := heap_next (mm_task m) in
  if addr =? 0 then Ret (h, m)
  else if addr <? USER_HEAP_BASE then Ret (h, m)
  else if BRK_CAP <? saturating_sub addr USER_HEAP_BASE then Ret (h, m)
  else
    m ← (if h <? addr then
           end_page ← page_up addr;
           each_page back_page (page_down h) end_page m
         else Ret m);
    Ret (addr, set_heap_next m addr).

(** ** Mappings *)

Inductive Pick : Type := Picked (va : Z) | Refused (code : Z).

(** The first hole that is long enough; the hole shrinks or goes. *)
Definition fits (len_u : Z) (h : Z * Z) : bool := len_u <=? h.2.
Definition reuse_hole (free : list (Z * Z)) (len_u : Z) : outcome (option (Z * list (Z * Z))) :=
  match vec_position (fits len_u) free with
  | None => Ret None
  | Some i =>
      h ← idx free i;
      if h.2 =? len_u then Ret (Some (h.1, vec_swap_remove free i))
      else
        s ← add_u 32 h.1 len_u;
        free ← upd free i (s, h.2 - len_u);
        Ret (Some (h.1, free))
  end.

Definition pick_va (m : Mm) (addr flags len_u : Z) : outcome (Pick * Mm) :=
  if negb (Z.land flags MAP_FIXED =? 0) then
    Ret (if addr =? 0 then Refused EINVAL else Picked (page_down addr), m)
  else if negb (addr =? 0) then Ret (Picked (page_down addr), m)
  else
    reused ← reuse_hole (mmap_free (mm_task m)) len_u;
    match reused with
    | Some (v, free) => Ret (Picked v, set_mmap_free m free)
    | None =>
        let m := if mmap_next (mm_task m) <? MMAP_BASE then set_mmap_next m MMAP_BASE else m in
        let v := mmap_next (mm_task m) in
        if WM_SHARED_BASE <=? saturating_add 32 v len_u then Ret (Refused ENOMEM, m)
        else Ret (Picked v, set_mmap_next m (saturating_add 32 v len_u))
    end.

Definition is_mapped (m : Mm) (p : Z) (found : bool) : outcome bool :=
  if found then Ret true else
  r ← translate (mm_vm m) p;
  Ret (match r with Some _ => true | None => false end).

(** The roll-back of a shared mapping that failed half-way, at one page. *)
Definition rollback_page (q : Z) (m : Mm) : outcome Mm :=
  r ← translate (mm_vm m) q;
  match r with
  | None => Ret m
  | Some phys =>
      vm ← unmap (mm_vm m) q;
      let m := set_vm m vm in
      let m := m <| mm_sh := release_user_frame (mm_sh m) (Z.shiftr phys 12) |> in
      '(_, refs) ← dec (page_refcounts (mm_task m)) q;
      Ret (set_refs m refs)
  end.

(** One page of a shared mapping; the state holds the file offset and whether
    the mapping failed. *)
Definition share_page (inode va p : Z) (st : Mm * Z * bool) : outcome (Mm * Z * bool) :=
  let '(m, off, failed) := st in
  if failed : bool then Ret st else
  '(r, sh) ← acquire_file_page ram stacks (mm_sh m) inode off;
  let m := m <| mm_sh := sh |> in
  match r with
  | Err _ => m ← each_page rollback_page va p m; Ret (m, off, true)
  | Ok frame =>
      '(_, refs) ← inc (page_refcounts (mm_task m)) p;
      let m := set_refs m refs in
      vm ← map ram stacks (mm_vm m) (Z.shiftr p 12) frame user_flags;
      off ← add_u 64 off PAGE_SIZE;
      Ret (set_vm m vm, off, false)
  end.

Definition map_shared (m : Mm) (inode va len_u pgoff : Z) : outcome (Z * Mm) :=
  let file_off := pgoff * PAGE_SIZE in
  match metadata_size (sh_files (mm_sh m)) inode with
  | None => Ret (EBADF, m)
  | Some size =>
      rest ← sub_u len_u PAGE_SIZE;
      if size <=? saturating_add 64 file_off rest then Ret (EINVAL, m) else
      e ← add_u 32 va len_u;
      busy ← each_page (is_mapped m) va e false;
      if busy : bool then Ret (EBUSY, m) else
      '(m, _, failed) ← each_page (share_page inode va) va e (m, file_off, false);
      Ret (if failed : bool then ENOMEM else va, m)
  end.

(** One page of a private mapping, then its contents. *)
Definition private_page (p : Z) (m : Mm) : outcome Mm :=
  '(need, refs) ← inc (page_refcounts (mm_task m)) p;
  let m := set_refs m refs in
  absent ← (if need : bool then Ret true
            else r ← translate (mm_vm m) p; Ret (match r with None => true | Some _ => false end));
  vm ← (if absent : bool then alloc_and_map_user_page ram stacks (mm_vm m) p else Ret (mm_vm m));
  vm ← zero_user_page vm p;
  Ret (set_vm m vm).

Fixpoint copy_file (fuel : nat) (files : F) (inode : Z) (vm : Vm) (remaining dst off : Z) : outcome Vm :=
  if 0 <? remaining then
    match fuel with
    | O => Panic
    | S fuel =>
        let bytes := read_at files inode off (Z.min remaining 4096) in
        let n := zlen bytes in
        if n =? 0 then Ret vm else
        vm ← write_user vm dst bytes;
        off ← add_u 64 off n;
        copy_file fuel files inode vm (remaining - n) (dst + n) off
    end
  else Ret vm.

Definition mapped_inode (fd_table : FileDescriptorTable) (fd : Z) : option Z :=
  match fd_at fd_table fd with
  | Some (File inode _ _) | Some (Device inode _ _ _) => Some inode
  | _ => None
  end.

(** [sys_mmap2] after the choice of the address *)
Definition map_range (m : Mm) (fd_table : FileDescriptorTable) (va len len_u fd pgoff : Z) (anonymous shared : bool)
  : outcome (Z * Mm) :=
  if (WM_SHARED_BASE <=? va) || (WM_SHARED_BASE <? saturating_add 32 va len_u) then Ret (EINVAL, m) else
  match (if anonymous then Some 0 else mapped_inode fd_table fd) with
  | None => Ret (EBADF, m)
  | Some inode =>
      e ← add_u 32 va len_u;
      if shared then map_shared m inode va len_u pgoff else
      m ← each_page private_page va e m;
      if anonymous then Ret (va, m) else
      vm ← copy_file (Z.to_nat len) (sh_files (mm_sh m)) inode (mm_vm m) len va (pgoff * PAGE_SIZE);
      Ret (va, set_vm m vm)
  end.

(** [sys_mmap2]; [fd] is an [i32]. *)
Definition sys_mmap2 (m : Mm) (fd_table : FileDescriptorTable) (current_slot addr len prot flags fd pgoff : Z)
  : outcome (Z * Mm) :=
  if len =? 0 then Ret (EINVAL, m) else
  if MMAP_CAP <? len then Ret (ENOMEM, m) else
  len_u ← page_up len;
  let anonymous := negb (Z.land flags MAP_ANONYMOUS =? 0) || (fd <? 0) in
  let shared := negb (Z.land flags MAP_SHARED =? 0) in
  let private := negb (Z.land flags MAP_PRIVATE =? 0) in
  if eqb shared private then Ret (EINVAL, m) else
  if shared && anonymous then Ret (EOPNOTSUPP, m) else
  if bad_slot current_slot then Ret (ENOMEM, m) else
  '(r, m) ← pick_va m addr flags len_u;
  match r with
  | Refused code => Ret (code, m)
  | Picked va => map_range m fd_table va len len_u fd pgoff anonymous shared
  end.

(** [sys_mmap_old] *)
Definition sys_mmap_old (m : Mm) (fd_table : FileDescriptorTable) (current_slot : Z) (argp : option MmapArgStruct)
  : outcome (Z * Mm) :=
  match argp with
  | None => Ret (EFAULT, m)
  | Some a =>
      sys_mmap2 m fd_table current_slot (a_addr a) (a_len a) (a_prot a) (a_flags a) (a_fd a) (Z.shiftr (a_offset a) 12)
  end.

(** One page of [sys_munmap] *)
Definition unmap_page (p : Z) (st : Mm * bool) : outcome (Mm * bool) :=
  let '(m, remotely_flushed) := st in
  '(should, refs) ← dec (page_refcounts (mm_task m)) p;
  let m := set_refs m refs in
  if negb should then Ret (m, remotely_flushed) else
  r ← translate (mm_vm m) p;
  vm ← unmap (mm_vm m) p;
  let m := set_vm m vm in
  let flushed := shootdown_tlb (page_dir_phys (mm_task m)) p in
  let m := match r with
           | Some phys => if flushed then m <| mm_sh := release_user_frame (mm_sh m) (Z.shiftr phys 12) |> else m
           | None => m
           end in
  Ret (m, remotely_flushed && flushed).

(** Neighbouring and overlapping holes become one. *)
Fixpoint merge_holes (fuel : nat) (l : list (Z * Z)) (i : Z) : outcome (list (Z * Z)) :=
  if i + 1 <? zlen l then
    match fuel with
    | O => Panic
    | S fuel =>
        a ← idx l i;
        b ← idx l (i + 1);
        let a_end := saturating_add 32 a.1 a.2 in
        if b.1 <=? a_end then
          let merged_end := Z.max a_end (saturating_add 32 b.1 b.2) in
          n ← sub_u merged_end a.1;
          l ← upd l i (a.1, n);
          merge_holes fuel (vec_remove l (i + 1)) i
        else merge_holes fuel l (i + 1)
    end
  else Ret l.
Definition add_hole (l : list (Z * Z)) (start len : Z) : outcome (list (Z * Z)) :=
  let l := sort_by_key fst (l ++ [(start, len)]) in
  merge_holes (length l) l 0.

(** [sys_munmap] *)
Definition sys_munmap (m : Mm) (addr len : Z) : outcome (Z * Mm) :=
  if len =? 0 then Ret (0, m) else
  let start := page_down addr in
  e ← page_up (saturating_add 32 addr len);
  if (WM_SHARED_BASE <=? start) || (WM_SHARED_BASE <? e) then Ret (EINVAL, m) else
  '(m, remotely_flushed) ← each_page unmap_page start (Z.min e KERNEL_MMIO_BASE) (m, true);
  if remotely_flushed && (MMAP_BASE <=? start) && (e <=? WM_SHARED_BASE) && (start <? e) then
    found ← each_page (is_mapped m) start e false;
    if found : bool then Ret (0, m) else
    free ← add_hole (mmap_free (mm_task m)) start (e - start);
    Ret (0, set_mmap_free m free)
  else Ret (0, m).
End UserMem.

(** ** Loops over pages *)

Lemma page_down_eq x : in_u32 x -> page_down x = x - x mod 4096.
Proof. intros Hx. unfold page_down, PAGE_SIZE. apply (land_not_ones 32 x 12); [lia|done]. Qed.

Lemma page_up_eq x e : 0 <= x -> page_up x = Ret e -> e = (x + 4095) - (x + 4095) mod 4096 /\ x + 4096 < 2 ^ 32.
Proof.
  unfold page_up, add_u, PAGE_SIZE. intros Hx. destruct (Z.ltb_spec (x + 4096) (2 ^ 32)); [|done]. simpl.
  intros [= <-]. split; [|done]. replace (x + 4096 - 1) with (x + 4095) by lia.
  apply (land_not_ones 32 (x + 4095) 12); lia.
Qed.

(** A loop over whole pages either stops at a panic of its body or keeps the
    invariant to the end. *)
Lemma each_page_cases {S : Type} (body : Z -> S -> outcome S) (I : Z -> S -> Prop) (B : Prop) p e s :
  0 <= p <= e -> e < 2 ^ 32 -> p mod 4096 = 0 -> e mod 4096 = 0 -> I p s ->
  (forall q s, p <= q < e -> q mod 4096 = 0 -> I q s ->
     (body q s = Panic /\ B) \/ exists s', body q s = Ret s' /\ I (q + 4096) s') ->
  (each_page body p e s = Panic /\ B) \/ exists s', each_page body p e s = Ret s' /\ I e s'.
Proof.
  unfold each_page, PAGE_SIZE. intros Hp He Hpm Hem HI Hb.
  remember (Z.to_nat ((e - p + (4096 - 1)) / 4096)) as n eqn:Hn.
  assert (e = p + Z.of_nat n * 4096) as -> by mlia. clear Hn Hem.
  revert p s Hp He Hpm HI Hb. induction n as [|n IH]; intros p s Hp He Hpm HI Hb; simpl.
  - rewrite (proj2 (Z.ltb_ge _ _)) by lia. right. exists s. split; [done|].
    by replace (p + Z.of_nat 0 * 4096) with p by lia.
  - rewrite (proj2 (Z.ltb_lt _ _)) by lia. destruct (Hb p s) as [[-> HB]|(s' & -> & HI')]; [lia|done|done|by left|].
    simpl. unfold add_u, PAGE_SIZE. rewrite (proj2 (Z.ltb_lt _ _)) by lia. simpl.
    replace (p + Z.of_nat (Datatypes.S n) * 4096) with ((p + 4096) + Z.of_nat n * 4096) in * by lia.
    apply IH; [lia|lia|mlia|done|]. intros q s1 Hq Hqm. apply Hb; [lia|done].
Qed.

(** ** Page counts *)

Definition counted (l : PageRefcounts) (v : Z) : Prop := v ∈ l.*1.
Definition refs_wf (l : PageRefcounts) : Prop := NoDup l.*1 /\ Forall (fun e => 1 <= e.2) l.

Lemma refs_inc_keys l p m : refs_inc l p = Some m -> counted l p /\
  forall l', m = Ret l' -> l'.*1 = l.*1 /\ (Forall (fun e => 1 <= e.2) l -> Forall (fun e => 1 <= e.2) l').
Proof.
  unfold counted. revert m. induction l as [|[a c] l IH]; intros m; [done|]. simpl.
  destruct (Z.eqb_spec a p) as [->|].
  - intros [= <-]. split; [by left|]. intros l' H. apply bind_Ret in H as (c' & Hc & [= <-]). split; [done|].
    intros [H1 H2]%Forall_cons. constructor; [|done]. unfold add_u in Hc. simpl in *. case_match; [|done].
    injection Hc as <-. lia.
  - intros (m0 & H0 & ->)%fmap_Some. destruct (IH m0 H0) as [Hin Hk]. split; [by right|].
    intros l' H. apply bind_Ret in H as (r & Hr & [= <-]). destruct (Hk r Hr) as [H1 H2]. simpl. split; [by f_equal|].
    intros [? ?]%Forall_cons. constructor; auto.
Qed.

Lemma refs_inc_None l p : refs_inc l p = None -> ~ counted l p.
Proof.
  unfold counted. induction l as [|[a c] l IH]; simpl; [by intros _ ?%not_elem_of_nil|].
  destruct (Z.eqb_spec a p); [done|]. intros H%fmap_None [->|H']%elem_of_cons; [done|]. by apply IH.
Qed.

Lemma inc_ok l p need l' : refs_wf l -> inc l p = Ret (need, l') ->
  refs_wf l' /\ (if need : bool then ~ counted l p else counted l p) /\
  forall v, counted l' v <-> v = p \/ counted l v.
Proof.
  intros [Hnd Hpos] H. unfold inc in H. destruct (refs_inc l p) as [m|] eqn:E.
  - destruct (refs_inc_keys l p m E) as [Hin Hk]. apply bind_Ret in H as (r & Hr & [= <- <-]).
    destruct (Hk r Hr) as [Hkeys Hp']. unfold refs_wf, counted in *. rewrite Hkeys. split_and!; [done|auto|done|].
    intros v. split; [by right|]. by intros [->|].
  - pose proof (refs_inc_None l p E) as Hn. injection H as <- <-. unfold refs_wf, counted in *. rewrite fmap_app. simpl.
    split_and!; [|apply Forall_app; split; [done|by repeat constructor]|done|].
    + apply NoDup_app. split_and!; [done| |apply NoDup_singleton]. intros x Hx ->%list_elem_of_singleton. done.
    + intros v. rewrite elem_of_app, list_elem_of_singleton. tauto.
Qed.

Lemma inc_new l p : ~ counted l p -> inc l p = Ret (true, l ++ [(p, 1)]).
Proof.
  intros H. unfold inc. destruct (refs_inc l p) as [m|] eqn:E; [|done]. by destruct (refs_inc_keys l p m E).
Qed.

Lemma refs_split l1 (x : Z * Z) l2 v : counted (l1 ++ x :: l2) v <-> v = x.1 \/ counted (l1 ++ l2) v.
Proof. unfold counted. rewrite !fmap_app, fmap_cons, !elem_of_app, elem_of_cons. tauto. Qed.

Lemma dec_ok l p : refs_wf l ->
  exists should l', dec l p = Ret (should, l') /\ refs_wf l' /\
    (forall v, counted l' v <-> counted l v /\ (should = true -> v <> p)) /\
    ((p, 1) ∈ l -> should = true) /\ (should = true -> counted l p) /\ (forall e, e.1 <> p -> e ∈ l -> e ∈ l').
Proof.
  intros [Hnd Hpos]. unfold dec. destruct (vec_position _ l) as [i|] eqn:E.
  - apply vec_position_Some in E as (l1 & [a c] & l2 & -> & -> & Heq & _). simpl in Heq. apply Z.eqb_eq in Heq as ->.
    rewrite (proj2 (idx_Ret _ _ _) (get_middle _ _ _)). simpl. 
    apply Forall_app in Hpos as [Hp1 [Hc Hp2]%Forall_cons]. simpl in Hc.
    assert (NoDup (p :: (l1 ++ l2).*1)) as Hnd'.
    { rewrite fmap_app. eapply NoDup_Permutation_proper; [|exact Hnd]. rewrite fmap_app. simpl. by rewrite Permutation_middle. }
    apply NoDup_cons in Hnd' as [Hfresh Hnd'].
    unfold sub_u. rewrite (proj2 (Z.leb_le _ _)) by lia. simpl. destruct (Z.eqb_spec (c - 1) 0).
    + exists true, (vec_swap_remove (l1 ++ (p, c) :: l2) (zlen l1)). split; [done|].
      pose proof (vec_swap_remove_middle l1 (p, c) l2) as HP. unfold refs_wf. split_and!.
      * by rewrite HP.
      * rewrite HP. by apply Forall_app.
      * intros v. rewrite refs_split. unfold counted. rewrite HP. simpl. split; [|naive_solver].
        intros Hv. split; [by right|]. intros _ ->. done.
      * done.
      * intros _. apply refs_split. by left.
      * intros x Hne. rewrite HP, !elem_of_app, elem_of_cons. intros [?|[->|?]]; [by left|done|by right].
    + exists false, (<[Z.to_nat (zlen l1) := (p, c - 1)]> (l1 ++ (p, c) :: l2)). split; [done|].
      unfold zlen. rewrite Nat2Z.id. rewrite <- (Nat.add_0_r (length l1)), insert_app_r. simpl.
      unfold refs_wf. split_and!.
      * rewrite fmap_app in *. done.
      * apply Forall_app. split; [done|]. constructor; [simpl; lia|done].
      * intros v. rewrite !refs_split. simpl. naive_solver.
      * intros Hin. assert ((p, 1) = (p, c)) as [= <-]; [|done]. apply (NoDup_fmap_elem fst _ Hnd); try done.
        apply elem_of_app. right. by left.
      * done.
      * intros x Hne. rewrite !elem_of_app, !elem_of_cons. intros [?|[->|?]]; [by left|done|by right; right].
  - exists false, l. split; [done|]. split; [done|]. split_and!; [naive_solver| |done|done].
    intros Hin. apply vec_position_None in E. pose proof (proj1 (Forall_forall _ _) E _ Hin) as H.
    simpl in H. by rewrite Z.eqb_refl in H.
Qed.

(** ** Pages of a process *)

Section Pages.
  Context {F : Type} `{!FileStore F, !FileReads F}.
  Variables (ram : Z) (stacks : list (option Z)).
  Implicit Types (m : Mm (F := F)) (A : gmap Z Z) (live : gset Z).

(** The user pages [A] of a process that shares none: their frames are neither
    in a kernel stack nor in the cache of file pages, and every counted page is
    backed. *)
Record core (m : Mm (F := F)) (A : gmap Z Z) (live : gset Z) : Prop := {
  c_space : space ram (mm_vm m) A live;
  c_stacks : stacks_live stacks live;
  c_apart : forall n f, A !! n = Some f -> has_live_stack stacks f = false /\ Forall (fun p => sp_frame p <> f) (sh_pages (mm_sh m));
  c_cache : Forall (fun p => sp_frame p ∈ live) (sh_pages (mm_sh m));
  c_mem : forall n f, A !! n = Some f -> exists page, sh_mem (mm_sh m) !! (f * 4096) = Some page /\ zlen page = 1024;
  c_refs : refs_wf (page_refcounts (mm_task m));
  c_counted : forall v, counted (page_refcounts (mm_task m)) v -> v < WM_SHARED_BASE -> v mod 4096 = 0 /\ is_Some (A !! (v / 4096))
}.

Definition same_task (t t' : Task) : Prop :=
  heap_next t' = heap_next t /\ mmap_next t' = mmap_next t /\ mmap_free t' = mmap_free t /\ page_dir_phys t' = page_dir_phys t.

(** Pages were added, each with a frame that was free before. *)
Record grows m A live m' A' live' : Prop := {
  g_core : core m' A' live';
  g_sub : A ⊆ A';
  g_live : live ⊆ live';
  g_task : same_task (mm_task m) (mm_task m');
  g_files : sh_files (mm_sh m') = sh_files (mm_sh m);
  g_mem : forall k f, A !! k = Some f -> sh_mem (mm_sh m') !! (f * 4096) = sh_mem (mm_sh m) !! (f * 4096);
  g_new : forall k f, A' !! k = Some f -> A !! k = Some f \/ f ∉ live
}.

Lemma grows_refl m A live : core m A live -> grows m A live m A live.
Proof. constructor; try done. intros. by left. Qed.

Lemma grows_trans m A live m1 A1 live1 m2 A2 live2 :
  grows m A live m1 A1 live1 -> grows m1 A1 live1 m2 A2 live2 -> grows m A live m2 A2 live2.
Proof.
  intros [_ Hs Hl Ht Hf Hm Hn] [Hc' Hs' Hl' Ht' Hf' Hm' Hn']. constructor; try done.
  - by etrans.
  - by etrans.
  - unfold same_task in *. destruct Ht as (? & ? & ? & ?), Ht' as (? & ? & ? & ?). split_and!; congruence.
  - by rewrite Hf', Hf.
  - intros k f Hk. rewrite (Hm' k f) by (by eapply lookup_weaken). by apply (Hm k f).
  - intros k f Hk. destruct (Hn' k f Hk) as [H1|H1]; [by apply Hn|]. right. set_solver.
Qed.

Lemma mm_vm_set m vm : mm_vm (set_vm m vm) = vm.
Proof. by destruct vm. Qed.

Lemma fresh_apart m A live f : core m A live -> f ∉ live ->
  has_live_stack stacks f = false /\ Forall (fun p => sp_frame p <> f) (sh_pages (mm_sh m)).
Proof.
  intros Hc Hf. split.
  - destruct (has_live_stack stacks f) eqn:E; [|done]. by apply (c_stacks _ _ _ Hc) in E.
  - eapply Forall_impl; [apply (c_cache _ _ _ Hc)|]. simpl. intros p Hp Heq. by rewrite Heq in Hp.
Qed.

(** A page gets backed, and counted if it was not. *)
Lemma core_alloc m A live p refs vm' A' live' :
  core m A live -> 0 <= p < WM_SHARED_BASE -> p mod 4096 = 0 -> refs_wf refs ->
  (forall v, counted refs v <-> v = p \/ counted (page_refcounts (mm_task m)) v) ->
  alloc_post ram (mm_vm m) A live (p / 4096) vm' A' live' ->
  grows m A live (set_vm (set_refs m refs) vm') A' live' /\ is_Some (A' !! (p / 4096)) /\
  (forall k, k <> p / 4096 -> A' !! k = A !! k).
Proof.
  intros Hc Hp Hpm Hwf Hcnt (Hsp & Hsub & _ & Hmem & Hpost).
  assert (A ⊆ A' /\ is_Some (A' !! (p / 4096)) /\ (forall k, k <> p / 4096 -> A' !! k = A !! k) /\
          forall k f, A' !! k = Some f -> A !! k = Some f \/ f ∉ live /\ mem vm' !! (f * 4096) = Some zero_page)
    as (HAs & Hin & Hother & Hnew).
  { destruct (A !! (p / 4096)) as [f0|] eqn:E.
    - subst A'. split_and!; try done. intros. by left.
    - destruct Hpost as (f & Hf & -> & Hz). split_and!.
      + by apply insert_subseteq.
      + rewrite lookup_insert_eq. done.
      + intros k Hk. by rewrite lookup_insert_ne.
      + intros k g. destruct (decide (k = p / 4096)) as [->|Hne].
        * rewrite lookup_insert_eq. intros [= <-]. right. by split.
        * rewrite lookup_insert_ne by done. by left. }
  split; [|done]. constructor; try done; [|intros k f Hk; destruct (Hnew k f Hk) as [|[? _]]; auto].
  pose proof Hc as [Hs Hst Hap Hca Hme Hr Hco]. constructor.
  - by rewrite mm_vm_set.
  - by eapply stacks_live_mono.
  - intros n f Hf. destruct (Hnew n f Hf) as [H|[H _]]; [by apply (Hap n)|exact (fresh_apart m A live f Hc H)].
  - eapply Forall_impl; [exact Hca|]. simpl. set_solver.
  - intros n f Hf. simpl. destruct (Hnew n f Hf) as [H|[_ H]]; [rewrite (Hmem n f H); by apply (Hme n)|].
    exists zero_page. split; [done|apply zero_page_ok].
  - done.
  - intros v. simpl. rewrite Hcnt. intros [->|Hv] Hlt; [done|]. destruct (Hco v Hv Hlt) as [? [f Hf]].
    split; [done|]. exists f. by eapply lookup_weaken.
Qed.

Lemma back_page_ok m A live p m' :
  core m A live -> 0 <= p < WM_SHARED_BASE -> p mod 4096 = 0 -> back_page ram stacks p m = Ret m' ->
  exists A' live', grows m A live m' A' live' /\ is_Some (A' !! (p / 4096)) /\ (forall k, k <> p / 4096 -> A' !! k = A !! k).
Proof.
  intros Hc Hp Hpm H. unfold back_page in H. apply bind_Ret in H as ([need refs] & Hi & H).
  destruct (inc_ok _ _ _ _ (c_refs _ _ _ Hc) Hi) as (Hwf & Hneed & Hcnt). destruct need.
  - apply bind_Ret in H as (vm & Ha & [= <-]).
    destruct (space_alloc ram stacks _ A live p (c_space _ _ _ Hc) (c_stacks _ _ _ Hc) Hp) as [[Hx _]|(vm' & A' & live' & Hx & Hpost)];
      unfold mm_vm in *; simpl in *; rewrite Ha in Hx; [done|]. injection Hx as <-.
    exists A', live'. by apply core_alloc.
  - injection H as <-. destruct (c_counted _ _ _ Hc p Hneed ltac:(lia)) as [_ Hin]. exists A, live. split; [|done].
    constructor; try done; [|intros; by left]. destruct Hc as [Hs Hst Hap Hca Hme Hr Hco]. constructor; try done.
    intros v. simpl. rewrite Hcnt. by intros [->|Hv]; [|apply Hco].
Qed.

Lemma zero_user_fresh vm A live p f :
  space ram vm A live -> 0 <= p < WM_SHARED_BASE -> p mod 4096 = 0 -> A !! (p / 4096) = Some f ->
  mem vm !! (f * 4096) = Some zero_page -> zero_user_page vm p = Ret vm.
Proof.
  intros Hsp Hp Hpm HA Hm. unfold zero_user_page. rewrite (space_translate ram vm A live p Hsp Hp), HA. simpl.
  rewrite Hpm, Z.add_0_r. destruct (sp_dom _ _ _ _ Hsp _ _ HA) as (_ & Hf & _).
  pose proof (live_range ram _ live f (vo_ram _ _ _ (sp_vm _ _ _ _ Hsp)) (vo_frames _ _ _ (sp_vm _ _ _ _ Hsp)) Hf) as Hr.
  rewrite table_of_sub by (unfold in_u; lia). rewrite Z_mod_mult, Z.sub_0_r. unfold with_frame. rewrite insert_id by done.
  by destruct vm.
Qed.

(** One page of a private mapping where nothing is mapped. *)
Lemma private_page_ok m A live p :
  core m A live -> 0 <= p < WM_SHARED_BASE -> p mod 4096 = 0 -> A !! (p / 4096) = None ->
  (private_page ram stacks p m = Panic /\ Paging.room ram live < 2) \/
  exists m' f live', private_page ram stacks p m = Ret m' /\ grows m A live m' (<[p / 4096 := f]> A) live' /\
    f ∉ live /\ Paging.room ram live - 2 <= Paging.room ram live' /\ sh_mem (mm_sh m') !! (f * 4096) = Some zero_page.
Proof.
  intros Hc Hp Hpm HA.
  assert (~ counted (page_refcounts (mm_task m)) p) as Hn.
  { intros H. destruct (c_counted _ _ _ Hc p H ltac:(lia)) as [_ [f Hf]]. congruence. }
  unfold private_page. pose proof (inc_new _ _ Hn) as Hi. destruct (inc_ok _ _ _ _ (c_refs _ _ _ Hc) Hi) as (Hwf & _ & Hcnt).
  rewrite Hi. set (refs := page_refcounts (mm_task m) ++ _) in *. rewrite bind_Ret_l. cbv zeta iota.
  change (mm_vm (set_refs m refs)) with (mm_vm m). rewrite !bind_Ret_l.
  destruct (space_alloc ram stacks _ A live p (c_space _ _ _ Hc) (c_stacks _ _ _ Hc) Hp) as [[-> Hr]|(vm' & A' & live' & -> & Hpost)];
    [left; by split|right]. rewrite bind_Ret_l.
  destruct (core_alloc m A live p refs vm' A' live' Hc Hp Hpm Hwf Hcnt Hpost) as (Hg & _).
  destruct Hpost as (Hsp & _ & Hroom & _ & Hpost). rewrite HA in Hpost. destruct Hpost as (f & Hf & -> & Hz).
  exists (set_vm (set_refs m refs) vm'), f, live'.
  rewrite (zero_user_fresh vm' _ live' p f Hsp Hp Hpm (lookup_insert_eq _ _ _) Hz). by split_and!.
Qed.

(** The loop of a private mapping over pages that are not mapped. *)
Lemma private_range m A live va e :
  core m A live -> 0 <= va <= e -> e <= WM_SHARED_BASE -> va mod 4096 = 0 -> e mod 4096 = 0 ->
  (forall n, va <= n * 4096 < e -> A !! n = None) ->
  (each_page (private_page ram stacks) va e m = Panic /\ Paging.room ram live < 2 * ((e - va) / 4096)) \/
  exists m' A' live', each_page (private_page ram stacks) va e m = Ret m' /\ grows m A live m' A' live' /\
    (forall n, ~ va <= n * 4096 < e -> A' !! n = A !! n) /\
    (forall n, va <= n * 4096 < e -> exists f, A' !! n = Some f /\ f ∉ live /\ sh_mem (mm_sh m') !! (f * 4096) = Some zero_page).
Proof.
  intros Hc Hva He Hvm Hem HA.
  destruct (each_page_cases (private_page ram stacks) (fun q m' => exists A' live', grows m A live m' A' live' /\
    Paging.room ram live - 2 * ((q - va) / 4096) <= Paging.room ram live' /\
    (forall n, ~ va <= n * 4096 < q -> A' !! n = A !! n) /\
    (forall n, va <= n * 4096 < q -> exists f, A' !! n = Some f /\ f ∉ live /\ sh_mem (mm_sh m') !! (f * 4096) = Some zero_page))
    (Paging.room ram live < 2 * ((e - va) / 4096)) va e m) as [|(m' & Hm & A' & live' & Hg & _ & ? & ?)]; try done.
  - unfold WM_SHARED_BASE in *. lia.
  - exists A, live. split; [by apply grows_refl|]. rewrite Z.sub_diag. change (0 / 4096) with 0. split_and!; [lia|done|lia].
  - intros q m1 Hq Hqm (A1 & live1 & Hg & Hroom & Hout & Hin).
    destruct (private_page_ok m1 A1 live1 q (g_core _ _ _ _ _ _ Hg)) as [[-> Hlack]|(m2 & f & live2 & -> & Hg2 & Hf & Hr2 & Hz)].
    + lia.
    + done.
    + rewrite Hout by mlia. apply HA. mlia.
    + left. split; [done|]. mlia.
    + right. exists m2. split; [done|]. exists (<[q / 4096 := f]> A1), live2. split_and!.
      * by eapply grows_trans.
      * mlia.
      * intros n Hn. rewrite lookup_insert_ne by mlia. apply Hout. lia.
      * intros n Hn. destruct (decide (n = q / 4096)) as [->|Hne].
        -- rewrite lookup_insert_eq. exists f. split_and!; [done| |done]. pose proof (g_live _ _ _ _ _ _ Hg). set_solver.
        -- destruct (Hin n ltac:(mlia)) as (g & Hg1 & Hgl & Hgz). exists g. rewrite lookup_insert_ne by done.
           split_and!; [done..|]. by rewrite (g_mem _ _ _ _ _ _ Hg2 n g Hg1).
  - by left.
  - right. by exists m', A', live'.
Qed.

(** *** Contents *)

(** The user pages between [lo] and [hi] got new contents. *)
Definition rewritten (vm vm' : Vm) (A : gmap Z Z) (live : gset Z) (lo hi : Z) : Prop :=
  space ram vm' A live /\
  forall k f, A !! k = Some f ->
    (forall page, mem vm !! (f * 4096) = Some page -> zlen page = 1024 ->
       exists page', mem vm' !! (f * 4096) = Some page' /\ zlen page' = 1024) /\
    (~ (lo < k * 4096 + 4096 /\ k * 4096 < hi) -> mem vm' !! (f * 4096) = mem vm !! (f * 4096)).

Lemma rewritten_refl vm A live lo hi : space ram vm A live -> rewritten vm vm A live lo hi.
Proof. intros Hsp. split; [done|]. intros k f _. split; [|done]. intros page. by exists page. Qed.

Lemma rewritten_trans vm vm1 vm2 A live lo hi lo1 hi1 lo2 hi2 :
  rewritten vm vm1 A live lo1 hi1 -> rewritten vm1 vm2 A live lo2 hi2 ->
  lo <= lo1 -> lo <= lo2 -> hi1 <= hi -> hi2 <= hi -> rewritten vm vm2 A live lo hi.
Proof.
  intros [_ H1] [Hs H2] ????. split; [done|]. intros k f Hk. destruct (H1 k f Hk) as [Ha Hb], (H2 k f Hk) as [Hc Hd]. split.
  - intros page Hp Hl. destruct (Ha page Hp Hl) as (page1 & ? & ?). by apply (Hc page1).
  - intros Hn. rewrite Hd by lia. apply Hb. lia.
Qed.

Lemma poke_ok vm A live v b vm' :
  space ram vm A live -> 0 <= v < WM_SHARED_BASE -> poke vm v b = Ret vm' -> rewritten vm vm' A live v (v + 1).
Proof.
  intros Hsp Hv H. unfold poke in H. rewrite (space_translate ram vm A live v Hsp Hv), bind_Ret_l in H.
  destruct (A !! (v / 4096)) as [f|] eqn:HA; [|done]. cbn [fmap option_fmap option_map unwrap] in H. rewrite bind_Ret_l in H.
  destruct (sp_dom _ _ _ _ Hsp _ _ HA) as (_ & Hf & Ht).
  pose proof (live_range ram _ live f (vo_ram _ _ _ (sp_vm _ _ _ _ Hsp)) (vo_frames _ _ _ (sp_vm _ _ _ _ Hsp)) Hf) as Hr.
  assert (table_of (f * 4096 + v mod 4096) = f * 4096) as Hto by (rewrite table_of_sub by (unfold in_u; mlia); mlia).
  rewrite Hto in H. cbv zeta in H. apply bind_Ret in H as (w & _ & H). apply bind_Ret in H as (page & Hu & [= <-]).
  split; [by apply space_write|]. intros k g Hk. cbn [mem]. destruct (decide (g = f)) as [->|Hne].
  - assert (k = v / 4096) as -> by (by eapply (sp_inj _ _ _ _ Hsp)). cbn. rewrite lookup_insert_eq. split; [|mlia].
    intros old Hold Hl. exists page. split; [done|]. rewrite Hold in Hu. simpl in Hu. 
    unfold upd in Hu. case_match; [|done]. injection Hu as <-. unfold zlen in *. by rewrite length_insert.
  - cbn. rewrite lookup_insert_ne by lia. split; [|done]. intros old. by exists old.
Qed.

Lemma write_user_ok bytes vm A live v vm' :
  space ram vm A live -> 0 <= v -> v + zlen bytes <= WM_SHARED_BASE -> write_user vm v bytes = Ret vm' ->
  rewritten vm vm' A live v (v + zlen bytes).
Proof.
  revert vm v. induction bytes as [|b bytes IH]; intros vm v Hsp Hv Hlen H; cbn [write_user] in H.
  - injection H as <-. by apply rewritten_refl.
  - rewrite zlen_cons in *. pose proof (zlen_nonneg bytes). apply bind_Ret in H as (vm1 & Hp & H).
    pose proof (poke_ok vm A live v b vm1 Hsp ltac:(lia) Hp) as H1.
    pose proof (IH vm1 (v + 1) (proj1 H1) ltac:(lia) ltac:(lia) H) as H2. eapply rewritten_trans; [exact H1|exact H2|lia..].
Qed.

Lemma copy_file_ok `{!FileReadLaws F} fuel files inode vm A live remaining dst off vm' :
  space ram vm A live -> 0 <= dst -> dst + remaining <= WM_SHARED_BASE ->
  copy_file fuel files inode vm remaining dst off = Ret vm' -> rewritten vm vm' A live dst (dst + remaining).
Proof.
  revert vm remaining dst off. induction fuel as [|fuel IH]; intros vm remaining dst off Hsp Hd Hlen H; cbn [copy_file] in H;
    (destruct (Z.ltb_spec 0 remaining); [|injection H as <-; by apply rewritten_refl]); [done|].
  set (bytes := read_at files inode off (Z.min remaining 4096)) in *.
  pose proof (read_at_length files inode off (Z.min remaining 4096) ltac:(lia)) as Hb. fold bytes in Hb.
  destruct (zlen bytes =? 0); [injection H as <-; by apply rewritten_refl|]. pose proof (zlen_nonneg bytes).
  apply bind_Ret in H as (vm1 & Hw & H). apply bind_Ret in H as (off' & _ & H).
  pose proof (write_user_ok bytes vm A live dst vm1 Hsp Hd ltac:(lia) Hw) as Hr1.
  pose proof (IH vm1 (remaining - zlen bytes) (dst + zlen bytes) off' (proj1 Hr1) ltac:(lia) ltac:(lia) H) as Hr2.
  eapply rewritten_trans; [exact Hr1|exact Hr2|lia..].
Qed.

Lemma core_rewritten m A live vm' lo hi : core m A live -> rewritten (mm_vm m) vm' A live lo hi -> core (set_vm m vm') A live.
Proof.
  intros [Hs Hst Hap Hca Hme Hr Hco] [Hs' Hmem]. constructor; try done; [by rewrite mm_vm_set|].
  intros n f Hf. destruct (Hme n f Hf) as (page & Hp & Hl). exact (proj1 (Hmem n f Hf) page Hp Hl).
Qed.

(** *** Unmapping *)

Lemma shiftr_frame f k : 0 <= f -> 0 <= k < 4096 -> Z.shiftr (f * 4096 + k) 12 = f.
Proof. intros. rewrite Z.shiftr_div_pow2 by lia. change (2 ^ 12) with 4096. mlia. Qed.

Lemma release_private m f : Forall (fun p => sp_frame p <> f) (sh_pages (mm_sh m)) ->
  release_user_frame (mm_sh m) f = mm_sh m <| sh_frames := free_phys_frame (sh_frames (mm_sh m)) f |>.
Proof.
  intros H. unfold release_user_frame, release_shared_frame.
  destruct (vec_position _ _) as [i|] eqn:E; [|done]. apply vec_position_Some in E as (l1 & x & l2 & Heq & _ & Hx & _).
  rewrite Heq in H. apply Forall_app in H as [_ [H _]%Forall_cons]. apply Z.eqb_eq in Hx. done.
Qed.

Lemma core_refs m A live refs : core m A live -> refs_wf refs ->
  (forall v, counted refs v -> counted (page_refcounts (mm_task m)) v) -> core (set_refs m refs) A live.
Proof. intros [Hs Hst Hap Hca Hme Hr Hco] Hwf Hsub. constructor; try done. intros v Hv. by apply Hco, Hsub. Qed.

Lemma core_unmapped m A live p vm' :
  core m A live -> ~ counted (page_refcounts (mm_task m)) p -> p mod 4096 = 0 ->
  space ram vm' (base.delete (p / 4096) A) live ->
  (forall f, f ∈ live -> ~ table_frame (mm_vm m) f -> mem vm' !! (f * 4096) = mem (mm_vm m) !! (f * 4096)) ->
  core (set_vm m vm') (base.delete (p / 4096) A) live.
Proof.
  intros [Hs Hst Hap Hca Hme Hr Hco] Hp Hpm Hs' Hmem. constructor; try done; [by rewrite mm_vm_set|..].
  - intros n f [_ Hf]%lookup_delete_Some. by apply (Hap n).
  - intros n f [_ Hf]%lookup_delete_Some. simpl. destruct (sp_dom _ _ _ _ Hs n f Hf) as (_ & Hl & Ht).
    rewrite Hmem by done. by apply (Hme n).
  - intros v Hv Hlt. destruct (Hco v Hv Hlt) as [Hvm Hin]. split; [done|]. rewrite lookup_delete_ne; [done|].
    intros Heq. apply Hp. simpl in Hv. by replace p with v by mlia.
Qed.

Lemma core_release m A live f :
  core m A live -> f ∈ live -> ~ table_frame (mm_vm m) f -> (forall k, A !! k <> Some f) ->
  has_live_stack stacks f = false -> Forall (fun p => sp_frame p <> f) (sh_pages (mm_sh m)) ->
  core (m <| mm_sh := release_user_frame (mm_sh m) f |>) A (live ∖ {[f]}).
Proof.
  intros [Hs Hst Hap Hca Hme Hr Hco] Hl Ht HA Hstk Hsh. rewrite (release_private m f Hsh). constructor; try done.
  - exact (space_free ram (mm_vm m) A live f Hs Hl Ht HA).
  - intros g Hg. apply elem_of_difference. split; [by apply Hst|]. intros ->%elem_of_singleton. congruence.
  - simpl. apply Forall_forall. intros p Hp. pose proof (proj1 (Forall_forall _ _) Hca p Hp).
    pose proof (proj1 (Forall_forall _ _) Hsh p Hp). simpl in *. set_solver.
Qed.

(** What unmapping pages leaves: some pages are gone, the others are as they
    were, and no frame was handed out. *)
Record shrinks m A live m' A' live' : Prop := {
  s_core : core m' A' live';
  s_sub : A' ⊆ A;
  s_live : live' ⊆ live;
  s_task : same_task (mm_task m) (mm_task m');
  s_mem : forall k f, A' !! k = Some f -> sh_mem (mm_sh m') !! (f * 4096) = sh_mem (mm_sh m) !! (f * 4096)
}.

Variable (shootdown_tlb : Z -> Z -> bool).

(** Unmapping one page: a counted page loses a reference; with the last one
    its frame goes back to the allocator, unless the shootdown failed. *)
Lemma unmap_page_ok m A live p fl :
  core m A live -> 0 <= p < WM_SHARED_BASE -> p mod 4096 = 0 ->
  exists m' fl' A' live', unmap_page shootdown_tlb p (m, fl) = Ret (m', fl') /\ shrinks m A live m' A' live' /\
    (forall k, k <> p / 4096 -> A' !! k = A !! k) /\
    (forall e, e.1 <> p -> e ∈ page_refcounts (mm_task m) -> e ∈ page_refcounts (mm_task m')) /\
    ((p, 1) ∈ page_refcounts (mm_task m) -> A' !! (p / 4096) = None /\
       (shootdown_tlb (page_dir_phys (mm_task m)) p = true -> fl' = fl /\ forall f, A !! (p / 4096) = Some f -> f ∉ live')).
Proof.
  intros Hc Hp Hpm. destruct (dec_ok _ p (c_refs _ _ _ Hc)) as (should & refs & Hd & Hwf & Hcnt & Hone & Hsh & Hkeep).
  unfold unmap_page. rewrite Hd, bind_Ret_l. cbv zeta iota.
  pose proof (core_refs m A live refs Hc Hwf (fun v Hv => proj1 (proj1 (Hcnt v) Hv))) as Hc1. destruct should; cbn [negb].
  2:{ exists (set_refs m refs), fl, A, live. split; [done|]. split; [by constructor|]. split; [done|]. split; [done|]. by intros ?%Hone. }
  destruct (c_counted _ _ _ Hc p (Hsh eq_refl) ltac:(lia)) as [_ [f HA]].
  set (m1 := set_refs m refs) in *. pose proof (c_space _ _ _ Hc1) as Hs1.
  destruct (sp_dom _ _ _ _ Hs1 _ _ HA) as (_ & Hf & Ht). destruct (c_apart _ _ _ Hc1 _ _ HA) as [Hstk Hcache].
  pose proof (live_range ram _ live f (vo_ram _ _ _ (sp_vm _ _ _ _ Hs1)) (vo_frames _ _ _ (sp_vm _ _ _ _ Hs1)) Hf) as Hr.
  rewrite (space_translate ram (mm_vm m1) A live p Hs1 Hp), HA, bind_Ret_l. cbn [fmap option_fmap option_map].
  destruct (space_unmap ram (mm_vm m1) A live p Hs1 Hp) as (vm' & -> & Hs2 & Hdir & Hmem). rewrite bind_Ret_l. cbv zeta.
  assert (core (set_vm m1 vm') (base.delete (p / 4096) A) live) as Hc2.
  { apply core_unmapped; try done. simpl. rewrite Hcnt. intros [_ H]. by apply H. }
  rewrite shiftr_frame by mlia. assert (forall k, base.delete (p / 4096) A !! k <> Some f) as Hgone.
  { intros k [Hne Hk]%lookup_delete_Some. apply Hne. by eapply (sp_inj _ _ _ _ Hs1). }
  assert (forall k g, base.delete (p / 4096) A !! k = Some g -> mem vm' !! (g * 4096) = sh_mem (mm_sh m) !! (g * 4096)) as Hm.
  { intros k g [_ Hk]%lookup_delete_Some. destruct (sp_dom _ _ _ _ Hs1 _ _ Hk) as (_ & Hg & Htg). by apply Hmem. }
  assert (forall k, k <> p / 4096 -> base.delete (p / 4096) A !! k = A !! k) as Hoth by (intros; by rewrite lookup_delete_ne).
  change (page_dir_phys (mm_task (set_vm m1 vm'))) with (page_dir_phys (mm_task m)).
  destruct (shootdown_tlb _ p).
  - assert (~ table_frame (mm_vm (set_vm m1 vm')) f) as Ht' by (rewrite mm_vm_set; by rewrite (table_frame_dir (mm_vm m1) vm')).
    pose proof (core_release (set_vm m1 vm') _ live f Hc2 Hf Ht' Hgone Hstk Hcache) as Hc3.
    eexists _, _, _, _. split; [done|]. split.
    + constructor; [exact Hc3|apply delete_subseteq|set_solver|done|]. rewrite (release_private (set_vm m1 vm') f Hcache). exact Hm.
    + split; [done|]. split; [done|]. intros _. split; [by rewrite lookup_delete_eq|]. intros _. rewrite andb_true_r. split; [done|].
      intros g [= <-]. set_solver.
  - eexists _, _, _, _. split; [done|]. split; [by constructor; [exact Hc2|apply delete_subseteq| | |exact Hm]|].
    split; [done|]. split; [done|]. intros _. by rewrite lookup_delete_eq.
Qed.
End Pages.

(** ** Holes *)

Definition covered (l : list (Z * Z)) (x : Z) : Prop := exists h, h ∈ l /\ h.1 <= x < h.1 + h.2.

(** A hole of the arena below [top]. *)
Definition hole_ok (top : Z) (h : Z * Z) : Prop :=
  MMAP_BASE <= h.1 /\ 0 < h.2 /\ h.1 + h.2 <= top /\ h.1 mod 4096 = 0 /\ h.2 mod 4096 = 0.
Definition hole_apart : Z * Z -> Z * Z -> Prop := apart fst snd.
Definition holes_ok (top : Z) (l : list (Z * Z)) : Prop := Forall (hole_ok top) l /\ StronglySorted hole_apart l.

#[global] Instance hole_apart_sym : Symmetric hole_apart.
Proof. apply apart_sym. Qed.

Lemma covered_Permutation l l' x : l ≡ₚ l' -> covered l x -> covered l' x.
Proof. intros Hp (h & Hh & ?). exists h. by rewrite <- Hp. Qed.

Lemma holes_ok_Permutation top l l' : l ≡ₚ l' -> holes_ok top l -> holes_ok top l'.
Proof. intros Hp [Hf Hs]. split; [by rewrite <- Hp|]. by eapply StronglySorted_Permutation; [apply _| |]. Qed.

Lemma covered_cons h l x : covered (h :: l) x <-> h.1 <= x < h.1 + h.2 \/ covered l x.
Proof.
  unfold covered. split.
  - intros (g & [->|Hg]%elem_of_cons & Hx); [by left|right; by exists g].
  - intros [Hx|(g & Hg & Hx)]; [exists h|exists g]; (split; [|done]); by constructor.
Qed.

(** The merging loop as a function on the sorted list. *)
Fixpoint merge_from (a : Z * Z) (rest : list (Z * Z)) : list (Z * Z) :=
  match rest with
  | [] => [a]
  | b :: rest =>
      if b.1 <=? a.1 + a.2 then merge_from (a.1, Z.max (a.1 + a.2) (b.1 + b.2) - a.1) rest
      else a :: merge_from b rest
  end.

Lemma merge_holes_eq top fuel pre a rest :
  top <= 2 ^ 32 - 1 -> (length rest <= fuel)%nat -> Forall (hole_ok top) (a :: rest) ->
  merge_holes fuel (pre ++ a :: rest) (zlen pre) = Ret (pre ++ merge_from a rest).
Proof.
  intros Htop. revert pre a rest. induction fuel as [|fuel IH]; intros pre a rest Hfuel Hok;
    destruct rest as [|b rest]; cbn [merge_holes merge_from]; rewrite zlen_app, !zlen_cons; try (simpl in Hfuel; lia).
  1-2: rewrite (proj2 (Z.ltb_ge _ _)) by (unfold zlen; simpl; lia); done.
  rewrite (proj2 (Z.ltb_lt _ _)) by (pose proof (zlen_nonneg rest); lia).
  rewrite (proj2 (idx_Ret _ _ _) (get_middle _ _ _)), bind_Ret_l.
  assert (idx (pre ++ a :: b :: rest) (zlen pre + 1) = Ret b) as ->.
  { apply idx_Ret. change (a :: b :: rest) with ([a] ++ b :: rest). rewrite app_assoc.
    replace (zlen pre + 1) with (zlen (pre ++ [a])) by (rewrite zlen_app; done). apply get_middle. }
  rewrite bind_Ret_l. apply Forall_cons in Hok as [Ha Hok]. apply Forall_cons in Hok as [Hb Hok].
  pose proof Ha as (Ha1 & Ha2 & Ha3 & Ha4 & Ha5). pose proof Hb as (Hb1 & Hb2 & Hb3 & Hb4 & Hb5). unfold MMAP_BASE in *.
  assert (saturating_add 32 a.1 a.2 = a.1 + a.2) as -> by (unfold saturating_add; lia).
  assert (saturating_add 32 b.1 b.2 = b.1 + b.2) as -> by (unfold saturating_add; lia). cbv zeta.
  destruct (Z.leb_spec b.1 (a.1 + a.2)).
  - unfold sub_u. rewrite (proj2 (Z.leb_le _ _)) by lia. rewrite bind_Ret_l. set (a' := (a.1, _)).
    rewrite upd_in_range by (rewrite zlen_app, !zlen_cons; pose proof (zlen_nonneg pre); pose proof (zlen_nonneg rest); lia).
    rewrite bind_Ret_l. unfold zlen at 1. rewrite Nat2Z.id, <- (Nat.add_0_r (length pre)), insert_app_r. simpl.
    replace (vec_remove (pre ++ a' :: b :: rest) (zlen pre + 1)) with (pre ++ a' :: rest).
    2:{ change (a' :: b :: rest) with ([a'] ++ b :: rest). rewrite app_assoc.
        replace (zlen pre + 1) with (zlen (pre ++ [a'])) by (rewrite zlen_app; done).
        by rewrite vec_remove_middle, <- app_assoc. }
    apply IH; [simpl in Hfuel; lia|]. constructor; [|done]. unfold hole_ok, a', MMAP_BASE. simpl. split_and!; mlia.
  - replace (pre ++ a :: b :: rest) with ((pre ++ [a]) ++ b :: rest) by (by rewrite <- app_assoc).
    replace (zlen pre + 1) with (zlen (pre ++ [a])) by (rewrite zlen_app; done).
    rewrite IH; [by rewrite <- app_assoc|simpl in Hfuel; lia|by constructor].
Qed.

Lemma merge_from_ok top a rest :
  Forall (hole_ok top) (a :: rest) -> StronglySorted (key_le fst) (a :: rest) ->
  Forall (hole_ok top) (merge_from a rest) /\ Forall (fun h => a.1 <= h.1) (merge_from a rest) /\
  StronglySorted hole_apart (merge_from a rest) /\ forall x, covered (merge_from a rest) x <-> covered (a :: rest) x.
Proof.
  revert a. induction rest as [|b rest IH]; intros a Hok Hs; simpl.
  - split_and!; [done|by constructor|by repeat constructor|done].
  - apply Forall_cons in Hok as [Ha Hok]. apply Forall_cons in Hok as [Hb Hok].
    apply StronglySorted_inv in Hs as [Hs Hsa]. apply Forall_cons in Hsa as [Hab Hsa].
    pose proof (StronglySorted_inv Hs) as [Hs' Hsb]. unfold key_le in *.
    pose proof Ha as (Ha1 & Ha2 & Ha3 & Ha4 & Ha5). pose proof Hb as (Hb1 & Hb2 & Hb3 & Hb4 & Hb5).
    destruct (Z.leb_spec b.1 (a.1 + a.2)).
    + destruct (IH (a.1, Z.max (a.1 + a.2) (b.1 + b.2) - a.1)) as (H1 & H2 & H3 & H4).
      * constructor; [|done]. unfold hole_ok. simpl. split_and!; mlia.
      * constructor; done.
      * split_and!; [done..|]. intros x. rewrite H4, !covered_cons. simpl. split; [|intuition lia].
        intros [Hx|]; [|by right; right]. destruct (Z.lt_ge_cases x (a.1 + a.2)); [left; lia|right; left; lia].
    + destruct (IH b) as (H1 & H2 & H3 & H4); [by constructor|done|]. split_and!.
      * by constructor.
      * constructor; [lia|]. eapply Forall_impl; [exact H2|]. simpl. lia.
      * constructor; [done|]. eapply Forall_impl; [exact H2|]. intros h Hh. cbv beta in Hh. left. unfold before. lia.
      * intros x. by rewrite !covered_cons, H4, covered_cons.
Qed.

Lemma add_hole_ok top l start len :
  top <= 2 ^ 32 - 1 -> Forall (hole_ok top) l -> hole_ok top (start, len) ->
  exists l', add_hole l start len = Ret l' /\ holes_ok top l' /\
    forall x, covered l' x <-> start <= x < start + len \/ covered l x.
Proof.
  intros Htop Hl Hn. unfold add_hole. set (s := sort_by_key fst (l ++ [(start, len)])).
  assert (s ≡ₚ (start, len) :: l) as Hp.
  { unfold s. rewrite sort_by_key_Permutation. symmetry. apply Permutation_cons_append. }
  pose proof (sort_by_key_sorted fst (l ++ [(start, len)])) as Hs. fold s in Hs. clearbody s.
  destruct s as [|a rest]; [by apply Permutation_nil_cons in Hp|].
  assert (Forall (hole_ok top) (a :: rest)) as Hok by (rewrite Hp; by constructor).
  destruct (merge_from_ok top a rest Hok Hs) as (H1 & _ & H3 & H4). exists (merge_from a rest). split; [|split; [done|]].
  - apply (merge_holes_eq top _ [] a rest Htop); [simpl; lia|done].
  - intros x. rewrite H4. rewrite <- (covered_cons (start, len) l). split; apply covered_Permutation; by rewrite Hp.
Qed.

Lemma reuse_hole_ok top l len r :
  top <= 2 ^ 32 - 1 -> holes_ok top l -> 0 < len -> len mod 4096 = 0 -> reuse_hole l len = r ->
  r = Ret None \/
  exists v l', r = Ret (Some (v, l')) /\ holes_ok top l' /\ v mod 4096 = 0 /\ MMAP_BASE <= v /\ v + len <= top /\
    (forall x, v <= x < v + len -> covered l x) /\ (forall x, covered l' x -> covered l x /\ ~ v <= x < v + len).
Proof.
  intros Htop Hok Hlen Hlm <-. unfold reuse_hole. destruct (vec_position _ l) as [i|] eqn:E; [right|by left].
  apply vec_position_Some in E as (l1 & h & l2 & -> & -> & Hfit & _). unfold fits in Hfit. apply Z.leb_le in Hfit.
  rewrite (proj2 (idx_Ret _ _ _) (get_middle _ _ _)), bind_Ret_l.
  assert (l1 ++ h :: l2 ≡ₚ h :: (l1 ++ l2)) as Hp by (symmetry; apply Permutation_middle).
  apply (holes_ok_Permutation top _ _ Hp) in Hok as [Hf Hs]. apply Forall_cons in Hf as [Hh Hf].
  apply StronglySorted_inv in Hs as [Hs Hap]. pose proof Hh as (H1 & H2 & H3 & H4 & H5). unfold MMAP_BASE in *.
  assert (forall x, covered (l1 ++ l2) x -> ~ h.1 <= x < h.1 + h.2) as Hdis.
  { intros x (g & Hg & Hx) Hx'. pose proof (proj1 (Forall_forall _ _) Hap g Hg) as [Hb|Hb]; unfold before in Hb; lia. }
  assert (forall x, covered (h :: l1 ++ l2) x -> covered (l1 ++ h :: l2) x) as Hcov
    by (intros x; apply covered_Permutation; by rewrite Hp).
  destruct (Z.eqb_spec h.2 len) as [Heq|Hne].
  - eexists _, _. split; [done|]. pose proof (vec_swap_remove_middle l1 h l2) as HP. split_and!; try done; try lia.
    + by apply (holes_ok_Permutation top (l1 ++ l2)); [symmetry|].
    + intros x Hx. apply Hcov, covered_cons. left. lia.
    + intros x Hx. apply (covered_Permutation _ _ x HP) in Hx. split; [apply Hcov, covered_cons; by right|].
      rewrite <- Heq. by apply Hdis.
  - unfold add_u. rewrite (proj2 (Z.ltb_lt _ _)) by lia. rewrite bind_Ret_l.
    rewrite upd_in_range by (rewrite zlen_app, zlen_cons; pose proof (zlen_nonneg l1); pose proof (zlen_nonneg l2); lia).
    rewrite bind_Ret_l. eexists _, _. split; [done|]. unfold zlen. rewrite Nat2Z.id, <- (Nat.add_0_r (length l1)), insert_app_r.
    simpl. set (h' := (h.1 + len, h.2 - len)).
    assert (l1 ++ h' :: l2 ≡ₚ h' :: (l1 ++ l2)) as Hp' by (symmetry; apply Permutation_middle).
    split_and!; try done; try lia.
    + apply (holes_ok_Permutation top (h' :: (l1 ++ l2))); [by symmetry|]. split.
      * constructor; [|done]. unfold hole_ok, h', MMAP_BASE. simpl. split_and!; mlia.
      * constructor; [done|]. eapply Forall_impl; [exact Hap|]. intros g [Hb|Hb]; unfold before in Hb; [left|right];
          unfold before, h'; simpl; lia.
    + intros x Hx. apply Hcov, covered_cons. left. lia.
    + intros x Hx. apply (covered_Permutation _ _ x Hp'), covered_cons in Hx. unfold h' in Hx. simpl in Hx.
      destruct Hx as [Hx|Hx]; (split; [apply Hcov, covered_cons|]); [left; lia|lia|by right|].
      pose proof (Hdis x Hx). lia.
Qed.
