(* ===== verification/Arena.v ===== *)
(** * Address ranges of user processes

    What the memory system calls of [UserMem] keep true of a process that has
    no shared mapping: its pages have frames of their own, the heap stays below
    the arena of mappings, and the ranges offered to new mappings are unused.
    The theorems describe an anonymous mapping, its removal and a block of the
    heap in every state such a process can reach. *)

From S2P Require Import Prelude Wait Frames Paging SharedPages Task Schedule Reap.
From S2P Require Import Pipe FileTable Signal Process FileCalls UserSpace UserMem.

Lemma good_slot slot : 1 <= slot < MAX_TASKS -> bad_slot slot = false.
Proof. unfold bad_slot. intros. rewrite (proj2 (Z.eqb_neq _ _)), (proj2 (Z.leb_gt _ _)) by lia. done. Qed.

Section Arena.
  Context {F : Type} `{!FileStore F, !FileReads F}.
  Variables (ram : Z) (stacks : list (option Z)).
  Implicit Types (m : Mm (F := F)) (A : gmap Z Z) (live : gset Z).

(** Everything in the arena from [top] on is unused. *)
Definition top (t : Task) : Z := Z.max (mmap_next t) MMAP_BASE.

Record arena (t : Task) (A : gmap Z Z) : Prop := {
  ar_heap : 0 <= heap_next t <= MMAP_BASE;
  ar_top : top t <= WM_SHARED_BASE /\ top t mod 4096 = 0;
  ar_bump : forall n, top t <= n * 4096 < WM_SHARED_BASE -> A !! n = None;
  ar_holes : holes_ok (top t) (mmap_free t);
  ar_empty : forall n, covered (mmap_free t) (n * 4096) -> A !! n = None
}.

Definition mem_inv m A live : Prop := core ram stacks m A live /\ arena (mm_task m) A.

Lemma hole_covered_range t l x : holes_ok t l -> covered l x -> MMAP_BASE <= x < t.
Proof.
  intros [Hf _] (h & Hh & Hx). destruct (proj1 (Forall_forall _ _) Hf h Hh) as (? & ? & ? & _). lia.
Qed.

(** Work on the heap leaves the arena alone. *)
Lemma arena_heap t t' A A' :
  arena t A -> mmap_next t' = mmap_next t -> mmap_free t' = mmap_free t -> 0 <= heap_next t' <= MMAP_BASE ->
  (forall n, MMAP_BASE <= n * 4096 -> A' !! n = A !! n) -> arena t' A'.
Proof.
  intros [Hh Ht Hb Ho He] Hn Hf Hh' HA.
  assert (top t' = top t) as Htop by (unfold top; by rewrite Hn).
  constructor; rewrite ?Htop, ?Hf; try done.
  - intros n Hr. rewrite HA; [by apply Hb|]. unfold top in Hr. lia.
  - intros n Hc. rewrite HA; [by apply He|]. apply (hole_covered_range _ _ _ Ho) in Hc. lia.
Qed.

Lemma back_pages_ok m A live p e m' :
  core ram stacks m A live -> 0 <= p <= e -> e <= MMAP_BASE -> p mod 4096 = 0 -> e mod 4096 = 0 ->
  each_page (back_page ram stacks) p e m = Ret m' ->
  exists A' live', grows ram stacks m A live m' A' live' /\ (forall k, MMAP_BASE <= k * 4096 -> A' !! k = A !! k) /\
    (forall k, p <= k * 4096 < e -> is_Some (A' !! k)).
Proof.
  unfold MMAP_BASE. intros Hc Hp He Hpm Hem Hr.
  destruct (each_page_cases (back_page ram stacks) (fun q m1 => exists A' live', grows ram stacks m A live m1 A' live' /\
    (forall k, MMAP_BASE <= k * 4096 -> A' !! k = A !! k) /\ (forall k, p <= k * 4096 < q -> is_Some (A' !! k)))
    True p e m) as [[Hx _]|(m1 & Hm & A1 & live1 & Hg & Hout & Hin)]; try done; try lia.
  - exists A, live. split; [by apply grows_refl|]. split; [done|lia].
  - intros q m1 Hq Hqm (A1 & live1 & Hg & Hout & Hin). destruct (back_page ram stacks q m1) as [m2|] eqn:Hb; [right|by left].
    destruct (back_page_ok ram stacks m1 A1 live1 q m2 (g_core _ _ _ _ _ _ _ _ Hg)) as (A2 & live2 & Hg2 & Hq2 & Hother);
      [unfold WM_SHARED_BASE; lia|done|done|]. exists m2. split; [done|]. exists A2, live2. split_and!.
    + by eapply grows_trans.
    + unfold MMAP_BASE. intros k Hk. rewrite Hother by mlia. by apply Hout.
    + intros k Hk. destruct (decide (k = q / 4096)) as [->|Hne]; [done|]. rewrite Hother by done. apply Hin. mlia.
  - rewrite Hr in Hx. done.
  - rewrite Hr in Hm. injection Hm as <-. by exists A1, live1.
Qed.

Lemma back_range_ok m A live start size m' :
  core ram stacks m A live -> 0 <= start -> 0 <= size -> start + size <= MMAP_BASE ->
  back_range ram stacks start size m = Ret m' ->
  exists A' live', grows ram stacks m A live m' A' live' /\ (forall k, MMAP_BASE <= k * 4096 -> A' !! k = A !! k) /\
    (forall k, start < k * 4096 + 4096 -> k * 4096 < start + size -> is_Some (A' !! k)).
Proof.
  intros Hc Hs Hz Hle H. unfold MMAP_BASE in *. unfold back_range in H. apply bind_Ret in H as (e & He & H). apply bind_Ret in H as (ep & Hep & H).
  unfold add_u in He. destruct (_ <? _) in He; [|done]. injection He as <-.
  destruct (page_up_eq (start + size) ep ltac:(lia) Hep) as [-> Hlt]. rewrite page_down_eq in H by (unfold in_u; lia).
  set (p := start - start mod 4096) in *. set (e := start + size + 4095 - (start + size + 4095) mod 4096) in *.
  destruct (back_pages_ok m A live p e m' Hc ltac:(unfold p, e; mlia) ltac:(unfold e, MMAP_BASE; mlia)
    ltac:(unfold p; mlia) ltac:(unfold e; mlia) H) as (A' & live' & Hg & Hout & Hin).
  exists A', live'. split; [done|]. split; [done|]. intros k H1 H2. apply Hin. unfold p, e. mlia.
Qed.

Lemma core_set_task m A live t :
  core ram stacks m A live -> page_refcounts t = page_refcounts (mm_task m) -> core ram stacks (m <| mm_task := t |>) A live.
Proof. intros [Hs Hst Hap Hca Hme Hr Hco] Ht. constructor; try done; simpl; by rewrite Ht. Qed.

Lemma inv_heap_next m A live a : mem_inv m A live -> 0 <= a <= MMAP_BASE -> mem_inv (set_heap_next m a) A live.
Proof.
  intros [Hc Ha] Hr. split; [by apply core_set_task|]. by apply (arena_heap (mm_task m) _ A A Ha).
Qed.

(** Pages were added below the arena. *)
Lemma inv_grows m A live m' A' live' :
  mem_inv m A live -> grows ram stacks m A live m' A' live' -> (forall k, MMAP_BASE <= k * 4096 -> A' !! k = A !! k) ->
  mem_inv m' A' live'.
Proof.
  intros [Hc Ha] Hg HA. split; [apply Hg|]. destruct (g_task _ _ _ _ _ _ _ _ Hg) as (H1 & H2 & H3 & _).
  apply (arena_heap (mm_task m) _ A A' Ha); try done. rewrite H1. apply Ha.
Qed.

Lemma malloc_align_ok raw a : in_u32 raw -> malloc_align raw = Ret a -> is_pow2 a /\ 8 <= a <= 4096.
Proof.
  intros Hr H. unfold malloc_align in H. assert (is_pow2 8) as H8 by (by exists 3). assert (is_pow2 4096) as H4 by (by exists 12).
  destruct (raw =? 0); [injection H as <-; split; [done|lia]|]. apply bind_Ret in H as (p & Hp & [= <-]).
  assert (is_pow2 p) as Hpp.
  { unfold next_power_of_two in Hp. destruct (raw <=? 1); [injection Hp as <-; by exists 0|]. case_match; [|done].
    injection Hp as <-. exists (Z.log2_up raw). split; [apply Z.log2_up_nonneg|done]. }
  split; [|lia]. pose proof (is_pow2_max p 8 Hpp H8) as Hm. destruct (Z.min_spec (Z.max p 8) 4096) as [[_ ->]|[_ ->]]; done.
Qed.

Lemma heap_based_inv m A live : mem_inv m A live ->
  let m0 := if heap_next (mm_task m) <? USER_HEAP_BASE then set_heap_next m USER_HEAP_BASE else m in
  mem_inv m0 A live /\ heap_next (mm_task m0) = Z.max (heap_next (mm_task m)) USER_HEAP_BASE /\ mm_sh m0 = mm_sh m /\ mm_dir m0 = mm_dir m.
Proof.
  intros Hi m0. unfold m0. destruct (Z.ltb_spec (heap_next (mm_task m)) USER_HEAP_BASE).
  - split; [apply inv_heap_next; [done|by unfold USER_HEAP_BASE, MMAP_BASE]|]. simpl. split; [lia|done].
  - split; [done|]. split; [lia|done].
Qed.

(** A block of the heap: above all earlier ones, below the cap, backed; what
    was mapped before keeps its frames and contents. *)
Definition heap_block m A live (r size : Z) m' : Prop :=
  Z.max (heap_next (mm_task m)) USER_HEAP_BASE <= r /\ heap_next (mm_task m') = r + size /\
  exists A' live', mem_inv m' A' live' /\ A ⊆ A' /\
    (forall k f, A !! k = Some f -> sh_mem (mm_sh m') !! (f * 4096) = sh_mem (mm_sh m) !! (f * 4096)) /\
    (forall k, r < k * 4096 + 4096 -> k * 4096 < r + size -> is_Some (A' !! k)).

Lemma malloc_ok m A live slot size raw r m' :
  mem_inv m A live -> in_u32 size -> in_u32 raw -> sys_malloc ram stacks m slot size raw = Ret (r, m') ->
  ((r = 0 \/ size = 0) /\ mem_inv m' A live) \/
  (0 < size /\ r mod 8 = 0 /\ r + size <= USER_HEAP_BASE + HEAP_SOFT_CAP /\ heap_block m A live r size m').
Proof.
  intros Hi Hsz Hraw H. unfold sys_malloc in H. apply bind_Ret in H as (align & Hal & H).
  destruct (malloc_align_ok raw align Hraw Hal) as [Hp2 Hab].
  destruct (bad_slot slot); [injection H as <- <-; left; split; [by left|done]|]. cbv zeta in H.
  destruct (heap_based_inv m A live Hi) as (Hi0 & Hh0 & Hsh0 & _). set (m0 := if _ <? _ then _ else m) in *. clearbody m0.
  apply bind_Ret in H as (up & Hup & H). unfold add_u in Hup. destruct (Z.ltb_spec (heap_next (mm_task m0) + (align - 1)) (2 ^ 32)); [|done].
  injection Hup as <-. pose proof (ar_heap _ _ (proj2 Hi0)) as Hh1. set (h := heap_next (mm_task m0)) in *.
  rewrite (align_down_pow2 32 (h + (align - 1)) align Hp2 ltac:(lia) ltac:(lia) ltac:(lia)) in H.
  set (start := h + (align - 1) - (h + (align - 1)) mod align) in *.
  pose proof (Z.mod_pos_bound (h + (align - 1)) align ltac:(lia)) as Hmb.
  assert (h <= start) as Hst by (unfold start; lia).
  assert (start mod 8 = 0) as Hs8.
  { apply Z.mod_divide; [lia|]. etrans; [apply (is_pow2_divide 8 align); [by exists 3|done|lia]|].
    apply Z.mod_divide; [lia|]. unfold start. rewrite Zminus_mod, Zmod_mod, Z.sub_diag. apply Zmod_0_l. }
  change (wrapping_add 32 USER_HEAP_BASE HEAP_SOFT_CAP) with (USER_HEAP_BASE + HEAP_SOFT_CAP) in H.
  destruct (_ && _) eqn:Hoom in H; [injection H as <- <-; left; split; [by left|done]|].
  destruct (Z.ltb_spec 0 size); [|injection H as <- <-; left; split; [right; unfold in_u in Hsz; lia|done]].
  simpl in Hoom. apply orb_false_iff in Hoom as [Hlim _]. apply Z.ltb_ge in Hlim. unfold saturating_add in Hlim.
  unfold USER_HEAP_BASE, HEAP_SOFT_CAP in *. 
  apply bind_Ret in H as (m1 & Hb & H). apply bind_Ret in H as (u & _ & H). apply bind_Ret in H as (next & Hnx & [= <- <-]).
  unfold add_u in Hnx. case_match; [|done]. injection Hnx as <-.
  destruct (back_range_ok m0 A live start size m1 (proj1 Hi0) ltac:(lia) ltac:(lia) ltac:(unfold MMAP_BASE; lia) Hb)
    as (A' & live' & Hg & Hout & Hin).
  right. split_and!; [lia|done|lia|]. split; [unfold USER_HEAP_BASE; lia|]. split; [done|]. exists A', live'. split_and!.
  - apply inv_heap_next; [|unfold MMAP_BASE; lia]. by apply (inv_grows m0 A live).
  - apply Hg.
  - intros k f Hk. simpl. rewrite <- Hsh0. by apply (g_mem _ _ _ _ _ _ _ _ Hg k).
  - done.
Qed.

Lemma inv_rewritten m A live vm' lo hi :
  mem_inv m A live -> rewritten ram (mm_vm m) vm' A live lo hi -> mem_inv (set_vm m vm') A live.
Proof. intros [Hc Ha] Hr. split; [by eapply core_rewritten|done]. Qed.

Lemma read_user_length vm v k bytes : read_user vm v k = Ret bytes -> zlen bytes = Z.of_nat k.
Proof.
  revert v bytes. induction k as [|k IH]; intros v bytes H; cbn [read_user] in H; [by injection H as <-|].
  apply bind_Ret in H as (b & _ & H). apply bind_Ret in H as (l & Hl & [= <-]). rewrite zlen_cons, (IH _ _ Hl). lia.
Qed.

(** The contents [SYS_REALLOC] gives the new block. *)
Lemma realloc_fill vm A live start n old_ptr old_size vm' :
  space ram vm A live -> 0 <= start -> 0 <= n -> start + n <= WM_SHARED_BASE ->
  (vm ← write_user vm start (replicate (Z.to_nat n) 0);
   if negb (old_ptr =? 0) && (0 <? old_size) then
     bytes ← read_user vm old_ptr (Z.to_nat (Z.min old_size n)); write_user vm start bytes
   else Ret vm) = Ret vm' ->
  rewritten ram vm vm' A live start (start + n).
Proof.
  intros Hs H0 Hn Hle H. apply bind_Ret in H as (vm1 & Hw & H).
  pose proof (zlen_replicate (Z.to_nat n) 0) as Hz. rewrite Z2Nat.id in Hz by done.
  pose proof (write_user_ok ram (replicate (Z.to_nat n) 0) vm A live start vm1 Hs H0 ltac:(lia) Hw) as H1. rewrite Hz in H1.
  destruct (negb _ && _); [|by injection H as <-]. apply bind_Ret in H as (bytes & Hb & H).
  apply read_user_length in Hb.
  pose proof (write_user_ok ram bytes vm1 A live start vm' (proj1 H1) H0 ltac:(lia) H) as H2.
  eapply rewritten_trans; [exact H1|exact H2|lia..].
Qed.

Lemma realloc_ok m A live slot old_ptr old_size n r m' :
  mem_inv m A live -> 0 <= n -> heap_next (mm_task m) + 7 + n <= MMAP_BASE ->
  sys_realloc ram stacks m slot old_ptr old_size n = Ret (r, m') -> exists A' live', mem_inv m' A' live'.
Proof.
  intros Hi Hn Hle H. unfold sys_realloc in H. destruct (bad_slot slot); [injection H as <- <-; by exists A, live|].
  apply bind_Ret in H as (up & Hup & H). unfold add_u in Hup. destruct (_ <? _) in Hup; [|done]. injection Hup as <-.
  pose proof (ar_heap _ _ (proj2 Hi)) as Hh. unfold MMAP_BASE in *. set (h := heap_next (mm_task m)) in *.
  rewrite (align_down_pow2 32 (h + 7) 8 ltac:(by exists 3) ltac:(lia) ltac:(lia) ltac:(lia)) in H. cbv zeta in H.
  set (start := h + 7 - (h + 7) mod 8) in *. assert (h <= start <= h + 7) as Hst by (unfold start; mlia). clearbody start.
  apply bind_Ret in H as (m1 & Hm1 & H). apply bind_Ret in H as (next & Hnx & [= <- <-]). unfold add_u in Hnx. destruct (_ <? _) in Hnx; [|done].
  injection Hnx as <-. cut (exists A' live', mem_inv m1 A' live').
  { intros (A' & live' & Hi1). exists A', live'. apply inv_heap_next; [done|unfold MMAP_BASE; lia]. }
  destruct (Z.ltb_spec 0 n); [|injection Hm1 as <-; by exists A, live]. apply bind_Ret in Hm1 as (m2 & Hb & Hm1).
  destruct (back_range_ok m A live start n m2 (proj1 Hi) ltac:(lia) ltac:(lia) ltac:(unfold MMAP_BASE; lia) Hb)
    as (A' & live' & Hg & Hout & _). pose proof (inv_grows m A live m2 A' live' Hi Hg Hout) as Hi2.
  exists A', live'. apply bind_Ret in Hm1 as (vm1 & Hw & Hm1). apply bind_Ret in Hm1 as (vm2 & Hw2 & [= <-]).
  eapply inv_rewritten; [exact Hi2|].
  apply (realloc_fill (mm_vm m2) A' live' start n old_ptr old_size vm2 (c_space _ _ _ _ _ (proj1 Hi2)));
    [lia|lia|unfold WM_SHARED_BASE; lia|].
  rewrite Hw, bind_Ret_l. exact Hw2.
Qed.

Lemma brk_ok m A live slot addr r m' :
  mem_inv m A live -> in_u32 addr -> sys_brk ram stacks m slot addr = Ret (r, m') -> exists A' live', mem_inv m' A' live'.
Proof.
  intros Hi Ha H. unfold sys_brk in H. destruct (bad_slot slot); [injection H as <- <-; by exists A, live|]. cbv zeta in H.
  destruct (heap_based_inv m A live Hi) as (Hi0 & _). set (m0 := if _ <? _ then _ else m) in *. clearbody m0.
  destruct (addr =? 0); [injection H as <- <-; by exists A, live|].
  destruct (Z.ltb_spec addr USER_HEAP_BASE); [injection H as <- <-; by exists A, live|].
  destruct (Z.ltb_spec BRK_CAP (saturating_sub addr USER_HEAP_BASE)) as [|Hcap]; [injection H as <- <-; by exists A, live|].
  unfold saturating_sub, BRK_CAP, USER_HEAP_BASE in *. apply bind_Ret in H as (m1 & Hm & [= <- <-]).
  cut (exists A' live', mem_inv m1 A' live').
  { intros (A' & live' & Hi1). exists A', live'. apply inv_heap_next; [done|unfold MMAP_BASE; lia]. }
  pose proof (ar_heap _ _ (proj2 Hi0)) as Hh. set (h := heap_next (mm_task m0)) in *. unfold MMAP_BASE in *.
  destruct (Z.ltb_spec h addr); [|injection Hm as <-; by exists A, live]. apply bind_Ret in Hm as (ep & Hep & Hm).
  destruct (page_up_eq addr ep ltac:(lia) Hep) as [-> _]. rewrite page_down_eq in Hm by (unfold in_u; lia).
  set (e := addr + 4095 - (addr + 4095) mod 4096) in *. set (p := h - h mod 4096) in *.
  destruct (back_pages_ok m0 A live p e m1 (proj1 Hi0) ltac:(unfold p, e; mlia) ltac:(unfold e, MMAP_BASE; mlia)
    ltac:(unfold p; mlia) ltac:(unfold e; mlia) Hm) as (A' & live' & Hg & Hout & _).
  exists A', live'. by apply (inv_grows m0 A live).
Qed.

(** *** The choice of an address *)

(** The address of a new mapping: in the arena, with no page mapped in its
    range, and the range no longer offered to anyone else. *)
Definition fresh_range m A (va len : Z) m' : Prop :=
  va mod 4096 = 0 /\ MMAP_BASE <= va /\ va + len <= WM_SHARED_BASE /\ (forall n, va <= n * 4096 < va + len -> A !! n = None) /\
  mm_sh m' = mm_sh m /\ mm_dir m' = mm_dir m /\ page_refcounts (mm_task m') = page_refcounts (mm_task m) /\
  forall A', (forall n, ~ va <= n * 4096 < va + len -> A' !! n = A !! n) -> arena (mm_task m') A'.

Lemma reuse_none_short l len : reuse_hole l len = Ret None -> Forall (fun h => h.2 < len) l.
Proof.
  intros Hr. unfold reuse_hole in Hr. destruct (vec_position _ _) as [i|] eqn:E.
  - apply vec_position_Some in E as (l1 & h & l2 & -> & -> & _).
    rewrite (proj2 (idx_Ret _ _ _) (get_middle _ _ _)), bind_Ret_l in Hr. case_match; [done|].
    apply bind_Ret in Hr as (? & _ & Hr). by apply bind_Ret in Hr as (? & _ & Hr).
  - apply vec_position_None in E. eapply Forall_impl; [exact E|]. intros h Hh. by apply Z.leb_gt in Hh.
Qed.

Lemma arena_bump t t' A A' len :
  arena t A -> mmap_next t' = top t + len -> mmap_free t' = mmap_free t -> heap_next t' = heap_next t ->
  0 < len -> len mod 4096 = 0 -> top t + len <= WM_SHARED_BASE ->
  (forall n, ~ top t <= n * 4096 < top t + len -> A' !! n = A !! n) -> arena t' A'.
Proof.
  intros [Hh [Ht Htm] Hb Ho He] Hn Hf Hh' Hlen Hlm Hle HA.
  assert (top t' = top t + len) as Ht' by (unfold top in *; lia). constructor; rewrite ?Ht', ?Hf, ?Hh'; try done.
  - split; [done|mlia].
  - intros n Hr. rewrite HA by lia. apply Hb. lia.
  - destruct Ho as [Hf' Hs]. split; [|done]. eapply Forall_impl; [exact Hf'|]. intros h. unfold hole_ok. lia.
  - intros n Hr. rewrite HA; [by apply He|]. apply (hole_covered_range _ _ _ Ho) in Hr. lia.
Qed.

Lemma pick_va_ok m A flags len :
  arena (mm_task m) A -> 0 < len -> len <= MMAP_CAP -> len mod 4096 = 0 -> Z.land flags MAP_FIXED = 0 ->
  (exists m', pick_va m 0 flags len = Ret (Refused ENOMEM, m') /\ arena (mm_task m') A /\
     mm_sh m' = mm_sh m /\ mm_dir m' = mm_dir m /\ page_refcounts (mm_task m') = page_refcounts (mm_task m) /\
     WM_SHARED_BASE <= top (mm_task m) + len /\ Forall (fun h => h.2 < len) (mmap_free (mm_task m))) \/
  exists va m', pick_va m 0 flags len = Ret (Picked va, m') /\ fresh_range m A va len m'.
Proof.
  intros Ha Hlen Hmax Hlm Hfx. pose proof Ha as [Hh [Ht Htm] Hb Ho He]. unfold pick_va. rewrite Hfx. cbn [Z.eqb negb].
  assert (top (mm_task m) <= 2 ^ 32 - 1) as Ht32 by (unfold WM_SHARED_BASE in *; lia).
  destruct (reuse_hole_ok (top (mm_task m)) _ len _ Ht32 Ho Hlen Hlm eq_refl) as
    [Hr|(v & l' & Hr & Ho' & Hv & Hv1 & Hv2 & Hin & Hout)]; rewrite Hr, bind_Ret_l.
  - set (m1 := if _ <? _ then _ else m).
    assert (mmap_next (mm_task m1) = top (mm_task m) /\ mmap_free (mm_task m1) = mmap_free (mm_task m) /\
            heap_next (mm_task m1) = heap_next (mm_task m) /\ mm_sh m1 = mm_sh m /\ mm_dir m1 = mm_dir m /\
            page_refcounts (mm_task m1) = page_refcounts (mm_task m)) as (Hn1 & Hf1 & Hh1 & Hs1 & Hd1 & Hp1).
    { unfold m1, top. destruct (Z.ltb_spec (mmap_next (mm_task m)) MMAP_BASE); simpl; split_and!; try done; lia. }
    clearbody m1. assert (MMAP_BASE <= top (mm_task m)) as Hbase by (unfold top; lia).
    assert (top (mm_task m1) = top (mm_task m)) as Htop by (unfold top at 1; rewrite Hn1; lia).
    rewrite Hn1. assert (saturating_add 32 (top (mm_task m)) len = top (mm_task m) + len) as ->
      by (unfold saturating_add, WM_SHARED_BASE, MMAP_CAP in *; lia).
    destruct (Z.leb_spec WM_SHARED_BASE (top (mm_task m) + len)); [left|right].
    + exists m1. split; [done|]. split; [|split_and!; try done].
      * constructor; rewrite ?Htop, ?Hf1, ?Hh1; done.
      * by apply reuse_none_short.
    + exists (top (mm_task m)), (set_mmap_next m1 (top (mm_task m) + len)). split; [done|]. split_and!; try done; [lia| |].
      * intros n Hn. apply Hb. lia.
      * intros A' HA. apply (arena_bump (mm_task m) _ A A' len); try done. lia.
  - right. exists v, (set_mmap_free m l'). split; [done|]. split_and!; try done; [lia| |].
    + intros n Hn. apply He, Hin. lia.
    + intros A' HA. constructor; try done.
      * simpl. intros n Hn. rewrite HA by (unfold top in *; simpl in *; lia). apply Hb. done.
      * simpl. intros n Hn. apply Hout in Hn as [Hc Hn]. rewrite HA by done. by apply He.
Qed.

(** *** Private mappings *)

Definition private_flags (flags : Z) : Prop :=
  Z.land flags MAP_SHARED = 0 /\ Z.land flags MAP_PRIVATE <> 0 /\ Z.land flags MAP_FIXED = 0.
Definition page_len (len : Z) : Z := len + 4095 - (len + 4095) mod 4096.
Definition is_anonymous (flags fd : Z) : bool := negb (Z.land flags MAP_ANONYMOUS =? 0) || (fd <? 0).

Lemma page_up_Ret x : 0 <= x -> x + 4096 < 2 ^ 32 -> page_up x = Ret (page_len x).
Proof.
  intros H0 H. destruct (page_up x) as [e|] eqn:E; [by destruct (page_up_eq x e H0 E) as [-> _]|].
  unfold page_up, add_u, PAGE_SIZE in E. by rewrite (proj2 (Z.ltb_lt _ _)) in E by lia.
Qed.

Lemma core_transport m m1 A live :
  core ram stacks m A live -> mm_sh m1 = mm_sh m -> mm_dir m1 = mm_dir m ->
  page_refcounts (mm_task m1) = page_refcounts (mm_task m) -> core ram stacks m1 A live.
Proof.
  intros [Hs Hst Hap Hca Hme Hr Hco] H1 H2 H3. unfold mm_vm in *.
  constructor; unfold mm_vm; rewrite ?H1, ?H2, ?H3; done.
Qed.

Lemma sys_mmap2_private m tbl slot len prot flags fd pgoff :
  0 < len <= MMAP_CAP -> private_flags flags -> bad_slot slot = false ->
  sys_mmap2 ram stacks m tbl slot 0 len prot flags fd pgoff =
    ('(r, m) ← pick_va m 0 flags (page_len len);
     match r with
     | Refused code => Ret (code, m)
     | Picked va => map_range ram stacks m tbl va len (page_len len) fd pgoff (is_anonymous flags fd) false
     end).
Proof.
  unfold MMAP_CAP. intros Hlen (Hsh & Hpr & _) Hslot. unfold sys_mmap2, MMAP_CAP. rewrite (proj2 (Z.eqb_neq _ _)) by lia.
  rewrite (proj2 (Z.ltb_ge _ _)) by lia. rewrite page_up_Ret by lia. rewrite bind_Ret_l.
  by rewrite Hsh, (proj2 (Z.eqb_neq _ _) Hpr), Hslot.
Qed.

Lemma page_len_ok len : 0 < len <= MMAP_CAP -> 0 < len <= page_len len /\ page_len len <= MMAP_CAP /\ page_len len mod 4096 = 0.
Proof. unfold page_len, MMAP_CAP. intros. split_and!; mlia. Qed.

Lemma map_range_private m A live m1 va len tbl fd pgoff (anonymous : bool) :
  core ram stacks m A live -> fresh_range m A va (page_len len) m1 -> 0 < len <= MMAP_CAP ->
  let r := map_range ram stacks m1 tbl va len (page_len len) fd pgoff anonymous false in
  (anonymous = false /\ r = Ret (EBADF, m1)) \/
  (r = Panic /\ Paging.room ram live < 2 * (page_len len / 4096)) \/
  exists inode m2 A2 live2, grows ram stacks m1 A live m2 A2 live2 /\
    (forall n, ~ va <= n * 4096 < va + page_len len -> A2 !! n = A !! n) /\
    (forall n, va <= n * 4096 < va + page_len len ->
       exists f, A2 !! n = Some f /\ f ∉ live /\ sh_mem (mm_sh m2) !! (f * 4096) = Some zero_page) /\
    r = if anonymous then Ret (va, m2) else
        vm ← copy_file (Z.to_nat len) (sh_files (mm_sh m2)) inode (mm_vm m2) len va (pgoff * PAGE_SIZE); Ret (va, set_vm m2 vm).
Proof.
  intros Hc (Hvm & Hv1 & Hv2 & Hnone & Hsh & Hdir & Hrefs & _) Hlen r. destruct (page_len_ok len Hlen) as (Hl1 & Hl2 & Hl3).
  set (L := page_len len) in *. unfold MMAP_BASE, MMAP_CAP, WM_SHARED_BASE in *.
  unfold r, map_range, WM_SHARED_BASE. rewrite (proj2 (Z.leb_gt _ _)) by lia.
  rewrite (proj2 (Z.ltb_ge _ _)) by (unfold saturating_add; lia). simpl orb.
  destruct (if anonymous then Some 0 else mapped_inode tbl fd) as [inode|] eqn:Hino; [right|left; by destruct anonymous].
  unfold add_u. rewrite (proj2 (Z.ltb_lt _ _)) by lia. rewrite bind_Ret_l.
  pose proof (core_transport m m1 A live Hc Hsh Hdir Hrefs) as Hc1.
  destruct (private_range ram stacks m1 A live va (va + L) Hc1) as [[-> Hroom]|(m2 & A2 & live2 & -> & Hg & Hout & Hin)];
    [lia|unfold WM_SHARED_BASE; lia|done|mlia|done|left|right].
  - split; [done|]. by replace (va + L - va) with L in Hroom by lia.
  - exists inode, m2, A2, live2. rewrite bind_Ret_l. by split_and!.
Qed.

(** The state after a mapping of [len] bytes at [va]. *)
Record mapped m A live (va len : Z) m' A' live' : Prop := {
  mp_inv : mem_inv m' A' live';
  mp_live : live ⊆ live';
  mp_out : forall n, ~ va <= n * 4096 < va + page_len len -> A' !! n = A !! n;
  mp_in : forall n, va <= n * 4096 < va + page_len len -> A !! n = None /\ exists f, A' !! n = Some f /\ f ∉ live;
  mp_mem : forall k f, A !! k = Some f -> sh_mem (mm_sh m') !! (f * 4096) = sh_mem (mm_sh m) !! (f * 4096)
}.

Lemma mapped_grows m A live m1 va len m2 A2 live2 :
  fresh_range m A va (page_len len) m1 -> grows ram stacks m1 A live m2 A2 live2 ->
  (forall n, ~ va <= n * 4096 < va + page_len len -> A2 !! n = A !! n) ->
  (forall n, va <= n * 4096 < va + page_len len ->
     exists f, A2 !! n = Some f /\ f ∉ live /\ sh_mem (mm_sh m2) !! (f * 4096) = Some zero_page) ->
  mapped m A live va len m2 A2 live2.
Proof.
  intros (_ & _ & _ & Hnone & Hsh & _ & _ & Har) Hg Hout Hin. destruct (g_task _ _ _ _ _ _ _ _ Hg) as (H1 & H2 & H3 & _).
  constructor.
  - split; [apply Hg|]. specialize (Har A2 Hout). apply (arena_heap (mm_task m1) _ A2 A2); try done. rewrite H1. apply Har.
  - apply Hg.
  - done.
  - intros n Hn. split; [by apply Hnone|]. destruct (Hin n Hn) as (f & ? & ? & _). by exists f.
  - intros k f Hk. rewrite (g_mem _ _ _ _ _ _ _ _ Hg k f Hk). by rewrite Hsh.
Qed.

(** An anonymous mapping runs out of frames, is refused for lack of address
    space, or gets pages of zeros. *)
Lemma mmap_anonymous_ok m A live tbl slot len prot flags fd pgoff :
  mem_inv m A live -> 0 < len <= MMAP_CAP -> private_flags flags -> is_anonymous flags fd = true -> bad_slot slot = false ->
  let r := sys_mmap2 ram stacks m tbl slot 0 len prot flags fd pgoff in
  (r = Panic /\ Paging.room ram live < 2 * (page_len len / 4096)) \/
  (exists m', r = Ret (ENOMEM, m') /\ mem_inv m' A live /\ WM_SHARED_BASE <= top (mm_task m) + page_len len /\
     Forall (fun h => h.2 < page_len len) (mmap_free (mm_task m))) \/
  exists va m' A' live', r = Ret (va, m') /\ va mod 4096 = 0 /\ MMAP_BASE <= va /\ va + len <= WM_SHARED_BASE /\
    mapped m A live va len m' A' live' /\
    forall n f, va <= n * 4096 < va + page_len len -> A' !! n = Some f -> sh_mem (mm_sh m') !! (f * 4096) = Some zero_page.
Proof.
  intros [Hc Ha] Hlen Hfl Han Hslot r. unfold r. rewrite sys_mmap2_private, Han by done.
  destruct (page_len_ok len Hlen) as (Hl1 & Hl2 & Hl3).
  destruct (pick_va_ok m A flags (page_len len) Ha ltac:(lia) Hl2 Hl3 (proj2 (proj2 Hfl))) as
    [(m1 & -> & Ha1 & Hsh & Hdir & Hrefs & Hx1 & Hx2)|(va & m1 & -> & Hfr)]; rewrite bind_Ret_l.
  - right. left. exists m1. split; [done|]. split; [|done]. split; [by apply (core_transport m)|done].
  - destruct (map_range_private m A live m1 va len tbl fd pgoff true Hc Hfr Hlen) as
      [[? _]|[[-> Hroom]|(inode & m2 & A2 & live2 & Hg & Hout & Hin & ->)]]; [done|by left|right; right].
    exists va, m2, A2, live2. pose proof Hfr as (? & ? & ? & _). split_and!; try done; [lia|by eapply mapped_grows|].
    intros n f Hn Hf. destruct (Hin n Hn) as (g & Hg' & _ & Hz). congruence.
Qed.

Lemma mapped_rewritten m A live va len m2 A2 live2 vm' :
  mapped m A live va len m2 A2 live2 -> 0 <= len <= page_len len ->
  rewritten ram (mm_vm m2) vm' A2 live2 va (va + len) -> va mod 4096 = 0 -> mapped m A live va len (set_vm m2 vm') A2 live2.
Proof.
  intros [Hi Hl Hout Hin Hm] Hlen Hr Hva. constructor; try done; [by eapply inv_rewritten|].
  intros k f Hk. destruct (decide (va <= k * 4096 < va + page_len len)) as [Hkr|Hkr].
  - destruct (Hin k Hkr) as [Hn _]. congruence.
  - rewrite <- (Hm k f Hk). assert (A2 !! k = Some f) as Hk2 by (by rewrite Hout). apply (proj2 Hr k f Hk2). mlia.
Qed.

(** A private mapping of a file or of no file: refused, or pages of its own. *)
Lemma mmap_private_ok `{!FileReadLaws F} m A live tbl slot len prot flags fd pgoff r m' :
  mem_inv m A live -> 0 < len <= MMAP_CAP -> private_flags flags -> bad_slot slot = false ->
  sys_mmap2 ram stacks m tbl slot 0 len prot flags fd pgoff = Ret (r, m') ->
  mem_inv m' A live \/ exists A' live', mapped m A live r len m' A' live'.
Proof.
  intros [Hc Ha] Hlen Hfl Hslot H. rewrite sys_mmap2_private in H by done. destruct (page_len_ok len Hlen) as (Hl1 & Hl2 & Hl3).
  destruct (pick_va_ok m A flags (page_len len) Ha ltac:(lia) Hl2 Hl3 (proj2 (proj2 Hfl))) as
    [(m1 & Hp & Ha1 & Hsh & Hdir & Hrefs & _)|(va & m1 & Hp & Hfr)]; rewrite Hp, bind_Ret_l in H.
  - injection H as <- <-. left. split; [by apply (core_transport m)|done].
  - pose proof Hfr as (Hvm & Hv1 & Hv2 & _ & Hsh & Hdir & Hrefs & Har).
    destruct (map_range_private m A live m1 va len tbl fd pgoff (is_anonymous flags fd) Hc Hfr Hlen) as
      [[_ Hr]|[[Hr _]|(inode & m2 & A2 & live2 & Hg & Hout & Hin & Hr)]]; rewrite Hr in H; [|done|].
    + injection H as <- <-. left. split; [by apply (core_transport m)|]. by apply Har.
    + right. pose proof (mapped_grows m A live m1 va len m2 A2 live2 Hfr Hg Hout Hin) as Hmp.
      destruct (is_anonymous flags fd); [injection H as <- <-; by exists A2, live2|].
      apply bind_Ret in H as (vm' & Hcp & [= <- <-]). exists A2, live2.
      apply mapped_rewritten; [done|lia| |done].
      apply (copy_file_ok ram _ _ _ _ A2 live2 _ _ _ vm') in Hcp; [done| | |lia]; [|unfold MMAP_BASE in *; lia].
      apply (c_space _ _ _ _ _ (proj1 (mp_inv _ _ _ _ _ _ _ _ Hmp))).
Qed.

Lemma mmap_inv `{!FileReadLaws F} m A live tbl slot len prot flags fd pgoff r m' :
  mem_inv m A live -> 0 <= len -> Z.land flags MAP_SHARED = 0 -> Z.land flags MAP_FIXED = 0 ->
  sys_mmap2 ram stacks m tbl slot 0 len prot flags fd pgoff = Ret (r, m') -> exists A' live', mem_inv m' A' live'.
Proof.
  intros Hi Hlen Hsh Hfx H. pose proof H as H0. unfold sys_mmap2 in H0.
  destruct (Z.eqb_spec len 0); [injection H0 as <- <-; by exists A, live|].
  destruct (Z.ltb_spec MMAP_CAP len); [injection H0 as <- <-; by exists A, live|].
  apply bind_Ret in H0 as (e & _ & H0). rewrite Hsh in H0. cbn [Z.eqb negb andb] in H0.
  destruct (Z.eqb_spec (Z.land flags MAP_PRIVATE) 0) as [|Hpr]; [injection H0 as <- <-; by exists A, live|].
  cbn [negb eqb] in H0. destruct (bad_slot slot) eqn:Hslot; [injection H0 as <- <-; by exists A, live|]. clear H0.
  destruct (mmap_private_ok m A live tbl slot len prot flags fd pgoff r m' Hi) as [Hi'|(A' & live' & Hm)]; [lia|done|done|done|..].
  - by exists A, live.
  - exists A', live'. apply Hm.
Qed.

(** *** Removing a mapping *)

Variable (shootdown_tlb : Z -> Z -> bool).

Lemma shrinks_trans m A live m1 A1 live1 m2 A2 live2 :
  shrinks ram stacks m A live m1 A1 live1 -> shrinks ram stacks m1 A1 live1 m2 A2 live2 -> shrinks ram stacks m A live m2 A2 live2.
Proof.
  intros [_ Hs Hl Ht Hm] [Hc' Hs' Hl' Ht' Hm']. constructor; try done.
  - by etrans.
  - by etrans.
  - unfold same_task in *. destruct Ht as (? & ? & ? & ?), Ht' as (? & ? & ? & ?). split_and!; congruence.
  - intros k f Hk. rewrite (Hm' k f Hk). apply (Hm k f). by eapply lookup_weaken.
Qed.

(** A page counted once whose shootdown is acknowledged. *)
Definition sole m (v : Z) : Prop :=
  (v, 1) ∈ page_refcounts (mm_task m) /\ shootdown_tlb (page_dir_phys (mm_task m)) v = true.

Lemma unmap_loop_ok m A live start e :
  core ram stacks m A live -> 0 <= start <= e -> e <= WM_SHARED_BASE -> start mod 4096 = 0 -> e mod 4096 = 0 ->
  exists m' fl A' live', each_page (unmap_page shootdown_tlb) start e (m, true) = Ret (m', fl) /\
    shrinks ram stacks m A live m' A' live' /\ (forall k, ~ start <= k * 4096 < e -> A' !! k = A !! k) /\
    ((forall v, start <= v < e -> v mod 4096 = 0 -> sole m v) ->
     fl = true /\ forall k, start <= k * 4096 < e -> A' !! k = None /\ forall f, A !! k = Some f -> f ∉ live').
Proof.
  intros Hc Hse He Hsm Hem.
  destruct (each_page_cases (unmap_page shootdown_tlb) (fun q st => exists A' live',
    shrinks ram stacks m A live st.1 A' live' /\ (forall k, ~ start <= k * 4096 < q -> A' !! k = A !! k) /\
    (forall v, q <= v -> (v, 1) ∈ page_refcounts (mm_task m) -> (v, 1) ∈ page_refcounts (mm_task st.1)) /\
    ((forall v, start <= v < q -> v mod 4096 = 0 -> sole m v) ->
     st.2 = true /\ forall k, start <= k * 4096 < q -> A' !! k = None /\ forall f, A !! k = Some f -> f ∉ live'))
    False start e (m, true)) as [[_ []]|([m' fl] & Hm & A' & live' & H1 & H2 & _ & H4)]; try done.
  - unfold WM_SHARED_BASE in *. lia.
  - exists A, live. split; [by constructor|]. split; [done|]. split; [done|]. intros _. split; [done|lia].
  - intros q [m1 fl] Hq Hqm (A1 & live1 & Hs & Hout & Hkeep & Hin). right. cbn [fst snd] in *.
    destruct (unmap_page_ok ram stacks shootdown_tlb m1 A1 live1 q fl (s_core _ _ _ _ _ _ _ _ Hs) ltac:(lia) Hqm) as
      (m2 & fl2 & A2 & live2 & -> & Hs2 & Hother & Hkeep2 & Hone). exists (m2, fl2). split; [done|].
    exists A2, live2. cbn [fst snd]. split_and!.
    + by eapply shrinks_trans.
    + intros k Hk. rewrite Hother by mlia. apply Hout. lia.
    + intros v Hv Hin1. apply Hkeep2; [simpl; lia|]. apply Hkeep; [lia|done].
    + intros Hsole. destruct (Hin (fun v Hv => Hsole v ltac:(lia))) as [Hfl Hgone].
      destruct (Hsole q ltac:(lia) Hqm) as [Hq1 Hq2]. destruct (Hone (Hkeep q ltac:(lia) Hq1)) as [HqA Hack].
      destruct (s_task _ _ _ _ _ _ _ _ Hs) as (_ & _ & _ & Hpd). rewrite Hpd in Hack. destruct (Hack Hq2) as [-> Hfree].
      split; [done|]. intros k Hk. destruct (decide (k = q / 4096)) as [->|Hne].
      * split; [done|]. intros f Hf. apply Hfree. by rewrite Hout by mlia.
      * rewrite Hother by done. destruct (Hgone k ltac:(mlia)) as [? Hf]. split; [done|]. intros f Hk'.
        pose proof (s_live _ _ _ _ _ _ _ _ Hs2). specialize (Hf f Hk'). set_solver.
  - by exists m', fl, A', live'.
Qed.

Lemma is_mapped_loop m A live start e :
  space ram (mm_vm m) A live -> 0 <= start <= e -> e <= WM_SHARED_BASE -> start mod 4096 = 0 -> e mod 4096 = 0 ->
  exists b, each_page (is_mapped m) start e false = Ret b /\ (b = false <-> forall k, start <= k * 4096 < e -> A !! k = None).
Proof.
  intros Hsp Hse He Hsm Hem.
  destruct (each_page_cases (is_mapped m) (fun q b => b = false <-> forall k, start <= k * 4096 < q -> A !! k = None)
    False start e false) as [[_ []]|(b & Hb & Hiff)]; try done.
  - unfold WM_SHARED_BASE in *. lia.
  - split; [lia|done].
  - intros q b Hq Hqm Hiff. right. unfold is_mapped. destruct b.
    + exists true. split; [done|]. split; [done|]. intros H. assert (true = false) by (apply Hiff; intros; apply H; lia). done.
    + rewrite (space_translate ram (mm_vm m) A live q Hsp ltac:(unfold WM_SHARED_BASE in *; lia)), bind_Ret_l.
      eexists. split; [done|]. destruct (A !! (q / 4096)) as [f|] eqn:E; simpl.
      * split; [done|]. intros H. rewrite H in E by mlia. done.
      * split; [|done]. intros _ k Hk. destruct (decide (k = q / 4096)) as [->|]; [done|]. apply Hiff; [done|mlia].
  - by exists b.
Qed.

(** A shared mapping is never laid over a mapped page. *)
Lemma shared_never_overlays m A live inode va len pgoff size v :
  space ram (mm_vm m) A live -> metadata_size (sh_files (mm_sh m)) inode = Some size ->
  saturating_add 64 (pgoff * PAGE_SIZE) (len - PAGE_SIZE) < size -> 4096 <= len -> 0 <= va -> va + len <= WM_SHARED_BASE ->
  va mod 4096 = 0 -> len mod 4096 = 0 -> va <= v < va + len -> is_Some (A !! (v / 4096)) ->
  map_shared ram stacks m inode va len pgoff = Ret (EBUSY, m).
Proof.
  intros Hsp Hmeta Hsize Hlen Hva Hle Hvm Hlm Hv Hin. unfold map_shared. rewrite Hmeta.
  unfold sub_u. rewrite (proj2 (Z.leb_le PAGE_SIZE len)) by (unfold PAGE_SIZE; lia). rewrite bind_Ret_l, (proj2 (Z.leb_gt _ _)) by done.
  unfold add_u. rewrite (proj2 (Z.ltb_lt _ _)) by (unfold WM_SHARED_BASE in *; lia). rewrite bind_Ret_l.
  destruct (is_mapped_loop m A live va (va + len) Hsp ltac:(lia) Hle Hvm ltac:(mlia)) as (b & -> & Hiff). rewrite bind_Ret_l.
  destruct b; [done|]. exfalso. rewrite (proj1 Hiff eq_refl (v / 4096)) in Hin by mlia. by destruct Hin.
Qed.

Lemma arena_sub t A A' : arena t A -> A' ⊆ A -> arena t A'.
Proof.
  intros [Hh Ht Hb Ho He] Hsub. assert (forall n, A !! n = None -> A' !! n = None) as Hn.
  { intros n Hn. by eapply lookup_weaken_None. }
  constructor; try done; intros n Hr; apply Hn; [by apply Hb|by apply He].
Qed.

Lemma shrinks_inv m A live m' A' live' : mem_inv m A live -> shrinks ram stacks m A live m' A' live' -> mem_inv m' A' live'.
Proof.
  intros [_ Ha] Hs. split; [apply Hs|]. destruct (s_task _ _ _ _ _ _ _ _ Hs) as (H1 & H2 & H3 & _).
  pose proof (arena_sub _ _ _ Ha (s_sub _ _ _ _ _ _ _ _ Hs)) as Ha'. apply (arena_heap (mm_task m) _ A' A' Ha'); try done.
  rewrite H1. apply Ha.
Qed.

Lemma inv_add_hole m A live start len : mem_inv m A live -> hole_ok (top (mm_task m)) (start, len) ->
  (forall k, start <= k * 4096 < start + len -> A !! k = None) ->
  exists l, add_hole (mmap_free (mm_task m)) start len = Ret l /\ mem_inv (set_mmap_free m l) A live /\
    forall x, start <= x < start + len -> covered l x.
Proof.
  intros [Hc [Hh [Ht Htm] Hb Ho He]] Hok Hn. unfold WM_SHARED_BASE in *.
  destruct (add_hole_ok (top (mm_task m)) (mmap_free (mm_task m)) start len ltac:(lia) (proj1 Ho) Hok) as (l & -> & Hl & Hcov).
  exists l. split; [done|]. split; [|intros x Hx; apply Hcov; by left]. split; [by apply core_set_task|].
  constructor; try done. simpl. intros n [Hr|Hr]%Hcov; [by apply Hn|by apply He].
Qed.

(** The part of [sys_munmap] after its argument checks, on the pages from
    [start] to [e]. *)
Lemma munmap_pages_ok m A live start e :
  mem_inv m A live -> 0 <= start < e -> e <= WM_SHARED_BASE -> start mod 4096 = 0 -> e mod 4096 = 0 ->
  (MMAP_BASE <= start -> e <= top (mm_task m)) ->
  exists m' A' live',
    ('(m, fl) ← each_page (unmap_page shootdown_tlb) start (Z.min e KERNEL_MMIO_BASE) (m, true);
     if fl && (MMAP_BASE <=? start) && (e <=? WM_SHARED_BASE) && (start <? e) then
       found ← each_page (is_mapped m) start e false;
       if found : bool then Ret (0, m) else
       free ← add_hole (mmap_free (mm_task m)) start (e - start);
       Ret (0, set_mmap_free m free)
     else Ret (0, m)) = Ret (0, m') /\ mem_inv m' A' live' /\ live' ⊆ live /\
    (forall k, ~ start <= k * 4096 < e -> A' !! k = A !! k) /\
    (forall k f, A' !! k = Some f -> sh_mem (mm_sh m') !! (f * 4096) = sh_mem (mm_sh m) !! (f * 4096)) /\
    ((forall v, start <= v < e -> v mod 4096 = 0 -> sole m v) ->
     (forall k, start <= k * 4096 < e -> A' !! k = None /\ forall f, A !! k = Some f -> f ∉ live') /\
     (MMAP_BASE <= start -> forall x, start <= x < e -> covered (mmap_free (mm_task m')) x)).
Proof.
  intros Hi Hse He Hsm Hem Htop. replace (Z.min e KERNEL_MMIO_BASE) with e by (unfold KERNEL_MMIO_BASE, WM_SHARED_BASE in *; lia).
  destruct (unmap_loop_ok m A live start e (proj1 Hi) ltac:(lia) He Hsm Hem) as (m1 & fl & A1 & live1 & -> & Hs & Hout & Hsole).
  rewrite bind_Ret_l. pose proof (shrinks_inv m A live m1 A1 live1 Hi Hs) as Hi1.
  rewrite (proj2 (Z.leb_le e _) He), (proj2 (Z.ltb_lt start e)), !andb_true_r by lia.
  destruct (fl && (MMAP_BASE <=? start)) eqn:Hg.
  - apply andb_true_iff in Hg as [_ Hb]. apply Z.leb_le in Hb.
    destruct (is_mapped_loop m1 A1 live1 start e (c_space _ _ _ _ _ (proj1 Hi1)) ltac:(lia) He Hsm Hem) as (b & -> & Hiff).
    rewrite bind_Ret_l. destruct b.
    + exists m1, A1, live1. split; [done|]. split_and!; try done; [apply Hs..|]. intros Hall. destruct (Hsole Hall) as [_ Hgone].
      split; [done|]. assert (true = false) as [=]. apply Hiff. intros k Hk. by apply Hgone.
    + destruct (s_task _ _ _ _ _ _ _ _ Hs) as (_ & Hnx & _).
      destruct (inv_add_hole m1 A1 live1 start (e - start) Hi1) as (l & -> & Hil & Hcov).
      * unfold hole_ok. simpl. assert (top (mm_task m1) = top (mm_task m)) as -> by (unfold top; by rewrite Hnx).
        specialize (Htop Hb). split_and!; mlia.
      * intros k Hk. apply Hiff; [done|lia].
      * rewrite bind_Ret_l. exists (set_mmap_free m1 l), A1, live1. split; [done|]. split_and!; try done; [apply Hs..|].
        intros Hall. destruct (Hsole Hall) as [_ Hgone]. split; [done|]. intros _ x Hx. apply Hcov. lia.
  - exists m1, A1, live1. split; [done|]. split_and!; try done; [apply Hs..|]. intros Hall. destruct (Hsole Hall) as [-> Hgone].
    split; [done|]. intros Hb. simpl in Hg. apply Z.leb_gt in Hg. lia.
Qed.

Lemma munmap_inv m A live addr len r m' :
  mem_inv m A live -> in_u32 addr -> in_u32 len ->
  (MMAP_BASE <= addr - addr mod 4096 -> addr + len <= top (mm_task m)) ->
  sys_munmap shootdown_tlb m addr len = Ret (r, m') -> exists A' live', mem_inv m' A' live'.
Proof.
  intros Hi Ha Hl Htop H. unfold sys_munmap in H. destruct (Z.eqb_spec len 0); [injection H as <- <-; by exists A, live|].
  cbv zeta in H. rewrite page_down_eq in H by done. apply bind_Ret in H as (e & He & H). unfold in_u, saturating_add in *.
  destruct (page_up_eq (Z.min (addr + len) (2 ^ 32 - 1)) e ltac:(lia) He) as [-> Hlt].
  set (start := addr - addr mod 4096) in *. set (e := Z.min _ _ + 4095 - _) in *.
  assert (start mod 4096 = 0 /\ e mod 4096 = 0 /\ 0 <= start < e) as (Hsm & Hem & Hse) by (unfold start, e; mlia).
  destruct (Z.leb_spec WM_SHARED_BASE start) as [|H1]; [injection H as <- <-; by exists A, live|].
  destruct (Z.ltb_spec WM_SHARED_BASE e) as [|H2]; [injection H as <- <-; by exists A, live|]. cbn [orb] in H.
  destruct (munmap_pages_ok m A live start e Hi Hse H2 Hsm Hem) as (m1 & A1 & live1 & Heq & Hi1 & _).
  { intros Hb. specialize (Htop Hb). destruct (ar_top _ _ (proj2 Hi)) as [_ Htm]. unfold e. mlia. }
  rewrite Heq in H. injection H as <- <-. by exists A1, live1.
Qed.

(** ** Runs of a process *)

(** A process after [exec]: some heap and program pages, no mappings. *)
Definition mem_start m : Prop :=
  exists A live, core ram stacks m A live /\ 0 <= heap_next (mm_task m) <= MMAP_BASE /\
    mmap_next (mm_task m) = MMAP_BASE /\ mmap_free (mm_task m) = [] /\
    forall n, MMAP_BASE <= n * 4096 < WM_SHARED_BASE -> A !! n = None.

(** Its memory calls: mappings are private and leave the choice of the address
    to the kernel, [munmap] stays within what was given out, and [realloc]
    below the arena. *)
Inductive mem_step : Mm (F := F) -> Mm (F := F) -> Prop :=
| ms_malloc m slot size align r m' :
    in_u32 size -> in_u32 align -> sys_malloc ram stacks m slot size align = Ret (r, m') -> mem_step m m'
| ms_realloc m slot old_ptr old_size n r m' :
    0 <= n -> heap_next (mm_task m) + 7 + n <= MMAP_BASE ->
    sys_realloc ram stacks m slot old_ptr old_size n = Ret (r, m') -> mem_step m m'
| ms_free m : mem_step m (sys_free m).2
| ms_brk m slot addr r m' : in_u32 addr -> sys_brk ram stacks m slot addr = Ret (r, m') -> mem_step m m'
| ms_mmap m tbl slot len prot flags fd pgoff r m' :
    0 <= len -> Z.land flags MAP_SHARED = 0 -> Z.land flags MAP_FIXED = 0 ->
    sys_mmap2 ram stacks m tbl slot 0 len prot flags fd pgoff = Ret (r, m') -> mem_step m m'
| ms_munmap m addr len r m' :
    in_u32 addr -> in_u32 len -> (MMAP_BASE <= addr - addr mod 4096 -> addr + len <= top (mm_task m)) ->
    sys_munmap shootdown_tlb m addr len = Ret (r, m') -> mem_step m m'.

Inductive mem_reachable : Mm (F := F) -> Prop :=
| mr_start m : mem_start m -> mem_reachable m
| mr_step m m' : mem_reachable m -> mem_step m m' -> mem_reachable m'.

Lemma start_inv m : mem_start m -> exists A live, mem_inv m A live.
Proof.
  intros (A & live & Hc & Hh & Hn & Hf & HA). exists A, live. split; [done|].
  assert (top (mm_task m) = MMAP_BASE) as Ht by (unfold top; rewrite Hn; lia).
  constructor; rewrite ?Ht, ?Hf; try done.
  - split; [repeat constructor|constructor].
  - intros n (h & Hh' & _). by apply not_elem_of_nil in Hh'.
Qed.

Lemma mem_step_inv `{!FileReadLaws F} m m' A live : mem_inv m A live -> mem_step m m' -> exists A' live', mem_inv m' A' live'.
Proof.
  intros Hi Hst. destruct Hst.
  - destruct (malloc_ok m A live slot size align r m') as [[_ Hi']|(_ & _ & _ & _ & _ & A' & live' & Hi' & _)]; eauto.
  - eapply realloc_ok; eassumption.
  - by exists A, live.
  - eapply brk_ok; eassumption.
  - eapply mmap_inv; eassumption.
  - by apply (munmap_inv m A live addr len r m').
Qed.

Lemma mem_reachable_inv `{!FileReadLaws F} m : mem_reachable m -> exists A live, mem_inv m A live.
Proof. induction 1 as [m H|m m' _ (A & live & Hi) Hst]; [by apply start_inv|by eapply mem_step_inv]. Qed.

(** *** What a process sees *)

Definition frame_free (fa : FrameAllocator) (f : Z) : Prop := f ∈ free_frames fa \/ next_free_page fa <= f.
Definition free_count (fa : FrameAllocator) : Z := page_of ram - next_free_page fa + zlen (free_frames fa).

(** The page of [v] is backed by the same frame with the same contents. *)
Definition same_user_page m m' (v : Z) : Prop :=
  translate (mm_vm m') v = translate (mm_vm m) v /\
  forall phys, translate (mm_vm m) v = Ret (Some phys) ->
    sh_mem (mm_sh m') !! (phys / 4096 * 4096) = sh_mem (mm_sh m) !! (phys / 4096 * 4096).

(** The page of [v] was not mapped and now is zero in a frame that was free. *)
Definition fresh_zero_page m m' (v : Z) : Prop :=
  translate (mm_vm m) v = Ret None /\
  exists f, translate (mm_vm m') v = Ret (Some (f * 4096 + v mod 4096)) /\ frame_free (sh_frames (mm_sh m)) f /\
    sh_mem (mm_sh m') !! (f * 4096) = Some zero_page.

Lemma room_free_count m A live : mem_inv m A live -> Paging.room ram live = free_count (sh_frames (mm_sh m)).
Proof.
  intros [Hc _]. pose proof (vo_frames _ _ _ (sp_vm _ _ _ _ (c_space _ _ _ _ _ Hc))) as Hf.
  pose proof (frames_inv_count _ _ _ Hf) as Hn. unfold Paging.room, free_count. simpl in *. lia.
Qed.

Lemma not_live_free m m' A A' live live' f : mem_inv m A live -> mem_inv m' A' live' -> f ∉ live -> f ∈ live' ->
  frame_free (sh_frames (mm_sh m)) f.
Proof.
  intros [Hc _] [Hc' _] Hf Hf'. pose proof (vo_frames _ _ _ (sp_vm _ _ _ _ (c_space _ _ _ _ _ Hc))) as Hi.
  pose proof (vo_frames _ _ _ (sp_vm _ _ _ _ (c_space _ _ _ _ _ Hc'))) as Hi'. simpl in *.
  pose proof (proj1 (fi_part _ _ _ Hi' f) (or_intror Hf')) as [Hlo _].
  destruct (Z.lt_ge_cases f (next_free_page (sh_frames (mm_sh m)))) as [Hlt|]; [|by right].
  destruct (proj2 (fi_part _ _ _ Hi f) (conj Hlo Hlt)) as [|]; [by left|done].
Qed.

Lemma user_translate m A live v : mem_inv m A live -> 0 <= v < WM_SHARED_BASE ->
  translate (mm_vm m) v = Ret ((fun f => f * 4096 + v mod 4096) <$> A !! (v / 4096)).
Proof. intros [Hc _] Hv. apply (space_translate ram _ A live); [apply Hc|done]. Qed.

Lemma same_page_of m m' A A' live live' v :
  mem_inv m A live -> mem_inv m' A' live' -> 0 <= v < WM_SHARED_BASE -> A' !! (v / 4096) = A !! (v / 4096) ->
  (forall f, A !! (v / 4096) = Some f -> sh_mem (mm_sh m') !! (f * 4096) = sh_mem (mm_sh m) !! (f * 4096)) ->
  same_user_page m m' v.
Proof.
  intros Hi Hi' Hv HA Hm. unfold same_user_page.
  rewrite (user_translate m A live v Hi Hv), (user_translate m' A' live' v Hi' Hv), HA. split; [done|].
  intros phys Hp. destruct (A !! (v / 4096)) as [f|] eqn:E; [|done]. injection Hp as <-.
  replace ((f * 4096 + v mod 4096) / 4096) with f by mlia. by apply Hm.
Qed.

Lemma frames_distinct m A live v v' p p' :
  mem_inv m A live -> 0 <= v < WM_SHARED_BASE -> 0 <= v' < WM_SHARED_BASE ->
  translate (mm_vm m) v = Ret (Some p) -> translate (mm_vm m) v' = Ret (Some p') -> p / 4096 = p' / 4096 -> v / 4096 = v' / 4096.
Proof.
  intros Hi Hv Hv' Hp Hp' Heq. rewrite (user_translate m A live v Hi Hv) in Hp. rewrite (user_translate m A live v' Hi Hv') in Hp'.
  destruct (A !! (v / 4096)) as [f|] eqn:E; [|done]. destruct (A !! (v' / 4096)) as [f'|] eqn:E'; [|done].
  injection Hp as <-. injection Hp' as <-. assert (f = f') as <- by mlia.
  by eapply (sp_inj _ _ _ _ (c_space _ _ _ _ _ (proj1 Hi))).
Qed.

Lemma range_end addr len : page_len (addr + len) = addr - addr mod 4096 + page_len (addr mod 4096 + len).
Proof. unfold page_len. mlia. Qed.

(** Counted pages of the arena lie below its top. *)
Lemma counted_below_top m A live e :
  mem_inv m A live -> 0 <= e - 4096 < WM_SHARED_BASE -> e mod 4096 = 0 -> (e - 4096, 1) ∈ page_refcounts (mm_task m) ->
  e <= top (mm_task m).
Proof.
  intros Hi He Hem Hin. destruct (c_counted _ _ _ _ _ (proj1 Hi) (e - 4096)) as [_ [f Hf]];
    [by apply (list_elem_of_fmap_2 fst _ (e - 4096, 1))|lia|].
  destruct (Z.lt_ge_cases (e - 4096) (top (mm_task m))) as [Hlt|Hge].
  - destruct (ar_top _ _ (proj2 Hi)) as [_ Htm]. mlia.
  - rewrite (ar_bump _ _ (proj2 Hi)) in Hf; [done|]. unfold WM_SHARED_BASE in *. mlia.
Qed.

(** A block from [malloc] lies above all earlier ones, below the cap, and its
    pages are backed. *)
Lemma malloc_block `{!FileReadLaws F} m slot size align r m' :
  mem_reachable m -> in_u32 size -> in_u32 align -> 0 < size -> r <> 0 -> sys_malloc ram stacks m slot size align = Ret (r, m') ->
  r mod 8 = 0 /\ Z.max (heap_next (mm_task m)) USER_HEAP_BASE <= r /\ r + size <= USER_HEAP_BASE + HEAP_SOFT_CAP /\
  heap_next (mm_task m') = r + size /\
  (forall v, r <= v < r + size -> exists phys, translate (mm_vm m') v = Ret (Some phys)) /\
  (forall v phys, 0 <= v < WM_SHARED_BASE -> translate (mm_vm m) v = Ret (Some phys) -> same_user_page m m' v).
Proof.
  intros (A & live & Hi)%mem_reachable_inv Hsz Hal Hpos Hr H.
  destruct (malloc_ok m A live slot size align r m' Hi Hsz Hal H) as
    [[[?|?] _]|(_ & Hr8 & Hcap & Hlo & Hnext & A' & live' & Hi' & Hsub & Hmem & Hin)]; [lia|lia|].
  split_and!; try done.
  - intros v Hv. assert (0 <= v < WM_SHARED_BASE) as Hvw by (unfold USER_HEAP_BASE, HEAP_SOFT_CAP, WM_SHARED_BASE in *; lia).
    rewrite (user_translate m' A' live' v Hi' Hvw). destruct (Hin (v / 4096)) as [f ->]; [mlia|mlia|]. by eexists.
  - intros v phys Hv Hp. rewrite (user_translate m A live v Hi Hv) in Hp. destruct (A !! (v / 4096)) as [f|] eqn:E; [|done].
    apply (same_page_of m m' A A' live live' v Hi Hi' Hv); [rewrite E; by eapply lookup_weaken|]. intros g. apply Hmem.
Qed.

(** ** Properties *)


End Arena.

(** ** Witnesses *)

#[global] Instance unit_reads : FileReads unit := { read_at := fun _ _ _ _ => [] }.
#[global] Instance unit_read_laws : FileReadLaws unit.
Proof. constructor. intros. unfold zlen. simpl. lia. Qed.

(** A process with an empty address space, the arena untouched. *)
Definition wit_mm : Mm (F := unit) :=
  mkMm (task_init 0xC0200000 0x300000 MMAP_BASE false) PageDirectory_new (mkSh [] (mkFA first_dynamic []) ∅ tt).

Definition wit_flags : Z := Z.lor MAP_PRIVATE MAP_ANONYMOUS.

Lemma wit_space : space (64 * MIB) (mm_vm wit_mm) ∅ ∅.
Proof.
  assert (forall i e, slot_ok i -> get (dir (mm_vm wit_mm)) i = Some e -> e = 0) as Hno.
  { intros i e Hi He. change (get zero_page i = Some e) in He. by apply get_replicate in He. }
  constructor.
  - constructor.
    + split; [by vm_compute|done].
    + by vm_compute.
    + apply zero_page_ok.
    + constructor; simpl; [by vm_compute|constructor| |by intros f ?%not_elem_of_nil].
      intros f. split; [|lia]. intros [?%not_elem_of_nil|?%not_elem_of_empty]; done.
    + intros i e Hi He [Hp _]. by rewrite (Hno i e Hi He) in Hp.
    + intros i i' e e' Hi _ He _ [Hp _]. by rewrite (Hno i e Hi He) in Hp.
  - intros i e Hi He Hp. by rewrite (Hno i e ltac:(unfold slot_ok; lia) He) in Hp.
  - intros n Hn. destruct (page_slot n Hn) as (Hi & _ & _). unfold frame_of, page_view.
    destruct (get _ _) as [e|] eqn:E; [|done]. by rewrite (Hno _ e Hi E).
  - done.
  - done.
Qed.

Lemma wit_mm_start : mem_start (64 * MIB) [] wit_mm.
Proof.
  exists ∅, ∅. split_and!; try done. constructor; try done.
  - apply wit_space.
  - split; [constructor|constructor].
  - intros v Hv. by apply not_elem_of_nil in Hv.
Qed.

Lemma wit_private : private_flags wit_flags.
Proof. by vm_compute. Qed.


(** The process after a mapping of one page. *)
Definition wit_mapped : Mm (F := unit) :=
  match sys_mmap2 (64 * MIB) [] wit_mm table_new 1 0 4096 3 wit_flags (-1) 0 with Ret (_, m) => m | Panic => wit_mm end.

Lemma wit_mapped_eq : sys_mmap2 (64 * MIB) [] wit_mm table_new 1 0 4096 3 wit_flags (-1) 0 = Ret (MMAP_BASE, wit_mapped).
Proof. vm_compute. reflexivity. Qed.

Lemma wit_mapped_reachable : mem_reachable (64 * MIB) [] no_shootdown wit_mapped.
Proof.
  eapply mr_step; [apply mr_start, wit_mm_start|].
  eapply ms_mmap; [| | |exact wit_mapped_eq]; by vm_compute.
Qed.


(** ** Arguments the calls do not survive *)

(** [munmap] near the end of the address space overflows before its range is
    checked. *)
Lemma munmap_overflow_panics {F : Type} `{!FileStore F} sd (m : Mm (F := F)) addr len :
  0 < len -> 2 ^ 32 - 4096 <= addr + len -> 0 <= addr -> sys_munmap sd m addr len = Panic.
Proof.
  intros Hl Ha H0. unfold sys_munmap, page_up, add_u, saturating_add, PAGE_SIZE. rewrite (proj2 (Z.eqb_neq _ _)) by lia.
  cbv zeta. by rewrite (proj2 (Z.ltb_ge _ _)) by lia.
Qed.

(** An alignment above [2^31] has no power of two to round up to. *)
Lemma malloc_align_panics {F : Type} ram stacks (m : Mm (F := F)) slot size align :
  2 ^ 31 < align < 2 ^ 32 -> sys_malloc ram stacks m slot size align = Panic.
Proof.
  intros Ha. unfold sys_malloc, malloc_align, next_power_of_two. rewrite (proj2 (Z.eqb_neq _ _)), (proj2 (Z.leb_gt _ _)) by lia.
  assert (Z.log2_up align = 32) as -> by (apply (Z.log2_up_unique align 32); lia). done.
Qed.

(** [realloc] has no cap: a large size overflows. *)
Lemma realloc_overflow_panics {F : Type} ram stacks (m : Mm (F := F)) slot old_ptr old_size n :
  1 <= slot < MAX_TASKS -> 8 <= heap_next (mm_task m) <= MMAP_BASE -> 2 ^ 32 - 8 <= n < 2 ^ 32 ->
  sys_realloc ram stacks m slot old_ptr old_size n = Panic.
Proof.
  intros Hs Hh Hn. unfold sys_realloc, MMAP_BASE in *. rewrite (good_slot slot Hs).
  assert (add_u 32 (heap_next (mm_task m)) 7 = Ret (heap_next (mm_task m) + 7)) as ->
    by (unfold add_u; by rewrite (proj2 (Z.ltb_lt _ _)) by lia).
  rewrite bind_Ret_l. cbv zeta. rewrite (align_down_pow2 32 (heap_next (mm_task m) + 7) 8 ltac:(by exists 3) ltac:(lia) ltac:(lia) ltac:(lia)).
  rewrite (proj2 (Z.ltb_lt 0 n)) by lia. set (start := _ - _). assert (8 <= start) by (unfold start; mlia).
  assert (add_u 32 start n = Panic) as Hp by (unfold add_u; by rewrite (proj2 (Z.ltb_ge _ _)) by lia).
  unfold back_range. by rewrite Hp.
Qed.

(** [munmap] of pages that were never mapped puts them on the list of free
    ranges: the next mapping gets them, and so does the one after it. *)
Definition wit_overlap : outcome (Z * Z * Mm (F := unit)) :=
  '(_, m) ← sys_munmap no_shootdown wit_mm 0x60001000 4096;
  '(a, m) ← sys_mmap2 (64 * MIB) [] m table_new 1 0 4096 3 wit_flags (-1) 0;
  '(b, m) ← sys_mmap2 (64 * MIB) [] m table_new 1 0 8192 3 wit_flags (-1) 0;
  Ret (a, b, m).
Lemma munmap_unmapped_overlaps : exists m, wit_overlap = Ret (0x60001000, 0x60000000, m) /\
  (0x60001000, 2) ∈ page_refcounts (mm_task m).
Proof. eexists. split; [vm_compute; reflexivity|]. vm_compute. by left. Qed.

(** A mapping that fails on its descriptor keeps the address range. *)
Lemma mmap_ebadf_leaks_range : exists m,
  sys_mmap2 (64 * MIB) [] wit_mm table_new 1 0 4096 3 MAP_PRIVATE 5 0 = Ret (EBADF, m) /\
  mmap_next (mm_task m) = MMAP_BASE + 4096 /\ mmap_free (mm_task m) = [].
Proof. eexists. split; [vm_compute; reflexivity|]. done. Qed.
