(* ===== verification/Elf.v ===== *)
(** * The program loader

    Model of [kernel/src/elf.rs]: mapping, filling and protecting the segments
    of an executable in the page directory of a new process.  The parser is the
    library [elf]; its result is an argument.  Pages are filled through the
    kernel's window on physical memory, so a frame is written whether or not
    the page is writable. *)

From S2P Require Import UserMem Arena.
From S2P Require Import Prelude Frames Paging UserSpace.

Definition ET_EXEC : Z := 2.
Definition EM_386 : Z := 3.
Definition PT_LOAD : Z := 1.
Definition PF_W : Z := 2.

Inductive ElfLoadError : Type := InvalidElf | NotExecutable | WrongMachine | NoProgramHeaders | InvalidAddress.

(** The parts of [elf::segment::ProgramHeader] and of the file header the
    loader uses; addresses and sizes are 64-bit. *)
Record ProgramHeader : Type := mkPh { p_type : Z; p_flags : Z; p_offset : Z; p_vaddr : Z; p_memsz : Z; p_filesz : Z }.
Record ElfFile : Type := mkElf { e_type : Z; e_machine : Z; e_entry : Z; segments : option (list ProgramHeader) }.

Definition as_u32 (x : Z) : Z := x mod 2 ^ 32.
Definition is_load (ph : ProgramHeader) : bool := p_type ph =? PT_LOAD.

(** ** Filling pages *)

Fixpoint fill_page (page : list Z) (off : Z) (bytes : list Z) : outcome (list Z) :=
  match bytes with
  | [] => Ret page
  | b :: rest =>
      w ← idx page (off / 4);
      page ← upd page (off / 4) (set_byte w (off mod 4) b);
      fill_page page (off + 1) rest
  end.

(** The body of the two copying loops: the frame behind [vaddr] through the
    page tables, and bytes written into it. *)
Definition fill_frame (vm : Vm) (vaddr : Z) (bytes : list Z) : outcome Vm :=
  let page := align_down 32 vaddr 4096 in
  let page_off := Z.land vaddr 0xFFF in
  pde ← idx (dir vm) (Z.shiftr page 22);
  pte ← pt_read vm (table_of pde) (Z.land (Z.shiftr page 12) 0x3FF);
  let frame_phys := table_of pte in
  _ ← through_alias frame_phys;
  p ← fill_page (default zero_page (mem vm !! frame_phys)) page_off bytes;
  Ret (with_frame vm frame_phys p).

Definition room_in_page (vaddr : Z) : Z := 0x1000 - Z.land vaddr 0xFFF.

(** [copy_to_user_virt], [zero_user_virt] *)
Fixpoint copy_to_user_virt (fuel : nat) (vm : Vm) (vaddr : Z) (data : list Z) : outcome Vm :=
  match data with
  | [] => Ret vm
  | _ =>
      match fuel with
      | O => Panic
      | S fuel =>
          let chunk := Z.min (zlen data) (room_in_page vaddr) in
          vm ← fill_frame vm vaddr (take (Z.to_nat chunk) data);
          vaddr ← add_u 32 vaddr chunk;
          copy_to_user_virt fuel vm vaddr (drop (Z.to_nat chunk) data)
      end
  end.
Fixpoint zero_user_virt (fuel : nat) (vm : Vm) (vaddr len : Z) : outcome Vm :=
  if 0 <? len then
    match fuel with
    | O => Panic
    | S fuel =>
        let chunk := Z.min len (room_in_page vaddr) in
        vm ← fill_frame vm vaddr (replicate (Z.to_nat chunk) 0);
        vaddr ← add_u 32 vaddr chunk;
        zero_user_virt fuel vm vaddr (len - chunk)
    end
  else Ret vm.

Section Loader.
  Variables (ram : Z) (stacks : list (option Z)).

Definition map_page (page : Z) (vm : Vm) : outcome Vm := alloc_and_map_user_page ram stacks vm page.

(** [load_segment] *)
Definition load_segment (ph : ProgramHeader) (binary : list Z) (vm : Vm) : outcome (result unit ElfLoadError * Vm) :=
  let vaddr := as_u32 (p_vaddr ph) in
  let memsz := as_u32 (p_memsz ph) in
  let filesz := as_u32 (p_filesz ph) in
  let offset := as_u32 (p_offset ph) in
  if (KERNEL_MMIO_BASE <=? vaddr) || (KERNEL_MMIO_BASE <? saturating_add 32 vaddr memsz) then Ret (Err InvalidAddress, vm) else
  e ← add_u 32 vaddr memsz;
  end_page ← page_up e;
  vm ← each_page map_page (page_down vaddr) end_page vm;
  '(ok, vm) ← (if 0 <? filesz then
                 e ← add_u 32 offset filesz;
                 if zlen binary <? e then Ret (false, vm) else
                 let src := take (Z.to_nat filesz) (drop (Z.to_nat offset) binary) in
                 vm ← copy_to_user_virt (length src) vm vaddr src;
                 Ret (true, vm)
               else Ret (true, vm));
  if negb ok then Ret (Err InvalidElf, vm) else
  vm ← (if filesz <? memsz then
          start ← add_u 32 vaddr filesz;
          zero_user_virt (Z.to_nat (memsz - filesz)) vm start (memsz - filesz)
        else Ret vm);
  Ret (Ok tt, vm).

(** The address range of all segments. *)
Fixpoint address_range (phs : list ProgramHeader) (min_addr max_addr : Z) : outcome (Z * Z) :=
  match phs with
  | [] => Ret (min_addr, max_addr)
  | ph :: phs =>
      if negb (is_load ph) then address_range phs min_addr max_addr else
      let v := as_u32 (p_vaddr ph) in
      e ← add_u 32 v (as_u32 (p_memsz ph));
      address_range phs (Z.min min_addr v) (Z.max max_addr e)
  end.

Definition map_gap_page (page : Z) (vm : Vm) : outcome Vm :=
  if page <? 0xC0000000 then map_page page vm else Ret vm.

Fixpoint load_segments (phs : list ProgramHeader) (binary : list Z) (vm : Vm) : outcome (result unit ElfLoadError * Vm) :=
  match phs with
  | [] => Ret (Ok tt, vm)
  | ph :: phs =>
      if negb (is_load ph) then load_segments phs binary vm else
      '(r, vm) ← load_segment ph binary vm;
      match r with Err e => Ret (Err e, vm) | Ok _ => load_segments phs binary vm end
  end.

(** One of the two passes over the permissions of the segments. *)
Definition protect_page (w : bool) (page : Z) (vm : Vm) : outcome Vm := set_user_page_writable vm page w.
Fixpoint protect_segments (phs : list ProgramHeader) (w : bool) (vm : Vm) : outcome Vm :=
  match phs with
  | [] => Ret vm
  | ph :: phs =>
      if negb (is_load ph) || (w && (Z.land (p_flags ph) PF_W =? 0)) then protect_segments phs w vm else
      e ← add_u 64 (p_vaddr ph) (p_memsz ph);
      up ← add_u 64 e PAGE_SIZE;
      let end_page := as_u32 (align_down 64 (up - 1) PAGE_SIZE) in
      vm ← each_page (protect_page w) (page_down (as_u32 (p_vaddr ph))) end_page vm;
      protect_segments phs w vm
  end.

(** [load_elf] on the parsed file *)
Definition load_elf (parsed : option ElfFile) (binary : list Z) (vm : Vm) : outcome (result Z ElfLoadError * Vm) :=
  match parsed with
  | None => Ret (Err InvalidElf, vm)
  | Some file =>
      if negb (e_type file =? ET_EXEC) then Ret (Err NotExecutable, vm) else
      if negb (e_machine file =? EM_386) then Ret (Err WrongMachine, vm) else
      match segments file with
      | None => Ret (Err NoProgramHeaders, vm)
      | Some phs =>
          '(min_addr, max_addr) ← address_range phs U32_MAX 0;
          up ← add_u 32 max_addr 0xFFF;
          vm ← each_page map_gap_page (align_down 32 min_addr 4096) (align_down 32 up 4096) vm;
          '(r, vm) ← load_segments phs binary vm;
          match r with
          | Err e => Ret (Err e, vm)
          | Ok _ =>
              vm ← protect_segments phs false vm;
              vm ← protect_segments phs true vm;
              Ret (Ok (as_u32 (e_entry file)), vm)
          end
      end
  end.
End Loader.

(** ** Bytes of user memory *)

Definition byte_ok (b : Z) : Prop := 0 <= b < 256.

Lemma byte_of_div w k : 0 <= k -> byte_of w k = w / 2 ^ (8 * k) mod 256.
Proof.
  intros Hk. unfold byte_of. change 255 with (Z.ones 8). rewrite Z.land_ones, Z.shiftr_div_pow2 by lia. done.
Qed.

Lemma set_byte_ok w k b : in_u32 w -> 0 <= k < 4 -> byte_ok b -> in_u32 (set_byte w k b) /\
  forall k', 0 <= k' < 4 -> byte_of (set_byte w k b) k' = if k' =? k then b else byte_of w k'.
Proof.
  unfold in_u, byte_ok. intros Hw Hk Hb.
  assert (set_byte w k b = w - w / 2 ^ (8 * k) mod 256 * 2 ^ (8 * k) + b * 2 ^ (8 * k)) as ->.
  { unfold set_byte. rewrite byte_of_div, !Z.shiftl_mul_pow2 by lia. done. }
  change (2 ^ 32) with 4294967296 in *.
  assert (k = 0 \/ k = 1 \/ k = 2 \/ k = 3) as Hc by lia.
  destruct Hc as [-> | [-> | [-> | -> ]]]; cbn [Z.mul Z.pow Z.pow_pos Pos.iter Pos.mul]; (split; [mlia|]); intros k' Hk';
    rewrite !byte_of_div by lia; assert (k' = 0 \/ k' = 1 \/ k' = 2 \/ k' = 3) as Hc by lia;
    destruct Hc as [-> | [-> | [-> | -> ]]]; cbn [Z.mul Z.pow Z.pow_pos Pos.iter Pos.mul Z.eqb Pos.eqb]; mlia.
Qed.

Definition pbyte (page : list Z) (o : Z) : option Z := w ← get page (o / 4); Some (byte_of w (o mod 4)).

Lemma pbyte_insert page off w b o :
  table_ok page -> 0 <= off < 4096 -> get page (off / 4) = Some w -> byte_ok b -> 0 <= o < 4096 ->
  pbyte (<[Z.to_nat (off / 4) := set_byte w (off mod 4) b]> page) o = if o =? off then Some b else pbyte page o.
Proof.
  intros [Hlen Hw] Hoff Hg Hb Ho. assert (in_u32 w) as Hwu.
  { unfold get in Hg. destruct (off / 4 <? 0); [done|]. by eapply Forall_lookup_1. }
  destruct (set_byte_ok w (off mod 4) b Hwu ltac:(mlia) Hb) as [_ Hby].
  unfold pbyte. rewrite get_insert by mlia. destruct (Z.eqb_spec (off / 4) (o / 4)) as [Heq|Hne]; simpl.
  - rewrite Hby by mlia. rewrite <- Heq, Hg. simpl.
    destruct (Z.eqb_spec (o mod 4) (off mod 4)), (Z.eqb_spec o off); try done; exfalso; mlia.
  - destruct (Z.eqb_spec o off); [|done]. exfalso. mlia.
Qed.

Lemma get_cons_S {X} (x : X) l k : 0 <= k -> get (x :: l) (1 + k) = get l k.
Proof.
  intros Hk. unfold get. rewrite !(proj2 (Z.ltb_ge _ _)) by lia.
  by replace (Z.to_nat (1 + k)) with (S (Z.to_nat k)) by lia.
Qed.

Lemma fill_page_ok bytes page off :
  table_ok page -> 0 <= off -> off + zlen bytes <= 4096 -> Forall byte_ok bytes ->
  exists page', fill_page page off bytes = Ret page' /\ table_ok page' /\
    forall o, 0 <= o < 4096 -> pbyte page' o = if (off <=? o) && (o <? off + zlen bytes) then get bytes (o - off) else pbyte page o.
Proof.
  revert page off. induction bytes as [|b bytes IH]; intros page off Hp Hoff Hlen Hb; cbn [fill_page].
  - exists page. split; [done|]. split; [done|]. intros o Ho. change (zlen []) with 0.
    rewrite Z.add_0_r. destruct (Z.leb_spec off o), (Z.ltb_spec o off); simpl; done || lia.
  - rewrite zlen_cons in *. pose proof (zlen_nonneg bytes). apply Forall_cons in Hb as [Hb Hbs].
    destruct (table_ok_get page (off / 4) Hp ltac:(unfold index_ok; mlia)) as (w & Hw & Hwu).
    rewrite (proj2 (idx_Ret _ _ _) Hw), bind_Ret_l.
    rewrite upd_in_range by (destruct Hp as [-> _]; mlia). rewrite bind_Ret_l.
    destruct (set_byte_ok w (off mod 4) b Hwu ltac:(mlia) Hb) as [Hsu _].
    destruct (IH (<[Z.to_nat (off / 4) := set_byte w (off mod 4) b]> page) (off + 1)) as (page' & Hr & Hok & Hby);
      [by apply table_ok_insert|lia|lia|done|]. exists page'. split; [done|]. split; [done|]. intros o Ho.
    rewrite Hby, (pbyte_insert page off w b o Hp ltac:(lia) Hw Hb Ho) by done.
    replace (off + 1 + zlen bytes) with (off + (1 + zlen bytes)) by lia.
    destruct (Z.eqb_spec o off) as [->|Hne].
    + rewrite (proj2 (Z.leb_gt (off + 1) off)), (proj2 (Z.leb_le off off)), (proj2 (Z.ltb_lt off _)) by lia. simpl.
      by rewrite Z.sub_diag.
    + destruct (Z.leb_spec (off + 1) o), (Z.leb_spec off o); simpl; try lia; [|done].
      destruct (o <? off + (1 + zlen bytes)); [|done]. symmetry.
      replace (o - off) with (1 + (o - (off + 1))) by lia. apply get_cons_S; lia.
Qed.

(** The byte of user memory at [v]. *)
Definition user_byte (vm : Vm) (A : gmap Z Z) (v : Z) : option Z :=
  f ← A !! (v / 4096); page ← mem vm !! (f * 4096); pbyte page (v mod 4096).
Definition pages_ok (vm : Vm) (A : gmap Z Z) : Prop :=
  forall n f, A !! n = Some f -> exists page, mem vm !! (f * 4096) = Some page /\ table_ok page.

Section Filling.
  Variable (ram : Z).
  Implicit Types (vm : Vm) (A : gmap Z Z) (live : gset Z).

(** User memory after [bytes] were written at [v]. *)
Definition overlay (old : Z -> option Z) (v : Z) (bytes : list Z) (v' : Z) : option Z :=
  if (v <=? v') && (v' <? v + zlen bytes) then get bytes (v' - v) else old v'.

Record filled vm A live (v : Z) (bytes : list Z) vm' : Prop := {
  fl_space : space ram vm' A live;
  fl_pages : pages_ok vm' A;
  fl_bytes : forall v', 0 <= v' < WM_SHARED_BASE -> user_byte vm' A v' = overlay (user_byte vm A) v bytes v'
}.

(** The entry of a mapped page names its frame. *)
Lemma leaf_entry vm A live n f :
  space ram vm A live -> A !! n = Some f ->
  exists e x, get (dir vm) (n / 1024) = Some e /\ is_small e /\ in_u32 x /\ has x PRESENT = true /\
    pt_read vm (table_of e) (n mod 1024) = Ret x /\ table_of x = f * 4096.
Proof.
  intros Hsp HA. destruct (sp_dom _ _ _ _ Hsp n f HA) as (Hn & _ & _). pose proof (sp_view _ _ _ _ Hsp n Hn) as Hv.
  destruct (page_slot n Hn) as (Hi & Hi' & Hj). pose proof (sp_vm _ _ _ _ Hsp) as Hok.
  destruct (dir_get ram vm live Hok _ Hi) as (e & He & _). rewrite HA in Hv. unfold frame_of, page_view in Hv. rewrite He in Hv.
  simpl in Hv. destruct (has e PRESENT) eqn:Hp; [|done]. pose proof (sp_small _ _ _ _ Hsp _ e Hi' He Hp) as Hl.
  destruct (pt_read_ok ram vm live _ e _ Hok Hi He (conj Hp Hl) Hj) as (x & Hx & Hxu & Hd).
  exists e, x. unfold page_view in Hd. rewrite He in Hd. simpl in Hd. rewrite Hp, Hl in Hd. simpl in Hd. rewrite Hl in Hv.
  simpl in Hv. rewrite Hd in Hv. unfold decode in Hv. destruct (has x PRESENT) eqn:Hxp; [|done]. simpl in Hv.
  destruct (table_of_range x Hxu) as [_ Hm]. injection Hv as Hf. split_and!; try done. mlia.
Qed.

Lemma filled_frame vm A live v f page' bytes :
  space ram vm A live -> pages_ok vm A -> 0 <= v < WM_SHARED_BASE -> A !! (v / 4096) = Some f ->
  v mod 4096 + zlen bytes <= 4096 -> table_ok page' ->
  (forall page, mem vm !! (f * 4096) = Some page -> forall o, 0 <= o < 4096 ->
     pbyte page' o = if (v mod 4096 <=? o) && (o <? v mod 4096 + zlen bytes) then get bytes (o - v mod 4096) else pbyte page o) ->
  filled vm A live v bytes (vm <| mem := <[f * 4096 := page']> (mem vm) |>).
Proof.
  intros Hsp Hpg Hv HA Hlen Hp' Hby. pose proof (zlen_nonneg bytes). constructor.
  - apply space_write; [done|]. by apply (sp_dom _ _ _ _ Hsp _ _ HA).
  - intros n g Hg. simpl. destruct (decide (g = f)) as [->|Hne].
    + exists page'. by rewrite lookup_insert_eq.
    + rewrite lookup_insert_ne by lia. by apply (Hpg n).
  - intros v' Hv'. unfold user_byte, overlay. simpl. destruct (decide (v' / 4096 = v / 4096)) as [Heq|Hne].
    + rewrite Heq, HA. simpl. rewrite lookup_insert_eq. simpl. destruct (Hpg _ _ HA) as (page & Hm & _). rewrite Hm. simpl.
      rewrite (Hby page Hm) by mlia. replace (v' mod 4096 - v mod 4096) with (v' - v) by mlia.
      destruct (Z.leb_spec (v mod 4096) (v' mod 4096)), (Z.leb_spec v v'); simpl; try (exfalso; mlia); [|done].
      destruct (Z.ltb_spec (v' mod 4096) (v mod 4096 + zlen bytes)), (Z.ltb_spec v' (v + zlen bytes)); try done; exfalso; mlia.
    + replace ((v <=? v') && (v' <? v + zlen bytes)) with false.
      * destruct (A !! (v' / 4096)) as [g|] eqn:Hg; [|done]. simpl. rewrite lookup_insert_ne; [done|].
        intros Heq. apply Hne. apply (sp_inj _ _ _ _ Hsp _ _ f); [|done]. by replace f with g by lia.
      * symmetry. apply andb_false_iff. rewrite Z.leb_gt, Z.ltb_ge. mlia.
Qed.

Lemma fill_frame_ok vm A live v f bytes :
  space ram vm A live -> pages_ok vm A -> 0 <= v < WM_SHARED_BASE -> A !! (v / 4096) = Some f ->
  v mod 4096 + zlen bytes <= 4096 -> Forall byte_ok bytes ->
  exists vm', fill_frame vm v bytes = Ret vm' /\ filled vm A live v bytes vm'.
Proof.
  intros Hsp Hpg Hv HA Hlen Hb. unfold WM_SHARED_BASE in *. assert (in_u32 v) as Hvu by (unfold in_u; lia).
  destruct (addr_fields v Hvu) as (_ & _ & Hoff & _).
  assert (align_down 32 v 4096 = v - v mod 4096) as Hpage by (apply (land_not_ones 32 v 12); [lia|done]).
  assert (in_u32 (v - v mod 4096)) as Hpu by (unfold in_u; mlia).
  destruct (addr_fields (v - v mod 4096) Hpu) as (Hpd & Hpt & _). unfold pd_index_of, pt_index_of in *.
  destruct (leaf_entry vm A live (v / 4096) f Hsp HA) as (e & x & He & _ & _ & _ & Hx & Hto).
  unfold fill_frame. rewrite Hpage, Hoff, Hpd, Hpt. replace ((v - v mod 4096) / 4194304) with (v / 4096 / 1024) by mlia.
  rewrite (proj2 (idx_Ret _ _ _) He), bind_Ret_l. replace ((v - v mod 4096) / 4096 mod 1024) with (v / 4096 mod 1024) by mlia.
  destruct (sp_dom _ _ _ _ Hsp _ _ HA) as (_ & Hlive & _).
  rewrite Hx, bind_Ret_l, Hto. cbv zeta. rewrite (alias_live ram vm live (sp_vm _ _ _ _ Hsp) f Hlive), bind_Ret_l. destruct (Hpg _ _ HA) as (page & Hm & Hpok). rewrite Hm. change (default zero_page (Some page)) with page.
  destruct (fill_page_ok bytes page (v mod 4096) Hpok ltac:(mlia) Hlen Hb) as (page' & -> & Hpok' & Hby). rewrite bind_Ret_l.
  eexists. split; [done|]. apply filled_frame; try done. intros page0 Hm0. rewrite Hm in Hm0. by injection Hm0 as <-.
Qed.
End Filling.

(** ** Copying and clearing *)

Lemma get_app_lt {X} (l k : list X) i : i < zlen l -> get (l ++ k) i = get l i.
Proof.
  intros Hi. unfold get, zlen in *. destruct (Z.ltb_spec i 0); [done|]. apply lookup_app_l. lia.
Qed.

Lemma get_app_ge {X} (l k : list X) i : zlen l <= i -> get (l ++ k) i = get k (i - zlen l).
Proof.
  intros Hi. unfold get, zlen in *. rewrite !(proj2 (Z.ltb_ge _ _)) by lia. rewrite lookup_app_r by lia. f_equal. lia.
Qed.

Lemma room_in_page_pos v : 1 <= room_in_page v.
Proof. unfold room_in_page. change 0xFFF with (Z.ones 12). rewrite Z.land_ones by lia. change (2 ^ 12) with 4096. mlia. Qed.

Lemma overlay_app old v b1 b2 v' : overlay (overlay old v b1) (v + zlen b1) b2 v' = overlay old v (b1 ++ b2) v'.
Proof.
  unfold overlay. rewrite zlen_app. pose proof (zlen_nonneg b1). pose proof (zlen_nonneg b2).
  replace (v + (zlen b1 + zlen b2)) with (v + zlen b1 + zlen b2) by lia.
  destruct (Z.leb_spec (v + zlen b1) v') as [H1|H1]; simpl.
  - rewrite (proj2 (Z.leb_le v v')) by lia. simpl. destruct (Z.ltb_spec v' (v + zlen b1 + zlen b2)).
    + rewrite get_app_ge by lia. by replace (v' - v - zlen b1) with (v' - (v + zlen b1)) by lia.
    + by rewrite (proj2 (Z.ltb_ge v' (v + zlen b1))) by lia.
  - rewrite (proj2 (Z.ltb_lt v' (v + zlen b1))), (proj2 (Z.ltb_lt v' (v + zlen b1 + zlen b2))), !andb_true_r by lia.
    destruct (Z.leb_spec v v'); [|done]. symmetry. apply get_app_lt. lia.
Qed.

Section Copying.
  Variable (ram : Z).
  Implicit Types (vm : Vm) (A : gmap Z Z) (live : gset Z).

Lemma filled_nil vm A live v : space ram vm A live -> pages_ok vm A -> filled ram vm A live v [] vm.
Proof.
  intros Hsp Hpg. constructor; [done..|]. intros v' _. unfold overlay. change (zlen []) with 0. rewrite Z.add_0_r.
  destruct (Z.leb_spec v v'), (Z.ltb_spec v' v); simpl; done || lia.
Qed.

Lemma filled_app vm A live v b1 vm1 b2 vm2 :
  filled ram vm A live v b1 vm1 -> filled ram vm1 A live (v + zlen b1) b2 vm2 -> filled ram vm A live v (b1 ++ b2) vm2.
Proof.
  intros [_ _ H1] [Hs Hp H2]. constructor; [done..|]. intros v' Hv'. rewrite H2, <- overlay_app by done.
  unfold overlay at 1 2. case_match; [done|]. by apply H1.
Qed.

(** All pages of a range are mapped. *)
Definition backed A (v len : Z) : Prop := forall n, v < n * 4096 + 4096 -> n * 4096 < v + len -> is_Some (A !! n).

Lemma copy_to_user_virt_ok fuel vm A live v data :
  space ram vm A live -> pages_ok vm A -> 0 <= v -> v + zlen data <= WM_SHARED_BASE -> backed A v (zlen data) ->
  Forall byte_ok data -> (length data <= fuel)%nat ->
  exists vm', copy_to_user_virt fuel vm v data = Ret vm' /\ filled ram vm A live v data vm'.
Proof.
  revert vm v data. induction fuel as [|fuel IH]; intros vm v data Hsp Hpg Hv Hle Hbk Hb Hf;
    (destruct data as [|d data]; [exists vm; split; [done|by apply filled_nil]|]); [simpl in Hf; lia|].
  set (l := d :: data) in *. assert (1 <= zlen l) as Hl by (unfold l; rewrite zlen_cons; pose proof (zlen_nonneg data); lia).
  unfold WM_SHARED_BASE in *. destruct (addr_fields v ltac:(unfold in_u; lia)) as (_ & _ & Hoff & _).
  change (copy_to_user_virt (S fuel) vm v l) with
    (let chunk := Z.min (zlen l) (room_in_page v) in
     vm1 ← fill_frame vm v (take (Z.to_nat chunk) l); v1 ← add_u 32 v chunk;
     copy_to_user_virt fuel vm1 v1 (drop (Z.to_nat chunk) l)).
  unfold room_in_page. rewrite Hoff. set (chunk := Z.min (zlen l) (0x1000 - v mod 4096)). cbv zeta.
  assert (1 <= chunk <= zlen l /\ v mod 4096 + chunk <= 4096) as [Hc1 Hc2] by (unfold chunk; mlia).
  assert (zlen (take (Z.to_nat chunk) l) = chunk) as Htk by (unfold zlen in *; rewrite length_take; lia).
  assert (zlen (drop (Z.to_nat chunk) l) = zlen l - chunk) as Hdr by (unfold zlen in *; rewrite length_drop; lia).
  destruct (Hbk (v / 4096) ltac:(mlia) ltac:(mlia)) as [f HA].
  destruct (fill_frame_ok ram vm A live v f (take (Z.to_nat chunk) l) Hsp Hpg) as (vm1 & -> & H1);
    [unfold WM_SHARED_BASE; lia|done|lia|by apply Forall_take|]. rewrite bind_Ret_l.
  unfold add_u. rewrite (proj2 (Z.ltb_lt _ _)) by lia. rewrite bind_Ret_l.
  destruct (IH vm1 (v + chunk) (drop (Z.to_nat chunk) l) (fl_space _ _ _ _ _ _ _ H1) (fl_pages _ _ _ _ _ _ _ H1)) as (vm2 & -> & H2).
  - lia.
  - lia.
  - intros n Hn1 Hn2. apply Hbk; lia.
  - by apply Forall_drop.
  - rewrite length_drop. unfold l in *. simpl in *. lia.
  - exists vm2. split; [done|]. rewrite <- (take_drop (Z.to_nat chunk) l). eapply filled_app; [exact H1|]. by rewrite Htk.
Qed.

Lemma zero_as_copy fuel vm v len : 0 <= len ->
  zero_user_virt fuel vm v len = copy_to_user_virt fuel vm v (replicate (Z.to_nat len) 0).
Proof.
  revert vm v len. induction fuel as [|fuel IH]; intros vm v len Hlen; cbn [zero_user_virt];
    (destruct (Z.ltb_spec 0 len) as [Hl|Hl]; [|by replace len with 0 by lia]);
    (destruct (replicate (Z.to_nat len) 0) as [|d l] eqn:E; [destruct (Z.to_nat len) eqn:E'; [lia|done]|]); [done|].
  cbn [copy_to_user_virt]. rewrite <- E. pose proof (zlen_replicate (Z.to_nat len) 0) as Hz. rewrite Z2Nat.id in Hz by lia.
  rewrite Hz. pose proof (room_in_page_pos v). set (chunk := Z.min len (room_in_page v)). cbv zeta.
  rewrite take_replicate. replace (Z.to_nat chunk `min` Z.to_nat len)%nat with (Z.to_nat chunk) by lia.
  destruct (fill_frame vm v _) as [vm1|]; [|done]. rewrite !bind_Ret_l. destruct (add_u 32 v chunk) as [v1|]; [|done]. rewrite !bind_Ret_l.
  rewrite drop_replicate. replace (Z.to_nat len - Z.to_nat chunk)%nat with (Z.to_nat (len - chunk)) by lia.
  apply IH. lia.
Qed.
End Copying.

(** ** Mapping the range *)

Section Mapping.
  Variables (ram : Z) (stacks : list (option Z)).
  Implicit Types (vm : Vm) (A : gmap Z Z) (live : gset Z).

(** Nothing user memory shows has changed. *)
Record same_memory vm A live vm' : Prop := {
  sm_space : space ram vm' A live;
  sm_mem : forall k f, A !! k = Some f -> mem vm' !! (f * 4096) = mem vm !! (f * 4096)
}.

Lemma same_memory_pages vm A live vm' : same_memory vm A live vm' -> pages_ok vm A -> pages_ok vm' A.
Proof. intros [_ Hm] Hp n f Hf. rewrite (Hm n f Hf). by apply (Hp n). Qed.

Lemma same_memory_byte vm A live vm' v : same_memory vm A live vm' -> user_byte vm' A v = user_byte vm A v.
Proof. intros [_ Hm]. unfold user_byte. destruct (A !! (v / 4096)) as [f|] eqn:E; [|done]. simpl. by rewrite (Hm _ f E). Qed.

Lemma same_memory_trans vm A live vm1 vm2 : same_memory vm A live vm1 -> same_memory vm1 A live vm2 -> same_memory vm A live vm2.
Proof. intros [_ H1] [Hs H2]. constructor; [done|]. intros k f Hf. rewrite (H2 k f Hf). by apply (H1 k). Qed.

(** Mapping a page again takes no frame. *)
Lemma map_page_again vm A live v f :
  space ram vm A live -> stacks_live stacks live -> 0 <= v < WM_SHARED_BASE -> A !! (v / 4096) = Some f ->
  exists vm', map_page ram stacks v vm = Ret vm' /\ same_memory vm A live vm'.
Proof.
  intros Hsp Hst Hv HA. destruct (page_of_addr v Hv) as (Hn & Hm & Hdiv). destruct (space_slot v Hm) as (_ & _ & Hvu).
  destruct (page_fields v Hvu) as [Hpd Hpt]. pose proof (sp_vm _ _ _ _ Hsp) as Hok. destruct (page_slot _ Hn) as (Hi & _ & Hj).
  destruct (leaf_entry ram vm A live _ f Hsp HA) as (e & x & He & Hs & _). 
  assert (0 <= v / 4096 / 1024 < zlen (dir vm)) as Hil by (destruct (vo_dir _ _ _ Hok) as [-> _]; unfold slot_ok in Hi; lia).
  assert (exists vm1, user_table ram stacks vm (v / 4096 / 1024) = Ret vm1 /\ frames vm1 = frames vm) as (vm1 & Hu & Hfr).
  { unfold user_table. rewrite (proj2 (idx_Ret _ _ _) He), bind_Ret_l, zero_pde, (proj2 (small_iff e) Hs).
    unfold set_pde. rewrite upd_in_range by done. rewrite bind_Ret_l. by eexists. }
  unfold map_page, alloc_and_map_user_page. rewrite Hpd, Hpt, Hdiv, Hu, bind_Ret_l.
  destruct (space_user_table ram stacks vm A live _ Hsp Hst Hn) as [[Hp _]|(vm1' & live1 & e1 & Hu' & Hsp1 & _ & _ & He1 & Hs1 & Hmem1)];
    [congruence|]. rewrite Hu in Hu'. injection Hu' as <-.
  assert (live1 = live) as ->.
  { eapply live_unique; [apply (vo_frames _ _ _ (sp_vm _ _ _ _ Hsp1))|rewrite Hfr; apply (vo_frames _ _ _ Hok)]. }
  rewrite (proj2 (idx_Ret _ _ _) He1), bind_Ret_l. cbv zeta.
  destruct (leaf_entry ram vm1 A live _ f Hsp1 HA) as (e' & y & He' & _ & Hyu & Hyp & Hy & Hto).
  rewrite He1 in He'. injection He' as <-. rewrite Hy, bind_Ret_l, Hyp.
  assert (table_of (Z.lor y USER) = f * 4096) as Ht by (rewrite table_of_lor_attr; [done|unfold USER; lia]).
  destruct (space_pte ram vm1 A live _ e1 (Z.lor y USER) Hsp1 Hn He1 Hs1) as (vm' & -> & Hsp' & Hmem & _).
  { unfold in_u in *. apply lor_range; [lia|done|unfold USER; lia]. }
  { intros _. rewrite Ht, Z.div_mul by lia. destruct (sp_dom _ _ _ _ Hsp1 _ _ HA) as (_ & ? & ?). split_and!; try done.
    intros n' Hn'. by eapply (sp_inj _ _ _ _ Hsp1). }
  exists vm'. split; [done|]. constructor.
  - unfold entry_change in Hsp'. rewrite has_lor, Hyp, Ht, Z.div_mul, insert_id in Hsp' by (done || lia || by exists 0). done.
  - intros k g Hk. destruct (sp_dom _ _ _ _ Hsp1 _ _ Hk) as (_ & ? & ?). rewrite Hmem by done. by eapply Hmem1.
Qed.

Lemma map_pages_again vm A live p e :
  space ram vm A live -> stacks_live stacks live -> 0 <= p <= e -> e <= WM_SHARED_BASE -> p mod 4096 = 0 -> e mod 4096 = 0 ->
  (forall n, p <= n * 4096 < e -> is_Some (A !! n)) ->
  exists vm', each_page (map_page ram stacks) p e vm = Ret vm' /\ same_memory vm A live vm'.
Proof.
  intros Hsp Hst Hpe He Hpm Hem HA.
  destruct (each_page_cases (map_page ram stacks) (fun _ vm' => same_memory vm A live vm') False p e vm) as [[_ []]|?]; try done.
  - unfold WM_SHARED_BASE in *. lia.
  - intros q vm1 Hq Hqm H1. right. destruct (HA (q / 4096) ltac:(mlia)) as [f Hf].
    destruct (map_page_again vm1 A live q f (sm_space _ _ _ _ H1) Hst ltac:(lia) Hf) as (vm2 & -> & H2).
    exists vm2. split; [done|]. by eapply same_memory_trans.
Qed.

(** The first loop of [load_elf] over pages that are not mapped: every page
    is zero. *)
Record zero_range vm A live (p e : Z) vm' A' live' : Prop := {
  zr_space : space ram vm' A' live';
  zr_pages : pages_ok vm' A';
  zr_live : live ⊆ live';
  zr_out : forall n, ~ p <= n * 4096 < e -> A' !! n = A !! n;
  zr_in : forall n, p <= n * 4096 < e -> exists f, A' !! n = Some f /\ mem vm' !! (f * 4096) = Some zero_page;
  zr_mem : forall k f, A !! k = Some f -> mem vm' !! (f * 4096) = mem vm !! (f * 4096)
}.

Lemma map_gap_ok vm A live p e :
  space ram vm A live -> pages_ok vm A -> stacks_live stacks live -> 0 <= p <= e -> e <= WM_SHARED_BASE ->
  p mod 4096 = 0 -> e mod 4096 = 0 -> (forall n, p <= n * 4096 < e -> A !! n = None) ->
  (each_page (map_gap_page ram stacks) p e vm = Panic /\ room ram live < 2 * ((e - p) / 4096)) \/
  exists vm' A' live', each_page (map_gap_page ram stacks) p e vm = Ret vm' /\ zero_range vm A live p e vm' A' live'.
Proof.
  intros Hsp Hpg Hst Hpe He Hpm Hem HA. unfold WM_SHARED_BASE in *.
  destruct (each_page_cases (map_gap_page ram stacks) (fun q vm1 => exists A' live', zero_range vm A live p q vm1 A' live' /\
     room ram live - 2 * ((q - p) / 4096) <= room ram live') (room ram live < 2 * ((e - p) / 4096)) p e vm)
    as [?|(vm1 & Hr & A' & live' & Hz & _)]; try done; try lia.
  - exists A, live. split; [|rewrite Z.sub_diag; change (0 / 4096) with 0; lia]. constructor; try done. lia.
  - intros q vm1 Hq Hqm (A1 & live1 & [Hs1 Hp1 Hl1 Ho1 Hi1 Hm1] & Hroom). unfold map_gap_page, map_page.
    rewrite (proj2 (Z.ltb_lt _ _)) by lia.
    destruct (space_alloc ram stacks vm1 A1 live1 q Hs1 (stacks_live_mono _ _ _ Hl1 Hst) ltac:(lia)) as
      [[-> Hlack]|(vm2 & A2 & live2 & -> & Hs2 & Hl2 & Hr2 & Hm2 & Hpost)]; [left; split; [done|mlia]|right].
    assert (A1 !! (q / 4096) = None) as Hnone by (rewrite Ho1 by mlia; apply HA; mlia). rewrite Hnone in Hpost.
    destruct Hpost as (f & Hf & -> & Hz). exists vm2. split; [done|]. exists (<[q / 4096 := f]> A1), live2.
    split; [|mlia]. constructor; [done| |set_solver|..].
    + intros n g. destruct (decide (n = q / 4096)) as [->|Hne].
      * rewrite lookup_insert_eq. intros [= <-]. exists zero_page. split; [done|apply zero_page_ok].
      * rewrite lookup_insert_ne by done. intros Hg. rewrite (Hm2 n g Hg). by apply (Hp1 n).
    + intros n Hn. rewrite lookup_insert_ne by mlia. apply Ho1. lia.
    + intros n Hn. destruct (decide (n = q / 4096)) as [->|Hne]; [exists f; by rewrite lookup_insert_eq|].
      rewrite lookup_insert_ne by done. destruct (Hi1 n ltac:(mlia)) as (g & Hg & Hgz). exists g. split; [done|].
      by rewrite (Hm2 n g Hg).
    + intros k g Hk. assert (A1 !! k = Some g) as Hk1.
      { rewrite Ho1; [done|]. intros Hr. rewrite HA in Hk by lia. done. }
      rewrite (Hm2 k g Hk1). by apply (Hm1 k).
  - by left.
  - right. by exists vm1, A', live'.
Qed.
End Mapping.

(** ** Segments *)

(** A segment within user space whose contents are in the file. *)
Definition seg_ok (binary : list Z) (ph : ProgramHeader) : Prop :=
  0 <= p_vaddr ph /\ 0 <= p_filesz ph <= p_memsz ph /\ p_vaddr ph + p_memsz ph <= WM_SHARED_BASE /\
  0 <= p_offset ph /\ p_offset ph + p_filesz ph <= zlen binary.
Definition seg_bytes (binary : list Z) (ph : ProgramHeader) : list Z :=
  take (Z.to_nat (p_filesz ph)) (drop (Z.to_nat (p_offset ph)) binary) ++ replicate (Z.to_nat (p_memsz ph - p_filesz ph)) 0.

Section Segments.
  Variables (ram : Z) (stacks : list (option Z)) (binary : list Z).
  Hypothesis (Hbin : zlen binary < 2 ^ 32) (Hbytes : Forall byte_ok binary).
  Implicit Types (vm : Vm) (A : gmap Z Z) (live : gset Z).

Lemma seg_bytes_len ph : seg_ok binary ph ->
  zlen (take (Z.to_nat (p_filesz ph)) (drop (Z.to_nat (p_offset ph)) binary)) = p_filesz ph /\
  zlen (seg_bytes binary ph) = p_memsz ph.
Proof.
  intros (Hv & Hf & _ & Ho & Hle). unfold seg_bytes. rewrite zlen_app, zlen_replicate. unfold zlen in *.
  rewrite length_take, length_drop. lia.
Qed.

Lemma filled_same vm A live vm1 v bytes vm2 :
  same_memory ram vm A live vm1 -> filled ram vm1 A live v bytes vm2 -> filled ram vm A live v bytes vm2.
Proof.
  intros H1 [Hs Hp Hb]. constructor; [done..|]. intros v' Hv'. rewrite Hb by done. unfold overlay.
  case_match; [done|]. by apply (same_memory_byte ram vm A live).
Qed.

Lemma load_segment_ok ph vm A live :
  space ram vm A live -> pages_ok vm A -> stacks_live stacks live -> seg_ok binary ph -> backed A (p_vaddr ph) (p_memsz ph) ->
  exists vm', load_segment ram stacks ph binary vm = Ret (Ok tt, vm') /\
    filled ram vm A live (p_vaddr ph) (seg_bytes binary ph) vm'.
Proof using Hbin Hbytes.
  intros Hsp Hpg Hst Hok Hbk. destruct (seg_bytes_len ph Hok) as [Hfl _]. destruct Hok as (Hv & Hf & Hvm & Ho & Hle).
  unfold WM_SHARED_BASE in *. unfold load_segment, as_u32. rewrite !Z.mod_small by lia. cbv zeta.
  unfold KERNEL_MMIO_BASE. rewrite (proj2 (Z.leb_gt _ _)), (proj2 (Z.ltb_ge _ _)) by (unfold saturating_add; lia). cbn [orb].
  rewrite (add_u_Ret 32 (p_vaddr ph) (p_memsz ph)), bind_Ret_l, page_up_Ret, bind_Ret_l, page_down_eq by (unfold in_u; lia).
  unfold page_len. destruct (map_pages_again ram stacks vm A live (p_vaddr ph - p_vaddr ph mod 4096)
    (p_vaddr ph + p_memsz ph + 4095 - (p_vaddr ph + p_memsz ph + 4095) mod 4096) Hsp Hst) as (vm1 & -> & Hs1);
    [mlia|unfold WM_SHARED_BASE; mlia|mlia|mlia|intros n Hn; apply Hbk; mlia|]. rewrite bind_Ret_l.
  pose proof (same_memory_pages _ _ _ _ _ Hs1 Hpg) as Hp1. set (src := take _ _) in *.
  assert (exists vm2, (if 0 <? p_filesz ph then
      e ← add_u 32 (p_offset ph) (p_filesz ph);
      if zlen binary <? e then Ret (false, vm1) else
      vm ← copy_to_user_virt (length src) vm1 (p_vaddr ph) src; Ret (true, vm) else Ret (true, vm1)) = Ret (true, vm2) /\
    filled ram vm1 A live (p_vaddr ph) src vm2) as (vm2 & -> & H2).
  { destruct (Z.ltb_spec 0 (p_filesz ph)).
    - rewrite add_u_Ret, bind_Ret_l, (proj2 (Z.ltb_ge _ _)) by lia.
      destruct (copy_to_user_virt_ok ram (length src) vm1 A live (p_vaddr ph) src (sm_space _ _ _ _ _ Hs1) Hp1) as (vm2 & -> & H2);
        [lia|unfold WM_SHARED_BASE; lia|intros n ??; apply Hbk; lia|by apply Forall_take, Forall_drop|done|].
      by exists vm2.
    - exists vm1. split; [done|]. replace src with (@nil Z).
      + apply filled_nil; [apply Hs1|done].
      + symmetry. apply nil_length_inv. unfold zlen in Hfl. lia. }
  rewrite bind_Ret_l. cbn [negb].
  assert (exists vm3, (if p_filesz ph <? p_memsz ph then
      start ← add_u 32 (p_vaddr ph) (p_filesz ph);
      zero_user_virt (Z.to_nat (p_memsz ph - p_filesz ph)) vm2 start (p_memsz ph - p_filesz ph) else Ret vm2) = Ret vm3 /\
    filled ram vm1 A live (p_vaddr ph) (seg_bytes binary ph) vm3) as (vm3 & -> & H3).
  { unfold seg_bytes. fold src. destruct (Z.ltb_spec (p_filesz ph) (p_memsz ph)) as [Hlt|Hge].
    - rewrite add_u_Ret, bind_Ret_l, zero_as_copy by lia.
      set (zs := replicate _ 0). assert (zlen zs = p_memsz ph - p_filesz ph) as Hz by (unfold zs; rewrite zlen_replicate; lia).
      destruct (copy_to_user_virt_ok ram (Z.to_nat (p_memsz ph - p_filesz ph)) vm2 A live (p_vaddr ph + p_filesz ph) zs
        (fl_space _ _ _ _ _ _ _ H2) (fl_pages _ _ _ _ _ _ _ H2)) as (vm3 & -> & H3);
        [lia|unfold WM_SHARED_BASE; lia|intros n ??; apply Hbk; lia|unfold zs; by apply Forall_replicate|unfold zs; by rewrite length_replicate|].
      exists vm3. split; [done|]. eapply filled_app; [exact H2|]. by rewrite Hfl.
    - exists vm2. split; [done|]. replace (Z.to_nat (p_memsz ph - p_filesz ph)) with 0%nat by lia. by rewrite app_nil_r. }
  rewrite bind_Ret_l. exists vm3. split; [done|]. by eapply filled_same.
Qed.

(** The loadable segments, and the memory they describe, later segments over
    earlier ones. *)
Definition loads (phs : list ProgramHeader) : list ProgramHeader := List.filter is_load phs.
Definition image (old : Z -> option Z) (phs : list ProgramHeader) : Z -> option Z :=
  foldl (fun old ph => overlay old (p_vaddr ph) (seg_bytes binary ph)) old (loads phs).

Lemma overlay_ext old old' v bytes v' : old v' = old' v' -> overlay old v bytes v' = overlay old' v bytes v'.
Proof. intros H. unfold overlay. by case_match. Qed.

Lemma image_ext old old' phs v : old v = old' v -> image old phs v = image old' phs v.
Proof.
  unfold image. revert old old'. induction (loads phs) as [|ph l IH]; intros old old' H; [done|]. simpl. apply IH.
  by apply overlay_ext.
Qed.

Lemma load_segments_ok phs vm A live :
  space ram vm A live -> pages_ok vm A -> stacks_live stacks live ->
  Forall (seg_ok binary) (loads phs) -> Forall (fun ph => backed A (p_vaddr ph) (p_memsz ph)) (loads phs) ->
  exists vm', load_segments ram stacks phs binary vm = Ret (Ok tt, vm') /\ space ram vm' A live /\ pages_ok vm' A /\
    forall v, 0 <= v < WM_SHARED_BASE -> user_byte vm' A v = image (user_byte vm A) phs v.
Proof using Hbin Hbytes.
  revert vm. induction phs as [|ph phs IH]; intros vm Hsp Hpg Hst Hok Hbk; cbn [load_segments].
  - by exists vm.
  - unfold image, loads in *. cbn [List.filter] in *. destruct (is_load ph); cbn [negb]; [|by apply IH].
    apply Forall_cons in Hok as [Hok Hoks]. apply Forall_cons in Hbk as [Hbk Hbks].
    destruct (load_segment_ok ph vm A live Hsp Hpg Hst Hok Hbk) as (vm1 & -> & [Hs1 Hp1 Hb1]). rewrite bind_Ret_l.
    destruct (IH vm1 Hs1 Hp1 Hst Hoks Hbks) as (vm2 & -> & Hs2 & Hp2 & Hb2). exists vm2. split_and!; try done.
    intros v Hv. rewrite Hb2 by done. simpl. apply (image_ext _ _ phs v). by apply Hb1.
Qed.

(** The range of addresses the loader maps. *)
Lemma address_range_ok phs lo hi :
  Forall (seg_ok binary) (loads phs) -> 0 <= hi <= WM_SHARED_BASE -> 0 <= lo ->
  exists lo' hi', address_range phs lo hi = Ret (lo', hi') /\ 0 <= lo' <= lo /\ hi <= hi' <= WM_SHARED_BASE /\
    Forall (fun ph => lo' <= p_vaddr ph /\ p_vaddr ph + p_memsz ph <= hi') (loads phs).
Proof using Type.
  revert lo hi. induction phs as [|ph phs IH]; intros lo hi Hok Hhi Hlo; cbn [address_range].
  - exists lo, hi. split_and!; done || lia.
  - unfold loads in *. cbn [List.filter] in *. destruct (is_load ph); cbn [negb]; [|by apply IH].
    apply Forall_cons in Hok as [(Hv & Hf & Hvm & Ho & Hle) Hoks]. unfold WM_SHARED_BASE, as_u32 in *.
    rewrite !Z.mod_small by lia. rewrite add_u_Ret, bind_Ret_l by lia.
    destruct (IH (Z.min lo (p_vaddr ph)) (Z.max hi (p_vaddr ph + p_memsz ph)) Hoks) as (lo' & hi' & -> & H1 & H2 & H3); [lia|lia|].
    exists lo', hi'. split_and!; try done; try lia. constructor; [lia|done].
Qed.
End Segments.

(** ** Permissions *)

Definition leaf (vm : Vm) (n : Z) : option Z :=
  e ← get (dir vm) (n / 1024); t ← mem vm !! table_of e; get t (n mod 1024).
Definition leaf_writable (vm : Vm) (n : Z) : option bool := (fun x => has x WRITABLE) <$> leaf vm n.

Section Protect.
  Variable (ram : Z).
  Implicit Types (vm : Vm) (A : gmap Z Z) (live : gset Z).

Lemma leaf_pt_write vm A live n e x vm' :
  space ram vm A live -> 0 <= n < USER_PAGES -> get (dir vm) (n / 1024) = Some e -> is_small e ->
  pt_write vm (table_of e) (n mod 1024) x = Ret vm' ->
  forall k f, A !! k = Some f -> leaf vm' k = if k =? n then Some x else leaf vm k.
Proof.
  intros Hsp Hn He Hs Hw k f Hk. pose proof (sp_vm _ _ _ _ Hsp) as Hok. destruct (page_slot n Hn) as (Hi & _ & Hj).
  destruct (vo_tables _ _ _ Hok _ e Hi He Hs) as (t & Ht & [Htl _] & _).
  unfold pt_write in Hw. rewrite (alias_table ram vm live Hok _ e Hi He Hs), bind_Ret_l, Ht in Hw. cbn [unwrap] in Hw. rewrite bind_Ret_l, upd_in_range, bind_Ret_l in Hw
    by (rewrite Htl; exact Hj). injection Hw as <-. unfold leaf. simpl.
  destruct (sp_dom _ _ _ _ Hsp k f Hk) as (Hkr & _ & _). destruct (page_slot k Hkr) as (Hki & _ & Hkj).
  destruct (leaf_entry ram vm A live k f Hsp Hk) as (e' & x' & He' & Hs' & _). rewrite He'. simpl.
  destruct (decide (k / 1024 = n / 1024)) as [Heq|Hne].
  - rewrite Heq, He in He'. injection He' as <-. rewrite lookup_insert_eq, Ht. simpl. rewrite get_insert by (rewrite Htl; exact Hj).
    destruct (Z.eqb_spec (n mod 1024) (k mod 1024)), (Z.eqb_spec k n); try done; exfalso; mlia.
  - rewrite lookup_insert_ne; [|intros Hx; apply Hne; symmetry; by eapply (vo_inj _ _ _ Hok _ _ e e')].
    destruct (Z.eqb_spec k n) as [->|]; [done|]. done.
Qed.

Lemma protect_page_ok vm A live p f w :
  space ram vm A live -> 0 <= p < WM_SHARED_BASE -> A !! (p / 4096) = Some f ->
  exists vm', protect_page w p vm = Ret vm' /\ same_memory ram vm A live vm' /\
    forall k g, A !! k = Some g -> leaf_writable vm' k = if k =? p / 4096 then Some w else leaf_writable vm k.
Proof.
  intros Hsp Hp HA. unfold WM_SHARED_BASE in *. assert (in_u32 p) as Hpu by (unfold in_u; lia).
  assert (Z.land p (not_u 32 0xFFF) = p - p mod 4096) as Hpage by (apply (land_not_ones 32 p 12); [lia|done]).
  assert (in_u32 (p - p mod 4096)) as Hqu by (unfold in_u; mlia).
  destruct (page_fields (p - p mod 4096) Hqu) as [Hpd Hpt]. destruct (page_of_addr p Hp) as (Hn & _ & _).
  destruct (leaf_entry ram vm A live _ f Hsp HA) as (e & x & He & Hs & Hxu & Hxp & Hx & Hto).
  unfold protect_page, set_user_page_writable. rewrite Hpage, Hpd, Hpt.
  replace ((p - p mod 4096) / 4194304) with (p / 4096 / 1024) by mlia.
  replace ((p - p mod 4096) / 4096 mod 1024) with (p / 4096 mod 1024) by mlia.
  rewrite (proj2 (idx_Ret _ _ _) He), bind_Ret_l, (proj2 (small_iff e) Hs), Hx, bind_Ret_l, Hxp. cbn [negb].
  destruct (with_writable_ok x w Hxu) as (Hu' & Ht' & Hp' & _ & Hw').
  destruct (space_pte ram vm A live _ e (with_writable x w) Hsp Hn He Hs Hu') as (vm' & Hw & Hsp' & Hmem & _).
  { intros _. rewrite Ht', Hto, Z.div_mul by lia. destruct (sp_dom _ _ _ _ Hsp _ _ HA) as (_ & ? & ?). split_and!; try done.
    intros n' Hn'. by eapply (sp_inj _ _ _ _ Hsp). }
  exists vm'. split; [by destruct w|]. split.
  - unfold entry_change in Hsp'. rewrite Hp', Hxp, Ht', Hto, Z.div_mul, insert_id in Hsp' by (done || lia). constructor; [done|].
    intros k g Hk. destruct (sp_dom _ _ _ _ Hsp _ _ Hk) as (_ & ? & ?). by apply Hmem.
  - intros k g Hk. unfold leaf_writable. rewrite (leaf_pt_write vm A live _ e _ vm' Hsp Hn He Hs Hw k g Hk).
    destruct (k =? p / 4096); [|done]. simpl. by rewrite Hw'.
Qed.

(** Pages of a segment. *)
Definition covers (k : Z) (ph : ProgramHeader) : bool :=
  (p_vaddr ph - p_vaddr ph mod 4096 <=? k * 4096) && (k * 4096 <? p_vaddr ph + p_memsz ph).

Lemma protect_range_ok vm A live p e w :
  space ram vm A live -> 0 <= p <= e -> e <= WM_SHARED_BASE -> p mod 4096 = 0 -> e mod 4096 = 0 ->
  (forall n, p <= n * 4096 < e -> is_Some (A !! n)) ->
  exists vm', each_page (protect_page w) p e vm = Ret vm' /\ same_memory ram vm A live vm' /\
    forall k g, A !! k = Some g -> leaf_writable vm' k = if (p <=? k * 4096) && (k * 4096 <? e) then Some w else leaf_writable vm k.
Proof.
  intros Hsp Hpe He Hpm Hem HA.
  destruct (each_page_cases (protect_page w) (fun q vm1 => same_memory ram vm A live vm1 /\ forall k g, A !! k = Some g ->
    leaf_writable vm1 k = if (p <=? k * 4096) && (k * 4096 <? q) then Some w else leaf_writable vm k) False p e vm)
    as [[_ []]|(vm1 & Hr & H1 & H2)]; try done.
  - unfold WM_SHARED_BASE in *. lia.
  - split; [by constructor|]. intros k g Hk. destruct (Z.leb_spec p (k * 4096)), (Z.ltb_spec (k * 4096) p); simpl; done || lia.
  - intros q vm1 Hq Hqm [H1 H2]. right. destruct (HA (q / 4096) ltac:(mlia)) as [f Hf].
    destruct (protect_page_ok vm1 A live q f w (sm_space _ _ _ _ _ H1) ltac:(lia) Hf) as (vm2 & -> & H3 & H4).
    exists vm2. split; [done|]. split; [by eapply same_memory_trans|]. intros k g Hk. rewrite (H4 k g Hk), (H2 k g Hk).
    destruct (Z.eqb_spec k (q / 4096)) as [->|Hne].
    + rewrite (proj2 (Z.leb_le _ _)), (proj2 (Z.ltb_lt _ _)) by mlia. done.
    + destruct (Z.leb_spec p (k * 4096)); [simpl|done].
      destruct (Z.ltb_spec (k * 4096) q), (Z.ltb_spec (k * 4096) (q + 4096)); try done; exfalso; mlia.
  - by exists vm1.
Qed.
End Protect.

(** ** The whole file *)

Definition writes (w : bool) (ph : ProgramHeader) : bool := negb w || negb (Z.land (p_flags ph) PF_W =? 0).

Section Whole.
  Variables (ram : Z) (stacks : list (option Z)) (binary : list Z).
  Hypothesis (Hbin : zlen binary < 2 ^ 32) (Hbytes : Forall byte_ok binary).
  Implicit Types (vm : Vm) (A : gmap Z Z) (live : gset Z).

Lemma covers_end ph k : 0 <= p_vaddr ph -> 0 <= p_memsz ph ->
  covers k ph = (p_vaddr ph - p_vaddr ph mod 4096 <=? k * 4096) && (k * 4096 <? page_len (p_vaddr ph + p_memsz ph)).
Proof.
  intros Hv Hm. unfold covers, page_len. f_equal.
  destruct (Z.ltb_spec (k * 4096) (p_vaddr ph + p_memsz ph)), (Z.ltb_spec (k * 4096) (p_vaddr ph + p_memsz ph + 4095 - (p_vaddr ph + p_memsz ph + 4095) mod 4096));
    try done; exfalso; mlia.
Qed.

Lemma protect_segments_ok phs w vm A live :
  space ram vm A live -> Forall (seg_ok binary) (loads phs) ->
  Forall (fun ph => backed A (p_vaddr ph) (p_memsz ph)) (loads phs) ->
  exists vm', protect_segments phs w vm = Ret vm' /\ same_memory ram vm A live vm' /\
    forall k g, A !! k = Some g ->
      leaf_writable vm' k = if existsb (fun ph => writes w ph && covers k ph) (loads phs) then Some w else leaf_writable vm k.
Proof using Type.
  revert vm. induction phs as [|ph phs IH]; intros vm Hsp Hok Hbk; cbn [protect_segments].
  - exists vm. split; [done|]. split; [by constructor|]. done.
  - unfold loads in *. cbn [List.filter] in *. destruct (is_load ph); cbn [negb orb]; [|by apply IH].
    apply Forall_cons in Hok as [Hok Hoks]. apply Forall_cons in Hbk as [Hbk Hbks]. cbn [existsb]. unfold writes at 1.
    destruct (w && (Z.land (p_flags ph) PF_W =? 0)) eqn:Hskip.
    + apply andb_true_iff in Hskip as [-> ->]. cbn [negb orb andb]. by apply IH.
    + replace (negb w || negb (Z.land (p_flags ph) PF_W =? 0)) with true
        by (symmetry; rewrite <- negb_andb, Hskip; done).
      destruct Hok as (Hv & Hf & Hvm & Ho & Hle). unfold WM_SHARED_BASE in *.
      rewrite add_u_Ret, bind_Ret_l by lia. unfold PAGE_SIZE. rewrite add_u_Ret, bind_Ret_l by lia. cbv zeta. unfold as_u32.
      assert (align_down 64 (p_vaddr ph + p_memsz ph + 4096 - 1) 4096 mod 2 ^ 32 = page_len (p_vaddr ph + p_memsz ph)) as ->.
      { replace (p_vaddr ph + p_memsz ph + 4096 - 1) with (p_vaddr ph + p_memsz ph + 4095) by lia.
        pose proof (land_not_ones 64 (p_vaddr ph + p_memsz ph + 4095) 12 ltac:(lia) ltac:(lia)) as Hal.
        change (2 ^ 12) with 4096 in Hal. rewrite Hal.
        unfold page_len. rewrite Z.mod_small by mlia. done. }
      rewrite Z.mod_small, page_down_eq by (unfold in_u; lia).
      destruct (protect_range_ok ram vm A live (p_vaddr ph - p_vaddr ph mod 4096) (page_len (p_vaddr ph + p_memsz ph)) w Hsp) as
        (vm1 & -> & H1 & H2); [unfold page_len; mlia|unfold page_len, WM_SHARED_BASE; mlia|mlia|unfold page_len; mlia| |].
      { intros n Hn. apply Hbk; unfold page_len in Hn; mlia. }
      rewrite bind_Ret_l. destruct (IH vm1 (sm_space _ _ _ _ _ H1) Hoks Hbks) as (vm2 & -> & H3 & H4).
      exists vm2. split; [done|]. split; [by eapply same_memory_trans|]. intros k g Hk.
      rewrite (H4 k g Hk), (H2 k g Hk), (covers_end ph k) by lia.
      destruct ((p_vaddr ph - p_vaddr ph mod 4096 <=? k * 4096) && (k * 4096 <? page_len (p_vaddr ph + p_memsz ph))); cbn [andb orb];
        by destruct (existsb _ _).
Qed.

Lemma overlays_outside l old v : Forall (seg_ok binary) l -> Forall (fun ph => ~ p_vaddr ph <= v < p_vaddr ph + p_memsz ph) l ->
  foldl (fun old ph => overlay old (p_vaddr ph) (seg_bytes binary ph)) old l v = old v.
Proof using Type.
  revert old. induction l as [|ph l IH]; intros old Hok Hout; [done|]. simpl.
  apply Forall_cons in Hok as [Hok Hoks]. apply Forall_cons in Hout as [Ho Hout]. rewrite IH by done. unfold overlay.
  destruct (seg_bytes_len binary ph Hok) as [_ ->].
  destruct (Z.leb_spec (p_vaddr ph) v), (Z.ltb_spec v (p_vaddr ph + p_memsz ph)); simpl; done || lia.
Qed.

Lemma image_outside old phs v : Forall (seg_ok binary) (loads phs) ->
  Forall (fun ph => ~ p_vaddr ph <= v < p_vaddr ph + p_memsz ph) (loads phs) -> image binary old phs v = old v.
Proof using Type. apply overlays_outside. Qed.

(** The byte a loaded program has at [v]. *)
Definition image_byte (phs : list ProgramHeader) (v : Z) : Z := default 0 (image binary (fun _ => Some 0) phs v).

Lemma image_defined old phs v b : old v = Some b -> exists b', image binary old phs v = Some b'.
Proof using Type.
  unfold image. revert old b. induction (loads phs) as [|ph l IH]; intros old b Hb; [by exists b|]. simpl.
  assert (exists b1, overlay old (p_vaddr ph) (seg_bytes binary ph) v = Some b1) as [b1 Hb1]; [|by apply (IH _ b1)].
  unfold overlay. destruct (Z.leb_spec (p_vaddr ph) v), (Z.ltb_spec v (p_vaddr ph + zlen (seg_bytes binary ph))); simpl; eauto.
  apply get_in_range. lia.
Qed.

Lemma peek_user vm A live v : space ram vm A live -> pages_ok vm A -> 0 <= v < WM_SHARED_BASE ->
  peek vm v = match user_byte vm A v with Some b => Ret b | None => Panic end.
Proof using Type.
  intros Hsp Hpg Hv. unfold peek, user_byte. rewrite (space_translate ram vm A live v Hsp Hv), bind_Ret_l.
  destruct (A !! (v / 4096)) as [f|] eqn:HA; [|done]. cbn [fmap option_fmap option_map unwrap]. rewrite bind_Ret_l.
  destruct (sp_dom _ _ _ _ Hsp _ _ HA) as (_ & Hf & _).
  pose proof (live_range ram _ live f (vo_ram _ _ _ (sp_vm _ _ _ _ Hsp)) (vo_frames _ _ _ (sp_vm _ _ _ _ Hsp)) Hf) as Hr.
  assert (table_of (f * 4096 + v mod 4096) = f * 4096) as -> by (rewrite table_of_sub by (unfold in_u; mlia); mlia).
  replace ((f * 4096 + v mod 4096) mod 4096) with (v mod 4096) by mlia.
  replace ((f * 4096 + v mod 4096) mod 4) with (v mod 4096 mod 4) by mlia.
  destruct (Hpg _ _ HA) as (page & Hm & Hpok). simpl. rewrite Hm. simpl. unfold pbyte.
  destruct (table_ok_get page (v mod 4096 / 4) Hpok ltac:(unfold index_ok; mlia)) as (w & Hw & _).
  rewrite (proj2 (idx_Ret _ _ _) Hw), Hw. done.
Qed.

Lemma zero_byte vm A f v : A !! (v / 4096) = Some f -> mem vm !! (f * 4096) = Some zero_page -> user_byte vm A v = Some 0.
Proof using Type.
  intros HA Hm. unfold user_byte. rewrite HA. simpl. rewrite Hm. simpl. unfold pbyte.
  rewrite get_zero_page by (unfold index_ok; mlia). simpl. unfold byte_of. by rewrite Z.shiftr_0_l.
Qed.

(** What loading leaves, over the pages [A'] of the process. *)
Lemma load_pages_ok phs vm A live lo hi :
  space ram vm A live -> pages_ok vm A -> stacks_live stacks live -> Forall (seg_ok binary) (loads phs) ->
  0 <= lo <= hi -> hi <= WM_SHARED_BASE ->
  Forall (fun ph => lo <= p_vaddr ph /\ p_vaddr ph + p_memsz ph <= hi) (loads phs) ->
  (forall n, lo - lo mod 4096 <= n * 4096 < hi -> A !! n = None) ->
  2 * ((page_len hi - (lo - lo mod 4096)) / 4096) <= room ram live ->
  exists vm1 A' live' vm' vm2 vm3,
    each_page (map_gap_page ram stacks) (lo - lo mod 4096) (page_len hi) vm = Ret vm1 /\
    load_segments ram stacks phs binary vm1 = Ret (Ok tt, vm') /\
    protect_segments phs false vm' = Ret vm2 /\ protect_segments phs true vm2 = Ret vm3 /\
    space ram vm3 A' live' /\ pages_ok vm3 A' /\
    (forall v, 0 <= v < WM_SHARED_BASE -> user_byte vm3 A' v =
       if (lo - lo mod 4096 <=? v) && (v <? page_len hi) then Some (image_byte phs v) else user_byte vm A v) /\
    (forall n, ~ lo - lo mod 4096 <= n * 4096 < page_len hi -> A' !! n = A !! n) /\
    (forall k, existsb (covers k) (loads phs) = true ->
       leaf_writable vm3 k = Some (existsb (fun ph => writes true ph && covers k ph) (loads phs))).
Proof using Hbin Hbytes.
  intros Hsp Hpg Hst Hok Hlh Hhi Hin HA Hroom. unfold WM_SHARED_BASE in *. set (p := lo - lo mod 4096) in *.
  assert (p mod 4096 = 0 /\ page_len hi mod 4096 = 0 /\ 0 <= p <= lo /\ hi <= page_len hi <= 0xA0000000) as (Hpm & Hem & Hpl & Hhe)
    by (unfold p, page_len; mlia).
  destruct (map_gap_ok ram stacks vm A live p (page_len hi) Hsp Hpg Hst ltac:(lia) ltac:(unfold WM_SHARED_BASE; lia) Hpm Hem) as
    [[_ Hx]|(vm1 & A' & live' & Hr1 & [Hs1 Hp1 Hl1 Ho1 Hi1 Hm1])]; [intros n Hn; apply HA; unfold page_len in *; mlia|lia|].
  assert (Forall (fun ph => backed A' (p_vaddr ph) (p_memsz ph)) (loads phs)) as Hbk.
  { eapply Forall_impl; [exact Hin|]. intros ph [H1 H2] n Hn1 Hn2. destruct (Hi1 n) as (f & Hf & _); [mlia|by exists f]. }
  pose proof (stacks_live_mono _ _ _ Hl1 Hst) as Hst1.
  destruct (load_segments_ok ram stacks binary Hbin Hbytes phs vm1 A' live' Hs1 Hp1 Hst1 Hok Hbk) as (vm' & Hr2 & Hs2 & Hp2 & Hb2).
  destruct (protect_segments_ok phs false vm' A' live' Hs2 Hok Hbk) as (vm2 & Hr3 & H3 & Hw3).
  destruct (protect_segments_ok phs true vm2 A' live' (sm_space _ _ _ _ _ H3) Hok Hbk) as (vm3 & Hr4 & H4 & Hw4).
  exists vm1, A', live', vm', vm2, vm3. split_and!; try done.
  - apply H4.
  - eapply same_memory_pages; [exact H4|]. eapply same_memory_pages; [exact H3|done].
  - intros v Hv. rewrite (same_memory_byte _ _ _ _ _ v H4), (same_memory_byte _ _ _ _ _ v H3), Hb2 by done.
    destruct (decide (p <= v < page_len hi)) as [Hr|Hr].
    + rewrite (proj2 (Z.leb_le _ _)), (proj2 (Z.ltb_lt _ _)) by lia. simpl.
      destruct (Hi1 (v / 4096) ltac:(mlia)) as (f & Hf & Hz). pose proof (zero_byte vm1 A' f v Hf Hz) as H0.
      rewrite (image_ext binary _ (fun _ => Some 0) phs v H0). unfold image_byte.
      by destruct (image_defined (fun _ => Some 0) phs v 0 eq_refl) as [b ->].
    + replace ((p <=? v) && (v <? page_len hi)) with false by (symmetry; apply andb_false_iff; rewrite Z.leb_gt, Z.ltb_ge; lia).
      rewrite image_outside; [|done|eapply Forall_impl; [exact Hin|]; simpl; intros; lia].
      unfold user_byte. rewrite Ho1 by mlia. destruct (A !! (v / 4096)) as [f|] eqn:E; [|done]. simpl. by rewrite (Hm1 _ _ E).
  - intros k Hk. apply existsb_exists in Hk as (ph & Hph & Hcov).
    pose proof (proj1 (Forall_forall _ _) Hin ph ltac:(by apply list_elem_of_In)) as [Hl1' Hl2'].
    assert (exists f, A' !! k = Some f) as [f Hf].
    { unfold covers in Hcov. apply andb_true_iff in Hcov as [Hc1 Hc2]. apply Z.leb_le in Hc1. apply Z.ltb_lt in Hc2.
      destruct (Hi1 k) as (f & Hf & _); [unfold p; mlia|by exists f]. }
    rewrite (Hw4 k f Hf), (Hw3 k f Hf). destruct (existsb (fun ph => writes true ph && covers k ph) (loads phs)) eqn:E; [done|].
    replace (existsb (fun ph => writes false ph && covers k ph) (loads phs)) with true; [done|].
    symmetry. apply existsb_exists. exists ph. split; [done|]. by rewrite Hcov.
Qed.

(** The byte of a segment at distance [i] from its start. *)
Definition segment_byte (ph : ProgramHeader) (i : Z) : Z :=
  if i <? p_filesz ph then default 0 (get binary (p_offset ph + i)) else 0.

Lemma seg_bytes_get ph i : seg_ok binary ph -> 0 <= i < p_memsz ph -> get (seg_bytes binary ph) i = Some (segment_byte ph i).
Proof using Type.
  intros Hok Hi. destruct (seg_bytes_len binary ph Hok) as [Hfl Hml]. destruct Hok as (Hv & Hf & _ & Ho & Hle).
  unfold segment_byte. destruct (Z.ltb_spec i (p_filesz ph)) as [Hlt|Hge]; unfold seg_bytes in *.
  - rewrite get_app_lt by lia. destruct (get_in_range binary (p_offset ph + i) ltac:(lia)) as [b Hb]. rewrite Hb. simpl.
    unfold get in *. rewrite (proj2 (Z.ltb_ge _ _)) in Hb by lia. rewrite (proj2 (Z.ltb_ge _ _)) by lia.
    rewrite lookup_take_lt by lia. rewrite lookup_drop. rewrite <- Hb. f_equal. lia.
  - rewrite get_app_ge by lia. rewrite Hfl. 
    destruct (get_in_range (replicate (Z.to_nat (p_memsz ph - p_filesz ph)) 0) (i - p_filesz ph)) as [b Hb];
      [rewrite zlen_replicate; lia|]. rewrite Hb. f_equal. by apply get_replicate in Hb.
Qed.

(** The last segment at an address decides its byte. *)
Lemma image_byte_last phs l1 ph l2 v :
  Forall (seg_ok binary) (loads phs) -> loads phs = l1 ++ ph :: l2 -> p_vaddr ph <= v < p_vaddr ph + p_memsz ph ->
  Forall (fun ph => ~ p_vaddr ph <= v < p_vaddr ph + p_memsz ph) l2 -> image_byte phs v = segment_byte ph (v - p_vaddr ph).
Proof using Type.
  intros Hok Heq Hv Hl2. unfold image_byte, image. rewrite Heq in *. apply Forall_app in Hok as [_ [Hok Hoks]%Forall_cons].
  rewrite foldl_app. simpl. rewrite overlays_outside by done. unfold overlay. destruct (seg_bytes_len binary ph Hok) as [_ ->].
  rewrite (proj2 (Z.leb_le _ _)), (proj2 (Z.ltb_lt _ _)) by lia. simpl. by rewrite seg_bytes_get by (done || lia).
Qed.
End Whole.

(** ** Properties *)


(** A program with a read-only segment and a writable one. *)
Definition wit_binary : list Z := [11; 12; 13; 14].
Definition wit_headers : list ProgramHeader := [mkPh PT_LOAD 5 0 0x1000 3 3; mkPh PT_LOAD 6 3 0x2000 2 1].
Definition wit_file : ElfFile := mkElf ET_EXEC EM_386 0x1000 (Some wit_headers).


(** ** Files the loader does not survive *)

(** A segment that ends beyond the address space panics the kernel. *)
Lemma load_elf_overflow_panics ram stacks binary vm file ph phs :
  e_type file = ET_EXEC -> e_machine file = EM_386 -> segments file = Some (ph :: phs) -> is_load ph = true ->
  2 ^ 32 <= as_u32 (p_vaddr ph) + as_u32 (p_memsz ph) -> load_elf ram stacks (Some file) binary vm = Panic.
Proof.
  intros H1 H2 H3 Hl Ho. unfold load_elf. rewrite H1, H2, H3, !Z.eqb_refl. cbn [negb address_range]. rewrite Hl. cbn [negb].
  unfold add_u. by rewrite (proj2 (Z.ltb_ge _ _)) by lia.
Qed.

(** A segment in the kernel's device window is refused only after its pages
    were mapped for the user. *)
Definition wit_window : outcome (result Z ElfLoadError * Vm) :=
  load_elf (64 * MIB) [] (Some (mkElf ET_EXEC EM_386 0 (Some [mkPh PT_LOAD 5 0 KERNEL_MMIO_BASE 1 0]))) [] (mm_vm wit_mm).
Definition wit_window_vm : Vm := match wit_window with Ret (_, vm) => vm | Panic => mm_vm wit_mm end.
Lemma window_mapped_before_check :
  wit_window = Ret (Err InvalidAddress, wit_window_vm) /\ (fun x => x.2) <$> hw_walk wit_window_vm KERNEL_MMIO_BASE = Some true.
Proof. split; vm_compute; reflexivity. Qed.
